(* ===== verification/_CoqProject ===== *)
-Q . S2P
Prelude.v
PyStr.v
Regex.v
RegexParse.v
RegexFacts.v
Shlex.v
PolicyTypes.v
Context.v
Confidence.v
Packs.v
PackSystem.v
PackCloud.v
PackNetwork.v
PackDev.v
Registry.v
Prefilter.v
Gates.v
Profiles.v
Heredoc.v
AstMatcher.v
Scan.v
Digests.v
World.v
Ask.v
Allowlist.v
AccessControl.v
ClientIp.v
Agents.v
Engine.v
CommandGate.v
CircuitBreaker.v
TargetHost.v
SshPool.v
Sessions.v
SessionFacts.v
Rbac.v
AgentTokens.v
Url.v
Coordination.v
EventHooks.v
Auth.v
UserAuth.v
Redis.v
DurableJobs.v
DurableFacts.v
Locks.v
Jobs.v
FileSystem.v
UnifiedDiff.v
WorkspacePolicy.v
WorkspaceEdit.v
WorkspaceFacts.v
ProjectPatch.v
Assets.v
KnownHosts.v
Instances.v
EngineSpec.v
AskSpec.v
GatesSpec.v
PacksSpec.v
PolicyFindings.v
HeredocSpec.v
AccessSpec.v
DiffSpec.v
WorkspaceSpec.v
AssetSpec.v
Snapshots.v
SnapshotSpec.v
DurableSpec.v
RecoverySpec.v
AuthSpec.v
SessionSpec.v
CoordinationSpec.v
EventHookSpec.v
JobSpec.v
Witnesses.v
DurableWitnesses.v
AuthWitnesses.v
SessionWitnesses.v
CoordinationWitnesses.v
