(* ===== verification/Prelude.v ===== *)
(** * agent-ssh-gateway: the command-authorization core

    The gateway lets agents run commands on remote hosts over SSH.  Every route that executes
    a command first asks [evaluate_with_access_gate] (src/app/services/command_gate.py), and
    this development models what that call reaches: the access gate, the policy engine with
    its gates and profiles, the 16 packs of destructive patterns, the allowlist and the
    approval store; and, beside it, the authentication in front of every route with its tokens
    and accounts, the checks on identities and addresses, the circuit breakers in front of the
    SSH hosts, the job manager with its durable submissions and executions in Redis, the
    distributed locks, the workspace tools that read, write, edit and patch the files of a
    project, with the snapshots that undo them, the coordination threads that projects keep on
    Gitea issues, and the event hooks with their outbox.

    ** Parts, files and code

    - [PyStr], [Shlex], [Regex], [RegexParse], [Digests]: what the code uses of Python's [str],
      [shlex], [re], [hashlib] and [base64].  [RegexFacts] proves the backtracking matcher sound and
      complete for a declarative reading of patterns.
    - [World]: the process.  A computation [M A] takes a [World] (approval store, allowlist
      entries, access decisions, background tasks, audit events, command metrics, how often
      the clock was read and an identifier drawn) to a value or an exception and the next
      [World].  [Env] is the successive readings of the clock and identifiers, arbitrary.
    - [PolicyTypes], [Gates], [Profiles], [Engine], [Scan]: app/command_policy.py.  [Gates] is
      gates 1 and 2, [Profiles] the evaluators and validators of gate 3, [Engine] the pipeline
      and [evaluate_command_policy], [Scan] is [scan_command].
    - [Heredoc] (gate 2b) and [AstMatcher]: app/heredoc_scanner.py and app/ast_matcher.py.
    - [Context], [Confidence]: app/context.py and app/confidence.py.
    - [Packs], [Registry] and the 16 packs in [PackSystem], [PackCloud], [PackNetwork] and
      [PackDev]: app/packs/.  The policy engine sees
      the registry through the class [Scanner] ([scan_all], [scan_pack]), so its theorems hold
      for any packs; [registry_scanner] is the shipped instance, [null_scanner] the empty one.
      [Prefilter] is a static analysis of patterns against keywords, proved sound.
    - [Ask], [Allowlist], [AccessControl]: app/policy_ask.py, app/allowlist.py,
      app/access_control.py.  Their methods are computations on [World]; where two classes
      use the same method name the model says which ([ac_get], [allowlist_check]).
    - [Agents], [CommandGate], [ClientIp], [Rbac]: app/agent_profiles.py,
      app/services/command_gate.py, app/rbac.py, and the address, scope and ownership checks
      of app/auth_middleware.py.
    - [AgentTokens], [Url], [Auth], [UserAuth]: app/agent_token_store.py with the token routes
      of app/routers/ssh.py, the part of [urllib.parse] the origin checks use, the middleware and
      the WebSocket guard of app/auth_middleware.py ([guarded_route] is the middleware of
      app/main.py before a [require_scope]), and app/user_auth.py.  Redis strings, JWT and
      bcrypt are classes ([Strings], [Jwt], [Bcrypt]) with their documented laws.
    - [CircuitBreaker]: app/circuit_breaker.py.  A method is one step, as each holds the
      object's lock throughout; the registry keeps references into a heap of breakers.
    - [TargetHost]: the target of a connection in app/security.py: its host name, the
      allowlist, the denied networks and the resolved addresses, with the printing of
      addresses as the ipaddress module of Python 3.11 does it.
    - [SshPool], [Sessions]: app/ssh_pool.py, and app/ssh_manager.py with the connect route of
      app/routers/ssh.py.  Sessions and connections live in heaps that the table, the pool and
      the tasks in flight share.  No lock is held across an [await], so a method is cut at its
      awaits, and each piece is one [event] of the [System]; [step] does an event and [run] a
      sequence of them, any interleaving of any number of callers.  What a remote host answers
      (an address, an authentication, whether a transport still lives) is part of the event.
      [SessionFacts] holds the invariant ([system_ok]) and the account of who holds what.
    - [Redis]: the commands the queue and the locks send, as a class with the laws they rely on,
      and an in-memory instance.
    - [DurableJobs]: app/redis_queue.py, submissions and durable executions.  A Lua script is a
      computation on the database; a method sends it, and a round trip is delivered, loses its
      reply or never reaches the server ([fate]).  [DurableFacts] gives, for each script, the
      decision it takes on one envelope ([claim_next] and so on).
    - [Locks]: app/distributed_lock.py.  A method is two steps, the command as the server runs it and
      what its coroutine does with the answer ([resume]); the gateways and the server interleave
      by [step].
    - [Jobs]: app/job_manager.py, the operation leases of app/ssh_manager.py and the recovery of
      app/main.py.  Job records live in a heap that the table and their tasks share; a task goes
      from one [await] to the next as one step ([run_start] to [run_leave]); [sound] is the invariant
      of the table.
    - [FileSystem]: what the workspace tools use of [pathlib] and [os]: a tree of files,
      directories and symbolic links, the kernel's path resolution ([walk]) and
      [Path.resolve] ([realpath]).
    - [WorkspacePolicy], [UnifiedDiff], [WorkspaceEdit]: app/workspace/policy.py and edit.py,
      and [project_file_read] of files.py.  A tool is a computation [F A] on the file system.
      [WorkspaceFacts] holds the lemmas of the last.
    - [Coordination]: app/coordination_logic.py and app/coordination_close.py.  A method is a
      [prog], a tree of calls to Gitea, to the receipts on disk and to the audit log; [exec] runs
      it against a server (the class [GiteaServer]) where others act before each call and a call
      is delivered, loses its answer or never arrives ([turn], [fate]).
    - [EventHooks]: app/event_hook_security.py, event_hook_store.py, event_hook_emitter.py and
      event_hook_delivery.py, with the routes of app/routers/event_hooks.py and the redaction of
      app/security.py.  A transaction of the delivery service is two steps, its SELECT and its
      COMMIT, which writes the columns that were changed ([write_row]); [happen] is one step
      of the [Outbox] (an event, a SELECT, a COMMIT, the start or the answer of a POST) and
      [history] a sequence of them, by any number of instances.
    - [Snapshots]: app/workspace/snapshot.py, the store and the rollback over [WorkspaceEdit],
      with the sums over its dicts and the lemmas on eviction.
    - [Assets]: app/workspace/assets.py and asset_transfer.py.  [publish_asset] is a computation
      on the file system, like the tools; the transfer store is a dict of uploads, and [serve]
      answers one [request] to it over the files.
    - [ProjectPatch]: app/patch_apply.py and app/services/project_patch.py, a patch of several files:
      [prepare] reads and computes, [commit] writes with backups and rolls back.
    - [KnownHosts]: app/known_hosts.py, app/routers/known_hosts.py and the host-key policy of
      app/ssh_manager.py.  The abstract store is the class [HostKeyStore] with an instance
      for none, for the file and for the PostgreSQL table; what is shown of them is in the file.

    A call of the gate goes through them in this order: [CommandGate] asks [AccessControl]
    for the effective profile (or refuses), then [Engine], which resolves the mode with
    [Agents], asks [Allowlist], then runs [Gates], [Heredoc] and [Profiles] on the packs and,
    in ASK mode, goes to [Ask]; [CommandGate] logs and counts the decision.

    ** What is shown

    - [EngineSpec]: ENFORCE allows only what the allowlist or every gate allows; ASK never
      escalates gates 1 and 2; AUDIT reports exactly what ENFORCE decides.
    - [AskSpec]: an approved command passes once on its retry, and over any interleaving of
      store operations consumptions never outnumber approvals.
    - [AccessSpec]: a denied actor changes nothing but the clock and its own expired entry, an
      unknown one runs capped, each decision is audited once; the allowlist check as a
      function of the instant; the outcome of the access gate in every case; decisions are
      found again until they expire; client addresses, scopes, visibility; breaker and registry
      invariants, and two ways a half-open period goes wrong.
    - [GatesSpec]: the scanners agree with a quoting automaton; [shlex.join] output is inert
      and splits back; gate 2, the default profile and the five allowlist
      profiles in closed form; the profiles are ordered; [env] adds no power.  Two general
      gaps: the background operator, and a token that can never be found.
    - [PacksSpec]: a pack reports a command exactly when a keyword and a pattern match; all
      shipped patterns compile; which keyword prefilters lose nothing on ASCII commands and one that does; spans
      and confidence are well formed.
    - [HeredocSpec]: the nested scan, the AST matcher and the informational scan lose nothing
      they extract, and command substitutions are extracted.
    - [SessionSpec]: over every interleaving of connections, executions, disconnects and reaper
      turns: how many sessions there can be; a transport is shared only between requests for
      the same host, port, user and credential text; a connection goes to an address that was
      checked; a leased session is not reaped; the pool holds at most what it may, and no
      connection gets lost between pool, sessions and closing.  And failed passwords that lock
      a host.
    - [AuthSpec]: what reaches a guarded route or a WebSocket, exactly: the four credentials, the
      client address, the origin, the scope; and the life of an agent token through its
      lifetime, a refresh, a clearing and the loss of its metadata; at most one administrator,
      made with the setup token only; and the cookie of a login opens the guarded routes.
    - [DiffSpec]: a rendered edit script, applied as a patch, gives the new file; and the three
      cases where it does not.
    - [WorkspaceSpec]: a tool that writes changes only its target below the project root (and
      missing parents), whatever links the project holds; it is all or nothing; what it writes,
      when its confirmation fails too; the file system stays a tree; a read comes from inside the
      workspace and is cut where the limits say.
    - [SnapshotSpec]: the books of the snapshot store over any run; a rollback writes only its
      target, only over the text it expects; a tool, a capture and a rollback leave the files as
      they were; and three places where the store differs from its description.
    - [AssetSpec]: publishing an asset changes its target only, under the lease on what stood
      there, and leaves it alone when it refuses; over any requests to the transfer store, what
      a finished upload publishes is made of the chunks sent for it, end to end, the uploads
      in progress stay within their bounds, and an upload sent whole goes through; what was
      published is read back in pieces.
    - [ProjectPatch]: a patch of several files, each named once, is applied to all of them or to none,
      whatever steps of the disk fail, and stays below the root; its hunks make the file they describe; and six
      places where a patch does something else.
    - [KnownHosts]: a connection passes the PostgreSQL store exactly when the history of stores and
      deletions trusts its key, and the file store only with a key that was put there; and the
      places where the two differ from what their callers are told.
    - [DurableSpec]: over every interleaving of workers, cancellations, recovery scans,
      submissions and lapses of keys, with round trips failing: a worker that lost its lease is
      shut out, one report at most is acknowledged, and stays unless a snapshot replaces it, a cancelled job is not claimed
      again, and the envelopes stay filed as the scans expect.
    - [RecoverySpec]: no job is lost to the scans, a submission key answers for one job and
      keeps its identity; and the unfenced snapshot of a forced shutdown.
    - [Locks]: a lock excludes until its deadline, however requests and coroutines interleave; its
      watchdog runs and keeps it when no earlier [release] goes on late; waiting for one ends.
    - [JobSpec]: a durable job survives a restart from submission to claim; accepted jobs pin
      their sessions exactly; admission; the outcome of a stream; three ways a job goes wrong.
    - [CoordinationSpec]: with others writing between the calls and calls that fail: an event is
      written at most once under its key and, once reported, is there; the states of a thread
      follow the transitions; an issue is closed at most once, after its review, and a closing
      is only reported when it was seen; markers are read as they were written; a thread is read
      whole; an undisturbed write goes through.
    - [EventHookSpec]: over any history of the outbox: a POST goes to addresses outside the block list
      only and carries the signed text made when the event was emitted; what a row says of its
      delivery when transactions overlap, and the full account when they do not; none is lost.
      And where the code does less, delivering nothing on PostgreSQL among them.
    - [PolicyFindings]: closed examples of commands the shipped policy lets through.
    - [Witnesses], [DurableWitnesses], [AuthWitnesses], [SessionWitnesses],
      [CoordinationWitnesses] and the modules [EventHookSpec.Runs], [AssetSpec.AssetRuns],
      [KnownHosts.HostRuns] and [ProjectPatch.PatchRuns]: each property with hypotheses applied at a concrete input
      ([Instances]).

    ** Fuel and bounds

    Loops that are not structural take the length of their input as fuel, and each turn
    consumes a character, a word or a node: [tokenize_from] (any larger fuel gives the same
    tokens, [tokenize_from_fuel]), [substs_from], [profile_fuel] (the code's recursion through
    [env], with the unfolding equation [evaluate_profile_eq]), [walk_from] (one entry per
    node), the repetitions of the regex matcher (a repetition that does not move is not
    started again, so a text cannot be repeated over more often than its length; completeness
    of [rmatch] holds with that fuel).  The global eviction of snapshots takes their number as fuel, and each turn drops
    one ([evict_global_spec]).  A timeline is read up to the code's hundred pages of fifty rows, and
    a [prog] is a finite tree, so its execution needs no fuel; a client that downloads an asset takes a
    turn per 64 KiB; the members of a JSON object take the
    length of the text.  SHA-256 words are 32-bit with their wrap-around;
    confidences are binary64; Python integers are unbounded [Z] or [nat]; times are in
    microseconds.

    ** Boundaries

    Characters are those of [ascii], with the case, space and word classes of ASCII text; where the
    classes of other characters would tell ([prefilter_lossless]) a theorem is about ASCII text.
    Python's recursion limit, which a command of hundreds of nested [env] words exceeds, and the cost
    of backtracking are not modelled.  [ast.parse]
    ([PyParser]) and [json.loads] ([JsonLoads]) are parameters: any function to a tree, or to
    a JSON value, or to failure; so are the text encoding of files ([Utf8], which must decode
    what it encoded) and the outcome of writing the bytes of a temporary file and of reading a
    file back after a write ([Disk]).  File
    permissions, hard links and other processes that change the file system during a call are
    left out.  For a patch of several files the parser [unidiff], the decoding of the files and the
    steps of the disk that fail are parameters ([Unidiff], [TextFiles], [Faults]), and the names of
    its backups are drawn.  Redis is any server with the laws of [Redis], on which keys may expire and be
    evicted at any time, and the JSON codecs of Python and Lua are one codec of flat objects
    ([JsonCodec]); times are integers, which Lua's fourteen digits keep.  The index of envelopes
    and the scripts see one state of the server; [create_job] and [recover_job], which hold the
    manager's lock, are one step each.  The policy decision of a job's command and the stream of
    its output are arguments.  The headers of a request are sequences of Latin-1
    characters, as the server decodes them.  Paramiko, the name resolver and the parsing of
    private keys are parameters or choices of an event; of host keys and the known_hosts table the
    class [Paramiko] says what the code relies on.  Gitea is any server with the laws
    [documented]: others only add to timelines, and a call that failed is not performed later.
    A COMMIT of the hooks' database that took effect is answered, and the HTTP client connects to the address in a
    URL or to one its resolver answered.  Not modelled: single sign-on, rate limits,
    PostgreSQL persistence and the Redis writes of the access store (recorded as tasks),
    logging other than the security event of the gate, the saved servers, interactive terminals, the legacy pull queue,
    job listeners and observability, the board of the threads, the other tools
    of the workspace, the remote editing services, the notifier, the example MCP server.  They
    would extend the development, the edits of remote files first. *)

From Stdlib Require Export Ascii String.
From Stdlib Require Export ZArith Lia.
From stdpp Require Export base option decidable.
From stdpp Require Export strings list.
From stdpp Require Import options.

Declare Scope gw_scope.
Delimit Scope gw_scope with gw.
#[global] Open Scope string_scope.
#[global] Open Scope list_scope.
#[global] Open Scope gw_scope.

(** The double-quote character; string literals of the development never hold one. *)
Definition dq : ascii := "034"%char.
Definition sq : ascii := "'"%char.
Definition bslash : ascii := "\"%char.
Definition newline : ascii := "010"%char.
Definition tab : ascii := "009"%char.

(** stdpp blocks the reduction of [String.append]; the development computes with it. *)
#[global] Arguments String.append : simpl nomatch.

(** [s1 +s+ s2] is Python's [s1 + s2]; [sc c] is a one-character string. *)
Notation "s1 +s+ s2" := (String.append s1 s2)
  (at level 60, right associativity) : gw_scope.
Definition sc (c : ascii) : string := String c EmptyString.

(** ** Results: a Python call returns or raises. *)
Inductive exn : Type :=
| ReError                                 (* re.error *)
| ValueError (msg : string)
| AccessDeniedError (msg : string)
| HTTPException (status : Z) (detail : string)
| IndexError
| KeyError (key : string)
| AssertionError
| AttributeError
| TypeError
| RuntimeError (msg : string)
| ConnectionError.

Inductive result (A : Type) : Type :=
| Ok (a : A)
| Raise (e : exn).
Arguments Ok {A} a.
Arguments Raise {A} e.

Definition rbind {A B} (x : result A) (f : A -> result B) : result B :=
  match x with Ok a => f a | Raise e => Raise e end.
Notation "x <-! m ;; k" := (rbind m (fun x => k))
  (at level 80, m at next level, right associativity) : gw_scope.

Fixpoint rmap {A B} (f : A -> result B) (l : list A) : result (list B) :=
  match l with
  | [] => Ok []
  | a :: r => b <-! f a ;; bs <-! rmap f r ;; Ok (b :: bs)
  end.

Definition is_ok {A} (x : result A) : bool :=
  match x with Ok _ => true | Raise _ => false end.

Lemma rbind_ok_inv {A B} (x : result A) (f : A -> result B) b :
  rbind x f = Ok b -> exists a, x = Ok a /\ f a = Ok b.
Proof. destruct x; simpl; [eauto | discriminate]. Qed.

Lemma rbind_assoc {A B C} (x : result A) (f : A -> result B) (g : B -> result C) :
  rbind (rbind x f) g = rbind x (fun a => rbind (f a) g).
Proof. by destruct x. Qed.

(** [l[:n]] *)
Definition slice_upto {A} (n : Z) (l : list A) : list A :=
  firstn (Z.to_nat (if (n <? 0)%Z then Z.of_nat (length l) + n else n)) l.

(** ** Lists of strings used as Python sets and dicts *)

(** Membership in a literal [set[str]] or tuple of strings. *)
Fixpoint mem (x : string) (l : list string) : bool :=
  match l with [] => false | y :: r => String.eqb x y || mem x r end.

(** [for a in l: ... return ...]: the first element on which the body returns *)
Fixpoint first_some {A B} (f : A -> option B) (l : list A) : option B :=
  match l with
  | [] => None
  | a :: r => match f a with Some b => Some b | None => first_some f r end
  end.

Lemma first_some_None {A B} (f : A -> option B) l :
  first_some f l = None <-> forall a, In a l -> f a = None.
Proof.
  induction l as [|a r IH]; simpl; [tauto |]. destruct (f a) eqn:E.
  - split; [discriminate |]. intros H. specialize (H a (or_introl eq_refl)). congruence.
  - rewrite IH. split; [intros H x [<- | Hx]; auto | intros H x Hx; apply H; auto].
Qed.
Lemma first_some_Some {A B} (f : A -> option B) l b :
  first_some f l = Some b ->
  exists l1 a l2, l = l1 ++ a :: l2 /\ f a = Some b /\ forall x, In x l1 -> f x = None.
Proof.
  induction l as [|a r IH]; simpl; [discriminate |]. destruct (f a) eqn:E.
  - intros [= ->]. exists [], a, r. split; [done |]. split; [done |]. intros ? [].
  - intros (l1 & x & l2 & -> & Hx & Hl)%IH. exists (a :: l1), x, l2.
    split; [done |]. split; [done |]. intros y [<- | Hy]; auto.
Qed.

Lemma mem_In x l : mem x l = true <-> In x l.
Proof.
  induction l as [|y r IH]; simpl; [split; [discriminate | tauto] |].
  rewrite orb_true_iff, IH, String.eqb_eq. firstorder.
Qed.

Lemma mem_app x l1 l2 : mem x (l1 ++ l2) = mem x l1 || mem x l2.
Proof. induction l1; simpl; [done |]. by rewrite IHl1, orb_assoc. Qed.

Lemma mem_incl l1 l2 : forallb (fun x => mem x l2) l1 = true ->
  forall x, mem x l1 = true -> mem x l2 = true.
Proof.
  rewrite forallb_forall. intros H x Hx. apply H. by apply mem_In.
Qed.

(** A Python dict with string keys, in insertion order. *)
Definition dict (V : Type) : Type := list (string * V).

Fixpoint dict_get {V} (k : string) (d : dict V) : option V :=
  match d with
  | [] => None
  | (k', v) :: r => if String.eqb k k' then Some v else dict_get k r
  end.

(** [d[k] = v]: an existing key keeps its place, a new one goes last. *)
Fixpoint dict_set {V} (k : string) (v : V) (d : dict V) : dict V :=
  match d with
  | [] => [(k, v)]
  | (k', v') :: r => if String.eqb k k' then (k', v) :: r else (k', v') :: dict_set k v r
  end.

(** [d.pop(k, None)] *)
Fixpoint dict_del {V} (k : string) (d : dict V) : dict V :=
  match d with
  | [] => []
  | (k', v') :: r => if String.eqb k k' then r else (k', v') :: dict_del k r
  end.

Definition dict_in {V} (k : string) (d : dict V) : bool :=
  match dict_get k d with Some _ => true | None => false end.

Definition keys {V} (d : dict V) : list string := map fst d.
Definition values {V} (d : dict V) : list V := map snd d.

Section DictFacts.
Context {V : Type}.
Implicit Types (d : dict V) (k : string) (v : V).

Lemma dict_get_set_eq k v d : dict_get k (dict_set k v d) = Some v.
Proof.
  induction d as [|[k' v'] r IH]; simpl; [by rewrite String.eqb_refl |].
  destruct (String.eqb k k') eqn:E; simpl; rewrite E; done.
Qed.

Lemma dict_get_set_ne k k' v d :
  k <> k' -> dict_get k' (dict_set k v d) = dict_get k' d.
Proof.
  intros Hne. induction d as [|[k0 v0] r IH]; simpl.
  - destruct (String.eqb_spec k' k); congruence.
  - destruct (String.eqb_spec k k0); simpl; subst.
    + destruct (String.eqb_spec k' k0); congruence.
    + by destruct (String.eqb k' k0).
Qed.

Lemma dict_get_None k d : dict_get k d = None <-> ~ In k (keys d).
Proof.
  induction d as [|[k0 v0] r IH]; simpl; [tauto |].
  destruct (String.eqb_spec k k0); subst; [split; [discriminate | tauto] |].
  rewrite IH. firstorder congruence.
Qed.

Lemma dict_get_In k v d : dict_get k d = Some v -> In (k, v) d.
Proof.
  induction d as [|[k0 v0] r IH]; simpl; [discriminate |].
  destruct (String.eqb_spec k k0); subst; [intros [= ->]; auto | auto].
Qed.

Lemma dict_In_get k v d : NoDup (keys d) -> In (k, v) d -> dict_get k d = Some v.
Proof.
  induction d as [|[k0 v0] r IH]; simpl; [tauto |].
  intros Hnd [[= -> ->] | Hin]; [by rewrite String.eqb_refl |].
  apply NoDup_cons in Hnd as [Hk0 Hr].
  destruct (String.eqb_spec k k0); subst; [| by apply IH].
  destruct Hk0. apply list_elem_of_In, in_map_iff. by exists (k0, v).
Qed.

Lemma dict_get_del_ne k k' d : k <> k' -> dict_get k' (dict_del k d) = dict_get k' d.
Proof.
  intros Hne. induction d as [|[k0 v0] r IH]; simpl; [done |].
  destruct (String.eqb_spec k k0); subst; simpl.
  - destruct (String.eqb_spec k' k0); congruence.
  - by destruct (String.eqb k' k0).
Qed.

Lemma keys_set_in k v d : In k (keys d) -> keys (dict_set k v d) = keys d.
Proof.
  induction d as [|[k0 v0] r IH]; simpl; [tauto |].
  destruct (String.eqb_spec k k0); subst; simpl; [done |].
  intros [-> | Hin]; [done |]. by rewrite IH.
Qed.

Lemma keys_set_notin k v d : ~ In k (keys d) -> keys (dict_set k v d) = keys d ++ [k].
Proof.
  induction d as [|[k0 v0] r IH]; simpl; [done |].
  intros Hn. destruct (String.eqb_spec k k0); subst; [tauto |].
  simpl. rewrite IH; tauto.
Qed.

Lemma dict_set_NoDup k v d : NoDup (keys d) -> NoDup (keys (dict_set k v d)).
Proof.
  intros Hnd. destruct (in_dec string_dec k (keys d)) as [Hin | Hn].
  - by rewrite keys_set_in.
  - rewrite keys_set_notin by done. apply NoDup_app. split; [done |]. split.
    + intros x Hx ->%list_elem_of_singleton. by apply Hn, list_elem_of_In.
    + apply NoDup_singleton.
Qed.

Lemma keys_del_sub k k' d : In k' (keys (dict_del k d)) -> In k' (keys d).
Proof.
  induction d as [|[k0 v0] r IH]; simpl; [done |].
  destruct (String.eqb k k0); simpl; tauto.
Qed.

Lemma dict_del_NoDup k d : NoDup (keys d) -> NoDup (keys (dict_del k d)).
Proof.
  induction d as [|[k0 v0] r IH]; simpl; [done |].
  intros [Hk Hr]%NoDup_cons. destruct (String.eqb k k0); simpl; [done |].
  apply NoDup_cons. split; [| auto].
  intros Hin. apply Hk. apply list_elem_of_In, keys_del_sub with k, list_elem_of_In, Hin.
Qed.

Lemma dict_get_del_eq k d : NoDup (keys d) -> dict_get k (dict_del k d) = None.
Proof.
  induction d as [|[k0 v0] r IH]; simpl; [done |].
  intros [Hk Hr]%NoDup_cons. destruct (String.eqb_spec k k0); subst.
  - apply dict_get_None. by rewrite <- list_elem_of_In.
  - simpl. destruct (String.eqb_spec k k0); [congruence | auto].
Qed.
End DictFacts.

(** ** More on dicts and lists *)
Lemma Forall_dict_set {V} (P : string * V -> Prop) k v d :
  P (k, v) -> Forall P d -> (forall k' , k' = k -> P (k', v)) -> Forall P (dict_set k v d).
Proof.
  intros Hp Hd Hk. induction Hd as [|[k' v'] r H Hr IH]; simpl; [by repeat constructor |].
  destruct (String.eqb_spec k k'); constructor; auto.
Qed.
Lemma Forall_dict_del {V} (P : string * V -> Prop) k d : Forall P d -> Forall P (dict_del k d).
Proof.
  intros Hd. induction Hd as [|[k' v'] r H Hr IH]; simpl; [done |].
  destruct (String.eqb k k'); [done | by constructor].
Qed.
Lemma keys_del_In {V} k k' (d : dict V) : NoDup (keys d) ->
  In k' (keys (dict_del k d)) <-> In k' (keys d) /\ k' <> k.
Proof.
  intros Hn. destruct (String.eqb_spec k' k) as [-> | Hne].
  - split; [| tauto]. intros Hin. exfalso.
    by apply (proj1 (dict_get_None k (dict_del k d))); [apply dict_get_del_eq |].
  - assert (Hiff : forall d : dict V, In k' (keys d) <-> dict_get k' d <> None).
    { intros d'. rewrite dict_get_None. split; [tauto |].
      intros Hnn. destruct (in_dec string_dec k' (keys d')); tauto. }
    rewrite !Hiff, dict_get_del_ne by congruence. tauto.
Qed.
Lemma length_dict_del {V} k (d : dict V) : In k (keys d) ->
  S (length (dict_del k d)) = length d.
Proof.
  induction d as [|[k' v] r IH]; simpl; [done |].
  destruct (String.eqb_spec k k') as [-> | Hne]; [done |].
  intros [-> | Hin]; [done |]. simpl. by rewrite IH.
Qed.
Lemma dict_in_keys {V} k (d : dict V) : dict_in k d = true <-> In k (keys d).
Proof.
  unfold dict_in. destruct (dict_get k d) eqn:E.
  - split; [| done]. intros _. apply dict_get_In in E. apply in_map_iff. by exists (k, v).
  - apply dict_get_None in E. split; [done | tauto].
Qed.
Lemma values_del_sub {V} k (d : dict V) : exists l1 l2 x,
  values d = l1 ++ x ++ l2 /\ values (dict_del k d) = l1 ++ l2.
Proof.
  induction d as [|[k' v] r (l1 & l2 & x & H1 & H2)]; simpl; [by exists [], [], [] |].
  destruct (String.eqb k k'); [by exists [], (values r), [v] |].
  exists (v :: l1), l2, x. simpl. by rewrite H1, H2.
Qed.
Lemma values_del_NoDup {V} k (d : dict V) : NoDup (values d) -> NoDup (values (dict_del k d)).
Proof.
  destruct (values_del_sub k d) as (l1 & l2 & x & -> & ->). intros H.
  apply NoDup_app in H as (? & H2 & [? ?]%NoDup_app). apply NoDup_app. split; [done |].
  split; [| tauto]. intros y Hy. specialize (H2 y Hy). rewrite elem_of_app in H2. tauto.
Qed.

Lemma values_set_new {V} k v (d : dict V) : ~ In k (keys d) -> dict_set k v d = d ++ [(k, v)].
Proof.
  induction d as [|[k' v'] r IH]; simpl; [done |]. intros H.
  destruct (String.eqb_spec k k') as [-> | Hne]; [tauto |]. rewrite IH; tauto.
Qed.
Lemma NoDup_snoc {A} (l : list A) x : NoDup l -> ~ In x l -> NoDup (l ++ [x]).
Proof.
  intros Hn Hx. apply NoDup_app. split; [done |]. split; [| apply NoDup_singleton].
  intros y Hy ->%list_elem_of_singleton. by apply Hx, list_elem_of_In.
Qed.
Lemma In_snoc {A} (l : list A) x y : In y (l ++ [x]) <-> In y l \/ y = x.
Proof. rewrite in_app_iff. simpl. intuition congruence. Qed.

Create HintDb gw discriminated.
#[export] Hint Resolve dict_set_NoDup dict_del_NoDup dict_get_set_eq : gw.
Create Rewrite HintDb gw_rw.
#[export] Hint Rewrite @dict_get_set_eq : gw_rw.

(** ** Tactics *)

(** Case on the head boolean or option of the goal or of a hypothesis, keeping the equation. *)
Ltac case_goal :=
  match goal with
  | |- context [match ?x with _ => _ end] =>
      lazymatch x with
      | context [match _ with _ => _ end] => fail
      | _ => let E := fresh "E" in destruct x eqn:E
      end
  end.
Ltac case_hyp H :=
  match type of H with
  | context [match ?x with _ => _ end] =>
      lazymatch x with
      | context [match _ with _ => _ end] => fail
      | _ => let E := fresh "E" in destruct x eqn:E
      end
  end.
(** Turn boolean connectives in the context into propositions. *)
Ltac bprop :=
  repeat match goal with
  | H : _ && _ = true |- _ =>
      let Ha := fresh "B" in let Hb := fresh "B" in apply andb_true_iff in H as [Ha Hb]
  | H : _ || _ = false |- _ =>
      let Ha := fresh "B" in let Hb := fresh "B" in apply orb_false_iff in H as [Ha Hb]
  | H : negb _ = true |- _ => apply negb_true_iff in H
  | H : negb _ = false |- _ => apply negb_false_iff in H
  | H : String.eqb _ _ = true |- _ => apply String.eqb_eq in H
  | H : String.eqb _ _ = false |- _ => apply String.eqb_neq in H
  end.

(** Membership in a concrete list, by evaluation. *)
Ltac by_eval := vm_compute; reflexivity.
