(* ===== verification/PyStr.v ===== *)
(** * Python's [str] operations used by the gateway

    A Python [str] is a [string]: a sequence of characters.  Case folding, white
    space and word characters are those of ASCII text, which is what commands,
    pattern names and configuration values are made of; the other characters are
    opaque (no case, no space, no word character). *)
From S2P Require Import Prelude.
From stdpp Require Import options.

(** ** Characters *)
Definition cn (c : ascii) : nat := nat_of_ascii c.

Definition in_range (lo hi c : ascii) : bool := (cn lo <=? cn c)%nat && (cn c <=? cn hi)%nat.

Definition is_upper (c : ascii) : bool := in_range "A" "Z" c.
Definition is_lower (c : ascii) : bool := in_range "a" "z" c.
Definition is_digit (c : ascii) : bool := in_range "0" "9" c.

(** [c.lower()], [c.upper()] *)
Definition lower_char (c : ascii) : ascii :=
  if is_upper c then ascii_of_nat (cn c + 32) else c.
Definition upper_char (c : ascii) : ascii :=
  if is_lower c then ascii_of_nat (cn c - 32) else c.

(** [str.isspace], also the class [\s] of [re]: \t \n \v \f \r, FS..US and the space. *)
Definition is_space (c : ascii) : bool :=
  in_range "009" "013" c || in_range "028" "031" c || Ascii.eqb c " ".

(** The class [\w] of [re]. *)
Definition is_word (c : ascii) : bool :=
  is_upper c || is_lower c || is_digit c || Ascii.eqb c "_".

Fixpoint char_in (c : ascii) (s : string) : bool :=
  match s with "" => false | String d r => Ascii.eqb c d || char_in c r end.

(** ** Slices *)

(** [s[n:]] and [s[:n]] *)
Fixpoint drop (n : nat) (s : string) : string :=
  match n, s with
  | O, _ => s
  | S _, "" => ""
  | S m, String _ r => drop m r
  end.
Fixpoint take (n : nat) (s : string) : string :=
  match n, s with
  | O, _ => ""
  | S _, "" => ""
  | S m, String c r => String c (take m r)
  end.
(** [s[i:j]] for [0 <= i], [0 <= j] *)
Definition slice (s : string) (i j : nat) : string := take (j - i) (drop i s).

(** [s[i]], [None] when out of range (Python raises [IndexError]). *)
Definition char_at (s : string) (i : nat) : option ascii := String.get i s.

(** [s[i] == c] for an index the caller knows to be in range *)
Definition at_is (s : string) (i : nat) (c : ascii) : bool :=
  match char_at s i with Some d => Ascii.eqb d c | None => false end.
(** [s[i] in chars] *)
Definition at_in (s : string) (i : nat) (chars : string) : bool :=
  match char_at s i with Some d => char_in d chars | None => false end.

Definition slen (s : string) : nat := String.length s.

(** ** Searching *)
Fixpoint startswith (p s : string) : bool :=
  match p, s with
  | "", _ => true
  | String a p', String b s' => Ascii.eqb a b && startswith p' s'
  | String _ _, "" => false
  end.

(** [sub in s] *)
Fixpoint contains (sub s : string) : bool :=
  startswith sub s || match s with "" => false | String _ r => contains sub r end.

Fixpoint srev_app (s acc : string) : string :=
  match s with "" => acc | String c r => srev_app r (String c acc) end.
Definition srev (s : string) : string := srev_app s "".

Definition endswith (suf s : string) : bool := startswith (srev suf) (srev s).

(** [s.find(c, i)]: the first index at least [i] holding [c]. *)
Fixpoint find_char_from (c : ascii) (s : string) (pos : nat) : option nat :=
  match s with
  | "" => None
  | String d r => if Ascii.eqb c d then Some pos else find_char_from c r (S pos)
  end.
Definition find_char (c : ascii) (s : string) (i : nat) : option nat :=
  find_char_from c (drop i s) i.

(** ** Rewriting *)
Fixpoint smap (f : ascii -> ascii) (s : string) : string :=
  match s with "" => "" | String c r => String (f c) (smap f r) end.
Definition lower (s : string) : string := smap lower_char s.

Fixpoint lstrip_by (p : ascii -> bool) (s : string) : string :=
  match s with
  | "" => ""
  | String c r => if p c then lstrip_by p r else s
  end.
Definition rstrip_by (p : ascii -> bool) (s : string) : string :=
  srev (lstrip_by p (srev s)).
Definition lstrip (s : string) : string := lstrip_by is_space s.
Definition rstrip (s : string) : string := rstrip_by is_space s.
Definition strip (s : string) : string := rstrip (lstrip s).

(** [sep.join(l)] *)
Fixpoint join (sep : string) (l : list string) : string :=
  match l with
  | [] => ""
  | [x] => x
  | x :: r => x +s+ sep +s+ join sep r
  end.

(** [s.replace(c, by)] for a one-character [c] *)
Fixpoint replace_char (c : ascii) (by_ s : string) : string :=
  match s with
  | "" => ""
  | String d r => (if Ascii.eqb d c then by_ else sc d) +s+ replace_char c by_ r
  end.

(** [s.split()]: the maximal runs of non-space characters *)
Fixpoint split_ws_aux (cur : string) (s : string) : list string :=
  match s with
  | "" => if String.eqb cur "" then [] else [srev cur]
  | String c r =>
      if is_space c
      then (if String.eqb cur "" then [] else [srev cur]) ++ split_ws_aux "" r
      else split_ws_aux (String c cur) r
  end.
Definition split_ws (s : string) : list string := split_ws_aux "" s.

(** The length of the longest prefix all of whose characters satisfy [p]. *)
Fixpoint span_len (p : ascii -> bool) (s : string) : nat :=
  match s with
  | "" => O
  | String c r => if p c then S (span_len p r) else O
  end.

(** [s.split(c)] *)
Fixpoint split_on (c : ascii) (s : string) : list string :=
  match s with
  | "" => [""]
  | String d r =>
      if Ascii.eqb d c then "" :: split_on c r
      else match split_on c r with
           | [] => [sc d]
           | w :: ws => String d w :: ws
           end
  end.

(** [all(p(c) for c in s)] *)
Fixpoint all_of (p : ascii -> bool) (s : string) : bool :=
  match s with "" => true | String c r => p c && all_of p r end.

(** The value of a digit, and [int(s, base)] on the digits after [acc] *)
Definition hex_value (c : ascii) : Z :=
  let n := Z.of_nat (cn c) in
  if is_digit c then (n - 48)%Z else if is_lower c then (n - 87)%Z else (n - 55)%Z.
Definition is_hex (c : ascii) : bool :=
  is_digit c || in_range "a" "f" c || in_range "A" "F" c.
Fixpoint int_of (base acc : Z) (s : string) : Z :=
  match s with "" => acc | String c r => int_of base (acc * base + hex_value c)%Z r end.

(** [s.splitlines()] *)
Definition is_linebreak (c : ascii) : bool :=
  in_range "010" "013" c || in_range "028" "030" c.
Fixpoint splitlines_from (cur : string) (s : string) : list string :=
  match s with
  | "" => if String.eqb cur "" then [] else [srev cur]
  | String c r =>
      if Ascii.eqb c "013" then
        srev cur :: match r with
                    | String "010" r' => splitlines_from "" r'
                    | _ => splitlines_from "" r
                    end
      else if is_linebreak c then srev cur :: splitlines_from "" r
      else splitlines_from (String c cur) r
  end.
Definition splitlines (s : string) : list string := splitlines_from "" s.

(** [str(n)] for a natural number *)
Fixpoint nat_str_aux (fuel n : nat) (acc : string) : string :=
  let acc' := String (ascii_of_nat (48 + n mod 10)) acc in
  match fuel with
  | O => acc'
  | S f => if (n / 10 =? 0)%nat then acc' else nat_str_aux f (n / 10) acc'
  end.
Definition nat_str (n : nat) : string := nat_str_aux n n "".

(** [str(b)] *)
Definition bool_str (b : bool) : string := if b then "True" else "False".

(** ** Facts *)

(** A boolean property of characters is checked on the 256 of them. *)
Definition all_ascii : list ascii := map ascii_of_nat (seq 0 256).
Lemma ascii_forall (P : ascii -> bool) : forallb P all_ascii = true -> forall c, P c = true.
Proof.
  rewrite forallb_forall. intros H c. apply H. unfold all_ascii.
  rewrite <- (ascii_nat_embedding c). apply in_map, in_seq.
  pose proof (nat_ascii_bounded c). lia.
Qed.

Lemma append_nil_r s : s +s+ "" = s.
Proof. induction s; simpl; congruence. Qed.
Lemma append_assoc a b c : (a +s+ b) +s+ c = a +s+ (b +s+ c).
Proof. induction a; simpl; congruence. Qed.
Lemma slen_app a b : slen (a +s+ b) = (slen a + slen b)%nat.
Proof. unfold slen. induction a; simpl; congruence. Qed.

Lemma srev_app_spec s acc : srev_app s acc = srev s +s+ acc.
Proof.
  unfold srev. revert acc. induction s as [|c r IH]; intros acc; simpl; [done |].
  rewrite IH, (IH (String c "")), append_assoc. done.
Qed.
Lemma srev_cons c s : srev (String c s) = srev s +s+ sc c.
Proof. unfold srev at 1. simpl. apply srev_app_spec. Qed.
Lemma srev_append a b : srev (a +s+ b) = srev b +s+ srev a.
Proof.
  induction a as [|c r IH]; simpl; [by rewrite append_nil_r |].
  by rewrite !srev_cons, IH, append_assoc.
Qed.
Lemma srev_involutive s : srev (srev s) = s.
Proof. induction s as [|c r IH]; simpl; [done |]. by rewrite srev_cons, srev_append, IH. Qed.

Lemma startswith_spec p s : startswith p s = true <-> exists t, s = p +s+ t.
Proof.
  revert s. induction p as [|a p IH]; intros s; simpl; [split; eauto |].
  destruct s as [|b s]; [split; [discriminate | intros [t [=]]] |].
  rewrite andb_true_iff, IH, Ascii.eqb_eq. split.
  - intros [-> [t ->]]. by exists t.
  - intros [t [= -> ->]]. eauto.
Qed.

Lemma contains_spec sub s : contains sub s = true <-> exists a b, s = a +s+ sub +s+ b.
Proof.
  induction s as [|c r IH]; simpl; rewrite orb_true_iff, startswith_spec.
  - split.
    + intros [[t Ht] | [=]]. by exists "", t.
    + intros (a & b & H). destruct a; [left; eauto | discriminate].
  - rewrite IH. split.
    + intros [[t ->] | (a & b & ->)]; [by exists "", t | by exists (String c a), b].
    + intros (a & b & H). destruct a as [|d a]; [left; by exists b |].
      injection H as -> ->. right. eauto.
Qed.

Lemma smap_append f a b : smap f (a +s+ b) = smap f a +s+ smap f b.
Proof. induction a; simpl; congruence. Qed.
Lemma lower_append a b : lower (a +s+ b) = lower a +s+ lower b.
Proof. apply smap_append. Qed.

Lemma lower_char_not_upper c : is_upper (lower_char c) = false.
Proof. destruct c as [[] [] [] [] [] [] [] []]; reflexivity. Qed.
Lemma lower_char_idem c : lower_char (lower_char c) = lower_char c.
Proof. destruct c as [[] [] [] [] [] [] [] []]; reflexivity. Qed.
Lemma lower_idem s : lower (lower s) = lower s.
Proof. unfold lower. induction s; simpl; [done |]. by rewrite lower_char_idem, IHs. Qed.

(** A string that holds an upper-case letter occurs in no lower-cased text. *)
Fixpoint has_upper (s : string) : bool :=
  match s with "" => false | String c r => is_upper c || has_upper r end.
Lemma has_upper_app a b : has_upper (a +s+ b) = has_upper a || has_upper b.
Proof. induction a; simpl; [done |]. by rewrite IHa, orb_assoc. Qed.
Lemma has_upper_lower s : has_upper (lower s) = false.
Proof. unfold lower. induction s; simpl; [done |]. by rewrite lower_char_not_upper. Qed.
Lemma contains_upper_lower sub s : has_upper sub = true -> contains sub (lower s) = false.
Proof.
  intros Hu. destruct (contains sub (lower s)) eqn:E; [| done].
  apply contains_spec in E as (a & b & E).
  pose proof (has_upper_lower s) as Hn. rewrite E, !has_upper_app, Hu in Hn.
  by rewrite orb_true_r in Hn.
Qed.

Lemma contains_lower_mono sub s : contains sub s = true -> contains (lower sub) (lower s) = true.
Proof.
  rewrite !contains_spec. intros (a & b & ->). exists (lower a), (lower b).
  by rewrite !lower_append.
Qed.

Lemma drop_slen s : drop (slen s) s = "".
Proof. unfold slen. induction s; simpl; done. Qed.
Lemma take_drop n s : take n s +s+ drop n s = s.
Proof.
  revert s. induction n; intros [|c s]; simpl; [done | done | done |]. by rewrite IHn.
Qed.
Lemma drop_app_len a b : drop (slen a) (a +s+ b) = b.
Proof. unfold slen. induction a; simpl; done. Qed.
Lemma take_app_len a b : take (slen a) (a +s+ b) = a.
Proof. unfold slen. induction a; simpl; [by destruct b |]. by rewrite IHa. Qed.

Lemma lstrip_by_suffix p s : exists a, s = a +s+ lstrip_by p s.
Proof.
  induction s as [|c r [a IH]]; simpl; [by exists "" |].
  destruct (p c); [| by exists ""]. exists (String c a). simpl. by rewrite <- IH.
Qed.
Lemma rstrip_by_prefix p s : exists b, s = rstrip_by p s +s+ b.
Proof.
  unfold rstrip_by. destruct (lstrip_by_suffix p (srev s)) as [a Ha].
  exists (srev a). rewrite <- srev_append, <- Ha. by rewrite srev_involutive.
Qed.
Lemma strip_factor s : exists a b, s = a +s+ strip s +s+ b.
Proof.
  destruct (lstrip_by_suffix is_space s) as [a Ha].
  destruct (rstrip_by_prefix is_space (lstrip_by is_space s)) as [b Hb].
  exists a, b. unfold strip, rstrip, lstrip. by rewrite <- Hb, <- Ha.
Qed.

Lemma append_inj_l a b c : a +s+ b = a +s+ c -> b = c.
Proof. induction a; simpl; [done |]. intros [= E]; auto. Qed.

Lemma all_of_app p a b : all_of p (a +s+ b) = all_of p a && all_of p b.
Proof. induction a as [|c a IH]; simpl; [done |]. by rewrite IH, andb_assoc. Qed.
Lemma all_of_srev p s : all_of p (srev s) = all_of p s.
Proof. induction s as [|c s IH]; [done |]. rewrite srev_cons, all_of_app, IH. cbn. by rewrite andb_true_r, andb_comm. Qed.
Lemma char_in_app c a b : char_in c (a +s+ b) = char_in c a || char_in c b.
Proof. induction a as [|d a IH]; simpl; [done |]. by rewrite IH, orb_assoc. Qed.

#[export] Hint Rewrite append_nil_r append_assoc slen_app : gw_rw.

(** ** Slices and their lengths *)
Lemma slen_drop n s : slen (drop n s) = (slen s - n)%nat.
Proof. unfold slen. revert s. induction n; intros [|c s]; simpl; [done..|]. by rewrite IHn. Qed.
Lemma slen_take n s : slen (take n s) = Nat.min n (slen s).
Proof. unfold slen. revert s. induction n; intros [|c s]; simpl; [done..|]. by rewrite IHn. Qed.
Lemma drop_drop a b s : drop a (drop b s) = drop (b + a) s.
Proof. revert s. induction b; intros [|c s]; simpl; auto. by destruct a. Qed.
Lemma take_of_take n m s : take n (take m s) = take (Nat.min n m) s.
Proof. revert m s. induction n as [|n IH]; intros [|m] [|c s]; simpl; try done. by rewrite IH. Qed.
Lemma take_all n s : (slen s <= n)%nat -> take n s = s.
Proof.
  unfold slen. revert s. induction n; intros [|c s]; simpl; intros; [done | lia | done |].
  rewrite IHn; [done | lia].
Qed.
Lemma slen_slice s i j : slen (slice s i j) = Nat.min (j - i) (slen s - i).
Proof. unfold slice. by rewrite slen_take, slen_drop. Qed.
Lemma slice_to_end s i : slice s i (slen s) = drop i s.
Proof. unfold slice. apply take_all. rewrite slen_drop. lia. Qed.
Lemma take_take_app a b s : take a s +s+ take b (drop a s) = take (a + b) s.
Proof. revert s. induction a; intros [|c s]; simpl; [done | done | by destruct b |]. by rewrite IHa. Qed.
Lemma slice_glue s i j k : (i <= j <= k)%nat -> slice s i j +s+ slice s j k = slice s i k.
Proof.
  intros H. unfold slice. replace (drop j s) with (drop (j - i) (drop i s)).
  - rewrite take_take_app. f_equal. lia.
  - rewrite drop_drop. f_equal. lia.
Qed.
Lemma slice_exact s i j : (i <= slen s)%nat ->
  slice s i (i + slen (slice s i j)) = slice s i j /\ (i + slen (slice s i j) <= slen s)%nat.
Proof.
  intros H. rewrite slen_slice. split; [| lia]. unfold slice.
  destruct (Nat.le_ge_cases (j - i) (slen s - i)) as [Hle | Hge].
  - f_equal. lia.
  - rewrite !take_all; [done | rewrite slen_drop; lia ..].
Qed.
Lemma char_at_drop s i c : char_at s i = Some c -> exists r, drop i s = String c r.
Proof.
  unfold char_at. revert i. induction s as [|d s IH]; intros [|i]; simpl; try discriminate; eauto.
  intros [= ->]. eauto.
Qed.
Lemma char_at_slice s i c : char_at s i = Some c -> sc c = slice s i (S i) /\ (i < slen s)%nat.
Proof.
  intros H. destruct (char_at_drop _ _ _ H) as [r E]. unfold slice.
  replace (S i - i)%nat with 1%nat by lia. rewrite E. split; [done |].
  pose proof (slen_drop i s) as L. rewrite E in L. unfold slen at 1 in L. simpl in L. lia.
Qed.
Lemma split_on_nonempty c s : split_on c s <> [].
Proof. destruct s as [|d r]; simpl; [done |]. by repeat case_match. Qed.

Lemma span_len_le p s : (span_len p s <= slen s)%nat.
Proof. unfold slen. induction s; simpl; [done |]. case_match; lia. Qed.
