(* ===== verification/Regex.v ===== *)
(** * The part of Python's [re] the gateway's patterns use: syntax tree and matcher

    A backtracking matcher in continuation-passing style with the priorities of
    CPython's engine: alternatives left to right, greedy repetitions longest first,
    lazy ones shortest first, and the engine's zero-width rule (a repetition does not
    start an iteration at the position where its previous iteration started). *)
From S2P Require Import Prelude PyStr.
From stdpp Require Import options.

(** ** Syntax *)
Inductive cls_item : Type :=
| CLit (c : ascii)
| CRange (lo hi : ascii)
| CDigit (neg : bool)                    (* \d \D *)
| CSpace (neg : bool)                    (* \s \S *)
| CWord (neg : bool).                    (* \w \W *)

Inductive cclass : Type :=
| KAny                                   (* . *)
| KSet (neg : bool) (items : list cls_item).

Inductive regex : Type :=
| REps
| RChar (k : cclass)
| RSeq (r1 r2 : regex)
| RAlt (r1 r2 : regex)
| RRep (lo : nat) (extra : option nat) (greedy : bool) (r : regex)
    (* [lo] copies, then at most [extra] more ([None]: no limit) *)
| RGroup (i : nat) (r : regex)
| RBackref (i : nat)
| RIcase (r : regex)                     (* (?i:r) *)
| RAhead (neg : bool) (r : regex)        (* (?=r) (?!r) *)
| RBehind (neg : bool) (w : nat) (r : regex)   (* (?<=r) (?<!r), [w] the width of [r] *)
| RBol                                   (* ^ *)
| REol                                   (* $ *)
| RWordB (neg : bool).                   (* \b \B *)

Record flags : Type := mkflags { f_ignorecase : bool; f_dotall : bool }.
Definition no_flags : flags := mkflags false false.

(** ** Characters *)
Definition item_test (c : ascii) (i : cls_item) : bool :=
  match i with
  | CLit d => Ascii.eqb c d
  | CRange lo hi => in_range lo hi c
  | CDigit n => xorb n (is_digit c)
  | CSpace n => xorb n (is_space c)
  | CWord n => xorb n (is_word c)
  end.

(** Under IGNORECASE an item accepts a character when it accepts either case of it. *)
Definition item_test_f (fl : flags) (c : ascii) (i : cls_item) : bool :=
  if f_ignorecase fl then item_test (lower_char c) i || item_test (upper_char c) i
  else item_test c i.

Definition class_test (fl : flags) (k : cclass) (c : ascii) : bool :=
  match k with
  | KAny => f_dotall fl || negb (Ascii.eqb c newline)
  | KSet neg items => xorb neg (existsb (item_test_f fl c) items)
  end.

(** ** Matcher states: the text before the position (reversed), the text after it, and the
    text each group last captured. *)
Record mst : Type := mkmst { m_pre : string; m_suf : string; m_caps : list (nat * string) }.

Definition start_state (s : string) : mst := mkmst "" s [].

Definition advance (s : mst) : mst :=
  match m_suf s with
  | "" => s
  | String c r => mkmst (String c (m_pre s)) r (m_caps s)
  end.

Fixpoint move_back (n : nat) (s : mst) : option mst :=
  match n with
  | O => Some s
  | S k => match m_pre s with
           | "" => None
           | String c p => move_back k (mkmst p (String c (m_suf s)) (m_caps s))
           end
  end.

(** [startswith] under the flags, consuming: the backreference test *)
Fixpoint eat (fl : flags) (t : string) (s : mst) : option mst :=
  match t with
  | "" => Some s
  | String a t' =>
      match m_suf s with
      | "" => None
      | String b _ =>
          if (if f_ignorecase fl then Ascii.eqb (lower_char a) (lower_char b) else Ascii.eqb a b)
          then eat fl t' (advance s) else None
      end
  end.

Fixpoint cap_get (i : nat) (l : list (nat * string)) : option string :=
  match l with
  | [] => None
  | (j, t) :: r => if Nat.eqb i j then Some t else cap_get i r
  end.

(** What was consumed between [s] and the later state [s'] *)
Definition consumed (s s' : mst) : string :=
  srev (take (slen (m_pre s') - slen (m_pre s)) (m_pre s')).

Definition set_cap (i : nat) (s s' : mst) : mst :=
  mkmst (m_pre s') (m_suf s') ((i, consumed s s') :: m_caps s').

Definition at_bol (s : mst) : bool := String.eqb (m_pre s) "".
Definition at_eol (s : mst) : bool :=
  match m_suf s with
  | "" => true
  | String c r => Ascii.eqb c newline && String.eqb r ""
  end.
Definition head_is_word (s : string) : bool :=
  match s with "" => false | String c _ => is_word c end.
Definition at_boundary (s : mst) : bool :=
  xorb (head_is_word (m_pre s)) (head_is_word (m_suf s)).

(** A look-around leaves the position alone and keeps the captures of a positive match. *)
Definition same_place (s s1 : mst) : mst := mkmst (m_pre s) (m_suf s) (m_caps s1).

Definition look (neg : bool) (found : option mst) (k : mst -> option mst) (s : mst)
    : option mst :=
  match found with
  | Some s1 => if neg then None else k (same_place s s1)
  | None => if neg then k s else None
  end.

(** ** The matcher *)
Definition orelse {A} (x y : option A) : option A :=
  match x with Some _ => x | None => y end.

(** A repetition may start an iteration at [s]: the limit is not reached and the previous
    iteration did not start here. *)
Definition may_iterate (left last : option nat) (s : mst) : bool :=
  match left with Some O => false | _ => true end &&
  match last with Some p => negb (Nat.eqb p (slen (m_suf s))) | None => true end.

Section Repeat.
Variable step : (mst -> option mst) -> mst -> option mst.

Fixpoint rep_lo (n : nat) (k : mst -> option mst) (s : mst) : option mst :=
  match n with
  | O => k s
  | S n' => step (rep_lo n' k) s
  end.

Fixpoint rep_tail (fuel : nat) (greedy : bool) (k : mst -> option mst)
    (left last : option nat) (s : mst) : option mst :=
  match fuel with
  | O => None
  | S f =>
      let iter :=
        if may_iterate left last s
        then step (rep_tail f greedy k (option_map pred left) (Some (slen (m_suf s)))) s
        else None in
      if greedy then orelse iter (k s) else orelse (k s) iter
  end.
End Repeat.

Fixpoint rmatch (fl : flags) (r : regex) (k : mst -> option mst) (s : mst) {struct r}
    : option mst :=
  match r with
  | REps => k s
  | RChar c =>
      match m_suf s with
      | "" => None
      | String a _ => if class_test fl c a then k (advance s) else None
      end
  | RSeq r1 r2 => rmatch fl r1 (rmatch fl r2 k) s
  | RAlt r1 r2 => orelse (rmatch fl r1 k s) (rmatch fl r2 k s)
  | RRep lo extra greedy r1 =>
      rep_lo (rmatch fl r1) lo
        (fun s1 => rep_tail (rmatch fl r1) (slen (m_suf s1) + 2) greedy k extra None s1) s
  | RGroup i r1 => rmatch fl r1 (fun s1 => k (set_cap i s s1)) s
  | RBackref i =>
      match cap_get i (m_caps s) with
      | None => None
      | Some t => match eat fl t s with Some s1 => k s1 | None => None end
      end
  | RIcase r1 => rmatch (mkflags true (f_dotall fl)) r1 k s
  | RAhead neg r1 => look neg (rmatch fl r1 Some s) k s
  | RBehind neg w r1 =>
      look neg (match move_back w s with Some b => rmatch fl r1 Some b | None => None end) k s
  | RBol => if at_bol s then k s else None
  | REol => if at_eol s then k s else None
  | RWordB neg => if xorb neg (at_boundary s) then k s else None
  end.

(** ** Searching *)
Record pattern : Type := mkpattern { p_re : regex; p_flags : flags }.

(** A match object: [start], [end] and the groups. *)
Record mtch : Type := mkmtch { mt_start : nat; mt_end : nat; mt_caps : list (nat * string) }.

Definition group (m : mtch) (i : nat) : option string := cap_get i (mt_caps m).

(** [must_advance]: an empty match at the first position is not accepted (used by the
    iterators after an empty match). *)
Definition accept_at (must_advance : bool) (s : mst) (s' : mst) : option mst :=
  if must_advance && Nat.eqb (slen (m_suf s)) (slen (m_suf s')) then None else Some s'.

Definition match_here (p : pattern) (must_advance : bool) (s : mst) : option mst :=
  rmatch (p_flags p) (p_re p) (accept_at must_advance s) s.

(** Scan forward from [s]; the result is the state at the match's start and the one at its end. *)
Fixpoint scan (fuel : nat) (p : pattern) (must_advance : bool) (s : mst) : option (mst * mst) :=
  match match_here p must_advance s with
  | Some s' => Some (s, s')
  | None =>
      match fuel with
      | O => None
      | S f => match m_suf s with
               | "" => None
               | String _ _ => scan f p false (advance s)
               end
      end
  end.

Definition to_match (ss : mst * mst) : mtch :=
  mkmtch (slen (m_pre (fst ss))) (slen (m_pre (snd ss))) (m_caps (snd ss)).

(** [pattern.search(s)] *)
Definition search (p : pattern) (s : string) : option mtch :=
  option_map to_match (scan (slen s) p false (start_state s)).

(** [pattern.finditer(s)]: non-overlapping matches, left to right *)
Fixpoint iter_from (fuel : nat) (p : pattern) (must_advance : bool) (s : mst) : list mtch :=
  match fuel with
  | O => []
  | S f =>
      match scan (slen (m_suf s)) p must_advance s with
      | None => []
      | Some (s0, s1) =>
          to_match (s0, s1)
            :: iter_from f p (Nat.eqb (slen (m_suf s0)) (slen (m_suf s1)))
                 (mkmst (m_pre s1) (m_suf s1) [])
      end
  end.
Definition finditer (p : pattern) (s : string) : list mtch :=
  iter_from (2 * slen s + 2) p false (start_state s).

(** [pattern.sub(f, s)] *)
Fixpoint sub_from (ms : list mtch) (f : mtch -> string) (s : string) (pos : nat) : string :=
  match ms with
  | [] => drop pos s
  | m :: r => slice s pos (mt_start m) +s+ f m +s+ sub_from r f s (mt_end m)
  end.
Definition sub (p : pattern) (f : mtch -> string) (s : string) : string :=
  sub_from (finditer p s) f s 0.

(** [m.group()] of a match in [s] *)
Definition group0 (s : string) (m : mtch) : string := slice s (mt_start m) (mt_end m).
