(* ===== verification/RegexParse.v ===== *)
(** * [re.compile] for the syntax the gateway's patterns use

    A recursive-descent parser from pattern text to [regex].  Text outside the supported
    syntax (and text Python rejects) gives [None]; the patterns the gateway ships are all
    inside it ([PacksSpec.registry_well_formed]). *)
From S2P Require Import Prelude PyStr Regex.
From stdpp Require Import options.

Definition lit (c : ascii) : regex := RChar (KSet false [CLit c]).

(** Escapes: inside a class and outside *)
Definition class_escape (c : ascii) : option cls_item :=
  match c with
  | "d"%char => Some (CDigit false) | "D"%char => Some (CDigit true)
  | "s"%char => Some (CSpace false) | "S"%char => Some (CSpace true)
  | "w"%char => Some (CWord false) | "W"%char => Some (CWord true)
  | "n"%char => Some (CLit newline) | "t"%char => Some (CLit tab)
  | "r"%char => Some (CLit "013") | "f"%char => Some (CLit "012")
  | "v"%char => Some (CLit "011") | "a"%char => Some (CLit "007")
  | _ => if is_upper c || is_lower c || is_digit c then None else Some (CLit c)
  end.

Definition atom_escape (c : ascii) : option regex :=
  match c with
  | "b"%char => Some (RWordB false)
  | "B"%char => Some (RWordB true)
  | _ =>
      if is_digit c && negb (Ascii.eqb c "0") then Some (RBackref (cn c - 48))
      else option_map (fun i => RChar (KSet false [i])) (class_escape c)
  end.

(** One member of a class, which is a single character unless it is an escape like [\s] *)
Definition class_member (s : string) : option (cls_item * string) :=
  match s with
  | "" => None
  | String "\" (String "b" r) => Some (CLit "008", r)
  | String "\" (String c r) => option_map (fun i => (i, r)) (class_escape c)
  | String c r => Some (CLit c, r)
  end.

(** The members up to the closing bracket; [first]: a bracket here is a literal. *)
Fixpoint parse_class (fuel : nat) (first : bool) (s : string) : option (list cls_item * string) :=
  match fuel with
  | O => None
  | S f =>
      match s with
      | String "]" r => if first then class_tail f s else Some ([], r)
      | _ => class_tail f s
      end
  end
with class_tail (fuel : nat) (s : string) : option (list cls_item * string) :=
  match fuel with
  | O => None
  | S f =>
      match class_member s with
      | None => None
      | Some (CLit lo, String "-" (String c2 r2 as rest)) =>
          if Ascii.eqb c2 "]" then
            match parse_class f false (String "-" rest) with
            | Some (is_, r3) => Some (CLit lo :: is_, r3)
            | None => None
            end
          else
            match class_member rest with
            | Some (CLit hi, r3) =>
                if (cn hi <? cn lo)%nat then None
                else match parse_class f false r3 with
                     | Some (is_, r4) => Some (CRange lo hi :: is_, r4)
                     | None => None
                     end
            | _ => None
            end
      | Some (i, r) =>
          match parse_class f false r with
          | Some (is_, r2) => Some (i :: is_, r2)
          | None => None
          end
      end
  end.

Fixpoint parse_num (fuel : nat) (acc : nat) (seen : bool) (s : string) : option nat * string :=
  match fuel, s with
  | S f, String c r =>
      if is_digit c then parse_num f (10 * acc + (cn c - 48)) true r
      else (if seen then Some acc else None, s)
  | _, _ => (if seen then Some acc else None, s)
  end.

(** What follows an opening brace: [{n}], [{n,}], [{,m}] or [{n,m}]; [None] when the brace
    is a literal. *)
Definition parse_brace (s : string) : option (nat * option nat * string) :=
  let '(lo, r) := parse_num (slen s) 0 false s in
  match lo, r with
  | Some n, String "}" r2 => Some (n, Some O, r2)
  | _, String "," r2 =>
      let '(hi, r3) := parse_num (slen r2) 0 false r2 in
      match r3 with
      | String "}" r4 =>
          let n := default O lo in
          match hi with
          | Some m => if (m <? n)%nat then None else Some (n, Some (m - n), r4)%nat
          | None => Some (n, None, r4)
          end
      | _ => None
      end
  | _, _ => None
  end.

(** A quantifier: its least count, how many more, and the rest *)
Definition quantifier (s : string) : option (nat * option nat * string) :=
  match s with
  | String "*" r => Some (0, None, r)%nat
  | String "+" r => Some (1, None, r)%nat
  | String "?" r => Some (0, Some 1, r)%nat
  | String "{" r => parse_brace r
  | _ => None
  end.

(** Only a character, a group or a backreference can be repeated. *)
Definition repeatable (r : regex) : bool :=
  match r with
  | RBol | REol | RWordB _ => false
  | _ => true
  end.

Definition quantify (r : regex) (s : string) : option (regex * string) :=
  match quantifier s with
  | None => Some (r, s)
  | Some (lo, extra, rest) =>
      if repeatable r then
        let '(greedy, rest2) :=
          match rest with String "?" r2 => (false, r2) | _ => (true, rest) end in
        match rest2 with
        | String "*" _ | String "+" _ | String "?" _ => None
        | _ => match quantifier rest2 with
               | Some _ => None
               | None => Some (RRep lo extra greedy r, rest2)
               end
        end
      else None
  end.

(** The width of a pattern that always consumes the same number of characters *)
Fixpoint width (r : regex) : option nat :=
  match r with
  | REps | RBol | REol | RWordB _ | RAhead _ _ | RBehind _ _ _ => Some O
  | RChar _ => Some 1%nat
  | RSeq a b =>
      match width a, width b with Some x, Some y => Some (x + y)%nat | _, _ => None end
  | RAlt a b =>
      match width a, width b with
      | Some x, Some y => if Nat.eqb x y then Some x else None
      | _, _ => None
      end
  | RRep lo (Some O) _ a => option_map (Nat.mul lo) (width a)
  | RRep _ _ _ _ => None
  | RGroup _ a | RIcase a => width a
  | RBackref _ => None
  end.

(** [gi] is the number of the next capturing group. *)
Fixpoint parse_alt (fuel : nat) (gi : nat) (s : string) : option (regex * nat * string) :=
  match fuel with
  | O => None
  | S f =>
      match parse_seq f gi s with
      | None => None
      | Some (r1, g1, String "|" rest) =>
          match parse_alt f g1 rest with
          | Some (r2, g2, rest2) => Some (RAlt r1 r2, g2, rest2)
          | None => None
          end
      | Some x => Some x
      end
  end
with parse_seq (fuel : nat) (gi : nat) (s : string) : option (regex * nat * string) :=
  match fuel with
  | O => None
  | S f =>
      match s with
      | "" | String "|" _ | String ")" _ => Some (REps, gi, s)
      | _ =>
          match parse_atom f gi s with
          | None => None
          | Some (a, g1, rest) =>
              match quantify a rest with
              | None => None
              | Some (q, rest2) =>
                  match parse_seq f g1 rest2 with
                  | Some (REps, g2, rest3) => Some (q, g2, rest3)
                  | Some (b, g2, rest3) => Some (RSeq q b, g2, rest3)
                  | None => None
                  end
              end
          end
      end
  end
with parse_atom (fuel : nat) (gi : nat) (s : string) : option (regex * nat * string) :=
  match fuel with
  | O => None
  | S f =>
      let close (mk : regex -> option regex) (g : nat) (body : string) :=
        match parse_alt f g body with
        | Some (r, g1, String ")" rest) => option_map (fun q => (q, g1, rest)) (mk r)
        | _ => None
        end in
      match s with
      | "" => None
      | String "." r => Some (RChar KAny, gi, r)
      | String "^" r => Some (RBol, gi, r)
      | String "$" r => Some (REol, gi, r)
      | String "\" (String c r) => option_map (fun a => (a, gi, r)) (atom_escape c)
      | String "[" (String "^" r) =>
          option_map (fun x => (RChar (KSet true (fst x)), gi, snd x))
            (parse_class (2 * slen r + 2) true r)
      | String "[" r =>
          option_map (fun x => (RChar (KSet false (fst x)), gi, snd x))
            (parse_class (2 * slen r + 2) true r)
      | String "(" (String "?" (String ":" r)) => close Some gi r
      | String "(" (String "?" (String "=" r)) => close (fun q => Some (RAhead false q)) gi r
      | String "(" (String "?" (String "!" r)) => close (fun q => Some (RAhead true q)) gi r
      | String "(" (String "?" (String "<" (String "=" r))) =>
          close (fun q => option_map (fun w => RBehind false w q) (width q)) gi r
      | String "(" (String "?" (String "<" (String "!" r))) =>
          close (fun q => option_map (fun w => RBehind true w q) (width q)) gi r
      | String "(" (String "?" (String "i" (String ":" r))) =>
          close (fun q => Some (RIcase q)) gi r
      | String "(" (String "?" _) => None
      | String "(" r => close (fun q => Some (RGroup gi q)) (S gi) r
      | String "*" _ | String "+" _ | String "?" _ | String ")" _ | String "\" _ => None
      | String c r => Some (lit c, gi, r)
      end
  end.

(** [re.compile(text, flags)]; [(?i)] in front sets IGNORECASE. *)
Definition compile (fl : flags) (text : string) : option pattern :=
  let '(fl', body) :=
    match text with
    | String "(" (String "?" (String "i" (String ")" r))) => (mkflags true (f_dotall fl), r)
    | _ => (fl, text)
    end in
  match parse_alt (3 * slen body + 3) 1 body with
  | Some (r, _, "") => Some (mkpattern r fl')
  | _ => None
  end.

(** [re.search(text, s)]: raises [re.error] on a pattern that does not compile. *)
Definition re_search (text s : string) : result (option mtch) :=
  match compile no_flags text with
  | Some p => Ok (search p s)
  | None => Raise ReError
  end.

(** A pattern compiled from a literal; a pattern that never matches stands for a literal that
    does not compile, which no shipped literal is. *)
Definition never : pattern := mkpattern (RChar (KSet false [])) no_flags.
Definition re_lit (fl : flags) (text : string) : pattern := default never (compile fl text).
