(* ===== verification/RegexFacts.v ===== *)
(** * What the matcher computes: a declarative semantics and its equivalence

    [Den fl r s s'] says that [r] can take the matcher from [s] to [s'], with no reference
    to the order in which the engine tries things.  [rmatch] finds a match exactly when
    there is one ([rmatch_sound], [rmatch_complete]), so [search] decides whether a text
    has a match and returns a leftmost one. *)
From S2P Require Import Prelude PyStr Regex.
From stdpp Require Import options.

(** ** Semantics *)
Section Iter.
Variable R : mst -> mst -> Prop.

Fixpoint iterR (n : nat) (s s' : mst) : Prop :=
  match n with
  | O => s = s'
  | S m => exists s1, R s s1 /\ iterR m s1 s'
  end.

Inductive tailR : option nat -> option nat -> mst -> mst -> Prop :=
| tail_done left last s : tailR left last s s
| tail_step left last s s1 s' :
    may_iterate left last s = true -> R s s1 ->
    tailR (option_map pred left) (Some (slen (m_suf s))) s1 s' ->
    tailR left last s s'.
End Iter.

(** A look-around whose body's matches are the states in [P] *)
Definition lookR (neg : bool) (P : mst -> Prop) (s s' : mst) : Prop :=
  if neg then (~ exists s1, P s1) /\ s' = s else exists s1, P s1 /\ s' = same_place s s1.

Fixpoint Den (fl : flags) (r : regex) (s s' : mst) : Prop :=
  match r with
  | REps => s' = s
  | RChar c => exists a t, m_suf s = String a t /\ class_test fl c a = true /\ s' = advance s
  | RSeq r1 r2 => exists s1, Den fl r1 s s1 /\ Den fl r2 s1 s'
  | RAlt r1 r2 => Den fl r1 s s' \/ Den fl r2 s s'
  | RRep lo extra _ r1 =>
      exists s1, iterR (Den fl r1) lo s s1 /\ tailR (Den fl r1) extra None s1 s'
  | RGroup i r1 => exists s1, Den fl r1 s s1 /\ s' = set_cap i s s1
  | RBackref i => exists t, cap_get i (m_caps s) = Some t /\ eat fl t s = Some s'
  | RIcase r1 => Den (mkflags true (f_dotall fl)) r1 s s'
  | RAhead neg r1 => lookR neg (Den fl r1 s) s s'
  | RBehind neg w r1 =>
      lookR neg (fun s1 => exists b, move_back w s = Some b /\ Den fl r1 b s1) s s'
  | RBol => at_bol s = true /\ s' = s
  | REol => at_eol s = true /\ s' = s
  | RWordB neg => xorb neg (at_boundary s) = true /\ s' = s
  end.

(** Look-arounds that capture nothing: their outcome does not depend on which of their
    matches the engine finds first. *)
Fixpoint no_group (r : regex) : bool :=
  match r with
  | RGroup _ _ => false
  | RSeq a b | RAlt a b => no_group a && no_group b
  | RRep _ _ _ a | RIcase a | RAhead _ a | RBehind _ _ a => no_group a
  | _ => true
  end.
Fixpoint look_ok (r : regex) : bool :=
  match r with
  | RAhead _ a | RBehind _ _ a => no_group a && look_ok a
  | RSeq a b | RAlt a b => look_ok a && look_ok b
  | RRep _ _ _ a | RGroup _ a | RIcase a => look_ok a
  | _ => true
  end.

(** ** Positions only move forward, and the text stays the same *)
Definition text_of (s : mst) : string := srev (m_pre s) +s+ m_suf s.

Definition after (s s' : mst) : Prop :=
  text_of s' = text_of s /\ (slen (m_suf s') <= slen (m_suf s))%nat.

#[export] Instance after_refl : Reflexive after.
Proof. by split. Qed.
#[export] Instance after_trans : Transitive after.
Proof. intros a b c [? ?] [? ?]. split; [congruence | lia]. Qed.

Lemma after_caps s c : after s (mkmst (m_pre s) (m_suf s) c).
Proof. by split. Qed.

Lemma after_advance s : after s (advance s).
Proof.
  destruct s as [p [|c t] cs]; [reflexivity |]. split; simpl; [| unfold slen; simpl; lia].
  unfold text_of. simpl. by rewrite srev_cons, append_assoc.
Qed.

Lemma after_eat fl t s s' : eat fl t s = Some s' -> after s s'.
Proof.
  revert s. induction t as [|a t IH]; simpl; intros s H; [by injection H as -> |].
  destruct (m_suf s) as [|b u]; [discriminate |].
  destruct (if f_ignorecase fl then _ else _); [| discriminate]. etransitivity; [apply after_advance | by apply IH].
Qed.

Lemma after_iterR (R : mst -> mst -> Prop) n s s' :
  (forall a b, R a b -> after a b) -> iterR R n s s' -> after s s'.
Proof.
  intros HR. revert s. induction n as [|n IH]; simpl; intros s.
  - by intros ->.
  - intros (s1 & H1 & H2). etransitivity; [by apply HR | by apply IH].
Qed.
Lemma after_tailR (R : mst -> mst -> Prop) left last s s' :
  (forall a b, R a b -> after a b) -> tailR R left last s s' -> after s s'.
Proof.
  intros HR. induction 1; [reflexivity |]. etransitivity; [by apply HR | done].
Qed.

Lemma lookR_after neg P s s' : lookR neg P s s' -> after s s'.
Proof. destruct neg; simpl; [by intros [_ ->] | intros (s1 & _ & ->); by split]. Qed.

#[export] Hint Resolve after_refl after_caps after_advance : gw.

Lemma Den_after fl r s s' : Den fl r s s' -> after s s'.
Proof.
  revert fl s s'. induction r; intros fl s s' H; simpl in H.
  - by subst.
  - destruct H as (a & t & _ & _ & ->). apply after_advance.
  - destruct H as (s1 & H1 & H2). transitivity s1; eauto.
  - destruct H; eauto.
  - destruct H as (s1 & H1 & H2).
    transitivity s1;
      [eapply (after_iterR (Den fl r)) | eapply (after_tailR (Den fl r))]; eauto.
  - destruct H as (s1 & H1 & ->). transitivity s1; [by eapply IHr | by split].
  - destruct H as (t & _ & H). eapply after_eat; eauto.
  - eauto.
  - eapply lookR_after; eauto.
  - eapply lookR_after; eauto.
  - by destruct H as [_ ->].
  - by destruct H as [_ ->].
  - by destruct H as [_ ->].
Qed.

(** ** Captures of a group-free expression *)
Lemma eat_caps fl t s s' : eat fl t s = Some s' -> m_caps s' = m_caps s.
Proof.
  revert s. induction t as [|a t IH]; simpl; intros s H; [by injection H as -> |].
  destruct s as [p [|c u] cs]; simpl in *; [discriminate |].
  destruct (if f_ignorecase fl then _ else _); [| discriminate]. by apply IH in H.
Qed.

Lemma lookR_caps neg (P : mst -> Prop) s s' :
  (forall s1, P s1 -> m_caps s1 = m_caps s) -> lookR neg P s s' -> m_caps s' = m_caps s.
Proof. intros HP. destruct neg; simpl; [by intros [_ ->] | intros (s1 & H & ->); exact (HP s1 H)]. Qed.

Lemma move_back_caps w s b : move_back w s = Some b -> m_caps b = m_caps s.
Proof.
  revert s. induction w as [|w IH]; simpl; intros s Hb; [by injection Hb as -> |].
  destruct (m_pre s); [discriminate |]. by apply IH in Hb.
Qed.

Lemma iterR_caps (R : mst -> mst -> Prop) n s s' :
  (forall a b, R a b -> m_caps b = m_caps a) -> iterR R n s s' -> m_caps s' = m_caps s.
Proof.
  intros HR. revert s. induction n as [|n IH]; simpl; [by intros s -> |].
  intros s (s2 & Ha & Hb). transitivity (m_caps s2); [by apply IH | eauto].
Qed.
Lemma tailR_caps (R : mst -> mst -> Prop) left last s s' :
  (forall a b, R a b -> m_caps b = m_caps a) -> tailR R left last s s' -> m_caps s' = m_caps s.
Proof. intros HR. induction 1; [done |]. etransitivity; eauto. Qed.

Lemma Den_caps fl r s s' : no_group r = true -> Den fl r s s' -> m_caps s' = m_caps s.
Proof.
  revert fl s s'. induction r; intros fl s s' Hn H; simpl in Hn, H; bprop; try discriminate.
  - by subst.
  - destruct H as (a & t & E & _ & ->). unfold advance. by rewrite E.
  - destruct H as (s1 & H1 & H2). etransitivity; [eapply IHr2 | eapply IHr1]; eauto.
  - destruct H; eauto.
  - destruct H as (s1 & H1 & H2). transitivity (m_caps s1);
      [eapply (tailR_caps (Den fl r)) | eapply (iterR_caps (Den fl r))]; eauto.
  - destruct H as (t & _ & H). eapply eat_caps; eauto.
  - eauto.
  - eapply lookR_caps; eauto.
  - eapply lookR_caps; [| done]. intros s1 (b & Hb & H1).
    rewrite <- (move_back_caps _ _ _ Hb). eauto.
  - by destruct H as [_ ->].
  - by destruct H as [_ ->].
  - by destruct H as [_ ->].
Qed.

(** ** Soundness and completeness of the backtracking search *)
Definition sound (st : (mst -> option mst) -> mst -> option mst) (R : mst -> mst -> Prop) : Prop :=
  forall k s x, st k s = Some x -> exists s', R s s' /\ k s' = Some x.
Definition complete (st : (mst -> option mst) -> mst -> option mst) (R : mst -> mst -> Prop) : Prop :=
  forall k s s', R s s' -> k s' <> None -> st k s <> None.

Lemma orelse_None {A} (x y : option A) : orelse x y = None <-> x = None /\ y = None.
Proof. destruct x; simpl; intuition discriminate. Qed.
Lemma orelse_Some {A} (x y : option A) z : orelse x y = Some z -> x = Some z \/ y = Some z.
Proof. destruct x; simpl; intuition. Qed.

Section RepeatFacts.
Variables (st : (mst -> option mst) -> mst -> option mst) (R : mst -> mst -> Prop).
Hypothesis Hsound : sound st R.
Hypothesis Hcomplete : complete st R.
Hypothesis Hafter : forall a b, R a b -> after a b.

Lemma rep_lo_sound n : sound (rep_lo st n) (iterR R n).
Proof using Hsound.
  induction n as [|n IH]; intros k s x H; simpl in *; [eauto |].
  apply Hsound in H as (s1 & H1 & H2). apply IH in H2 as (s2 & H2 & H3). eauto.
Qed.
Lemma rep_lo_complete n : complete (rep_lo st n) (iterR R n).
Proof using Hcomplete.
  induction n as [|n IH]; intros k s s' H Hk; simpl in *; [by subst |].
  destruct H as (s1 & H1 & H2). eapply Hcomplete; eauto.
Qed.

Lemma rep_tail_sound fuel greedy k left last s x :
  rep_tail st fuel greedy k left last s = Some x ->
  exists s', tailR R left last s s' /\ k s' = Some x.
Proof using Hsound.
  revert left last s. induction fuel as [|f IH]; simpl; intros left last s H; [discriminate |].
  assert (Hit : (if may_iterate left last s then
            st (rep_tail st f greedy k (option_map pred left) (Some (slen (m_suf s)))) s
          else None) = Some x \/ k s = Some x).
  { destruct greedy; apply orelse_Some in H; tauto. }
  destruct Hit as [Hit | Hk]; [| eauto using tail_done].
  destruct (may_iterate left last s) eqn:E; [| discriminate].
  apply Hsound in Hit as (s1 & H1 & H2). apply IH in H2 as (s2 & H2 & H3).
  eauto using tail_step.
Qed.

(** The fuel is the number of iterations the zero-width rule can allow. *)
Definition tail_need (last : option nat) (s : mst) : nat :=
  match last with
  | Some p => if Nat.eqb p (slen (m_suf s)) then 1 else slen (m_suf s) + 2
  | None => slen (m_suf s) + 2
  end.

Lemma rep_tail_complete greedy k left last s s' :
  tailR R left last s s' -> k s' <> None ->
  forall fuel, (tail_need last s <= fuel)%nat ->
  rep_tail st fuel greedy k left last s <> None.
Proof using Hcomplete Hafter.
  induction 1 as [left last s | left last s s1 s' Hm H1 _ IH]; intros Hk fuel Hf.
  - destruct fuel as [|f]; [unfold tail_need in Hf; repeat case_match; lia |].
    simpl. destruct greedy; rewrite orelse_None; tauto.
  - destruct fuel as [|f]; [unfold tail_need in Hf; repeat case_match; lia |].
    assert (Hrec : st (rep_tail st f greedy k (option_map pred left)
                         (Some (slen (m_suf s)))) s <> None).
    { eapply Hcomplete; [done |]. apply IH; [done |].
      pose proof (Hafter _ _ H1) as [_ Hle]. unfold may_iterate in Hm. bprop.
      unfold tail_need in *.
      destruct (Nat.eqb_spec (slen (m_suf s)) (slen (m_suf s1))), last as [p|]; bprop;
        repeat match goal with H : (_ =? _)%nat = _ |- _ => rewrite H in * end; lia. }
    simpl. rewrite Hm. destruct greedy; rewrite orelse_None; tauto.
Qed.
End RepeatFacts.

Section LookFacts.
Variables (neg : bool) (found : mst -> option mst) (P : mst -> mst -> Prop).
Hypothesis Hfound : forall s s1, found s = Some s1 -> P s s1.
Hypothesis Hexists : forall s s1, P s s1 -> found s <> None.
Hypothesis Hcaps : forall s s1, P s s1 -> m_caps s1 = m_caps s.

Lemma look_sound : sound (fun k s => look neg (found s) k s) (fun s => lookR neg (P s) s).
Proof using Hfound Hexists.
  intros k s x. unfold look, lookR.
  destruct (found s) as [s1|] eqn:E, neg; try discriminate; intros Hk.
  - eexists; split; [| done]. eauto.
  - exists s. repeat split; [| done]. intros [s1 H1]. by eapply Hexists in E.
Qed.

Lemma look_complete : complete (fun k s => look neg (found s) k s) (fun s => lookR neg (P s) s).
Proof using Hfound Hexists Hcaps.
  intros k s s'. unfold look, lookR. destruct (found s) as [s1|] eqn:E, neg.
  - intros [Hn _]. destruct Hn. eauto.
  - intros (s2 & H2 & ->). apply Hfound in E. unfold same_place.
    by rewrite (Hcaps s s1), (Hcaps s s2).
  - by intros [_ ->].
  - intros (s2 & H2 & _). by eapply Hexists in E.
Qed.
End LookFacts.

(** The cases of the correctness proof that have no sub-expression to match first *)
Lemma test_correct (b : mst -> bool) :
  sound (fun k s => if b s then k s else None) (fun s s' => b s = true /\ s' = s) /\
  complete (fun k s => if b s then k s else None) (fun s s' => b s = true /\ s' = s).
Proof.
  split; intros k s; simpl; [| by intros s' [-> ->]].
  intros x H. destruct (b s) eqn:E; [eauto | discriminate].
Qed.

Lemma rep_correct st R lo extra greedy :
  sound st R -> complete st R -> (forall a b, R a b -> after a b) ->
  let f k s := rep_lo st lo (fun s1 =>
                 rep_tail st (slen (m_suf s1) + 2) greedy k extra None s1) s in
  let Q s s' := exists s1, iterR R lo s s1 /\ tailR R extra None s1 s' in
  sound f Q /\ complete f Q.
Proof.
  intros S1 C1 HA f Q. split; intros k s; unfold f, Q.
  - intros x H. eapply rep_lo_sound in H as (s1 & H1 & H2); [| done].
    eapply rep_tail_sound in H2 as (s2 & H2 & H3); [| done]. eauto.
  - intros s' (s1 & H1 & H2) Hk. eapply rep_lo_complete; eauto.
    eapply rep_tail_complete; eauto.
Qed.

Lemma rmatch_correct fl r : look_ok r = true ->
  sound (rmatch fl r) (Den fl r) /\ complete (rmatch fl r) (Den fl r).
Proof.
  revert fl. induction r; intros fl Hl; simpl in Hl; bprop.
  - split; intros k s; simpl; [eauto | by intros s' ->].
  - split; intros kt s; simpl.
    + intros x H. destruct (m_suf s) as [|a t] eqn:E; [discriminate |].
      case_hyp H; [| discriminate]. exists (advance s). eauto 8.
    + intros s' (a & t & E & Hc & ->) Hk. by rewrite E, Hc.
  - destruct (IHr1 fl) as [S1 C1], (IHr2 fl) as [S2 C2]; [done.. |].
    split; intros k s; simpl.
    + intros x H. apply S1 in H as (s1 & H1 & H2). apply S2 in H2 as (s2 & H2 & H3). eauto.
    + intros s' (s1 & H1 & H2) Hk. eapply C1; eauto.
  - destruct (IHr1 fl) as [S1 C1], (IHr2 fl) as [S2 C2]; [done.. |].
    split; intros k s; simpl.
    + intros x [H | H]%orelse_Some; [apply S1 in H | apply S2 in H];
        destruct H as (s' & ? & ?); eauto.
    + intros s' [H | H] Hk [N1 N2]%orelse_None; [by eapply C1 | by eapply C2].
  - destruct (IHr fl) as [S1 C1]; [done |].
    apply (rep_correct (rmatch fl r) (Den fl r) lo extra greedy S1 C1 (Den_after fl r)).
  - destruct (IHr fl) as [S1 C1]; [done |]. split; intros k s; simpl.
    + intros x H. apply S1 in H as (s1 & H1 & H2). eauto.
    + intros s' (s1 & H1 & ->) Hk. eapply C1; eauto.
  - split; intros k s; simpl.
    + intros x H. destruct (cap_get i (m_caps s)); [| discriminate].
      destruct (eat fl s0 s) eqn:E; [| discriminate]. eauto.
    + intros s' (t & E1 & E2) Hk. by rewrite E1, E2.
  - destruct (IHr (mkflags true (f_dotall fl))) as [S1 C1]; [done |].
    split; intros k s; simpl; eauto.
  - destruct (IHr fl) as [S1 C1]; [done |].
    assert (HF : forall s s1, rmatch fl r Some s = Some s1 -> Den fl r s s1).
    { intros s s1 H. by apply S1 in H as (? & ? & [= ->]). }
    split; [eapply look_sound | eapply look_complete]; eauto using Den_caps.
    all: intros s s1 H1; by eapply C1.
  - destruct (IHr fl) as [S1 C1]; [done |].
    assert (HF : forall s s1, match move_back w s with
                   | Some b => rmatch fl r Some b | None => None end = Some s1 ->
                 exists b, move_back w s = Some b /\ Den fl r b s1).
    { intros s s1 H. destruct (move_back w s); [| discriminate].
      apply S1 in H as (? & ? & [= ->]). eauto. }
    assert (HE : forall s s1, (exists b, move_back w s = Some b /\ Den fl r b s1) ->
                 match move_back w s with
                 | Some b => rmatch fl r Some b | None => None end <> None).
    { intros s s1 (b & -> & H1). by eapply C1. }
    split; [eapply look_sound | eapply look_complete]; try done.
    intros s s1 (b & Hb & H1). rewrite <- (move_back_caps _ _ _ Hb). by eapply Den_caps.
  - apply test_correct.
  - apply test_correct.
  - apply (test_correct (fun s => xorb neg (at_boundary s))).
Qed.

(** ** [search]: a leftmost match, and none exactly when there is none *)

(** [p] matches the text [a ++ b] at the position after [a], ending in the state [s1]. *)
Definition matches_at (p : pattern) (a b : string) (s1 : mst) : Prop :=
  Den (p_flags p) (p_re p) (mkmst (srev a) b []) s1.
Definition pattern_ok (p : pattern) : bool := look_ok (p_re p).

Lemma match_here_spec p s : pattern_ok p = true ->
  (forall s1, match_here p false s = Some s1 -> Den (p_flags p) (p_re p) s s1) /\
  (match_here p false s = None -> forall s1, ~ Den (p_flags p) (p_re p) s s1).
Proof.
  intros Hok. destruct (rmatch_correct (p_flags p) (p_re p) Hok) as [S C].
  unfold match_here. split.
  - intros s1 H. by apply S in H as (? & ? & [= ->]).
  - intros H s1 H1. by eapply C in H.
Qed.

Lemma scan_spec p fuel pre b : pattern_ok p = true -> (slen b <= fuel)%nat ->
  match scan fuel p false (mkmst (srev pre) b []) with
  | Some (s0, s1) => exists a c, b = a +s+ c /\ s0 = mkmst (srev (pre +s+ a)) c [] /\
      matches_at p (pre +s+ a) c s1 /\
      forall a' c' s2, b = a' +s+ c' -> (slen a' < slen a)%nat -> ~ matches_at p (pre +s+ a') c' s2
  | None => forall a c s1, b = a +s+ c -> ~ matches_at p (pre +s+ a) c s1
  end.
Proof.
  intros Hok. revert pre b. induction fuel as [|f IH]; intros pre b Hf;
    pose proof (match_here_spec p (mkmst (srev pre) b []) Hok) as [HS HN]; simpl;
    destruct (match_here p false (mkmst (srev pre) b [])) as [s1|] eqn:E;
    try (exists "", b; rewrite append_nil_r; unfold matches_at; repeat split; [by apply HS |];
         intros ? ? ? _ Hlt; unfold slen in Hlt at 2; simpl in Hlt; lia).
  - destruct b; [| unfold slen in Hf; simpl in Hf; lia].
    intros a c s1 Heq. destruct a, c; try discriminate. rewrite append_nil_r. by apply HN.
  - destruct b as [|ch b]; simpl.
    + intros a c s1 Heq. destruct a, c; try discriminate. rewrite append_nil_r. by apply HN.
    + specialize (IH (pre +s+ sc ch) b). unfold advance. simpl.
      rewrite srev_append in IH. simpl in IH.
      assert (Hnil : forall c' s2, String ch b = c' -> ~ matches_at p (pre +s+ "") c' s2).
      { intros c' s2 <-. rewrite append_nil_r. by apply HN. }
      destruct (scan f p false _) as [[s0 s1]|].
      * destruct IH as (a & c & -> & -> & Hm & Hleft); [unfold slen in *; simpl in *; lia |].
        rewrite append_assoc in Hm |- *. exists (String ch a), c.
        split; [done |]. split; [done |]. split; [exact Hm |].
        intros a' c' s2 Heq Hlt. destruct a' as [|x a']; [by apply Hnil |].
        injection Heq as <- Heq. replace (pre +s+ String ch a') with ((pre +s+ sc ch) +s+ a') by apply append_assoc.
        eapply Hleft; [done |]. unfold slen in *; simpl in *; lia.
      * intros a c s1 Heq. destruct a as [|x a]; [by apply Hnil |].
        injection Heq as <- Heq. replace (pre +s+ String ch a) with ((pre +s+ sc ch) +s+ a) by apply append_assoc.
        eapply IH; [unfold slen in *; simpl in *; lia | done].
Qed.

Theorem search_None_iff p s : pattern_ok p = true ->
  search p s = None <-> forall a b s1, s = a +s+ b -> ~ matches_at p a b s1.
Proof.
  intros Hok. unfold search, start_state.
  pose proof (scan_spec p (slen s) "" s Hok (le_n _)) as H. simpl in H.
  destruct (scan _ _ _ _) as [[s0 s1]|]; simpl.
  - destruct H as (a & c & -> & _ & Hm & _). split; [discriminate |].
    intros Hn. by destruct (Hn a c s1).
  - split; [intros _; apply H | done].
Qed.

Theorem search_Some_leftmost p s m : pattern_ok p = true -> search p s = Some m ->
  exists a b s1, s = a +s+ b /\ matches_at p a b s1 /\ m = to_match (mkmst (srev a) b [], s1) /\
    forall a' b' s2, s = a' +s+ b' -> (slen a' < slen a)%nat -> ~ matches_at p a' b' s2.
Proof.
  intros Hok. unfold search, start_state.
  pose proof (scan_spec p (slen s) "" s Hok (le_n _)) as H. simpl in H.
  destruct (scan _ _ _ _) as [[s0 s1]|]; simpl; [| discriminate].
  intros [= <-]. destruct H as (a & c & -> & -> & Hm & Hl). eauto 10.
Qed.

Lemma slen_srev s : slen (srev s) = slen s.
Proof.
  induction s as [|c r IH]; [done |]. rewrite srev_cons, slen_app, IH. unfold slen. simpl. lia.
Qed.

Lemma text_of_slen s : slen (text_of s) = (slen (m_pre s) + slen (m_suf s))%nat.
Proof. unfold text_of. by rewrite slen_app, slen_srev. Qed.

(** The span of a match lies inside the text. *)
Theorem search_span p s m : pattern_ok p = true -> search p s = Some m ->
  (mt_start m <= mt_end m <= slen s)%nat.
Proof.
  intros Hok H. apply search_Some_leftmost in H as (a & b & s1 & -> & Hm & -> & _); [| done].
  apply Den_after in Hm as [Ht Hle]. apply (f_equal slen) in Ht.
  rewrite !text_of_slen in Ht. simpl in *. rewrite slen_srev in *. rewrite slen_app. lia.
Qed.
