(* ===== verification/Shlex.v ===== *)
(** * Python's [shlex]: [split], [quote] and [join]

    [split] is the POSIX lexer of [shlex] as [shlex.split] configures it
    ([whitespace_split], no comment characters): one transition per character read. *)
From S2P Require Import Prelude PyStr.
From stdpp Require Import options.

(** The lexer's whitespace, and its quote characters *)
Definition shlex_space (c : ascii) : bool := char_in c (String tab (String "013" (String newline " "))).
Definition shlex_quote (c : ascii) : bool := Ascii.eqb c sq || Ascii.eqb c dq.

Inductive lexstate : Type :=
| LSpace                                       (* ' ': between tokens *)
| LWord (tok : string)                         (* 'a': inside a word *)
| LQuote (q : ascii) (tok : string)            (* inside quotes [q] *)
| LEsc (back : option ascii) (tok : string).   (* after a backslash; [back]: the quotes around it *)

Definition app1 (tok : string) (c : ascii) : string := tok +s+ sc c.

Fixpoint lex (st : lexstate) (s : string) : result (list string) :=
  match s with
  | "" =>
      match st with
      | LSpace => Ok []
      | LWord tok => Ok [tok]
      | LQuote _ _ => Raise (ValueError "No closing quotation")
      | LEsc _ _ => Raise (ValueError "No escaped character")
      end
  | String c r =>
      match st with
      | LSpace =>
          if shlex_space c then lex LSpace r
          else if Ascii.eqb c bslash then lex (LEsc None "") r
          else if shlex_quote c then lex (LQuote c "") r
          else lex (LWord (sc c)) r
      | LWord tok =>
          if shlex_space c then ts <-! lex LSpace r ;; Ok (tok :: ts)
          else if shlex_quote c then lex (LQuote c tok) r
          else if Ascii.eqb c bslash then lex (LEsc None tok) r
          else lex (LWord (app1 tok c)) r
      | LQuote q tok =>
          if Ascii.eqb c q then lex (LWord tok) r
          else if Ascii.eqb c bslash && Ascii.eqb q dq then lex (LEsc (Some q) tok) r
          else lex (LQuote q (app1 tok c)) r
      | LEsc back tok =>
          match back with
          | Some q =>
              let tok' := if negb (Ascii.eqb c bslash) && negb (Ascii.eqb c q)
                          then app1 tok bslash else tok in
              lex (LQuote q (app1 tok' c)) r
          | None => lex (LWord (app1 tok c)) r
          end
      end
  end.

(** [shlex.split(s)] *)
Definition split (s : string) : result (list string) := lex LSpace s.

(** [shlex.quote(s)] *)
Definition safe_char (c : ascii) : bool := is_word c || char_in c "@%+=:,./-".
Fixpoint all_chars (p : ascii -> bool) (s : string) : bool :=
  match s with "" => true | String c r => p c && all_chars p r end.

(** A single quote, closed, in double quotes, and reopened *)
Definition quoted_sq : string := String sq (String dq (String sq (String dq (sc sq)))).

Definition quote (s : string) : string :=
  if String.eqb s "" then "''"
  else if all_chars safe_char s then s
  else sc sq +s+ replace_char sq quoted_sq s +s+ sc sq.

(** [shlex.join(l)] *)
Definition shjoin (l : list string) : string := join " " (map quote l).

(** ** Splitting undoes joining *)

(** What can follow a word: the end, or a space and more *)
Definition word_end (rest : string) : Prop := rest = "" \/ exists r, rest = String " " r.

Lemma safe_char_plain c : safe_char c = true ->
  shlex_space c = false /\ shlex_quote c = false /\ Ascii.eqb c bslash = false.
Proof.
  intros H.
  assert (E : implb (safe_char c) (negb (shlex_space c || shlex_quote c || Ascii.eqb c bslash))
              = true) by (revert c H; intros c _; revert c; apply ascii_forall; by_eval).
  rewrite H in E. simpl in E. bprop. auto.
Qed.

Lemma lex_word_safe tok w rest : all_chars safe_char w = true ->
  lex (LWord tok) (w +s+ rest) = lex (LWord (tok +s+ w)) rest.
Proof.
  revert tok. induction w as [|c w IH]; intros tok H; simpl in *; [by rewrite append_nil_r |].
  bprop. destruct (safe_char_plain c) as (-> & -> & ->); [done |]. rewrite IH by done. unfold app1. by rewrite append_assoc.
Qed.

Lemma lex_quoted tok w rest :
  lex (LQuote sq tok) (replace_char sq quoted_sq w +s+ String sq rest)
  = lex (LWord (tok +s+ w)) rest.
Proof.
  revert tok. induction w as [|c w IH]; intros tok; simpl.
  - by rewrite append_nil_r.
  - destruct (Ascii.eqb_spec c sq) as [-> | Hne]; simpl.
    + rewrite IH. unfold app1. by rewrite append_assoc.
    + destruct (Ascii.eqb_spec c sq); [done |].
      rewrite andb_false_r, IH. unfold app1. by rewrite append_assoc.
Qed.

Lemma lex_space_safe w rest : w <> "" -> all_chars safe_char w = true ->
  lex LSpace (w +s+ rest) = lex (LWord w) rest.
Proof.
  destruct w as [|c w]; [done |]. intros _ H. simpl in H. bprop. simpl.
  destruct (safe_char_plain c) as (-> & -> & ->); [done |]. by rewrite lex_word_safe.
Qed.

Lemma lex_space_quote w rest : lex LSpace (quote w +s+ rest) = lex (LWord w) rest.
Proof.
  unfold quote. destruct (String.eqb_spec w "") as [-> | Hne]; [done |].
  destruct (all_chars safe_char w) eqn:E; [by apply lex_space_safe |].
  rewrite !append_assoc. exact (lex_quoted "" w rest).
Qed.

Theorem split_shjoin l : split (shjoin l) = Ok l.
Proof.
  unfold split, shjoin. induction l as [|w [|w2 r] IH]; [done | |].
  - simpl. rewrite <- (append_nil_r (quote w)). by rewrite lex_space_quote.
  - change (join " " (map quote (w :: w2 :: r)))
      with (quote w +s+ String " " (join " " (map quote (w2 :: r)))).
    rewrite lex_space_quote. cbn [lex]. change (shlex_space " ") with true. cbn iota.
    by rewrite IH.
Qed.

(** A word of the result never needs more characters than the text has. *)
Lemma lex_total st s : is_ok (lex st s) = true \/
  lex st s = Raise (ValueError "No closing quotation") \/
  lex st s = Raise (ValueError "No escaped character").
Proof.
  revert st. induction s as [|c r IH]; intros [| | |[]]; simpl; auto.
  all: repeat (case_match; auto).
  destruct (IH LSpace) as [Hok | [-> | ->]]; auto. by destruct (lex LSpace r); auto.
Qed.
