(* ===== verification/PolicyTypes.v ===== *)
(** * The data types of the policy engine (app/command_policy.py) *)
From Stdlib Require Import Floats.
From S2P Require Import Prelude PyStr.
From stdpp Require Import options.

Inductive CommandPolicyMode : Type := OFF | AUDIT | ENFORCE | ASK.
Definition mode_value (m : CommandPolicyMode) : string :=
  match m with OFF => "off" | AUDIT => "audit" | ENFORCE => "enforce" | ASK => "ask" end.

Inductive CommandPolicyProfile : Type :=
| DEFAULT | READONLY | TESTLINT | PROJECT_AUTOMATION | OPS | DOCKER_ADMIN.
Definition profile_name (p : CommandPolicyProfile) : string :=
  match p with
  | DEFAULT => "default" | READONLY => "readonly" | TESTLINT => "testlint"
  | PROJECT_AUTOMATION => "project-automation" | OPS => "ops" | DOCKER_ADMIN => "docker-admin"
  end.

Inductive Severity : Type := CRITICAL | HIGH | MEDIUM | LOW.
Definition severity_value (s : Severity) : string :=
  match s with
  | CRITICAL => "critical" | HIGH => "high" | MEDIUM => "medium" | LOW => "low"
  end.

Inductive SuggestionKind : Type :=
| PREVIEW_FIRST | SAFER_ALTERNATIVE | WORKFLOW_FIX | DOCUMENTATION | ALLOW_SAFELY.
Definition kind_value (k : SuggestionKind) : string :=
  match k with
  | PREVIEW_FIRST => "preview_first" | SAFER_ALTERNATIVE => "safer_alternative"
  | WORKFLOW_FIX => "workflow_fix" | DOCUMENTATION => "documentation"
  | ALLOW_SAFELY => "allow_safely"
  end.

#[export] Instance mode_eq_dec : EqDecision CommandPolicyMode.
Proof. solve_decision. Defined.
#[export] Instance profile_eq_dec : EqDecision CommandPolicyProfile.
Proof. solve_decision. Defined.
#[export] Instance severity_eq_dec : EqDecision Severity.
Proof. solve_decision. Defined.
#[export] Instance kind_eq_dec : EqDecision SuggestionKind.
Proof. solve_decision. Defined.

Record PatternSuggestion : Type := mkSuggestion {
  ps_command : string; ps_description : string; ps_kind : SuggestionKind }.

Record DestructivePattern : Type := mkPattern {
  dp_name : string; dp_regex : string; dp_reason : string; dp_severity : Severity;
  dp_description : string; dp_suggestions : list PatternSuggestion }.

Record DestructiveMatch : Type := mkMatch {
  dm_pattern_name : string; dm_reason : string; dm_severity : Severity;
  dm_suggestion : option string; dm_suggestions : list PatternSuggestion;
  dm_confidence : float }.

Record CommandPolicyDecision : Type := mkDecision {
  d_allowed : bool; d_reason : string; d_profile : string; d_mode : string;
  d_command_root : option string; d_requires_approval : bool;
  d_approval_id : option string; d_suggestion : option string;
  d_suggestions : list string }.

(** A decision with the dataclass's defaults for the fields after [command_root] *)
Definition decision (allowed : bool) (reason profile mode : string) (root : option string)
    : CommandPolicyDecision :=
  mkDecision allowed reason profile mode root false None None [].

Record ScanFinding : Type := mkFinding {
  sf_pattern_name : string; sf_severity : string; sf_reason : string;
  sf_suggestion : option string; sf_suggestions : list (dict string);
  sf_confidence : option float }.

Record ScanReport : Type := mkReport { sr_findings : list ScanFinding; sr_total : nat }.

(** [(bool, reason)], what the gates and validators return *)
Definition verdict : Type := bool * string.
Definition pass : verdict := (true, "").
Definition deny (why : string) : verdict := (false, why).
