(* ===== verification/Context.v ===== *)
(** * Shell command span classification (app/context.py)

    A command line is cut into tokens and each token is classified: executed code, data,
    comment, argument of a safe wrapper, inline code, heredoc body. *)
From S2P Require Import Prelude PyStr.
From stdpp Require Import options.

Inductive SpanKind : Type :=
| PENDING | EXECUTED | DATA | COMMENT | ARGUMENT | INLINE_CODE | HEREDOC_BODY | UNKNOWN.
#[export] Instance spankind_eq_dec : EqDecision SpanKind.
Proof. solve_decision. Defined.

Definition should_check (k : SpanKind) : bool :=
  match k with EXECUTED | INLINE_CODE | HEREDOC_BODY | UNKNOWN => true | _ => false end.

Record Span : Type := mkSpan { sp_kind : SpanKind; sp_text : string; sp_start : nat }.
Definition sp_end (s : Span) : nat := (sp_start s + slen (sp_text s))%nat.

(** ** Tables *)
Definition SAFE_WRAPPER_FLAGS : dict (list string) :=
  [("echo", []); ("printf", []); ("grep", ["-e"]); ("rg", []); ("ag", []); ("ack", []);
   ("cat", []); ("head", []); ("tail", []); ("less", []); ("more", []); ("jq", []);
   ("yq", []); ("sed", []); ("awk", [])].
Definition SAFE_GIT_SUBCOMMANDS : dict (list string) :=
  [("commit", ["-m"]); ("log", []); ("diff", []); ("show", []); ("status", []);
   ("blame", []); ("branch", []); ("describe", []); ("shortlog", [])].
Definition INLINE_CODE_FLAGS : dict (list string) :=
  [("bash", ["-c"]); ("sh", ["-c"]); ("python", ["-c"]); ("python3", ["-c"]);
   ("node", ["-e"; "-p"]); ("ruby", ["-e"]); ("perl", ["-e"])].
Definition SAFE_COMMANDS : list string :=
  List.filter (fun k => negb (String.eqb k "git")) (keys SAFE_WRAPPER_FLAGS).

(** ** The tokenizer *)
Definition token : Type := string * nat * SpanKind.
Definition tok_text (t : token) : string := fst (fst t).
Definition tok_start (t : token) : nat := snd (fst t).
Definition tok_kind (t : token) : SpanKind := snd t.
Definition tok_end (t : token) : nat := (tok_start t + slen (tok_text t))%nat.

Definition blank : string := String " " (String tab (sc newline)).       (* " \t\n" *)

(** The position after the run of characters satisfying [p] that starts at [i] *)
Definition skip_while (p : ascii -> bool) (s : string) (i : nat) : nat :=
  (i + span_len p (drop i s))%nat.

(** [while i < n and s[i] != q: if s[i] == '\\': i += 1; i += 1], on the text from [i] *)
Fixpoint skip_escaped (q : ascii) (s : string) (i : nat) : nat :=
  match s with
  | "" => i
  | String c r =>
      if Ascii.eqb c q then i
      else if Ascii.eqb c bslash then
        match r with "" => S (S i) | String _ r2 => skip_escaped q r2 (S (S i)) end
      else skip_escaped q r (S i)
  end.

(** [if i < n: i += 1] *)
Definition past (s : string) (i : nat) : nat := if (i <? slen s)%nat then S i else i.

(** What one turn of the loop does: emit tokens and go on at a position, or stop. *)
Inductive tstep : Type :=
| TNext (emit : list token) (i : nat)
| TBreak (emit : list token).

(** The lines of a heredoc body, from the line that starts at [i], up to the one that starts
    with the delimiter *)
Fixpoint heredoc_lines (fuel : nat) (s delim : string) (strip_tabs : bool) (body_start i : nat)
    : list token * nat :=
  match fuel with
  | O => ([], i)
  | S f =>
      if (i <? slen s)%nat then
        let line_end := skip_while (fun c => negb (Ascii.eqb c newline)) s i in
        let check_pos := if strip_tabs && at_is s i tab then S i else i in
        if startswith delim (drop check_pos s) && (check_pos <? slen s)%nat then
          ((if (body_start <? i)%nat then [(slice s body_start i, body_start, HEREDOC_BODY)] else [])
             ++ [(slice s i line_end, i, UNKNOWN)],
           past s line_end)
        else heredoc_lines f s delim strip_tabs body_start (past s line_end)
      else ([], i)
  end.

Definition heredoc_step (s : string) (start : nat) : tstep :=
  let i := (start + 2)%nat in
  let strip_tabs := at_is s i "-" in
  let i := if strip_tabs then S i else i in
  let i := skip_while (fun c => char_in c (String " " (sc tab))) s i in
  let quoted := at_in s i (String sq (sc dq)) in
  let quote_char := default sq (char_at s i) in
  let i := if quoted then S i else i in
  let delim_start := i in
  let stop := if quoted then sc quote_char
              else blank +s+ ";|&" in
  let i := skip_while (fun c => negb (char_in c stop)) s i in
  let delim := slice s delim_start i in
  let i := if quoted && at_is s i quote_char then S i else i in
  let head := (slice s start i, start, UNKNOWN) in
  if String.eqb delim "" || (slen s <=? i)%nat then TNext [head] i
  else if String.eqb delim "<"
          && String.eqb (slice s (delim_start - 1) (delim_start + 1)) "<<" then
    TBreak [head; (drop i s, i, DATA)]
  else
    let '(toks, i') := heredoc_lines (slen s) s delim strip_tabs i i in
    TNext (head :: toks) i'.

Definition word_stop : string := blank +s+ String sq (String dq "`#<|;&").

Definition tokenize_step (s : string) (i : nat) : tstep :=
  match char_at s i with
  | None => TBreak []
  | Some ch =>
      if char_in ch blank then TNext [] (S i)
      else if Ascii.eqb ch "#" && ((i =? 0)%nat || at_in s (i - 1) blank) then
        TBreak [(drop i s, i, COMMENT)]
      else if Ascii.eqb ch sq then
        let j := past s (skip_while (fun c => negb (Ascii.eqb c sq)) s (S i)) in
        TNext [(slice s i j, i, DATA)] j
      else if Ascii.eqb ch dq then
        let j := past s (skip_escaped dq (drop (S i) s) (S i)) in
        TNext [(slice s i j, i, ARGUMENT)] j
      else if Ascii.eqb ch "`" then
        let j := past s (skip_escaped "`" (drop (S i) s) (S i)) in
        TNext [(slice s i j, i, EXECUTED)] j
      else if Ascii.eqb ch "<" && at_is s (S i) "<" then heredoc_step s i
      else
        let j := skip_while (fun c => negb (char_in c word_stop)) s i in
        if (i <? j)%nat then TNext [(slice s i j, i, PENDING)] j
        else TNext [(sc ch, i, PENDING)] (S i)
  end.

Fixpoint tokenize_from (fuel : nat) (s : string) (i : nat) : list token :=
  match fuel with
  | O => []
  | S f =>
      if (i <? slen s)%nat then
        match tokenize_step s i with
        | TNext emit j => emit ++ tokenize_from f s j
        | TBreak emit => emit
        end
      else []
  end.

(** [_tokenize(command)]: every turn of the loop moves forward, so [len(command)] turns are
    enough ([tokenize_fuel]). *)
Definition tokenize (s : string) : list token := tokenize_from (slen s) s 0.

(** ** The classifier *)
Record cstate : Type := mkCState {
  c_cmd : option string; c_subcmd : option string; c_pending_flags : list string;
  c_safe : option (list string); c_inline : list string; c_pending_inline : bool }.

Definition cstate0 : cstate := mkCState None None [] (Some []) [] false.

(** [text.lstrip(" \t\n").split()[0] if text.strip() else ""] *)
Definition first_word (text : string) : string :=
  if String.eqb (strip text) "" then ""
  else match split_ws (lstrip_by (fun c => char_in c blank) text) with
       | w :: _ => w
       | [] => ""
       end.

Definition SHELL_SEPARATORS : list string := ["|"; ";"; "&"; "&&"; "||"; "|&"].

(** One token: its kind and the next state *)
Definition classify_step (st : cstate) (t : token) : SpanKind * cstate :=
  if c_pending_inline st then
    (INLINE_CODE, mkCState (c_cmd st) (c_subcmd st) (c_pending_flags st) (c_safe st) (c_inline st) false)
  else if negb (bool_decide (tok_kind t = PENDING)) then (tok_kind t, st)
  else
    let word := first_word (tok_text t) in
    if mem word SHELL_SEPARATORS then (EXECUTED, mkCState None None [] None [] false)
    else
      match c_cmd st with
      | None =>
          let safe := if String.eqb word "git" then None
                      else if mem word SAFE_COMMANDS then dict_get word SAFE_WRAPPER_FLAGS
                      else None in
          (EXECUTED, mkCState (Some word) None (c_pending_flags st) safe
                       (default [] (dict_get word INLINE_CODE_FLAGS)) false)
      | Some cmd =>
          if String.eqb cmd "git" && bool_decide (c_subcmd st = None)
             && dict_in word SAFE_GIT_SUBCOMMANDS then
            (UNKNOWN, mkCState (c_cmd st) (Some word) (c_pending_flags st)
                        (Some (default [] (dict_get word SAFE_GIT_SUBCOMMANDS)))
                        (c_inline st) false)
          else match c_pending_flags st with
          | _ :: _ =>
              (ARGUMENT, mkCState (c_cmd st) (c_subcmd st) (removelast (c_pending_flags st))
                           (c_safe st) (c_inline st) false)
          | [] =>
              if startswith "-" word && negb (startswith "--" word) then
                let flag := rstrip (take 2 word) in
                if mem flag (c_inline st) then
                  (EXECUTED, mkCState (c_cmd st) (c_subcmd st) [] (c_safe st) [] true)
                else
                  match c_safe st with
                  | Some fl =>
                      if mem flag fl then
                        (EXECUTED, mkCState (c_cmd st) (c_subcmd st) [flag] (c_safe st)
                                     (c_inline st) false)
                      else (EXECUTED, st)
                  | None => (EXECUTED, st)
                  end
              else
                match c_safe st with
                | Some _ => (if String.eqb word "--" then EXECUTED else ARGUMENT, st)
                | None => (EXECUTED, st)
                end
          end
      end.

Fixpoint classify_from (st : cstate) (ts : list token) : list Span :=
  match ts with
  | [] => []
  | t :: r =>
      let '(k, st') := classify_step st t in
      mkSpan k (tok_text t) (tok_start t) :: classify_from st' r
  end.

(** [merged] is kept with its last span apart, as the code updates [merged[-1]]. *)
Fixpoint merge_from (last : Span) (l : list Span) : list Span :=
  match l with
  | [] => [last]
  | s :: r =>
      if bool_decide (sp_kind s = sp_kind last) && (sp_start s =? sp_end last)%nat
      then merge_from (mkSpan (sp_kind last) (sp_text last +s+ sp_text s) (sp_start last)) r
      else last :: merge_from s r
  end.
Definition merge_spans (l : list Span) : list Span :=
  match l with [] => [] | s :: r => merge_from s r end.

Definition classify_tokens (ts : list token) : list Span := merge_spans (classify_from cstate0 ts).
Definition classify_command (s : string) : list Span := classify_tokens (tokenize s).

(** [check_context_filter(command)] *)
Definition check_context_filter (s : string) : bool :=
  existsb (fun sp => should_check (sp_kind sp)) (classify_command s).

(** ** Facts: the spans of a command are consecutive pieces of it *)

(** The tokens are slices of [s], in order, from position [lo] on. *)
Fixpoint ordered (s : string) (lo : nat) (ts : list (string * nat)) : Prop :=
  match ts with
  | [] => True
  | (txt, st) :: r =>
      (lo <= st)%nat /\ txt = slice s st (st + slen txt) /\ (st + slen txt <= slen s)%nat /\
      ordered s (st + slen txt) r
  end.
(** Where the last of them ends ([lo] when there is none) *)
Fixpoint last_end (lo : nat) (ts : list (string * nat)) : nat :=
  match ts with [] => lo | (txt, st) :: r => last_end (st + slen txt) r end.

Lemma ordered_mono s lo lo' ts : (lo' <= lo)%nat -> ordered s lo ts -> ordered s lo' ts.
Proof. destruct ts as [|[txt st] r]; simpl; [done |]. intros ? (? & ? & ? & ?). auto with lia. Qed.
Lemma ordered_app s lo a b :
  ordered s lo (a ++ b) <-> ordered s lo a /\ ordered s (last_end lo a) b.
Proof.
  revert lo. induction a as [|[txt st] r IH]; intros lo; simpl; [tauto |]. rewrite IH. tauto.
Qed.
Lemma ordered_slice s lo i j : (lo <= i <= slen s)%nat -> (i <= j)%nat ->
  ordered s lo [(slice s i j, i)] /\ (last_end lo [(slice s i j, i)] <= j)%nat.
Proof.
  intros Hi Hj. destruct (slice_exact s i j) as [E L]; [lia |]. simpl.
  rewrite E. rewrite slen_slice in *. repeat split; lia.
Qed.

Definition places (ts : list token) : list (string * nat) := map fst ts.

(** A turn of the loop from [i]: the tokens lie from [i] up to where it goes on. *)
Definition step_ok (s : string) (i : nat) (st : tstep) : Prop :=
  match st with
  | TNext e j => (i < j)%nat /\ ordered s i (places e) /\ (last_end i (places e) <= j)%nat
  | TBreak e => ordered s i (places e)
  end.

Lemma step_ok_slice s i j k : (i < slen s)%nat -> (i < j)%nat ->
  step_ok s i (TNext [(slice s i j, i, k)] j).
Proof. intros. simpl. destruct (ordered_slice s i i j); [lia..|]. auto. Qed.

Lemma skip_while_ge p s i : (i <= skip_while p s i)%nat.
Proof. unfold skip_while. lia. Qed.
Lemma skip_while_le p s i : (i <= slen s)%nat -> (skip_while p s i <= slen s)%nat.
Proof. intros. unfold skip_while. pose proof (span_len_le p (drop i s)). rewrite slen_drop in *. lia. Qed.
Lemma past_ge s i : (i <= past s i)%nat.
Proof. unfold past. case_match; lia. Qed.
Lemma past_le s i : (i <= slen s)%nat -> (past s i <= slen s)%nat.
Proof. intros. unfold past. destruct (Nat.ltb_spec i (slen s)); lia. Qed.
Lemma skip_escaped_ge_aux n q s i : (slen s <= n)%nat -> (i <= skip_escaped q s i)%nat.
Proof.
  unfold slen. revert s i. induction n as [|n IH]; intros [|c r] i; simpl; intros H; try lia.
  destruct (Ascii.eqb c q); [lia |]. destruct (Ascii.eqb c bslash).
  - destruct r as [|d r2]; [lia |]. specialize (IH r2 (S (S i))). simpl in *. lia.
  - specialize (IH r (S i)). simpl in *. lia.
Qed.
Lemma skip_escaped_ge q s i : (i <= skip_escaped q s i)%nat.
Proof. by eapply skip_escaped_ge_aux. Qed.
#[local] Hint Resolve skip_while_ge skip_while_le past_ge past_le skip_escaped_ge : gw.

(** The body of a heredoc starts where its first line starts. *)
Lemma heredoc_lines_ok fuel s delim tabs b i toks j :
  (b <= i <= slen s)%nat -> heredoc_lines fuel s delim tabs b i = (toks, j) ->
  (i <= j)%nat /\ ordered s b (places toks) /\ (last_end b (places toks) <= j)%nat.
Proof.
  revert i. induction fuel as [|f IH]; simpl; intros i Hi H; [injection H as <- <-; simpl; lia |].
  destruct (Nat.ltb_spec i (slen s)) as [Hlt | Hge]; [| injection H as <- <-; simpl; lia].
  set (e := skip_while _ s i) in *.
  assert (He : (i <= e <= slen s)%nat) by (unfold e; auto with gw lia).
  assert (Hp : (e <= past s e <= slen s)%nat) by (split; [apply past_ge | apply past_le; lia]).
  destruct (startswith _ _ && _); [| apply IH in H as (? & ? & ?); [split; [lia | auto] | lia]].
  injection H as <- <-. split; [lia |].
  destruct (ordered_slice s i i e) as [O1 L1]; [lia..|].
  destruct (ordered_slice s b b i) as [O2 L2]; [lia..|].
  destruct (Nat.ltb_spec b i); unfold places; rewrite ?map_app.
  - change (map fst [(slice s b i, b, HEREDOC_BODY)]) with [(slice s b i, b)].
    change (map fst [(slice s i e, i, UNKNOWN)]) with [(slice s i e, i)].
    split; [apply ordered_app; split; [done |]; eapply ordered_mono; [| done]; lia |].
    simpl in *. lia.
  - assert (b = i) as -> by lia. simpl in *. split; [tauto | lia].
Qed.

Lemma heredoc_step_ok s i : (i < slen s)%nat -> char_at s i <> None -> at_is s (S i) "<" = true ->
  step_ok s i (heredoc_step s i).
Proof.
  intros Hi _ H2. assert (Hi2 : (i + 2 <= slen s)%nat).
  { unfold at_is in H2. destruct (char_at s (S i)) eqn:E; [| done].
    apply char_at_slice in E as [_ ?]. lia. }
  unfold heredoc_step.
  assert (Hstep : forall p k, (k <= slen s)%nat ->
            (k <= (if at_is s k p then S k else k) <= slen s)%nat).
  { intros p k Hk. unfold at_is. destruct (char_at s k) eqn:E; [| lia].
    apply char_at_slice in E as [_ ?]. case_match; lia. }
  pose proof (Hstep "-"%char (i + 2)%nat Hi2) as Ha.
  set (a := if at_is s (i + 2) "-" then _ else _) in *.
  set (b := skip_while _ s a).
  assert (Hb : (a <= b <= slen s)%nat) by (split; [apply skip_while_ge | apply skip_while_le; lia]).
  set (quoted := at_in s b _). set (qc := default sq (char_at s b)).
  assert (Hc : (b <= (if quoted then S b else b) <= slen s)%nat).
  { unfold quoted, at_in. destruct (char_at s b) eqn:E; [| lia].
    apply char_at_slice in E as [_ ?]. case_match; lia. }
  set (c := if quoted then S b else b) in *.
  set (d := skip_while _ s c).
  assert (Hd : (c <= d <= slen s)%nat) by (split; [apply skip_while_ge | apply skip_while_le; lia]).
  assert (He : (d <= (if quoted && at_is s d qc then S d else d) <= slen s)%nat).
  { destruct quoted; simpl; [apply Hstep; lia | lia]. }
  set (e := if quoted && at_is s d qc then S d else d) in *. clearbody e.
  destruct (ordered_slice s i i e) as [Oh Lh]; [lia..|].
  destruct (_ || _); [simpl in *; split; [lia | tauto] |].
  destruct (_ && _).
  - destruct (ordered_slice s e e (slen s)) as [Ot _]; [lia..|].
    rewrite slice_to_end in Ot. cbn [step_ok places map fst ordered last_end] in Oh, Lh, Ot |- *.
    repeat split; try tauto; lia.
  - destruct (heredoc_lines _ _ _ _ _ _) as [toks j] eqn:El.
    apply heredoc_lines_ok in El as (Hj & Ho & Hl); [| lia].
    simpl in Oh, Lh |- *. split; [lia |].
    split; [split_and!; try tauto; eapply ordered_mono; [| exact Ho]; lia |].
    destruct toks as [|[[t1 t2] t3] r]; simpl in *; lia.
Qed.

Lemma tokenize_step_ok s i : (i < slen s)%nat -> step_ok s i (tokenize_step s i).
Proof.
  intros Hi. unfold tokenize_step. destruct (char_at s i) as [ch|] eqn:Ec; [| done].
  destruct (char_in ch blank); [simpl; lia |].
  destruct (_ && _).
  { rewrite <- slice_to_end. apply (ordered_slice s i i (slen s)); lia. }
  destruct (Ascii.eqb ch sq).
  { apply step_ok_slice; [done |]. set (k := skip_while _ s (S i)).
    assert (S i <= k)%nat by apply skip_while_ge. pose proof (past_ge s k). lia. }
  destruct (Ascii.eqb ch dq).
  { apply step_ok_slice; [done |]. set (k := skip_escaped _ _ (S i)).
    assert (S i <= k)%nat by apply skip_escaped_ge. pose proof (past_ge s k). lia. }
  destruct (Ascii.eqb ch "`").
  { apply step_ok_slice; [done |]. set (k := skip_escaped _ _ (S i)).
    assert (S i <= k)%nat by apply skip_escaped_ge. pose proof (past_ge s k). lia. }
  destruct (_ && _) eqn:Eh.
  { bprop. apply heredoc_step_ok; [done | congruence | done]. }
  destruct (Nat.ltb_spec i (skip_while (fun c => negb (char_in c word_stop)) s i)).
  { by apply step_ok_slice. }
  destruct (char_at_slice s i ch Ec) as [-> _]. apply step_ok_slice; lia.
Qed.

Lemma tokenize_from_ordered fuel s i : ordered s i (places (tokenize_from fuel s i)).
Proof.
  revert i. induction fuel as [|f IH]; intros i; simpl; [done |].
  destruct (Nat.ltb_spec i (slen s)) as [Hi | _]; [| done].
  pose proof (tokenize_step_ok s i Hi) as H.
  destruct (tokenize_step s i) as [e j | e]; simpl in H; [| done].
  destruct H as (Hij & Ho & Hl). unfold places. rewrite map_app. apply ordered_app. split; [done |].
  eapply ordered_mono; [exact Hl | apply IH].
Qed.

(** Any fuel from [len(command)] on gives the same tokens: the loop has ended. *)
Lemma tokenize_from_fuel s f1 f2 i : (slen s - i <= f1)%nat -> (slen s - i <= f2)%nat ->
  tokenize_from f1 s i = tokenize_from f2 s i.
Proof.
  revert f2 i. induction f1 as [|f1 IH]; intros [|f2] i H1 H2; simpl; [done | ..].
  - destruct (Nat.ltb_spec i (slen s)); [lia | done].
  - destruct (Nat.ltb_spec i (slen s)); [lia | done].
  - destruct (Nat.ltb_spec i (slen s)) as [Hi | _]; [| done].
    pose proof (tokenize_step_ok s i Hi) as H.
    destruct (tokenize_step s i) as [e j | e]; [| done]. f_equal.
    destruct H as [Hij _]. apply IH; lia.
Qed.

Definition span_places (l : list Span) : list (string * nat) :=
  map (fun sp => (sp_text sp, sp_start sp)) l.

Lemma classify_from_places st ts : span_places (classify_from st ts) = places ts.
Proof.
  revert st. induction ts as [|[[txt i] k] r IH]; intros st; simpl; [done |].
  destruct (classify_step st (txt, i, k)) as [k' st']. simpl. by rewrite IH.
Qed.

Lemma merge_from_ordered s lo last l :
  ordered s lo (span_places (last :: l)) -> ordered s lo (span_places (merge_from last l)).
Proof.
  revert lo last. induction l as [|sp r IH]; intros lo last H; simpl; [done |].
  destruct (_ && _) eqn:E.
  - apply IH. bprop. apply Nat.eqb_eq in B0. unfold sp_end in B0. simpl in *.
    destruct H as (H1 & H2 & H3 & H4 & H5 & H6 & H7). rewrite slen_app.
    split_and!; [done | | lia |].
    + transitivity (slice s (sp_start last) (sp_start sp)
                      +s+ slice s (sp_start sp) (sp_start sp + slen (sp_text sp))).
      * rewrite <- H5. f_equal. by rewrite B0.
      * rewrite slice_glue by lia. f_equal. lia.
    + eapply ordered_mono; [| exact H7]. lia.
  - simpl in *. destruct H as (H1 & H2 & H3 & H4). split_and!; try done. by apply IH.
Qed.

Lemma classify_step_kind st t : fst (classify_step st t) <> PENDING.
Proof.
  unfold classify_step. cbv zeta. destruct (c_pending_inline st); [done |].
  destruct (bool_decide (tok_kind t = PENDING)) eqn:E; cbn [negb fst];
    [| by apply bool_decide_eq_false in E].
  destruct (mem (first_word (tok_text t)) SHELL_SEPARATORS); [done |].
  destruct (c_cmd st) as [cmd|]; [| done]. destruct (_ && _); [done |].
  destruct (c_pending_flags st); [| done].
  destruct (_ && _).
  - destruct (mem (rstrip (take 2 (first_word (tok_text t)))) (c_inline st)); [done |].
    destruct (c_safe st); [by case_match | done].
  - destruct (c_safe st); [by case_match | done].
Qed.
Lemma classify_from_kinds st ts : Forall (fun sp => sp_kind sp <> PENDING) (classify_from st ts).
Proof.
  revert st. induction ts as [|t r IH]; intros st; simpl; [constructor |].
  pose proof (classify_step_kind st t). destruct (classify_step st t). by constructor.
Qed.
Lemma merge_from_kinds last l : sp_kind last <> PENDING ->
  Forall (fun sp => sp_kind sp <> PENDING) l ->
  Forall (fun sp => sp_kind sp <> PENDING) (merge_from last l).
Proof.
  intros H1 H2. revert last H1. induction H2 as [|sp r Hsp _ IH]; intros last H1; simpl.
  - by constructor.
  - case_match; [by apply IH |]. constructor; [done | by apply IH].
Qed.
