(* ===== verification/Confidence.v ===== *)
(** * Span-aware match confidence (app/confidence.py)

    Python floats are the kernel's IEEE 754 binary64 numbers. *)
From Stdlib Require Import Floats Uint63.
From S2P Require Import Prelude PyStr Context.
From stdpp Require Import options.

Inductive ConfidenceSignal : Type :=
| EXECUTED_SPAN | INLINE_CODE_SPAN | DATA_SPAN | ARGUMENT_SPAN | COMMENT_SPAN
| HEREDOC_BODY_SPAN | UNKNOWN_SPAN | SANITIZED_REGION | EXECUTION_OPERATORS_NEARBY
| COMMAND_POSITION | ARGUMENT_POSITION.
#[export] Instance signal_eq_dec : EqDecision ConfidenceSignal.
Proof. solve_decision. Defined.

#[local] Set Warnings "-inexact-float".
(** [_SIGNAL_WEIGHTS] with [signal_weight] *)
Definition signal_weight (s : ConfidenceSignal) : float :=
  (match s with
   | EXECUTED_SPAN | INLINE_CODE_SPAN => 1.0
   | COMMAND_POSITION | EXECUTION_OPERATORS_NEARBY => 1.1
   | DATA_SPAN => 0.1
   | COMMENT_SPAN => 0.05
   | ARGUMENT_SPAN => 0.3
   | SANITIZED_REGION => 0.2
   | ARGUMENT_POSITION => 0.6
   | HEREDOC_BODY_SPAN => 0.7
   | UNKNOWN_SPAN => 0.8
   end)%float.

(** [_SIGNAL_DESCRIPTIONS] with [signal_description] *)
Definition signal_description (s : ConfidenceSignal) : string :=
  match s with
  | EXECUTED_SPAN => "match is in executed code"
  | INLINE_CODE_SPAN => "match is in inline code (bash -c, python -c, etc.)"
  | DATA_SPAN => "match is in a data string (single-quoted)"
  | ARGUMENT_SPAN => "match is in a string argument to a safe command"
  | COMMENT_SPAN => "match is in a comment"
  | HEREDOC_BODY_SPAN => "match is in a heredoc body"
  | UNKNOWN_SPAN => "match context is ambiguous"
  | SANITIZED_REGION => "match was in a region masked by sanitization"
  | EXECUTION_OPERATORS_NEARBY => "execution operators (|, ;, &&) found nearby"
  | COMMAND_POSITION => "match is at command position"
  | ARGUMENT_POSITION => "match is in argument position"
  end.

(** The [match s.kind] statement *)
Definition signal_of_kind (k : SpanKind) : ConfidenceSignal :=
  match k with
  | EXECUTED => EXECUTED_SPAN
  | INLINE_CODE => INLINE_CODE_SPAN
  | DATA => DATA_SPAN
  | ARGUMENT => ARGUMENT_SPAN
  | COMMENT => COMMENT_SPAN
  | HEREDOC_BODY => HEREDOC_BODY_SPAN
  | _ => UNKNOWN_SPAN
  end.

(** [float(n)], and [a / b] on integers *)
Definition float_of_nat (n : nat) : float := PrimFloat.of_uint63 (Uint63.of_Z (Z.of_nat n)).
Definition int_div (a b : nat) : float := (float_of_nat a / float_of_nat b)%float.

(** [max(a, b)] and [min(a, b)] return their first argument unless the second beats it. *)
Definition py_max (a b : float) : float := if (a <? b)%float then b else a.
Definition py_min (a b : float) : float := if (b <? a)%float then b else a.

Definition span_covers (ms me : nat) (s : Span) : bool :=
  (sp_start s <=? ms)%nat && (me <=? sp_end s)%nat.

(** The second loop: the span with the largest overlap *)
Fixpoint best_overlap (ms me : nat) (best : float) (sig : ConfidenceSignal) (l : list Span)
    : ConfidenceSignal :=
  match l with
  | [] => sig
  | s :: r =>
      let os := Nat.max (sp_start s) ms in
      let oe := Nat.min (sp_end s) me in
      if (os <? oe)%nat then
        let overlap := int_div (oe - os) (me - ms) in
        if (best <? overlap)%float then best_overlap ms me overlap (signal_of_kind (sp_kind s)) r
        else best_overlap ms me best sig r
      else best_overlap ms me best sig r
  end.

Definition classify_match_span (command : string) (ms me : nat) : ConfidenceSignal :=
  let spans := classify_command command in
  match spans with
  | [] => UNKNOWN_SPAN
  | _ =>
      match List.find (span_covers ms me) spans with
      | Some s => signal_of_kind (sp_kind s)
      | None => best_overlap ms me 0%float UNKNOWN_SPAN spans
      end
  end.

Definition OPERATORS : list string := ["|"; ";"; "&&"; "||"; "$("; "`"].

(** [has_execution_operators_nearby(command, match_start, match_end, window)] *)
Definition has_execution_operators_nearby (command : string) (ms me window : nat) : bool :=
  let prefix := slice command (ms - window) ms in
  let suffix := slice command me (Nat.min (slen command) (me + window)) in
  existsb (fun op => contains op prefix || contains op suffix) OPERATORS.

Definition is_command_position (command : string) (ms : nat) : bool :=
  if (ms =? 0)%nat then true
  else
    let trimmed := rstrip (take ms command) in
    match srev trimmed with
    | "" => true
    | String last _ =>
        char_in last "|;(`" || endswith "&&" trimmed || endswith "||" trimmed
        || endswith "$(" trimmed
    end.

Definition compute_span_confidence (command : string) (ms me : nat)
    : float * list ConfidenceSignal :=
  let signals :=
    [classify_match_span command ms me]
      ++ (if has_execution_operators_nearby command ms me 20
          then [EXECUTION_OPERATORS_NEARBY] else [])
      ++ [if is_command_position command ms then COMMAND_POSITION else ARGUMENT_POSITION] in
  let multiplier :=
    fold_left (fun m sig => (m * signal_weight sig)%float) signals 1.0%float in
  (py_max 0.05 multiplier, signals).

Definition compute_match_confidence (pattern_confidence : float) (command : string) (ms me : nat)
    : float * list ConfidenceSignal :=
  let '(multiplier, signals) := compute_span_confidence command ms me in
  let final := (pattern_confidence * multiplier)%float in
  (py_max 0 (py_min 1 final), signals).

(** ** Bounds *)
Lemma ltb_leb (x y : float) : (x <? y)%float = true -> (x <=? y)%float = true.
Proof.
  rewrite FloatAxioms.ltb_spec, FloatAxioms.leb_spec. unfold SFltb, SFleb. by destruct (SFcompare _ _) as [[]|].
Qed.

Lemma py_max_lower a b : (a <=? a)%float = true -> (a <=? py_max a b)%float = true.
Proof. unfold py_max. destruct (a <? b)%float eqn:E; [intros _; by apply ltb_leb | done]. Qed.

Lemma clamp_bounds x :
  (0 <=? py_max 0 (py_min 1 x))%float = true /\ (py_max 0 (py_min 1 x) <=? 1)%float = true.
Proof.
  split; [by apply py_max_lower |]. unfold py_max, py_min.
  destruct (x <? 1)%float eqn:E; [| by destruct (0 <? 1)%float].
  destruct (0 <? x)%float; [by apply ltb_leb | done].
Qed.
