(* ===== verification/Packs.v ===== *)
(** * Packs of destructive patterns and their registry (app/packs/__init__.py) *)
From Stdlib Require Import Floats.
From S2P Require Import Prelude PyStr Regex RegexParse RegexFacts PolicyTypes Confidence.
From stdpp Require Import options.

#[local] Set Warnings "-inexact-float".

(** ** Base confidence of a pattern *)
Definition compute_confidence (dp : DestructivePattern) : float :=
  let rlen := slen (dp_regex dp) in
  let conf := 0.5%float in
  let conf := if (100 <? rlen)%nat then (conf + 0.3)%float
              else if (50 <? rlen)%nat then (conf + 0.2)%float
              else if (30 <? rlen)%nat then (conf + 0.1)%float
              else conf in
  let conf := if mem (severity_value (dp_severity dp)) ["critical"] then (conf + 0.2)%float
              else if mem (severity_value (dp_severity dp)) ["high"] then (conf + 0.1)%float
              else conf in
  let conf := match dp_suggestions dp with [] => conf | _ => (conf + 0.1)%float end in
  py_min conf 0.95.

Definition span_adjusted_confidence (conf : float) (command : string) (ms me : nat) : float :=
  fst (compute_match_confidence conf command ms me).

(** ** Packs *)
Definition pack_flags : flags := mkflags true true.          (* re.IGNORECASE | re.DOTALL *)

Record Pack : Type := mkPack {
  pk_id : string; pk_name : string; pk_destructive_patterns : list DestructivePattern;
  pk_keywords : list string }.

(** [self._compiled]: the constructor compiles every pattern. *)
Definition compile_pattern (dp : DestructivePattern) : pattern * DestructivePattern :=
  (re_lit pack_flags (dp_regex dp), dp).
Definition pk_compiled (p : Pack) : list (pattern * DestructivePattern) :=
  map compile_pattern (pk_destructive_patterns p).

(** The constructor does not raise: every pattern compiles. *)
Definition pack_constructs (p : Pack) : bool :=
  forallb (fun dp => match compile pack_flags (dp_regex dp) with Some _ => true | None => false end)
    (pk_destructive_patterns p).

Definition any_keyword (keywords : list string) (command : string) : bool :=
  match keywords with
  | [] => true
  | _ => let cmd_lower := lower command in
         existsb (fun kw => contains (lower kw) cmd_lower) keywords
  end.

Definition matches_keywords (p : Pack) (command : string) : bool :=
  any_keyword (pk_keywords p) command.

(** One pattern of [Pack.check] *)
Definition check_pattern (command : string) (cp : pattern * DestructivePattern)
    : list DestructiveMatch :=
  let '(compiled, dp) := cp in
  match search compiled command with
  | None => []
  | Some m =>
      let base_conf := compute_confidence dp in
      let final_conf := span_adjusted_confidence base_conf command (mt_start m) (mt_end m) in
      [mkMatch (dp_name dp) (dp_reason dp) (dp_severity dp)
         (match dp_suggestions dp with s :: _ => Some (ps_command s) | [] => None end)
         (dp_suggestions dp) final_conf]
  end.

Definition check (p : Pack) (command : string) : list DestructiveMatch :=
  if matches_keywords p command then flat_map (check_pattern command) (pk_compiled p) else [].

(** ** The registry *)
Record PackRegistry : Type := mkRegistry {
  rg_packs : dict Pack; rg_all_keywords : list string }.

Definition empty_registry : PackRegistry := mkRegistry [] [].

(** [tuple(sorted(set))]: insertion without duplicates in code-point order *)
Fixpoint insert_sorted (x : string) (l : list string) : list string :=
  match l with
  | [] => [x]
  | y :: r =>
      if String.eqb x y then l
      else if String.ltb x y then x :: l else y :: insert_sorted x r
  end.
Definition sorted_set (l : list string) : list string := fold_right insert_sorted [] l.

Definition rebuild_keyword_index (packs : dict Pack) : PackRegistry :=
  mkRegistry packs (sorted_set (flat_map pk_keywords (values packs))).

Definition register (rg : PackRegistry) (p : Pack) : PackRegistry :=
  rebuild_keyword_index (dict_set (pk_id p) p (rg_packs rg)).

Definition registry_get (rg : PackRegistry) (pack_id : string) : option Pack :=
  dict_get pack_id (rg_packs rg).
Definition all_packs (rg : PackRegistry) : list Pack := values (rg_packs rg).

Definition passes_quick_reject (rg : PackRegistry) (command : string) : bool :=
  any_keyword (rg_all_keywords rg) command.

Definition evaluate (rg : PackRegistry) (command : string) : list DestructiveMatch :=
  if passes_quick_reject rg command
  then flat_map (fun p => check p command) (values (rg_packs rg)) else [].

Definition evaluate_pack (rg : PackRegistry) (pack_id command : string) : list DestructiveMatch :=
  match dict_get pack_id (rg_packs rg) with
  | None => []
  | Some p => check p command
  end.

Definition pack_count (rg : PackRegistry) : nat := length (rg_packs rg).
Definition pattern_count (rg : PackRegistry) : nat :=
  list_sum (map (fun p => length (pk_destructive_patterns p)) (values (rg_packs rg))).
Definition keyword_count (rg : PackRegistry) : nat := length (rg_all_keywords rg).
