(* ===== verification/PackSystem.v ===== *)
(** * Pattern packs for the host: system, filesystem, package manager and backup packs.

    One section of definitions per file of src/app/packs/. *)
From S2P Require Import Prelude PolicyTypes Packs.
From stdpp Require Import options.

(** ** The system pack (app/packs/system.py) *)

Definition SYSTEM_DISK_PATTERNS : list DestructivePattern := [
  mkPattern "dd-device"
      (("dd\s+.*of=['\" +s+ sc dq +s+ "]?/dev/"))
      "dd to a block device will OVERWRITE all data on that device."
      HIGH
      "Dangerous! dd to /dev/* block device overwrites data."
      [mkSuggestion "lsblk"
        "List block devices first" PREVIEW_FIRST;
       mkSuggestion "dd if={src} of={dst} bs=4M status=progress"
        "Use bs=4M and status=progress for safety" PREVIEW_FIRST];
  mkPattern "dd-wipe"
      (("dd\s+.*if=['\" +s+ sc dq +s+ "]?/dev/(?:zero|urandom|random).*of=['\" +s+ sc dq +s+ "]?/dev/"))
      "dd from /dev/zero or /dev/urandom to a device will WIPE all data!"
      HIGH
      "dd wipe from /dev/zero|urandom|random to block device."
      [mkSuggestion "lsblk -f"
        "Check existing filesystems first" PREVIEW_FIRST;
       mkSuggestion "wipefs -n /dev/{dev}"
        "Preview what would be wiped" PREVIEW_FIRST];
  mkPattern "fdisk-edit"
      (("fdisk\s+['\" +s+ sc dq +s+ "]?/dev/(?!.*-l)"))
      "fdisk can modify partition tables and cause data loss."
      HIGH
      "fdisk edits partition tables on /dev/*."
      [mkSuggestion "fdisk -l /dev/{dev}"
        "List partition table without editing" PREVIEW_FIRST;
       mkSuggestion "lsblk -o NAME,SIZE,TYPE,FSTYPE,MOUNTPOINT"
        "View partition layout safely" PREVIEW_FIRST];
  mkPattern "parted-modify"
      (("parted\b[^\n;&|]*?['\" +s+ sc dq +s+ "]?/dev/\S+['\" +s+ sc dq +s+ "]?(?:\s+--)?\s+(?:(?!\s*(?:align-check|help|h|print|p|quit|q|select|unit|u)\b)|[^\n;&|]*\b(?:print|p)\b\s+(?:(?:devices|free|list|all|\d+)\s+\S+|(?!devices\b|free\b|list\b|all\b|\d+\b)\S+)|[^\n;&|]*\b(?:disk_set|disk_toggle|mklabel|mktable|mkpart|name|rescue|resizepart|rm|set|toggle|type)\b)"))
      "parted can modify partition tables and cause data loss."
      HIGH
      "parted modifies partition tables."
      [mkSuggestion "parted /dev/{dev} print"
        "View current partition table" PREVIEW_FIRST;
       mkSuggestion "parted /dev/{dev} print free"
        "Show free space on device" PREVIEW_FIRST];
  mkPattern "mkfs"
      "mkfs(?:\.[a-z0-9]+)?\s+"
      "mkfs formats a partition/device and ERASES all existing data."
      HIGH
      "mkfs creates a filesystem, erasing existing data."
      [mkSuggestion "lsblk -f"
        "Check existing filesystem first" PREVIEW_FIRST;
       mkSuggestion "fsck -N /dev/{dev}"
        "Detect existing filesystem type" PREVIEW_FIRST];
  mkPattern "mkswap"
      "mkswap\s+"
      "mkswap formats a partition as swap, ERASING any existing data."
      HIGH
      "mkswap creates swap area, overwriting existing data."
      [mkSuggestion "swapon --show"
        "Show current swap devices" PREVIEW_FIRST;
       mkSuggestion "free -h"
        "Check memory and swap usage" PREVIEW_FIRST];
  mkPattern "wipefs"
      "wipefs\s+"
      "wipefs removes filesystem signatures."
      HIGH
      "wipefs erases filesystem signatures from a device."
      [mkSuggestion "wipefs -n /dev/{dev}"
        "Preview what signatures would be erased" PREVIEW_FIRST;
       mkSuggestion "blkid /dev/{dev}"
        "Show current filesystem signatures" PREVIEW_FIRST];
  mkPattern "mount-bind-root"
      (("mount\s+.*--bind\s+.*\s+['\" +s+ sc dq +s+ "]?/(?:$|[^a-z])"))
      "mount --bind to root directory can have system-wide effects."
      HIGH
      "Mount --bind to / may cause system issues."
      [mkSuggestion "mount --bind /source /specific/target"
        "Bind mount to a specific directory" SAFER_ALTERNATIVE;
       mkSuggestion "ln -s /source /target"
        "Use symlink as a non-destructive alternative" SAFER_ALTERNATIVE];
  mkPattern "umount-force"
      "umount\s+.*-[a-z]*f"
      "umount -f may cause data loss if device is in use."
      HIGH
      "Force unmount can cause data loss."
      [mkSuggestion "lsof {mnt}"
        "Find processes using the mount" PREVIEW_FIRST;
       mkSuggestion "fuser -v {mnt}"
        "Find processes using the mount point" PREVIEW_FIRST];
  mkPattern "losetup-device"
      (("losetup\s+['\" +s+ sc dq +s+ "]?/dev/loop"))
      "losetup modifies loop device associations."
      HIGH
      "losetup on /dev/loop changes device mapping."
      [mkSuggestion "losetup -a"
        "List all current loop devices" PREVIEW_FIRST;
       mkSuggestion "losetup -f --show {file}"
        "Let system choose a free loop device" SAFER_ALTERNATIVE];
  mkPattern "mdadm-stop"
      "mdadm\s+(?:.*\s+)?(?:--stop|-S)\b"
      "mdadm --stop shuts down a RAID array."
      HIGH
      "Stops a RAID array. Data may become inaccessible."
      [mkSuggestion "mdadm --detail /dev/md{0}"
        "Check array status before stopping" PREVIEW_FIRST;
       mkSuggestion "cat /proc/mdstat"
        "Check RAID status" PREVIEW_FIRST];
  mkPattern "mdadm-remove"
      "mdadm\s+(?:.*\s+)?--remove\b"
      "mdadm --remove removes a drive from a RAID array."
      HIGH
      "Removes device from RAID. Data loss if no redundancy."
      [mkSuggestion "mdadm --detail /dev/md{0}"
        "Check array health first" PREVIEW_FIRST;
       mkSuggestion "smartctl -a /dev/{sdc}"
        "Check device SMART status before removal" PREVIEW_FIRST];
  mkPattern "mdadm-fail"
      "mdadm\s+(?:.*\s+)?(?:--fail|-f)\b"
      "mdadm --fail marks a device as failed."
      HIGH
      "Marks RAID device as failed."
      [mkSuggestion "mdadm --detail /dev/md{0}"
        "Check array health first" PREVIEW_FIRST;
       mkSuggestion "smartctl -a /dev/{sdc}"
        "Check device SMART status first" PREVIEW_FIRST];
  mkPattern "mdadm-zero-superblock"
      "mdadm\s+(?:.*\s+)?--zero-superblock\b"
      "mdadm --zero-superblock erases RAID metadata."
      HIGH
      "Erases RAID superblock. Array cannot be reassembled."
      [mkSuggestion "mdadm --examine /dev/{sdc}"
        "Inspect superblock before erasing" PREVIEW_FIRST;
       mkSuggestion "mdadm --examine --brief /dev/{sdc}"
        "Dump superblock metadata" PREVIEW_FIRST];
  mkPattern "mdadm-create"
      "mdadm\s+(?:.*\s+)?(?:--create|-C)\b"
      "mdadm --create creates a RAID array, erasing data on member devices."
      HIGH
      "Creates new RAID, erasing existing data on members."
      [mkSuggestion "mdadm --detail --scan"
        "Save existing array config first" PREVIEW_FIRST;
       mkSuggestion "wipefs -n /dev/{sdc}"
        "Check if disks have existing filesystems" PREVIEW_FIRST];
  mkPattern "mdadm-grow"
      "mdadm\s+(?:.*\s+)?--grow\b"
      "mdadm --grow reshapes a RAID array. Interruption causes data loss."
      HIGH
      "Grows/reshapes RAID. Backup first."
      [mkSuggestion "mdadm --detail /dev/md{0}"
        "Check current array layout first" PREVIEW_FIRST;
       mkSuggestion "echo check > /sys/block/md{0}/md/sync_action"
        "Verify array health before growing" PREVIEW_FIRST];
  mkPattern "btrfs-subvolume-delete"
      "btrfs\b.*?\s+subvolume\s+delete\b"
      "btrfs subvolume delete REMOVES a subvolume and its data."
      HIGH
      "Deletes a btrfs subvolume permanently."
      [mkSuggestion "btrfs subvolume list {path}"
        "List subvolumes first" PREVIEW_FIRST;
       mkSuggestion "btrfs subvolume show {path}"
        "Show subvolume details" PREVIEW_FIRST];
  mkPattern "btrfs-device-remove"
      "btrfs\b.*?\s+device\s+(?:remove|delete)\b"
      "btrfs device remove redistributes data off a device."
      HIGH
      "Removes device from btrfs filesystem."
      [mkSuggestion "btrfs device usage {mnt}"
        "Check device allocation first" PREVIEW_FIRST;
       mkSuggestion "btrfs filesystem usage {mnt}"
        "Check space usage before removal" PREVIEW_FIRST];
  mkPattern "btrfs-device-add"
      "btrfs\b.*?\s+device\s+add\b"
      "btrfs device add incorporates a device. Verify correctness."
      HIGH
      "Adds device to btrfs filesystem. Verify target."
      [mkSuggestion "btrfs filesystem show {mnt}"
        "Check current device configuration" PREVIEW_FIRST;
       mkSuggestion "lsblk"
        "Verify new device is correct" SAFER_ALTERNATIVE];
  mkPattern "btrfs-balance"
      "btrfs\b.*?\s+balance\s+start\b"
      "btrfs balance redistributes data. Can be slow and disruptive."
      HIGH
      "Starts btrfs balance operation."
      [mkSuggestion "btrfs balance status {mnt}"
        "Check if a balance is already running" PREVIEW_FIRST;
       mkSuggestion "btrfs balance start -dusage=5 {mnt}"
        "Start with data usage filter for safety" SAFER_ALTERNATIVE];
  mkPattern "btrfs-check-repair"
      "btrfs\b.*?\s+check\s+(?:.*\s+)?--repair\b"
      "btrfs check --repair is DANGEROUS. Can cause data loss."
      HIGH
      "btrfs check --repair modifies filesystem. Backup first!"
      [mkSuggestion "btrfs check --readonly /dev/{dev}"
        "Run read-only check first" PREVIEW_FIRST;
       mkSuggestion "btrfs device stats {mnt}"
        "Check device errors first" PREVIEW_FIRST];
  mkPattern "btrfs-rescue"
      "btrfs\b.*?\s+rescue\b"
      "btrfs rescue modifies filesystem metadata. Last resort only."
      HIGH
      "btrfs rescue operations modify metadata."
      [mkSuggestion "btrfs rescue super-recover -y /dev/{dev}"
        "Attempt superblock recovery only" SAFER_ALTERNATIVE;
       mkSuggestion "btrfs restore -l /dev/{dev}"
        "List files without attempting recovery" PREVIEW_FIRST];
  mkPattern "btrfs-filesystem-resize"
      "btrfs\b.*?\s+filesystem\s+resize\b"
      "btrfs filesystem resize can shrink FS. Data loss if too small."
      HIGH
      "Resizes btrfs filesystem. Can cause data loss if shrinking."
      [mkSuggestion "btrfs filesystem usage {mnt}"
        "Check space usage before resizing" PREVIEW_FIRST;
       mkSuggestion "btrfs filesystem show {mnt}"
        "Check device sizes before resizing" PREVIEW_FIRST];
  mkPattern "dmsetup-remove"
      "dmsetup\b.*?\s+remove\b"
      "dmsetup remove detaches a device-mapper device."
      HIGH
      "Removes a device-mapper device."
      [mkSuggestion "dmsetup info {dev}"
        "Check device info first" PREVIEW_FIRST;
       mkSuggestion "dmsetup table {dev}"
        "Show current mapping table" PREVIEW_FIRST];
  mkPattern "dmsetup-remove-all"
      "dmsetup\b.*?\s+remove_all\b"
      "dmsetup remove_all REMOVES ALL device-mapper devices."
      HIGH
      "Removes ALL device-mapper devices. Extremely dangerous!"
      [mkSuggestion "dmsetup info"
        "List ALL device-mapper devices first" PREVIEW_FIRST;
       mkSuggestion "dmsetup table"
        "Show all mappings before bulk removal" PREVIEW_FIRST];
  mkPattern "dmsetup-wipe-table"
      "dmsetup\b.*?\s+wipe_table\b"
      "dmsetup wipe_table replaces table with error target."
      HIGH
      "Wipes device-mapper table. All I/O will fail."
      [mkSuggestion "dmsetup table {dev}"
        "Save current table first" PREVIEW_FIRST;
       mkSuggestion "dmsetup info {dev}"
        "Check device status before wiping" PREVIEW_FIRST];
  mkPattern "dmsetup-clear"
      "dmsetup\b.*?\s+clear\b"
      "dmsetup clear removes the mapping table from a device."
      HIGH
      "Clears device-mapper mapping table."
      [mkSuggestion "dmsetup table {dev}"
        "Backup current mapping first" PREVIEW_FIRST;
       mkSuggestion "dmsetup info {dev}"
        "Check device status before clearing" PREVIEW_FIRST];
  mkPattern "dmsetup-load"
      "dmsetup\b.*?\s+load\b"
      "dmsetup load changes device mapping."
      HIGH
      "Loads new device-mapper table. Verify correctness."
      [mkSuggestion "dmsetup table {dev}"
        "Backup current table first" PREVIEW_FIRST;
       mkSuggestion "dmsetup info {dev}"
        "Check device info before changing" PREVIEW_FIRST];
  mkPattern "dmsetup-create"
      "dmsetup\b.*?\s+create\b"
      "dmsetup create sets up a new device-mapper device."
      HIGH
      "Creates a device-mapper device. Verify parameters."
      [mkSuggestion "dmsetup info"
        "List existing devices first" PREVIEW_FIRST;
       mkSuggestion "losetup -a"
        "Check loop devices if used by DM" PREVIEW_FIRST];
  mkPattern "nbd-client-disconnect"
      "nbd-client\s+(?:.*\s+)?-d\b"
      "nbd-client -d disconnects a network block device."
      HIGH
      "Disconnects NBD device. Data loss if not unmounted."
      [mkSuggestion "lsblk /dev/nbd{0}"
        "Check if NBD device is mounted" PREVIEW_FIRST;
       mkSuggestion "mount | grep nbd"
        "Check active mounts on NBD device" PREVIEW_FIRST];
  mkPattern "nbd-client-connect"
      (("nbd-client\s+\S+\s+\d+\s+['\" +s+ sc dq +s+ "]?/dev/nbd"))
      "nbd-client connects a network block device."
      HIGH
      "Connects NBD device. Verify server and device target."
      [mkSuggestion "nbd-client -l {server}"
        "List exports available on server" PREVIEW_FIRST;
       mkSuggestion "lsblk"
        "Check local block devices before connecting" PREVIEW_FIRST];
  mkPattern "pvremove"
      "\bpvremove\b"
      "pvremove ERASES LVM metadata from a physical volume."
      HIGH
      "Removes LVM PV. Data becomes inaccessible."
      [mkSuggestion "pvs"
        "List all PVs before removal" PREVIEW_FIRST;
       mkSuggestion "pvdisplay /dev/{sdc}"
        "Check PV details before removing" PREVIEW_FIRST];
  mkPattern "vgremove"
      "\bvgremove\b"
      "vgremove DELETES a volume group and all LVs within it."
      HIGH
      "Removes LVM VG and all logical volumes."
      [mkSuggestion "vgs"
        "List all VGs before removal" PREVIEW_FIRST;
       mkSuggestion "lvdisplay {vg}"
        "Check LVs in VG before removal" PREVIEW_FIRST];
  mkPattern "lvremove"
      "\blvremove\b"
      "lvremove PERMANENTLY deletes a logical volume and its data."
      HIGH
      "Deletes LVM LV and ALL data on it."
      [mkSuggestion "lvs"
        "List all LVs before removal" PREVIEW_FIRST;
       mkSuggestion "lvdisplay {vg}/{lv}"
        "Check LV details before removing" PREVIEW_FIRST];
  mkPattern "vgreduce"
      "\bvgreduce\b"
      "vgreduce removes a PV from a VG. Data may be lost."
      HIGH
      "Reduces VG by removing a PV."
      [mkSuggestion "vgdisplay {vg}"
        "Check VG details first" PREVIEW_FIRST;
       mkSuggestion "pvs -o+vg_name"
        "Verify PV belongs to correct VG" SAFER_ALTERNATIVE];
  mkPattern "lvreduce"
      "\blvreduce\b"
      "lvreduce SHRINKS a logical volume. Data loss possible!"
      HIGH
      "Shrinks LV. Data loss if FS not resized first!"
      [mkSuggestion "lvdisplay {vg}/{lv}"
        "Check current LV size" PREVIEW_FIRST;
       mkSuggestion "df -h /dev/{vg}/{lv}"
        "Check FS usage before shrinking" PREVIEW_FIRST];
  mkPattern "lvresize-shrink"
      "lvresize\s+(?:.*\s+)?(?:-L\s*-|-l\s*-|--size\s+\S*-)"
      "lvresize with negative size SHRINKS the volume."
      HIGH
      "Shrinks LV via negative size. Resize FS first!"
      [mkSuggestion "lvdisplay {vg}/{lv}"
        "Check current LV size" PREVIEW_FIRST;
       mkSuggestion "df -h /dev/{vg}/{lv}"
        "Verify FS usage before shrinking" PREVIEW_FIRST];
  mkPattern "pvmove"
      "\bpvmove\b"
      "pvmove migrates data between PVs. Do NOT interrupt!"
      HIGH
      "Moves data between physical volumes. Interruption causes loss."
      [mkSuggestion "pvs"
        "Check PV allocation first" PREVIEW_FIRST;
       mkSuggestion "pvdisplay /dev/{sdc}"
        "Check source PV details" PREVIEW_FIRST];
  mkPattern "lvconvert-merge"
      "lvconvert\s+(?:.*\s+)?--merge\b"
      "lvconvert --merge reverts LV to snapshot state."
      HIGH
      "Merges LV snapshot, discarding changes since snapshot."
      [mkSuggestion "lvdisplay {vg}/{lv}"
        "Check snapshot and origin details" PREVIEW_FIRST;
       mkSuggestion "lvs -a"
        "List all LVs including snapshots" PREVIEW_FIRST]
].

Definition SYSTEM_PERMISSIONS_PATTERNS : list DestructivePattern := [
  mkPattern "chmod-777"
      (("chmod\s+(?:.*\s+)?[\\\" +s+ sc dq +s+ "'=]?0*777(?:[\\\s\" +s+ sc dq +s+ "']|$)"))
      "chmod 777 makes files world-writable."
      HIGH
      "chmod 777 grants read/write/execute to everyone."
      [mkSuggestion "chmod 755 {dir}"
        "More restrictive permissions for directories" SAFER_ALTERNATIVE;
       mkSuggestion "find {dir} -type f -exec chmod 644 {} \;"
        "Set files to 644, directories to 755" SAFER_ALTERNATIVE];
  mkPattern "chmod-recursive-root"
      (("chmod\s+(?:.*(?:-[rR]|--recursive)).*\s+['\" +s+ sc dq +s+ "]?/(?:$|bin|boot|dev|etc|lib|lib64|opt|proc|root|run|sbin|srv|sys|usr|var)\b"))
      "chmod -R on system directories can break system permissions."
      CRITICAL
      "Recursive chmod on system dirs can break the system."
      [mkSuggestion "chmod -R 755 {specific_dir}"
        "Use a specific directory, not root" SAFER_ALTERNATIVE;
       mkSuggestion "find {dir} -type f -exec chmod 644 {} \;"
        "Set files and dirs separately" SAFER_ALTERNATIVE];
  mkPattern "chown-recursive-root"
      (("chown\s+(?:.*(?:-[rR]|--recursive)).*\s+['\" +s+ sc dq +s+ "]?/(?:$|bin|boot|dev|etc|lib|lib64|opt|proc|root|run|sbin|srv|sys|usr|var)\b"))
      "chown -R on system directories can break system ownership."
      HIGH
      "Recursive chown on system dirs can break services."
      [mkSuggestion "chown -R {user}:{group} {specific_dir}"
        "Use a specific directory, not root" SAFER_ALTERNATIVE;
       mkSuggestion "find {dir} ! -user {user} -exec chown {user}:{group} {} \;"
        "Selective ownership change" SAFER_ALTERNATIVE];
  mkPattern "chmod-setuid"
      "chmod\s+.*u\+s|chmod\s+[4-7]\d{3}"
      "Setting setuid bit (chmod u+s) is security-sensitive."
      HIGH
      "setuid allows running with owner privileges."
      [mkSuggestion "chmod u-s {file}"
        "Remove setuid bit for safety" SAFER_ALTERNATIVE;
       mkSuggestion "capsh --print"
        "Check capabilities as an alternative" PREVIEW_FIRST];
  mkPattern "chmod-setgid"
      "chmod\s+.*g\+s|chmod\s+[2367]\d{3}"
      "Setting setgid bit (chmod g+s) is security-sensitive."
      HIGH
      "setgid affects group privileges."
      [mkSuggestion "chmod g-s {file}"
        "Remove setgid bit for safety" SAFER_ALTERNATIVE;
       mkSuggestion "getfacl {file}"
        "Check ACLs as an alternative" PREVIEW_FIRST];
  mkPattern "chown-to-root"
      "chown\s+.*root[:\s]"
      "Changing ownership to root should be done carefully."
      HIGH
      "chown to root makes files inaccessible to normal users."
      [mkSuggestion "chown {user}:{group} {file}"
        "Use a specific non-root user" SAFER_ALTERNATIVE;
       mkSuggestion "sudo -u {user} {command}"
        "Run as a specific user instead of chown" SAFER_ALTERNATIVE];
  mkPattern "setfacl-all"
      (("setfacl\s+.*-[rR].*\s+['\" +s+ sc dq +s+ "]?/(?:$|bin|boot|dev|etc|lib|lib64|opt|proc|root|run|sbin|srv|sys|usr|var)\b"))
      "setfacl -R on system directories can modify access control across FS."
      CRITICAL
      "Recursive setfacl on system dirs breaks security boundaries."
      [mkSuggestion "setfacl -R -m u:{user}:rwx {specific_dir}"
        "Use a specific directory, not root" SAFER_ALTERNATIVE;
       mkSuggestion "getfacl -R /{dir} | head -100"
        "Preview current ACLs first" PREVIEW_FIRST]
].

Definition SYSTEM_SERVICES_PATTERNS : list DestructivePattern := [
  mkPattern "systemctl-stop-critical"
      "systemctl\b.*?\s+(?:stop|disable|mask)\s+(?:ssh|sshd|network|networking|firewalld|ufw|docker|containerd)\b"
      "Stopping/disabling critical services can cause access loss or outage."
      HIGH
      "Stop critical service: ssh, network, firewall, container runtime."
      [mkSuggestion "systemctl status {service}"
        "Check service status first" PREVIEW_FIRST;
       mkSuggestion "systemctl restart {service}"
        "Restart instead of stop" SAFER_ALTERNATIVE];
  mkPattern "systemctl-stop"
      "systemctl\b.*?\s+(?:stop|disable|mask)\b"
      "systemctl stop/disable/mask affects service availability."
      HIGH
      "Stops, disables, or masks a systemd service."
      [mkSuggestion "systemctl status {service}"
        "Check service status first" PREVIEW_FIRST;
       mkSuggestion "systemctl restart {service}"
        "Restart instead of stopping" SAFER_ALTERNATIVE];
  mkPattern "service-stop-critical"
      "service\s+(?:ssh|sshd|network|networking|docker)\s+stop"
      "Stopping critical services via service command can cause access loss."
      HIGH
      "Stops a critical service via SysV init."
      [mkSuggestion "service {service} status"
        "Check service status first" PREVIEW_FIRST;
       mkSuggestion "service {service} restart"
        "Restart instead of stopping" SAFER_ALTERNATIVE];
  mkPattern "systemctl-isolate"
      "systemctl\b.*?\s+isolate\b"
      "systemctl isolate changes the system state significantly."
      HIGH
      "Isolates to a different systemd target."
      [mkSuggestion "systemctl list-units --type=target"
        "List available targets" PREVIEW_FIRST;
       mkSuggestion "systemctl get-default"
        "Check current default target" PREVIEW_FIRST];
  mkPattern "systemctl-power"
      "systemctl\b.*?\s+(?:poweroff|reboot|halt|suspend|hibernate)\b"
      "systemctl poweroff/reboot/halt shuts down or restarts the system."
      CRITICAL
      "System power state change: poweroff, reboot, halt, suspend."
      [mkSuggestion ("shutdown -r +5 " +s+ sc dq +s+ "Scheduled restart" +s+ sc dq)
        "Scheduled reboot with delay" SAFER_ALTERNATIVE;
       mkSuggestion ("wall " +s+ sc dq +s+ "System will power off" +s+ sc dq +s+ " && sleep 60 && shutdown -h now")
        "Warn users before shutdown" PREVIEW_FIRST];
  mkPattern "shutdown"
      "\bshutdown\b"
      "shutdown will power off or restart the system."
      CRITICAL
      "Shuts down or restarts the system."
      [mkSuggestion ("shutdown -r +5 " +s+ sc dq +s+ "Scheduled restart" +s+ sc dq)
        "Scheduled reboot with delay" SAFER_ALTERNATIVE;
       mkSuggestion "shutdown -c"
        "Cancel a scheduled shutdown" SAFER_ALTERNATIVE];
  mkPattern "reboot"
      "\breboot\b"
      "reboot will restart the system."
      CRITICAL
      "Restarts the system immediately."
      [mkSuggestion ("shutdown -r +5 " +s+ sc dq +s+ "Scheduled restart" +s+ sc dq)
        "Schedule reboot with delay instead of immediate" SAFER_ALTERNATIVE;
       mkSuggestion ("wall " +s+ sc dq +s+ "System will restart" +s+ sc dq +s+ " && sleep 60 && reboot")
        "Warn users before restarting" PREVIEW_FIRST];
  mkPattern "init-level"
      "\binit\s+[06]\b"
      "init 0 shuts down, init 6 reboots the system."
      CRITICAL
      "Init runlevel change to 0 (halt) or 6 (reboot)."
      [mkSuggestion ("shutdown -r +5 " +s+ sc dq +s+ "Scheduled restart" +s+ sc dq)
        "Use shutdown with delay instead of init 6" SAFER_ALTERNATIVE;
       mkSuggestion "systemctl isolate multi-user.target"
        "Use systemctl isolate for non-destructive runlevel change" SAFER_ALTERNATIVE]
].

Definition SYSTEM_PATTERNS : list DestructivePattern :=
  SYSTEM_DISK_PATTERNS ++ SYSTEM_PERMISSIONS_PATTERNS ++ SYSTEM_SERVICES_PATTERNS.

Definition build_system_pack : Pack :=
  mkPack "system" "System patterns"
    (SYSTEM_PATTERNS)
    ["dd"; "fdisk"; "parted"; "mkfs"; "mkswap"; "wipefs"; "mount"; "umount"; "losetup"; "mdadm"; "btrfs"; "dmsetup"; "nbd-client"; "pvremove"; "vgremove"; "lvremove"; "vgreduce"; "lvreduce"; "lvresize"; "pvmove"; "lvconvert"; "chmod"; "chown"; "setfacl"; "systemctl"; "service"; "shutdown"; "reboot"; "init"].

(** ** The filesystem pack (app/packs/filesystem.py) *)

Definition RM_ANCHOR : string := "(?:^|[;&|]|\n)\s*(?:sudo\s+)?(?:[\w./-]*/)?rm\b".

Definition RECURSIVE_LOOKAHEAD : string := "(?=.*?(?:(?<![\w-])-[a-zA-Z0-9]*r[a-zA-Z0-9]*(?![\w-])|--recursive\b))".

Definition FORCE_LOOKAHEAD : string := "(?=.*?(?:(?<![\w-])-[a-zA-Z0-9]*f[a-zA-Z0-9]*(?![\w-])|--force\b))".

Definition FILESYSTEM_PATTERNS : list DestructivePattern := [
  mkPattern "rm-rf-root"
      (RM_ANCHOR +s+ RECURSIVE_LOOKAHEAD +s+ FORCE_LOOKAHEAD +s+ (".*?\s+[" +s+ sc dq +s+ "\']?(?:/|/\*)[" +s+ sc dq +s+ "\']?(?:\s|&&|\|\||;|\||$|#)"))
      "rm -rf targeting root filesystem (/) will DESTROY THE OPERATING SYSTEM"
      CRITICAL
      "Recursive force-delete on / wipes the entire filesystem."
      [mkSuggestion "rm -rf /path/to/specific/dir"
        "Target specific directories" SAFER_ALTERNATIVE];
  mkPattern "rm-rf-sensitive"
      (RM_ANCHOR +s+ RECURSIVE_LOOKAHEAD +s+ FORCE_LOOKAHEAD +s+ ".*?\s+/(?:etc(?=[ /\t]|$)|var(?=[ /\t]|$)|boot(?=[ /\t]|$)|dev(?=[ /\t]|$)|proc(?=[ /\t]|$)|sys(?=[ /\t]|$)|usr(?=[ /\t]|$)|lib(?=[ /\t]|$)|bin(?=[ /\t]|$)|sbin(?=[ /\t]|$)|opt(?=[ /\t]|$)|root(?=[ /\t]|$))")
      "rm -rf targeting a system-critical directory will BREAK the OS"
      CRITICAL
      "System directories like /etc, /var, /usr contain critical files."
      [mkSuggestion "rm -rf /tmp/specific/subdir"
        "Use /tmp for temp deletions" SAFER_ALTERNATIVE];
  mkPattern "rm-rf"
      (RM_ANCHOR +s+ RECURSIVE_LOOKAHEAD +s+ FORCE_LOOKAHEAD)
      "rm -rf is destructive — recursively forces deletion without confirmation"
      HIGH
      "Recursive force-delete is the most dangerous filesystem command."
      [mkSuggestion "rm -ri {path}"
        "Interactive mode" SAFER_ALTERNATIVE];
  mkPattern "rm-recursive"
      (RM_ANCHOR +s+ ".*\s+(?:-(?:[a-zA-Z]*[rR][a-zA-Z]*)|--recursive)(?:\s|$)")
      "Recursive rm can silently remove an entire directory tree"
      MEDIUM
      "Removes entire directory trees without individual file prompts."
      [mkSuggestion "rm -ri {path}"
        "Interactive confirmation" SAFER_ALTERNATIVE];
  mkPattern "find-delete"
      "\bfind\b.*\s+-delete\b"
      "find -delete recursively removes files matching the search"
      HIGH
      "find -delete silently removes every matched file."
      [mkSuggestion "find /tmp -type f | head -20"
        "Preview before deleting" PREVIEW_FIRST];
  mkPattern "find-exec-rm"
      "\bfind\b.*\s+-exec\b.*\brm\b"
      "find -exec rm runs rm on every matched file — bulk deletion"
      HIGH
      "find combined with -exec rm deletes every file matched."
      [mkSuggestion "find /tmp -type f | head -20"
        "Preview first" PREVIEW_FIRST];
  mkPattern "dd-block-device"
      "\bdd\b.*\bof=\s*/dev/(?:sd[a-z]|nvme\d+n\d+|vd[a-z]|mmcblk\d+|loop\d+|dm-\d+|md\d+)"
      "dd writing directly to a block device will DESTROY filesystem and data"
      CRITICAL
      "dd of=/dev/sdX overwrites the raw block device."
      [mkSuggestion "lsblk"
        "List block devices first" PREVIEW_FIRST];
  mkPattern "mkfs-destructive"
      "\bmkfs\b"
      "mkfs formats a filesystem, ERASING ALL DATA on the target device"
      CRITICAL
      "mkfs creates a new filesystem, destroying all existing data."
      [mkSuggestion "lsblk -f"
        "Check existing filesystems" PREVIEW_FIRST];
  mkPattern "shred-destructive"
      "\bshred\b.*(?:-[a-zA-Z0-9]*u\b|--remove)"
      "shred overwrites a file to hide its contents, then optionally deletes it"
      HIGH
      "shred securely deletes files by overwriting with random data."
      [mkSuggestion "rm -P {file}"
        "Use rm -P for secure deletion" SAFER_ALTERNATIVE]
].

Definition build_filesystem_pack : Pack :=
  mkPack "filesystem" "Filesystem patterns"
    (FILESYSTEM_PATTERNS)
    ["rm"; "find"; "dd"; "mkfs"; "shred"].

(** ** The package_managers pack (app/packs/package_managers.py) *)

Definition PACKAGE_MANAGER_PATTERNS : list DestructivePattern := [
  mkPattern "npm-publish"
      "\bnpm\b.*?\bpublish\b(?!.*--dry-run(?:=true)?(?:\s|$))"
      "npm publish releases a package publicly"
      HIGH
      "npm publish releases a package to the public registry. Irreversible — even after unpublish, the version remains cached."
      [mkSuggestion "npm publish --dry-run"
        "Dry-run publish first to verify contents" PREVIEW_FIRST;
       mkSuggestion "npm pack"
        "Inspect the tarball before publishing" PREVIEW_FIRST];
  mkPattern "yarn-publish"
      "\byarn\b.*?\bpublish\b(?!.*--dry-run(?:=true)?(?:\s|$))"
      "yarn publish releases a package publicly"
      HIGH
      "yarn publish releases a package to the registry. Verify package.json and contents before publishing."
      [mkSuggestion "yarn publish --dry-run"
        "Dry-run publish first" PREVIEW_FIRST;
       mkSuggestion "yarn pack"
        "Inspect the tarball before publishing" PREVIEW_FIRST];
  mkPattern "pnpm-publish"
      "\bpnpm\b.*?\bpublish\b(?!.*--dry-run(?:=true)?(?:\s|$))"
      "pnpm publish releases a package publicly"
      HIGH
      "pnpm publish releases a package to the registry."
      [mkSuggestion "pnpm publish --dry-run"
        "Dry-run publish first" PREVIEW_FIRST;
       mkSuggestion "pnpm pack"
        "Inspect the tarball before publishing" PREVIEW_FIRST];
  mkPattern "npm-unpublish"
      "\bnpm\b.*?\bunpublish(?=\s|$)"
      "npm unpublish removes a published package"
      CRITICAL
      "npm unpublish removes a published package. Can break dependent projects. New packages may require support contact for unpublish."
      [mkSuggestion "npm view {package} versions"
        "Check who depends on the package first" PREVIEW_FIRST;
       mkSuggestion "npm deprecate {package}@{version} 'reason'"
        "Deprecate instead of unpublish — safer for dependents" SAFER_ALTERNATIVE];
  mkPattern "pip-uninstall"
      "\bpip(?:3)?\b.*?\buninstall(?=\s|$)"
      "pip uninstall removes installed packages"
      MEDIUM
      "pip uninstall removes installed packages. Verify dependencies before removing — other packages may depend on them."
      [mkSuggestion "pip show {package}"
        "Check package details and dependencies first" PREVIEW_FIRST;
       mkSuggestion "pip freeze > requirements.txt"
        "Backup the environment before uninstalling" PREVIEW_FIRST];
  mkPattern "pip-install-url"
      "\bpip\b.*?\binstall\s+.*(?:https?://|git\+)"
      "pip install from URL can install unvetted code"
      HIGH
      "pip install from URL installs code that bypasses PyPI review. Verify the source and checksum first."
      [mkSuggestion "pip download {package} --no-deps -d /tmp"
        "Download and inspect before installing" PREVIEW_FIRST;
       mkSuggestion "pip install {package}=={version}"
        "Install a pinned version from PyPI instead" SAFER_ALTERNATIVE];
  mkPattern "apt-remove"
      "\bapt(?:-get)?\b.*?\b(?:remove|purge|autoremove)(?=\s|$)"
      "apt remove/purge removes packages"
      HIGH
      "apt remove/purge removes system packages. Removing critical packages (kernel, libc, openssl) can break the system."
      [mkSuggestion "apt list --installed | grep -i {package}"
        "Check if the package is critical first" PREVIEW_FIRST;
       mkSuggestion "apt install {package}="
        "Pin the version to avoid dependency breakage" SAFER_ALTERNATIVE];
  mkPattern "yum-remove"
      "\b(?:yum|dnf)\b.*?\b(?:remove|erase|autoremove)(?=\s|$)"
      "yum/dnf remove removes packages"
      HIGH
      "yum/dnf remove removes system packages. Verify no critical packages are affected."
      [mkSuggestion "yum deplist {package}"
        "Check dependents before removal" PREVIEW_FIRST;
       mkSuggestion "yum install {package} --setopt=keepcache=1"
        "Keep cache for rollback if needed" PREVIEW_FIRST];
  mkPattern "cargo-publish"
      "\bcargo\b.*?\bpublish\b(?!.*--dry-run(?:=true)?(?:\s|$))"
      "cargo publish releases a crate to crates.io"
      HIGH
      "cargo publish releases a crate to crates.io. Versions are immutable once published."
      [mkSuggestion "cargo publish --dry-run"
        "Dry-run publish first" PREVIEW_FIRST;
       mkSuggestion "cargo package --list"
        "Verify packaged files before publishing" PREVIEW_FIRST];
  mkPattern "cargo-yank"
      "\bcargo\b.*?\byank(?=\s|$)"
      "cargo yank marks a version as unavailable"
      HIGH
      "cargo yank marks a version as unavailable. Can break dependent projects that reference the yanked version."
      [mkSuggestion "cargo search {crate}"
        "Check the crate's dependents first" PREVIEW_FIRST;
       mkSuggestion "cargo yank --undo {crate}@{version}"
        "Un-yank restores availability if needed" SAFER_ALTERNATIVE];
  mkPattern "gem-push"
      "\bgem\b.*?\bpush\b"
      "gem push releases a gem to rubygems.org"
      HIGH
      "gem push releases a gem to rubygems.org. Verify before publishing — versions cannot be fully removed."
      [mkSuggestion "gem build {gem}.gemspec"
        "Build the gem and inspect contents first" PREVIEW_FIRST;
       mkSuggestion "gem yank {gem} -v {version}"
        "Yank reverses a publish if it was a mistake" SAFER_ALTERNATIVE];
  mkPattern "brew-uninstall"
      "\bbrew\b.*?\b(?:uninstall|remove)(?=\s|$)"
      "brew uninstall removes packages"
      MEDIUM
      "brew uninstall removes packages. Verify no dependent packages are affected."
      [mkSuggestion "brew uses --installed {formula}"
        "Check which installed formulae depend on it" PREVIEW_FIRST;
       mkSuggestion "brew leaves | grep {formula}"
        "Confirm it's a leaf formula (not depended on)" PREVIEW_FIRST];
  mkPattern "poetry-publish"
      "\bpoetry\b.*?\bpublish\b(?!.*--dry-run(?:=true)?(?:\s|$))"
      "poetry publish releases a package"
      HIGH
      "poetry publish releases a package to the registry. Use --dry-run first."
      [mkSuggestion "poetry publish --dry-run"
        "Dry-run publish first" PREVIEW_FIRST;
       mkSuggestion "poetry build"
        "Build the distribution and inspect it first" PREVIEW_FIRST];
  mkPattern "poetry-remove"
      "\bpoetry\b.*?\bremove(?=\s|$)"
      "poetry remove uninstalls a dependency"
      MEDIUM
      "poetry remove uninstalls a dependency. Verify no other packages require it."
      [mkSuggestion "poetry show --tree | grep {package}"
        "Check the dependency tree first" PREVIEW_FIRST;
       mkSuggestion "poetry add {package}@{version}"
        "Re-add the pinned version if needed" SAFER_ALTERNATIVE];
  mkPattern "maven-deploy"
      "\b(?:mvn|mvnw)\b.*?\bdeploy\b"
      "mvn deploy publishes artifacts to a remote repository"
      HIGH
      "mvn deploy publishes artifacts to a remote repository. Verify the target repository is correct — snapshots may overwrite."
      [mkSuggestion "mvn help:effective-settings"
        "Check which repository the deploy targets" PREVIEW_FIRST;
       mkSuggestion "mvn verify"
        "Run full verification before deploying" PREVIEW_FIRST];
  mkPattern "maven-release-perform"
      "\b(?:mvn|mvnw)\s+.*release:perform\b"
      "mvn release:perform publishes a release"
      HIGH
      "mvn release:perform publishes a release. Verify version and repository before running."
      [mkSuggestion "mvn release:prepare --dryRun=true"
        "Dry-run the release preparation first" PREVIEW_FIRST;
       mkSuggestion "mvn release:rollback"
        "Rollback a failed release" SAFER_ALTERNATIVE];
  mkPattern "gradle-publish"
      "\b(?:gradle|gradlew)\s+.*\bpublish\b"
      "gradle publish uploads artifacts"
      HIGH
      "gradle publish uploads artifacts to a repository. Verify the target repository before publishing."
      [mkSuggestion "gradle publishToMavenLocal"
        "Publish locally to verify first" PREVIEW_FIRST;
       mkSuggestion "gradle --dry-run publish"
        "Dry-run the publish task" PREVIEW_FIRST]
].

Definition build_package_managers_pack : Pack :=
  mkPack "package_managers" "Package Managers"
    (PACKAGE_MANAGER_PATTERNS)
    ["npm"; "yarn"; "pnpm"; "pip"; "apt"; "yum"; "dnf"; "cargo"; "gem"; "brew"; "poetry"; "mvn"; "mvnw"; "gradle"; "gradlew"; "publish"].

(** ** The backup pack (app/packs/backup.py) *)

Definition BACKUP_PATTERNS : list DestructivePattern := [
  mkPattern "borg-delete"
      "borg(?:\s+--?\S+(?:\s+\S+)?)*\s+delete\b"
      "borg delete removes archives from the repository"
      CRITICAL
      "borg delete removes archive(s) from the backup repository. Deleted archives are permanently gone — the only copy of the data may be destroyed."
      [mkSuggestion "borg list {repo}"
        "List archives before deleting" PREVIEW_FIRST;
       mkSuggestion "borg export-tar {repo}::{archive} -C zstd > {file}"
        "Export the archive before deleting it" PREVIEW_FIRST];
  mkPattern "borg-prune"
      "borg(?:\s+--?\S+(?:\s+\S+)?)*\s+prune\b"
      "borg prune removes archives per retention policy"
      HIGH
      "borg prune permanently deletes archives matching the retention policy (e.g. --keep-daily 7). Wrong policy values delete more history than intended, irreversibly."
      [mkSuggestion "borg list {repo}"
        "Review archives before pruning" PREVIEW_FIRST;
       mkSuggestion "borg prune --dry-run --list {repo}"
        "Preview which archives would be removed" PREVIEW_FIRST];
  mkPattern "borg-compact"
      "borg(?:\s+--?\S+(?:\s+\S+)?)*\s+compact\b"
      "borg compact reclaims space from deleted data"
      MEDIUM
      "borg compact permanently frees space used by deleted or updated chunks. Safe after verification, but irreversible."
      [mkSuggestion "borg info {repo}"
        "Check repository usage first" PREVIEW_FIRST;
       mkSuggestion "borg check {repo}"
        "Verify repository health before compacting" PREVIEW_FIRST];
  mkPattern "borg-recreate"
      "borg(?:\s+--?\S+(?:\s+\S+)?)*\s+recreate\b"
      "borg recreate rewrites archives in place"
      HIGH
      "borg recreate rewrites archives applying filters (exclude, compression). If interrupted, archives can be corrupted."
      [mkSuggestion "borg list {repo}"
        "Review archives before recreating" PREVIEW_FIRST;
       mkSuggestion "borg create {repo}::{archive} {src}"
        "Create a new archive with filters instead" SAFER_ALTERNATIVE];
  mkPattern "borg-break-lock"
      "borg(?:\s+--?\S+(?:\s+\S+)?)*\s+break-lock\b"
      "borg break-lock forcibly removes repository locks"
      MEDIUM
      "borg break-lock forcibly removes stale locks. If another process is actively writing, this can corrupt the repository."
      [mkSuggestion "ps aux | grep borg"
        "Verify no borg process is running first" PREVIEW_FIRST;
       mkSuggestion "borg lock kill {repo} --force"
        "Use the explicit lock subcommand" SAFER_ALTERNATIVE];
  mkPattern "restic-forget"
      "restic\b.*\sforget\b"
      "restic forget removes snapshots per retention policy"
      CRITICAL
      "restic forget permanently removes snapshots matching the retention policy. Bad policy values can delete ALL backups irreversibly."
      [mkSuggestion "restic snapshots"
        "List snapshots before forgetting" PREVIEW_FIRST;
       mkSuggestion "restic forget --dry-run {policy_args}"
        "Preview which snapshots would be removed" PREVIEW_FIRST];
  mkPattern "restic-prune"
      "restic\b.*\sprune\b"
      "restic prune removes unreferenced data from the repository"
      CRITICAL
      "restic prune permanently deletes data no longer referenced by snapshots. After prune, forgotten snapshots are unrecoverable."
      [mkSuggestion "restic snapshots --latest 3"
        "Verify recent snapshots first" PREVIEW_FIRST;
       mkSuggestion "restic check"
        "Verify repository health before pruning" PREVIEW_FIRST];
  mkPattern "restic-key-remove"
      "restic\b.*\skey\b.*\sremove\b"
      "restic key remove deletes an encryption key"
      CRITICAL
      "restic key remove deletes a repository key. If the deleted key is the only one, all backup data becomes permanently undecryptable."
      [mkSuggestion "restic key list"
        "List all keys first" PREVIEW_FIRST;
       mkSuggestion "restic key add"
        "Add a replacement key before removing" SAFER_ALTERNATIVE];
  mkPattern "restic-unlock-remove-all"
      "restic\b.*\sunlock\b.*\s--remove-all\b"
      "restic unlock --remove-all force-removes all locks"
      HIGH
      "restic unlock --remove-all forcibly removes all locks without verifying staleness. Active processes may be corrupted."
      [mkSuggestion "restic list locks"
        "Review locks before removing" PREVIEW_FIRST;
       mkSuggestion "restic unlock"
        "Remove only stale locks (default behavior)" SAFER_ALTERNATIVE];
  mkPattern "restic-cache-cleanup"
      "restic\b.*\scache\b.*\s--cleanup\b"
      "restic cache --cleanup removes cached data"
      LOW
      "restic cache --cleanup removes cached repository data. Only affects performance, but removes the local copy of pack files."
      [mkSuggestion "restic cache --info"
        "Check cache status first" PREVIEW_FIRST;
       mkSuggestion "rm -rf ~/.cache/restic"
        "Manually remove the cache after verifying" SAFER_ALTERNATIVE];
  mkPattern "rclone-sync"
      "rclone(?:\s+--?\S+(?:\s+\S+)?)*\s+sync\b"
      "rclone sync makes dest identical to src, deleting extras"
      CRITICAL
      "rclone sync deletes files in the destination that do not exist in the source. Misconfigured paths can wipe the destination entirely."
      [mkSuggestion "rclone ls {dest}"
        "Review destination contents first" PREVIEW_FIRST;
       mkSuggestion "rclone copy {src} {dest} --dry-run"
        "Copy instead of sync — destination is preserved" SAFER_ALTERNATIVE];
  mkPattern "rclone-delete"
      "rclone(?:\s+--?\S+(?:\s+\S+)?)*\s+delete\b"
      "rclone delete removes files from the destination"
      HIGH
      "rclone delete permanently removes files matching the filter from the destination. No trash on most remotes."
      [mkSuggestion "rclone lsl {dest}"
        "List files before deleting" PREVIEW_FIRST;
       mkSuggestion "rclone move {src} {dest} --dry-run"
        "Use --dry-run to preview deletions" PREVIEW_FIRST];
  mkPattern "rclone-deletefile"
      "rclone(?:\s+--?\S+(?:\s+\S+)?)*\s+deletefile\b"
      "rclone deletefile removes a single file"
      HIGH
      "rclone deletefile permanently removes a single file from the destination. Cannot be recovered on most remotes."
      [mkSuggestion "rclone lsl {file}"
        "Verify the file before deleting" PREVIEW_FIRST;
       mkSuggestion "rclone copy {src} {dest}"
        "Re-upload the file after verification" SAFER_ALTERNATIVE];
  mkPattern "rclone-purge"
      "rclone(?:\s+--?\S+(?:\s+\S+)?)*\s+purge\b"
      "rclone purge removes an entire directory tree"
      CRITICAL
      "rclone purge permanently deletes a directory and all contents. Equivalent to rm -rf on the remote."
      [mkSuggestion "rclone ls {dir}"
        "List directory contents first" PREVIEW_FIRST;
       mkSuggestion "rclone delete {dir} --filter '!*.keep'"
        "Delete selectively with filters" SAFER_ALTERNATIVE];
  mkPattern "rclone-cleanup"
      "rclone(?:\s+--?\S+(?:\s+\S+)?)*\s+cleanup\b"
      "rclone cleanup removes old files from a bucket"
      MEDIUM
      "rclone cleanup removes versioned objects older than their retention in bucket remotes. Permanent after completion."
      [mkSuggestion "rclone versioning {remote}:"
        "Check versioning state first" PREVIEW_FIRST;
       mkSuggestion "rclone ls --max-age 90d {remote}:"
        "Review objects that would be cleaned" PREVIEW_FIRST];
  mkPattern "rclone-dedupe"
      "rclone(?:\s+--?\S+(?:\s+\S+)?)*\s+dedupe\b"
      "rclone dedupe removes duplicate files"
      HIGH
      "rclone dedupe removes duplicate files in a directory, keeping one per hash. Wrong mode can delete the wrong copy."
      [mkSuggestion "rclone check {dir} {dir}"
        "Review duplicates first" PREVIEW_FIRST;
       mkSuggestion "rclone dedupe --dedupe-mode=rename {dir}"
        "Rename duplicates instead of deleting" SAFER_ALTERNATIVE];
  mkPattern "rclone-move"
      "rclone(?:\s+--?\S+(?:\s+\S+)?)*\s+move\b"
      "rclone move moves files, deleting them from the source"
      MEDIUM
      "rclone move transfers files to the destination AND deletes them from the source. Interrupted transfers can lose files."
      [mkSuggestion "rclone copy {src} {dest} --dry-run"
        "Copy instead of move — source preserved" SAFER_ALTERNATIVE;
       mkSuggestion "rclone lsl {src}"
        "Verify source contents first" PREVIEW_FIRST];
  mkPattern "velero-backup-delete"
      "velero(?:\s+--?\S+(?:\s+\S+)?)*\s+backup\s+delete\b"
      "velero backup delete removes backups from the cluster"
      HIGH
      "velero backup delete permanently removes backups and their cloud objects. Restore becomes impossible after deletion."
      [mkSuggestion "velero backup describe {name} --details"
        "Review backup details first" PREVIEW_FIRST;
       mkSuggestion "velero backup get"
        "List all backups before deleting" PREVIEW_FIRST];
  mkPattern "velero-schedule-delete"
      "velero(?:\s+--?\S+(?:\s+\S+)?)*\s+schedule\s+delete\b"
      "velero schedule delete removes a backup schedule"
      HIGH
      "velero schedule delete removes a scheduled backup. Future backups stop being created — data protection window is lost."
      [mkSuggestion "velero schedule describe {name}"
        "Review the schedule first" PREVIEW_FIRST;
       mkSuggestion "velero schedule pause {name}"
        "Pause instead of delete — reversible" SAFER_ALTERNATIVE];
  mkPattern "velero-restore-delete"
      "velero(?:\s+--?\S+(?:\s+\S+)?)*\s+restore\s+delete\b"
      "velero restore delete removes restore records"
      MEDIUM
      "velero restore delete removes restore objects from the cluster. Restores already performed are unaffected, but the record is gone."
      [mkSuggestion "velero restore get"
        "List restores first" PREVIEW_FIRST;
       mkSuggestion "velero restore create --from-backup {backup}"
        "Create a fresh restore instead" SAFER_ALTERNATIVE];
  mkPattern "duplicity-remove-older-than"
      "duplicity\b.*\bremove-older-than\b"
      "duplicity remove-older-than deletes old backup chains"
      CRITICAL
      "duplicity remove-older-than permanently deletes backup chains older than the given time. Full chains are deleted including their bases."
      [mkSuggestion "duplicity collection-status {url}"
        "Review the backup chain first" PREVIEW_FIRST;
       mkSuggestion "duplicity list-current-files {url}"
        "List recoverable files before cleanup" PREVIEW_FIRST];
  mkPattern "duplicity-delete"
      "duplicity\b.*\bdelete\b"
      "duplicity delete removes backup chains for a file set"
      HIGH
      "duplicity delete removes backup chains matching the given file set. The affected data becomes unrecoverable."
      [mkSuggestion "duplicity collection-status {url}"
        "Review the backup chain first" PREVIEW_FIRST;
       mkSuggestion "duplicity restore --file-to-restore {path} {url} {target}"
        "Restore the data before deleting" PREVIEW_FIRST]
].

Definition build_backup_pack : Pack :=
  mkPack "backup" "Backup"
    (BACKUP_PATTERNS)
    ["borg"; "restic"; "rclone"; "velero"; "duplicity"].
