(* ===== verification/PackCloud.v ===== *)
(** * Pattern packs for clouds and containers: cloud, kubernetes, docker and storage packs.

    One section of definitions per file of src/app/packs/. *)
From S2P Require Import Prelude PolicyTypes Packs.
From stdpp Require Import options.

(** ** The cloud pack (app/packs/cloud.py) *)

Definition CLOUD_PATTERNS : list DestructivePattern := [
  mkPattern "aws-ec2-terminate"
      "aws\b.*?\bec2\s+terminate-instances"
      "aws ec2 terminate-instances permanently destroys EC2 instances"
      CRITICAL
      "Instance is stopped and deleted. EBS volumes and Elastic IPs are lost."
      [mkSuggestion "aws ec2 stop-instances --instance-ids i-xxx"
        "Stop instead of terminate for recoverable pause" SAFER_ALTERNATIVE;
       mkSuggestion "aws ec2 describe-instances --instance-ids i-xxx"
        "Verify instance details before terminating" PREVIEW_FIRST];
  mkPattern "aws-ec2-delete"
      "aws\b.*?\bec2\s+delete-"
      "aws ec2 delete-* permanently removes EC2 resources (snapshots, volumes, VPCs, AMIs)"
      HIGH
      "EC2 delete commands: delete-snapshot, delete-volume, delete-vpc, delete-image."
      [mkSuggestion "aws ec2 describe-snapshots/volumes/vpcs/images"
        "List resources before deletion" PREVIEW_FIRST;
       mkSuggestion "aws ec2 create-snapshot --volume-id {vol}"
        "Backup volume before deleting" PREVIEW_FIRST];
  mkPattern "aws-s3-rm-recursive"
      "aws\b.*?\bs3\s+rm\s+.*--recursive"
      "aws s3 rm --recursive permanently deletes ALL objects in the S3 path"
      CRITICAL
      "Recursive deletion of all objects under the prefix. No recovery unless bucket versioning is enabled."
      [mkSuggestion "aws s3 rm s3://bucket/path/ --recursive --dryrun"
        "Preview deletions with --dryrun" PREVIEW_FIRST;
       mkSuggestion "aws s3 ls s3://bucket/path/ --recursive"
        "List objects to verify before deleting" PREVIEW_FIRST];
  mkPattern "aws-s3-rb"
      "aws\b.*?\bs3\s+rb\b"
      "aws s3 rb removes the entire S3 bucket"
      CRITICAL
      "rb removes an S3 bucket. With --force, deletes all contents first."
      [mkSuggestion "aws s3 ls s3://{bucket}"
        "List bucket contents first" PREVIEW_FIRST;
       mkSuggestion "aws s3api get-bucket-versioning --bucket {bucket}"
        "Check versioning status first" PREVIEW_FIRST];
  mkPattern "aws-s3api-delete-bucket"
      "aws\b.*?\bs3api\s+delete-bucket"
      "aws s3api delete-bucket removes the S3 bucket"
      CRITICAL
      "Bucket must be empty. Check contents before deleting."
      [mkSuggestion "aws s3api list-objects --bucket {bucket} --max-items 10"
        "List objects before deleting" PREVIEW_FIRST;
       mkSuggestion "aws s3api get-bucket-versioning --bucket {bucket}"
        "Check versioning status first" PREVIEW_FIRST];
  mkPattern "aws-s3api-delete-object"
      "aws\b.*?\bs3api\s+delete-object"
      "aws s3api delete-object[s] permanently removes objects unless versioning is enabled"
      HIGH
      "delete-objects is BATCH (up to 1000 keys). Without versioning, objects are permanently gone."
      [mkSuggestion "aws s3api get-bucket-versioning --bucket xxx"
        "Check if versioning is enabled first" PREVIEW_FIRST];
  mkPattern "aws-rds-delete"
      "aws\b.*?\brds\s+delete-"
      "aws rds delete-* destroys database resources (instance, cluster, snapshot)"
      CRITICAL
      "RDS delete commands remove database instances, clusters, and snapshots. Create a final snapshot before deletion."
      [mkSuggestion "aws rds describe-db-instances"
        "List instances before deletion" PREVIEW_FIRST;
       mkSuggestion "aws rds delete-db-instance --skip-final-snapshot false"
        "Create final snapshot before deletion" PREVIEW_FIRST];
  mkPattern "aws-cfn-delete-stack"
      "aws\b.*?\bcloudformation\s+delete-stack"
      "aws cloudformation delete-stack removes the stack and ALL resources it created"
      CRITICAL
      "All EC2, RDS, S3, IAM resources created by the stack are deleted."
      [mkSuggestion "aws cloudformation describe-stack-resources --stack-name {name}"
        "List resources first" PREVIEW_FIRST;
       mkSuggestion "aws cloudformation get-template --stack-name {name}"
        "Save template before deletion" PREVIEW_FIRST];
  mkPattern "aws-lambda-delete"
      "aws\b.*?\blambda\s+delete-"
      "aws lambda delete-* removes Lambda function, alias, or layer version"
      HIGH
      "Function code, versions, aliases, and event source mappings are removed."
      [mkSuggestion "aws lambda list-functions"
        "List functions before deletion" PREVIEW_FIRST;
       mkSuggestion "aws lambda get-function --function-name {name}"
        "Save function config first" PREVIEW_FIRST];
  mkPattern "aws-iam-delete"
      "aws\b.*?\biam\s+delete-"
      "aws iam delete-* removes IAM resources (user, role, policy, group)"
      HIGH
      "IAM deletions break authentication for users and services using those resources."
      [mkSuggestion "aws iam list-attached-role-policies --role-name {role}"
        "Check attached policies first" PREVIEW_FIRST;
       mkSuggestion "aws iam get-policy --policy-arn {arn}"
        "Save policy document before deletion" PREVIEW_FIRST];
  mkPattern "aws-dynamodb-delete"
      "aws\b.*?\bdynamodb\s+delete-table"
      "aws dynamodb delete-table permanently deletes the table and ALL data"
      CRITICAL
      "All items, indexes, and table configuration are lost."
      [mkSuggestion "aws dynamodb list-tables"
        "List tables first" PREVIEW_FIRST;
       mkSuggestion "aws dynamodb describe-table --table-name {name}"
        "Check table details before deletion" PREVIEW_FIRST];
  mkPattern "aws-eks-delete"
      "aws\b.*?\beks\s+delete-cluster"
      "aws eks delete-cluster removes the entire EKS cluster"
      CRITICAL
      "Control plane is deleted. Node groups must be deleted separately first."
      [mkSuggestion "aws eks list-nodegroups --cluster-name {name}"
        "List nodegroups before deletion" PREVIEW_FIRST;
       mkSuggestion "aws eks describe-cluster --name {name}"
        "Check cluster details first" PREVIEW_FIRST];
  mkPattern "aws-ecr-delete-repository"
      "aws\b.*?\becr\s+delete-repository"
      "aws ecr delete-repository permanently deletes the repository and its images"
      HIGH
      "All images in the repository are deleted."
      [mkSuggestion "aws ecr list-images --repository-name {name}"
        "List images first" PREVIEW_FIRST;
       mkSuggestion "aws ecr describe-repositories"
        "List repositories before deletion" PREVIEW_FIRST];
  mkPattern "aws-kms-schedule-key-deletion"
      "aws\b.*?\bkms\s+schedule-key-deletion"
      "aws kms schedule-key-deletion schedules irreversible KMS key destruction"
      CRITICAL
      "Data encrypted with this key becomes permanently undecryptable. CancelKeyDeletion can abort within the waiting window."
      [mkSuggestion "aws kms disable-key --key-id xxx"
        "Disable key instead of deletion for reversible deactivation" SAFER_ALTERNATIVE];
  mkPattern "aws-secretsmanager-delete-secret"
      "aws\b.*?\bsecretsmanager\s+delete-secret"
      "aws secretsmanager delete-secret destroys a stored secret"
      CRITICAL
      "30-day recovery window unless --force-delete-without-recovery used."
      [mkSuggestion "aws secretsmanager describe-secret --secret-id {name}"
        "Check secret details first" PREVIEW_FIRST;
       mkSuggestion "aws secretsmanager list-secrets"
        "List secrets before deletion" PREVIEW_FIRST];
  mkPattern "aws-route53-delete-hosted-zone"
      "aws\b.*?\broute53\s+delete-hosted-zone"
      "aws route53 delete-hosted-zone removes DNS zone — domains stop resolving"
      CRITICAL
      "All DNS records deleted. Production traffic can become unroutable immediately."
      [mkSuggestion "aws route53 list-resource-record-sets --hosted-zone-id xxx"
        "Export records first" PREVIEW_FIRST];
  mkPattern "aws-cloudtrail-delete-trail"
      "aws\b.*?\bcloudtrail\s+delete-trail"
      "aws cloudtrail delete-trail removes audit trail — compliance/forensics impact"
      CRITICAL
      "Historical logs in S3 are preserved, but future events stop being recorded."
      [mkSuggestion "aws cloudtrail describe-trails"
        "List trails before deletion" PREVIEW_FIRST;
       mkSuggestion "aws cloudtrail get-trail-status --name {name}"
        "Check trail status first" PREVIEW_FIRST];
  mkPattern "aws-redshift-delete-cluster"
      "aws\b.*?\bredshift\s+delete-cluster"
      "aws redshift delete-cluster destroys Redshift cluster and all data"
      CRITICAL
      "With --skip-final-cluster-snapshot, ALL data is destroyed immediately."
      [mkSuggestion "aws redshift describe-clusters"
        "List clusters before deletion" PREVIEW_FIRST;
       mkSuggestion "aws redshift delete-cluster --final-cluster-snapshot-identifier {snap}"
        "Create final snapshot before delete" PREVIEW_FIRST];
  mkPattern "aws-logs-delete-log-group"
      "aws\b.*?\blogs\s+delete-log-group"
      "aws logs delete-log-group permanently deletes log group and all events"
      HIGH
      "All log streams, events, metric filters, and subscriptions are lost."
      [mkSuggestion "aws logs describe-log-groups"
        "List log groups first" PREVIEW_FIRST;
       mkSuggestion "aws logs export-task --log-group-name {name} --destination {bucket}"
        "Export logs before deletion" PREVIEW_FIRST];
  mkPattern "gcp-compute-delete"
      "gcloud\b.*?\bcompute\s+instances\s+delete"
      "gcloud compute instances delete permanently destroys VM instances"
      CRITICAL
      "Boot disk deleted unless --keep-disks specified. External IPs released."
      [mkSuggestion "gcloud compute instances list"
        "List instances first" PREVIEW_FIRST;
       mkSuggestion "gcloud compute instances stop {name} --zone={zone}"
        "Stop instead of delete" SAFER_ALTERNATIVE];
  mkPattern "gcp-disk-delete"
      "gcloud\b.*?\bcompute\s+disks\s+delete"
      "gcloud compute disks delete permanently destroys disk data"
      CRITICAL
      "All data on disk is lost forever without snapshots."
      [mkSuggestion "gcloud compute disks list"
        "List disks first" PREVIEW_FIRST;
       mkSuggestion "gcloud compute disks snapshot {disk} --zone={zone} --snapshot-names {snap}"
        "Create snapshot before deletion" PREVIEW_FIRST];
  mkPattern "gcp-sql-delete"
      "gcloud\b.*?\bsql\s+instances\s+delete"
      "gcloud sql instances delete permanently destroys Cloud SQL instance"
      CRITICAL
      "Database and all data deleted along with backups and read replicas."
      [mkSuggestion "gcloud sql instances list"
        "List instances first" PREVIEW_FIRST;
       mkSuggestion "gcloud sql instances describe {name}"
        "Check instance details first" PREVIEW_FIRST];
  mkPattern "gcp-gsutil-rm-recursive"
      "gsutil\b.*?\brm\s+.*-r|gsutil\b.*?\brm\s+-[a-z]*r"
      "gsutil rm -r permanently deletes ALL objects in the GCS path"
      CRITICAL
      "All objects under path deleted. No recovery without versioning."
      [mkSuggestion "gsutil ls -r gs://bucket/path/"
        "List objects first" PREVIEW_FIRST;
       mkSuggestion "gsutil versioning set on gs://bucket"
        "Enable versioning for recovery" SAFER_ALTERNATIVE];
  mkPattern "gcp-gsutil-rb"
      "gsutil\b.*?\brb(?=\s|$)"
      "gsutil rb removes the entire GCS bucket"
      CRITICAL
      "Bucket name becomes available to others. Bucket must be empty."
      [mkSuggestion "gsutil ls gs://{bucket}"
        "List bucket contents first" PREVIEW_FIRST;
       mkSuggestion "gsutil versioning get gs://{bucket}"
        "Check versioning status first" PREVIEW_FIRST];
  mkPattern "gcp-gke-delete"
      "gcloud\b.*?\bcontainer\s+clusters\s+delete"
      "gcloud container clusters delete removes entire GKE cluster"
      CRITICAL
      "All nodes and workloads terminated. Persistent volumes may be deleted."
      [mkSuggestion "gcloud container clusters list"
        "List clusters first" PREVIEW_FIRST;
       mkSuggestion "kubectl get all --all-namespaces"
        "Check workloads before deleting cluster" PREVIEW_FIRST];
  mkPattern "gcp-project-delete"
      "gcloud\b.*?\bprojects\s+delete"
      "gcloud projects delete removes the ENTIRE GCP project and ALL resources"
      CRITICAL
      "ALL resources deleted: VMs, databases, storage, functions, IAM. 30-day recovery window, then permanent."
      [mkSuggestion "gcloud projects list"
        "List projects first" PREVIEW_FIRST;
       mkSuggestion "gcloud services list --project {name}"
        "List enabled APIs before deletion" PREVIEW_FIRST];
  mkPattern "gcp-functions-delete"
      "gcloud\b.*?\bfunctions\s+delete"
      "gcloud functions delete removes Cloud Function"
      HIGH
      "Function code, configuration, triggers, and event subscriptions removed."
      [mkSuggestion "gcloud functions list"
        "List functions first" PREVIEW_FIRST;
       mkSuggestion "gcloud functions describe {name}"
        "Check function details first" PREVIEW_FIRST];
  mkPattern "gcp-firestore-delete"
      "gcloud\b.*?\bfirestore\s+.*delete"
      "gcloud firestore delete removes Firestore documents and collections"
      CRITICAL
      "Documents and collections deleted. No automatic backups by default."
      [mkSuggestion "gcloud firestore indexes list"
        "List indexes first" PREVIEW_FIRST;
       mkSuggestion "gcloud firestore export gs://{bucket}"
        "Export Firestore data before deletion" PREVIEW_FIRST];
  mkPattern "gcp-secrets-delete"
      "gcloud\b.*?\bsecrets\s+delete"
      "gcloud secrets delete destroys a Secret Manager secret"
      CRITICAL
      "Secret and ALL versions permanently deleted. No recovery window."
      [mkSuggestion "gcloud secrets list"
        "List secrets first" PREVIEW_FIRST;
       mkSuggestion "gcloud secrets versions list {name}"
        "Check versions before deletion" PREVIEW_FIRST];
  mkPattern "gcp-kms-keys-destroy"
      "gcloud\b.*?\bkms\s+keys\s+versions\s+destroy"
      "gcloud kms keys versions destroy schedules key version destruction"
      CRITICAL
      "Data encrypted under this key version becomes unrecoverable."
      [mkSuggestion "gcloud kms keys list --keyring {ring} --location {loc}"
        "List keys first" PREVIEW_FIRST;
       mkSuggestion "gcloud kms keys versions list --key {key}"
        "Check key versions before destruction" PREVIEW_FIRST];
  mkPattern "gcp-iam-service-accounts-delete"
      "gcloud\b.*?\biam\s+service-accounts\s+delete"
      "gcloud iam service-accounts delete removes a service account"
      CRITICAL
      "Workloads using this SA lose access. Can undelete within 30 days."
      [mkSuggestion "gcloud iam service-accounts list"
        "List service accounts first" PREVIEW_FIRST;
       mkSuggestion "gcloud iam service-accounts get-iam-policy {sa}"
        "Check IAM bindings first" PREVIEW_FIRST];
  mkPattern "gcp-dns-managed-zones-delete"
      "gcloud\b.*?\bdns\s+managed-zones\s+delete"
      "gcloud dns managed-zones delete removes DNS zone — domains stop resolving"
      CRITICAL
      "All record sets deleted. Production traffic can go dark."
      [mkSuggestion "gcloud dns managed-zones list"
        "List zones first" PREVIEW_FIRST;
       mkSuggestion "gcloud dns record-sets list --zone={zone}"
        "Export record sets first" PREVIEW_FIRST];
  mkPattern "gcp-spanner-instances-delete"
      "gcloud\b.*?\bspanner\s+instances\s+delete"
      "gcloud spanner instances delete destroys Spanner instance and all data"
      CRITICAL
      "All databases inside instance deleted. Unrecoverable without export."
      [mkSuggestion "gcloud spanner instances list"
        "List instances first" PREVIEW_FIRST;
       mkSuggestion "gcloud spanner databases list --instance={name}"
        "List databases before deletion" PREVIEW_FIRST];
  mkPattern "gcp-bigtable-instances-delete"
      "gcloud\b.*?\bbigtable\s+instances\s+delete"
      "gcloud bigtable instances delete destroys Bigtable instance and all data"
      CRITICAL
      "All tables, clusters, and data permanently deleted."
      [mkSuggestion "gcloud bigtable instances list"
        "List instances first" PREVIEW_FIRST;
       mkSuggestion "gcloud bigtable instances describe {name}"
        "Check instance details first" PREVIEW_FIRST];
  mkPattern "gcp-bq-rm-recursive"
      "\bbq\b.*?\brm\s+.*-r\b|\bbq\b.*?\brm\s+.*-f\b"
      "bq rm -r/-f removes BigQuery datasets, tables — data lost"
      CRITICAL
      "bq rm -r removes dataset + ALL tables/views/models inside. bq rm -f removes table without confirmation."
      [mkSuggestion "bq ls {project}:{dataset}"
        "List dataset contents first" PREVIEW_FIRST;
       mkSuggestion "bq show {project}:{dataset}.{table}"
        "Check table metadata before removal" PREVIEW_FIRST];
  mkPattern "az-vm-delete"
      "az\b.*?\bvm\s+delete"
      "az vm delete permanently destroys virtual machines"
      CRITICAL
      "VM deallocated and deleted. OS disk deleted unless --os-disk=detach."
      [mkSuggestion "az vm list"
        "List VMs first" PREVIEW_FIRST;
       mkSuggestion "az vm deallocate --name {name} --resource-group {rg}"
        "Deallocate instead of delete" SAFER_ALTERNATIVE];
  mkPattern "az-storage-delete"
      "az\b.*?\bstorage\s+account\s+delete"
      "az storage account delete destroys storage account and ALL data"
      CRITICAL
      "ALL blobs, files, queues, tables deleted. Unrecoverable."
      [mkSuggestion "az storage account list"
        "List storage accounts first" PREVIEW_FIRST;
       mkSuggestion "az storage container list --account-name {name}"
        "Check containers before deletion" PREVIEW_FIRST];
  mkPattern "az-blob-delete"
      "az\b.*?\bstorage\s+(?:blob|container)\s+delete"
      "az storage blob/container delete permanently removes data"
      HIGH
      "Blob delete removes individual blobs. Container delete removes ALL blobs."
      [mkSuggestion "az storage blob list --container-name {container}"
        "List blobs first" PREVIEW_FIRST;
       mkSuggestion "az storage container list"
        "List containers before deletion" PREVIEW_FIRST];
  mkPattern "az-sql-delete"
      "az\b.*?\bsql\s+(?:server|db)\s+delete"
      "az sql server/db delete permanently destroys the database"
      CRITICAL
      "Server delete removes ALL databases. Database delete removes specific DB."
      [mkSuggestion "az sql server list"
        "List servers first" PREVIEW_FIRST;
       mkSuggestion "az sql db list --server {server} --resource-group {rg}"
        "List databases first" PREVIEW_FIRST];
  mkPattern "az-group-delete"
      "az\b.*?\bgroup\s+delete"
      "az group delete removes entire resource group and ALL resources within it"
      CRITICAL
      "ALL resources in the group deleted: VMs, storage, databases, networks."
      [mkSuggestion "az resource list --resource-group {rg}"
        "List all resources in group first" PREVIEW_FIRST;
       mkSuggestion "az group export --name {rg}"
        "Export resource group ARM template first" PREVIEW_FIRST];
  mkPattern "az-aks-delete"
      "az\b.*?\baks\s+delete"
      "az aks delete removes entire AKS Kubernetes cluster"
      CRITICAL
      "All nodes, workloads, load balancers terminated. Node resource group deleted."
      [mkSuggestion "az aks list"
        "List clusters first" PREVIEW_FIRST;
       mkSuggestion "kubectl get all --all-namespaces"
        "Check workloads before deleting cluster" PREVIEW_FIRST];
  mkPattern "az-webapp-delete"
      "az\b.*?\bwebapp\s+delete"
      "az webapp delete removes App Service"
      HIGH
      "Application code, configuration, custom domains, and SSL certificates removed."
      [mkSuggestion "az webapp list"
        "List webapps first" PREVIEW_FIRST;
       mkSuggestion "az webapp config backup list --webapp-name {name}"
        "Check backups first" PREVIEW_FIRST];
  mkPattern "az-cosmosdb-delete"
      "az\b.*?\bcosmosdb\s+(?:delete|database\s+delete|collection\s+delete)"
      "az cosmosdb delete destroys Cosmos DB resources and data"
      CRITICAL
      "Account delete removes entire Cosmos DB. Database/collection delete removes data."
      [mkSuggestion "az cosmosdb list"
        "List accounts first" PREVIEW_FIRST;
       mkSuggestion "az cosmosdb sql database list --account-name {name}"
        "List databases first" PREVIEW_FIRST];
  mkPattern "az-keyvault-delete"
      "az\b.*?\bkeyvault\s+delete"
      "az keyvault delete removes Key Vault — secrets may be unrecoverable"
      CRITICAL
      "All secrets, keys, certificates deleted. Soft delete allows recovery if enabled."
      [mkSuggestion "az keyvault list"
        "List vaults first" PREVIEW_FIRST;
       mkSuggestion "az keyvault secret list --vault-name {name}"
        "List secrets before deletion" PREVIEW_FIRST];
  mkPattern "az-acr-delete"
      "az\b.*?\bacr\s+delete"
      "az acr delete removes container registry and ALL images"
      CRITICAL
      "ALL repositories and images deleted. Registry name becomes available."
      [mkSuggestion "az acr list"
        "List registries first" PREVIEW_FIRST;
       mkSuggestion "az acr repository list --name {name}"
        "List repositories first" PREVIEW_FIRST];
  mkPattern "az-acr-repository-delete"
      "az\b.*?\bacr\s+repository\s+delete"
      "az acr repository delete permanently deletes repository and its images"
      HIGH
      "All tags and images in the repository deleted. New pulls will fail."
      [mkSuggestion "az acr repository show-tags --name {name} --repository {repo}"
        "List tags before deletion" PREVIEW_FIRST;
       mkSuggestion "az acr repository show-manifests --name {name} --repository {repo}"
        "List manifests first" PREVIEW_FIRST];
  mkPattern "az-keyvault-item-delete-or-purge"
      "az\b.*?\bkeyvault\s+(?:key|secret|certificate|storage)\s+(?:delete|purge)"
      "Key Vault item delete/purge — purge bypasses soft-delete and is irreversible"
      CRITICAL
      "Purge is PERMANENT. Applications/services bound to the item fail immediately."
      [mkSuggestion "az keyvault key/secret/certificate list --vault-name {name}"
        "List items before deletion" PREVIEW_FIRST;
       mkSuggestion "az keyvault {secret} show --vault-name {name}"
        "Check item details first" PREVIEW_FIRST];
  mkPattern "az-ad-sp-delete"
      "az\b.*?\bad\s+sp\s+delete"
      "az ad sp delete removes service principal — workloads using it lose auth"
      CRITICAL
      "All workloads authenticating via this SP lose access. Can restore within 30 days via Graph API."
      [mkSuggestion "az ad sp list"
        "List service principals first" PREVIEW_FIRST;
       mkSuggestion "az ad sp show --id {id}"
        "Check SP details before deletion" PREVIEW_FIRST];
  mkPattern "az-ad-app-delete"
      "az\b.*?\bad\s+app\s+delete"
      "az ad app delete removes Azure AD app registration — all SPs break"
      CRITICAL
      "All service principals derived from this app stop working. OAuth grants invalidated."
      [mkSuggestion "az ad app list"
        "List app registrations first" PREVIEW_FIRST;
       mkSuggestion "az ad app show --id {id}"
        "Check app details first" PREVIEW_FIRST];
  mkPattern "az-network-dns-zone-delete"
      "az\b.*?\bnetwork\s+dns\s+zone\s+delete"
      "az network dns zone delete removes DNS zone — domains stop resolving"
      CRITICAL
      "All record sets deleted. Production traffic goes dark."
      [mkSuggestion "az network dns zone list"
        "List zones first" PREVIEW_FIRST;
       mkSuggestion "az network dns record-set list --zone-name {zone}"
        "Export record sets first" PREVIEW_FIRST];
  mkPattern "terraform-destroy-bare"
      "terraform\b(?!\s+plan\b)[\s\S]*?\bdestroy\b(?!\s*-h)"
      "terraform destroy tears down all resources managed by the current state/workspace"
      CRITICAL
      "Without -target, every resource tracked in the Terraform state is destroyed."
      [mkSuggestion "terraform plan -destroy"
        "Preview what would be destroyed first" PREVIEW_FIRST;
       mkSuggestion "terraform destroy -target={resource}"
        "Scope destruction to a specific resource" SAFER_ALTERNATIVE];
  mkPattern "terraform-apply-auto-approve"
      "terraform\b.*?\bapply\b.*?(?:-auto-approve|--auto-approve)"
      "terraform apply -auto-approve applies infrastructure changes without a review step"
      HIGH
      "Skips the interactive plan confirmation — any destructive change in the plan runs unreviewed."
      [mkSuggestion "terraform plan"
        "Review the plan before applying" PREVIEW_FIRST]
].

Definition build_cloud_pack : Pack :=
  mkPack "cloud" "Cloud CLI patterns"
    (CLOUD_PATTERNS)
    ["aws"; "gcloud"; "az"; "gsutil"; "bq"; "terraform"].

(** ** The kubernetes pack (app/packs/kubernetes.py) *)

Definition KUBERNETES_PATTERNS : list DestructivePattern := [
  mkPattern "kubectl-delete-namespace"
      "kubectl\b.*?\bdelete\s+(?:namespace|ns)\b"
      "kubectl delete namespace removes the entire namespace and ALL resources within it"
      CRITICAL
      "Deleting a namespace destroys EVERYTHING inside it:

- All deployments, pods, services
- All configmaps and secrets
- All persistent volume claims (data may be lost)
- All ingresses and network policies

This is irreversible."
      [mkSuggestion "kubectl delete ns {ns} --dry-run=client -o yaml"
        "Preview what would be deleted without making changes" PREVIEW_FIRST;
       mkSuggestion "kubectl get all -n {ns}"
        "See all resources in the namespace before deleting" PREVIEW_FIRST;
       mkSuggestion "kubectl delete ns {ns} --grace-period=60"
        "Allow graceful shutdown with 60-second grace period" SAFER_ALTERNATIVE];
  mkPattern "kubectl-delete-all"
      "kubectl\b.*?\bdelete\s+.*--all\b"
      "kubectl delete --all removes ALL resources of that type"
      HIGH
      "The --all flag deletes EVERY resource of the specified type. kubectl delete pods --all kills all pods. kubectl delete pvc --all may delete all persistent data."
      [mkSuggestion "kubectl delete {resource} --all --dry-run=client"
        "Preview what would be deleted without making changes" PREVIEW_FIRST;
       mkSuggestion "kubectl rollout restart deployment/{name}"
        "Restart pods via deployment for graceful recreation" SAFER_ALTERNATIVE;
       mkSuggestion "kubectl delete {resource} {specific-name}"
        "Delete a specific resource instead of all" SAFER_ALTERNATIVE];
  mkPattern "kubectl-delete-all-namespaces"
      "kubectl\b.*?\bdelete\s+.*(?:-A\b|--all-namespaces)"
      "kubectl delete with -A/--all-namespaces affects ALL namespaces — very dangerous"
      CRITICAL
      "The -A/--all-namespaces flag expands deletion to EVERY namespace including system namespaces (kube-system). This can take down your entire cluster."
      [mkSuggestion "kubectl delete {resource} -n {namespace}"
        "Always specify a namespace explicitly" SAFER_ALTERNATIVE;
       mkSuggestion "kubectl get {resource} -A"
        "Preview cluster-wide resources before making changes" PREVIEW_FIRST];
  mkPattern "kubectl-drain-node"
      "kubectl\b.*?\bdrain\b"
      "kubectl drain evicts all pods from a node — can cause service disruption"
      HIGH
      "kubectl drain evicts ALL pods from a node. Use PodDisruptionBudgets to protect critical workloads. DaemonSet pods remain unless --ignore-daemonsets is used."
      [mkSuggestion "kubectl get pods -o wide | grep {node}"
        "Check what's running on the node before draining" PREVIEW_FIRST;
       mkSuggestion "kubectl get pdb -A"
        "Check disruption budgets before eviction" PREVIEW_FIRST;
       mkSuggestion "kubectl cordon {node}"
        "Cordon first: prevent new pods, then drain gradually" PREVIEW_FIRST];
  mkPattern "kubectl-cordon-node"
      "kubectl\b.*?\bcordon\b"
      "kubectl cordon marks a node unschedulable. Existing pods continue running."
      MEDIUM
      "kubectl cordon marks a node as unschedulable. Existing pods continue running but no new pods will be scheduled."
      [mkSuggestion "kubectl uncordon {node}"
        "To reverse: uncordon the node" SAFER_ALTERNATIVE;
       mkSuggestion "kubectl describe node {node} | grep Taints"
        "Check node status and taints" PREVIEW_FIRST];
  mkPattern "kubectl-taint-noexecute"
      "kubectl\b.*?\btaint\s+.*:NoExecute\b"
      "kubectl taint with NoExecute evicts existing pods without toleration"
      HIGH
      "A NoExecute taint immediately evicts pods that don't have a matching toleration. More aggressive than NoSchedule — existing pods are evicted."
      [mkSuggestion "kubectl describe node {node} | grep Taints"
        "Check current taints before modifying" PREVIEW_FIRST;
       mkSuggestion "kubectl taint nodes {node} key=value:NoSchedule"
        "Consider NoSchedule first (only blocks new pods)" PREVIEW_FIRST;
       mkSuggestion "kubectl taint nodes {node} key=value:NoExecute-"
        "Remove a NoExecute taint" SAFER_ALTERNATIVE];
  mkPattern "kubectl-delete-workload"
      "kubectl\b.*?\bdelete\s+(?:deployment|statefulset|daemonset|replicaset)\b"
      "kubectl delete deployment/statefulset/daemonset removes the workload and all pods"
      HIGH
      "Deleting a workload terminates all its pods. Consider scaling down first for controlled shutdown."
      [mkSuggestion "kubectl delete {type} {name} --dry-run=client"
        "Preview without making changes" PREVIEW_FIRST;
       mkSuggestion "kubectl get pods -l app={name}"
        "Check affected pods before deleting" PREVIEW_FIRST;
       mkSuggestion "kubectl scale deployment {name} --replicas=0"
        "Scale to zero first for controlled shutdown" PREVIEW_FIRST];
  mkPattern "kubectl-delete-pvc"
      "kubectl\b.*?\bdelete\s+(?:pvc|persistentvolumeclaim)\b"
      "kubectl delete pvc may permanently delete data (depends on ReclaimPolicy)"
      CRITICAL
      "Deleting a PVC can cause permanent data loss. Check the PV's reclaimPolicy: Delete → data lost, Retain → manual recovery."
      [mkSuggestion "kubectl describe pvc {name}"
        "Check PVC status and usage before deleting" PREVIEW_FIRST;
       mkSuggestion "kubectl get pv $(kubectl get pvc {name} -o jsonpath='{.spec.volumeName}')"
        "Check the reclaim policy of the backing PV" PREVIEW_FIRST;
       mkSuggestion "kubectl delete pvc {name} --dry-run=client"
        "Preview deletion without making changes" PREVIEW_FIRST];
  mkPattern "kubectl-delete-pv"
      "kubectl\b.*?\bdelete\s+(?:pv|persistentvolume)\b"
      "kubectl delete pv may permanently delete the underlying storage"
      CRITICAL
      "Deleting a PersistentVolume can destroy the underlying storage: cloud disks (EBS, GCE PD) may be deleted, NFS mounts orphaned."
      [mkSuggestion "kubectl get pvc -A | grep {pv-name}"
        "Check what PVCs use this PV" PREVIEW_FIRST;
       mkSuggestion "kubectl get storageclass {class} -o yaml"
        "Check storage class reclaim policy" PREVIEW_FIRST;
       mkSuggestion "kubectl delete pv {name} --dry-run=client"
        "Preview without making changes" PREVIEW_FIRST];
  mkPattern "kubectl-scale-to-zero"
      "kubectl\b.*?\bscale\s+.*--replicas=0\b"
      "kubectl scale --replicas=0 stops ALL pods for the workload"
      HIGH
      "Scaling to zero terminates ALL pods. Service becomes unavailable, in-flight requests dropped."
      [mkSuggestion "kubectl get deployment {name} -o jsonpath='{.spec.replicas}'"
        "Check current replica count before scaling" PREVIEW_FIRST;
       mkSuggestion "kubectl scale deployment {name} --replicas={N}"
        "Scale to a non-zero value to restore service" SAFER_ALTERNATIVE];
  mkPattern "kubectl-delete-force"
      "kubectl\b.*?\bdelete\s+.*--force.*--grace-period=0|kubectl\b.*?\bdelete\s+.*--grace-period=0.*--force"
      "kubectl delete --force --grace-period=0 immediately removes resources without graceful shutdown"
      CRITICAL
      "Force deletion with zero grace period kills pods immediately (no SIGTERM). In-flight requests fail, finalizers may be skipped."
      [mkSuggestion "kubectl delete pod {name}"
        "Use default 30-second grace period for graceful shutdown" SAFER_ALTERNATIVE;
       mkSuggestion "kubectl describe pod {name} | grep -A5 Status"
        "Check why pod is stuck before force-deleting" PREVIEW_FIRST];
  mkPattern "kubectl-apply-force"
      "kubectl\b.*?\bapply\s+.*--force\b"
      "kubectl apply --force deletes and recreates resources, causing downtime"
      HIGH
      "kubectl apply --force deletes the resource and recreates it. Causes downtime and potential data loss for stateful workloads."
      [mkSuggestion "kubectl diff -f {file}"
        "Preview what changes would be applied" PREVIEW_FIRST;
       mkSuggestion "kubectl apply --server-side -f {file}"
        "Use server-side apply for safer updates" SAFER_ALTERNATIVE];
  mkPattern "kubectl-delete-from-stdin"
      (("kubectl\b.*?\bdelete\b.*?(?:-f(?:=|\s+)?|--filename(?:=|\s+))[" +s+ sc dq +s+ "']?(?:[^," +s+ sc dq +s+ "'\s]+,)*-(?:,[^," +s+ sc dq +s+ "'\s]+)*[" +s+ sc dq +s+ "']?(?=\s|$)"))
      "kubectl delete -f - deletes resources piped from stdin without a reviewable manifest path"
      HIGH
      "Deleting from stdin means the manifest isn't reviewable. Materialize the manifest first and use --dry-run=client."
      [mkSuggestion "kustomize build {dir} > /tmp/manifest.yaml"
        "Save manifest to a file for review first" PREVIEW_FIRST;
       mkSuggestion "kubectl diff -f /tmp/manifest.yaml"
        "Preview what will change before deleting" PREVIEW_FIRST];
  mkPattern "kubectl-delete-from-directory"
      "kubectl\b.*?\bdelete\s+-f\s+\.\s*$|kubectl\b.*?\bdelete\s+-f\s+\./|kubectl\b.*?\bdelete\s+--recursive\s+-f|kubectl\b.*?\bdelete\s+-f.*--recursive"
      "kubectl delete -f with directories or --recursive deletes many resources at once"
      HIGH
      "Deleting from a directory removes ALL resources defined in those files. Multiple deployments, services, configmaps deleted at once."
      [mkSuggestion "ls -la {dir}/*.yaml"
        "List files in the directory before deleting" PREVIEW_FIRST;
       mkSuggestion "kubectl diff -f {dir}"
        "Preview what would change" PREVIEW_FIRST;
       mkSuggestion "kubectl delete -f {specific-file.yaml}"
        "Delete specific files instead of entire directory" SAFER_ALTERNATIVE];
  mkPattern "helm-uninstall"
      "helm\b.*?\b(?:uninstall|delete)\b"
      "helm uninstall removes the release and ALL its Kubernetes resources"
      CRITICAL
      "helm uninstall deletes all resources created by the chart: deployments, services, configmaps, secrets, PVCs. Use --dry-run first."
      [mkSuggestion "helm uninstall {release} --dry-run"
        "Preview what will be deleted" PREVIEW_FIRST;
       mkSuggestion "helm status {release}"
        "Review current release state before deleting" PREVIEW_FIRST;
       mkSuggestion "helm get manifest {release}"
        "See all resources managed by the release" PREVIEW_FIRST];
  mkPattern "helm-rollback"
      "helm\b.*?\brollback\b"
      "helm rollback reverts to a previous release — can cause unexpected changes"
      HIGH
      "helm rollback reverts to a previous revision. Database migrations are NOT automatically undone. Use --dry-run to preview changes."
      [mkSuggestion "helm rollback {release} {revision} --dry-run"
        "Preview changes before rolling back" PREVIEW_FIRST;
       mkSuggestion "helm history {release}"
        "Review available revisions before rolling back" PREVIEW_FIRST;
       mkSuggestion "helm diff rollback {release} {revision}"
        "Compare changes before rolling back (requires diff plugin)" PREVIEW_FIRST];
  mkPattern "helm-upgrade-force"
      "helm\b.*?\bupgrade\s+.*--force\b"
      "helm upgrade --force deletes and recreates resources, causing downtime"
      HIGH
      "The --force flag causes Helm to delete and recreate resources instead of updating them in place. Pods are terminated and recreated."
      [mkSuggestion "helm upgrade {release} {chart}"
        "Remove --force to use rolling updates" SAFER_ALTERNATIVE;
       mkSuggestion "helm upgrade --dry-run --debug"
        "Preview changes before upgrading" PREVIEW_FIRST;
       mkSuggestion "helm diff upgrade {release} {chart}"
        "Compare before upgrading (requires diff plugin)" PREVIEW_FIRST];
  mkPattern "helm-upgrade-reset-values"
      "helm\b.*?\bupgrade\s+.*--reset-values\b"
      "helm upgrade --reset-values discards all previously set values"
      HIGH
      "The --reset-values flag discards all values from previous releases. Resource limits, replica counts, connection strings may change unexpectedly."
      [mkSuggestion "helm get values {release}"
        "Review current values before upgrading" PREVIEW_FIRST;
       mkSuggestion "helm upgrade --reuse-values"
        "Keep existing values" PREVIEW_FIRST];
  mkPattern "kustomize-build-delete"
      "kustomize\b.*?\bbuild\s+.*\|\s*kubectl\b.*?\bdelete\b"
      "kustomize build | kubectl delete removes ALL resources in the kustomization"
      CRITICAL
      "Piping kustomize build to kubectl delete removes ALL resources. Use --dry-run=client first."
      [mkSuggestion "kustomize build {dir} > /tmp/manifest.yaml"
        "Save and review manifests before deleting" PREVIEW_FIRST;
       mkSuggestion "kustomize build {dir} | kubectl delete --dry-run=client -f -"
        "Preview with dry-run first" PREVIEW_FIRST;
       mkSuggestion "kustomize build {dir} | kubectl diff -f -"
        "Compare with cluster state before deleting" PREVIEW_FIRST];
  mkPattern "kubectl-kustomize-delete"
      "kubectl\b.*?\bkustomize\s+.*\|\s*kubectl\b.*?\bdelete\b"
      "kubectl kustomize | kubectl delete removes ALL resources in the kustomization"
      CRITICAL
      "Piping kubectl kustomize to kubectl delete removes ALL resources. Equivalent to kustomize build | kubectl delete."
      [mkSuggestion "kubectl kustomize {dir}"
        "Review manifests first" PREVIEW_FIRST;
       mkSuggestion "kubectl delete --dry-run=client -k {dir}"
        "Preview deletion with dry-run" PREVIEW_FIRST];
  mkPattern "kubectl-delete-k"
      "kubectl\b.*?\bdelete\s+-k\b"
      "kubectl delete -k removes all resources defined in the kustomization"
      CRITICAL
      "kubectl delete -k removes all resources in a kustomization directory. Use --dry-run=client first to preview."
      [mkSuggestion "kubectl delete -k {dir} --dry-run=client"
        "Preview what will be deleted" PREVIEW_FIRST;
       mkSuggestion "kubectl kustomize {dir}"
        "Review manifests before deleting" PREVIEW_FIRST;
       mkSuggestion "kubectl get -k {dir}"
        "List resources that would be affected" PREVIEW_FIRST]
].

Definition build_kubernetes_pack : Pack :=
  mkPack "kubernetes" "Kubernetes patterns"
    (KUBERNETES_PATTERNS)
    ["kubectl"; "helm"; "kustomize"].

(** ** The docker pack (app/packs/docker.py) *)

Definition DOCKER_PATTERNS : list DestructivePattern := [
  mkPattern "system-prune"
      "docker\b.*?\bsystem\s+prune"
      "docker system prune removes ALL unused containers, networks, images, and build cache"
      HIGH
      "docker system prune is Docker's most aggressive cleanup command."
      [mkSuggestion "docker system df -v"
        "Preview without deleting" PREVIEW_FIRST];
  mkPattern "volume-prune"
      "docker\b.*?\bvolume\s+prune"
      "docker volume prune permanently deletes ALL unused volumes and their data"
      HIGH
      "Deletes all volumes not attached to a running container."
      [mkSuggestion "docker volume ls"
        "List all volumes first" PREVIEW_FIRST];
  mkPattern "network-prune"
      "docker\b.*?\bnetwork\s+prune"
      "docker network prune removes ALL unused networks"
      HIGH
      "Removes all user-defined networks not used by containers."
      [mkSuggestion "docker network ls"
        "List networks before pruning" PREVIEW_FIRST];
  mkPattern "image-prune"
      "docker\b.*?\bimage\s+prune"
      "docker image prune removes unused (dangling) images"
      MEDIUM
      "Removes dangling images. With -a flag, removes ALL unused images."
      [mkSuggestion "docker images -f dangling=true"
        "List dangling images first" PREVIEW_FIRST];
  mkPattern "container-prune"
      "docker\b.*?\bcontainer\s+prune"
      "docker container prune removes ALL stopped containers"
      MEDIUM
      "Container logs and filesystem layers are lost."
      [mkSuggestion "docker ps -a -f status=exited"
        "List stopped containers first" PREVIEW_FIRST];
  mkPattern "rm-force"
      "docker\b.*?\brm\s+.*(?:(?<![\w-])-[a-zA-Z0-9]*f[a-zA-Z0-9]*\b|--force(?!=false)\b)"
      "docker rm -f forcibly removes containers without graceful shutdown"
      HIGH
      "Sends SIGKILL instead of SIGTERM."
      [mkSuggestion "docker stop <c> && docker rm <c>"
        "Graceful shutdown" SAFER_ALTERNATIVE];
  mkPattern "rmi-force"
      "docker\b.*?\brmi\s+.*(?:(?<![\w-])-[a-zA-Z0-9]*f[a-zA-Z0-9]*\b|--force(?!=false)\b)"
      "docker rmi -f forcibly removes images even if in use by containers"
      HIGH
      "Forces image removal, potentially breaking running containers."
      [mkSuggestion "docker rmi <image>"
        "Remove without force" SAFER_ALTERNATIVE];
  mkPattern "volume-rm"
      "docker\b.*?\bvolume\s+rm"
      "docker volume rm permanently deletes volumes and their data"
      HIGH
      "Database files, uploads, and configuration volume data lost forever."
      [mkSuggestion "docker volume inspect <volume>"
        "Inspect volume metadata first" PREVIEW_FIRST];
  mkPattern "stop-all"
      "docker\b.*?\b(?:stop|kill)\s+\$\("
      "Stopping/killing all containers can disrupt running services"
      HIGH
      "Stops/kills ALL running containers via command substitution."
      [mkSuggestion "docker stop <container>"
        "Stop specific containers" SAFER_ALTERNATIVE];
  mkPattern "builder-prune"
      "docker\b.*?\bbuilder\s+prune"
      "docker builder prune removes ALL build cache — rebuilds will be slow"
      MEDIUM
      "Removes the entire build cache layer. All images must be rebuilt from scratch."
      [mkSuggestion "docker builder ls"
        "List builders first" PREVIEW_FIRST];
  mkPattern "network-rm"
      "docker\b.*?\bnetwork\s+rm\b"
      "docker network rm can break connectivity between running containers"
      HIGH
      "Removing a network currently in use by containers will disconnect them."
      [mkSuggestion "docker network inspect <name>"
        "Check which containers use it" PREVIEW_FIRST]
].

Definition COMPOSE_PATTERNS : list DestructivePattern := [
  mkPattern "down-volumes"
      "(?:docker-compose|docker\s+compose)\s+down\s+.*(?:-v\b|--volumes)"
      "docker-compose down -v removes volumes and their data permanently"
      CRITICAL
      "The -v flag removes named volumes declared in Compose."
      [mkSuggestion "docker-compose down"
        "Stops without touching volumes" PREVIEW_FIRST];
  mkPattern "down-rmi-all"
      "(?:docker-compose|docker\s+compose)\s+down\s+.*--rmi\s+all"
      "docker-compose down --rmi all removes all images used by services"
      HIGH
      "All images must be re-pulled after this."
      [mkSuggestion "docker-compose down"
        "Preserves images" SAFER_ALTERNATIVE];
  mkPattern "rm-volumes"
      "(?:docker-compose|docker\s+compose)\s+rm\s+.*(?:-v\b|--volumes)"
      "docker-compose rm -v removes volumes attached to containers"
      HIGH
      "Anonymous volumes attached to containers are lost."
      [mkSuggestion "docker-compose rm"
        "Preserves volumes" SAFER_ALTERNATIVE];
  mkPattern "compose-rm-force"
      "(?:docker-compose|docker\s+compose)\s+rm\s+.*(?:-f\b|--force(?!=false)\b)"
      "docker-compose rm -f forcibly removes containers without confirmation"
      MEDIUM
      "Running containers are stopped abruptly (SIGKILL)."
      [mkSuggestion "docker-compose stop"
        "Graceful shutdown first" PREVIEW_FIRST];
  mkPattern "compose-kill"
      "(?:docker-compose|docker\s+compose)\s+kill\b"
      "docker compose kill sends SIGKILL to all service containers"
      MEDIUM
      "All containers are killed without graceful shutdown."
      [mkSuggestion "docker-compose stop"
        "Graceful stop (SIGTERM) instead" SAFER_ALTERNATIVE]
].

Definition build_docker_pack : Pack :=
  mkPack "docker" "Docker patterns"
    (DOCKER_PATTERNS ++ COMPOSE_PATTERNS)
    ["docker"; "docker-compose"; "compose"].

(** ** The storage pack (app/packs/storage.py) *)

Definition STORAGE_PATTERNS : list DestructivePattern := [
  mkPattern "zfs-destroy"
      "\bzfs\b(?:\s+--?\S+(?:\s+\S+)?)*\s+destroy\b"
      "zfs destroy permanently removes a dataset or snapshot"
      CRITICAL
      "zfs destroy deletes a dataset, volume or snapshot and all its data. With -r it removes all children, with -R also dependent snapshots. Irreversible without a replication target."
      [mkSuggestion "zfs list -t filesystem,volume,snapshot -r {pool}"
        "List datasets and snapshots first" PREVIEW_FIRST;
       mkSuggestion "zfs snapshot {pool}@{ts} && zfs send {pool}@{ts} | gzip > backup.zfs.gz"
        "Snapshot and send to a file before destroying" PREVIEW_FIRST];
  mkPattern "zfs-rollback"
      "\bzfs\b(?:\s+--?\S+(?:\s+\S+)?)*\s+rollback\b(?!.*--dryrun)"
      "zfs rollback discards all changes made since the snapshot"
      HIGH
      "zfs rollback reverts a dataset to a snapshot, discarding all changes made after it. With -r it also destroys intermediate snapshots. Current state is lost."
      [mkSuggestion "zfs list -t snapshot -r {pool}"
        "List snapshots and confirm the target" PREVIEW_FIRST;
       mkSuggestion "zfs snapshot {pool}@pre-rollback"
        "Take a safety snapshot before rollback" PREVIEW_FIRST];
  mkPattern "zpool-destroy"
      "\bzpool\b(?:\s+--?\S+(?:\s+\S+)?)*\s+destroy\b"
      "zpool destroy permanently removes a storage pool"
      CRITICAL
      "zpool destroy deletes an entire pool and ALL datasets, snapshots and data on it. The devices become free. Irreversible."
      [mkSuggestion "zpool status {pool} && zpool list"
        "Review pool health and usage first" PREVIEW_FIRST;
       mkSuggestion "zfs snapshot -r {pool}@backup && zfs send -R {pool}@backup | gzip > pool-backup.zfs.gz"
        "Send the full recursive stream before destroying" PREVIEW_FIRST];
  mkPattern "zpool-remove"
      "\bzpool\b(?:\s+--?\S+(?:\s+\S+)?)*\s+remove\b"
      "zpool remove detaches a vdev from the pool"
      HIGH
      "zpool remove permanently detaches a device from a pool. Data is rewritten to remaining vdevs; removing a vdev can reduce redundancy and can fail or take a long time."
      [mkSuggestion "zpool status {pool}"
        "Check pool status and vdev layout first" PREVIEW_FIRST;
       mkSuggestion "zpool offline {pool} {device} && zpool status {pool}"
        "Offline the device and verify before removal" PREVIEW_FIRST];
  mkPattern "s3-sync-delete"
      "aws(?:\s+--?\S+(?:\s+\S+)?)*\s+s3\s+sync\b(?:\s+[^\n]*)?\s+--delete\b(?![\s\S]*(?:--dryrun|--dry-run)\b)"
      "aws s3 sync --delete removes destination objects not in source"
      HIGH
      "The --delete flag removes files from the destination that don't exist in the source. If source and destination are swapped, or the source is empty, this deletes everything at the destination."
      [mkSuggestion "aws s3 sync {src} {dst} --dryrun"
        "Preview changes before syncing" PREVIEW_FIRST;
       mkSuggestion "aws s3 sync {src} {dst}"
        "Sync without --delete for additive-only updates" SAFER_ALTERNATIVE];
  mkPattern "s3api-delete-objects"
      "aws(?:\s+--?\S+(?:\s+\S+)?)*\s+s3api\s+delete-objects\b"
      "aws s3api delete-objects permanently deletes multiple objects"
      HIGH
      "delete-objects batch-deletes objects from an S3 bucket. For unversioned buckets the data is permanently lost. A typo in the key list can wipe the wrong objects."
      [mkSuggestion "aws s3api list-objects-v2 --bucket {bucket} --query 'Contents[].Key'"
        "Verify object keys before deletion" PREVIEW_FIRST;
       mkSuggestion "aws s3api get-object-attributes --bucket {bucket} --key {key}"
        "Confirm the exact key before deleting" PREVIEW_FIRST];
  mkPattern "gcloud-storage-buckets-delete"
      "gcloud\b(?:\s+--?\S+(?:\s+\S+)?)*(?:\s+(?:alpha|beta)(?:\s+--?\S+(?:\s+\S+)?)*)?\s+storage\s+buckets\s+delete\b"
      "gcloud storage buckets delete removes a GCS bucket"
      CRITICAL
      "Deleting a GCS bucket removes the bucket configuration and all objects within it (with --recursive). The bucket name may not be reclaimable; all dependent applications fail."
      [mkSuggestion "gcloud storage buckets describe {bucket}"
        "Review bucket configuration first" PREVIEW_FIRST;
       mkSuggestion "gcloud storage ls -r gs://{bucket} > objects.txt"
        "Back up the object list before deletion" PREVIEW_FIRST];
  mkPattern "gcloud-storage-objects-delete"
      "gcloud\b(?:\s+--?\S+(?:\s+\S+)?)*(?:\s+(?:alpha|beta)(?:\s+--?\S+(?:\s+\S+)?)*)?\s+storage\s+objects\s+delete\b"
      "gcloud storage objects delete removes objects from GCS"
      HIGH
      "Deleting GCS objects permanently removes data. Without object versioning, deleted files cannot be recovered."
      [mkSuggestion "gcloud storage objects describe {uri}"
        "Verify the object before deletion" PREVIEW_FIRST;
       mkSuggestion "gcloud storage cp {uri} {backup}"
        "Copy the object to a backup location first" PREVIEW_FIRST];
  mkPattern "gcloud-storage-rm"
      "gcloud\b(?:\s+--?\S+(?:\s+\S+)?)*(?:\s+(?:alpha|beta)(?:\s+--?\S+(?:\s+\S+)?)*)?\s+storage\s+rm\b(?![\s\S]*--dryrun\b)"
      "gcloud storage rm removes objects from GCS"
      HIGH
      "The rm command deletes objects and can recursively remove entire bucket trees with -r. Without versioning, data is permanently lost."
      [mkSuggestion "gcloud storage ls -r {uri}"
        "Preview what will be removed" PREVIEW_FIRST;
       mkSuggestion "gcloud storage cp -r {uri} {backup}"
        "Copy objects to a backup location first" PREVIEW_FIRST];
  mkPattern "gsutil-rsync-delete"
      "gsutil\b.*?\brsync\b(?![\s\S]*\s+-n\b)[\s\S]*\s+-d\b"
      "gsutil rsync -d deletes destination objects not in source"
      HIGH
      "The -d flag deletes destination objects that don't exist in the source. If source and destination are swapped, or source is empty, this results in total data loss at the destination."
      [mkSuggestion "gsutil rsync -n -d {src} {dst}"
        "Dry run to preview deletions" PREVIEW_FIRST;
       mkSuggestion "gsutil rsync {src} {dst}"
        "Sync without -d for additive-only updates" SAFER_ALTERNATIVE];
  mkPattern "mc-rb"
      "\bmc\s+(?:--?\S+\s+)*rb\b"
      "mc rb removes a MinIO/S3 bucket"
      CRITICAL
      "mc rb deletes an entire bucket and, with --force --recursive, all objects in it. Data is permanently lost."
      [mkSuggestion "mc ls {alias}/{bucket}"
        "List bucket contents first" PREVIEW_FIRST;
       mkSuggestion "mc mirror {alias}/{bucket} {backup-alias}/{bucket}"
        "Mirror the bucket to a backup location before removal" PREVIEW_FIRST];
  mkPattern "mc-rm"
      "\bmc\s+(?:--?\S+\s+)*rm\b"
      "mc rm deletes objects from MinIO/S3"
      HIGH
      "mc rm permanently deletes objects. With --recursive it removes entire prefixes. Without versioning, data cannot be recovered."
      [mkSuggestion "mc ls --recursive {alias}/{bucket}"
        "Preview objects before deletion" PREVIEW_FIRST;
       mkSuggestion "mc mirror {alias}/{bucket}/obj {backup-alias}/{backup}"
        "Copy objects to a backup location first" PREVIEW_FIRST];
  mkPattern "mc-admin-bucket-delete"
      "\bmc\s+(?:--?\S+\s+)*admin\s+bucket\s+(?:delete|remove)\b"
      "mc admin bucket delete removes a MinIO bucket"
      CRITICAL
      "mc admin bucket delete removes a bucket on the MinIO server. All objects within it are deleted; the operation is irreversible."
      [mkSuggestion "mc ls {alias}/{bucket}"
        "List bucket contents first" PREVIEW_FIRST;
       mkSuggestion "mc mirror {alias}/{bucket} {backup-alias}/{backup}"
        "Mirror the bucket to a backup location before removal" PREVIEW_FIRST];
  mkPattern "mc-mirror-remove"
      "\bmc\s+(?:--?\S+\s+)*mirror\b(?![\s\S]*--dry-run\b)[\s\S]*--remove\b"
      "mc mirror --remove deletes destination objects not in source"
      HIGH
      "mc mirror --remove deletes destination objects that don't exist in the source, making destinations identical to sources. A swap or empty source destroys destination data."
      [mkSuggestion "mc mirror --dry-run --remove {src} {dst}"
        "Preview changes before mirroring" PREVIEW_FIRST;
       mkSuggestion "mc mirror {src} {dst}"
        "Mirror without --remove for additive-only copies" SAFER_ALTERNATIVE];
  mkPattern "mc-admin-user-remove"
      "\bmc\s+(?:--?\S+\s+)*admin\s+user\s+(?:remove|disable)\b"
      "mc admin user remove/disable deletes a MinIO user"
      HIGH
      "Removes or disables a MinIO user. Applications using its credentials stop working immediately; audit trails lose the identity."
      [mkSuggestion "mc admin user info {alias} {user}"
        "Verify the user and their access first" PREVIEW_FIRST;
       mkSuggestion "mc admin user disable {alias} {user}"
        "Disable instead of remove to keep audit history" SAFER_ALTERNATIVE];
  mkPattern "mc-admin-policy-remove"
      "\bmc\s+(?:--?\S+\s+)*admin\s+policy\s+(?:remove|unset)\b"
      "mc admin policy remove/unset deletes a MinIO policy"
      MEDIUM
      "Removes or unsets a MinIO policy. Users depending on it lose their access rights, which can break running applications."
      [mkSuggestion "mc admin policy info {alias} {policy}"
        "Review the policy before removal" PREVIEW_FIRST;
       mkSuggestion "mc admin policy export {alias} {policy} > policy.json"
        "Export the policy before removal" PREVIEW_FIRST];
  mkPattern "az-storage-account-delete"
      "\baz\b(?:\s+--?\S+(?:\s+\S+)?)*\s+storage\s+account\s+delete\b"
      "az storage account delete removes an Azure Storage account"
      CRITICAL
      "Deletes an Azure Storage account with ALL its containers, blobs, tables and queues. Soft-delete may allow recovery within retention, but otherwise the data is gone."
      [mkSuggestion "az storage account show --name {acct} --resource-group {rg}"
        "Review account configuration first" PREVIEW_FIRST;
       mkSuggestion "azcopy sync '{src}' 'https://{backup}.blob.core.windows.net/{container}?{sas}' --recursive"
        "Back up account data before deletion" PREVIEW_FIRST];
  mkPattern "az-storage-container-delete"
      "\baz\b(?:\s+--?\S+(?:\s+\S+)?)*\s+storage\s+container\s+delete\b"
      "az storage container delete removes an Azure blob container"
      CRITICAL
      "Deletes a blob container and all blobs within it. Only recoverable if container soft-delete is enabled for the account."
      [mkSuggestion "az storage blob list --container-name {container} --account-name {acct}"
        "List blobs before deletion" PREVIEW_FIRST;
       mkSuggestion "azcopy sync '{src}' 'https://{acct}.blob.core.windows.net/{container}?{sas}' --recursive"
        "Back up container data before deletion" PREVIEW_FIRST];
  mkPattern "az-storage-blob-delete-batch"
      "\baz\b(?:\s+--?\S+(?:\s+\S+)?)*\s+storage\s+blob\s+delete-batch\b"
      "az storage blob delete-batch deletes multiple blobs"
      HIGH
      "delete-batch removes multiple blobs at once, optionally recursively over a prefix. A wrong prefix deletes far more than intended."
      [mkSuggestion "az storage blob list --container-name {container} --prefix {prefix}"
        "List blobs under the prefix first" PREVIEW_FIRST;
       mkSuggestion "azcopy sync '{src}' 'https://{acct}.blob.core.windows.net/{container}?{sas}' --recursive"
        "Back up blobs before deletion" PREVIEW_FIRST];
  mkPattern "azcopy-remove"
      "\bazcopy\s+(?:--\S+\s+)*remove\b"
      "azcopy remove deletes blobs or files"
      HIGH
      "azcopy remove deletes blobs/files at the target path, recursively with --recursive, and permanently when --delete-snapshots include is used."
      [mkSuggestion "azcopy list '{src}?{sas}'"
        "List objects before removal" PREVIEW_FIRST;
       mkSuggestion "azcopy copy '{src}?{sas}' '{backup}?{sas}' --recursive"
        "Copy to a backup location before removal" PREVIEW_FIRST];
  mkPattern "azcopy-sync-delete"
      "\bazcopy\s+(?:--\S+\s+)*sync\b.*--delete-destination\b"
      "azcopy sync --delete-destination deletes destination objects not in source"
      HIGH
      "azcopy sync with --delete-destination removes destination blobs that don't exist in the source. A wrong source or a full/empty source destroys the destination."
      [mkSuggestion "azcopy sync '{src}?{sas}' '{dst}?{sas}' --delete-destination=false"
        "Sync additively without deleting first" SAFER_ALTERNATIVE;
       mkSuggestion "azcopy sync '{src}?{sas}' '{dst}?{sas}' --delete-destination=prompt"
        "Prompt before each deletion" SAFER_ALTERNATIVE]
].

Definition build_storage_pack : Pack :=
  mkPack "storage" "Storage"
    (STORAGE_PATTERNS)
    ["zfs"; "zpool"; "aws s3"; "s3api"; "gcloud storage"; "gsutil"; "mc "; "az storage"; "azcopy"].
