(* ===== verification/PackNetwork.v ===== *)
(** * Pattern packs for the network: dns, firewall, load balancer and monitoring packs.

    One section of definitions per file of src/app/packs/. *)
From S2P Require Import Prelude PolicyTypes Packs.
From stdpp Require Import options.

(** ** The dns pack (app/packs/dns.py) *)

Definition DNS_PATTERNS : list DestructivePattern := [
  mkPattern "dns-nsupdate-delete"
      "(?:\bnsupdate\b.*\bdelete\b|\bdelete\b.*\|\s*\bnsupdate\b)"
      "nsupdate delete commands remove DNS records"
      HIGH
      "nsupdate delete removes DNS records from the authoritative server via dynamic DNS updates (RFC 2136). Changes take effect immediately and can break services relying on those records."
      [mkSuggestion "nsupdate -v {file} && nsupdate -v {file}"
        "Use -v and verify record state with 'prereq' first" PREVIEW_FIRST;
       mkSuggestion "dig {record} @{server}"
        "Verify current record state before deleting" PREVIEW_FIRST];
  mkPattern "dns-nsupdate-local"
      "\bnsupdate\b.*\s-l\b"
      "nsupdate -l applies local updates which can modify DNS records"
      MEDIUM
      "nsupdate -l uses local (loopback) TSIG authentication, allowing DNS modifications without network credentials. Can accidentally modify production DNS if run on the wrong server."
      [mkSuggestion "nsupdate -k {keyfile} -v {server}"
        "Use explicit server and key options for clarity" SAFER_ALTERNATIVE;
       mkSuggestion "echo 'show' | nsupdate -l"
        "Test changes with 'show' before 'send'" PREVIEW_FIRST];
  mkPattern "dns-dig-zone-transfer"
      "(?i:\bdig\b.*\b(?:axfr|ixfr)\b)"
      "dig AXFR/IXFR zone transfers can exfiltrate full zone data"
      MEDIUM
      "Zone transfers (AXFR/IXFR) download complete DNS zone data, revealing all hostnames, internal IPs, and infrastructure topology. Aids reconnaissance."
      [mkSuggestion "dig {domain} ANY"
        "Query specific records instead of full transfer" SAFER_ALTERNATIVE;
       mkSuggestion "dig {domain} +short A"
        "Use standard queries for specific record types" SAFER_ALTERNATIVE];
  mkPattern "cloudflare-wrangler-dns-delete"
      "wrangler(?:\s+--?\S+(?:\s+\S+)?)*\s+dns-records\s+delete\b"
      "wrangler dns-records delete removes a Cloudflare DNS record"
      HIGH
      "Deleting a DNS record can immediately break connectivity to your website, API, or mail server. Propagation is fast on Cloudflare."
      [mkSuggestion "wrangler dns-records list --zone-id {zone}"
        "Review records first" PREVIEW_FIRST;
       mkSuggestion "wrangler dns-records add --zone-id {zone} --name {name} --type {type} --content {content}"
        "Re-add the record after verification" SAFER_ALTERNATIVE];
  mkPattern "cloudflare-api-delete-dns-record"
      "(?i)\bcurl\b(?=.*(?:-X\s*|--request(?:=|\s+))DELETE\b)(?=.*\bapi\.cloudflare\.com\b[^\s]*?/dns_records/[^\s]+).*"
      "curl -X DELETE against /dns_records/{id} deletes a Cloudflare DNS record"
      HIGH
      "API deletion of a DNS record takes effect immediately across Cloudflare's network. No confirmation prompt when using curl directly."
      [mkSuggestion "curl -X GET https://api.cloudflare.com/client/v4/zones/{zone}/dns_records"
        "Verify the record ID first" PREVIEW_FIRST;
       mkSuggestion "curl -X PUT https://api.cloudflare.com/client/v4/zones/{zone}/dns_records/{id}"
        "Update the record instead of deleting" SAFER_ALTERNATIVE];
  mkPattern "cloudflare-api-delete-zone"
      "(?i)\bcurl\b(?=.*(?:-X\s*|--request(?:=|\s+))DELETE\b)(?=.*\bapi\.cloudflare\.com\b[^\s]*?/zones/[^\s]+).*"
      "curl -X DELETE against /zones/{id} deletes a Cloudflare zone"
      CRITICAL
      "Deleting a zone removes ALL DNS records, page rules, firewall rules, and settings for that domain. Complete outage with no easy recovery."
      [mkSuggestion "curl -X GET https://api.cloudflare.com/client/v4/zones"
        "List zones and export config first" PREVIEW_FIRST;
       mkSuggestion "curl -X DELETE https://api.cloudflare.com/client/v4/zones/{zone}/dns_records/{id}"
        "Delete individual records instead of the whole zone" SAFER_ALTERNATIVE];
  mkPattern "cloudflare-terraform-destroy-record"
      "terraform\b.*?\s+destroy\s+.*-target=(?:resource\.)?cloudflare_record\."
      "terraform destroy -target=cloudflare_record deletes specific DNS records"
      HIGH
      "Terraform destroy removes DNS records from Cloudflare. The deletion is immediate and can break services."
      [mkSuggestion "terraform plan -destroy -target=cloudflare_record.{name}"
        "Preview the deletion first" PREVIEW_FIRST;
       mkSuggestion "terraform state rm cloudflare_record.{name}"
        "Stop managing without deleting" SAFER_ALTERNATIVE];
  mkPattern "route53-change-record-sets-delete"
      "\baws\b.*?\broute53\s+change-resource-record-sets\b.*\bDELETE\b"
      "aws route53 change-resource-record-sets with DELETE removes DNS records"
      HIGH
      "DELETE actions in change-resource-record-sets immediately remove DNS records. Resolvers fail to reach services once caches expire."
      [mkSuggestion "aws route53 list-resource-record-sets --hosted-zone-id {zone}"
        "Verify record state first" PREVIEW_FIRST;
       mkSuggestion ("aws route53 change-resource-record-sets --change-batch '{" +s+ sc dq +s+ "Changes" +s+ sc dq +s+ ":[{" +s+ sc dq +s+ "Action" +s+ sc dq +s+ ":" +s+ sc dq +s+ "UPSERT" +s+ sc dq +s+ ",...}]}'")
        "Use UPSERT to modify instead of delete" SAFER_ALTERNATIVE];
  mkPattern "route53-delete-health-check"
      "\baws\b.*?\broute53\s+delete-health-check\b"
      "aws route53 delete-health-check permanently deletes a Route53 health check"
      HIGH
      "Deleting a health check can disrupt DNS failover. Route53 may route traffic to unhealthy endpoints or stop failover entirely."
      [mkSuggestion "aws route53 get-health-check --health-check-id {id}"
        "Review health check configuration first" PREVIEW_FIRST;
       mkSuggestion "aws route53 list-resource-record-sets --hosted-zone-id {zone} --query 'ResourceRecordSets[?HealthCheckId==`{id}`]'"
        "Check which records use this health check" PREVIEW_FIRST];
  mkPattern "route53-delete-query-logging-config"
      "\baws\b.*?\broute53\s+delete-query-logging-config\b"
      "aws route53 delete-query-logging-config removes query logging"
      MEDIUM
      "Deleting query logging stops DNS query visibility for that hosted zone. Impacts debugging, security monitoring, and compliance auditing."
      [mkSuggestion "aws route53 get-query-logging-config --id {id}"
        "Review logging config before deletion" PREVIEW_FIRST;
       mkSuggestion "aws cloudwatch get-log-group --log-group-name {group}"
        "Ensure CloudWatch log retention is adequate" PREVIEW_FIRST];
  mkPattern "route53-delete-traffic-policy"
      "\baws\b.*?\broute53\s+delete-traffic-policy\b"
      "aws route53 delete-traffic-policy permanently deletes a traffic policy"
      HIGH
      "Deleting a traffic policy removes routing logic. Policy instances will fail to update or may stop working."
      [mkSuggestion "aws route53 list-traffic-policy-instances"
        "Check policy usage first" PREVIEW_FIRST;
       mkSuggestion "aws route53 create-traffic-policy --name {name} --document {doc}"
        "Create a new policy version instead of deleting" SAFER_ALTERNATIVE]
].

Definition build_dns_pack : Pack :=
  mkPack "dns" "DNS"
    (DNS_PATTERNS)
    ["nsupdate"; "dig"; "wrangler"; "cloudflare"; "route53"; "terraform"].

(** ** The firewall pack (app/packs/firewall.py) *)

Definition FIREWALL_PATTERNS : list DestructivePattern := [
  mkPattern "iptables-flush"
      "\biptables\b.*(?:\s-F\b|\s+--flush\b)"
      "iptables --flush removes all firewall rules"
      CRITICAL
      "Flushes all iptables rules. Network access will be lost immediately."
      [mkSuggestion "iptables -L -n -v"
        "List current rules before flushing" PREVIEW_FIRST;
       mkSuggestion "iptables-save > /tmp/rules.backup"
        "Backup rules first" PREVIEW_FIRST];
  mkPattern "iptables-policy-drop"
      "\biptables\b.*\s-P\s+(?:INPUT|FORWARD|OUTPUT)\s+DROP\b"
      "Setting default policy to DROP disconnects all traffic"
      CRITICAL
      "Changes the default policy to DROP. SSH session will be terminated."
      [mkSuggestion "iptables -L -n"
        "Check current policy first" PREVIEW_FIRST;
       mkSuggestion "at now +5 minutes <<< 'iptables -P INPUT ACCEPT'"
        "Schedule automatic rollback" SAFER_ALTERNATIVE];
  mkPattern "iptables-delete-chains"
      "\biptables\b.*\s-X\b"
      "Deleting custom iptables chains removes security rules"
      HIGH
      "Removes all user-defined chains. Security rules and jump rules are lost."
      [mkSuggestion "iptables-save > /tmp/rules.backup"
        "Backup rules first" PREVIEW_FIRST;
       mkSuggestion "iptables -L -n"
        "List all rules before deleting chains" PREVIEW_FIRST];
  mkPattern "iptables-restore"
      "\biptables-restore\b"
      "iptables-restore replaces the entire ruleset at once"
      HIGH
      "Replaces all iptables rules. A malformed ruleset disconnects the server."
      [mkSuggestion "iptables-save > /tmp/rules.backup"
        "Backup current rules first" PREVIEW_FIRST;
       mkSuggestion "iptables-restore --test < {file}"
        "Test ruleset before applying" PREVIEW_FIRST];
  mkPattern "ip6tables-flush"
      "\bip6tables\b.*(?:\s-F\b|\s+--flush\b)"
      "ip6tables --flush removes all IPv6 firewall rules"
      CRITICAL
      "Flushes all ip6tables rules. IPv6 network access will be lost."
      [mkSuggestion "ip6tables -L -n -v"
        "List IPv6 rules first" PREVIEW_FIRST;
       mkSuggestion "ip6tables-save > /tmp/rules6.backup"
        "Backup IPv6 rules first" PREVIEW_FIRST];
  mkPattern "iptables-insert-reject"
      "\biptables\b.*\s-[IA]\s+\S+(?:\s+\d+)?\s+-j\s+(?:DROP|REJECT)\b"
      "Inserting a DROP/REJECT rule locks out matching traffic"
      HIGH
      "A DROP/REJECT rule at the top of INPUT chain blocks SSH if rule matches."
      [mkSuggestion "iptables -L INPUT -n -v"
        "Check INPUT chain first" PREVIEW_FIRST;
       mkSuggestion "iptables --check INPUT -s {ip} -j DROP"
        "Test if a similar rule already exists" SAFER_ALTERNATIVE];
  mkPattern "ufw-disable"
      "\bufw\b.*\bdisable\b"
      "Disabling ufw removes all firewall protection"
      CRITICAL
      "ufw is disabled. No firewall rules are enforced."
      [mkSuggestion "ufw status verbose"
        "Check current ufw status first" PREVIEW_FIRST;
       mkSuggestion "ufw reload"
        "Reload instead of disable" SAFER_ALTERNATIVE];
  mkPattern "ufw-reset"
      "\bufw\b.*\breset\b"
      "Resetting ufw deletes all custom rules"
      HIGH
      "All ufw rules are deleted and firewall is disabled."
      [mkSuggestion "ufw status numbered"
        "List rules with numbers before reset" PREVIEW_FIRST;
       mkSuggestion "ufw delete {num}"
        "Delete individual rules instead of full reset" SAFER_ALTERNATIVE];
  mkPattern "ufw-default-deny"
      "\bufw\b.*\bdefault\s+deny\b"
      "Setting ufw default to deny blocks all incoming traffic"
      HIGH
      "Changes the default ufw policy to deny. SSH access may be lost."
      [mkSuggestion "ufw status verbose"
        "Check current default policy first" PREVIEW_FIRST;
       mkSuggestion "ufw default deny incoming"
        "Only deny incoming, keep outgoing allowed" SAFER_ALTERNATIVE];
  mkPattern "ufw-delete"
      "\bufw\b.*\bdelete\b"
      "Deleting ufw rules may remove SSH access rules"
      MEDIUM
      "Deletes a ufw rule. Removing the wrong rule may lock out SSH."
      [mkSuggestion "ufw status numbered"
        "List rules with numbers first" PREVIEW_FIRST;
       mkSuggestion "ufw show added"
        "Show ufw user-defined rules" PREVIEW_FIRST];
  mkPattern "nft-flush-ruleset"
      "\bnft\s+flush\s+ruleset\b"
      "nft flush ruleset removes all nftables rules"
      CRITICAL
      "Flushes the entire nftables ruleset. All firewall rules are removed at once."
      [mkSuggestion "nft list ruleset"
        "List current ruleset before flushing" PREVIEW_FIRST;
       mkSuggestion "nft list ruleset > /tmp/nftables.backup"
        "Backup ruleset first" PREVIEW_FIRST];
  mkPattern "nft-delete-table"
      "\bnft\s+delete\s+table\b"
      "Deleting an nftables table removes all chains and rules"
      HIGH
      "Deletes an entire nftables table. All chains, rules, and sets are removed."
      [mkSuggestion "nft list table {table}"
        "List table rules before deleting" PREVIEW_FIRST;
       mkSuggestion "nft list ruleset | grep -A5 'table {table}'"
        "Inspect table contents" PREVIEW_FIRST];
  mkPattern "nft-load-stdin"
      "\bnft\b\s+-[fF]\s+(?:/dev/stdin|-)(?:\s|$)"
      "Loading nftables rules from stdin can inject destructive rules"
      HIGH
      "Loading rules from stdin or a pipe is risky. A malformed ruleset disconnects the server."
      [mkSuggestion "nft -c -f {file}"
        "Check syntax before loading" PREVIEW_FIRST;
       mkSuggestion "nft list ruleset > /tmp/backup.nft"
        "Backup current ruleset first" PREVIEW_FIRST]
].

Definition build_firewall_pack : Pack :=
  mkPack "firewall" "Firewall patterns"
    (FIREWALL_PATTERNS)
    ["iptables"; "ip6tables"; "ufw"; "nft"].

(** ** The loadbalancer pack (app/packs/loadbalancer.py) *)

Definition LOADBALANCER_PATTERNS : list DestructivePattern := [
  mkPattern "nginx-stop"
      "nginx\s+-s\s+stop\b"
      "nginx -s stop shuts down nginx and stops the load balancer."
      HIGH
      "Sending the stop signal terminates nginx immediately. All in-flight requests are dropped."
      [mkSuggestion "nginx -s quit"
        "Graceful shutdown instead of immediate stop" SAFER_ALTERNATIVE;
       mkSuggestion "systemctl status nginx"
        "Check status first" PREVIEW_FIRST];
  mkPattern "nginx-quit"
      "nginx\s+-s\s+quit\b"
      "nginx -s quit gracefully stops nginx and halts traffic handling."
      HIGH
      "The quit signal stops accepting new connections. No new traffic is routed."
      [mkSuggestion "systemctl status nginx"
        "Check status first" PREVIEW_FIRST;
       mkSuggestion "nginx -t"
        "Test configuration before restart" PREVIEW_FIRST];
  mkPattern "systemctl-stop-nginx"
      "systemctl\b.*?\s+stop\s+nginx(?:\.service)?\b"
      "systemctl stop nginx stops the nginx service and disrupts traffic."
      HIGH
      "Stopping nginx via systemctl shuts down all worker processes."
      [mkSuggestion "nginx -s reload"
        "Reload configuration without stopping" SAFER_ALTERNATIVE;
       mkSuggestion "systemctl restart nginx"
        "Restart instead of stop" SAFER_ALTERNATIVE];
  mkPattern "service-stop-nginx"
      "service\s+nginx\s+stop\b"
      "service nginx stop stops the nginx service and disrupts traffic."
      HIGH
      "Stopping nginx via the service command terminates all worker processes."
      [mkSuggestion "nginx -s reload"
        "Reload configuration without stopping" SAFER_ALTERNATIVE;
       mkSuggestion "service nginx restart"
        "Restart instead of stop" SAFER_ALTERNATIVE];
  mkPattern "nginx-config-delete"
      (("\brm\b.*\s+['\" +s+ sc dq +s+ "]?/etc/nginx(?:/|\b)"))
      "Removing files from /etc/nginx deletes nginx configuration."
      CRITICAL
      "Deleting nginx config removes site definitions, upstream blocks, and SSL references."
      [mkSuggestion "cp /etc/nginx /tmp/nginx.backup"
        "Backup config before deleting" PREVIEW_FIRST;
       mkSuggestion "ls -la /etc/nginx/"
        "List config files before deletion" PREVIEW_FIRST];
  mkPattern "haproxy-soft-stop"
      "\bhaproxy\s+.*-sf\b"
      "haproxy -sf sends a soft stop signal to the load balancer."
      HIGH
      "Soft-stop gracefully finishes current connections before shutting down."
      [mkSuggestion "systemctl status haproxy"
        "Check status first" PREVIEW_FIRST;
       mkSuggestion "haproxy -c -f {cfg}"
        "Validate config before restart" PREVIEW_FIRST];
  mkPattern "haproxy-hard-stop"
      "\bhaproxy\s+.*-st\b"
      "haproxy -st sends a hard stop signal, immediately terminating the load balancer."
      HIGH
      "Hard-stop kills HAProxy immediately. Active connections are dropped."
      [mkSuggestion "haproxy -sf {pid}"
        "Use soft-stop instead of hard stop" SAFER_ALTERNATIVE;
       mkSuggestion "systemctl restart haproxy"
        "Restart instead of hard stop" SAFER_ALTERNATIVE];
  mkPattern "haproxy-systemctl-stop"
      "systemctl\b.*?\s+stop\s+haproxy(?:\.service)?\b"
      "systemctl stop haproxy stops the HAProxy service."
      HIGH
      "Stopping HAProxy via systemctl terminates all proxy processes."
      [mkSuggestion "systemctl reload haproxy"
        "Reload config without stopping" SAFER_ALTERNATIVE;
       mkSuggestion "haproxy -c -f {cfg}"
        "Validate config before restart" PREVIEW_FIRST];
  mkPattern "haproxy-service-stop"
      "service\s+haproxy\s+stop\b"
      "service haproxy stop stops the HAProxy service."
      HIGH
      "Stopping HAProxy via service command terminates all proxy processes."
      [mkSuggestion "service haproxy restart"
        "Restart instead of stop" SAFER_ALTERNATIVE;
       mkSuggestion "service haproxy status"
        "Check status first" PREVIEW_FIRST];
  mkPattern "haproxy-socat-disable-server"
      (("(?:echo|printf)\s+['\" +s+ sc dq +s+ "]?disable\s+server\b.*\|\s*socat\b"))
      "Disabling a server via HAProxy runtime API removes it from the pool."
      HIGH
      "Disabling a server via socat removes it from the load balancer pool immediately."
      [mkSuggestion "socat /var/run/haproxy.sock 'show stat'"
        "Check server status first" PREVIEW_FIRST;
       mkSuggestion "socat /var/run/haproxy.sock 'set server {backend}/{server} weight 0'"
        "Drain connections before disabling" PREVIEW_FIRST];
  mkPattern "haproxy-socat-shutdown-sessions"
      (("(?:echo|printf)\s+['\" +s+ sc dq +s+ "]?shutdown\s+sessions\b.*\|\s*socat\b"))
      "Shutting down sessions via HAProxy runtime API terminates active connections."
      HIGH
      "Shutting down sessions terminates all active connections to the backend."
      [mkSuggestion "socat /var/run/haproxy.sock 'show sess'"
        "List active sessions first" PREVIEW_FIRST;
       mkSuggestion "socat /var/run/haproxy.sock 'set server {backend}/{server} weight 0'"
        "Drain traffic gradually" SAFER_ALTERNATIVE];
  mkPattern "haproxy-socat-disable-frontend"
      (("(?:echo|printf)\s+['\" +s+ sc dq +s+ "]?disable\s+frontend\b.*\|\s*socat\b"))
      "Disabling a frontend via HAProxy runtime API stops accepting new connections."
      HIGH
      "Disabling a frontend immediately stops accepting new connections."
      [mkSuggestion "socat /var/run/haproxy.sock 'show stat'"
        "Check frontend stats first" PREVIEW_FIRST;
       mkSuggestion "socat /var/run/haproxy.sock 'set frontend {frtnd} maxconn 0'"
        "Limit connections instead of disabling" SAFER_ALTERNATIVE];
  mkPattern "haproxy-socat-shutdown-frontend"
      (("(?:echo|printf)\s+['\" +s+ sc dq +s+ "]?shutdown\s+frontend\b.*\|\s*socat\b"))
      "Shutting down a frontend via HAProxy runtime API terminates it immediately."
      HIGH
      "Shutting down a frontend terminates the frontend and all its connections."
      [mkSuggestion "socat /var/run/haproxy.sock 'show frontend {frtnd}'"
        "Check frontend state first" PREVIEW_FIRST;
       mkSuggestion "socat /var/run/haproxy.sock 'disable frontend {frtnd}'"
        "Disable instead of full shutdown" SAFER_ALTERNATIVE];
  mkPattern "haproxy-config-delete"
      (("\brm\b.*\s+['\" +s+ sc dq +s+ "]?/etc/haproxy(?:/|\b)"))
      "Removing files from /etc/haproxy deletes HAProxy configuration."
      HIGH
      "Deleting HAProxy config removes backend definitions and frontend configurations."
      [mkSuggestion "cp -r /etc/haproxy /tmp/haproxy.backup"
        "Backup config first" PREVIEW_FIRST;
       mkSuggestion "ls -la /etc/haproxy/"
        "List config files before deleting" PREVIEW_FIRST];
  mkPattern "traefik-docker-stop"
      "docker\b.*?\s+(?:stop|kill)\s+.*\btraefik\b"
      "Stopping the Traefik container halts all traffic routing."
      CRITICAL
      "Stopping or killing the Traefik container immediately halts all traffic routing."
      [mkSuggestion "docker ps -f name=traefik"
        "Check container status first" PREVIEW_FIRST;
       mkSuggestion "docker restart {container}"
        "Restart instead of stop" SAFER_ALTERNATIVE];
  mkPattern "traefik-docker-rm"
      "docker\b.*?\s+rm\s+.*\btraefik\b"
      "Removing the Traefik container destroys the load balancer."
      CRITICAL
      "Removing the Traefik container deletes it entirely, including runtime state."
      [mkSuggestion "docker stop {container}"
        "Stop without removing" SAFER_ALTERNATIVE;
       mkSuggestion "docker commit {container} traefik-backup"
        "Backup container state first" PREVIEW_FIRST];
  mkPattern "traefik-compose-down"
      "docker[\s-]compose\s+.*\bdown\b.*\btraefik\b"
      "docker-compose down on Traefik stops and removes the load balancer."
      CRITICAL
      "docker-compose down stops and removes Traefik containers and networks."
      [mkSuggestion "docker-compose stop traefik"
        "Stop service without removing" SAFER_ALTERNATIVE;
       mkSuggestion "docker-compose ps"
        "Check service status first" PREVIEW_FIRST];
  mkPattern "traefik-kubectl-delete-pod"
      "kubectl\b.*?\s+delete\s+(?:pod|deployment|daemonset)\s+.*\btraefik\b"
      "Deleting Traefik pods/deployments disrupts traffic routing."
      CRITICAL
      "Deleting Traefik pods or deployments removes the load balancer from the cluster."
      [mkSuggestion "kubectl get pods -l app.kubernetes.io/name=traefik"
        "List traefik pods first" PREVIEW_FIRST;
       mkSuggestion "kubectl rollout restart deployment/traefik"
        "Restart instead of delete" SAFER_ALTERNATIVE];
  mkPattern "traefik-kubectl-delete-ingressroute"
      "kubectl\b.*?\s+delete\s+ingressroute\b"
      "Deleting IngressRoute CRDs removes Traefik routing rules."
      HIGH
      "Deleting IngressRoute CRDs removes routing rules, making services unreachable."
      [mkSuggestion "kubectl get ingressroute -A"
        "List all ingress routes first" PREVIEW_FIRST;
       mkSuggestion "kubectl describe ingressroute {name}"
        "Describe route before deleting" PREVIEW_FIRST];
  mkPattern "traefik-config-delete"
      "\brm\b.*\btraefik\b.*\.(?:ya?ml|toml)\b"
      "Removing Traefik config files disrupts load balancer configuration."
      CRITICAL
      "Deleting Traefik config removes entrypoints, middleware, and provider settings."
      [mkSuggestion "cp {config} {config}.backup"
        "Backup config file first" PREVIEW_FIRST;
       mkSuggestion "ls -la /etc/traefik/"
        "List config files before deleting" PREVIEW_FIRST];
  mkPattern "traefik-api-delete"
      "(?i)\bcurl\b(?=.*(?:-X\s*|--request(?:=|\s+))DELETE\b)(?=.*\btraefik\b.*\b/api/).*"
      "DELETE operations against Traefik API can remove routing configuration."
      HIGH
      "Sending DELETE to Traefik API removes routers, services, or middleware."
      [mkSuggestion "curl -X GET {traefik-url}/api/http/routers"
        "List routers before deleting" PREVIEW_FIRST;
       mkSuggestion "curl -X PUT {traefik-url}/api/http/routers/{name}"
        "Update instead of delete" SAFER_ALTERNATIVE];
  mkPattern "traefik-systemctl-stop"
      "systemctl\b.*?\s+stop\s+traefik(?:\.service)?\b"
      "systemctl stop traefik stops the Traefik service."
      HIGH
      "Stopping Traefik via systemctl shuts down the load balancer process."
      [mkSuggestion "systemctl status traefik"
        "Check status first" PREVIEW_FIRST;
       mkSuggestion "systemctl reload traefik"
        "Reload instead of stop" SAFER_ALTERNATIVE];
  mkPattern "traefik-service-stop"
      "service\s+traefik\s+stop\b"
      "service traefik stop stops the Traefik service."
      HIGH
      "Stopping Traefik via service command terminates the load balancer."
      [mkSuggestion "service traefik status"
        "Check status first" PREVIEW_FIRST;
       mkSuggestion "service traefik restart"
        "Restart instead of stop" SAFER_ALTERNATIVE];
  mkPattern "elbv2-delete-load-balancer"
      "\baws\b(?:\s+(?:--profile|--region|--output|--endpoint-url)\s+\S+|\s+--\S+)*\s+elbv2\s+delete-load-balancer\b"
      "aws elbv2 delete-load-balancer permanently deletes the load balancer."
      HIGH
      "Deletes an ALB or NLB. All traffic to that load balancer stops immediately."
      [mkSuggestion "aws elbv2 describe-load-balancers"
        "List load balancers first" PREVIEW_FIRST;
       mkSuggestion "aws elbv2 describe-listeners --load-balancer-arn {arn}"
        "Check listeners before deletion" PREVIEW_FIRST];
  mkPattern "elbv2-delete-target-group"
      "\baws\b(?:\s+(?:--profile|--region|--output|--endpoint-url)\s+\S+|\s+--\S+)*\s+elbv2\s+delete-target-group\b"
      "aws elbv2 delete-target-group permanently deletes the target group."
      HIGH
      "Deletes an ELBv2 target group. Instances in the group become unreachable."
      [mkSuggestion "aws elbv2 describe-target-groups"
        "List target groups first" PREVIEW_FIRST;
       mkSuggestion "aws elbv2 describe-target-health --target-group-arn {arn}"
        "Check target health first" PREVIEW_FIRST];
  mkPattern "elbv2-deregister-targets"
      "\baws\b(?:\s+(?:--profile|--region|--output|--endpoint-url)\s+\S+|\s+--\S+)*\s+elbv2\s+deregister-targets\b"
      "aws elbv2 deregister-targets removes targets from the load balancer."
      HIGH
      "Deregisters targets from an ALB/NLB target group. Live traffic is disrupted."
      [mkSuggestion "aws elbv2 describe-target-health --target-group-arn {arn}"
        "Check target health first" PREVIEW_FIRST;
       mkSuggestion "aws elbv2 register-targets --target-group-arn {arn}"
        "Register alternative targets first" PREVIEW_FIRST];
  mkPattern "elbv2-delete-listener"
      "\baws\b(?:\s+(?:--profile|--region|--output|--endpoint-url)\s+\S+|\s+--\S+)*\s+elbv2\s+delete-listener\b"
      "aws elbv2 delete-listener deletes a listener, potentially breaking traffic routing."
      HIGH
      "Deletes a listener. All rules in the listener are removed."
      [mkSuggestion "aws elbv2 describe-rules --listener-arn {arn}"
        "List rules first" PREVIEW_FIRST;
       mkSuggestion "aws elbv2 modify-listener --listener-arn {arn}"
        "Modify instead of delete" SAFER_ALTERNATIVE];
  mkPattern "elbv2-delete-rule"
      "\baws\b(?:\s+(?:--profile|--region|--output|--endpoint-url)\s+\S+|\s+--\S+)*\s+elbv2\s+delete-rule\b"
      "aws elbv2 delete-rule deletes a listener rule, potentially breaking routing."
      HIGH
      "Deletes a listener rule. Associated routing logic is removed."
      [mkSuggestion "aws elbv2 describe-rules --listener-arn {arn}"
        "List all rules first" PREVIEW_FIRST;
       mkSuggestion "aws elbv2 modify-rule --rule-arn {arn}"
        "Modify instead of delete" SAFER_ALTERNATIVE];
  mkPattern "elb-delete-load-balancer"
      "\baws\b(?:\s+(?:--profile|--region|--output|--endpoint-url)\s+\S+|\s+--\S+)*\s+elb\s+delete-load-balancer\b"
      "aws elb delete-load-balancer permanently deletes the classic load balancer."
      HIGH
      "Deletes a Classic ELB. All traffic stops immediately."
      [mkSuggestion "aws elb describe-load-balancers"
        "List load balancers first" PREVIEW_FIRST;
       mkSuggestion "aws elb describe-instance-health --load-balancer-name {name}"
        "Check instance health first" PREVIEW_FIRST];
  mkPattern "elb-deregister-instances"
      "\baws\b(?:\s+(?:--profile|--region|--output|--endpoint-url)\s+\S+|\s+--\S+)*\s+elb\s+deregister-instances-from-load-balancer\b"
      "aws elb deregister-instances-from-load-balancer removes instances from the load balancer."
      HIGH
      "Deregisters EC2 instances from a Classic ELB. Live traffic is disrupted."
      [mkSuggestion "aws elb describe-instance-health --load-balancer-name {name}"
        "Check instance health first" PREVIEW_FIRST;
       mkSuggestion "aws elb register-instances-with-load-balancer --load-balancer-name {name}"
        "Register new instances first" PREVIEW_FIRST]
].

Definition build_loadbalancer_pack : Pack :=
  mkPack "loadbalancer" "Loadbalancer patterns"
    (LOADBALANCER_PATTERNS)
    ["nginx"; "haproxy"; "traefik"; "aws"; "kubectl"].

(** ** The monitoring pack (app/packs/monitoring.py) *)

Definition MONITORING_PATTERNS : list DestructivePattern := [
  mkPattern "promtool-tsdb-delete"
      "promtool\b.*?\btsdb\s+delete\b"
      "promtool tsdb delete removes time series from local TSDB blocks"
      HIGH
      "promtool tsdb delete permanently removes time series matching the selector from the local TSDB. Data is gone even after compaction."
      [mkSuggestion "promtool tsdb list | grep {series}"
        "Confirm the series exists first" PREVIEW_FIRST;
       mkSuggestion "curl 'http://localhost:9090/api/v1/series?match[]={selector}'"
        "Query the series before deletion" PREVIEW_FIRST];
  mkPattern "promtool-tsdb-remove-limits"
      "promtool\b.*?\btsdb\s+remove-limits\b"
      "promtool tsdb remove-limits deletes retention limits"
      MEDIUM
      "promtool tsdb remove-limits removes retention/compaction limits from blocks. Enables unbounded disk growth."
      [mkSuggestion "promtool tsdb info {path}"
        "Review block metadata first" PREVIEW_FIRST;
       mkSuggestion "df -h {path}"
        "Check disk usage before changing limits" PREVIEW_FIRST];
  mkPattern "prometheus-api-delete-series"
      "(?i)\bcurl\b(?=.*(?:-X\s*|--request(?:=|\s+))POST\b)(?=.*/api/v1/admin/tsdb/delete_series\b).*"
      "POST /api/v1/admin/tsdb/delete_series deletes series from Prometheus"
      CRITICAL
      "The admin API delete_series endpoint permanently removes time series from Prometheus storage. Requires --web.enable-admin-api and is irreversible."
      [mkSuggestion "curl 'http://localhost:9090/api/v1/series?match[]={selector}'"
        "Query the series before deleting" PREVIEW_FIRST;
       mkSuggestion "curl -X POST 'http://localhost:9090/api/v1/admin/tsdb/clean_tombstones'"
        "Clean tombstones only after verifying" SAFER_ALTERNATIVE];
  mkPattern "prometheus-rules-file-delete"
      (("\brm\b(?:\s+--?\S+(?:\s+\S+)?)*\s+(?:(?:-f|--force)\s+)?['\" +s+ sc dq +s+ "]?(?:/etc/prometheus/(?:rules\.d|rules)/\S+|/etc/prometheus/(?:prometheus|rules)\.(?:ya?ml))['\" +s+ sc dq +s+ "]?(?:\s|$)"))
      "rm on /etc/prometheus rules files removes alerting rules"
      HIGH
      "Deleting Prometheus rule files removes all alerting and recording rules. Alerts stop firing silently — no notification of the loss."
      [mkSuggestion "ls -la /etc/prometheus/rules/"
        "Review rules directory first" PREVIEW_FIRST;
       mkSuggestion "cp {file} {file}.bak && promtool check rules {file}"
        "Back up and validate rules before changes" PREVIEW_FIRST];
  mkPattern "grafana-cli-plugins-uninstall"
      "\bgrafana-cli\b(?:\s+--?\S+(?:\s+\S+)?)*\s+plugins\s+uninstall\b"
      "grafana-cli plugins uninstall removes a Grafana plugin"
      MEDIUM
      "Removes a Grafana plugin. Dashboards or panels using it break and render as errors."
      [mkSuggestion "grafana-cli plugins ls"
        "List installed plugins first" PREVIEW_FIRST;
       mkSuggestion "grafana-cli plugins install {plugin}"
        "Reinstall the plugin after verifying" SAFER_ALTERNATIVE];
  mkPattern "grafana-api-delete-dashboard"
      "(?i)\bcurl\b(?=.*(?:-X\s*|--request(?:=|\s+))DELETE\b)(?=.*/api/dashboards/).*"
      "curl DELETE /api/dashboards/{uid} removes a Grafana dashboard"
      HIGH
      "Deletes a Grafana dashboard permanently. All panels and alert rules on it are lost."
      [mkSuggestion "curl 'http://localhost:3000/api/search?type=dash-db'"
        "List dashboards to confirm the uid" PREVIEW_FIRST;
       mkSuggestion "curl 'http://localhost:3000/api/dashboards/uid/{uid}' > dashboard.json"
        "Export the dashboard before deleting" PREVIEW_FIRST];
  mkPattern "grafana-api-delete-datasource"
      "(?i)\bcurl\b(?=.*(?:-X\s*|--request(?:=|\s+))DELETE\b)(?=.*/api/datasources/).*"
      "curl DELETE /api/datasources/{id} removes a Grafana datasource"
      HIGH
      "Deletes a Grafana datasource. Every dashboard using it stops querying data."
      [mkSuggestion "curl 'http://localhost:3000/api/datasources'"
        "List datasources and confirm the id" PREVIEW_FIRST;
       mkSuggestion "curl -X PUT 'http://localhost:3000/api/datasources/{id}' -d @datasource.json"
        "Re-add the datasource config after verifying" SAFER_ALTERNATIVE];
  mkPattern "grafana-cli-admin-reset-admin-password"
      "\bgrafana-cli\b.*\badmin\s+reset-admin-password\b"
      "grafana-cli admin reset-admin-password overwrites the admin password"
      HIGH
      "Resets the Grafana admin password. Existing sessions and API tokens may stop working; audit trail is disrupted."
      [mkSuggestion "grafana-cli admin list-users"
        "Verify users before resetting" PREVIEW_FIRST;
       mkSuggestion "grafana-cli admin reset-admin-password {new} --force"
        "Set a known strong password deliberately" SAFER_ALTERNATIVE];
  mkPattern "influx-delete"
      "\binflux\b\s+delete\b(?!.*--dry-run(?:=true)?(?:\s|$))"
      "influx delete removes data from a bucket"
      CRITICAL
      "influx delete permanently removes data matching the predicate from a bucket. Irreversible — no trash or recovery."
      [mkSuggestion ("influx query 'from(bucket:" +s+ sc dq +s+ "{bucket}" +s+ sc dq +s+ ") |> range(start: {start})'")
        "Preview the data before deleting" PREVIEW_FIRST;
       mkSuggestion "influx backup --bucket {bucket} {dir}"
        "Back up the bucket before deletion" PREVIEW_FIRST];
  mkPattern "influx-bucket-delete"
      "\binflux\b.*?\bbucket\s+delete\b"
      "influx bucket delete removes an entire bucket"
      CRITICAL
      "Deletes an entire InfluxDB bucket with ALL its data. Any writer still sending data recreates it empty."
      [mkSuggestion "influx bucket list"
        "List buckets and confirm the id" PREVIEW_FIRST;
       mkSuggestion "influx backup --bucket {bucket} {dir}"
        "Back up the bucket before deleting" PREVIEW_FIRST];
  mkPattern "influx-org-delete"
      "\binflux\b.*?\borg\s+delete\b"
      "influx org delete removes an organization"
      CRITICAL
      "Deletes an InfluxDB organization with all its buckets, tasks, and data. Permanent."
      [mkSuggestion "influx org list"
        "List organizations first" PREVIEW_FIRST;
       mkSuggestion "influx backup --org {org} {dir}"
        "Back up the org before deleting" PREVIEW_FIRST];
  mkPattern "influx-task-delete"
      "\binflux\b.*?\btask\s+delete\b"
      "influx task delete removes a scheduled task"
      MEDIUM
      "Deletes an InfluxDB task. Downsampling, alerts, and data processing the task performed stop silently."
      [mkSuggestion "influx task list"
        "List tasks and confirm the id" PREVIEW_FIRST;
       mkSuggestion "influx task create --org {org} --flux {flux}"
        "Recreate the task after verifying" SAFER_ALTERNATIVE];
  mkPattern "influxdb-drop-database"
      "\binflux\b.*?(?:-database|--database)\b[^\s]*\s+\S+\s+.*\bDROP\s+DATABASE\b"
      "influx DROP DATABASE removes an InfluxDB 1.x database"
      CRITICAL
      "influx DROP DATABASE permanently removes an InfluxDB 1.x database and all its series and points."
      [mkSuggestion "influx -database {db} -execute 'SHOW MEASUREMENTS'"
        "Review measurements before dropping" PREVIEW_FIRST;
       mkSuggestion "influxd backup -portable {dir}"
        "Back up the database first" PREVIEW_FIRST];
  mkPattern "influxdb-drop-series"
      "\binflux\b.*?(?:-database|--database)\b[^\s]*\s+\S+\s+.*\bDROP\s+SERIES\b"
      "influx DROP SERIES removes series from a database"
      HIGH
      "influx DROP SERIES permanently deletes the specified series and their measurements from an InfluxDB 1.x database."
      [mkSuggestion "influx -database {db} -execute 'SHOW SERIES'"
        "Confirm the series before dropping" PREVIEW_FIRST;
       mkSuggestion "influxd backup -portable {dir}"
        "Back up the database first" PREVIEW_FIRST];
  mkPattern "whisper-delete"
      "\bwhisper-delete(?:\.py)?\b"
      "whisper-delete removes whisper data files"
      HIGH
      "whisper-delete.py permanently deletes whisper data files (Graphite metrics). Historical metrics are lost."
      [mkSuggestion "ls -la {path}"
        "Verify the whisper file path first" PREVIEW_FIRST;
       mkSuggestion "cp {file} {file}.bak"
        "Back up the whisper file before deleting" PREVIEW_FIRST];
  mkPattern "whisper-clean"
      "\bwhisper-clean(?:\.py)?\b"
      "whisper-clean removes stale whisper files"
      MEDIUM
      "whisper-clean.py removes whisper files that are stale (older than the threshold). Can delete metrics still needed for graphing."
      [mkSuggestion "whisper-info.py {file}"
        "Check the whisper file age first" PREVIEW_FIRST;
       mkSuggestion "whisper-fetch.py {file} {start} {end}"
        "Fetch data before cleaning" PREVIEW_FIRST];
  mkPattern "kubectl-delete-monitoring-resources"
      "\bkubectl\b(?:\s+--?\S+(?:\s+\S+)?)*\s+delete\s+(?:prometheusrules?|servicemonitors?|podmonitors?)(?:\.monitoring\.coreos\.com)?\b"
      "kubectl delete removes Prometheus operator monitoring resources"
      HIGH
      "Deleting PrometheusRule/ServiceMonitor/PodMonitor resources stops alerting and metric collection for the targeted services."
      [mkSuggestion "kubectl get {resource} -n {ns}"
        "List the monitoring resources first" PREVIEW_FIRST;
       mkSuggestion "kubectl get {resource} {name} -n {ns} -o yaml > backup.yaml"
        "Export the resource before deleting" PREVIEW_FIRST];
  mkPattern "datadog-ci-monitors-delete"
      "datadog-ci\b.*?\bmonitors\s+delete\b"
      "datadog-ci monitors delete removes a Datadog monitor"
      HIGH
      "Deleting a Datadog monitor stops all alerting for that check. You will no longer be notified if the monitored condition occurs, potentially missing critical production issues."
      [mkSuggestion "datadog-ci monitors get {id}"
        "Review the monitor configuration first" PREVIEW_FIRST;
       mkSuggestion "datadog-ci monitor mute {id}"
        "Mute the monitor temporarily instead of deleting" SAFER_ALTERNATIVE];
  mkPattern "datadog-ci-dashboards-delete"
      "datadog-ci\b.*?\bdashboards\s+delete\b"
      "datadog-ci dashboards delete removes a Datadog dashboard"
      HIGH
      "Deleting a dashboard removes all widgets, queries, and layout configuration. Team members relying on this dashboard for visibility lose access immediately."
      [mkSuggestion "datadog-ci dashboards get {id}"
        "Export dashboard JSON first" PREVIEW_FIRST;
       mkSuggestion "curl -X GET https://api.datadoghq.com/api/v1/dashboard/{id}"
        "Download the dashboard definition before deleting" PREVIEW_FIRST];
  mkPattern "datadog-api-delete"
      "(?i)\bcurl\b(?=.*(?:-X\s*|--request(?:=|\s+))DELETE\b)(?=.*api\.datadoghq\.com.*\/(?:monitor|dashboard|synthetics)\/).*"
      "curl DELETE to api.datadoghq.com removes monitors/dashboards/synthetics"
      HIGH
      "Direct API DELETE calls permanently remove Datadog resources without confirmation prompts. Monitors, dashboards, and synthetic tests are deleted immediately."
      [mkSuggestion "curl -X GET https://api.datadoghq.com/api/v1/dashboard/{id}"
        "Get the resource first and export its configuration" PREVIEW_FIRST;
       mkSuggestion "datadog-ci monitors get {id}"
        "Verify the resource id via the CLI before deletion" PREVIEW_FIRST];
  mkPattern "terraform-datadog-destroy"
      "terraform\b(?!\s+plan\b)[\s\S]*?\bdestroy\b[\s\S]*\bdatadog_[a-zA-Z0-9_]+\b"
      "terraform destroy targeting Datadog resources removes monitoring infrastructure"
      HIGH
      "Terraform destroy removes Datadog monitors, dashboards, and other resources defined in the configuration. The monitoring resources are deleted immediately from Datadog."
      [mkSuggestion "terraform plan -destroy -target={resource}"
        "Preview the deletions before destroying" PREVIEW_FIRST;
       mkSuggestion "terraform state rm {resource}"
        "Stop managing the resource without deleting it" SAFER_ALTERNATIVE];
  mkPattern "newrelic-entity-delete"
      "\bnewrelic\b(?:\s+--?\S+(?:\s+\S+)?)*\s+entity\s+delete\b"
      "newrelic entity delete removes a New Relic entity, impacting observability"
      HIGH
      "Deleting a New Relic entity removes all associated telemetry data, relationships, and alert configurations. Historical metrics for this entity are no longer accessible."
      [mkSuggestion "newrelic entity search --name {name}"
        "Find and verify the entity first" PREVIEW_FIRST;
       mkSuggestion "newrelic entity tag add {guid} deprecated:true"
        "Mark the entity deprecated instead of deleting" SAFER_ALTERNATIVE];
  mkPattern "newrelic-apm-app-delete"
      "\bnewrelic\b(?:\s+--?\S+(?:\s+\S+)?)*\s+apm\s+application\s+delete\b"
      "newrelic apm application delete removes an APM application"
      HIGH
      "Deleting an APM application removes all application performance data, traces, and associated alert policies. Visibility into application behavior and historical performance trends is lost."
      [mkSuggestion "newrelic apm application get {id}"
        "Review application details first" PREVIEW_FIRST;
       mkSuggestion "newrelic apm application update {id} --enable=false"
        "Disable the application instead of deleting" SAFER_ALTERNATIVE];
  mkPattern "newrelic-workload-delete"
      "\bnewrelic\b(?:\s+--?\S+(?:\s+\S+)?)*\s+workload\s+delete\b"
      "newrelic workload delete removes a workload definition"
      HIGH
      "Deleting a workload removes the logical grouping of entities and any associated health status calculations. Teams using this workload for service overview lose their aggregated view."
      [mkSuggestion "newrelic entity search --type WORKLOAD --name {name}"
        "Review workload entities and dependencies first" PREVIEW_FIRST;
       mkSuggestion "curl -X GET https://api.newrelic.com/v2/alerts_workflows.json"
        "Export the workload definition before deleting" PREVIEW_FIRST];
  mkPattern "newrelic-synthetics-delete"
      "\bnewrelic\b(?:\s+--?\S+(?:\s+\S+)?)*\s+synthetics\s+delete\b"
      "newrelic synthetics delete removes a synthetics monitor"
      HIGH
      "Deleting a synthetics monitor stops all uptime and availability checking for the monitored endpoint. Alerts for the endpoint will no longer be received."
      [mkSuggestion "newrelic synthetics search --name {name}"
        "Verify you're deleting the correct monitor" PREVIEW_FIRST;
       mkSuggestion "newrelic synthetics update monitor {id} --enabled false"
        "Disable the monitor temporarily instead of deleting" SAFER_ALTERNATIVE];
  mkPattern "newrelic-api-delete"
      "(?i)\bcurl\b(?=.*(?:-X\s*|--request(?:=|\s+))DELETE\b)(?=.*api\.newrelic\.com).*"
      "curl DELETE to api.newrelic.com removes monitoring/alerting resources"
      HIGH
      "Direct API DELETE calls permanently remove New Relic resources without confirmation. Alert policies, dashboards, and monitors are deleted immediately."
      [mkSuggestion "curl -X GET https://api.newrelic.com/v2/alerts_policies.json"
        "Get the resource first to verify the id" PREVIEW_FIRST;
       mkSuggestion "newrelic entity search --guid {guid}"
        "Confirm the target resource via the CLI" PREVIEW_FIRST];
  mkPattern "newrelic-graphql-delete-mutation"
      "(?i)\bcurl\b(?=.*api\.newrelic\.com[^\s]*?/graphql\b)(?=.*\bmutation\b)(?=.*\bdelete\w*\b).*"
      "New Relic GraphQL delete mutations can remove monitoring resources"
      HIGH
      "GraphQL delete mutations remove New Relic resources via the NerdGraph API. This affects entities, dashboards, alert policies, and other observability resources."
      [mkSuggestion ("curl -X POST https://api.newrelic.com/graphql -d '{" +s+ sc dq +s+ "query" +s+ sc dq +s+ ":" +s+ sc dq +s+ "{ actor { entity(guid: \" +s+ sc dq +s+ "{guid}\" +s+ sc dq +s+ ") { name } } }" +s+ sc dq +s+ "}'")
        "Query the resource first to verify the GUID" PREVIEW_FIRST;
       mkSuggestion "newrelic entity search --guid {guid}"
        "Verify the entity exists before the mutation" PREVIEW_FIRST];
  mkPattern "pd-service-delete"
      "\bpd\b(?:\s+--?\S+(?:\s+\S+)?)*\s+service\s+delete\b"
      "pd service delete removes a PagerDuty service, breaking incident routing"
      CRITICAL
      "Deleting a PagerDuty service removes all incident routing, integrations, and escalation policies attached to it. Incidents will no longer be created for this service, potentially causing outages to go unnoticed."
      [mkSuggestion "pd service list"
        "Verify the service before deletion" PREVIEW_FIRST;
       mkSuggestion "pd service disable {id}"
        "Disable the service temporarily instead of deleting" SAFER_ALTERNATIVE];
  mkPattern "pd-schedule-delete"
      "\bpd\b(?:\s+--?\S+(?:\s+\S+)?)*\s+schedule\s+delete\b"
      "pd schedule delete removes a PagerDuty schedule"
      HIGH
      "Deleting a schedule removes all on-call rotations and overrides. Escalation policies using this schedule will have gaps in coverage, potentially leaving incidents unassigned."
      [mkSuggestion "pd schedule get {id}"
        "Review schedule details first" PREVIEW_FIRST;
       mkSuggestion "pd schedule update {id}"
        "Update the schedule rather than deleting" SAFER_ALTERNATIVE];
  mkPattern "pd-escalation-policy-delete"
      "\bpd\b(?:\s+--?\S+(?:\s+\S+)?)*\s+escalation-policy\s+delete\b"
      "pd escalation-policy delete breaks incident routing for its services"
      HIGH
      "Deleting an escalation policy breaks incident routing for all services using it. Incidents may not be escalated properly, leading to delayed response times."
      [mkSuggestion "pd escalation-policy get {id}"
        "Review which services use this escalation policy" PREVIEW_FIRST;
       mkSuggestion "pd service update {service_id} --escalation-policy {new_id}"
        "Assign services to a different policy before deletion" SAFER_ALTERNATIVE];
  mkPattern "pd-user-delete"
      "\bpd\b(?:\s+--?\S+(?:\s+\S+)?)*\s+user\s+delete\b"
      "pd user delete removes a PagerDuty user"
      HIGH
      "Deleting a user removes them from all schedules and escalation policies. On-call coverage may have gaps, and incident history associated with this user may be affected."
      [mkSuggestion "pd user get {id}"
        "Review the user's assignments first" PREVIEW_FIRST;
       mkSuggestion "pd user disable {id}"
        "Deactivate the user instead of deleting" SAFER_ALTERNATIVE];
  mkPattern "pd-team-delete"
      "\bpd\b(?:\s+--?\S+(?:\s+\S+)?)*\s+team\s+delete\b"
      "pd team delete removes a PagerDuty team"
      HIGH
      "Deleting a team removes the organizational grouping and may affect access controls, service ownership, and escalation policies."
      [mkSuggestion "pd team list"
        "Verify the team before deletion" PREVIEW_FIRST;
       mkSuggestion "pd team-member list {team_id}"
        "Reassign team members and services first" PREVIEW_FIRST];
  mkPattern "pagerduty-api-delete-service"
      "(?i)\bcurl\b(?=.*(?:-X\s*|--request(?:=|\s+))DELETE\b)(?=.*api\.pagerduty\.com[^\s]*?/services/[^\s]+).*"
      "PagerDuty API DELETE /services/{id} deletes a PagerDuty service"
      CRITICAL
      "Direct API deletion of a service removes all incident routing immediately. There is no confirmation prompt when using curl directly."
      [mkSuggestion "curl -X GET https://api.pagerduty.com/services/{id}"
        "Get the service first to verify the ID" PREVIEW_FIRST;
       mkSuggestion "pd service disable {id}"
        "Disable the service via the CLI instead" SAFER_ALTERNATIVE];
  mkPattern "pagerduty-api-delete-schedule"
      "(?i)\bcurl\b(?=.*(?:-X\s*|--request(?:=|\s+))DELETE\b)(?=.*api\.pagerduty\.com[^\s]*?/schedules/[^\s]+).*"
      "PagerDuty API DELETE /schedules/{id} deletes a PagerDuty schedule"
      HIGH
      "API deletion of a schedule removes on-call rotations immediately. Escalation policies referencing this schedule will have coverage gaps."
      [mkSuggestion "curl -X GET https://api.pagerduty.com/schedules/{id}"
        "Get the schedule first to verify the ID" PREVIEW_FIRST;
       mkSuggestion "pd schedule update {id}"
        "Update the schedule via the CLI instead" SAFER_ALTERNATIVE];
  mkPattern "splunk-remove-index"
      "splunk\b.*?\bremove\s+index\b"
      "splunk remove index deletes an index and its data permanently"
      CRITICAL
      "Removing a Splunk index permanently deletes all indexed data within it. Historical logs, events, and metrics are irretrievably lost. Any searches, dashboards, or alerts referencing this index will fail."
      [mkSuggestion "splunk list index"
        "Review the index before removal" PREVIEW_FIRST;
       mkSuggestion "splunk export index {index} {dir}"
        "Archive the data before deletion" PREVIEW_FIRST];
  mkPattern "splunk-clean-eventdata"
      "splunk\b.*?\bclean\s+eventdata\b"
      "splunk clean eventdata permanently deletes indexed data"
      CRITICAL
      "Clean eventdata permanently removes all events from the specified index. This cannot be undone. Use this only when you're certain the data is no longer needed."
      [mkSuggestion "splunk search 'index={index}'"
        "Verify what will be deleted" PREVIEW_FIRST;
       mkSuggestion "splunk export index {index} {dir}"
        "Export the data before cleaning" PREVIEW_FIRST];
  mkPattern "splunk-delete-user-role"
      "splunk\b.*?\bdelete\s+(?:user|role)\b"
      "splunk delete user/role removes access configurations"
      HIGH
      "Deleting a user removes their access and any saved searches or dashboards owned by them. Deleting a role affects all users assigned to it, potentially breaking access controls."
      [mkSuggestion "splunk list user"
        "Review the user or role before deletion" PREVIEW_FIRST;
       mkSuggestion "splunk disable user {name}"
        "Disable the user instead of deleting" SAFER_ALTERNATIVE];
  mkPattern "splunk-api-delete"
      "(?i)curl\s+.*(?:-X\s*|--request(?:=|\s+))DELETE\b.*splunk.*\/services\/"
      "Splunk REST API DELETE calls can permanently remove objects"
      HIGH
      "Direct API DELETE calls to Splunk services can remove indexes, saved searches, dashboards, alerts, and other objects without confirmation."
      [mkSuggestion "curl -X GET https://{host}:8089/services/{object}"
        "Get the resource first to verify the object" PREVIEW_FIRST;
       mkSuggestion "splunk list"
        "Use the Splunk CLI for better feedback" PREVIEW_FIRST]
].

Definition build_monitoring_pack : Pack :=
  mkPack "monitoring" "Monitoring"
    (MONITORING_PATTERNS)
    ["promtool"; "grafana"; "influx"; "whisper"; "prometheus"; "kubectl"; "curl"; "datadog"; "newrelic"; "pd"; "pagerduty"; "splunk"; "api.datadoghq.com"; "api.newrelic.com"; "api.pagerduty.com"].
