(* ===== verification/PackDev.v ===== *)
(** * Pattern packs for development: git, ci/cd, database and secrets packs.

    One section of definitions per file of src/app/packs/. *)
From S2P Require Import Prelude PolicyTypes Packs.
From stdpp Require Import options.

(** ** The git_pack pack (app/packs/git_pack.py) *)

Definition GIT_PATTERNS : list DestructivePattern := [
  mkPattern "git-push-force"
      (("git\b.*?\bpush(?:[^\n;]*\s(?:--force(?:=\S*)?|--force-with-lease(?:=\S*)?|-f)(?=\s|$)|(?:\s+\S+)*\s+(?:\$?[\" +s+ sc dq +s+ "']|\\)*\+\S+)"))
      "Force push rewrites remote history"
      CRITICAL
      "All forms of force push (--force, --force-with-lease, +refspec) rewrite remote history and may cause data loss for collaborators."
      [mkSuggestion "git push --force-with-lease"
        "Safer force push — respects remote changes" SAFER_ALTERNATIVE;
       mkSuggestion "git push {remote} {branch}"
        "Normal push without force" SAFER_ALTERNATIVE];
  mkPattern "git-push-mirror"
      "git\b.*?\bpush\b[^\n;]*(?:^|\s)--mirror(?:=\S*)?(?=\s|$)"
      "git push --mirror force-updates and deletes remote refs"
      CRITICAL
      "Mirror push deletes remote refs absent locally. Extremely destructive."
      [mkSuggestion "git remote -v"
        "List remotes first" PREVIEW_FIRST;
       mkSuggestion "git push --all {remote}"
        "Push all branches without mirror semantics" SAFER_ALTERNATIVE];
  mkPattern "git-push-dynamic-arg"
      "git\b.*?\bpush\b[^\n;]*(?:\\|\$|`|\*|\?|\{|\}|\[)"
      "Shell-expanded push argument cannot be verified as non-forcing"
      HIGH
      "Variables, globs, or escaped args in git push may expand to destructive refspecs."
      [mkSuggestion "echo {arg}"
        "Expand and review argument first" PREVIEW_FIRST;
       mkSuggestion "git push {remote} {branch}"
        "Use an explicit refspec" SAFER_ALTERNATIVE];
  mkPattern "git-rebase"
      "git\b.*?\brebase\b"
      "git rebase rewrites commit history"
      HIGH
      "Rebase rewrites commits. Force push needed afterward. Conflicts may lose changes."
      [mkSuggestion "git merge {branch}"
        "Merge instead of rebase — preserves history" SAFER_ALTERNATIVE;
       mkSuggestion "git rebase --interactive HEAD~{n}"
        "Interactive rebase with control" SAFER_ALTERNATIVE];
  mkPattern "git-commit-amend"
      "git\b.*?\bcommit\s+.*--amend"
      "git commit --amend rewrites the last commit"
      HIGH
      "Amending a pushed commit rewrites history. Previous commit is lost."
      [mkSuggestion "git commit --amend --no-edit"
        "Amend without changing the message" SAFER_ALTERNATIVE;
       mkSuggestion "git log -1"
        "Review last commit before amending" PREVIEW_FIRST];
  mkPattern "git-filter-branch"
      "git\b.*?\bfilter-branch\b"
      "git filter-branch rewrites entire repository history"
      CRITICAL
      "Rewrites ALL commits. Extremely dangerous. Use filter-repo instead."
      [mkSuggestion "git filter-repo --path {path}"
        "Use filter-repo with path scope" SAFER_ALTERNATIVE;
       mkSuggestion "git clone {repo} /tmp/backup"
        "Clone a backup before rewriting history" PREVIEW_FIRST];
  mkPattern "git-filter-repo"
      "git\b.*?\bfilter-repo\b"
      "git filter-repo rewrites repository history"
      CRITICAL
      "Modern replacement for filter-branch. Still rewrites all history."
      [mkSuggestion "git filter-repo --dry-run"
        "Preview changes first" PREVIEW_FIRST;
       mkSuggestion "git clone {repo} /tmp/backup"
        "Clone a backup before rewriting history" PREVIEW_FIRST];
  mkPattern "git-cherry-pick"
      "git\b.*?\bcherry-pick\b"
      "git cherry-pick can introduce duplicate commits"
      MEDIUM
      "Cherry-pick creates duplicate commits. Can cause merge conflicts later."
      [mkSuggestion "git log --oneline -10"
        "Review recent commits before picking" PREVIEW_FIRST;
       mkSuggestion "git merge {branch}"
        "Merge instead of cherry-pick" SAFER_ALTERNATIVE];
  mkPattern "git-reflog-expire"
      "git\b.*?\breflog\s+expire"
      "git reflog expire removes recovery entries"
      HIGH
      "Reflog is the last resort for recovery. Expiring entries may lose data permanently."
      [mkSuggestion "git reflog show"
        "Review reflog before expiring" PREVIEW_FIRST;
       mkSuggestion "git reflog expire --expire=90.days --all"
        "Use a longer expiration time" SAFER_ALTERNATIVE];
  mkPattern "git-gc-aggressive"
      "git\b.*?\bgc\s+.*--(?:aggressive|prune)"
      "git gc with aggressive/prune removes recoverable objects"
      HIGH
      "Prunes loose objects. Reflog entries and stashed changes may be lost."
      [mkSuggestion "git count-objects -vH"
        "Check repo size before gc" PREVIEW_FIRST;
       mkSuggestion "git gc --auto"
        "Run auto gc instead" SAFER_ALTERNATIVE];
  mkPattern "git-worktree-remove"
      "git\b.*?\bworktree\s+remove"
      "git worktree remove deletes a linked working tree"
      HIGH
      "Uncommitted changes in the worktree are lost."
      [mkSuggestion "git worktree list"
        "List all worktrees first" PREVIEW_FIRST;
       mkSuggestion "git stash -u && git worktree remove {name}"
        "Stash changes before removing" PREVIEW_FIRST];
  mkPattern "git-submodule-deinit"
      "git\b.*?\bsubmodule\s+deinit"
      "git submodule deinit removes submodule configuration"
      MEDIUM
      "Submodule working tree is removed. Clone again to restore."
      [mkSuggestion "git submodule status"
        "Check submodule status first" PREVIEW_FIRST;
       mkSuggestion "git submodule deinit -f {name}"
        "Force deinit if needed" SAFER_ALTERNATIVE];
  mkPattern "git-add-all-dot"
      (("git\b.*?\badd\s+['\" +s+ sc dq +s+ "]?\.['\" +s+ sc dq +s+ "]?(?:\s|$)"))
      "git add . stages everything including secrets, .env, build artifacts"
      MEDIUM
      "All changes in the repo are staged. Secrets or build artifacts may be committed."
      [mkSuggestion "git status"
        "Review changes before staging" PREVIEW_FIRST;
       mkSuggestion "git add {specific-file}"
        "Stage specific files only" SAFER_ALTERNATIVE];
  mkPattern "git-add-all-flag"
      "git\b.*?\badd\s+(?:-A|--all)\b"
      "git add -A/--all stages all changes including secrets"
      MEDIUM
      "Tracks new and modified files. Secrets may be unintentionally staged."
      [mkSuggestion "git status"
        "Review changes before staging" PREVIEW_FIRST;
       mkSuggestion "git add -p"
        "Interactive staging to review each change" PREVIEW_FIRST]
].

Definition build_git_pack : Pack :=
  mkPack "git" "Git patterns"
    (GIT_PATTERNS)
    ["git"].

(** ** The cicd pack (app/packs/cicd.py) *)

Definition CICD_PATTERNS : list DestructivePattern := [
  mkPattern "gh-actions-secret-remove"
      "gh(?:\s+--?[A-Za-z][A-Za-z0-9-]*\b(?:\s+(?!(?:secret|variable|workflow|run|api)\b)\S+)?)*\s+secret\s+(?:delete|remove)\b"
      "gh secret delete/remove deletes GitHub Actions secrets"
      HIGH
      "Deletes a GitHub Actions secret. Workflows depending on it fail at runtime, and the secret value is permanently lost."
      [mkSuggestion "gh secret list"
        "Review configured secrets first" PREVIEW_FIRST;
       mkSuggestion "gh secret set {NAME} --repo {owner}/{repo}"
        "Recreate the secret with a fresh value" SAFER_ALTERNATIVE];
  mkPattern "gh-actions-variable-remove"
      "gh(?:\s+--?[A-Za-z][A-Za-z0-9-]*\b(?:\s+(?!(?:secret|variable|workflow|run|api)\b)\S+)?)*\s+variable\s+(?:delete|remove)\b"
      "gh variable delete/remove deletes GitHub Actions variables"
      MEDIUM
      "Deletes a GitHub Actions configuration variable. Workflows using it break or behave differently until it is recreated."
      [mkSuggestion "gh variable list"
        "Review configured variables first" PREVIEW_FIRST;
       mkSuggestion "gh variable set {NAME} --body {value} --repo {owner}/{repo}"
        "Recreate the variable with the correct value" SAFER_ALTERNATIVE];
  mkPattern "gh-actions-workflow-disable"
      "gh(?:\s+--?[A-Za-z][A-Za-z0-9-]*\b(?:\s+(?!(?:secret|variable|workflow|run|api)\b)\S+)?)*\s+workflow\s+disable\b"
      "gh workflow disable disables workflows"
      LOW
      "Disables a workflow — it stops running on any trigger. Reversible with gh workflow enable, but can halt deployments while disabled."
      [mkSuggestion "gh workflow list"
        "Review workflow status first" PREVIEW_FIRST;
       mkSuggestion "gh workflow enable {WORKFLOW}"
        "Re-enable the workflow when ready" SAFER_ALTERNATIVE];
  mkPattern "gh-actions-run-cancel"
      "gh(?:\s+--?[A-Za-z][A-Za-z0-9-]*\b(?:\s+(?!(?:secret|variable|workflow|run|api)\b)\S+)?)*\s+run\s+cancel\b"
      "gh run cancel cancels a running workflow"
      LOW
      "Cancels a workflow run mid-execution. In-progress deployments, tests or builds are interrupted; partial work may leave systems in an inconsistent state."
      [mkSuggestion "gh run view {RUN_ID}"
        "Check run status and progress first" PREVIEW_FIRST;
       mkSuggestion "gh run list"
        "Review running workflows first" PREVIEW_FIRST];
  mkPattern "gh-actions-run-delete"
      "gh(?:\s+--?[A-Za-z][A-Za-z0-9-]*\b(?:\s+(?!(?:secret|variable|workflow|run|api)\b)\S+)?)*\s+run\s+delete\b"
      "gh run delete permanently removes workflow run logs and artifacts"
      MEDIUM
      "Deletes a workflow run and its logs. Audit trail for that run is permanently lost, making post-incident analysis impossible."
      [mkSuggestion "gh run view --log {RUN_ID} > run.log"
        "Save the run logs before deleting" PREVIEW_FIRST;
       mkSuggestion "gh run list"
        "Confirm the run ID before deletion" PREVIEW_FIRST];
  mkPattern "gh-actions-api-delete-secrets"
      "gh(?:\s+--?[A-Za-z][A-Za-z0-9-]*\b(?:\s+(?!(?:secret|variable|workflow|run|api)\b)\S+)?)*\s+api\b.*(?:-X\s*|--method(?:=|\s+))DELETE\b.*\b/?repos/[^\s/]+/[^\s/]+/actions/secrets\b"
      "gh api DELETE against /actions/secrets deletes GitHub Actions secrets"
      HIGH
      "Deletes a GitHub Actions secret via the REST API. Workflows depending on it fail, and the secret value is permanently lost."
      [mkSuggestion "gh api repos/{owner}/{repo}/actions/secrets"
        "List secrets before deletion" PREVIEW_FIRST;
       mkSuggestion "gh secret set {NAME} --repo {owner}/{repo}"
        "Recreate the secret with a fresh value" SAFER_ALTERNATIVE];
  mkPattern "gh-actions-api-delete-variables"
      "gh(?:\s+--?[A-Za-z][A-Za-z0-9-]*\b(?:\s+(?!(?:secret|variable|workflow|run|api)\b)\S+)?)*\s+api\b.*(?:-X\s*|--method(?:=|\s+))DELETE\b.*\b/?repos/[^\s/]+/[^\s/]+/actions/variables\b"
      "gh api DELETE against /actions/variables deletes GitHub Actions variables"
      MEDIUM
      "Deletes a GitHub Actions variable via the REST API. Workflows using it break or behave differently until recreated."
      [mkSuggestion "gh api repos/{owner}/{repo}/actions/variables"
        "List variables before deletion" PREVIEW_FIRST;
       mkSuggestion "gh variable set {NAME} --body {value} --repo {owner}/{repo}"
        "Recreate the variable with the correct value" SAFER_ALTERNATIVE];
  mkPattern "glab-variable-delete"
      "glab(?:\s+--?\S+(?:\s+\S+)?)*\s+variable\s+delete\b"
      "glab variable delete removes GitLab CI variables"
      HIGH
      "Deletes a GitLab CI/CD variable. Pipelines relying on it fail, and the masked value cannot be recovered."
      [mkSuggestion "glab variable list"
        "Review CI variables first" PREVIEW_FIRST;
       mkSuggestion "glab variable set {KEY} --value {VALUE}"
        "Recreate the variable with a new value" SAFER_ALTERNATIVE];
  mkPattern "glab-ci-delete"
      "glab(?:\s+--?\S+(?:\s+\S+)?)*\s+ci\s+delete\b"
      "glab ci delete removes pipeline artifacts or pipelines"
      MEDIUM
      "Deletes pipeline artifacts or pipeline records. Audit trail and artifacts are permanently lost."
      [mkSuggestion "glab ci view {PIPELINE_ID}"
        "Review pipeline status before deletion" PREVIEW_FIRST;
       mkSuggestion "glab ci list"
        "Confirm the pipeline ID first" PREVIEW_FIRST];
  mkPattern "glab-api-delete-variables"
      "glab(?:\s+--?\S+(?:\s+\S+)?)*\s+api\b.*(?:-X\s*|--method(?:=|\s+))DELETE\b.*\bvariables\b"
      "glab api DELETE against variables endpoints removes CI variables"
      HIGH
      "Deletes GitLab CI/CD variables via the REST API. Pipelines depending on them fail; values cannot be recovered."
      [mkSuggestion "glab api projects/:id/variables"
        "List variables before deletion" PREVIEW_FIRST;
       mkSuggestion "glab variable set {KEY} --value {VALUE}"
        "Recreate the variable with a new value" SAFER_ALTERNATIVE];
  mkPattern "gitlab-runner-unregister"
      "gitlab-runner(?:\s+--?\S+(?:\s+\S+)?)*\s+unregister\b"
      "gitlab-runner unregister removes runners and can halt CI"
      CRITICAL
      "Unregisters a GitLab runner — it stops picking up jobs. Queued pipelines wait indefinitely and CI comes to a halt."
      [mkSuggestion "gitlab-runner list"
        "Review registered runners first" PREVIEW_FIRST;
       mkSuggestion "gitlab-runner verify"
        "Check runner connectivity before unregistering" PREVIEW_FIRST];
  mkPattern "circleci-context-delete"
      "circleci(?:\s+--?\S+(?:\s+\S+)?)*\s+context\s+delete\b"
      "circleci context delete removes contexts and their secrets"
      CRITICAL
      "Deletes a CircleCI context with ALL secrets stored in it. Every project using that context breaks immediately."
      [mkSuggestion "circleci context list {VCS_TYPE} {ORG_NAME}"
        "Review contexts before deletion" PREVIEW_FIRST;
       mkSuggestion "circleci context show {VCS_TYPE} {ORG_NAME} {CONTEXT}"
        "Inspect context secrets before deletion" PREVIEW_FIRST];
  mkPattern "circleci-context-remove-secret"
      "circleci(?:\s+--?\S+(?:\s+\S+)?)*\s+context\s+remove-secret\b"
      "circleci context remove-secret deletes secrets from a context"
      HIGH
      "Deletes a single secret from a CircleCI context. Projects using it fail until a new value is stored."
      [mkSuggestion "circleci context show {VCS_TYPE} {ORG_NAME} {CONTEXT}"
        "Inspect context secrets before removal" PREVIEW_FIRST;
       mkSuggestion "circleci context store-secret {VCS_TYPE} {ORG_NAME} {CONTEXT} {VAR_NAME}"
        "Store a new value before removal" SAFER_ALTERNATIVE];
  mkPattern "circleci-orb-delete"
      "circleci(?:\s+--?\S+(?:\s+\S+)?)*\s+orb\s+delete\b"
      "circleci orb delete removes an orb from the registry"
      HIGH
      "Deletes an orb version from the CircleCI registry. Every pipeline referencing that version fails to resolve."
      [mkSuggestion "circleci orb list {ORG_NAME}"
        "Review orbs before deletion" PREVIEW_FIRST;
       mkSuggestion "circleci orb publish {ORB_FILE} {ORG_NAME}/{ORB}@{VERSION}"
        "Re-publish the orb after verifying" SAFER_ALTERNATIVE];
  mkPattern "circleci-namespace-delete"
      "circleci(?:\s+--?\S+(?:\s+\S+)?)*\s+namespace\s+delete\b"
      "circleci namespace delete removes an orb namespace"
      CRITICAL
      "Deletes a CircleCI orb namespace — all orbs published under it become unavailable and existing pipelines break."
      [mkSuggestion "circleci orb list {ORG_NAME}"
        "Review orbs in the namespace first" PREVIEW_FIRST;
       mkSuggestion "circleci namespace list"
        "Confirm the namespace before deletion" PREVIEW_FIRST];
  mkPattern "circleci-pipeline-delete"
      "circleci(?:\s+--?\S+(?:\s+\S+)?)*\s+pipeline\s+delete\b"
      "circleci pipeline delete removes pipeline history"
      MEDIUM
      "Deletes pipeline records and their history. Audit trail for those pipelines is permanently lost."
      [mkSuggestion "circleci pipeline list {ORG_NAME}"
        "Review pipelines before deletion" PREVIEW_FIRST;
       mkSuggestion "circleci pipeline show {PIPELINE_ID}"
        "Confirm the pipeline before deletion" PREVIEW_FIRST];
  mkPattern "circleci-api-delete-envvar"
      "curl(?:\s+--?\S+(?:\s+\S+)?)*\s+(?:-X\s*|--request(?:=|\s+))DELETE\b.*circleci\.com/api/[^\s]*\b(?:envvar|environment-variable)\b"
      "curl DELETE against CircleCI envvar endpoints removes environment variables"
      HIGH
      "Deletes a CircleCI project environment variable via the REST API. Jobs using it fail; the value cannot be recovered."
      [mkSuggestion "curl 'https://circleci.com/api/v2/project/{vcs}/{org}/{repo}/envvar'"
        "List environment variables first" PREVIEW_FIRST;
       mkSuggestion ("curl -X POST 'https://circleci.com/api/v2/project/{vcs}/{org}/{repo}/envvar' -H 'Circle-Token: {token}' -d '{" +s+ sc dq +s+ "name" +s+ sc dq +s+ ":" +s+ sc dq +s+ "{NAME}" +s+ sc dq +s+ "," +s+ sc dq +s+ "value" +s+ sc dq +s+ ":" +s+ sc dq +s+ "{VALUE}" +s+ sc dq +s+ "}'")
        "Recreate the variable after verifying" SAFER_ALTERNATIVE];
  mkPattern "jenkins-cli-delete-job"
      "(?:jenkins-cli|java\s+-jar\s+\S*jenkins-cli\.jar)(?:\s+--?\S+(?:\s+\S+)?)*\s+delete-job\b"
      "jenkins-cli delete-job deletes Jenkins jobs and can break pipelines"
      CRITICAL
      "Deletes a Jenkins job and its build history, logs and artifacts. Any pipeline or job referencing it breaks immediately."
      [mkSuggestion "jenkins-cli list-jobs"
        "Review jobs before deletion" PREVIEW_FIRST;
       mkSuggestion "curl 'http://{host}:8080/job/{job}/config.xml' > job.xml"
        "Export the job config before deleting" PREVIEW_FIRST];
  mkPattern "jenkins-cli-delete-node"
      "(?:jenkins-cli|java\s+-jar\s+\S*jenkins-cli\.jar)(?:\s+--?\S+(?:\s+\S+)?)*\s+delete-node\b"
      "jenkins-cli delete-node deletes Jenkins nodes and can halt CI"
      HIGH
      "Deletes a Jenkins build node. Jobs assigned to it stop running; overall CI capacity drops."
      [mkSuggestion "jenkins-cli list-nodes"
        "Review nodes before deletion" PREVIEW_FIRST;
       mkSuggestion "jenkins-cli offline-node {NODE}"
        "Take the node offline first to drain it" PREVIEW_FIRST];
  mkPattern "jenkins-cli-delete-credentials"
      "(?:jenkins-cli|java\s+-jar\s+\S*jenkins-cli\.jar)(?:\s+--?\S+(?:\s+\S+)?)*\s+delete-credentials\b"
      "jenkins-cli delete-credentials removes stored credentials"
      HIGH
      "Deletes credentials from the Jenkins store. Jobs and pipelines using them fail authentication; values cannot be recovered."
      [mkSuggestion "jenkins-cli list-credentials {STORE}"
        "Review credential metadata first" PREVIEW_FIRST;
       mkSuggestion "jenkins-cli create-credentials {STORE} --username {USER} --password {PASS}"
        "Recreate the credential after verifying" SAFER_ALTERNATIVE];
  mkPattern "jenkins-cli-delete-builds"
      "(?:jenkins-cli|java\s+-jar\s+\S*jenkins-cli\.jar)(?:\s+--?\S+(?:\s+\S+)?)*\s+delete-builds\b"
      "jenkins-cli delete-builds removes build history and artifacts"
      MEDIUM
      "Deletes build records, console logs and artifacts. Audit trail and debugging capability are permanently lost."
      [mkSuggestion "jenkins-cli list-builds {JOB}"
        "Review job builds first" PREVIEW_FIRST;
       mkSuggestion "curl 'http://{host}:8080/job/{job}/{build}/artifact' -O"
        "Download artifacts before deletion" PREVIEW_FIRST];
  mkPattern "jenkins-cli-delete-view"
      "(?:jenkins-cli|java\s+-jar\s+\S*jenkins-cli\.jar)(?:\s+--?\S+(?:\s+\S+)?)*\s+delete-view\b"
      "jenkins-cli delete-view removes Jenkins views"
      LOW
      "Deletes a Jenkins view configuration. Jobs are not deleted, but the organizational structure is lost."
      [mkSuggestion "jenkins-cli list-views"
        "Review views before deletion" PREVIEW_FIRST;
       mkSuggestion "curl 'http://{host}:8080/view/{view}/config.xml' > view.xml"
        "Export the view config before deleting" PREVIEW_FIRST];
  mkPattern "jenkins-curl-do-delete"
      "(?i)\bcurl\b(?=.*(?:-X\s*|--request(?:=|\s+))POST\b)(?=.*\bdoDelete\b).*"
      "curl POST to Jenkins doDelete endpoints deletes jobs or resources"
      CRITICAL
      "POSTing to Jenkins doDelete endpoints triggers immediate deletion of jobs, builds or other resources, bypassing CLI safety checks."
      [mkSuggestion "curl 'http://{host}:8080/job/{job}/api/json'"
        "Review the job before deletion" PREVIEW_FIRST;
       mkSuggestion "curl 'http://{host}:8080/job/{job}/config.xml' > job.xml"
        "Export the job config before deleting" PREVIEW_FIRST]
].

Definition build_cicd_pack : Pack :=
  mkPack "cicd" "CI/CD"
    (CICD_PATTERNS)
    ["gh "; "glab"; "gitlab-runner"; "circleci"; "jenkins-cli"; "doDelete"; "actions/secrets"; "actions/variables"].

(** ** The database pack (app/packs/database.py) *)

Definition REDIS_CLI_OPT_VALUE : string := ("(?:\S+|'[^']*'|\" +s+ sc dq +s+ "[^\" +s+ sc dq +s+ "]*\" +s+ sc dq +s+ ")").

Definition REDIS_CLI_GLOBAL_OPTIONS : string := "(?:" +s+ "-h\s+" +s+ REDIS_CLI_OPT_VALUE +s+ "|--host(?:\s+|=)" +s+ REDIS_CLI_OPT_VALUE +s+ "|-p\s+" +s+ REDIS_CLI_OPT_VALUE +s+ "|--port(?:\s+|=)" +s+ REDIS_CLI_OPT_VALUE +s+ "|-s\s+" +s+ REDIS_CLI_OPT_VALUE +s+ "|--socket(?:\s+|=)" +s+ REDIS_CLI_OPT_VALUE +s+ "|-a\s+" +s+ REDIS_CLI_OPT_VALUE +s+ "|--(?:pass|auth|password)(?:\s+|=)" +s+ REDIS_CLI_OPT_VALUE +s+ "|--user(?:\s+|=)" +s+ REDIS_CLI_OPT_VALUE +s+ "|-u\s+" +s+ REDIS_CLI_OPT_VALUE +s+ "|--url(?:\s+|=)" +s+ REDIS_CLI_OPT_VALUE +s+ "|-n\s+" +s+ REDIS_CLI_OPT_VALUE +s+ "|--db(?:\s+|=)" +s+ REDIS_CLI_OPT_VALUE +s+ "|--(?:cacert|cacertdir|cert|key)(?:\s+|=)" +s+ REDIS_CLI_OPT_VALUE +s+ "|-3\b|--tls\b|--insecure\b" +s+ "|-c\b|--cluster\b|-x\b|--stdin\b" +s+ "|-r\s+" +s+ REDIS_CLI_OPT_VALUE +s+ "|--repeat(?:\s+|=)" +s+ REDIS_CLI_OPT_VALUE +s+ "|-i\s+" +s+ REDIS_CLI_OPT_VALUE +s+ "|--interval(?:\s+|=)" +s+ REDIS_CLI_OPT_VALUE +s+ "|-d\s+" +s+ REDIS_CLI_OPT_VALUE +s+ "|--delimiter(?:\s+|=)" +s+ REDIS_CLI_OPT_VALUE +s+ "|--raw\b|--no-raw\b|--csv\b|--json\b|--quoted-json\b|--quoted-input\b" +s+ "|--no-auth-warning\b|--verbose\b|--show-pushes\b" +s+ ")".

Definition REDIS_CLI_EXE : string := "(?:" +s+ "(?:[^\s;|&]+/)?redis-cli\b" +s+ ")".

Definition REDIS_SHUTDOWN_COMMAND : string := "SHUTDOWN\b(?:\s+NOSAVE\b)?(?![\w.-])".

Definition REDIS_SHUTDOWN_RE : string := "(?i)(?:^|;|\|\||&&|\||\n)\s*" +s+ "(?:" +s+ REDIS_CLI_EXE +s+ "\s+(?:" +s+ REDIS_CLI_GLOBAL_OPTIONS +s+ "\s+)*" +s+ REDIS_SHUTDOWN_COMMAND +s+ "|" +s+ REDIS_SHUTDOWN_COMMAND +s+ ")".

Definition DATABASE_PATTERNS : list DestructivePattern := [
  mkPattern "psql-drop-database"
      "(?i)\bDROP\s+DATABASE\b"
      "DROP DATABASE permanently deletes the entire database"
      CRITICAL
      "All schemas, tables, indexes, and data lost."
      [mkSuggestion "pg_dump {db} > {db}.sql"
        "Dump database before dropping" PREVIEW_FIRST;
       mkSuggestion "CREATE DATABASE {name} WITH TEMPLATE {old_db}"
        "Copy database as backup first" PREVIEW_FIRST];
  mkPattern "psql-drop-table"
      "(?i)\bDROP\s+TABLE\b"
      "DROP TABLE permanently deletes the table and its data"
      HIGH
      "Table definition and all rows lost. Related views/indexes affected."
      [mkSuggestion "DROP TABLE IF EXISTS {table}"
        "Avoid error if table is missing" SAFER_ALTERNATIVE;
       mkSuggestion "DELETE FROM {table} WHERE {condition}"
        "Selective deletion instead of full drop" SAFER_ALTERNATIVE];
  mkPattern "psql-drop-schema"
      "(?i)\bDROP\s+SCHEMA\b"
      "DROP SCHEMA deletes the schema and all objects within it"
      CRITICAL
      "All tables, views, functions in the schema lost."
      [mkSuggestion "pg_dump --schema={schema} {db} > schema.sql"
        "Dump schema first" PREVIEW_FIRST;
       mkSuggestion "DROP SCHEMA IF EXISTS {schema} CASCADE"
        "Use IF EXISTS for safety" SAFER_ALTERNATIVE];
  mkPattern "psql-truncate-table"
      "(?i)\bTRUNCATE\s+(?:TABLE\s+)?(?!TABLE\b)[a-zA-Z_][a-zA-Z0-9_]*"
      "TRUNCATE removes ALL rows from the table irreversibly"
      HIGH
      "All rows deleted. Cannot roll back in many contexts."
      [mkSuggestion "SELECT COUNT(*) FROM {table}"
        "Check row count before truncating" PREVIEW_FIRST;
       mkSuggestion "BEGIN; DELETE FROM {table}; ROLLBACK;"
        "Wrap in transaction — can roll back" SAFER_ALTERNATIVE];
  mkPattern "psql-delete-without-where"
      (("(?i)DELETE\s+FROM\s+(?:(?:[a-zA-Z_][a-zA-Z0-9_]*|\" +s+ sc dq +s+ "[^\" +s+ sc dq +s+ "]+\" +s+ sc dq +s+ ")(?:\.(?:[a-zA-Z_][a-zA-Z0-9_]*|\" +s+ sc dq +s+ "[^\" +s+ sc dq +s+ "]+\" +s+ sc dq +s+ "))?)\s*(?:;|$)"))
      "DELETE without WHERE clause removes ALL rows"
      HIGH
      "All rows deleted if WHERE clause is missing."
      [mkSuggestion "BEGIN; DELETE FROM {table} ... ; ROLLBACK;"
        "Wrap in transaction for safety" SAFER_ALTERNATIVE;
       mkSuggestion "DELETE FROM {table} WHERE {condition}"
        "Add a WHERE clause" SAFER_ALTERNATIVE];
  mkPattern "psql-dropdb-cli"
      "\bdropdb\s+"
      "dropdb CLI permanently deletes the entire database"
      CRITICAL
      "The dropdb command-line tool destroys the database cluster-side."
      [mkSuggestion "pg_dump {db} > {db}.sql"
        "Backup database before dropping" PREVIEW_FIRST;
       mkSuggestion "createdb {new_db}"
        "Create a new database instead of dropping" SAFER_ALTERNATIVE];
  mkPattern "psql-dump-clean"
      "pg_dump\s+.*(?:--clean|-c\b)"
      "pg_dump --clean adds DROP statements to the dump script"
      HIGH
      "Restoring the dump will DROP existing objects before recreating them."
      [mkSuggestion "pg_dump {db} > {db}.sql"
        "Dump without --clean for safe restore" PREVIEW_FIRST;
       mkSuggestion "pg_dump --clean --if-exists {db}"
        "Use --if-exists to avoid errors" SAFER_ALTERNATIVE];
  mkPattern "mysql-drop-database"
      "(?i)\bDROP\s+DATABASE\b"
      "DROP DATABASE permanently deletes the entire database"
      CRITICAL
      "All tables and data within the database lost."
      [mkSuggestion "mysqldump {db} > {db}.sql"
        "Dump database before dropping" PREVIEW_FIRST;
       mkSuggestion "CREATE DATABASE {new_db}"
        "Create a new database instead" SAFER_ALTERNATIVE];
  mkPattern "mysql-drop-table"
      "(?i)\bDROP\s+TABLE\b"
      "DROP TABLE permanently deletes the table"
      HIGH
      "Table definition and all rows lost."
      [mkSuggestion "mysqldump {db} {table} > {table}.sql"
        "Dump table before dropping" PREVIEW_FIRST;
       mkSuggestion "RENAME TABLE {table} TO {table}_old"
        "Rename as a safer alternative" SAFER_ALTERNATIVE];
  mkPattern "mysql-truncate-table"
      "(?i)\bTRUNCATE\s+(?:TABLE\s+)?(?!TABLE\b)[a-zA-Z_][a-zA-Z0-9_]*"
      "TRUNCATE removes ALL rows — cannot roll back in MySQL"
      HIGH
      "InnoDB: all rows removed implicitly. No per-row delete triggers fired."
      [mkSuggestion "SELECT COUNT(*) FROM {table}"
        "Check row count first" PREVIEW_FIRST;
       mkSuggestion "DELETE FROM {table} WHERE {condition}"
        "Use DELETE with WHERE if possible (InnoDB transaction)" SAFER_ALTERNATIVE];
  mkPattern "mysql-delete-without-where"
      "(?i)DELETE\s+FROM\s+(?:(?:[a-zA-Z_][a-zA-Z0-9_]*|`[^`]+`)(?:\.(?:[a-zA-Z_][a-zA-Z0-9_]*|`[^`]+`))?)\s*(?:;|$)"
      "DELETE without WHERE clause removes ALL rows"
      HIGH
      "All rows deleted if WHERE clause is missing."
      [mkSuggestion "BEGIN; DELETE FROM {table} ... ; ROLLBACK;"
        "Wrap in transaction for safety" SAFER_ALTERNATIVE;
       mkSuggestion "SELECT * FROM {table} LIMIT 100"
        "Preview rows first" PREVIEW_FIRST;
       mkSuggestion "DELETE FROM {table} WHERE {condition}"
        "Add a WHERE clause" SAFER_ALTERNATIVE];
  mkPattern "mysql-mysqladmin-drop"
      "mysqladmin\s+.*drop\b"
      "mysqladmin drop permanently deletes the entire database"
      CRITICAL
      "mysqladmin drop destroys the database server-side without confirmation."
      [mkSuggestion "mysqldump {db} > {db}.sql"
        "Dump database first" PREVIEW_FIRST;
       mkSuggestion "mysqladmin ping"
        "Check server status before destructive action" PREVIEW_FIRST];
  mkPattern "mysql-mysqldump-add-drop-database"
      "mysqldump\s+.*--add-drop-database"
      "mysqldump --add-drop-database adds DROP DATABASE to the dump"
      HIGH
      "Restoring the dump will DROP the database first."
      [mkSuggestion "mysqldump {db} > {db}.sql"
        "Dump without --add-drop-database" PREVIEW_FIRST;
       mkSuggestion "mysqldump --no-data {db} > schema.sql"
        "Dump schema only" PREVIEW_FIRST];
  mkPattern "mysql-mysqldump-add-drop-table"
      "mysqldump\s+.*--add-drop-table"
      "mysqldump --add-drop-table adds DROP TABLE before CREATE TABLE"
      MEDIUM
      "Existing tables will be dropped before restore."
      [mkSuggestion "mysqldump {db} > {db}.sql"
        "Dump without --add-drop-table" PREVIEW_FIRST;
       mkSuggestion "mysqldump --no-data {db} > schema.sql"
        "Dump schema only" PREVIEW_FIRST];
  mkPattern "mysql-grant-all"
      "(?i)GRANT\s+ALL\s+(?:PRIVILEGES\s+)?ON\s+\*\.\*"
      "GRANT ALL ON *.* gives unrestricted access to all databases"
      HIGH
      "Full administrative access granted across all databases."
      [mkSuggestion "GRANT {privileges} ON {db}.* TO {user}"
        "Grant only specific privileges on specific DBs" SAFER_ALTERNATIVE;
       mkSuggestion "SHOW GRANTS FOR {user}"
        "Check current grants first" PREVIEW_FIRST];
  mkPattern "mysql-drop-user"
      "(?i)\bDROP\s+USER\b"
      "DROP USER permanently deletes the user account"
      MEDIUM
      "User deleted. All privileges revoked. Existing connections may break."
      [mkSuggestion "DROP USER IF EXISTS {user}"
        "Avoid error if user does not exist" SAFER_ALTERNATIVE;
       mkSuggestion "REVOKE ALL PRIVILEGES ... FROM {user}"
        "Revoke privileges instead of dropping user" SAFER_ALTERNATIVE];
  mkPattern "mysql-reset-master"
      "(?i)\bRESET\s+MASTER\b"
      "RESET MASTER deletes all binary logs and resets binlog position"
      CRITICAL
      "Breaks replication. All binlog history lost."
      [mkSuggestion "SHOW BINARY LOGS"
        "Check binary log status before reset" PREVIEW_FIRST;
       mkSuggestion "PURGE BINARY LOGS BEFORE NOW()"
        "Remove old logs safely without full reset" SAFER_ALTERNATIVE];
  mkPattern "sqlite-drop-table"
      "(?i)\bDROP\s+TABLE\b"
      "DROP TABLE permanently deletes the table and all data"
      CRITICAL
      "Table and all rows deleted from the database file."
      [mkSuggestion "DROP TABLE IF EXISTS {table}"
        "Avoid error if table is missing" SAFER_ALTERNATIVE;
       mkSuggestion "sqlite3 {db} '.dump {table}' > {table}.sql"
        "Dump table before dropping" PREVIEW_FIRST];
  mkPattern "sqlite-delete-without-where"
      "(?i)DELETE\s+FROM\s+[a-zA-Z_][a-zA-Z0-9_]*\s*(?:;|$)"
      "DELETE without WHERE clause removes ALL rows"
      CRITICAL
      "SQLite does not support TRUNCATE. DELETE without WHERE removes all rows."
      [mkSuggestion "BEGIN; DELETE FROM {table} ... ; ROLLBACK;"
        "Wrap in transaction for safety" SAFER_ALTERNATIVE;
       mkSuggestion "SELECT COUNT(*) FROM {table}"
        "Check row count first" PREVIEW_FIRST];
  mkPattern "sqlite-vacuum-into"
      "(?i)VACUUM\s+INTO\s+"
      "VACUUM INTO overwrites the target file if it exists"
      MEDIUM
      "Target file is overwritten without warning."
      [mkSuggestion "VACUUM"
        "Vacuum in-place without overwriting another file" SAFER_ALTERNATIVE;
       mkSuggestion "PRAGMA page_count"
        "Check database size first" PREVIEW_FIRST];
  mkPattern "sqlite-sqlite3-file-input"
      "sqlite3\s+[^\s]+\s+<\s+"
      "SQL loaded from file may contain destructive commands"
      HIGH
      "Read SQL from file command — file contents not inspected by guard."
      [mkSuggestion "sqlite3 {db} '.read {file}'"
        "Use dot-command to read file in-process" SAFER_ALTERNATIVE;
       mkSuggestion "cat {file} | sqlite3 {db}"
        "Pipe file contents for visibility" SAFER_ALTERNATIVE];
  mkPattern "mongodb-drop-database"
      "\.dropDatabase\s*\("
      "dropDatabase() permanently deletes the entire database"
      CRITICAL
      "All collections, indexes, and data lost."
      [mkSuggestion "db.adminCommand('listDatabases')"
        "List databases first" PREVIEW_FIRST;
       mkSuggestion "mongodump --db {db}"
        "Backup before dropping" PREVIEW_FIRST];
  mkPattern "mongodb-drop-collection"
      "\.drop\s*\(\s*\)|\.dropCollection\s*\("
      "drop()/dropCollection() permanently deletes the collection"
      HIGH
      "All documents and indexes in the collection lost."
      [mkSuggestion "db.{coll}.find().limit(10)"
        "Preview documents first" PREVIEW_FIRST;
       mkSuggestion "mongodump --collection {coll} --db {db}"
        "Backup collection first" PREVIEW_FIRST];
  mkPattern "mongodb-delete-all"
      "\.(?:remove|deleteMany)\s*\(\s*\{\s*\}\s*\)"
      "remove({})/deleteMany({}) removes ALL documents"
      HIGH
      "All documents in the collection deleted."
      [mkSuggestion "db.{coll}.find().limit(100)"
        "Preview documents first" PREVIEW_FIRST;
       mkSuggestion "db.{coll}.deleteMany({filter})"
        "Use a filter for selective deletion" SAFER_ALTERNATIVE];
  mkPattern "mongodb-mongorestore-drop"
      "mongorestore\s+.*--drop"
      "mongorestore --drop drops existing collections before restoring"
      HIGH
      "Existing collections are dropped before data restoration."
      [mkSuggestion "mongodump --db {db} --out /tmp/backup"
        "Backup before restoring" PREVIEW_FIRST;
       mkSuggestion "mongorestore --nsInclude {db}.*"
        "Restore specific namespaces only" SAFER_ALTERNATIVE];
  mkPattern "redis-flushall"
      "(?i)\bFLUSHALL\b"
      "FLUSHALL deletes ALL keys in ALL databases"
      CRITICAL
      "Every key in every database is deleted immediately."
      [mkSuggestion "redis-cli --scan --pattern '*' | head -20"
        "Preview keys in all databases first" PREVIEW_FIRST;
       mkSuggestion "redis-cli DBSIZE"
        "Check number of keys before flushing" PREVIEW_FIRST];
  mkPattern "redis-flushdb"
      "(?i)\bFLUSHDB\b"
      "FLUSHDB deletes ALL keys in the current database"
      HIGH
      "All keys in the selected database deleted."
      [mkSuggestion "redis-cli --scan --pattern '*' | head -20"
        "Preview keys first" PREVIEW_FIRST;
       mkSuggestion "redis-cli DBSIZE"
        "Check key count before flushing" PREVIEW_FIRST];
  mkPattern "redis-mass-delete-pipeline"
      "(?i)\bredis-cli\b.*\b(?:KEYS\b|--scan\b|SCAN\b).*\|\s*xargs\s+(?:-\S+(?:\s+\S+)?\s+)*redis-cli(?:\s+\S+)*\s+(?:DEL|UNLINK)\b"
      "KEYS/SCAN piped through xargs to DEL/UNLINK mass-deletes many keys"
      HIGH
      "Mass key deletion via pipe. Can affect many keys at once."
      [mkSuggestion "redis-cli --bigkeys"
        "Check key distribution first" PREVIEW_FIRST;
       mkSuggestion "redis-cli --scan --pattern 'prefix:*'"
        "Use a specific prefix for targeted deletion" SAFER_ALTERNATIVE];
  mkPattern "redis-debug-crash"
      "(?i)\bDEBUG\s+(?:SEGFAULT|CRASH)\b"
      "DEBUG SEGFAULT/CRASH crashes the Redis server"
      CRITICAL
      "Redis server process crashes. Data loss may occur."
      [mkSuggestion "redis-cli PING"
        "Check server health instead" PREVIEW_FIRST;
       mkSuggestion "redis-cli INFO server"
        "Check server info instead" PREVIEW_FIRST];
  mkPattern "redis-debug-sleep"
      "(?i)\bDEBUG\s+SLEEP\b"
      "DEBUG SLEEP blocks the Redis server"
      HIGH
      "Redis blocked for N seconds. All clients time out."
      [mkSuggestion "redis-cli PING"
        "Check server health instead" PREVIEW_FIRST;
       mkSuggestion "redis-cli LATENCY LATEST"
        "Check latency first" PREVIEW_FIRST];
  mkPattern "redis-shutdown"
      REDIS_SHUTDOWN_RE
      "SHUTDOWN stops the Redis server (SHUTDOWN NOSAVE loses data)"
      HIGH
      "Redis server shut down gracefully (or with NOSAVE, losing data)."
      [mkSuggestion "redis-cli SAVE"
        "Save RDB before shutdown" PREVIEW_FIRST;
       mkSuggestion "redis-cli BGSAVE"
        "Background save before shutdown" PREVIEW_FIRST];
  mkPattern "redis-config-dangerous"
      "(?i)\bCONFIG\s+SET\s+(?:dir|dbfilename|slaveof|replicaof)\b"
      "CONFIG SET dir/dbfilename/slaveof can enable RCE or data exfiltration"
      CRITICAL
      "Changing dir+dbfilename writes key data outside data dir. slaveof/replicaof can leak keys to attacker."
      [mkSuggestion "redis-cli CONFIG GET dir"
        "Check current directory first" PREVIEW_FIRST;
       mkSuggestion "redis-cli CONFIG GET dbfilename"
        "Check current filename first" PREVIEW_FIRST];
  mkPattern "redis-config-set-maxmemory"
      "(?i)\bCONFIG\s+SET\s+maxmemory\b(?:\s|$)"
      "CONFIG SET maxmemory can trigger mass key eviction"
      CRITICAL
      "Setting maxmemory too low causes Redis to evict keys aggressively."
      [mkSuggestion "redis-cli INFO memory"
        "Check current memory usage first" PREVIEW_FIRST;
       mkSuggestion "redis-cli MEMORY STATS"
        "Detailed memory analysis" SAFER_ALTERNATIVE];
  mkPattern "redis-config-set-maxmemory-policy"
      "(?i)\bCONFIG\s+SET\s+maxmemory-policy\b"
      "CONFIG SET maxmemory-policy changes eviction policy — risk of data loss"
      CRITICAL
      "Changing to allkeys-lru or volatile-ttl can evict any key."
      [mkSuggestion "redis-cli CONFIG GET maxmemory-policy"
        "Check current policy first" PREVIEW_FIRST;
       mkSuggestion "redis-cli INFO stats"
        "Check eviction stats first" PREVIEW_FIRST];
  mkPattern "redis-config-set-save"
      "(?i)\bCONFIG\s+SET\s+save\b"
      "CONFIG SET save can disable RDB persistence entirely"
      HIGH
      "Setting save to empty disables snapshots. Data lost on restart."
      [mkSuggestion "redis-cli CONFIG GET save"
        "Check current save config first" PREVIEW_FIRST;
       mkSuggestion "redis-cli LASTSAVE"
        "Check last save timestamp" PREVIEW_FIRST];
  mkPattern "redis-config-set-appendonly"
      "(?i)\bCONFIG\s+SET\s+appendonly\b"
      "CONFIG SET appendonly can disable AOF persistence"
      HIGH
      "Disabling AOF removes append-only log. Data may be lost on restart."
      [mkSuggestion "redis-cli CONFIG GET appendonly"
        "Check current AOF status first" PREVIEW_FIRST;
       mkSuggestion "redis-cli INFO persistence"
        "Check persistence status" PREVIEW_FIRST];
  mkPattern "redis-config-rewrite"
      "(?i)\bCONFIG\s+REWRITE\b"
      "CONFIG REWRITE saves runtime changes to redis.conf permanently"
      HIGH
      "Runtime CONFIG SET changes are persisted to disk."
      [mkSuggestion "redis-cli CONFIG GET *"
        "Review current config before persisting" PREVIEW_FIRST;
       mkSuggestion "redis-cli INFO server"
        "Check server info before rewriting config" PREVIEW_FIRST]
].

Definition build_database_pack : Pack :=
  mkPack "database" "Database destructive patterns"
    (DATABASE_PATTERNS)
    ["psql"; "mysql"; "sqlite3"; "mongosh"; "redis-cli"; "drop"; "truncate"; "delete"; "flushall"; "flushdb"; "config"; "debug"; "shutdown"; "reset"; "dropdb"; "mysqldump"; "mysqladmin"; "grant"; "vacuum"; "mongorestore"; "pipeline"; "slaveof"; "replicaof"; "dbfilename"; "maxmemory"; "appendonly"; "pg_dump"; "remove"; "db."].

(** ** The secrets pack (app/packs/secrets.py) *)

Definition SECRETS_PATTERNS : list DestructivePattern := [
  mkPattern "vault-secrets-disable"
      "vault(?:\s+--?\S+(?:\s+\S+)?)*\s+secrets\s+disable\b"
      "vault secrets disable deactivates a secrets engine"
      CRITICAL
      "vault secrets disable shuts down a secrets engine. All secrets stored in it are lost immediately; applications lose access to credentials."
      [mkSuggestion "vault secrets list"
        "Review enabled secrets engines first" PREVIEW_FIRST;
       mkSuggestion "vault kv list {path}"
        "Check what secrets exist in the engine" PREVIEW_FIRST];
  mkPattern "vault-kv-destroy"
      "vault(?:\s+--?\S+(?:\s+\S+)?)*\s+kv\s+destroy\b"
      "vault kv destroy permanently destroys secret versions"
      CRITICAL
      "vault kv destroy permanently deletes secret versions — they cannot be recovered, even with the delete version path. No undelete possible."
      [mkSuggestion "vault kv get -version={version} {path}"
        "Read the version before destroying it" PREVIEW_FIRST;
       mkSuggestion "vault kv delete {path}"
        "Use soft delete — versions stay recoverable via undelete" SAFER_ALTERNATIVE];
  mkPattern "vault-kv-metadata-delete"
      "vault(?:\s+--?\S+(?:\s+\S+)?)*\s+kv\s+metadata\s+delete\b"
      "vault kv metadata delete removes all versions and metadata"
      CRITICAL
      "vault kv metadata delete permanently removes the secret AND all its versions plus metadata. The path is gone entirely."
      [mkSuggestion "vault kv metadata get {path}"
        "Review version history and metadata first" PREVIEW_FIRST;
       mkSuggestion "vault kv get -format=json {path} | jq ."
        "Export the secret value before deletion" PREVIEW_FIRST];
  mkPattern "vault-kv-delete"
      "vault(?:\s+--?\S+(?:\s+\S+)?)*\s+kv\s+delete\b"
      "vault kv delete removes the latest secret version"
      HIGH
      "vault kv delete removes the latest version of a secret. Older versions may remain, but applications reading the secret lose access."
      [mkSuggestion "vault kv get {path}"
        "Check current value before deleting" PREVIEW_FIRST;
       mkSuggestion "vault kv put {path} {key}={value}"
        "Rotate the secret with a new value instead" SAFER_ALTERNATIVE];
  mkPattern "vault-delete"
      "vault(?:\s+--?\S+(?:\s+\S+)?)*\s+delete\b"
      "vault delete removes a secret from the active engine"
      HIGH
      "vault delete removes a secret via the generic delete endpoint. Behavior depends on the engine; for KV v1 the value is gone for good."
      [mkSuggestion "vault read {path}"
        "Read the secret before deleting" PREVIEW_FIRST;
       mkSuggestion "vault write {path} {key}={value}"
        "Write a new value instead of deleting" SAFER_ALTERNATIVE];
  mkPattern "vault-policy-delete"
      "vault(?:\s+--?\S+(?:\s+\S+)?)*\s+policy\s+delete\b"
      "vault policy delete removes an access policy"
      HIGH
      "vault policy delete removes an access control policy. Tokens and roles relying on it lose permissions — can cause lockout."
      [mkSuggestion "vault policy read {name}"
        "Read the policy before deleting" PREVIEW_FIRST;
       mkSuggestion "vault policy write {name} {file}"
        "Write a revised policy instead of deleting" SAFER_ALTERNATIVE];
  mkPattern "vault-auth-disable"
      "vault(?:\s+--?\S+(?:\s+\S+)?)*\s+auth\s+disable\b"
      "vault auth disable deactivates an auth method"
      CRITICAL
      "vault auth disable turns off an authentication method. Users and machines authenticating through it can no longer log in."
      [mkSuggestion "vault auth list"
        "Review enabled auth methods first" PREVIEW_FIRST;
       mkSuggestion "vault auth tune -listing-visibility=unauth {path}"
        "Adjust visibility instead of disabling the method" SAFER_ALTERNATIVE];
  mkPattern "vault-token-revoke"
      "vault(?:\s+--?\S+(?:\s+\S+)?)*\s+token\s+revoke\b"
      "vault token revoke invalidates access tokens"
      HIGH
      "vault token revoke invalidates tokens immediately. Revoking the wrong token can break applications mid-operation."
      [mkSuggestion "vault token lookup {token}"
        "Look up the token before revoking" PREVIEW_FIRST;
       mkSuggestion "vault token revoke -accessor {accessor}"
        "Revoke by accessor for precise targeting" SAFER_ALTERNATIVE];
  mkPattern "vault-lease-revoke"
      "vault(?:\s+--?\S+(?:\s+\S+)?)*\s+lease\s+revoke\b"
      "vault lease revoke invalidates dynamic credentials"
      HIGH
      "vault lease revoke invalidates dynamic secrets (DB creds, AWS creds, certificates). Dependent services lose credentials immediately."
      [mkSuggestion "vault lease lookup {lease_id}"
        "Look up the lease before revoking" PREVIEW_FIRST;
       mkSuggestion "vault lease revoke-prefix {path}"
        "Revoke by prefix to target a specific app's leases" SAFER_ALTERNATIVE];
  mkPattern "aws-secretsmanager-delete-resource-policy"
      "aws(?:\s+--?\S+(?:\s+\S+)?)*\s+secretsmanager\s+delete-resource-policy\b"
      "aws secretsmanager delete-resource-policy removes access policy"
      HIGH
      "Removes the resource policy from a secret. Applications and cross-account consumers lose access to the secret."
      [mkSuggestion "aws secretsmanager describe-secret --secret-id {id}"
        "Check who uses this secret first" PREVIEW_FIRST;
       mkSuggestion "aws secretsmanager get-resource-policy --secret-id {id}"
        "Save the policy before removing it" PREVIEW_FIRST];
  mkPattern "aws-secretsmanager-remove-regions"
      "aws(?:\s+--?\S+(?:\s+\S+)?)*\s+secretsmanager\s+remove-regions-from-replication\b"
      "aws secretsmanager remove-regions-from-replication stops replication"
      MEDIUM
      "Stops secret replication to specified regions. If the primary region fails, replicated copies are no longer available."
      [mkSuggestion "aws secretsmanager describe-secret --secret-id {id}"
        "Check replication status first" PREVIEW_FIRST;
       mkSuggestion "aws secretsmanager replicate-secret-to-regions"
        "Re-add replication if needed" SAFER_ALTERNATIVE];
  mkPattern "aws-ssm-delete-parameter"
      "aws(?:\s+--?\S+(?:\s+\S+)?)*\s+ssm\s+delete-parameter\b"
      "aws ssm delete-parameter removes a parameter from Parameter Store"
      HIGH
      "Deletes a parameter from SSM Parameter Store. Applications reading this parameter lose their configuration or secret."
      [mkSuggestion "aws ssm get-parameter --name {name}"
        "Read the parameter before deleting" PREVIEW_FIRST;
       mkSuggestion "aws ssm describe-parameters --parameter-filters"
        "Check which services reference it" PREVIEW_FIRST];
  mkPattern "aws-ssm-delete-parameters"
      "aws(?:\s+--?\S+(?:\s+\S+)?)*\s+ssm\s+delete-parameters\b"
      "aws ssm delete-parameters removes multiple parameters"
      HIGH
      "Batch-deletes parameters from Parameter Store. Multiple applications can break at once if any parameter is in use."
      [mkSuggestion "aws ssm get-parameters --names {names}"
        "Read all parameters before deleting" PREVIEW_FIRST;
       mkSuggestion "aws ssm get-parameters-by-path --path {path} --recursive"
        "Inventory all parameters in the path first" PREVIEW_FIRST];
  mkPattern "doppler-secrets-delete"
      "doppler(?:\s+--?\S+(?:\s+\S+)?)*\s+secrets\s+delete\b"
      "doppler secrets delete removes secrets from a config"
      HIGH
      "Deletes secrets from a Doppler config. Deployed environments lose those values on next sync."
      [mkSuggestion "doppler secrets get {name}"
        "Read the secret before deleting" PREVIEW_FIRST;
       mkSuggestion "doppler secrets set {name}={value}"
        "Rotate the secret instead of deleting" SAFER_ALTERNATIVE];
  mkPattern "doppler-projects-delete"
      "doppler(?:\s+--?\S+(?:\s+\S+)?)*\s+projects\s+delete\b"
      "doppler projects delete removes an entire project"
      CRITICAL
      "Deletes a whole Doppler project with all configs and secrets. Environment deployments break everywhere."
      [mkSuggestion "doppler projects list"
        "Review projects before deleting" PREVIEW_FIRST;
       mkSuggestion "doppler secrets download {project}/{config} > backup.json"
        "Back up all secrets first" PREVIEW_FIRST];
  mkPattern "doppler-environments-delete"
      "doppler(?:\s+--?\S+(?:\s+\S+)?)*\s+environments\s+delete\b"
      "doppler environments delete removes an environment"
      HIGH
      "Deletes a Doppler environment. Deployments targeting that environment stop resolving secrets."
      [mkSuggestion "doppler environments list"
        "Review environments first" PREVIEW_FIRST;
       mkSuggestion "doppler secrets download {project}/{env} > backup.json"
        "Back up before deleting" PREVIEW_FIRST];
  mkPattern "doppler-configs-delete"
      "doppler(?:\s+--?\S+(?:\s+\S+)?)*\s+configs\s+delete\b"
      "doppler configs delete removes a config"
      HIGH
      "Deletes a Doppler config (e.g. dev/staging/prod). Environments referencing it lose their secret source."
      [mkSuggestion "doppler configs list"
        "Review configs first" PREVIEW_FIRST;
       mkSuggestion "doppler secrets download {project}/{config} > backup.json"
        "Back up secrets before deleting" PREVIEW_FIRST];
  mkPattern "op-item-delete"
      "op(?:\s+--?\S+(?:\s+\S+)?)*\s+item\s+delete\b"
      "op item delete permanently deletes a 1Password item"
      HIGH
      "Permanently deletes a 1Password item (login, password, etc.). Deletion bypasses the trash if --permanent is used."
      [mkSuggestion "op item get {item}"
        "Read the item before deleting" PREVIEW_FIRST;
       mkSuggestion "op item create --category={category} ..."
        "Recreate the item after verifying" SAFER_ALTERNATIVE];
  mkPattern "op-document-delete"
      "op(?:\s+--?\S+(?:\s+\S+)?)*\s+document\s+delete\b"
      "op document delete removes a 1Password document"
      HIGH
      "Permanently deletes a 1Password document item."
      [mkSuggestion "op document get {document}"
        "Download the document before deleting" PREVIEW_FIRST;
       mkSuggestion "op item create --category=DOCUMENT ..."
        "Recreate after verifying contents" SAFER_ALTERNATIVE];
  mkPattern "op-vault-delete"
      "op(?:\s+--?\S+(?:\s+\S+)?)*\s+vault\s+delete\b"
      "op vault delete removes an entire 1Password vault"
      CRITICAL
      "Deletes an entire 1Password vault with all items. Export first — this is irreversible."
      [mkSuggestion "op vault get {vault}"
        "Review the vault before deleting" PREVIEW_FIRST;
       mkSuggestion "op vault export {vault} > vault-backup.1pux"
        "Export the vault before deletion" PREVIEW_FIRST];
  mkPattern "op-user-delete"
      "op(?:\s+--?\S+(?:\s+\S+)?)*\s+user\s+delete\b"
      "op user delete removes a 1Password user"
      HIGH
      "Removes a user from the 1Password account. They lose access to all shared vaults immediately."
      [mkSuggestion "op user get {user}"
        "Review user details first" PREVIEW_FIRST;
       mkSuggestion "op user suspend {user}"
        "Suspend instead — reversible" SAFER_ALTERNATIVE];
  mkPattern "op-group-delete"
      "op(?:\s+--?\S+(?:\s+\S+)?)*\s+group\s+delete\b"
      "op group delete removes a 1Password group"
      HIGH
      "Removes a 1Password group. Members lose group-level vault access."
      [mkSuggestion "op group get {group}"
        "Review group members first" PREVIEW_FIRST;
       mkSuggestion "op user list --group={group}"
        "Check which users are affected" PREVIEW_FIRST];
  mkPattern "op-connect-token-delete"
      "op(?:\s+--?\S+(?:\s+\S+)?)*\s+connect\s+token\s+delete\b"
      "op connect token delete revokes a Connect service token"
      HIGH
      "Deletes a 1Password Connect token. Applications using that token lose access to secrets immediately."
      [mkSuggestion "op connect token get {token}"
        "Review token details first" PREVIEW_FIRST;
       mkSuggestion "op connect token create ..."
        "Create a replacement token after verifying" SAFER_ALTERNATIVE]
].

Definition build_secrets_pack : Pack :=
  mkPack "secrets" "Secrets"
    (SECRETS_PATTERNS)
    ["vault"; "secretsmanager"; "ssm"; "doppler"; "1password"; "op "].
