(* ===== verification/Registry.v ===== *)
(** * The registry of all packs (app/packs/registry.py), and the scanner interface

    The policy gates call the registry through [Scanner], which is all they know of it: what
    they prove holds for any set of packs; [registry_scanner] is the shipped one. *)
From S2P Require Import Prelude PyStr Regex RegexParse RegexFacts PolicyTypes Packs.
From S2P Require Import PackSystem PackCloud PackNetwork PackDev.
From stdpp Require Import options.

Definition shipped_packs : list Pack := [
  build_backup_pack; build_docker_pack; build_filesystem_pack; build_kubernetes_pack;
  build_cloud_pack; build_cicd_pack; build_database_pack; build_dns_pack; build_git_pack;
  build_firewall_pack; build_loadbalancer_pack; build_monitoring_pack;
  build_package_managers_pack; build_secrets_pack; build_storage_pack; build_system_pack].

Definition build_registry : PackRegistry := fold_left register shipped_packs empty_registry.

(** [get_registry()]: the module-level singleton, built on first use and never changed after *)
Definition get_registry : PackRegistry := build_registry.

(** What the gates call: [get_registry().evaluate] and [get_registry().evaluate_pack] *)
Class Scanner : Type := {
  scan_all : string -> list DestructiveMatch;
  scan_pack : string -> string -> list DestructiveMatch }.

#[export] Instance registry_scanner : Scanner :=
  {| scan_all := evaluate get_registry; scan_pack := evaluate_pack get_registry |}.

(** A scanner that knows no pattern: the gates alone *)
Definition null_scanner : Scanner := {| scan_all _ := []; scan_pack _ _ := [] |}.

(** ** Registries built by [register] *)

(** The keyword index is the one of the packs. *)
Definition index_ok (rg : PackRegistry) : Prop :=
  rg_all_keywords rg = sorted_set (flat_map pk_keywords (values (rg_packs rg))).
(** Packs are stored under their own id, once each. *)
Definition ids_ok (rg : PackRegistry) : Prop :=
  NoDup (keys (rg_packs rg)) /\ Forall (fun kp => fst kp = pk_id (snd kp)) (rg_packs rg).

Lemma dict_set_own (p : Pack) d :
  Forall (fun kp => fst kp = pk_id (snd kp)) d ->
  Forall (fun kp => fst kp = pk_id (snd kp)) (dict_set (pk_id p) p d).
Proof.
  induction 1 as [|[k v] r Hk Hr IH]; simpl; [by repeat constructor |].
  destruct (String.eqb_spec (pk_id p) k); constructor; simpl; auto.
Qed.

Lemma register_ok rg p : ids_ok rg -> ids_ok (register rg p) /\ index_ok (register rg p).
Proof.
  intros [Hn Hf]. repeat split; simpl; [by apply dict_set_NoDup | by apply dict_set_own].
Qed.

Lemma In_insert_sorted x y l : In x (insert_sorted y l) <-> x = y \/ In x l.
Proof.
  induction l as [|z r IH]; simpl; [intuition congruence |].
  destruct (String.eqb_spec y z); subst; simpl; [intuition congruence |].
  destruct (String.ltb y z); simpl; rewrite ?IH; intuition congruence.
Qed.
Lemma In_sorted_set x l : In x (sorted_set l) <-> In x l.
Proof.
  induction l as [|y r IH]; simpl; [done |]. rewrite In_insert_sorted, IH. intuition congruence.
Qed.

Lemma any_keyword_true kws c :
  any_keyword kws c = true <->
  kws = [] \/ exists kw, In kw kws /\ contains (lower kw) (lower c) = true.
Proof.
  unfold any_keyword. destruct kws as [|k r]; [intuition |].
  rewrite existsb_exists. intuition; try discriminate.
Qed.

Lemma any_keyword_incl kws kws' c : kws <> [] -> (forall k, In k kws -> In k kws') ->
  any_keyword kws c = true -> any_keyword kws' c = true.
Proof.
  rewrite !any_keyword_true. intros Hne Hincl [-> | (kw & Hin & Hc)]; [done |]. eauto.
Qed.

(** The quick reject never hides a pack that has keywords of its own. *)
Lemma quick_reject_sound rg c :
  index_ok rg -> Forall (fun p => pk_keywords p <> []) (values (rg_packs rg)) ->
  passes_quick_reject rg c = false ->
  flat_map (fun p => check p c) (values (rg_packs rg)) = [].
Proof.
  unfold passes_quick_reject. intros Hi Hk Hq. rewrite Hi in Hq.
  assert (forall p, In p (values (rg_packs rg)) -> matches_keywords p c = false) as Hm.
  { intros p Hp. destruct (matches_keywords p c) eqn:E; [| done].
    rewrite <- Hq. symmetry. eapply any_keyword_incl; [| | exact E].
    - rewrite List.Forall_forall in Hk. by apply Hk.
    - intros k Hkin. apply In_sorted_set, in_flat_map. eauto. }
  clear -Hm. induction (values (rg_packs rg)) as [|p r IH]; simpl; [done |].
  unfold check at 1. rewrite Hm by (simpl; auto). simpl. apply IH. intros. apply Hm. simpl; auto.
Qed.
