(* ===== verification/Prefilter.v ===== *)
(** * When a pack's keyword quick-reject loses nothing

    A pack skips its patterns on a command that holds none of its keywords.  A static
    analysis of a pattern ([must_hold]) decides, soundly, that each text it matches holds a
    keyword; for a pack all of whose patterns pass, [check] is the unfiltered check. *)
From S2P Require Import Prelude PyStr Regex RegexParse RegexFacts PolicyTypes Packs Registry.
From stdpp Require Import options.

(** ** The analysis *)
Section Analysis.
Variable kws : list string.

(** A keyword occurs in [t], whatever its case; [t] is lower-cased already. *)
Definition kw_in (t : string) : bool := existsb (fun k => contains (lower k) t) kws.

(** Read [r] after a text that ends with the literal run [run]: whether a keyword has been
    met for sure, and the literal run the text now ends with. *)
Fixpoint read_run (r : regex) (run : string) : bool * string :=
  match r with
  | REps | RBol | REol | RWordB _ | RAhead _ _ | RBehind _ _ _ => (false, run)
  | RChar (KSet false [CLit c]) => (false, run +s+ sc (lower_char c))
  | RChar _ | RBackref _ => (kw_in run, "")
  | RSeq a b =>
      let '(f1, r1) := read_run a run in
      let '(f2, r2) := read_run b r1 in (f1 || f2, r2)
  | RAlt a b =>
      let '(f1, r1) := read_run a run in
      let '(f2, r2) := read_run b run in
      ((f1 || kw_in r1) && (f2 || kw_in r2), if String.eqb r1 r2 then r1 else "")
  | RRep lo _ _ a =>
      let '(f1, r1) := read_run a "" in
      (kw_in run || (negb (lo =? 0)%nat && (f1 || kw_in r1)), "")
  | RGroup _ a | RIcase a => read_run a run
  end.

Definition must_hold (r : regex) : bool := let '(f, run) := read_run r "" in f || kw_in run.
End Analysis.

(** ** Soundness *)
Lemma contains_app sub a b : contains sub a = true -> contains sub (a +s+ b) = true.
Proof.
  rewrite !contains_spec. intros (x & y & ->). exists x, (y +s+ b). by rewrite !append_assoc.
Qed.
Lemma contains_app_l sub a b : contains sub b = true -> contains sub (a +s+ b) = true.
Proof.
  rewrite !contains_spec. intros (x & y & ->). exists (a +s+ x), y. by rewrite !append_assoc.
Qed.
Lemma kw_in_app kws a b : kw_in kws a = true -> kw_in kws (a +s+ b) = true.
Proof.
  unfold kw_in. rewrite !existsb_exists. intros (k & ? & ?). exists k. eauto using contains_app.
Qed.
Lemma kw_in_app_l kws a b : kw_in kws b = true -> kw_in kws (a +s+ b) = true.
Proof.
  unfold kw_in. rewrite !existsb_exists. intros (k & ? & ?). exists k. eauto using contains_app_l.
Qed.

(** The text between two states of a match *)
Definition eats (s s' : mst) (t : string) : Prop := m_suf s = t +s+ m_suf s'.

Lemma eats_trans a b c t u : eats a b t -> eats b c u -> eats a c (t +s+ u).
Proof. unfold eats. intros -> ->. by rewrite append_assoc. Qed.
Definition moves (R : mst -> mst -> Prop) : Prop := forall a b, R a b -> exists t, eats a b t.

Lemma iterR_moves R n : moves R -> moves (iterR R n).
Proof.
  intros HR. induction n as [|n IH]; intros a b; simpl; [by intros ->; exists "" |].
  intros (c & [t Ht]%HR & [u Hu]%IH). eauto using eats_trans.
Qed.
Lemma tailR_moves R left last : moves R -> moves (tailR R left last).
Proof.
  intros HR a b. induction 1 as [| ? ? ? ? ? _ [t Ht]%HR _ [u Hu]]; [by exists "" |].
  eauto using eats_trans.
Qed.
Lemma lookR_moves neg P s s' : lookR neg P s s' -> eats s s' "".
Proof. destruct neg; simpl; [by intros [_ ->] | by intros (? & _ & ->)]. Qed.
Lemma eat_moves fl t s s' : eat fl t s = Some s' -> exists u, eats s s' u.
Proof.
  revert s. induction t as [|a t IH]; simpl; intros s H; [injection H as ->; by exists "" |].
  destruct s as [p [|b u] cs]; simpl in *; [discriminate |].
  destruct (if f_ignorecase fl then _ else _); [| discriminate].
  apply IH in H as [v Hv]. exists (String b v). unfold eats in *. simpl in *. by rewrite Hv.
Qed.

Lemma Den_moves fl r : moves (Den fl r).
Proof.
  revert fl. induction r; intros fl a b H; simpl in H.
  - subst. by exists "".
  - destruct H as (c & t & E & _ & ->). exists (sc c). unfold eats, advance. by rewrite E.
  - destruct H as (s1 & [t Ht]%IHr1 & [u Hu]%IHr2). exists (t +s+ u). by eapply eats_trans.
  - destruct H as [H | H]; [by apply (IHr1 fl) | by apply (IHr2 fl)].
  - destruct H as (s1 & H1 & H2). apply (iterR_moves _ _ (IHr fl)) in H1 as [t Ht].
    apply (tailR_moves _ _ _ (IHr fl)) in H2 as [u Hu]. exists (t +s+ u). by eapply eats_trans.
  - destruct H as (s1 & [t Ht]%IHr & ->). exists t. exact Ht.
  - destruct H as (t & _ & H). by apply (eat_moves fl t).
  - by apply (IHr (mkflags true (f_dotall fl))).
  - apply lookR_moves in H. by exists "".
  - apply lookR_moves in H. by exists "".
  - destruct H as [_ ->]. by exists "".
  - destruct H as [_ ->]. by exists "".
  - destruct H as [_ ->]. by exists "".
Qed.

(** [run] is what the lower-cased text ends with. *)
Definition ends_with (t run : string) : Prop := exists a, t = a +s+ run.

Lemma kw_in_ends kws t run : ends_with t run -> kw_in kws run = true -> kw_in kws t = true.
Proof. intros [a ->]. apply kw_in_app_l. Qed.
Lemma ends_with_nil t : ends_with t "".
Proof. exists t. by rewrite append_nil_r. Qed.
#[local] Hint Resolve ends_with_nil kw_in_ends kw_in_app : gw.

Lemma lit_case fl a c : class_test fl (KSet false [CLit c]) a = true ->
  lower_char a = lower_char c.
Proof.
  simpl. rewrite orb_false_r. unfold item_test_f. simpl.
  assert (Hu : lower_char (upper_char a) = lower_char a).
  { apply Ascii.eqb_eq. revert a. apply ascii_forall. by_eval. }
  destruct (f_ignorecase fl); [| by intros ->%Ascii.eqb_eq].
  intros [H%Ascii.eqb_eq | H%Ascii.eqb_eq]%orb_true_iff; rewrite <- H;
    [symmetry; apply lower_char_idem | done].
Qed.

(** The claim about one expression: whatever was read before ([pre], lower-cased). *)
Definition reads (kws : list string) (R : mst -> mst -> Prop) (rd : string -> bool * string)
    : Prop :=
  forall s s' t pre run, R s s' -> eats s s' t -> ends_with pre run ->
    (fst (rd run) = true -> kw_in kws (pre +s+ lower t) = true) /\
    ends_with (pre +s+ lower t) (snd (rd run)).

Lemma eats_split s s1 s2 t u v :
  eats s s1 t -> eats s1 s2 u -> eats s s2 v -> v = t +s+ u.
Proof.
  unfold eats. intros H1 H2 H3. rewrite H1, H2, <- append_assoc in H3.
  apply (f_equal srev) in H3. rewrite !srev_append in H3. apply append_inj_l in H3.
  apply (f_equal srev) in H3. rewrite !srev_append, !srev_involutive in H3. done.
Qed.

Lemma ends_with_break kws pre run t :
  ends_with pre run -> kw_in kws run = true -> kw_in kws (pre +s+ lower t) = true.
Proof. eauto with gw. Qed.

Lemma iterR_first (R : mst -> mst -> Prop) n s s' : n <> 0%nat -> iterR R n s s' ->
  exists s1, R s s1 /\ iterR R (pred n) s1 s'.
Proof. destruct n; [done |]. eauto. Qed.

Lemma reads_nothing kws (R : mst -> mst -> Prop) :
  (forall s s', R s s' -> eats s s' "") -> reads kws R (fun run => (false, run)).
Proof.
  intros HR s s' t pre run H Ht Hr. apply HR in H. unfold eats in *. rewrite H in Ht.
  assert (t = "") as ->.
  { simpl in Ht. apply (f_equal slen) in Ht. rewrite slen_app in Ht.
    destruct t; [done | unfold slen in Ht; simpl in Ht; lia]. }
  simpl. rewrite append_nil_r. by split.
Qed.

Lemma reads_break kws (R : mst -> mst -> Prop) : reads kws R (fun run => (kw_in kws run, "")).
Proof. intros s s' t pre run _ _ Hr. split; simpl; eauto with gw. Qed.

Lemma reads_seq kws R1 R2 f1 f2 : moves R1 -> moves R2 -> reads kws R1 f1 -> reads kws R2 f2 ->
  reads kws (fun s s' => exists s1, R1 s s1 /\ R2 s1 s')
    (fun run => let '(b1, r1) := f1 run in let '(b2, r2) := f2 r1 in (b1 || b2, r2)).
Proof.
  intros M1 M2 H1 H2 s s' t pre run (s1 & A & B) Ht Hr.
  destruct (M1 _ _ A) as [u Hu], (M2 _ _ B) as [v Hv].
  rewrite (eats_split _ _ _ _ _ _ Hu Hv Ht), lower_append, <- append_assoc.
  specialize (H1 _ _ _ _ _ A Hu Hr) as [K1 E1]. destruct (f1 run) as [b1 r1]. simpl in *.
  specialize (H2 _ _ _ _ _ B Hv E1) as [K2 E2]. destruct (f2 r1) as [b2 r2]. simpl in *.
  split; [| done]. intros [H | H]%orb_true_iff; eauto with gw.
Qed.

Lemma reads_alt kws R1 R2 f1 f2 : reads kws R1 f1 -> reads kws R2 f2 ->
  reads kws (fun s s' => R1 s s' \/ R2 s s')
    (fun run => let '(b1, r1) := f1 run in let '(b2, r2) := f2 run in
       ((b1 || kw_in kws r1) && (b2 || kw_in kws r2), if String.eqb r1 r2 then r1 else "")).
Proof.
  intros H1 H2 s s' t pre run H Ht Hr.
  destruct (f1 run) as [b1 r1] eqn:E1, (f2 run) as [b2 r2] eqn:E2. simpl. destruct H as [H | H].
  - specialize (H1 _ _ _ _ _ H Ht Hr) as [K E]. rewrite E1 in *. simpl in *. split.
    + intros [[B | B]%orb_true_iff _]%andb_true_iff; eauto with gw.
    + case_match; auto with gw.
  - specialize (H2 _ _ _ _ _ H Ht Hr) as [K E]. rewrite E2 in *. simpl in *. split.
    + intros [_ [B | B]%orb_true_iff]%andb_true_iff; eauto with gw.
    + destruct (String.eqb_spec r1 r2); subst; auto with gw.
Qed.

Lemma reads_rep kws R f lo extra : moves R -> reads kws R f ->
  reads kws (fun s s' => exists s1, iterR R lo s s1 /\ tailR R extra None s1 s')
    (fun run => let '(b1, r1) := f "" in
       (kw_in kws run || (negb (lo =? 0)%nat && (b1 || kw_in kws r1)), "")).
Proof.
  intros M H s s' t pre run (s1 & A & B) Ht Hr. destruct (f "") as [b1 r1] eqn:E1. simpl.
  split; [| auto with gw]. intros [K | [Hlo K]%andb_true_iff]%orb_true_iff; [eauto with gw |].
  apply iterR_first in A as (s0 & A0 & A); [| by destruct lo].
  destruct (M _ _ A0) as [u Hu], (iterR_moves _ _ M _ _ A) as [v Hv],
    (tailR_moves _ _ _ M _ _ B) as [w Hw].
  rewrite (eats_split _ _ _ _ _ _ Hu (eats_trans _ _ _ _ _ Hv Hw) Ht), lower_append, <- append_assoc.
  apply kw_in_app. specialize (H _ _ _ _ "" A0 Hu (ends_with_nil pre)) as [K1 K2].
  rewrite E1 in *. simpl in *. apply orb_true_iff in K as [K | K]; eauto with gw.
Qed.

Lemma reads_lit kws fl c :
  reads kws (Den fl (RChar (KSet false [CLit c]))) (fun run => (false, run +s+ sc (lower_char c))).
Proof.
  intros s s' t pre run (a & u & E & Hc & ->) Ht [x ->]. split; [done |]. simpl.
  unfold eats, advance in Ht. rewrite E in Ht. simpl in Ht.
  assert (t = sc a) as ->.
  { assert (Hau : String a u = sc a +s+ u) by done. rewrite Hau in Ht.
    eapply (eats_split s s (mkmst "" u []) "" (sc a)); unfold eats; simpl; [done | by rewrite E |].
    by rewrite E. }
  exists x. apply lit_case in Hc. unfold lower, sc in *. cbn [smap]. rewrite Hc. apply append_assoc.
Qed.

Lemma read_run_sound kws fl r : reads kws (Den fl r) (read_run kws r).
Proof.
  revert fl. induction r; intros fl.
  - apply reads_nothing. by intros s s' ->.
  - destruct k as [|[] [|[c | | | |] []]]; try apply reads_break. apply reads_lit.
  - apply (reads_seq kws (Den fl r1) (Den fl r2)); auto using Den_moves.
  - apply (reads_alt kws (Den fl r1) (Den fl r2)); auto.
  - apply (reads_rep kws (Den fl r)); auto using Den_moves.
  - intros s s' t pre run (s1 & H & ->) Ht Hr. by apply (IHr fl s s1).
  - apply reads_break.
  - apply IHr.
  - apply reads_nothing. intros s s'. apply lookR_moves.
  - apply reads_nothing. intros s s'. apply lookR_moves.
  - apply reads_nothing. by intros s s' [_ ->].
  - apply reads_nothing. by intros s s' [_ ->].
  - apply reads_nothing. by intros s s' [_ ->].
Qed.

Lemma must_hold_sound kws p c : pattern_ok p = true -> must_hold kws (p_re p) = true ->
  search p c <> None -> any_keyword kws c = true.
Proof.
  intros Hok Hm Hs. destruct (search p c) as [m|] eqn:E; [clear Hs | done].
  apply search_Some_leftmost in E as (a & b & s1 & -> & Hden & _ & _); [| done].
  destruct (Den_moves _ _ _ _ Hden) as [t Ht]. unfold must_hold in Hm.
  destruct (read_run_sound kws _ _ _ _ t "" "" Hden Ht (ends_with_nil "")) as [K1 K2].
  destruct (read_run kws (p_re p) "") as [f run]. simpl in *.
  assert (Hk : kw_in kws (lower t) = true).
  { apply orb_true_iff in Hm as [Hm | Hm]; eauto with gw. }
  unfold kw_in in Hk. apply existsb_exists in Hk as (k & Hin & Hc).
  apply any_keyword_true. right. exists k. split; [done |].
  unfold eats in Ht. simpl in Ht. rewrite Ht, !lower_append.
  apply contains_app_l, contains_app, Hc.
Qed.

(** ** Packs *)
Definition pattern_filtered (kws : list string) (cp : pattern * DestructivePattern) : bool :=
  pattern_ok (fst cp) && must_hold kws (p_re (fst cp)).
Definition pack_filtered (p : Pack) : bool :=
  forallb (pattern_filtered (pk_keywords p)) (pk_compiled p).

(** [Pack.check] without the keyword test *)
Definition check_unfiltered (p : Pack) (command : string) : list DestructiveMatch :=
  flat_map (check_pattern command) (pk_compiled p).

Lemma check_lossless p c : pack_filtered p = true -> check p c = check_unfiltered p c.
Proof.
  unfold pack_filtered, check, check_unfiltered. rewrite forallb_forall. intros Hall.
  destruct (matches_keywords p c) eqn:E; [done |]. symmetry.
  induction (pk_compiled p) as [|cp r IH]; simpl; [done |].
  rewrite IH by (intros; apply Hall; simpl; auto).
  assert (Hcp : pattern_filtered (pk_keywords p) cp = true) by (apply Hall; simpl; auto).
  unfold pattern_filtered in Hcp. bprop. destruct cp as [pt dp]. simpl in *.
  destruct (search pt c) eqn:Es; [| done]. unfold matches_keywords in E.
  rewrite (must_hold_sound (pk_keywords p) pt c) in E; [done.. | by rewrite Es].
Qed.
