(* ===== verification/Gates.v ===== *)
(** * The syntactic gates (app/command_policy.py)

    Gate 1 ([contains_metachar]) and the redirection scanner walk a command with the quoting
    rules of a shell; gate 2 ([check_argument_shape]) looks at the shlex-resolved argv. *)
From S2P Require Import Prelude PyStr Shlex PolicyTypes.
From stdpp Require Import options.

(** ** Commands and their argv *)
Definition normalize_command (command : string) : string := " " +s+ strip command +s+ " ".

Definition get_command_parts (command : string) : list string :=
  match split command with Ok parts => parts | Raise _ => [] end.

Definition get_command_root (command : string) : option string :=
  match split command with
  | Raise _ => None
  | Ok parts =>
      match parts with
      | [] => None
      | p0 :: rest =>
          let root := strip p0 in
          match rest with
          | p1 :: _ => if String.eqb root "sudo" then Some (strip p1) else Some root
          | [] => Some root
          end
      end
  end.

(** ** The scanning loop of [contains_metachar] and [contains_shell_redirection]

    [s] is [command[i:]]; [in_single] and [in_double] are the two flags of the loop. *)
Fixpoint scan_unquoted (ops : list string) (in_single in_double : bool) (s : string)
    : option string :=
  match s with
  | "" => None
  | String ch r =>
      let skip2 sg db :=
        match r with "" => None | String _ r' => scan_unquoted ops sg db r' end in
      if in_single then scan_unquoted ops (negb (Ascii.eqb ch sq)) in_double r
      else if in_double then
        if Ascii.eqb ch bslash then skip2 in_single in_double
        else scan_unquoted ops in_single (negb (Ascii.eqb ch dq)) r
      else if Ascii.eqb ch sq then scan_unquoted ops true in_double r
      else if Ascii.eqb ch dq then scan_unquoted ops in_single true r
      else if Ascii.eqb ch bslash then skip2 in_single in_double
      else match List.find (fun op => startswith op s) ops with
           | Some op => Some op
           | None => scan_unquoted ops in_single in_double r
           end
  end.

Definition METACHAR_DENYLIST : list string := ["|"; ";"; "&&"; "||"; "`"; "$("].

Definition contains_metachar (command : string) : option string :=
  scan_unquoted METACHAR_DENYLIST false false command.

Definition _REDIRECT_OPS : list string :=
  ["1>>"; "2>>"; "1>"; "2>"; "&>"; ">|"; ">>"; "<<"; ">"; "<"].

Definition contains_shell_redirection (command : string) : option string :=
  scan_unquoted _REDIRECT_OPS false false command.

(** ** Gate 2: argument shapes *)
Definition BLOCKED_INTERPRETERS : list string :=
  ["python"; "python2"; "python3"; "perl"; "perl5"; "ruby"; "ruby3";
   "bash"; "sh"; "ash"; "zsh"; "ksh"; "node"; "deno"; "bun"].
Definition EXEC_FLAGS : list string := ["-c"; "-e"; "-E"; "-es"; "-ex"; "-0"; "-n"; "-w"].
Definition FIND_DENYLIST : list string :=
  ["-exec"; "-execdir"; "-ok"; "-okdir"; "-delete"; "-fprintf"; "-fls"].
Definition SED_INPLACE_DENYLIST : list string := ["-i"; "--in-place"].
Definition COMMAND_ALLOWED_FLAGS : list string := ["-v"].

Definition _extract_single_flags (arg : string) : list string :=
  if negb (startswith "-" arg) || startswith "--" arg || (slen arg <? 2)%nat then []
  else map (fun ch => "-" +s+ sc ch) (list_ascii_of_string (drop 1 arg)).

Definition _is_safe_bash_syntax_check (effective : list string) : bool :=
  match effective with
  | [] => false
  | e0 :: args =>
      if negb (String.eqb e0 "bash") then false
      else match args with
           | [flag; script] =>
               String.eqb flag "-n" && negb (String.eqb script "-")
                 && negb (startswith "-" script)
           | [flag; separator; script] =>
               String.eqb flag "-n" && String.eqb separator "--" && negb (String.eqb script "-")
           | _ => false
           end
  end.

(** The bodies of the four loops over [effective[1:]] *)
Definition interpreter_arg (e0 arg : string) : option string :=
  if existsb (fun flag => mem flag EXEC_FLAGS) (_extract_single_flags arg)
  then Some ("Language interpreter '" +s+ e0 +s+ "' with exec flag in '" +s+ arg +s+ "' blocked")
  else if mem arg EXEC_FLAGS
  then Some ("Language interpreter '" +s+ e0 +s+ "' with exec flag '" +s+ arg +s+ "' blocked")
  else None.
Definition find_arg (arg : string) : option string :=
  if mem arg FIND_DENYLIST
  then Some ("find argument '" +s+ arg +s+ "' blocked (arbitrary execution)") else None.
Definition sed_arg (arg : string) : option string :=
  if mem arg SED_INPLACE_DENYLIST
  then Some ("sed argument '" +s+ arg +s+ "' blocked (in-place mutation not allowed)")
  else if existsb (fun flag => mem flag SED_INPLACE_DENYLIST) (_extract_single_flags arg)
  then Some ("sed argument '" +s+ arg +s+ "' contains in-place flag (not allowed)")
  else None.
Definition command_args (args : list string) : option string :=
  let flags := List.filter (startswith "-") args in
  if (length flags =? 0)%nat || existsb (fun f => negb (mem f COMMAND_ALLOWED_FLAGS)) flags
  then Some "command without -v flag blocked (only command -v <tool> allowed)" else None.

(** The checks in the order of the code; the first that returns decides. *)
Definition shape_checks (effective : list string) (e0 : string) (args : list string)
    : list (option string) :=
  [ (if mem e0 BLOCKED_INTERPRETERS && negb (_is_safe_bash_syntax_check effective)
     then first_some (interpreter_arg e0) args else None);
    (if String.eqb e0 "find" then first_some find_arg args else None);
    (if String.eqb e0 "sed" then first_some sed_arg args else None);
    (if String.eqb e0 "command" then command_args args else None) ].

(** [(is_dangerous, reason)] *)
Definition check_argument_shape (command : string) : bool * string :=
  match get_command_parts command with
  | [] => (false, "")
  | p0 :: rest =>
      let effective := if String.eqb p0 "sudo" then rest else p0 :: rest in
      match effective with
      | [] => (false, "")
      | e0 :: args =>
          match first_some id (shape_checks effective e0 args) with
          | Some reason => (true, reason)
          | None => (false, "")
          end
      end
  end.

(** ** What the unquoted-text scanners look at

    [qstep] is the quoting of a shell as a five-state automaton, one character at a time,
    independent of the loops of [contains_metachar] and [contains_shell_redirection]; the
    loops report the operator at the leftmost place that automaton calls plain. *)
Inductive qmode : Type := QPlain | QSingle | QDouble | QPlainEsc | QDoubleEsc.
#[export] Instance qmode_eq_dec : EqDecision qmode.
Proof. solve_decision. Defined.

Definition qstep (m : qmode) (c : ascii) : qmode :=
  match m with
  | QPlain =>
      if Ascii.eqb c sq then QSingle else if Ascii.eqb c dq then QDouble
      else if Ascii.eqb c bslash then QPlainEsc else QPlain
  | QSingle => if Ascii.eqb c sq then QPlain else QSingle
  | QDouble =>
      if Ascii.eqb c bslash then QDoubleEsc else if Ascii.eqb c dq then QPlain else QDouble
  | QPlainEsc => QPlain
  | QDoubleEsc => QDouble
  end.
Fixpoint qrun (m : qmode) (s : string) : qmode :=
  match s with "" => m | String c r => qrun (qstep m c) r end.

Lemma qrun_app m a b : qrun m (a +s+ b) = qrun (qrun m a) b.
Proof. revert m. induction a as [|c a IH]; intros m; simpl; [done |]. apply IH. Qed.

(** The operator that starts at a place, if one does *)
Definition op_at (ops : list string) (s : string) : option string :=
  List.find (fun op => startswith op s) ops.

(** Operators start with a character that is neither a quote nor a backslash. *)
Definition special (c : ascii) : bool :=
  Ascii.eqb c sq || Ascii.eqb c dq || Ascii.eqb c bslash.
Definition op_proper (op : string) : bool :=
  match op with "" => false | String c _ => negb (special c) end.

Lemma op_at_special ops c r : forallb op_proper ops = true -> special c = true ->
  op_at ops (String c r) = None.
Proof.
  unfold op_at. induction ops as [|op ops IH]; simpl; [done |]. intros H Hc. bprop.
  rewrite IH by done. destruct op as [|d op]; simpl in *; [done |]. bprop.
  destruct (Ascii.eqb_spec d c); [congruence | done].
Qed.
Lemma op_at_nil ops : forallb op_proper ops = true -> op_at ops "" = None.
Proof.
  unfold op_at. induction ops as [|[] ops IH]; simpl; [done | done |]. intros H. bprop. auto.
Qed.

(** ** The loop reads the automaton *)
Fixpoint first_plain (ops : list string) (m : qmode) (s : string) : option string :=
  match s with
  | "" => None
  | String c r =>
      match (if decide (m = QPlain) then op_at ops s else None) with
      | Some op => Some op
      | None => first_plain ops (qstep m c) r
      end
  end.

Definition mode_of (sg db : bool) : qmode :=
  if sg then QSingle else if db then QDouble else QPlain.

Lemma first_plain_skip ops m c r : m <> QPlain ->
  first_plain ops m (String c r) = first_plain ops (qstep m c) r.
Proof. intros H. cbn [first_plain]. by rewrite decide_False. Qed.
Lemma first_plain_special ops c r : forallb op_proper ops = true -> special c = true ->
  first_plain ops QPlain (String c r) = first_plain ops (qstep QPlain c) r.
Proof. intros Ho Hc. cbn [first_plain]. simpl. by rewrite op_at_special. Qed.
Lemma first_plain_esc ops m r : m = QPlainEsc \/ m = QDoubleEsc ->
  first_plain ops m r =
  match r with "" => None | String _ r' => first_plain ops (qstep m "a") r' end.
Proof. destruct r; [done |]. by intros [-> | ->]. Qed.

Lemma scan_unquoted_plain ops sg db s : forallb op_proper ops = true -> sg && db = false ->
  scan_unquoted ops sg db s = first_plain ops (mode_of sg db) s.
Proof.
  intros Ho. remember (slen s) as n eqn:Hn. revert sg db s Hn.
  induction (lt_wf n) as [n _ IH]; intros sg db s -> Hx.
  destruct s as [|c r]; [done |].
  assert (Hr : forall sg db, sg && db = false ->
            scan_unquoted ops sg db r = first_plain ops (mode_of sg db) r).
  { intros sg' db' Hx'. eapply IH; [| done | done]. unfold slen. simpl. lia. }
  assert (Hs : forall sg db, sg && db = false ->
            match r with "" => None | String _ r' => scan_unquoted ops sg db r' end =
            match r with "" => None | String _ r' => first_plain ops (mode_of sg db) r' end).
  { intros sg' db' Hx'. destruct r as [|d r']; [done |].
    eapply IH; [| done | done]. unfold slen. simpl. lia. }
  cbn [scan_unquoted]. destruct sg, db; [done | | |]; simpl mode_of.
  - rewrite first_plain_skip by done. rewrite Hr by (by destruct (Ascii.eqb c sq)).
    simpl. by destruct (Ascii.eqb c sq).
  - rewrite first_plain_skip by done. simpl. destruct (Ascii.eqb c bslash).
    + rewrite Hs by done. by rewrite (first_plain_esc _ QDoubleEsc) by auto.
    + rewrite Hr by done. by destruct (Ascii.eqb c dq).
  - destruct (Ascii.eqb c sq) eqn:E1; [| destruct (Ascii.eqb c dq) eqn:E2;
      [| destruct (Ascii.eqb c bslash) eqn:E3]].
    + rewrite first_plain_special by (unfold special; by rewrite ?E1). simpl.
      rewrite E1. by apply Hr.
    + rewrite first_plain_special by (unfold special; by rewrite ?E1, ?E2). simpl.
      rewrite E1, E2. by apply Hr.
    + rewrite first_plain_special by (unfold special; by rewrite ?E1, ?E2, ?E3). simpl.
      rewrite E1, E2, E3, Hs by done. by rewrite (first_plain_esc _ QPlainEsc) by auto.
    + cbn [first_plain]. simpl. unfold op_at. rewrite E1, E2, E3.
      destruct (List.find _ ops); [done |]. by apply Hr.
Qed.

(** ** What the automaton search means *)

(** [op] starts at the plain place after [a], and no operator starts at an earlier one. *)
Definition leftmost_op (ops : list string) (m : qmode) (s op : string) : Prop :=
  exists a b, s = a +s+ b /\ qrun m a = QPlain /\ op_at ops b = Some op /\
    forall a' b', s = a' +s+ b' -> qrun m a' = QPlain -> (slen a' < slen a)%nat ->
      op_at ops b' = None.
Definition no_plain_op (ops : list string) (m : qmode) (s : string) : Prop :=
  forall a b, s = a +s+ b -> qrun m a = QPlain -> op_at ops b = None.

Lemma first_plain_None ops m s : forallb op_proper ops = true ->
  first_plain ops m s = None <-> no_plain_op ops m s.
Proof.
  intros Ho. revert m. induction s as [|c r IH]; intros m.
  - split; [| done]. intros _ a b E _. destruct a; [| done]. simpl in E. subst. by apply op_at_nil.
  - cbn [first_plain]. split.
    + intros H a b E Hq. destruct (if decide (m = QPlain) then op_at ops (String c r) else None) eqn:E0; [done |]. destruct a as [|d a]; simpl in *.
      * subst. by rewrite decide_True in E0.
      * injection E as -> ->. apply (IH (qstep m d)) in H. by apply (H a b).
    + intros H. destruct (if decide (m = QPlain) then op_at ops (String c r) else None) eqn:E0.
      * destruct (decide (m = QPlain)); [| done]. by rewrite (H "" (String c r)) in E0.
      * apply IH. intros a b -> Hq. by apply (H (String c a) b).
Qed.

Lemma first_plain_Some ops m s op : forallb op_proper ops = true ->
  first_plain ops m s = Some op -> leftmost_op ops m s op.
Proof.
  intros Ho. revert m. induction s as [|c r IH]; intros m; [done |]. cbn [first_plain].
  intros H. destruct (if decide (m = QPlain) then op_at ops (String c r) else None) eqn:E0.
  - injection H as ->. destruct (decide (m = QPlain)); [| done]. subst. exists "", (String c r).
    repeat split; [done |]. unfold slen. simpl. lia.
  - destruct (IH _ H) as (a & b & -> & Hq & Hop & Hl). exists (String c a), b.
    repeat split; [done | done |]. intros [|d a'] b' Heq Hq' Hlt; simpl in *.
    + subst. by rewrite decide_True in E0.
    + injection Heq as -> Heq. apply (Hl a' b'); auto. unfold slen in *. simpl in *. lia.
Qed.

Lemma metachars_proper : forallb op_proper METACHAR_DENYLIST = true.
Proof. reflexivity. Qed.
Lemma redirects_proper : forallb op_proper _REDIRECT_OPS = true.
Proof. reflexivity. Qed.

Lemma contains_metachar_plain c :
  contains_metachar c = first_plain METACHAR_DENYLIST QPlain c.
Proof. by apply scan_unquoted_plain. Qed.
Lemma contains_redirection_plain c :
  contains_shell_redirection c = first_plain _REDIRECT_OPS QPlain c.
Proof. by apply scan_unquoted_plain. Qed.

(** ** Quoted text shows the scanners nothing

    Outside quotes, [shlex.join] writes only safe characters, quotes and spaces. *)
Fixpoint plain_all (P : ascii -> bool) (m : qmode) (s : string) : bool :=
  match s with
  | "" => true
  | String c r => (negb (bool_decide (m = QPlain)) || P c) && plain_all P (qstep m c) r
  end.

Lemma plain_all_app P m a b :
  plain_all P m (a +s+ b) = plain_all P m a && plain_all P (qrun m a) b.
Proof. revert m. induction a as [|c a IH]; intros m; simpl; [done |]. by rewrite IH, andb_assoc. Qed.

Definition join_char (c : ascii) : bool :=
  safe_char c || Ascii.eqb c " " || Ascii.eqb c sq || Ascii.eqb c dq.

Lemma safe_not_special c : safe_char c = true -> special c = false.
Proof.
  intros H. assert (E : implb (safe_char c) (negb (special c)) = true)
    by (clear H; revert c; apply ascii_forall; by_eval).
  rewrite H in E. simpl in E. by bprop.
Qed.
Lemma qstep_plain c : special c = false -> qstep QPlain c = QPlain.
Proof.
  unfold special. intros [[H1 H2]%orb_false_iff H3]%orb_false_iff. simpl. by rewrite H1, H2, H3.
Qed.

Lemma safe_run w : all_chars safe_char w = true ->
  plain_all join_char QPlain w = true /\ qrun QPlain w = QPlain.
Proof.
  induction w as [|c w IH]; [done |]. cbn [all_chars plain_all qrun]. intros H. bprop.
  rewrite qstep_plain by (by apply safe_not_special). destruct IH as [-> ->]; [done |].
  unfold join_char. by rewrite B.
Qed.
Lemma quoted_run w : 
  plain_all join_char QSingle (replace_char sq quoted_sq w) = true /\
  qrun QSingle (replace_char sq quoted_sq w) = QSingle.
Proof.
  induction w as [|c w [IH1 IH2]]; [done |]. cbn [replace_char].
  rewrite plain_all_app, qrun_app. destruct (Ascii.eqb c sq) eqn:E.
  - change (qrun QSingle quoted_sq) with QSingle. by rewrite IH1, IH2.
  - assert (qrun QSingle (sc c) = QSingle) as -> by (simpl; by rewrite E).
    by rewrite IH1, IH2.
Qed.
Lemma quote_run w : plain_all join_char QPlain (quote w) = true /\ qrun QPlain (quote w) = QPlain.
Proof.
  unfold quote. destruct (String.eqb w ""); [done |].
  destruct (all_chars safe_char w) eqn:E; [by apply safe_run |].
  destruct (quoted_run w) as [H1 H2]. rewrite !plain_all_app, !qrun_app. simpl qrun.
  by rewrite H1, H2.
Qed.
Lemma shjoin_run l : plain_all join_char QPlain (shjoin l) = true /\ qrun QPlain (shjoin l) = QPlain.
Proof.
  unfold shjoin. induction l as [|w [|w2 l] [IH1 IH2]]; [done | apply quote_run |].
  change (join " " (map quote (w :: w2 :: l)))
    with (quote w +s+ " " +s+ join " " (map quote (w2 :: l))).
  destruct (quote_run w) as [H1 H2]. rewrite !plain_all_app, !qrun_app, H1, H2.
  change (qrun QPlain " ") with QPlain. by rewrite IH1, IH2.
Qed.

(** The characters of an operator at a plain place are all at plain places. *)
Lemma plain_all_startswith P op b : plain_all P QPlain b = true -> startswith op b = true ->
  all_chars (fun c => negb (special c)) op = true -> all_chars P op = true.
Proof.
  revert b. induction op as [|c op IH]; intros [|d b]; [done | done | done |].
  cbn [plain_all startswith all_chars].
  intros [Hc Hp]%andb_true_iff [<-%Ascii.eqb_eq Hs]%andb_true_iff
    [Hn%negb_true_iff Hop]%andb_true_iff.
  rewrite qstep_plain in Hp by done. rewrite (IH b) by done. simpl in Hc. by rewrite Hc.
Qed.

Definition op_foreign (P : ascii -> bool) (op : string) : bool :=
  all_chars (fun c => negb (special c)) op && negb (all_chars P op).

Lemma no_op_in_join ops l : forallb op_proper ops = true ->
  forallb (op_foreign join_char) ops = true -> first_plain ops QPlain (shjoin l) = None.
Proof.
  intros Ho Hf. apply first_plain_None; [done |]. intros a b Hab Hq.
  destruct (op_at ops b) as [op|] eqn:E; [| done]. unfold op_at in E.
  apply List.find_some in E as [Hin Hst]. rewrite forallb_forall in Hf.
  apply Hf in Hin. unfold op_foreign in Hin.
  apply andb_true_iff in Hin as [Hsp Hno%negb_true_iff].
  destruct (shjoin_run l) as [Hj _]. rewrite Hab, plain_all_app, Hq in Hj.
  apply andb_true_iff in Hj as [_ Hj].
  by rewrite (plain_all_startswith join_char op b) in Hno.
Qed.
Lemma contains_metachar_join l : contains_metachar (shjoin l) = None.
Proof. rewrite contains_metachar_plain. by apply no_op_in_join. Qed.
Lemma contains_redirection_join l : contains_shell_redirection (shjoin l) = None.
Proof. rewrite contains_redirection_plain. by apply no_op_in_join. Qed.
Lemma parts_join l : get_command_parts (shjoin l) = l.
Proof. unfold get_command_parts. by rewrite split_shjoin. Qed.

(** ** Gate 2 as a predicate on the argv *)

(** A flag cluster that turns an interpreter's argument into code *)
Definition exec_flag (arg : string) : bool :=
  existsb (fun flag => mem flag EXEC_FLAGS) (_extract_single_flags arg) || mem arg EXEC_FLAGS.
Definition sed_flag (arg : string) : bool :=
  existsb (fun flag => mem flag SED_INPLACE_DENYLIST) (_extract_single_flags arg)
    || mem arg SED_INPLACE_DENYLIST.

(** The argv of [command <tool>] that only asks whether [tool] exists *)
Definition command_v_only (args : list string) : bool :=
  negb (length (List.filter (startswith "-") args) =? 0)%nat
    && forallb (String.eqb "-v") (List.filter (startswith "-") args).

Definition dangerous_argv (effective : list string) : bool :=
  match effective with
  | [] => false
  | e0 :: args =>
      (mem e0 BLOCKED_INTERPRETERS && negb (_is_safe_bash_syntax_check effective)
         && existsb exec_flag args)
      || (String.eqb e0 "find" && existsb (fun a => mem a FIND_DENYLIST) args)
      || (String.eqb e0 "sed" && existsb sed_flag args)
      || (String.eqb e0 "command" && negb (command_v_only args))
  end.

Definition isSome {A} (o : option A) : bool := match o with Some _ => true | None => false end.

Lemma first_some_isSome {A B} (f : A -> option B) (g : A -> bool) l :
  (forall a, isSome (f a) = g a) -> isSome (first_some f l) = existsb g l.
Proof.
  intros H. induction l as [|a r IH]; simpl; [done |]. rewrite <- H. by destruct (f a).
Qed.
Lemma forallb_existsb_negb {A} (p q : A -> bool) l : (forall a, q a = negb (p a)) ->
  existsb q l = negb (forallb p l).
Proof. intros H. induction l; simpl; [done |]. by rewrite H, IHl, negb_andb. Qed.

Lemma check_argument_shape_spec c :
  fst (check_argument_shape c) =
  dangerous_argv (match get_command_parts c with
                  | p0 :: rest => if String.eqb p0 "sudo" then rest else p0 :: rest
                  | [] => [] end).
Proof.
  unfold check_argument_shape. destruct (get_command_parts c) as [|p0 rest]; [done |].
  destruct (if String.eqb p0 "sudo" then rest else p0 :: rest) as [|e0 args]; [done |].
  set (o := first_some id _). transitivity (isSome o); [by destruct o |]. subst o.
  rewrite (first_some_isSome id isSome) by done. unfold shape_checks, dangerous_argv.
  cbn [existsb]. rewrite orb_false_r, !orb_assoc. f_equal; [f_equal; [f_equal |] |].
  - destruct (mem e0 _ && _); [| done]. apply first_some_isSome. intros a.
    unfold interpreter_arg, exec_flag. by destruct (existsb _ _), (mem a _).
  - destruct (String.eqb e0 "find"); [| done]. apply first_some_isSome. intros a.
    unfold find_arg. by destruct (mem a _).
  - destruct (String.eqb e0 "sed"); [| done]. apply first_some_isSome. intros a.
    unfold sed_arg, sed_flag. by destruct (mem a _), (existsb _ _).
  - destruct (String.eqb e0 "command"); [| done]. unfold command_args, command_v_only.
    rewrite (forallb_existsb_negb (String.eqb "-v")).
    + by destruct (_ =? 0)%nat, (forallb _ _).
    + intros a. simpl. rewrite orb_false_r. by rewrite String.eqb_sym.
Qed.
