(* ===== verification/Profiles.v ===== *)
(** * Profiles (app/command_policy.py): root allowlists, argument validators, evaluators

    The five allowlist profiles share one shape ([profile_step]), written once over a
    [ProfileSpec] (its root set, its label in messages, its validator); [env] sends the command
    it wraps through the same evaluator again. *)
From S2P Require Import Prelude PyStr Regex RegexParse Shlex PolicyTypes Packs Registry Gates.
From stdpp Require Import options.

(** ** Root tables *)
Definition READONLY_ROOTS : list string :=
  ["cat"; "cd"; "df"; "du"; "env"; "free"; "grep"; "head"; "hostname";
   "id"; "ip"; "journalctl"; "ls"; "netstat"; "pgrep"; "ping"; "ps";
   "pwd"; "readlink"; "realpath"; "ss"; "stat"; "tail"; "top"; "tree";
   "uname"; "uptime"; "wc"; "whoami"; "file"; "less"; "git"].

Definition GIT_READONLY_SUBCOMMANDS : list string :=
  ["status"; "log"; "diff"; "show"; "branch"; "remote"; "tag";
   "rev-parse"; "describe"; "shortlog"; "blame"; "reflog"].

Definition _GIT_INFO_ONLY_FLAGS : list string :=
  ["-a"; "--all"; "-r"; "--remotes"; "-v"; "-vv"; "--verbose";
   "-l"; "--list"; "--color"; "--no-color"; "--column"; "--no-column";
   "-n"; "--contains"; "--merged"; "--no-merged"].
Definition _GIT_MUTATING_REMOTE_SUBCOMMANDS : list string :=
  ["add"; "remove"; "rm"; "rename"; "set-url"; "set-head"; "set-branches"; "prune"; "update"].
Definition _GIT_READONLY_REMOTE_SUBCOMMANDS : list string := ["show"; "get-url"].

Definition _ENV_NO_ARG_FLAGS : list string :=
  ["-i"; "--ignore-environment"; "-0"; "--null"; "-v"; "--verbose"; "-h"; "--help"].
Definition _ENV_ONE_ARG_FLAGS : list string :=
  ["-u"; "--unset"; "-C"; "--chdir"; "-S"; "--split-string"; "-P"; "--default-signal";
   "-a"; "--argv0"; "--block-signal"; "--list-signal-names"].
Definition _ENV_ASSIGNMENT_RE : pattern := re_lit no_flags "^[A-Za-z_][A-Za-z0-9_]*=".

Definition TESTLINT_ROOTS : list string :=
  READONLY_ROOTS ++
  ["pytest"; "ruff"; "mypy"; "pyright"; "flake8"; "black"; "isort";
   "compileall"; "python"; "uv"; "command"; "find"; "sed"].
Definition PROJECT_AUTOMATION_ROOTS : list string := TESTLINT_ROOTS ++ ["git"].
Definition OPS_ROOTS : list string :=
  PROJECT_AUTOMATION_ROOTS ++
  ["docker"; "docker-compose"; "systemctl"; "service"; "supervisorctl"; "journalctl";
   "systemd-analyze"].
Definition DOCKER_ADMIN_ROOTS : list string := OPS_ROOTS ++ ["docker"; "docker-compose"].

Definition DENIED_ROOTS : list string :=
  ["mkfs"; "fdisk"; "parted"; "shutdown"; "reboot"; "halt"; "poweroff";
   "dd"; "tee"; "cp"; "mv"; "rm"; "rmdir"; "powershell"; "pwsh"; "cmd"].
Definition DENIED_ROOT_PREFIXES : list string := ["mkfs."].

Definition _normalize_root (root : string) : string :=
  let lowered := lower root in
  if endswith ".exe" lowered then take (slen lowered - 4) lowered else lowered.

Definition OPS_ALLOWED_SYSTEMCTL_ACTIONS : list string :=
  ["status"; "restart"; "reload"; "try-restart"; "is-active"; "is-enabled"; "start"; "stop"].
Definition OPS_ALLOWED_DOCKER_ACTIONS : list string :=
  ["ps"; "logs"; "inspect"; "restart"; "compose"; "images"; "stats"].
Definition DOCKER_ADMIN_ALLOWED_ACTIONS : list string :=
  OPS_ALLOWED_DOCKER_ACTIONS ++
  ["exec"; "rm"; "rmi"; "volume"; "run"; "start"; "stop";
   "kill"; "cp"; "wait"; "rename"; "update"; "pause"; "unpause"].

(** ** Dangerous tokens *)
Definition DENYLIST_TOKENS : list string :=
  [" rm -rf "; " mkfs "; " dd if="; " :(){"; "chmod 777"; "chown -R"; "curl "; "wget ";
   " nc "; " netcat "].

(** The text the tokens are looked up in *)
Definition normalized_tokens (command : string) : string :=
  let tokens := match split command with Ok ts => ts | Raise _ => [] end in
  match tokens with
  | [] => lower (normalize_command command)
  | _ => " " +s+ lower (join " " tokens) +s+ " "
  end.

Definition contains_dangerous_token (command : string) : option string :=
  let normalized := normalized_tokens command in
  match List.find (fun token => contains token normalized) DENYLIST_TOKENS with
  | Some token => Some (strip token)
  | None => contains_shell_redirection command
  end.

(** ** Git *)
Definition starts_dash (a : string) : bool := startswith "-" a.

Definition _validate_git_subcommand (parts : list string) : verdict :=
  match parts with
  | _ :: subcmd :: rest =>
      if negb (mem subcmd GIT_READONLY_SUBCOMMANDS)
      then deny ("git subcommand '" +s+ subcmd +s+ "' not allowed (only read-only: "
                 +s+ join ", " (sorted_set GIT_READONLY_SUBCOMMANDS) +s+ ")")
      else if mem subcmd ["branch"; "tag"] then
        match List.filter (fun a => negb (starts_dash a)) rest with
        | _ :: _ => deny ("git " +s+ subcmd
                          +s+ " with a name argument is a write operation, not allowed")
        | [] =>
            match List.filter (fun a => starts_dash a && negb (mem a _GIT_INFO_ONLY_FLAGS)) rest with
            | f :: _ => deny ("git " +s+ subcmd +s+ " flag '" +s+ f
                              +s+ "' not recognized as read-only")
            | [] => pass
            end
        end
      else if String.eqb subcmd "remote" then
        match rest with
        | [] => pass
        | first :: _ =>
            if mem first _GIT_MUTATING_REMOTE_SUBCOMMANDS
            then deny ("git remote " +s+ first +s+ " is a write operation, not allowed")
            else if starts_dash first then
              if negb (mem first _GIT_INFO_ONLY_FLAGS)
              then deny ("git remote flag '" +s+ first +s+ "' not recognized as read-only")
              else pass
            else if mem first _GIT_READONLY_REMOTE_SUBCOMMANDS then pass
            else deny ("git remote '" +s+ first +s+ "' not recognized as read-only")
        end
      else if String.eqb subcmd "reflog" then
        match rest with
        | first :: _ =>
            if mem first ["expire"; "delete"]
            then deny ("git reflog " +s+ first +s+ " is a write operation, not allowed")
            else pass
        | [] => pass
        end
      else pass
  | _ => pass
  end.

(** ** [env] *)

(** The loop of [_unwrap_env] from index [i]: [rest] is [parts[i:]]. *)
Fixpoint unwrap_from (rest : list string) : list string :=
  match rest with
  | [] => []
  | tok :: r =>
      if mem tok _ENV_NO_ARG_FLAGS then unwrap_from r
      else if mem tok _ENV_ONE_ARG_FLAGS then
        match r with [] => [] | _ :: r' => unwrap_from r' end
      else match search _ENV_ASSIGNMENT_RE tok with
           | Some _ => unwrap_from r
           | None => rest
           end
  end.
Definition _unwrap_env (parts : list string) : list string := unwrap_from (tail parts).

Definition evaluator : Type := string -> option string -> verdict.

Definition _evaluate_env_wrapped (command : string) (allowed_roots : list string)
    (ev : evaluator) : verdict :=
  match _unwrap_env (get_command_parts command) with
  | [] => deny "env with no wrapped command not allowed"
  | (wrapped_root :: _) as wrapped =>
      if negb (mem wrapped_root allowed_roots)
      then deny ("env-wrapped command '" +s+ wrapped_root +s+ "' not in allowlist")
      else ev (shjoin wrapped) (Some wrapped_root)
  end.

Section Validators.
Context {Sc : Scanner}.

(** ** Docker and services *)
Definition safer_text (s : PatternSuggestion) : string :=
  ps_command s +s+ " — " +s+ ps_description s.

Definition _validate_docker_action (effective allowed_actions : list string) : verdict :=
  match effective with
  | _ :: action :: _ =>
      if negb (mem action allowed_actions)
      then deny ("docker action '" +s+ action +s+ "' not allowed")
      else match scan_pack "docker" (join " " effective) with
           | m :: _ =>
               let msg := "Destructive docker operation blocked: " +s+ dm_reason m in
               deny (match dm_suggestions m with
                     | [] => msg
                     | ss => msg +s+ " (safer: " +s+ join "; " (map safer_text ss) +s+ ")"
                     end)
           | [] => pass
           end
  | _ => deny "Missing docker action"
  end.

Definition _validate_ops_command (parts : list string) : verdict :=
  match parts with
  | [] => deny "Empty command"
  | root :: rest =>
      let effective := if String.eqb root "sudo" then rest else parts in
      match effective with
      | [] => deny "Empty command after sudo"
      | e0 :: args =>
          if mem e0 ["systemctl"; "service"] then
            match args with
            | [] => deny "Missing service action"
            | action :: _ =>
                if negb (mem action OPS_ALLOWED_SYSTEMCTL_ACTIONS)
                then deny ("systemctl action '" +s+ action +s+ "' not allowed")
                else pass
            end
          else if mem e0 ["docker"; "docker-compose"]
          then _validate_docker_action effective OPS_ALLOWED_DOCKER_ACTIONS
          else pass
      end
  end.

Definition _validate_docker_command (parts allowed_actions : list string) : verdict :=
  match parts with
  | [] => deny "Empty command"
  | root :: rest =>
      let effective := if String.eqb root "sudo" then rest else parts in
      match effective with
      | [] => deny "Empty command after sudo"
      | e0 :: _ =>
          if mem e0 ["docker"; "docker-compose"]
          then _validate_docker_action effective allowed_actions else pass
      end
  end.

(** ** The allowlist evaluators *)
Record ProfileSpec : Type := mkProfile {
  pf_roots : list string; pf_label : string;
  pf_validate : string -> list string -> verdict }.

Definition profile_step (p : ProfileSpec) (self : evaluator) : evaluator :=
  fun command root =>
  match root with
  | None => deny "Command cannot be parsed"
  | Some root =>
      if negb (mem root (pf_roots p))
      then deny ("Root command '" +s+ root +s+ "' not in " +s+ pf_label p +s+ " allowlist")
      else
        match contains_dangerous_token command with
        | Some dangerous => deny ("Dangerous token detected: " +s+ dangerous)
        | None =>
            if String.eqb root "env" then _evaluate_env_wrapped command (pf_roots p) self
            else
              let '(ok, reason) := pf_validate p root (get_command_parts command) in
              if ok then (true, "Allowed by " +s+ pf_label p +s+ " profile")
              else deny reason
        end
  end.

(** [fuel]: how often [env] may wrap; each wrapping takes a word off the command. *)
Fixpoint profile_fuel (fuel : nat) (p : ProfileSpec) : evaluator :=
  profile_step p
    (match fuel with O => fun _ _ => deny "out of fuel" | S f => profile_fuel f p end).
Definition evaluate_profile (p : ProfileSpec) : evaluator :=
  fun command root => profile_fuel (length (get_command_parts command)) p command root.

Definition git_check (root : string) (parts : list string) : verdict :=
  if String.eqb root "git" then _validate_git_subcommand parts else pass.

Definition readonly : ProfileSpec := mkProfile READONLY_ROOTS "readonly" git_check.
Definition testlint : ProfileSpec := mkProfile TESTLINT_ROOTS "testlint" git_check.
Definition project_automation : ProfileSpec :=
  mkProfile PROJECT_AUTOMATION_ROOTS "project-automation" git_check.
Definition ops : ProfileSpec :=
  mkProfile OPS_ROOTS "ops" (fun _ parts => _validate_ops_command parts).
Definition docker_admin : ProfileSpec :=
  mkProfile DOCKER_ADMIN_ROOTS "docker-admin"
    (fun _ parts => _validate_docker_command parts DOCKER_ADMIN_ALLOWED_ACTIONS).

Definition evaluate_readonly : evaluator := evaluate_profile readonly.
Definition evaluate_testlint : evaluator := evaluate_profile testlint.
Definition evaluate_project_automation : evaluator := evaluate_profile project_automation.
Definition evaluate_ops : evaluator := evaluate_profile ops.
Definition evaluate_docker_admin : evaluator := evaluate_profile docker_admin.

(** ** The default profile *)
Definition _check_all_destructive (command : string) : list DestructiveMatch :=
  scan_all command.

Definition evaluate_default : evaluator :=
  fun command root =>
  match root with
  | None => deny "Command cannot be parsed"
  | Some root =>
      let normalized_root := _normalize_root root in
      if mem normalized_root DENIED_ROOTS
         || existsb (fun p => startswith p normalized_root) DENIED_ROOT_PREFIXES
      then deny ("Root command '" +s+ root +s+ "' denied (defense-in-depth)")
      else
        match contains_dangerous_token command with
        | Some dangerous => deny ("Dangerous token detected: " +s+ dangerous)
        | None =>
            match _check_all_destructive command with
            | m :: _ => deny ("Destructive pattern blocked: " +s+ dm_reason m)
            | [] => (true, "Allowed by default profile")
            end
        end
  end.

(** [evaluators.get(profile_value, evaluate_default)] *)
Definition evaluator_of (profile_value : string) : evaluator :=
  match dict_get profile_value
          [("readonly", evaluate_readonly); ("testlint", evaluate_testlint);
           ("project-automation", evaluate_project_automation); ("ops", evaluate_ops);
           ("docker-admin", evaluate_docker_admin)] with
  | Some ev => ev
  | None => evaluate_default
  end.

(** ** The two docker helpers *)
Definition _check_docker_destructive (command : string) : option DestructiveMatch :=
  head (scan_pack "docker" command).
Definition _check_compose_destructive (command : string) : option DestructiveMatch :=
  List.find (fun m => mem (dm_pattern_name m)
               ["down-volumes"; "down-rmi-all"; "rm-volumes"; "compose-rm-force"])
    (scan_pack "docker" command).

(** ** Suggestions *)
Definition truthy (s : option string) : bool :=
  match s with Some s => negb (String.eqb s "") | None => false end.

Definition _get_suggestion (command : string) : option string :=
  first_some (fun m =>
    if truthy (dm_suggestion m) then dm_suggestion m
    else match dm_suggestions m with s :: _ => Some (ps_command s) | [] => None end)
    (_check_all_destructive command).

Definition _suggestion_dict (s : PatternSuggestion) : dict string :=
  [("command", ps_command s); ("description", ps_description s);
   ("kind", kind_value (ps_kind s))].

Definition _get_suggestions (command : string) : list string :=
  flat_map (fun m => map safer_text (dm_suggestions m)) (_check_all_destructive command).
End Validators.

(** ** What the profiles accept

    The unfolding equation of the evaluators (the fuel never runs out), the order of the
    profiles, and what an accepted command looks like. *)
(** ** Unwrapping [env] *)
Lemma unwrap_from_length rest : (length (unwrap_from rest) <= length rest)%nat.
Proof.
  revert rest. fix IH 1. intros [|tok r]; cbn [unwrap_from length]; [done |].
  pose proof (IH r). destruct (mem tok _ENV_NO_ARG_FLAGS); [lia |].
  destruct (mem tok _ENV_ONE_ARG_FLAGS); [| case_match; cbn [length]; lia].
  destruct r as [|x r']; cbn [length]; [lia |]. pose proof (IH r'). lia.
Qed.
Lemma unwrap_env_length parts : (length (_unwrap_env parts) <= pred (length parts))%nat.
Proof. unfold _unwrap_env. destruct parts; simpl; [done | apply unwrap_from_length]. Qed.
Lemma unwrap_from_suffix rest : exists pre, rest = pre ++ unwrap_from rest.
Proof.
  revert rest. fix IH 1. intros [|tok r]; cbn [unwrap_from]; [by exists [] |].
  destruct (mem tok _ENV_NO_ARG_FLAGS);
    [destruct (IH r) as [pre Hp]; exists (tok :: pre); simpl; congruence |].
  destruct (mem tok _ENV_ONE_ARG_FLAGS).
  - destruct r as [|x r']; [by exists [tok] |].
    destruct (IH r') as [pre Hp]. exists (tok :: x :: pre). simpl. congruence.
  - case_match; [| by exists []].
    destruct (IH r) as [pre Hp]. exists (tok :: pre). simpl. congruence.
Qed.
(** What [env] runs does not start with a word [env] would have skipped. *)
Lemma unwrap_from_head rest w ws : unwrap_from rest = w :: ws ->
  mem w _ENV_NO_ARG_FLAGS = false /\ mem w _ENV_ONE_ARG_FLAGS = false /\
  search _ENV_ASSIGNMENT_RE w = None.
Proof.
  revert rest. fix IH 1. intros [|tok r]; cbn [unwrap_from length]; [done |].
  destruct (mem tok _ENV_NO_ARG_FLAGS) eqn:E1; [apply IH |].
  destruct (mem tok _ENV_ONE_ARG_FLAGS) eqn:E2; [destruct r; [done | apply IH] |].
  destruct (search _ENV_ASSIGNMENT_RE tok) eqn:E3; [apply IH |]. clear IH. intros [= <- <-]. auto.
Qed.

(** ** Fuel *)
Section Evaluators.
Context {Sc : Scanner}.

Lemma wrapped_ext command roots (f g : evaluator) :
  (forall c r, (length (get_command_parts c) < length (get_command_parts command))%nat ->
     f c r = g c r) ->
  (get_command_parts command <> []) ->
  _evaluate_env_wrapped command roots f = _evaluate_env_wrapped command roots g.
Proof.
  intros H Hne. unfold _evaluate_env_wrapped.
  destruct (_unwrap_env (get_command_parts command)) as [|w ws] eqn:E; [done |].
  case_match; [done |]. apply H. rewrite parts_join, <- E.
  pose proof (unwrap_env_length (get_command_parts command)).
  destruct (get_command_parts command); simpl in *; [done | lia].
Qed.

Lemma profile_step_ext p command root (f g : evaluator) :
  (forall c r, (length (get_command_parts c) < length (get_command_parts command))%nat ->
     f c r = g c r) ->
  profile_step p f command root = profile_step p g command root.
Proof.
  intros H. unfold profile_step. destruct root as [root|]; [| done].
  case_match; [done |]. case_match; [done |]. case_match; [| done].
  destruct (get_command_parts command) as [|a l] eqn:E.
  - unfold _evaluate_env_wrapped. by rewrite E.
  - apply wrapped_ext; [by rewrite E | by rewrite E].
Qed.

Lemma profile_fuel_enough p n m c r :
  (length (get_command_parts c) <= n)%nat -> (length (get_command_parts c) <= m)%nat ->
  profile_fuel n p c r = profile_fuel m p c r.
Proof.
  revert m c r. induction n as [|n IH]; intros m c r Hn Hm; destruct m as [|m]; simpl;
    apply profile_step_ext; intros c' r' Hlt; try lia.
  apply IH; lia.
Qed.

(** The evaluator is the code's recursive function, fuel or not. *)
Lemma evaluate_profile_eq p c r :
  evaluate_profile p c r = profile_step p (evaluate_profile p) c r.
Proof.
  unfold evaluate_profile at 1.
  rewrite (profile_fuel_enough p _ (S (length (get_command_parts c)))) by lia.
  simpl. apply profile_step_ext. intros c' r' Hlt. unfold evaluate_profile.
  apply profile_fuel_enough; lia.
Qed.

(** The induction the evaluators are reasoned with: one [env] at a time *)
Lemma env_ind (P : string -> option string -> Prop) :
  (forall c r, (forall w ws, _unwrap_env (get_command_parts c) = w :: ws ->
                  get_command_parts c <> [] -> P (shjoin (w :: ws)) (Some w)) -> P c r) ->
  forall c r, P c r.
Proof.
  intros H c. remember (length (get_command_parts c)) as n eqn:Hn. revert c Hn.
  induction (lt_wf n) as [n _ IH]. intros c -> r. apply H. intros w ws E Hne.
  eapply IH; [| reflexivity]. rewrite parts_join, <- E.
  pose proof (unwrap_env_length (get_command_parts c)).
  destruct (get_command_parts c); simpl in *; [done | lia].
Qed.

(** ** Accepted commands *)

(** [accepts p c r]: the chain of [env] wrappings and the validated command at its end *)
Inductive accepts (p : ProfileSpec) : string -> string -> Prop :=
| acc_plain c root :
    mem root (pf_roots p) = true -> contains_dangerous_token c = None -> root <> "env" ->
    fst (pf_validate p root (get_command_parts c)) = true -> accepts p c root
| acc_env c w ws :
    mem "env" (pf_roots p) = true -> contains_dangerous_token c = None ->
    _unwrap_env (get_command_parts c) = w :: ws -> accepts p (shjoin (w :: ws)) w ->
    accepts p c "env".

Lemma accepts_root p c root : accepts p c root -> mem root (pf_roots p) = true.
Proof. by destruct 1. Qed.
Lemma accepts_token p c root : accepts p c root -> contains_dangerous_token c = None.
Proof. by destruct 1. Qed.

Lemma evaluate_accepts p c root :
  fst (evaluate_profile p c (Some root)) = true <-> accepts p c root.
Proof.
  split.
  - remember (Some root) as r eqn:Hr. revert root Hr. revert c r.
    refine (env_ind _ _). intros c r IH root ->. rewrite evaluate_profile_eq. simpl.
    destruct (mem root (pf_roots p)) eqn:Em; [simpl | done].
    destruct (contains_dangerous_token c) eqn:Et; [done |].
    destruct (String.eqb_spec root "env") as [-> | Hne].
    + unfold _evaluate_env_wrapped.
      destruct (_unwrap_env (get_command_parts c)) as [|w ws] eqn:E; [done |].
      destruct (mem w (pf_roots p)) eqn:Ew; [simpl | done]. intros H.
      apply (acc_env p c w ws); auto. apply (IH w ws); auto.
      intros H0. by rewrite H0 in E.
    + destruct (pf_validate p root (get_command_parts c)) as [ok why] eqn:Ev.
      destruct ok; [| done]. intros _. apply acc_plain; auto. by rewrite Ev.
  - induction 1 as [c root Hm Ht Hne Hv | c w ws Hm Ht Hu Ha IH];
      rewrite evaluate_profile_eq; simpl; rewrite Hm, Ht; simpl.
    + apply String.eqb_neq in Hne. rewrite Hne.
      by destruct (pf_validate p root (get_command_parts c)) as [[] why].
    + unfold _evaluate_env_wrapped. rewrite Hu.
      by rewrite (accepts_root _ _ _ Ha).
Qed.

(** ** Order of the profiles *)

(** [root] is what [get_command_root] or an [env] wrapping made of the argv [parts]. *)
Definition rooted (parts : list string) (root : string) : Prop :=
  (exists p1 ws p0, parts = p0 :: p1 :: ws /\ strip p0 = "sudo" /\ root = strip p1) \/
  (exists p0 ws, parts = p0 :: ws /\ root = strip p0 /\ (root = "sudo" -> ws = [])) \/
  (exists ws, parts = root :: ws).

Lemma rooted_top c root : get_command_root c = Some root -> rooted (get_command_parts c) root.
Proof.
  unfold get_command_root, get_command_parts, rooted.
  destruct (split c) as [[|p0 [|p1 ws]] |]; [done | | | done].
  - intros [= <-]. right. left. by exists p0, [].
  - destruct (String.eqb_spec (strip p0) "sudo"); intros [= <-]; [left; by exists p1, ws, p0 |].
    right. left. by exists p0, (p1 :: ws).
Qed.
Lemma rooted_wrapped w ws : rooted (get_command_parts (shjoin (w :: ws))) w.
Proof. right. right. exists ws. by rewrite parts_join. Qed.

(** [q] takes what [p] takes, on commands whose root and argv belong together. *)
Definition wider (p q : ProfileSpec) : Prop :=
  (forall r, mem r (pf_roots p) = true -> mem r (pf_roots q) = true) /\
  (forall r parts, mem r (pf_roots p) = true -> r <> "env" -> rooted parts r ->
     fst (pf_validate p r parts) = true -> fst (pf_validate q r parts) = true).

Lemma accepts_wider p q c root : wider p q -> rooted (get_command_parts c) root ->
  accepts p c root -> accepts q c root.
Proof.
  intros [Hr Hv] Hroot. induction 1 as [c root Hm Ht Hne Hval | c w ws Hm Ht Hu Ha IH].
  - apply acc_plain; auto.
  - apply (acc_env q c w ws); auto. apply IH, rooted_wrapped.
Qed.

#[export] Instance wider_trans : Transitive wider.
Proof. intros p q r [H1 H2] [H3 H4]. split; auto. Qed.

Lemma same_validator_wider p q : pf_validate p = pf_validate q ->
  forallb (fun r => mem r (pf_roots q)) (pf_roots p) = true -> wider p q.
Proof.
  intros Hv Hr. split; [exact (mem_incl _ _ Hr) |]. intros r parts _ _ _. by rewrite Hv.
Qed.

Lemma readonly_testlint : wider readonly testlint.
Proof. apply same_validator_wider; by_eval. Qed.
Lemma testlint_project : wider testlint project_automation.
Proof. apply same_validator_wider; by_eval. Qed.

(** Where [sudo] is dropped, what is left starts with the root, up to white space. *)
Definition effective_of (parts : list string) : list string :=
  match parts with
  | [] => []
  | p0 :: rest => if String.eqb p0 "sudo" then rest else parts
  end.

Lemma rooted_effective parts root (special : list string) :
  rooted parts root -> root <> "sudo" -> forallb (fun s => String.eqb (strip s) s) special = true ->
  mem root special = false -> mem "sudo" special = false ->
  exists e0 args, effective_of parts = e0 :: args /\ mem e0 special = false.
Proof.
  intros Hr Hsudo Hst Hroot Hs.
  assert (Hstrip : forall e, mem (strip e) special = false -> mem e special = false).
  { intros e He. destruct (mem e special) eqn:E; [| done].
    rewrite forallb_forall in Hst. rewrite <- He, <- E. f_equal. symmetry.
    by apply String.eqb_eq, Hst, mem_In. }
  destruct Hr as [(p1 & ws & p0 & -> & Hp0 & ->) | [(p0 & ws & -> & -> & Hws) | (ws & ->)]]; simpl.
  - destruct (String.eqb_spec p0 "sudo"); [by exists p1, ws; auto |].
    exists p0, (p1 :: ws). split; [done |]. apply Hstrip. by rewrite Hp0.
  - destruct (String.eqb_spec p0 "sudo") as [-> | Hne]; [done |].
    exists p0, ws. auto.
  - destruct (String.eqb_spec root "sudo"); [done |]. by exists root, ws.
Qed.

Lemma project_ops : wider project_automation ops.
Proof.
  split; [apply mem_incl; by_eval |]. intros r parts Hr Hne Hroot _. simpl.
  assert (Hsp : forall s, In s ["sudo"; "systemctl"; "service"; "docker"; "docker-compose"] ->
            r <> s).
  { intros s Hs ->. simpl in Hs. by repeat destruct Hs as [<- | Hs]. }
  destruct (rooted_effective parts r ["systemctl"; "service"; "docker"; "docker-compose"])
    as (e0 & args & E & He); [done | by apply Hsp, mem_In | done | | done |].
  - cbn [mem]. rewrite (proj2 (String.eqb_neq r "systemctl")), (proj2 (String.eqb_neq r "service")),
      (proj2 (String.eqb_neq r "docker")), (proj2 (String.eqb_neq r "docker-compose"));
      [done | by apply Hsp, mem_In ..].
  - unfold _validate_ops_command. destruct parts as [|p0 rest]; [done |].
    simpl in E. rewrite E. cbn [mem] in *.
    destruct (String.eqb e0 "systemctl"); [done |]. destruct (String.eqb e0 "service"); [done |].
    simpl in *. by rewrite He.
Qed.

Lemma docker_action_wider effective a1 a2 :
  (forall x, mem x a1 = true -> mem x a2 = true) ->
  fst (_validate_docker_action effective a1) = true ->
  fst (_validate_docker_action effective a2) = true.
Proof.
  intros H. unfold _validate_docker_action. destruct effective as [|e [|action r]]; [done | done |].
  destruct (mem action a1) eqn:E; simpl; [| done]. rewrite (H _ E). simpl. done.
Qed.

Lemma ops_docker_admin : wider ops docker_admin.
Proof.
  split; [apply mem_incl; by_eval |]. intros r parts _ _ _. simpl.
  unfold _validate_ops_command, _validate_docker_command. destruct parts as [|p0 rest]; [done |].
  destruct (if String.eqb p0 "sudo" then rest else p0 :: rest) as [|e0 args]; [done |].
  destruct (mem e0 ["docker"; "docker-compose"]) eqn:Ed; [| done].
  destruct (mem e0 ["systemctl"; "service"]) eqn:Es.
  - exfalso. simpl in Ed, Es. destruct (String.eqb_spec e0 "docker") as [-> | ]; [done |].
    by destruct (String.eqb_spec e0 "docker-compose") as [-> | ].
  - apply docker_action_wider. apply mem_incl. by_eval.
Qed.
End Evaluators.
