(* ===== verification/Heredoc.v ===== *)
(** * Heredocs and inline scripts (app/heredoc_scanner.py)

    Tier 1 looks for triggers, tier 2 extracts the embedded commands, which are then scanned
    with the packs.  The same extraction normalises a command for the informational scanner. *)
From Stdlib Require Import Floats.
From S2P Require Import Prelude PyStr Regex RegexParse PolicyTypes Packs Registry.
From stdpp Require Import options.

#[local] Set Warnings "-inexact-float".

(** ** Tier 1 *)
Definition _TRIGGER_PATTERNS : list pattern := [
   re_lit no_flags "<<<";
   re_lit no_flags ("\bpython[0-9.]*(?:\.exe)?\b" +s+
      "(?:\s+(?:--\S+|-[A-Za-z]+(?:[:.=]\S*)?)(?:\s+(?:[0-9]\S*|\S*[:/\\]\S*|[A-Za-z][A-Za-z0-9_]*))?)*\s+-[A-Za-z]*[ce][A-Za-z]*(?:\s|['\" +s+ sc dq +s+ "]|$)");
   re_lit no_flags ("\bruby[0-9.]*(?:\.exe)?\b" +s+
      "(?:\s+(?:--\S+|-[A-Za-z]+(?:[:.=]\S*)?)(?:\s+(?:[0-9]\S*|\S*[:/\\]\S*|[A-Za-z][A-Za-z0-9_]*))?)*\s+-[A-Za-z]*e[A-Za-z]*(?:\s|['\" +s+ sc dq +s+ "]|$)");
   re_lit no_flags ("\bperl[0-9.]*(?:\.exe)?\b" +s+
      "(?:\s+(?:--\S+|-[A-Za-z]+(?:[:.=]\S*)?)(?:\s+(?:[0-9]\S*|\S*[:/\\]\S*|[A-Za-z][A-Za-z0-9_]*))?)*\s+-[A-Za-z]*[eE][A-Za-z]*(?:\s|['\" +s+ sc dq +s+ "]|$)");
   re_lit no_flags ("\bnode(?:js)?[0-9.]*(?:\.exe)?\b" +s+
      "(?:\s+(?:--\S+|-[A-Za-z]+(?:[:.=]\S*)?)(?:\s+(?:[0-9]\S*|\S*[:/\\]\S*|[A-Za-z][A-Za-z0-9_]*))?)*\s+-[A-Za-z]*[ep][A-Za-z]*(?:\s|['\" +s+ sc dq +s+ "]|$)");
   re_lit no_flags ("\bphp[0-9.]*(?:\.exe)?\b" +s+
      "(?:\s+(?:--\S+|-[A-Za-z]+(?:[:.=]\S*)?)(?:\s+(?:[0-9]\S*|\S*[:/\\]\S*|[A-Za-z][A-Za-z0-9_]*))?)*\s+-[A-Za-z]*r[A-Za-z]*(?:\s|['\" +s+ sc dq +s+ "]|$)");
   re_lit no_flags ("\b(?:sh|bash|zsh|fish)(?:\.exe)?\b" +s+
      "(?:\s+(?:--\S+|-[A-Za-z]+(?:[:.=]\S*)?)(?:\s+(?:[0-9]\S*|\S*[:/\\]\S*|[A-Za-z][A-Za-z0-9_]*))?)*\s+-[A-Za-z]*c[A-Za-z]*(?:\s|['\" +s+ sc dq +s+ "]|$)");
   re_lit no_flags ("(?i)\b(?:powershell|pwsh)(?:\.exe)?['\" +s+ sc dq +s+ "]?(?:\s+-\S+(?:\s+(?:[0-9]\S*|\S*[:/\\]\S*|[A-Za-z][A-Za-z0-9_]*))?)*\s+-c[a-z]*\s*['\" +s+ sc dq +s+ "]");
   re_lit no_flags ("(?i)\b(?:powershell|pwsh)(?:\.exe)?['\" +s+ sc dq +s+ "]?(?:\s+-\S+(?:\s+(?:[0-9]\S*|\S*[:/\\]\S*|[A-Za-z][A-Za-z0-9_]*))?)*\s+-e(?:n(?:c(?:o(?:d(?:e(?:d(?:c(?:o(?:m(?:m(?:a(?:n(?:d)?)?)?)?)?)?)?)?)?)?)?)?)?\s+[A-Za-z0-9+/=]");
   re_lit no_flags "(?i)\bcmd(?:\.exe)?\b(?:\s+/[A-Za-z]+)*\s+/[ck]\b";
   re_lit no_flags "(?i)(?:^|[\s;|&({])(?:iex|invoke-expression)\b";
   re_lit no_flags "\|\s*(?:python[0-9.]*|ruby[0-9.]*|perl[0-9.]*|node(?:js)?[0-9.]*|php[0-9.]*|lua[0-9.]*|sh|bash)(?:\.exe)?\b";
   re_lit no_flags "\|\s*xargs\s";
   re_lit no_flags ("\beval\s+['\" +s+ sc dq +s+ "]");
   re_lit no_flags ("\bexec\s+['\" +s+ sc dq +s+ "]");
   re_lit no_flags "\$\(.*?\)";
   re_lit no_flags "`[^`]+`"
].
Definition _HEREDOC_OP_RE : pattern :=
  re_lit no_flags "<<[-~]?(?:\s*[A-Za-z_][A-Za-z0-9_]*)?".

Definition found (p : pattern) (s : string) : bool :=
  match search p s with Some _ => true | None => false end.

Definition has_heredoc_triggers (command : string) : bool :=
  existsb (fun p => found p command) _TRIGGER_PATTERNS || found _HEREDOC_OP_RE command.

(** ** Tier 2 *)
Record ExtractedCommand : Type := mkExtracted {
  ec_script : string; ec_extractor : string; ec_language : string }.

(** [_find_closing_quote(text, quote, i)]; [s] is [text[i:]]. *)
Fixpoint closing_quote_from (quote : ascii) (i : nat) (s : string) : option nat :=
  match s with
  | "" => None
  | String c r =>
      if Ascii.eqb c bslash then
        match r with "" => None | String _ r' => closing_quote_from quote (i + 2) r' end
      else if Ascii.eqb c quote then Some i
      else closing_quote_from quote (i + 1) r
  end.
Definition _find_closing_quote (text : string) (quote : ascii) (start : nat) : option nat :=
  closing_quote_from quote start (drop start text).

Definition is_quote (c : ascii) : bool := Ascii.eqb c dq || Ascii.eqb c sq.

Definition interpreter_patterns : list (string * string * string) := [
  ("\bpython[0-9.]*\b", "-[A-Za-z]*[ce][A-Za-z]*", "python");
  ("\bruby[0-9.]*\b", "-[A-Za-z]*e[A-Za-z]*", "ruby");
  ("\bperl[0-9.]*\b", "-[A-Za-z]*[eE][A-Za-z]*", "perl");
  ("\bnode(?:js)?[0-9.]*\b", "-[A-Za-z]*[ep][A-Za-z]*", "javascript");
  ("\bphp[0-9.]*\b", "-[A-Za-z]*r[A-Za-z]*", "php");
  ("\b(?:sh|bash|zsh|fish)\b", "-[A-Za-z]*c[A-Za-z]*", "bash")].

(** One match of an interpreter's name *)
Definition inline_script (command flag_re lang : string) (match_ : mtch)
    : list ExtractedCommand :=
  let rest := drop (mt_end match_) command in
  match search (re_lit no_flags flag_re) rest with
  | None => []
  | Some flag_m =>
      let after_flag := lstrip (drop (mt_end flag_m) rest) in
      match after_flag with
      | "" => []
      | String quote _ =>
          if negb (is_quote quote) then []
          else
            let code := match _find_closing_quote after_flag quote 1 with
                        | None => drop 1 after_flag
                        | Some e => slice after_flag 1 e
                        end in
            if String.eqb (strip code) "" then []
            else [mkExtracted (strip code) "inline_script" lang]
      end
  end.
Definition extract_inline_scripts (command : string) : list ExtractedCommand :=
  flat_map (fun '(interp_re, flag_re, lang) =>
    flat_map (inline_script command flag_re lang) (finditer (re_lit no_flags interp_re) command))
    interpreter_patterns.

(** One match of [eval] or [exec] with an opening quote; the match is never empty. *)
Definition eval_call (command cmd_name : string) (m : mtch) : list ExtractedCommand :=
  let quote_pos := (mt_end m - 1)%nat in
  match char_at command quote_pos with
  | None => []
  | Some quote =>
      let rest := drop (quote_pos + 1) command in
      let code := match _find_closing_quote rest quote 1 with
                  | None => rest
                  | Some e => take e rest
                  end in
      if String.eqb (strip code) "" then []
      else [mkExtracted (strip code) (cmd_name +s+ "_call") "shell"]
  end.
Definition extract_eval_exec (command : string) : list ExtractedCommand :=
  flat_map (fun cmd_name =>
    flat_map (eval_call command cmd_name)
      (finditer (re_lit no_flags ("\b" +s+ cmd_name +s+ "\s+['\" +s+ sc dq +s+ "]")) command))
    ["eval"; "exec"].

Definition heredoc_patterns : list string := [
  "<<[-~]?\s*'([A-Za-z_][A-Za-z0-9_]*)'\s*\n(.*?)\n\1";
  "<<[-~]?\s*" +s+ sc dq +s+ "([A-Za-z_][A-Za-z0-9_]*)" +s+ sc dq +s+ "\s*\n(.*?)\n\1";
  "<<[-~]?\s*([A-Za-z_][A-Za-z0-9_]*)\s*\n(.*?)\n\1"].

(** A group's text, stripped, as an extracted command unless it is empty *)
Definition extracted (text : option string) (extractor language : string)
    : list ExtractedCommand :=
  match text with
  | None => []
  | Some t => if String.eqb (strip t) "" then [] else [mkExtracted (strip t) extractor language]
  end.
Definition extract_heredocs (command : string) : list ExtractedCommand :=
  flat_map (fun pattern =>
    flat_map (fun m => extracted (group m 2) "heredoc" "shell")
      (finditer (re_lit (mkflags false true) pattern) command)) heredoc_patterns.

Definition extract_herestrings (command : string) : list ExtractedCommand :=
  flat_map (fun m => extracted (group m 1) "herestring" "shell")
    (finditer (re_lit no_flags ("<<<\s+['\" +s+ sc dq +s+ "](.*?)['\" +s+ sc dq +s+ "]"))
       command).

(** The inner loop: from the text [s] at index [j] inside [depth] parentheses, the depth
    where it stops and the index reached *)
Fixpoint paren_scan (depth j : nat) (s : string) : nat * nat :=
  match depth, s with
  | O, _ => (O, j)
  | _, "" => (depth, j)
  | S d, String c r =>
      if Ascii.eqb c "$" then
        match r with
        | String "(" r' => paren_scan (S depth) (j + 2) r'
        | _ => paren_scan depth (j + 1) r
        end
      else if Ascii.eqb c ")" then paren_scan d (j + 1) r
      else paren_scan depth (j + 1) r
  end.

(** The outer loop from index [i]; it moves at least one character each time round. *)
Fixpoint substs_from (fuel : nat) (command : string) (i : nat) : list ExtractedCommand :=
  match fuel with
  | O => []
  | S f =>
      if negb (i <? slen command)%nat then []
      else if String.eqb (slice command i (i + 2)) "$(" then
        let start := (i + 2)%nat in
        let '(depth, j) := paren_scan 1 start (drop start command) in
        (if (depth =? 0)%nat
         then extracted (Some (slice command start (j - 1))) "dollar_paren" "shell" else [])
        ++ substs_from f command j
      else if at_is command i "`" then
        match find_char "`" command (i + 1) with
        | Some e => extracted (Some (slice command (i + 1) e)) "backtick" "shell"
                    ++ substs_from f command (e + 1)
        | None => substs_from f command (i + 1)
        end
      else substs_from f command (i + 1)
  end.
Definition extract_command_substitutions (command : string) : list ExtractedCommand :=
  substs_from (slen command) command 0.

(** [if x.key not in seen: seen.add(...); out.append(x)] *)
Fixpoint dedup_by {A} (key : A -> string) (seen : list string) (l : list A) : list A :=
  match l with
  | [] => []
  | a :: r =>
      if mem (key a) seen then dedup_by key seen r
      else a :: dedup_by key (key a :: seen) r
  end.

Definition extract_all (command : string) : list ExtractedCommand :=
  dedup_by ec_script []
    (extract_inline_scripts command ++ extract_eval_exec command ++ extract_heredocs command
     ++ extract_herestrings command ++ extract_command_substitutions command).

Definition extract_python_scripts (command : string) : list string :=
  map ec_script (dedup_by ec_script []
    (List.filter (fun ec => String.eqb (ec_language ec) "python") (extract_all command))).

(** ** Scanning what was extracted *)
Definition nested_match (ec : ExtractedCommand) (m : DestructiveMatch) : DestructiveMatch :=
  mkMatch ("nested:" +s+ dm_pattern_name m)
    ("[" +s+ ec_extractor ec +s+ " → " +s+ ec_language ec +s+ "] " +s+ dm_reason m)
    (dm_severity m) (dm_suggestion m) (dm_suggestions m) 0.5%float.

Definition check_nested_commands `{Scanner} (command : string) : list DestructiveMatch :=
  if negb (has_heredoc_triggers command) then []
  else flat_map (fun ec => map (nested_match ec) (scan_all (ec_script ec))) (extract_all command).

(** ** Normalisation for the informational scanner *)
Definition _VAR_ASSIGN_RE : pattern :=
  re_lit no_flags
    ("(?:^|[\s;|&()])([A-Za-z_][A-Za-z0-9_]*)=(?:([\" +s+ sc dq +s+ "'])(.*?)\2|(\S+?))(?=[\s;|&()]|$)").
Definition _VAR_REF_RE : pattern :=
  re_lit no_flags "\$\{([A-Za-z_][A-Za-z0-9_]*)\}|\$([A-Za-z_][A-Za-z0-9_]*)\b".

(** [assignments.setdefault(name, value)] *)
Definition setdefault (d : dict string) (name value : string) : dict string :=
  if dict_in name d then d else dict_set name value d.
Definition add_assignment (d : dict string) (m : mtch) : dict string :=
  match group m 1 with
  | None => d
  | Some name =>
      match (match group m 3 with Some v => Some v | None => group m 4 end) with
      | Some value => setdefault d name value
      | None => d
      end
  end.
Definition assignments_of (command : string) : dict string :=
  fold_left add_assignment (finditer _VAR_ASSIGN_RE command) [].

Definition same_group (g : option string) (n : string) : bool :=
  match g with Some t => String.eqb t n | None => false end.
Definition substitute (resolved : string) (nv : string * string) : string :=
  sub _VAR_REF_RE
    (fun m => if same_group (group m 1) (fst nv) || same_group (group m 2) (fst nv)
              then snd nv else group0 resolved m) resolved.

(** [for _ in range(n)]: stops early at a fixed point *)
Fixpoint resolve_rounds (n : nat) (assignments : dict string) (resolved : string) : string :=
  match n with
  | O => resolved
  | S k =>
      let next := fold_left substitute assignments resolved in
      if String.eqb next resolved then next else resolve_rounds k assignments next
  end.
Definition resolve_shell_variables (command : string) : string :=
  match assignments_of command with
  | [] => command
  | assignments => resolve_rounds 3 assignments command
  end.

(** [_add]: [seen] is the set of the candidates. *)
Definition add_candidate (candidates : list string) (text : string) : list string :=
  let text := strip text in
  if String.eqb text "" || mem text candidates then candidates else candidates ++ [text].

Definition normalize_scan_candidates (command : string) : list string :=
  let candidates := add_candidate (add_candidate [] command) (resolve_shell_variables command) in
  fold_left (fun acc ec =>
      add_candidate (add_candidate acc (ec_script ec)) (resolve_shell_variables (ec_script ec)))
    (flat_map extract_all candidates) candidates.
