(* ===== verification/AstMatcher.v ===== *)
(** * Structural matching of embedded code (app/ast_matcher.py)

    [ast.parse] is a parameter ([PyParser]): the parser of CPython is not modelled, the tree
    it returns is ([pynode]), reduced to the node classes and fields the matcher looks at. *)
From S2P Require Import Prelude PyStr Regex RegexParse PolicyTypes.
From stdpp Require Import options.

Inductive MatchSeverity : Type := SCRITICAL | SHIGH | SMEDIUM | SLOW.
Definition match_severity_value (s : MatchSeverity) : string :=
  match s with
  | SCRITICAL => "critical" | SHIGH => "high" | SMEDIUM => "medium" | SLOW => "low"
  end.

Record AstMatch : Type := mkAst {
  am_rule_id : string; am_reason : string; am_severity : MatchSeverity;
  am_lineno : nat; am_col_offset : nat; am_matched_text : string;
  am_suggestion : option string }.

Record _PatternDef : Type := mkDef {
  pd_rule_id : string; pd_reason : string; pd_severity : MatchSeverity;
  pd_suggestion : option string }.

(** ** The tree

    Fields come in the order of [_fields]; [NOther] is any other node with its child nodes.
    Children the matcher never looks at (contexts, aliases) are left out: they are neither
    imports nor calls and have no children. *)
#[warnings="-register-all"]
Inductive pynode : Type :=
| NImport (names : list (string * option string))            (* (name, asname) *)
| NImportFrom (module : option string) (names : list (string * option string))
| NCall (lineno col_offset : nat) (func : pynode) (args keywords : list pynode)
| NAttribute (value : pynode) (attr : string)
| NName (ident : string)
| NStr (value : string)                                      (* Constant of type str *)
| NList (elts : list pynode)
| NOther (children : list pynode).

(** [ast.parse]: [None] is a [SyntaxError]. *)
Class PyParser : Type := ast_parse : string -> option pynode.

(** [ast.iter_child_nodes] *)
Definition child_nodes (n : pynode) : list pynode :=
  match n with
  | NImport _ | NImportFrom _ _ | NName _ | NStr _ => []
  | NCall _ _ f args kws => f :: args ++ kws
  | NAttribute v _ => [v]
  | NList elts => elts
  | NOther cs => cs
  end.

Fixpoint node_size (n : pynode) : nat :=
  match n with
  | NImport _ | NImportFrom _ _ | NName _ | NStr _ => 1
  | NCall _ _ f args kws =>
      S (node_size f + (list_sum (map node_size args) + list_sum (map node_size kws)))
  | NAttribute v _ => S (node_size v)
  | NList cs | NOther cs => S (list_sum (map node_size cs))
  end.

(** [ast.walk]: breadth first, through a queue *)
Fixpoint walk_from (fuel : nat) (todo : list pynode) : list pynode :=
  match fuel, todo with
  | S f, n :: r => n :: walk_from f (r ++ child_nodes n)
  | _, _ => []
  end.
Definition walk (tree : pynode) : list pynode := walk_from (node_size tree) [tree].

(** ** Pattern tables *)
Definition def_rmtree : _PatternDef :=
  mkDef "ast.python.shutil_rmtree" "shutil.rmtree() recursively deletes directories" SCRITICAL
    (Some "Use explicit path validation").
Definition def_remove : _PatternDef :=
  mkDef "ast.python.os_remove" "os.remove() deletes files" SHIGH None.
Definition def_unlink : _PatternDef :=
  mkDef "ast.python.os_unlink" "os.unlink() deletes files" SHIGH None.
Definition def_rmdir : _PatternDef :=
  mkDef "ast.python.os_rmdir" "os.rmdir() deletes directories" SHIGH None.
Definition def_system : _PatternDef :=
  mkDef "ast.python.os_system" "os.system() executes shell commands" SMEDIUM
    (Some "Use subprocess with explicit args").
Definition def_popen : _PatternDef :=
  mkDef "ast.python.os_popen" "os.popen() executes shell commands" SMEDIUM
    (Some "Use subprocess instead").
Definition def_run : _PatternDef :=
  mkDef "ast.python.subprocess_run" "subprocess.run() executes shell commands" SMEDIUM None.
Definition def_call : _PatternDef :=
  mkDef "ast.python.subprocess_call" "subprocess.call() executes shell commands" SMEDIUM None.
Definition def_Popen : _PatternDef :=
  mkDef "ast.python.subprocess_popen" "subprocess.Popen() spawns processes" SMEDIUM None.

Definition _PYTHON_MODULE_FUNC : list (option string * string * _PatternDef) := [
  (None, "rmtree", def_rmtree);
  (Some "os", "remove", def_remove); (None, "remove", def_remove);
  (Some "os", "unlink", def_unlink); (None, "unlink", def_unlink);
  (Some "os", "rmdir", def_rmdir); (None, "rmdir", def_rmdir);
  (Some "shutil", "rmtree", def_rmtree);
  (Some "os", "system", def_system); (None, "system", def_system);
  (Some "os", "popen", def_popen); (None, "popen", def_popen);
  (Some "subprocess", "run", def_run); (None, "run", def_run);
  (Some "subprocess", "call", def_call); (None, "call", def_call);
  (Some "subprocess", "Popen", def_Popen); (None, "Popen", def_Popen)].

Definition module_eqb (a b : option string) : bool :=
  match a, b with
  | None, None => true
  | Some x, Some y => String.eqb x y
  | _, _ => false
  end.
(** [_PYTHON_MODULE_FUNC.get((module, name))] *)
Definition module_func (module : option string) (name : string) : option _PatternDef :=
  option_map snd
    (List.find (fun e => module_eqb module (fst (fst e)) && String.eqb name (snd (fst e)))
       _PYTHON_MODULE_FUNC).

Definition _SHELL_INTERPRETERS : list string :=
  ["sh"; "bash"; "dash"; "zsh"; "/bin/sh"; "/bin/bash"; "/bin/dash"; "/bin/zsh"].
Definition _NESTED_SCAN_BINARIES : list string :=
  ["rm"; "mv"; "dd"; "mkfs"; "wipefs"; "fdisk"; "sfdisk"; "parted";
   "truncate"; "pkill"; "killall"; "git"; "docker"].

Definition plain_def (id reason : string) (s : MatchSeverity) : _PatternDef :=
  mkDef id reason s None.
Definition _SCRIPT_PATTERNS : dict (list (pattern * _PatternDef)) := [
  ("bash", [
    (re_lit no_flags "\brm\s+-[rR]f\b",
     plain_def "ast.bash.rm_rf" "rm -rf recursively deletes files" SCRITICAL);
    (re_lit (mkflags true false) "\bdrop\s+(database|table|schema)\s",
     plain_def "ast.bash.psql_drop" "SQL DROP statement destroys data" SHIGH);
    (re_lit no_flags "\bdd\s+if=",
     plain_def "ast.bash.dd_destructive" "dd with if= can overwrite data" SHIGH);
    (re_lit no_flags "\bmkfs\.", plain_def "ast.bash.mkfs" "mkfs formats filesystems" SCRITICAL)]);
  ("javascript", [
    (re_lit no_flags "\bfs\.rmSync\s*\(",
     plain_def "ast.javascript.fs_rmsync" "fs.rmSync() deletes files" SMEDIUM);
    (re_lit no_flags "\bfs\.rmdirSync\s*\(",
     plain_def "ast.javascript.fs_rmdirsync" "fs.rmdirSync() deletes directories" SMEDIUM);
    (re_lit no_flags "\bchild_process\.exec(?:Sync)?\s*\(",
     plain_def "ast.javascript.execsync" "child_process.exec() executes shell commands" SMEDIUM);
    (re_lit no_flags "\bchild_process\.spawnSync\s*\(",
     plain_def "ast.javascript.spawnsync" "child_process.spawnSync() executes shell commands"
       SMEDIUM)]);
  ("ruby", [
    (re_lit no_flags "\bFileUtils\.rm_rf\s*\(",
     plain_def "ast.ruby.fileutils_rm_rf" "FileUtils.rm_rf() deletes directories" SMEDIUM);
    (re_lit no_flags "\bFile\.delete\s*\(",
     plain_def "ast.ruby.file_delete" "File.delete() deletes files" SMEDIUM);
    (re_lit no_flags "\bFileUtils\.remove_dir\s*\(",
     plain_def "ast.ruby.fileutils_remove_dir" "FileUtils.remove_dir() deletes directories"
       SMEDIUM)]);
  ("typescript", [
    (re_lit no_flags "\bfs\.rmSync\s*\(",
     plain_def "ast.typescript.fs_rmsync" "fs.rmSync() deletes files" SMEDIUM);
    (re_lit no_flags "\bDeno\.remove\s*\(",
     plain_def "ast.typescript.deno_remove" "Deno.remove() deletes files" SMEDIUM);
    (re_lit no_flags "\bchild_process\.exec(?:Sync)?\s*\(",
     plain_def "ast.typescript.execsync" "child_process.exec() executes shell commands"
       SMEDIUM)])].
Definition script_patterns (language : string) : list (pattern * _PatternDef) :=
  default [] (dict_get language _SCRIPT_PATTERNS).

(** ** Strings: [rsplit(c, 1)] *)
(** What precedes and follows the last [c]; [None] when there is none *)
Fixpoint rsplit1 (c : ascii) (s : string) : option (string * string) :=
  match s with
  | "" => None
  | String d r =>
      match rsplit1 c r with
      | Some (a, b) => Some (String d a, b)
      | None => if Ascii.eqb d c then Some ("", r) else None
      end
  end.
Definition after_last (c : ascii) (s : string) : string :=
  match rsplit1 c s with Some (_, b) => b | None => s end.

(** ** Python code *)
Definition alias_name (a : string * option string) : string :=
  match snd a with
  | Some asname => if String.eqb asname "" then fst a else asname
  | None => fst a
  end.

(** One step of the import pass *)
Definition track_import (imports : dict string) (n : pynode) : dict string :=
  match n with
  | NImport names =>
      fold_left (fun d a => dict_set (alias_name a) (fst a) d) names imports
  | NImportFrom (Some module) names =>
      if String.eqb module "" then imports
      else fold_left (fun d a => dict_set (alias_name a) (module +s+ "." +s+ fst a) d)
             names imports
  | _ => imports
  end.

Definition _make_ast_match (lineno col : nat) (pattern : _PatternDef) (code : string) : AstMatch :=
  let lines := splitlines code in
  let matched := match nth_error lines (lineno - 1) with
                 | Some line => strip line
                 | None => slice code col (col + 60)
                 end in
  mkAst (pd_rule_id pattern) (pd_reason pattern) (pd_severity pattern) lineno col matched
    (pd_suggestion pattern).

(** The string elements of a literal list; [None] when an element is anything else *)
Fixpoint str_elts (elts : list pynode) : option (list string) :=
  match elts with
  | [] => Some []
  | NStr v :: r => option_map (cons v) (str_elts r)
  | _ :: _ => None
  end.

(** The command rebuilt from the first argument *)
Definition nested_commands (args : list pynode) : list string :=
  match args with
  | [] => []
  | NStr v :: _ => [v]
  | NList elts :: _ =>
      match str_elts elts with
      | Some ((a0 :: rest) as argv) =>
          if mem a0 _SHELL_INTERPRETERS && (3 <=? length argv)%nat
             && String.eqb (nth 1 argv "") "-c"
          then [join " " (skipn 2 argv)]
          else if mem (after_last "/" a0) _NESTED_SCAN_BINARIES then [join " " argv]
          else []
      | _ => []
      end
  | _ => []
  end.

Definition nested_ast_match (lineno col : nat) (cmd : string) (pattern : _PatternDef) (m : mtch)
    : AstMatch :=
  mkAst ("ast.python.nested." +s+ pd_rule_id pattern)
    (pd_reason pattern +s+ " (via subprocess argv)") (pd_severity pattern) lineno col
    (strip (group0 cmd m)) (pd_suggestion pattern).
Definition _subprocess_nested_matches (lineno col : nat) (args : list pynode) : list AstMatch :=
  flat_map (fun cmd =>
    flat_map (fun '(compiled_re, pattern) =>
        map (nested_ast_match lineno col cmd pattern) (finditer compiled_re cmd))
      (script_patterns "bash")) (nested_commands args).

(** The pattern a call matches: the branches of the second pass, in order *)
Definition call_pattern (imports : dict string) (func : pynode) : option _PatternDef :=
  match func with
  | NAttribute (NName module_name) func_name => module_func (Some module_name) func_name
  | NName func_name =>
      match module_func None func_name with
      | Some d => Some d
      | None =>
          match dict_get func_name imports with
          | None => None
          | Some imported_path =>
              match rsplit1 "." imported_path with
              | None => None
              | Some (mod_, name) =>
                  match module_func (Some mod_) name with
                  | Some d => Some d
                  | None => module_func None name
                  end
              end
          end
      end
  | NAttribute (NCall _ _ _ _ _) method_name => module_func None method_name
  | _ => None
  end.

Definition called_name (func : pynode) : option string :=
  match func with
  | NAttribute _ attr => Some attr
  | NName ident => Some ident
  | _ => None
  end.

Definition check_call (imports : dict string) (code : string) (n : pynode) : list AstMatch :=
  match n with
  | NCall lineno col func args _ =>
      (match called_name func with
       | Some name => if mem name ["run"; "call"; "Popen"]
                      then _subprocess_nested_matches lineno col args else []
       | None => []
       end)
      ++ match call_pattern imports func with
         | Some d => [_make_ast_match lineno col d code]
         | None => []
         end
  | _ => []
  end.

Definition _check_ast_python `{PyParser} (code : string) : list AstMatch :=
  match ast_parse code with
  | None => []
  | Some tree =>
      let imports := fold_left track_import (walk tree) [] in
      flat_map (check_call imports code) (walk tree)
  end.

Fixpoint count_char (c : ascii) (s : string) : nat :=
  match s with
  | "" => 0
  | String d r => (if Ascii.eqb d c then 1 else 0) + count_char c r
  end.

Definition check_ast `{PyParser} (code language : string) : list AstMatch :=
  if String.eqb language "python" then _check_ast_python code
  else
    flat_map (fun '(compiled_re, pattern) =>
      map (fun m =>
          mkAst (pd_rule_id pattern) (pd_reason pattern) (pd_severity pattern)
            (count_char newline (take (mt_start m) code) + 1) (mt_start m)
            (strip (group0 code m)) (pd_suggestion pattern))
        (finditer compiled_re code)) (script_patterns language).

(** ** [ast.walk] visits every node once *)
Lemma child_sizes n : node_size n = S (list_sum (map node_size (child_nodes n))).
Proof. destruct n; simpl; rewrite ?map_app, ?list_sum_app; lia. Qed.

(** The nodes of a tree, as a relation *)
Inductive subnode : pynode -> pynode -> Prop :=
| sub_self n : subnode n n
| sub_child m c n : In c (child_nodes m) -> subnode n c -> subnode n m.

Lemma walk_from_visits fuel todo n t : (list_sum (map node_size todo) <= fuel)%nat ->
  In t todo -> subnode n t -> In n (walk_from fuel todo).
Proof.
  revert todo t. induction fuel as [|f IH]; intros todo t Hf Ht Hn.
  - destruct todo as [|a r]; [done |]. simpl in Hf. rewrite child_sizes in Hf. lia.
  - destruct todo as [|a r]; [done |]. simpl in Hf. rewrite child_sizes in Hf. simpl.
    assert (Hf' : (list_sum (map node_size (r ++ child_nodes a)) <= f)%nat).
    { rewrite map_app, list_sum_app. lia. }
    destruct Ht as [-> | Ht].
    + destruct Hn as [m | m c k Hc Hk]; [by left |]. right.
      apply (IH _ c); [done | apply in_or_app; auto | done].
    + right. apply (IH _ t); [done | apply in_or_app; auto | done].
Qed.

Lemma subnode_trans a b c : subnode a b -> subnode b c -> subnode a c.
Proof.
  intros Hab Hbc. revert Hab. induction Hbc as [| m k n Hk _ IH]; [done |].
  intros Hab. eapply sub_child; [done | auto].
Qed.

Lemma walk_from_only fuel todo n : In n (walk_from fuel todo) ->
  exists t, In t todo /\ subnode n t.
Proof.
  revert todo. induction fuel as [|f IH]; intros [|a r]; simpl; try done.
  intros [<- | (t & Ht & Hn)%IH]; [exists a; split; [by left | constructor] |].
  apply in_app_or in Ht as [Ht | Ht]; [by exists t; auto |].
  exists a. split; [by left |]. by eapply sub_child.
Qed.

Lemma walk_from_length fuel todo : (list_sum (map node_size todo) <= fuel)%nat ->
  length (walk_from fuel todo) = list_sum (map node_size todo).
Proof.
  revert todo. induction fuel as [|f IH]; intros [|a r] Hf; simpl in *; try done.
  - rewrite child_sizes in Hf. lia.
  - rewrite child_sizes in Hf. rewrite IH; rewrite map_app, list_sum_app; [| lia].
    rewrite (child_sizes a). lia.
Qed.

Lemma walk_In tree n : In n (walk tree) <-> subnode n tree.
Proof.
  unfold walk. split.
  - intros (t & [<- | []] & H)%walk_from_only. done.
  - intros H. apply (walk_from_visits _ _ _ tree); [simpl; lia | by left | done].
Qed.
