(* ===== verification/Scan.v ===== *)
(** * The informational scanner: [scan_command] (app/command_policy.py) *)
From Stdlib Require Import Floats.
From S2P Require Import Prelude PyStr PolicyTypes Registry Profiles Heredoc AstMatcher.
From stdpp Require Import options.

#[local] Set Warnings "-inexact-float".

(** [Severity(s.value)]: the two enumerations have the same values. *)
Definition severity_of (s : MatchSeverity) : Severity :=
  match s with SCRITICAL => CRITICAL | SHIGH => HIGH | SMEDIUM => MEDIUM | SLOW => LOW end.

Definition ast_destructive (a : AstMatch) : DestructiveMatch :=
  mkMatch (am_rule_id a) (am_reason a) (severity_of (am_severity a)) (am_suggestion a) []
    0.5%float.

Definition finding_of (m : DestructiveMatch) : ScanFinding :=
  mkFinding (dm_pattern_name m) (severity_value (dm_severity m)) (dm_reason m)
    (dm_suggestion m) (map _suggestion_dict (dm_suggestions m)) (Some (dm_confidence m)).

Section Scan.
Context {Sc : Scanner} {Py : PyParser}.

(** Every match of every candidate, then the AST matches, in the order they are looked at;
    the first of each name is kept. *)
Definition scan_matches (command : string) : list DestructiveMatch :=
  dedup_by dm_pattern_name []
    (flat_map _check_all_destructive (normalize_scan_candidates command)
     ++ flat_map (fun script => map ast_destructive (check_ast script "python"))
          (extract_python_scripts command)).

Definition scan_command (command : string) : ScanReport :=
  let findings := map finding_of (scan_matches command) in
  mkReport findings (length findings).
End Scan.

(** ** Deduplication *)
Lemma dedup_by_In {A} (key : A -> string) seen l a :
  In a (dedup_by key seen l) -> In a l /\ mem (key a) seen = false.
Proof.
  revert seen. induction l as [|b r IH]; simpl; [done |]. intros seen.
  destruct (mem (key b) seen) eqn:E; simpl.
  - intros [? ?]%IH. auto.
  - intros [<- | [H1 H2]%IH]; [auto |]. simpl in H2. apply orb_false_iff in H2 as [_ ?]. auto.
Qed.
Lemma dedup_by_key {A} (key : A -> string) seen l a : In a l -> mem (key a) seen = false ->
  In (key a) (map key (dedup_by key seen l)).
Proof.
  revert seen. induction l as [|b r IH]; simpl; [done |]. intros seen [-> | Hin] Hs.
  - rewrite Hs. by left.
  - destruct (mem (key b) seen) eqn:E; [by apply IH |]. simpl.
    destruct (String.eqb_spec (key b) (key a)) as [-> | Hne]; [by left |]. right.
    apply IH; [done |]. simpl. rewrite Hs, orb_false_r. apply String.eqb_neq. congruence.
Qed.
Lemma dedup_by_NoDup {A} (key : A -> string) seen l : NoDup (map key (dedup_by key seen l)).
Proof.
  revert seen. induction l as [|b r IH]; simpl; intros seen; [constructor |].
  destruct (mem (key b) seen) eqn:E; [apply IH |]. simpl. constructor; [| apply IH].
  rewrite list_elem_of_In, in_map_iff. intros (a & Hk & [_ Ha]%dedup_by_In).
  simpl in Ha. rewrite Hk, String.eqb_refl in Ha. done.
Qed.

(** ** Candidates *)
Lemma add_candidate_incl acc t x : In x acc -> In x (add_candidate acc t).
Proof. unfold add_candidate. case_match; [done |]. intros. apply in_or_app. auto. Qed.
Lemma add_candidate_in acc t : strip t <> "" -> In (strip t) (add_candidate acc t).
Proof.
  intros Hne%String.eqb_neq. unfold add_candidate. rewrite Hne. simpl.
  destruct (mem (strip t) acc) eqn:E; [by apply mem_In |].
  apply in_or_app. right. by left.
Qed.
Lemma fold_candidates_incl {A} (f : list string -> A -> list string) l acc x :
  (forall acc a, In x acc -> In x (f acc a)) -> In x acc -> In x (fold_left f l acc).
Proof. intros H. revert acc. induction l as [|a r IH]; simpl; auto. Qed.

Lemma candidates_has c : strip c <> "" -> In (strip c) (normalize_scan_candidates c).
Proof.
  intros Hne. unfold normalize_scan_candidates. apply fold_candidates_incl.
  - intros. by do 2 apply add_candidate_incl.
  - by apply add_candidate_incl, add_candidate_in.
Qed.
Lemma fold_candidates_has {A} (f : list string -> A -> list string) (g : A -> string) l acc a :
  In a l -> (forall acc x b, In x acc -> In x (f acc b)) ->
  (forall acc, In (g a) (f acc a)) -> In (g a) (fold_left f l acc).
Proof.
  intros Hin Hmono Hadd. revert acc. induction l as [|b r IH]; simpl; intros acc; [done |].
  destruct Hin as [-> | Hin]; [apply fold_candidates_incl; auto | auto].
Qed.
Lemma stripped_extract c ec : strip (ec_script ec) <> "" ->
  In ec (extract_all (strip c)) -> strip c <> "" ->
  In (strip (ec_script ec)) (normalize_scan_candidates c).
Proof.
  intros Hs Hin Hne. unfold normalize_scan_candidates.
  apply (fold_candidates_has _ (fun ec => strip (ec_script ec))).
  - apply in_flat_map. exists (strip c). split; [| done].
    by apply add_candidate_incl, add_candidate_in.
  - intros. by do 2 apply add_candidate_incl.
  - intros acc. by apply add_candidate_incl, add_candidate_in.
Qed.

Section ScanFacts.
Context {Sc : Scanner} {Py : PyParser}.

Lemma scan_reports c m cand : In cand (normalize_scan_candidates c) -> In m (scan_all cand) ->
  In (dm_pattern_name m) (map sf_pattern_name (sr_findings (scan_command c))).
Proof.
  intros Hc Hm. simpl. rewrite map_map. simpl. apply dedup_by_key; [| done].
  apply in_or_app. left. apply in_flat_map. eauto.
Qed.
Lemma scan_reports_ast c a script : In script (extract_python_scripts c) ->
  In a (check_ast script "python") ->
  In (am_rule_id a) (map sf_pattern_name (sr_findings (scan_command c))).
Proof.
  intros Hs Ha. simpl. rewrite map_map. simpl.
  apply (dedup_by_key dm_pattern_name [] _ (ast_destructive a)); [| done].
  apply in_or_app. right. apply in_flat_map. exists script. split; [done | by apply in_map].
Qed.
Lemma scan_names_once c : NoDup (map sf_pattern_name (sr_findings (scan_command c))).
Proof. simpl. rewrite map_map. apply dedup_by_NoDup. Qed.
Lemma scan_finding_origin c f : In f (sr_findings (scan_command c)) ->
  exists m, f = finding_of m /\
    ((exists cand, In cand (normalize_scan_candidates c) /\ In m (scan_all cand)) \/
     (exists script a, In script (extract_python_scripts c) /\
        In a (check_ast script "python") /\ m = ast_destructive a)).
Proof.
  simpl. intros (m & <- & [Hm _]%dedup_by_In)%in_map_iff. exists m. split; [done |].
  apply in_app_or in Hm as [(cand & ? & ?)%in_flat_map | (s & ? & Ha)%in_flat_map]; [eauto |].
  apply in_map_iff in Ha as (a & <- & ?). right. eauto 6.
Qed.
End ScanFacts.
