(* ===== verification/Digests.v ===== *)
(** * Python's [base64.b64encode] and [base64.b64decode]

    Bytes are characters; the decoder is the lenient one of [binascii.a2b_base64], which skips
    what is not in the alphabet. *)
From S2P Require Import Prelude PyStr.
From stdpp Require Import options.

Definition b64_alphabet : string :=
  "ABCDEFGHIJKLMNOPQRSTUVWXYZ" +s+ "abcdefghijklmnopqrstuvwxyz" +s+ "0123456789+/".
Definition b64_char (v : Z) : ascii :=
  match String.get (Z.to_nat v) b64_alphabet with Some c => c | None => "=" end.
Definition b64_value (c : ascii) : option Z := option_map Z.of_nat (find_char c b64_alphabet 0).
Definition byte_of (c : ascii) : Z := Z.of_nat (nat_of_ascii c).
Definition char_of (b : Z) : ascii := ascii_of_nat (Z.to_nat b).

(** The second and third sextets: the low bits of a byte, the high ones of the next *)
Definition quad2 (a b : Z) : Z := Z.lor (Z.shiftl (Z.land a 3) 4) (Z.shiftr b 4).
Definition quad3 (b c : Z) : Z := Z.lor (Z.shiftl (Z.land b 15) 2) (Z.shiftr c 6).
Fixpoint b64encode (s : string) : string :=
  match s with
  | "" => ""
  | String a "" =>
      String (b64_char (Z.shiftr (byte_of a) 2)) (String (b64_char (quad2 (byte_of a) 0)) "==")
  | String a (String b "") =>
      String (b64_char (Z.shiftr (byte_of a) 2)) (String (b64_char (quad2 (byte_of a) (byte_of b)))
        (String (b64_char (quad3 (byte_of b) 0)) "="))
  | String a (String b (String c r)) =>
      String (b64_char (Z.shiftr (byte_of a) 2)) (String (b64_char (quad2 (byte_of a) (byte_of b)))
        (String (b64_char (quad3 (byte_of b) (byte_of c))) (String (b64_char (Z.land (byte_of c) 63))
          (b64encode r))))
  end.

(** [quad] characters of the current group were read, [left_] holds their unused bits. *)
Fixpoint b64_from (quad pads : nat) (left_ : Z) (s : string) : option string :=
  match s with
  | "" => if (quad =? 0)%nat then Some "" else None
  | String c r =>
      if Ascii.eqb c "=" then
        if (2 <=? quad)%nat then
          if (4 <=? quad + S pads)%nat then Some "" else b64_from quad (S pads) left_ r
        else b64_from quad pads left_ r
      else match b64_value c with
           | None => b64_from quad pads left_ r
           | Some v =>
               let out x l := option_map (String (char_of x)) (b64_from (if (quad =? 3)%nat then 0 else S quad) 0 l r) in
               match quad with
               | 0%nat => b64_from 1 0 v r
               | 1%nat => out (Z.lor (Z.shiftl left_ 2) (Z.shiftr v 4)) (Z.land v 15)
               | 2%nat => out (Z.lor (Z.shiftl left_ 4) (Z.shiftr v 2)) (Z.land v 3)
               | _ => out (Z.lor (Z.shiftl left_ 6) v) 0%Z
               end
           end
  end.
Definition b64decode (s : string) : option string := b64_from 0 0 0 s.

Example b64_hello : b64encode "hello" = "aGVsbG8=" /\ b64decode "aGVs bG8=" = Some "hello"
  /\ b64decode "aGVsb" = None.
Proof. repeat split. Qed.

(** ** The round trip *)
Lemma byte_range c : (0 <= byte_of c < 256)%Z.
Proof.
  unfold byte_of. pose proof (nat_ascii_bounded c). lia.
Qed.
Lemma char_byte c : char_of (byte_of c) = c.
Proof. unfold char_of, byte_of. rewrite Nat2Z.id. apply ascii_nat_embedding. Qed.

(** A check by cases on all values below a bound *)
Definition below (n : nat) (p : Z -> bool) : bool := forallb (fun i => p (Z.of_nat i)) (seq 0 n).
Lemma below_spec n p z : below n p = true -> (0 <= z < Z.of_nat n)%Z -> p z = true.
Proof.
  unfold below. rewrite forallb_forall. intros H Hz. rewrite <- (Z2Nat.id z) by lia.
  apply H, in_seq. lia.
Qed.
Lemma sextet_ok v : (0 <= v < 64)%Z ->
  b64_value (b64_char v) = Some v /\ Ascii.eqb (b64_char v) "=" = false.
Proof.
  intros Hv. pose proof (below_spec 64 (fun v => bool_decide (b64_value (b64_char v) = Some v)
    && negb (Ascii.eqb (b64_char v) "=")) v eq_refl ltac:(lia)) as H. cbv beta in H.
  apply andb_true_iff in H as [H1%bool_decide_eq_true H2%negb_true_iff]. done.
Qed.
(** The high bits of a byte, then the second sextet *)
Definition splits (k m : Z) (a n : Z) : bool :=
  let w := Z.lor (Z.shiftl (Z.land a (Z.ones k)) m) n in
  (Z.lor (Z.shiftl (Z.shiftr a k) k) (Z.shiftr w m) =? a)%Z && (Z.land w (Z.ones m) =? n)%Z && (w <? 64)%Z
  && (0 <=? w)%Z.
Lemma split2 a n : (0 <= a < 256)%Z -> (0 <= n < 16)%Z -> splits 2 4 a n = true.
Proof.
  intros Ha Hn. pose proof (below_spec 256 (fun a => below 16 (splits 2 4 a)) a ltac:(vm_compute; reflexivity)
    ltac:(lia)) as H. by apply (below_spec 16 (splits 2 4 a) n).
Qed.
Lemma split4 a n : (0 <= a < 256)%Z -> (0 <= n < 4)%Z -> splits 4 2 a n = true.
Proof.
  intros Ha Hn. pose proof (below_spec 256 (fun a => below 4 (splits 4 2 a)) a ltac:(vm_compute; reflexivity)
    ltac:(lia)) as H. by apply (below_spec 4 (splits 4 2 a) n).
Qed.
Lemma high_bits a k m : (0 <= a < 256)%Z -> (0 <= k)%Z -> (256 <= 2 ^ k * m)%Z -> (0 <= Z.shiftr a k < m)%Z.
Proof.
  intros Ha Hk Hm. rewrite Z.shiftr_div_pow2 by done. pose proof (Z.pow_pos_nonneg 2 k ltac:(lia) Hk).
  split; [apply Z.div_pos; lia | apply Z.div_lt_upper_bound; lia].
Qed.
Lemma b64_step quad pads left_ v r : (0 <= v < 64)%Z ->
  b64_from quad pads left_ (String (b64_char v) r)
  = let out x l := option_map (String (char_of x)) (b64_from (if (quad =? 3)%nat then 0 else S quad) 0 l r) in
    match quad with
    | 0%nat => b64_from 1 0 v r
    | 1%nat => out (Z.lor (Z.shiftl left_ 2) (Z.shiftr v 4)) (Z.land v 15)
    | 2%nat => out (Z.lor (Z.shiftl left_ 4) (Z.shiftr v 2)) (Z.land v 3)
    | _ => out (Z.lor (Z.shiftl left_ 6) v) 0%Z
    end.
Proof. intros Hv. destruct (sextet_ok v Hv) as [H1 H2]. cbn [b64_from]. by rewrite H2, H1. Qed.
Lemma b64_pair a b r : (0 <= b < 256)%Z ->
  b64_from 0 0 0 (String (b64_char (Z.shiftr (byte_of a) 2)) (String (b64_char (quad2 (byte_of a) b)) r))
  = option_map (String a) (b64_from 2 0 (Z.shiftr b 4) r).
Proof.
  intros Hb. pose proof (byte_range a) as Ha.
  pose proof (high_bits (byte_of a) 2 64 Ha ltac:(lia) ltac:(lia)) as Hhi.
  pose proof (high_bits b 4 16 Hb ltac:(lia) ltac:(lia)) as Hlo.
  pose proof (split2 (byte_of a) (Z.shiftr b 4) Ha ltac:(lia)) as Hs. unfold splits in Hs.
  change (Z.lor (Z.shiftl (Z.land (byte_of a) (Z.ones 2)) 4) (Z.shiftr b 4)) with (quad2 (byte_of a) b) in Hs.
  change (Z.ones 4) with 15%Z in Hs.
  rewrite !andb_true_iff, !Z.eqb_eq in Hs. destruct Hs as [[[H1 H2] H3] H4].
  rewrite b64_step by lia. cbv zeta. rewrite b64_step by lia. cbv zeta. cbn [Nat.eqb].
  by rewrite H1, H2, char_byte.
Qed.
Lemma b64_third b c r : (0 <= c < 256)%Z ->
  b64_from 2 0 (Z.shiftr (byte_of b) 4) (String (b64_char (quad3 (byte_of b) c)) r)
  = option_map (String b) (b64_from 3 0 (Z.shiftr c 6) r).
Proof.
  intros Hc. pose proof (byte_range b) as Hb.
  pose proof (high_bits c 6 4 Hc ltac:(lia) ltac:(lia)) as Hlo.
  pose proof (split4 (byte_of b) (Z.shiftr c 6) Hb ltac:(lia)) as Hs. unfold splits in Hs.
  change (Z.lor (Z.shiftl (Z.land (byte_of b) (Z.ones 4)) 2) (Z.shiftr c 6)) with (quad3 (byte_of b) c) in Hs.
  change (Z.ones 2) with 3%Z in Hs.
  rewrite !andb_true_iff, !Z.eqb_eq in Hs. destruct Hs as [[[H1 H2] H3] H4].
  rewrite b64_step by lia. cbv zeta. cbn [Nat.eqb]. by rewrite H1, H2, char_byte.
Qed.
Lemma b64_fourth c r :
  b64_from 3 0 (Z.shiftr (byte_of c) 6) (String (b64_char (Z.land (byte_of c) 63)) r)
  = option_map (String c) (b64_from 0 0 0 r).
Proof.
  pose proof (byte_range c) as Hc.
  pose proof (below_spec 256 (fun c => (Z.lor (Z.shiftl (Z.shiftr c 6) 6) (Z.land c 63) =? c)%Z
    && (Z.land c 63 <? 64)%Z && (0 <=? Z.land c 63)%Z) (byte_of c) ltac:(vm_compute; reflexivity) ltac:(lia)) as H.
  cbv beta in H. rewrite !andb_true_iff, Z.eqb_eq in H. destruct H as [[H1 H2] H3].
  rewrite b64_step by lia. cbv zeta. cbn [Nat.eqb]. by rewrite H1, char_byte.
Qed.
(** Decoding an encoded text gives it back. *)
Theorem b64_round_trip s : b64decode (b64encode s) = Some s.
Proof.
  unfold b64decode. revert s. fix IH 1. intros [|a [|b [|c r]]]; cbn [b64encode].
  - done.
  - by rewrite b64_pair.
  - rewrite b64_pair by apply byte_range. by rewrite b64_third.
  - rewrite b64_pair by apply byte_range. rewrite b64_third by apply byte_range.
    by rewrite b64_fourth, IH.
Qed.

(** ** SHA-256, as [hashlib.sha256(data).hexdigest()] computes it

    Words are 32-bit values of [Z]; sums wrap around modulo 2^32. *)
#[local] Open Scope Z_scope.

Definition wrap32 (x : Z) : Z := Z.land x 0xffffffff.
Definition add32 (a b : Z) : Z := wrap32 (a + b).
Definition rotr (n x : Z) : Z := Z.lor (Z.shiftr x n) (wrap32 (Z.shiftl x (32 - n))).
Definition not32 (x : Z) : Z := Z.lxor x 0xffffffff.

(** The constants are the first 32 bits of the fractional parts of the cube roots of the first
    64 primes, and of the square roots of the first 8. *)
Definition is_prime (n : nat) : bool :=
  forallb (fun d => negb (n mod d =? 0)%nat) (seq 2 (Nat.sqrt n - 1)).
Definition first_primes (k : nat) : list Z :=
  map Z.of_nat (firstn k (List.filter is_prime (seq 2 310))).
(** The integer part of the cube root of [x < 2^105], from its high bit down *)
Definition cube_root (x : Z) : Z :=
  fold_right (fun i r => let r' := (r + Z.shiftl 1 (Z.of_nat i))%Z in
                         if (r' * r' * r' <=? x)%Z then r' else r) 0 (seq 0 35).
Definition round_constants : list Z :=
  Eval vm_compute in map (fun p => wrap32 (cube_root (Z.shiftl p 96))) (first_primes 64).
Definition initial_hash : list Z :=
  Eval vm_compute in map (fun p => wrap32 (Z.sqrt (Z.shiftl p 64))) (first_primes 8).

(** ** Message schedule *)
Definition sigma0 (x : Z) : Z := Z.lxor (Z.lxor (rotr 7 x) (rotr 18 x)) (Z.shiftr x 3).
Definition sigma1 (x : Z) : Z := Z.lxor (Z.lxor (rotr 17 x) (rotr 19 x)) (Z.shiftr x 10).

(** [w] holds the last sixteen words, oldest first. *)
Definition next_word (w : list Z) : Z :=
  add32 (add32 (sigma1 (nth 14 w 0)) (nth 9 w 0)) (add32 (sigma0 (nth 1 w 0)) (nth 0 w 0)).
Fixpoint schedule (n : nat) (w : list Z) : list Z :=
  match n with
  | O => w
  | S k => match w with [] => [] | x :: r => x :: schedule k (r ++ [next_word w]) end
  end.

(** ** Compression *)
Record regs : Type := mkregs { ra : Z; rb : Z; rc : Z; rd : Z; re : Z; rf : Z; rg : Z; rh : Z }.

Definition round (s : regs) (kw : Z * Z) : regs :=
  let S1 := Z.lxor (Z.lxor (rotr 6 (re s)) (rotr 11 (re s))) (rotr 25 (re s)) in
  let ch := Z.lxor (Z.land (re s) (rf s)) (Z.land (not32 (re s)) (rg s)) in
  let t1 := add32 (add32 (rh s) S1) (add32 ch (add32 (fst kw) (snd kw))) in
  let S0 := Z.lxor (Z.lxor (rotr 2 (ra s)) (rotr 13 (ra s))) (rotr 22 (ra s)) in
  let maj := Z.lxor (Z.lxor (Z.land (ra s) (rb s)) (Z.land (ra s) (rc s)))
               (Z.land (rb s) (rc s)) in
  mkregs (add32 t1 (add32 S0 maj)) (ra s) (rb s) (rc s) (add32 (rd s) t1) (re s) (rf s) (rg s).

Definition regs_of (h : list Z) : regs :=
  mkregs (nth 0 h 0) (nth 1 h 0) (nth 2 h 0) (nth 3 h 0) (nth 4 h 0) (nth 5 h 0) (nth 6 h 0)
    (nth 7 h 0).
Definition list_of_regs (s : regs) : list Z :=
  [ra s; rb s; rc s; rd s; re s; rf s; rg s; rh s].

Definition compress (h : list Z) (block : list Z) : list Z :=
  let w := schedule 48 block in
  let s := fold_left round (combine round_constants w) (regs_of h) in
  zip_with add32 h (list_of_regs s).

(** ** Bytes, padding, blocks *)
Definition bytes_of (s : string) : list Z :=
  map (fun c => Z.of_nat (nat_of_ascii c)) (list_ascii_of_string s).
Fixpoint be_bytes (n : nat) (x : Z) : list Z :=
  match n with
  | O => []
  | S k => Z.land (Z.shiftr x (8 * Z.of_nat k)) 0xff :: be_bytes k x
  end.
Definition pad (m : list Z) : list Z :=
  let l := length m in
  let zeros := Z.to_nat ((55 - Z.of_nat l) mod 64) in
  m ++ [0x80] ++ repeat 0 zeros ++ be_bytes 8 (8 * Z.of_nat l).

Fixpoint words_of (m : list Z) : list Z :=
  match m with
  | a :: b :: c :: d :: r =>
      Z.lor (Z.lor (Z.shiftl a 24) (Z.shiftl b 16)) (Z.lor (Z.shiftl c 8) d) :: words_of r
  | _ => []
  end.
Fixpoint blocks (fuel : nat) (w : list Z) : list (list Z) :=
  match fuel, w with
  | S f, _ :: _ => firstn 16 w :: blocks f (skipn 16 w)
  | _, _ => []
  end.

Definition sha256_words (m : list Z) : list Z :=
  let w := words_of (pad m) in
  fold_left compress (blocks (length w) w) initial_hash.

Definition hex_digit (x : Z) : ascii :=
  ascii_of_nat (Z.to_nat (if x <? 10 then x + 48 else x + 87)).
Definition hex_byte (x : Z) : string :=
  String (hex_digit (Z.shiftr x 4)) (sc (hex_digit (Z.land x 15))).
Definition hexdigest (s : string) : string :=
  join "" (map (fun w => join "" (map hex_byte (be_bytes 4 w))) (sha256_words (bytes_of s))).

(** The test vectors of FIPS 180-4 *)
Example sha256_empty :
  hexdigest "" = "e3b0c44298fc1c149afbf4c8996fb92427ae41e4649b934ca495991b7852b855".
Proof. by_eval. Qed.
Example sha256_abc :
  hexdigest "abc" = "ba7816bf8f01cfea414140de5dae2223b00361a396177a9cb410ff61f20015ad".
Proof. by_eval. Qed.
Example sha256_two_blocks :
  hexdigest "abcdbcdecdefdefgefghfghighijhijkijkljklmklmnlmnomnopnopq"
  = "248d6a61d20638b8e5c026930c3e6039a33ce45964ff2167f6ecedd419db06c1".
Proof. by_eval. Qed.

(** ** A digest is 64 hexadecimal characters *)
Lemma slen_join_nil l : slen (join "" l) = list_sum (map slen l).
Proof.
  induction l as [|x [|y r] IH]; [done | simpl; lia |].
  change (join "" (x :: y :: r)) with (x +s+ "" +s+ join "" (y :: r)).
  rewrite !slen_app, IH. done.
Qed.
Lemma be_bytes_length n x : length (be_bytes n x) = n.
Proof. induction n; simpl; congruence. Qed.
Lemma list_sum_const {A} (f : A -> nat) k l : (forall a, f a = k) ->
  list_sum (map f l) = (k * length l)%nat.
Proof. intros H. induction l; simpl; [lia |]. rewrite H, IHl. lia. Qed.
Lemma compress_length h b : length h = 8%nat -> length (compress h b) = 8%nat.
Proof.
  intros H. unfold compress. rewrite length_zip_with, H. done.
Qed.
Lemma hexdigest_length s : slen (hexdigest s) = 64%nat.
Proof.
  unfold hexdigest. rewrite slen_join_nil, map_map.
  rewrite (list_sum_const _ 8).
  - assert (H : forall bs h, length h = 8%nat -> length (fold_left compress bs h) = 8%nat).
    { induction bs; simpl; auto using compress_length. }
    unfold sha256_words. by rewrite H.
  - intros w. rewrite slen_join_nil, map_map, (list_sum_const _ 2) by done.
    by rewrite be_bytes_length.
Qed.
