(* ===== verification/World.v ===== *)
(** * The process the gateway runs in: clock, identifiers, module-level state

    A computation of the engine reads the clock ([time.time()]), draws identifiers
    ([uuid.uuid4().hex]), changes the module-level stores and may raise.  [Env] is what the
    process cannot choose: the successive readings and draws; times are in microseconds. *)
From S2P Require Import Prelude PyStr.
From stdpp Require Import options.

Class Env : Type := {
  time_at : nat -> Z;              (* the n-th reading of the clock *)
  uuid_at : nat -> string;         (* the n-th identifier drawn *)
  loop_running : bool }.           (* is there a running event loop? *)

(** ** The data of the two stores *)
Record ApprovalRequest : Type := mkApproval {
  ar_approval_id : string; ar_command : string; ar_profile : string;
  ar_blocked_by : option string; ar_reason : string; ar_created_at : Z; ar_expires_at : Z;
  ar_approved : option bool; ar_approved_by : option string }.

Record AllowlistEntry : Type := mkEntry {
  ae_id : string; ae_layer : string; ae_selector_type : string; ae_selector_value : string;
  ae_created_at : Z; ae_expires_at : option Z; ae_created_by : option string;
  ae_reason : string; ae_ttl : option Z }.

Record AccessDecision : Type := mkAccess {
  ac_key_hash : string; ac_decision : string; ac_actor_fingerprint : string;
  ac_source_ip : string; ac_reason : string; ac_decided_by : string;
  ac_created_at : Z; ac_expires_at : Z }.

(** A background task handed to the event loop: Redis writes of the access-control store *)
Inductive task : Type :=
| SaveToRedis (entry : AccessDecision)
| DeleteFromRedis (key_hash : string).

(** [w_store]: [policy_ask._store]; [w_entries]: [Allowlist._entries] of the singleton;
    [w_access]: [AccessControlStore._store]; [w_tasks]: the tasks created, oldest first;
    [w_audit]: the security events logged; [w_commands]: the command metrics recorded *)
Record World : Type := mkWorld {
  w_tick : nat; w_ids : nat;
  w_store : dict ApprovalRequest; w_entries : dict (list AllowlistEntry);
  w_access : dict AccessDecision; w_tasks : list task;
  w_audit : list (string * string * string);
  w_commands : list (string * string * string) }.

Definition set_tick (n : nat) (w : World) : World :=
  mkWorld n (w_ids w) (w_store w) (w_entries w) (w_access w) (w_tasks w) (w_audit w)
    (w_commands w).
Definition set_ids (n : nat) (w : World) : World :=
  mkWorld (w_tick w) n (w_store w) (w_entries w) (w_access w) (w_tasks w) (w_audit w)
    (w_commands w).
Definition set_store (s : dict ApprovalRequest) (w : World) : World :=
  mkWorld (w_tick w) (w_ids w) s (w_entries w) (w_access w) (w_tasks w) (w_audit w)
    (w_commands w).
Definition set_entries (e : dict (list AllowlistEntry)) (w : World) : World :=
  mkWorld (w_tick w) (w_ids w) (w_store w) e (w_access w) (w_tasks w) (w_audit w)
    (w_commands w).
Definition set_access (a : dict AccessDecision) (w : World) : World :=
  mkWorld (w_tick w) (w_ids w) (w_store w) (w_entries w) a (w_tasks w) (w_audit w)
    (w_commands w).
Definition add_task (t : task) (w : World) : World :=
  mkWorld (w_tick w) (w_ids w) (w_store w) (w_entries w) (w_access w) (w_tasks w ++ [t])
    (w_audit w) (w_commands w).
Definition add_audit (a : string * string * string) (w : World) : World :=
  mkWorld (w_tick w) (w_ids w) (w_store w) (w_entries w) (w_access w) (w_tasks w)
    (w_audit w ++ [a]) (w_commands w).
Definition add_command (c : string * string * string) (w : World) : World :=
  mkWorld (w_tick w) (w_ids w) (w_store w) (w_entries w) (w_access w) (w_tasks w) (w_audit w)
    (w_commands w ++ [c]).

Definition EMPTY_ENTRIES : dict (list AllowlistEntry) :=
  [("agent", []); ("project", []); ("user", []); ("system", [])].
Definition init_world : World := mkWorld 0 0 [] EMPTY_ENTRIES [] [] [] [].

(** ** Computations *)
Definition M (A : Type) : Type := World -> result A * World.

Definition mret {A} (a : A) : M A := fun w => (Ok a, w).
Definition mraise {A} (e : exn) : M A := fun w => (Raise e, w).
Definition mlet {A B} (m : M A) (k : A -> M B) : M B :=
  fun w => match m w with
           | (Ok a, w') => k a w'
           | (Raise e, w') => (Raise e, w')
           end.
Notation "'let!' x ':=' m 'in' k" := (mlet m (fun x => k))
  (at level 10, x binder, m at level 100, k at level 200) : gw_scope.
Notation "'do!' m 'in' k" := (mlet m (fun _ => k))
  (at level 10, m at level 100, k at level 200) : gw_scope.

(** A pure computation that may raise *)
Definition lift {A} (r : result A) : M A := fun w => (r, w).
Definition get_store : M (dict ApprovalRequest) := fun w => (Ok (w_store w), w).
Definition put_store (s : dict ApprovalRequest) : M unit := fun w => (Ok tt, set_store s w).
Definition get_entries : M (dict (list AllowlistEntry)) := fun w => (Ok (w_entries w), w).
Definition put_entries (e : dict (list AllowlistEntry)) : M unit :=
  fun w => (Ok tt, set_entries e w).
Definition get_access : M (dict AccessDecision) := fun w => (Ok (w_access w), w).
Definition put_access (a : dict AccessDecision) : M unit := fun w => (Ok tt, set_access a w).
Definition log_event (a : string * string * string) : M unit := fun w => (Ok tt, add_audit a w).
Definition count_command (c : string * string * string) : M unit :=
  fun w => (Ok tt, add_command c w).
(** [try: m / except e: h(e)] *)
Definition mtry {A} (m : M A) (h : exn -> M A) : M A :=
  fun w => match m w with
           | (Raise e, w') => h e w'
           | r => r
           end.

Section Effects.
Context {E : Env}.

Definition now : M Z := fun w => (Ok (time_at (w_tick w)), set_tick (S (w_tick w)) w).
Definition new_id : M string := fun w => (Ok (uuid_at (w_ids w)), set_ids (S (w_ids w)) w).
(** [asyncio.get_running_loop().create_task(t)], nothing without a running loop *)
Definition spawn (t : task) : M unit :=
  fun w => (Ok tt, if loop_running then add_task t w else w).
End Effects.

(** [[x for x in l if p(x)]] for an effectful [p] *)
Fixpoint mfilter {A} (p : A -> M bool) (l : list A) : M (list A) :=
  match l with
  | [] => mret []
  | a :: r =>
      let! b := p a in
      let! r' := mfilter p r in
      mret (if b then a :: r' else r')
  end.

(** ** Reasoning about computations *)

(** [runs m w a w']: from [w], [m] returns [a] and leaves [w']. *)
Definition runs {A} (m : M A) (w : World) (a : A) (w' : World) : Prop := m w = (Ok a, w').

Lemma runs_let {A B} (m : M A) (k : A -> M B) w b w' :
  runs (mlet m k) w b w' <-> exists a w1, runs m w a w1 /\ runs (k a) w1 b w'.
Proof.
  unfold runs, mlet. destruct (m w) as [[a | e] w1]; split.
  - eauto.
  - by intros (a' & w2 & [= -> ->] & H).
  - done.
  - by intros (a' & w2 & H & _).
Qed.
Lemma runs_ret {A} (a b : A) w w' : runs (mret a) w b w' <-> a = b /\ w = w'.
Proof. unfold runs, mret. split; [by intros [= -> ->] | by intros [-> ->]]. Qed.
Lemma runs_lift {A} (r : result A) b w w' : runs (lift r) w b w' <-> r = Ok b /\ w = w'.
Proof. unfold runs, lift. split; [by intros [= -> ->] | by intros [-> ->]]. Qed.

Lemma runs_now {E : Env} w t w' :
  runs now w t w' <-> t = time_at (w_tick w) /\ w' = set_tick (S (w_tick w)) w.
Proof. unfold runs, now. split; [by intros [= <- <-] | by intros [-> ->]]. Qed.

(** [keeps f m]: whatever [m] does, the part [f] of the world stays as it was. *)
Definition keeps {A B} (f : World -> B) (m : M A) : Prop := forall w, f (snd (m w)) = f w.

Lemma keeps_ret {A B} (f : World -> B) (a : A) : keeps f (mret a).
Proof. done. Qed.
Lemma keeps_lift {A B} (f : World -> B) (r : result A) : keeps f (lift r).
Proof. done. Qed.
Lemma keeps_let {A B C} (f : World -> C) (m : M A) (k : A -> M B) :
  keeps f m -> (forall a, keeps f (k a)) -> keeps f (mlet m k).
Proof.
  intros Hm Hk w. unfold mlet. specialize (Hm w). destruct (m w) as [[a | e] w1]; [| done].
  simpl in *. by rewrite Hk.
Qed.
Lemma keeps_filter {A B} (f : World -> B) (p : A -> M bool) l :
  (forall a, keeps f (p a)) -> keeps f (mfilter p l).
Proof.
  intros Hp. induction l as [|a r IH]; simpl; [apply keeps_ret |].
  apply keeps_let; [done |]. intros b. apply keeps_let; [done |]. intros l'. apply keeps_ret.
Qed.
#[export] Hint Resolve keeps_ret keeps_lift keeps_filter : gw.
