(* ===== verification/Ask.v ===== *)
(** * The approval store of ASK mode (app/policy_ask.py) *)
From S2P Require Import Prelude PyStr World.
From stdpp Require Import options.

Definition _APPROVAL_TTL_S : Z := 300 * 1000000.

(** [req.expires_at < t] *)
Definition stale (t : Z) (req : ApprovalRequest) : bool := (ar_expires_at req <? t)%Z.

(** [req.approved is not None] *)
Definition is_decided (req : ApprovalRequest) : bool :=
  match ar_approved req with Some _ => true | None => false end.

Definition pending_request (approval_id command profile : string) (blocked_by : option string)
    (reason : string) (t : Z) : ApprovalRequest :=
  mkApproval approval_id command profile blocked_by reason t (t + _APPROVAL_TTL_S) None None.

(** [req.approved = b; req.approved_by = operator] *)
Definition decide_request (b : bool) (operator : string) (req : ApprovalRequest)
    : ApprovalRequest :=
  mkApproval (ar_approval_id req) (ar_command req) (ar_profile req) (ar_blocked_by req)
    (ar_reason req) (ar_created_at req) (ar_expires_at req) (Some b) (Some operator).

(** [for aid in expired: _store.pop(aid, None)] *)
Definition drop_stale (t : Z) (store : dict ApprovalRequest) : dict ApprovalRequest :=
  fold_left (fun s aid => dict_del aid s)
    (keys (List.filter (fun kv => stale t (snd kv)) store)) store.

(** [command == c and profile == p and approved is True] *)
Definition approved_for (command profile : string) (kv : string * ApprovalRequest) : bool :=
  String.eqb (ar_command (snd kv)) command && String.eqb (ar_profile (snd kv)) profile
    && match ar_approved (snd kv) with Some b => b | None => false end.

Section Ask.
Context {E : Env}.

Definition _expire_stale : M unit :=
  let! t := now in
  let! store := get_store in
  put_store (drop_stale t store).

Definition create_approval_request (command profile : string) (blocked_by : option string)
    (reason : string) : M ApprovalRequest :=
  do! _expire_stale in
  let! hex := new_id in
  let approval_id := take 16 hex in
  let! t := now in
  let req := pending_request approval_id command profile blocked_by reason t in
  let! store := get_store in
  do! put_store (dict_set approval_id req store) in
  mret req.

(** The body of [approve_request] and [deny_request] *)
Definition settle (b : bool) (approval_id operator : string) : M bool :=
  let! store := get_store in
  match dict_get approval_id store with
  | None => mret false
  | Some req =>
      let! t := now in
      if stale t req || is_decided req then mret false
      else
        do! put_store (dict_set approval_id (decide_request b operator req) store) in
        mret true
  end.
Definition approve_request (approval_id operator : string) : M bool :=
  settle true approval_id operator.
Definition deny_request (approval_id operator : string) : M bool :=
  settle false approval_id operator.

Definition get_request (approval_id : string) : M (option ApprovalRequest) :=
  let! store := get_store in
  match dict_get approval_id store with
  | None => mret None
  | Some req => let! t := now in mret (if stale t req then None else Some req)
  end.

Definition get_pending_requests : M (list ApprovalRequest) :=
  do! _expire_stale in
  let! store := get_store in
  mret (List.filter (fun r => negb (is_decided r)) (values store)).

Definition find_and_consume_approval (command profile : string) : M (option ApprovalRequest) :=
  do! _expire_stale in
  let! store := get_store in
  match List.find (approved_for command profile) store with
  | None => mret None
  | Some (aid, req) => do! put_store (dict_del aid store) in mret (Some req)
  end.
End Ask.

(** ** The store as a map: every request is stored under its own identifier, once *)
Definition store_ok (s : dict ApprovalRequest) : Prop :=
  NoDup (keys s) /\ Forall (fun kv => fst kv = ar_approval_id (snd kv)) s.

Lemma Forall_dict_dels {V} (P : string * V -> Prop) ks d :
  Forall P d -> Forall P (fold_left (fun s k => dict_del k s) ks d).
Proof. revert d. induction ks; simpl; auto using Forall_dict_del. Qed.
Lemma dict_dels_NoDup {V} ks (d : dict V) :
  NoDup (keys d) -> NoDup (keys (fold_left (fun s k => dict_del k s) ks d)).
Proof. revert d. induction ks; simpl; auto with gw. Qed.

Lemma dict_dels_get {V} ks k (d : dict V) : NoDup (keys d) ->
  dict_get k (fold_left (fun s k => dict_del k s) ks d) =
  if mem k ks then None else dict_get k d.
Proof.
  revert d. induction ks as [|k0 ks IH]; simpl; [done |]. intros d Hn.
  rewrite IH by auto with gw. destruct (String.eqb_spec k k0) as [-> | Hne]; simpl.
  - rewrite dict_get_del_eq by done. by case_match.
  - by rewrite dict_get_del_ne by congruence.
Qed.

Lemma drop_stale_get t k s : NoDup (keys s) ->
  dict_get k (drop_stale t s) =
  match dict_get k s with
  | Some req => if stale t req then None else Some req
  | None => None
  end.
Proof.
  intros Hn. unfold drop_stale. rewrite dict_dels_get by done.
  destruct (mem k (keys (List.filter (fun kv => stale t (snd kv)) s))) eqn:Em.
  - apply mem_In, in_map_iff in Em as ([k' req] & <- & [Hin Hs]%filter_In). simpl in *.
    by rewrite (dict_In_get _ _ _ Hn Hin), Hs.
  - destruct (dict_get k s) as [req|] eqn:Eg; [| done].
    destruct (stale t req) eqn:Es; [| done]. exfalso.
    assert (Hin : In k (keys (List.filter (fun kv => stale t (snd kv)) s))).
    { apply in_map_iff. exists (k, req). split; [done |]. apply filter_In.
      split; [by apply dict_get_In | done]. }
    apply mem_In in Hin. congruence.
Qed.
Lemma drop_stale_ok t s : store_ok s -> store_ok (drop_stale t s).
Proof. intros [H1 H2]. split; [by apply dict_dels_NoDup | by apply Forall_dict_dels]. Qed.
Lemma drop_stale_fresh t s kv : store_ok s -> In kv (drop_stale t s) ->
  In kv s /\ stale t (snd kv) = false.
Proof.
  intros Hok Hin. destruct (drop_stale_ok t s Hok) as [Hn _]. destruct Hok as [Hn' _].
  destruct kv as [k req]. simpl. apply (dict_In_get _ _ _ Hn) in Hin.
  rewrite drop_stale_get in Hin by done.
  destruct (dict_get k s) as [r|] eqn:E; [| done]. destruct (stale t r) eqn:Es; [done |].
  injection Hin as ->. auto using dict_get_In.
Qed.

Lemma find_first {A} (f : A -> bool) l a : List.find f l = Some a -> In a l /\ f a = true.
Proof. apply List.find_some. Qed.

(** ** What each operation does, as an equation on worlds *)
Section AskFacts.
Context {E : Env}.

Definition after_expiry (w : World) : World :=
  set_store (drop_stale (time_at (w_tick w)) (w_store w)) (set_tick (S (w_tick w)) w).

Lemma expire_stale_eq w : _expire_stale w = (Ok tt, after_expiry w).
Proof. done. Qed.

Lemma find_and_consume_eq command profile w :
  find_and_consume_approval command profile w =
  let w1 := after_expiry w in
  match List.find (approved_for command profile) (w_store w1) with
  | None => (Ok None, w1)
  | Some (aid, req) => (Ok (Some req), set_store (dict_del aid (w_store w1)) w1)
  end.
Proof.
  unfold find_and_consume_approval, mlet. rewrite expire_stale_eq. simpl.
  by destruct (List.find _ _) as [[aid req]|].
Qed.

Lemma create_eq command profile blocked_by reason w :
  create_approval_request command profile blocked_by reason w =
  let w1 := after_expiry w in
  let id := take 16 (uuid_at (w_ids w)) in
  let req := pending_request id command profile blocked_by reason (time_at (S (w_tick w))) in
  (Ok req, set_store (dict_set id req (w_store w1))
             (set_ids (S (w_ids w)) (set_tick (S (S (w_tick w))) w))).
Proof. done. Qed.

Lemma settle_eq b id operator w :
  settle b id operator w =
  match dict_get id (w_store w) with
  | None => (Ok false, w)
  | Some req =>
      let w1 := set_tick (S (w_tick w)) w in
      if stale (time_at (w_tick w)) req || is_decided req
      then (Ok false, w1)
      else (Ok true, set_store (dict_set id (decide_request b operator req) (w_store w)) w1)
  end.
Proof.
  unfold settle, mlet. simpl. destruct (dict_get id (w_store w)) as [req|]; [| done].
  simpl. by destruct (_ || _).
Qed.

Lemma consume_ok c p w r w' : store_ok (w_store w) ->
  find_and_consume_approval c p w = (r, w') -> store_ok (w_store w').
Proof.
  intros Hok. rewrite find_and_consume_eq. simpl.
  pose proof (drop_stale_ok (time_at (w_tick w)) _ Hok) as [H1 H2].
  destruct (List.find _ _) as [[aid req]|]; intros [= <- <-]; simpl; [| by split].
  split; [by apply dict_del_NoDup | by apply Forall_dict_del].
Qed.
Lemma create_ok c p b reason w r w' : store_ok (w_store w) ->
  create_approval_request c p b reason w = (r, w') -> store_ok (w_store w').
Proof.
  intros Hok. rewrite create_eq. intros [= <- <-]. simpl.
  pose proof (drop_stale_ok (time_at (w_tick w)) _ Hok) as [H1 H2].
  split; [by apply dict_set_NoDup |]. apply Forall_dict_set; [done | done |].
  by intros k' ->.
Qed.
Lemma settle_ok b id op w r w' : store_ok (w_store w) ->
  settle b id op w = (r, w') -> store_ok (w_store w').
Proof.
  intros Hok. rewrite settle_eq. destruct (dict_get id (w_store w)) as [req|] eqn:Eg;
    [| by intros [= <- <-]].
  simpl. destruct (_ || _); intros [= <- <-]; simpl; [done |]. destruct Hok as [H1 H2].
  assert (Hid : id = ar_approval_id req).
  { apply dict_get_In in Eg. rewrite List.Forall_forall in H2. exact (H2 _ Eg). }
  split; [by apply dict_set_NoDup |]. apply Forall_dict_set; [done | done | by intros ? ->].
Qed.

(** A consumed approval: it was approved for this command and profile and not expired at the
    reading of the clock, and its identifier is gone afterwards. *)
Lemma consume_Some c p w req w' : store_ok (w_store w) ->
  find_and_consume_approval c p w = (Ok (Some req), w') ->
  dict_get (ar_approval_id req) (w_store w) = Some req /\
  ar_command req = c /\ ar_profile req = p /\ ar_approved req = Some true /\
  (time_at (w_tick w) <= ar_expires_at req)%Z /\
  dict_get (ar_approval_id req) (w_store w') = None.
Proof.
  intros Hok. rewrite find_and_consume_eq. simpl.
  destruct (List.find _ _) as [[aid r]|] eqn:Ef; [| by intros [=]]. intros [= -> <-]. simpl.
  apply List.find_some in Ef as [Hin Hf].
  pose proof (drop_stale_ok (time_at (w_tick w)) _ Hok) as [Hn1 Hid1].
  assert (aid = ar_approval_id req) as ->.
  { rewrite List.Forall_forall in Hid1. exact (Hid1 _ Hin). }
  destruct (drop_stale_fresh _ _ _ Hok Hin) as [Hin0 Hs]. simpl in Hs.
  unfold approved_for in Hf. simpl in Hf.
  apply andb_true_iff in Hf as [[->%String.eqb_eq ->%String.eqb_eq]%andb_true_iff Ha].
  split; [by apply dict_In_get; [apply Hok |] |]. split; [done |]. split; [done |].
  split; [by destruct (ar_approved req) as [[]|] |].
  split; [unfold stale in Hs; lia | by apply dict_get_del_eq].
Qed.
End AskFacts.
