(* ===== verification/Allowlist.v ===== *)
(** * The four-layer allowlist (app/allowlist.py) *)
From S2P Require Import Prelude PyStr Regex RegexParse PolicyTypes Registry AstMatcher Scan World.
From stdpp Require Import options.

Definition LAYERS : list string := ["agent"; "project"; "user"; "system"].
Definition SELECTOR_TYPES : list string := ["rule_id"; "exact"; "prefix"; "regex"].
Definition ALLOWLIST_TTL_S : Z := 3600 * 1000000.

Definition _matches_prefix (command prefix : string) : bool :=
  if negb (startswith prefix command) then false
  else if (slen command =? slen prefix)%nat then true
  else at_in command (slen prefix) (String " " (sc tab)).

Record AllowlistMatch : Type := mkAllow {
  al_entry : AllowlistEntry; al_command : string; al_matched_at : Z }.

(** [self._entries.get(layer, [])] *)
Definition layer_entries (layer : string) (d : dict (list AllowlistEntry)) : list AllowlistEntry :=
  default [] (dict_get layer d).

Section Allowlist.
Context {E : Env} {Sc : Scanner} {Py : PyParser}.

(** [now or time.time()]: a given time of 0 counts as none given. *)
Definition is_expired (entry : AllowlistEntry) (given : option Z) : M bool :=
  match ae_expires_at entry with
  | None => mret false
  | Some e =>
      let! t := match given with
                | Some n => if Z.eqb n 0 then now else mret n
                | None => now
                end in
      mret (e <=? t)%Z
  end.

(** Layer by layer; the count is what the code returns. *)
Fixpoint expire_layers (t : Z) (d : dict (list AllowlistEntry))
    : M (dict (list AllowlistEntry) * nat) :=
  match d with
  | [] => mret ([], O)
  | (layer, lst) :: r =>
      let! kept := mfilter (fun e => let! x := is_expired e (Some t) in mret (negb x)) lst in
      let! rest := expire_layers t r in
      mret ((layer, kept) :: fst rest, (length lst - length kept) + snd rest)%nat
  end.
Definition expire_stale_entries : M nat :=
  let! t := now in
  let! d := get_entries in
  let! r := expire_layers t d in
  do! put_entries (fst r) in
  mret (snd r).

Definition add (layer selector_type selector_value : string) (created_by : option string)
    (reason : string) (ttl : option Z) : M AllowlistEntry :=
  do! expire_stale_entries in
  let! hex := new_id in
  let! t := now in
  let expires_at := match ttl with
                    | Some n => Some (t + n * 1000000)%Z
                    | None => if String.eqb layer "system" then None
                              else Some (t + ALLOWLIST_TTL_S)%Z
                    end in
  let entry := mkEntry (take 16 hex) layer selector_type selector_value t expires_at created_by
                 reason ttl in
  let! d := get_entries in
  do! put_entries (dict_set layer (layer_entries layer d ++ [entry]) d) in
  mret entry.

(** [lst.pop(i)] at the first entry with this id, in the first layer that has one *)
Fixpoint pop_id (entry_id : string) (lst : list AllowlistEntry) : option (list AllowlistEntry) :=
  match lst with
  | [] => None
  | e :: r => if String.eqb (ae_id e) entry_id then Some r
              else option_map (cons e) (pop_id entry_id r)
  end.
Fixpoint remove_from (entry_id : string) (d : dict (list AllowlistEntry))
    : option (dict (list AllowlistEntry)) :=
  match d with
  | [] => None
  | (layer, lst) :: r =>
      match pop_id entry_id lst with
      | Some lst' => Some ((layer, lst') :: r)
      | None => option_map (cons (layer, lst)) (remove_from entry_id r)
      end
  end.
Definition remove (entry_id : string) : M bool :=
  let! d := get_entries in
  match remove_from entry_id d with
  | Some d' => do! put_entries d' in mret true
  | None => mret false
  end.

Definition _matches (entry : AllowlistEntry) (command : string) : result bool :=
  if String.eqb (ae_selector_type entry) "exact"
  then Ok (String.eqb command (ae_selector_value entry))
  else if String.eqb (ae_selector_type entry) "prefix"
  then Ok (_matches_prefix command (ae_selector_value entry))
  else if String.eqb (ae_selector_type entry) "regex"
  then m <-! re_search (ae_selector_value entry) command ;;
       Ok (match m with Some _ => true | None => false end)
  else if String.eqb (ae_selector_type entry) "rule_id"
  then Ok (existsb (fun f => String.eqb (sf_pattern_name f) (ae_selector_value entry))
             (sr_findings (scan_command command)))
  else Ok false.

(** The inner loop of [check] *)
Fixpoint check_entries (command : string) (entries : list AllowlistEntry)
    : M (option AllowlistMatch) :=
  match entries with
  | [] => mret None
  | entry :: r =>
      let! expired := is_expired entry None in
      if expired then check_entries command r
      else
        let! hit := lift (_matches entry command) in
        if hit then let! t := now in mret (Some (mkAllow entry command t))
        else check_entries command r
  end.
Fixpoint check_layers (command : string) (layers : list string) : M (option AllowlistMatch) :=
  match layers with
  | [] => mret None
  | layer :: r =>
      let! d := get_entries in
      let! hit := check_entries command (layer_entries layer d) in
      match hit with
      | Some m => mret (Some m)
      | None => check_layers command r
      end
  end.
(** [check(command, agent=..., project=..., user=...)]: the three names are not looked at. *)
Definition allowlist_check (command : string) (agent project user : option string)
    : M (option AllowlistMatch) :=
  do! expire_stale_entries in check_layers command LAYERS.

Definition list_layer (layer : string) : M (list AllowlistEntry) :=
  do! expire_stale_entries in
  let! d := get_entries in mret (layer_entries layer d).
Definition list_all : M (list AllowlistEntry) :=
  do! expire_stale_entries in
  let! d := get_entries in mret (flat_map (fun layer => layer_entries layer d) LAYERS).

(** [lst.clear()] on a layer the dict does not have clears a list nobody holds. *)
Definition clear_layer (layer : string) : M nat :=
  do! expire_stale_entries in
  let! d := get_entries in
  let lst := layer_entries layer d in
  do! (if dict_in layer d then put_entries (dict_set layer [] d) else mret tt) in
  mret (length lst).
Definition clear_all : M nat :=
  let! d := get_entries in
  do! put_entries (map (fun kv => (fst kv, [])) d) in
  mret (list_sum (map (fun kv => length (snd kv)) d)).
Definition reset_allowlist : M unit := put_entries EMPTY_ENTRIES.
End Allowlist.

(** ** Prefixes stop at a word boundary *)
Lemma startswith_same_len p s : startswith p s = true -> slen s = slen p -> s = p.
Proof.
  intros [t ->]%startswith_spec. rewrite slen_app. destruct t; [by rewrite append_nil_r |].
  unfold slen. simpl. lia.
Qed.
Lemma matches_prefix_spec command prefix :
  _matches_prefix command prefix = true <->
  command = prefix \/ exists c t, command = prefix +s+ String c t /\ (c = " "%char \/ c = tab).
Proof.
  unfold _matches_prefix. destruct (startswith prefix command) eqn:Es; simpl.
  - apply startswith_spec in Es as [t ->]. rewrite slen_app.
    assert (Hat : forall chars, at_in (prefix +s+ t) (slen prefix) chars =
              match t with "" => false | String c _ => char_in c chars end).
    { intros chars. unfold at_in, char_at, slen.
      induction prefix as [|d p IH]; [by destruct t | exact IH]. }
    rewrite Hat. destruct t as [|c t]; simpl slen.
    + rewrite append_nil_r. replace (_ =? _)%nat with true; [| symmetry; apply Nat.eqb_eq; lia].
      split; auto.
    + replace (_ =? _)%nat with false; [| symmetry; apply Nat.eqb_neq; unfold slen; simpl; lia].
      simpl. rewrite orb_false_r, orb_true_iff, !Ascii.eqb_eq. split.
      * intros H. right. by exists c, t.
      * intros [H | (c' & t' & H & Hc)].
        -- rewrite <- (append_nil_r prefix) in H at 2. by apply append_inj_l in H.
        -- apply append_inj_l in H as [= -> ->]. done.
  - split; [done |].
    assert (Hno : forall t, command <> prefix +s+ t).
    { intros t ->. rewrite (proj2 (startswith_spec _ _)) in Es; [done | by exists t]. }
    intros [-> | (c & t & -> & _)]; [by destruct (Hno ""); rewrite append_nil_r |].
    by destruct (Hno (String c t)).
Qed.

(** ** Checking changes no entry and returns a live one of the first layer that matches *)
Section AllowlistFacts.
Context {E : Env} {Sc : Scanner} {Py : PyParser}.

Lemma is_expired_keeps {B} (f : World -> B) e g :
  (forall n w, f (set_tick n w) = f w) -> keeps f (is_expired e g).
Proof.
  intros Hf. unfold is_expired. destruct (ae_expires_at e); [| apply keeps_ret].
  apply keeps_let; [| intros; apply keeps_ret].
  destruct g as [n|]; [destruct (Z.eqb n 0) |]; try apply keeps_ret; intros w; apply Hf.
Qed.

(** The entry is not expired at some reading of the clock from the [n]-th on. *)
Definition live_at (n : nat) (e : AllowlistEntry) : Prop :=
  match ae_expires_at e with
  | None => True
  | Some x => exists k, (n <= k)%nat /\ (time_at k < x)%Z
  end.

Lemma is_expired_false e w w' : runs (is_expired e None) w false w' ->
  live_at (w_tick w) e /\ w_entries w' = w_entries w /\ w_store w' = w_store w /\
  (w_tick w <= w_tick w')%nat.
Proof.
  unfold is_expired, live_at. destruct (ae_expires_at e) as [x|].
  - intros (t & w1 & Hn & Hr)%runs_let. apply runs_now in Hn as [-> ->].
    apply runs_ret in Hr as [Hle <-]. simpl. split; [| split; [done | split; [done | lia]]].
    exists (w_tick w). lia.
  - intros [_ <-]%runs_ret. auto.
Qed.
Lemma is_expired_world e g b w w' : runs (is_expired e g) w b w' ->
  w_entries w' = w_entries w /\ w_store w' = w_store w /\ (w_tick w <= w_tick w')%nat.
Proof.
  unfold is_expired. destruct (ae_expires_at e) as [x|].
  - intros (t & w1 & Hn & Hr)%runs_let. apply runs_ret in Hr as [_ <-].
    destruct g as [n|]; [destruct (Z.eqb n 0) |];
      (apply runs_ret in Hn as [_ <-] || apply runs_now in Hn as [_ ->]); simpl; auto.
  - intros [_ <-]%runs_ret. auto.
Qed.

Lemma check_entries_Some command l w m w' :
  runs (check_entries command l) w (Some m) w' ->
  In (al_entry m) l /\ _matches (al_entry m) command = Ok true /\ al_command m = command /\
  live_at (w_tick w) (al_entry m) /\ w_entries w' = w_entries w.
Proof.
  revert w. induction l as [|e r IH]; intros w; simpl; [by intros [? _]%runs_ret |].
  intros ([] & w1 & He & Hk)%runs_let.
  - apply is_expired_world in He as (H1 & _ & H3).
    apply IH in Hk as (? & ? & ? & Hl & ->). repeat split; auto.
    unfold live_at in *. destruct (ae_expires_at _); [| done].
    destruct Hl as (k & ? & ?). exists k. split; [lia | done].
  - apply is_expired_false in He as (Hlive & H1 & _ & H3).
    apply runs_let in Hk as (hit & w2 & Hm & Hk). apply runs_lift in Hm as [Hm <-].
    destruct hit.
    + apply runs_let in Hk as (t & w3 & Hn & Hk). apply runs_now in Hn as [-> ->].
      apply runs_ret in Hk as [[= <-] <-]. simpl. auto 6.
    + apply IH in Hk as (? & ? & ? & Hl & ->). repeat split; auto.
      unfold live_at in *. destruct (ae_expires_at _); [| done].
      destruct Hl as (k & ? & ?). exists k. split; [lia | done].
Qed.
Lemma check_entries_None command l w w' :
  runs (check_entries command l) w None w' -> w_entries w' = w_entries w /\
  (forall e, In e l -> ae_expires_at e = None -> _matches e command = Ok false) /\
  (w_tick w <= w_tick w')%nat.
Proof.
  revert w. induction l as [|e r IH]; intros w; simpl; [by intros [_ <-]%runs_ret |].
  intros (b & w1 & He & Hk)%runs_let.
  pose proof (is_expired_world _ _ _ _ _ He) as (H1 & _ & H3). destruct b.
  - apply IH in Hk as (-> & Hr & ?). split; [done |]. split; [| lia].
    intros e' [<- | Hin] Hx; [| auto]. unfold is_expired in He. rewrite Hx in He.
    by apply runs_ret in He as [? _].
  - apply runs_let in Hk as (hit & w2 & Hm & Hk). apply runs_lift in Hm as [Hm <-].
    destruct hit; [by apply runs_let in Hk as (t & w3 & _ & [? _]%runs_ret) |].
    apply IH in Hk as (-> & Hr & ?). split; [done |]. split; [| lia].
    intros e' [<- | Hin] Hx; auto.
Qed.
(** ** What a hit is, whatever the clock does during the call *)
Lemma mfilter_sub {A} (p : A -> M bool) l w r w' : runs (mfilter p l) w r w' ->
  forall a, In a r -> In a l.
Proof.
  revert w r. induction l as [|x l IH]; intros w r; simpl; [by intros [<- _]%runs_ret |].
  intros (b & w1 & _ & (r' & w2 & Hr & [<- <-]%runs_ret)%runs_let)%runs_let a Ha.
  destruct b; [destruct Ha as [<- | Ha]; [by left |] |]; right; eauto.
Qed.
Lemma tick_le_filter (p : AllowlistEntry -> M bool) l w r w' :
  (forall a w b w', runs (p a) w b w' -> (w_tick w <= w_tick w')%nat) ->
  runs (mfilter p l) w r w' -> (w_tick w <= w_tick w')%nat.
Proof.
  intros Hp. revert w r. induction l as [|x l IH]; intros w r; simpl; [by intros [_ <-]%runs_ret |].
  intros (b & w1 & Hb & (r' & w2 & Hr & [_ <-]%runs_ret)%runs_let)%runs_let.
  apply Hp in Hb. apply IH in Hr. lia.
Qed.
Lemma expire_layers_sub t d w r w' : runs (expire_layers t d) w r w' ->
  (forall layer e, In e (layer_entries layer (fst r)) -> In e (layer_entries layer d)) /\
  (w_tick w <= w_tick w')%nat.
Proof.
  revert w r. induction d as [|[k lst] d IH]; intros w r; cbn [expire_layers];
    [by intros [<- <-]%runs_ret |].
  intros (kept & w1 & Hk & (rest & w2 & Hr & [<- <-]%runs_ret)%runs_let)%runs_let.
  apply IH in Hr as [Hsub Hle]. split.
  - intros layer e. unfold layer_entries in *. cbn [fst dict_get].
    destruct (String.eqb layer k); [apply (mfilter_sub _ _ _ _ _ Hk) | apply Hsub].
  - apply tick_le_filter in Hk; [lia |].
    intros a v b v' (x & v1 & Hx%is_expired_world & [_ <-]%runs_ret)%runs_let. lia.
Qed.
Lemma expire_stale_sub w n w' : runs expire_stale_entries w n w' ->
  (forall layer e, In e (layer_entries layer (w_entries w')) ->
     In e (layer_entries layer (w_entries w))) /\ (w_tick w <= w_tick w')%nat.
Proof.
  unfold expire_stale_entries.
  intros (t & w1 & [-> ->]%runs_now & (d & w2 & Hg & (r & w3 & Hr & Hk)%runs_let)%runs_let)%runs_let.
  injection Hg as <- <-. apply runs_let in Hk as ([] & w4 & Hput & [_ <-]%runs_ret).
  injection Hput as <-. apply expire_layers_sub in Hr as [Hsub Hle]. simpl in *.
  split; [exact Hsub | lia].
Qed.

Lemma live_at_le n m e : (n <= m)%nat -> live_at m e -> live_at n e.
Proof.
  unfold live_at. destruct (ae_expires_at e); [| done]. intros Hnm (k & ? & ?). exists k. lia.
Qed.
Lemma check_layers_Some command layers w m w' :
  runs (check_layers command layers) w (Some m) w' ->
  (exists layer, In layer layers /\ In (al_entry m) (layer_entries layer (w_entries w))) /\
  _matches (al_entry m) command = Ok true /\ live_at (w_tick w) (al_entry m).
Proof.
  revert w. induction layers as [|layer r IH]; intros w; cbn [check_layers];
    [by intros [? _]%runs_ret |].
  intros (d & w1 & Hg & (hit & w2 & Hc & Hk)%runs_let)%runs_let. injection Hg as <- <-.
  destruct hit as [m'|].
  - apply runs_ret in Hk as [[= ->] _].
    apply check_entries_Some in Hc as (Hin & Hm & _ & Hl & _).
    split; [| done]. exists layer. split; [by left | done].
  - apply check_entries_None in Hc as (He & _ & Hle). apply IH in Hk as ((l & Hl & Hin) & Hm & Hv).
    rewrite He in Hin. split; [exists l; split; [by right | done] |].
    split; [done | by eapply live_at_le].
Qed.
Lemma allowlist_check_Some command a p u w m w' :
  runs (allowlist_check command a p u) w (Some m) w' ->
  (exists layer, In layer LAYERS /\ In (al_entry m) (layer_entries layer (w_entries w))) /\
  _matches (al_entry m) command = Ok true /\ live_at (w_tick w) (al_entry m).
Proof.
  unfold allowlist_check. intros (n & w1 & [Hsub Hle]%expire_stale_sub & Hk)%runs_let.
  apply check_layers_Some in Hk as ((l & Hl & Hin) & Hm & Hv).
  split; [exists l; auto |]. split; [done | by eapply live_at_le].
Qed.

(** ** [check] as a pure function of one instant

    While the clock reads [t], [check] is: the first entry alive at [t] that matches, the
    layers in the order of [LAYERS]. *)
Definition alive (t : Z) (e : AllowlistEntry) : bool :=
  match ae_expires_at e with None => true | Some x => (t <? x)%Z end.
Fixpoint first_match (command : string) (l : list AllowlistEntry)
    : result (option AllowlistEntry) :=
  match l with
  | [] => Ok None
  | e :: r => hit <-! _matches e command ;; if hit then Ok (Some e) else first_match command r
  end.
Definition allowed_at (t : Z) (command : string) (d : dict (list AllowlistEntry))
    : result (option AllowlistEntry) :=
  first_match command
    (flat_map (fun layer => List.filter (alive t) (layer_entries layer d)) LAYERS).

Lemma first_match_app command l1 l2 :
  first_match command (l1 ++ l2) =
  (hit <-! first_match command l1 ;;
   match hit with Some e => Ok (Some e) | None => first_match command l2 end).
Proof.
  induction l1 as [|e r IH]; simpl; [done |]. destruct (_matches e command) as [[]|]; simpl; auto.
Qed.

Definition report (t : Z) (command : string) (r : result (option AllowlistEntry))
    : result (option AllowlistMatch) :=
  e <-! r ;; Ok (option_map (fun e => mkAllow e command t) e).

Section Frozen.
Variable t : Z.
Hypothesis Hclock : forall n, time_at n = t.

(** [m] answers [r] and touches nothing but the clock. *)
Definition answers {A} (m : M A) (r : result A) : Prop :=
  forall w, exists n, m w = (r, set_tick n w).

Lemma answers_ret {A} (a : A) : answers (mret a) (Ok a).
Proof. intros w. exists (w_tick w). by destruct w. Qed.
Lemma answers_lift {A} (r : result A) : answers (lift r) r.
Proof. intros w. exists (w_tick w). by destruct w. Qed.
Lemma answers_let {A B} (m : M A) (k : A -> M B) r q :
  answers m r -> (forall a, answers (k a) (q a)) -> answers (mlet m k) (rbind r q).
Proof.
  intros Hm Hk w. unfold mlet. destruct (Hm w) as [n ->]. destruct r as [a | e]; [| by exists n].
  destruct (Hk a (set_tick n w)) as [n' ->]. by exists n'.
Qed.
Lemma answers_now : answers now (Ok t).
Proof using Hclock. intros w. exists (S (w_tick w)). unfold now. by rewrite Hclock. Qed.

Lemma answers_expired e g : (g = None \/ g = Some t) ->
  answers (is_expired e g) (Ok (negb (alive t e))).
Proof using Hclock.
  intros Hg. unfold is_expired, alive. destruct (ae_expires_at e) as [x|]; [| apply answers_ret].
  assert (Ht : answers (match g with
                        | Some n => if Z.eqb n 0 then now else mret n
                        | None => now end) (Ok t)).
  { destruct Hg as [-> | ->]; [apply answers_now |].
    destruct (Z.eqb t 0); [apply answers_now | apply answers_ret]. }
  replace (negb (t <? x)%Z) with (x <=? t)%Z by lia.
  apply (answers_let _ _ (Ok t) (fun t => Ok (x <=? t)%Z)); [done |]. intros a. apply answers_ret.
Qed.

Lemma answers_filter l :
  answers (mfilter (fun e => let! x := is_expired e (Some t) in mret (negb x)) l)
    (Ok (List.filter (alive t) l)).
Proof using Hclock.
  induction l as [|e r IH]; simpl; [apply answers_ret |].
  apply (answers_let _ _ (Ok (alive t e))
    (fun b => Ok (if b then e :: List.filter (alive t) r else List.filter (alive t) r))).
  - rewrite <- (negb_involutive (alive t e)).
    apply (answers_let _ _ (Ok _) (fun x => Ok (negb x))); [auto using answers_expired |].
    intros x. apply answers_ret.
  - intros b. apply (answers_let _ _ (Ok _) (fun r' => Ok (if b then e :: r' else r'))); [done |].
    intros r'. apply answers_ret.
Qed.

Definition live_entries (d : dict (list AllowlistEntry)) : dict (list AllowlistEntry) :=
  map (fun kv => (fst kv, List.filter (alive t) (snd kv))) d.
Definition expired_count (d : dict (list AllowlistEntry)) : nat :=
  list_sum (map (fun kv => length (snd kv) - length (List.filter (alive t) (snd kv)))%nat d).

Lemma answers_expire_layers d :
  answers (expire_layers t d) (Ok (live_entries d, expired_count d)).
Proof using Hclock.
  induction d as [|[layer lst] r IH]; simpl; [apply answers_ret |].
  apply (answers_let _ _ (Ok _)
    (fun kept => Ok ((layer, kept) :: live_entries r,
                     (length lst - length kept) + expired_count r)%nat)); [apply answers_filter |].
  intros kept. apply (answers_let _ _ (Ok _)
    (fun rest => Ok ((layer, kept) :: fst rest, (length lst - length kept) + snd rest)%nat) IH).
  intros rest. apply answers_ret.
Qed.

Lemma expire_stale_frozen w : exists n,
  expire_stale_entries w =
  (Ok (expired_count (w_entries w)), set_entries (live_entries (w_entries w)) (set_tick n w)).
Proof using Hclock.
  destruct (answers_expire_layers (w_entries w) (set_tick (S (w_tick w)) w)) as [n Hn].
  exists n. unfold expire_stale_entries. unfold mlet at 1, now. rewrite Hclock.
  unfold mlet at 1, get_entries. cbn [w_entries set_tick]. unfold mlet at 1. by rewrite Hn.
Qed.

Lemma layer_entries_live layer d :
  layer_entries layer (live_entries d) = List.filter (alive t) (layer_entries layer d).
Proof.
  unfold layer_entries. induction d as [|[k v] r IH]; simpl; [done |].
  by destruct (String.eqb layer k).
Qed.

Lemma answers_check_entries command l :
  answers (check_entries command l) (report t command (first_match command (List.filter (alive t) l))).
Proof using Hclock.
  induction l as [|e r IH]; [apply (answers_ret None) |]. cbn [check_entries List.filter].
  assert (Hx : answers (is_expired e None) (Ok (negb (alive t e)))) by auto using answers_expired.
  destruct (alive t e) eqn:Ea; simpl in Hx |- *.
  - unfold report. rewrite rbind_assoc.
    intros w. unfold mlet at 1. destruct (Hx w) as [n ->]. revert n.
    assert (Hk : answers (let! hit := lift (_matches e command) in
        if hit then let! t := now in mret (Some (mkAllow e command t))
        else check_entries command r)
      (hit <-! _matches e command ;;
       e <-! (if hit then Ok (Some e) else first_match command (List.filter (alive t) r)) ;;
       Ok (option_map (fun e => mkAllow e command t) e))).
    { apply answers_let; [apply answers_lift |]. intros []; simpl; [| exact IH].
      apply (answers_let _ _ (Ok t) (fun t => Ok (Some (mkAllow e command t))));
        [apply answers_now | intros a; apply answers_ret]. }
    intros n. destruct (Hk (set_tick n w)) as [n' ->]. by exists n'.
  - intros w. unfold mlet at 1. destruct (Hx w) as [n ->].
    destruct (IH (set_tick n w)) as [n' ->]. by exists n'.
Qed.

Lemma check_layers_frozen command layers w : exists n,
  check_layers command layers w =
  (report t command (first_match command
     (flat_map (fun l => List.filter (alive t) (layer_entries l (w_entries w))) layers)),
   set_tick n w).
Proof using Hclock.
  revert w. induction layers as [|layer r IH]; intros w; [by apply (answers_ret None) |].
  cbn [check_layers flat_map]. unfold mlet at 1, get_entries. rewrite first_match_app.
  destruct (answers_check_entries command (layer_entries layer (w_entries w)) w) as [n Hn].
  unfold mlet at 1. rewrite Hn. unfold report in *.
  destruct (first_match command _) as [[e|] | ex]; simpl; [by exists n | | by exists n].
  destruct (IH (set_tick n w)) as [n' ->]. by exists n'.
Qed.

Lemma filter_twice {A} (p : A -> bool) l : List.filter p (List.filter p l) = List.filter p l.
Proof.
  induction l as [|a r IH]; simpl; [done |]. destruct (p a) eqn:Ep; simpl; [| done].
  by rewrite Ep, IH.
Qed.

Lemma allowlist_check_frozen command agent project user w : exists n,
  allowlist_check command agent project user w =
  (report t command (allowed_at t command (w_entries w)),
   set_entries (live_entries (w_entries w)) (set_tick n w)).
Proof using Hclock.
  unfold allowlist_check. unfold mlet at 1. destruct (expire_stale_frozen w) as [n ->].
  destruct (check_layers_frozen command LAYERS
    (set_entries (live_entries (w_entries w)) (set_tick n w))) as [n' ->].
  exists n'. simpl w_entries. unfold allowed_at. f_equal. f_equal. f_equal.
  unfold LAYERS. simpl. by rewrite !layer_entries_live, !filter_twice.
Qed.
End Frozen.
End AllowlistFacts.
