(* ===== verification/AccessControl.v ===== *)
(** * The access-control gate (app/access_control.py): store, TTLs, profile capping *)
From Stdlib Require Import Sorted Permutation.
From S2P Require Import Prelude PyStr Digests World Ask.
From stdpp Require Import options.

Definition make_access_key_hash (actor_fingerprint source_ip : string) : string :=
  take 16 (hexdigest (actor_fingerprint +s+ ":" +s+ source_ip)).

Definition capped_profile (requested : string) : string :=
  if mem requested ["readonly"; "testlint"] then requested else "readonly".

Record AccessPolicyResult : Type := mkAccessResult {
  ap_state : string; ap_effective_profile : string; ap_reason : string; ap_key_hash : string }.

(** The three TTLs of a store, in seconds *)
Record AccessTtls : Type := mkTtls { pending_ttl : Z; allow_ttl : Z; deny_ttl : Z }.
Definition default_ttls : AccessTtls := mkTtls 900 86400 86400.

Definition seconds (s : Z) : Z := s * 1000000.

(** [entries.sort(key=created_at, reverse=...)]: stable both ways *)
Fixpoint insert_by (before : Z -> Z -> bool) (e : AccessDecision) (l : list AccessDecision)
    : list AccessDecision :=
  match l with
  | [] => [e]
  | x :: r => if before (ac_created_at x) (ac_created_at e) then x :: insert_by before e r
              else e :: l
  end.
Definition sort_entries (reverse : bool) (l : list AccessDecision) : list AccessDecision :=
  fold_right (insert_by (fun a b => if reverse then (b <? a)%Z else (a <? b)%Z)) [] l.
Section AccessControl.
Context {E : Env}.
Variable ttls : AccessTtls.

Definition _ttl_for (decision : string) : Z :=
  if String.eqb decision "pending" then pending_ttl ttls
  else if String.eqb decision "denied" then deny_ttl ttls else allow_ttl ttls.

Definition ac_get (actor_fingerprint source_ip : string) : M (option AccessDecision) :=
  let key_hash := make_access_key_hash actor_fingerprint source_ip in
  let! store := get_access in
  match dict_get key_hash store with
  | None => mret None
  | Some entry =>
      let! t := now in
      if (ac_expires_at entry <? t)%Z
      then do! put_access (dict_del key_hash store) in mret None
      else mret (Some entry)
  end.

Definition ac_set (actor_fingerprint source_ip decision reason decided_by : string)
    (ttl_seconds : option Z) : M AccessDecision :=
  let key_hash := make_access_key_hash actor_fingerprint source_ip in
  let! t := now in
  let ttl := match ttl_seconds with Some n => n | None => _ttl_for decision end in
  let entry := mkAccess key_hash decision actor_fingerprint source_ip reason decided_by t
                 (t + seconds ttl) in
  let! store := get_access in
  do! put_access (dict_set key_hash entry store) in
  do! spawn (SaveToRedis entry) in
  mret entry.

Definition ac_delete (actor_fingerprint source_ip : string) : M unit :=
  let! store := get_access in
  put_access (dict_del (make_access_key_hash actor_fingerprint source_ip) store).

Definition cleanup_expired : M nat :=
  let! t := now in
  let! store := get_access in
  let expired := keys (List.filter (fun kv => ac_expires_at (snd kv) <? t)%Z store) in
  do! put_access (fold_left (fun s k => dict_del k s) expired store) in
  mret (length expired).

Definition recent (limit : Z) (decision : option string) (sort : string)
    : M (list AccessDecision) :=
  do! cleanup_expired in
  let! store := get_access in
  let entries := match decision with
                 | None => values store
                 | Some d => List.filter (fun e => String.eqb (ac_decision e) d) (values store)
                 end in
  mret (slice_upto (Z.min limit 1000)
          (sort_entries (negb (String.eqb sort "oldest")) entries)).

Definition ac_clear (actor_fingerprint source_ip : string) : M (option AccessDecision) :=
  let key_hash := make_access_key_hash actor_fingerprint source_ip in
  let! store := get_access in
  let entry := dict_get key_hash store in
  do! put_access (dict_del key_hash store) in
  do! (match entry with Some _ => spawn (DeleteFromRedis key_hash) | None => mret tt end) in
  mret entry.

Definition ttl_remaining (entry : AccessDecision) : M Z :=
  let! t := now in mret (Z.max 0 (ac_expires_at entry - t)).

Definition resolve_access_policy (actor_fingerprint token_type source_ip requested_profile : string)
    (enforce_master : bool) : M AccessPolicyResult :=
  let key_hash := make_access_key_hash actor_fingerprint source_ip in
  if String.eqb token_type "master" && negb enforce_master
  then mret (mkAccessResult "exempt" requested_profile
               "master identity exempt from access gate" key_hash)
  else
    let! entry := ac_get actor_fingerprint source_ip in
    let pending := mkAccessResult "pending" (capped_profile requested_profile)
                     "unknown or pending actor — profile capped" key_hash in
    match entry with
    | None => mret pending
    | Some entry =>
        if String.eqb (ac_decision entry) "pending" then mret pending
        else if String.eqb (ac_decision entry) "denied"
        then mraise (AccessDeniedError ("actor " +s+ take 12 actor_fingerprint
                       +s+ "... denied: " +s+ ac_reason entry))
        else mret (mkAccessResult "allowed" requested_profile (ac_reason entry) key_hash)
    end.
End AccessControl.

(** ** Facts *)
Section AccessFacts.
Context {E : Env}.

(** The entry a lookup sees: stored and not past its expiry at the reading of the clock *)
Definition visible (t : Z) (store : dict AccessDecision) (k : string) : option AccessDecision :=
  match dict_get k store with
  | Some e => if (ac_expires_at e <? t)%Z then None else Some e
  | None => None
  end.

Lemma ac_get_eq fp ip w :
  fst (ac_get fp ip w) =
  Ok (visible (time_at (w_tick w)) (w_access w) (make_access_key_hash fp ip)).
Proof.
  unfold ac_get, visible, mlet, get_access. cbn [fst].
  destruct (dict_get _ (w_access w)) as [e|]; [| done]. cbn.
  by destruct (ac_expires_at e <? _)%Z.
Qed.

(** A lookup changes the store only by dropping the expired entry it found. *)
Lemma ac_get_world fp ip w k : NoDup (keys (w_access w)) -> k <> make_access_key_hash fp ip ->
  dict_get k (w_access (snd (ac_get fp ip w))) = dict_get k (w_access w).
Proof.
  intros Hn Hk. unfold ac_get, mlet, get_access.
  destruct (dict_get (make_access_key_hash fp ip) (w_access w)) as [e|]; [| done]. cbn.
  destruct (ac_expires_at e <? _)%Z; [| done]. cbn. by apply dict_get_del_ne.
Qed.

Lemma resolve_eq fp tt ip req em w :
  fst (resolve_access_policy fp tt ip req em w) =
  let k := make_access_key_hash fp ip in
  if String.eqb tt "master" && negb em
  then Ok (mkAccessResult "exempt" req "master identity exempt from access gate" k)
  else match visible (time_at (w_tick w)) (w_access w) k with
       | None => Ok (mkAccessResult "pending" (capped_profile req)
                       "unknown or pending actor — profile capped" k)
       | Some e =>
           if String.eqb (ac_decision e) "pending"
           then Ok (mkAccessResult "pending" (capped_profile req)
                       "unknown or pending actor — profile capped" k)
           else if String.eqb (ac_decision e) "denied"
           then Raise (AccessDeniedError ("actor " +s+ take 12 fp
                         +s+ "... denied: " +s+ ac_reason e))
           else Ok (mkAccessResult "allowed" req (ac_reason e) k)
       end.
Proof.
  unfold resolve_access_policy. destruct (String.eqb tt "master" && negb em); [done |].
  pose proof (ac_get_eq fp ip w) as Hg. unfold mlet.
  destruct (ac_get fp ip w) as [r w']. simpl in Hg. subst r. cbv zeta.
  destruct (visible _ _ _) as [e|]; [| done].
  destruct (String.eqb (ac_decision e) "pending"); [done |].
  by destruct (String.eqb (ac_decision e) "denied").
Qed.

Lemma ac_set_eq ttls fp ip d why by_ ttl w :
  let k := make_access_key_hash fp ip in
  let t := time_at (w_tick w) in
  let e := mkAccess k d fp ip why by_ t
             (t + seconds (match ttl with Some n => n | None => _ttl_for ttls d end)) in
  exists w', ac_set ttls fp ip d why by_ ttl w = (Ok e, w') /\
    w_access w' = dict_set k e (w_access w) /\ w_tick w' = S (w_tick w) /\
    w_tasks w' = w_tasks w ++ (if loop_running then [SaveToRedis e] else []).
Proof.
  intros k t e. unfold ac_set, mlet, now, get_access, put_access, spawn. cbv zeta. cbn.
  eexists. split; [reflexivity |]. destruct loop_running; cbn; rewrite ?app_nil_r; done.
Qed.
End AccessFacts.

(** ** Sorting *)
Lemma insert_by_perm b e l : Permutation (insert_by b e l) (e :: l).
Proof.
  induction l as [|x r IH]; simpl; [done |]. destruct (b _ _); [| done].
  rewrite IH. apply perm_swap.
Qed.
Lemma sort_entries_perm rev_ l : Permutation (sort_entries rev_ l) l.
Proof. induction l as [|e r IH]; simpl; [done |]. by rewrite insert_by_perm, IH. Qed.

(** [a] may stand before [b] in the answer. *)
Definition in_order (reverse : bool) (a b : AccessDecision) : Prop :=
  if reverse then (ac_created_at b <= ac_created_at a)%Z
  else (ac_created_at a <= ac_created_at b)%Z.
#[export] Instance in_order_trans rev_ : Transitive (in_order rev_).
Proof. intros a b c. destruct rev_; unfold in_order; lia. Qed.

Lemma insert_by_sorted rev_ e l : StronglySorted (in_order rev_) l ->
  StronglySorted (in_order rev_)
    (insert_by (fun a b => if rev_ then (b <? a)%Z else (a <? b)%Z) e l).
Proof.
  induction 1 as [|x r Hr IH Hx]; simpl; [by repeat constructor |].
  assert (Hd : (if rev_ then (ac_created_at e <? ac_created_at x)%Z
                else (ac_created_at x <? ac_created_at e)%Z) = true \/ in_order rev_ e x).
  { unfold in_order. destruct rev_; lia. }
  destruct (if rev_ then _ else _) eqn:Eb.
  - constructor; [done |]. apply List.Forall_forall. intros y Hy.
    apply (Permutation_in y (insert_by_perm _ e r)) in Hy as [<- | Hy].
    + unfold in_order. destruct rev_; lia.
    + rewrite List.Forall_forall in Hx. auto.
  - destruct Hd as [Hd | Hd]; [done |]. constructor; [by constructor |].
    constructor; [done |]. eapply List.Forall_impl; [| exact Hx]. intros y Hy. by transitivity x.
Qed.
Lemma sort_entries_sorted rev_ l : StronglySorted (in_order rev_) (sort_entries rev_ l).
Proof. induction l; simpl; [constructor |]. by apply insert_by_sorted. Qed.
