(* ===== verification/ClientIp.v ===== *)
(** * The client address behind trusted proxies (app/auth_middleware.py)

    The first part is the standard library's [ipaddress]: [ip_address], [ip_network] with
    [strict=False], and membership, for IPv4 and IPv6. *)
From S2P Require Import Prelude PyStr.
From stdpp Require Import options.

#[local] Open Scope Z_scope.

(** ** Addresses *)
Inductive ip_addr : Type := V4 (n : Z) | V6 (n : Z).

Definition parse_octet (s : string) : option Z :=
  if String.eqb s "" || negb (all_of is_digit s) || (3 <? slen s)%nat then None
  else if negb (String.eqb s "0") && startswith "0" s then None
  else let n := int_of 10 0 s in if 255 <? n then None else Some n.
Definition parse_ipv4 (s : string) : option Z :=
  match split_on "." s with
  | [a; b; c; d] =>
      match parse_octet a, parse_octet b, parse_octet c, parse_octet d with
      | Some a, Some b, Some c, Some d => Some (((a * 256 + b) * 256 + c) * 256 + d)
      | _, _, _, _ => None
      end
  | _ => None
  end.

Definition parse_hextet (s : string) : option Z :=
  if String.eqb s "" || negb (all_of is_hex s) || (4 <? slen s)%nat then None
  else Some (int_of 16 0 s).
Fixpoint parse_hextets (acc : Z) (l : list string) : option Z :=
  match l with
  | [] => Some acc
  | s :: r => match parse_hextet s with
              | None => None
              | Some h => parse_hextets (acc * 65536 + h) r
              end
  end.

(** A dotted quad in the last part stands for two parts. *)
Fixpoint widen_last (parts : list string) : option (list (string + Z)) :=
  match parts with
  | [] => Some []
  | [last] =>
      if char_in "." last
      then option_map (fun n => [inr (n / 65536); inr (n mod 65536)]) (parse_ipv4 last)
      else Some [inl last]
  | p :: r => option_map (cons (inl p)) (widen_last r)
  end.
Definition part_value (p : string + Z) : option Z :=
  match p with inl s => parse_hextet s | inr n => Some n end.
Fixpoint fold_parts (acc : Z) (l : list (string + Z)) : option Z :=
  match l with
  | [] => Some acc
  | p :: r => match part_value p with
              | None => None
              | Some h => fold_parts (acc * 65536 + h) r
              end
  end.
Definition is_empty_part (p : string + Z) : bool :=
  match p with inl s => String.eqb s "" | inr _ => false end.

(** The indices strictly inside the list that hold an empty part *)
Definition inner_empty (parts : list (string + Z)) : list nat :=
  List.filter (fun i => match nth_error parts i with Some p => is_empty_part p | None => false end)
    (seq 1 (length parts - 2)).

Definition parse_ipv6_parts (parts : list (string + Z)) : option Z :=
  let n := length parts in
  let first_empty := match parts with p :: _ => is_empty_part p | [] => false end in
  let last_empty := match last parts with Some p => is_empty_part p | None => false end in
  if (9 <? n)%nat then None
  else
    match inner_empty parts with
    | [] => if negb (n =? 8)%nat || first_empty || last_empty then None else fold_parts 0 parts
    | [skip] =>
        let hi := if first_empty then (skip - 1)%nat else skip in
        let lo := if last_empty then (n - skip - 2)%nat else (n - skip - 1)%nat in
        if (first_empty && negb (hi =? 0)%nat) || (last_empty && negb (lo =? 0)%nat) then None
        else if (8 <=? hi + lo)%nat then None
        else
          match fold_parts 0 (firstn hi parts) with
          | None => None
          | Some h =>
              fold_parts (h * 2 ^ (16 * Z.of_nat (8 - (hi + lo)))) (skipn (n - lo) parts)
          end
    | _ => None
    end.

(** [addr%scope] *)
Definition drop_scope (s : string) : option string :=
  match split_on "%" s with
  | [a] => Some a
  | [a; scope] => if String.eqb scope "" then None else Some a
  | _ => None
  end.
Definition parse_ipv6 (s : string) : option Z :=
  match drop_scope s with
  | None => None
  | Some a =>
      let parts := split_on ":" a in
      if (length parts <? 3)%nat then None
      else match widen_last parts with None => None | Some ps => parse_ipv6_parts ps end
  end.

(** [ipaddress.ip_address(s)] *)
Definition ip_address (s : string) : option ip_addr :=
  if char_in "/" s then None
  else match parse_ipv4 s with
       | Some n => Some (V4 n)
       | None => option_map V6 (parse_ipv6 s)
       end.

(** ** Networks: the network address and the prefix length *)
Inductive ip_network : Type := Net4 (addr prefix : Z) | Net6 (addr prefix : Z).

Definition masked (width prefix n : Z) : Z :=
  Z.shiftl (Z.shiftr n (width - prefix)) (width - prefix).
Definition prefix_of_string (width : Z) (s : string) : option Z :=
  if String.eqb s "" || negb (all_of is_digit s) then None
  else let n := int_of 10 0 s in if width <? n then None else Some n.

(** A netmask or a hostmask in dotted form: [ones] one-bits then zeros *)
Definition prefix_of_mask (m : Z) : option Z :=
  List.find (fun p => Z.eqb m (2 ^ 32 - 2 ^ (32 - p))) (map Z.of_nat (seq 0 33)).
Definition prefix_of_ip_string (s : string) : option Z :=
  match parse_ipv4 s with
  | None => None
  | Some m => match prefix_of_mask m with
              | Some p => Some p
              | None => prefix_of_mask (Z.lxor m (2 ^ 32 - 1))
              end
  end.

Definition network4 (addr mask : string) : option ip_network :=
  match parse_ipv4 addr,
        (match prefix_of_string 32 mask with
         | Some p => Some p | None => prefix_of_ip_string mask end) with
  | Some n, Some p => Some (Net4 (masked 32 p n) p)
  | _, _ => None
  end.
Definition network6 (addr mask : string) : option ip_network :=
  match parse_ipv6 addr, prefix_of_string 128 mask with
  | Some n, Some p => Some (Net6 (masked 128 p n) p)
  | _, _ => None
  end.
(** [ipaddress.ip_network(s, strict=False)] *)
Definition parse_network (s : string) : option ip_network :=
  let try4 addr mask other := match network4 addr mask with Some n => Some n | None => other end in
  match split_on "/" s with
  | [a] => try4 a "32" (network6 a "128")
  | [a; m] => try4 a m (network6 a m)
  | _ => None
  end.

(** [addr in net] *)
Definition in_network (a : ip_addr) (n : ip_network) : bool :=
  match a, n with
  | V4 x, Net4 addr p => Z.eqb (masked 32 p x) addr
  | V6 x, Net6 addr p => Z.eqb (masked 128 p x) addr
  | _, _ => false
  end.

(** ** The gateway's functions *)
Record Request : Type := mkRequest {
  rq_client_host : option string;          (* request.client.host *)
  rq_forwarded_for : option string }.      (* the X-Forwarded-For header *)

Definition parse_cidrs (value : string) : list ip_network :=
  flat_map (fun part =>
    let part := strip part in
    if String.eqb part "" then []
    else match parse_network part with Some n => [n] | None => [] end) (split_on "," value).

Definition _is_trusted (ip_str : string) (trusted_networks : list ip_network) : bool :=
  match ip_address ip_str with
  | None => false
  | Some addr => existsb (in_network addr) trusted_networks
  end.
Definition is_ip_allowed (ip_str : string) (allowed_networks : list ip_network) : bool :=
  match ip_address ip_str with
  | None => false
  | Some addr => existsb (in_network addr) allowed_networks
  end.

Definition get_client_ip (request : Request) (trusted : list ip_network) : string :=
  let client_host := default "127.0.0.1" (rq_client_host request) in
  let forwarded := default "" (rq_forwarded_for request) in
  if negb (String.eqb forwarded "") && _is_trusted client_host trusted then
    let ips := map strip (split_on "," forwarded) in
    match List.find (fun ip => negb (_is_trusted ip trusted)) (rev ips) with
    | Some ip => ip
    | None => List.last ips ""
    end
  else client_host.

Example ip_forms :
  map ip_address ["10.0.0.1"; "::1"; "1.2.3"; "01.2.3.4"; "::ffff:1.2.3.4"; "fe80::1%eth0"; "1::2::3";
                  "1:2:3:4:5:6:7::"; ":1:2:3:4:5:6:7"; "256.1.1.1"]
  = [Some (V4 167772161); Some (V6 1); None; None; Some (V6 281470698652420);
     Some (V6 338288524927261089654018896841347694593); None;
     Some (V6 5192455318486707404433266433261568); None; None].
Proof. by_eval. Qed.
Example network_forms :
  map parse_network ["10.1.2.3/8"; "10.0.0.0/255.0.0.0"; "10.0.0.0/0.255.255.255"; "2001:db8::/32";
                     "1.2.3.4"; "1.2.3.4/33"]
  = [Some (Net4 167772160 8); Some (Net4 167772160 8); Some (Net4 167772160 8);
     Some (Net6 42540766411282592856903984951653826560 32); Some (Net4 16909060 32); None].
Proof. by_eval. Qed.

(** ** Facts *)

Lemma find_rev_last {A} (p : A -> bool) l a : List.find p (rev l) = Some a ->
  exists l1 l2, l = l1 ++ a :: l2 /\ p a = true /\ forall x, In x l2 -> p x = false.
Proof.
  induction l as [|x l IH] using rev_ind; [done |]. rewrite rev_app_distr. simpl.
  destruct (p x) eqn:E.
  - intros [= ->]. exists l, []. repeat split; [done |]. intros ? [].
  - intros (l1 & l2 & -> & Hp & Hl)%IH. exists l1, (l2 ++ [x]). rewrite <- app_assoc.
    split; [done |]. split; [done |]. intros y [Hy | [<- | []]]%in_app_or; auto.
Qed.
