(* ===== verification/Agents.v ===== *)
(** * Agents, identities and the settings they select (app/agent_profiles.py, and the parsers
    and the identity lookup at the end of app/command_policy.py) *)
From S2P Require Import Prelude PyStr PolicyTypes.
From stdpp Require Import gmap.
From stdpp Require Import options.

(** ** What the process sees of its host: environment variables, and the name of its parent
    from /proc ([None]: no such file, or an [OSError]) *)
Class Host : Type := { environ : string -> option string; parent_comm : option string }.

Inductive TrustLevel : Type := THIGH | TMEDIUM | TLOW.
Definition trust_value (t : TrustLevel) : string :=
  match t with THIGH => "high" | TMEDIUM => "medium" | TLOW => "low" end.

Record AgentProfile : Type := mkAgentProfile {
  ap_trust_level : TrustLevel; ap_disabled_packs : gset string; ap_extra_packs : gset string;
  ap_additional_allowlist : list string; ap_disabled_allowlist : bool }.

Definition plain_agent (t : TrustLevel) (disabled extra : gset string) : AgentProfile :=
  mkAgentProfile t disabled extra [] false.
Definition unknown_profile : AgentProfile := plain_agent TMEDIUM ∅ ∅.
Definition coder_profile : AgentProfile :=
  plain_agent THIGH ∅ (list_to_set ["git"; "filesystem"]).

Definition BUILTIN_PROFILES : dict AgentProfile := [
  ("chatgpt", plain_agent TLOW
     (list_to_set ["docker"; "kubernetes"; "cloud"; "loadbalancer"; "firewall"]) ∅);
  ("claude-code", coder_profile); ("codex-cli", coder_profile); ("aider", coder_profile);
  ("cursor", plain_agent TMEDIUM ∅ ∅); ("unknown", unknown_profile)].

Definition _ENV_AGENT_MAP : dict string :=
  [("CLAUDE_CODE", "claude-code"); ("CODEX_CLI", "codex-cli"); ("AIDER", "aider");
   ("CURSOR", "cursor")].
Definition _PROC_NAME_MAP : dict string :=
  [("claude", "claude-code"); ("codex", "codex-cli"); ("aider", "aider"); ("cursor", "cursor")].

Section Detect.
Context {H : Host}.

Definition env_set (v : string) : bool :=
  match environ v with Some s => negb (String.eqb s "") | None => false end.
Definition detect_agent_from_env : string :=
  default "unknown"
    (first_some (fun kv => if env_set (fst kv) then Some (snd kv) else None) _ENV_AGENT_MAP).
Definition detect_agent_from_proc : string :=
  match parent_comm with
  | None => "unknown"
  | Some comm =>
      let name := strip comm in
      default "unknown"
        (first_some (fun kv => if contains (fst kv) (lower name) then Some (snd kv) else None)
           _PROC_NAME_MAP)
  end.
Definition detect_agent : string :=
  let agent := detect_agent_from_env in
  if negb (String.eqb agent "unknown") then agent else detect_agent_from_proc.

(** [key or detect_agent()]: no key and the empty key are the same. *)
Definition get_agent_profile (agent_key : option string) : AgentProfile :=
  let key := match agent_key with
             | Some k => if String.eqb k "" then detect_agent else k
             | None => detect_agent
             end in
  default unknown_profile (dict_get key BUILTIN_PROFILES).
End Detect.

Definition effective_packs (base_packs : option (gset string)) (profile : option AgentProfile)
    : gset string :=
  let base := default ∅ base_packs in
  match profile with
  | None => base
  | Some p => (base ∪ ap_extra_packs p) ∖ ap_disabled_packs p
  end.

(** ** JSON settings: [json.loads] is a parameter; [str(v)] of what it decodes *)
Inductive jval : Type :=
| JStr (s : string) | JBool (b : bool) | JNull
| JRepr (text : string).                   (* a number, list or dict, by its [str] *)
Definition py_str (v : jval) : string :=
  match v with JStr s => s | JBool b => bool_str b | JNull => "None" | JRepr t => t end.
Inductive json : Type := JDict (items : dict jval) | JOther.
Class JsonLoads : Type := json_loads : string -> option json.   (* [None]: JSONDecodeError *)

Section Settings.
Context {J : JsonLoads}.

(** [{str(k): f(str(v)) for k, v in data.items()}], and the empty dict on anything else *)
Definition parse_map (f : string -> string) (raw : string) : dict string :=
  match json_loads raw with
  | Some (JDict items) =>
      fold_left (fun d kv => dict_set (fst kv) (f (py_str (snd kv))) d) items []
  | _ => []
  end.
Definition parse_key_profiles (raw : string) : dict string := parse_map id raw.
Definition parse_agent_modes (raw : string) : dict string := parse_map lower raw.
End Settings.

Definition profile_for_identity (identity_fingerprint : option string) (key_profiles : dict string)
    (default_profile : string) : string :=
  match identity_fingerprint with
  | None => default_profile
  | Some fp =>
      if String.eqb fp "" then default_profile
      else match key_profiles with
           | [] => default_profile
           | _ => default default_profile (dict_get fp key_profiles)
           end
  end.

(** ** Facts *)
Lemma fold_set_get (f : jval -> string) items d k : NoDup (keys items) ->
  dict_get k (fold_left (fun d kv => dict_set (fst kv) (f (snd kv)) d) items d) =
  match dict_get k items with Some v => Some (f v) | None => dict_get k d end.
Proof.
  revert d. induction items as [|[k' v'] r IH]; simpl; [done |]. intros d [Hk Hr]%NoDup_cons.
  rewrite IH by done. destruct (String.eqb_spec k k') as [-> | Hne].
  - rewrite (proj2 (dict_get_None k' r)); [by rewrite dict_get_set_eq |].
    by rewrite <- list_elem_of_In.
  - destruct (dict_get k r); [done |]. by rewrite dict_get_set_ne by congruence.
Qed.
