(* ===== verification/Engine.v ===== *)
(** * The decision pipeline: [evaluate_command_policy] (app/command_policy.py) *)
From S2P Require Import Prelude PyStr PolicyTypes Packs Registry Gates Profiles Heredoc AstMatcher.
From S2P Require Import Scan World Ask Allowlist Agents.
From stdpp Require Import options.

Section Engine.
Context {Sc : Scanner}.

(** [(allowed, reason, blocked_by)] *)
Definition _evaluate_enforce_decision (command profile_value : string)
    : bool * string * option string :=
  let root := get_command_root command in
  match contains_metachar command with
  | Some metachar =>
      (false, "Metacharacter '" +s+ metachar +s+ "' blocked by blanket denial", Some "metachar")
  | None =>
      let '(is_dangerous, shape_reason) := check_argument_shape command in
      if is_dangerous then (false, shape_reason, Some "argument_shape")
      else
        match check_nested_commands command with
        | (_ :: _) as nested_findings =>
            let names := sorted_set (map dm_pattern_name nested_findings) in
            let reasons := map dm_reason (firstn 3 nested_findings) in
            (false,
             "Heredoc/inline script contains destructive pattern(s): "
               +s+ join ", " names +s+ ". " +s+ join "; " reasons,
             Some "heredoc")
        | [] =>
            let '(allowed, reason) := evaluator_of profile_value command root in
            if allowed then (true, reason, None) else (false, reason, Some "profile")
        end
  end.

Context {E : Env} {Py : PyParser} {H : Host} {J : JsonLoads}.
(** [settings.command_policy_agent_modes] *)
Variable agent_modes_setting : string.

(** The agent the call is about: the caller's, or the detected one *)
Definition resolve_agent (agent : option string) : string :=
  match agent with Some a => a | None => detect_agent end.
(** The per-agent override *)
Definition resolve_mode (mode agent : string) : string :=
  if String.eqb agent "" then mode
  else default mode (dict_get agent (parse_agent_modes agent_modes_setting)).
(** [(mode or "audit").lower()] *)
Definition or_default (s fallback : string) : string :=
  lower (if String.eqb s "" then fallback else s).

(** The reason of an allowlist decision *)
Definition allow_reason (entry : AllowlistEntry) : string :=
  "Allowlist match [" +s+ ae_layer entry +s+ "] " +s+ ae_selector_type entry +s+ "="
    +s+ ae_selector_value entry
    +s+ (if String.eqb (ae_reason entry) "" then "" else "; " +s+ ae_reason entry).

(** A blocked decision with the suggestions for the command *)
Definition blocked (command reason profile mode : string) (root : option string)
    (requires_approval : bool) (approval_id : option string) : CommandPolicyDecision :=
  mkDecision false reason profile mode root requires_approval approval_id
    (_get_suggestion command) (_get_suggestions command).

(** [str(x)] of an optional string in an f-string *)
Definition str_opt (s : option string) : string := default "None" s.

(** The ASK branch *)
Definition evaluate_ask (command profile_value mode_value : string) (root : option string)
    : M CommandPolicyDecision :=
  let '(allowed, reason, blocked_by) := _evaluate_enforce_decision command profile_value in
  if allowed then mret (decision true reason profile_value mode_value root)
  else if mem (str_opt blocked_by) ["metachar"; "argument_shape"]
  then mret (blocked command reason profile_value mode_value root false None)
  else
    let! approved := find_and_consume_approval command profile_value in
    match approved with
    | Some req =>
        mret (decision true
          ("Approved by operator (" +s+ str_opt (ar_approved_by req) +s+ "), approval_id="
             +s+ ar_approval_id req) profile_value mode_value root)
    | None =>
        let! approval := create_approval_request command profile_value blocked_by reason in
        mret (blocked command reason profile_value mode_value root true
                (Some (ar_approval_id approval)))
    end.

(** What follows the allowlist, by mode *)
Definition evaluate_gates (command profile_value mode_value : string) (root : option string)
    : M CommandPolicyDecision :=
  if String.eqb mode_value (PolicyTypes.mode_value ASK)
  then evaluate_ask command profile_value mode_value root
  else
    let '(allowed, reason, _) := _evaluate_enforce_decision command profile_value in
    if String.eqb mode_value (PolicyTypes.mode_value ENFORCE)
    then mret (if allowed then decision true reason profile_value mode_value root
               else blocked command reason profile_value mode_value root false None)
    else mret (decision true
           ("AUDIT_ONLY: would_allow=" +s+ bool_str allowed +s+ "; " +s+ reason)
           profile_value mode_value root).

Definition evaluate_command_policy (command mode profile : string)
    (agent project user : option string) : M CommandPolicyDecision :=
  let agent := resolve_agent agent in
  let mode := resolve_mode mode agent in
  let mode_value := or_default mode "audit" in
  let profile_value := or_default profile "default" in
  let root := get_command_root command in
  if String.eqb mode_value (PolicyTypes.mode_value OFF)
  then mret (decision true "Command policy is disabled" profile_value mode_value root)
  else
    let! allow_match := allowlist_check command (Some agent) project user in
    match allow_match with
    | Some m => mret (decision true (allow_reason (al_entry m)) profile_value mode_value root)
    | None => evaluate_gates command profile_value mode_value root
    end.
End Engine.
