(* ===== verification/CommandGate.v ===== *)
(** * The gate every command-executing route goes through (app/services/command_gate.py)

    Access control, the effective profile, the policy decision, the audit event, the metric. *)
From S2P Require Import Prelude PyStr Digests PolicyTypes Registry AstMatcher World Ask Allowlist.
From S2P Require Import AccessControl ClientIp Agents Engine.
From stdpp Require Import options.

(** ** Settings the gate reads (app/config.py) *)
Record Settings : Type := mkSettings {
  command_policy_mode : string; command_policy_profile : string;
  command_policy_key_profiles : string; command_policy_agent_modes : string;
  access_control_enabled : bool; access_control_enforce_master : bool;
  trusted_proxy_cidrs : string }.

(** ** Identities (app/auth_middleware.py) *)
Definition token_fingerprint (token : string) : string := hexdigest token.

Record AuthIdentity : Type := mkIdentity {
  id_token_type : string; id_token : string; id_name : option string; id_scopes : list string;
  id_role : option string; id_role_permissions : option (list string);
  id_tenant_labels : list string; id_via_cookie : bool }.
Definition fingerprint (i : AuthIdentity) : string := token_fingerprint (id_token i).

(** ** The command metric (app/metrics.py) *)
Definition _COMMAND_ROOT_ALLOWLIST : list string :=
  ["git"; "docker"; "pytest"; "ruff"; "mypy"; "uv"; "python"; "pip";
   "ls"; "cat"; "grep"; "find"; "echo"; "pwd"; "whoami"; "ssh";
   "curl"; "wget"; "systemctl"; "journalctl"; "make"; "cargo"; "node";
   "npm"; "pnpm"; "yarn"; "go"; "java"; "mvn"; "gradle"].
Definition _normalize_command_root (raw : option string) : string :=
  match raw with
  | None => "other"
  | Some raw =>
      if String.eqb raw "" then "other"
      else let root := lower (List.last (split_on "/" raw) "") in
           if mem root _COMMAND_ROOT_ALLOWLIST then root else "other"
  end.
Definition record_ssh_command (status profile : string) (command_root : option string) : M unit :=
  count_command (status, profile, _normalize_command_root command_root).

Record CommandGateDecision : Type := mkGateDecision {
  cg_allowed : bool; cg_reason : string; cg_effective_profile : string; cg_policy_mode : string;
  cg_command_root : option string; cg_requires_approval : bool; cg_approval_id : option string }.

Section Gate.
Context {E : Env} {Sc : Scanner} {Py : PyParser} {H : Host} {J : JsonLoads}.
Variable settings : Settings.
(** [_state.access_control_store is not None] *)
Variable has_access_store : bool.

Definition resolve_effective_profile (identity : option AuthIdentity) : string :=
  profile_for_identity (option_map (fun i => take 12 (fingerprint i)) identity)
    (parse_key_profiles (command_policy_key_profiles settings))
    (command_policy_profile settings).

(** [source_ip], or the client address of the request, which the code asserts is there *)
Definition gate_source_ip (request : option Request) (source_ip : option string) : result string :=
  match source_ip with
  | Some ip => Ok ip
  | None =>
      match request with
      | None => Raise AssertionError
      | Some rq => Ok (get_client_ip rq (parse_cidrs (trusted_proxy_cidrs settings)))
      end
  end.

Definition resolve_effective_profile_with_access_gate (request : option Request)
    (identity : option AuthIdentity) (source_ip : option string) : M string :=
  if access_control_enabled settings && has_access_store then
    let! ip := lift (gate_source_ip request source_ip) in
    let! access :=
      mtry (resolve_access_policy
              (match identity with Some i => fingerprint i | None => "" end)
              (match identity with Some i => id_token_type i | None => "unknown" end)
              ip (resolve_effective_profile identity) (access_control_enforce_master settings))
        (fun e => match e with
                  | AccessDeniedError _ => mraise (HTTPException 403 "ACCESS_DENIED")
                  | _ => mraise e
                  end) in
    mret (ap_effective_profile access)
  else mret (resolve_effective_profile identity).

(** The address in the audit event: [request.client.host], without the proxy rules; a missing
    request is an [AttributeError], which no caller reaches with a [source_ip] given. *)
Definition audit_source_ip (request : option Request) (source_ip : option string)
    : result string :=
  match source_ip with
  | Some ip => Ok ip
  | None =>
      match request with
      | None => Raise AttributeError
      | Some rq => Ok (default "unknown" (rq_client_host rq))
      end
  end.

Definition audit_message (route : string) (d : CommandPolicyDecision) : string :=
  "route=" +s+ (if String.eqb route "" then "-" else route)
    +s+ "; command_root=" +s+ str_opt (d_command_root d)
    +s+ "; allowed=" +s+ bool_str (d_allowed d) +s+ "; reason=" +s+ d_reason d
    +s+ "; profile=" +s+ d_profile d +s+ "; mode=" +s+ d_mode d.

Definition evaluate_with_access_gate (request : option Request) (identity : option AuthIdentity)
    (command route : string) (source_ip : option string) (raise_on_deny : bool)
    : M CommandGateDecision :=
  let! effective_profile :=
    resolve_effective_profile_with_access_gate request identity source_ip in
  let! d := evaluate_command_policy (command_policy_agent_modes settings) command
              (command_policy_mode settings) effective_profile None None None in
  let! ip := lift (audit_source_ip request source_ip) in
  do! log_event ("COMMAND_POLICY_DECISION", audit_message route d, ip) in
  do! (if negb (d_allowed d) then
         do! record_ssh_command "denied" (d_profile d) (d_command_root d) in
         (if raise_on_deny
          then mraise (HTTPException 403 ("Command denied by policy: " +s+ d_reason d))
          else mret tt)
       else mret tt) in
  mret (mkGateDecision (d_allowed d) (d_reason d) effective_profile (d_mode d) (d_command_root d)
          (d_requires_approval d) (d_approval_id d)).

Definition record_allowed (profile : string) (command_root : option string) : M unit :=
  record_ssh_command "allowed" profile command_root.
End Gate.
