(* ===== verification/CircuitBreaker.v ===== *)
(** * Circuit breakers (app/circuit_breaker.py)

    Each operation runs under the object's lock, so it is one step; [t] is the reading of the
    clock it makes.  The registry holds references to breakers: [rg_heap] is the objects,
    addresses are indices, so that a caller's reference outlives an eviction. *)
From S2P Require Import Prelude PyStr.
From stdpp Require Import options.

Inductive CircuitState : Type := CLOSED | OPEN | HALF_OPEN.
Definition state_value (s : CircuitState) : string :=
  match s with CLOSED => "closed" | OPEN => "open" | HALF_OPEN => "half_open" end.
#[export] Instance circuit_state_eq_dec : EqDecision CircuitState.
Proof. solve_decision. Defined.

Record CircuitBreaker : Type := mkBreaker {
  cb_failure_threshold : Z; cb_recovery_timeout : Z; cb_half_open_max_calls : Z;
  cb_state : CircuitState; cb_failure_count : Z; cb_success_count : Z;
  cb_last_failure_time : option Z; cb_half_open_calls : Z }.

Definition new_breaker (failure_threshold recovery_timeout half_open_max_calls : Z)
    : CircuitBreaker :=
  mkBreaker failure_threshold recovery_timeout half_open_max_calls CLOSED 0 0 None 0.
Definition default_breaker : CircuitBreaker := new_breaker 5 60 3.

(** The part of the object that changes *)
Definition with_state (cb : CircuitBreaker) (s : CircuitState) (failures successes : Z)
    (last : option Z) (calls : Z) : CircuitBreaker :=
  mkBreaker (cb_failure_threshold cb) (cb_recovery_timeout cb) (cb_half_open_max_calls cb)
    s failures successes last calls.

(** [time.time() - last >= recovery_timeout], the timeout in seconds *)
Definition recovery_due (t : Z) (cb : CircuitBreaker) : bool :=
  match cb_last_failure_time cb with
  | Some last => (cb_recovery_timeout cb * 1000000 <=? t - last)%Z
  | None => false
  end.

(** The second half of [can_execute], past the OPEN test *)
Definition admit_call (cb : CircuitBreaker) : bool * CircuitBreaker :=
  match cb_state cb with
  | HALF_OPEN =>
      if (cb_half_open_max_calls cb <=? cb_half_open_calls cb)%Z then (false, cb)
      else (true, with_state cb HALF_OPEN (cb_failure_count cb) (cb_success_count cb)
                    (cb_last_failure_time cb) (cb_half_open_calls cb + 1))
  | s => (negb (bool_decide (s = OPEN)), cb)
  end.
Definition can_execute (t : Z) (cb : CircuitBreaker) : bool * CircuitBreaker :=
  match cb_state cb with
  | OPEN =>
      if recovery_due t cb
      then admit_call (with_state cb HALF_OPEN (cb_failure_count cb) (cb_success_count cb)
                         (cb_last_failure_time cb) 0)
      else (false, cb)
  | _ => admit_call cb
  end.

Definition record_success (cb : CircuitBreaker) : CircuitBreaker :=
  match cb_state cb with
  | HALF_OPEN =>
      let successes := (cb_success_count cb + 1)%Z in
      if (cb_half_open_max_calls cb <=? successes)%Z
      then with_state cb CLOSED 0 0 (cb_last_failure_time cb) 0
      else with_state cb HALF_OPEN (cb_failure_count cb) successes (cb_last_failure_time cb)
             (cb_half_open_calls cb)
  | s => with_state cb s (Z.max 0 (cb_failure_count cb - 1)) (cb_success_count cb)
           (cb_last_failure_time cb) (cb_half_open_calls cb)
  end.

Definition record_failure (t : Z) (cb : CircuitBreaker) : CircuitBreaker :=
  let failures := (cb_failure_count cb + 1)%Z in
  let s := match cb_state cb with
           | HALF_OPEN => OPEN
           | s => if (cb_failure_threshold cb <=? failures)%Z then OPEN else s
           end in
  with_state cb s failures (cb_success_count cb) (Some t) (cb_half_open_calls cb).

Record stats : Type := mkStats {
  st_state : string; st_failure_count : Z; st_success_count : Z;
  st_last_failure_time : option Z; st_half_open_calls : Z }.
Definition get_stats (cb : CircuitBreaker) : stats :=
  mkStats (state_value (cb_state cb)) (cb_failure_count cb) (cb_success_count cb)
    (cb_last_failure_time cb) (cb_half_open_calls cb).

(** ** The registry *)
Record BreakerRegistry : Type := mkBreakerRegistry {
  rg_heap : list CircuitBreaker; rg_breakers : dict nat; rg_access_order : list string;
  rg_max_size : nat }.
Definition new_registry (max_size : nat) : BreakerRegistry := mkBreakerRegistry [] [] [] max_size.

(** [l.remove(x)]: the first occurrence, a [ValueError] when there is none *)
Fixpoint list_remove (x : string) (l : list string) : result (list string) :=
  match l with
  | [] => Raise (ValueError "list.remove(x): x not in list")
  | y :: r => if String.eqb x y then Ok r else l' <-! list_remove x r ;; Ok (y :: l')
  end.
(** [del d[k]] *)
Definition dict_delete {V} (k : string) (d : dict V) : result (dict V) :=
  if dict_in k d then Ok (dict_del k d) else Raise (KeyError k).

(** The eviction in [get_breaker]: [self._access_order.pop(0)] and [del self._breakers[oldest]] *)
Definition evict_oldest (rg : BreakerRegistry) : result (dict nat * list string) :=
  if (rg_max_size rg <=? length (rg_breakers rg))%nat then
    match rg_access_order rg with
    | [] => Raise IndexError
    | oldest :: order =>
        breakers <-! dict_delete oldest (rg_breakers rg) ;; Ok (breakers, order)
    end
  else Ok (rg_breakers rg, rg_access_order rg).

(** [fresh]: the breaker the constructor builds for a new host *)
Definition get_breaker (host : string) (fresh : CircuitBreaker) (rg : BreakerRegistry)
    : result (nat * BreakerRegistry) :=
  match dict_get host (rg_breakers rg) with
  | Some a =>
      order <-! list_remove host (rg_access_order rg) ;;
      Ok (a, mkBreakerRegistry (rg_heap rg) (rg_breakers rg) (order ++ [host]) (rg_max_size rg))
  | None =>
      bo <-! evict_oldest rg ;;
      let a := length (rg_heap rg) in
      Ok (a, mkBreakerRegistry (rg_heap rg ++ [fresh]) (dict_set host a (fst bo))
               (snd bo ++ [host]) (rg_max_size rg))
  end.

Definition remove_breaker (host : string) (rg : BreakerRegistry) : result (bool * BreakerRegistry) :=
  if dict_in host (rg_breakers rg) then
    order <-! list_remove host (rg_access_order rg) ;;
    Ok (true, mkBreakerRegistry (rg_heap rg) (dict_del host (rg_breakers rg)) order
                (rg_max_size rg))
  else Ok (false, rg).

(** What a holder of a reference does to the object *)
Definition update_breaker (a : nat) (f : CircuitBreaker -> CircuitBreaker) (rg : BreakerRegistry)
    : BreakerRegistry :=
  mkBreakerRegistry (alter f a (rg_heap rg)) (rg_breakers rg) (rg_access_order rg)
    (rg_max_size rg).

Definition get_all_stats (rg : BreakerRegistry) : dict (option stats) :=
  map (fun kv => (fst kv, option_map get_stats (nth_error (rg_heap rg) (snd kv))))
    (rg_breakers rg).

Definition count_by_state (rg : BreakerRegistry) : dict nat :=
  let breakers := flat_map (fun kv => match nth_error (rg_heap rg) (snd kv) with
                                      | Some cb => [cb] | None => [] end) (rg_breakers rg) in
  map (fun s => (state_value s,
                 length (List.filter (fun cb => bool_decide (cb_state cb = s)) breakers)))
    [CLOSED; OPEN; HALF_OPEN].

(** ** The breaker as a state machine *)
Inductive cb_event : Type :=
| Ask_ (t : Z)              (* can_execute *)
| Success
| Failure (t : Z).

Definition cb_step (cb : CircuitBreaker) (e : cb_event) : CircuitBreaker :=
  match e with
  | Ask_ t => snd (can_execute t cb)
  | Success => record_success cb
  | Failure t => record_failure t cb
  end.

Definition cb_params (cb : CircuitBreaker) : Z * Z * Z :=
  (cb_failure_threshold cb, cb_recovery_timeout cb, cb_half_open_max_calls cb).

(** What holds of every breaker of the program *)
Definition cb_ok (cb : CircuitBreaker) : Prop :=
  (0 < cb_failure_threshold cb)%Z /\
  (0 <= cb_failure_count cb)%Z /\
  (0 <= cb_success_count cb < cb_half_open_max_calls cb)%Z /\
  (0 <= cb_half_open_calls cb <= cb_half_open_max_calls cb)%Z /\
  match cb_state cb with
  | CLOSED => (cb_failure_count cb < cb_failure_threshold cb)%Z
  | OPEN | HALF_OPEN => cb_last_failure_time cb <> None
  end.

Lemma cb_step_params cb e : cb_params (cb_step cb e) = cb_params cb.
Proof.
  destruct e; simpl; unfold can_execute, admit_call, record_success, record_failure, cb_params;
    destruct (cb_state cb); simpl; repeat case_match; done.
Qed.

Lemma new_breaker_ok th rt mx : (0 < th)%Z -> (0 < mx)%Z -> cb_ok (new_breaker th rt mx).
Proof. unfold cb_ok. simpl. lia. Qed.

Lemma admit_call_ok cb : cb_ok cb -> cb_ok (snd (admit_call cb)).
Proof.
  unfold cb_ok, admit_call. intros H. destruct (cb_state cb) eqn:E; simpl; rewrite ?E; [done.. |].
  destruct (cb_half_open_max_calls cb <=? cb_half_open_calls cb)%Z eqn:El; simpl; [by rewrite E |].
  destruct H as (? & ? & ? & ? & ?). repeat split; try done; lia.
Qed.
Lemma cb_step_ok cb e : cb_ok cb -> cb_ok (cb_step cb e).
Proof.
  intros H. destruct e as [t | | t]; simpl.
  - unfold can_execute. destruct (cb_state cb) eqn:E; [by apply admit_call_ok | |
      by apply admit_call_ok].
    destruct (recovery_due t cb); [| done]. apply admit_call_ok. unfold cb_ok in *.
    rewrite E in H. simpl. destruct H as (? & ? & ? & ? & ?). repeat split; try done; lia.
  - unfold record_success, cb_ok in *. destruct (cb_state cb) eqn:E; simpl.
    + lia.
    + destruct H as (? & ? & ? & ? & ?). repeat split; try done; lia.
    + destruct (cb_half_open_max_calls cb <=? cb_success_count cb + 1)%Z eqn:El; simpl;
        destruct H as (? & ? & ? & ? & ?); repeat split; try done; try lia.
  - unfold record_failure, cb_ok in *. destruct H as (? & ? & ? & ? & ?).
    destruct (cb_state cb) eqn:E; simpl; try (repeat split; try done; lia).
    all: destruct (cb_failure_threshold cb <=? cb_failure_count cb + 1)%Z eqn:El; simpl;
      repeat split; try done; lia.
Qed.

Lemma cb_run_ok es cb : cb_ok cb -> cb_ok (fold_left cb_step es cb).
Proof. revert cb. induction es; simpl; auto using cb_step_ok. Qed.

(** A half-open breaker whose probes are used up admits nothing until a result is recorded. *)
Lemma probes_used_up t cb : cb_state cb = HALF_OPEN ->
  (cb_half_open_max_calls cb <= cb_half_open_calls cb)%Z -> can_execute t cb = (false, cb).
Proof.
  intros Hs Hc. unfold can_execute, admit_call. rewrite Hs.
  by replace (_ <=? _)%Z with true by lia.
Qed.

(** ** The registry's bookkeeping *)
Definition rg_ok (rg : BreakerRegistry) : Prop :=
  NoDup (keys (rg_breakers rg)) /\ NoDup (rg_access_order rg) /\
  (forall h, In h (keys (rg_breakers rg)) <-> In h (rg_access_order rg)) /\
  (length (rg_breakers rg) <= rg_max_size rg)%nat /\ (0 < rg_max_size rg)%nat /\
  Forall (fun kv => (snd kv < length (rg_heap rg))%nat) (rg_breakers rg) /\
  NoDup (values (rg_breakers rg)).

Lemma list_remove_spec x l : In x l -> NoDup l ->
  exists l', list_remove x l = Ok l' /\ NoDup l' /\ (forall y, In y l' <-> In y l /\ y <> x).
Proof.
  induction l as [|y r IH]; [done |]. intros Hin [Hy Hr]%NoDup_cons. simpl.
  rewrite list_elem_of_In in Hy. destruct (String.eqb_spec x y) as [-> | Hne].
  - exists r. split; [done |]. split; [done |]. intros z. split; [| intuition congruence].
    intros Hz. split; [auto |]. by intros ->.
  - destruct Hin as [-> | Hin]; [done |]. destruct (IH Hin Hr) as (l' & -> & Hn & Hl).
    exists (y :: l'). split; [done |]. split.
    + apply NoDup_cons. split; [| done]. rewrite list_elem_of_In, Hl. tauto.
    + intros z. simpl. rewrite Hl. intuition congruence.
Qed.

(** The references of a registry whose bookkeeping is right *)
Definition refs_ok (rg : BreakerRegistry) (d : dict nat) (order : list string) : Prop :=
  NoDup (keys d) /\ NoDup order /\ (forall h, In h (keys d) <-> In h order) /\
  Forall (fun kv => (snd kv < length (rg_heap rg))%nat) d /\ NoDup (values d).

Lemma evict_ok rg : rg_ok rg -> exists d order,
  evict_oldest rg = Ok (d, order) /\ refs_ok rg d order /\ (length d < rg_max_size rg)%nat /\
  (forall h, In h (keys d) -> In h (keys (rg_breakers rg))).
Proof.
  intros (H1 & H2 & H3 & H4 & H5 & H6 & H7). unfold evict_oldest.
  destruct (rg_max_size rg <=? length (rg_breakers rg))%nat eqn:El.
  - apply Nat.leb_le in El. destruct (rg_access_order rg) as [|oldest order].
    { destruct (rg_breakers rg) as [|[k v] r]; [simpl in *; lia |].
      exfalso. apply (H3 k). by left. }
    assert (Hin : In oldest (keys (rg_breakers rg))) by (apply H3; by left).
    unfold dict_delete. rewrite (proj2 (dict_in_keys _ _) Hin). simpl.
    exists (dict_del oldest (rg_breakers rg)), order. split; [done |].
    pose proof (length_dict_del _ _ Hin). apply NoDup_cons in H2 as [Ho H2].
    rewrite list_elem_of_In in Ho. split; [| split; [lia |]].
    + split; [by apply dict_del_NoDup |]. split; [done |]. split.
      * intros h. rewrite keys_del_In, H3 by done. simpl. intuition congruence.
      * split; [by apply Forall_dict_del | by apply values_del_NoDup].
    + intros h Hh. by apply keys_del_sub in Hh.
  - apply Nat.leb_gt in El. exists (rg_breakers rg), (rg_access_order rg).
    repeat split; auto; apply H3.
Qed.

Lemma get_breaker_ok host fresh rg : rg_ok rg -> exists a rg',
  get_breaker host fresh rg = Ok (a, rg') /\ rg_ok rg' /\
  dict_get host (rg_breakers rg') = Some a /\
  last (rg_access_order rg') = Some host.
Proof.
  intros Hok. pose proof Hok as (H1 & H2 & H3 & H4 & H5 & H6 & H7). unfold get_breaker.
  destruct (dict_get host (rg_breakers rg)) as [a|] eqn:Eg.
  - assert (Hin : In host (rg_access_order rg)).
    { apply H3, dict_in_keys. unfold dict_in. by rewrite Eg. }
    destruct (list_remove_spec _ _ Hin H2) as (order & -> & Hn & Ho). simpl.
    eexists _, _. split; [reflexivity |]. simpl. split; [| split; [done | apply last_snoc]].
    unfold rg_ok. simpl.
    split; [done |]. split; [apply NoDup_snoc; [done | rewrite Ho; tauto] |]. split; [| auto].
    intros h. rewrite In_snoc, Ho, H3. simpl.
    destruct (String.eqb_spec h host); subst; tauto.
  - destruct (evict_ok rg Hok) as (d & order & -> & (G1 & G2 & G3 & G4 & G5) & Hl & Hsub). simpl.
    assert (Hnew : ~ In host (keys d)).
    { intros Hin%Hsub. by apply dict_get_None in Eg. }
    eexists _, _. split; [reflexivity |]. simpl.
    split; [| split; [apply dict_get_set_eq | apply last_snoc]]. unfold rg_ok. simpl.
    rewrite values_set_new by done. unfold keys, values. rewrite !map_app. simpl.
    split; [by apply NoDup_snoc |]. split; [apply NoDup_snoc; [done | by rewrite <- G3] |].
    split; [intros h; rewrite !In_snoc; by rewrite <- G3 |].
    rewrite !length_app. simpl. split; [lia |]. split; [done |]. split.
    + apply Forall_app. split; [| repeat constructor; simpl; lia].
      eapply Forall_impl; [exact G4 |]. simpl. intros. lia.
    + apply NoDup_snoc; [done |]. intros (kv & E & Hkv)%in_map_iff.
      rewrite List.Forall_forall in G4. specialize (G4 _ Hkv). lia.
Qed.

Lemma remove_breaker_ok host rg : rg_ok rg -> exists b rg',
  remove_breaker host rg = Ok (b, rg') /\ rg_ok rg' /\
  b = dict_in host (rg_breakers rg) /\ dict_get host (rg_breakers rg') = None.
Proof.
  intros Hok. pose proof Hok as (H1 & H2 & H3 & H4 & H5 & H6 & H7). unfold remove_breaker.
  destruct (dict_in host (rg_breakers rg)) eqn:Ei.
  - apply dict_in_keys in Ei.
    destruct (list_remove_spec host (rg_access_order rg)) as (order & -> & Hn & Ho);
      [by apply H3 | done |]. simpl.
    eexists _, _. split; [reflexivity |]. simpl.
    split; [| split; [done | by apply dict_get_del_eq]].
    pose proof (length_dict_del _ _ Ei). unfold rg_ok. simpl.
    split; [by apply dict_del_NoDup |]. split; [done |]. split.
    { intros h. rewrite keys_del_In, H3 by done. by rewrite Ho. }
    split; [lia |]. split; [done |].
    split; [by apply Forall_dict_del | by apply values_del_NoDup].
  - eexists _, _. split; [reflexivity |]. split; [done |]. split; [done |].
    unfold dict_in in Ei. by destruct (dict_get host (rg_breakers rg)).
Qed.
