(* ===== verification/TargetHost.v ===== *)
(** * Where an SSH connection may go (app/security.py, target validation)

    First the printed form of an address, [str(ipaddress.ip_address(s))], as in Python 3.11:
    [ClientIp] reads addresses, this file writes them.  Then the validation of a target against
    the allowed and denied networks; [getaddrinfo] is the resolver, any function. *)
From S2P Require Import Prelude PyStr ClientIp.
From stdpp Require Import options.

#[local] Open Scope Z_scope.

(** ** Printing addresses *)
(** An address object: the number, and the scope of an IPv6 address *)
Record address : Type := mkAddress { a_ip : ip_addr; a_scope : option string }.

Definition scope_of (s : string) : option string :=
  match split_on "%" s with [_; scope] => Some scope | _ => None end.
(** [ipaddress.ip_address(s)], the object *)
Definition ip_object (s : string) : option address :=
  match ip_address s with
  | None => None
  | Some (V4 n) => Some (mkAddress (V4 n) None)
  | Some (V6 n) => Some (mkAddress (V6 n) (scope_of s))
  end.

(** The [n] digits of [x] in base [b], most significant first *)
Fixpoint digits_of (b : Z) (n : nat) (x : Z) : list Z :=
  match n with O => [] | S n => digits_of b n (x / b) ++ [x mod b] end.

Definition octet_str (x : Z) : string := nat_str (Z.to_nat x).
Definition ipv4_str (n : Z) : string := join "." (map octet_str (digits_of 256 4 n)).

(** [%x] of a number below 65536: its four hexadecimal digits less the leading zeros *)
Definition hex_char (x : Z) : ascii :=
  ascii_of_nat (Z.to_nat (if x <? 10 then x + 48 else x + 87)).
Fixpoint strip_zeros (ds : list Z) : list Z :=
  match ds with
  | d :: ((_ :: _) as r) => if d =? 0 then strip_zeros r else ds
  | _ => ds
  end.
Definition hextet_str (x : Z) : string :=
  string_of_list_ascii (map hex_char (strip_zeros (digits_of 16 4 x))).

(** [_compress_hextets]: the first longest run of zero hextets becomes [::] *)
Record run_state : Type := mkRun {
  best_doublecolon_start : Z; best_doublecolon_len : Z;
  doublecolon_start : Z; doublecolon_len : Z }.
Definition run_step (st : run_state) (index : Z) (hextet : string) : run_state :=
  if String.eqb hextet "0" then
    let len := doublecolon_len st + 1 in
    let start := if doublecolon_start st =? -1 then index else doublecolon_start st in
    if best_doublecolon_len st <? len then mkRun start len start len
    else mkRun (best_doublecolon_start st) (best_doublecolon_len st) start len
  else mkRun (best_doublecolon_start st) (best_doublecolon_len st) (-1) 0.
Fixpoint run_from (st : run_state) (index : Z) (hextets : list string) : run_state :=
  match hextets with
  | [] => st
  | h :: r => run_from (run_step st index h) (index + 1) r
  end.
Definition _compress_hextets (hextets : list string) : list string :=
  let st := run_from (mkRun (-1) 0 (-1) 0) 0 hextets in
  if 1 <? best_doublecolon_len st then
    let start := Z.to_nat (best_doublecolon_start st) in
    let end_ := Z.to_nat (best_doublecolon_start st + best_doublecolon_len st) in
    let hextets := if (end_ =? length hextets)%nat then hextets ++ [""] else hextets in
    let hextets := firstn start hextets ++ [""] ++ skipn end_ hextets in
    if best_doublecolon_start st =? 0 then "" :: hextets else hextets
  else hextets.
Definition ipv6_str (n : Z) : string :=
  join ":" (_compress_hextets (map hextet_str (digits_of 65536 8 n))).

Definition address_str (a : address) : string :=
  match a_ip a with
  | V4 n => ipv4_str n
  | V6 n => match a_scope a with
            | None => ipv6_str n
            | Some scope => ipv6_str n +s+ "%" +s+ scope
            end
  end.

(** ** parse_networks *)
(** A bad item raises, unlike [parse_cidrs] of the authentication middleware. *)
Definition parse_networks (raw : string) : result (list ip_network) :=
  rmap (fun item => match parse_network item with
                    | Some n => Ok n
                    | None => Raise (ValueError (sc sq +s+ item +s+ sc sq +s+ " does not appear to be an IPv4 or IPv6 network"))
                    end)
    (List.filter (fun item => negb (String.eqb item "")) (map strip (split_on "," raw))).

(** ** resolve_host_ips *)
Definition bad_address (s : string) : exn :=
  ValueError (sc sq +s+ s +s+ sc sq +s+ " does not appear to be an IPv4 or IPv6 address").
Definition unresolved (host : string) : exn := ValueError ("Could not resolve target host: " +s+ host).

(** The addresses as the resolver writes them, [info[4][0]]; [None] is [socket.gaierror]. *)
Definition resolver : Type := string -> option (list string).

Fixpoint collect_ips (seen : list string) (infos : list string) : result (list address) :=
  match infos with
  | [] => Ok []
  | ip_raw :: r =>
      if mem ip_raw seen then collect_ips seen r
      else match ip_object ip_raw with
           | None => Raise (bad_address ip_raw)
           | Some ip => ips <-! collect_ips (seen ++ [ip_raw]) r ;; Ok (ip :: ips)
           end
  end.
Definition resolve_host_ips (getaddrinfo : resolver) (host : string) : result (list address) :=
  match ip_object host with
  | Some direct_ip => Ok [direct_ip]
  | None =>
      match getaddrinfo host with
      | None => Raise (unresolved host)
      | Some infos =>
          ips <-! collect_ips [] infos ;;
          match ips with [] => Raise (unresolved host) | _ => Ok ips end
      end
  end.

(** ** validate_target_host *)
Definition in_any (ip : address) (networks : list ip_network) : bool :=
  existsb (in_network (a_ip ip)) networks.
Fixpoint check_ips (host : string) (allowed denied : list ip_network) (ips : list address)
    : result unit :=
  match ips with
  | [] => Ok tt
  | ip :: r =>
      if in_any ip denied then
        Raise (ValueError ("Target host " +s+ host +s+ " resolved to denied IP " +s+ address_str ip))
      else if negb (match allowed with [] => true | _ => false end) && negb (in_any ip allowed) then
        Raise (ValueError ("Target host " +s+ host +s+ " resolved to non-allowed IP " +s+ address_str ip))
      else check_ips host allowed denied r
  end.
Definition validate_target_host (getaddrinfo : resolver) (host allowed_cidrs denied_cidrs : string)
    : result (list string) :=
  ips <-! resolve_host_ips getaddrinfo host ;;
  allowed <-! parse_networks allowed_cidrs ;;
  denied <-! parse_networks denied_cidrs ;;
  _ <-! check_ips host allowed denied ips ;;
  Ok (map address_str ips).

(** The defaults of the settings *)
Definition ALLOWED_TARGET_CIDRS : string := "10.0.0.0/8,192.168.0.0/16,172.16.0.0/12".
Definition DENIED_TARGET_CIDRS : string := "127.0.0.0/8,::1/128,169.254.0.0/16,0.0.0.0/8,224.0.0.0/4".

Example printed_forms :
  map (fun s => option_map address_str (ip_object s))
    ["10.0.0.1"; "2001:db8:0:0:1:0:0:1"; "::ffff:1.2.3.4"; "0:0:0:0:0:0:0:0"; "1:0:0:2:0:0:0:3";
     "FE80::00aB%eth0"; "1:0:3:4:5:6:7:8"; "1::"]
  = [Some "10.0.0.1"; Some "2001:db8::1:0:0:1"; Some "::ffff:102:304"; Some "::"; Some "1:0:0:2::3";
     Some "fe80::ab%eth0"; Some "1:0:3:4:5:6:7:8"; Some "1::"].
Proof. by_eval. Qed.
Example default_targets :
  map (fun h => is_ok (validate_target_host (fun _ => Some ["10.1.2.3"; "127.0.0.1"]) h
                         ALLOWED_TARGET_CIDRS DENIED_TARGET_CIDRS))
    ["10.0.0.5"; "8.8.8.8"; "172.31.255.255"; "127.0.0.1"; "rebound.example"]
  = [true; false; true; false; false].
Proof. by_eval. Qed.

(** ** Reading back printed addresses

    [ip_object (address_str a) = Some a] for every address object, so that a validated target
    written as text and read again is the same address. *)
#[local] Open Scope Z_scope.

(** ** Splitting what was joined *)
Lemma split_on_clean c s : char_in c s = false -> split_on c s = [s].
Proof.
  induction s as [|d s IH]; simpl; [done |]. rewrite Ascii.eqb_sym.
  intros [Hd Hs]%orb_false_iff. by rewrite Hd, IH.
Qed.
Lemma split_on_cons c s r : char_in c s = false ->
  split_on c (s +s+ String c r) = s :: split_on c r.
Proof.
  induction s as [|d s IH]; simpl; [by rewrite Ascii.eqb_refl |].
  intros [Hd Hs]%orb_false_iff. rewrite Ascii.eqb_sym, Hd, IH; done.
Qed.
Lemma split_on_join c l : l <> [] -> Forall (fun s => char_in c s = false) l ->
  split_on c (join (sc c) l) = l.
Proof.
  intros Hl Hf. induction Hf as [|s l Hs Hf IH]; [done |]. simpl. destruct l as [|s' l].
  - by apply split_on_clean.
  - change (s +s+ sc c +s+ join (sc c) (s' :: l)) with (s +s+ String c (join (sc c) (s' :: l))).
    rewrite split_on_cons by done. by rewrite IH.
Qed.
Lemma char_in_join c sep l : char_in c sep = false -> Forall (fun s => char_in c s = false) l ->
  char_in c (join sep l) = false.
Proof.
  intros Hc Hf. induction Hf as [|s l Hs Hf IH]; [done |]. simpl. destruct l as [|s' l]; [done |].
  by rewrite !char_in_app, Hs, Hc, IH.
Qed.

(** ** Digits *)
Definition value_of (b : Z) (ds : list Z) : Z := fold_left (fun acc d => acc * b + d) ds 0.
Lemma digits_length b n x : length (digits_of b n x) = n.
Proof. revert x. induction n as [|n IH]; intros x; simpl; [done |]. rewrite length_app, IH. simpl. lia. Qed.
Lemma digits_range b n x : 0 < b -> Forall (fun d => 0 <= d < b) (digits_of b n x).
Proof.
  intros Hb. revert x. induction n as [|n IH]; intros x; simpl; [constructor |].
  apply Forall_app. split; [done |]. repeat constructor; apply Z.mod_pos_bound; lia.
Qed.
Lemma digits_value b n x : 0 < b -> 0 <= x < b ^ Z.of_nat n -> value_of b (digits_of b n x) = x.
Proof.
  intros Hb. unfold value_of. revert x. induction n as [|n IH]; intros x Hx; simpl.
  - change (Z.of_nat 0) with 0 in Hx. rewrite Z.pow_0_r in Hx. lia.
  - rewrite fold_left_app. simpl. rewrite Nat2Z.inj_succ, Z.pow_succ_r in Hx by lia.
    rewrite IH; [pose proof (Z.div_mod x b); lia |].
    split; [apply Z.div_pos; lia | apply Z.div_lt_upper_bound; lia].
Qed.

Lemma octet_all :
  forallb (fun n => bool_decide (parse_octet (octet_str (Z.of_nat n)) = Some (Z.of_nat n)) &&
    negb (char_in "." (octet_str (Z.of_nat n))) && negb (char_in "/" (octet_str (Z.of_nat n))))
    (seq 0 256) = true.
Proof. by_eval. Qed.
Lemma octet_ok x : 0 <= x < 256 -> parse_octet (octet_str x) = Some x /\
  char_in "." (octet_str x) = false /\ char_in "/" (octet_str x) = false.
Proof.
  intros Hx. pose proof octet_all as H. rewrite forallb_forall in H.
  specialize (H (Z.to_nat x)). rewrite Z2Nat.id in H by lia.
  rewrite !andb_true_iff, !negb_true_iff, bool_decide_eq_true in H.
  destruct H as [[? ?] ?]; [apply in_seq; lia | auto].
Qed.

(** ** Hextets *)
Definition plain_hex (c : ascii) : bool :=
  is_hex c && negb (Ascii.eqb ":" c) && negb (Ascii.eqb "." c) && negb (Ascii.eqb "%" c) &&
  negb (Ascii.eqb "/" c).
Lemma hex_char_all :
  forallb (fun n => plain_hex (hex_char (Z.of_nat n)) &&
    (hex_value (hex_char (Z.of_nat n)) =? Z.of_nat n)) (seq 0 16) = true.
Proof. by_eval. Qed.
Lemma hex_char_ok d : 0 <= d < 16 -> plain_hex (hex_char d) = true /\ hex_value (hex_char d) = d.
Proof.
  intros Hd. pose proof hex_char_all as H. rewrite forallb_forall in H.
  specialize (H (Z.to_nat d)). rewrite Z2Nat.id, andb_true_iff, Z.eqb_eq in H by lia.
  apply H, in_seq. lia.
Qed.
Definition hex_digits (ds : list Z) : string := string_of_list_ascii (map hex_char ds).
Lemma hex_digits_ok ds : Forall (fun d => 0 <= d < 16) ds ->
  all_of is_hex (hex_digits ds) = true /\
  (forall c, In c [":"; "."; "%"; "/"]%char -> char_in c (hex_digits ds) = false) /\
  (forall acc, int_of 16 acc (hex_digits ds) = fold_left (fun acc d => acc * 16 + d) ds acc).
Proof.
  induction 1 as [|d ds Hd Hds (I1 & I2 & I3)]; [by split; [| split] |].
  destruct (hex_char_ok d Hd) as [Hp Hv]. unfold plain_hex in Hp.
  rewrite !andb_true_iff, !negb_true_iff in Hp. destruct Hp as [[[[H1 H2] H3] H4] H5].
  unfold hex_digits in *. simpl. split; [by rewrite H1 |]. split.
  - intros c Hc. rewrite I2 by done. rewrite orb_false_r.
    simpl in Hc. destruct Hc as [<- | [<- | [<- | [<- | []]]]]; assumption.
  - intros acc. by rewrite Hv, I3.
Qed.

Lemma strip_zeros_ok ds : ds <> [] -> Forall (fun d => 0 <= d < 16) ds ->
  strip_zeros ds <> [] /\ (length (strip_zeros ds) <= length ds)%nat /\
  Forall (fun d => 0 <= d < 16) (strip_zeros ds) /\ value_of 16 (strip_zeros ds) = value_of 16 ds.
Proof.
  intros Hne Hf. induction Hf as [|d ds Hd Hf IH]; [done |]. simpl. destruct ds as [|d' ds].
  { split; [done |]. split; [simpl; lia |]. split; [by constructor | done]. }
  destruct (Z.eqb_spec d 0) as [-> | Hd0].
  - destruct IH as (I1 & I2 & I3 & I4); [done |]. split; [done |]. split; [simpl in *; lia |].
    split; [done |]. by rewrite I4.
  - split; [done |]. split; [simpl; lia |]. split; [by constructor | done].
Qed.
Lemma slen_list l : slen (string_of_list_ascii l) = length l.
Proof. unfold slen. induction l; simpl; auto. Qed.

Lemma hextet_ok x : 0 <= x < 65536 ->
  parse_hextet (hextet_str x) = Some x /\ String.eqb (hextet_str x) "" = false /\
  forall c, In c [":"; "."; "%"; "/"]%char -> char_in c (hextet_str x) = false.
Proof.
  intros Hx. pose proof (digits_range 16 4 x eq_refl) as Hr.
  pose proof (digits_length 16 4 x) as Hl. pose proof (digits_value 16 4 x eq_refl Hx) as Hv.
  destruct (strip_zeros_ok (digits_of 16 4 x)) as (S1 & S2 & S3 & S4); [by destruct (digits_of 16 4 x) | done |].
  unfold hextet_str. fold (hex_digits (strip_zeros (digits_of 16 4 x))).
  set (ds := strip_zeros (digits_of 16 4 x)) in *. rewrite Hl in S2.
  destruct (hex_digits_ok ds S3) as (H1 & H2 & H3).
  assert (He : String.eqb (hex_digits ds) "" = false) by (by destruct ds).
  split; [| by split]. unfold parse_hextet. rewrite He, H1. simpl.
  unfold hex_digits at 1. rewrite slen_list, length_map.
  replace (4 <? length ds)%nat with false by (symmetry; apply Nat.ltb_ge; lia).
  rewrite H3. f_equal. fold (value_of 16 ds). by rewrite S4.
Qed.
Lemma hextet_zero x : 0 <= x < 65536 -> hextet_str x = "0" -> x = 0.
Proof. intros Hx E. destruct (hextet_ok x Hx) as [H _]. rewrite E in H. by injection H as <-. Qed.

(** ** The run that [_compress_hextets] removes *)
Definition all_zero (l : list string) (i j : Z) : Prop :=
  forall k, i <= k < j -> nth_error l (Z.to_nat k) = Some "0".
Record run_ok (l : list string) (i : Z) (st : run_state) : Prop := {
  ro_cur : (doublecolon_start st = -1 /\ doublecolon_len st = 0) \/
           (0 <= doublecolon_start st /\ 0 < doublecolon_len st /\
            doublecolon_start st + doublecolon_len st = i /\ all_zero l (doublecolon_start st) i);
  ro_best : best_doublecolon_len st = 0 \/
            (0 <= best_doublecolon_start st /\ 0 < best_doublecolon_len st /\
             best_doublecolon_start st + best_doublecolon_len st <= i /\
             all_zero l (best_doublecolon_start st)
               (best_doublecolon_start st + best_doublecolon_len st)) }.

Lemma run_step_ok l i st h : 0 <= i -> nth_error l (Z.to_nat i) = Some h -> run_ok l i st ->
  run_ok l (i + 1) (run_step st i h).
Proof.
  intros Hi Hh [Hc Hb]. unfold run_step.
  destruct (String.eqb_spec h "0") as [-> | Hne].
  - set (start := if doublecolon_start st =? -1 then i else doublecolon_start st).
    assert (Hcur : 0 <= start /\ 0 < doublecolon_len st + 1 /\
                   start + (doublecolon_len st + 1) = i + 1 /\ all_zero l start (i + 1)).
    { subst start. destruct Hc as [[-> ->] | (H1 & H2 & H3 & H4)].
      - simpl. repeat split; try lia. intros k Hk. by replace k with i by lia.
      - destruct (Z.eqb_spec (doublecolon_start st) (-1)); [lia |].
        repeat split; try lia. intros k Hk. destruct (Z.eq_dec k i) as [-> | Hk']; [done |].
        apply H4. lia. }
    destruct (_ <? _); split; simpl; auto.
    + right. destruct Hcur as (? & ? & E & Hz). rewrite E. repeat split; try lia. done.
    + destruct Hb as [Hb | (? & ? & ? & ?)]; [auto | right; repeat split; auto; lia].
  - split; simpl; [auto |].
    destruct Hb as [Hb | (? & ? & ? & ?)]; [auto | right; repeat split; auto; lia].
Qed.
Lemma run_from_ok l1 l2 st : run_ok (l1 ++ l2) (Z.of_nat (length l1)) st ->
  run_ok (l1 ++ l2) (Z.of_nat (length (l1 ++ l2))) (run_from st (Z.of_nat (length l1)) l2).
Proof.
  revert l1 st. induction l2 as [|h l2 IH]; simpl; intros l1 st Hok;
    [rewrite app_nil_r in Hok |- *; exact Hok |].
  replace (Z.of_nat (length l1) + 1) with (Z.of_nat (length (l1 ++ [h])))
    by (rewrite length_app; simpl; lia).
  change (h :: l2) with ([h] ++ l2) in *. rewrite app_assoc in *. apply IH.
  replace (Z.of_nat (length (l1 ++ [h]))) with (Z.of_nat (length l1) + 1)
    by (rewrite length_app; simpl; lia).
  apply run_step_ok; [lia | | done]. rewrite Nat2Z.id, <- app_assoc. simpl.
  rewrite nth_error_app2, Nat.sub_diag by lia. done.
Qed.

(** Either nothing is removed, or a run of at least two zero hextets is. *)
Lemma compress_cases l : _compress_hextets l = l \/
  exists s n, (2 <= n)%nat /\ (s + n <= length l)%nat /\
    (forall k, (s <= k < s + n)%nat -> nth_error l k = Some "0") /\
    _compress_hextets l =
      (if (s =? 0)%nat then [""] else []) ++
      firstn s l ++ [""] ++ skipn (s + n) (if (s + n =? length l)%nat then l ++ [""] else l).
Proof.
  unfold _compress_hextets. set (st := run_from _ 0 l).
  assert (Hok : run_ok l (Z.of_nat (length l)) st).
  { apply (run_from_ok [] l). split; simpl; [left | left]; done. }
  destruct (Z.ltb_spec 1 (best_doublecolon_len st)) as [Hl |]; [right | by left].
  destruct (ro_best _ _ _ Hok) as [Hb | (Hs & _ & He & Hz)]; [lia |].
  exists (Z.to_nat (best_doublecolon_start st)), (Z.to_nat (best_doublecolon_len st)).
  split; [lia |]. split; [lia |]. split.
  { intros k Hk. specialize (Hz (Z.of_nat k)). rewrite Nat2Z.id in Hz. apply Hz. lia. }
  rewrite Z2Nat.inj_add by lia.
  set (s := Z.to_nat (best_doublecolon_start st)) in *. set (n := Z.to_nat (best_doublecolon_len st)).
  assert (Hs0 : (best_doublecolon_start st =? 0) = (s =? 0)%nat).
  { subst s. destruct (Z.eqb_spec (best_doublecolon_start st) 0) as [-> | H]; [done |].
    symmetry. apply Nat.eqb_neq. lia. }
  rewrite Hs0. assert (Hf : firstn s (if (s + n =? length l)%nat then l ++ [""] else l) = firstn s l).
  { destruct (s + n =? length l)%nat; [| done]. rewrite firstn_app.
    replace (s - length l)%nat with 0%nat by lia. by rewrite app_nil_r. }
  rewrite Hf. by destruct (s =? 0)%nat.
Qed.

(** ** IPv6 *)
Lemma widen_plain l : l <> [] -> Forall (fun s => char_in "." s = false) l ->
  widen_last l = Some (map inl l).
Proof.
  intros Hl Hf. induction Hf as [|s l Hs Hf IH]; [done |]. destruct l as [|s' l].
  - simpl. by rewrite Hs.
  - change (option_map (cons (inl s)) (widen_last (s' :: l)) = Some (map inl (s :: s' :: l))).
    by rewrite IH.
Qed.

(** The parts of a printed address hold no separator. *)
Definition clean_part (s : string) : Prop :=
  forall c, In c [":"; "."; "%"; "/"]%char -> char_in c s = false.
Lemma clean_parts c l : In c [":"; "."; "%"; "/"]%char -> Forall clean_part l ->
  Forall (fun s => char_in c s = false) l.
Proof. intros Hc Hl. eapply Forall_impl; [exact Hl |]. intros s Hs. by apply Hs. Qed.

(** Reading the parts: the eight numbers, one by one, with the skipped run put back *)
Ltac hextets :=
  repeat match goal with
  | H : 0 <= ?x < 65536 |- context [parse_hextet (hextet_str ?x)] =>
      rewrite (proj1 (hextet_ok x H))
  | H : 0 <= ?x < 65536 |- context [String.eqb (hextet_str ?x) ""] =>
      rewrite (proj1 (proj2 (hextet_ok x H)))
  end.

Ltac read_parts :=
  cbn -[parse_hextet hextet_str String.eqb Z.mul Z.add Z.pow];
  change (String.eqb "" "") with true; hextets;
  cbn -[parse_hextet hextet_str String.eqb Z.mul Z.add Z.pow].
Ltac powers :=
  repeat match goal with
  | |- context [2 ^ ?e] => let v := eval vm_compute in (2 ^ e) in change (2 ^ e) with v
  end.
Ltac zeros Hz :=
  repeat match type of Hz with
  | context [nth_error (map hextet_str ?l) _] =>
      let go k := (let H := fresh in
        assert (H : nth_error (map hextet_str l) k = Some "0") by (apply Hz; lia);
        simpl in H; injection H as H; apply hextet_zero in H; [| assumption]; subst) in
      first [go 0%nat | go 1%nat | go 2%nat | go 3%nat | go 4%nat | go 5%nat | go 6%nat | go 7%nat]
  end.

Lemma ipv6_parts_ok h0 h1 h2 h3 h4 h5 h6 h7 :
  Forall (fun x => 0 <= x < 65536) [h0; h1; h2; h3; h4; h5; h6; h7] ->
  parse_ipv6_parts (map inl (_compress_hextets (map hextet_str [h0; h1; h2; h3; h4; h5; h6; h7]))) =
  Some (value_of 65536 [h0; h1; h2; h3; h4; h5; h6; h7]).
Proof.
  intros Hf. repeat (apply Forall_cons in Hf as [? Hf]).
  destruct (compress_cases (map hextet_str [h0; h1; h2; h3; h4; h5; h6; h7]))
    as [-> | (s & n & Hn & Hlen & Hz & ->)].
  - simpl map. unfold parse_ipv6_parts, inner_empty. cbn -[parse_hextet hextet_str String.eqb Z.mul Z.add].
    hextets. cbn -[parse_hextet hextet_str String.eqb Z.mul Z.add]. hextets. reflexivity.
  - simpl length in *.
    destruct s as [|[|[|[|[|[|[|s]]]]]]]; [.. | exfalso; lia];
      destruct n as [|[|[|[|[|[|[|[|[|n]]]]]]]]]; try (exfalso; lia); zeros Hz;
      cbn -[parse_hextet hextet_str String.eqb Z.mul Z.add Z.pow];
      unfold parse_ipv6_parts, inner_empty; read_parts; hextets; read_parts; hextets;
      f_equal; powers; lia.
Qed.

Lemma digits_eight n : exists h0 h1 h2 h3 h4 h5 h6 h7,
  digits_of 65536 8 n = [h0; h1; h2; h3; h4; h5; h6; h7].
Proof.
  pose proof (digits_length 65536 8 n) as Hl. remember (digits_of 65536 8 n) as l eqn:E. clear E.
  do 8 (destruct l as [|? l]; [done |]). destruct l; [| done]. by repeat eexists.
Qed.

(** The parts a printed IPv6 address is joined from *)
Definition ipv6_parts (n : Z) : list string := _compress_hextets (map hextet_str (digits_of 65536 8 n)).
Lemma ipv6_parts_clean n : Forall clean_part (ipv6_parts n).
Proof.
  assert (Hh : Forall clean_part (map hextet_str (digits_of 65536 8 n))).
  { apply Forall_map. eapply Forall_impl; [by apply (digits_range 65536 8 n) |].
    intros x Hx c Hc. by apply (hextet_ok x Hx). }
  assert (He : clean_part "") by done. unfold ipv6_parts.
  destruct (compress_cases (map hextet_str (digits_of 65536 8 n))) as [-> | (s & m & _ & _ & _ & ->)];
    [done |].
  repeat (apply Forall_app; split); try (by repeat constructor).
  - destruct (s =? 0)%nat; by repeat constructor.
  - by apply Forall_take.
  - apply Forall_drop. destruct (_ =? _)%nat; [| done]. apply Forall_app. split; [done |].
    by repeat constructor.
Qed.
Lemma ipv6_parts_length n : (3 <= length (ipv6_parts n))%nat.
Proof.
  unfold ipv6_parts. set (l := map hextet_str (digits_of 65536 8 n)).
  assert (Hl : length l = 8%nat) by (subst l; by rewrite length_map, digits_length).
  destruct (compress_cases l) as [-> | (s & m & Hm & Hle & _ & ->)]; [lia |].
  rewrite Hl in *. rewrite !length_app, length_skipn, length_firstn, Hl.
  destruct (Nat.eqb_spec s 0); destruct (Nat.eqb_spec (s + m) 8);
    rewrite ?length_app, Hl; simpl length; lia.
Qed.
Lemma ipv6_parts_read n : 0 <= n < 2 ^ 128 -> parse_ipv6_parts (map inl (ipv6_parts n)) = Some n.
Proof.
  intros Hn. unfold ipv6_parts.
  pose proof (digits_range 65536 8 n eq_refl) as Hr. pose proof (digits_value 65536 8 n eq_refl Hn) as Hv.
  destruct (digits_eight n) as (h0 & h1 & h2 & h3 & h4 & h5 & h6 & h7 & E).
  rewrite E in *. rewrite ipv6_parts_ok by done. by rewrite Hv.
Qed.

Lemma ipv6_str_clean c n : In c ["."; "%"; "/"]%char -> char_in c (ipv6_str n) = false.
Proof.
  intros Hc. apply char_in_join; [by destruct Hc as [<- | [<- | [<- | []]]] |].
  apply clean_parts; [by right | apply ipv6_parts_clean].
Qed.
Lemma ipv6_split n : split_on ":" (ipv6_str n) = ipv6_parts n.
Proof.
  apply (split_on_join ":"); [| apply clean_parts; [by left | apply ipv6_parts_clean]].
  intros E. pose proof (ipv6_parts_length n) as Hl. rewrite E in Hl. simpl in Hl. lia.
Qed.
Lemma parse_ipv6_scoped n s : 0 <= n < 2 ^ 128 -> drop_scope s = Some (ipv6_str n) ->
  parse_ipv6 s = Some n.
Proof.
  intros Hn Hs. unfold parse_ipv6. rewrite Hs, ipv6_split.
  pose proof (ipv6_parts_length n) as Hl.
  replace (length (ipv6_parts n) <? 3)%nat with false by (symmetry; apply Nat.ltb_ge; lia).
  rewrite widen_plain; [by apply ipv6_parts_read | |].
  - intros E. rewrite E in Hl. simpl in Hl. lia.
  - apply clean_parts; [by right; left | apply ipv6_parts_clean].
Qed.

(** A text with a colon is no IPv4 address. *)
Lemma split_on_keeps c d s : d <> c -> char_in d s = true ->
  exists w, In w (split_on c s) /\ char_in d w = true.
Proof.
  intros Hne. induction s as [|e s IH]; simpl; [done |].
  destruct (Ascii.eqb_spec e c) as [-> | Hec].
  - destruct (Ascii.eqb_spec d c); [done |]. simpl. intros (w & Hw & Hd)%IH. exists w. auto.
  - destruct (split_on c s) as [|w ws] eqn:E; [by apply split_on_nonempty in E |].
    destruct (Ascii.eqb_spec d e) as [-> | Hde]; simpl.
    + intros _. exists (String e w). simpl. rewrite Ascii.eqb_refl. auto.
    + intros (w' & [<- | Hw] & Hd)%IH.
      * exists (String e w). simpl. rewrite Hd, orb_true_r. auto.
      * exists w'. auto.
Qed.
Lemma octet_no_colon s : char_in ":" s = true -> parse_octet s = None.
Proof.
  intros Hc. unfold parse_octet.
  assert (H : all_of is_digit s = false).
  { induction s as [|d s IH]; [done |]. cbn [char_in all_of] in *.
    destruct (Ascii.eqb_spec ":" d) as [<- | Hd]; [done |].
    rewrite IH by exact Hc. apply andb_false_r. }
  rewrite H. simpl. by rewrite orb_true_r.
Qed.
Lemma ipv4_no_colon s : char_in ":" s = true -> parse_ipv4 s = None.
Proof.
  intros Hc. destruct (split_on_keeps "." ":" s) as (w & Hw & Hd); [done | done |].
  unfold parse_ipv4. destruct (split_on "." s) as [|a [|b [|c [|d [|]]]]]; try done.
  simpl in Hw. destruct Hw as [<- | [<- | [<- | [<- | []]]]]; rewrite (octet_no_colon _ Hd);
    by repeat case_match.
Qed.
Lemma ipv6_has_colon n : char_in ":" (ipv6_str n) = true.
Proof.
  destruct (char_in ":" (ipv6_str n)) eqn:E; [done |]. apply split_on_clean in E.
  pose proof (ipv6_parts_length n) as Hl. rewrite <- ipv6_split, E in Hl. simpl in Hl. lia.
Qed.

(** ** IPv4 *)
Lemma digits_four n : exists a b c d, digits_of 256 4 n = [a; b; c; d].
Proof.
  pose proof (digits_length 256 4 n) as Hl. remember (digits_of 256 4 n) as l eqn:E. clear E.
  do 4 (destruct l as [|? l]; [done |]). destruct l; [| done]. by repeat eexists.
Qed.
Lemma parse_ipv4_str n : 0 <= n < 2 ^ 32 ->
  parse_ipv4 (ipv4_str n) = Some n /\ char_in "/" (ipv4_str n) = false.
Proof.
  intros Hn. unfold ipv4_str. pose proof (digits_range 256 4 n eq_refl) as Hr.
  pose proof (digits_value 256 4 n eq_refl Hn) as Hv.
  destruct (digits_four n) as (a & b & c & d & E). rewrite E in *.
  repeat (apply Forall_cons in Hr as [? Hr]).
  assert (Ho : Forall (fun s => char_in "." s = false /\ char_in "/" s = false)
    (map octet_str [a; b; c; d])) by (repeat constructor; apply octet_ok; assumption).
  split.
  - unfold parse_ipv4. change "." with (sc ".") at 1.
    rewrite split_on_join; [| done | by eapply Forall_impl; [exact Ho | intros s [? _]]].
    cbn [map]. repeat match goal with
    | H : 0 <= ?x < 256 |- context [parse_octet (octet_str ?x)] => rewrite (proj1 (octet_ok x H))
    end. f_equal.
    unfold value_of in Hv. simpl fold_left in Hv. lia.
  - apply char_in_join; [done |]. by eapply Forall_impl; [exact Ho | intros s [_ ?]].
Qed.

(** ** The round trip *)
(** The objects [ip_address] builds *)
Definition address_ok (a : address) : Prop :=
  match a_ip a with
  | V4 n => 0 <= n < 2 ^ 32 /\ a_scope a = None
  | V6 n => 0 <= n < 2 ^ 128 /\
      match a_scope a with
      | None => True
      | Some sc => sc <> "" /\ char_in "%" sc = false /\ char_in "/" sc = false
      end
  end.

Lemma read_printed a : address_ok a -> ip_object (address_str a) = Some a.
Proof.
  destruct a as [[n | n] scope]; unfold address_ok, address_str, ip_object, ip_address; simpl.
  - intros [Hn ->]. destruct (parse_ipv4_str n Hn) as [-> ->]. done.
  - intros [Hn Hs]. destruct scope as [scope|].
    + destruct Hs as (Hne & Hp & Hsl).
      assert (Hsplit : split_on "%" (ipv6_str n +s+ String "%" scope) = [ipv6_str n; scope]).
      { rewrite split_on_cons by (apply ipv6_str_clean; by right; left). by rewrite split_on_clean. }
      rewrite !char_in_app, ipv6_str_clean by (by right; right; left). simpl. rewrite Hsl.
      rewrite ipv4_no_colon by (by rewrite char_in_app, ipv6_has_colon).
      rewrite (parse_ipv6_scoped n); [| done |].
      * simpl. unfold scope_of. by rewrite Hsplit.
      * unfold drop_scope. rewrite Hsplit. by destruct (String.eqb_spec scope "").
    + rewrite ipv6_str_clean by (by right; right; left).
      rewrite ipv4_no_colon by apply ipv6_has_colon.
      assert (Hsplit : split_on "%" (ipv6_str n) = [ipv6_str n])
        by (apply split_on_clean, ipv6_str_clean; by right; left).
      rewrite (parse_ipv6_scoped n); [| done | by unfold drop_scope; rewrite Hsplit].
      simpl. unfold scope_of. by rewrite Hsplit.
Qed.

(** ** What is read is in range *)
Lemma hex_value_range c : is_hex c = true -> 0 <= hex_value c < 16.
Proof.
  intros Hc. assert (H : (if is_hex c then (0 <=? hex_value c) && (hex_value c <? 16) else true) = true).
  { revert c Hc. intros c _. revert c. apply ascii_forall. by_eval. }
  rewrite Hc in H. lia.
Qed.
Lemma digit_is_hex c : is_digit c = true -> is_hex c = true.
Proof. unfold is_hex. by intros ->. Qed.
Lemma int_of_nonneg b acc s : 0 <= b -> 0 <= acc -> all_of is_hex s = true -> 0 <= int_of b acc s.
Proof.
  intros Hb. revert acc. induction s as [|c s IH]; simpl; intros acc Ha; [done |].
  intros [Hc Hs]%andb_true_iff. apply IH; [| done]. pose proof (hex_value_range c Hc). nia.
Qed.
Lemma int_of_16 acc s : all_of is_hex s = true ->
  acc * 16 ^ Z.of_nat (slen s) <= int_of 16 acc s < (acc + 1) * 16 ^ Z.of_nat (slen s).
Proof.
  revert acc. induction s as [|c s IH]; intros acc.
  - intros _. simpl. rewrite Z.pow_0_r. lia.
  - cbn [all_of int_of]. intros [Hc Hs]%andb_true_iff. specialize (IH (acc * 16 + hex_value c) Hs).
    pose proof (hex_value_range c Hc). unfold slen in *. cbn [String.length].
    rewrite Nat2Z.inj_succ, Z.pow_succ_r by lia.
    assert (0 < 16 ^ Z.of_nat (String.length s)) by (apply Z.pow_pos_nonneg; lia). nia.
Qed.
Lemma parse_hextet_range s h : parse_hextet s = Some h -> 0 <= h < 65536.
Proof.
  unfold parse_hextet. destruct (_ || _) eqn:E; [done |]. intros [= <-].
  rewrite !orb_false_iff, negb_false_iff in E. destruct E as [[_ Hx] Hl]. apply Nat.ltb_ge in Hl.
  pose proof (int_of_16 0 s Hx) as H.
  assert (16 ^ Z.of_nat (slen s) <= 16 ^ 4) by (apply Z.pow_le_mono_r; lia). lia.
Qed.
Lemma parse_octet_range s h : parse_octet s = Some h -> 0 <= h < 256.
Proof.
  unfold parse_octet. destruct (String.eqb s "" || _ || _) eqn:E; [done |].
  destruct (_ && _); [done |]. destruct (Z.ltb_spec 255 (int_of 10 0 s)); [done |]. intros [= <-].
  rewrite !orb_false_iff, negb_false_iff in E. destruct E as [[_ Hx] _].
  split; [| lia]. apply int_of_nonneg; [lia | lia |].
  clear -Hx. induction s as [|c s IH]; [done |]. cbn [all_of] in *.
  apply andb_true_iff in Hx as [Hc Hs]. by rewrite (digit_is_hex c Hc), IH.
Qed.
Lemma parse_ipv4_range s n : parse_ipv4 s = Some n -> 0 <= n < 2 ^ 32.
Proof.
  unfold parse_ipv4. destruct (split_on "." s) as [|a [|b [|c [|d [|]]]]]; try done.
  destruct (parse_octet a) eqn:Ea; [| done]. destruct (parse_octet b) eqn:Eb; [| done].
  destruct (parse_octet c) eqn:Ec; [| done]. destruct (parse_octet d) eqn:Ed; [| done].
  intros [= <-]. apply parse_octet_range in Ea, Eb, Ec, Ed. lia.
Qed.

(** Parts worth one hextet each *)
Definition part_ok (p : string + Z) : Prop := match p with inl _ => True | inr n => 0 <= n < 65536 end.
Lemma fold_parts_range l acc v : Forall part_ok l -> 0 <= acc -> fold_parts acc l = Some v ->
  acc * 65536 ^ Z.of_nat (length l) <= v < (acc + 1) * 65536 ^ Z.of_nat (length l).
Proof.
  revert acc. induction l as [|p l IH]; intros acc Hf Ha.
  - simpl. intros [= <-]. rewrite Z.pow_0_r. lia.
  - apply Forall_cons in Hf as [Hp Hf]. cbn [fold_parts].
    destruct (part_value p) as [h|] eqn:E; [| done]. intros H.
    assert (Hh : 0 <= h < 65536).
    { destruct p as [s | n]; simpl in *; [by apply parse_hextet_range in E | by injection E as <-]. }
    apply IH in H; [| done | lia]. cbn [length]. rewrite Nat2Z.inj_succ, Z.pow_succ_r by lia.
    assert (0 < 65536 ^ Z.of_nat (length l)) by (apply Z.pow_pos_nonneg; lia). nia.
Qed.
Lemma widen_last_ok l ps : widen_last l = Some ps -> Forall part_ok ps.
Proof.
  revert ps. induction l as [|p l IH]; intros ps; [by intros [= <-] |]. destruct l as [|p' l].
  - simpl. destruct (char_in "." p).
    + destruct (parse_ipv4 p) as [n|] eqn:E; [| done]. intros [= <-].
      apply parse_ipv4_range in E. repeat constructor; simpl.
      * apply Z.div_pos; lia.
      * apply Z.div_lt_upper_bound; lia.
      * apply Z.mod_pos_bound. lia.
      * apply Z.mod_pos_bound. lia.
    + intros [= <-]. by repeat constructor.
  - change (option_map (cons (inl p)) (widen_last (p' :: l)) = Some ps -> Forall part_ok ps).
    destruct (widen_last (p' :: l)) as [qs|]; [| done]. intros [= <-]. constructor; [done | by apply IH].
Qed.
Lemma inner_empty_bound ps skip : In skip (inner_empty ps) -> (1 <= skip < length ps - 1)%nat.
Proof. unfold inner_empty. intros [Hin _]%filter_In. apply in_seq in Hin. lia. Qed.
Lemma pow_16 k : 2 ^ (16 * Z.of_nat k) = 65536 ^ Z.of_nat k.
Proof. by rewrite Z.pow_mul_r by lia. Qed.

Lemma skipped_range ps hi lo v : Forall part_ok ps -> (hi <= length ps)%nat -> (lo <= length ps)%nat ->
  (hi + lo < 8)%nat ->
  match fold_parts 0 (firstn hi ps) with
  | None => None
  | Some h => fold_parts (h * 2 ^ (16 * Z.of_nat (8 - (hi + lo)))) (skipn (length ps - lo) ps)
  end = Some v -> 0 <= v < 2 ^ 128.
Proof.
  intros Hf Hhi Hlo Hk. destruct (fold_parts 0 (firstn hi ps)) as [h|] eqn:E; [| done]. intros H.
  apply fold_parts_range in E; [| by apply Forall_take | lia]. rewrite length_firstn in E.
  replace (Nat.min hi (length ps)) with hi in E by lia.
  assert (0 < 65536 ^ Z.of_nat hi) by (apply Z.pow_pos_nonneg; lia).
  rewrite pow_16 in H. set (k := (8 - (hi + lo))%nat) in *.
  assert (0 < 65536 ^ Z.of_nat k) by (apply Z.pow_pos_nonneg; lia).
  apply fold_parts_range in H; [| by apply Forall_drop | nia]. rewrite length_skipn in H.
  replace (length ps - (length ps - lo))%nat with lo in H by lia.
  assert (0 < 65536 ^ Z.of_nat lo) by (apply Z.pow_pos_nonneg; lia).
  assert (Hall : 2 ^ 128 = 65536 ^ Z.of_nat hi * 65536 ^ Z.of_nat k * 65536 ^ Z.of_nat lo).
  { rewrite <- !Z.pow_add_r by lia. replace (Z.of_nat hi + Z.of_nat k + Z.of_nat lo) with 8 by lia. done. }
  rewrite Hall. set (P := 65536 ^ Z.of_nat hi) in *. set (K := 65536 ^ Z.of_nat k) in *.
  set (L := 65536 ^ Z.of_nat lo) in *. clearbody P K L.
  assert (Hh : 0 <= h < P) by lia. assert (Hk1 : h * K + 1 <= P * K) by nia.
  assert (0 <= h * K) by nia. split; [nia |]. apply Z.lt_le_trans with ((h * K + 1) * L); [lia |].
  by apply Z.mul_le_mono_nonneg_r; [lia |].
Qed.
Lemma parse_ipv6_parts_range ps v : Forall part_ok ps -> parse_ipv6_parts ps = Some v -> 0 <= v < 2 ^ 128.
Proof.
  intros Hf. unfold parse_ipv6_parts.
  set (fe := match ps with p :: _ => is_empty_part p | [] => false end).
  set (le := match last ps with Some p => is_empty_part p | None => false end).
  destruct (9 <? length ps)%nat eqn:E9; [done |].
  destruct (inner_empty ps) as [|skip [|]] eqn:Ei; [| | done].
  - destruct (length ps =? 8)%nat eqn:E8; simpl; [| done]. apply Nat.eqb_eq in E8.
    destruct (fe || le); [done |]. intros H.
    apply fold_parts_range in H; [| done | lia]. rewrite E8 in H. simpl in H. lia.
  - pose proof (inner_empty_bound ps skip ltac:(rewrite Ei; by left)) as Hb.
    destruct (_ || _); [done |].
    set (hi := if fe then (skip - 1)%nat else skip).
    set (lo := if le then (length ps - skip - 2)%nat else (length ps - skip - 1)%nat).
    assert (Hhi : (hi <= length ps)%nat) by (subst hi; destruct fe; lia).
    assert (Hlo : (lo <= length ps)%nat) by (subst lo; destruct le; lia).
    destruct (Nat.leb_spec 8 (hi + lo)); [done |]. by apply skipped_range.
Qed.

Lemma split_on_parts c d s : Forall (fun w => char_in c w = false) (split_on c s) /\
  (char_in d s = false -> Forall (fun w => char_in d w = false) (split_on c s)).
Proof.
  induction s as [|e s [I1 I2]]; [split; repeat constructor |]. cbn [split_on char_in].
  destruct (Ascii.eqb_spec e c) as [-> | Hne].
  { split; [by constructor |]. intros [_ H]%orb_false_iff. by constructor; auto. }
  destruct (split_on c s) as [|w ws] eqn:E; [by apply split_on_nonempty in E |].
  apply Forall_cons in I1 as [Hw Hws]. split.
  - constructor; [| done]. cbn [char_in]. rewrite Hw, orb_false_r. apply Ascii.eqb_neq. congruence.
  - intros [He Hs]%orb_false_iff. specialize (I2 Hs). apply Forall_cons in I2 as [Iw Iws].
    constructor; [| done]. cbn [char_in]. by rewrite He, Iw.
Qed.

Lemma ip_object_ok s a : ip_object s = Some a -> address_ok a.
Proof.
  unfold ip_object, ip_address. destruct (char_in "/" s) eqn:Hsl; [done |].
  destruct (parse_ipv4 s) as [n|] eqn:E4.
  { intros [= <-]. by split; [apply (parse_ipv4_range s) |]. }
  destruct (parse_ipv6 s) as [n|] eqn:E6; [| done]. simpl. intros [= <-].
  unfold parse_ipv6 in E6. destruct (drop_scope s) as [b|] eqn:Ed; [| done].
  destruct (length (split_on ":" b) <? 3)%nat; [done |].
  destruct (widen_last (split_on ":" b)) as [ps|] eqn:Ew; [| done].
  split; [by apply (parse_ipv6_parts_range ps); [apply widen_last_ok in Ew |] |]. simpl.
  unfold scope_of, drop_scope in *. pose proof (split_on_parts "%" "/" s) as [H1 H2].
  specialize (H2 Hsl). destruct (split_on "%" s) as [|x [|scope [|]]]; try done.
  destruct (String.eqb_spec scope "") as [|Hne]; [done |].
  repeat (apply Forall_cons in H1 as [? H1]; apply Forall_cons in H2 as [? H2]). auto.
Qed.

(** A printed address read again prints the same. *)
Lemma printed_stable s a : ip_object s = Some a -> ip_object (address_str a) = Some a.
Proof. intros H%ip_object_ok. by apply read_printed. Qed.
