(* ===== verification/SshPool.v ===== *)
(** * The pool of idle SSH transports (app/ssh_pool.py)

    A client ([paramiko.SSHClient]) is named by a number.  Whether its transport is active is
    asked of the outside: [alive] is the answer at the time of the call.  Closing a client is an
    effect: an operation returns the clients it closed, in order.  The lock is never held
    across an await, so an operation is one step; [now] is its reading of the monotonic clock,
    in microseconds. *)
From Stdlib Require Import Sorted.
From S2P Require Import Prelude PyStr.
From stdpp Require Import options.

(** The pool key of [ssh_manager]: [(host, port, username, auth_method,
    credential_fingerprint, destination_ip)] *)
Record PoolKey : Type := mkKey {
  k_host : string; k_port : Z; k_username : string; k_auth_method : string;
  k_fingerprint : string; k_destination : option string }.
#[export] Instance pool_key_eq_dec : EqDecision PoolKey.
Proof. solve_decision. Defined.

Record PooledConnection : Type := mkPooled { pc_client : nat; pc_last_used : Z }.
#[export] Instance pooled_eq_dec : EqDecision PooledConnection.
Proof. solve_decision. Defined.

(** [_idle] is a [defaultdict(deque)] in insertion order; a deque has its newest entry last. *)
Definition idle_map : Type := list (PoolKey * list PooledConnection).
Record ConnectionPool : Type := mkPool {
  _max_size : Z; _ttl_seconds : Z; _idle : idle_map;
  _hits : Z; _misses : Z; _evictions : Z }.

Definition new_pool (max_size ttl_seconds : Z) : ConnectionPool :=
  mkPool (Z.max 0 max_size) (Z.max 0 ttl_seconds) [] 0 0 0.
Definition with_idle (i : idle_map) (p : ConnectionPool) : ConnectionPool :=
  mkPool (_max_size p) (_ttl_seconds p) i (_hits p) (_misses p) (_evictions p).
Definition count_hit (p : ConnectionPool) : ConnectionPool :=
  mkPool (_max_size p) (_ttl_seconds p) (_idle p) (_hits p + 1) (_misses p) (_evictions p).
Definition count_miss (p : ConnectionPool) : ConnectionPool :=
  mkPool (_max_size p) (_ttl_seconds p) (_idle p) (_hits p) (_misses p + 1) (_evictions p).
Definition count_eviction (p : ConnectionPool) : ConnectionPool :=
  mkPool (_max_size p) (_ttl_seconds p) (_idle p) (_hits p) (_misses p) (_evictions p + 1).

Definition enabled (p : ConnectionPool) : bool := (0 <? _max_size p)%Z.
Definition idle_count (p : ConnectionPool) : nat :=
  sum_list_with (fun kq => length (snd kq)) (_idle p).

Record pool_stats : Type := mkPoolStats { ps_idle : nat; ps_hits : Z; ps_misses : Z; ps_evictions : Z }.
Definition stats (p : ConnectionPool) : pool_stats :=
  mkPoolStats (idle_count p) (_hits p) (_misses p) (_evictions p).

(** [self._idle.get(key)] *)
Fixpoint idle_get (key : PoolKey) (i : idle_map) : option (list PooledConnection) :=
  match i with
  | [] => None
  | (k, q) :: r => if decide (key = k) then Some q else idle_get key r
  end.
(** The deque of a key changed in place; [self._idle[key]] of a [defaultdict] adds a missing key. *)
Fixpoint idle_update (key : PoolKey) (f : list PooledConnection -> list PooledConnection)
    (i : idle_map) : idle_map :=
  match i with
  | [] => [(key, f [])]
  | (k, q) :: r => if decide (key = k) then (k, f q) :: r else (k, q) :: idle_update key f r
  end.

(** ** acquire *)
Definition expired (ttl now : Z) (c : PooledConnection) : bool :=
  negb (ttl =? 0)%Z && (ttl * 1000000 <? now - pc_last_used c)%Z.

(** The loop [while queue: conn = queue.pop()], on the queue newest first: the client found,
    the clients dropped on the way, and what stays *)
Fixpoint take_live (alive : nat -> bool) (ttl now : Z) (queue : list PooledConnection)
    : option nat * list nat * list PooledConnection :=
  match queue with
  | [] => (None, [], [])
  | conn :: rest =>
      if negb (alive (pc_client conn)) || expired ttl now conn then
        let '(found, closed, kept) := take_live alive ttl now rest in
        (found, pc_client conn :: closed, kept)
      else (Some (pc_client conn), [], rest)
  end.

Definition acquire (alive : nat -> bool) (now : Z) (key : PoolKey) (p : ConnectionPool)
    : option nat * list nat * ConnectionPool :=
  if negb (enabled p) then (None, [], count_miss p)
  else
    match idle_get key (_idle p) with
    | None | Some [] => (None, [], count_miss p)
    | Some queue =>
        let '(found, closed, kept) := take_live alive (_ttl_seconds p) now (rev queue) in
        let p' := with_idle (idle_update key (fun _ => rev kept) (_idle p)) p in
        (found, closed, match found with Some _ => count_hit p' | None => count_miss p' end)
    end.

(** ** release *)
(** The head with the earliest use, the first of equals *)
Fixpoint oldest_head (best : option (PoolKey * PooledConnection)) (i : idle_map)
    : option (PoolKey * PooledConnection) :=
  match i with
  | [] => best
  | (_, []) :: r => oldest_head best r
  | (key, candidate :: _) :: r =>
      let best' :=
        match best with
        | None => Some (key, candidate)
        | Some (_, conn) => if (pc_last_used candidate <? pc_last_used conn)%Z
                            then Some (key, candidate) else best
        end in
      oldest_head best' r
  end.
Definition _evict_lru_locked (p : ConnectionPool) : list nat * ConnectionPool :=
  match oldest_head None (_idle p) with
  | None => ([], p)
  | Some (key, conn) =>
      ([pc_client conn], count_eviction (with_idle (idle_update key (@tail _) (_idle p)) p))
  end.

Definition release (now : Z) (key : PoolKey) (client : nat) (p : ConnectionPool)
    : list nat * ConnectionPool :=
  if negb (enabled p) then ([client], p)
  else
    let p1 := with_idle (idle_update key (fun q => q) (_idle p)) p in
    let '(closed, p2) := if (_max_size p <=? Z.of_nat (idle_count p1))%Z
                         then _evict_lru_locked p1 else ([], p1) in
    (closed, with_idle (idle_update key (fun q => q ++ [mkPooled client now]) (_idle p2)) p2).

(** ** evict_stale and close_all *)
(** [while queue: oldest = queue[0]; ...]: unlike [acquire], a dead transport stays *)
Fixpoint drop_stale (ttl now : Z) (queue : list PooledConnection)
    : list nat * list PooledConnection :=
  match queue with
  | [] => ([], [])
  | oldest :: rest =>
      if (ttl * 1000000 <? now - pc_last_used oldest)%Z
      then let '(closed, kept) := drop_stale ttl now rest in (pc_client oldest :: closed, kept)
      else ([], queue)
  end.
Fixpoint stale_keys (ttl now : Z) (i : idle_map) : list nat * idle_map :=
  match i with
  | [] => ([], [])
  | (key, queue) :: r =>
      let '(closed, kept) := drop_stale ttl now queue in
      let '(closed', r') := stale_keys ttl now r in
      (closed ++ closed', match kept with [] => r' | _ => (key, kept) :: r' end)
  end.
(** The count returned is the length of the list of the closed. *)
Definition evict_stale (now : Z) (p : ConnectionPool) : list nat * ConnectionPool :=
  if negb (enabled p) || (_ttl_seconds p <=? 0)%Z then ([], p)
  else let '(closed, i) := stale_keys (_ttl_seconds p) now (_idle p) in (closed, with_idle i p).

Definition all_clients (i : idle_map) : list nat :=
  flat_map (fun kq => map pc_client (snd kq)) i.
Definition close_all (p : ConnectionPool) : list nat * ConnectionPool :=
  (all_clients (_idle p), with_idle [] p).

(** ** Facts about the pool of idle transports

    The pool is read as the list of its entries, a key with a parked connection; each operation
    moves entries between the pool, its caller and the closed clients. *)
Definition entries (i : idle_map) : list (PoolKey * PooledConnection) :=
  flat_map (fun kq => map (pair (fst kq)) (snd kq)) i.
Definition entry_client (e : PoolKey * PooledConnection) : nat := pc_client (snd e).
Definition entry_time (e : PoolKey * PooledConnection) : Z := pc_last_used (snd e).
(** The deque of a key *)
Definition queue_of (key : PoolKey) (i : idle_map) : list PooledConnection :=
  default [] (idle_get key i).

(** A well-formed pool at time [now]: one deque per key, each in the order of use, within the
    size *)
Definition queue_sorted (q : list PooledConnection) : Prop :=
  StronglySorted (fun a b => (pc_last_used a <= pc_last_used b)%Z) q.
Record pool_ok (now : Z) (p : ConnectionPool) : Prop := {
  po_keys : NoDup (map fst (_idle p));
  po_sorted : Forall (fun kq => queue_sorted (snd kq)) (_idle p);
  po_past : Forall (fun e => (entry_time e <= now)%Z) (entries (_idle p));
  po_size : (Z.of_nat (idle_count p) <= _max_size p)%Z }.

Lemma all_clients_entries i : all_clients i = map entry_client (entries i).
Proof.
  induction i as [|[k q] r IH]; simpl; [done |].
  rewrite map_app, IH, map_map. done.
Qed.
Lemma idle_count_entries p : idle_count p = length (entries (_idle p)).
Proof.
  unfold idle_count. induction (_idle p) as [|[k q] r IH]; simpl; [done |].
  by rewrite length_app, length_map, IH.
Qed.

(** An update of a deque touches the entries of its key only. *)
Lemma entries_update key i : exists rest,
  entries i ≡ₚ map (pair key) (queue_of key i) ++ rest /\
  forall f, entries (idle_update key f i) ≡ₚ map (pair key) (f (queue_of key i)) ++ rest.
Proof.
  unfold queue_of. induction i as [|[k q] r (rest & Hr & Hu)]; simpl.
  - exists []. split; [done |]. intros f. by rewrite app_nil_r.
  - destruct (decide (key = k)) as [<- | Hne]; simpl.
    + by exists (entries r).
    + exists (map (pair k) q ++ rest). split; [| intros f; specialize (Hu f)].
      * rewrite Hr. solve_Permutation.
      * rewrite Hu. solve_Permutation.
Qed.

Lemma queue_of_In key i : idle_get key i <> None -> In (key, queue_of key i) i.
Proof.
  unfold queue_of. induction i as [|[k q] r IH]; simpl; [done |].
  destruct (decide (key = k)) as [<- | Hne]; simpl; auto.
Qed.
Lemma keys_update key f i : map fst (idle_update key f i) =
  if decide (key ∈ map fst i) then map fst i else map fst i ++ [key].
Proof.
  induction i as [|[k q] r IH]; simpl.
  { by destruct (decide (key ∈ [])) as [H%not_elem_of_nil |]. }
  destruct (decide (key = k)) as [<- | Hne]; simpl.
  - rewrite decide_True by left. done.
  - rewrite IH. destruct (decide (key ∈ map fst r)) as [H | H].
    + by rewrite decide_True by (by right).
    + rewrite decide_False; [done |]. by intros [? | ?]%elem_of_cons.
Qed.
Lemma keys_update_NoDup key f i : NoDup (map fst i) -> NoDup (map fst (idle_update key f i)).
Proof.
  intros Hi. rewrite keys_update. case_decide as H; [done |].
  apply NoDup_app. split; [done |]. split; [| apply NoDup_singleton].
  by intros x Hx ->%list_elem_of_singleton.
Qed.
Lemma Forall_update {P : list PooledConnection -> Prop} key f i :
  Forall (fun kq => P (snd kq)) i -> (P (queue_of key i) -> P (f (queue_of key i))) ->
  (idle_get key i = None -> P (f [])) -> Forall (fun kq => P (snd kq)) (idle_update key f i).
Proof.
  unfold queue_of. induction 1 as [|[k q] r Hq Hr IH]; simpl; intros Hf Hn.
  { repeat constructor. by apply Hn. }
  destruct (decide (key = k)) as [<- | Hne]; simpl in *; constructor; simpl; auto.
Qed.

(** ** acquire *)
Lemma take_live_spec alive ttl now q found closed kept :
  take_live alive ttl now q = (found, closed, kept) ->
  exists dropped, q = dropped ++ kept /\
    map pc_client dropped = closed ++ match found with Some c => [c] | None => [] end /\
    (found = None -> kept = []) /\
    forall c, found = Some c -> alive c = true /\
      exists conn, In conn dropped /\ pc_client conn = c /\ expired ttl now conn = false.
Proof.
  revert found closed kept. induction q as [|conn r IH]; simpl; intros found closed kept.
  { intros [= <- <- <-]. by exists []. }
  destruct (negb (alive (pc_client conn)) || expired ttl now conn) eqn:E.
  - destruct (take_live alive ttl now r) as [[f cl] l].
    intros [= <- <- <-]. destruct (IH _ _ _ eq_refl) as (d & -> & Hd & Hn & Hf).
    exists (conn :: d). simpl. rewrite Hd. split; [done |]. split; [done |]. split; [done |].
    intros c Hc. destruct (Hf c Hc) as (? & x & Hx & ?). split; [done |]. exists x. auto.
  - intros [= <- <- <-]. apply orb_false_iff in E as [E%negb_false_iff E'].
    exists [conn]. split; [done |]. split; [done |]. split; [done |].
    intros c [= <-]. split; [done |]. exists conn. simpl; auto.
Qed.

(** What [acquire] hands out or closes was parked under the key it was asked for. *)
Lemma acquire_spec alive now key p found closed p' :
  acquire alive now key p = (found, closed, p') ->
  exists dropped,
    entries (_idle p) ≡ₚ map (pair key) dropped ++ entries (_idle p') /\
    map pc_client dropped = closed ++ match found with Some c => [c] | None => [] end /\
    (forall c, found = Some c -> alive c = true /\ exists conn, In conn dropped /\
       pc_client conn = c /\ expired (_ttl_seconds p) now conn = false).
Proof.
  assert (Hnone : exists dropped, entries (_idle p) ≡ₚ map (pair key) dropped ++ entries (_idle p)
    /\ map pc_client dropped = @nil nat ++ [] /\ (forall c, None = Some c -> alive c = true /\
       exists conn, In conn dropped /\ pc_client conn = c /\
         expired (_ttl_seconds p) now conn = false)) by (by exists []).
  unfold acquire. destruct (enabled p); simpl; [| by intros [= <- <- <-]].
  destruct (idle_get key (_idle p)) as [[|c0 q0]|] eqn:G; [by intros [= <- <- <-] | |
    by intros [= <- <- <-]].
  set (q := c0 :: q0). destruct (take_live _ _ _ (rev q)) as [[f cl] l] eqn:T.
  intros [= <- <- <-]. apply take_live_spec in T as (d & Hq & Hd & _ & Hf).
  exists d. split; [| split; [done | by intros c Hc; apply Hf]].
  destruct (entries_update key (_idle p)) as (rest & He & Hu). specialize (Hu (fun _ => rev l)).
  assert (Hi : _idle (match f with Some _ => count_hit (with_idle (idle_update key (fun _ => rev l) (_idle p)) p)
    | None => count_miss (with_idle (idle_update key (fun _ => rev l) (_idle p)) p) end)
    = idle_update key (fun _ => rev l) (_idle p)) by (by destruct f).
  rewrite Hi, Hu, He. unfold queue_of. rewrite G. simpl default. fold q.
  assert (Hperm : q ≡ₚ d ++ rev l).
  { rewrite <- (rev_involutive q), Hq, rev_app_distr, <- (Permutation_rev d).
    apply Permutation_app_comm. }
  by rewrite app_assoc, <- map_app, Hperm.
Qed.

(** ** release *)
Lemma oldest_head_spec i : NoDup (map fst i) -> forall best,
  match oldest_head best i with
  | None => best = None /\ entries i = []
  | Some (k, c) =>
      (best = Some (k, c) \/ exists q, idle_get k i = Some (c :: q)) /\
      (forall b, best = Some b -> (pc_last_used c <= pc_last_used (snd b))%Z) /\
      forall k' c' q', In (k', c' :: q') i -> (pc_last_used c <= pc_last_used c')%Z
  end.
Proof.
  induction i as [|[k0 q0] r IH]; simpl; intros Hn best.
  { destruct best as [[k c]|]; [| done]. split; [by left |]. split; [| done].
    by intros b [= <-]. }
  apply NoDup_cons in Hn as [Hk0 Hr]. specialize (IH Hr).
  assert (Hlift : forall k c q, idle_get k r = Some (c :: q) ->
    exists q', (if decide (k = k0) then Some q0 else idle_get k r) = Some (c :: q')).
  { intros k c q Hg. rewrite decide_False; [eauto |]. intros ->. apply Hk0.
    apply list_elem_of_In, in_map_iff. exists (k0, queue_of k0 r). split; [done |].
    apply queue_of_In. congruence. }
  destruct q0 as [|c0 q0].
  - specialize (IH best). destruct (oldest_head best r) as [[k c]|]; [| done].
    destruct IH as ([-> | (q & Hg)] & Hb & Ho).
    + split; [by left |]. split; [done |]. intros k' c' q' [[=] | Hin]; eauto.
    + split; [right; eauto |]. split; [done |]. intros k' c' q' [[=] | Hin]; eauto.
  - set (best' := match best with None => _ | Some _ => _ end). specialize (IH best').
    assert (Hb' : exists b, best' = Some b /\ (b = (k0, c0) \/ best = Some b) /\
      (pc_last_used (snd b) <= pc_last_used c0)%Z /\
      forall b0, best = Some b0 -> (pc_last_used (snd b) <= pc_last_used (snd b0))%Z).
    { subst best'. destruct best as [[k c]|].
      - destruct (Z.ltb_spec (pc_last_used c0) (pc_last_used c)); eexists; (split; [done |]);
          simpl; (split; [auto |]); (split; [lia |]); intros b0 [= <-]; simpl; lia.
      - eexists. split; [done |]. simpl. split; [auto |]. split; [lia | done]. }
    destruct Hb' as (b & Eb & Hor & Hc0 & Hmin). rewrite Eb in IH |- *. clearbody best'. clear best' Eb.
    destruct (oldest_head (Some b) r) as [[k c]|]; [| by destruct IH].
    destruct IH as (Hw & Hb & Ho). specialize (Hb b eq_refl).
    split.
    { destruct Hw as [[= ->] | (q & Hg)]; [| right; eauto].
      destruct Hor as [[= -> ->] | ->]; [right; rewrite decide_True by done; eauto | by left]. }
    split; [intros b0 E; specialize (Hmin b0 E); lia |].
    intros k' c' q' [[= -> -> ->] | Hin]; [lia | eauto].
Qed.

Lemma sorted_head c q : queue_sorted (c :: q) ->
  forall c', In c' (c :: q) -> (pc_last_used c <= pc_last_used c')%Z.
Proof.
  intros Hs%StronglySorted_inv c' [<- | Hin]; [lia |].
  destruct Hs as [_ Hs]. rewrite List.Forall_forall in Hs. by apply Hs.
Qed.
Lemma In_entries k c i : In (k, c) (entries i) <-> exists q, In (k, q) i /\ In c q.
Proof.
  unfold entries. rewrite in_flat_map. split.
  - intros ([k' q] & Hin & (c' & [= -> ->] & Hc)%in_map_iff). eauto.
  - intros (q & Hin & Hc). exists (k, q). split; [done |]. by apply in_map.
Qed.

(** The eviction closes one entry, the least recently used of all. *)
Lemma evict_lru_spec now p closed p' : pool_ok now p -> _evict_lru_locked p = (closed, p') ->
  (entries (_idle p) = [] /\ closed = [] /\ p' = p) \/
  exists e, closed = [entry_client e] /\ entries (_idle p) ≡ₚ e :: entries (_idle p') /\
    p' = count_eviction (with_idle (idle_update (fst e) (@tail _) (_idle p)) p) /\
    forall e', In e' (entries (_idle p)) -> (entry_time e <= entry_time e')%Z.
Proof.
  intros Hok. unfold _evict_lru_locked.
  pose proof (oldest_head_spec (_idle p) (po_keys _ _ Hok) None) as Ho.
  destruct (oldest_head None (_idle p)) as [[k c]|].
  - intros [= <- <-]. right. exists (k, c). split; [done |].
    destruct Ho as ([[=] | (q & Hg)] & _ & Ho).
    destruct (entries_update k (_idle p)) as (rest & He & Hu). unfold queue_of in He, Hu.
    rewrite Hg in He, Hu. simpl in He, Hu. split; [by rewrite He; simpl; rewrite Hu |].
    split; [done |]. intros [k' c'] Hin. apply In_entries in Hin as (q' & Hin & Hc').
    destruct q' as [|c1 q']; [done |]. specialize (Ho _ _ _ Hin).
    pose proof (po_sorted _ _ Hok) as Hs. rewrite List.Forall_forall in Hs.
    pose proof (sorted_head _ _ (Hs _ Hin) c' Hc'). unfold entry_time. simpl in *. lia.
  - destruct Ho as [_ Ho]. intros [= <- <-]. by left.
Qed.

Lemma release_closes now key client p : pool_ok now p -> enabled p = true ->
  exists closed, release now key client p = (map entry_client closed, snd (release now key client p)) /\
    entries (_idle p) ++ [(key, mkPooled client now)] ≡ₚ
      closed ++ entries (_idle (snd (release now key client p))) /\
    (closed = [] \/ exists e, closed = [e] /\ Z.of_nat (idle_count p) = _max_size p /\
       forall e', In e' (entries (_idle p)) -> (entry_time e <= entry_time e')%Z).
Proof.
  intros Hok He. unfold release. rewrite He. simpl.
  set (p1 := with_idle (idle_update key (fun q => q) (_idle p)) p).
  assert (E1 : entries (_idle p1) ≡ₚ entries (_idle p)).
  { destruct (entries_update key (_idle p)) as (rest & Ha & Hu). simpl. by rewrite Hu, Ha. }
  assert (Hc : idle_count p1 = idle_count p) by (rewrite !idle_count_entries; by rewrite E1).
  assert (Hok1 : pool_ok now p1).
  { destruct Hok as [H1 H2 H3 H4]. split; simpl.
    - by apply keys_update_NoDup.
    - apply (Forall_update (P := queue_sorted)); [done | auto | constructor].
    - change (Forall (fun e => (entry_time e <= now)%Z) (entries (_idle p1))). by rewrite E1.
    - rewrite Hc. done. }
  clearbody p1.
  assert (Happ : forall q, entries (idle_update key (fun q => q ++ [mkPooled client now]) q) ≡ₚ
    entries q ++ [(key, mkPooled client now)]).
  { intros q. destruct (entries_update key q) as (rest & Ha & Hu).
    rewrite Hu, Ha, map_app, <- !app_assoc. f_equiv. apply Permutation_app_comm. }
  destruct (Z.leb_spec (_max_size p) (Z.of_nat (idle_count p1))) as [Hfull | Hroom].
  - destruct (_evict_lru_locked p1) as [cl p2] eqn:Ev. simpl.
    destruct (evict_lru_spec _ _ _ _ Hok1 Ev) as [(En & -> & ->) | (e & -> & Hp & _ & Hmin)].
    + exists []. split; [done |]. rewrite Happ, E1. split; [done | by left].
    + exists [e]. split; [done |]. rewrite Happ. simpl. split.
      { rewrite <- E1, Hp. done. }
      right. exists e. split; [done |]. split; [pose proof (po_size _ _ Hok); lia |].
      intros e' Hin. apply Hmin. by rewrite E1.
  - exists []. simpl. split; [done |]. rewrite Happ, E1. split; [done | by left].
Qed.

(** ** Well-formedness is kept *)
Lemma pool_ok_later now now' p : (now <= now')%Z -> pool_ok now p -> pool_ok now' p.
Proof.
  intros Hle [H1 H2 H3 H4]. split; try done.
  eapply Forall_impl; [exact H3 |]. simpl. intros; lia.
Qed.
Lemma new_pool_ok now max_size ttl : pool_ok now (new_pool max_size ttl).
Proof. split; simpl; [constructor | constructor | constructor | unfold idle_count; simpl; lia]. Qed.

Lemma sorted_app q1 q2 : queue_sorted (q1 ++ q2) -> queue_sorted q1 /\ queue_sorted q2.
Proof.
  unfold queue_sorted. induction q1 as [|a q1 IH]; simpl; intros H; [split; [constructor | done] |].
  apply StronglySorted_inv in H as [Hs Hf]. apply Forall_app in Hf as [Hf _].
  destruct (IH Hs). split; [by constructor | done].
Qed.
Lemma sorted_snoc q c : queue_sorted q -> Forall (fun a => (pc_last_used a <= pc_last_used c)%Z) q ->
  queue_sorted (q ++ [c]).
Proof.
  unfold queue_sorted. induction q as [|a q IH]; simpl; intros Hs Hf; [repeat constructor |].
  apply StronglySorted_inv in Hs as [Hs Ha]. apply Forall_cons in Hf as [Hac Hf].
  constructor; [by apply IH |]. apply Forall_app. by repeat constructor.
Qed.

(** One deque replaced by a sorted one, of entries of the past, within the size *)
Lemma pool_ok_update now p p' key f : pool_ok now p -> _max_size p' = _max_size p ->
  _idle p' = idle_update key f (_idle p) ->
  queue_sorted (f (queue_of key (_idle p))) ->
  Forall (fun c => (pc_last_used c <= now)%Z) (f (queue_of key (_idle p))) ->
  (Z.of_nat (idle_count p') <= _max_size p)%Z -> pool_ok now p'.
Proof.
  intros [H1 H2 H3 H4] Hm Hi Hs Hf Hc. split.
  - rewrite Hi. by apply keys_update_NoDup.
  - rewrite Hi. apply (Forall_update (P := queue_sorted)); [done | done |].
    intros Hg. unfold queue_of in Hs. by rewrite Hg in Hs.
  - destruct (entries_update key (_idle p)) as (rest & He & Hu). rewrite He in H3.
    apply Forall_app in H3 as [_ Hr]. rewrite Hi, Hu. apply Forall_app. split; [| done].
    by apply Forall_map.
  - by rewrite Hm.
Qed.
Lemma queue_past now p key : pool_ok now p ->
  Forall (fun c => (pc_last_used c <= now)%Z) (queue_of key (_idle p)).
Proof.
  intros Hok. destruct (entries_update key (_idle p)) as (rest & He & _).
  pose proof (po_past _ _ Hok) as H. rewrite He in H. apply Forall_app in H as [H _].
  by rewrite Forall_map in H.
Qed.
Lemma queue_is_sorted now p key : pool_ok now p -> queue_sorted (queue_of key (_idle p)).
Proof.
  intros Hok. pose proof (po_sorted _ _ Hok) as H. unfold queue_of.
  destruct (idle_get key (_idle p)) as [q|] eqn:G; [| constructor].
  rewrite List.Forall_forall in H. specialize (H (key, q)). apply H.
  replace q with (queue_of key (_idle p)) by (unfold queue_of; by rewrite G).
  apply queue_of_In. congruence.
Qed.

Lemma acquire_ok alive now key p : pool_ok now p -> pool_ok now (snd (acquire alive now key p)).
Proof.
  intros Hok. pose proof (acquire_spec alive now key p) as Hspec.
  destruct (acquire alive now key p) as [[found closed] p'] eqn:A. simpl.
  destruct (Hspec _ _ _ eq_refl) as (d & Hp & _). clear Hspec.
  assert (Hc : (Z.of_nat (idle_count p') <= _max_size p)%Z).
  { pose proof (po_size _ _ Hok) as H. apply Permutation_length in Hp.
    rewrite length_app in Hp. rewrite !idle_count_entries in *. lia. }
  revert A. unfold acquire. destruct (enabled p); simpl; [| by intros [= <- <- <-]; destruct Hok; split].
  destruct (idle_get key (_idle p)) as [[|c0 q0]|] eqn:G;
    [by intros [= <- <- <-]; destruct Hok; split | | by intros [= <- <- <-]; destruct Hok; split].
  destruct (take_live _ _ _ (rev (c0 :: q0))) as [[f cl] l] eqn:T.
  apply take_live_spec in T as (d' & Hq & _). intros [= _ _ E].
  assert (Hq' : queue_of key (_idle p) = rev l ++ rev d').
  { unfold queue_of. rewrite G. simpl default.
    rewrite <- rev_app_distr, <- Hq, rev_involutive. done. }
  apply (pool_ok_update now p p' key (fun _ => rev l)); try done.
  - subst p'. by destruct f.
  - subst p'. by destruct f.
  - pose proof (queue_is_sorted _ _ key Hok) as Hs. rewrite Hq' in Hs. by apply sorted_app in Hs as [? _].
  - pose proof (queue_past _ _ key Hok) as Hs. rewrite Hq' in Hs. by apply Forall_app in Hs as [? _].
Qed.

Lemma evict_lru_ok now p : pool_ok now p -> pool_ok now (snd (_evict_lru_locked p)).
Proof.
  intros Hok. destruct (_evict_lru_locked p) as [cl p'] eqn:E. simpl.
  destruct (evict_lru_spec _ _ _ _ Hok E) as [(_ & _ & ->) | (e & _ & Hp & -> & _)]; [done |].
  apply (pool_ok_update now p _ (fst e) (@tail _)); try done.
  - pose proof (queue_is_sorted _ _ (fst e) Hok) as H. destruct (queue_of (fst e) (_idle p)); [done |].
    simpl. by apply StronglySorted_inv in H as [? _].
  - pose proof (queue_past _ _ (fst e) Hok) as H. destruct (queue_of (fst e) (_idle p)); [done |].
    by apply Forall_cons in H as [_ ?].
  - pose proof (po_size _ _ Hok) as H. apply Permutation_length in Hp.
    rewrite !idle_count_entries in *. simpl in Hp |- *. lia.
Qed.

(** A connection parked at the end of its deque *)
Lemma park_ok now key client p : pool_ok now p -> (Z.of_nat (idle_count p) < _max_size p)%Z ->
  pool_ok now (with_idle (idle_update key (fun q => q ++ [mkPooled client now]) (_idle p)) p).
Proof.
  intros Hok Hroom.
  apply (pool_ok_update now p _ key (fun q => q ++ [mkPooled client now])); try done.
  - apply sorted_snoc; [by apply (queue_is_sorted now) | by apply (queue_past now)].
  - apply Forall_app. split; [by apply (queue_past now) | repeat constructor; simpl; lia].
  - rewrite idle_count_entries. simpl.
    destruct (entries_update key (_idle p)) as (rest & He & Hu).
    specialize (Hu (fun q => q ++ [mkPooled client now])). apply Permutation_length in He, Hu.
    rewrite map_app in Hu. rewrite idle_count_entries in Hroom.
    rewrite !length_app in *. simpl in *. lia.
Qed.
Lemma touch_ok now key p : pool_ok now p ->
  pool_ok now (with_idle (idle_update key (fun q => q) (_idle p)) p).
Proof.
  intros Hok. apply (pool_ok_update now p _ key (fun q => q)); try done.
  - by apply (queue_is_sorted now).
  - by apply queue_past.
  - destruct (entries_update key (_idle p)) as (rest & He & Hu). specialize (Hu (fun q => q)).
    pose proof (po_size _ _ Hok) as H. rewrite idle_count_entries in H |- *. simpl.
    by rewrite Hu, <- He.
Qed.

Lemma touch_count key p :
  idle_count (with_idle (idle_update key (fun q => q) (_idle p)) p) = idle_count p.
Proof.
  destruct (entries_update key (_idle p)) as (rest & He & Hu). specialize (Hu (fun q => q)).
  rewrite !idle_count_entries. simpl. by rewrite Hu, <- He.
Qed.
Lemma evict_lru_room now p : pool_ok now p -> enabled p = true ->
  (Z.of_nat (idle_count (snd (_evict_lru_locked p))) < _max_size p)%Z.
Proof.
  intros Hok He. unfold enabled in He. apply Z.ltb_lt in He.
  destruct (_evict_lru_locked p) as [cl p'] eqn:E. simpl. rewrite idle_count_entries.
  destruct (evict_lru_spec _ _ _ _ Hok E) as [(Hn & _ & ->) | (e & _ & Hp & _)].
  - by rewrite Hn.
  - pose proof (po_size _ _ Hok) as H. rewrite idle_count_entries in H.
    apply Permutation_length in Hp. simpl in Hp. lia.
Qed.
Lemma evict_lru_max p : _max_size (snd (_evict_lru_locked p)) = _max_size p.
Proof. unfold _evict_lru_locked. by destruct (oldest_head None (_idle p)) as [[k c]|]. Qed.

Lemma release_ok now key client p : pool_ok now p -> pool_ok now (snd (release now key client p)).
Proof.
  intros Hok. unfold release. destruct (enabled p) eqn:He; simpl; [| done].
  set (p1 := with_idle (idle_update key (fun q => q) (_idle p)) p).
  assert (H1 : pool_ok now p1) by (by apply touch_ok).
  destruct (Z.leb_spec (_max_size p) (Z.of_nat (idle_count p1))) as [Hfull | Hroom].
  - pose proof (evict_lru_ok _ _ H1) as H2. pose proof (evict_lru_room _ p1 H1 He) as H3.
    pose proof (evict_lru_max p1) as Hm.
    destruct (_evict_lru_locked p1) as [cl p2]. simpl in *. apply park_ok; [done |].
    by rewrite Hm.
  - simpl. by apply (park_ok now key client p1).
Qed.

(** ** evict_stale and close_all *)
Lemma drop_stale_spec ttl now q closed kept : queue_sorted q -> drop_stale ttl now q = (closed, kept) ->
  exists dropped, q = dropped ++ kept /\ map pc_client dropped = closed /\
    Forall (fun c => (ttl * 1000000 < now - pc_last_used c)%Z) dropped /\
    Forall (fun c => (now - pc_last_used c <= ttl * 1000000)%Z) kept.
Proof.
  revert closed kept. induction q as [|c q IH]; simpl; intros closed kept Hs.
  { intros [= <- <-]. exists []. repeat constructor. }
  destruct (Z.ltb_spec (ttl * 1000000) (now - pc_last_used c)).
  - destruct (drop_stale ttl now q) as [cl l]. intros [= <- <-].
    apply StronglySorted_inv in Hs as [Hs _]. destruct (IH _ _ Hs eq_refl) as (d & -> & <- & Hd & Hk).
    exists (c :: d). repeat constructor; auto.
  - intros [= <- <-]. exists []. repeat constructor; [lia |].
    apply StronglySorted_inv in Hs as [_ Hs]. eapply Forall_impl; [exact Hs |]. simpl. lia.
Qed.
Lemma stale_keys_spec ttl now i : Forall (fun kq => queue_sorted (snd kq)) i ->
  let r := stale_keys ttl now i in
  Forall (fun kq => queue_sorted (snd kq)) (snd r) /\ map fst (snd r) `sublist_of` map fst i /\
  Forall (fun e => (now - entry_time e <= ttl * 1000000)%Z) (entries (snd r)) /\
  exists dropped, entries i ≡ₚ dropped ++ entries (snd r) /\ map entry_client dropped = fst r /\
    Forall (fun e => (ttl * 1000000 < now - entry_time e)%Z) dropped.
Proof.
  induction i as [|[k q] r IH]; simpl; intros Hs.
  { split; [done |]. split; [done |]. split; [done |]. by exists []. }
  apply Forall_cons in Hs as [Hq Hr]. destruct (IH Hr) as (I1 & I2 & I3 & d & I4 & I5 & I6).
  simpl in Hq. destruct (drop_stale ttl now q) as [cl l] eqn:D.
  destruct (drop_stale_spec _ _ _ _ _ Hq D) as (dq & -> & <- & Hd & Hk).
  destruct (stale_keys ttl now r) as [cl' r']. simpl in *.
  assert (He : entries match l with [] => r' | _ :: _ => (k, l) :: r' end = map (pair k) l ++ entries r')
    by (by destruct l).
  rewrite He. split; [| split; [| split]].
  - apply sorted_app in Hq as [_ Hq]. destruct l; [done |]. by constructor.
  - destruct l; [by apply sublist_cons | by apply sublist_skip].
  - apply Forall_app. split; [| done]. by apply Forall_map.
  - exists (map (pair k) dq ++ d). split; [| split].
    + rewrite map_app, I4. solve_Permutation.
    + rewrite map_app, I5, map_map. done.
    + apply Forall_app. split; [| done]. by apply Forall_map.
Qed.

Lemma evict_stale_spec now p : pool_ok now p -> let r := evict_stale now p in
  pool_ok now (snd r) /\ _max_size (snd r) = _max_size p /\
  exists dropped, entries (_idle p) ≡ₚ dropped ++ entries (_idle (snd r)) /\
    map entry_client dropped = fst r /\
    (enabled p = true -> (0 < _ttl_seconds p)%Z ->
     Forall (fun e => (now - entry_time e <= _ttl_seconds p * 1000000)%Z) (entries (_idle (snd r)))).
Proof.
  intros Hok. unfold evict_stale.
  destruct (negb (enabled p) || (_ttl_seconds p <=? 0)%Z) eqn:E; simpl.
  { split; [done |]. split; [done |]. exists []. split; [done |]. split; [done |].
    intros He Ht. rewrite He in E. simpl in E. apply Z.leb_le in E. lia. }
  destruct (stale_keys_spec (_ttl_seconds p) now (_idle p) (po_sorted _ _ Hok))
    as (I1 & I2 & I3 & d & I4 & I5 & _).
  destruct (stale_keys (_ttl_seconds p) now (_idle p)) as [cl i']. simpl in *.
  split; [| split; [done |]; exists d; auto].
  destruct Hok as [H1 H2 H3 H4]. split; simpl.
  - by eapply sublist_NoDup.
  - done.
  - rewrite I4 in H3. by apply Forall_app in H3 as [_ ?].
  - rewrite idle_count_entries in *. apply Permutation_length in I4.
    rewrite length_app in I4. simpl in *. lia.
Qed.

Lemma acquire_max alive now key p : _max_size (snd (acquire alive now key p)) = _max_size p.
Proof.
  unfold acquire. destruct (enabled p); simpl; [| done].
  destruct (idle_get key (_idle p)) as [[|c q]|]; [done | | done].
  destruct (take_live _ _ _ _) as [[f cl] l]. by destruct f.
Qed.
Lemma release_max now key client p : _max_size (snd (release now key client p)) = _max_size p.
Proof.
  unfold release. destruct (enabled p); simpl; [| done].
  set (p1 := with_idle _ _). pose proof (evict_lru_max p1) as Hm.
  destruct (_max_size p <=? _)%Z; simpl; [| done].
  destruct (_evict_lru_locked p1). simpl in *. done.
Qed.

(** ** Conservation, whatever the clock does *)
Lemma evict_lru_entries p cl p' : NoDup (map fst (_idle p)) -> _evict_lru_locked p = (cl, p') ->
  NoDup (map fst (_idle p')) /\
  exists d, entries (_idle p) ≡ₚ d ++ entries (_idle p') /\ cl = map entry_client d.
Proof.
  intros Hk. unfold _evict_lru_locked. pose proof (oldest_head_spec (_idle p) Hk None) as Ho.
  destruct (oldest_head None (_idle p)) as [[k c]|].
  - intros [= <- <-]. destruct Ho as ([[=] | (q & Hg)] & _). split; [by apply keys_update_NoDup |].
    destruct (entries_update k (_idle p)) as (rest & He & Hu). unfold queue_of in He, Hu.
    rewrite Hg in He, Hu. exists [(k, c)]. simpl in *. split; [by rewrite He, Hu | done].
  - intros [= <- <-]. split; [done |]. by exists [].
Qed.
Lemma release_entries now key client p : NoDup (map fst (_idle p)) ->
  let r := release now key client p in
  NoDup (map fst (_idle (snd r))) /\
  exists d, (key, mkPooled client now) :: entries (_idle p) ≡ₚ d ++ entries (_idle (snd r)) /\
    fst r = map entry_client d.
Proof.
  intros Hk. unfold release. destruct (enabled p); simpl.
  2: { split; [done |]. by exists [(key, mkPooled client now)]. }
  set (p1 := with_idle (idle_update key (fun q => q) (_idle p)) p).
  assert (H1 : NoDup (map fst (_idle p1))) by (by apply keys_update_NoDup).
  assert (E1 : entries (_idle p1) ≡ₚ entries (_idle p)).
  { destruct (entries_update key (_idle p)) as (rest & Ha & Hu). simpl. by rewrite Hu, Ha. }
  clearbody p1.
  assert (Happ : forall i, entries (idle_update key (fun q => q ++ [mkPooled client now]) i) ≡ₚ
    (key, mkPooled client now) :: entries i).
  { intros i. destruct (entries_update key i) as (rest & Ha & Hu). rewrite Hu, Ha, map_app.
    rewrite <- app_assoc. simpl. by rewrite <- Permutation_middle. }
  destruct (_max_size p <=? _)%Z.
  - destruct (_evict_lru_locked p1) as [cl p2] eqn:Ev. simpl.
    destruct (evict_lru_entries _ _ _ H1 Ev) as (H2 & d & Hd & ->).
    split; [by apply keys_update_NoDup |]. exists d. rewrite Happ, <- E1, Hd.
    split; [apply Permutation_middle | done].
  - simpl. split; [by apply keys_update_NoDup |]. exists []. by rewrite Happ, E1.
Qed.
Lemma acquire_keys alive now key p : NoDup (map fst (_idle p)) ->
  NoDup (map fst (_idle (snd (acquire alive now key p)))).
Proof.
  unfold acquire. destruct (enabled p); simpl; [| done].
  destruct (idle_get key (_idle p)) as [[|c q]|]; [done | | done]. intros Hk.
  destruct (take_live _ _ _ _) as [[f cl] l]. destruct f; simpl; by apply keys_update_NoDup.
Qed.
