(* ===== verification/Sessions.v ===== *)
(** * SSH sessions (app/ssh_manager.py)

    The session manager with its pool of idle transports ([SshPool]), its circuit breakers
    ([CircuitBreaker]) and the pinned destination of each connection ([TargetHost]).

    The manager's lock, the pool's and the breakers' are never held across an await, so taking
    one never suspends: [create_session] suspends once, while the executor dials, and every
    other method is one step.  [begin_create] is [create_session] up to the dial, [end_create]
    the rest; what the dial did is an argument.  Records are shared between the table and the
    operations that hold a lease on them, so they live in a heap; clients are numbers. *)
From stdpp Require Import gmap.
From S2P Require Import Prelude PyStr Digests TargetHost SshPool CircuitBreaker.
From stdpp Require Import options.

(** ** Errors *)
Inductive ssh_error : Type :=
| SshConnectionError (msg : string)
| AuthenticationError (msg : string)
| SessionNotFoundError (session_id : string)
| SshTimeoutError (msg : string)
| ExecutionError (msg : string)
| SessionLimitError (source_ip : string) (limit : Z)
| Uncaught (e : exn)              (* an exception of another class *)
| Interrupted.                    (* CancelledError, or whatever else the dial raised *)

(** ** Credentials *)
Definition nul : ascii := "000"%char.
Definition credential_material (auth_method : string) (password private_key key_passphrase : option string)
    : string :=
  if String.eqb auth_method "password" then "pw:" +s+ default "" password
  else "key:" +s+ default "" private_key +s+ sc nul +s+ default "" key_passphrase.
Definition _credential_fingerprint (auth_method : string)
    (password private_key key_passphrase : option string) : string :=
  hexdigest (credential_material auth_method password private_key key_passphrase).

(** ** Session records *)
Record SessionRecord : Type := mkSession {
  s_session_id : string; s_client : nat; s_host : string; s_port : Z; s_username : string;
  s_connected_at : Z; s_last_activity : Z; s_owner_type : string; s_owner_name : option string;
  s_owner_token_fingerprint : option string; s_source_ip : option string; s_auth_method : string;
  s_credential_fingerprint : string; s_destination_ip : option string;
  s_tenant_labels : list string; s_effective_idle_timeout : Z; s_ephemeral : bool;
  s_active_operations : Z }.
Definition with_activity (t operations : Z) (s : SessionRecord) : SessionRecord :=
  mkSession (s_session_id s) (s_client s) (s_host s) (s_port s) (s_username s) (s_connected_at s)
    t (s_owner_type s) (s_owner_name s) (s_owner_token_fingerprint s) (s_source_ip s)
    (s_auth_method s) (s_credential_fingerprint s) (s_destination_ip s) (s_tenant_labels s)
    (s_effective_idle_timeout s) (s_ephemeral s) operations.
Definition touch (t : Z) (s : SessionRecord) : SessionRecord := with_activity t (s_active_operations s) s.
Definition session_key (s : SessionRecord) : PoolKey :=
  mkKey (s_host s) (s_port s) (s_username s) (s_auth_method s) (s_credential_fingerprint s)
    (s_destination_ip s).

(** ** The manager *)
Record Settings : Type := mkSettings {
  max_sessions_per_ip : Z; master_max_sessions_per_ip : Z; api_auth_enabled : bool;
  ssh_strict_host_key_checking : bool }.

(** [_sessions] maps an identifier to an address of [sm_heap]; [sm_clients] counts the clients
    made; [sm_closed] lists the clients closed, in order. *)
Record SSHSessionManager : Type := mkSshManager {
  _sessions : dict nat; sm_heap : list SessionRecord;
  _pending_sessions_by_ip : dict Z; _session_timeout : Z;
  _pool : option ConnectionPool; _circuit_breakers : option BreakerRegistry;
  _host_key_store : bool;      (* a store other than the null store *)
  sm_clients : nat; sm_closed : list nat }.

Definition new_manager (session_timeout pool_size pool_ttl : Z) (breakers : option BreakerRegistry)
    (host_key_store : bool) : SSHSessionManager :=
  mkSshManager [] [] [] session_timeout
    (if (0 <? pool_size)%Z then Some (new_pool pool_size pool_ttl) else None)
    breakers host_key_store 0 [].

Definition set_sessions (d : dict nat) (m : SSHSessionManager) : SSHSessionManager :=
  mkSshManager d (sm_heap m) (_pending_sessions_by_ip m) (_session_timeout m) (_pool m)
    (_circuit_breakers m) (_host_key_store m) (sm_clients m) (sm_closed m).
Definition set_heap (h : list SessionRecord) (m : SSHSessionManager) : SSHSessionManager :=
  mkSshManager (_sessions m) h (_pending_sessions_by_ip m) (_session_timeout m) (_pool m)
    (_circuit_breakers m) (_host_key_store m) (sm_clients m) (sm_closed m).
Definition set_pending (d : dict Z) (m : SSHSessionManager) : SSHSessionManager :=
  mkSshManager (_sessions m) (sm_heap m) d (_session_timeout m) (_pool m)
    (_circuit_breakers m) (_host_key_store m) (sm_clients m) (sm_closed m).
Definition set_pool (p : option ConnectionPool) (m : SSHSessionManager) : SSHSessionManager :=
  mkSshManager (_sessions m) (sm_heap m) (_pending_sessions_by_ip m) (_session_timeout m) p
    (_circuit_breakers m) (_host_key_store m) (sm_clients m) (sm_closed m).
Definition set_breakers (b : option BreakerRegistry) (m : SSHSessionManager) : SSHSessionManager :=
  mkSshManager (_sessions m) (sm_heap m) (_pending_sessions_by_ip m) (_session_timeout m) (_pool m)
    b (_host_key_store m) (sm_clients m) (sm_closed m).
Definition close_clients (cs : list nat) (m : SSHSessionManager) : SSHSessionManager :=
  mkSshManager (_sessions m) (sm_heap m) (_pending_sessions_by_ip m) (_session_timeout m) (_pool m)
    (_circuit_breakers m) (_host_key_store m) (sm_clients m) (sm_closed m ++ cs).
(** [paramiko.SSHClient()] *)
Definition new_client (m : SSHSessionManager) : nat * SSHSessionManager :=
  (sm_clients m,
   mkSshManager (_sessions m) (sm_heap m) (_pending_sessions_by_ip m) (_session_timeout m) (_pool m)
     (_circuit_breakers m) (_host_key_store m) (S (sm_clients m)) (sm_closed m)).
Definition set_timeout (t : Z) (m : SSHSessionManager) : SSHSessionManager :=
  mkSshManager (_sessions m) (sm_heap m) (_pending_sessions_by_ip m) t (_pool m)
    (_circuit_breakers m) (_host_key_store m) (sm_clients m) (sm_closed m).

(** [PATCH /api/config/session/timeout]: the previous timeout, or 422 *)
Definition update_session_timeout (t : Z) (m : SSHSessionManager) : option Z * SSHSessionManager :=
  if (60 <=? t)%Z && (t <=? 86400)%Z then (Some (_session_timeout m), set_timeout t m) else (None, m).

Definition record_at (m : SSHSessionManager) (addr : nat) : option SessionRecord := sm_heap m !! addr.
(** A record changed in place, by whoever holds it *)
Definition update_record (addr : nat) (f : SessionRecord -> SessionRecord) (m : SSHSessionManager)
    : SSHSessionManager := set_heap (alter f addr (sm_heap m)) m.

Inductive HostKeyPolicy : Type := KnownHostsPolicy (port : Z) | RejectPolicy | AutoAddPolicy.
Definition _get_host_key_policy (cfg : Settings) (port : Z) (m : SSHSessionManager) : HostKeyPolicy :=
  if _host_key_store m then KnownHostsPolicy port
  else if ssh_strict_host_key_checking cfg then RejectPolicy else AutoAddPolicy.

(** ** Reaping idle sessions *)
Definition idle_limit (m : SSHSessionManager) (s : SessionRecord) : Z :=
  Z.min (if (s_effective_idle_timeout s =? 0)%Z then _session_timeout m else s_effective_idle_timeout s)
    (_session_timeout m).
Definition is_stale (t : Z) (m : SSHSessionManager) (s : SessionRecord) : bool :=
  (s_active_operations s =? 0)%Z && (idle_limit m s * 1000000 <? t - s_last_activity s)%Z.
(** The loop over [list(self._sessions.items())]: the clients of the records removed, and the
    table that stays *)
Fixpoint reap (stale : SessionRecord -> bool) (h : list SessionRecord) (d : dict nat)
    : list nat * dict nat :=
  match d with
  | [] => ([], [])
  | (sid, addr) :: r =>
      let '(reaped, kept) := reap stale h r in
      match h !! addr with
      | Some s => if stale s then (s_client s :: reaped, kept) else (reaped, (sid, addr) :: kept)
      | None => (reaped, (sid, addr) :: kept)
      end
  end.
(** Returns the number closed, the length of the list. *)
Definition cleanup_stale_sessions (t : Z) (m : SSHSessionManager) : nat * SSHSessionManager :=
  let '(reaped, kept) := reap (is_stale t m) (sm_heap m) (_sessions m) in
  (length reaped, close_clients reaped (set_sessions kept m)).

(** ** Requests *)
Record ConnectRequest : Type := mkConnect {
  c_host : string; c_port : Z; c_username : string; c_password : option string;
  c_private_key : option string; c_key_passphrase : option string; c_owner_type : string;
  c_owner_name : option string; c_owner_token_fingerprint : option string;
  c_source_ip : option string; c_tenant_labels : list string; c_session_id : option string;
  c_pinned_ip : option string; c_ephemeral : bool; c_idle_timeout_seconds : option Z;
  c_privileged_capacity : bool }.

(** An optional text that is neither [None] nor empty *)
Definition truthy (x : option string) : option string :=
  match x with Some s => if String.eqb s "" then None else Some s | None => None end.

Definition from_ip (ip : string) (s : SessionRecord) : bool := bool_decide (s_source_ip s = Some ip).
Definition sessions_from (ip : string) (m : SSHSessionManager) : nat :=
  length (List.filter (fun kv => match record_at m (snd kv) with
                                 | Some s => from_ip ip s | None => false end) (_sessions m)).
Definition pending_from (ip : string) (m : SSHSessionManager) : Z :=
  default 0%Z (dict_get ip (_pending_sessions_by_ip m)).
Definition session_limit (cfg : Settings) (r : ConnectRequest) : Z :=
  if c_privileged_capacity r && api_auth_enabled cfg && String.eqb (c_owner_type r) "master"
     && (0 <? master_max_sessions_per_ip cfg)%Z
  then master_max_sessions_per_ip cfg else max_sessions_per_ip cfg.

(** ** Admission *)
(** Reaps the source address's idle sessions, then reserves a place, or refuses.  The reserved
    address, [None] when the request is not counted.  When it refuses, the sessions it reaped
    are gone from the table and their clients are not closed. *)
Definition admission (cfg : Settings) (t : Z) (r : ConnectRequest) (m : SSHSessionManager)
    : (option string + ssh_error) * SSHSessionManager :=
  let limit := session_limit cfg r in
  match truthy (c_source_ip r) with
  | Some ip =>
      if (0 <? limit)%Z then
        let '(reaped, kept) := reap (fun s => from_ip ip s && is_stale t m s) (sm_heap m) (_sessions m) in
        let m1 := set_sessions kept m in
        let pending := pending_from ip m1 in
        if (limit <=? Z.of_nat (sessions_from ip m1) + pending)%Z
        then (inr (SessionLimitError ip limit), m1)
        else (inl (Some ip),
              close_clients reaped
                (set_pending (dict_set ip (pending + 1)%Z (_pending_sessions_by_ip m1)) m1))
      else (inl None, m)
  | None => (inl None, m)
  end.
(** The [finally] block *)
Definition unreserve (reserved : option string) (m : SSHSessionManager) : SSHSessionManager :=
  match reserved with
  | None => m
  | Some ip =>
      let pending := pending_from ip m in
      set_pending (if (pending <=? 1)%Z then dict_del ip (_pending_sessions_by_ip m)
                   else dict_set ip (pending - 1)%Z (_pending_sessions_by_ip m)) m
  end.

(** ** Connecting *)
(** Parsing a private key with one of paramiko's key classes *)
Inductive key_class : Type := Ed25519Key | RSAKey | ECDSAKey.
Inductive key_parse : Type := KeyParsed | KeySSHException | KeyRaised (e : exn).
Class KeyFormats : Type := { from_private_key : key_class -> string -> option string -> key_parse }.

Fixpoint try_keys `{KeyFormats} (classes : list key_class) (key_data : string)
    (passphrase : option string) : ssh_error + unit :=
  match classes with
  | [] => inl (AuthenticationError "Could not parse private key.")
  | c :: r => match from_private_key c key_data (truthy passphrase) with
              | KeyParsed => inr tt
              | KeySSHException => try_keys r key_data passphrase
              | KeyRaised e => inl (Uncaught e)
              end
  end.
Definition _load_private_key `{KeyFormats} (key_data : string) (passphrase : option string)
    : ssh_error + unit := try_keys [Ed25519Key; RSAKey; ECDSAKey] key_data passphrase.

(** The arguments the dial uses: [socket.create_connection] and [client.connect] *)
Record Dial : Type := mkDial {
  d_client : nat; d_destination_ip : option string; d_hostname : string; d_port : Z;
  d_username : string; d_password : option string;
  d_pkey : option (string * option string);      (* the key and its passphrase *)
  d_policy : HostKeyPolicy }.
(** A connection between its dial and its end *)
Record attempt : Type := mkAttempt {
  a_request : ConnectRequest; a_idle_timeout : Z; a_key : PoolKey; a_dial : Dial;
  a_breaker : option nat; a_reserved : option string }.

Definition auth_method_of (r : ConnectRequest) : string :=
  match c_password r with Some _ => "password" | None => "key" end.
Definition fingerprint_of (r : ConnectRequest) : string :=
  _credential_fingerprint (auth_method_of r) (c_password r) (c_private_key r) (c_key_passphrase r).
(** [str(ipaddress.ip_address(pinned_ip)) if pinned_ip is not None else None] *)
Definition destination_of (r : ConnectRequest) : result (option string) :=
  match c_pinned_ip r with
  | None => Ok None
  | Some ip => match ip_object ip with
               | Some a => Ok (Some (address_str a))
               | None => Raise (bad_address ip)
               end
  end.
Definition pool_key_of (r : ConnectRequest) (destination_ip : option string) : PoolKey :=
  mkKey (c_host r) (c_port r) (c_username r) (auth_method_of r) (fingerprint_of r) destination_ip.

Definition idle_timeout_of (r : ConnectRequest) (m : SSHSessionManager) : Z :=
  match c_idle_timeout_seconds r with
  | Some t => Z.min t (_session_timeout m)
  | None => _session_timeout m
  end.

(** The record is built and entered in the table. *)
Definition register (t : Z) (uuid : string) (r : ConnectRequest) (idle_timeout : Z) (key : PoolKey)
    (client : nat) (m : SSHSessionManager) : string * SSHSessionManager :=
  let resolved_id := default uuid (truthy (c_session_id r)) in
  let record := mkSession resolved_id client (c_host r) (c_port r) (c_username r) t t (c_owner_type r)
    (c_owner_name r) (c_owner_token_fingerprint r) (c_source_ip r) (k_auth_method key)
    (k_fingerprint key) (k_destination key) (c_tenant_labels r) idle_timeout (c_ephemeral r) 0 in
  let addr := length (sm_heap m) in
  (resolved_id, set_sessions (dict_set resolved_id addr (_sessions m)) (set_heap (sm_heap m ++ [record]) m)).

(** What the process reads during a step: the two clocks, whether a client's transport is
    active, the identifier drawn *)
Record Readings : Type := mkReadings {
  now : Z; monotonic : Z; alive : nat -> bool; uuid4 : string }.

Inductive progress : Type := Connected (session_id : string) | Refused (e : ssh_error) | Dialling (a : attempt).

(** The pool is asked only for a pinned destination. *)
Definition pool_lookup (rd : Readings) (key : PoolKey) (m : SSHSessionManager)
    : option nat * SSHSessionManager :=
  match _pool m, k_destination key with
  | Some p, Some _ =>
      let '(found, closed, p') := acquire (alive rd) (monotonic rd) key p in
      (found, close_clients closed (set_pool (Some p') m))
  | _, _ => (None, m)
  end.
(** The breaker of the host, when there are breakers, and whether it lets the call through *)
Definition consult_breaker (t : Z) (host : string) (m : SSHSessionManager)
    : result (option nat * bool) * SSHSessionManager :=
  match _circuit_breakers m with
  | None => (Ok (None, true), m)
  | Some rg =>
      match get_breaker host default_breaker rg with
      | Raise e => (Raise e, m)
      | Ok (a, rg1) =>
          match rg_heap rg1 !! a with
          | None => (Raise (KeyError host), set_breakers (Some rg1) m)
          | Some cb =>
              (Ok (Some a, fst (can_execute t cb)),
               set_breakers (Some (update_breaker a (fun cb => snd (can_execute t cb)) rg1)) m)
          end
      end
  end.

(** [client = paramiko.SSHClient()] up to the executor *)
Definition prepare_dial `{KeyFormats} (cfg : Settings) (r : ConnectRequest) (idle_timeout : Z)
    (key : PoolKey) (breaker : option nat) (reserved : option string) (m : SSHSessionManager)
    : progress * SSHSessionManager :=
  let '(client, m1) := new_client m in
  let policy := _get_host_key_policy cfg (c_port r) m1 in
  let dial pkey := Dialling (mkAttempt r idle_timeout key
        (mkDial client (k_destination key) (c_host r) (c_port r) (c_username r) (c_password r) pkey policy)
        breaker reserved) in
  match truthy (c_private_key r) with
  | None => (dial None, m1)
  | Some key_data =>
      match _load_private_key key_data (c_key_passphrase r) with
      | inl e => (Refused e, m1)
      | inr _ => (dial (Some (key_data, c_key_passphrase r)), m1)
      end
  end.

(** [_create_session_unreserved] up to the dial *)
Definition _create_session_unreserved `{KeyFormats} (cfg : Settings) (rd : Readings) (r : ConnectRequest)
    (idle_timeout : Z) (reserved : option string) (m : SSHSessionManager)
    : progress * SSHSessionManager :=
  match destination_of r with
  | Raise e => (Refused (Uncaught e), m)
  | Ok destination_ip =>
      let key := pool_key_of r destination_ip in
      let '(pooled_client, m1) := pool_lookup rd key m in
      match pooled_client with
      | Some client =>
          let '(sid, m2) := register (now rd) (uuid4 rd) r idle_timeout key client m1 in
          (Connected sid, m2)
      | None =>
          match consult_breaker (now rd) (c_host r) m1 with
          | (Raise e, m2) => (Refused (Uncaught e), m2)
          | (Ok (breaker, false), m2) =>
              (Refused (SshConnectionError ("Circuit breaker open for " +s+ c_host r)), m2)
          | (Ok (breaker, true), m2) => prepare_dial cfg r idle_timeout key breaker reserved m2
          end
      end
  end.

Definition begin_create `{KeyFormats} (cfg : Settings) (rd : Readings) (r : ConnectRequest)
    (m : SSHSessionManager) : progress * SSHSessionManager :=
  let idle_timeout := idle_timeout_of r m in
  match admission cfg (now rd) r m with
  | (inr e, m1) => (Refused e, m1)
  | (inl reserved, m1) =>
      match _create_session_unreserved cfg rd r idle_timeout reserved m1 with
      | (Dialling a, m2) => (Dialling a, m2)
      | (p, m2) => (p, unreserve reserved m2)
      end
  end.

(** ** The dial and what follows *)
(** What the network answered: the peer of the socket, [None] when it did not connect, and what
    [client.connect] did *)
Inductive dial_result : Type := DialOk | DialAuthenticationException | DialFailed | DialRaised.
Record Network : Type := mkNetwork { n_peer : option string; n_connect : dial_result }.
Definition _connect (d : Dial) (n : Network) : dial_result :=
  match d_destination_ip d with
  | None => n_connect n
  | Some destination_ip =>
      match n_peer n with
      | None => DialFailed
      | Some peer =>
          match ip_object peer with
          | None => DialRaised
          | Some a => if String.eqb (address_str a) destination_ip then n_connect n else DialFailed
          end
      end
  end.

Definition report (breaker : option nat) (f : CircuitBreaker -> CircuitBreaker) (m : SSHSessionManager)
    : SSHSessionManager :=
  match breaker, _circuit_breakers m with
  | Some a, Some rg => set_breakers (Some (update_breaker a f rg)) m
  | _, _ => m
  end.
(** [create_session] from the return of the executor: an authentication failure reports nothing
    to the breaker, an exception of another class neither that nor closes the client. *)
Definition end_create (rd : Readings) (n : Network) (a : attempt) (m : SSHSessionManager)
    : (string + ssh_error) * SSHSessionManager :=
  let r := a_request a in
  let '(res, m1) :=
    match _connect (a_dial a) n with
    | DialAuthenticationException =>
        (inr (AuthenticationError ("Authentication failed for " +s+ c_username r +s+ "@" +s+ c_host r)),
         close_clients [d_client (a_dial a)] m)
    | DialFailed =>
        (inr (SshConnectionError ("Could not connect to " +s+ c_host r)),
         close_clients [d_client (a_dial a)] (report (a_breaker a) (record_failure (now rd)) m))
    | DialRaised => (inr Interrupted, m)
    | DialOk =>
        let '(sid, m1) := register (now rd) (uuid4 rd) r (a_idle_timeout a) (a_key a)
                            (d_client (a_dial a)) (report (a_breaker a) record_success m) in
        (inl sid, m1)
    end in
  (res, unreserve (a_reserved a) m1).

(** ** Reusing a session *)
Record ReuseQuery : Type := mkReuse {
  q_host : string; q_port : Z; q_username : string; q_password : option string;
  q_private_key : option string; q_key_passphrase : option string; q_owner_type : string;
  q_owner_token_fingerprint : option string; q_source_ip : option string;
  q_validated_ips : list string }.

Definition canonical_ips (ips : list string) : result (list string) :=
  rmap (fun ip => match ip_object ip with Some a => Ok (address_str a) | None => Raise (bad_address ip) end)
    ips.
Definition reusable (q : ReuseQuery) (destinations : list string) (s : SessionRecord) : bool :=
  let auth_method := match q_password q with Some _ => "password" | None => "key" end in
  String.eqb (s_owner_type s) (q_owner_type q)
  && bool_decide (s_owner_token_fingerprint s = q_owner_token_fingerprint q)
  && bool_decide (s_source_ip s = q_source_ip q)
  && String.eqb (s_host s) (q_host q) && Z.eqb (s_port s) (q_port q)
  && String.eqb (s_username s) (q_username q)
  && String.eqb (s_auth_method s) auth_method
  && String.eqb (s_credential_fingerprint s)
       (_credential_fingerprint auth_method (q_password q) (q_private_key q) (q_key_passphrase q))
  && match s_destination_ip s with Some d => mem d destinations | None => false end.

(** The first record of the table that matches and whose transport is active, touched *)
Definition find_reusable_session (rd : Readings) (q : ReuseQuery) (m : SSHSessionManager)
    : result (option nat) * SSHSessionManager :=
  match truthy (q_owner_token_fingerprint q), truthy (q_source_ip q), q_validated_ips q with
  | Some _, Some _, _ :: _ =>
      match canonical_ips (q_validated_ips q) with
      | Raise e => (Raise e, m)
      | Ok destinations =>
          let hit addr := match record_at m addr with
                          | Some s => reusable q destinations s && alive rd (s_client s)
                          | None => false
                          end in
          match List.find hit (values (_sessions m)) with
          | Some addr => (Ok (Some addr), update_record addr (touch (now rd)) m)
          | None => (Ok None, m)
          end
      end
  | _, _, _ => (Ok None, m)
  end.

(** ** Disconnecting *)
Definition hand_back (rd : Readings) (s : SessionRecord) (m : SSHSessionManager) : SSHSessionManager :=
  match _pool m, s_destination_ip s with
  | Some p, Some _ =>
      if alive rd (s_client s) then
        let '(closed, p') := release (monotonic rd) (session_key s) (s_client s) p in
        close_clients closed (set_pool (Some p') m)
      else close_clients [s_client s] m
  | _, _ => close_clients [s_client s] m
  end.
Definition disconnect (rd : Readings) (session_id : string) (m : SSHSessionManager)
    : (unit + ssh_error) * SSHSessionManager :=
  match dict_get session_id (_sessions m) with
  | None => (inr (SessionNotFoundError session_id), m)
  | Some addr =>
      let m1 := set_sessions (dict_del session_id (_sessions m)) m in
      match record_at m addr with
      | None => (inr (SessionNotFoundError session_id), m1)
      | Some s => (inl tt, hand_back rd s m1)
      end
  end.
(** The sessions of a list of identifiers, one after the other; errors are logged. *)
Definition disconnect_each (rd : Readings) (ids : list string) (m : SSHSessionManager)
    : nat * SSHSessionManager :=
  fold_left (fun '(count, m) sid =>
      match disconnect rd sid m with
      | (inl _, m') => (S count, m')
      | (inr _, m') => (count, m')
      end) ids (0%nat, m).
Definition close_all_sessions (rd : Readings) (m : SSHSessionManager) : SSHSessionManager :=
  snd (disconnect_each rd (keys (_sessions m)) m).
Definition disconnect_sessions_for_actor_source (rd : Readings) (actor_fingerprint source_ip : string)
    (m : SSHSessionManager) : nat * SSHSessionManager :=
  disconnect_each rd
    (keys (List.filter (fun kv => match record_at m (snd kv) with
       | Some s => bool_decide (s_owner_token_fingerprint s = Some actor_fingerprint)
                   && bool_decide (s_source_ip s = Some source_ip)
       | None => false
       end) (_sessions m))) m.
Definition close_pool (m : SSHSessionManager) : SSHSessionManager :=
  match _pool m with
  | None => m
  | Some p => let '(closed, p') := close_all p in close_clients closed (set_pool (Some p') m)
  end.

(** ** Operation leases and operations *)
Definition more_operations (t : Z) (s : SessionRecord) : SessionRecord :=
  with_activity t (s_active_operations s + 1) s.
Definition fewer_operations (t : Z) (s : SessionRecord) : SessionRecord :=
  with_activity t (Z.max 0 (s_active_operations s - 1)) s.

Definition get_session (session_id : string) (m : SSHSessionManager) : option nat :=
  dict_get session_id (_sessions m).
Definition acquire_operation_lease (t : Z) (session_id : string) (m : SSHSessionManager)
    : (nat + ssh_error) * SSHSessionManager :=
  match get_session session_id m with
  | None => (inr (SessionNotFoundError session_id), m)
  | Some addr => (inl addr, update_record addr (more_operations t) m)
  end.
Definition release_operation_lease (t : Z) (addr : nat) (m : SSHSessionManager) : SSHSessionManager :=
  update_record addr (fewer_operations t) m.

(** [reconnect]: credentials are not kept, so only a connected session reconnects. *)
Definition reconnect (rd : Readings) (session_id : string) (m : SSHSessionManager) : bool + ssh_error :=
  match get_session session_id m with
  | None => inr (SessionNotFoundError session_id)
  | Some addr => inl (match record_at m addr with Some s => alive rd (s_client s) | None => false end)
  end.

(** The head of [execute] and [execute_argv], to the first await *)
Definition begin_execute (rd : Readings) (session_id : string) (m : SSHSessionManager)
    : (nat + ssh_error) * SSHSessionManager :=
  match get_session session_id m with
  | None => (inr (SessionNotFoundError session_id), m)
  | Some addr =>
      let connected := match record_at m addr with Some s => alive rd (s_client s) | None => false end in
      let go := (inl addr, update_record addr (more_operations (now rd)) m) in
      if connected then go
      else match reconnect rd session_id m with
           | inr e => (inr e, m)
           | inl true => go
           | inl false =>
               (inr (SshConnectionError ("Session " +s+ session_id +s+ " is disconnected and reconnection failed")), m)
           end
  end.
(** The head of [execute_stream], which does not look at the transport *)
Definition begin_stream (rd : Readings) (session_id : string) (m : SSHSessionManager)
    : (nat + ssh_error) * SSHSessionManager :=
  match get_session session_id m with
  | None => (inr (SessionNotFoundError session_id), m)
  | Some addr => (inl addr, update_record addr (more_operations (now rd)) m)
  end.

(** What the remote command did *)
Inductive command_run : Type :=
| RunDone (stdout stderr : string) (exit_code : Z) | RunTimeout | RunSSHException (msg : string)
| RunException (msg : string) | RunCancelled.
Record CommandResult : Type := mkCommandResult { cr_stdout : string; cr_stderr : string; cr_exit_code : Z }.
(** The rest of [execute]; the [finally] block runs on every path. *)
Definition end_execute (t : Z) (command : string) (run : command_run) (addr : nat) (m : SSHSessionManager)
    : (CommandResult + ssh_error) * SSHSessionManager :=
  (match run with
   | RunDone out err code => inl (mkCommandResult out err code)
   | RunTimeout => inr (SshTimeoutError ("Command timed out: " +s+ command))
   | RunSSHException msg => inr (ExecutionError ("SSH error during execution: " +s+ msg))
   | RunException msg => inr (ExecutionError ("Execution error: " +s+ msg))
   | RunCancelled => inr Interrupted
   end, update_record addr (fewer_operations t) m).

(** ** The route (app/routers/ssh.py, ssh_connect) *)
(** Past the access gate: the target is validated, then a session is reused or made, pinned to
    the first validated address. *)
Record TargetPolicy : Type := mkTargets { allowed_target_cidrs : string; denied_target_cidrs : string }.
Record Identity : Type := mkIdentity {
  id_token_type : string; id_name : option string; id_fingerprint : option string;
  id_tenant_labels : list string }.
Record RouteRequest : Type := mkRouteRequest {
  rr_host : string; rr_port : Z; rr_username : string; rr_password : option string;
  rr_private_key : option string; rr_key_passphrase : option string; rr_reuse_existing : bool;
  rr_ephemeral : bool; rr_idle_timeout_seconds : option Z }.

(** [x.get_secret_value() if x else None] *)
Definition secret (x : option string) : option string := truthy x.
Definition reuse_query (req : RouteRequest) (who : Identity) (source_ip : string) (ips : list string)
    : ReuseQuery :=
  mkReuse (rr_host req) (rr_port req) (rr_username req) (secret (rr_password req))
    (secret (rr_private_key req)) (secret (rr_key_passphrase req)) (id_token_type who)
    (id_fingerprint who) (Some source_ip) ips.
Definition create_request (cfg : Settings) (req : RouteRequest) (who : Identity) (source_ip pinned_ip : string)
    : ConnectRequest :=
  mkConnect (rr_host req) (rr_port req) (rr_username req) (secret (rr_password req))
    (secret (rr_private_key req)) (secret (rr_key_passphrase req)) (id_token_type who) (id_name who)
    (id_fingerprint who) (Some source_ip) (id_tenant_labels who) None (Some pinned_ip)
    (rr_ephemeral req) (rr_idle_timeout_seconds req)
    (api_auth_enabled cfg && String.eqb (id_token_type who) "master").

Inductive route_outcome : Type :=
| Blocked (e : exn)                  (* 403, logged as BLOCKED_TARGET_HOST *)
| Reused (addr : nat)
| Creating (p : progress)
| Crashed (e : exn).
Definition ssh_connect `{KeyFormats} (cfg : Settings) (targets : TargetPolicy) (getaddrinfo : resolver)
    (rd : Readings) (req : RouteRequest) (who : Identity) (source_ip : string) (m : SSHSessionManager)
    : route_outcome * SSHSessionManager :=
  match validate_target_host getaddrinfo (rr_host req) (allowed_target_cidrs targets)
          (denied_target_cidrs targets) with
  | Raise e => (Blocked e, m)
  | Ok [] => (Crashed IndexError, m)
  | Ok ((pinned_ip :: _) as validated_ips) =>
      let '(reusable, m1) :=
        if rr_reuse_existing req
        then find_reusable_session rd (reuse_query req who source_ip validated_ips) m
        else (Ok None, m) in
      match reusable with
      | Raise e => (Crashed e, m1)
      | Ok (Some addr) => (Reused addr, m1)
      | Ok None =>
          let '(p, m2) := begin_create cfg rd (create_request cfg req who source_ip pinned_ip) m1 in
          (Creating p, m2)
      end
  end.

(** ** The session manager over any interleaving

    [System]: the manager with the connections being dialled, by task.  An event is one step of
    the event loop: what a request, a background task or the end of a dial does between two
    awaits.  [sy_opened] records the dials that authenticated, which the program does not keep. *)
Record System : Type := mkSystem {
  sy_manager : SSHSessionManager; sy_attempts : gmap nat attempt; sy_opened : list attempt }.
Definition init_system (m : SSHSessionManager) : System := mkSystem m ∅ [].

Inductive event : Type :=
| OnConnect (tid : nat) (rd : Readings) (getaddrinfo : resolver) (req : RouteRequest) (who : Identity)
    (source_ip : string)                                        (* POST /api/ssh/connect *)
| OnCreate (tid : nat) (rd : Readings) (r : ConnectRequest)       (* any other create_session *)
| OnDialled (tid : nat) (rd : Readings) (n : Network)             (* the executor returns *)
| OnDisconnect (rd : Readings) (session_id : string)
| OnRevoke (rd : Readings) (actor_fingerprint source_ip : string)
| OnShutdown (rd : Readings)
| OnClosePool
| OnCleanup (t : Z)
| OnLease (t : Z) (session_id : string)
| OnExecute (rd : Readings) (session_id : string)
| OnStream (rd : Readings) (session_id : string)
| OnRelease (t : Z) (addr : nat)                              (* a lease or an operation ends *)
| OnTimeout (seconds : Z).

Section Steps.
Context `{KeyFormats} (cfg : Settings) (targets : TargetPolicy).

Definition with_manager (m : SSHSessionManager) (sy : System) : System :=
  mkSystem m (sy_attempts sy) (sy_opened sy).
Definition started (tid : nat) (p : progress) (m : SSHSessionManager) (sy : System) : System :=
  match p with
  | Dialling a => mkSystem m (<[tid := a]> (sy_attempts sy)) (sy_opened sy)
  | _ => with_manager m sy
  end.

(** A task that is already dialling starts nothing. *)
Definition step (e : event) (sy : System) : System :=
  let m := sy_manager sy in
  match e with
  | OnConnect tid rd getaddrinfo req who source_ip =>
      match sy_attempts sy !! tid with
      | Some _ => sy
      | None =>
          match ssh_connect cfg targets getaddrinfo rd req who source_ip m with
          | (Creating p, m') => started tid p m' sy
          | (_, m') => with_manager m' sy
          end
      end
  | OnCreate tid rd r =>
      match sy_attempts sy !! tid with
      | Some _ => sy
      | None => let '(p, m') := begin_create cfg rd r m in started tid p m' sy
      end
  | OnDialled tid rd n =>
      match sy_attempts sy !! tid with
      | None => sy
      | Some a =>
          let '(res, m') := end_create rd n a m in
          mkSystem m' (delete tid (sy_attempts sy))
            (match res with inl _ => sy_opened sy ++ [a] | inr _ => sy_opened sy end)
      end
  | OnDisconnect rd sid => with_manager (snd (disconnect rd sid m)) sy
  | OnRevoke rd fp ip => with_manager (snd (disconnect_sessions_for_actor_source rd fp ip m)) sy
  | OnShutdown rd => with_manager (close_all_sessions rd m) sy
  | OnClosePool => with_manager (close_pool m) sy
  | OnCleanup t => with_manager (snd (cleanup_stale_sessions t m)) sy
  | OnLease t sid => with_manager (snd (acquire_operation_lease t sid m)) sy
  | OnExecute rd sid => with_manager (snd (begin_execute rd sid m)) sy
  | OnStream rd sid => with_manager (snd (begin_stream rd sid m)) sy
  | OnRelease t addr => with_manager (release_operation_lease t addr m) sy
  | OnTimeout s => with_manager (snd (update_session_timeout s m)) sy
  end.
Definition run (es : list event) (sy : System) : System := fold_left (fun sy e => step e sy) es sy.

(** [P] holds along every run from a state where it holds. *)
Lemma run_invariant (P : System -> Prop) : (forall e sy, P sy -> P (step e sy)) ->
  forall es sy, P sy -> P (run es sy).
Proof.
  intros Hstep es. induction es as [|e es IH]; simpl; intros sy Hp; [done |]. by apply IH, Hstep.
Qed.
(** The same when the events of the run satisfy [Q]. *)
Lemma run_invariant_if (Q : event -> Prop) (P : System -> Prop) :
  (forall e sy, Q e -> P sy -> P (step e sy)) ->
  forall es sy, Forall Q es -> P sy -> P (run es sy).
Proof.
  intros Hstep es. induction es as [|e es IH]; simpl; intros sy Hq Hp; [done |].
  apply Forall_cons in Hq as [He Hes]. apply IH; auto.
Qed.
End Steps.

(** ** What a manager holds *)
(** The records of the table *)
Definition table (m : SSHSessionManager) : list SessionRecord :=
  omap (fun kv => record_at m (snd kv)) (_sessions m).
Definition table_clients (m : SSHSessionManager) : list nat := map s_client (table m).
Definition pool_clients (m : SSHSessionManager) : list nat :=
  match _pool m with Some p => all_clients (_idle p) | None => [] end.
