(* ===== verification/SessionFacts.v ===== *)
(** * Facts about the session manager

    [holdings]: the clients the manager keeps, in its table and in its pool, each with the pool
    key it is kept under.  Every operation moves holdings: [moves add m m'] says that what [m]
    held, with [add], is what [m'] holds and what was dropped, and that only dropped clients
    were closed. *)
From stdpp Require Import gmap.
From S2P Require Import Prelude PyStr TargetHost SshPool CircuitBreaker Sessions.
From stdpp Require Import options.
#[local] Unset Default Proof Using.

Definition holding : Type := nat * PoolKey.
Definition held (s : SessionRecord) : nat * PoolKey := (s_client s, session_key s).
(** An entry of the pool as a holding *)
Definition unpark (e : PoolKey * PooledConnection) : nat * PoolKey := (entry_client e, fst e).
Definition parked (p : option ConnectionPool) : list (nat * PoolKey) :=
  match p with
  | Some p => map unpark (entries (_idle p))
  | None => []
  end.
Definition holdings (m : SSHSessionManager) : list (nat * PoolKey) :=
  map held (table m) ++ parked (_pool m).

(** Every address of the table is in the heap. *)
Definition wf (m : SSHSessionManager) : Prop :=
  Forall (fun kv => (snd kv < length (sm_heap m))%nat) (_sessions m).

Definition moves (add : list (nat * PoolKey)) (m m' : SSHSessionManager) : Prop :=
  exists dropped closed, add ++ holdings m ≡ₚ dropped ++ holdings m' /\
    sm_closed m' = sm_closed m ++ closed /\ closed ⊆+ map fst dropped /\
    (sm_clients m <= sm_clients m')%nat.

Lemma moves_refl m : moves [] m m.
Proof. exists [], []. rewrite app_nil_r. by repeat split. Qed.
Lemma moves_trans a b m1 m2 m3 : moves a m1 m2 -> moves b m2 m3 -> moves (a ++ b) m1 m3.
Proof.
  intros (d1 & c1 & P1 & C1 & S1 & N1) (d2 & c2 & P2 & C2 & S2 & N2).
  exists (d1 ++ d2), (c1 ++ c2). split; [| split; [| split]].
  - rewrite <- !app_assoc, <- P2. transitivity (b ++ a ++ holdings m1); [solve_Permutation |].
    rewrite P1. solve_Permutation.
  - by rewrite C2, C1, app_assoc.
  - rewrite map_app. by apply submseteq_app.
  - lia.
Qed.
Lemma moves_trans0 b m1 m2 m3 : moves [] m1 m2 -> moves b m2 m3 -> moves b m1 m3.
Proof. apply (moves_trans []). Qed.

(** The same clients in the same places, whatever else changed *)
Record same_holdings (m m' : SSHSessionManager) : Prop := {
  sh_held : holdings m' = holdings m;
  sh_closed : sm_closed m' = sm_closed m;
  sh_clients : (sm_clients m <= sm_clients m')%nat }.
Lemma same_moves m m' : same_holdings m m' -> moves [] m m'.
Proof.
  intros [H1 H2 H3]. exists [], []. rewrite H1, H2, app_nil_r. by repeat split.
Qed.

(** ** The table under its operations *)
Definition lookup_in (h : list SessionRecord) (d : dict nat) : list SessionRecord :=
  omap (fun kv => h !! snd kv) d.
#[global] Arguments lookup_in : simpl never.
Lemma lookup_in_cons h sid a d : lookup_in h ((sid, a) :: d) =
  match h !! a with Some s => s :: lookup_in h d | None => lookup_in h d end.
Proof. done. Qed.
Lemma table_lookup m : table m = lookup_in (sm_heap m) (_sessions m).
Proof. done. Qed.

Lemma reap_spec stale h d reaped kept : reap stale h d = (reaped, kept) ->
  reaped = map s_client (List.filter stale (lookup_in h d)) /\
  lookup_in h kept = List.filter (fun s => negb (stale s)) (lookup_in h d) /\
  kept `sublist_of` d.
Proof.
  revert reaped kept. induction d as [|[sid addr] d IH]; simpl; intros reaped kept.
  { by intros [= <- <-]. }
  destruct (reap stale h d) as [rs ks]. destruct (IH _ _ eq_refl) as (I1 & I2 & I3). clear IH.
  rewrite lookup_in_cons. destruct (h !! addr) as [s|] eqn:E; simpl.
  - destruct (stale s); simpl; intros [= <- <-]; rewrite ?lookup_in_cons, ?E, I2, I1;
      (split; [done |]); split; [done | by apply sublist_cons | done | by apply sublist_skip].
  - intros [= <- <-]. rewrite lookup_in_cons, E, I2, I1.
    split; [done |]. split; [done | by apply sublist_skip].
Qed.
Lemma filter_partition {A} (p : A -> bool) l :
  l ≡ₚ List.filter p l ++ List.filter (fun a => negb (p a)) l.
Proof.
  induction l as [|a l IH]; simpl; [done |]. destruct (p a); simpl; [by f_equiv |].
  rewrite IH at 1. apply Permutation_middle.
Qed.

Lemma lookup_in_app h r d : Forall (fun kv => (snd kv < length h)%nat) d ->
  lookup_in (h ++ [r]) d = lookup_in h d.
Proof.
  induction 1 as [|[sid addr] d Ha Hd IH]; simpl in *; [done |].
  by rewrite !lookup_in_cons, lookup_app_l, IH.
Qed.
Lemma lookup_in_alter {B} (g : SessionRecord -> B) f addr h d : (forall s, g (f s) = g s) ->
  map g (lookup_in (alter f addr h) d) = map g (lookup_in h d).
Proof.
  intros Hg. induction d as [|[sid a] d IH]; [done |]. rewrite !lookup_in_cons.
  destruct (decide (a = addr)) as [-> | Hne].
  - rewrite list_lookup_alter_eq. destruct (h !! addr); simpl; [by rewrite Hg, IH | done].
  - rewrite list_lookup_alter_ne by done. destruct (h !! a); simpl; by rewrite ?IH.
Qed.
Lemma lookup_in_set h d sid addr r : h !! addr = Some r ->
  exists dropped, r :: lookup_in h d ≡ₚ dropped ++ lookup_in h (dict_set sid addr d).
Proof.
  intros Hr. induction d as [|[k a] d (dr & IH)]; simpl.
  { rewrite lookup_in_cons, Hr. by exists []. }
  rewrite lookup_in_cons. destruct (String.eqb sid k); rewrite lookup_in_cons.
  - rewrite Hr. destruct (h !! a) as [s|]; [exists [s] | exists []]; simpl; [| done].
    apply Permutation_swap.
  - exists dr. destruct (h !! a) as [s|]; [| done].
    rewrite <- Permutation_middle, <- IH. apply Permutation_swap.
Qed.
Lemma lookup_in_del h d sid addr r : dict_get sid d = Some addr -> h !! addr = Some r ->
  lookup_in h d ≡ₚ r :: lookup_in h (dict_del sid d).
Proof.
  intros Hg Hr. induction d as [|[k a] d IH]; simpl in *; [done |]. rewrite lookup_in_cons.
  destruct (String.eqb sid k); simpl in *.
  - injection Hg as ->. by rewrite Hr.
  - rewrite lookup_in_cons. destruct (h !! a) as [s|]; [| auto].
    rewrite IH by done. apply Permutation_swap.
Qed.

(** ** Well-formedness *)
Lemma wf_sub m m' : (length (sm_heap m) <= length (sm_heap m'))%nat ->
  (forall kv, In kv (_sessions m') -> In kv (_sessions m)) -> wf m -> wf m'.
Proof.
  unfold wf. rewrite !List.Forall_forall. intros Hl Hs Hw kv Hin. specialize (Hw kv (Hs kv Hin)). lia.
Qed.
Lemma dict_del_In {V} k kv (d : dict V) : In kv (dict_del k d) -> In kv d.
Proof.
  induction d as [|[k' v] d IH]; simpl; [done |]. destruct (String.eqb k k'); simpl; tauto.
Qed.
Lemma dict_set_In {V} k v kv (d : dict V) : In kv (dict_set k v d) -> In kv d \/ snd kv = v.
Proof.
  induction d as [|[k' v'] d IH]; simpl; [intros [<- | []]; by right |].
  destruct (String.eqb k k'); simpl; intros [<- | Hin]; auto. apply IH in Hin as [? | ?]; auto.
Qed.
Lemma sublist_In {A} (l l' : list A) a : l `sublist_of` l' -> In a l -> In a l'.
Proof.
  rewrite <- !list_elem_of_In. intros Hs Ha. by eapply elem_of_submseteq, sublist_submseteq.
Qed.

(** ** Each operation *)
Lemma holdings_sessions m d : _pool m = _pool (set_sessions d m) /\
  table (set_sessions d m) = lookup_in (sm_heap m) d.
Proof. done. Qed.

(** Idle sessions leave the table; their clients are closed, or not ([admission] refused). *)
Lemma reap_moves stale m reaped kept : reap stale (sm_heap m) (_sessions m) = (reaped, kept) ->
  moves [] m (set_sessions kept m) /\ moves [] m (close_clients reaped (set_sessions kept m)).
Proof.
  intros Hr. apply reap_spec in Hr as (-> & Hk & _).
  assert (Hp : holdings m ≡ₚ map held (List.filter stale (table m)) ++ holdings (set_sessions kept m)).
  { unfold holdings. simpl. rewrite app_assoc, <- map_app. rewrite table_lookup.
    change (table (set_sessions kept m)) with (lookup_in (sm_heap m) kept). rewrite Hk.
    by rewrite <- (filter_partition stale). }
  split.
  - exists (map held (List.filter stale (table m))), []. rewrite app_nil_r. repeat split; try done.
    apply submseteq_nil_l.
  - exists (map held (List.filter stale (table m))), (map s_client (List.filter stale (table m))).
    split; [exact Hp |]. split; [done |]. split; [| done]. by rewrite map_map.
Qed.
Lemma cleanup_moves t m : moves [] m (snd (cleanup_stale_sessions t m)).
Proof.
  unfold cleanup_stale_sessions. destruct (reap _ _ _) as [reaped kept] eqn:E. simpl.
  by eapply reap_moves.
Qed.

Lemma admission_moves cfg t r m : moves [] m (snd (admission cfg t r m)).
Proof.
  unfold admission. destruct (truthy (c_source_ip r)) as [ip|]; [| apply moves_refl].
  destruct (0 <? session_limit cfg r)%Z; [| apply moves_refl].
  destruct (reap _ _ _) as [reaped kept] eqn:E. apply reap_moves in E as [E1 E2].
  destruct (_ <=? _)%Z; simpl; [done |].
  eapply moves_trans0; [exact E2 |]. apply same_moves. by split.
Qed.
Lemma unreserve_same o m : same_holdings m (unreserve o m).
Proof. destruct o; by split. Qed.

(** A change of records that keeps their client, key and source *)
Definition keeps (f : SessionRecord -> SessionRecord) : Prop :=
  forall s, held (f s) = held s /\ s_source_ip (f s) = s_source_ip s.
Lemma with_activity_keeps g t : keeps (fun s => with_activity t (g s) s).
Proof. done. Qed.
Lemma update_same addr f m : keeps f -> same_holdings m (update_record addr f m).
Proof.
  intros Hf. split; [| done | done]. unfold holdings. simpl. f_equal.
  rewrite !table_lookup. apply (lookup_in_alter held). intros s. apply Hf.
Qed.

Lemma register_moves t uuid r idle key client m : wf m -> key = mkKey (c_host r) (c_port r)
    (c_username r) (k_auth_method key) (k_fingerprint key) (k_destination key) ->
  moves [(client, key)] m (snd (register t uuid r idle key client m)).
Proof.
  intros Hw Hk. unfold register. simpl snd. set (rec := mkSession _ _ _ _ _ _ _ _ _ _ _ _ _ _ _ _ _ _).
  set (sid := default uuid _).
  destruct (lookup_in_set (sm_heap m ++ [rec]) (_sessions m) sid (length (sm_heap m)) rec) as (d & Hd).
  { rewrite lookup_app_r, Nat.sub_diag by done. done. }
  rewrite lookup_in_app in Hd by done.
  exists (map held d), []. rewrite app_nil_r. split; [| split; [done | split; [apply submseteq_nil_l | done]]].
  unfold holdings. simpl. rewrite app_assoc, <- map_app, !table_lookup. simpl.
  rewrite <- Hd. simpl. unfold held at 2, session_key. simpl. by rewrite <- Hk.
Qed.

(** ** The manager kept in order *)
Definition good (m : SSHSessionManager) : Prop :=
  wf m /\ match _pool m with Some p => NoDup (map fst (_idle p)) | None => True end.

Lemma good_sub m m' : _pool m' = _pool m -> (length (sm_heap m) <= length (sm_heap m'))%nat ->
  (forall kv, In kv (_sessions m') -> In kv (_sessions m)) -> good m -> good m'.
Proof. intros Hp Hl Hs [Hw Hg]. split; [by eapply wf_sub | by rewrite Hp]. Qed.
Lemma good_close cs m : good m -> good (close_clients cs m).
Proof. by apply good_sub. Qed.
Lemma reap_good stale m reaped kept : reap stale (sm_heap m) (_sessions m) = (reaped, kept) ->
  good m -> good (set_sessions kept m).
Proof.
  intros Hr. apply reap_spec in Hr as (_ & _ & Hs). apply good_sub; simpl; [done | lia |].
  intros kv. by apply sublist_In.
Qed.
Lemma cleanup_good t m : good m -> good (snd (cleanup_stale_sessions t m)).
Proof.
  intros Hg. unfold cleanup_stale_sessions. destruct (reap _ _ _) as [rs ks] eqn:E. simpl.
  apply good_close. by eapply reap_good.
Qed.
Lemma admission_good cfg t r m : good m -> good (snd (admission cfg t r m)).
Proof.
  intros Hg. unfold admission. destruct (truthy (c_source_ip r)) as [ip|]; [| done].
  destruct (0 <? session_limit cfg r)%Z; [| done].
  destruct (reap _ _ _) as [rs ks] eqn:E. apply reap_good in E; [| done].
  destruct (_ <=? _)%Z; simpl; [done |]. by apply good_close.
Qed.
Lemma update_good addr f m : good m -> good (update_record addr f m).
Proof. apply good_sub; simpl; [done | by rewrite length_alter | done]. Qed.
Lemma register_good t uuid r idle key client m : good m ->
  good (snd (register t uuid r idle key client m)).
Proof.
  intros [Hw Hp]. split; [| done]. unfold wf, register. simpl. rewrite length_app. simpl.
  rewrite List.Forall_forall. intros kv [Hin | ->]%dict_set_In; [| lia].
  unfold wf in Hw. rewrite List.Forall_forall in Hw. specialize (Hw kv Hin). lia.
Qed.

(** A pooled client taken for a key was held under it. *)
Lemma pool_lookup_spec rd key m : good m ->
  let r := pool_lookup rd key m in
  good (snd r) /\
  match fst r with
  | None => moves [] m (snd r)
  | Some c => exists dropped closed, holdings m ≡ₚ (c, key) :: dropped ++ holdings (snd r) /\
      sm_closed (snd r) = sm_closed m ++ closed /\ closed ⊆+ map fst dropped /\
      sm_clients (snd r) = sm_clients m
  end /\ sm_heap (snd r) = sm_heap m /\ _sessions (snd r) = _sessions m.
Proof.
  intros [Hw Hp]. unfold pool_lookup.
  assert (Hnone : good m /\ moves [] m m /\ sm_heap m = sm_heap m /\ _sessions m = _sessions m).
  { split; [by split |]. split; [apply moves_refl | done]. }
  destruct (_pool m) as [p|] eqn:Ep; [| done]. destruct (k_destination key); [| done].
  pose proof (acquire_keys (alive rd) (monotonic rd) key p Hp) as Hk.
  destruct (acquire (alive rd) (monotonic rd) key p) as [[found cl] p'] eqn:A. simpl.
  apply acquire_spec in A as (d & He & Hd & _).
  assert (Hh : holdings m ≡ₚ map (fun c => (pc_client c, key)) d ++
                             holdings (close_clients cl (set_pool (Some p') m))).
  { unfold holdings. simpl. rewrite Ep. simpl. rewrite He, map_app, map_map. simpl.
    unfold entry_client. simpl. change (table (close_clients _ _)) with (table m). solve_Permutation. }
  split; [split; [exact Hw | exact Hk] |]. split; [| done].
  assert (Hpairs : map (fun c => (pc_client c, key)) d = map (fun c => (c, key)) (map pc_client d))
    by (by rewrite map_map).
  rewrite Hpairs, Hd in Hh. destruct found as [c|].
  - exists (map (fun c => (c, key)) cl), cl. split; [| split; [done | split; [| done]]].
    + rewrite Hh, map_app. simpl. rewrite <- app_assoc. simpl. by rewrite <- Permutation_middle.
    + by rewrite map_map, map_id.
  - exists (map (fun c => (c, key)) cl), cl. split; [| split; [done | split; [| done]]].
    + by rewrite Hh, app_nil_r.
    + by rewrite map_map, map_id.
Qed.

Lemma consult_same t host m : good m ->
  good (snd (consult_breaker t host m)) /\ same_holdings m (snd (consult_breaker t host m)) /\
  sm_clients (snd (consult_breaker t host m)) = sm_clients m.
Proof.
  intros Hg. unfold consult_breaker. destruct (_circuit_breakers m) as [rg|]; [| by split].
  destruct (get_breaker _ _ rg) as [[a rg1]|]; [| by split].
  destruct (rg_heap rg1 !! a); by split.
Qed.
Lemma report_same b f m : good m -> good (report b f m) /\ same_holdings m (report b f m).
Proof.
  intros Hg. unfold report. destruct b; [| by split]. destruct (_circuit_breakers m); by split.
Qed.

(** ** Connecting *)
(** The dial of an attempt is the one its request asks for. *)
Record attempt_fits (a : attempt) : Prop := {
  af_destination : destination_of (a_request a) = Ok (d_destination_ip (a_dial a));
  af_key : a_key a = pool_key_of (a_request a) (d_destination_ip (a_dial a));
  af_target : d_hostname (a_dial a) = c_host (a_request a) /\ d_port (a_dial a) = c_port (a_request a) /\
              d_username (a_dial a) = c_username (a_request a);
  af_password : d_password (a_dial a) = c_password (a_request a);
  af_pkey : d_pkey (a_dial a) = match truthy (c_private_key (a_request a)) with
                                | Some k => Some (k, c_key_passphrase (a_request a))
                                | None => None
                                end }.

Section Creating.
Context `{KeyFormats} (cfg : Settings).

Lemma prepare_dial_spec r idle dest breaker reserved m : good m -> destination_of r = Ok dest ->
  let res := prepare_dial cfg r idle (pool_key_of r dest) breaker reserved m in
  good (snd res) /\ same_holdings m (snd res) /\
  _pending_sessions_by_ip (snd res) = _pending_sessions_by_ip m /\ table (snd res) = table m /\
  match fst res with
  | Dialling a => attempt_fits a /\ a_reserved a = reserved /\ a_request a = r /\
      d_client (a_dial a) = sm_clients m /\ (sm_clients m < sm_clients (snd res))%nat
  | Connected _ => False
  | Refused _ => True
  end.
Proof.
  intros Hg Hd. unfold prepare_dial. simpl. destruct (truthy (c_private_key r)) as [k|] eqn:E.
  - destruct (_load_private_key k (c_key_passphrase r)); simpl; repeat split; simpl; try done;
      try apply Hg; try lia. by rewrite E.
  - simpl. repeat split; simpl; try done; try apply Hg; try lia. by rewrite E.
Qed.

(** What the start of a connection does to the holdings: a pooled client moves to the table, or
    a fresh client is made for the dial. *)
Lemma create_unreserved_spec rd r idle reserved m : good m ->
  let res := _create_session_unreserved cfg rd r idle reserved m in
  good (snd res) /\ moves [] m (snd res) /\
  match fst res with
  | Dialling a => attempt_fits a /\ a_reserved a = reserved /\ a_request a = r /\
      (sm_clients m <= d_client (a_dial a) < sm_clients (snd res))%nat
  | _ => True
  end.
Proof.
  intros Hg. unfold _create_session_unreserved.
  destruct (destination_of r) as [dest|e] eqn:Hd; [| by split; [| split; [apply moves_refl |]]].
  set (key := pool_key_of r dest).
  pose proof (pool_lookup_spec rd key m Hg) as Hl. destruct (pool_lookup rd key m) as [found m1].
  simpl in Hl. destruct Hl as (Hg1 & Hl & _ & _). destruct found as [client|].
  - destruct Hl as (dr & cl & P & C & S & N).
    pose proof (register_good (now rd) (uuid4 rd) r idle key client m1 Hg1) as Hg2.
    pose proof (register_moves (now rd) (uuid4 rd) r idle key client m1 (proj1 Hg1) eq_refl) as
      (dr' & cl' & P' & C' & S' & N').
    destruct (register _ _ _ _ _ _ m1) as [sid m2]. simpl in *. split; [done |]. split; [| done].
    exists (dr ++ dr'), (cl ++ cl'). split; [| split; [| split; [| lia]]].
    + simpl. rewrite P, Permutation_middle, P'. solve_Permutation.
    + by rewrite C', C, app_assoc.
    + rewrite map_app. by apply submseteq_app.
  - pose proof (consult_same (now rd) (c_host r) m1 Hg1) as (Hg2 & Hs2 & Hc2).
    assert (Hm2 : moves [] m (snd (consult_breaker (now rd) (c_host r) m1)))
      by (eapply moves_trans0; [exact Hl | by apply same_moves]).
    destruct Hl as (_ & _ & _ & _ & _ & N1).
    destruct (consult_breaker (now rd) (c_host r) m1) as [[[breaker [|]]|e] m2]; simpl in *.
    2,3: by split.
    pose proof (prepare_dial_spec r idle dest breaker reserved m2 Hg2 Hd) as Hp.
    fold key in Hp. destruct (prepare_dial _ _ _ _ _ _ m2) as [p m3]. simpl in Hp.
    destruct Hp as (Hg3 & Hs3 & _ & _ & Hp). simpl. split; [done |].
    split; [eapply moves_trans0; [exact Hm2 | by apply same_moves] |].
    destruct p as [|e|a]; [done | done |]. destruct Hp as (F & R & Q & C & L).
    repeat split; try done; try apply F; rewrite ?C; lia.
Qed.

Lemma begin_create_spec rd r m : good m ->
  let res := begin_create cfg rd r m in
  good (snd res) /\ moves [] m (snd res) /\
  match fst res with
  | Dialling a => attempt_fits a /\ a_request a = r /\
      (sm_clients m <= d_client (a_dial a) < sm_clients (snd res))%nat
  | _ => True
  end.
Proof.
  intros Hg. unfold begin_create. pose proof (admission_good cfg (now rd) r m Hg) as Hg1.
  pose proof (admission_moves cfg (now rd) r m) as Hm1.
  destruct (admission cfg (now rd) r m) as [[reserved|e] m1]; simpl in *; [| by split].
  pose proof (create_unreserved_spec rd r (idle_timeout_of r m) reserved m1 Hg1) as (Hg2 & Hm2 & Hp).
  destruct Hm1 as (dr & cl & P & C & S & N).
  assert (Hm12 : forall m2, moves [] m1 m2 -> moves [] m m2)
    by (intros m2; apply (moves_trans0 [] m m1); by exists dr, cl).
  destruct (_create_session_unreserved _ _ _ _ _ m1) as [p m2]. simpl in *.
  destruct p as [sid|e|a]; simpl.
  3: { destruct Hp as (Hf & _ & Hr & Hc). split; [done |]. split; [by apply Hm12 |].
       split; [done |]. split; [done | lia]. }
  - split; [by apply (good_sub m2); [destruct reserved | destruct reserved | destruct reserved |] |].
    split; [| done]. eapply moves_trans0; [by apply Hm12 |]. apply same_moves, unreserve_same.
  - split; [by apply (good_sub m2); [destruct reserved | destruct reserved | destruct reserved |] |].
    split; [| done]. eapply moves_trans0; [by apply Hm12 |]. apply same_moves, unreserve_same.
Qed.
End Creating.

Lemma unreserve_good o m : good m -> good (unreserve o m).
Proof. by destruct o. Qed.

(** The end of a connection: its client enters the table under the key of its request, or is
    dropped, closed in most cases. *)
Lemma end_create_spec rd n a m : good m -> attempt_fits a ->
  let res := end_create rd n a m in
  good (snd res) /\ moves [(d_client (a_dial a), a_key a)] m (snd res) /\
  match fst res with
  | inl _ => _connect (a_dial a) n = DialOk
  | inr _ => moves [] m (snd res) \/
             exists m0, same_holdings m m0 /\ same_holdings (close_clients [d_client (a_dial a)] m0) (snd res)
  end.
Proof.
  intros Hg Hf. unfold end_create.
  assert (Hdrop : forall m0 m1, same_holdings m m0 -> same_holdings m0 m1 ->
    moves [(d_client (a_dial a), a_key a)] m m1).
  { intros m0 m1 [A1 A2 A3] [B1 B2 B3]. exists [(d_client (a_dial a), a_key a)], [].
    rewrite B1, A1, B2, A2, app_nil_r.
    split; [done |]. split; [done |]. split; [apply submseteq_nil_l | lia]. }
  assert (Hclose : forall m0 m1, same_holdings m m0 ->
    same_holdings (close_clients [d_client (a_dial a)] m0) m1 ->
    moves [(d_client (a_dial a), a_key a)] m m1).
  { intros m0 m1 [A1 A2 A3] [B1 B2 B3].
    exists [(d_client (a_dial a), a_key a)], [d_client (a_dial a)].
    rewrite B1, B2. change (holdings (close_clients _ m0)) with (holdings m0).
    rewrite A1. simpl in *. rewrite A2.
    split; [done |]. split; [done |]. split; [done | lia]. }
  destruct (_connect (a_dial a) n) eqn:E; simpl.
  - pose proof (report_same (a_breaker a) record_success m Hg) as [Hg1 Hs1].
    set (m1 := report _ _ m) in *.
    pose proof (register_good (now rd) (uuid4 rd) (a_request a) (a_idle_timeout a) (a_key a)
      (d_client (a_dial a)) m1 Hg1) as Hg2.
    assert (Hk : a_key a = mkKey (c_host (a_request a)) (c_port (a_request a)) (c_username (a_request a))
      (k_auth_method (a_key a)) (k_fingerprint (a_key a)) (k_destination (a_key a)))
      by (by rewrite (af_key _ Hf)).
    pose proof (register_moves (now rd) (uuid4 rd) (a_request a) (a_idle_timeout a) (a_key a)
      (d_client (a_dial a)) m1 (proj1 Hg1) Hk) as Hm2.
    split; [by apply unreserve_good |]. split; [| done].
    eapply moves_trans0; [by apply same_moves |].
    eapply (moves_trans [_] []); [exact Hm2 | apply same_moves, unreserve_same].
  - split; [by apply unreserve_good, good_close |].
    split; [eapply (Hclose m); [by split | apply unreserve_same] |].
    right. exists m. split; [by split | apply unreserve_same].
  - pose proof (report_same (a_breaker a) (record_failure (now rd)) m Hg) as [Hg1 Hs1].
    split; [by apply unreserve_good, good_close |].
    split; [eapply Hclose; [exact Hs1 | apply unreserve_same] |].
    right. eexists. split; [exact Hs1 | apply unreserve_same].
  - split; [by apply unreserve_good |].
    split; [eapply (Hdrop m); [by split | apply unreserve_same] |].
    left. apply same_moves, unreserve_same.
Qed.

(** ** Disconnecting *)
Lemma disconnect_spec rd sid m : good m ->
  good (snd (disconnect rd sid m)) /\ moves [] m (snd (disconnect rd sid m)).
Proof.
  intros Hg. unfold disconnect. destruct (dict_get sid (_sessions m)) as [addr|] eqn:G;
    [| split; [done | apply moves_refl]].
  set (m1 := set_sessions (dict_del sid (_sessions m)) m).
  assert (Hg1 : good m1) by (apply (good_sub m); [done | done | intros kv; apply dict_del_In | done]).
  destruct (record_at m addr) as [s|] eqn:R; simpl.
  2: { exfalso. destruct Hg as [Hw _]. unfold wf in Hw. rewrite List.Forall_forall in Hw.
       apply dict_get_In in G. specialize (Hw _ G). simpl in Hw.
       apply lookup_lt_is_Some in Hw as [x Hx]. unfold record_at in R. congruence. }
  pose proof (lookup_in_del (sm_heap m) (_sessions m) sid addr s G R) as Ht.
  assert (Hh : holdings m ≡ₚ held s :: holdings m1).
  { unfold holdings. rewrite table_lookup, Ht. done. }
  assert (Hclose : moves [] m (close_clients [s_client s] m1)).
  { exists [held s], [s_client s]. by repeat split. }
  unfold hand_back. destruct (_pool m1) as [p|] eqn:Ep; [| split; [by apply good_close | done]].
  destruct (s_destination_ip s) eqn:Hdst; [| split; [by apply good_close | done]].
  destruct (alive rd (s_client s)); [| split; [by apply good_close | done]].
  assert (Hpk : NoDup (map fst (_idle p))) by (destruct Hg1 as [_ Hp]; by rewrite Ep in Hp).
  pose proof (release_entries (monotonic rd) (session_key s) (s_client s) p Hpk) as Hrel. simpl in Hrel.
  destruct (release _ _ _ p) as [cl p']. simpl in Hrel. destruct Hrel as (Hk & d & Hd & ->). simpl.
  split; [split; [apply Hg1 | exact Hk] |].
  exists (map unpark d), (map entry_client d).
  split; [| split; [done | split; [by rewrite map_map | done]]].
  simpl. rewrite Hh. unfold holdings at 1. rewrite Ep. simpl.
  change (table (close_clients _ _)) with (table m1).
  unfold holdings. simpl. change (table (close_clients _ _)) with (table m1).
  transitivity (map held (table m1) ++
    map unpark ((session_key s, mkPooled (s_client s) (monotonic rd)) :: entries (_idle p)));
    [apply Permutation_middle | rewrite Hd, map_app; solve_Permutation].
Qed.
Lemma disconnect_each_spec rd ids : forall n m, good m ->
  good (snd (fold_left (fun '(count, m) sid => match disconnect rd sid m with
      | (inl _, m') => (S count, m') | (inr _, m') => (count, m') end) ids (n, m))) /\
  moves [] m (snd (fold_left (fun '(count, m) sid => match disconnect rd sid m with
      | (inl _, m') => (S count, m') | (inr _, m') => (count, m') end) ids (n, m))).
Proof.
  induction ids as [|sid ids IH]; simpl; intros n m Hg; [split; [done | apply moves_refl] |].
  destruct (disconnect_spec rd sid m Hg) as [Hg1 Hm1].
  destruct (disconnect rd sid m) as [[u|e] m1]; simpl in *.
  - destruct (IH (S n) m1 Hg1) as [Hg2 Hm2]. split; [done |]. by eapply moves_trans0.
  - destruct (IH n m1 Hg1) as [Hg2 Hm2]. split; [done |]. by eapply moves_trans0.
Qed.
Lemma close_pool_spec m : good m -> good (close_pool m) /\ moves [] m (close_pool m).
Proof.
  intros [Hw Hp]. unfold close_pool. destruct (_pool m) as [p|] eqn:Ep.
  2: { split; [by split; [| rewrite Ep] | apply moves_refl]. }
  simpl. split; [split; [done | constructor] |].
  exists (map unpark (entries (_idle p))), (all_clients (_idle p)).
  split; [| split; [done | split; [| done]]].
  - unfold holdings. rewrite Ep. simpl. rewrite app_nil_r. apply Permutation_app_comm.
  - by rewrite map_map, all_clients_entries.
Qed.

(** ** Leases, operations, reuse *)
Definition quiet (m m' : SSHSessionManager) : Prop :=
  good m' /\ same_holdings m m'.
Lemma quiet_refl m : good m -> quiet m m.
Proof. by split. Qed.
Lemma quiet_update addr f m : good m -> keeps f -> quiet m (update_record addr f m).
Proof. split; [by apply update_good | by apply update_same]. Qed.
Lemma operations_keep t : keeps (more_operations t) /\ keeps (fewer_operations t) /\ keeps (touch t).
Proof. repeat split. Qed.
#[local] Hint Resolve quiet_refl quiet_update : core.

Lemma lease_quiet t sid m : good m -> quiet m (snd (acquire_operation_lease t sid m)).
Proof.
  intros Hg. unfold acquire_operation_lease. destruct (get_session sid m); simpl; [| auto].
  apply quiet_update; [done | apply operations_keep].
Qed.
Lemma execute_quiet rd sid m : good m -> quiet m (snd (begin_execute rd sid m)).
Proof.
  intros Hg. unfold begin_execute. destruct (get_session sid m) as [addr|]; simpl; [| auto].
  assert (Hq : quiet m (update_record addr (more_operations (now rd)) m))
    by (apply quiet_update; [done | apply operations_keep]).
  destruct (match record_at m addr with Some s => _ | None => _ end); [done |].
  destruct (reconnect rd sid m) as [[|]|]; simpl; auto.
Qed.
Lemma stream_quiet rd sid m : good m -> quiet m (snd (begin_stream rd sid m)).
Proof.
  intros Hg. unfold begin_stream. destruct (get_session sid m); simpl; [| auto].
  apply quiet_update; [done | apply operations_keep].
Qed.
Lemma reuse_quiet rd q m : good m -> quiet m (snd (find_reusable_session rd q m)).
Proof.
  intros Hg. unfold find_reusable_session.
  destruct (truthy (q_owner_token_fingerprint q)); [| simpl; auto].
  destruct (truthy (q_source_ip q)); [| simpl; auto].
  destruct (q_validated_ips q); [simpl; auto |].
  destruct (canonical_ips _); simpl; [| auto]. destruct (List.find _ _); simpl; [| auto].
  apply quiet_update; [done | apply operations_keep].
Qed.
Lemma quiet_moves m m' : quiet m m' -> good m' /\ moves [] m m'.
Proof. intros [Hg Hs]. split; [done | by apply same_moves]. Qed.

(** ** The system *)
Definition dialling_clients (att : gmap nat attempt) : list nat :=
  map (fun ta => d_client (a_dial (snd ta))) (map_to_list att).
Definition vouched (opened : list attempt) (h : nat * PoolKey) : Prop :=
  exists a, In a opened /\ d_client (a_dial a) = fst h /\ a_key a = snd h.
(** Every client is in one place, none is used again once closed, and each one kept was opened
    by a dial under the key it is kept under. *)
Definition places (m : SSHSessionManager) (att : gmap nat attempt) : list nat :=
  map fst (holdings m) ++ dialling_clients att ++ sm_closed m.
Record system_ok (sy : System) : Prop := {
  so_good : good (sy_manager sy);
  so_fits : map_Forall (fun _ a => attempt_fits a) (sy_attempts sy);
  so_opened : Forall attempt_fits (sy_opened sy);
  so_unique : NoDup (places (sy_manager sy) (sy_attempts sy));
  so_made : Forall (fun c => (c < sm_clients (sy_manager sy))%nat) (places (sy_manager sy) (sy_attempts sy));
  so_vouched : Forall (vouched (sy_opened sy)) (holdings (sy_manager sy)) }.

Lemma submseteq_NoDup {A} (l k : list A) : l ⊆+ k -> NoDup k -> NoDup l.
Proof.
  intros (k' & Hk)%submseteq_Permutation Hn. rewrite Hk in Hn. by apply NoDup_app in Hn as (? & _).
Qed.
Lemma submseteq_Forall {A} (P : A -> Prop) (l k : list A) : l ⊆+ k -> Forall P k -> Forall P l.
Proof.
  intros (k' & Hk)%submseteq_Permutation Hn. rewrite Hk in Hn. by apply Forall_app in Hn as (? & _).
Qed.
Lemma moves_places add m m' att : moves add m m' ->
  places m' att ⊆+ map fst add ++ places m att.
Proof.
  intros (d & cl & P & C & S & _). unfold places. rewrite C.
  apply (Permutation_map fst) in P. rewrite !map_app in P.
  transitivity (map fst d ++ map fst (holdings m') ++ dialling_clients att ++ sm_closed m).
  - apply submseteq_Permutation in S as [k ->]. solve_submseteq.
  - rewrite (app_assoc (map fst d)), <- P. solve_submseteq.
Qed.
Lemma moves_holdings add m m' : moves add m m' -> holdings m' ⊆+ add ++ holdings m.
Proof. intros (d & cl & P & _). rewrite P. solve_submseteq. Qed.
Lemma moves_clients add m m' : moves add m m' -> (sm_clients m <= sm_clients m')%nat.
Proof. by intros (d & cl & _ & _ & _ & ?). Qed.

Lemma vouched_more opened a h : vouched opened h -> vouched (opened ++ [a]) h.
Proof. intros (x & Hx & ?). exists x. split; [| done]. apply in_or_app. by left. Qed.

Lemma system_moves sy m' : system_ok sy -> good m' -> moves [] (sy_manager sy) m' ->
  system_ok (with_manager m' sy).
Proof.
  intros [H1 H2 H3 H4 H5 H6] Hg Hm. split; try done; simpl.
  - eapply submseteq_NoDup; [by apply (moves_places []) | done].
  - eapply submseteq_Forall; [by apply (moves_places []) |]. eapply Forall_impl; [exact H5 |].
    simpl. intros c Hc. apply moves_clients in Hm. lia.
  - eapply submseteq_Forall; [by apply (moves_holdings []) | done].
Qed.
Lemma dialling_insert tid a att : att !! tid = None ->
  dialling_clients (<[tid := a]> att) ≡ₚ d_client (a_dial a) :: dialling_clients att.
Proof. intros Hn. unfold dialling_clients. by rewrite map_to_list_insert. Qed.
Lemma dialling_delete tid a att : att !! tid = Some a ->
  dialling_clients att ≡ₚ d_client (a_dial a) :: dialling_clients (delete tid att).
Proof. intros Hs. unfold dialling_clients. by rewrite <- (map_to_list_delete att tid a Hs). Qed.

(** A connection that starts to dial brings its fresh client. *)
Lemma system_started tid p m' sy : system_ok sy -> sy_attempts sy !! tid = None -> good m' ->
  moves [] (sy_manager sy) m' ->
  match p with
  | Dialling a => attempt_fits a /\
      (sm_clients (sy_manager sy) <= d_client (a_dial a) < sm_clients m')%nat
  | _ => True
  end -> system_ok (started tid p m' sy).
Proof.
  intros Hok Hn Hg Hm Hp. destruct p as [sid|e|a]; try by apply system_moves.
  destruct Hp as [Hf Hc]. pose proof (system_moves sy m' Hok Hg Hm) as [H1 H2 H3 H4 H5 H6].
  assert (Hpl : places m' (<[tid := a]> (sy_attempts sy)) ≡ₚ
                d_client (a_dial a) :: places m' (sy_attempts sy)).
  { unfold places. rewrite dialling_insert by done. simpl. by rewrite <- Permutation_middle. }
  split; try done; simpl.
  - by apply map_Forall_insert_2.
  - rewrite Hpl. constructor; [| done]. intros Hin.
    assert (Hold : d_client (a_dial a) ∈ places (sy_manager sy) (sy_attempts sy))
      by (eapply elem_of_submseteq; [exact Hin | by apply (moves_places [])]).
    pose proof (so_made _ Hok) as Hmade. rewrite Forall_forall in Hmade.
    specialize (Hmade _ Hold). simpl in Hmade. lia.
  - rewrite Hpl. constructor; [lia | done].
Qed.

Lemma system_dialled tid rd n a sy : system_ok sy -> sy_attempts sy !! tid = Some a ->
  system_ok (let '(res, m') := end_create rd n a (sy_manager sy) in
             mkSystem m' (delete tid (sy_attempts sy))
               (match res with inl _ => sy_opened sy ++ [a] | inr _ => sy_opened sy end)).
Proof.
  intros [H1 H2 H3 H4 H5 H6] Ha. pose proof (H2 tid a Ha) as Hf. simpl in Hf.
  pose proof (end_create_spec rd n a (sy_manager sy) H1 Hf) as (Hg & Hm & Hres).
  destruct (end_create rd n a (sy_manager sy)) as [res m']. simpl in Hg, Hm, Hres.
  assert (Hpl : places (sy_manager sy) (sy_attempts sy) ≡ₚ
                d_client (a_dial a) :: places (sy_manager sy) (delete tid (sy_attempts sy))).
  { unfold places. rewrite (dialling_delete tid a) by done. simpl. by rewrite <- Permutation_middle. }
  pose proof (moves_places _ _ _ (delete tid (sy_attempts sy)) Hm) as Hp. simpl in Hp.
  rewrite <- Hpl in Hp. split; simpl.
  - done.
  - by apply map_Forall_delete.
  - destruct res; [| done]. apply Forall_app. split; [done | by constructor].
  - by eapply submseteq_NoDup.
  - eapply submseteq_Forall; [exact Hp |]. eapply Forall_impl; [exact H5 |]. simpl. intros c Hc.
    apply moves_clients in Hm. lia.
  - destruct res as [sid|e].
    + eapply submseteq_Forall; [by apply moves_holdings |]. simpl. constructor.
      * exists a. split; [| done]. apply in_or_app. right. by left.
      * eapply Forall_impl; [exact H6 |]. intros h. apply vouched_more.
    + destruct Hres as [Hm0 | (m0 & S1 & S2)].
      * by eapply submseteq_Forall; [by apply (moves_holdings []) |].
      * destruct S1 as [S1 _ _], S2 as [S2 _ _]. rewrite S2.
        change (holdings (close_clients _ m0)) with (holdings m0). by rewrite S1.
Qed.

Section StepOk.
Context `{KeyFormats} (cfg : Settings) (targets : TargetPolicy).

Lemma connect_spec getaddrinfo rd req who ip m : good m ->
  let res := ssh_connect cfg targets getaddrinfo rd req who ip m in
  good (snd res) /\ moves [] m (snd res) /\
  match fst res with
  | Creating (Dialling a) => attempt_fits a /\ (sm_clients m <= d_client (a_dial a) < sm_clients (snd res))%nat
  | _ => True
  end.
Proof.
  intros Hg. unfold ssh_connect.
  destruct (validate_target_host _ _ _ _) as [[|pinned ips]|e]; simpl;
    try (split; [done | split; [apply moves_refl | done]]).
  set (look := if rr_reuse_existing req then _ else _).
  assert (Hl : good (snd look) /\ moves [] m (snd look)).
  { subst look. destruct (rr_reuse_existing req); [by apply quiet_moves, reuse_quiet |].
    split; [done | apply moves_refl]. }
  destruct look as [found m1]. simpl in Hl. destruct Hl as [Hg1 Hm1].
  destruct found as [[addr|]|e]; simpl; try (by split).
  pose proof (begin_create_spec cfg rd (create_request cfg req who ip pinned) m1 Hg1) as (Hg2 & Hm2 & Hp).
  destruct (begin_create _ _ _ m1) as [p m2]. simpl in *. split; [done |].
  split; [by eapply moves_trans0 |]. destruct p as [| |a]; [done | done |].
  destruct Hp as (Hf & _ & Hc). split; [done |]. apply moves_clients in Hm1. lia.
Qed.

Lemma step_ok e sy : system_ok sy -> system_ok (step cfg targets e sy).
Proof.
  intros Hok. pose proof (so_good _ Hok) as Hg.
  destruct e; simpl; try (apply system_moves; [done | |]).
  - destruct (sy_attempts sy !! tid) eqn:E; [done |].
    pose proof (connect_spec getaddrinfo rd req who source_ip (sy_manager sy) Hg) as (Hg1 & Hm & Hp).
    destruct (ssh_connect _ _ _ _ _ _ _ _) as [o m']. simpl in *.
    destruct o; try by apply system_moves. by apply system_started; [| | | | destruct p].
  - destruct (sy_attempts sy !! tid) eqn:E; [done |].
    pose proof (begin_create_spec cfg rd r (sy_manager sy) Hg) as (Hg1 & Hm & Hp).
    destruct (begin_create _ _ _ _) as [p m']. simpl in *. apply system_started; try done.
    destruct p; [done | done |]. by destruct Hp as (? & _ & ?).
  - destruct (sy_attempts sy !! tid) as [a|] eqn:E; [| done]. by apply system_dialled.
  - by apply disconnect_spec.
  - by apply disconnect_spec.
  - by apply disconnect_each_spec.
  - by apply disconnect_each_spec.
  - by apply disconnect_each_spec.
  - by apply disconnect_each_spec.
  - by apply close_pool_spec.
  - by apply close_pool_spec.
  - by apply cleanup_good.
  - apply cleanup_moves.
  - by destruct (quiet_moves _ _ (lease_quiet t session_id _ Hg)).
  - by destruct (quiet_moves _ _ (lease_quiet t session_id _ Hg)).
  - by destruct (quiet_moves _ _ (execute_quiet rd session_id _ Hg)).
  - by destruct (quiet_moves _ _ (execute_quiet rd session_id _ Hg)).
  - by destruct (quiet_moves _ _ (stream_quiet rd session_id _ Hg)).
  - by destruct (quiet_moves _ _ (stream_quiet rd session_id _ Hg)).
  - by apply update_good.
  - apply same_moves, update_same, operations_keep.
  - unfold update_session_timeout. by destruct (_ && _); [apply (good_sub (sy_manager sy)) |].
  - unfold update_session_timeout. by destruct (_ && _); apply same_moves; split.
Qed.
Lemma init_ok timeout size ttl breakers store :
  system_ok (init_system (new_manager timeout size ttl breakers store)).
Proof.
  assert (Hp : parked (_pool (new_manager timeout size ttl breakers store)) = [])
    by (unfold new_manager; simpl; by destruct (0 <? size)%Z).
  assert (Hh : holdings (new_manager timeout size ttl breakers store) = [])
    by (unfold holdings; rewrite Hp; done).
  split; simpl; unfold places; rewrite ?Hh; try done.
  - split; [constructor |]. unfold new_manager. simpl. destruct (0 <? size)%Z; [constructor | done].
  - constructor.
Qed.
End StepOk.

(** ** Facts about the admission of sessions and about reaping *)
#[local] Unset Default Proof Using.

(** ** Counting the sessions of an address *)
Definition sources (m : SSHSessionManager) : list (option string) := map s_source_ip (table m).
Definition count_ip (ip : string) (l : list (option string)) : nat :=
  length (List.filter (fun x => bool_decide (x = Some ip)) l).
Lemma sessions_from_count ip m : sessions_from ip m = count_ip ip (sources m).
Proof.
  unfold sessions_from, count_ip, sources, table, record_at.
  induction (_sessions m) as [|[sid a] d IH]; [done |]. simpl List.filter. simpl omap.
  destruct (sm_heap m !! a) as [s|]; [| exact IH]. unfold from_ip at 1. simpl.
  destruct (bool_decide _); simpl; [by f_equal | exact IH].
Qed.
Lemma count_ip_app ip l k : count_ip ip (l ++ k) = (count_ip ip l + count_ip ip k)%nat.
Proof. unfold count_ip. by rewrite List.filter_app, length_app. Qed.
Lemma count_ip_perm ip l k : l ≡ₚ k -> count_ip ip l = count_ip ip k.
Proof.
  unfold count_ip. induction 1 as [|x l k _ IH|x y l|]; simpl; [done | | | congruence].
  - destruct (bool_decide _); simpl; congruence.
  - by repeat destruct (bool_decide _).
Qed.
Lemma count_ip_sub ip l k : l ⊆+ k -> (count_ip ip l <= count_ip ip k)%nat.
Proof. intros (r & Hr)%submseteq_Permutation. rewrite (count_ip_perm ip _ _ Hr), count_ip_app. lia. Qed.

(** No session more, and the reservations as they were *)
Definition thins (m m' : SSHSessionManager) : Prop :=
  sources m' ⊆+ sources m /\ _pending_sessions_by_ip m' = _pending_sessions_by_ip m.
Lemma thins_refl m : thins m m.
Proof. done. Qed.
Lemma thins_trans m1 m2 m3 : thins m1 m2 -> thins m2 m3 -> thins m1 m3.
Proof. intros [S1 P1] [S2 P2]. split; [by transitivity (sources m2) | congruence]. Qed.
Lemma same_table_thins m m' : table m' = table m ->
  _pending_sessions_by_ip m' = _pending_sessions_by_ip m -> thins m m'.
Proof. intros Ht Hp. split; [unfold sources; by rewrite Ht | done]. Qed.

Lemma reap_thins stale m reaped kept : reap stale (sm_heap m) (_sessions m) = (reaped, kept) ->
  thins m (set_sessions kept m).
Proof.
  intros (_ & Hk & _)%reap_spec. split; [| done]. unfold sources.
  change (table (set_sessions kept m)) with (lookup_in (sm_heap m) kept).
  rewrite Hk, table_lookup. apply sublist_submseteq. generalize (lookup_in (sm_heap m) (_sessions m)).
  intros l. induction l as [|s l IH]; simpl; [done |].
  destruct (stale s); simpl; [by apply sublist_cons | by apply sublist_skip].
Qed.
Lemma cleanup_thins t m : thins m (snd (cleanup_stale_sessions t m)).
Proof.
  unfold cleanup_stale_sessions. destruct (reap _ _ _) as [rs ks] eqn:E. simpl.
  apply reap_thins in E. by apply (thins_trans _ _ _ E), same_table_thins.
Qed.
Lemma update_thins addr f m : keeps f -> thins m (update_record addr f m).
Proof.
  intros Hf. split; [| done]. unfold sources. rewrite !table_lookup. simpl.
  rewrite (lookup_in_alter s_source_ip); [done | apply Hf].
Qed.
Lemma dict_del_thins sid m : thins m (set_sessions (dict_del sid (_sessions m)) m).
Proof.
  split; [| done]. unfold sources. rewrite !table_lookup. simpl. apply sublist_submseteq.
  induction (_sessions m) as [|[k a] d IH]; simpl; [done |]. rewrite lookup_in_cons.
  destruct (String.eqb sid k).
  - destruct (sm_heap m !! a); [| done]. simpl. by apply sublist_cons.
  - rewrite lookup_in_cons. destruct (sm_heap m !! a); [| done]. simpl. by apply sublist_skip.
Qed.
Lemma disconnect_thins rd sid m : thins m (snd (disconnect rd sid m)).
Proof.
  unfold disconnect. destruct (dict_get sid (_sessions m)); [| done].
  pose proof (dict_del_thins sid m) as Hd. set (m1 := set_sessions _ m) in *.
  destruct (record_at m n) as [s|]; [| done]. simpl. apply (thins_trans _ _ _ Hd).
  unfold hand_back. destruct (_pool m1); [| by apply same_table_thins].
  destruct (s_destination_ip s); [| by apply same_table_thins].
  destruct (alive rd (s_client s)); [| by apply same_table_thins].
  destruct (release _ _ _ _). by apply same_table_thins.
Qed.
Lemma disconnect_each_thins rd ids : forall n m,
  thins m (snd (fold_left (fun '(count, m) sid => match disconnect rd sid m with
      | (inl _, m') => (S count, m') | (inr _, m') => (count, m') end) ids (n, m))).
Proof.
  induction ids as [|sid ids IH]; simpl; intros n m; [done |].
  pose proof (disconnect_thins rd sid m) as Hd. destruct (disconnect rd sid m) as [[u|e] m1];
    simpl in *; (eapply thins_trans; [exact Hd | apply IH]).
Qed.
Lemma lookup_thins rd key m : thins m (snd (pool_lookup rd key m)).
Proof.
  unfold pool_lookup. destruct (_pool m); [| done]. destruct (k_destination key); [| done].
  destruct (acquire _ _ _ _) as [[f cl] p']. by apply same_table_thins.
Qed.
Lemma consult_thins t host m : thins m (snd (consult_breaker t host m)).
Proof.
  unfold consult_breaker. destruct (_circuit_breakers m); [| done].
  destruct (get_breaker _ _ _) as [[a rg]|]; [| done]. destruct (rg_heap rg !! a); by apply same_table_thins.
Qed.
Lemma report_thins b f m : thins m (report b f m).
Proof. unfold report. destruct b; [| done]. destruct (_circuit_breakers m); by apply same_table_thins. Qed.
Lemma begin_execute_thins rd sid m : thins m (snd (begin_execute rd sid m)).
Proof.
  unfold begin_execute. destruct (get_session sid m) as [addr|]; [| done].
  assert (Hq : thins m (update_record addr (more_operations (now rd)) m))
    by (apply update_thins, operations_keep).
  destruct (match record_at m addr with Some s => _ | None => _ end); [done |].
  by destruct (reconnect rd sid m) as [[|]|].
Qed.
Lemma reuse_thins rd q m : thins m (snd (find_reusable_session rd q m)).
Proof.
  unfold find_reusable_session. destruct (truthy _); [| done]. destruct (truthy _); [| done].
  destruct (q_validated_ips q); [done |]. destruct (canonical_ips _); [| done].
  destruct (List.find _ _); [| done]. apply update_thins, operations_keep.
Qed.

(** A registered session adds its source address, at most. *)
Lemma register_sources t uuid r idle key client m : wf m ->
  let m' := snd (register t uuid r idle key client m) in
  sources m' ⊆+ c_source_ip r :: sources m /\
  _pending_sessions_by_ip m' = _pending_sessions_by_ip m.
Proof.
  intros Hw. unfold register. simpl. set (rec := mkSession _ _ _ _ _ _ _ _ _ _ _ _ _ _ _ _ _ _).
  set (sid := default uuid _). split; [| done].
  destruct (lookup_in_set (sm_heap m ++ [rec]) (_sessions m) sid (length (sm_heap m)) rec) as (d & Hd).
  { rewrite lookup_app_r, Nat.sub_diag by done. done. }
  rewrite lookup_in_app in Hd by done. apply (Permutation_map s_source_ip) in Hd.
  unfold sources. rewrite !table_lookup. simpl. rewrite map_app in Hd. simpl in Hd. rewrite Hd.
  solve_submseteq.
Qed.

(** ** Reservations *)
(** The counter of every address is positive and has one entry. *)
Definition counters (d : dict Z) : Prop := NoDup (keys d) /\ Forall (fun v => (1 <= v)%Z) (values d).
Definition counter (ip : string) (d : dict Z) : Z := default 0%Z (dict_get ip d).

Lemma values_set k v d : (1 <= v)%Z -> Forall (fun v => (1 <= v)%Z) (values d) ->
  Forall (fun v => (1 <= v)%Z) (values (dict_set k v d)).
Proof.
  intros Hv. unfold values. induction d as [|[k' v'] d IH]; simpl; intros Hf; [by repeat constructor |].
  apply Forall_cons in Hf as [? Hf]. destruct (String.eqb k k'); simpl; constructor; auto.
Qed.
Lemma values_del k d : Forall (fun v => (1 <= v)%Z) (values d) ->
  Forall (fun v => (1 <= v)%Z) (values (dict_del k d)).
Proof.
  unfold values. induction d as [|[k' v'] d IH]; simpl; intros Hf; [done |].
  apply Forall_cons in Hf as [? Hf]. destruct (String.eqb k k'); simpl; [done |]. constructor; auto.
Qed.
Lemma counter_nonneg ip d : counters d -> (0 <= counter ip d)%Z.
Proof.
  intros [_ Hf]. unfold counter. destruct (dict_get ip d) as [v|] eqn:E; simpl; [| lia].
  apply dict_get_In in E. rewrite List.Forall_forall in Hf.
  specialize (Hf v). cut (In v (values d)); [intros Hi; specialize (Hf Hi); lia |].
  unfold values. apply in_map_iff. by exists (ip, v).
Qed.
Lemma reserve_counter ip d : counters d ->
  counters (dict_set ip (counter ip d + 1)%Z d) /\
  forall ip', counter ip' (dict_set ip (counter ip d + 1)%Z d) =
    (counter ip' d + (if String.eqb ip ip' then 1 else 0))%Z.
Proof.
  intros Hc. pose proof (counter_nonneg ip d Hc) as H0. destruct Hc as [Hn Hf]. split.
  - split; [by apply dict_set_NoDup | apply values_set; [lia | done]].
  - intros ip'. unfold counter at 1. destruct (String.eqb_spec ip ip') as [<- | Hne].
    + by rewrite dict_get_set_eq.
    + rewrite dict_get_set_ne by done. unfold counter. lia.
Qed.
Definition lowered (ip : string) (d : dict Z) : dict Z :=
  if (counter ip d <=? 1)%Z then dict_del ip d else dict_set ip (counter ip d - 1)%Z d.
Lemma unreserve_counter ip d : counters d -> (1 <= counter ip d)%Z ->
  counters (lowered ip d) /\
  forall ip', counter ip' (lowered ip d) = (counter ip' d - (if String.eqb ip ip' then 1 else 0))%Z.
Proof.
  intros [Hn Hf] H1. unfold lowered. destruct (Z.leb_spec (counter ip d) 1).
  - split; [split; [by apply dict_del_NoDup | by apply values_del] |]. intros ip'.
    unfold counter at 1. destruct (String.eqb_spec ip ip') as [<- | Hne].
    + rewrite dict_get_del_eq by done. simpl. lia.
    + rewrite dict_get_del_ne by done. unfold counter. lia.
  - split; [split; [by apply dict_set_NoDup | apply values_set; [lia | done]] |]. intros ip'.
    unfold counter at 1. destruct (String.eqb_spec ip ip') as [<- | Hne].
    + by rewrite dict_get_set_eq.
    + rewrite dict_get_set_ne by done. unfold counter. lia.
Qed.
Lemma unreserve_pending ip m : _pending_sessions_by_ip (unreserve (Some ip) m) =
  lowered ip (_pending_sessions_by_ip m).
Proof. done. Qed.
Lemma unreserve_sources o m : sources (unreserve o m) = sources m.
Proof. by destruct o. Qed.

(** ** Admission *)
Definition limits_positive (cfg : Settings) : Prop := (0 < max_sessions_per_ip cfg)%Z.
(** The widest lane *)
Definition top_limit (cfg : Settings) : Z :=
  Z.max (max_sessions_per_ip cfg) (if api_auth_enabled cfg then master_max_sessions_per_ip cfg else 0).
Lemma session_limit_bounds cfg r : limits_positive cfg ->
  (0 < session_limit cfg r <= top_limit cfg)%Z.
Proof.
  unfold limits_positive, session_limit, top_limit. intros Hp.
  destruct (c_privileged_capacity r && _ && _ && _) eqn:E; [| lia].
  rewrite !andb_true_iff, Z.ltb_lt in E. destruct E as [[[_ ->] _] Hm]. lia.
Qed.

Lemma truthy_spec o s : truthy o = Some s -> o = Some s /\ s <> "".
Proof. destruct o as [t|]; simpl; [| done]. destruct (String.eqb_spec t ""); [done |]. by intros [= ->]. Qed.

Lemma admission_spec cfg t r m : limits_positive cfg -> good m ->
  match admission cfg t r m with
  | (inl None, m1) => m1 = m /\ truthy (c_source_ip r) = None
  | (inl (Some ip), m1) => truthy (c_source_ip r) = Some ip /\ sources m1 ⊆+ sources m /\
      _pending_sessions_by_ip m1 =
        dict_set ip (counter ip (_pending_sessions_by_ip m) + 1)%Z (_pending_sessions_by_ip m) /\
      (Z.of_nat (count_ip ip (sources m1)) + counter ip (_pending_sessions_by_ip m)
         < session_limit cfg r)%Z
  | (inr e, m1) => thins m m1 /\ exists ip, truthy (c_source_ip r) = Some ip /\
      e = SessionLimitError ip (session_limit cfg r) /\
      (session_limit cfg r <= Z.of_nat (count_ip ip (sources m1)) +
         counter ip (_pending_sessions_by_ip m))%Z
  end.
Proof.
  intros Hl Hg. unfold admission. pose proof (session_limit_bounds cfg r Hl) as [Hpos _].
  destruct (truthy (c_source_ip r)) as [ip|]; [| done].
  destruct (Z.ltb_spec 0 (session_limit cfg r)); [| lia].
  destruct (reap _ _ _) as [rs ks] eqn:E. apply reap_thins in E. rewrite sessions_from_count.
  change (pending_from ip (set_sessions ks m)) with (counter ip (_pending_sessions_by_ip m)).
  destruct (Z.leb_spec (session_limit cfg r)
    (Z.of_nat (count_ip ip (sources (set_sessions ks m))) + counter ip (_pending_sessions_by_ip m))).
  - split; [done |]. by exists ip.
  - split; [done |]. split; [apply E |]. split; [done |]. done.
Qed.

(** ** The books *)
(** [R]: how many connections in flight hold a reservation for an address *)
Definition plus (o : option string) (R : string -> nat) (ip : string) : nat :=
  (R ip + if bool_decide (o = Some ip) then 1 else 0)%nat.
Record booked (cfg : Settings) (R : string -> nat) (m : SSHSessionManager) : Prop := {
  bk_counters : counters (_pending_sessions_by_ip m);
  bk_counter : forall ip, counter ip (_pending_sessions_by_ip m) = Z.of_nat (R ip);
  bk_bound : forall ip, ip <> "" ->
    (Z.of_nat (count_ip ip (sources m)) + Z.of_nat (R ip) <= top_limit cfg)%Z }.
(** Who holds a reservation: the requests that name a source address *)
Definition reserves (r : ConnectRequest) (o : option string) : Prop := o = truthy (c_source_ip r).

Lemma booked_thins cfg R m m' : thins m m' -> booked cfg R m -> booked cfg R m'.
Proof.
  intros [Hs Hp] [H1 H2 H3]. split; rewrite ?Hp; [done | done |].
  intros ip Hne. pose proof (count_ip_sub ip _ _ Hs). specialize (H3 ip Hne). lia.
Qed.
Lemma booked_unreserve cfg R o r m m' : reserves r o -> sources m' ⊆+ c_source_ip r :: sources m ->
  _pending_sessions_by_ip m' = _pending_sessions_by_ip m -> booked cfg (plus o R) m ->
  booked cfg R (unreserve o m').
Proof.
  intros Hr Hs Hp [H1 H2 H3].
  assert (Hb : forall ip, ip <> "" ->
    (Z.of_nat (count_ip ip (sources (unreserve o m'))) + Z.of_nat (R ip) <= top_limit cfg)%Z).
  { intros ip Hne. rewrite unreserve_sources. pose proof (count_ip_sub ip _ _ Hs) as Hc.
    specialize (H3 ip Hne). unfold plus in H3. unfold count_ip in Hc at 2. simpl in Hc.
    unfold reserves in Hr. case_bool_decide as E; case_bool_decide as E'; simpl in Hc;
      unfold count_ip in *; try lia.
    exfalso. apply E'. rewrite Hr, E. simpl. by destruct (String.eqb_spec ip ""). }
  destruct o as [ip|].
  - pose proof (H2 ip) as Hip. unfold plus in Hip. rewrite bool_decide_eq_true_2 in Hip by done.
    destruct (unreserve_counter ip (_pending_sessions_by_ip m) H1) as [C1 C2]; [lia |].
    split; [rewrite unreserve_pending, Hp; exact C1 | | exact Hb].
    intros ip'. rewrite unreserve_pending, Hp, C2, H2. unfold plus.
    case_bool_decide as E; destruct (String.eqb_spec ip ip'); simplify_eq; lia.
  - split; simpl; rewrite ?Hp; [done | | exact Hb]. intros ip. rewrite H2. unfold plus.
    case_bool_decide; [done | lia].
Qed.
Lemma thins_cons x m m' : thins m m' -> sources m' ⊆+ x :: sources m.
Proof. intros [Hs _]. by apply submseteq_cons. Qed.
Lemma booked_release cfg R o r m m' : reserves r o -> thins m m' -> booked cfg (plus o R) m ->
  booked cfg R (unreserve o m').
Proof. intros Hr Ht. by apply (booked_unreserve cfg R o r m); [| apply thins_cons | apply Ht]. Qed.

Section Booking.
Context `{KeyFormats} (cfg : Settings) (Hlim : limits_positive cfg).

Lemma admission_booked t r m R : good m -> booked cfg R m ->
  match admission cfg t r m with
  | (inl o, m1) => reserves r o /\ booked cfg (plus o R) m1
  | (inr _, m1) => booked cfg R m1
  end.
Proof.
  intros Hg Hb. pose proof (admission_spec cfg t r m Hlim Hg) as Ha.
  destruct (admission cfg t r m) as [[[ip|]|e] m1].
  - destruct Ha as (Ht & Hs & Hp & Hc). split; [by rewrite <- Ht |].
    destruct (reserve_counter ip _ (bk_counters _ _ _ Hb)) as [C1 C2].
    pose proof (session_limit_bounds cfg r Hlim) as [_ Htop].
    split; rewrite ?Hp; [done | |].
    + intros ip'. rewrite C2, (bk_counter _ _ _ Hb). unfold plus.
      destruct (String.eqb_spec ip ip'); case_bool_decide; simplify_eq; lia.
    + intros ip' Hne. unfold plus. case_bool_decide as E.
      * injection E as ->. rewrite (bk_counter _ _ _ Hb) in Hc. lia.
      * pose proof (bk_bound _ _ _ Hb ip' Hne). pose proof (count_ip_sub ip' _ _ Hs). lia.
  - destruct Ha as [-> Ht]. split; [by rewrite <- Ht |]. destruct Hb as [H1 H2 H3].
    split; [done | |]; intros ip; unfold plus; (case_bool_decide; [done |]).
    + rewrite H2. lia.
    + intros Hne. specialize (H3 ip Hne). lia.
  - destruct Ha as [Ht _]. by eapply booked_thins.
Qed.

(** Up to the dial nothing is reserved or released; a pooled connection is registered. *)
Lemma create_unreserved_books rd r idle o m : good m ->
  match _create_session_unreserved cfg rd r idle o m with
  | (Connected _, m') => sources m' ⊆+ c_source_ip r :: sources m /\
      _pending_sessions_by_ip m' = _pending_sessions_by_ip m
  | (Dialling a, m') => thins m m' /\ a_reserved a = o /\ a_request a = r
  | (Refused _, m') => thins m m'
  end.
Proof.
  intros Hg. unfold _create_session_unreserved.
  destruct (destination_of r) as [dest|e] eqn:Hd; [| done].
  set (key := pool_key_of r dest).
  pose proof (pool_lookup_spec rd key m Hg) as (Hg1 & _). pose proof (lookup_thins rd key m) as Ht.
  destruct (pool_lookup rd key m) as [[client|] m1]; cbn [fst snd] in *.
  - pose proof (register_sources (now rd) (uuid4 rd) r idle key client m1 (proj1 Hg1)) as [Hs Hp].
    rewrite (surjective_pairing (register _ _ _ _ _ _ m1)). destruct Ht as [Ht1 Ht2].
    split; [| by rewrite Hp]. transitivity (c_source_ip r :: sources m1); [done |].
    by apply submseteq_skip.
  - pose proof (consult_same (now rd) (c_host r) m1 Hg1) as (Hg2 & _).
    pose proof (thins_trans _ _ _ Ht (consult_thins (now rd) (c_host r) m1)) as Ht2.
    destruct (consult_breaker _ _ m1) as [[[breaker [|]]|e] m2]; simpl in *; try done.
    pose proof (prepare_dial_spec cfg r idle dest breaker o m2 Hg2 Hd) as Hp. fold key in Hp.
    destruct (prepare_dial _ _ _ _ _ _ m2) as [p m3]. simpl in Hp.
    destruct Hp as (_ & _ & Hpe & Hta & Hp).
    pose proof (thins_trans _ _ _ Ht2 (same_table_thins _ _ Hta Hpe)) as Ht3.
    destruct p; [done | done |]. by destruct Hp as (_ & ? & ? & _).
Qed.

Lemma begin_create_booked rd r m R : good m -> booked cfg R m ->
  match begin_create cfg rd r m with
  | (Dialling a, m') => reserves (a_request a) (a_reserved a) /\ booked cfg (plus (a_reserved a) R) m'
  | (_, m') => booked cfg R m'
  end.
Proof.
  intros Hg Hb. unfold begin_create. pose proof (admission_booked (now rd) r m R Hg Hb) as Ha.
  pose proof (admission_good cfg (now rd) r m Hg) as Hg1.
  destruct (admission cfg (now rd) r m) as [[o|e] m1]; [| done]. destruct Ha as [Hr Hb1]. simpl in Hg1.
  pose proof (create_unreserved_books rd r (idle_timeout_of r m) o m1 Hg1) as Hc.
  destruct (_create_session_unreserved _ _ _ _ _ m1) as [[sid|e|a] m2].
  - destruct Hc as [Hs Hp]. by eapply booked_unreserve.
  - by eapply booked_release.
  - destruct Hc as (Ht & -> & ->). split; [done |]. by eapply booked_thins.
Qed.

Lemma end_create_booked rd n a m R : good m -> reserves (a_request a) (a_reserved a) ->
  booked cfg (plus (a_reserved a) R) m -> booked cfg R (snd (end_create rd n a m)).
Proof.
  intros Hg Hr Hb. unfold end_create.
  destruct (_connect (a_dial a) n); simpl.
  - pose proof (report_same (a_breaker a) record_success m Hg) as [Hg1 _].
    pose proof (report_thins (a_breaker a) record_success m) as [Ht1 Ht2]. set (m1 := report _ _ m) in *.
    pose proof (register_sources (now rd) (uuid4 rd) (a_request a) (a_idle_timeout a) (a_key a)
      (d_client (a_dial a)) m1 (proj1 Hg1)) as [Hs Hp]. simpl in Hs, Hp.
    apply (booked_unreserve cfg R (a_reserved a) (a_request a) m); [done | | | done].
    + etransitivity; [exact Hs |]. by apply submseteq_skip.
    + simpl. congruence.
  - apply (booked_release cfg R (a_reserved a) (a_request a) m); [done | by apply same_table_thins | done].
  - apply (booked_release cfg R (a_reserved a) (a_request a) m); [done | | done].
    eapply thins_trans; [apply report_thins | by apply same_table_thins].
  - apply (booked_release cfg R (a_reserved a) (a_request a) m); [done | by apply same_table_thins | done].
Qed.
End Booking.

(** ** The books of the system *)
Definition in_flight (att : gmap nat attempt) (ip : string) : nat :=
  length (List.filter (fun ta => bool_decide (a_reserved (snd ta) = Some ip)) (map_to_list att)).
Record books_ok (cfg : Settings) (sy : System) : Prop := {
  bo_reserves : map_Forall (fun _ a => reserves (a_request a) (a_reserved a)) (sy_attempts sy);
  bo_booked : booked cfg (in_flight (sy_attempts sy)) (sy_manager sy) }.

Lemma booked_ext cfg R R' m : (forall ip, R ip = R' ip) -> booked cfg R m -> booked cfg R' m.
Proof.
  intros He [H1 H2 H3]. split; [done | |]; intros ip; rewrite <- He; [apply H2 | apply H3].
Qed.
Lemma filter_length_perm {A} (p : A -> bool) l k : l ≡ₚ k ->
  length (List.filter p l) = length (List.filter p k).
Proof.
  induction 1 as [|x l k _ IH|x y l|]; simpl; [done | | | congruence].
  - destruct (p x); simpl; congruence.
  - by destruct (p x), (p y).
Qed.
Lemma in_flight_cons tid a att ip l : map_to_list att ≡ₚ (tid, a) :: l ->
  in_flight att ip = plus (a_reserved a)
    (fun ip => length (List.filter (fun ta : nat * attempt => bool_decide (a_reserved (snd ta) = Some ip)) l)) ip.
Proof.
  intros Hp. unfold in_flight, plus. rewrite (filter_length_perm _ _ _ Hp). simpl.
  destruct (bool_decide _); simpl; lia.
Qed.
Lemma in_flight_insert tid a att ip : att !! tid = None ->
  in_flight (<[tid := a]> att) ip = plus (a_reserved a) (in_flight att) ip.
Proof. intros Hn. by apply (in_flight_cons tid), map_to_list_insert. Qed.
Lemma in_flight_delete tid a att ip : att !! tid = Some a ->
  in_flight att ip = plus (a_reserved a) (in_flight (delete tid att)) ip.
Proof. intros Hs. apply (in_flight_cons tid). symmetry. by apply map_to_list_delete. Qed.

Section StepBooks.
Context `{KeyFormats} (cfg : Settings) (targets : TargetPolicy) (Hlim : limits_positive cfg).

Lemma books_thins sy m' : books_ok cfg sy -> thins (sy_manager sy) m' ->
  books_ok cfg (with_manager m' sy).
Proof. intros [H1 H2] Ht. split; [done |]. by eapply booked_thins. Qed.
Lemma books_started sy tid p m' : books_ok cfg sy -> sy_attempts sy !! tid = None ->
  match p with
  | Dialling a => reserves (a_request a) (a_reserved a) /\
                  booked cfg (plus (a_reserved a) (in_flight (sy_attempts sy))) m'
  | _ => booked cfg (in_flight (sy_attempts sy)) m'
  end -> books_ok cfg (started tid p m' sy).
Proof.
  intros [H1 H2] Hn Hp. destruct p as [sid|e|a]; [by split | by split |]. destruct Hp as [Hr Hb].
  split; simpl; [by apply map_Forall_insert_2 |].
  eapply booked_ext; [| exact Hb]. intros ip. by rewrite in_flight_insert.
Qed.

Lemma step_books_ok e sy : system_ok sy -> books_ok cfg sy -> books_ok cfg (step cfg targets e sy).
Proof.
  intros Hok Hb. pose proof (so_good _ Hok) as Hg. pose proof (bo_booked _ _ Hb) as Hbk.
  destruct e; cbn [step]; try apply books_thins; try done.
  - destruct (sy_attempts sy !! tid) eqn:E; [done |]. unfold ssh_connect.
    destruct (validate_target_host _ _ _ _) as [[|pinned ips]|e]; try by apply books_thins.
    set (look := if rr_reuse_existing req then _ else _).
    assert (Hl : good (snd look) /\ thins (sy_manager sy) (snd look)).
    { subst look. destruct (rr_reuse_existing req); [| done].
      split; [by apply reuse_quiet | apply reuse_thins]. }
    destruct look as [found m1]. simpl in Hl. destruct Hl as [Hg1 Ht1].
    destruct found as [[addr|]|e]; try by apply books_thins.
    pose proof (begin_create_booked cfg Hlim rd (create_request cfg req who source_ip pinned) m1
      _ Hg1 (booked_thins _ _ _ _ Ht1 Hbk)) as Hc.
    destruct (begin_create _ _ _ m1) as [p m2]. apply books_started; [done | done | by destruct p].
  - destruct (sy_attempts sy !! tid) eqn:E; [done |].
    pose proof (begin_create_booked cfg Hlim rd r _ _ Hg Hbk) as Hc.
    destruct (begin_create _ _ _ _) as [p m2]. apply books_started; [done | done | by destruct p].
  - destruct (sy_attempts sy !! tid) as [a|] eqn:E; [| done].
    pose proof (bo_reserves _ _ Hb tid a E) as Hr. simpl in Hr.
    assert (Hbk' : booked cfg (plus (a_reserved a) (in_flight (delete tid (sy_attempts sy)))) (sy_manager sy)).
    { eapply booked_ext; [| exact Hbk]. intros ip. by apply in_flight_delete. }
    pose proof (end_create_booked cfg rd n a _ _ Hg Hr Hbk') as He.
    destruct (end_create _ _ _ _) as [res m']. split; [| exact He].
    apply map_Forall_delete, Hb.
  - apply disconnect_thins.
  - apply disconnect_each_thins.
  - apply disconnect_each_thins.
  - unfold close_pool. destruct (_pool (sy_manager sy)); [| done]. by apply same_table_thins.
  - apply cleanup_thins.
  - unfold acquire_operation_lease. destruct (get_session _ _); [| done]. by apply update_thins.
  - apply begin_execute_thins.
  - unfold begin_stream. destruct (get_session _ _); [| done]. by apply update_thins.
  - by apply update_thins.
  - unfold update_session_timeout. by destruct (_ && _).
Qed.
Lemma init_books timeout size ttl breakers store :
  books_ok cfg (init_system (new_manager timeout size ttl breakers store)).
Proof.
  assert (Hf : forall ip, in_flight ∅ ip = 0%nat) by (intros ip; unfold in_flight; by rewrite map_to_list_empty).
  split; [done |]. simpl. split; [split; constructor | |]; intros ip; rewrite Hf; [done |].
  intros _. change (sources (new_manager timeout size ttl breakers store)) with (@nil (option string)).
  unfold top_limit, limits_positive in *. unfold count_ip. simpl. lia.
Qed.
End StepBooks.
