(* ===== verification/Rbac.v ===== *)
(** * Roles, scopes and tenant isolation (app/rbac.py, and the scope and ownership checks of
    app/auth_middleware.py)

    Permissions and labels are finite sets ([gset]). *)
From S2P Require Import Prelude PyStr CommandGate.
From stdpp Require Import gmap.
From stdpp Require Import options.

Definition CONNECT : string := "connect".
Definition EXECUTE : string := "execute".
Definition UPLOAD : string := "upload".
Definition ADMIN : string := "admin".
Definition ALL_PERMISSIONS : gset string := list_to_set [CONNECT; EXECUTE; UPLOAD; ADMIN].

Record Role : Type := mkRole {
  role_name : string; role_permissions : gset string; role_resource_selector : list string }.

Definition BUILTIN_ROLES : dict Role := [
  ("admin", mkRole "admin" ALL_PERMISSIONS []);
  ("operator", mkRole "operator" (list_to_set [CONNECT; EXECUTE; UPLOAD]) []);
  ("viewer", mkRole "viewer" (list_to_set [CONNECT]) []);
  ("custom", mkRole "custom" ∅ [])].

Definition SCOPE_PERMISSIONS : dict string := [
  ("ssh:connect", CONNECT); ("ssh:execute", EXECUTE); ("ssh:execute:argv", EXECUTE);
  ("ssh:disconnect", EXECUTE); ("ssh:files", UPLOAD); ("ssh:port-check", CONNECT);
  ("jobs:read", CONNECT); ("jobs:run", EXECUTE); ("auth:read", CONNECT);
  ("diagnostics:read", CONNECT); ("project:read", CONNECT); ("project:patch", EXECUTE);
  ("project:write", EXECUTE)].

Definition get_role (name : option string) : option Role :=
  match name with None => None | Some n => dict_get n BUILTIN_ROLES end.

Definition default_role_for_scopes (scopes : option (list string)) : option string :=
  if bool_decide (default [] scopes = ["*"]) then Some "admin" else None.

Definition scopes_for_role (role : option string) : list string :=
  if bool_decide (role = Some "admin") then ["*"]
  else match dict_get (default "" role) BUILTIN_ROLES with
       | None => []
       | Some role_def =>
           map fst (List.filter (fun sp => bool_decide (snd sp ∈ role_permissions role_def))
                      SCOPE_PERMISSIONS)
       end.

Definition role_allows_scope (role : option string) (custom_permissions : option (gset string))
    (required_scope : string) : bool :=
  match role with
  | None => false
  | Some name =>
      if String.eqb name "admin" then true
      else
        let permissions :=
          match custom_permissions with
          | Some ps => if String.eqb name "custom" then Some ps
                       else option_map role_permissions (dict_get name BUILTIN_ROLES)
          | None => option_map role_permissions (dict_get name BUILTIN_ROLES)
          end in
        match permissions with
        | None => false
        | Some ps =>
            match dict_get required_scope SCOPE_PERMISSIONS with
            | None => false
            | Some needed => bool_decide (needed ∈ ps)
            end
        end
  end.

(** [None]: not a tuple, list or set *)
Definition labels_overlap (a b : option (list string)) : bool :=
  match a, b with
  | Some a, Some b =>
      bool_decide (a <> []) && bool_decide (b <> [])
        && bool_decide ((list_to_set a : gset string) ∩ list_to_set b <> ∅)
  | _, _ => false
  end.

(** The attributes of a session that the checks read; [None]: absent *)
Record Session : Type := mkSession {
  ss_owner_type : option string; ss_owner_token_fingerprint : option string;
  ss_tenant_labels : option (list string) }.

Definition identity_permissions (i : AuthIdentity) : option (gset string) :=
  option_map list_to_set (id_role_permissions i).

(** [getattr(session, "tenant_labels", ()) or ()] *)
Definition session_labels (s : Session) : list string := default [] (ss_tenant_labels s).

Definition is_admin (i : AuthIdentity) : bool :=
  String.eqb (id_token_type i) "master" || bool_decide (id_role i = Some "admin").

Definition session_visible_to (s : Session) (i : AuthIdentity) : bool :=
  if is_admin i then true
  else if bool_decide (ss_owner_type s = Some "agent")
          && bool_decide (ss_owner_token_fingerprint s = Some (fingerprint i)) then true
  else
    let by_selector :=
      match get_role (id_role i) with
      | Some role => bool_decide (role_resource_selector role <> [])
                       && labels_overlap (Some (role_resource_selector role))
                            (Some (session_labels s))
      | None => false
      end in
    by_selector || labels_overlap (Some (id_tenant_labels i)) (Some (session_labels s)).

(** [owner_id]: [getattr(job, "owner_id", "")] or the dict's *)
Definition job_visible_to (owner_id : string) (i : AuthIdentity) : bool :=
  if is_admin i then true
  else negb (String.eqb owner_id "") && String.eqb owner_id (fingerprint i).

(** ** app/auth_middleware.py *)
Definition require_scope (required : string) (identity : option AuthIdentity)
    : result AuthIdentity :=
  match identity with
  | None => Raise (HTTPException 401 "Authentication required")
  | Some i =>
      if String.eqb (id_token_type i) "master" then Ok i
      else if mem "*" (id_scopes i) || mem required (id_scopes i) then Ok i
      else if role_allows_scope (id_role i) (identity_permissions i) required then Ok i
      else Raise (HTTPException 403 ("Missing required scope: " +s+ required))
  end.

Definition ensure_session_owner (s : Session) (i : AuthIdentity) : result unit :=
  let refused := Raise (HTTPException 403 "Agent token cannot access this session") in
  if is_admin i then Ok tt
  else if negb (bool_decide (ss_owner_type s = Some "agent")) then refused
  else if negb (bool_decide (ss_owner_token_fingerprint s = Some (fingerprint i))) then
    if labels_overlap (Some (id_tenant_labels i)) (Some (session_labels s)) then Ok tt
    else refused
  else Ok tt.

(** ** Facts *)
Lemma labels_overlap_spec a b :
  labels_overlap (Some a) (Some b) = true <-> exists l, In l a /\ In l b.
Proof.
  simpl. rewrite !andb_true_iff, !bool_decide_eq_true. split.
  - intros [_ Hne]. apply set_choose_L in Hne as [l Hl].
    exists l. rewrite <- !list_elem_of_In. set_solver.
  - intros (l & Ha & Hb). split; [split; [intros ->; destruct Ha | intros ->; destruct Hb] |].
    rewrite <- list_elem_of_In in Ha, Hb. set_solver.
Qed.

(** A scope no permission maps to is reached by the raw scope list or an administrator only. *)
Lemma unmapped_scope role custom scope : dict_get scope SCOPE_PERMISSIONS = None ->
  role_allows_scope role custom scope = true -> role = Some "admin".
Proof.
  intros Hs. unfold role_allows_scope. destruct role as [name|]; [| done].
  destruct (String.eqb_spec name "admin") as [-> | Hne]; [done |]. rewrite Hs.
  by repeat case_match.
Qed.

(** The scopes written into a role token are those its role allows. *)
Lemma scopes_for_role_spec role scope : role <> "admin" ->
  In scope (scopes_for_role (Some role)) <-> role_allows_scope (Some role) None scope = true.
Proof.
  intros Hne. unfold scopes_for_role, role_allows_scope.
  rewrite bool_decide_eq_false_2 by congruence. rewrite (proj2 (String.eqb_neq _ _) Hne).
  change (default "" (Some role)) with role.
  destruct (dict_get role BUILTIN_ROLES) as [r|]; [| split; [intros [] | done]].
  cbn [option_map]. rewrite in_map_iff. split.
  - intros ([s p] & <- & [Hin Hp]%filter_In). cbn [fst snd] in *.
    rewrite (dict_In_get s p); [done | | done].
    apply (bool_decide_unpack _). by_eval.
  - destruct (dict_get scope SCOPE_PERMISSIONS) as [p|] eqn:E; [| done]. intros Hp.
    exists (scope, p). split; [done |]. apply filter_In. split; [by apply dict_get_In | done].
Qed.
