(* ===== verification/AgentTokens.v ===== *)
(** * The agent token store (app/agent_token_store.py) and its routes (app/routers/ssh.py)

    One token is current at a time: its SHA-256 and its metadata are two Redis strings written
    in one transaction with one lifetime.  [Strings] is what Redis documents of strings with an
    optional lifetime; [MetaCodec] is [json.dumps] and [json.loads] on the metadata.  A server
    that does not answer makes every command raise.  The rate limits of the routes and their
    logging are left out. *)
From S2P Require Import Prelude PyStr Digests CommandGate Rbac.
From stdpp Require Import options.

(** ** Redis strings with an optional lifetime in seconds *)
Class Strings : Type := {
  sdb : Type;
  S_GET : sdb -> string -> option string;
  S_SET : sdb -> string -> string -> option Z -> sdb;    (* SET key value [EX seconds] *)
  S_DEL : sdb -> string -> sdb;
  s_elapse : Z -> sdb -> sdb;
  s_evict : string -> sdb -> sdb;                        (* by the memory policy *)
  s_left : sdb -> string -> option Z;                    (* the lifetime left, if any *)

  GET_SSET d k v ex k' : match ex with Some t => (0 < t)%Z | None => True end ->
    S_GET (S_SET d k v ex) k' = if String.eqb k k' then Some v else S_GET d k';
  left_SSET d k v ex k' : s_left (S_SET d k v ex) k' = if String.eqb k k' then ex else s_left d k';
  GET_SDEL d k k' : S_GET (S_DEL d k) k' = if String.eqb k k' then None else S_GET d k';
  GET_sevict d k k' : S_GET (s_evict k d) k' = if String.eqb k k' then None else S_GET d k';
  GET_selapse d t k : (0 <= t)%Z ->
    S_GET (s_elapse t d) k = match s_left d k with
                             | Some l => if (t <? l)%Z then S_GET d k else None
                             | None => S_GET d k
                             end }.

(** The metadata as the store writes it *)
Record token_meta : Type := mkMeta {
  tm_scopes : list string; tm_role : option string; tm_labels : list string }.
Class MetaCodec : Type := {
  meta_dumps : token_meta -> string;
  meta_loads : string -> option token_meta;        (* [None]: JSONDecodeError *)
  meta_loads_dumps : forall m, meta_loads (meta_dumps m) = Some m;
  meta_dumps_text : forall m, meta_dumps m <> "" }.

Definition CURRENT : string := "agent_token:current".
Definition META : string := "agent_token:meta".

Section Store.
Context {S : Strings} {M : MetaCodec}.

(** [connected]: [self._redis is not None]; [answers]: the server does *)
Record TokenStore : Type := mkTokenStore {
  connected : bool; answers : bool; tokens : sdb }.
Definition with_tokens (st : TokenStore) (d : sdb) : TokenStore :=
  mkTokenStore (connected st) (answers st) d.
Definition _hash (token : string) : string := hexdigest token.
Definition command {A} (st : TokenStore) (a : A) : result A :=
  if answers st then Ok a else Raise ConnectionError.

Definition set_token (st : TokenStore) (token : string) (ttl : Z) (scopes : option (list string))
    (role : option string) (labels : option (list string)) : result TokenStore :=
  if negb (connected st) then Raise (RuntimeError "AgentTokenStore not connected to Redis")
  else
    let key := _hash token in
    let meta := meta_dumps (mkMeta (default [] scopes) role (default [] labels)) in
    let ex := if (0 <? ttl)%Z then Some ttl else None in
    command st (with_tokens st (S_SET (S_SET (tokens st) CURRENT key ex) META meta ex)).

(** Whether the token is the current one, its scopes and its metadata *)
Definition validate_token (st : TokenStore) (token : string)
    : result (bool * option (list string) * option token_meta) :=
  if String.eqb token "" || negb (connected st) then Ok (false, None, None)
  else
    stored <-! command st (S_GET (tokens st) CURRENT) ;;
    match stored with
    | None => Ok (false, None, None)
    | Some h =>
        if negb (String.eqb h (_hash token)) then Ok (false, None, None)
        else
          meta_raw <-! command st (S_GET (tokens st) META) ;;
          match meta_raw with
          | Some (String _ _ as raw) =>
              match meta_loads raw with
              | Some meta => Ok (true, Some (tm_scopes meta), Some meta)
              | None => Ok (true, None, None)
              end
          | _ => Ok (true, None, None)
          end
    end.

Definition clear_token (st : TokenStore) : result TokenStore :=
  if negb (connected st) then Ok st
  else command st (with_tokens st (S_DEL (S_DEL (tokens st) CURRENT) META)).

(** ** The routes: only the master key reaches them ([require_master_key]) *)
Definition VALID_AGENT_SCOPES : list string :=
  ["ssh:connect"; "ssh:execute"; "ssh:execute:argv"; "ssh:pty"; "ssh:disconnect"; "ssh:files";
   "ssh:port-check"; "jobs:read"; "jobs:run"; "auth:read"; "diagnostics:read"; "project:read";
   "project:patch"; "project:write"].

Record AgentTokenRequest : Type := mkTokenRequest {
  tr_ttl_seconds : Z; tr_scopes : list string; tr_role : option string; tr_labels : list string }.
(** [None]: no store was made. [fresh] is [secrets.token_urlsafe(32)]. *)
Definition agent_token_generate (st : option TokenStore) (fresh : string) (req : AgentTokenRequest)
    : result (string * option TokenStore) :=
  if negb (forallb (fun s => mem s VALID_AGENT_SCOPES) (tr_scopes req))
  then Raise (HTTPException 400 "Invalid scopes")
  else if match tr_role req with Some r => negb (dict_in r BUILTIN_ROLES) | None => false end
  then Raise (HTTPException 400 "Invalid role")
  else
    let role := match tr_role req with
                | Some r => Some r
                | None => default_role_for_scopes (Some (tr_scopes req))
                end in
    match st with
    | None => Raise (HTTPException 503 "Agent token store not available (Redis required)")
    | Some st =>
        st' <-! set_token st fresh (tr_ttl_seconds req) (Some (tr_scopes req)) role
                  (Some (tr_labels req)) ;;
        Ok (fresh, Some st')
    end.

Definition agent_token_refresh (st : option TokenStore) (fresh old_token : string) (ttl_seconds : Z)
    : result (string * option TokenStore) :=
  match st with
  | None => Raise (HTTPException 503 "Agent token store not available (Redis required)")
  | Some st =>
      old <-! validate_token st old_token ;;
      let '(old_valid, old_scopes, old_meta) := old in
      if negb old_valid then Raise (HTTPException 400 "Old token is invalid or expired")
      else
        st' <-! set_token st fresh ttl_seconds old_scopes
                  (match old_meta with Some m => tm_role m | None => None end)
                  (option_map tm_labels old_meta) ;;
        Ok (fresh, Some st')
  end.

(** What the lifespan of the application does with a configured token (app/main.py) *)
Definition install_configured (st : TokenStore) (agent_token : string) (agent_token_ttl : Z)
    (agent_token_scopes : list string) : TokenStore :=
  if negb (String.eqb agent_token "") && connected st then
    match set_token st agent_token agent_token_ttl (Some agent_token_scopes) None None with
    | Ok st' => st'
    | Raise _ => st
    end
  else st.
End Store.
