(* ===== verification/Url.v ===== *)
(** * [urllib.parse.urlparse], as far as the origin checks use it

    The standard library's splitting of an URL: its [netloc], whether it has a [hostname], and
    the [ValueError] of malformed brackets.  Header values are sequences of Latin-1 characters,
    none of which the NFKC check on the netloc refuses. *)
From S2P Require Import Prelude PyStr ClientIp.
From stdpp Require Import options.

Definition is_ascii (c : ascii) : bool := (cn c <? 128)%nat.
Definition is_alpha (c : ascii) : bool := is_upper c || is_lower c.
(** The characters of a scheme *)
Definition is_scheme_char (c : ascii) : bool := is_alpha c || is_digit c || char_in c "+-.".
(** Tabs and line ends are removed from the URL. *)
Fixpoint remove_unsafe (s : string) : string :=
  match s with
  | "" => ""
  | String c r => if in_range "009" "010" c || Ascii.eqb c "013" then remove_unsafe r
                  else String c (remove_unsafe r)
  end.

(** [s.partition(c)]: before, whether it was there, after; and the part after the last [c] *)
Definition partition (c : ascii) (s : string) : string * bool * string :=
  match find_char c s 0 with
  | Some i => (take i s, true, drop (S i) s)
  | None => (s, false, "")
  end.
Definition after_last (c : ascii) (s : string) : string :=
  match find_char c (srev s) 0 with
  | Some i => srev (take i (srev s))
  | None => s
  end.

Definition drop_scheme (url : string) : string :=
  match url, find_char ":" url 0 with
  | String c _, Some (S _ as i) =>
      if is_alpha c && all_of is_scheme_char (take i url) then drop (S i) url else url
  | _, _ => url
  end.

(** [_check_bracketed_host]: an IPv6 address or [v<hex>.<text>] *)
Definition bracketed_host_ok (h : string) : bool :=
  if startswith "v" h then
    let rest := drop 1 h in
    let n := span_len is_hex rest in
    (0 <? n)%nat && at_is rest n "." && (S n <? slen rest)%nat
  else match ip_address h with Some (V6 _) => true | _ => false end.
(** [_check_bracketed_netloc] *)
Definition bracketed_netloc_ok (netloc : string) : bool :=
  let '(before, open_br, bracketed) := partition "[" (after_last "@" netloc) in
  if open_br then
    let '(h, _, port) := partition "]" bracketed in
    String.eqb before "" && (String.eqb port "" || startswith ":" port) && bracketed_host_ok h
  else bracketed_host_ok (fst (fst (partition ":" (after_last "@" netloc)))).

(** The netloc of the URL *)
Definition url_netloc (raw : string) : result string :=
  let url := drop_scheme (remove_unsafe (lstrip_by (fun c => (cn c <=? 32)%nat) raw)) in
  if startswith "//" url then
    let rest := drop 2 url in
    let netloc := take (span_len (fun c => negb (char_in c "/?#")) rest) rest in
    let has_open := char_in "[" netloc in
    let has_close := char_in "]" netloc in
    if negb (Bool.eqb has_open has_close) || (has_open && negb (bracketed_netloc_ok netloc))
    then Raise (ValueError "Invalid IPv6 URL")
    else Ok netloc
  else Ok "".

(** [bool(parsed.hostname)] *)
Definition has_hostname (netloc : string) : bool :=
  let hostinfo := after_last "@" netloc in
  let '(_, open_br, bracketed) := partition "[" hostinfo in
  negb (String.eqb (fst (fst (if open_br then partition "]" bracketed else partition ":" hostinfo))) "").

Example netlocs :
  map url_netloc ["https://gw.example:8443/x?y"; "//h"; "null"; "http://[::1]:80/"; "http://[1.2.3.4]";
                  "http://a[b"; "javascript:alert(1)"; "HTTPS://u@h?q"]
  = [Ok "gw.example:8443"; Ok "h"; Ok ""; Ok "[::1]:80"; Raise (ValueError "Invalid IPv6 URL");
     Raise (ValueError "Invalid IPv6 URL"); Ok ""; Ok "u@h"] /\
  map has_hostname ["gw:80"; ":80"; "u@"; "[::1]"; ""] = [true; false; false; true; false].
Proof. split; vm_compute; reflexivity. Qed.
