(* ===== verification/Coordination.v ===== *)
(** * Coordination threads (src/app/coordination_logic.py, coordination_close.py)

    Threads between projects live as issues and comments of a Gitea server; a marker in the
    first line of a body carries the key, the state and the author of an event.  The functions
    talk to the server through a client object, and the one that closes an issue also keeps a
    journal of receipts on disk, so a function is a tree of calls ([prog]): it ends, or makes a
    call and goes on from the answer or the exception.  [exec] runs a tree against a server and
    a journal; before each call other clients may act, and a call may be answered, may be
    performed without an answer, or may not be performed at all. *)

From stdpp Require Import list.
From S2P Require Import Prelude PyStr Regex RegexParse Digests.
From stdpp Require Import options.

#[local] Open Scope Z_scope.

(** ** JSON values, as [json] hands them out; a number with a fraction keeps its text. *)
#[warnings="-register-all"]
Inductive value : Type :=
| VNone
| VBool (b : bool)
| VInt (z : Z)
| VFloat (text : string)
| VStr (s : string)
| VList (l : list value)
| VDict (d : list (string * value)).

(** [v.get(key)] of a dict; only dicts have it. *)
Definition field (key : string) (v : value) : value :=
  match v with VDict d => default VNone (dict_get key d) | _ => VNone end.
Definition is_dict (v : value) : bool := match v with VDict _ => true | _ => false end.
Definition is_none (v : value) : bool := match v with VNone => true | _ => false end.
Definition is_str (text : string) (v : value) : bool :=
  match v with VStr s => String.eqb s text | _ => false end.

(** ** [json.dumps(value, sort_keys=True, separators=(",", ":"))] *)
Definition z_str (z : Z) : string :=
  if z <? 0 then String "-" (nat_str (Z.to_nat (- z))) else nat_str (Z.to_nat z).

Definition json_char (c : ascii) : string :=
  let n := cn c in
  if Ascii.eqb c dq then String bslash (sc dq)
  else if Ascii.eqb c bslash then String bslash (sc bslash)
  else if Ascii.eqb c newline then String bslash "n"
  else if Ascii.eqb c tab then String bslash "t"
  else if Nat.eqb n 13 then String bslash "r"
  else if Nat.eqb n 8 then String bslash "b"
  else if Nat.eqb n 12 then String bslash "f"
  else if (Nat.leb 32 n && Nat.leb n 126)%bool then sc c
  else String bslash ("u00" +s+ hex_byte (Z.of_nat n)).

Fixpoint json_chars (s : string) : string :=
  match s with "" => "" | String c r => json_char c +s+ json_chars r end.
Definition json_string (s : string) : string := String dq (json_chars s +s+ sc dq).

(** Entries go out in the order of their keys. *)
Fixpoint insert_entry (e : string * string) (l : list (string * string)) : list (string * string) :=
  match l with
  | [] => [e]
  | x :: r => if String.leb (fst e) (fst x) then e :: l else x :: insert_entry e r
  end.
Definition sort_entries (l : list (string * string)) : list (string * string) :=
  foldr insert_entry [] l.

Fixpoint dumps (v : value) : string :=
  match v with
  | VNone => "null"
  | VBool b => if b then "true" else "false"
  | VInt z => z_str z
  | VFloat t => t
  | VStr s => json_string s
  | VList l => "[" +s+ join "," (map dumps l) +s+ "]"
  | VDict d =>
      "{" +s+ join "," (map (fun e => json_string (fst e) +s+ ":" +s+ snd e)
                          (sort_entries (map (fun e => (fst e, dumps (snd e))) d))) +s+ "}"
  end.

(** [digest] of [open_thread], [_hash] of coordination_close.py *)
Definition _hash (v : value) : string := hexdigest (dumps v).

(** ** Markers *)
Definition _MARKER : string := "py-coordination/v1".
Definition _KEY : pattern := re_lit no_flags "^[a-z0-9][a-z0-9._-]{7,99}$".
Definition _PROJECT : pattern := re_lit no_flags "^[A-Za-z0-9][A-Za-z0-9_.-]{0,99}$".
Definition _HEADER : pattern := re_lit no_flags
  ("^<!-- py-coordination/v1 (?:issue|event) key=([a-z0-9._-]+)" +s+
   "(?: source=([A-Za-z0-9_.-]+))?(?: state=([a-z_]+))?(?: actor=([0-9a-f]{16}))? -->$").
Definition _STATES : list string := ["open"; "accepted"; "waiting_review"; "resolved"; "message"].
Definition _TRANSITIONS : list (string * list string) :=
  [("open", ["accepted"; "message"]); ("accepted", ["waiting_review"; "message"]);
   ("waiting_review", ["accepted"; "resolved"; "message"]); ("resolved", [])].
Definition _PAGE_SIZE : nat := 50.
Definition _MAX_PAGES : nat := 10.
Definition _WRITE_MAX_PAGES : nat := 100.

(** [pattern.fullmatch(s)]: the match that reaches the end *)
Definition at_end (s : mst) : option mst := if String.eqb (m_suf s) "" then Some s else None.
Definition fullmatch (p : pattern) (s : string) : option (list (nat * string)) :=
  option_map m_caps (rmatch (p_flags p) (p_re p) at_end (start_state s)).
Definition matches_whole (p : pattern) (s : string) : bool :=
  match fullmatch p s with Some _ => true | None => false end.

(** ** Exceptions; [CloseRefused] is a [ValueError], a cancellation is no [Exception]. *)
Inductive failure : Type :=
| FValueError (msg : string)
| FCloseRefused (code : string)
| FPermissionError
| FOutcomeUnknown (msg : string)     (* CoordinationOutcomeUnknown *)
| FAttributeError
| FTransport                         (* any other exception of the client or of a file operation *)
| FCancelled.

Definition refused_before_send (e : failure) : bool :=   (* except (PermissionError, ValueError) *)
  match e with FValueError _ | FCloseRefused _ | FPermissionError => true | _ => false end.
Definition is_exception (e : failure) : bool := match e with FCancelled => false | _ => true end.

(** ** Receipts of close attempts *)
Inductive phase : Type := Dispatched | Confirmed | Rejected.
#[global] Instance phase_eq_dec : EqDecision phase.
Proof. solve_decision. Defined.

Record receipt : Type := mkReceipt {
  rc_payload : string; rc_content : string; rc_event : Z; rc_report : string; rc_actor : string;
  rc_phase : phase
}.
Definition with_phase (p : phase) (r : receipt) : receipt :=
  mkReceipt (rc_payload r) (rc_content r) (rc_event r) (rc_report r) (rc_actor r) p.

(** ** Calls and programs *)
Inductive gitea_call : Type :=
| ListIssues (page : Z)
| GetIssue (number : Z)
| ListTimeline (number page : Z)
| GetUser
| CreateIssue (title body : string)
| CreateComment (number : Z) (body : string)
| CloseIssue (number : Z).

Inductive query : Type -> Type :=
| Gitea (c : gitea_call) : query value
| ReadReceipt (directory name : string) : query (option receipt)
| ListReceipts (directory : string) : query (list string)
| SaveReceipt (directory name : string) (r : receipt) : query unit
| LockIssue (directory : string) : query unit
| Audit (event : string) : query unit.

Inductive prog (A : Type) : Type :=
| Done (r : A + failure)
| Ask {X : Type} (q : query X) (k : X + failure -> prog A).
Arguments Done {A} r.
Arguments Ask {A X} q k.

Definition pret {A} (a : A) : prog A := Done (inl a).
Definition praise {A} (e : failure) : prog A := Done (inr e).
Fixpoint pbind {A B} (m : prog A) (f : A -> prog B) : prog B :=
  match m with
  | Done (inl a) => f a
  | Done (inr e) => praise e
  | Ask q k => Ask q (fun r => pbind (k r) f)
  end.
(** [try: m  except ...: h], where [h] looks at the exception *)
Fixpoint ptry {A} (m : prog A) (h : failure -> prog A) : prog A :=
  match m with
  | Done (inl a) => pret a
  | Done (inr e) => h e
  | Ask q k => Ask q (fun r => ptry (k r) h)
  end.
Definition ask {X} (q : query X) : prog X := Ask q Done.
Definition gitea (c : gitea_call) : prog value := ask (Gitea c).

Declare Scope coord_scope.
Delimit Scope coord_scope with coord.
Notation "x <~ m ;; k" := (pbind m (fun x => k))
  (at level 80, m at next level, right associativity) : coord_scope.
Notation "m ;;~ k" := (pbind m (fun _ => k)) (at level 80, right associativity) : coord_scope.
Local Open Scope coord_scope.

Definition plift {A} (r : A + failure) : prog A := Done r.

(** ** Validation *)
Definition validate_key (v : string) : string + failure :=
  if matches_whole _KEY v then inl v
  else inr (FValueError "request_key must be 8..100 lowercase alphanumeric/._- characters").
Definition validate_project (v : string) : string + failure :=
  if matches_whole _PROJECT v then inl v
  else inr (FValueError "project must be a registered repository name").

Definition sbind {A B} (x : A + failure) (f : A -> B + failure) : B + failure :=
  match x with inl a => f a | inr e => inr e end.
Notation "x <-? m ;; k" := (sbind m (fun x => k))
  (at level 80, m at next level, right associativity) : coord_scope.

Definition count_char (c : ascii) (s : string) : nat :=
  List.length (List.filter (Ascii.eqb c) (list_ascii_of_string s)).
(** [text.partition(c)]: what precedes the first [c] and what follows it *)
Fixpoint partition (c : ascii) (s : string) : string * option string :=
  match s with
  | "" => ("", None)
  | String a r =>
      if Ascii.eqb a c then ("", Some r)
      else let (before, after) := partition c r in (String a before, after)
  end.

Definition resolve_coordination_repo (project owner : string) (metadata : value) : string + failure :=
  _ <-? validate_project project ;;
  _ <-? validate_project owner ;;
  if negb (is_dict metadata) || is_str "candidate-clone" (field "type" metadata)
  then inr (FValueError "coordination requires a registered source project")
  else
    let configured := field "gitea_repo" metadata in
    let has_root := match metadata with VDict d => dict_in "root" d | _ => false end in
    if is_str "coordination-only" (field "type" metadata)
       && (has_root || negb (is_str (owner +s+ "/" +s+ project) configured))
    then inr (FValueError "Gitea-only coordination repo mapping is not verified")
    else match configured with
         | VNone => inl project
         | VStr c =>
             match partition "/"%char c with
             | (configured_owner, Some repo) =>
                 if negb (Nat.eqb (count_char "/"%char c) 1)
                 then inr (FValueError "registered Gitea repo mapping is invalid")
                 else if negb (String.eqb configured_owner owner)
                 then inr (FValueError "registered Gitea repo owner does not match coordination owner")
                 else validate_project repo
             | _ => inr (FValueError "registered Gitea repo mapping is invalid")
             end
         | _ => inr (FValueError "registered Gitea repo mapping is invalid")
         end.

Definition _text (v name : string) (limit : Z) : string + failure :=
  let t := strip v in
  if String.eqb t "" || (limit <? Z.of_nat (slen t)) || char_in "000"%char t
  then inr (FValueError (name +s+ " must contain characters without NUL"))
  else inl t.

(** ** Markers: written and read *)
Inductive marker_kind : Type := KIssue | KEvent.
#[global] Instance marker_kind_eq_dec : EqDecision marker_kind.
Proof. solve_decision. Defined.
Definition kind_str (k : marker_kind) : string :=
  match k with KIssue => "issue" | KEvent => "event" end.
Record marker : Type := mkMarker { mk_key : string; mk_source : string; mk_state : string; mk_actor : string }.

Definition tag (name v : string) : string := if String.eqb v "" then "" else " " +s+ name +s+ "=" +s+ v.
Definition _header (kind : marker_kind) (m : marker) : string :=
  "<!-- " +s+ _MARKER +s+ " " +s+ kind_str kind +s+ " key=" +s+ mk_key m +s+ tag "source" (mk_source m)
  +s+ tag "state" (mk_state m) +s+ tag "actor" (mk_actor m) +s+ " -->".

Definition nl : string := sc newline.
(** [body.split(newline, 1)[0]] and [body.partition(newline)[2]] *)
Definition first_line (body : string) : string := fst (partition newline body).
Definition after_line (body : string) : string := default "" (snd (partition newline body)).

Definition _parse (body : value) (kind : marker_kind) : option marker :=
  match body with
  | VStr b =>
      let line := first_line b in
      match fullmatch _HEADER line with
      | None => None
      | Some groups =>
          if negb (contains (" " +s+ _MARKER +s+ " " +s+ kind_str kind +s+ " ") line) then None
          else
            let group i := default "" (cap_get i groups) in
            let m := mkMarker (group 1%nat) (group 2%nat) (group 3%nat) (group 4%nat) in
            if negb (matches_whole _KEY (mk_key m)) then None
            else match kind with
                 | KIssue => if String.eqb (mk_source m) "" || negb (String.eqb (mk_state m) "open")
                             then None else Some m
                 | KEvent => if negb (String.eqb (mk_source m) "") || negb (mem (mk_state m) _STATES)
                             then None else Some m
                 end
      end
  | _ => None
  end.

(** An issue as a thread; [None]: it is not one. *)
Record issue_item : Type := mkIssue {
  is_number : Z; is_title : value; is_url : value; is_source_project : string;
  is_request_key : string; is_created_by : string; is_state : value; is_updated_at : value
}.
Definition _issue (issue : value) : option issue_item :=
  if negb (is_none (field "pull_request" issue)) then None
  else match _parse (field "body" issue) KIssue with
       | None => None
       | Some m =>
           match field "number" issue with
           | VInt n =>
               if n <=? 0 then None
               else Some (mkIssue n (match issue with VDict d => default (VStr "") (dict_get "title" d) | _ => VNone end)
                            (field "html_url" issue) (mk_source m) (mk_key m) (mk_actor m)
                            (field "state" issue) (field "updated_at" issue))
           | _ => None
           end
       end.

(** ** Pages *)
Definition valid_rows (v : value) : option (list value) :=
  match v with
  | VList rows => if Nat.ltb _PAGE_SIZE (List.length rows) || negb (forallb is_dict rows) then None else Some rows
  | _ => None
  end.
Definition window_exceeded : failure := FOutcomeUnknown "collection exceeds the bounded reconciliation window".

(** [fuel]: the pages left *)
Fixpoint _pages (fuel : nat) (page : Z) (fetch : Z -> prog value) (allow_partial : bool)
    (result : list value) : prog (list value * bool) :=
  match fuel with
  | O => if allow_partial then pret (result, true) else praise window_exceeded
  | S fuel' =>
      rows <~ fetch page ;;
      match valid_rows rows with
      | None => praise (FValueError "Gitea collection returned invalid rows")
      | Some rows =>
          if Nat.ltb (List.length rows) _PAGE_SIZE then pret (result ++ rows, false)
          else _pages fuel' (page + 1) fetch allow_partial (result ++ rows)
      end
  end.

Record cursor : Type := mkCursor {
  cu_comments : list value; cu_seen : list Z; cu_last : Z;
  cu_overlap : bool; cu_invalid : bool; cu_out_of_order : bool; cu_fresh : nat
}.
Definition nonempty_str (v : value) : bool :=
  match v with VStr s => negb (String.eqb s "") | _ => false end.
Definition good_comment (row : value) : bool :=
  match field "body" row with VStr _ => true | _ => false end
  && is_dict (field "user" row) && nonempty_str (field "login" (field "user" row)).
Definition mark_invalid (c : cursor) : cursor :=
  mkCursor (cu_comments c) (cu_seen c) (cu_last c) (cu_overlap c) true (cu_out_of_order c) (cu_fresh c).

(** One row of a page of the timeline *)
Definition timeline_row (verified_no_comments : bool) (c : cursor) (row : value) : cursor :=
  match field "id" row with
  | VInt identifier =>
      if (identifier <? 1) || negb (nonempty_str (field "type" row)) then mark_invalid c
      else if bool_decide (identifier ∈ cu_seen c) then
        mkCursor (cu_comments c) (cu_seen c) (cu_last c) true (cu_invalid c) (cu_out_of_order c) (cu_fresh c)
      else
        let c := mkCursor (cu_comments c) (identifier :: cu_seen c) identifier (cu_overlap c) (cu_invalid c)
                   (cu_out_of_order c || (identifier <=? cu_last c)) (S (cu_fresh c)) in
        if is_str "comment" (field "type" row) then
          if verified_no_comments || negb (good_comment row) then mark_invalid c
          else mkCursor (cu_comments c ++ [row]) (cu_seen c) (cu_last c) (cu_overlap c) (cu_invalid c)
                 (cu_out_of_order c) (cu_fresh c)
        else c
  | _ => mark_invalid c
  end.
Definition new_page (c : cursor) : cursor := mkCursor (cu_comments c) (cu_seen c) (cu_last c) false false false 0.
Definition page_problem (c : cursor) : option string :=
  if cu_invalid c then Some "unverifiable_timeline_event"
  else if cu_overlap c then
    Some (if Nat.eqb (cu_fresh c) 0 then "non_progressing_comment_cursor" else "overlapping_comment_pages")
  else if cu_out_of_order c then Some "non_monotonic_comment_cursor" else None.

Record scan_result : Type := mkScan {
  sr_comments : list value; sr_truncated : bool; sr_reason : option string; sr_pages : Z
}.

Fixpoint _timeline_comment_pages (fuel : nat) (max_pages page : Z) (fetch : Z -> prog value)
    (allow_partial verified_no_comments : bool) (c : cursor) : prog scan_result :=
  match fuel with
  | O => if allow_partial
         then pret (mkScan (cu_comments c) true (Some "bounded_comment_window") max_pages)
         else praise window_exceeded
  | S fuel' =>
      rows <~ fetch page ;;
      if is_none rows && negb verified_no_comments then
        if allow_partial
        then pret (mkScan (cu_comments c) true (Some "unverifiable_null_timeline_page") page)
        else praise (FOutcomeUnknown "Gitea timeline returned null with unverified comment history")
      else
        match valid_rows (if is_none rows then VList [] else rows) with
        | None => praise (FValueError "Gitea timeline returned invalid rows")
        | Some rows =>
            let c := fold_left (timeline_row verified_no_comments) rows (new_page c) in
            match page_problem c with
            | Some reason =>
                if allow_partial then pret (mkScan (cu_comments c) true (Some reason) page)
                else praise (FOutcomeUnknown "Gitea timeline cursor is invalid")
            | None =>
                if Nat.ltb (List.length rows) _PAGE_SIZE then pret (mkScan (cu_comments c) false None page)
                else _timeline_comment_pages fuel' max_pages (page + 1) fetch allow_partial
                       verified_no_comments c
            end
        end
  end.
Definition no_rows_yet : cursor := mkCursor [] [] 0 false false false 0.
Definition timeline_comments (max_pages : nat) (allow_partial verified_no_comments : bool) (number : Z)
    : prog scan_result :=
  _timeline_comment_pages max_pages (Z.of_nat max_pages) 1 (fun page => gitea (ListTimeline number page))
    allow_partial verified_no_comments no_rows_yet.

(** ** Reading threads *)
(** [client.get_issue(...)] used as a dict, and [client.get_user().get("login")] *)
Definition get_issue (number : Z) : prog value :=
  issue <~ gitea (GetIssue number) ;;
  if is_dict issue then pret issue else praise FAttributeError.
Definition get_trusted_login : prog string :=
  identity <~ gitea GetUser ;;
  if negb (is_dict identity) then praise FAttributeError
  else match field "login" identity with
       | VStr login => if String.eqb login "" then praise (FValueError "Gitea coordination service identity is unavailable")
                       else pret login
       | _ => praise (FValueError "Gitea coordination service identity is unavailable")
       end.

Definition list_issue_rows (fuel : nat) (allow_partial : bool) : prog (list value * bool) :=
  _pages fuel 1 (fun page => gitea (ListIssues page)) allow_partial [].
Definition list_threads_preview : prog (list issue_item * bool) :=
  rt <~ list_issue_rows _MAX_PAGES true ;; pret (omap _issue (fst rt), snd rt).
Definition list_threads : prog (list issue_item) :=
  rt <~ list_issue_rows _WRITE_MAX_PAGES false ;; pret (omap _issue (fst rt)).

Definition author_of (comment : value) : value := field "login" (field "user" comment).
Definition event_marker (trusted_login : string) (comment : value) : option marker :=
  if is_str trusted_login (author_of comment) then _parse (field "body" comment) KEvent else None.
Definition no_comments (issue : value) : bool :=
  match field "comments" issue with VInt n => n =? 0 | _ => false end.

Definition preview_thread_state (number : Z) : prog (option string * bool) :=
  issue <~ get_issue number ;;
  match _issue issue with
  | None => praise (FValueError "issue is not a Py Coordination thread")
  | Some _ =>
      scanned <~ timeline_comments 2 true (no_comments issue) number ;;
      if sr_truncated scanned then pret (None, true)
      else
        login <~ get_trusted_login ;;
        pret (Some (fold_left (fun state comment =>
                match event_marker login comment with
                | Some m => if String.eqb (mk_state m) "message" then state else mk_state m
                | None => state
                end) (sr_comments scanned) "open"), false)
  end.

(** *** The board *)
Definition _BOARD_COLUMNS : list string := ["open"; "accepted"; "waiting_review"; "resolved"].
Record column : Type := mkColumn { co_state : string; co_count : nat; co_cards : list issue_item }.
Definition board_from_threads (threads : list (issue_item * string)) : list column + failure :=
  if forallb (fun t => mem (snd t) _BOARD_COLUMNS) threads then
    inl (map (fun state =>
                let cards := map fst (List.filter (fun t => String.eqb (snd t) state) threads) in
                mkColumn state (List.length cards) cards) _BOARD_COLUMNS)
  else inr (FValueError "Gitea thread has an invalid coordination state").

(** *** A thread with its history *)
Record entry : Type := mkEntry {
  en_id : value; en_body : value; en_state : option string; en_request_key : option string;
  en_caller : option string; en_created_at : value; en_author : value
}.
Definition history_entry (trusted_login : string) (comment : value) : entry :=
  let m := event_marker trusted_login comment in
  mkEntry (field "id" comment)
    (match m, field "body" comment with
     | Some _, VStr b => VStr (default b (snd (partition newline b)))   (* split(newline, 1)[-1] *)
     | _, b => b
     end)
    (option_map mk_state m) (option_map mk_key m) (option_map mk_actor m)
    (field "created_at" comment) (author_of comment).

Record thread : Type := mkThread {
  th_issue : issue_item; th_history : list entry; th_truncated : bool; th_coord_state : option string;
  th_content_sha256 : string; th_state_sha256 : string
}.
(** The state an entry sets: neither an ordinary comment nor a message *)
Definition state_set (e : entry) : option string :=
  match en_state e with Some s => if String.eqb s "message" then None else Some s | None => None end.
Definition coord_state_of (history : list entry) : string :=
  default "open" (first_some state_set (rev history)).

Definition pick (ks : list string) (v : value) : list (string * value) := map (fun k => (k, field k v)) ks.
Definition thread_content (issue : value) (comments : list value) : value :=
  VDict [("issue", VDict (pick ["id"; "number"; "title"; "body"; "pull_request"] issue));
         ("comments", VList (map (fun c => VDict (pick ["id"; "body"; "created_at"; "updated_at"] c
                                                    ++ [("author", author_of c)])) comments))].
Definition state_digest (issue : value) (content_sha256 : string) : string :=
  _hash (VDict [("content", VStr content_sha256); ("state", field "state" issue);
                ("updated_at", field "updated_at" issue)]).

Definition thread_of (issue : value) (item : issue_item) (login : string) (comments : list value)
    (truncated : bool) : thread :=
  let history := map (history_entry login) comments in
  if truncated then mkThread item history true None "" ""
  else
    let content := _hash (thread_content issue comments) in
    mkThread item history false (Some (coord_state_of history)) content (state_digest issue content).

Definition open_thread (number : Z) (allow_partial : bool) : prog thread :=
  if number <? 1 then praise (FValueError "issue_number must be positive")
  else
    issue <~ get_issue number ;;
    match _issue issue with
    | None => praise (FValueError "issue is not a Py Coordination thread")
    | Some item =>
        scanned <~ timeline_comments (if allow_partial then 2 else _WRITE_MAX_PAGES) allow_partial
                     (no_comments issue) number ;;
        login <~ get_trusted_login ;;
        pret (thread_of issue item login (sr_comments scanned) (sr_truncated scanned))
    end.

(** ** Writing threads *)
Definition _same_issue_payload (raw : value) (title source_project request_key text : string) : bool :=
  is_str title (field "title" raw) &&
  match _parse (field "body" raw) KIssue, field "body" raw with
  | Some m, VStr body =>
      String.eqb (mk_key m) request_key && String.eqb (mk_source m) source_project
      && String.eqb (after_line body) text
  | _, _ => false
  end.
Definition _same_event_payload (e : entry) (state text : string) : bool :=
  bool_decide (en_state e = Some state) && is_str text (en_body e).

Record created_thread : Type := mkCreated { ct_thread : issue_item; ct_created : bool; ct_reconciled : bool }.

Definition with_key (request_key : string) (l : list issue_item) : list issue_item :=
  List.filter (fun x => String.eqb (is_request_key x) request_key) l.

(** After an unproven issue: network errors and unreadable answers may mean that it was made. *)
Definition reconcile_issue (title source_project request_key body : string) : prog (option issue_item) :=
  ptry (threads <~ list_threads ;;
        match with_key request_key threads with
        | [found] =>
            observed <~ get_issue (is_number found) ;;
            pret (if _same_issue_payload observed title source_project request_key body
                  then Some found else None)
        | _ => pret None
        end)
    (fun e => if is_exception e then pret None else praise e).

Definition create_thread (source_project title body request_key actor : string) : prog created_thread :=
  source_project <~ plift (validate_project source_project) ;;
  title <~ plift (_text title "title" 160) ;;
  body <~ plift (_text body "body" 6000) ;;
  request_key <~ plift (validate_key request_key) ;;
  threads <~ list_threads ;;
  match with_key request_key threads with
  | [existing] =>
      previous <~ get_issue (is_number existing) ;;
      if _same_issue_payload previous title source_project request_key body
      then pret (mkCreated existing false false)
      else praise (FValueError "request_key reused with different issue content")
  | _ :: _ :: _ => praise (FOutcomeUnknown "request_key matches more than one Gitea issue")
  | [] =>
      let payload := _header KIssue (mkMarker request_key source_project "open" actor) +s+ nl +s+ body in
      let unknown := FOutcomeUnknown "issue write outcome uncertain; do not replay with a new key" in
      posted <~ ptry (r <~ gitea (CreateIssue title payload) ;; pret (inl r))
                  (fun e =>
                     if refused_before_send e || negb (is_exception e) then praise e
                     else
                       found <~ reconcile_issue title source_project request_key body ;;
                       match found with
                       | Some item => pret (inr item)
                       | None => praise unknown
                       end) ;;
      match posted with
      | inr item => pret (mkCreated item true true)
      | inl r =>
          if negb (is_dict r) then praise FAttributeError
          else match _issue r with
               | Some item =>
                   if _same_issue_payload r title source_project request_key body
                   then pret (mkCreated item true false)
                   else praise (FOutcomeUnknown "issue created but result could not be verified")
               | None => praise (FOutcomeUnknown "issue created but result could not be verified")
               end
      end
  end.

Record written_event : Type := mkWritten { we_created : bool; we_reconciled : bool; we_id : value }.
Definition entries_with_key (request_key : string) (t : thread) : list entry :=
  List.filter (fun e => bool_decide (en_request_key e = Some request_key)) (th_history t).
Definition may_move (from : option string) (state : string) : bool :=
  match from with
  | Some s => mem state (default [] (dict_get s _TRANSITIONS))
  | None => false
  end.

(** After an unproven comment: is the event there, as it was to be written? *)
Definition reconcile_event (number : Z) (request_key state text : string) : prog (option entry) :=
  ptry (t <~ open_thread number false ;;
        match entries_with_key request_key t with
        | [found] => pret (if _same_event_payload found state text then Some found else None)
        | _ => pret None
        end)
    (fun e => if is_exception e then pret None else praise e).

Definition write_event (number : Z) (text request_key state actor : string) : prog written_event :=
  text <~ plift (_text text "message" 6000) ;;
  request_key <~ plift (validate_key request_key) ;;
  if negb (mem state _STATES) then praise (FValueError "unknown coordination state")
  else
    t <~ open_thread number false ;;
    match entries_with_key request_key t with
    | [existing] =>
        if _same_event_payload existing state text then pret (mkWritten false false (en_id existing))
        else praise (FValueError "request_key reused with different event content")
    | _ :: _ :: _ => praise (FValueError "request_key reused with different event content")
    | [] =>
        if negb (may_move (th_coord_state t) state) then praise (FValueError "invalid coordination state transition")
        else
          let payload := _header KEvent (mkMarker request_key "" state actor) +s+ nl +s+ text in
          let unknown := FOutcomeUnknown "comment write outcome uncertain; do not replay with a new key" in
          posted <~ ptry (r <~ gitea (CreateComment number payload) ;; pret (inl r))
                      (fun e =>
                         if refused_before_send e || negb (is_exception e) then praise e
                         else
                           found <~ reconcile_event number request_key state text ;;
                           match found with
                           | Some found => pret (inr found)
                           | None => praise unknown
                           end) ;;
          match posted with
          | inr found => pret (mkWritten true true (en_id found))
          | inl r =>
              if negb (is_dict r) then praise FAttributeError
              else match _parse (field "body" r) KEvent, field "body" r with
                   | Some m, VStr body =>
                       if negb (String.eqb (mk_key m) request_key) || negb (String.eqb (mk_state m) state)
                          || negb (String.eqb (after_line body) text)
                       then praise (FOutcomeUnknown "comment created but result could not be verified")
                       else pret (mkWritten true false (field "id" r))
                   | _, _ => praise (FOutcomeUnknown "comment created but result could not be verified")
                   end
          end
    end.

(** ** Closing an issue (coordination_close.py)

    [directory] stands for the directory of the issue's receipts, which the lock is taken on. *)
Definition entry_value (e : entry) : value :=
  let opt o := match o with Some s => VStr s | None => VNone end in
  VDict [("id", en_id e); ("body", en_body e); ("state", opt (en_state e));
         ("request_key", opt (en_request_key e)); ("caller", opt (en_caller e));
         ("created_at", en_created_at e); ("author", en_author e)].

Definition resolution_required : failure := FCloseRefused "RESOLUTION_REQUIRED".
Definition has_text (v : value) : bool :=
  match v with VStr b => negb (String.eqb (strip b) "") | _ => false end.
Definition is_int (n : Z) (v : value) : bool := match v with VInt z => z =? n | _ => false end.

Definition _report (t : thread) (event_id : Z) : entry + failure :=
  let states := List.filter (fun e => match state_set e with Some _ => true | None => false end) (th_history t) in
  match last states with
  | Some e =>
      if bool_decide (th_coord_state t = Some "resolved") && is_int event_id (en_id e)
         && bool_decide (en_state e = Some "resolved") && has_text (en_body e)
      then inl e else inr resolution_required
  | None => inr resolution_required
  end.

Definition _confirmed (t : thread) (r : receipt) (event_id : Z) : bool + failure :=
  _ <-? _report t event_id ;;
  inl (is_str "closed" (is_state (th_issue t)) && String.eqb (th_content_sha256 t) (rc_content r)).

Record closed_thread : Type := mkClosed { cl_already_closed : bool; cl_reconciled : bool }.

Record close_request : Type := mkClose {
  cr_resolution_event_id : Z; cr_expected_state_sha256 : string; cr_request_key : string;
  cr_reason : string; cr_actor : string
}.
Definition is_lower_hex (c : ascii) : bool := is_digit c || in_range "a" "f" c.
Definition hex_of_length (n : nat) (s : string) : bool := Nat.eqb (slen s) n && all_of is_lower_hex s.
(** The argument checks, the stripped reason *)
Definition check_close (owner repo : string) (number : Z) (r : close_request) : string + failure :=
  _ <-? validate_project owner ;;
  _ <-? validate_project repo ;;
  _ <-? validate_key (cr_request_key r) ;;
  reason <-? _text (cr_reason r) "reason" 500 ;;
  if number <? 1 then inr (FValueError "issue_number must be a positive integer")
  else if cr_resolution_event_id r <? 1
  then inr (FValueError "resolution_event_id must be a positive integer")
  else if negb (hex_of_length 64 (cr_expected_state_sha256 r))
  then inr (FValueError "expected_state_sha256 must be a 64-character lowercase SHA-256")
  else if negb (hex_of_length 16 (cr_actor r)) then inr FPermissionError
  else inl reason.

Definition receipts_of (owner repo : string) (number : Z) : string :=
  _hash (VList [VStr owner; VStr repo; VInt number]).
Definition receipt_name (request_key : string) : string := _hash (VStr request_key) +s+ ".json".
Definition payload_hash (owner repo : string) (number : Z) (r : close_request) (reason : string) : string :=
  _hash (VList [VStr owner; VStr repo; VInt number; VInt (cr_resolution_event_id r);
                VStr (cr_expected_state_sha256 r); VStr (cr_request_key r); VStr reason]).

(** Every other dispatched attempt must have closed the issue as it is now. *)
Fixpoint settle_others (t : thread) (directory : string) (names : list string) : prog unit :=
  match names with
  | [] => pret tt
  | name :: rest =>
      other <~ ask (ReadReceipt directory name) ;;
      match other with
      | Some o =>
          if bool_decide (rc_phase o = Dispatched) then
            confirmed <~ plift (_confirmed t o (rc_event o)) ;;
            if confirmed then
              _ <~ ask (SaveReceipt directory name (with_phase Confirmed o)) ;;
              settle_others t directory rest
            else praise (FOutcomeUnknown "An earlier close is unresolved; inspect the thread before any new operation")
          else settle_others t directory rest
      | None => settle_others t directory rest
      end
  end.

(** The PATCH, once its receipt is on disk, and what it did as far as the thread shows *)
Definition dispatch_close (directory name : string) (number : Z) (event_id : Z) (r : receipt)
    : prog closed_thread :=
  mutation_error <~ ptry (_ <~ gitea (CloseIssue number) ;; pret false)
    (fun e => match e with
              | FPermissionError =>
                  _ <~ ask (SaveReceipt directory name (with_phase Rejected r)) ;; praise e
              | _ => if is_exception e then pret true else praise e
              end) ;;
  confirmed <~ ptry (observed <~ open_thread number false ;; plift (_confirmed observed r event_id))
    (fun e => if is_exception e then pret false else praise e) ;;
  if negb confirmed
  then praise (FOutcomeUnknown "Close outcome is not confirmed; inspect the thread, do not resend PATCH")
  else
    _ <~ ask (SaveReceipt directory name (with_phase Confirmed r)) ;;
    _ <~ ptry (ask (Audit "success")) (fun e => if is_exception e then pret tt else praise e) ;;
    pret (mkClosed false mutation_error).

(** The thread, if it still is what the caller reviewed, and its report *)
Definition open_reviewed (number : Z) (r : close_request) : prog (thread * entry) :=
  t <~ open_thread number false ;;
  report <~ plift (_report t (cr_resolution_event_id r)) ;;
  if negb (String.eqb (th_state_sha256 t) (cr_expected_state_sha256 r))
  then praise (FCloseRefused "STATE_MISMATCH")
  else pret (t, report).

(** A key that has a receipt: whatever became of its PATCH, only look. *)
Definition replay_close (directory name : string) (number event_id : Z) (prior : receipt) : prog closed_thread :=
  t <~ open_thread number false ;;
  _ <~ plift (_report t event_id) ;;
  confirmed <~ plift (_confirmed t prior event_id) ;;
  if negb confirmed
  then praise (FOutcomeUnknown "Previous close is not confirmed; replay is read-only, inspect the thread")
  else
    _ <~ (if bool_decide (rc_phase prior = Confirmed) then pret tt
          else ask (SaveReceipt directory name (with_phase Confirmed prior))) ;;
    pret (mkClosed true true).

(** A new key: the receipt is on disk before the PATCH is sent. *)
Definition fresh_close (directory name payload : string) (number : Z) (r : close_request) : prog closed_thread :=
  tr <~ open_reviewed number r ;;
  let (t, report) := tr : thread * entry in
  names <~ ask (ListReceipts directory) ;;
  if Nat.ltb 100 (List.length names) then praise (FCloseRefused "RECEIPT_UNAVAILABLE")
  else
    _ <~ settle_others t directory names ;;
    let state := is_state (th_issue t) in
    let receipt p := mkReceipt payload (th_content_sha256 t) (cr_resolution_event_id r)
                       (_hash (entry_value report)) (cr_actor r) p in
    if is_str "closed" state then
      _ <~ ask (SaveReceipt directory name (receipt Confirmed)) ;; pret (mkClosed true false)
    else if negb (is_str "open" state) then praise (FCloseRefused "STATE_MISMATCH")
    else
      _ <~ ask (Audit "intent") ;;
      _ <~ open_reviewed number r ;;
      _ <~ ask (SaveReceipt directory name (receipt Dispatched)) ;;
      dispatch_close directory name number (cr_resolution_event_id r) (receipt Dispatched).

Definition close_thread (owner repo : string) (number : Z) (r : close_request) : prog closed_thread :=
  reason <~ plift (check_close owner repo number r) ;;
  let payload := payload_hash owner repo number r reason in
  let directory := receipts_of owner repo number in
  let name := receipt_name (cr_request_key r) in
  _ <~ ask (LockIssue directory) ;;
  prior <~ ask (ReadReceipt directory name) ;;
  match prior with
  | Some p =>
      if negb (String.eqb (rc_payload p) payload) then praise (FCloseRefused "IDEMPOTENCY_CONFLICT")
      else replay_close directory name number (cr_resolution_event_id r) p
  | None => fresh_close directory name payload number r
  end.

(** ** Running programs

    A Gitea server, as the client sees it: what a performed call answers and makes of the
    server, and the timeline it keeps of each issue, oldest row first. *)
Class GiteaServer : Type := {
  server : Type;
  serve : gitea_call -> server -> value * server;
  timeline : server -> Z -> list value;
  service_login : string
}.

Section Running.
Context `{GiteaServer}.

(** The server, the receipts of each directory, and the calls the client has attempted *)
Record world : Type := mkWorld {
  w_server : server; w_journal : dict (dict receipt); w_attempts : list gitea_call
}.
Definition receipts_in (directory : string) (w : world) : dict receipt :=
  default [] (dict_get directory (w_journal w)).
Definition attempt {X} (q : query X) (w : world) : world :=
  match q with
  | Gitea c => mkWorld (w_server w) (w_journal w) (w_attempts w ++ [c])
  | _ => w
  end.

(** What a call does when it is performed.  [os.replace] puts a receipt in place as a whole. *)
Definition perform {X} (q : query X) (w : world) : X * world :=
  match q with
  | Gitea c => let (v, s) := serve c (w_server w) in (v, mkWorld s (w_journal w) (w_attempts w))
  | ReadReceipt directory name => (dict_get name (receipts_in directory w), w)
  | ListReceipts directory => (keys (receipts_in directory w), w)
  | SaveReceipt directory name r =>
      (tt, mkWorld (w_server w) (dict_set directory (dict_set name r (receipts_in directory w)) (w_journal w))
             (w_attempts w))
  | LockIssue _ => (tt, w)
  | Audit _ => (tt, w)
  end.

(** A turn: what others do to the server before the call, and the fate of the call. *)
Inductive fate : Type := Delivered | Lost (e : failure) | Refused (e : failure).
Record turn : Type := mkTurn { t_others : server -> server; t_fate : fate }.
Definition others (t : turn) (w : world) : world := mkWorld (t_others t (w_server w)) (w_journal w) (w_attempts w).

(** [None]: the turns are over, the process is gone in the middle of the program. *)
Fixpoint exec {A} (p : prog A) (ts : list turn) (w : world) : option (A + failure) * world :=
  match p, ts with
  | Done r, _ => (Some r, w)
  | Ask _ _, [] => (None, w)
  | Ask q k, t :: ts =>
      let w := attempt q (others t w) in
      match t_fate t with
      | Delivered => let (x, w') := perform q w in exec (k (inl x)) ts w'
      | Lost e => exec (k (inr e)) ts (snd (perform q w))
      | Refused e => exec (k (inr e)) ts w
      end
  end.

(** A call that was performed, but whose answer got lost, ends in neither of the exceptions
    that the client keeps for refusals (gitea_client.py, [_post_coord]). *)
Definition honest (t : turn) : Prop :=
  match t_fate t with Lost e => refused_before_send e = false | _ => True end.

(** *** Crash Hoare logic: [wp p post crash w] holds when [p], run from [w] while the server
    changes along [env], ends in [post] or is cut off in [crash]. *)
Section Logic.
Variables (env : server -> server -> Prop).

Definition env_turn (w w1 : world) : Prop :=
  env (w_server w) (w_server w1) /\ w_journal w1 = w_journal w /\ w_attempts w1 = w_attempts w.

Fixpoint wp {A} (p : prog A) (post : A + failure -> world -> Prop) (crash : world -> Prop) (w : world)
    : Prop :=
  match p with
  | Done r => post r w
  | Ask q k =>
      crash w /\
      forall w1, env_turn w w1 ->
        wp (k (inl (fst (perform q (attempt q w1))))) post crash (snd (perform q (attempt q w1))) /\
        (forall e, refused_before_send e = false -> wp (k (inr e)) post crash (snd (perform q (attempt q w1)))) /\
        (forall e, wp (k (inr e)) post crash (attempt q w1))
  end.

Definition fair (ts : list turn) : Prop := Forall (fun t => honest t /\ forall s, env s (t_others t s)) ts.

Lemma wp_sound {A} (p : prog A) post crash ts : forall w, wp p post crash w -> fair ts ->
  match exec p ts w with
  | (Some r, w') => post r w'
  | (None, w') => crash w'
  end.
Proof.
  revert ts. induction p as [r|X q k IH]; intros ts w Hp Hts; simpl in *; [done |].
  destruct ts as [|t ts]; [exact (proj1 Hp) |].
  apply Forall_cons in Hts as [[Ht Henv] Hts]. destruct Hp as [_ Hp].
  destruct (Hp (others t w)) as (Hd & Hl & Hr); [by split |]. unfold honest in Ht.
  destruct (t_fate t) as [|e|e].
  - destruct (perform q (attempt q (others t w))) as [x w']. by apply IH.
  - apply IH; [by apply Hl | done].
  - apply IH; [apply Hr | done].
Qed.

Lemma wp_mono {A} (p : prog A) post post' (crash crash' : world -> Prop) : forall w,
  (forall r w', post r w' -> post' r w') -> (forall w', crash w' -> crash' w') ->
  wp p post crash w -> wp p post' crash' w.
Proof.
  induction p as [r|X q k IH]; intros w Hpost Hcrash; simpl; [by apply Hpost |].
  intros [Hc Hk]. split; [by apply Hcrash |]. intros w1 Hw. destruct (Hk w1 Hw) as (Hd & Hl & Hr).
  split; [by apply IH |]. split; intros e; [intros He|]; apply IH; auto.
Qed.

Lemma wp_bind {A B} (p : prog A) (f : A -> prog B) post crash : forall w,
  wp p (fun r w' => match r with inl a => wp (f a) post crash w' | inr e => post (inr e) w' end) crash w ->
  wp (pbind p f) post crash w.
Proof.
  induction p as [[a|e]|X q k IH]; intros w; simpl; [done | done |].
  intros [Hc Hk]. split; [done |]. intros w1 Hw. destruct (Hk w1 Hw) as (Hd & Hl & Hr).
  split; [by apply IH |]. split; intros e; [intros He|]; apply IH; auto.
Qed.

Lemma wp_try {A} (p : prog A) (h : failure -> prog A) post crash : forall w,
  wp p (fun r w' => match r with inl a => post (inl a) w' | inr e => wp (h e) post crash w' end) crash w ->
  wp (ptry p h) post crash w.
Proof.
  induction p as [[a|e]|X q k IH]; intros w; simpl; [done | done |].
  intros [Hc Hk]. split; [done |]. intros w1 Hw. destruct (Hk w1 Hw) as (Hd & Hl & Hr).
  split; [by apply IH |]. split; intros e; [intros He|]; apply IH; auto.
Qed.

(** A condition that everything but the attempts of [p] preserves *)
Lemma wp_lift {A} (r : A + failure) post crash w : post r w -> wp (plift r) post crash w.
Proof. done. Qed.
End Logic.
End Running.
