(* ===== verification/EventHooks.v ===== *)
(** * Event hooks (src/app/event_hook_security.py, event_hook_store.py, event_hook_emitter.py,
    event_hook_delivery.py, the routes of routers/event_hooks.py, and the redaction of
    security.py)

    A hook asks for some events; [emit_event] makes a signed delivery for each hook that asks
    for an event, and a row of the outbox for each delivery; each instance of the gateway polls
    the outbox, leases rows, posts them and records the outcome.  A method of the delivery
    service is one database transaction of two steps: it reads its rows, and later, with anything in
    between, it commits what it changed.  Times are in microseconds. *)
From stdpp Require Import list.
From S2P Require Import Prelude PyStr Regex RegexParse Digests ClientIp TargetHost Url Coordination.
From stdpp Require Import options.

#[local] Open Scope Z_scope.

(** ** Where a hook may point (event_hook_security.py) *)
Definition BLOCKED_NETWORKS : list string :=
  ["127.0.0.0/8"; "::1/128"; "10.0.0.0/8"; "172.16.0.0/12"; "192.168.0.0/16"; "169.254.0.0/16";
   "fe80::/10"; "224.0.0.0/4"; "ff00::/8"; "169.254.169.254/32"].
Definition in_text_network (a : address) (net : string) : bool :=
  match parse_network net with Some n => in_network (a_ip a) n | None => false end.
(** The first blocked network the address lies in *)
Definition blocked_by (a : address) : option string := List.find (in_text_network a) BLOCKED_NETWORKS.
Definition blocked_reason (net : string) : string := "Blocked IP range: " +s+ net.

(** [UrlValidationResult]: [None] is valid, otherwise the reason. *)
Definition validation : Type := option string.

Definition validate_destination_ip (host : string) : validation :=
  match ip_object host with
  | None => Some ("Not a valid IP: " +s+ host)
  | Some a => option_map blocked_reason (blocked_by a)
  end.

(** [urlparse(url).scheme] and [.hostname] *)
Definition url_scheme (raw : string) : string :=
  let url := remove_unsafe (lstrip_by (fun c => (cn c <=? 32)%nat) raw) in
  match url, find_char ":" url 0 with
  | String c _, Some (S _ as i) =>
      if is_alpha c && all_of is_scheme_char (take i url) then lower (take i url) else ""
  | _, _ => ""
  end.
Definition url_hostname (raw : string) : result (option string) :=
  netloc <-! url_netloc raw ;;
  let hostinfo := after_last "@" netloc in
  let '(_, open_br, bracketed) := Url.partition "[" hostinfo in
  let host := fst (fst (if open_br then Url.partition "]" bracketed else Url.partition ":" hostinfo)) in
  if String.eqb host "" then Ok None
  else
    let '(name, percent, zone) := Url.partition "%" host in
    Ok (Some (lower name +s+ (if percent then "%" else "") +s+ zone)).

(** [socket.getaddrinfo] is the resolver; a resolved address that does not parse raises. *)
Definition validate_webhook_url (getaddrinfo : resolver) (url : string) (allow_http : bool) : result validation :=
  if String.eqb url "" then Ok (Some "URL is empty")
  else match url_hostname url with
  | Raise _ => Ok (Some "URL parse error")
  | Ok hostname =>
      let scheme := url_scheme url in
      if String.eqb scheme "http" && negb allow_http then Ok (Some "HTTP not allowed, use HTTPS")
      else if negb (mem scheme ["http"; "https"]) then Ok (Some ("Scheme not allowed: " +s+ scheme))
      else match hostname with
      | None => Ok (Some "No hostname in URL")
      | Some host =>
          let check addrs := Ok (option_map blocked_reason (first_some blocked_by addrs)) in
          match ip_object host with
          | Some a => check [a]
          | None =>
              match getaddrinfo host with
              | None => Ok (Some "Could not resolve hostname")
              | Some infos =>
                  addrs <-! collect_ips [] infos ;;
                  match addrs with
                  | [] => Ok (Some ("Could not resolve hostname: " +s+ host))
                  | _ => check addrs
                  end
              end
          end
      end
  end.

(** ** Signatures: [hmac.new(secret, message, sha256).hexdigest()] *)
Definition sha256_bytes (m : list Z) : list Z := flat_map (be_bytes 4) (sha256_words m).
Definition hmac_key (key : list Z) : list Z :=
  let k := if Nat.ltb 64 (List.length key) then sha256_bytes key else key in k ++ repeat 0 (64 - List.length k).
Definition hmac_sha256 (key message : list Z) : list Z :=
  let k := hmac_key key in
  sha256_bytes (map (Z.lxor 0x5c) k ++ sha256_bytes (map (Z.lxor 0x36) k ++ message)).
Definition hex_text (bytes : list Z) : string := join "" (map hex_byte bytes).

Definition sign_payload (secret : option string) (payload timestamp : string) : option string :=
  match secret with
  | None | Some "" => None
  | Some s => Some ("sha256=" +s+ hex_text (hmac_sha256 (bytes_of s) (bytes_of (timestamp +s+ "." +s+ payload))))
  end.

Definition SENSITIVE_HEADERS : list string :=
  ["authorization"; "x-api-key"; "cookie"; "set-cookie"; "x-webhook-signature"].
Definition mask_sensitive_headers (headers : dict string) : dict string :=
  map (fun e => (fst e, if mem (lower (fst e)) SENSITIVE_HEADERS then "****" else snd e)) headers.

(** ** Redaction (security.py) *)
Definition SECRET_REDACTION_PLACEHOLDER : string := "[REDACTED]".
(** A replacement template: text and groups *)
Inductive piece : Type := Text (s : string) | Group (i : nat).
Definition expand (template : list piece) (m : mtch) : string :=
  join "" (map (fun p => match p with Text s => s | Group i => default "" (group m i) end) template).

Definition SECRET_WORDS : string :=
  "api[_-]?key|token|access[_-]?token|refresh[_-]?token|secret|password|passwd|pwd|private[_-]?key|client[_-]?secret|webhook[_-]?secret".
Definition quotes : string := sc dq +s+ sc sq.
Definition _SECRET_PATTERNS : list (pattern * list piece) :=
  let hidden := Text SECRET_REDACTION_PLACEHOLDER in [
  (re_lit no_flags "(?i)(authorization\s*:\s*bearer\s+)[A-Za-z0-9._~+/=-]+", [Group 1; hidden]);
  (re_lit no_flags "(?i)\b(bearer\s+)[A-Za-z0-9._~+/=-]{16,}", [Group 1; hidden]);
  (re_lit (mkflags false true) "-----BEGIN [A-Z ]*PRIVATE KEY-----.*?-----END [A-Z ]*PRIVATE KEY-----", [hidden]);
  (re_lit no_flags "(?i)(sshpass\s+-p\s+)([^\s]+)", [Group 1; hidden]);
  (re_lit no_flags "(https?://api\.telegram\.org/bot)([A-Za-z0-9:_-]{20,})", [Group 1; hidden]);
  (re_lit no_flags ("(/bot)(\d{6,}:[A-Za-z0-9_-]{30,})(/|[\s" +s+ quotes +s+ "])"), [Group 1; hidden; Group 3]);
  (re_lit no_flags "\beyJ[A-Za-z0-9_-]{10,}\.eyJ[A-Za-z0-9_-]{10,}\.[A-Za-z0-9_-]{10,}\b", [hidden]);
  (re_lit no_flags ("(?i)\b(" +s+ SECRET_WORDS +s+ ")\b\s*[:=]\s*([^\s" +s+ quotes +s+ "]+)"), [Group 1; Text "="; hidden]);
  (re_lit no_flags ("(?i)_(" +s+ SECRET_WORDS +s+ ")\b\s*[:=]\s*([^\s" +s+ quotes +s+ "]+)"), [Text "_"; Group 1; Text "="; hidden]);
  (re_lit no_flags "((?:https?|[a-z]+)://)([^@\s/]*):([^@\s]+)@", [Group 1; hidden; Text ":"; hidden; Text "@"]);
  (re_lit no_flags "((?:https?|[a-z]+)://)([A-Za-z0-9_\-]+)@", [Group 1; hidden; Text "@"])].
Definition secret_key : pattern :=
  re_lit no_flags "(?i)(api[_-]?key|token|secret|password|passwd|pwd|authorization|private[_-]?key)".
Definition is_secret_key (key : string) : bool := match search secret_key key with Some _ => true | None => false end.

Definition redact_text (s : string) : string :=
  fold_left (fun s pt => sub (fst pt) (expand (snd pt)) s) _SECRET_PATTERNS s.
Fixpoint redact_secrets (v : value) : value :=
  match v with
  | VStr s => VStr (redact_text s)
  | VDict d => VDict (map (fun e => (fst e, if is_secret_key (fst e) then VStr SECRET_REDACTION_PLACEHOLDER
                                            else redact_secrets (snd e))) d)
  | VList l => VList (map redact_secrets l)
  | v => v
  end.

(** [json.dumps(v)], with the separators it takes by itself *)
Fixpoint json_text (v : value) : string :=
  match v with
  | VNone => "null"
  | VBool b => if b then "true" else "false"
  | VInt z => z_str z
  | VFloat t => t
  | VStr s => json_string s
  | VList l => "[" +s+ join ", " (map json_text l) +s+ "]"
  | VDict d => "{" +s+ join ", " (map (fun e => json_string (fst e) +s+ ": " +s+ json_text (snd e)) d) +s+ "}"
  end.

(** ** The hooks (event_hook_store.py) *)
Record EventHook : Type := mkHook {
  hk_id : string; hk_url : string; hk_events : list string; hk_session_id : option string;
  hk_headers_encrypted : option string; hk_secret_encrypted : option string;
  hk_include_output : bool; hk_is_active : bool
}.
Definition store_create (id url : string) (events : list string) (session_id headers secret : option string)
    (include_output : bool) (hooks : dict EventHook) : EventHook * dict EventHook :=
  let hook := mkHook id url events session_id headers secret include_output true in
  (hook, dict_set id hook hooks).
Definition orelse_field {A} (new : option A) (old : A) : A := match new with Some x => x | None => old end.
Definition orelse_option {A} (new old : option A) : option A := match new with Some _ => new | None => old end.
Definition store_update (hook_id : string) (url : option string) (events : option (list string))
    (session_id headers secret : option string) (include_output is_active : option bool) (hooks : dict EventHook)
    : option EventHook * dict EventHook :=
  match dict_get hook_id hooks with
  | None => (None, hooks)
  | Some h =>
      let h' := mkHook (hk_id h) (orelse_field url (hk_url h)) (orelse_field events (hk_events h))
                  (orelse_option session_id (hk_session_id h)) (orelse_option headers (hk_headers_encrypted h))
                  (orelse_option secret (hk_secret_encrypted h)) (orelse_field include_output (hk_include_output h))
                  (orelse_field is_active (hk_is_active h)) in
      (Some h', dict_set hook_id h' hooks)
  end.
Definition store_delete (hook_id : string) (hooks : dict EventHook) : bool * dict EventHook :=
  (dict_in hook_id hooks, dict_del hook_id hooks).

Definition asks_for (event_type session_id : string) (h : EventHook) : bool :=
  hk_is_active h && mem event_type (hk_events h)
  && match hk_session_id h with None | Some "" => true | Some s => String.eqb s session_id end.
Definition find_matching (event_type session_id : string) (hooks : dict EventHook) : list EventHook :=
  List.filter (asks_for event_type session_id) (values hooks).

(** *** The routes (routers/event_hooks.py), for a caller with the master key *)
Record HookCreate : Type := mkHookCreate {
  hc_url : string; hc_events : list string; hc_session_id : option string; hc_headers : option string;
  hc_secret : option string; hc_include_output : bool
}.
(** [encrypt] is the secret manager, if there is one; headers are the text of their JSON, and
    an empty dict of them is none when a hook is made. *)
Definition sealed (encrypt : option (string -> string)) (v : option string) : option string :=
  match encrypt, v with Some f, Some (String _ _ as t) => Some (f t) | _, _ => None end.
Definition checked_url (getaddrinfo : resolver) (url : string) : result unit :=
  reason <-! validate_webhook_url getaddrinfo url false ;;
  match reason with None => Ok tt | Some r => Raise (HTTPException 422 ("Invalid URL: " +s+ r)) end.
Definition create_event_hook (event_hooks_max : Z) (getaddrinfo : resolver) (encrypt : option (string -> string))
    (id : string) (body : HookCreate) (hooks : dict EventHook) : result EventHook * dict EventHook :=
  match checked_url getaddrinfo (hc_url body) with
  | Raise e => (Raise e, hooks)
  | Ok _ =>
      if event_hooks_max <=? Z.of_nat (List.length hooks) then (Raise (HTTPException 409 "Max event hooks reached"), hooks)
      else let (h, hooks) := store_create id (hc_url body) (hc_events body) (hc_session_id body)
                               (sealed encrypt (hc_headers body)) (sealed encrypt (hc_secret body))
                               (hc_include_output body) hooks in (Ok h, hooks)
  end.

Record HookUpdate : Type := mkHookUpdate {
  hu_url : option string; hu_events : option (list string); hu_session_id : option string;
  hu_headers : option string; hu_secret : option string; hu_include_output : option bool; hu_is_active : option bool
}.
Definition update_event_hook (getaddrinfo : resolver) (encrypt : option (string -> string)) (hook_id : string)
    (body : HookUpdate) (hooks : dict EventHook) : result EventHook * dict EventHook :=
  let not_found := HTTPException 404 ("Event hook not found: " +s+ hook_id) in
  match dict_get hook_id hooks with
  | None => (Raise not_found, hooks)
  | Some _ =>
      match (match hu_url body with Some url => checked_url getaddrinfo url | None => Ok tt end) with
      | Raise e => (Raise e, hooks)
      | Ok _ =>
          let seal v := match encrypt, v with Some f, Some t => Some (f t) | _, _ => None end in
          match store_update hook_id (hu_url body) (hu_events body) (hu_session_id body) (seal (hu_headers body))
                  (seal (hu_secret body)) (hu_include_output body) (hu_is_active body) hooks with
          | (Some h, hooks) => (Ok h, hooks)
          | (None, hooks) => (Raise not_found, hooks)
          end
      end
  end.
Definition delete_event_hook (hook_id : string) (hooks : dict EventHook) : result unit * dict EventHook :=
  let (deleted, hooks) := store_delete hook_id hooks in
  (if deleted then Ok tt else Raise (HTTPException 404 ("Event hook not found: " +s+ hook_id)), hooks).

(** ** Emitting (event_hook_emitter.py) *)
Definition EVENT_VERSION : Z := 1.
Definition SESSION_EVENTS : list string := ["session.connected"; "session.disconnected"].
Definition COMMAND_EVENTS : list string := ["command.started"; "command.completed"; "command.failed"].

(** What a caller of [emit_event] passes; a duration is given as the text of its rounded value. *)
Record Event : Type := mkEvent {
  ev_event : string; ev_session_id : string; ev_host : string; ev_port : Z; ev_username : string;
  ev_command : string; ev_exit_code : option Z; ev_duration : option string; ev_stdout : option string;
  ev_stderr : option string; ev_reason : string; ev_connected_seconds : option string
}.
(** What is drawn for each hook: identifiers and readings of the clock *)
Record Draws : Type := mkDraws {
  dr_event_id : string; dr_timestamp : string; dr_unix : string; dr_header_id : string; dr_delivery_id : string;
  dr_now : Z
}.

Definition opt_field {A} (key : string) (f : A -> value) (x : option A) : list (string * value) :=
  match x with Some a => [(key, f a)] | None => [] end.
Definition nonempty (x : option string) : option string := match x with Some "" => None | x => x end.
Definition output_limit : nat := Z.to_nat 65536.
Definition too_long (s : string) : bool := Nat.ltb output_limit (slen s).
(** [stdout] and [stderr], cut, and whether either was *)
Definition output_fields (stdout stderr : option string) : list (string * value) :=
  let cut key s := (key, VStr (take output_limit s)) in
  match nonempty stdout, nonempty stderr with
  | None, None => []
  | Some out, None => [cut "stdout" out; ("output_truncated", VBool (too_long out))]
  | None, Some err => [cut "stderr" err; ("output_truncated", VBool (too_long err))]
  | Some out, Some err =>
      [cut "stdout" out; ("output_truncated", VBool (too_long out || too_long err)); cut "stderr" err]
  end.
Definition place (e : Event) : list (string * value) :=
  [("host", VStr (ev_host e)); ("port", VInt (ev_port e)); ("username", VStr (ev_username e))].
Definition extra_fields (include_output : bool) (e : Event) : list (string * value) :=
  if mem (ev_event e) SESSION_EVENTS then
    place e ++
    (if String.eqb (ev_event e) "session.disconnected"
     then ("reason", VStr (ev_reason e)) :: opt_field "connected_seconds" VFloat (ev_connected_seconds e) else [])
  else if mem (ev_event e) COMMAND_EVENTS then
    ("command", VStr (ev_command e)) ::
    (if mem (ev_event e) ["command.completed"; "command.failed"]
     then place e ++ opt_field "exit_code" VInt (ev_exit_code e) ++ opt_field "duration" VFloat (ev_duration e) ++
          (if include_output then output_fields (ev_stdout e) (ev_stderr e) else [])
     else [])
  else [].

Definition _build_payload (d : Draws) (event session_id : string) (extra : list (string * value)) : value :=
  VDict ([("event", VStr event); ("event_id", VStr (dr_event_id d)); ("event_version", VInt EVENT_VERSION);
          ("timestamp", VStr (dr_timestamp d)); ("session_id", VStr session_id)] ++ extra).

(** The text of headers, and [json.loads] of the text of a dict of strings, which is what the
    routes take for headers; [None] is any other text. *)
Definition headers_text (h : dict string) : string := json_text (VDict (map (fun e => (fst e, VStr (snd e))) h)).
Definition is_json_space (c : ascii) : bool := char_in c (String " " (String tab (String newline (sc "013")))).
Definition skip_spaces (s : string) : string := lstrip_by is_json_space s.
Definition plain_escape (c : ascii) : option ascii :=
  if Ascii.eqb c dq || Ascii.eqb c bslash || Ascii.eqb c "/" then Some c
  else if Ascii.eqb c "n" then Some newline else if Ascii.eqb c "t" then Some tab
  else if Ascii.eqb c "r" then Some "013"%char else if Ascii.eqb c "b" then Some "008"%char
  else if Ascii.eqb c "f" then Some "012"%char else None.
Definition unicode_escape (a b c d : ascii) : option ascii :=
  if forallb is_hex [a; b; c; d] && (hex_value a =? 0) && (hex_value b =? 0)
  then Some (ascii_of_nat (Z.to_nat (hex_value c * 16 + hex_value d))) else None.
(** A string literal after its opening quote, and what follows it *)
Fixpoint scan_string (s : string) : option (string * string) :=
  let cons (o : option ascii) r := match o, r with
    | Some c, Some (t, rest) => Some (String c t, rest) | _, _ => None end in
  match s with
  | "" => None
  | String c r =>
      if Ascii.eqb c dq then Some ("", r)
      else if Ascii.eqb c bslash then
        match r with
        | String u r =>
            if Ascii.eqb u "u" then
              match r with
              | String h1 (String h2 (String h3 (String h4 r))) => cons (unicode_escape h1 h2 h3 h4) (scan_string r)
              | _ => None
              end
            else cons (plain_escape u) (scan_string r)
        | "" => None
        end
      else if Nat.ltb (cn c) 32 then None else cons (Some c) (scan_string r)
  end.
Definition scan_quoted (s : string) : option (string * string) :=
  match s with String c r => if Ascii.eqb c dq then scan_string r else None | "" => None end.
Definition expect (c : ascii) (s : string) : option string :=
  match s with String x r => if Ascii.eqb x c then Some r else None | "" => None end.
(** The members of an object, after its brace or a comma *)
Fixpoint scan_members (fuel : nat) (s : string) : option (dict string * string) :=
  match fuel with
  | O => None
  | S fuel =>
      '(k, s) ← scan_quoted (skip_spaces s);
      s ← expect ":" (skip_spaces s);
      '(v, s) ← scan_quoted (skip_spaces s);
      match skip_spaces s with
      | String "}" s => Some ([(k, v)], s)
      | String "," s => '(rest, s) ← scan_members fuel s; Some ((k, v) :: rest, s)
      | _ => None
      end
  end.
Definition header_loads (text : string) : option (dict string) :=
  s ← expect "{" (skip_spaces text);
  '(members, s) ← match skip_spaces s with
                  | String "}" s => Some ([], s)
                  | _ => scan_members (slen s) s
                  end;
  if String.eqb (skip_spaces s) "" then Some (fold_left (fun d kv => dict_set (fst kv) (snd kv) d) members []) else None.
Definition dict_update (d e : dict string) : dict string := fold_left (fun d kv => dict_set (fst kv) (snd kv) d) e d.

(** ** The outbox (event_hook_delivery.py) *)
Inductive delivery_status : Type := Pending | Sent | Failed | Dead.
#[global] Instance delivery_status_eq_dec : EqDecision delivery_status.
Proof. solve_decision. Defined.

Record WebhookDelivery : Type := mkDelivery {
  dl_id : string; dl_event_id : string; dl_hook_id : string; dl_event_type : string; dl_url : string;
  dl_payload_json : string; dl_headers_json : option string; dl_status : delivery_status; dl_attempts : Z;
  dl_next_retry_at : option Z; dl_last_error : option string; dl_http_status : option Z;
  dl_leased_by : option string; dl_leased_at : option Z; dl_created_at : Z; dl_updated_at : Z
}.
Definition enqueued (d : Draws) (hook_id event_type url payload : string) (headers : option string) : WebhookDelivery :=
  mkDelivery (dr_delivery_id d) (redact_text (dr_event_id d)) hook_id event_type url payload headers Pending 0 None None None
    None None (dr_now d) (dr_now d).

(** [secret_manager.decrypt], if there is a secret manager; [None] is an exception. *)
Definition vault : Type := option (string -> option string).
Definition unseal (v : vault) (sealed : option string) : option string :=
  match v, nonempty sealed with Some f, Some t => f t | _, _ => None end.

(** The delivery [emit_event] makes for a hook *)
Definition delivery_headers (v : vault) (h : EventHook) (d : Draws) (payload : string) : dict string :=
  let base := [("Content-Type", "application/json")] in
  let signed := match sign_payload (unseal v (hk_secret_encrypted h)) payload (dr_unix d) with
                | Some s => base ++ [("X-Webhook-Signature", s); ("X-Webhook-Timestamp", dr_unix d)]
                | None => base
                end in
  let all := signed ++ [("X-Event-Id", redact_text (dr_event_id d)); ("X-Delivery-Id", dr_header_id d)] in
  match unseal v (hk_headers_encrypted h) with
  | Some text => match header_loads text with Some custom => dict_update all custom | None => all end
  | None => all
  end.
Definition event_payload (h : EventHook) (d : Draws) (e : Event) : string :=
  json_text (redact_secrets (_build_payload d (ev_event e) (ev_session_id e) (extra_fields (hk_include_output h) e))).
Definition hook_delivery (v : vault) (e : Event) (h : EventHook) (d : Draws) : WebhookDelivery :=
  let payload := event_payload h d e in
  enqueued d (hk_id h) (ev_event e) (hk_url h) payload (Some (headers_text (delivery_headers v h d payload))).

(** A delivery with the id of another is refused by the table. *)
Definition enqueue (d : WebhookDelivery) (rows : dict WebhookDelivery) : dict WebhookDelivery :=
  if dict_in (dl_id d) rows then rows else dict_set (dl_id d) d rows.
(** [draws] has one entry for each hook that asks for the event. *)
Definition emit_event (v : vault) (hooks : dict EventHook) (draws : list Draws) (e : Event)
    (rows : dict WebhookDelivery) : dict WebhookDelivery :=
  fold_left (fun rows hd => enqueue (hook_delivery v e (fst hd) (snd hd)) rows)
    (combine (find_matching (ev_event e) (ev_session_id e) hooks) draws) rows.

(** *** Retries, claims and outcomes *)
Record RetryPolicy : Type := mkRetryPolicy {
  max_attempts : Z; retry_base : Z; retry_max : Z; lease_ttl : Z;
  (** whether the database returns times with a time zone, which the service's own have not *)
  aware : bool
}.
(** [jitter] is the factor drawn from 0.5 to 1.5, in millionths. *)
Definition _compute_retry_at (p : RetryPolicy) (attempts now jitter : Z) : Z :=
  now + Z.min (retry_base p * 2 ^ attempts) (retry_max p) * jitter / 1000000.

(** Comparing a time of the database with one of the service *)
Definition with_time {A} (p : RetryPolicy) (t : option Z) (f : Z -> A) (absent : A) : result A :=
  match t with None => Ok absent | Some t => if aware p then Raise TypeError else Ok (f t) end.
Definition set_lease (by_ : option string) (at_ : option Z) (now : Z) (d : WebhookDelivery) : WebhookDelivery :=
  mkDelivery (dl_id d) (dl_event_id d) (dl_hook_id d) (dl_event_type d) (dl_url d) (dl_payload_json d)
    (dl_headers_json d) (dl_status d) (dl_attempts d) (dl_next_retry_at d) (dl_last_error d) (dl_http_status d)
    by_ at_ (dl_created_at d) now.
(** One row of [claim_deliveries]: whether the instance takes it *)
Definition leased_elsewhere (p : RetryPolicy) (me : string) (now : Z) (d : WebhookDelivery) : result bool :=
  match nonempty (dl_leased_by d) with
  | Some owner => if String.eqb owner me then Ok false
                  else with_time p (dl_leased_at d) (fun t => now - lease_ttl p <? t) false
  | None => Ok false
  end.
Definition claimable (p : RetryPolicy) (me : string) (now : Z) (d : WebhookDelivery) : result bool :=
  elsewhere <-! leased_elsewhere p me now d ;;
  if elsewhere then Ok false
  else match dl_status d with
       | Pending => young <-! with_time p (Some (dl_created_at d)) (fun t => now - t <? 2000000) false ;; Ok (negb young)
       | Failed => waits <-! with_time p (dl_next_retry_at d) (fun t => now <? t) false ;; Ok (negb waits)
       | _ => Ok true
       end.
Definition unsettled (d : WebhookDelivery) : bool := bool_decide (dl_status d = Pending \/ dl_status d = Failed).
Definition claim_limit : nat := 20.
(** What [SELECT ... WHERE status IN ('pending', 'failed') LIMIT 20] may return: any of the
    unsettled rows, as many of them as there are or twenty *)
Definition selected (ids : list string) (rows : dict WebhookDelivery) : bool :=
  bool_decide (NoDup ids)
  && forallb (fun i => match dict_get i rows with Some d => unsettled d | None => false end) ids
  && Nat.eqb (List.length ids) (Nat.min claim_limit (List.length (List.filter unsettled (values rows)))).
(** A change of a row: the row as it was read, and as it is to be *)
Record change : Type := mkChange { ch_old : WebhookDelivery; ch_new : WebhookDelivery }.
Definition row_id (c : change) : string := dl_id (ch_old c).
(** The rows the instance takes, as it read them and with its lease; an exception ends the transaction. *)
Fixpoint claim_deliveries (p : RetryPolicy) (me : string) (now : Z) (ids : list string) (rows : dict WebhookDelivery)
    : result (list change) :=
  match ids with
  | [] => Ok []
  | i :: ids =>
      match dict_get i rows with
      | None => claim_deliveries p me now ids rows
      | Some d =>
          mine <-! claimable p me now d ;;
          claimed <-! claim_deliveries p me now ids rows ;;
          Ok (if mine then mkChange d (set_lease (Some me) (Some now) now d) :: claimed else claimed)
      end
  end.

Definition sent (http_status now : Z) (d : WebhookDelivery) : WebhookDelivery :=
  mkDelivery (dl_id d) (dl_event_id d) (dl_hook_id d) (dl_event_type d) (dl_url d) (dl_payload_json d)
    (dl_headers_json d) Sent (dl_attempts d) (dl_next_retry_at d) (dl_last_error d) (Some http_status)
    None None (dl_created_at d) now.
Definition failed (p : RetryPolicy) (last_error : string) (now jitter : Z) (d : WebhookDelivery) : WebhookDelivery :=
  let attempts := dl_attempts d + 1 in
  let dead := max_attempts p <=? attempts in
  mkDelivery (dl_id d) (dl_event_id d) (dl_hook_id d) (dl_event_type d) (dl_url d) (dl_payload_json d)
    (dl_headers_json d) (if dead then Dead else Failed) attempts
    (if dead then None else Some (_compute_retry_at p attempts now jitter)) (Some (take 1024 last_error))
    (dl_http_status d) None None (dl_created_at d) now.
(** What [complete] and [fail] make of the row they read; [None] when there is none *)
Definition complete (i : string) (http_status now : Z) (rows : dict WebhookDelivery) : option change :=
  option_map (fun d => mkChange d (sent http_status now d)) (dict_get i rows).
Definition fail (p : RetryPolicy) (i last_error : string) (now jitter : Z) (rows : dict WebhookDelivery) : option change :=
  option_map (fun d => mkChange d (failed p last_error now jitter d)) (dict_get i rows).

(** *** Commits
    An UPDATE of SQLAlchemy writes the columns whose values are not those that were read, whatever the row has
    become since; the rows have no version, and the SELECT locks none. *)
Definition column {A} `{EqDecision A} (old new cur : A) : A := if bool_decide (new = old) then cur else new.
Definition write_row (c : change) (cur : WebhookDelivery) : WebhookDelivery :=
  let old := ch_old c in
  let new := ch_new c in
  mkDelivery (dl_id cur) (dl_event_id cur) (dl_hook_id cur) (dl_event_type cur) (dl_url cur) (dl_payload_json cur)
    (dl_headers_json cur) (column (dl_status old) (dl_status new) (dl_status cur))
    (column (dl_attempts old) (dl_attempts new) (dl_attempts cur))
    (column (dl_next_retry_at old) (dl_next_retry_at new) (dl_next_retry_at cur))
    (column (dl_last_error old) (dl_last_error new) (dl_last_error cur))
    (column (dl_http_status old) (dl_http_status new) (dl_http_status cur))
    (column (dl_leased_by old) (dl_leased_by new) (dl_leased_by cur))
    (column (dl_leased_at old) (dl_leased_at new) (dl_leased_at cur)) (dl_created_at cur)
    (column (dl_updated_at old) (dl_updated_at new) (dl_updated_at cur)).
Definition write (rows : dict WebhookDelivery) (c : change) : dict WebhookDelivery :=
  match dict_get (row_id c) rows with Some cur => dict_set (row_id c) (write_row c cur) rows | None => rows end.
(** An UPDATE of a row that is gone raises, and nothing is committed; whether that is noticed in one of several
    rows depends on the driver. *)
Definition commit_claim (notices : bool) (claimed : list change) (rows : dict WebhookDelivery)
    : option (dict WebhookDelivery) :=
  if (notices || Nat.eqb (List.length claimed) 1) && negb (forallb (fun c => dict_in (row_id c) rows) claimed) then None
  else Some (fold_left write claimed rows).

(** [cleanup_old] reads the rows of each of two states, and deletes what it read. *)
Definition day : Z := 86400 * 1000000.
Definition expired (status : delivery_status) (now days : Z) (d : WebhookDelivery) : bool :=
  bool_decide (dl_status d = status) && (dl_updated_at d <? now - days * day).
Definition expired_ids (status : delivery_status) (now days : Z) (rows : dict WebhookDelivery) : list string :=
  keys (List.filter (fun e => expired status now days (snd e)) rows).
Definition cleanup_old (ids : list string) (rows : dict WebhookDelivery) : dict WebhookDelivery :=
  List.filter (fun e => negb (mem (fst e) ids)) rows.

(** *** Sending *)
Definition _blocked_literal_destination_reason (url : string) : result validation :=
  host <-! url_hostname url ;;
  Ok match host with
     | None => Some "no hostname"
     | Some host => match ip_object host with None => None | Some _ => validate_destination_ip host end
     end.
(** [_ValidatedWebhookResolver.resolve]: the addresses, or the text of the exception;
    [oserror] is the text of a failed resolution. *)
Definition resolve (dns : resolver) (oserror host : string) : string + list string :=
  match dns host with
  | None => inl oserror
  | Some resolved =>
      match first_some validate_destination_ip resolved with
      | Some reason => inl ("Blocked destination (" +s+ reason +s+ ")")
      | None => inr resolved
      end
  end.
(** Where the client may connect: to the address in the URL, or to one its resolver answers *)
Definition connectable (dns : resolver) (oserror url : string) : string + list address :=
  match url_hostname url with
  | Ok (Some host) =>
      match ip_object host with
      | Some a => inr [a]
      | None => match resolve dns oserror host with inl e => inl e | inr hosts => inr (omap ip_object hosts) end
      end
  | _ => inl oserror
  end.

Record Post : Type := mkPost {
  po_delivery : WebhookDelivery; po_address : address; po_headers : dict string; po_data : string
}.
Definition sent_headers (d : WebhookDelivery) : dict string :=
  let defaults := [("Content-Type", "application/json")] in
  match nonempty (dl_headers_json d) with Some text => default defaults (header_loads text) | None => defaults end.

(** What is to be recorded of a delivery *)
Inductive verdict : Type := Completes (http_status : Z) | FailsWith (text : string).
(** A delivery task: before its POST, in it, about to read the row it records in, about to commit, and
    over.  [caught] is whether an exception of [complete] or [fail] is caught, and fails the delivery anew. *)
Inductive stage : Type :=
| Claimed | Posting | Recording (w : verdict) (caught : bool) | Committing (c : change) (caught : bool) | Over.
Record Task : Type := mkTask { tk_delivery : WebhookDelivery; tk_stage : stage }.
Inductive answer : Type := Status (code : Z) | Fails (text : string).

(** The rows, the tasks, the POSTs; the claims that are not committed yet, and the cleanups with the rows they read *)
Record Outbox : Type := mkOutbox {
  ob_rows : dict WebhookDelivery; ob_tasks : list Task; ob_posts : list Post;
  ob_claims : list (list change); ob_sweeps : list (list string)
}.
Definition set_rows (rows : dict WebhookDelivery) (ob : Outbox) : Outbox :=
  mkOutbox rows (ob_tasks ob) (ob_posts ob) (ob_claims ob) (ob_sweeps ob).
Definition set_stage (tid : nat) (t : Task) (s : stage) (ob : Outbox) : Outbox :=
  mkOutbox (ob_rows ob) (<[tid := mkTask (tk_delivery t) s]> (ob_tasks ob)) (ob_posts ob) (ob_claims ob) (ob_sweeps ob).
Definition add_post (x : Post) (ob : Outbox) : Outbox :=
  mkOutbox (ob_rows ob) (ob_tasks ob) (ob_posts ob ++ [x]) (ob_claims ob) (ob_sweeps ob).
Definition set_claims (claims : list (list change)) (ob : Outbox) : Outbox :=
  mkOutbox (ob_rows ob) (ob_tasks ob) (ob_posts ob) claims (ob_sweeps ob).
Definition set_sweeps (sweeps : list (list string)) (ob : Outbox) : Outbox :=
  mkOutbox (ob_rows ob) (ob_tasks ob) (ob_posts ob) (ob_claims ob) sweeps.

(** [_send_delivery] up to the POST; the client takes the [pick]-th address.  A URL that does
    not parse raises before the [try], and the task is over. *)
Definition send_start (tid : nat) (dns : resolver) (oserror : string) (pick : nat) (t : Task) (ob : Outbox) : Outbox :=
  let d := tk_delivery t in
  let fails text := set_stage tid t (Recording (FailsWith text) false) ob in
  match _blocked_literal_destination_reason (dl_url d) with
  | Raise _ => set_stage tid t Over ob
  | Ok (Some reason) => fails ("Blocked destination (" +s+ reason +s+ ")")
  | Ok None =>
      match connectable dns oserror (dl_url d) with
      | inl text => fails (take 1024 text)
      | inr addrs =>
          match addrs !! pick with
          | None => fails (take 1024 oserror)
          | Some a => add_post (mkPost d a (sent_headers d) (dl_payload_json d)) (set_stage tid t Posting ob)
          end
      end
  end.
(** What follows the POST *)
Definition send_end (tid : nat) (a : answer) (t : Task) (ob : Outbox) : Outbox :=
  set_stage tid t
    (match a with
     | Status code =>
         Recording (if (200 <=? code) && (code <? 300) then Completes code
                    else if (code =? 429) || (500 <=? code) then FailsWith ("HTTP " +s+ z_str code)
                    else FailsWith ("HTTP " +s+ z_str code +s+ " (non-retryable)")) true
     | Fails text => Recording (FailsWith (take 1024 text)) false
     end) ob.
(** The SELECT of [complete] or [fail]: without a row it answers False. *)
Definition record_read (p : RetryPolicy) (tid : nat) (w : verdict) (caught : bool) (now jitter : Z) (t : Task) (ob : Outbox) : Outbox :=
  let i := dl_id (tk_delivery t) in
  match (match w with
         | Completes code => complete i code now (ob_rows ob)
         | FailsWith text => fail p i text now jitter (ob_rows ob)
         end) with
  | None => set_stage tid t Over ob
  | Some c => set_stage tid t (Committing c caught) ob
  end.
(** An exception of [complete] or [fail] *)
Definition recording_raised (tid : nat) (caught : bool) (error : string) (t : Task) (ob : Outbox) : Outbox :=
  set_stage tid t (if caught then Recording (FailsWith (take 1024 error)) false else Over) ob.
(** Their COMMIT *)
Definition record_commit (tid : nat) (c : change) (caught : bool) (error : string) (t : Task) (ob : Outbox) : Outbox :=
  if dict_in (row_id c) (ob_rows ob) then set_stage tid t Over (set_rows (write (ob_rows ob) c) ob)
  else recording_raised tid caught error t ob.

(** *** The outbox and the instances that share it: each happening is what runs between two awaits *)
Inductive happening : Type :=
| OnEmit (hooks : dict EventHook) (draws : list Draws) (e : Event)
| OnSelect (instance : string) (now : Z) (ids : list string)
| OnClaim (k : nat) (notices : bool)
| OnSend (tid : nat) (dns : resolver) (oserror : string) (pick : nat)
| OnAnswer (tid : nat) (a : answer)
| OnRecord (tid : nat) (now jitter : Z)
| OnCommit (tid : nat) (error : string)
| OnDbError (tid : nat) (error : string)
| OnSweep (now sent_days : Z)
| OnSweepDead (k : nat) (now dead_days : Z)
| OnSwept (k : nat).

Definition happen (p : RetryPolicy) (v : vault) (h : happening) (ob : Outbox) : Outbox :=
  match h with
  | OnEmit hooks draws e => set_rows (emit_event v hooks draws e (ob_rows ob)) ob
  | OnSelect me now ids =>
      if selected ids (ob_rows ob) then
        match claim_deliveries p me now ids (ob_rows ob) with
        | Ok claimed => set_claims (ob_claims ob ++ [claimed]) ob
        | Raise _ => ob
        end
      else ob
  | OnClaim k notices =>
      match ob_claims ob !! k with
      | None => ob
      | Some claimed =>
          let ob := set_claims (<[k := []]> (ob_claims ob)) ob in
          match commit_claim notices claimed (ob_rows ob) with
          | None => ob
          | Some rows =>
              mkOutbox rows (ob_tasks ob ++ map (fun c => mkTask (ch_new c) Claimed) claimed) (ob_posts ob)
                (ob_claims ob) (ob_sweeps ob)
          end
      end
  | OnSend tid dns oserror pick =>
      match ob_tasks ob !! tid with
      | Some (mkTask d Claimed as t) => send_start tid dns oserror pick t ob
      | _ => ob
      end
  | OnAnswer tid a =>
      match ob_tasks ob !! tid with
      | Some (mkTask d Posting as t) => send_end tid a t ob
      | _ => ob
      end
  | OnRecord tid now jitter =>
      match ob_tasks ob !! tid with
      | Some (mkTask d (Recording w caught) as t) => record_read p tid w caught now jitter t ob
      | _ => ob
      end
  | OnCommit tid error =>
      match ob_tasks ob !! tid with
      | Some (mkTask d (Committing c caught) as t) => record_commit tid c caught error t ob
      | _ => ob
      end
  | OnDbError tid error =>
      match ob_tasks ob !! tid with
      | Some (mkTask d (Recording _ caught) as t) | Some (mkTask d (Committing _ caught) as t) =>
          recording_raised tid caught error t ob
      | _ => ob
      end
  | OnSweep now sent_days => set_sweeps (ob_sweeps ob ++ [expired_ids Sent now sent_days (ob_rows ob)]) ob
  | OnSweepDead k now dead_days =>
      match ob_sweeps ob !! k with
      | None => ob
      | Some ids => set_sweeps (<[k := ids ++ expired_ids Dead now dead_days (ob_rows ob)]> (ob_sweeps ob)) ob
      end
  | OnSwept k =>
      match ob_sweeps ob !! k with
      | None => ob
      | Some ids => set_sweeps (<[k := []]> (ob_sweeps ob)) (set_rows (cleanup_old ids (ob_rows ob)) ob)
      end
  end.
Definition empty_outbox : Outbox := mkOutbox [] [] [] [] [].
Definition history (p : RetryPolicy) (v : vault) (hs : list happening) : Outbox :=
  fold_left (fun ob h => happen p v h ob) hs empty_outbox.
