(* ===== verification/Auth.v ===== *)
(** * The authentication middleware (app/auth_middleware.py) and the web tokens it accepts
    (create_jwt and verify_jwt of app/user_auth.py)

    A check returns, refuses or raises; what it leaves in [request.state.auth_identity] is
    part of its result.  Signing and checking a JWT is the library's ([Jwt]); header values
    are sequences of Latin-1 characters, and the header names of a request are lower case. *)
From S2P Require Import Prelude PyStr Digests CommandGate ClientIp Rbac AgentTokens Url.
From stdpp Require Import options.

(** ** The request, the settings, the tokens *)
Record HttpRequest : Type := mkHttp {
  hr_method : string; hr_path : string; hr_client : option string; hr_headers : dict string;
  hr_cookies : dict string; hr_query : dict string }.
Definition header (name : string) (rq : HttpRequest) : string :=
  default "" (dict_get name (hr_headers rq)).

Record AuthSettings : Type := mkAuth {
  api_auth_enabled : bool; api_key : string; agent_token : string;
  agent_token_expires_at : option Z; agent_token_scopes : list string;
  allowed_client_cidrs : string; au_trusted_proxy_cidrs : string; jwt_secret : string }.

(** The claims the gateway writes and reads *)
Record jwt_claims : Type := mkClaims {
  jc_sub : option string; jc_uid : option Z; jc_role : option string; jc_type : option string }.
(** [jwt.encode] and [jwt.decode] with HS256; [None]: an InvalidTokenError *)
Class Jwt : Type := {
  jwt_encode : jwt_claims -> Z -> string -> string;            (* claims, exp, secret *)
  jwt_decode : string -> string -> Z -> option jwt_claims;     (* token, secret, now *)
  decode_encode_jwt : forall c exp secret now, (now < exp)%Z ->
    jwt_decode (jwt_encode c exp secret) secret now = Some c;
  jwt_text : forall c exp secret, jwt_encode c exp secret <> "" }.

Definition AUTH_COOKIE_NAME : string := "auth_token".

(** [secrets.compare_digest] on two [str] *)
Definition compare_digest (a b : string) : result bool :=
  if all_of is_ascii a && all_of is_ascii b then Ok (String.eqb a b) else Raise TypeError.

Section Auth.
Context {S : Strings} {M : MetaCodec} {J : Jwt}.
Implicit Types (s : AuthSettings) (store : option TokenStore) (rq : HttpRequest).

(** [Settings.jwt_secret_required] *)
Definition jwt_secret_required s : result string :=
  if String.eqb (jwt_secret s) "" then Raise (RuntimeError "JWT_SECRET must be configured")
  else Ok (jwt_secret s).
Definition create_jwt s (username : string) (user_id : Z) (role : string) (now expires_minutes : Z)
    : result string :=
  secret <-! jwt_secret_required s ;;
  Ok (jwt_encode (mkClaims (Some username) (Some user_id) (Some role) (Some "web-ui"))
        (now + expires_minutes * 60) secret).
Definition verify_jwt s (token : string) (now : Z) : result (option jwt_claims) :=
  secret <-! jwt_secret_required s ;;
  match jwt_decode token secret now with
  | Some payload => if bool_decide (jc_type payload = Some "web-ui") then Ok (Some payload) else Ok None
  | None => Ok None
  end.

(** ** Identities *)
Definition master_identity (token name : string) : AuthIdentity :=
  mkIdentity "master" token (Some name) ["*"] None None [] false.
Definition agent_identity (token : string) (scopes : list string) (role : option string)
    (labels : list string) : AuthIdentity :=
  mkIdentity "agent" token (Some "agent") scopes role None labels false.
(** [payload["sub"]] raises when the claim is missing. *)
Definition web_identity (token : string) (payload : jwt_claims) (via_cookie : bool) : result AuthIdentity :=
  let role := default "admin" (jc_role payload) in
  match jc_sub payload with
  | None => Raise (KeyError "sub")
  | Some sub => Ok (mkIdentity "web-ui" token (Some sub) (scopes_for_role (Some role)) (Some role)
                      None [] via_cookie)
  end.

Definition is_agent_token_valid s (provided : string) store (now : Z) : result (option AuthIdentity) :=
  if String.eqb provided "" then Ok None
  else
    match store with
    | Some (mkTokenStore true _ _ as st) =>
        checked <-! validate_token st provided ;;
        let '(valid, scopes, meta) := checked in
        if negb valid then Ok None
        else
          let role := match meta with
                      | Some m => match tm_role m with
                                  | Some r => Some r
                                  | None => default_role_for_scopes scopes
                                  end
                      | None => None
                      end in
          Ok (Some (agent_identity provided (default [] scopes) role
                      (match meta with Some m => tm_labels m | None => [] end)))
    | _ =>
        if String.eqb (agent_token s) "" then Ok None
        else if match agent_token_expires_at s with Some t => (t <=? now)%Z | None => false end then Ok None
        else
          same <-! compare_digest provided (agent_token s) ;;
          Ok (if same : bool
              then Some (agent_identity provided (agent_token_scopes s)
                           (default_role_for_scopes (Some (agent_token_scopes s))) [])
              else None)
    end.

(** The key a request presents: the X-API-Key header, else a Bearer token *)
Definition bearer rq : string :=
  let auth_header := header "authorization" rq in
  if startswith "Bearer " auth_header then drop 7 auth_header else "".
Definition presented rq : string :=
  let provided := header "x-api-key" rq in
  if String.eqb provided "" then bearer rq else provided.

(** [verify_api_key], called with the settings *)
Definition verify_api_key s store rq (now : Z) : result (option AuthIdentity) :=
  let provided := presented rq in
  if String.eqb provided "" then Ok None
  else
    same <-! compare_digest provided (api_key s) ;;
    if same : bool then Ok (Some (master_identity provided "master"))
    else is_agent_token_valid s provided store now.
Definition verify_master_api_key s rq : result (option AuthIdentity) :=
  let provided := presented rq in
  if String.eqb provided "" then Ok None
  else
    same <-! compare_digest provided (api_key s) ;;
    Ok (if same : bool then Some (master_identity provided "master") else None).

(** ** The checks of a route *)
Definition require_any_auth s (state : option AuthIdentity) rq (now : Z) : result AuthIdentity :=
  match state with
  | Some i => Ok i
  | None =>
      if negb (api_auth_enabled s) then Ok (master_identity "" "auth-disabled")
      else
        identity <-! verify_api_key s None rq now ;;
        match identity with
        | Some i => Ok i
        | None => Raise (HTTPException 401 "AUTH_REQUIRED")
        end
  end.
Definition require_master_key s rq : result AuthIdentity :=
  if negb (api_auth_enabled s) then Ok (master_identity "" "auth-disabled")
  else
    identity <-! verify_master_api_key s rq ;;
    match identity with
    | Some i => Ok i
    | None => Raise (HTTPException 401 "MASTER_KEY_REQUIRED")
    end.

(** ** Public paths *)
Definition ALWAYS_PUBLIC : list string := ["/"; "/health"; "/api/capabilities"].
Definition PUBLIC_AUTH_PATHS : list string :=
  ["/api/auth/check"; "/api/auth/register"; "/api/auth/login"; "/api/auth/verify";
   "/api/auth/oauth/authorize"; "/api/auth/oauth/callback"; "/api/auth/oauth/config"].
Definition _normalise_path (path : string) : string :=
  let p := rstrip_by (fun c => Ascii.eqb c "/") path in if String.eqb p "" then "/" else p.

(** The Origin, or else the Referer, of a state change must name the Host. *)
Definition _cookie_csrf_ok rq : result bool :=
  if mem (hr_method rq) ["GET"; "HEAD"; "OPTIONS"; "TRACE"] then Ok true
  else
    let origin := header "origin" rq in
    let referer := header "referer" rq in
    if String.eqb origin "" && String.eqb referer "" then Ok true
    else
      netloc <-! url_netloc (if String.eqb origin "" then referer else origin) ;;
      Ok (has_hostname netloc && String.eqb netloc (header "host" rq)).

Definition client_of rq (trusted : list ip_network) : string :=
  get_client_ip (mkRequest (hr_client rq) (dict_get "x-forwarded-for" (hr_headers rq))) trusted.
(** A list of networks that is written but has no valid one *)
Definition no_network (value : string) : bool :=
  match parse_cidrs value with [] => negb (String.eqb (strip value) "") | _ => false end.

(** ** The middleware: the refusal if any, and [request.state.auth_identity] *)
Definition verdict : Type := option (Z * string) * option AuthIdentity.
Definition refuse (status : Z) (code : string) : result verdict := Ok (Some (status, code), None).
Definition let_in (i : AuthIdentity) : result verdict := Ok (None, Some i).

(** The end of [auth_check]: the cookie, for a browser *)
Definition cookie_check s rq (now : Z) : result verdict :=
  let cookie_token := default "" (dict_get AUTH_COOKIE_NAME (hr_cookies rq)) in
  if String.eqb cookie_token "" then refuse 401 "INVALID_API_KEY"
  else
    payload <-! verify_jwt s cookie_token now ;;
    match payload with
    | None => refuse 401 "INVALID_API_KEY"
    | Some payload =>
        csrf_ok <-! _cookie_csrf_ok rq ;;
        if negb csrf_ok then refuse 403 "CSRF_BLOCKED"
        else i <-! web_identity cookie_token payload true ;; let_in i
    end.

Definition auth_check s store rq (now : Z) : result verdict :=
  if String.eqb (hr_method rq) "OPTIONS" then Ok (None, None)
  else
    let path := _normalise_path (hr_path rq) in
    if negb (api_auth_enabled s) then let_in (master_identity "" "auth-disabled")
    else if String.eqb (hr_method rq) "GET" && mem path ALWAYS_PUBLIC then Ok (None, None)
    else if String.eqb (hr_method rq) "GET"
            && (String.eqb path "/static" || startswith "/static/" path) then Ok (None, None)
    else if mem path PUBLIC_AUTH_PATHS then Ok (None, None)
    else if String.eqb (api_key s) "" then refuse 503 "AUTH_MISCONFIGURED"
    else
      let allowed_nets := parse_cidrs (allowed_client_cidrs s) in
      let trusted_nets := parse_cidrs (au_trusted_proxy_cidrs s) in
      if no_network (allowed_client_cidrs s) then refuse 503 "AUTH_MISCONFIGURED"
      else if no_network (au_trusted_proxy_cidrs s) then refuse 503 "AUTH_MISCONFIGURED"
      else if negb (is_ip_allowed (client_of rq trusted_nets) allowed_nets)
      then refuse 403 "IP_NOT_ALLOWED"
      else
        identity <-! verify_api_key s store rq now ;;
        match identity with
        | Some i => let_in i
        | None =>
            payload <-! (if startswith "Bearer " (header "authorization" rq)
                         then verify_jwt s (bearer rq) now else Ok None) ;;
            match payload with
            | Some payload => i <-! web_identity (bearer rq) payload false ;; let_in i
            | None => cookie_check s rq now
            end
        end.

(** A route behind the middleware (app/main.py) with [Depends(require_scope(required))] *)
Definition guarded_route s store rq (required : string) (now : Z) : result AuthIdentity :=
  exc <-! auth_check s store rq now ;;
  match exc with
  | (Some (status, code), _) => Raise (HTTPException status code)
  | (None, state) => require_scope required state
  end.

(** ** WebSockets: the identity, or the reason to close the connection with code 1008 *)
Definition CLOSE_POLICY_VIOLATION : Z := 1008.
Definition close_ws (reason : string) : result (AuthIdentity + Z * string) :=
  Ok (inr (CLOSE_POLICY_VIOLATION, reason)).

(** The token: a header, the cookie, the query *)
Definition ws_presented rq : string :=
  let provided := presented rq in
  if negb (String.eqb provided "") then provided
  else
    let cookie := default "" (dict_get AUTH_COOKIE_NAME (hr_cookies rq)) in
    if negb (String.eqb cookie "") then cookie else default "" (dict_get "token" (hr_query rq)).

Definition ws_identity s store (provided : string) (now : Z) : result (option AuthIdentity) :=
  same <-! compare_digest provided (api_key s) ;;
  if same : bool then Ok (Some (master_identity provided "master"))
  else
    payload <-! verify_jwt s provided now ;;
    match payload with
    | Some payload => i <-! web_identity provided payload true ;; Ok (Some i)
    | None => is_agent_token_valid s provided store now
    end.

Definition ws_auth_check s store rq (required_scope : string) (now : Z)
    : result (AuthIdentity + Z * string) :=
  if negb (api_auth_enabled s) then Ok (inl (master_identity "" "auth-disabled"))
  else if String.eqb (api_key s) "" then close_ws "Server configuration error"
  else
    let allowed_nets := parse_cidrs (allowed_client_cidrs s) in
    let trusted_nets := parse_cidrs (au_trusted_proxy_cidrs s) in
    if no_network (allowed_client_cidrs s) then close_ws "Server configuration error"
    else if no_network (au_trusted_proxy_cidrs s) then close_ws "Server configuration error"
    else if negb (is_ip_allowed (client_of rq trusted_nets) allowed_nets)
    then close_ws "Access denied: client IP not allowed"
    else
      let origin := header "origin" rq in
      origin_host <-! (if String.eqb origin "" then Ok "" else url_netloc origin) ;;
      if negb (String.eqb origin_host "") && negb (String.eqb origin_host (header "host" rq))
      then close_ws "Access denied: cross-site WebSocket rejected"
      else
        let provided := ws_presented rq in
        if String.eqb provided "" then close_ws "Invalid or missing API key"
        else
          identity <-! ws_identity s store provided now ;;
          match identity with
          | None => close_ws "Invalid or missing API key"
          | Some i =>
              if negb (String.eqb required_scope "") && negb (String.eqb (id_token_type i) "master")
                 && negb (mem "*" (id_scopes i)) && negb (mem required_scope (id_scopes i))
                 && negb (role_allows_scope (id_role i) (identity_permissions i) required_scope)
              then close_ws ("Missing required scope: " +s+ required_scope)
              else Ok (inl i)
          end.
End Auth.
