(* ===== verification/UserAuth.v ===== *)
(** * The local accounts of the web UI (app/user_auth.py)

    The table of users, registration of the one administrator, login and the verification of
    the cookie.  Hashing passwords is bcrypt's; what a request must look like is the pydantic
    model's constraints.  The registration lock makes [register] one step.  A failure of the
    database, the rate limits and the equal timing of a failed login are left out. *)
From S2P Require Import Prelude PyStr CommandGate ClientIp Rbac AgentTokens Url Auth.
From stdpp Require Import options.

(** [bcrypt.hashpw(password, salt)] and [bcrypt.checkpw(password, hash)]: up to 72 bytes *)
Class Bcrypt : Type := {
  hashpw : string -> string -> result string;
  checkpw : string -> string -> result bool;
  hashpw_short : forall p salt, (slen p <= 72)%nat -> exists h, hashpw p salt = Ok h;
  checkpw_hashpw : forall p salt h, hashpw p salt = Ok h -> checkpw p h = Ok true }.

Record User : Type := mkUser { us_id : Z; us_username : string; us_password_hash : string }.
(** The table, and the identifier of the next row *)
Record AuthDb : Type := mkAuthDb { users : list User; next_id : Z }.
Definition no_users : AuthDb := mkAuthDb [] 1.

Record WebSettings : Type := mkWeb {
  web_auth : AuthSettings; setup_token : string; jwt_expires_minutes : Z }.

Record RegisterRequest : Type := mkRegister {
  rg_username : string; rg_password : string; rg_password_confirm : string; rg_setup_token : string }.
Record LoginRequest : Type := mkLogin { lg_username : string; lg_password : string }.
Definition between (lo hi : nat) (s : string) : bool := (lo <=? slen s)%nat && (slen s <=? hi)%nat.
Definition register_request_ok (req : RegisterRequest) : bool :=
  between 3 32 (rg_username req)
  && all_of (fun c => is_upper c || is_lower c || is_digit c || char_in c "_.-") (rg_username req)
  && between 8 128 (rg_password req) && between 8 128 (rg_password_confirm req)
  && (slen (rg_setup_token req) <=? 256)%nat.
Definition login_request_ok (req : LoginRequest) : bool :=
  negb (String.eqb (lg_username req) "") && negb (String.eqb (lg_password req) "").

(** [re.search] of a character class *)
Definition has_char (p : ascii -> bool) (s : string) : bool := negb (all_of (fun c => negb (p c)) s).
Definition is_special (c : ascii) : bool :=
  char_in c "!@#$%^&*(),.?{}|<>_-+" || Ascii.eqb c "034".
Definition validate_password (password : string) : bool * string :=
  if (slen password <? 8)%nat then (false, "Password must be at least 8 characters")
  else if negb (has_char is_upper password)
  then (false, "Password must contain at least one uppercase letter")
  else if negb (has_char is_digit password) then (false, "Password must contain at least one digit")
  else if negb (has_char is_special password)
  then (false, "Password must contain at least one special character")
  else (true, "").

Section Accounts.
Context {S : Strings} {M : MetaCodec} {J : Jwt} {B : Bcrypt}.

(** A response: its status, the user name, and the cookie it sets *)
Definition response : Type := Z * string * option (string * string).
Definition find_user (username : string) (db : AuthDb) : option User :=
  List.find (fun u => String.eqb (us_username u) username) (users db).

Definition with_cookie (status : Z) (s : WebSettings) (u : User) (now : Z) : result response :=
  token <-! create_jwt (web_auth s) (us_username u) (us_id u) "admin" now (jwt_expires_minutes s) ;;
  Ok (status, us_username u, Some (AUTH_COOKIE_NAME, token)).

Definition register (s : WebSettings) (req : RegisterRequest) (salt : string) (now : Z) (db : AuthDb)
    : result response * AuthDb :=
  let fail (status : Z) detail := (Raise (HTTPException status detail), db) in
  if negb (register_request_ok req) then fail 422%Z "validation"
  else if negb (String.eqb (rg_password req) (rg_password_confirm req))
  then fail 400%Z "Passwords do not match"
  else if negb (fst (validate_password (rg_password req)))
  then fail 400%Z (snd (validate_password (rg_password req)))
  else if (0 <? length (users db))%nat
  then fail 403%Z "Registration disabled. An admin already exists."
  else if String.eqb (setup_token s) ""
  then fail 503%Z "Registration disabled: SETUP_TOKEN is not configured on the server."
  else
    match compare_digest (rg_setup_token req) (setup_token s) with
    | Raise e => (Raise e, db)
    | Ok false => fail 403%Z "Invalid or missing setup token"
    | Ok true =>
        match find_user (rg_username req) db with
        | Some _ => fail 409%Z "Username already taken"
        | None =>
            match hashpw (rg_password req) salt with
            | Raise e => (Raise e, db)
            | Ok pw_hash =>
                let user := mkUser (next_id db) (rg_username req) pw_hash in
                (with_cookie 201 s user now, mkAuthDb (users db ++ [user]) (next_id db + 1)%Z)
            end
        end
    end.

(** [dummy] is [_DUMMY_HASH]. *)
Definition login (s : WebSettings) (dummy : string) (req : LoginRequest) (now : Z) (db : AuthDb)
    : result response :=
  let refused := Raise (HTTPException 401 "Invalid username or password") in
  if negb (login_request_ok req) then Raise (HTTPException 422 "validation")
  else
    match find_user (lg_username req) db with
    | None => _ <-! checkpw (lg_password req) dummy ;; refused
    | Some user =>
        ok <-! checkpw (lg_password req) (us_password_hash user) ;;
        if negb ok then refused else with_cookie 200 s user now
    end.

(** GET /api/auth/verify *)
Definition verify (s : WebSettings) (rq : HttpRequest) (now : Z) : result (string * Z) :=
  let cookie := default "" (dict_get AUTH_COOKIE_NAME (hr_cookies rq)) in
  let token := if String.eqb cookie "" then bearer rq else cookie in
  if String.eqb token "" then Raise (HTTPException 401 "Missing or invalid token")
  else
    payload <-! verify_jwt (web_auth s) token now ;;
    match payload with
    | None => Raise (HTTPException 401 "Invalid or expired token")
    | Some c => match jc_sub c, jc_uid c with
                | Some username, Some uid => Ok (username, uid)
                | None, _ => Raise (KeyError "sub")
                | _, None => Raise (KeyError "uid")
                end
    end.

(** GET /api/auth/check: the name of the key's identity, and the number of users *)
Definition auth_check_users (s : WebSettings) (store : option TokenStore) (rq : HttpRequest) (now : Z)
    (db : AuthDb) : result (option string * nat) :=
  identity <-! verify_api_key (web_auth s) store rq now ;;
  match identity with
  | Some i => Ok (Some (default "default" (id_name i)), length (users db))
  | None => Ok (None, length (users db))
  end.
End Accounts.
