(* ===== verification/Redis.v ===== *)
(** * Redis, as the gateway relies on it

    The commands the job queue and the locks send, as an interface: what each documents about
    the strings and sorted sets it reads and writes.  A command is atomic, and so is a Lua
    script; between two of them time may pass ([elapse]) and the memory policy may drop a
    string ([evict]).  Times and scores are integers. *)
From stdpp Require Import gmap.
From S2P Require Import Prelude PyStr.
From stdpp Require Import options.

Class Redis : Type := {
  db : Type;
  GET : db -> string -> option string;
  SET : db -> string -> string -> Z -> db;             (* SET key value EX seconds *)
  DEL : db -> string -> db;
  EXPIRE : db -> string -> Z -> db;
  ZADD : db -> string -> Z -> string -> db;            (* ZADD key score member *)
  ZREM : db -> string -> string -> db;
  ZSCORE : db -> string -> string -> option Z;
  ZRANGEBYSCORE : db -> string -> Z -> Z -> list string;
  SCAN : db -> string -> list string;                  (* a whole SCAN MATCH prefix* *)
  elapse : Z -> db -> db;
  evict : string -> db -> db;
  clock : db -> Z;                                     (* the server's own *)
  deadline : db -> string -> Z;                        (* of a string that is there *)

  GET_SET d k v ex : (0 < ex)%Z -> GET (SET d k v ex) k = Some v;
  GET_SET_ne d k v ex k' : k <> k' -> GET (SET d k v ex) k' = GET d k';
  GET_DEL d k k' : GET (DEL d k) k' = if String.eqb k k' then None else GET d k';
  GET_EXPIRE d k ex k' : (0 < ex)%Z -> GET (EXPIRE d k ex) k' = GET d k';
  GET_ZADD d z s m k : GET (ZADD d z s m) k = GET d k;
  GET_ZREM d z m k : GET (ZREM d z m) k = GET d k;
  GET_evict d k k' : GET (evict k d) k' = if String.eqb k k' then None else GET d k';
  GET_elapse d t k : (0 <= t)%Z -> GET (elapse t d) k = GET d k \/ GET (elapse t d) k = None;
  GET_alive d t k : (0 <= t)%Z -> (clock d + t < deadline d k)%Z -> GET (elapse t d) k = GET d k;
  GET_expired d t k : (0 <= t)%Z -> (deadline d k < clock d + t)%Z -> GET (elapse t d) k = None;

  clock_SET d k v ex : clock (SET d k v ex) = clock d;
  clock_DEL d k : clock (DEL d k) = clock d;
  clock_EXPIRE d k ex : clock (EXPIRE d k ex) = clock d;
  clock_elapse d t : clock (elapse t d) = (clock d + t)%Z;
  clock_evict d k : clock (evict k d) = clock d;
  deadline_SET d k v ex k' : deadline (SET d k v ex) k'
                             = if String.eqb k k' then (clock d + ex)%Z else deadline d k';
  deadline_DEL d k k' : k <> k' -> deadline (DEL d k) k' = deadline d k';
  deadline_EXPIRE d k ex k' : GET d k <> None ->
    deadline (EXPIRE d k ex) k' = if String.eqb k k' then (clock d + ex)%Z else deadline d k';
  deadline_elapse d t k : deadline (elapse t d) k = deadline d k;
  deadline_evict d k k' : k <> k' -> deadline (evict k d) k' = deadline d k';

  ZSCORE_ZADD d z s m z' m' : ZSCORE (ZADD d z s m) z' m'
                              = if String.eqb z z' && String.eqb m m' then Some s else ZSCORE d z' m';
  ZSCORE_ZREM d z m z' m' : ZSCORE (ZREM d z m) z' m'
                            = if String.eqb z z' && String.eqb m m' then None else ZSCORE d z' m';
  ZSCORE_SET d k v ex z m : ZSCORE (SET d k v ex) z m = ZSCORE d z m;
  ZSCORE_DEL d k z m : ZSCORE (DEL d k) z m = ZSCORE d z m;
  ZSCORE_elapse d t z m : ZSCORE (elapse t d) z m = ZSCORE d z m;
  ZSCORE_evict d k z m : ZSCORE (evict k d) z m = ZSCORE d z m;

  ZRANGE_spec d z lo hi m : In m (ZRANGEBYSCORE d z lo hi) <->
                            exists s, ZSCORE d z m = Some s /\ (lo <= s <= hi)%Z;
  SCAN_spec d p k : In k (SCAN d p) <-> startswith p k = true /\ GET d k <> None }.

(** [SET key value NX EX seconds] and whether it set the key *)
Definition SETNX {R : Redis} (d : db) (k v : string) (ex : Z) : bool * db :=
  match GET d k with None => (true, SET d k v ex) | Some _ => (false, d) end.

(** ** A server in memory *)
Record mem_db : Type := mkMem {
  m_strs : gmap string (string * Z); m_zsets : gmap (string * string) Z; m_clock : Z }.

Definition m_get (d : mem_db) (k : string) : option string :=
  match m_strs d !! k with
  | Some (v, dl) => if (m_clock d <? dl)%Z then Some v else None
  | None => None
  end.
Definition m_deadline (d : mem_db) (k : string) : Z :=
  match m_strs d !! k with Some (_, dl) => dl | None => 0%Z end.
Definition m_expire (d : mem_db) (k : string) (ex : Z) : mem_db :=
  match m_get d k with
  | Some v => mkMem (<[k := (v, m_clock d + ex)%Z]> (m_strs d)) (m_zsets d) (m_clock d)
  | None => d
  end.
Definition m_range (d : mem_db) (z : string) (lo hi : Z) : list string :=
  omap (fun x => if String.eqb (fst (fst x)) z && ((lo <=? snd x) && (snd x <=? hi))%Z
                 then Some (snd (fst x)) else None) (map_to_list (m_zsets d)).
Definition m_scan (d : mem_db) (p : string) : list string :=
  omap (fun x => if startswith p (fst x) && (m_clock d <? snd (snd x))%Z
                 then Some (fst x) else None) (map_to_list (m_strs d)).

#[local] Obligation Tactic := idtac.
Program Definition mem_redis : Redis := {|
  db := mem_db;
  GET := m_get;
  SET d k v ex := mkMem (<[k := (v, m_clock d + ex)%Z]> (m_strs d)) (m_zsets d) (m_clock d);
  DEL d k := mkMem (delete k (m_strs d)) (m_zsets d) (m_clock d);
  EXPIRE := m_expire;
  ZADD d z s m := mkMem (m_strs d) (<[(z, m) := s]> (m_zsets d)) (m_clock d);
  ZREM d z m := mkMem (m_strs d) (delete (z, m) (m_zsets d)) (m_clock d);
  ZSCORE d z m := m_zsets d !! (z, m);
  ZRANGEBYSCORE := m_range;
  SCAN := m_scan;
  elapse t d := mkMem (m_strs d) (m_zsets d) (m_clock d + t);
  evict k d := mkMem (delete k (m_strs d)) (m_zsets d) (m_clock d);
  clock := m_clock;
  deadline := m_deadline |}.
Next Obligation. (* GET_SET *)
  intros d k v ex H. unfold m_get. simpl. rewrite lookup_insert_eq.
  by replace (_ <? _)%Z with true by lia.
Qed.
Next Obligation. (* GET_SET_ne *)
  intros d k v ex k' H. unfold m_get. simpl. by rewrite lookup_insert_ne.
Qed.
Next Obligation. (* GET_DEL *)
  intros d k k'. unfold m_get. simpl. destruct (String.eqb_spec k k') as [-> | H];
    [by rewrite lookup_delete_eq | by rewrite lookup_delete_ne].
Qed.
Next Obligation. (* GET_EXPIRE *)
  intros d k ex k' H. unfold m_expire. destruct (m_get d k) as [v|] eqn:E; [| done].
  unfold m_get in *. simpl. destruct (decide (k = k')) as [<- | Hne];
    [rewrite lookup_insert_eq | by rewrite lookup_insert_ne].
  replace (_ <? _)%Z with true by lia.
  destruct (m_strs d !! k) as [[v' dl]|]; [| done]. by destruct (m_clock d <? dl)%Z.
Qed.
Next Obligation. (* GET_ZADD *) done. Qed.
Next Obligation. (* GET_ZREM *) done. Qed.
Next Obligation. (* GET_evict *)
  intros d k k'. unfold m_get. simpl. destruct (String.eqb_spec k k') as [-> | H];
    [by rewrite lookup_delete_eq | by rewrite lookup_delete_ne].
Qed.
Next Obligation. (* GET_elapse *)
  intros d t k Ht. unfold m_get. simpl. destruct (m_strs d !! k) as [[v dl]|]; [| by left].
  destruct (m_clock d + t <? dl)%Z eqn:E; [left | by right].
  by replace (m_clock d <? dl)%Z with true by lia.
Qed.
Next Obligation. (* GET_alive *)
  intros d t k Ht H. unfold m_get, m_deadline in *. simpl.
  destruct (m_strs d !! k) as [[v dl]|]; [| done].
  by replace (m_clock d + t <? dl)%Z with true by lia; replace (m_clock d <? dl)%Z with true by lia.
Qed.
Next Obligation. (* GET_expired *)
  intros d t k Ht H. unfold m_get, m_deadline in *. simpl.
  destruct (m_strs d !! k) as [[v dl]|]; [| done]. by replace (m_clock d + t <? dl)%Z with false by lia.
Qed.
Next Obligation. (* clock_SET *) done. Qed.
Next Obligation. (* clock_DEL *) done. Qed.
Next Obligation. (* clock_EXPIRE *) intros d k ex. unfold m_expire. by destruct (m_get d k). Qed.
Next Obligation. (* clock_elapse *) done. Qed.
Next Obligation. (* clock_evict *) done. Qed.
Next Obligation. (* deadline_SET *)
  intros d k v ex k'. unfold m_deadline. simpl. destruct (String.eqb_spec k k') as [-> | H];
    [by rewrite lookup_insert_eq | by rewrite lookup_insert_ne].
Qed.
Next Obligation. (* deadline_DEL *)
  intros d k k' H. unfold m_deadline. simpl. by rewrite lookup_delete_ne.
Qed.
Next Obligation. (* deadline_EXPIRE *)
  intros d k ex k' H. unfold m_expire. destruct (m_get d k) as [v|]; [| done].
  unfold m_deadline. simpl. destruct (String.eqb_spec k k') as [-> | Hn];
    [by rewrite lookup_insert_eq | by rewrite lookup_insert_ne].
Qed.
Next Obligation. (* deadline_elapse *) done. Qed.
Next Obligation. (* deadline_evict *)
  intros d k k' H. unfold m_deadline. simpl. by rewrite lookup_delete_ne.
Qed.
Next Obligation. (* ZSCORE_ZADD *)
  intros d z s m z' m'. simpl. destruct (String.eqb_spec z z') as [-> | Hz]; simpl.
  - destruct (String.eqb_spec m m') as [-> | Hm]; [by rewrite lookup_insert_eq |].
    apply lookup_insert_ne. congruence.
  - apply lookup_insert_ne. congruence.
Qed.
Next Obligation. (* ZSCORE_ZREM *)
  intros d z m z' m'. simpl. destruct (String.eqb_spec z z') as [-> | Hz]; simpl.
  - destruct (String.eqb_spec m m') as [-> | Hm]; [by rewrite lookup_delete_eq |].
    apply lookup_delete_ne. congruence.
  - apply lookup_delete_ne. congruence.
Qed.
Next Obligation. (* ZSCORE_SET *) done. Qed.
Next Obligation. (* ZSCORE_DEL *) done. Qed.
Next Obligation. (* ZSCORE_elapse *) done. Qed.
Next Obligation. (* ZSCORE_evict *) done. Qed.
Next Obligation. (* ZRANGE_spec *)
  intros d z lo hi m. unfold m_range. rewrite <- list_elem_of_In, list_elem_of_omap.
  split.
  - intros ([[z' m'] s] & Hin & H). apply elem_of_map_to_list in Hin. simpl in H.
    destruct (String.eqb_spec z' z) as [-> |]; [| done]. simpl in H.
    destruct ((lo <=? s) && (s <=? hi))%Z eqn:E; [| done]. injection H as ->.
    exists s. split; [done | lia].
  - intros (s & Hs & Hr). exists (z, m, s). split; [by apply elem_of_map_to_list |].
    simpl. rewrite String.eqb_refl. by replace ((lo <=? s) && (s <=? hi))%Z with true by lia.
Qed.
Next Obligation. (* SCAN_spec *)
  intros d p k. unfold m_scan, m_get. rewrite <- list_elem_of_In, list_elem_of_omap.
  split.
  - intros ([k' [v dl]] & Hin & H). apply elem_of_map_to_list in Hin. simpl in H.
    destruct (startswith p k') eqn:Ep; [| done]. simpl in H.
    destruct (m_clock d <? dl)%Z eqn:E; [| done]. injection H as ->. by rewrite Hin, E.
  - intros [Hp Hg]. destruct (m_strs d !! k) as [[v dl]|] eqn:Ek; [| done].
    exists (k, (v, dl)). split; [by apply elem_of_map_to_list |]. simpl. rewrite Hp. simpl.
    by destruct (m_clock d <? dl)%Z.
Qed.
