(* ===== verification/DurableJobs.v ===== *)
(** * Durable jobs in Redis (app/redis_queue.py, submissions and durable executions)

    A submission key is bound to one job by a claim, and the job's envelope goes from pending
    to processing to a terminal status by Lua scripts.  A script is a computation on the
    database; a Python method sends it and may fail to reach the server or lose its reply.
    Envelopes and claims are JSON objects; a method that reads the time takes it as [now]. *)
From stdpp Require Import gmap pretty.
From S2P Require Import Prelude PyStr Digests Redis.
From stdpp Require Import options.

(** ** JSON objects, and the codecs of Python and Lua on them *)
Inductive jv : Type := VNull | VBool (b : bool) | VNum (n : Z) | VStr (s : string).
#[global] Instance jv_eq_dec : EqDecision jv.
Proof. solve_decision. Defined.
Abbreviation jobj := (gmap string jv).
(** [json.dumps] / [cjson.encode] and [json.loads] / [cjson.decode] *)
Class JsonCodec : Type := {
  dumps : jobj -> string;
  loads : string -> option jobj;
  loads_dumps : forall o, loads (dumps o) = Some o }.

(** Lua: [nil] and [false] are false, everything else (JSON's null too) is true. *)
Definition truthy (v : option jv) : bool :=
  match v with None | Some (VBool false) => false | _ => true end.
Definition is_str (v : option jv) (s : string) : bool :=
  match v with Some (VStr s') => String.eqb s' s | _ => false end.
Definition TERMINAL : list string := ["completed"; "failed"; "cancelled"; "ambiguous"].
Definition terminal (v : option jv) : bool := existsb (is_str v) TERMINAL.

(** ** Keys ([RedisJobQueue.__init__]) *)
Definition _processing_key : string := "ssh_gateway:jobs:processing".
Definition _completed_key : string := "ssh_gateway:jobs:completed".
Definition _dead_letter_key : string := "ssh_gateway:jobs:dead".
Definition _job_prefix : string := "ssh_gateway:job:".
Definition _lease_prefix : string := "ssh_gateway:lease:".
Definition _submission_prefix : string := "ssh_gateway:submission:".
Definition _submission_ttl_seconds : Z := (7 * 86400)%Z.
Definition env_key (job_id : string) : string := _job_prefix +s+ job_id.
Definition lease_key (job_id : string) : string := _lease_prefix +s+ job_id.
(** On the UTF-8 bytes of the key *)
Definition _submission_storage_key (submission_key : string) : string :=
  _submission_prefix +s+ hexdigest submission_key.

(** What one round trip to the server does: the script runs and its reply arrives, the script
    runs and the reply is lost, or the server is not reached. *)
Inductive fate : Type := Delivered | ReplyLost | Unreachable.
Inductive qexn : Type :=
| SubmissionUnavailableError | SubmissionConflictError | ValueError (msg : string).

Section Queue.
Context {R : Redis} {J : JsonCodec}.

(** ** Scripts: [None] is an error, the writes before it stay. *)
Definition L (A : Type) : Type := db -> option A * db.
Definition lret {A} (a : A) : L A := fun d => (Some a, d).
Definition lerr {A} : L A := fun d => (None, d).
Definition lbind {A B} (m : L A) (k : A -> L B) : L B :=
  fun d => match m d with (Some a, d') => k a d' | (None, d') => (None, d') end.
Notation "x <-l m ;; k" := (lbind m (fun x => k)) (at level 80, m at next level, right associativity).
Notation "m ;;l k" := (lbind m (fun _ => k)) (at level 80, right associativity).
Definition lget (k : string) : L (option string) := fun d => (Some (GET d k), d).
Definition lset (k v : string) (ex : Z) : L unit :=
  fun d => if (0 <? ex)%Z then (Some tt, SET d k v ex) else (None, d).
Definition ldel (k : string) : L unit := fun d => (Some tt, DEL d k).
Definition lzadd (z : string) (score : Z) (m : option jv) : L unit :=
  fun d => match m with
           | Some (VStr s) => (Some tt, ZADD d z score s)
           | Some (VNum n) => (Some tt, ZADD d z score (pretty n))
           | _ => (None, d)
           end.
Definition lzrem (z : string) (m : option jv) : L unit :=
  fun d => match m with
           | Some (VStr s) => (Some tt, ZREM d z s)
           | Some (VNum n) => (Some tt, ZREM d z (pretty n))
           | _ => (None, d)
           end.
Definition ldecode (raw : string) : L jobj :=
  match loads raw with Some o => lret o | None => lerr end.
(** [now <= v]: an error unless [v] is a number *)
Definition lle (now : Z) (v : option jv) : L bool :=
  match v with Some (VNum n) => lret (now <=? n)%Z | _ => lerr end.

(** [redis.eval] of a script *)
Definition eval {A} (net : fate) (script : L A) (d : db) : option A * db :=
  match net with
  | Delivered => script d
  | ReplyLost => (None, snd (script d))
  | Unreachable => (None, d)
  end.

(** ** Claiming an execution *)
Definition own (job_id token : string) (lease_ttl now : Z) (env : jobj) : L bool :=
  lset (env_key job_id) (dumps env) 86400 ;;l
  lset (lease_key job_id) token lease_ttl ;;l
  lzadd _processing_key now (env !! "job_id") ;;l
  lret true.
Definition renewed (lease_ttl now : Z) (env : jobj) : jobj :=
  <["last_heartbeat" := VNum now]> (<["lease_expiry" := VNum (now + lease_ttl)]> env).
Definition _CLAIM_LUA (job_id token : string) (lease_ttl now : Z) : L bool :=
  raw <-l lget (env_key job_id) ;;
  match raw with
  | None => lret false
  | Some raw =>
      env <-l ldecode raw ;;
      let st := env !! "status" in
      let processing := is_str st "processing" in
      if terminal st then lret false
      else if processing && truthy (env !! "cancel_requested") then lret false
      else if processing && is_str (env !! "worker_token") token then
        own job_id token lease_ttl now (renewed lease_ttl now env)
      else
        live <-l (if processing && truthy (env !! "lease_expiry") then lle now (env !! "lease_expiry")
                  else lret false) ;;
        if live then lret false
        else own job_id token lease_ttl now
               (<["claimed_at" := VNum now]> (renewed lease_ttl now
                  (<["worker_token" := VStr token]> (<["status" := VStr "processing"]> env))))
  end.
Definition claim_durable_execution (connected : bool) (net : fate) (job_id worker_token : string)
    (lease_ttl now : Z) (d : db) : (qexn + bool) * db :=
  if negb connected then (inl SubmissionUnavailableError, d)
  else match eval net (_CLAIM_LUA job_id worker_token lease_ttl now) d with
       | (Some b, d') => (inr b, d')
       | (None, d') => (inl SubmissionUnavailableError, d')
       end.

(** ** Keeping it *)
Definition _HB_LUA (job_id token : string) (lease_ttl now : Z) : L bool :=
  raw <-l lget (env_key job_id) ;;
  match raw with
  | None => lret false
  | Some raw =>
      env <-l ldecode raw ;;
      if negb (is_str (env !! "status") "processing") || negb (is_str (env !! "worker_token") token)
      then lret false
      else if negb (truthy (env !! "lease_expiry")) then lret false
      else
        live <-l lle now (env !! "lease_expiry") ;;
        if negb live then lret false
        else own job_id token lease_ttl now (renewed lease_ttl now env)
  end.
(** A method that answers [False] when it cannot reach the server *)
Definition best_effort (connected : bool) (net : fate) (script : L bool) (d : db) : bool * db :=
  if negb connected then (false, d)
  else match eval net script d with (Some b, d') => (b, d') | (None, d') => (false, d') end.
Definition heartbeat_durable_execution (connected : bool) (net : fate)
    (job_id worker_token : string) (lease_ttl now : Z) : db -> bool * db :=
  best_effort connected net (_HB_LUA job_id worker_token lease_ttl now).

(** ** Cancellation *)
Definition _CANCEL_LUA (job_id : string) (now : Z) : L (option jv) :=
  raw <-l lget (env_key job_id) ;;
  match raw with
  | None => lret (Some (VStr ""))
  | Some raw =>
      env <-l ldecode raw ;;
      let st := env !! "status" in
      if terminal st then lret st
      else
        let env := <["cancel_requested" := VBool true]> env in
        if is_str st "pending" then
          let env := <["locally_interrupted" := VBool false]>
                       (<["remote_outcome" := VStr "not_started"]> (<["exit_code" := VNum (-1)]>
                         (<["finished_at" := VNum now]> (<["status" := VStr "cancelled"]> env)))) in
          lset (env_key job_id) (dumps env) 604800 ;;l
          lzrem _processing_key (env !! "job_id") ;;l
          ldel (lease_key job_id) ;;l
          lzadd _dead_letter_key now (env !! "job_id") ;;l
          lret (Some (VStr "cancelled"))
        else if is_str st "processing" then
          lset (env_key job_id) (dumps env) 86400 ;;l
          lret (Some (VStr "cancelling"))
        else lret (Some (VStr ""))
  end.
Definition request_durable_cancellation (connected : bool) (net : fate) (job_id : string) (now : Z)
    (d : db) : (qexn + option string) * db :=
  if negb connected then (inl SubmissionUnavailableError, d)
  else match eval net (_CANCEL_LUA job_id now) d with
       | (None, d') => (inl SubmissionUnavailableError, d')
       | (Some (Some (VStr status)), d') => (inr (if String.eqb status "" then None else Some status), d')
       | (Some _, d') => (inr None, d')
       end.

Definition _CHECK_CANCEL_LUA (job_id token : string) : L bool :=
  raw <-l lget (env_key job_id) ;;
  match raw with
  | None => lret false
  | Some raw =>
      env <-l ldecode raw ;;
      if negb (is_str (env !! "status") "processing") || negb (is_str (env !! "worker_token") token)
      then lret false
      else lret (truthy (env !! "cancel_requested"))
  end.
Definition is_durable_cancellation_requested (connected : bool) (net : fate)
    (job_id worker_token : string) : db -> bool * db :=
  best_effort connected net (_CHECK_CANCEL_LUA job_id worker_token).

(** ** The terminal transition *)
Definition FINISH_TERMINAL_MAX_ATTEMPTS : nat := 3.
(** What a worker reports *)
Record report : Type := mkReport {
  rp_status : string; rp_stdout : string; rp_stderr : string; rp_exit_code : option Z;
  rp_error : option string }.
Definition finished (r : report) (now : Z) (env : jobj) : jobj :=
  let env := <["stderr" := VStr (rp_stderr r)]> (<["stdout" := VStr (rp_stdout r)]>
               (<["finished_at" := VNum now]> (<["status" := VStr (rp_status r)]> env))) in
  let env := if String.eqb (rp_status r) "ambiguous"
             then <["locally_interrupted" := VBool true]>
                    (<["remote_outcome" := VStr "ambiguous"]> env)
             else env in
  let env := match rp_exit_code r with Some c => <["exit_code" := VNum c]> env | None => env end in
  match rp_error r with
  | Some e => if String.eqb e "" then env else <["error" := VStr e]> env
  | None => env
  end.
Definition _FINISH_LUA (job_id token : string) (r : report) (now : Z) : L bool :=
  raw <-l lget (env_key job_id) ;;
  match raw with
  | None => lret false
  | Some raw =>
      env <-l ldecode raw ;;
      if negb (is_str (env !! "status") "processing") || negb (is_str (env !! "worker_token") token)
      then lret false
      else
        let env := finished r now env in
        lset (env_key job_id) (dumps env) 604800 ;;l
        lzrem _processing_key (env !! "job_id") ;;l
        ldel (lease_key job_id) ;;l
        lzadd (if String.eqb (rp_status r) "completed" then _completed_key else _dead_letter_key) now
          (env !! "job_id") ;;l
        lret true
  end.
(** The retry loop; [net i] is the fate of attempt [i]. *)
Fixpoint finish_attempts (net : nat -> fate) (i left_ : nat) (script : L bool) (d : db) : bool * db :=
  match left_ with
  | O => (false, d)
  | S l => match eval (net i) script d with
           | (Some ok, d') => (ok, d')
           | (None, d') => finish_attempts net (S i) l script d'
           end
  end.
Definition finish_durable_execution (connected : bool) (net : nat -> fate)
    (job_id worker_token : string) (r : report) (now : Z) (d : db) : (qexn + bool) * db :=
  if negb (mem (rp_status r) TERMINAL)
  then (inl (ValueError ("Unsupported durable terminal status: " +s+ rp_status r)), d)
  else if negb connected then (inr false, d)
  else let '(ok, d') := finish_attempts net 0 FINISH_TERMINAL_MAX_ATTEMPTS
                          (_FINISH_LUA job_id worker_token r now) d in (inr ok, d').

(** ** Restart *)
Fixpoint lfold {A B} (body : B -> A -> L B) (acc : B) (l : list A) : L B :=
  match l with [] => lret acc | a :: r => acc' <-l body acc a ;; lfold body acc' r end.
(** [env['lease_expiry'] and now > env['lease_expiry']] *)
Definition lease_over (now : Z) (env : jobj) : L bool :=
  if truthy (env !! "lease_expiry") then le <-l lle now (env !! "lease_expiry") ;; lret (negb le)
  else lret false.
Definition reconcile_one (now : Z) (result : list string) (jid : string) : L (list string) :=
  raw <-l lget (env_key jid) ;;
  match raw with
  | None => lret result
  | Some raw =>
      env <-l ldecode raw ;;
      if is_str (env !! "status") "processing" && truthy (env !! "cancel_requested") then
        over <-l lease_over now env ;;
        if over then
          let env := <["locally_interrupted" := VBool true]>
                       (<["remote_outcome" := VStr "ambiguous"]> (<["finished_at" := VNum now]>
                         (<["status" := VStr "ambiguous"]> env))) in
          let env := match env !! "exit_code" with
                     | None => <["exit_code" := VNum (-1)]> env | Some _ => env end in
          lset (env_key jid) (dumps env) 604800 ;;l
          lzrem _processing_key (Some (VStr jid)) ;;l
          ldel (lease_key jid) ;;l
          lzadd _dead_letter_key now (Some (VStr jid)) ;;l
          lret (result ++ [jid])
        else lret result
      else lret result
  end.
Definition _RECONCILE_CANCEL_LUA (now : Z) : L (list string) :=
  fun d => lfold (reconcile_one now) [] (ZRANGEBYSCORE d _processing_key 0 now) d.
Definition reconcile_expired_cancelled_processing (connected : bool) (net : fate) (now : Z) (d : db)
    : list string * db :=
  if negb connected then ([], d)
  else match eval net (_RECONCILE_CANCEL_LUA now) d with
       | (Some l, d') => (l, d')
       | (None, d') => ([], d')
       end.

Definition recoverable_one (now : Z) (result : list string) (jid : string) : L (list string) :=
  raw <-l lget (env_key jid) ;;
  match raw with
  | None => lret result
  | Some raw =>
      env <-l ldecode raw ;;
      if is_str (env !! "status") "processing" && negb (truthy (env !! "cancel_requested")) then
        over <-l lease_over now env ;; lret (if over then result ++ [jid] else result)
      else lret result
  end.
Definition _SCAN_PENDING_LUA (now : Z) : L (list string) :=
  fun d => lfold (recoverable_one now) [] (ZRANGEBYSCORE d _processing_key 0 now) d.
Definition tostring (v : option jv) : string :=
  match v with
  | None => "nil" | Some VNull => "userdata: NULL"
  | Some (VBool b) => if b then "true" else "false"
  | Some (VNum n) => pretty n | Some (VStr s) => s
  end.
Definition pending_one (result : list string) (sub_key : string) : L (list string) :=
  raw <-l lget sub_key ;;
  match raw with
  | None => lret result
  | Some raw =>
      claim <-l ldecode raw ;;
      let jid := tostring (claim !! "job_id") in
      env_raw <-l lget (env_key jid) ;;
      match env_raw with
      | None => lret result
      | Some env_raw =>
          env <-l ldecode env_raw ;;
          lret (if is_str (env !! "status") "pending" then result ++ [jid] else result)
      end
  end.
Definition _SCAN_PENDING_ENV_LUA : L (list string) :=
  fun d => lfold pending_one [] (SCAN d _submission_prefix) d.
Definition add_missing (recovered : list string) (jid : string) : list string :=
  if mem jid recovered then recovered else recovered ++ [jid].
Definition list_recoverable_durable_jobs (connected : bool) (net1 net2 : fate) (now : Z) (d : db)
    : list string * db :=
  if negb connected then ([], d)
  else match eval net1 (_SCAN_PENDING_LUA now) d with
       | (None, d1) => ([], d1)
       | (Some recovered, d1) =>
           match eval net2 _SCAN_PENDING_ENV_LUA d1 with
           | (None, d2) => (recovered, d2)
           | (Some pending, d2) => (fold_left add_missing pending recovered, d2)
           end
       end.
Definition recover_durable_job (connected : bool) (net : fate) (job_id : string) (d : db) : option jobj :=
  match connected, net with
  | true, Delivered => match GET d (env_key job_id) with Some raw => loads raw | None => None end
  | _, _ => None
  end.

(** ** Submissions *)
(** Python's [str] of a JSON value *)
Definition py_text (v : jv) : string :=
  match v with
  | VNull => "None" | VBool b => if b then "True" else "False"
  | VNum n => pretty n | VStr s => s
  end.
Definition py_get (net : fate) (d : db) (k : string) : qexn + option string :=
  match net with Delivered => inr (GET d k) | _ => inl SubmissionUnavailableError end.

Definition find_submission (connected : bool) (net : fate) (submission_key owner_id payload_hash : string)
    (d : db) : qexn + option string :=
  if negb connected then inl SubmissionUnavailableError
  else match py_get net d (_submission_storage_key submission_key) with
       | inl e => inl e
       | inr None => inr None
       | inr (Some raw) =>
           match loads raw with
           | None => inl SubmissionUnavailableError
           | Some claim =>
               match claim !! "job_id", claim !! "owner_id", claim !! "payload_hash" with
               | Some job, Some owner, Some payload =>
                   if String.eqb (py_text owner) owner_id && String.eqb (py_text payload) payload_hash
                   then inr (Some (py_text job))
                   else inl SubmissionConflictError
               | _, _, _ => inl SubmissionUnavailableError
               end
           end
       end.

Definition claim_object (job_id owner_id payload_hash : string) (now : Z) : jobj :=
  list_to_map [("version", VNum 1); ("job_id", VStr job_id); ("owner_id", VStr owner_id);
               ("payload_hash", VStr payload_hash); ("created_at", VNum now)].

(** The reservation of the claim alone *)
Fixpoint claim_attempts (net : nat -> fate) (i left_ : nat) (submission_key job_id owner_id payload_hash claim : string)
    (d : db) : (qexn + (string * bool)) * db :=
  match left_ with
  | O => (inl SubmissionUnavailableError, d)
  | S l =>
      match net (2 * i)%nat with
      | ReplyLost => (inl SubmissionUnavailableError,
                      snd (SETNX d (_submission_storage_key submission_key) claim _submission_ttl_seconds))
      | Unreachable => (inl SubmissionUnavailableError, d)
      | Delivered =>
          let '(created, d') := SETNX d (_submission_storage_key submission_key) claim _submission_ttl_seconds in
          if created then (inr (job_id, true), d')
          else match find_submission true (net (S (2 * i))) submission_key owner_id payload_hash d' with
               | inl e => (inl e, d')
               | inr (Some existing) => (inr (existing, false), d')
               | inr None => claim_attempts net (S i) l submission_key job_id owner_id payload_hash claim d'
               end
      end
  end.
Definition claim_submission (connected : bool) (net : nat -> fate)
    (submission_key job_id owner_id payload_hash : string) (now : Z) (d : db)
    : (qexn + (string * bool)) * db :=
  if negb connected then (inl SubmissionUnavailableError, d)
  else claim_attempts net 0 3 submission_key job_id owner_id payload_hash
         (dumps (claim_object job_id owner_id payload_hash now)) d.

(** The reply of the script: [{1, 0}], [{0, 0}], [{0, -1}] or [{0, 0, job_id}] *)
Inductive reserve_reply : Type :=
| ReserveNew | ReserveFailed | ReserveConflict | ReserveExisting (job_id : option jv).
Definition lsetnx (k v : string) (ex : Z) : L bool :=
  fun d => if (0 <? ex)%Z then let '(b, d') := SETNX d k v ex in (Some b, d') else (None, d).
Definition _RESERVE_ENVELOPE_LUA (sub_key env_key_ sub_claim env_json owner payload : string) (ttl : Z)
    : L reserve_reply :=
  sub_created <-l lsetnx sub_key sub_claim ttl ;;
  env_created <-l lsetnx env_key_ env_json ttl ;;
  if sub_created && env_created then lret ReserveNew
  else if sub_created then ldel sub_key ;;l lret ReserveFailed
  else
    existing <-l lget sub_key ;;
    match existing with
    | None => lret ReserveFailed
    | Some raw =>
        claim <-l ldecode raw ;;
        if negb (is_str (claim !! "owner_id") owner) || negb (is_str (claim !! "payload_hash") payload)
        then lret ReserveConflict
        else lret (ReserveExisting (claim !! "job_id"))
    end.

(** The attempts of [reserve_submission_with_job]; a transport error ends them. *)
Fixpoint reserve_attempts (net : nat -> fate) (i left_ : nat) (job_id : string)
    (script : L reserve_reply) (d : db) : (qexn + (string * bool)) * db :=
  match left_ with
  | O => (inl SubmissionUnavailableError, d)
  | S l =>
      match eval (net i) script d with
      | (None, d') => (inl SubmissionUnavailableError, d')
      | (Some ReserveNew, d') => (inr (job_id, true), d')
      | (Some (ReserveExisting (Some v)), d') =>
          if String.eqb (py_text v) "" then reserve_attempts net (S i) l job_id script d'
          else (inr (py_text v, false), d')
      | (Some _, d') => reserve_attempts net (S i) l job_id script d'
      end
  end.
Definition reserve_submission_with_job (connected : bool) (net : nat -> fate)
    (submission_key job_id owner_id payload_hash : string) (envelope : jobj) (now : Z) (d : db)
    : (qexn + (string * bool)) * db :=
  if negb connected then (inl SubmissionUnavailableError, d)
  else reserve_attempts net 0 3 job_id
         (_RESERVE_ENVELOPE_LUA (_submission_storage_key submission_key) (env_key job_id)
            (dumps (claim_object job_id owner_id payload_hash now)) (dumps envelope) owner_id
            payload_hash _submission_ttl_seconds) d.

(** The envelope [JobManager.create_job] submits (app/job_manager.py) *)
Definition new_envelope (job_id submission_key session_id command stdin_b64 owner_id payload_hash : string)
    (timeout now : Z) (redact_path_prefix : option string) : jobj :=
  list_to_map [("version", VNum 1); ("job_id", VStr job_id); ("submission_key", VStr submission_key);
    ("session_id", VStr session_id); ("command", VStr command); ("stdin_b64", VStr stdin_b64);
    ("timeout", VNum timeout); ("owner_id", VStr owner_id);
    ("redact_path_prefix", match redact_path_prefix with Some p => VStr p | None => VNull end);
    ("payload_hash", VStr payload_hash); ("status", VStr "pending"); ("created_at", VNum now);
    ("queued_at", VNum now); ("started_at", VNull); ("claimed_at", VNull); ("finished_at", VNull);
    ("worker_token", VNull); ("lease_expiry", VNull); ("last_heartbeat", VNull);
    ("stdout", VStr ""); ("stderr", VStr ""); ("exit_code", VNull); ("error", VNull);
    ("cancel_requested", VBool false)].

(** ** The index of retained envelopes *)
Definition lower_hex (c : ascii) : bool := is_hex c && Ascii.eqb (lower_char c) c.
Definition task_key (v : option jv) : option string :=
  match v with Some (VStr s) => if startswith "task:" s then Some s else None | _ => None end.
Definition envelope_identity (env : jobj) : option (string * string * string) :=
  match env !! "job_id", env !! "owner_id", env !! "payload_hash" with
  | Some (VStr job), Some (VStr owner), Some (VStr payload) =>
      if negb (String.eqb (strip job) "") && (slen payload =? 64)%nat && all_of lower_hex (lower payload)
      then Some (strip job, owner, payload) else None
  | _, _, _ => None
  end.
Definition mem_jv (v : option jv) (l : list jv) : bool := existsb (fun x => bool_decide (v = Some x)) l.
(** An entry: the identity, or why there is none *)
Abbreviation index := (dict (string + (string * string * string))).
Definition index_one (d : db) (ix : index) (storage_key : string) : index :=
  match GET d storage_key with
  | None => ix
  | Some raw =>
      match loads raw with
      | None => ix
      | Some env =>
          match task_key (env !! "submission_key") with
          | None => ix
          | Some key =>
              if negb (mem_jv (env !! "version") [VNum 1; VBool true])
              then dict_set key (inl "Durable job envelope is invalid") ix
              else
                match envelope_identity env with
                | None => dict_set key (inl "Durable job envelope is invalid") ix
                | Some (job, owner, payload) =>
                    if negb (String.eqb storage_key (env_key job))
                    then dict_set key (inl "Durable job envelope storage identity is inconsistent") ix
                    else if dict_in key ix
                    then dict_set key (inl "Durable submission envelope identity is ambiguous") ix
                    else dict_set key (inr (job, owner, payload)) ix
                end
          end
      end
  end.
Definition _build_submission_envelope_index (d : db) : index :=
  fold_left (index_one d) (fold_left add_missing (SCAN d _job_prefix) []) [].
Definition _resolve_submission_envelope_claim (ix : index) (submission_key : string)
    : qexn + option (string * string * string) :=
  if negb (startswith "task:" submission_key) then inr None
  else match dict_get submission_key ix with
       | None => inr None
       | Some (inl _) => inl SubmissionUnavailableError
       | Some (inr m) => inr (Some m)
       end.
(** [index] is what [_get_submission_envelope_index] holds: built at most thirty seconds ago. *)
Definition agrees (v : option jv) (s : string) : bool :=
  match v with None | Some VNull => true | Some v => String.eqb (py_text v) s end.
Definition bound_to (submission_key job owner payload : string) (env : jobj) : bool :=
  agrees (match env !! "job_id" with None => env !! "id" | v => v end) job &&
  agrees (env !! "owner_id") owner && agrees (env !! "submission_key") submission_key &&
  agrees (env !! "payload_hash") payload.
Definition resolve_submission_claim (connected : bool) (net1 net2 : fate) (ix : index)
    (submission_key : string) (d : db) : qexn + option (string * string * string) :=
  if negb connected then inl SubmissionUnavailableError
  else match py_get net1 d (_submission_storage_key submission_key) with
       | inl e => inl e
       | inr None => _resolve_submission_envelope_claim ix submission_key
       | inr (Some raw) =>
           match loads raw with
           | None => inl SubmissionUnavailableError
           | Some claim =>
               if negb (mem_jv (claim !! "version") [VNum 1; VBool true]) then inl SubmissionUnavailableError
               else match envelope_identity claim with
                    | None => inl SubmissionUnavailableError
                    | Some (job, owner, payload) =>
                        match py_get net2 d (env_key job) with
                        | inl e => inl e
                        | inr None => inr (Some (job, owner, payload))
                        | inr (Some raw') =>
                            match loads raw' with
                            | None => inl SubmissionUnavailableError
                            | Some env => if bound_to submission_key job owner payload env
                                          then inr (Some (job, owner, payload))
                                          else inl SubmissionUnavailableError
                            end
                        end
                    end
           end
       end.
Fixpoint family_match (prefix : string) (m : option (string * string * string)) (ix : index)
    : qexn + option (string * string * string) :=
  match ix with
  | [] => inr m
  | (key, candidate) :: r =>
      if negb (startswith prefix key) then family_match prefix m r
      else
        let attempt_id := drop (slen prefix) key in
        if negb (slen attempt_id =? 32)%nat || negb (all_of lower_hex attempt_id)
        then inl SubmissionUnavailableError
        else match candidate, m with
             | inl _, _ => inl SubmissionUnavailableError
             | inr _, Some _ => inl SubmissionUnavailableError
             | inr c, None => family_match prefix (Some c) r
             end
  end.
Definition resolve_submission_family_claim (connected : bool) (ix : index) (submission_prefix : string)
    : qexn + option (string * string * string) :=
  if negb connected then inl SubmissionUnavailableError
  else if negb (startswith "task:" submission_prefix) || negb (endswith ":attempt:" submission_prefix)
  then inr None
  else family_match submission_prefix None ix.

(** ** The unfenced snapshot of a finished job *)
Definition terminal_snapshot (job_id session_id command owner_id : string) (r : report) (now : Z)
    (redact_path_prefix : option string) : jobj :=
  list_to_map [("id", VStr job_id); ("session_id", VStr session_id); ("command", VStr command);
    ("status", VStr (rp_status r)); ("owner_id", VStr owner_id); ("completed_at", VNum now);
    ("stdout", VStr (rp_stdout r)); ("stderr", VStr (rp_stderr r));
    ("exit_code", match rp_exit_code r with Some c => VNum c | None => VNull end);
    ("error", match rp_error r with Some e => VStr e | None => VNull end);
    ("redact_path_prefix", match redact_path_prefix with Some p => VStr p | None => VNull end)].
(** Its two writes *)
Definition save_snapshot (job_id session_id command owner_id : string) (r : report)
    (redact_path_prefix : option string) (now : Z) (d : db) : db :=
  SET d (env_key job_id)
    (dumps (terminal_snapshot job_id session_id command owner_id r now redact_path_prefix))
    (if String.eqb (rp_status r) "completed" then 86400 else 604800)%Z.
Definition save_terminal_job (connected : bool) (job_id session_id command owner_id : string)
    (r : report) (redact_path_prefix : option string) (now : Z) (d : db) : db :=
  if negb connected then d
  else ZADD (save_snapshot job_id session_id command owner_id r redact_path_prefix now d)
         (if String.eqb (rp_status r) "completed" then _completed_key else _dead_letter_key) now job_id.
End Queue.

Notation "x <-l m ;; k" := (lbind m (fun x => k))
  (at level 80, m at next level, right associativity) : gw_scope.
Notation "m ;;l k" := (lbind m (fun _ => k)) (at level 80, right associativity) : gw_scope.
