(* ===== verification/DurableFacts.v ===== *)
(** * Facts on durable jobs: what each script does to one envelope *)
From stdpp Require Import gmap.
From S2P Require Import Prelude PyStr Digests Redis DurableJobs.
From stdpp Require Import options.

(** ** Keys *)
Lemma env_key_inj a b : env_key a = env_key b -> a = b.
Proof. unfold env_key, _job_prefix. simpl. congruence. Qed.
Lemma env_lease a b : lease_key a <> env_key b.
Proof. unfold lease_key, env_key, _lease_prefix, _job_prefix. simpl. congruence. Qed.
Lemma env_submission a b : _submission_storage_key a <> env_key b.
Proof. unfold _submission_storage_key, env_key, _submission_prefix, _job_prefix. simpl. congruence. Qed.
#[export] Hint Resolve env_lease env_submission : gw.

(** Reads a field of an updated object. *)
Ltac lookups :=
  repeat (rewrite lookup_insert_eq || rewrite lookup_insert_ne by discriminate); try done.

Section Facts.
Context {R : Redis} {J : JsonCodec}.

(** The envelope of a job, when it is there and decodes *)
Definition view (d : db) (job : string) : option jobj :=
  match GET d (env_key job) with Some raw => loads raw | None => None end.

Lemma view_set d job env ex : (0 < ex)%Z -> view (SET d (env_key job) (dumps env) ex) job = Some env.
Proof. intros H. unfold view. rewrite GET_SET by done. apply loads_dumps. Qed.
Lemma view_set_ne d k v ex job : k <> env_key job -> view (SET d k v ex) job = view d job.
Proof. intros H. unfold view. by rewrite GET_SET_ne. Qed.
Lemma view_del d k job : k <> env_key job -> view (DEL d k) job = view d job.
Proof.
  intros H. unfold view. rewrite GET_DEL. by destruct (String.eqb_spec k (env_key job)).
Qed.
Lemma view_zadd d z s m job : view (ZADD d z s m) job = view d job.
Proof. unfold view. by rewrite GET_ZADD. Qed.
Lemma view_zrem d z m job : view (ZREM d z m) job = view d job.
Proof. unfold view. by rewrite GET_ZREM. Qed.

Lemma terminal_not_processing (env : jobj) : terminal (env !! "status") = true ->
  is_str (env !! "status") "processing" = false.
Proof.
  unfold terminal, is_str. destruct (env !! "status") as [[| | |s]|]; try done. simpl.
  destruct (String.eqb_spec s "processing") as [-> |]; done.
Qed.
Lemma processing_not_terminal (env : jobj) : is_str (env !! "status") "processing" = true ->
  terminal (env !! "status") = false.
Proof.
  intros H. destruct (terminal (env !! "status")) eqn:E; [| done].
  by rewrite (terminal_not_processing env E) in H.
Qed.

Lemma pending_only (env : jobj) : is_str (env !! "status") "pending" = true ->
  terminal (env !! "status") = false /\ is_str (env !! "status") "processing" = false.
Proof.
  unfold terminal, is_str. destruct (env !! "status") as [[| | |s]|]; try done. by intros ->%String.eqb_eq.
Qed.

(** ** The decisions of the scripts, as functions of the envelope: [None] leaves it *)
Definition processing_by (token : string) (env : jobj) : bool :=
  is_str (env !! "status") "processing" && is_str (env !! "worker_token") token.
(** The lease ends no earlier than [now]; [None]: the script fails on it. *)
Definition lease_live (now : Z) (env : jobj) : option bool :=
  match env !! "lease_expiry" with
  | None | Some (VBool false) => Some false
  | Some (VNum n) => Some (now <=? n)%Z
  | Some _ => None
  end.
Definition claimed (token : string) (lease_ttl now : Z) (env : jobj) : jobj :=
  <["claimed_at" := VNum now]> (renewed lease_ttl now
    (<["worker_token" := VStr token]> (<["status" := VStr "processing"]> env))).
Definition claim_next (token : string) (lease_ttl now : Z) (env : jobj) : option jobj :=
  let processing := is_str (env !! "status") "processing" in
  if terminal (env !! "status") || (processing && truthy (env !! "cancel_requested")) then None
  else if processing_by token env then Some (renewed lease_ttl now env)
  else if processing && negb (bool_decide (lease_live now env = Some false)) then None
  else Some (claimed token lease_ttl now env).
Definition hb_next (token : string) (lease_ttl now : Z) (env : jobj) : option jobj :=
  if processing_by token env && bool_decide (lease_live now env = Some true)
  then Some (renewed lease_ttl now env) else None.
Definition cancel_next (now : Z) (env : jobj) : option jobj :=
  if terminal (env !! "status") then None
  else
    let env' := <["cancel_requested" := VBool true]> env in
    if is_str (env !! "status") "pending" then
      Some (<["locally_interrupted" := VBool false]>
             (<["remote_outcome" := VStr "not_started"]> (<["exit_code" := VNum (-1)]>
               (<["finished_at" := VNum now]> (<["status" := VStr "cancelled"]> env')))))
    else if is_str (env !! "status") "processing" then Some env' else None.
Definition finish_next (token : string) (r : report) (now : Z) (env : jobj) : option jobj :=
  if processing_by token env then Some (finished r now env) else None.
Definition given_up (now : Z) (env : jobj) : jobj :=
  let env := <["locally_interrupted" := VBool true]>
               (<["remote_outcome" := VStr "ambiguous"]> (<["finished_at" := VNum now]>
                 (<["status" := VStr "ambiguous"]> env))) in
  match env !! "exit_code" with None => <["exit_code" := VNum (-1)]> env | Some _ => env end.
Definition reconcile_next (now : Z) (env : jobj) : option jobj :=
  if is_str (env !! "status") "processing" && truthy (env !! "cancel_requested")
     && bool_decide (lease_live now env = Some false) && truthy (env !! "lease_expiry")
  then Some (given_up now env) else None.

(** ** A script and its decision *)

Lemma own_view job token ttl now env d :
  (forall j, j <> job -> view (snd (own job token ttl now env d)) j = view d j) /\
  view (snd (own job token ttl now env d)) job = Some env.
Proof.
  assert (Hset : forall j, j <> job -> view (SET d (env_key job) (dumps env) 86400) j = view d j)
    by (intros j Hj; apply view_set_ne; by intros H%env_key_inj).
  unfold own, lbind, lset, lzadd, lret. simpl. destruct (0 <? ttl)%Z.
  - destruct (env !! "job_id") as [[]|]; simpl; split; intros; rewrite ?view_zadd, view_set_ne by auto with gw;
      auto using view_set; by apply view_set.
  - simpl. split; [exact Hset | by apply view_set].
Qed.
(** The end of the scripts that make a job terminal *)
Definition retire {A} (job : string) (env : jobj) (m : option jv) (z : string) (now : Z) (a : A) : L A :=
  lset (env_key job) (dumps env) 604800 ;;l
  lzrem _processing_key m ;;l
  ldel (lease_key job) ;;l
  lzadd z now m ;;l
  lret a.
Lemma retire_view {A} job env m z now (a : A) d :
  (forall j, j <> job -> view (snd (retire job env m z now a d)) j = view d j) /\
  view (snd (retire job env m z now a d)) job = Some env.
Proof.
  assert (Hset : forall j, j <> job -> view (SET d (env_key job) (dumps env) 604800) j = view d j)
    by (intros j Hj; apply view_set_ne; by intros H%env_key_inj).
  unfold retire, lbind, lset, lzrem, ldel, lzadd, lret. simpl.
  destruct m as [[]|]; simpl; split; intros; rewrite ?view_zadd, ?view_del, ?view_zrem by auto with gw;
    auto using view_set; by apply view_set.
Qed.
Definition leased (ttl now : Z) (env : jobj) : Prop :=
  env !! "lease_expiry" = Some (VNum (now + ttl)) /\ env !! "last_heartbeat" = Some (VNum now) /\
  is_str (env !! "status") "processing" = true.
(** How a script ends on [d], and with what decision: nothing written, the envelope taken by a
    worker, the job retired, or the envelope marked; a [yes] means it was changed. *)
Inductive ended {A} (yes : A -> bool) (job : string) (next : option jobj) (env : jobj) (d : db)
    : option A * db -> Prop :=
| EndStay a : next = None -> (match a with Some x => yes x | None => false end) = false ->
    ended yes job next env d (a, d)
| EndOwn env' token ttl now a : next = Some env' -> leased ttl now env' ->
    ended yes job next env d (a, snd (own job token ttl now env' d))
| EndRetire env' m z now a : next = Some env' -> terminal (env' !! "status") = true ->
    z <> _processing_key -> terminal (env !! "status") = false ->
    (m = Some (VStr job) \/ m = env !! "job_id") ->
    ended yes job next env d (a, snd (retire job env' m z now tt d))
| EndMark env' a : next = Some env' -> is_str (env !! "status") "processing" = true ->
    env' = <["cancel_requested" := VBool true]> env ->
    ended yes job next env d (a, SET d (env_key job) (dumps env') 86400).
Lemma ended_view {A} (yes : A -> bool) job next env d out : view d job = Some env ->
  ended yes job next env d out ->
  (forall j, j <> job -> view (snd out) j = view d j) /\
  view (snd out) job = Some (match next with Some env' => env' | None => env end) /\
  (forall a, fst out = Some a -> yes a = true -> next <> None).
Proof.
  intros Hv [a -> Ha | env' token ttl now a -> _ | env' m z now a -> _ _ _ _ | env' a -> _ _]; simpl.
  - split; [done |]. split; [done |]. intros x ->. congruence.
  - destruct (own_view job token ttl now env' d) as [H1 H2]. by rewrite H2.
  - destruct (retire_view job env' m z now tt d) as [H1 H2]. by rewrite H2.
  - rewrite view_set by done. split; [| done]. intros j Hj. apply view_set_ne. by intros H%env_key_inj.
Qed.
Definition acts {A} (yes : A -> bool) (script : L A) (job : string) (next : jobj -> option jobj) : Prop :=
  forall d,
    match view d job with
    | None => snd (script d) = d /\ (forall a, fst (script d) = Some a -> yes a = false)
    | Some env => ended yes job (next env) env d (script d)
    end.

Lemma own_answer job token ttl now env d :
  fst (own job token ttl now env d) = Some true \/ fst (own job token ttl now env d) = None.
Proof.
  unfold own, lbind, lset, lzadd, lret. simpl. destruct (0 <? ttl)%Z; [| by right].
  destruct (env !! "job_id") as [[]|]; simpl; auto.
Qed.

(** The reading of the envelope, common to the scripts *)
Definition on_env {A} (job : string) (absent : A) (k : jobj -> L A) : L A :=
  raw <-l lget (env_key job) ;;
  match raw with None => lret absent | Some raw => env <-l ldecode raw ;; k env end.
Lemma on_env_run {A} job (absent : A) k d :
  on_env job absent k d = match GET d (env_key job) with
                          | None => (Some absent, d)
                          | Some raw => match loads raw with Some env => k env d | None => (None, d) end
                          end.
Proof.
  unfold on_env, lbind, lget, ldecode. destruct (GET d (env_key job)) as [raw|]; [| done].
  by destruct (loads raw).
Qed.
Lemma acts_on_env {A} (yes : A -> bool) job (absent : A) (k : jobj -> L A) next : yes absent = false ->
  (forall env d, view d job = Some env -> ended yes job (next env) env d (k env d)) ->
  acts yes (on_env job absent k) job next.
Proof.
  intros Hn H d. rewrite on_env_run. unfold view at 1.
  destruct (GET d (env_key job)) as [raw|] eqn:E; [| split; [done | by intros a [= <-]]].
  destruct (loads raw) as [env|] eqn:El; [| done]. apply H. unfold view. by rewrite E.
Qed.
(** Three ways a script ends: nothing written, the envelope taken, the job retired *)
Lemma stays {A} (yes : A -> bool) (a : option A) job env d next : view d job = Some env -> next = None ->
  (match a with Some x => yes x | None => false end) = false -> ended yes job next env d (a, d).
Proof. intros _ -> Ha. by apply EndStay. Qed.
Lemma owns yes job token ttl now env env' d next : next = Some env' ->
  leased ttl now env' ->
  ended yes job next env d (own job token ttl now env' d).
Proof. intros H Hl. rewrite (surjective_pairing (own _ _ _ _ _ _)). by apply EndOwn. Qed.

Lemma lle_live now env d : truthy (env !! "lease_expiry") = true ->
  lle now (env !! "lease_expiry") d = (lease_live now env, d).
Proof. unfold lease_live, lle. by destruct (env !! "lease_expiry") as [[| [] | |]|]. Qed.
Lemma dead_lease now env : truthy (env !! "lease_expiry") = false -> lease_live now env = Some false.
Proof. unfold lease_live. by destruct (env !! "lease_expiry") as [[| [] | |]|]. Qed.


(** Fields the updates of an envelope leave, and set *)
Ltac fields := unfold claimed, renewed; lookups.
Lemma renewed_lease ttl now env : is_str (env !! "status") "processing" = true ->
  leased ttl now (renewed ttl now env).
Proof. intros H. split; [| split]; fields. Qed.
Lemma claimed_lease token ttl now env : leased ttl now (claimed token ttl now env).
Proof. split; [| split]; fields. Qed.
Lemma finished_field r now env k :
  ~ In k ["status"; "finished_at"; "stdout"; "stderr"; "remote_outcome"; "locally_interrupted";
          "exit_code"; "error"] -> finished r now env !! k = env !! k.
Proof.
  intros Hk. assert (Hne : forall x, In x ["status"; "finished_at"; "stdout"; "stderr";
    "remote_outcome"; "locally_interrupted"; "exit_code"; "error"] -> x <> k) by (by intros x Hx ->).
  unfold finished. destruct (String.eqb (rp_status r) "ambiguous"), (rp_exit_code r), (rp_error r) as [e|];
    try destruct (String.eqb e ""); rewrite ?lookup_insert_ne; try done; apply Hne; simpl; tauto.
Qed.
Lemma finished_status r now env : finished r now env !! "status" = Some (VStr (rp_status r)).
Proof.
  unfold finished. destruct (String.eqb (rp_status r) "ambiguous"), (rp_exit_code r), (rp_error r) as [e|];
    try destruct (String.eqb e ""); fields.
Qed.
Lemma finished_stdout r now env : finished r now env !! "stdout" = Some (VStr (rp_stdout r)).
Proof.
  unfold finished. destruct (String.eqb (rp_status r) "ambiguous"), (rp_exit_code r), (rp_error r) as [e|];
    try destruct (String.eqb e ""); lookups.
Qed.
Lemma given_up_field now env k :
  ~ In k ["status"; "finished_at"; "remote_outcome"; "locally_interrupted"; "exit_code"] ->
  given_up now env !! k = env !! k.
Proof.
  intros Hk. assert (Hne : forall x, In x ["status"; "finished_at"; "remote_outcome";
    "locally_interrupted"; "exit_code"] -> x <> k) by (by intros x Hx ->).
  unfold given_up. cbv zeta. destruct (_ !! "exit_code"); rewrite ?lookup_insert_ne; try done;
    apply Hne; simpl; tauto.
Qed.
Lemma given_up_status now env : given_up now env !! "status" = Some (VStr "ambiguous").
Proof. unfold given_up. cbv zeta. destruct (_ !! "exit_code"); fields. Qed.

(** One case of a script: what the envelope decides, then how the script ends *)
Ltac decides f := unfold f, processing_by; repeat match goal with H : _ = _ |- _ => rewrite H end; reflexivity.

Lemma claim_acts job token ttl now : acts id (_CLAIM_LUA job token ttl now) job (claim_next token ttl now).
Proof.
  apply acts_on_env; [done |]. intros env d Hv. cbv zeta.
  destruct (terminal (env !! "status")) eqn:Et; [apply stays; [done | decides claim_next | done] |].
  destruct (is_str (env !! "status") "processing") eqn:Ep; cbn [andb].
  - destruct (truthy (env !! "cancel_requested")) eqn:Ec; [apply stays; [done | decides claim_next | done] |].
    destruct (is_str (env !! "worker_token") token) eqn:Ew; [apply owns; [decides claim_next | (by apply renewed_lease) || apply claimed_lease] |].
    unfold lbind. destruct (truthy (env !! "lease_expiry")) eqn:El.
    + rewrite lle_live by done.
      destruct (lease_live now env) as [[]|] eqn:Ell;
        [apply stays; [done | decides claim_next | done] | apply owns; [decides claim_next | (by apply renewed_lease) || apply claimed_lease]
        | apply stays; [done | decides claim_next | done]].
    + pose proof (dead_lease now env El). apply owns; [decides claim_next | apply claimed_lease].
  - apply owns; [decides claim_next | apply claimed_lease].
Qed.
Lemma hb_acts job token ttl now : acts id (_HB_LUA job token ttl now) job (hb_next token ttl now).
Proof.
  apply acts_on_env; [done |]. intros env d Hv.
  destruct (is_str (env !! "status") "processing") eqn:Ep; cbn [negb orb];
    [| apply stays; [done | decides hb_next | done]].
  destruct (is_str (env !! "worker_token") token) eqn:Ew; cbn [negb];
    [| apply stays; [done | decides hb_next | done]].
  destruct (truthy (env !! "lease_expiry")) eqn:El; cbn [negb].
  - unfold lbind. rewrite lle_live by done.
    destruct (lease_live now env) as [[]|] eqn:Ell; cbn [negb];
      [apply owns; [decides hb_next | by apply renewed_lease] | apply stays; [done | decides hb_next | done]
      | apply stays; [done | decides hb_next | done]].
  - pose proof (dead_lease now env El). apply stays; [done | decides hb_next | done].
Qed.

Lemma retires {A} (yes : A -> bool) job env env' m z now (a : A) d next : next = Some env' ->
  terminal (env' !! "status") = true -> z <> _processing_key ->
  terminal (env !! "status") = false -> (m = Some (VStr job) \/ m = env !! "job_id") ->
  ended yes job next env d (retire job env' m z now a d).
Proof.
  intros H H1 H2 H3 H4. replace (retire job env' m z now a d)
    with (fst (retire job env' m z now a d), snd (retire job env' m z now tt d));
    [by apply EndRetire |].
  unfold retire, lbind, lset, lzrem, ldel, lzadd, lret. simpl. by destruct m as [[]|].
Qed.

Lemma cancel_acts job now : acts (fun _ => false) (_CANCEL_LUA job now) job (cancel_next now).
Proof.
  apply acts_on_env; [done |]. intros env d Hv. cbv zeta.
  destruct (terminal (env !! "status")) eqn:Et; [apply stays; [done | decides cancel_next | done] |].
  destruct (is_str (env !! "status") "pending") eqn:Ep.
  - refine (retires _ job env _ _ _ now _ d (cancel_next now env) _ _ _ _ _);
      [decides cancel_next | by fields | done | done | right; fields].
  - destruct (is_str (env !! "status") "processing") eqn:Eq; [| apply stays; [done | decides cancel_next | done]].
    replace (cancel_next now env) with (Some (<["cancel_requested" := VBool true]> env))
      by (symmetry; decides cancel_next).
    unfold lbind, lset. simpl. by apply EndMark.
Qed.
Lemma finish_acts job token r now : mem (rp_status r) TERMINAL = true -> acts id (_FINISH_LUA job token r now) job (finish_next token r now).
Proof.
  intros Hr. apply acts_on_env; [done |]. intros env d Hv.
  destruct (is_str (env !! "status") "processing") eqn:Ep; cbn [negb orb];
    [| apply stays; [done | decides finish_next | done]].
  destruct (is_str (env !! "worker_token") token) eqn:Ew; cbn [negb];
    [| apply stays; [done | decides finish_next | done]].
  refine (retires id job env _ _ _ now _ d (finish_next token r now env) _ _ _ _ _).
  - decides finish_next.
  - by rewrite finished_status.
  - by destruct (String.eqb (rp_status r) "completed").
  - by apply processing_not_terminal.
  - right. apply finished_field. by intros H; repeat destruct H as [H | H].
Qed.
Lemma check_acts job token : acts (fun _ => false) (_CHECK_CANCEL_LUA job token) job (fun _ => None).
Proof.
  apply acts_on_env; [done |]. intros env d Hv. destruct (_ || _); by apply stays.
Qed.
Lemma lease_over_run now env d : lease_over now env d
  = (if truthy (env !! "lease_expiry") then option_map negb (lease_live now env) else Some false, d).
Proof.
  unfold lease_over. destruct (truthy (env !! "lease_expiry")) eqn:El; [| done].
  unfold lbind. rewrite lle_live by done. by destruct (lease_live now env).
Qed.
Lemma lbind_run {A B} (m : L A) (k : A -> L B) d :
  lbind m k d = match m d with (Some a, d') => k a d' | (None, d') => (None, d') end.
Proof. done. Qed.
Lemma reconcile_acts now result job : acts (fun _ => false) (reconcile_one now result job) job (reconcile_next now).
Proof.
  apply acts_on_env; [done |]. intros env d Hv.
  destruct (is_str (env !! "status") "processing") eqn:Ep; cbn [andb];
    [| apply stays; [done | decides reconcile_next | done]].
  destruct (truthy (env !! "cancel_requested")) eqn:Ec; [| apply stays; [done | decides reconcile_next | done]].
  rewrite lbind_run, lease_over_run. destruct (truthy (env !! "lease_expiry")) eqn:El.
  - destruct (lease_live now env) as [[]|] eqn:Ell; cbn [option_map negb].
    + apply stays; [done | decides reconcile_next | done].
    + apply (retires _ job env (given_up now env) (Some (VStr job)) _dead_letter_key now (result ++ [job]));
        [decides reconcile_next | by rewrite given_up_status | done
        | by apply processing_not_terminal | by left].
    + apply stays; [done | decides reconcile_next | done].
  - apply stays; [done | | done]. unfold reconcile_next. by rewrite El, !andb_false_r.
Qed.

(** ** Invariants of one envelope *)

(** Whatever is stored for [job] satisfies [P]. *)
Definition holds (P : jobj -> Prop) (job : string) (d : db) : Prop :=
  forall env, view d job = Some env -> P env.
Definition allowed (P : jobj -> Prop) (next : jobj -> option jobj) : Prop :=
  forall env env', P env -> next env = Some env' -> P env'.

Lemma acts_keeps {A} (yes : A -> bool) script job next P j d : acts yes script job next ->
  (j = job -> allowed P next) -> holds P j d -> holds P j (snd (script d)).
Proof.
  intros Ha Hp Hh env. specialize (Ha d). destruct (view d job) as [e|] eqn:Ev.
  - apply ended_view in Ha as (Ho & Hj & _); [| done]. destruct (decide (j = job)) as [-> | Hne].
    + rewrite Hj. intros [= <-]. specialize (Hh e Ev). destruct (next e) eqn:En; [| done].
      by apply (Hp eq_refl e).
    + rewrite Ho by done. apply Hh.
  - destruct Ha as [-> _]. apply Hh.
Qed.
Lemma eval_keeps {A} (script : L A) (I : db -> Prop) net d : I d -> I (snd (script d)) ->
  I (snd (eval net script d)).
Proof. by destruct net. Qed.
Lemma best_effort_keeps script (I : db -> Prop) connected net d : I d -> I (snd (script d)) ->
  I (snd (best_effort connected net script d)).
Proof.
  intros H1 H2. unfold best_effort. destruct connected; [| done]. simpl.
  pose proof (eval_keeps script I net d H1 H2) as H. by destruct (eval net script d) as [[|] ?].
Qed.
Lemma finish_attempts_keeps script (I : db -> Prop) net i n d : I d ->
  (forall d, I d -> I (snd (script d))) -> I (snd (finish_attempts net i n script d)).
Proof.
  intros Hd Hs. revert i d Hd. induction n as [|n IH]; intros i d Hd; [done |]. simpl.
  pose proof (eval_keeps script I (net i) d Hd (Hs d Hd)) as H.
  destruct (eval (net i) script d) as [[|] d']; [done | by apply IH].
Qed.
Lemma lfold_keeps {A B} (body : B -> A -> L B) (I : db -> Prop) acc l d : I d ->
  (forall acc a d, I d -> I (snd (body acc a d))) -> I (snd (lfold body acc l d)).
Proof.
  intros Hd Hb. revert acc d Hd. induction l as [|a l IH]; intros acc d Hd; [done |].
  cbn [lfold]. rewrite lbind_run. pose proof (Hb acc a d Hd) as H.
  destruct (body acc a d) as [[|] d']; [by apply IH | done].
Qed.

(** A yes of a script that the client hears of *)
Lemma eval_yes {A} (yes : A -> bool) script job next net d a d' : acts yes script job next ->
  eval net script d = (Some a, d') -> yes a = true ->
  exists env env', view d job = Some env /\ next env = Some env' /\ view d' job = Some env'.
Proof.
  intros Ha He Hy. destruct net; simpl in He; [| done | done]. specialize (Ha d). rewrite He in Ha.
  destruct (view d job) as [env|] eqn:Ev.
  - apply ended_view in Ha as (_ & Hv & Hn); [| done]. simpl in *. specialize (Hn a eq_refl Hy).
    destruct (next env) as [env'|] eqn:En; [by exists env, env' | done].
  - destruct Ha as [_ Ha]. rewrite (Ha a eq_refl) in Hy. done.
Qed.
Lemma finish_attempts_yes script job next net i n d d' P : acts id script job next ->
  allowed P next -> holds P job d -> finish_attempts net i n script d = (true, d') ->
  exists env env', P env /\ next env = Some env' /\ view d' job = Some env'.
Proof.
  intros Ha Hp. revert i d. induction n as [|n IH]; intros i d Hd Hf; [done |]. simpl in Hf.
  destruct (eval (net i) script d) as [[ok|] d1] eqn:E.
  - injection Hf as -> ->.
    destruct (eval_yes id script job next (net i) d true d' Ha E eq_refl) as (env & env' & Hv & Hn & Hv').
    exists env, env'. auto.
  - apply (IH (S i) d1); [| done].
    pose proof (eval_keeps script (holds P job) (net i) d Hd) as H. rewrite E in H. apply H.
    by eapply acts_keeps.
Qed.

(** ** The recovery scans only read *)
Definition over (now : Z) (env : jobj) : option bool :=
  if truthy (env !! "lease_expiry") then option_map negb (lease_live now env) else Some false.
(** Left by a worker: processing, not cancelled, its lease over; [None]: the script fails *)
Definition abandoned (now : Z) (env : jobj) : option bool :=
  if is_str (env !! "status") "processing" && negb (truthy (env !! "cancel_requested"))
  then over now env else Some false.
Definition job_scan (d : db) (now : Z) (jid : string) : option (list string) :=
  match GET d (env_key jid) with
  | None => Some []
  | Some raw => match loads raw with
                | None => None
                | Some env => option_map (fun b : bool => if b then [jid] else []) (abandoned now env)
                end
  end.
Definition claim_scan (d : db) (sub_key : string) : option (list string) :=
  match GET d sub_key with
  | None => Some []
  | Some raw =>
      match loads raw with
      | None => None
      | Some claim =>
          let jid := tostring (claim !! "job_id") in
          match GET d (env_key jid) with
          | None => Some []
          | Some raw' =>
              match loads raw' with
              | None => None
              | Some env => Some (if is_str (env !! "status") "pending" then [jid] else [])
              end
          end
      end
  end.
Fixpoint scan_all {A} (f : A -> option (list string)) (l : list A) : option (list string) :=
  match l with
  | [] => Some []
  | a :: r => match f a, scan_all f r with Some x, Some y => Some (x ++ y) | _, _ => None end
  end.
Lemma scan_all_In {A} (f : A -> option (list string)) l res j : scan_all f l = Some res ->
  In j res <-> exists a x, In a l /\ f a = Some x /\ In j x.
Proof.
  revert res. induction l as [|a l IH]; intros res; simpl.
  { intros [= <-]. split; [done | by intros (? & ? & [] & _)]. }
  destruct (f a) as [x|] eqn:Ef; [| done]. destruct (scan_all f l) as [y|] eqn:Es; [| done].
  intros [= <-]. rewrite in_app_iff, (IH y eq_refl). split.
  - intros [Hj | (b & z & Hb & Hz & Hj)]; [exists a, x; auto | exists b, z; auto].
  - intros (b & z & [<- | Hb] & Hz & Hj); [left; congruence | right; eauto].
Qed.
Lemma scan_all_Some {A} (f : A -> option (list string)) l :
  (forall a, In a l -> f a <> None) -> exists res, scan_all f l = Some res.
Proof.
  induction l as [|a l IH]; intros H; simpl; [by eexists |].
  destruct (f a) eqn:E; [| by destruct (H a (or_introl eq_refl))].
  destruct IH as [res ->]; [intros b Hb; apply H; by right | by eexists].
Qed.
Lemma lfold_scan {A} (body : list string -> A -> L (list string)) f l d :
  (forall acc a, body acc a d = (option_map (fun x => acc ++ x) (f a), d)) ->
  forall acc, lfold body acc l d = (option_map (fun x => acc ++ x) (scan_all f l), d).
Proof.
  intros H. induction l as [|a l IH]; intros acc; cbn [lfold scan_all].
  - unfold lret. simpl. by rewrite app_nil_r.
  - rewrite lbind_run, H. destruct (f a) as [x|]; [| done]. cbn [option_map]. rewrite IH.
    destruct (scan_all f l) as [y|]; [| done]. simpl. by rewrite app_assoc.
Qed.
Lemma job_scan_run now d acc jid :
  recoverable_one now acc jid d = (option_map (fun x => acc ++ x) (job_scan d now jid), d).
Proof.
  change (recoverable_one now acc jid) with (on_env jid acc (fun env =>
    if is_str (env !! "status") "processing" && negb (truthy (env !! "cancel_requested"))
    then over <-l lease_over now env ;; lret (if over then acc ++ [jid] else acc) else lret acc)).
  rewrite on_env_run. unfold job_scan.
  destruct (GET d (env_key jid)) as [raw|]; [| simpl; by rewrite app_nil_r].
  destruct (loads raw) as [env|]; [| done]. unfold abandoned. destruct (_ && _); [| by unfold lret; simpl; rewrite app_nil_r].
  rewrite lbind_run, lease_over_run. fold (over now env). destruct (over now env) as [[]|]; [done | | done].
  unfold lret. simpl. by rewrite app_nil_r.
Qed.
Lemma claim_scan_run d acc k :
  pending_one acc k d = (option_map (fun x => acc ++ x) (claim_scan d k), d).
Proof.
  unfold pending_one, claim_scan. rewrite lbind_run. unfold lget at 1.
  destruct (GET d k) as [raw|]; [| unfold lret; simpl; by rewrite app_nil_r].
  rewrite lbind_run. unfold ldecode at 1. destruct (loads raw) as [claim|]; [| done].
  cbn [lret]. cbv zeta. unfold lbind at 1, lget at 1.
  destruct (GET d (env_key _)) as [raw'|]; [| unfold lret; simpl; by rewrite app_nil_r].
  unfold lbind, ldecode. destruct (loads raw') as [env|]; [| done]. unfold lret. simpl.
  destruct (is_str (env !! "status") "pending"); [done | by rewrite app_nil_r].
Qed.

Lemma add_missing_In l acc j : In j (fold_left add_missing l acc) <-> In j acc \/ In j l.
Proof.
  revert acc. induction l as [|x l IH]; intros acc; simpl; [tauto |].
  rewrite IH. unfold add_missing. destruct (mem x acc) eqn:E.
  - apply mem_In in E. split; [tauto |]. intros [? | [<- | ?]]; auto.
  - rewrite in_app_iff. simpl. tauto.
Qed.
(** What [list_recoverable_durable_jobs] answers when the server can be reached *)
Lemma list_recoverable_eq now d :
  list_recoverable_durable_jobs true Delivered Delivered now d
  = (match scan_all (job_scan d now) (ZRANGEBYSCORE d _processing_key 0 now) with
     | None => []
     | Some l => match scan_all (claim_scan d) (SCAN d _submission_prefix) with
                 | None => l
                 | Some p => fold_left add_missing p l
                 end
     end, d).
Proof.
  unfold list_recoverable_durable_jobs. cbn [negb eval].
  unfold _SCAN_PENDING_LUA. rewrite (lfold_scan _ (job_scan d now) _ d (job_scan_run now d)).
  destruct (scan_all (job_scan d now) _) as [l|]; [| done]. cbn [option_map].
  unfold _SCAN_PENDING_ENV_LUA. rewrite (lfold_scan _ (claim_scan d) _ d (claim_scan_run d)).
  by destruct (scan_all (claim_scan d) _).
Qed.
End Facts.
