(* ===== verification/Locks.v ===== *)
(** * Distributed locks (app/distributed_lock.py)

    A lock is a Redis string with a deadline, holding its owner's token.  A gateway keeps a
    watchdog task per lock it took, which extends the deadline until the lock is released or
    lost.  Redis counts in seconds, the waiting of [acquire] in milliseconds.

    A method that asks Redis is two steps: the server runs the command, and later the coroutine goes
    on with the answer.  What an answered coroutine of a gateway has still to do is in [in_flight];
    other coroutines and other gateways run in between, in any order. *)
From stdpp Require Import gmap.
From S2P Require Import Prelude PyStr Redis DurableJobs.
From S2P Require Import DurableFacts.
From stdpp Require Import options.

(** A watchdog: what [_renew_loop] was started with, and whether it has ended *)
Record task : Type := mkTask { tk_resource : string; tk_token : string; tk_ttl : Z; tk_done : bool }.
Definition stopped (t : task) : task := mkTask (tk_resource t) (tk_token t) (tk_ttl t) true.
(** A coroutine whose request was answered: [acquire] took the lock, [release] gave it back, a
    watchdog was refused *)
Inductive await : Type := Took (resource token : string) (ttl : Z) | Gave (resource : string) | Ended (i : nat).
#[export] Instance await_eq_dec : EqDecision await.
Proof. solve_decision. Defined.
(** One gateway: the tasks it started, the one it keeps for each resource, and its answered coroutines *)
Record DistributedLock : Type := mkLock {
  _renewal_tasks : gmap string nat; tasks : list task; in_flight : list await }.

Definition _lock_prefix : string := "ssh_gateway:lock:".
Definition lock_key (resource : string) : string := _lock_prefix +s+ resource.

Section Locks.
Context {R : Redis}.

(** ** Scripts *)
(** [EXPIRE] with a time that is over deletes the key. *)
Definition lexpire (k : string) (ex : Z) : L bool :=
  fun d => match GET d k with
           | None => (Some false, d)
           | Some _ => (Some true, if (0 <? ex)%Z then EXPIRE d k ex else DEL d k)
           end.
Definition _RELEASE_LUA (resource token : string) : L bool :=
  held <-l lget (lock_key resource) ;;
  if bool_decide (held = Some token) then ldel (lock_key resource) ;;l lret true else lret false.
Definition _EXTEND_LUA (resource token : string) (ttl : Z) : L bool :=
  held <-l lget (lock_key resource) ;;
  if bool_decide (held = Some token) then lexpire (lock_key resource) ttl else lret false.

(** ** Operations: [None] is a Redis error, raised to the caller *)
Definition extend (net : fate) (resource token : string) (ttl : Z) (d : db) : option bool * db :=
  eval net (_EXTEND_LUA resource token ttl) d.
Definition is_locked (d : db) (resource : string) : bool :=
  match GET d (lock_key resource) with Some _ => true | None => false end.

(** *** What the answered coroutines do *)
Definition answered (c : await) (m : DistributedLock) : DistributedLock :=
  mkLock (_renewal_tasks m) (tasks m) (in_flight m ++ [c]).
Definition start_watchdog (resource token : string) (ttl : Z) (m : DistributedLock) : DistributedLock :=
  mkLock (<[resource := length (tasks m)]> (_renewal_tasks m)) (tasks m ++ [mkTask resource token ttl false]) (in_flight m).
Definition stop_task (i : nat) (m : DistributedLock) : DistributedLock :=
  mkLock (_renewal_tasks m) (alter stopped i (tasks m)) (in_flight m).
Definition pop_watchdog (resource : string) (m : DistributedLock) : DistributedLock :=
  match _renewal_tasks m !! resource with
  | Some i => stop_task i (mkLock (delete resource (_renewal_tasks m)) (tasks m) (in_flight m))
  | None => m
  end.
Definition resume (c : await) (m : DistributedLock) : DistributedLock :=
  match c with
  | Took resource token ttl => start_watchdog resource token ttl m
  | Gave resource => pop_watchdog resource m
  | Ended i => stop_task i m
  end.
(** Some answered coroutine goes on. *)
Definition go_on (n : nat) (m : DistributedLock) : DistributedLock :=
  match in_flight m !! n with
  | Some c => resume c (mkLock (_renewal_tasks m) (tasks m) (delete n (in_flight m)))
  | None => m
  end.

(** *** Requests, as the server runs them *)
Definition set_nx (net : fate) (resource token : string) (ttl : Z) (d : db) : option bool * db :=
  eval net (lsetnx (lock_key resource) token ttl) d.
(** One turn of [acquire]'s loop *)
Definition try_acquire (net : fate) (resource token : string) (ttl : Z) (m : DistributedLock) (d : db)
    : option bool * (DistributedLock * db) :=
  match set_nx net resource token ttl d with
  | (Some true, d') => (Some true, (answered (Took resource token ttl) m, d'))
  | (answer, d') => (answer, (m, d'))
  end.
Definition release (net : fate) (resource token : string) (m : DistributedLock) (d : db)
    : option bool * (DistributedLock * db) :=
  match eval net (_RELEASE_LUA resource token) d with
  | (Some true, d') => (Some true, (answered (Gave resource) m, d'))
  | (answer, d') => (answer, (m, d'))
  end.

(** *** Waiting for a lock: [time i] is what the clock reads at attempt [i], [meanwhile i] what happens
    to the gateway and the server before the coroutine goes on with the answer of attempt [i],
    and [asleep i] what happens during the sleep that follows it. *)
Inductive acquired : Type := Acquired (token : string) | NotAcquired | RedisError | OutOfFuel.
Definition max_delay : Z := 1000.
Fixpoint acquire_loop (fuel : nat) (net : nat -> fate) (time : nat -> Z)
    (meanwhile asleep : nat -> DistributedLock * db -> DistributedLock * db)
    (resource token : string) (ttl : Z) (blocking : bool) (blocking_timeout start_time : Z)
    (i : nat) (delay : Z) (s : DistributedLock * db) : acquired * (DistributedLock * db) :=
  match fuel with
  | O => (OutOfFuel, s)
  | S f =>
      let '(answer, d) := set_nx (net i) resource token ttl (snd s) in
      let s := meanwhile i (fst s, d) in
      match answer with
      | None => (RedisError, s)
      | Some true => (Acquired token, (start_watchdog resource token ttl (fst s), snd s))
      | Some false =>
          if negb blocking then (NotAcquired, s)
          else if (blocking_timeout * 1000 <=? time (S i) - start_time)%Z then (NotAcquired, s)
          else acquire_loop f net time meanwhile asleep resource token ttl blocking blocking_timeout start_time
                 (S i) (Z.min (delay * 2) max_delay) (asleep i s)
      end
  end.
Definition first_delay : Z := 50.
(** [time 0] is the start. *)
Definition acquire (fuel : nat) (net : nat -> fate) (time : nat -> Z)
    (meanwhile asleep : nat -> DistributedLock * db -> DistributedLock * db)
    (resource token : string) (ttl : Z) (blocking : bool) (blocking_timeout : Z)
    (s : DistributedLock * db) : acquired * (DistributedLock * db) :=
  acquire_loop fuel net time meanwhile asleep resource token ttl blocking blocking_timeout (time 0%nat) 0 first_delay s.

(** ** The watchdog *)
Definition interval (ttl : Z) : Z := Z.max 1 (ttl / 3).
(** What task [i] asks when it wakes up: a lost lock and a Redis error both end it.  (The request of a
    task cancelled meanwhile is an [extend] of nobody.) *)
Definition renew (net : fate) (i : nat) (m : DistributedLock) (d : db) : DistributedLock * db :=
  match tasks m !! i with
  | Some t =>
      if tk_done t then (m, d)
      else match extend net (tk_resource t) (tk_token t) (tk_ttl t) d with
           | (Some true, d') => (m, d')
           | (_, d') => (answered (Ended i) m, d')
           end
  | None => (m, d)
  end.

(** Shutdown: every watchdog this gateway still keeps is cancelled. *)
Definition disconnect (m : DistributedLock) : DistributedLock :=
  fold_left (fun m x => stop_task (snd x) m) (map_to_list (_renewal_tasks m)) (mkLock ∅ (tasks m) (in_flight m)).
End Locks.

(** ** What the distributed lock promises

    Several gateways, each with its watchdogs and its coroutines, on one Redis server: a lock that is
    held is exclusive until its deadline, and its watchdog keeps moving the deadline. *)
Lemma lock_key_inj a b : lock_key a = lock_key b -> a = b.
Proof. unfold lock_key, _lock_prefix. simpl. congruence. Qed.
Lemma lock_key_ne a b : a <> b -> lock_key a <> lock_key b.
Proof. intros H He. by apply lock_key_inj in He. Qed.
#[export] Hint Resolve lock_key_ne : gw.

Section LockSpec.
Context {R : Redis}.

(** ** The gateways together: what each process, and the server, may do next *)
Inductive act : Type :=
| Attempt (p : nat) (net : fate) (resource token : string) (ttl : Z)
| Extend (net : fate) (resource token : string) (ttl : Z)
| Release (p : nat) (net : fate) (resource token : string)
| Tick (p : nat) (net : fate) (i : nat)
| GoOn (p n : nat)
| Pass (t : Z)
| Lose (k : string).
Abbreviation gateways := (nat -> DistributedLock).
Definition upd (p : nat) (m : DistributedLock) (g : gateways) : gateways :=
  fun q => if (q =? p)%nat then m else g q.
Definition step (a : act) (s : gateways * db) : option bool * (gateways * db) :=
  let '(g, d) := s in
  match a with
  | Attempt p net resource token ttl =>
      let '(b, (m, d')) := try_acquire net resource token ttl (g p) d in (b, (upd p m g, d'))
  | Extend net resource token ttl => let '(b, d') := extend net resource token ttl d in (b, (g, d'))
  | Release p net resource token =>
      let '(b, (m, d')) := release net resource token (g p) d in (b, (upd p m g, d'))
  | Tick p net i => let '(m, d') := renew net i (g p) d in (None, (upd p m g, d'))
  | GoOn p n => (None, (upd p (go_on n (g p)) g, d))
  | Pass t => (None, (g, elapse (Z.max 0 t) d))
  | Lose k => (None, (g, evict k d))
  end.
Definition steps (l : list act) (s : gateways * db) : gateways * db :=
  fold_left (fun s a => snd (step a s)) l s.
Definition elapsed (a : act) : Z := match a with Pass t => Z.max 0 t | _ => 0 end.
Definition elapsed_all (l : list act) : Z := fold_right (fun a n => elapsed a + n)%Z 0%Z l.

(** ** Holding a lock *)
Section Held.
Variables (p : nat) (r t : string) (ttl : Z).

(** An act of somebody else: neither the lock's own token given to [extend] or [release], nor the loss
    of the key *)
Definition foreign_act (a : act) : bool :=
  match a with
  | Extend _ r' t' _ | Release _ _ r' t' => negb (String.eqb r' r && String.eqb t' t)
  | Lose k => negb (String.eqb k (lock_key r))
  | _ => true
  end.
(** The lock is what [a] asks for. *)
Definition wants (a : act) : bool :=
  match a with
  | Attempt _ _ r' _ _ | Extend _ r' _ _ | Release _ _ r' _ => String.eqb r' r
  | _ => false
  end.

(** *** On the server *)
(** What others do to the string of the lock: it stays, and its deadline comes no earlier than [due]. *)
Definition untouched (due : Z) (d d' : db) : Prop :=
  GET d' (lock_key r) = GET d (lock_key r) /\ clock d' = clock d /\
  ((due <= deadline d (lock_key r))%Z -> (due <= deadline d' (lock_key r))%Z).
Lemma untouched_refl due d : untouched due d d.
Proof. done. Qed.
Lemma extend_foreign due r' t' ttl' d : GET d (lock_key r) = Some t -> r' <> r \/ t' <> t ->
  untouched due d (snd (_EXTEND_LUA r' t' ttl' d)) /\
  (r' = r -> fst (_EXTEND_LUA r' t' ttl' d) = Some false).
Proof.
  intros Hg Hne. unfold _EXTEND_LUA. rewrite lbind_run. unfold lget. case_bool_decide as Hh; [| done].
  assert (Hr : r' <> r) by (intros ->; destruct Hne; congruence). split; [| done].
  unfold lexpire. rewrite Hh. simpl. pose proof (lock_key_ne r' r Hr) as E.
  pose proof (proj2 (String.eqb_neq _ _) E) as Eb.
  destruct (0 <? ttl')%Z eqn:Ht; (split; [| split]).
  - apply GET_EXPIRE. lia.
  - apply clock_EXPIRE.
  - rewrite deadline_EXPIRE by congruence. by rewrite Eb.
  - by rewrite GET_DEL, Eb.
  - apply clock_DEL.
  - by rewrite deadline_DEL.
Qed.
Lemma extend_own due d : GET d (lock_key r) = Some t -> (0 < ttl)%Z -> (due <= clock d + ttl)%Z ->
  untouched due d (snd (_EXTEND_LUA r t ttl d)) /\ fst (_EXTEND_LUA r t ttl d) = Some true /\
  deadline (snd (_EXTEND_LUA r t ttl d)) (lock_key r) = (clock d + ttl)%Z.
Proof.
  intros Hg Ht Hd. unfold _EXTEND_LUA. rewrite lbind_run. unfold lget.
  rewrite bool_decide_eq_true_2 by done. unfold lexpire. rewrite Hg. replace (0 <? ttl)%Z with true by lia. simpl.
  assert (Hx : deadline (EXPIRE d (lock_key r) ttl) (lock_key r) = (clock d + ttl)%Z).
  { rewrite deadline_EXPIRE by congruence. by rewrite String.eqb_refl. }
  split; [| by split]. split; [by apply GET_EXPIRE |]. split; [apply clock_EXPIRE |]. by rewrite Hx.
Qed.
Lemma release_foreign due r' t' d : GET d (lock_key r) = Some t -> r' <> r \/ t' <> t ->
  untouched due d (snd (_RELEASE_LUA r' t' d)) /\ (r' = r -> fst (_RELEASE_LUA r' t' d) = Some false).
Proof.
  intros Hg Hne. unfold _RELEASE_LUA. rewrite lbind_run. unfold lget. case_bool_decide as Hh; [| done].
  assert (Hr : r' <> r) by (intros ->; destruct Hne; congruence). split; [| done].
  unfold lbind, ldel. simpl. pose proof (lock_key_ne r' r Hr) as E. split; [| split].
  - rewrite GET_DEL. apply String.eqb_neq in E. by rewrite E.
  - apply clock_DEL.
  - by rewrite deadline_DEL.
Qed.
Lemma setnx_foreign due r' t' ttl' d : GET d (lock_key r) = Some t ->
  untouched due d (snd (lsetnx (lock_key r') t' ttl' d)) /\
  (r' = r -> fst (lsetnx (lock_key r') t' ttl' d) <> Some true).
Proof.
  intros Hg. unfold lsetnx, SETNX. destruct (0 <? ttl')%Z; [| by split].
  destruct (GET d (lock_key r')) eqn:E; [by split |]. assert (Hr : r' <> r) by congruence.
  split; [| done]. pose proof (lock_key_ne r' r Hr) as Hk. simpl. split; [| split].
  - by rewrite GET_SET_ne.
  - apply clock_SET.
  - rewrite deadline_SET. apply String.eqb_neq in Hk. by rewrite Hk.
Qed.
Lemma eval_untouched {A} due net (script : L A) d : untouched due d (snd (script d)) ->
  untouched due d (snd (eval net script d)).
Proof. by destruct net. Qed.
Lemma eval_wants net (script : L bool) d : fst (script d) <> Some true -> fst (eval net script d) <> Some true.
Proof. by destruct net. Qed.
Lemma foreign_ne r' t' : negb (String.eqb r' r && String.eqb t' t) = true -> r' <> r \/ t' <> t.
Proof.
  destruct (String.eqb_spec r' r); [| by left]. destruct (String.eqb_spec t' t); [done | by right].
Qed.

(** *** In the gateways *)
Lemma upd_same q (m : DistributedLock) g : upd q m g q = m.
Proof. unfold upd. by rewrite Nat.eqb_refl. Qed.
Lemma upd_other q q' (m : DistributedLock) g : q <> q' -> upd q m g q' = g q'.
Proof. intros H. unfold upd. by destruct (Nat.eqb_spec q' q). Qed.
Lemma upd_all (Q : DistributedLock -> Prop) q m g : (forall q', Q (g q')) -> Q m -> forall q', Q (upd q m g q').
Proof. intros Hg Hm q'. destruct (decide (q = q')) as [<- |]; [by rewrite upd_same | by rewrite upd_other]. Qed.

(** A watchdog of the lock, started or about to be, renews it for its time to live. *)
Definition mine (k : task) : Prop := tk_resource k = r /\ tk_token k = t.
Definition one_ttl (m : DistributedLock) : Prop :=
  Forall (fun k => mine k -> tk_ttl k = ttl) (tasks m) /\
  Forall (fun c => forall ttl', c = Took r t ttl' -> ttl' = ttl) (in_flight m).
Lemma stopped_all (Q : task -> Prop) j l : (forall k, Q k -> Q (stopped k)) -> Forall Q l -> Forall Q (alter stopped j l).
Proof. intros HQ H. apply Forall_alter; [done | intros; by apply HQ]. Qed.
Lemma one_ttl_answered c m : one_ttl m -> (forall ttl', c = Took r t ttl' -> ttl' = ttl) -> one_ttl (answered c m).
Proof. intros [H1 H2] H. split; [done |]. apply Forall_app. by split; [| constructor]. Qed.
Lemma one_ttl_stop j m : one_ttl m -> one_ttl (stop_task j m).
Proof. intros [H1 H2]. split; [| done]. by apply stopped_all. Qed.
Lemma one_ttl_go_on n m : one_ttl m -> one_ttl (go_on n m).
Proof.
  intros [H1 H2]. unfold go_on. destruct (in_flight m !! n) as [c|] eqn:E; [| done].
  pose proof (proj1 (Forall_lookup _ _) H2 n c E) as Hc. pose proof (Forall_delete _ _ n H2) as H3.
  destruct c as [r' t' ttl' | r' | j]; cbn [resume].
  - split; [| done]. apply Forall_app. split; [done |]. constructor; [| constructor]. intros [Er Et]. cbn in Er, Et.
    apply Hc. by rewrite Er, Et.
  - unfold pop_watchdog. cbn [_renewal_tasks]. by destruct (_renewal_tasks m !! r'); [apply one_ttl_stop |].
  - by apply one_ttl_stop.
Qed.

(** The lock is held: the server has the token, until [due] at least. *)
Definition held (due now : Z) (s : gateways * db) : Prop :=
  GET (snd s) (lock_key r) = Some t /\ (due <= deadline (snd s) (lock_key r))%Z /\ clock (snd s) = now /\
  (due <= now + ttl)%Z /\ forall q, one_ttl (fst s q).
Lemma held_untouched g g' d d' due now : held due now (g, d) -> untouched due d d' -> (forall q, one_ttl (g' q)) ->
  held due now (g', d').
Proof. intros (H1 & H2 & H3 & H4 & _) (E1 & E2 & E3) Hw. unfold held. simpl in *. rewrite E1, E2. auto. Qed.
Lemma held_try g d due now q net r' t' ttl' : held due now (g, d) ->
  let '(b, (m, d')) := try_acquire net r' t' ttl' (g q) d in
  held due now (upd q m g, d') /\ (r' = r -> b <> Some true) /\ untouched due d d'.
Proof.
  intros Hh. pose proof Hh as (Hg & _ & _ & _ & Hw). simpl in *.
  destruct (setnx_foreign due r' t' ttl' d Hg) as [Hu Hn].
  pose proof (eval_untouched due net _ d Hu) as Hu'. unfold try_acquire, set_nx.
  assert (Hb : r' = r -> fst (eval net (lsetnx (lock_key r') t' ttl') d) <> Some true)
    by (intros; by apply eval_wants, Hn).
  destruct (eval net _ d) as [[[]|] d']; simpl in *; (split; [| by split]);
    (eapply held_untouched; [exact Hh | exact Hu' |]); apply upd_all; try done.
  apply one_ttl_answered; [done |]. intros ttl0 [= -> _ _]. by destruct Hb.
Qed.
Lemma held_release g d due now q net r' t' : held due now (g, d) -> r' <> r \/ t' <> t ->
  let '(b, (m, d')) := release net r' t' (g q) d in
  held due now (upd q m g, d') /\ (r' = r -> b <> Some true).
Proof.
  intros Hh Hne. pose proof Hh as (Hg & _ & _ & _ & Hw). simpl in *.
  destruct (release_foreign due r' t' d Hg Hne) as [Hu Hn].
  pose proof (eval_untouched due net _ d Hu) as Hu'. unfold release.
  assert (Hb : r' = r -> fst (eval net (_RELEASE_LUA r' t') d) <> Some true)
    by (intros E; apply eval_wants; by rewrite Hn).
  destruct (eval net _ d) as [[[]|] d']; simpl in *; (split; [| done]);
    (eapply held_untouched; [exact Hh | exact Hu' |]); apply upd_all; try done.
  by apply one_ttl_answered.
Qed.
Lemma extend_task due d k net : GET d (lock_key r) = Some t -> (0 < ttl)%Z -> (due <= clock d + ttl)%Z ->
  (mine k -> tk_ttl k = ttl) ->
  untouched due d (snd (extend net (tk_resource k) (tk_token k) (tk_ttl k) d)) /\
  (mine k -> net = Delivered -> fst (extend net (tk_resource k) (tk_token k) (tk_ttl k) d) = Some true).
Proof.
  intros Hg Ht Hd Hk. unfold extend. destruct (decide (tk_resource k = r)) as [Er|Er]; [destruct (decide (tk_token k = t)) as [Et|Et] |].
  - rewrite Er, Et, Hk by done. destruct (extend_own due d Hg Ht Hd) as (H1 & H2 & _).
    split; [by apply eval_untouched |]. by intros _ ->.
  - split; [apply eval_untouched, (extend_foreign due _ _ _ d Hg); auto | by intros []].
  - split; [apply eval_untouched, (extend_foreign due _ _ _ d Hg); auto | by intros []].
Qed.
Lemma held_renew g d due now q net j : held due now (g, d) -> (0 < ttl)%Z ->
  let '(m, d') := renew net j (g q) d in held due now (upd q m g, d').
Proof.
  intros Hh Ht. pose proof Hh as (Hg & _ & Hc & Hd & Hw). simpl in Hg, Hw, Hc.
  assert (Hsame : forall d', untouched due d d' -> held due now (upd q (g q) g, d'))
    by (intros d' Hu; eapply held_untouched; [exact Hh | exact Hu | by apply upd_all]).
  unfold renew. destruct (tasks (g q) !! j) as [k|] eqn:Ek; [| by apply Hsame].
  destruct (tk_done k); [by apply Hsame |]. pose proof (proj1 (Forall_lookup _ _) (proj1 (Hw q)) j k Ek) as Hk.
  destruct (extend_task due d k net Hg Ht ltac:(lia) Hk) as [Hu _].
  destruct (extend net _ _ _ d) as [[[]|] d']; simpl in Hu; [by apply Hsame | |];
    (eapply held_untouched; [exact Hh | exact Hu |]; apply upd_all; [done | by apply one_ttl_answered]).
Qed.

(** Whatever somebody else does, the lock stays held until its deadline, and refused. *)
Lemma step_held a s due now : held due now s -> (0 < ttl)%Z -> foreign_act a = true -> (now + elapsed a < due)%Z ->
  held due (now + elapsed a) (snd (step a s)) /\ (wants a = true -> fst (step a s) <> Some true).
Proof.
  destruct s as [g d]. intros Hh Ht Hf Hd.
  destruct a as [q net r' t' ttl'|net r' t' ttl'|q net r' t'|q net j|q n|dt|k];
    cbn [step elapsed wants foreign_act] in *; rewrite ?Z.add_0_r in *.
  - pose proof (held_try g d due now q net r' t' ttl' Hh) as H.
    destruct (try_acquire _ _ _ _ _ _) as [b [m d']]. destruct H as (H1 & H2 & _). split; [done |].
    intros E%String.eqb_eq. by apply H2.
  - pose proof Hh as (Hg & _ & _ & _ & Hw). simpl in Hg, Hw.
    destruct (extend_foreign due r' t' ttl' d Hg (foreign_ne _ _ Hf)) as [Hu Hn].
    pose proof (eval_untouched due net _ d Hu) as Hu'. unfold extend.
    assert (Hb : r' = r -> fst (eval net (_EXTEND_LUA r' t' ttl') d) <> Some true)
      by (intros E; apply eval_wants; by rewrite Hn).
    destruct (eval net _ d) as [b d']. split; [by eapply held_untouched | intros E%String.eqb_eq; by apply Hb].
  - pose proof (held_release g d due now q net r' t' Hh (foreign_ne _ _ Hf)) as H.
    destruct (release _ _ _ _ _) as [b [m d']]. destruct H as [H1 H2]. split; [done |].
    intros E%String.eqb_eq. by apply H2.
  - pose proof (held_renew g d due now q net j Hh Ht) as H. destruct (renew _ _ _ _) as [m d']. by split.
  - split; [| done]. eapply held_untouched; [exact Hh | apply untouched_refl |]. destruct Hh as (_ & _ & _ & _ & Hw).
    apply upd_all; [done | by apply one_ttl_go_on].
  - destruct Hh as (Hg & Hdl & <- & Hx & Hw). simpl in *. split; [| done]. split; [| split; [| split; [| split]]]; simpl.
    + rewrite GET_alive; [done | lia | lia].
    + by rewrite deadline_elapse.
    + apply clock_elapse.
    + lia.
    + exact Hw.
  - destruct Hh as (Hg & Hdl & <- & Hx & Hw). simpl in *. split; [| done].
    assert (Hk : k <> lock_key r) by (by apply String.eqb_neq, negb_true_iff).
    split; [| split; [| split; [| split]]]; simpl.
    + rewrite GET_evict. apply String.eqb_neq in Hk. by rewrite Hk.
    + by rewrite deadline_evict.
    + apply clock_evict.
    + done.
    + exact Hw.
Qed.
Lemma elapsed_nonneg l : (0 <= elapsed_all l)%Z.
Proof. induction l as [|a l IH]; simpl; [done |]. assert (0 <= elapsed a)%Z by (destruct a; simpl; lia). lia. Qed.
Lemma steps_held l s due now : held due now s -> (0 < ttl)%Z -> forallb foreign_act l = true ->
  (now + elapsed_all l < due)%Z -> held due (now + elapsed_all l) (steps l s).
Proof.
  intros Hh Ht. revert s now Hh. induction l as [|a l IH]; intros s now Hh Hf Hd; simpl in *; [by rewrite Z.add_0_r |].
  apply andb_true_iff in Hf as [Ha Hf]. pose proof (elapsed_nonneg l).
  rewrite Z.add_assoc in *. apply IH; [apply step_held; [done.. | lia] | done | lia].
Qed.

(** *** The watchdog of the holder *)
Definition other (c : await) : Prop :=
  match c with Took r' _ _ | Gave r' => r' <> r | Ended _ => True end.
(** A gateway's entries name watchdogs of their resource, and what is to end are watchdogs it started. *)
Definition well_keyed (m : DistributedLock) : Prop :=
  (forall r' j, _renewal_tasks m !! r' = Some j -> exists k, tasks m !! j = Some k /\ tk_resource k = r') /\
  (forall j, Ended j ∈ in_flight m -> is_Some (tasks m !! j)).
(** The holder's coroutine is to go on and start the watchdog, or did: it is registered and running. *)
Definition watchdog_due (m : DistributedLock) : Prop := exists rest, in_flight m ≡ₚ Took r t ttl :: rest /\ Forall other rest.
Definition watchdog_runs (m : DistributedLock) : Prop :=
  exists i, _renewal_tasks m !! r = Some i /\ tasks m !! i = Some (mkTask r t ttl false).
Record watched (m : DistributedLock) : Prop := {
  w_keyed : well_keyed m;
  w_ended : forall j k, Ended j ∈ in_flight m -> tasks m !! j = Some k -> ~ mine k;
  w_phase : watchdog_due m \/ (Forall other (in_flight m) /\ watchdog_runs m) }.

Lemma stopped_lookup (l : list task) j n k : alter stopped j l !! n = Some k ->
  exists k0, l !! n = Some k0 /\ tk_resource k = tk_resource k0 /\ tk_token k = tk_token k0.
Proof.
  destruct (decide (j = n)) as [<- | Hn].
  - rewrite list_lookup_alter_eq. destruct (l !! j) as [k0|]; [| done]. intros [= <-]. by exists k0.
  - rewrite list_lookup_alter_ne by done. intros H. by exists k.
Qed.
Lemma lookup_stopped (l : list task) j n k0 : l !! n = Some k0 ->
  exists k, alter stopped j l !! n = Some k /\ tk_resource k = tk_resource k0.
Proof.
  intros H. destruct (decide (j = n)) as [<- | Hn].
  - exists (stopped k0). by rewrite list_lookup_alter_eq, H.
  - exists k0. by rewrite list_lookup_alter_ne.
Qed.
Lemma in_flight_resume c m : in_flight (resume c m) = in_flight m.
Proof. destruct c as [| r' |]; cbn [resume]; [done | | done]. unfold pop_watchdog. by destruct (_renewal_tasks m !! r'). Qed.
Lemma keyed_answered c m : well_keyed m -> (forall j, c = Ended j -> is_Some (tasks m !! j)) -> well_keyed (answered c m).
Proof.
  intros [H1 H2] H. split; [done |]. intros j. cbn. rewrite elem_of_app, list_elem_of_singleton. intros [Hj | <-]; auto.
Qed.
Lemma keyed_stop j m : well_keyed m -> well_keyed (stop_task j m).
Proof.
  intros [H1 H2]. split; cbn.
  - intros r' n Hn. destruct (H1 r' n Hn) as (k & Hk & <-). by apply lookup_stopped.
  - intros n Hn. destruct (H2 n Hn) as [k Hk]. destruct (lookup_stopped _ j n k Hk) as (k' & Hk' & _). by exists k'.
Qed.
Lemma keyed_start r' t' ttl' m : well_keyed m -> well_keyed (start_watchdog r' t' ttl' m).
Proof.
  intros [H1 H2]. split; cbn.
  - intros r0 n. destruct (decide (r' = r0)) as [<- | Hne].
    + rewrite lookup_insert_eq. intros [= <-]. exists (mkTask r' t' ttl' false). split; [by apply list_lookup_middle | done].
    + rewrite lookup_insert_ne by done. intros Hn. destruct (H1 r0 n Hn) as (k & Hk & Er). exists k.
      split; [by apply lookup_app_l_Some | done].
  - intros n Hn. destruct (H2 n Hn) as [k Hk]. exists k. by apply lookup_app_l_Some.
Qed.
Lemma keyed_resume c m : well_keyed m -> well_keyed (resume c m).
Proof.
  intros H. destruct c as [| r' | j]; cbn [resume]; [by apply keyed_start | | by apply keyed_stop].
  unfold pop_watchdog. destruct (_renewal_tasks m !! r') as [n|] eqn:E; [| done]. apply keyed_stop. destruct H as [H1 H2].
  split; [| done]. cbn. intros r0 n0 [_ Hn]%lookup_delete_Some. by apply H1.
Qed.
(** The coroutine is out of the list, its work still to do. *)
Definition dropped (n : nat) (m : DistributedLock) : DistributedLock :=
  mkLock (_renewal_tasks m) (tasks m) (delete n (in_flight m)).
Lemma elem_of_dropped c n m : c ∈ in_flight (dropped n m) -> c ∈ in_flight m.
Proof. cbn. intros H. apply sublist_subseteq with (delete n (in_flight m)); [apply sublist_delete | done]. Qed.
Lemma keyed_dropped n m : well_keyed m -> well_keyed (dropped n m).
Proof. intros [H1 H2]. split; [done |]. intros j Hj. apply H2. by apply elem_of_dropped in Hj. Qed.
Lemma keyed_go_on n m : well_keyed m -> well_keyed (go_on n m).
Proof.
  intros H. unfold go_on. destruct (in_flight m !! n) as [c|]; [| done]. by apply keyed_resume, (keyed_dropped n).
Qed.

Definition none_ends (m : DistributedLock) : Prop :=
  forall j k, Ended j ∈ in_flight m -> tasks m !! j = Some k -> ~ mine k.
Lemma none_ends_stop j m : none_ends m -> none_ends (stop_task j m).
Proof.
  intros H n k Hn Hk. cbn in Hn, Hk. destruct (stopped_lookup _ _ _ _ Hk) as (k0 & Hk0 & E1 & E2).
  unfold mine. rewrite E1, E2. by apply (H n k0).
Qed.
Lemma none_ends_resume c m : well_keyed m -> none_ends m -> none_ends (resume c m).
Proof.
  intros [_ Hk] H. destruct c as [r' t' ttl' | r' | j]; cbn [resume].
  - intros n k Hn. cbn in Hn |- *. destruct (Hk n Hn) as [k0 Hk0]. rewrite (lookup_app_l_Some _ _ _ _ Hk0). intros [= <-]. by apply (H n k0).
  - unfold pop_watchdog. destruct (_renewal_tasks m !! r') as [i|]; [| done]. by apply none_ends_stop.
  - by apply none_ends_stop.
Qed.
Lemma running_stop j m : (forall k, tasks m !! j = Some k -> ~ mine k) -> watchdog_runs m -> watchdog_runs (stop_task j m).
Proof.
  intros H (i & H1 & H2). exists i. split; [done |]. cbn. rewrite list_lookup_alter_ne; [done |]. intros ->.
  by apply (H _ H2).
Qed.
Lemma running_resume c m : well_keyed m -> other c -> (forall j k, c = Ended j -> tasks m !! j = Some k -> ~ mine k) ->
  watchdog_runs m -> watchdog_runs (resume c m).
Proof.
  intros Hk Hc He Hr. destruct c as [r' t' ttl' | r' | j]; cbn [resume other] in *.
  - destruct Hr as (i & H1 & H2). exists i. cbn. rewrite lookup_insert_ne by done. split; [done |]. by apply lookup_app_l_Some.
  - unfold pop_watchdog. destruct (_renewal_tasks m !! r') as [j|] eqn:E; [| done]. apply running_stop.
    + cbn. intros k Hk0 [Er _]. destruct (proj1 Hk r' j E) as (k' & Hk' & E'). rewrite Hk0 in Hk'. injection Hk' as <-. congruence.
    + destruct Hr as (i & H1 & H2). exists i. split; [| done]. cbn. by rewrite lookup_delete_ne.
  - apply running_stop; [| done]. intros k. by apply He.
Qed.
Lemma watched_go_on n m : watched m -> watched (go_on n m).
Proof.
  intros [Hk He Hp]. split; [by apply keyed_go_on | |]; unfold go_on; destruct (in_flight m !! n) as [c|] eqn:E; try done.
  - apply (none_ends_resume c (dropped n m)); [by apply keyed_dropped |]. intros j k Hj. apply He. by apply elem_of_dropped in Hj.
  - fold (dropped n m). pose proof (delete_Permutation _ _ _ E) as Hd.
    assert (Hin : forall j k, c = Ended j -> tasks (dropped n m) !! j = Some k -> ~ mine k).
    { intros j k -> Hj. apply (He j k); [| done]. by apply list_elem_of_lookup_2 in E. }
    destruct Hp as [(rest & Hp & Hr) | [Ho Hrun]].
    + destruct (decide (c = Took r t ttl)) as [-> | Hne].
      * right. rewrite in_flight_resume. rewrite Hd in Hp. apply Permutation_cons_inv in Hp. split.
        -- cbn [in_flight dropped]. by rewrite Hp.
        -- exists (length (tasks m)). cbn. rewrite lookup_insert_eq. split; [done |]. by apply list_lookup_middle.
      * left. assert (Hc : c ∈ rest).
        { assert (c ∈ Took r t ttl :: rest) as [-> |]%elem_of_cons by (rewrite <- Hp, Hd; by left); done. }
        apply elem_of_Permutation in Hc as [rest' Hc]. exists rest'. rewrite in_flight_resume. cbn [in_flight dropped].
        rewrite Hc in Hp, Hr. apply Forall_cons in Hr as [_ Hr]. split; [| done].
        rewrite Hd in Hp. apply (Permutation_cons_inv (a := c)). rewrite Hp. apply Permutation_swap.
    + right. rewrite in_flight_resume. rewrite Hd in Ho. apply Forall_cons in Ho as [Hc Ho]. split; [done |].
      apply running_resume; [by apply keyed_dropped | done | exact Hin | exact Hrun].
Qed.
Lemma watched_answered c m : watched m -> other c ->
  (forall j, c = Ended j -> exists k, tasks m !! j = Some k /\ ~ mine k) -> watched (answered c m).
Proof.
  intros [Hk He Hp] Hc Hj. split.
  - apply keyed_answered; [done |]. intros j Ej. destruct (Hj j Ej) as (k & Hk' & _). by exists k.
  - intros j k. cbn. rewrite elem_of_app, list_elem_of_singleton. intros [Hin | <-] Hk'; [by apply (He j k) |].
    destruct (Hj j eq_refl) as (k' & E & Hm). rewrite Hk' in E. by injection E as <-.
  - destruct Hp as [(rest & Hp & Hr) | [Ho Hrun]].
    + left. exists (rest ++ [c]). cbn [answered in_flight]. rewrite Hp. split; [done |]. apply Forall_app. by split; [| constructor].
    + right. split; [| exact Hrun]. apply Forall_app. by split; [| constructor].
Qed.

(** Every renewal the gateway asked for was answered. *)
Definition renewals_answered (a : act) : bool :=
  match a with Tick q net _ => negb (q =? p)%nat || match net with Delivered => true | _ => false end | _ => true end.
Definition took_before (m m' : DistributedLock) : Prop := Took r t ttl ∈ in_flight m' -> Took r t ttl ∈ in_flight m.
Lemma took_answered c m : other c -> took_before m (answered c m).
Proof. intros Hc. unfold took_before. cbn. rewrite elem_of_app, list_elem_of_singleton. by intros [| <-]. Qed.
Lemma took_go_on n m : took_before m (go_on n m).
Proof.
  unfold took_before, go_on. destruct (in_flight m !! n); [| done]. fold (dropped n m). rewrite in_flight_resume.
  apply elem_of_dropped.
Qed.
Lemma step_watched a s due now : held due now s -> (0 < ttl)%Z -> foreign_act a = true -> renewals_answered a = true ->
  watched (fst s p) -> watched (fst (snd (step a s)) p) /\ took_before (fst s p) (fst (snd (step a s)) p).
Proof.
  destruct s as [g d]. intros Hh Ht Hf Hr Hw. pose proof Hh as (Hg & _ & Hc & Hd & Ho). simpl in Hg, Hc, Ho, Hw.
  assert (Hsame : watched (g p) /\ took_before (g p) (g p)) by (split; [exact Hw | by intros H]).
  assert (Hput : forall q m, (q = p -> watched m /\ took_before (g p) m) -> watched (upd q m g p) /\ took_before (g p) (upd q m g p)).
  { intros q m Hm. destruct (decide (q = p)) as [-> |]; [rewrite upd_same; auto |]. rewrite upd_other by done. split; [exact Hw | by intros H]. }
  destruct a as [q net r' t' ttl'|net r' t' ttl'|q net r' t'|q net j|q n|dt|k]; cbn [step renewals_answered foreign_act] in *.
  - pose proof (held_try g d due now q net r' t' ttl' Hh) as H. unfold try_acquire in *.
    destruct (set_nx _ _ _ _ _) as [[[]|] d']; cbn [snd fst] in *; apply Hput; intros ->; try exact Hsame.
    destruct H as (_ & H & _). assert (r' <> r) by (intros ->; by apply H).
    split; [by apply watched_answered | by apply took_answered].
  - destruct (extend _ _ _ _ _). exact Hsame.
  - pose proof (held_release g d due now q net r' t' Hh (foreign_ne _ _ Hf)) as H. unfold release in *.
    destruct (eval _ _ _) as [[[]|] d']; cbn [snd fst] in *; apply Hput; intros ->; try exact Hsame.
    destruct H as (_ & H). assert (r' <> r) by (intros ->; by apply H).
    split; [by apply watched_answered | by apply took_answered].
  - unfold renew. destruct (tasks (g q) !! j) as [k|] eqn:Ek; [| apply Hput; intros ->; exact Hsame].
    destruct (tk_done k); [apply Hput; intros ->; exact Hsame |].
    pose proof (proj1 (Forall_lookup _ _) (proj1 (Ho q)) j k Ek) as Hk.
    destruct (extend_task due d k net Hg Ht ltac:(lia) Hk) as [_ He].
    assert (Hend : q = p -> fst (extend net (tk_resource k) (tk_token k) (tk_ttl k) d) <> Some true ->
      watched (answered (Ended j) (g p)) /\ took_before (g p) (answered (Ended j) (g p))).
    { intros -> Hn. split; [| by apply took_answered]. apply watched_answered; [done | done |]. intros j0 [= <-].
      exists k. split; [done |]. intros Hm. rewrite Nat.eqb_refl in Hr. apply Hn, He; [done |]. by destruct net. }
    destruct (extend net _ _ _ d) as [[[]|] d']; cbn [fst snd] in *; apply Hput; [by intros -> | |]; intros E; rewrite E; by apply Hend.
  - apply Hput. intros ->. split; [by apply watched_go_on | apply took_go_on].
  - exact Hsame.
  - exact Hsame.
Qed.
Lemma steps_watched l s due now : held due now s -> (0 < ttl)%Z -> forallb foreign_act l = true ->
  forallb renewals_answered l = true -> (now + elapsed_all l < due)%Z -> watched (fst s p) ->
  watched (fst (steps l s) p) /\ took_before (fst s p) (fst (steps l s) p).
Proof.
  intros Hh Ht. revert s now Hh. induction l as [|a l IH]; intros s now Hh Hf Hr Hd Hw; simpl in *; [split; [exact Hw | by intros H] |].
  apply andb_true_iff in Hf as [Ha Hf]. apply andb_true_iff in Hr as [Har Hr]. pose proof (elapsed_nonneg l).
  destruct (step_watched a s due now Hh Ht Ha Har Hw) as [Hw' Htb].
  destruct (IH (snd (step a s)) (now + elapsed a)%Z) as [H1 H2]; [apply step_held; [done.. | lia] | done | done | lia | done |].
  split; [done |]. intros Hin. by apply Htb, H2.
Qed.
(** Once its coroutine went on, the watchdog runs. *)
Lemma watched_running m : watched m -> Took r t ttl ∉ in_flight m -> watchdog_runs m.
Proof.
  intros [_ _ [(rest & Hp & _) | [_ H]]] Hn; [| done]. destruct Hn. rewrite Hp. by left.
Qed.
Lemma tick_held s i due now : held due now s -> (0 < ttl)%Z -> tasks (fst s p) !! i = Some (mkTask r t ttl false) ->
  held (now + ttl) now (snd (step (Tick p Delivered i) s)).
Proof.
  destruct s as [g d]. intros (Hg & _ & <- & Hx & Hw) Ht Hi. simpl in *.
  unfold renew. rewrite Hi. simpl. unfold extend. cbn [eval]. destruct (extend_own due d Hg Ht Hx) as ((H1 & H2 & _) & H3 & H4).
  destruct (_EXTEND_LUA r t ttl d) as [b d']. cbn [fst snd] in *. subst b.
  split; [| split; [| split; [| split]]]; cbn [fst snd]; [congruence | lia | done | lia |]. by apply upd_all.
Qed.
End Held.

(** A token nobody used before (a UUID) *)
Definition unused (t : string) (m : DistributedLock) : Prop :=
  Forall (fun k => tk_token k <> t) (tasks m) /\ forall r ttl, Took r t ttl ∉ in_flight m.
(** A lock just acquired is held, and its coroutine is to start the watchdog. *)
Lemma acquired_held g d p net r t ttl m d1 : (0 < ttl)%Z -> (forall q, unused t (g q)) ->
  try_acquire net r t ttl (g p) d = (Some true, (m, d1)) ->
  held r t ttl (clock d + ttl) (clock d) (upd p m g, d1) /\ m = answered (Took r t ttl) (g p).
Proof.
  intros Ht Hu. unfold try_acquire, set_nx. destruct net; cbn [eval]; try done.
  unfold lsetnx, SETNX. replace (0 <? ttl)%Z with true by lia. destruct (GET d (lock_key r)); [done |]. intros [= <- <-].
  split; [| done]. split; [by apply GET_SET |]. split; [simpl; rewrite deadline_SET, String.eqb_refl; lia |].
  split; [apply clock_SET |]. split; [lia |]. cbn [fst].
  assert (Hone : forall q, one_ttl r t ttl (g q)).
  { intros q. destruct (Hu q) as [H1 H2]. split.
    - eapply Forall_impl; [exact H1 |]. intros k Hk [_ E]. by destruct (Hk E).
    - apply Forall_forall. intros c Hc ttl' ->. by destruct (H2 r ttl'). }
  apply upd_all; [done |]. apply one_ttl_answered; [apply Hone |]. by intros ttl' [= <-].
Qed.
Lemma acquired_watched r t ttl m : unused t m -> well_keyed m -> Forall (other r) (in_flight m) ->
  watched r t ttl (answered (Took r t ttl) m).
Proof.
  intros [Hu _] Hk Ho. split.
  - by apply keyed_answered.
  - intros j k _ Hj [_ E]. cbn in Hj. by apply (proj1 (Forall_lookup _ _) Hu j k Hj).
  - left. exists (in_flight m). split; [| done]. cbn. by rewrite Permutation_app_comm.
Qed.

(** C38: A distributed lock excludes.  Once the server gave it to a gateway, under a token nobody used,
    then until its time to live is over, however the requests and the answered coroutines of all
    gateways, their watchdogs and the loss of other keys interleave, the server keeps the holder's token, its
    deadline comes no earlier than was asked for, and every attempt to acquire that lock, and
    every attempt to extend or release it with another token, is refused.  The holder's watchdog is
    about to be started, or it is registered and running, provided that each renewal its gateway asked
    for was answered, and that when the lock was given no other answered [acquire] or [release] of
    the same lock was still to go on at that gateway: a [release] that goes on only
    afterwards would cancel the new watchdog. *)
Theorem lock_exclusive g d p net r t ttl m d1 l a : (0 < ttl)%Z -> (forall q, unused t (g q)) ->
  try_acquire net r t ttl (g p) d = (Some true, (m, d1)) ->
  forallb (foreign_act r t) (l ++ [a]) = true -> (elapsed_all l < ttl)%Z ->
  let s := steps l (upd p m g, d1) in
  GET (snd s) (lock_key r) = Some t /\ (clock d + ttl <= deadline (snd s) (lock_key r))%Z /\
  (wants r a = true -> fst (step a s) <> Some true) /\
  (well_keyed (g p) -> Forall (other r) (in_flight (g p)) -> forallb (renewals_answered p) l = true ->
   watchdog_due r t ttl (fst s p) \/ watchdog_runs r t ttl (fst s p)).
Proof.
  intros Ht Hu Hacq Hl He s. rewrite forallb_app in Hl. apply andb_true_iff in Hl as [Hl Ha].
  simpl in Ha. rewrite andb_true_r in Ha. destruct (acquired_held g d p net r t ttl m d1 Ht Hu Hacq) as [Hh ->].
  assert (Hs : held r t ttl (clock d + ttl) (clock d + elapsed_all l) s) by (apply steps_held; [done.. | lia]).
  split; [apply Hs |]. split; [apply Hs |]. split.
  - intros Hw. assert (Hz : elapsed a = 0%Z) by (by destruct a). by apply (step_held r t ttl a s _ _ Hs Ht Ha ltac:(lia)).
  - intros Hk Ho Hr. destruct (steps_watched p r t ttl l _ _ _ Hh Ht Hl Hr ltac:(lia)) as [[_ _ Hp] _].
    + cbn [fst]. rewrite upd_same. by apply acquired_watched.
    + destruct Hp as [Hp | [_ Hp]]; [by left | by right].
Qed.

(** ** The watchdog *)
Lemma interval_short ttl : (2 <= ttl)%Z -> (0 < interval ttl < ttl)%Z.
Proof.
  intros H. unfold interval. pose proof (Z.div_lt ttl 3 ltac:(lia) ltac:(lia)).
  pose proof (Z.div_pos ttl 3 ltac:(lia) ltac:(lia)). lia.
Qed.
(** A turn of the watchdog's loop: what happens while it sleeps, then its renewal *)
Definition turn (p : nat) (r : string) (s : gateways * db) (l : list act) : gateways * db :=
  let s := steps l s in
  match _renewal_tasks (fst s p) !! r with Some i => snd (step (Tick p Delivered i) s) | None => s end.
(** The watchdog keeps its lock: as long as it wakes up before the time to live is over
    (which its interval leaves room for from two seconds on), and the server answers it, a
    held lock stays held, turn after turn, whatever others do meanwhile, and its deadline is a
    whole time to live away after each turn. *)
Theorem watchdog_keeps p r t ttl turns s now : (2 <= ttl)%Z ->
  held r t ttl (now + ttl) now s -> watched r t ttl (fst s p) -> Took r t ttl ∉ in_flight (fst s p) ->
  Forall (fun sleep => forallb (foreign_act r t) sleep = true /\ forallb (renewals_answered p) sleep = true /\
            exists late, (0 <= late < ttl - interval ttl)%Z /\ elapsed_all sleep = (interval ttl + late)%Z)
    turns ->
  let now' := (now + foldr Z.add 0 (map elapsed_all turns))%Z in
  held r t ttl (now' + ttl) now' (fold_left (turn p r) turns s).
Proof.
  intros Ht. revert s now. induction turns as [|l turns IH]; intros s now Hh Hw Hn Hf; simpl in *.
  { by rewrite Z.add_0_r. }
  apply List.Forall_cons_iff in Hf as [(Hl & Hr & late & Hlate & He) Hf]. rewrite Z.add_assoc.
  pose proof (steps_held r t ttl l s _ _ Hh ltac:(lia) Hl ltac:(lia)) as Hs.
  destruct (steps_watched p r t ttl l s _ _ Hh ltac:(lia) Hl Hr ltac:(lia) Hw) as [Hw' Htb].
  assert (Hn' : Took r t ttl ∉ in_flight (fst (steps l s) p)) by (intros H; by apply Hn, Htb).
  destruct (watched_running r t ttl _ Hw' Hn') as (i & Hi & Hk).
  assert (Htick : forallb (renewals_answered p) [Tick p Delivered i] = true) by (cbn; by rewrite orb_true_r).
  pose proof (tick_held p r t ttl _ i _ _ Hs ltac:(lia) Hk) as Hs'.
  destruct (step_watched p r t ttl (Tick p Delivered i) (steps l s) _ _ Hs ltac:(lia) eq_refl) as [Hw'' Htb'];
    [cbn; by rewrite orb_true_r | done |].
  unfold turn. rewrite Hi. apply IH; [done | done | | done]. intros H. by apply Hn', Htb'.
Qed.
(** With a time to live of one second the interval is the whole of it. *)
Lemma watchdog_too_late g r t d d1 m p late : (forall q, unused t (g q)) ->
  try_acquire Delivered r t 1 (g p) d = (Some true, (m, d1)) -> (0 < late)%Z ->
  GET (snd (steps [Pass (interval 1 + late)] (upd p m g, d1))) (lock_key r) = None.
Proof.
  intros Hu. unfold try_acquire, set_nx. cbn [eval]. unfold lsetnx, SETNX. cbn [Z.ltb Z.compare].
  destruct (GET d (lock_key r)); [done |]. intros [= <- <-] Hl. cbn [steps fold_left step snd fst].
  assert (Hd : deadline (SET d (lock_key r) t 1) (lock_key r) = (clock d + 1)%Z) by (by rewrite deadline_SET, String.eqb_refl).
  pose proof (clock_SET d (lock_key r) t 1) as Hc.
  apply GET_expired; rewrite ?Hd, ?Hc; [| change (interval 1) with 1%Z]; lia.
Qed.

(** ** Waiting for a lock *)
Definition delay_at (i : nat) : Z := Nat.iter i (fun delay => Z.min (delay * 2) max_delay) first_delay.
Lemma delay_at_S i : delay_at (S i) = Z.min (delay_at i * 2) max_delay.
Proof. done. Qed.
Lemma delay_at_min i : (first_delay <= delay_at i)%Z.
Proof.
  induction i as [|i IH]; [done |]. rewrite delay_at_S. unfold max_delay, first_delay in *. lia.
Qed.
(** The clock does not go back, and a sleep lasts at least as long as asked. *)
Definition sleeps (time : nat -> Z) : Prop :=
  (time 0%nat <= time 1%nat)%Z /\ forall i, (time (S i) + delay_at i <= time (S (S i)))%Z.
Lemma sleeps_total time n : sleeps time -> (time 0%nat + first_delay * Z.of_nat n <= time (S n))%Z.
Proof.
  intros [H0 H]. induction n as [|n IH]; [lia |]. pose proof (H n). pose proof (delay_at_min n). lia.
Qed.

Section Waiting.
Variables (net : nat -> fate) (time : nat -> Z) (meanwhile asleep : nat -> DistributedLock * db -> DistributedLock * db).
(** What only others made of the gateway while [acquire] waited *)
Inductive by_others (m : DistributedLock) : DistributedLock -> Prop :=
| as_it_was : by_others m m
| during_request n m' d : by_others m m' -> by_others m (fst (meanwhile n (m', d)))
| during_sleep n m' d : by_others m m' -> by_others m (fst (asleep n (m', d))).
(** What each answer of [acquire] means *)
Definition answer_means (r t : string) (ttl : Z) (blocking : bool) (timeout : Z)
    (m : DistributedLock) (out : acquired * (DistributedLock * db)) : Prop :=
  match fst out with
  | Acquired token => token = t /\ exists n m0 d0 d1,
      by_others m m0 /\ set_nx (net n) r t ttl d0 = (Some true, d1) /\ GET d1 (lock_key r) = Some t /\
      snd out = (start_watchdog r t ttl (fst (meanwhile n (m0, d1))), snd (meanwhile n (m0, d1)))
  | NotAcquired => by_others m (fst (snd out)) /\
      (blocking = false \/ exists n, (timeout * 1000 <= time n - time 0%nat)%Z)
  | RedisError => by_others m (fst (snd out))
  | OutOfFuel => False
  end.
Lemma set_nx_told net' r t ttl d d' : set_nx net' r t ttl d = (Some true, d') -> GET d' (lock_key r) = Some t.
Proof.
  unfold set_nx. destruct net'; cbn [eval]; [| done | done]. unfold lsetnx, SETNX.
  destruct (0 <? ttl)%Z eqn:Et; [| done]. destruct (GET d (lock_key r)); [done |].
  intros [= <-]. apply GET_SET. lia.
Qed.
Lemma acquire_loop_answers fuel r t ttl blocking timeout i m0 s : sleeps time -> by_others m0 (fst s) ->
  (timeout * 1000 < first_delay * (Z.of_nat i + Z.of_nat fuel))%Z -> (0 < fuel)%nat ->
  answer_means r t ttl blocking timeout m0
    (acquire_loop fuel net time meanwhile asleep r t ttl blocking timeout (time 0%nat) i (delay_at i) s).
Proof.
  intros Hs. revert i s. induction fuel as [|f IH]; intros i s Hm Hf H0; [lia |]. cbn [acquire_loop].
  destruct (set_nx (net i) r t ttl (snd s)) as [[[]|] d'] eqn:E.
  - unfold answer_means. cbn [fst snd]. split; [done |]. exists i, (fst s), (snd s), d'. split; [done |].
    split; [done |]. split; [by eapply set_nx_told | done].
  - assert (Hm' : by_others m0 (fst (meanwhile i (fst s, d')))) by (by apply during_request).
    destruct blocking; cbn [negb]; [| split; [done | by left]].
    destruct (timeout * 1000 <=? time (S i) - time 0%nat)%Z eqn:Et.
    { split; [done |]. right. exists (S i). lia. }
    apply Z.leb_gt in Et. pose proof (sleeps_total time i Hs) as Hi. rewrite <- delay_at_S.
    destruct f; [unfold first_delay in *; lia |]. apply IH; [| lia..].
    destruct (meanwhile i (fst s, d')) as [m' d'']. by apply during_sleep.
  - unfold answer_means. cbn [fst snd]. by apply during_request.
Qed.

(** C39: [acquire] always answers: however the other clients of the server and the other coroutines of
    the gateway behave and its round trips end, it returns after at most [20 * blocking_timeout + 1]
    attempts, when the clock does not go back and its sleeps last as long as asked.  An acquired
    lock carries the token, was the server's at that attempt, and has a fresh watchdog, the last thing
    [acquire] does; a refusal, or an error of the server, leaves the gateway as others made it, and a
    blocking call refuses only after its timeout. *)
Theorem acquire_answers r t ttl blocking timeout m d : sleeps time -> (0 <= timeout)%Z ->
  answer_means r t ttl blocking timeout m
    (acquire (Z.to_nat (timeout * 20) + 1) net time meanwhile asleep r t ttl blocking timeout (m, d)).
Proof.
  intros Hs Ht. unfold acquire. change first_delay with (delay_at 0).
  apply acquire_loop_answers; [done | apply as_it_was | unfold first_delay | ]; lia.
Qed.
End Waiting.
End LockSpec.
