(* ===== verification/Jobs.v ===== *)
(** * The job manager (app/job_manager.py)

    One gateway process: the jobs it accepted, the task that runs each, and the SSH sessions
    they pin.  A method or a task runs from one [await] to the next as one step; a round trip
    to Redis is a step with its fate ([DurableJobs]).  Job records are shared between the
    table and their tasks, so they live in a heap, one cell per task ever started. *)
From stdpp Require Import gmap pretty.
From S2P Require Import Prelude PyStr Digests Redis DurableJobs.
From stdpp Require Import options.

(** ** Jobs *)
Inductive job_status : Type :=
| pending | running | cancelling | completed | failed | cancelled | ambiguous.
#[global] Instance job_status_eq_dec : EqDecision job_status.
Proof. solve_decision. Defined.
Definition status_value (s : job_status) : string :=
  match s with
  | pending => "pending" | running => "running" | cancelling => "cancelling"
  | completed => "completed" | failed => "failed" | cancelled => "cancelled" | ambiguous => "ambiguous"
  end.
Definition TERMINAL_STATES (s : job_status) : bool :=
  match s with completed | failed | cancelled | ambiguous => true | _ => false end.
Definition ACTIVE_STATES (s : job_status) : bool :=
  match s with pending | running | cancelling => true | _ => false end.

Record JobRecord : Type := mkJob {
  j_id : string; j_session : string; j_command : string; j_status : job_status;
  j_stdout : string; j_stderr : string; j_exit_code : option Z; j_completed_at : option Z;
  j_owner : string; j_error : option string; j_redact : option string; j_stdin : string;
  j_timeout : Z; j_durable : bool; j_key : option string;
  j_cancel : bool;              (* cancel_event *)
  j_done : bool;                (* completed_event *)
  j_persisted : option bool;    (* progress["durable_persisted"] *)
  j_attempt : bool              (* attempt_id is set *) }.
Definition new_job (id session command owner : string) (redact : option string) (stdin : string)
    (timeout : Z) (durable : bool) (key : option string) : JobRecord :=
  mkJob id session command pending "" "" None None owner None redact stdin timeout durable key
    false false (if durable then Some false else None) false.

Definition set_status (s : job_status) (j : JobRecord) : JobRecord :=
  mkJob (j_id j) (j_session j) (j_command j) s (j_stdout j) (j_stderr j) (j_exit_code j)
    (j_completed_at j) (j_owner j) (j_error j) (j_redact j) (j_stdin j) (j_timeout j) (j_durable j)
    (j_key j) (j_cancel j) (j_done j) (j_persisted j) (j_attempt j).
Definition set_output (out err : string) (j : JobRecord) : JobRecord :=
  mkJob (j_id j) (j_session j) (j_command j) (j_status j) out err (j_exit_code j)
    (j_completed_at j) (j_owner j) (j_error j) (j_redact j) (j_stdin j) (j_timeout j) (j_durable j)
    (j_key j) (j_cancel j) (j_done j) (j_persisted j) (j_attempt j).
Definition set_result (code : option Z) (error : option string) (j : JobRecord) : JobRecord :=
  mkJob (j_id j) (j_session j) (j_command j) (j_status j) (j_stdout j) (j_stderr j) code
    (j_completed_at j) (j_owner j) error (j_redact j) (j_stdin j) (j_timeout j) (j_durable j)
    (j_key j) (j_cancel j) (j_done j) (j_persisted j) (j_attempt j).
Definition set_cancel (j : JobRecord) : JobRecord :=
  mkJob (j_id j) (j_session j) (j_command j) (j_status j) (j_stdout j) (j_stderr j) (j_exit_code j)
    (j_completed_at j) (j_owner j) (j_error j) (j_redact j) (j_stdin j) (j_timeout j) (j_durable j)
    (j_key j) true (j_done j) (j_persisted j) (j_attempt j).
(** [completed_at] and [completed_event] *)
Definition set_done (at_ : option Z) (j : JobRecord) : JobRecord :=
  mkJob (j_id j) (j_session j) (j_command j) (j_status j) (j_stdout j) (j_stderr j) (j_exit_code j)
    at_ (j_owner j) (j_error j) (j_redact j) (j_stdin j) (j_timeout j) (j_durable j)
    (j_key j) (j_cancel j) true (j_persisted j) (j_attempt j).
Definition set_persisted (b : bool) (j : JobRecord) : JobRecord :=
  mkJob (j_id j) (j_session j) (j_command j) (j_status j) (j_stdout j) (j_stderr j) (j_exit_code j)
    (j_completed_at j) (j_owner j) (j_error j) (j_redact j) (j_stdin j) (j_timeout j) (j_durable j)
    (j_key j) (j_cancel j) (j_done j) (Some b) (j_attempt j).
Definition set_attempt (j : JobRecord) : JobRecord :=
  mkJob (j_id j) (j_session j) (j_command j) running (j_stdout j) (j_stderr j) (j_exit_code j)
    (j_completed_at j) (j_owner j) (j_error j) (j_redact j) (j_stdin j) (j_timeout j) (j_durable j)
    (j_key j) (j_cancel j) (j_done j) (j_persisted j) true.

Definition exit_message (code : option Z) : string :=
  "Exit code: " +s+ match code with Some c => pretty c | None => "None" end.
Definition _classify_cancelled_stream_outcome (j : JobRecord) : JobRecord :=
  match j_exit_code j with
  | Some c =>
      if (0 <=? c)%Z then
        if (c =? 0)%Z then set_status completed j
        else set_result (Some c) (Some (exit_message (Some c))) (set_status failed j)
      else set_result (Some c) (Some "Local SSH channel interrupted after cancellation; remote command outcome is unproven")
             (set_status ambiguous j)
  | None =>
      set_result (Some (-1)%Z) (Some "Local SSH channel interrupted after cancellation; remote command outcome is unproven")
        (set_status ambiguous j)
  end.

(** What a stream yields: output, an exit code, and a transport error (which nobody reads) *)
Inductive chunk : Type := CStdout (data : string) | CStderr (data : string) | CExit (code : Z) | CError (msg : string).
Definition MAX_STDOUT_SIZE : Z := (10 * 1024 * 1024)%Z.
Definition truncated_note : string := String newline "... [output truncated, exceeded 10MB]".
Definition append_output (out data : string) : string :=
  let remaining := (MAX_STDOUT_SIZE - Z.of_nat (slen out))%Z in
  if (0 <? remaining)%Z then
    let fits := (Z.of_nat (slen data) <=? remaining)%Z in
    let out := out +s+ (if fits then data else take (Z.to_nat remaining) data) in
    if negb fits && negb (contains "[truncated]" out) then out +s+ truncated_note else out
  else out.
Definition take_chunk (c : chunk) (j : JobRecord) : JobRecord :=
  match c with
  | CStdout data => set_output (append_output (j_stdout j) data) (j_stderr j) j
  | CStderr data => set_output (j_stdout j) (append_output (j_stderr j) data) j
  | CExit code => set_result (Some code) (j_error j) j
  | CError _ => j
  end.
(** After the stream: it ended, or raised *)
Definition stream_ended (raised : option string) (j : JobRecord) : JobRecord :=
  match raised with
  | Some msg => set_result (j_exit_code j) (Some msg) (set_status failed j)
  | None =>
      if j_cancel j then _classify_cancelled_stream_outcome j
      else if bool_decide (j_exit_code j = Some 0%Z) then set_status completed j
      else set_result (j_exit_code j) (Some (exit_message (j_exit_code j))) (set_status failed j)
  end.

(** ** The manager *)
(** Where the task of a job is: before its first step, between its claim and the start, about
    to report a cancellation, started, in the stream, leaving (the [finally] block), ended.
    The token is there when the execution is durable. *)
Inductive phase : Type :=
| New | Claimed (token : string) | Aborting (token : string) | Started (token : option string)
| Streaming (token : option string) | Leaving (token : option string) | Ended.
Record cell : Type := mkCell { c_job : JobRecord; c_phase : phase; c_beating : bool }.
Record JobManager : Type := mkManager {
  _jobs : gmap string nat; cells : list cell;
  _session_leases : gmap string string;    (* job to session *)
  operations : gmap string Z }.            (* active operations of the live sessions *)
(** The settings: [_max_jobs], [_job_timeout], whether there is a queue, and whether it is connected *)
Record config : Type := mkConfig {
  cf_max_jobs : Z; cf_job_timeout : Z; cf_queue : bool; cf_connected : bool }.
Inductive jexn : Type :=
| QueueError (e : qexn) | SessionNotFoundError (msg : string) | ExecutionError (msg : string).

Definition acquire_operation_lease (session : string) (m : JobManager) : option JobManager :=
  match operations m !! session with
  | Some n => Some (mkManager (_jobs m) (cells m) (_session_leases m) (<[session := (n + 1)%Z]> (operations m)))
  | None => None
  end.
Definition release_operation_lease (session : string) (m : JobManager) : JobManager :=
  mkManager (_jobs m) (cells m) (_session_leases m) (alter (fun n => Z.max 0 (n - 1)) session (operations m)).
Definition _release_job_session_lease (job_id : string) (m : JobManager) : JobManager :=
  match _session_leases m !! job_id with
  | Some session =>
      release_operation_lease session
        (mkManager (_jobs m) (cells m) (delete job_id (_session_leases m)) (operations m))
  | None => m
  end.
Definition job_at (m : JobManager) (ref : nat) : option JobRecord := option_map c_job (cells m !! ref).
Definition table (m : JobManager) : list JobRecord :=
  omap (fun x => job_at m (snd x)) (map_to_list (_jobs m)).
Definition active_jobs (m : JobManager) : Z :=
  Z.of_nat (length (List.filter (fun j => ACTIVE_STATES (j_status j)) (table m))).
Definition set_cell (ref : nat) (c : cell) (m : JobManager) : JobManager :=
  mkManager (_jobs m) (<[ref := c]> (cells m)) (_session_leases m) (operations m).
(** Registers a job with its lease and schedules its task. *)
Definition register (j : JobRecord) (m : JobManager) : JobManager :=
  mkManager (<[j_id j := length (cells m)]> (_jobs m)) (cells m ++ [mkCell j New false])
    (<[j_id j := j_session j]> (_session_leases m)) (operations m).
(** The end of a task: [_run_job] releases the lease of its job. *)
Definition end_task (ref : nat) (j : JobRecord) (m : JobManager) : JobManager :=
  _release_job_session_lease (j_id j) (set_cell ref (mkCell j Ended false) m).

(** ** Submission *)
Definition nul : string := String "000"%char "".
Definition _submission_payload_hash (session command stdin : string) (timeout : Z) : string :=
  hexdigest (session +s+ nul +s+ command +s+ nul +s+ stdin +s+ nul +s+ pretty timeout).
Definition keyed (submission_key : option string) : option string :=
  match submission_key with Some k => if String.eqb k "" then None else Some k | None => None end.

Section Manager.
Context {R : Redis} {J : JsonCodec}.
Variable cf : config.
Abbreviation state := (JobManager * db)%type.

(** It holds the manager's lock from the count of active jobs on, so it is one step; the
    identifier it draws and the time are arguments. *)
Definition create_job (net1 net2 : fate) (net3 : nat -> fate)
    (session_id command owner_id : string) (redact_path_prefix : option string) (stdin : string)
    (timeout : option Z) (submission_key : option string) (new_id : string) (now : Z) (s : state)
    : (jexn + string) * state :=
  let '(m, d) := s in
  let timeout := match timeout with Some t => t | None => cf_job_timeout cf end in
  let hash := _submission_payload_hash session_id command stdin timeout in
  let find net := match keyed submission_key with
                  | Some k => if negb (cf_queue cf) then inl SubmissionUnavailableError
                              else find_submission (cf_connected cf) net k owner_id hash d
                  | None => inr None
                  end in
  match find net1 with
  | inl e => (inl (QueueError e), s)
  | inr (Some existing) => (inr existing, s)
  | inr None =>
      if (cf_max_jobs cf <=? active_jobs m)%Z then
        match find net2 with
        | inl e => (inl (QueueError e), s)
        | inr (Some existing) => (inr existing, s)
        | inr None => (inl (ExecutionError "Maximum number of jobs reached"), s)
        end
      else
        match acquire_operation_lease session_id m with
        | None => (inl (SessionNotFoundError ("Session " +s+ session_id +s+ " not found")), s)
        | Some m1 =>
            match keyed submission_key with
            | None =>
                (inr new_id, (register (new_job new_id session_id command owner_id redact_path_prefix
                                stdin timeout false submission_key) m1, d))
            | Some k =>
                let envelope := new_envelope new_id k session_id command (b64encode stdin) owner_id hash
                                  timeout now redact_path_prefix in
                let '(r, d1) := reserve_submission_with_job (cf_connected cf) net3 k new_id owner_id hash
                                  envelope now d in
                match r with
                | inl e => (inl (QueueError e), (release_operation_lease session_id m1, d1))
                | inr (job_id, false) => (inr job_id, (release_operation_lease session_id m1, d1))
                | inr (job_id, true) =>
                    (inr job_id, (register (new_job job_id session_id command owner_id redact_path_prefix
                                    stdin timeout true submission_key) m1, d1))
                end
            end
        end
  end.

(** ** Recovery *)
(** Python's [int] of a text: spaces around, a sign, digits with single underscores between *)
Definition py_int (s : string) : option Z :=
  let s := strip s in
  let '(sign, digits) := match s with
                         | String "-" r => ((-1)%Z, r) | String "+" r => (1%Z, r) | _ => (1%Z, s)
                         end in
  let groups := split_on "_" digits in
  if forallb (fun g => negb (String.eqb g "") && all_of is_digit g) groups
  then Some (sign * int_of 10 0 (join "" groups))%Z else None.
Definition py_truth (v : option jv) : bool :=
  match v with
  | None | Some VNull | Some (VBool false) => false
  | Some (VNum n) => negb (n =? 0)%Z
  | Some (VStr s) => negb (String.eqb s "")
  | Some (VBool true) => true
  end.
Definition text_or (v : option jv) (default : string) : string :=
  match v with Some v => py_text v | None => default end.
Definition int_or (v : option jv) (default : Z) : option Z :=
  match v with
  | None => Some default
  | Some (VNum n) => Some n
  | Some (VBool b) => Some (if b then 1 else 0)%Z
  | Some (VStr s) => py_int s
  | Some VNull => None
  end.
(** The fields of an executable envelope; [None]: the envelope is invalid.  (A path prefix that
    is not a text counts as its text.) *)
Definition envelope_job (envelope : jobj) : option JobRecord :=
  match envelope !! "job_id", envelope !! "session_id", envelope !! "command",
        int_or (envelope !! "timeout") 3600 with
  | Some job_id, Some session_id, Some command, Some timeout =>
      let key := strip (text_or (envelope !! "submission_key") "") in
      let stdin := match envelope !! "stdin_b64" with
                   | Some (VStr t) => match b64decode t with Some b => b | None => "" end
                   | _ => ""
                   end in
      let redact := match envelope !! "redact_path_prefix" with
                    | None | Some VNull => None | Some v => Some (py_text v) end in
      Some (new_job (py_text job_id) (py_text session_id) (py_text command)
              (text_or (envelope !! "owner_id") "") redact stdin timeout true
              (if String.eqb key "" then None else Some key))
  | _, _, _, _ => None
  end.
(** Whether the envelope may be executed: [None] when [float] fails on its lease. *)
Definition executable (envelope : jobj) (now : Z) : option bool :=
  let status := text_or (envelope !! "status") "" in
  if String.eqb status "pending" then Some true
  else if String.eqb status "processing" then
    if py_truth (envelope !! "cancel_requested") then Some false
    else match envelope !! "lease_expiry" with
         | None | Some VNull => Some true
         | Some (VNum n) => Some (n <? now)%Z
         | Some (VBool b) => Some ((if b then 1 else 0) <? now)%Z
         | Some (VStr s) => option_map (fun n => n <? now)%Z (py_int s)
         end
  else Some false.
Definition recover_job (envelope : jobj) (now : Z) (m : JobManager) : (jexn + option string) * JobManager :=
  match envelope_job envelope with
  | None => (inr None, m)
  | Some j =>
      match executable envelope now with
      | None => (inl (QueueError (ValueError "could not convert string to float")), m)
      | Some false => (inr None, m)
      | Some true =>
          match _jobs m !! j_id j with
          | Some _ => (inr None, m)
          | None => match acquire_operation_lease (j_session j) m with
                    | None => (inr None, m)
                    | Some m1 => (inr (Some (j_id j)), register j m1)
                    end
          end
      end
  end.
(** Startup (app/main.py): reconcile, list, and schedule what can be.  [net 0], [net 1] and
    [net 2] are the fates of the scans, [net (3 + i)] that of the reading of envelope [i]. *)
Fixpoint recover_all (net : nat -> fate) (i : nat) (now : Z) (ids : list string) (recovered : nat)
    (s : state) : (jexn + nat) * state :=
  match ids with
  | [] => (inr recovered, s)
  | job_id :: r =>
      let '(m, d) := s in
      match recover_durable_job (cf_connected cf) (net (3 + i)%nat) job_id d with
      | None => recover_all net (S i) now r recovered s
      | Some envelope =>
          match recover_job envelope now m with
          | (inl e, m') => (inl e, (m', d))
          | (inr (Some _), m') => recover_all net (S i) now r (S recovered) (m', d)
          | (inr None, m') => recover_all net (S i) now r recovered (m', d)
          end
      end
  end.
Definition _recover_durable_jobs (net : nat -> fate) (now : Z) (s : state) : (jexn + nat) * state :=
  if negb (cf_queue cf && cf_connected cf) then (inr 0%nat, s)
  else
    let '(m, d) := s in
    let '(_, d1) := reconcile_expired_cancelled_processing true (net 0%nat) now d in
    let '(ids, d2) := list_recoverable_durable_jobs true (net 1%nat) (net 2%nat) now d1 in
    recover_all net 0 now ids 0 (m, d2).

(** ** Cancellation and cleanup *)
Definition update_job (ref : nat) (f : JobRecord -> JobRecord) (m : JobManager) : JobManager :=
  mkManager (_jobs m) (alter (fun c => mkCell (f (c_job c)) (c_phase c) (c_beating c)) ref (cells m))
    (_session_leases m) (operations m).
Definition cancel_job (net : fate) (job_id : string) (now : Z) (s : state) : (jexn + string) * state :=
  let '(m, d) := s in
  match _jobs m !! job_id with
  | None => (inl (SessionNotFoundError ("Job " +s+ job_id +s+ " not found")), s)
  | Some ref =>
      match job_at m ref with
      | None => (inl (SessionNotFoundError ("Job " +s+ job_id +s+ " not found")), s)
      | Some job =>
          if negb (ACTIVE_STATES (j_status job))
          then (inl (ExecutionError ("Cannot cancel job with status: " +s+ status_value (j_status job))), s)
          else
            let stop := fun j => set_done (Some now) (set_status cancelled (set_cancel j)) in
            let locally d' :=
              if bool_decide (j_status job = pending)
              then (inr "cancelled", (update_job ref stop m, d'))
              else (inr "cancelling", (update_job ref (fun j => set_status cancelling (set_cancel j)) m, d')) in
            if j_durable job then
              if negb (cf_queue cf) then (inl (QueueError SubmissionUnavailableError), s)
              else match request_durable_cancellation (cf_connected cf) net job_id now d with
                   | (inl e, d') => (inl (QueueError e), (m, d'))
                   | (inr status, d') =>
                       if bool_decide (status = Some "cancelled")
                       then (inr "cancelled", (update_job ref stop m, d'))
                       else if bool_decide (status = Some "cancelling") then locally d'
                       else (inl (ExecutionError "Durable job is no longer cancellable"), (m, d'))
                   end
            else locally d
      end
  end.
(** [completed_at] is there, is not zero, and is older than an hour. *)
Definition outdated (now : Z) (j : JobRecord) : bool :=
  match j_completed_at j with Some t => negb (t =? 0)%Z && (t <? now - 3600)%Z | None => false end.
Definition removable (now : Z) (m : JobManager) (ref : nat) : bool :=
  match job_at m ref with Some j => outdated now j | None => false end.
Definition cleanup_old_jobs (now : Z) (m : JobManager) : JobManager :=
  mkManager (filter (fun x => removable now m (snd x) = false) (_jobs m)) (cells m)
    (_session_leases m) (operations m).

(** ** The task of a job ([_run_job]) *)
Definition worker_durable (j : JobRecord) : bool := j_durable j && cf_queue cf && cf_connected cf.
Definition report_of (j : JobRecord) : report :=
  mkReport (status_value (j_status j)) (j_stdout j) (j_stderr j) (j_exit_code j) (j_error j).
(** Best effort: a lost reply ends it between its two writes. *)
Definition _persist_terminal_job (net : fate) (now : Z) (j : JobRecord) (d : db) : db :=
  if negb (cf_queue cf) || negb (TERMINAL_STATES (j_status j)) || negb (cf_connected cf) then d
  else match net with
       | Delivered => save_terminal_job true (j_id j) (j_session j) (j_command j) (j_owner j)
                        (report_of j) (j_redact j) now d
       | ReplyLost => save_snapshot (j_id j) (j_session j) (j_command j) (j_owner j)
                        (report_of j) (j_redact j) now d
       | Unreachable => d
       end.
Definition DURABLE_LEASE_TTL_SECONDS : Z := 60.
Definition move (ref : nat) (j : JobRecord) (p : phase) (beating : bool) (m : JobManager) : JobManager :=
  set_cell ref (mkCell j p beating) m.
Definition begin (ref : nat) (j : JobRecord) (token : option string) (m : JobManager) : JobManager :=
  move ref (set_attempt j) (Started token) true m.

(** The first step; [token] is the worker token it draws.  (A task finds its record in the
    table; a table that has none, or another, ends it.) *)
Definition run_start (net : fate) (token : string) (now : Z) (ref : nat) (s : state) : state :=
  let '(m, d) := s in
  match cells m !! ref with
  | Some (mkCell j New _) =>
      if negb (bool_decide (_jobs m !! j_id j = Some ref)) then (end_task ref j m, d)
      else if j_cancel j then
        let j := set_done (match j_completed_at j with Some t => Some t | None => Some now end)
                   (set_status cancelled j) in
        (end_task ref j m, if j_durable j then d else _persist_terminal_job net now j d)
      else if worker_durable j then
        match claim_durable_execution true net (j_id j) token DURABLE_LEASE_TTL_SECONDS now d with
        | (inl _, d') => (end_task ref j m, d')               (* raised out of the task *)
        | (inr false, d') =>
            (end_task ref (set_done (j_completed_at j) j)
               (mkManager (delete (j_id j) (_jobs m)) (cells m) (_session_leases m) (operations m)), d')
        | (inr true, d') => (move ref j (Claimed token) false m, d')
        end
      else (begin ref j None m, d)
  | _ => s
  end.
Definition run_check (net : fate) (now : Z) (ref : nat) (s : state) : state :=
  let '(m, d) := s in
  match cells m !! ref with
  | Some (mkCell j (Claimed token) _) =>
      match is_durable_cancellation_requested true net (j_id j) token d with
      | (true, d') =>
          (move ref (set_done (Some now) (set_result (Some (-1)%Z) (j_error j)
             (set_status cancelled (set_cancel j)))) (Aborting token) false m, d')
      | (false, d') => (begin ref j (Some token) m, d')
      end
  | _ => s
  end.
Definition run_abort (net : nat -> fate) (now : Z) (ref : nat) (s : state) : state :=
  let '(m, d) := s in
  match cells m !! ref with
  | Some (mkCell j (Aborting token) _) =>
      let '(r, d') := finish_durable_execution true net (j_id j) token
                        (mkReport "cancelled" "" "" (Some (-1)%Z) None) now d in
      (end_task ref (set_persisted (match r with inr b => b | inl _ => false end) j) m, d')
  | _ => s
  end.
(** [policy] is [evaluate_command_policy] with the settings: a denial and its reason. *)
Definition run_policy (policy : string -> bool * string) (now : Z) (ref : nat) (m : JobManager) : JobManager :=
  match cells m !! ref with
  | Some (mkCell j (Started token) b) =>
      let '(allowed, reason) := policy (j_command j) in
      if allowed then move ref j (Streaming token) b m
      else move ref (set_done (Some now) (set_result (j_exit_code j) (Some ("Command denied by policy: " +s+ reason))
                      (set_status failed j))) (Leaving token) b m
  | _ => m
  end.
Definition run_chunk (c : chunk) (ref : nat) (m : JobManager) : JobManager :=
  match cells m !! ref with
  | Some (mkCell j (Streaming token) b) => move ref (take_chunk c j) (Streaming token) b m
  | _ => m
  end.
Definition run_ended (raised : option string) (ref : nat) (m : JobManager) : JobManager :=
  match cells m !! ref with
  | Some (mkCell j (Streaming token) b) => move ref (stream_ended raised j) (Leaving token) b m
  | _ => m
  end.
(** The [finally] block *)
Definition run_leave (net : nat -> fate) (now : Z) (ref : nat) (s : state) : state :=
  let '(m, d) := s in
  match cells m !! ref with
  | Some (mkCell j (Leaving token) _) =>
      let '(j, d') :=
        if TERMINAL_STATES (j_status j) then
          match token with
          | Some token =>
              let '(r, d') := finish_durable_execution true net (j_id j) token (report_of j) now d in
              (set_done (Some now) (set_persisted (match r with inr b => b | inl _ => false end) j), d')
          | None => (set_done (Some now) j, _persist_terminal_job (net 0%nat) now j d)
          end
        else (j, d) in
      (end_task ref j m, d')
  | _ => s
  end.
(** A tick of the heartbeat of a durable execution; [net2] is the fate of its second question. *)
Definition run_beat (net1 net2 : fate) (now : Z) (ref : nat) (s : state) : state :=
  let '(m, d) := s in
  let beat j token p :=
    match heartbeat_durable_execution true net1 (j_id j) token DURABLE_LEASE_TTL_SECONDS now d with
    | (false, d') => (move ref (set_cancel j) p false m, d')
    | (true, d') =>
        let '(asked, d'') := is_durable_cancellation_requested true net2 (j_id j) token d' in
        (move ref (if asked then set_cancel j else j) p true m, d'')
    end in
  match cells m !! ref with
  | Some (mkCell j (Started (Some token)) true) => beat j token (Started (Some token))
  | Some (mkCell j (Streaming (Some token)) true) => beat j token (Streaming (Some token))
  | _ => s
  end.
(** What a cancellation of the task does: a task that never started does not release its lease. *)
Definition run_cancelled (ref : nat) (m : JobManager) : JobManager :=
  match cells m !! ref with
  | Some (mkCell j p b) =>
      match p with
      | New => move ref j Ended false m
      | Claimed _ | Aborting _ | Leaving _ => end_task ref j m
      | Started token | Streaming token => move ref j (Leaving token) b m
      | Ended => m
      end
  | None => m
  end.

(** ** Forced shutdown *)
Definition forced (now : Z) (j : JobRecord) : JobRecord :=
  let j := set_cancel j in
  match j_status j with
  | pending => set_done (match j_completed_at j with Some t => Some t | None => Some now end) (set_status cancelled j)
  | running | cancelling => set_status cancelling j
  | _ => j
  end.
(** [joined] are the steps of the cancelled tasks until they are joined, or given up. *)
Definition force_cleanup (net : nat -> fate) (now : Z) (joined : state -> state) (s : state) : state :=
  let '(m, d) := s in
  let refs := map snd (map_to_list (_jobs m)) in
  let m1 := fold_left (fun m ref => update_job ref (forced now) m) refs m in
  let proven := List.filter (fun j => TERMINAL_STATES (j_status j)) (omap (job_at m1) refs) in
  let '(m2, d2) := joined (mkManager ∅ (cells m1) (_session_leases m1) (operations m1), d) in
  let m3 := fold_left (fun m x => _release_job_session_lease (fst x) m) (map_to_list (_jobs m)) m2 in
  (m3, snd (fold_left (fun x j => (S (fst x), _persist_terminal_job (net (fst x)) now j (snd x))) proven (0%nat, d2))).

(** ** What the process remembers of submissions *)
Definition resolve_submission_claim_in_memory (submission_key : string) (family : bool) (m : JobManager)
    : qexn + option (string * string * string) :=
  if String.eqb submission_key "" then inr None
  else if family && (negb (startswith "task:" submission_key) || negb (endswith ":attempt:" submission_key))
  then inr None
  else
    (fix go (match_ : option (string * string * string)) (jobs : list JobRecord) :=
       match jobs with
       | [] => inr match_
       | j :: r =>
           match keyed (j_key j) with
           | None => go match_ r
           | Some key =>
               let wanted := if family then startswith submission_key key else String.eqb key submission_key in
               let attempt := drop (slen submission_key) key in
               if negb wanted then go match_ r
               else if family && (negb (slen attempt =? 32)%nat || negb (all_of lower_hex attempt))
               then inl SubmissionUnavailableError
               else
                 let candidate := (j_id j, j_owner j,
                                   _submission_payload_hash (j_session j) (j_command j) (j_stdin j) (j_timeout j)) in
                 if bool_decide (match_ = None \/ match_ = Some candidate) then go (Some candidate) r
                 else inl SubmissionUnavailableError
           end
       end) None (table m).
End Manager.

(** ** Facts on the job manager: its table, its tasks and the sessions they pin *)
(** ** Who pins what *)
Definition live (c : cell) : bool := match c_phase c with Ended => false | _ => true end.
Definition pins_session (s : string) (c : cell) : bool := live c && String.eqb (j_session (c_job c)) s.
Definition pins (s : string) (l : list cell) : Z := Z.of_nat (length (List.filter (pins_session s) l)).

Lemma pins_app s l1 l2 : pins s (l1 ++ l2) = (pins s l1 + pins s l2)%Z.
Proof. unfold pins. rewrite List.filter_app, length_app. lia. Qed.
Definition pin1 (s : string) (c : cell) : Z := if pins_session s c then 1 else 0.
Lemma pins_insert s l ref c c' : l !! ref = Some c ->
  pins s (<[ref := c']> l) = (pins s l - pin1 s c + pin1 s c')%Z.
Proof.
  intros H. pose proof (lookup_lt_Some _ _ _ H). rewrite insert_take_drop by done.
  rewrite <- (take_drop_middle l ref c H) at 3. rewrite !pins_app. unfold pin1, pins. simpl.
  destruct (pins_session s c), (pins_session s c'); simpl; lia.
Qed.
Lemma pins_nonneg s l : (0 <= pins s l)%Z.
Proof. unfold pins. lia. Qed.

(** What is true of a manager between two steps: a task that lives is in the table under its
    id and holds a lease on its session; the table holds jobs under their own ids; a session
    counts the tasks that pin it. *)
Record sound (m : JobManager) : Prop := {
  sd_live : forall ref c, cells m !! ref = Some c -> live c = true ->
    _jobs m !! j_id (c_job c) = Some ref;
  sd_lease : forall id s, _session_leases m !! id = Some s <->
    exists ref c, cells m !! ref = Some c /\ live c = true /\ j_id (c_job c) = id /\
      j_session (c_job c) = s;
  sd_named : forall id ref, _jobs m !! id = Some ref ->
    exists c, cells m !! ref = Some c /\ j_id (c_job c) = id;
  sd_known : forall id s, _session_leases m !! id = Some s -> operations m !! s <> None;
  sd_count : forall s n, operations m !! s = Some n -> n = pins s (cells m) }.

(** The same job, further on *)
Definition same_task (c c' : cell) : Prop :=
  j_id (c_job c') = j_id (c_job c) /\ j_session (c_job c') = j_session (c_job c) /\ live c' = live c.
Lemma sound_set_cell m ref c c' : sound m -> cells m !! ref = Some c -> same_task c c' ->
  sound (set_cell ref c' m).
Proof.
  intros Hm Hc (Hid & Hses & Hlive).
  assert (Hin : forall r x', cells (set_cell ref c' m) !! r = Some x' ->
    exists x, cells m !! r = Some x /\ same_task x x').
  { intros r x' Hr. simpl in Hr. destruct (decide (r = ref)) as [-> | Hne].
    - rewrite list_lookup_insert_eq in Hr by (by eapply lookup_lt_Some). injection Hr as <-.
      by exists c.
    - rewrite list_lookup_insert_ne in Hr by done. by exists x'. }
  assert (Hout : forall r x, cells m !! r = Some x ->
    exists x', cells (set_cell ref c' m) !! r = Some x' /\ same_task x x').
  { intros r x Hr. simpl. destruct (decide (r = ref)) as [-> | Hne].
    - exists c'. rewrite list_lookup_insert_eq by (by eapply lookup_lt_Some).
      rewrite Hc in Hr. by injection Hr as <-.
    - exists x. by rewrite list_lookup_insert_ne. }
  split; simpl.
  - intros r x' Hr Hl. destruct (Hin r x' Hr) as (x & Hx & Hi & _ & Hlx). rewrite Hi.
    apply (sd_live m Hm r x Hx). congruence.
  - intros id s. rewrite (sd_lease m Hm). split.
    + intros (r & x & Hx & Hl & Hi & Hs). destruct (Hout r x Hx) as (x' & Hx' & Hi' & Hs' & Hl').
      exists r, x'. simpl in Hx'. split; [done |]. split; [congruence |]. split; congruence.
    + intros (r & x' & Hx' & Hl & Hi & Hs). destruct (Hin r x' Hx') as (x & Hx & Hi' & Hs' & Hl').
      exists r, x. split; [done |]. split; [congruence |]. split; congruence.
  - intros id r Hr. destruct (sd_named m Hm id r Hr) as (x & Hx & Hi).
    destruct (Hout r x Hx) as (x' & Hx' & Hi' & _). exists x'. simpl in Hx'. split; congruence.
  - apply (sd_known m Hm).
  - intros s n Hn. rewrite (pins_insert s _ ref c c' Hc), (sd_count m Hm s n Hn). unfold pin1, pins_session.
    rewrite Hlive, Hses. lia.
Qed.
Lemma sound_move m ref c j p b : sound m -> cells m !! ref = Some c -> live c = true ->
  j_id j = j_id (c_job c) -> j_session j = j_session (c_job c) -> p <> Ended ->
  sound (move ref j p b m).
Proof.
  intros Hm Hc Hl Hi Hs Hp. apply (sound_set_cell m ref c); [done | done |].
  split; [done |]. split; [done |]. rewrite Hl. unfold live. simpl. by destruct p.
Qed.
Lemma sound_update m ref f : sound m ->
  (forall j, j_id (f j) = j_id j /\ j_session (f j) = j_session j) -> sound (update_job ref f m).
Proof.
  intros Hm Hf. destruct (cells m !! ref) as [c|] eqn:Hc.
  - replace (update_job ref f m) with (set_cell ref (mkCell (f (c_job c)) (c_phase c) (c_beating c)) m).
    + apply (sound_set_cell m ref c); [done | done |]. destruct (Hf (c_job c)). by split.
    + unfold update_job, set_cell. f_equal. by apply list_eq; intros i;
        destruct (decide (i = ref)) as [-> | Hne];
        [rewrite list_lookup_insert_eq by (by eapply lookup_lt_Some); rewrite list_lookup_alter_eq, Hc
        | rewrite list_lookup_insert_ne, list_lookup_alter_ne by done].
  - replace (update_job ref f m) with m; [done |]. destruct m as [a l b o]. unfold update_job. simpl in *.
    f_equal. apply list_eq. intros i. destruct (decide (i = ref)) as [-> | Hne];
      [by rewrite list_lookup_alter_eq, Hc | by rewrite list_lookup_alter_ne].
Qed.

Lemma same_id_same_task m r1 r2 c1 c2 : sound m -> cells m !! r1 = Some c1 -> live c1 = true ->
  cells m !! r2 = Some c2 -> live c2 = true -> j_id (c_job c1) = j_id (c_job c2) -> r1 = r2.
Proof.
  intros Hm H1 L1 H2 L2 He. pose proof (sd_live m Hm r1 c1 H1 L1) as E1.
  pose proof (sd_live m Hm r2 c2 H2 L2) as E2. congruence.
Qed.
Lemma pin1_self c : live c = true -> pin1 (j_session (c_job c)) c = 1%Z.
Proof. intros H. unfold pin1, pins_session. by rewrite H, String.eqb_refl. Qed.
Lemma pin1_other s c : s <> j_session (c_job c) -> pin1 s c = 0%Z.
Proof.
  intros H. unfold pin1, pins_session. destruct (String.eqb_spec (j_session (c_job c)) s); [congruence |].
  by rewrite andb_false_r.
Qed.
Lemma pins_pos l ref c : l !! ref = Some c -> live c = true -> (1 <= pins (j_session (c_job c)) l)%Z.
Proof.
  intros H Hl. rewrite <- (take_drop_middle l ref c H), pins_app.
  pose proof (pins_nonneg (j_session (c_job c)) (List.firstn ref l)).
  assert (H2 : (1 <= pins (j_session (c_job c)) (c :: skipn (S ref) l))%Z).
  { unfold pins. simpl. unfold pins_session at 1. rewrite Hl, String.eqb_refl. simpl. lia. }
  lia.
Qed.

(** A task ends: its lease goes. *)
Lemma sound_end m ref c j : sound m -> cells m !! ref = Some c -> live c = true ->
  j_id j = j_id (c_job c) -> j_session j = j_session (c_job c) -> sound (end_task ref j m).
Proof.
  intros Hm Hc Hl Hi Hs.
  assert (Hlease : _session_leases m !! j_id j = Some (j_session j)).
  { apply (sd_lease m Hm). exists ref, c. by rewrite Hi, Hs. }
  unfold end_task, _release_job_session_lease. cbn [set_cell _session_leases]. rewrite Hlease.
  unfold release_operation_lease. cbn [_jobs cells _session_leases operations set_cell].
  assert (Hin : forall r x, <[ref := mkCell j Ended false]> (cells m) !! r = Some x -> live x = true ->
    r <> ref /\ cells m !! r = Some x).
  { intros r x Hr Hx. destruct (decide (r = ref)) as [-> | Hne].
    - rewrite list_lookup_insert_eq in Hr by (by eapply lookup_lt_Some). by injection Hr as <-.
    - by rewrite list_lookup_insert_ne in Hr. }
  split; cbn [_jobs cells _session_leases operations].
  - intros r x Hr Hx. destruct (Hin r x Hr Hx) as [_ Hr']. by apply (sd_live m Hm).
  - intros id s. destruct (decide (id = j_id j)) as [-> | Hne].
    + rewrite lookup_delete_eq. split; [done |]. intros (r & x & Hr & Hx & Hid & _).
      destruct (Hin r x Hr Hx) as [Hne Hr']. destruct Hne.
      apply (same_id_same_task m r ref x c Hm Hr' Hx Hc Hl). congruence.
    + rewrite lookup_delete_ne by done. rewrite (sd_lease m Hm). split.
      * intros (r & x & Hr & Hx & Hid & Hse). exists r, x. split; [| done].
        rewrite list_lookup_insert_ne; [done |]. intros ->. apply Hne. congruence.
      * intros (r & x & Hr & Hx & Hid & Hse). destruct (Hin r x Hr Hx) as [_ Hr']. by exists r, x.
  - intros id r Hr. destruct (sd_named m Hm id r Hr) as (x & Hx & Hid).
    destruct (decide (r = ref)) as [-> | Hne].
    + exists (mkCell j Ended false). rewrite list_lookup_insert_eq by (by eapply lookup_lt_Some).
      split; [done |]. simpl. congruence.
    + exists x. by rewrite list_lookup_insert_ne.
  - intros id s Hd. apply lookup_delete_Some in Hd as [_ Hd]. pose proof (sd_known m Hm id s Hd) as Hk.
    destruct (decide (s = j_session j)) as [-> | Hne].
    + rewrite lookup_alter_eq. by destruct (operations m !! j_session j).
    + by rewrite lookup_alter_ne.
  - intros s n Hn. rewrite (pins_insert s _ ref c _ Hc).
    assert (Hnew : pin1 s (mkCell j Ended false) = 0%Z) by done. rewrite Hnew.
    destruct (decide (s = j_session j)) as [-> | Hne].
    + rewrite lookup_alter_eq in Hn. destruct (operations m !! j_session j) as [k|] eqn:Ek; [| done].
      simpl in Hn. injection Hn as <-. rewrite (sd_count m Hm _ k Ek), Hs, (pin1_self c Hl).
      pose proof (pins_pos _ ref c Hc Hl). lia.
    + rewrite lookup_alter_ne in Hn by done. rewrite (sd_count m Hm s n Hn), (pin1_other s c); [lia | congruence].
Qed.

(** A job is accepted under an id the table does not hold. *)
Lemma sound_register m m1 j : sound m -> acquire_operation_lease (j_session j) m = Some m1 ->
  _jobs m !! j_id j = None -> sound (register j m1).
Proof.
  intros Hm Ha Hfresh. unfold acquire_operation_lease in Ha.
  destruct (operations m !! j_session j) as [k|] eqn:Ek; [| done]. injection Ha as <-.
  set (c0 := mkCell j New false).
  assert (Hin : forall r x, (cells m ++ [c0]) !! r = Some x ->
    cells m !! r = Some x \/ (r = length (cells m) /\ x = c0)).
  { intros r x Hr. apply lookup_app_Some in Hr as [Hr | [Hle Hr]]; [by left | right].
    apply list_lookup_singleton_Some in Hr as [Hr ->]. split; [lia | done]. }
  assert (Hnew : (cells m ++ [c0]) !! length (cells m) = Some c0) by (by apply list_lookup_middle).
  assert (Hother : forall r x, cells m !! r = Some x -> live x = true -> j_id (c_job x) <> j_id j).
  { intros r x Hr Hx He. pose proof (sd_live m Hm r x Hr Hx). congruence. }
  unfold register. split; cbn [_jobs cells _session_leases operations].
  - intros r x Hr Hx. destruct (Hin r x Hr) as [Hr' | [-> ->]].
    + rewrite lookup_insert_ne by (apply not_eq_sym; by apply (Hother r)). by apply (sd_live m Hm).
    + simpl. apply lookup_insert_eq.
  - intros id s. destruct (decide (id = j_id j)) as [-> | Hne].
    + rewrite lookup_insert_eq. split.
      * intros [= <-]. by exists (length (cells m)), c0.
      * intros (r & x & Hr & Hx & Hid & Hse). destruct (Hin r x Hr) as [Hr' | [-> ->]]; [| by rewrite <- Hse].
        by destruct (Hother r x Hr' Hx).
    + rewrite lookup_insert_ne by done. rewrite (sd_lease m Hm). split.
      * intros (r & x & Hr & Hrest). exists r, x. split; [by apply lookup_app_l_Some | done].
      * intros (r & x & Hr & Hx & Hid & Hse). destruct (Hin r x Hr) as [Hr' | [-> ->]]; [by exists r, x |].
        by destruct Hne.
  - intros id r Hr. destruct (decide (id = j_id j)) as [-> | Hne].
    + rewrite lookup_insert_eq in Hr. injection Hr as <-. by exists c0.
    + rewrite lookup_insert_ne in Hr by done. destruct (sd_named m Hm id r Hr) as (x & Hx & Hid).
      exists x. split; [by apply lookup_app_l_Some | done].
  - intros id s Hid. destruct (decide (s = j_session j)) as [-> | Hs]; [by rewrite lookup_insert_eq |].
    rewrite lookup_insert_ne by done. destruct (decide (id = j_id j)) as [-> | Hne].
    + rewrite lookup_insert_eq in Hid. congruence.
    + rewrite lookup_insert_ne in Hid by done. by apply (sd_known m Hm id).
  - intros s n Hn. rewrite pins_app. destruct (decide (s = j_session j)) as [-> | Hs].
    + rewrite lookup_insert_eq in Hn. injection Hn as <-. rewrite (sd_count m Hm _ k Ek).
      unfold pins at 3. simpl. unfold pins_session. simpl. rewrite String.eqb_refl. simpl. lia.
    + rewrite lookup_insert_ne in Hn by done. rewrite (sd_count m Hm s n Hn).
      unfold pins at 3. simpl. unfold pins_session. simpl.
      destruct (String.eqb_spec (j_session j) s); [congruence |]. simpl. lia.
Qed.

(** The table may forget jobs whose tasks ended. *)
Lemma sound_forget m jobs : sound m -> jobs ⊆ _jobs m ->
  (forall ref c, cells m !! ref = Some c -> live c = true -> jobs !! j_id (c_job c) = Some ref) ->
  sound (mkManager jobs (cells m) (_session_leases m) (operations m)).
Proof.
  intros Hm Hsub Hlive. split; cbn [_jobs cells _session_leases operations].
  - exact Hlive.
  - apply (sd_lease m Hm).
  - intros id ref Hr. apply (sd_named m Hm). by apply (lookup_weaken jobs).
  - apply (sd_known m Hm).
  - apply (sd_count m Hm).
Qed.
(** A lease taken and given back leaves things as they were. *)
Lemma acquire_release m m1 s : sound m -> acquire_operation_lease s m = Some m1 ->
  release_operation_lease s m1 = m.
Proof.
  intros Hm Ha. unfold acquire_operation_lease in Ha. destruct (operations m !! s) as [n|] eqn:E; [| done].
  injection Ha as <-. unfold release_operation_lease. cbn [_jobs cells _session_leases operations].
  pose proof (sd_count m Hm s n E). pose proof (pins_nonneg s (cells m)).
  destruct m as [a l b o]. simpl in *. f_equal. apply map_eq. intros k.
  destruct (decide (k = s)) as [-> | Hne].
  - rewrite lookup_alter_eq, lookup_insert_eq, E. simpl. f_equal. lia.
  - by rewrite lookup_alter_ne, lookup_insert_ne.
Qed.

(** ** The count of active jobs *)
Lemma table_register j m : sound m -> _jobs m !! j_id j = None ->
  table (register j m) ≡ₚ j :: table m.
Proof.
  intros Hm Hf. unfold table, register. cbn [_jobs cells]. rewrite map_to_list_insert by done. cbn [omap list_omap].
  assert (Hj : job_at (register j m) (length (cells m)) = Some j).
  { unfold job_at, register. cbn [cells].
    assert ((cells m ++ [mkCell j New false]) !! length (cells m) = Some (mkCell j New false)) as -> by
      (by apply list_lookup_middle). done. }
  unfold register in Hj. cbn [snd]. rewrite Hj. apply Permutation_cons; [done |].
  assert (Hall : forall x, In x (map_to_list (_jobs m)) ->
    job_at (register j m) (snd x) = job_at m (snd x)).
  { intros [id ref] Hin. apply list_elem_of_In, elem_of_map_to_list in Hin.
    destruct (sd_named m Hm id ref Hin) as (c & Hc & _). unfold job_at, register. cbn [cells snd].
    by rewrite (lookup_app_l_Some _ _ _ _ Hc), Hc. }
  unfold register in Hall. apply Permutation_refl'.
  induction (map_to_list (_jobs m)) as [|x l IH]; [done |]. cbn [list_omap omap].
  rewrite (Hall x (or_introl eq_refl)). specialize (IH (fun y Hy => Hall y (or_intror Hy))).
  cbn [omap] in IH. by rewrite IH.
Qed.
Lemma filter_perm {A} (p : A -> bool) l1 l2 : l1 ≡ₚ l2 ->
  length (List.filter p l1) = length (List.filter p l2).
Proof. induction 1; simpl; repeat case_match; simpl; congruence. Qed.
Lemma active_register j m m1 : sound m -> acquire_operation_lease (j_session j) m = Some m1 ->
  _jobs m !! j_id j = None -> ACTIVE_STATES (j_status j) = true ->
  active_jobs (register j m1) = (active_jobs m + 1)%Z.
Proof.
  intros Hm Ha Hf Hs. unfold active_jobs. unfold acquire_operation_lease in Ha.
  destruct (operations m !! j_session j); [| done]. injection Ha as <-.
  pose proof (filter_perm (fun j => ACTIVE_STATES (j_status j)) _ _ (table_register j m Hm Hf)) as H.
  simpl in H. rewrite Hs in H. simpl in H. unfold register, table, job_at in *. cbn [_jobs cells] in *.
  rewrite H. lia.
Qed.
