(* ===== verification/FileSystem.v ===== *)
(** * The file system under the workspaces, as the workspace tools see it

    A tree of files, directories and symbolic links; path resolution as the kernel does it
    ([walk]) and as [Path.resolve] does it ([realpath]).  A path is the list of its component
    names, from the root of the file system; the root itself is [[]].  Permissions, hard
    links and other processes are left out. *)
From stdpp Require Import gmap.
From S2P Require Import Prelude PyStr.
From stdpp Require Import options.

Abbreviation path := (list string).
Inductive fnode : Type := NFile (content : string) | NDir | NLink (target : string).
#[global] Instance fnode_eq_dec : EqDecision fnode.
Proof. solve_decision. Defined.
Abbreviation fs := (gmap path fnode).

Definition node_at (f : fs) (p : path) : option fnode :=
  match p with [] => Some NDir | _ => f !! p end.

Inductive errno : Type := ENOENT | ENOTDIR | ELOOP | EEXIST | EISDIR | EIO.

(** ** Resolution *)
Definition is_dot (name : string) : bool := String.eqb name "" || String.eqb name ".".
(** Where a link found in directory [cur] starts from *)
Definition link_start (cur : path) (target : string) : path :=
  if startswith "/" target then [] else cur.

(** The kernel's: every component must exist, all but the last must be directories, and at
    most [links] links are followed. *)
Fixpoint walk (f : fs) (links : nat) : path -> list string -> errno + path :=
  fix go (cur : path) (rest : list string) {struct rest} : errno + path :=
    match rest with
    | [] => inr cur
    | name :: r =>
        match node_at f cur with
        | Some NDir =>
            if is_dot name then go cur r
            else if String.eqb name ".." then go (removelast cur) r
            else
              match f !! (cur ++ [name]) with
              | None => inl ENOENT
              | Some (NLink t) =>
                  match links with
                  | O => inl ELOOP
                  | S l => walk f l (link_start cur t) (split_on "/" t ++ r)
                  end
              | Some _ => go (cur ++ [name]) r
              end
        | _ => inl ENOTDIR
        end
    end.

(** Python's [os.path.realpath(strict=False)]: a missing component is kept as it is; [None] is
    a chain of links longer than [links], a loop among them. *)
Fixpoint realpath (f : fs) (links : nat) : path -> list string -> option path :=
  fix go (cur : path) (rest : list string) {struct rest} : option path :=
    match rest with
    | [] => Some cur
    | name :: r =>
        if is_dot name then go cur r
        else if String.eqb name ".." then go (removelast cur) r
        else
          match f !! (cur ++ [name]) with
          | Some (NLink t) =>
              match links with
              | O => None
              | S l => realpath f l (link_start cur t) (split_on "/" t ++ r)
              end
          | _ => go (cur ++ [name]) r
          end
    end.

(** Linux follows at most 40 links in one resolution. *)
Definition MAXSYMLINKS : nat := 40.
Definition find_path (f : fs) (p : path) : errno + path := walk f MAXSYMLINKS [] p.
Definition resolve (f : fs) (p : path) : option path := realpath f MAXSYMLINKS [] p.

(** ** [os.stat], [os.lstat] and the predicates of [pathlib.Path] *)
Definition stat (f : fs) (p : path) : errno + fnode :=
  match find_path f p with
  | inl e => inl e
  | inr q => match node_at f q with Some n => inr n | None => inl ENOENT end
  end.

(** The directory entry a path with an ordinary last name stands for: its real directory with
    the name *)
Definition entry_of (f : fs) (p : path) : errno + path :=
  match find_path f (removelast p) with
  | inl e => inl e
  | inr d => match node_at f d with
             | Some NDir => inr (d ++ [List.last p ""])
             | _ => inl ENOTDIR
             end
  end.
Definition lstat (f : fs) (p : path) : errno + fnode :=
  match p with
  | [] => inr NDir
  | _ => match entry_of f p with
         | inl e => inl e
         | inr q => match f !! q with Some n => inr n | None => inl ENOENT end
         end
  end.

Definition exists_ (f : fs) (p : path) : bool :=
  match stat f p with inr _ => true | inl _ => false end.
Definition is_dir (f : fs) (p : path) : bool :=
  match stat f p with inr NDir => true | _ => false end.
Definition is_symlink (f : fs) (p : path) : bool :=
  match lstat f p with inr (NLink _) => true | _ => false end.

(** ** Operations *)

(** [Path.read_bytes] *)
Definition read_bytes (f : fs) (p : path) : errno + string :=
  match stat f p with
  | inl e => inl e
  | inr (NFile c) => inr c
  | inr _ => inl EISDIR
  end.

(** A new entry at [p]: [os.mkdir], [os.open] with [O_CREAT | O_EXCL] *)
Definition create (f : fs) (p : path) (n : fnode) : errno + fs :=
  match entry_of f p with
  | inl e => inl e
  | inr q => match node_at f q with None => inr (<[q := n]> f) | Some _ => inl EEXIST end
  end.

(** [Path.unlink]: the entry itself, never what it links to *)
Definition unlink (f : fs) (p : path) : errno + fs :=
  match entry_of f p with
  | inl e => inl e
  | inr q => match node_at f q with
             | None => inl ENOENT
             | Some NDir => inl EISDIR
             | Some _ => inr (delete q f)
             end
  end.

(** [os.replace] of a file: the entry [dst] is the file afterwards, whatever it was, unless it
    was a directory. *)
Definition replace_file (f : fs) (src dst : path) : errno + fs :=
  match entry_of f src, entry_of f dst with
  | inr s, inr d =>
      match node_at f s, node_at f d with
      | None, _ => inl ENOENT
      | Some _, Some NDir => inl EISDIR
      | Some n, _ => inr (<[d := n]> (delete s f))
      end
  | inl e, _ => inl e
  | _, inl e => inl e
  end.

(** ** Paths *)
Definition ordinary (name : string) : bool := negb (is_dot name) && negb (String.eqb name "..").
(** [Path(text).parts] of a relative path *)
Definition parts (text : string) : list string :=
  List.filter (fun n => negb (is_dot n)) (split_on "/" text).
(** [p.relative_to(root)] *)
Fixpoint relative_to (p root : path) : option (list string) :=
  match root, p with
  | [], _ => Some p
  | r :: root', x :: p' => if String.eqb r x then relative_to p' root' else None
  | _ :: _, [] => None
  end.
Definition path_str (p : path) : string := "/" +s+ join "/" p.

Lemma relative_to_spec p root r : relative_to p root = Some r <-> p = root ++ r.
Proof.
  revert p. induction root as [|x root IH]; intros p; simpl.
  { destruct p; (split; [by intros [= <-] | by intros <-]). }
  destruct p as [|y p]; [done |]. cbn [relative_to app]. destruct (String.eqb_spec x y) as [-> | Hn].
  - rewrite IH. split; [by intros -> | by intros [= ->]].
  - split; [done | by intros [= -> _]].
Qed.

(** ** Facts on resolution *)
Lemma walk_step f l cur name r : node_at f cur = Some NDir -> ordinary name = true ->
  walk f l cur (name :: r) =
  match f !! (cur ++ [name]) with
  | None => inl ENOENT
  | Some (NLink t) =>
      match l with
      | O => inl ELOOP
      | S l' => walk f l' (link_start cur t) (split_on "/" t ++ r)
      end
  | Some _ => walk f l (cur ++ [name]) r
  end.
Proof.
  intros Hd Ho. unfold ordinary in Ho. apply andb_true_iff in Ho as [H1%negb_true_iff H2%negb_true_iff].
  destruct l; cbn [walk]; by rewrite Hd, H1, H2.
Qed.

(** A path that exists is resolved alike by the kernel and by Python. *)
Lemma walk_realpath f l : forall rest cur p, walk f l cur rest = inr p -> realpath f l cur rest = Some p.
Proof.
  induction l as [|l IHl]; (induction rest as [|name r IH]; intros cur p H; cbn [walk realpath] in *;
    [congruence |]); (destruct (node_at f cur) as [[| |]|]; try done);
    (destruct (is_dot name); [by apply IH |]);
    (destruct (String.eqb name ".."); [by apply IH |]);
    destruct (f !! (cur ++ [name])) as [[| |]|]; try done; try (by apply IH); by apply IHl.
Qed.

(** [p] is its own real path, a directory: each prefix of it is one. *)
Fixpoint real_from (f : fs) (cur : path) (rest : list string) : Prop :=
  match rest with
  | [] => True
  | name :: r =>
      ordinary name = true /\ f !! (cur ++ [name]) = Some NDir /\ real_from f (cur ++ [name]) r
  end.
Definition real_dir (f : fs) (p : path) : Prop := real_from f [] p.

Lemma walk_real f l cur p r : node_at f cur = Some NDir -> real_from f cur p ->
  walk f l cur (p ++ r) = walk f l (cur ++ p) r /\ node_at f (cur ++ p) = Some NDir.
Proof.
  revert cur. induction p as [|name p IH]; intros cur Hd H; [by rewrite app_nil_r |].
  destruct H as (Ho & Hn & Hr).
  assert (Hd' : node_at f (cur ++ [name]) = Some NDir) by (by destruct cur).
  destruct (IH (cur ++ [name]) Hd' Hr) as [IH1 IH2]. rewrite <- app_assoc in IH1, IH2.
  split; [| exact IH2]. cbn [app]. rewrite walk_step by done. by rewrite Hn.
Qed.
