(* ===== verification/UnifiedDiff.v ===== *)
(** * Unified diffs: parsing and application (the patch helpers of app/workspace/edit.py)

    [_parse_unified_diff] reads the hunks of a patch, [_apply_hunks] applies them to the lines
    of a file, [patched_content] is what [project_apply_patch] makes of a file's text. *)
From S2P Require Import Prelude PyStr Regex RegexParse.
From S2P Require Import RegexFacts.
From stdpp Require Import options.

(** ** Parsing *)
Record hunk : Type := mkHunk {
  hk_old_start : nat; hk_old_lines : list string; hk_new_lines : list string;
  hk_removed : list string; hk_added : list string; hk_context : list string }.

Definition _HUNK_HEADER_RE : pattern :=
  re_lit no_flags "^@@ -(\d+)(?:,\d+)? \+(\d+)(?:,\d+)? @@(.*)$".

(** [int(m.group(1))] of a header line, [None] for another line *)
Definition hunk_header (line : string) : option nat :=
  match search _HUNK_HEADER_RE line with
  | Some m => Some (Z.to_nat (int_of 10 0 (default "" (group m 1))))
  | None => None
  end.
Definition empty_hunk (old_start : nat) : hunk := mkHunk old_start [] [] [] [] [].

(** A body line of the current hunk; another line changes nothing. *)
Definition add_line (h : hunk) (line : string) : hunk :=
  let content := drop 1 line in
  if startswith "-" line then
    mkHunk (hk_old_start h) (hk_old_lines h ++ [content]) (hk_new_lines h)
      (hk_removed h ++ [content]) (hk_added h) (hk_context h)
  else if startswith "+" line then
    mkHunk (hk_old_start h) (hk_old_lines h) (hk_new_lines h ++ [content])
      (hk_removed h) (hk_added h ++ [content]) (hk_context h)
  else if startswith " " line || String.eqb line "" then
    mkHunk (hk_old_start h) (hk_old_lines h ++ [content]) (hk_new_lines h ++ [content])
      (hk_removed h) (hk_added h) (hk_context h ++ [content])
  else h.

(** One turn of the loop: the hunks finished so far and [current] *)
Definition parse_line (st : list hunk * option hunk) (line : string)
    : list hunk * option hunk :=
  match hunk_header line with
  | Some n => (fst st ++ match snd st with Some h => [h] | None => [] end, Some (empty_hunk n))
  | None => (fst st, option_map (fun h => add_line h line) (snd st))
  end.
Definition _parse_unified_diff (patch_text : string) : list hunk :=
  let st := fold_left parse_line (splitlines patch_text) ([], None) in
  fst st ++ match snd st with Some h => [h] | None => [] end.

(** [+++ /dev/null] anywhere in the patch *)
Definition is_dev_null_line (line : string) : bool :=
  let stripped := rstrip_by (fun c => Ascii.eqb c "013") line in
  startswith "+++" stripped && String.eqb (strip (drop 3 stripped)) "/dev/null".
Definition _is_deletion_patch (patch_text : string) : bool :=
  existsb is_dev_null_line (splitlines patch_text).

(** ** Application *)

(** The [PatchError]s of [_apply_hunks], with what their messages tell (hunks and lines are
    counted from 0 here) *)
Inductive patch_error : Type :=
| StartOutOfRange (i : nat)
| ContextOutOfRange (i j : nat)
| ContextMismatch (i j : nat) (expected got : string).

(** The first context line of hunk [i] that is not in the file, from context line [j] on; [here]
    is the file from where that line should be *)
Fixpoint context_error (i j : nat) (here expected : list string) : option patch_error :=
  match expected with
  | [] => None
  | e :: r =>
      match here with
      | [] => Some (ContextOutOfRange i j)
      | x :: here' => if String.eqb x e then context_error i (S j) here' r
                      else Some (ContextMismatch i j e x)
      end
  end.

Fixpoint apply_from (i : nat) (offset : Z) (result : list string) (hunks : list hunk)
    : patch_error + list string :=
  match hunks with
  | [] => inr result
  | h :: r =>
      let old_start := (Z.of_nat (hk_old_start h) - 1 + offset)%Z in
      if ((old_start <? 0) || (Z.of_nat (length result) <? old_start))%Z
      then inl (StartOutOfRange i)
      else
        let at_ := Z.to_nat old_start in
        match context_error i 0 (skipn at_ result) (hk_old_lines h) with
        | Some e => inl e
        | None =>
            apply_from (S i)
              (offset + (Z.of_nat (length (hk_new_lines h)) - Z.of_nat (length (hk_old_lines h))))
              (firstn at_ result ++ hk_new_lines h
                 ++ skipn (at_ + length (hk_old_lines h)) result) r
        end
  end.
Definition _apply_hunks (old_lines : list string) (hunks : list hunk)
    : patch_error + list string :=
  apply_from 0 0 old_lines hunks.

(** [newline.join(new_lines)] with the file's line ends, and its final one *)
Definition crlf : string := String "013" (sc newline).
Definition rejoin (old_content : string) (new_lines : list string) : string :=
  let nl := if contains crlf old_content then crlf else sc newline in
  let new_content := join nl new_lines in
  if endswith (sc newline) old_content && negb (endswith (sc newline) new_content)
  then new_content +s+ nl else new_content.

(** The outcomes of a patch that is not a deletion *)
Inductive patch_failure : Type := NoHunks | HunkFailed (e : patch_error).
Definition patched_content (old_content patch : string) : patch_failure + string :=
  match _parse_unified_diff patch with
  | [] => inl NoHunks
  | hunks =>
      match _apply_hunks (splitlines old_content) hunks with
      | inl e => inl (HunkFailed e)
      | inr new_lines => inr (rejoin old_content new_lines)
      end
  end.

Section Examples.
Local Definition text (l : list string) : string := join (sc newline) l +s+ sc newline.
Example replaces_a_line :
  patched_content (text ["a"; "b"; "c"])
    (text ["--- a/f"; "+++ b/f"; "@@ -1,3 +1,3 @@ f()"; " a"; "-b"; "+B"; " c"])
  = inr (text ["a"; "B"; "c"]).
Proof. by_eval. Qed.
Example refuses_stale_context :
  patched_content (text ["a"; "x"]) (text ["@@ -1,2 +1,2 @@"; " a"; "-b"; "+B"])
  = inl (HunkFailed (ContextMismatch 0 1 "b" "x")).
Proof. by_eval. Qed.
End Examples.

(** ** Facts on unified diffs: headers are read back, lines are split where they were joined *)
(** ** Decimal numbers *)
Lemma int_of_app b acc s t : int_of b acc (s +s+ t) = int_of b (int_of b acc s) t.
Proof. revert acc. induction s as [|c s IH]; intros acc; simpl; [done |]. by rewrite IH. Qed.

Lemma digit_char d : (d < 10)%nat ->
  is_digit (ascii_of_nat (48 + d)) = true /\
  hex_value (ascii_of_nat (48 + d)) = Z.of_nat d.
Proof. intros H. do 10 (destruct d as [|d]; [by split |]). lia. Qed.

Lemma int_of_digit a c : int_of 10 a (sc c) = (a * 10 + hex_value c)%Z.
Proof. reflexivity. Qed.

Lemma nat_str_aux_spec fuel n acc : (n <= fuel)%nat -> exists w,
  nat_str_aux fuel n acc = w +s+ acc /\ w <> "" /\ all_of is_digit w = true /\
  int_of 10 0 w = Z.of_nat n.
Proof.
  revert n acc. induction fuel as [|f IH]; intros n acc Hn.
  - assert (n = 0)%nat as -> by lia. by exists "0".
  - cbn [nat_str_aux]. pose proof (Nat.div_mod n 10 ltac:(lia)) as Hdm.
    pose proof (Nat.mod_upper_bound n 10 ltac:(lia)) as Hlt.
    set (q := (n / 10)%nat) in *. set (d := (n mod 10)%nat) in *. clearbody q d.
    destruct (digit_char d Hlt) as [H1 H2]. set (c := ascii_of_nat (48 + d)) in *. clearbody c.
    destruct (Nat.eqb_spec q 0) as [-> | H0].
    + exists (sc c). rewrite int_of_digit, H2. simpl all_of. rewrite H1.
      split_and!; [done | done | done | lia].
    + destruct (IH q (String c acc)) as (w & Hw & Hne & Hd & Hi); [lia |].
      exists (w +s+ sc c). rewrite Hw, append_assoc, all_of_app, int_of_app, Hd, Hi, int_of_digit, H2.
      simpl all_of. rewrite H1. split_and!; [done | by destruct w | done | lia].
Qed.
Lemma nat_str_spec n :
  nat_str n <> "" /\ all_of is_digit (nat_str n) = true /\ int_of 10 0 (nat_str n) = Z.of_nat n.
Proof.
  destruct (nat_str_aux_spec n n "" (Nat.le_refl _)) as (w & Hw & H). unfold nat_str.
  by rewrite Hw, append_nil_r.
Qed.

(** ** Runs of the matcher *)
Definition digit : regex := RChar (KSet false [CDigit false]).
Definition no_digit_ahead (s : string) : Prop :=
  match s with "" => True | String c _ => is_digit c = false end.

Section Runs.
Variable k : mst -> option mst.

Lemma run_lit c pre suf caps :
  rmatch no_flags (RChar (KSet false [CLit c])) k (mkmst pre (String c suf) caps)
  = k (mkmst (String c pre) suf caps).
Proof. simpl. unfold class_test, item_test_f. simpl. by rewrite Ascii.eqb_refl. Qed.

Lemma step_digit c pre suf caps :
  rmatch no_flags digit k (mkmst pre (String c suf) caps)
  = if is_digit c then k (mkmst (String c pre) suf caps) else None.
Proof.
  simpl. unfold class_test, item_test_f. simpl. by destruct (is_digit c).
Qed.
End Runs.

(** A greedy run of digits takes them all when what follows succeeds there. *)
Lemma run_tail k x w pre rest caps fuel last :
  all_of is_digit w = true -> no_digit_ahead rest ->
  k (mkmst (srev w +s+ pre) rest caps) = Some x -> (slen w < fuel)%nat ->
  match last with Some p => (slen (w +s+ rest) < p)%nat | None => True end ->
  rep_tail (rmatch no_flags digit) fuel true k None last (mkmst pre (w +s+ rest) caps) = Some x.
Proof.
  revert pre fuel last. induction w as [|c w IH]; intros pre fuel last Hd Hr Hk Hf Hl;
    (destruct fuel as [|f]; [lia |]); cbn [rep_tail].
  - replace (if may_iterate None last _ then _ else None) with (@None mst); [done |].
    destruct (may_iterate _ _ _); [| done]. destruct rest as [|d rest]; [done |].
    simpl append. rewrite step_digit. simpl in Hr. by rewrite Hr.
  - simpl in Hd. apply andb_true_iff in Hd as [Hc Hd].
    replace (may_iterate None last _) with true.
    2:{ unfold may_iterate. simpl. destruct last as [p|]; [| done]. unfold slen in *.
        simpl in Hl. symmetry. apply negb_true_iff, Nat.eqb_neq. simpl. lia. }
    cbn [append String.append]. rewrite step_digit, Hc. cbn [option_map].
    rewrite IH; [done | done | done | | unfold slen in *; simpl in Hf; lia |].
    + rewrite srev_cons, append_assoc in Hk. exact Hk.
    + unfold slen. simpl. lia.
Qed.

Lemma run_digits k x w pre rest caps :
  w <> "" -> all_of is_digit w = true -> no_digit_ahead rest ->
  k (mkmst (srev w +s+ pre) rest caps) = Some x ->
  rmatch no_flags (RRep 1 None true digit) k (mkmst pre (w +s+ rest) caps) = Some x.
Proof.
  intros Hne Hd Hr Hk. destruct w as [|c w]; [done |]. simpl in Hd.
  apply andb_true_iff in Hd as [Hc Hd].
  change (rmatch no_flags (RRep 1 None true digit) k)
    with (rmatch no_flags digit (fun s1 =>
            rep_tail (rmatch no_flags digit) (slen (m_suf s1) + 2) true k None None s1)).
  cbn [append String.append]. rewrite step_digit, Hc. apply run_tail; [done | done | | | done].
  - by rewrite srev_cons, append_assoc in Hk.
  - cbn [m_suf]. rewrite slen_app. lia.
Qed.

Lemma consumed_run pre w x c y d : consumed (mkmst pre x c) (mkmst (srev w +s+ pre) y d) = w.
Proof.
  unfold consumed. cbn [m_pre]. rewrite slen_app.
  replace (slen (srev w) + slen pre - slen pre)%nat with (slen (srev w)) by lia.
  by rewrite take_app_len, srev_involutive.
Qed.

(** [(?:,\d+)?] takes a comma and the digits that follow it. *)
Lemma run_option k x w pre rest caps :
  w <> "" -> all_of is_digit w = true -> no_digit_ahead rest ->
  k (mkmst (srev w +s+ String "," pre) rest caps) = Some x ->
  rmatch no_flags (RRep 0 (Some 1%nat) true
      (RSeq (RChar (KSet false [CLit ","])) (RRep 1 None true digit)))
    k (mkmst pre (String "," (w +s+ rest)) caps) = Some x.
Proof.
  intros Hne Hd Hr Hk.
  set (r := RSeq _ _). set (s := mkmst pre (String "," (w +s+ rest)) caps).
  change (rmatch no_flags (RRep 0 (Some 1%nat) true r) k s)
    with (rep_tail (rmatch no_flags r) (slen (m_suf s) + 2) true k (Some 1%nat) None s).
  replace (slen (m_suf s) + 2)%nat with (S (S (slen (m_suf s)))) by lia.
  cbn [rep_tail may_iterate andb option_map pred].
  assert (Hs : forall k0, rmatch no_flags r k0 s
             = rmatch no_flags (RRep 1 None true digit) k0 (mkmst (String "," pre) (w +s+ rest) caps))
    by (intros k0;
      exact (run_lit (rmatch no_flags (RRep 1 None true digit) k0) ","%char pre (w +s+ rest) caps)).
  rewrite Hs. erewrite run_digits; [reflexivity | done | done | done | exact Hk].
Qed.

Lemma set_cap_run i pre w x c y d :
  set_cap i (mkmst pre x c) (mkmst (srev w +s+ pre) y d) = mkmst (srev w +s+ pre) y ((i, w) :: d).
Proof. unfold set_cap. by rewrite consumed_run. Qed.

(** ** The header of a rendered hunk is read back *)
Definition header (a b c d : nat) : string :=
  "@@ -" +s+ nat_str a +s+ "," +s+ nat_str b +s+ " +" +s+ nat_str c +s+ "," +s+ nat_str d +s+ " @@".

Lemma search_first p s s1 : match_here p false (start_state s) = Some s1 ->
  search p s = Some (to_match (start_state s, s1)).
Proof. intros H. unfold search. destruct (slen s); simpl; by rewrite H. Qed.

Lemma rmatch_seq fl r1 r2 k s : rmatch fl (RSeq r1 r2) k s = rmatch fl r1 (rmatch fl r2 k) s.
Proof. reflexivity. Qed.
Lemma rmatch_group fl i r k s :
  rmatch fl (RGroup i r) k s = rmatch fl r (fun s1 => k (set_cap i s s1)) s.
Proof. reflexivity. Qed.
Lemma run_bol k s caps : rmatch no_flags RBol k (mkmst "" s caps) = k (mkmst "" s caps).
Proof. reflexivity. Qed.
Definition header_re : regex := Eval vm_compute in p_re _HUNK_HEADER_RE.
Lemma header_match s :
  match_here _HUNK_HEADER_RE false (start_state s) = rmatch no_flags header_re Some (start_state s).
Proof. unfold match_here. replace (p_re _HUNK_HEADER_RE) with header_re by by_eval. reflexivity. Qed.

Ltac run_lits := repeat (rewrite rmatch_seq; cbn [String.append]; rewrite run_lit).

Lemma hunk_header_render a b c d : hunk_header (header a b c d) = Some a.
Proof.
  destruct (nat_str_spec a) as (Ha1 & Ha2 & Ha3), (nat_str_spec b) as (Hb1 & Hb2 & _),
    (nat_str_spec c) as (Hc1 & Hc2 & _), (nat_str_spec d) as (Hd1 & Hd2 & _).
  assert (Hm : exists s1, match_here _HUNK_HEADER_RE false (start_state (header a b c d)) = Some s1 /\
                 cap_get 1 (m_caps s1) = Some (nat_str a)).
  { rewrite header_match. unfold header, header_re, start_state. eexists. split.
    - rewrite rmatch_seq, run_bol. run_lits.
      rewrite rmatch_seq, rmatch_group. apply run_digits; [done | done | done |].
      rewrite set_cap_run, rmatch_seq. apply run_option; [done | done | done |]. run_lits.
      rewrite rmatch_seq, rmatch_group. apply run_digits; [done | done | done |].
      rewrite set_cap_run, rmatch_seq. apply run_option; [done | done | done |]. run_lits.
      reflexivity.
    - reflexivity. }
  destruct Hm as (s1 & H1 & H2). unfold hunk_header. rewrite (search_first _ _ s1) by done.
  unfold group. cbn [to_match mt_caps snd]. rewrite H2. simpl. by rewrite Ha3, Nat2Z.id.
Qed.

(** A line that does not start with [@] is no header. *)
Lemma header_fails s : m_pre s <> "" \/ startswith "@" (m_suf s) = false ->
  match_here _HUNK_HEADER_RE false s = None.
Proof.
  intros H. unfold match_here. replace (p_re _HUNK_HEADER_RE) with header_re by by_eval.
  unfold header_re. rewrite rmatch_seq. destruct s as [pre suf caps]. cbn [m_pre m_suf] in H.
  change (p_flags _HUNK_HEADER_RE) with no_flags.
  set (k := rmatch no_flags (RSeq _ _) _).
  change (rmatch no_flags RBol k (mkmst pre suf caps))
    with (if String.eqb pre "" then k (mkmst pre suf caps) else None).
  destruct (String.eqb_spec pre "") as [-> | Hne]; [| done].
  destruct H as [H | H]; [done |]. unfold k. rewrite rmatch_seq.
  set (k' := rmatch no_flags (RSeq _ _) _).
  destruct suf as [|c suf]; [done |]. simpl in H.
  destruct (Ascii.eqb_spec c "@") as [-> | Hc]; [by destruct suf |].
  cbn [rmatch m_suf]. unfold class_test, item_test_f. simpl. apply Ascii.eqb_neq in Hc. by rewrite Hc.
Qed.
Lemma hunk_header_body l : startswith "@" l = false -> hunk_header l = None.
Proof.
  intros Hl. unfold hunk_header, search.
  assert (H : forall fuel s, m_pre s <> "" \/ startswith "@" (m_suf s) = false ->
            Regex.scan fuel _HUNK_HEADER_RE false s = None); [| by rewrite H by (right; done)].
  induction fuel as [|f IH]; intros s Hs; cbn [Regex.scan]; rewrite header_fails by done; [done |].
  destruct s as [pre [|c suf] caps]; [done |]. apply IH. by left.
Qed.

(** ** Lines: split where they were joined *)
Definition clean (l : string) : Prop := all_of (fun c => negb (is_linebreak c)) l = true.

(** The text of a file whose lines all end with [nl] *)
Fixpoint unlines (nl : string) (ls : list string) : string :=
  match ls with [] => "" | l :: r => l +s+ nl +s+ unlines nl r end.
Definition line_end (nl : string) : Prop := nl = sc newline \/ nl = crlf.

Lemma unlines_join nl ls : ls <> [] -> unlines nl ls = join nl ls +s+ nl.
Proof.
  induction ls as [|l r IH]; [done |]. intros _. destruct r as [|l' r].
  - simpl. by rewrite append_nil_r.
  - change (unlines nl (l :: l' :: r)) with (l +s+ nl +s+ unlines nl (l' :: r)).
    rewrite IH by done. change (join nl (l :: l' :: r)) with (l +s+ nl +s+ join nl (l' :: r)).
    by rewrite !append_assoc.
Qed.

Lemma splitlines_line nl cur l rest : line_end nl -> clean l ->
  splitlines_from cur (l +s+ nl +s+ rest) = (srev cur +s+ l) :: splitlines_from "" rest.
Proof.
  intros Hnl. revert cur. induction l as [|c l IH]; intros cur Hc.
  - rewrite append_nil_r. by destruct Hnl as [-> | ->].
  - unfold clean in Hc. simpl in Hc. apply andb_true_iff in Hc as [H1 H2].
    apply negb_true_iff in H1. cbn [append String.append splitlines_from].
    destruct (Ascii.eqb_spec c "013") as [-> | _]; [done |]. rewrite H1, IH by done.
    by rewrite srev_cons, append_assoc.
Qed.
Lemma splitlines_unlines nl ls : line_end nl -> Forall clean ls -> splitlines (unlines nl ls) = ls.
Proof.
  intros Hnl. induction 1 as [|l r Hl _ IH]; [done |]. unfold splitlines. cbn [unlines].
  rewrite splitlines_line by done. f_equal. exact IH.
Qed.

Lemma endswith_newline s c : endswith (sc newline) (s +s+ sc c) = Ascii.eqb newline c.
Proof.
  unfold endswith. rewrite srev_append. change (srev (sc c)) with (sc c).
  change (srev (sc newline)) with (sc newline).
  change (startswith _ _) with (Ascii.eqb newline c && true). by rewrite andb_true_r.
Qed.
Lemma unlines_newline nl ls : line_end nl -> ls <> [] ->
  endswith (sc newline) (unlines nl ls) = true.
Proof.
  intros [-> | ->] Hne; rewrite unlines_join by done; [by rewrite endswith_newline |].
  change crlf with (sc "013" +s+ sc newline). by rewrite <- append_assoc, endswith_newline.
Qed.

Lemma string_snoc s : s <> "" -> exists a c, s = a +s+ sc c.
Proof.
  intros Hs. destruct (srev s) as [|c r] eqn:E.
  - apply (f_equal srev) in E. by rewrite srev_involutive in E.
  - exists (srev r), c. by rewrite <- srev_cons, <- E, srev_involutive.
Qed.
Lemma join_snoc nl ls l : exists s, join nl (ls ++ [l]) = s +s+ l.
Proof.
  induction ls as [|a r [s IH]]; [by exists "" |].
  exists (a +s+ nl +s+ s). destruct (r ++ [l]) as [|b t] eqn:E; [by destruct r |].
  cbn [app]. rewrite E. change (join nl (a :: b :: t)) with (a +s+ nl +s+ join nl (b :: t)).
  rewrite IH. by rewrite !append_assoc.
Qed.
Lemma join_no_newline nl ls l : clean l -> l <> "" ->
  endswith (sc newline) (join nl (ls ++ [l])) = false.
Proof.
  intros Hc Hne. destruct (join_snoc nl ls l) as [s ->].
  destruct (string_snoc l Hne) as (a & c & ->). rewrite <- append_assoc, endswith_newline.
  unfold clean in Hc. rewrite all_of_app in Hc. apply andb_true_iff in Hc as [_ Hc]. simpl in Hc.
  destruct (Ascii.eqb_spec newline c) as [<- | _]; [done |]. done.
Qed.

Lemma no_cr_contains s : all_of (fun c => negb (Ascii.eqb c "013")) s = true -> contains crlf s = false.
Proof.
  intros H. destruct (contains crlf s) eqn:E; [| done].
  apply contains_spec in E as (a & b & ->). rewrite !all_of_app in H. simpl in H.
  by rewrite andb_false_r in H.
Qed.
Lemma clean_no_cr l : clean l -> all_of (fun c => negb (Ascii.eqb c "013")) l = true.
Proof.
  unfold clean. induction l as [|c l IH]; simpl; [done |]. intros [H1 H2]%andb_true_iff.
  rewrite IH by done. destruct (Ascii.eqb_spec c "013") as [-> |]; done.
Qed.
Lemma contains_crlf nl ls : line_end nl -> ls <> [] -> Forall clean ls ->
  contains crlf (unlines nl ls) = String.eqb nl crlf.
Proof.
  intros Hnl Hne Hc. destruct Hnl as [-> | ->].
  - apply no_cr_contains. clear Hne. induction Hc as [|l r Hl _ IH]; [done |]. cbn [unlines].
    rewrite !all_of_app, IH, clean_no_cr by done. done.
  - apply contains_spec. rewrite unlines_join by done. exists (join crlf ls), "".
    by rewrite append_nil_r.
Qed.

(** What a changed file is written back as *)
Lemma rejoin_unlines nl old new l : line_end nl -> old <> [] -> Forall clean old -> clean l ->
  rejoin (unlines nl old) (new ++ [l])
  = if String.eqb l "" && negb (bool_decide (new = [])) then join nl (new ++ [l])
    else unlines nl (new ++ [l]).
Proof.
  intros Hnl Ho Hc Hl. unfold rejoin. rewrite contains_crlf, unlines_newline by done.
  replace (if String.eqb nl crlf then crlf else sc newline) with nl
    by (destruct Hnl as [-> | ->]; done).
  assert (Hne : new ++ [l] <> []) by (by destruct new).
  rewrite (unlines_join nl (new ++ [l])) by done.
  destruct (String.eqb_spec l "") as [-> | Hl']; [| by rewrite join_no_newline].
  destruct new as [|x xs]; [done |]. rewrite bool_decide_eq_false_2 by done. cbn [negb andb].
  assert (Hj : exists s, join nl ((x :: xs) ++ [""]) = s +s+ nl).
  { clear. revert x. induction xs as [|y ys IH]; intros x.
    - exists x. simpl. by rewrite append_nil_r.
    - destruct (IH y) as [s Hs]. exists (x +s+ nl +s+ s).
      change (join nl ((x :: y :: ys) ++ [""])) with (x +s+ nl +s+ join nl ((y :: ys) ++ [""])).
      by rewrite Hs, !append_assoc. }
  destruct Hj as [s Hs]. rewrite Hs.
  replace (endswith (sc newline) (s +s+ nl)) with true; [done |].
  destruct Hnl as [-> | ->]; [by rewrite endswith_newline |].
  change crlf with (sc "013" +s+ sc newline). by rewrite <- append_assoc, endswith_newline.
Qed.
