(* ===== verification/WorkspacePolicy.v ===== *)
(** * Workspace access policy (app/workspace/policy.py)

    Scopes, traversal, symbolic links, allowed roots, hidden and secret names.  A check reads
    the file system and answers or raises; an exception is its class, the message is left
    out. *)
From stdpp Require Import gmap.
From S2P Require Import Prelude PyStr FileSystem UnifiedDiff.
From stdpp Require Import options.

(** [SymlinkLoop]: what [Path.resolve] raises on a loop; [PatchError]: of app/workspace/edit.py;
    [AssetError] and [AssetConflict]: of app/workspace/assets.py *)
Inductive wexn : Type :=
| WorkspacePolicyError | SymlinkEscapeError | HiddenPathError | ScopeDeniedError
| FileNotFoundInWorkspaceError | TraversalError
| WriteError | ParentMissingError | PatchError (why : patch_failure)
| OSError (e : errno) | SymlinkLoop | StaleSnapshotError
| AssetError (msg : string) | AssetConflict (msg : string).

Notation "x <-? m ;; k" := (match m with inl e => inl e | inr x => k end)
  (at level 80, m at next level, right associativity) : gw_scope.
Notation "m ;;? k" := (match m with inl e => inl e | inr _ => k end)
  (at level 80, right associativity) : gw_scope.
Definition check_ (b : bool) (e : wexn) : wexn + unit := if b then inr tt else inl e.

(** ** Scopes *)
Definition ALL_SCOPES : list string :=
  ["workspace:read"; "project:read"; "project:write"; "project:execute"; "project:docker"].
Definition SCOPE_IMPLIES : dict (list string) := [
  ("project:docker", ["project:execute"; "project:write"; "project:read"]);
  ("project:execute", ["project:write"; "project:read"]);
  ("project:write", ["project:read"]);
  ("workspace:read", [])].
Definition _expand_scopes (scopes : list string) : list string :=
  scopes ++ flat_map (fun s => default [] (dict_get s SCOPE_IMPLIES)) scopes.

(** ** Hidden and secret names *)
Definition HIDDEN_DIR_PATTERNS : list string :=
  [".env"; ".env.*"; ".env.local"; ".env.production"; ".git"; ".ssh"; ".gnupg"; ".config"].
Definition SECRET_FILE_PATTERNS : list string :=
  [".env"; ".env.*"; "*.pem"; "*.key"; "*.p12"; "*.pfx"; "*.jks"; "id_rsa*"; "id_ed25519*";
   "id_ecdsa*"; "*.kdbx"; "*.keychain"].

(** [fnmatch.fnmatch(name, pattern)] for patterns of literal characters and [*] *)
Fixpoint fnmatch (pattern : string) : string -> bool :=
  match pattern with
  | "" => fun name => String.eqb name ""
  | String c p =>
      if Ascii.eqb c "*" then
        fix star (name : string) : bool :=
          fnmatch p name || match name with "" => false | String _ r => star r end
      else fun name => match name with "" => false | String d r => Ascii.eqb c d && fnmatch p r end
  end.

Definition is_hidden_or_secret_path (relative : string) : bool :=
  existsb (fun part => existsb (fun pat => fnmatch pat part) HIDDEN_DIR_PATTERNS) (parts relative)
  || existsb (fun pat => fnmatch pat (List.last (parts relative) "")) SECRET_FILE_PATTERNS.

Definition SYSTEM_FORBIDDEN : list string :=
  ["/etc/passwd"; "/etc/shadow"; "/etc/sudoers"; "/root/.ssh"; "/root/.gnupg"; "/proc"; "/sys";
   "/dev"].

(** ** The policy object *)
Record WorkspacePolicy : Type := mkPolicy {
  _project_roots : dict path; _allowed_roots : list path; _granted_scopes : list string }.

Fixpoint resolve_all {K : Type} (f : fs) (l : list (K * path)) : wexn + list (K * path) :=
  match l with
  | [] => inr []
  | (k, p) :: r =>
      match resolve f p with
      | None => inl SymlinkLoop
      | Some q => rest <-? resolve_all f r ;; inr ((k, q) :: rest)
      end
  end.
(** [__init__] *)
Definition new_policy (f : fs) (project_roots : dict path) (allowed_roots : list path)
    (granted_scopes : option (list string)) : wexn + WorkspacePolicy :=
  roots <-? resolve_all f project_roots ;;
  allowed <-? resolve_all f (map (fun p => (tt, p)) allowed_roots) ;;
  inr (mkPolicy roots (map snd allowed) (default [] granted_scopes)).

Section Policy.
Variable pol : WorkspacePolicy.
Variable f : fs.

Definition _require_scope (required : string) : wexn + unit :=
  check_ (mem required (_expand_scopes (_granted_scopes pol))) ScopeDeniedError.

Definition _resolve_project_root (project_id : string) : wexn + path :=
  match dict_get project_id (_project_roots pol) with
  | None => inl WorkspacePolicyError
  | Some root => check_ (exists_ f root) WorkspacePolicyError ;;? inr root
  end.

Definition _check_traversal (relative : string) : wexn + unit :=
  check_ (negb (String.eqb relative "") && negb (startswith "/" relative)
          && negb (startswith "~" relative) && negb (mem ".." (parts relative))) TraversalError.

Definition _check_system_forbidden (resolved : path) : wexn + unit :=
  check_ (negb (existsb (fun forbidden => String.eqb (path_str resolved) forbidden
                                          || startswith (forbidden +s+ "/") (path_str resolved))
                  SYSTEM_FORBIDDEN)) WorkspacePolicyError.

Definition under (p root : path) : bool :=
  match relative_to p root with Some _ => true | None => false end.
Definition _check_allowed_roots (resolved : path) : wexn + unit :=
  check_ (existsb (under resolved) (_allowed_roots pol)) WorkspacePolicyError.

(** The first component below the root that exists and is a link *)
Fixpoint no_symlink_components (partial : path) (rest : list string) : wexn + unit :=
  match rest with
  | [] => inr tt
  | part :: r =>
      if exists_ f (partial ++ [part]) && is_symlink f (partial ++ [part])
      then inl SymlinkEscapeError
      else no_symlink_components (partial ++ [part]) r
  end.
Definition _check_no_symlink_components (p project_root : path) : wexn + unit :=
  match relative_to p project_root with
  | None => inl WorkspacePolicyError
  | Some rel => no_symlink_components project_root rel
  end.

Definition _check_symlink_escape (p project_root : path) : wexn + path :=
  match resolve f p with
  | None => inl SymlinkLoop
  | Some resolved =>
      check_ (under resolved project_root) SymlinkEscapeError ;;?
      _check_allowed_roots resolved ;;?
      inr resolved
  end.

(** [if full.exists(): self._check_system_forbidden(self._check_symlink_escape(full, root))] *)
Definition check_existing (full root : path) : wexn + unit :=
  if exists_ f full then
    resolved <-? _check_symlink_escape full root ;; _check_system_forbidden resolved
  else inr tt.

Definition validate_read (project_id relative_path : string) : wexn + path :=
  _require_scope "project:read" ;;?
  _check_traversal relative_path ;;?
  root <-? _resolve_project_root project_id ;;
  let full := root ++ parts relative_path in
  check_existing full root ;;?
  check_ (negb (exists_ f full && is_hidden_or_secret_path relative_path)) HiddenPathError ;;?
  inr full.

Definition validate_write (project_id relative_path : string) : wexn + path :=
  _require_scope "project:write" ;;?
  _check_traversal relative_path ;;?
  root <-? _resolve_project_root project_id ;;
  let full := root ++ parts relative_path in
  _check_no_symlink_components full root ;;?
  check_existing full root ;;?
  check_ (negb (is_hidden_or_secret_path relative_path)) HiddenPathError ;;?
  let parent := removelast full in
  (if exists_ f parent then _check_symlink_escape parent root else inr parent) ;;?
  inr full.

Definition validate_execute (project_id : string) (relative_path : option string)
    : wexn + option path :=
  _require_scope "project:execute" ;;?
  match relative_path with
  | None =>
      root <-? _resolve_project_root project_id ;;
      _check_allowed_roots root ;;?
      inr None
  | Some relative_path =>
      _check_traversal relative_path ;;?
      root <-? _resolve_project_root project_id ;;
      let full := root ++ parts relative_path in
      check_existing full root ;;?
      inr (Some full)
  end.

Definition validate_docker (project_id : string) : wexn + path :=
  _require_scope "project:docker" ;;?
  root <-? _resolve_project_root project_id ;;
  _check_allowed_roots root ;;?
  inr root.

Definition validate_search (project_id relative_path : string) : wexn + path :=
  _require_scope "project:read" ;;?
  _check_traversal relative_path ;;?
  root <-? _resolve_project_root project_id ;;
  let full := root ++ parts relative_path in
  check_existing full root ;;?
  inr full.
End Policy.

Example hidden_names :
  map is_hidden_or_secret_path ["src/main.py"; "a/.git/config"; ".env.local"; "keys/id_rsa.pub";
                                "a.pem"; "pem"; "src/.environment"]
  = [false; true; true; true; true; false; false].
Proof. by_eval. Qed.
