(* ===== verification/WorkspaceEdit.v ===== *)
(** * Reading and writing workspace files (app/workspace/edit.py, and [project_file_read] of
    app/workspace/files.py)

    A tool takes the file system to a result or an exception and the next file system.  Text
    is encoded and decoded by [Utf8]; [Disk] is what one write draws: the random part of the
    temporary file's name, whether writing its bytes succeeds, and what the confirmation that
    follows gets to read.  The receipts of
    [safe=True] and the textual diff of an edit are left out: they change nothing. *)
From stdpp Require Import gmap.
From S2P Require Import Prelude PyStr Digests FileSystem UnifiedDiff WorkspacePolicy.
From stdpp Require Import options.

(** [str.encode("utf-8")] and [bytes.decode("utf-8")] *)
Class Utf8 : Type := {
  encode : string -> string;
  decode : string -> option string;
  decode_encode : forall s, decode (encode s) = Some s }.
(** [read_back r] is what the confirmation reads where the file system has [r]: an error of the
    disk, or the bytes of another process, may come between. *)
Class Disk : Type := { tmp_hex : string; write_ok : bool; read_back : errno + string -> errno + string }.

Definition _WRITE_MAX_BYTES : nat := Z.to_nat 1000000.
Definition _CREATE_PARENTS_MAX_DEPTH : nat := 16.
Definition _CREATE_PARENTS_MAX_COMPONENT_BYTES : nat := 255.
Definition _BINARY_CHECK_BYTES : nat := 512.

(** ** Computations on the file system *)
Definition F (A : Type) : Type := fs -> (wexn + A) * fs.
Definition fret {A} (a : A) : F A := fun f => (inr a, f).
Definition fraise {A} (e : wexn) : F A := fun f => (inl e, f).
Definition flet {A B} (m : F A) (k : A -> F B) : F B :=
  fun f => match m f with (inr a, f') => k a f' | (inl e, f') => (inl e, f') end.
Notation "x <-f m ;; k" := (flet m (fun x => k))
  (at level 80, m at next level, right associativity) : gw_scope.
Notation "m ;;f k" := (flet m (fun _ => k)) (at level 80, right associativity) : gw_scope.
(** A check or a reading of the current file system *)
Definition ask {A} (r : fs -> wexn + A) : F A := fun f => (r f, f).
Definition look_at {A} (r : fs -> A) : F A := fun f => (inr (r f), f).
Definition put (f' : fs) : F unit := fun _ => (inr tt, f').

(** ** Checks before a write *)
Fixpoint no_symlinks (f : fs) (partial : path) (rest : list string) : wexn + unit :=
  match rest with
  | [] => inr tt
  | part :: r => if is_symlink f (partial ++ [part]) then inl SymlinkEscapeError
                 else no_symlinks f (partial ++ [part]) r
  end.
Definition _symlink_safe_preflight (target_path project_root : path) (f : fs) : wexn + unit :=
  match relative_to target_path project_root with
  | None => inl WorkspacePolicyError
  | Some rel => no_symlinks f project_root rel
  end.

(** [Path(relative_path).parent.parts] *)
Definition parent_parts (relative_path : string) : list string :=
  let ps := parts relative_path in
  (if startswith "/" relative_path then ["/"] else []) ++ removelast ps.

Section Edit.
Context {U : Utf8} {D : Disk}.

Definition _validate_parent_creation_parts (ps : list string) : wexn + unit :=
  check_ (negb (_CREATE_PARENTS_MAX_DEPTH <? length ps)%nat) WriteError ;;?
  check_ (forallb (fun part => negb (_CREATE_PARENTS_MAX_COMPONENT_BYTES <? slen (encode part))%nat)
            ps) WriteError.

(** The loop of [_create_parent_directories]: [done_] is what is below the root already *)
Fixpoint make_parents (project_root done_ rest created : list string) : F (list string) :=
  match rest with
  | [] => fret created
  | part :: r =>
      let rel := done_ ++ [part] in
      let current := project_root ++ rel in
      link <-f look_at (fun f => is_symlink f current) ;;
      if link then fraise SymlinkEscapeError
      else
        there <-f look_at (fun f => exists_ f current) ;;
        if there then
          dir <-f look_at (fun f => is_dir f current) ;;
          if dir then make_parents project_root rel r created else fraise WriteError
        else
          made <-f look_at (fun f => create f current NDir) ;;
          match made with
          | inl EEXIST | inr _ =>
              match made with inr f' => put f' | inl _ => fret tt end ;;f
              bad <-f look_at (fun f => is_symlink f current || negb (is_dir f current)) ;;
              if bad then fraise WriteError
              else make_parents project_root rel r (created ++ [join "/" rel])
          | inl _ => fraise WriteError
          end
  end.
Definition _create_parent_directories (target_path project_root : path) : F (list string) :=
  match relative_to (removelast target_path) project_root with
  | None => fraise WorkspacePolicyError
  | Some ps =>
      ask (fun _ => _validate_parent_creation_parts ps) ;;f
      created <-f make_parents project_root [] ps [] ;;
      ask (_symlink_safe_preflight target_path project_root) ;;f
      fret created
  end.

(** ** The atomic write *)
Definition tmp_of (target_path : path) : path :=
  removelast target_path ++ [List.last target_path "" +s+ "." +s+ tmp_hex +s+ ".tmp"].
(** The clean-up after a failure: the temporary file goes, the target stays. *)
Definition discard (tmp : path) : F unit :=
  fun f => (inl WriteError, match unlink f tmp with inr f' => f' | inl _ => f end).

Definition _atomic_write (target_path : path) (content_bytes : string) : F unit :=
  there <-f look_at (fun f => exists_ f (removelast target_path)) ;;
  if negb there then fraise ParentMissingError
  else
    st <-f look_at (fun f => stat f target_path) ;;
    match st with
    | inr _ | inl ENOENT =>
        let tmp := tmp_of target_path in
        made <-f look_at (fun f => create f tmp (NFile (if write_ok then content_bytes else ""))) ;;
        match made with
        | inl _ => fraise WriteError
        | inr f1 =>
            put f1 ;;f
            if negb write_ok then discard tmp
            else
              moved <-f look_at (fun f => replace_file f tmp target_path) ;;
              match moved with
              | inl _ => discard tmp
              | inr f2 => put f2
              end
        end
    | inl e => fraise (OSError e)
    end.

(** ** Reading *)
Definition nul : string := sc "000".
Definition _is_binary_path (f : fs) (file_path : path) : bool :=
  match read_bytes f file_path with
  | inr raw => contains nul (take _BINARY_CHECK_BYTES raw)
  | inl _ => false
  end.

Definition _exact_read (file_path : path) (max_bytes : nat) (f : fs) : wexn + (string * nat) :=
  check_ (exists_ f file_path) WorkspacePolicyError ;;?
  check_ (negb (is_dir f file_path)) WorkspacePolicyError ;;?
  check_ (negb (_is_binary_path f file_path)) WorkspacePolicyError ;;?
  match read_bytes f file_path with
  | inl e => inl (OSError e)
  | inr raw =>
      check_ (negb (max_bytes <? slen raw)%nat) WorkspacePolicyError ;;?
      match decode raw with
      | None => inl WorkspacePolicyError
      | Some content => inr (content, slen raw)
      end
  end.

(** The bytes a read is cut back to until they decode *)
Fixpoint decode_back (tries : nat) (raw : string) : option string :=
  match tries with
  | O => None
  | S t => match decode raw with
           | Some c => Some c
           | None => decode_back t (take (slen raw - 1) raw)
           end
  end.

Record read_result : Type := mkRead {
  rd_size : nat; rd_content : string; rd_start_line : Z; rd_end_line : Z; rd_truncated : bool }.

Definition project_file_read (pol : WorkspacePolicy) (project_id relative_path : string)
    (start_line max_lines : option Z) (max_bytes : nat) (f : fs) : wexn + read_result :=
  full <-? validate_read pol f project_id relative_path ;;
  check_ (exists_ f full) FileNotFoundInWorkspaceError ;;?
  check_ (negb (is_dir f full)) WorkspacePolicyError ;;?
  check_ (negb (_is_binary_path f full)) WorkspacePolicyError ;;?
  match read_bytes f full with
  | inl e => inl (OSError e)
  | inr bytes =>
      let raw := take max_bytes bytes in
      let truncated := (max_bytes <? slen bytes)%nat in
      match (if truncated then decode_back 4 raw else decode raw) with
      | None => inl WorkspacePolicyError
      | Some content =>
          let lines := splitlines content in
          let total := Z.of_nat (length lines) in
          let start := match start_line with Some n => (Z.max 1 n - 1)%Z | None => 0%Z end in
          let effective_start := Z.max 0 (Z.min start total) in
          let upto := match max_lines with
                      | Some m => slice_upto (effective_start + m) lines
                      | None => lines
                      end in
          let sliced := skipn (Z.to_nat effective_start) upto in
          inr (mkRead (slen bytes) (join (sc newline) sliced) (effective_start + 1)
                 (effective_start + Z.of_nat (length sliced)) truncated)
      end
  end.

(** ** The tools that write *)
Definition sha256_of (bytes : string) : string := "sha256:" +s+ hexdigest bytes.
Record post_write : Type := mkPostWrite {
  pw_file_exists : bool; pw_current_hash : option string; pw_expected_hash : option string;
  pw_verified : bool }.

Definition _post_write_confirmation (target_path : path) (expected_content : option string)
    (deleted : bool) (f : fs) : wexn + post_write :=
  let there := exists_ f target_path in
  if deleted then inr (mkPostWrite there None None (negb there))
  else
    match expected_content with
    | None => inl WriteError
    | Some content =>
        let expected_hash := sha256_of (encode content) in
        match read_back (read_bytes f target_path) with
        | inl _ => inl WriteError
        | inr current =>
            check_ (there && String.eqb (sha256_of current) expected_hash) WriteError ;;?
            inr (mkPostWrite true (Some (sha256_of current)) (Some expected_hash) true)
        end
    end.

Record write_result : Type := mkWrite {
  wr_size : nat; wr_created : list string; wr_created_verified : bool; wr_post : post_write }.

Definition project_file_write (pol : WorkspacePolicy) (project_id relative_path content : string)
    (max_bytes : nat) (create_parents : bool) : F write_result :=
  (if create_parents then ask (fun _ => _validate_parent_creation_parts (parent_parts relative_path))
   else fret tt) ;;f
  full <-f ask (fun f => validate_write pol f project_id relative_path) ;;
  project_root <-f ask (fun f => _resolve_project_root pol f project_id) ;;
  ask (fun f => check_ (negb (exists_ f full && is_dir f full)) WorkspacePolicyError) ;;f
  ask (_symlink_safe_preflight full project_root) ;;f
  let utf8_bytes := encode content in
  ask (fun _ => check_ (negb (max_bytes <? slen utf8_bytes)%nat) WriteError) ;;f
  ask (fun _ => check_ (negb (contains nul utf8_bytes)) WriteError) ;;f
  parent_there <-f look_at (fun f => exists_ f (removelast full)) ;;
  created <-f (if parent_there then fret []
               else if create_parents then _create_parent_directories full project_root
               else fraise ParentMissingError) ;;
  _atomic_write full utf8_bytes ;;f
  verified <-f look_at (fun f => forallb (fun rel =>
      is_dir f (project_root ++ parts rel) && negb (is_symlink f (project_root ++ parts rel)))
      created) ;;
  post <-f ask (_post_write_confirmation full (Some content) false) ;;
  fret (mkWrite (slen utf8_bytes) created verified post).

(** [s.replace(old, new, 1)] for a non-empty [old] *)
Fixpoint replace_first (old new s : string) : string :=
  if startswith old s then new +s+ drop (slen old) s
  else match s with "" => "" | String c r => String c (replace_first old new r) end.

Record edit_result : Type := mkEdit { er_size : nat; er_replaced : bool; er_post : post_write }.

Definition project_file_edit (pol : WorkspacePolicy)
    (project_id relative_path old_string new_string : string) (max_bytes : nat) : F edit_result :=
  ask (fun _ => check_ (negb (String.eqb old_string "")) WriteError) ;;f
  full <-f ask (fun f => validate_write pol f project_id relative_path) ;;
  project_root <-f ask (fun f => _resolve_project_root pol f project_id) ;;
  ask (_symlink_safe_preflight full project_root) ;;f
  old <-f ask (_exact_read full max_bytes) ;;
  ask (fun _ => check_ (contains old_string (fst old)) WriteError) ;;f
  if String.eqb old_string new_string then
    post <-f ask (_post_write_confirmation full (Some (fst old)) false) ;;
    fret (mkEdit (snd old) false post)
  else
    let new_content := replace_first old_string new_string (fst old) in
    let new_bytes := encode new_content in
    ask (fun _ => check_ (negb (max_bytes <? slen new_bytes)%nat) WriteError) ;;f
    _atomic_write full new_bytes ;;f
    post <-f ask (_post_write_confirmation full (Some new_content) false) ;;
    fret (mkEdit (slen new_bytes) true post).

Record patch_result : Type := mkPatch {
  pr_size : nat; pr_deleted : bool; pr_backup_hash : string; pr_post : post_write }.

Definition project_apply_patch (pol : WorkspacePolicy) (project_id relative_path patch : string)
    (max_bytes : nat) : F patch_result :=
  full <-f ask (fun f => validate_write pol f project_id relative_path) ;;
  project_root <-f ask (fun f => _resolve_project_root pol f project_id) ;;
  ask (_symlink_safe_preflight full project_root) ;;f
  old <-f ask (_exact_read full max_bytes) ;;
  let backup_hash := sha256_of (encode (fst old)) in
  if _is_deletion_patch patch then
    gone <-f look_at (fun f => unlink f full) ;;
    match gone with
    | inl e => fraise (OSError e)
    | inr f' =>
        put f' ;;f
        post <-f ask (_post_write_confirmation full None true) ;;
        fret (mkPatch 0 true backup_hash post)
    end
  else
    match patched_content (fst old) patch with
    | inl why => fraise (PatchError why)
    | inr new_content =>
        let new_bytes := encode new_content in
        ask (fun _ => check_ (negb (max_bytes <? slen new_bytes)%nat) WriteError) ;;f
        _atomic_write full new_bytes ;;f
        post <-f ask (_post_write_confirmation full (Some new_content) false) ;;
        fret (mkPatch (slen new_bytes) false backup_hash post)
    end.
End Edit.
