(* ===== verification/WorkspaceFacts.v ===== *)
(** * Facts on the workspace tools: paths without links are where they say they are *)
From stdpp Require Import gmap.
From S2P Require Import Prelude PyStr FileSystem UnifiedDiff WorkspacePolicy WorkspaceEdit.
From stdpp Require Import options.

(** ** Real directories *)
Lemma walk_nil f l cur : walk f l cur [] = inr cur.
Proof. by destruct l. Qed.
Lemma node_at_snoc (f : fs) d x : node_at f (d ++ [x]) = f !! (d ++ [x]).
Proof. unfold node_at. by destruct (d ++ [x]) eqn:E; [destruct d |]. Qed.
Lemma real_from_app f cur a b : real_from f cur (a ++ b) <->
  real_from f cur a /\ real_from f (cur ++ a) b.
Proof.
  revert cur. induction a as [|x a IH]; intros cur; simpl; [by rewrite app_nil_r; tauto |].
  rewrite IH, <- app_assoc. simpl. tauto.
Qed.
Lemma real_snoc f d x : real_dir f (d ++ [x]) <->
  real_dir f d /\ ordinary x = true /\ f !! (d ++ [x]) = Some NDir.
Proof. unfold real_dir. rewrite real_from_app. simpl. tauto. Qed.

Lemma real_walk f l d r : real_dir f d -> walk f l [] (d ++ r) = walk f l d r /\ node_at f d = Some NDir.
Proof. intros H. by apply (walk_real f l [] d r). Qed.
Lemma real_find f d : real_dir f d -> find_path f d = inr d /\ node_at f d = Some NDir.
Proof.
  intros H. destruct (real_walk f MAXSYMLINKS d [] H) as [Hw Hn]. rewrite app_nil_r in Hw.
  split; [| exact Hn]. unfold find_path. by rewrite Hw.
Qed.
Lemma real_entry f d x : real_dir f d -> entry_of f (d ++ [x]) = inr (d ++ [x]).
Proof.
  intros H. unfold entry_of. rewrite removelast_last, last_last.
  destruct (real_find f d H) as [-> ->]. done.
Qed.
Lemma real_is_dir f d : real_dir f d -> is_dir f d = true /\ exists_ f d = true.
Proof.
  intros H. unfold is_dir, exists_, stat. destruct (real_find f d H) as [-> ->]. done.
Qed.
Lemma lstat_snoc f d x :
  lstat f (d ++ [x]) = match entry_of f (d ++ [x]) with
                       | inl e => inl e
                       | inr q => match f !! q with Some n => inr n | None => inl ENOENT end
                       end.
Proof. unfold lstat. by destruct (d ++ [x]) eqn:E; [destruct d |]. Qed.
Lemma real_symlink f d x : real_dir f d ->
  is_symlink f (d ++ [x]) = match f !! (d ++ [x]) with Some (NLink _) => true | _ => false end.
Proof.
  intros H. unfold is_symlink. rewrite lstat_snoc, real_entry by done.
  by destruct (f !! (d ++ [x])) as [[| |]|].
Qed.

(** A change outside the prefixes of [d] leaves it real. *)
Lemma real_from_frame f f' cur d :
  (forall q x, d = q ++ x -> q <> [] -> f' !! (cur ++ q) = f !! (cur ++ q)) ->
  real_from f cur d -> real_from f' cur d.
Proof.
  revert cur. induction d as [|x d IH]; intros cur Hf H; [done |]. destruct H as (Ho & Hn & Hr).
  split; [done |]. split.
  - by rewrite (Hf [x] d).
  - apply IH; [| done]. intros q y -> Hq. rewrite <- app_assoc. simpl.
    by rewrite (Hf (x :: q) y).
Qed.
Lemma real_insert f d p n : real_dir f d -> (length d < length p)%nat -> real_dir (<[p := n]> f) d.
Proof.
  intros H Hl. apply (real_from_frame f); [| exact H]. intros q x -> _. simpl.
  apply lookup_insert_ne. intros ->. rewrite length_app in Hl. lia.
Qed.
Lemma real_delete f d p : real_dir f d -> (length d < length p)%nat -> real_dir (delete p f) d.
Proof.
  intros H Hl. apply (real_from_frame f); [| exact H]. intros q x -> _. simpl.
  apply lookup_delete_ne. intros ->. rewrite length_app in Hl. lia.
Qed.

(** ** Trees: every entry is in a directory *)
Definition tree (f : fs) : Prop := forall d x, f !! (d ++ [x]) <> None -> node_at f d = Some NDir.

Lemma tree_insert f d x n : tree f -> node_at f d = Some NDir -> f !! (d ++ [x]) <> Some NDir ->
  tree (<[d ++ [x] := n]> f).
Proof.
  intros Ht Hd Hn p y Hp. unfold node_at. destruct p as [|p0 p'] eqn:Ep; [done |]. rewrite <- Ep in *.
  assert (Hnode : forall q, q <> [] -> node_at f q = f !! q) by (by intros []).
  assert (Hpne : p <> []) by congruence.
  destruct (decide (p = d ++ [x])) as [Heq | Hne].
  - exfalso. apply Hn. rewrite <- Heq, <- Hnode by done. apply (Ht p y).
    rewrite lookup_insert_ne in Hp; [done |]. intros Hq. rewrite <- Heq in Hq.
    apply (f_equal (@length _)) in Hq. rewrite length_app in Hq. simpl in Hq. lia.
  - rewrite lookup_insert_ne by done. rewrite <- Hnode by done.
    destruct (decide (p ++ [y] = d ++ [x])) as [[-> _]%app_inj_tail | Hne2]; [done |].
    apply (Ht p y). by rewrite lookup_insert_ne in Hp.
Qed.
Lemma tree_delete f p : tree f -> f !! p <> Some NDir -> tree (delete p f).
Proof.
  intros Ht Hn d x Hx. assert (Hd : node_at f d = Some NDir).
  { apply (Ht d x). destruct (decide (p = d ++ [x])) as [-> |]; [by rewrite lookup_delete_eq in Hx |].
    by rewrite lookup_delete_ne in Hx. }
  destruct d as [|d0 d']; [done |]. unfold node_at in *. rewrite lookup_delete_ne; [done |].
  intros ->. done.
Qed.

(** ** A path below a real directory, none of whose components is a link *)
Definition all_ordinary (rel : list string) : Prop := Forall (fun x => ordinary x = true) rel.

Lemma walk_plain f l d rel p : real_dir f d -> all_ordinary rel -> no_symlinks f d rel = inr tt ->
  walk f l d rel = inr p -> p = d ++ rel /\ (node_at f p = Some NDir -> real_dir f p).
Proof.
  revert d. induction rel as [|x rel IH]; intros d Hd Ho Hs Hw.
  - rewrite walk_nil in Hw.
    injection Hw as <-. by rewrite app_nil_r.
  - apply List.Forall_cons_iff in Ho as [Hx Ho]. cbn [no_symlinks] in Hs.
    rewrite real_symlink in Hs by done. destruct (real_find f d Hd) as [_ Hn].
    rewrite walk_step in Hw by done.
    destruct (f !! (d ++ [x])) as [[c | | t]|] eqn:E; try done.
    + destruct rel as [|y rel].
      * rewrite walk_nil in Hw. injection Hw as <-. split; [done |]. by rewrite node_at_snoc, E.
      * replace (walk f l (d ++ [x]) (y :: rel)) with (@inl errno path ENOTDIR) in Hw; [done |].
        destruct l; cbn [walk]; by rewrite node_at_snoc, E.
    + destruct (IH (d ++ [x])) as [-> Hr]; [by apply real_snoc | done | done | done |].
      rewrite <- app_assoc in *. split; [done | exact Hr].
Qed.

Lemma find_plain f d rel p : real_dir f d -> all_ordinary rel -> no_symlinks f d rel = inr tt ->
  find_path f (d ++ rel) = inr p -> p = d ++ rel /\ (node_at f p = Some NDir -> real_dir f p).
Proof.
  intros Hd Ho Hs Hf. unfold find_path in Hf.
  destruct (real_walk f MAXSYMLINKS d rel Hd) as [Hw _]. rewrite Hw in Hf. by apply walk_plain in Hf.
Qed.

Lemma no_symlinks_app f d a b : no_symlinks f d (a ++ b) = inr tt -> no_symlinks f d a = inr tt.
Proof.
  revert d. induction a as [|x a IH]; intros d; simpl; [done |].
  destruct (is_symlink f (d ++ [x])); [done |]. apply IH.
Qed.

(** The parent, when it is a directory, is a real one, and the entry is the path itself. *)
Lemma parent_plain f d rel x : real_dir f d -> all_ordinary (rel ++ [x]) ->
  no_symlinks f d (rel ++ [x]) = inr tt ->
  forall q, entry_of f (d ++ rel ++ [x]) = inr q -> q = d ++ rel ++ [x] /\ real_dir f (d ++ rel).
Proof.
  intros Hd Ho Hs q He. apply Forall_app in Ho as [Ho _]. apply no_symlinks_app in Hs.
  unfold entry_of in He. rewrite app_assoc, removelast_last, last_last in He.
  destruct (find_path f (d ++ rel)) as [e | p] eqn:Ef; [done |].
  destruct (find_plain f d rel p Hd Ho Hs Ef) as [-> Hr].
  destruct (node_at f (d ++ rel)) as [[| |]|] eqn:En; try done.
  injection He as <-. rewrite <- app_assoc. split; [done | by apply Hr].
Qed.

(** ** The atomic write: all or nothing, and nowhere else *)
Section Write.
Context {U : Utf8} {D : Disk}.

Lemma tmp_name_ne x : x +s+ "." +s+ tmp_hex +s+ ".tmp" <> x.
Proof.
  intros H. apply (f_equal slen) in H. rewrite !slen_app in H. unfold slen in H. simpl in H. lia.
Qed.

(** A temporary file in a real directory goes again, or becomes its neighbour. *)
Lemma discard_tmp f d y c : real_dir f d -> f !! (d ++ [y]) = None ->
  discard (d ++ [y]) (<[d ++ [y] := NFile c]> f) = (inl WriteError, f).
Proof.
  intros Hd Hn. unfold discard, unlink. rewrite real_entry.
  - rewrite node_at_snoc, lookup_insert_eq. by rewrite delete_insert_id.
  - apply real_insert; [done |]. rewrite length_app. simpl. lia.
Qed.
Lemma replace_tmp f d x y c : real_dir f d -> f !! (d ++ [y]) = None -> x <> y ->
  replace_file (<[d ++ [y] := NFile c]> f) (d ++ [y]) (d ++ [x])
  = match f !! (d ++ [x]) with
    | Some NDir => inl EISDIR
    | _ => inr (<[d ++ [x] := NFile c]> f)
    end.
Proof.
  intros Hd Hn Hxy. assert (Hne : d ++ [y] <> d ++ [x]) by (by intros [_ H]%app_inj_tail).
  assert (Hd' : real_dir (<[d ++ [y] := NFile c]> f) d).
  { apply real_insert; [done |]. rewrite length_app. simpl. lia. }
  unfold replace_file. rewrite !real_entry, !node_at_snoc by done.
  rewrite lookup_insert_eq, lookup_insert_ne by done. rewrite delete_insert_id by done.
  by destruct (f !! (d ++ [x])) as [[| |]|].
Qed.

(** What creating the temporary file can do *)
Lemma create_plain f d rel y n : real_dir f d -> all_ordinary rel -> no_symlinks f d rel = inr tt ->
  (exists e, create f ((d ++ rel) ++ [y]) n = inl e) \/
  (create f ((d ++ rel) ++ [y]) n = inr (<[(d ++ rel) ++ [y] := n]> f) /\
   f !! ((d ++ rel) ++ [y]) = None /\ real_dir f (d ++ rel)).
Proof.
  intros Hd Ho Hs. unfold create.
  destruct (entry_of f ((d ++ rel) ++ [y])) as [e | q] eqn:He; [by eauto |].
  unfold entry_of in He. rewrite removelast_last, last_last in He.
  destruct (find_path f (d ++ rel)) as [e | p] eqn:Ef; [done |].
  destruct (find_plain f d rel p Hd Ho Hs Ef) as [-> Hr].
  destruct (node_at f (d ++ rel)) as [[| |]|]; try done. injection He as <-.
  rewrite node_at_snoc. destruct (f !! ((d ++ rel) ++ [y])); [by eauto |].
  right. auto.
Qed.

Lemma atomic_write_spec f d rel x bytes : real_dir f d -> all_ordinary (rel ++ [x]) ->
  no_symlinks f d (rel ++ [x]) = inr tt ->
  let full := d ++ rel ++ [x] in
  (_atomic_write full bytes f = (inr tt, <[full := NFile bytes]> f) /\ real_dir f (d ++ rel) /\
   f !! full <> Some NDir) \/
  (exists e, _atomic_write full bytes f = (inl e, f)).
Proof.
  intros Hd Ho Hs full. assert (Hfull : full = (d ++ rel) ++ [x]) by apply app_assoc.
  unfold _atomic_write, flet, look_at, fraise, tmp_of.
  destruct (exists_ f (removelast full)); cbn [negb]; [| eauto].
  destruct (stat f full) as [[]|]; [| by eauto..|];
    rewrite Hfull, removelast_last, last_last;
    (set (y := x +s+ _); assert (Hxy : x <> y) by (intros H; by apply (tmp_name_ne x));
     apply Forall_app in Ho as [Ho _]; apply no_symlinks_app in Hs;
     destruct (create_plain f d rel y (NFile (if write_ok then bytes else "")) Hd Ho Hs)
       as [[e ->] | (-> & Hn & Hr)]; [by eauto |];
     unfold put; destruct write_ok; cbn [negb];
       [rewrite replace_tmp by done;
        destruct (f !! ((d ++ rel) ++ [x])) as [[| |]|]; [by left | | by left..] |];
       rewrite discard_tmp by done; by eauto).
Qed.

(** ** Creating the parents *)
Lemma real_stat f d x : real_dir f d -> ordinary x = true -> is_symlink f (d ++ [x]) = false ->
  stat f (d ++ [x]) = match f !! (d ++ [x]) with Some n => inr n | None => inl ENOENT end.
Proof.
  intros Hd Hx Hs. rewrite real_symlink in Hs by done. unfold stat, find_path.
  destruct (real_walk f MAXSYMLINKS d [x] Hd) as [-> Hn]. rewrite walk_step by done.
  destruct (f !! (d ++ [x])) as [[c | | t]|] eqn:E; [| | done | done];
    by rewrite walk_nil, node_at_snoc, E.
Qed.
Lemma create_real f d x n : real_dir f d -> f !! (d ++ [x]) = None ->
  create f (d ++ [x]) n = inr (<[d ++ [x] := n]> f).
Proof. intros Hd Hn. unfold create. by rewrite real_entry, node_at_snoc, Hn. Qed.

(** What changed is missing directories of the path, made; a tree stays one. *)
Definition made_dirs (f f' : fs) (d : path) (rel : list string) : Prop :=
  (forall p, f' !! p <> f !! p ->
   exists q y, rel = q ++ y /\ q <> [] /\ p = d ++ q /\ f !! p = None /\ f' !! p = Some NDir) /\
  (tree f -> tree f').
Lemma made_dirs_refl f d rel : made_dirs f f d rel.
Proof. by split; [intros p Hp |]. Qed.
Lemma made_dirs_deeper f f' d x rel : made_dirs f f' (d ++ [x]) rel -> made_dirs f f' d (x :: rel).
Proof.
  intros [H Ht]. split; [| done]. intros p (q & y & -> & Hq & -> & H1 & H2)%H. exists (x :: q), y.
  rewrite <- app_assoc. simpl. rewrite <- app_assoc in H1, H2. auto.
Qed.
Lemma made_dirs_new f f' d x rel : node_at f d = Some NDir -> f !! (d ++ [x]) = None ->
  made_dirs (<[d ++ [x] := NDir]> f) f' (d ++ [x]) rel -> made_dirs f f' d (x :: rel).
Proof.
  intros Hnode Hn [H Ht]. split; [| intros Htf; apply Ht, tree_insert; [done | done | by rewrite Hn]].
  intros p Hp. destruct (decide (p = d ++ [x])) as [-> | Hne].
  - exists [x], rel. split; [done |]. split; [done |]. split; [done |]. split; [done |].
    destruct (decide (f' !! (d ++ [x]) = Some NDir)) as [Hd | Hd]; [done |].
    destruct (H (d ++ [x])) as (q & y & _ & Hq & Heq & _).
    { by rewrite lookup_insert_eq. }
    rewrite <- (app_nil_r (d ++ [x])) in Heq at 1. apply app_inv_head in Heq. by subst.
  - destruct (H p) as (q & y & -> & Hq & -> & H1 & H2); [by rewrite lookup_insert_ne |].
    rewrite lookup_insert_ne in H1 by done. exists (x :: q), y.
    rewrite <- app_assoc. simpl. rewrite <- app_assoc in H1, H2. auto.
Qed.

Lemma make_parents_spec root rest : forall done_ created f r f',
  real_dir f (root ++ done_) -> all_ordinary rest ->
  make_parents root done_ rest created f = (r, f') ->
  made_dirs f f' (root ++ done_) rest /\
  forall c, r = inr c -> real_dir f' ((root ++ done_) ++ rest).
Proof.
  induction rest as [|x rest IH]; intros done_ created f r f' Hd Ho Hm.
  - injection Hm as <- <-. split; [apply made_dirs_refl |]. intros _ _. by rewrite app_nil_r.
  - apply List.Forall_cons_iff in Ho as [Hx Ho]. cbn [make_parents] in Hm.
    unfold flet, look_at, fraise in Hm. rewrite (app_assoc root) in Hm.
    set (d := root ++ done_) in *.
    destruct (is_symlink f (d ++ [x])) eqn:Es.
    { injection Hm as <- <-. split; [apply made_dirs_refl | done]. }
    pose proof (real_stat f d x Hd Hx Es) as Hst.
    assert (Hex : exists_ f (d ++ [x]) = match f !! (d ++ [x]) with Some _ => true | None => false end)
      by (unfold exists_; rewrite Hst; by destruct (f !! (d ++ [x]))).
    assert (Hdir : is_dir f (d ++ [x]) = match f !! (d ++ [x]) with Some NDir => true | _ => false end)
      by (unfold is_dir; rewrite Hst; by destruct (f !! (d ++ [x]))).
    rewrite Hex in Hm. clear Hst Hex.
    pose proof (real_symlink f d x Hd) as Hl. rewrite Es in Hl.
    destruct (f !! (d ++ [x])) as [[c | | t]|] eqn:E; [| | done |]; cbn beta iota in Hm;
      rewrite ?Hdir in Hm; cbn beta iota in Hm.
    + injection Hm as <- <-. split; [apply made_dirs_refl | done].
    + destruct (IH (done_ ++ [x]) created f r f') as [H1 H2].
      * rewrite app_assoc. by apply real_snoc.
      * done.
      * exact Hm.
      * rewrite app_assoc in H1, H2. fold d in H1, H2. split; [by apply made_dirs_deeper |].
        intros c Hc. apply H2 in Hc. by rewrite <- app_assoc in Hc.
    + rewrite create_real in Hm by done. unfold put in Hm.
      assert (Hd1 : real_dir (<[d ++ [x] := NDir]> f) (d ++ [x])).
      { apply real_snoc. rewrite lookup_insert_eq. split; [| done].
        apply real_insert; [done |]. rewrite length_app. simpl. lia. }
      assert (Hb : is_symlink (<[d ++ [x] := NDir]> f) (d ++ [x])
                   || negb (is_dir (<[d ++ [x] := NDir]> f) (d ++ [x])) = false).
      { pose proof Hd1 as [Hd0 _]%real_snoc. rewrite real_symlink, lookup_insert_eq by done.
        by rewrite (proj1 (real_is_dir _ _ Hd1)). }
      rewrite Hb in Hm.
      destruct (IH (done_ ++ [x]) (created ++ [join "/" (done_ ++ [x])])
                  (<[d ++ [x] := NDir]> f) r f') as [H1 H2].
      * by rewrite app_assoc.
      * done.
      * exact Hm.
      * rewrite app_assoc in H1, H2. fold d in H1, H2. split; [apply made_dirs_new; [by apply real_find | done..] |].
        intros c Hc. apply H2 in Hc. by rewrite <- app_assoc in Hc.
Qed.
End Write.

(** ** What an accepted write was checked for *)
Lemma parts_ordinary text : mem ".." (parts text) = false -> all_ordinary (parts text).
Proof.
  intros H. apply List.Forall_forall. intros x Hx. unfold ordinary.
  assert (Hd : is_dot x = false).
  { unfold parts in Hx. apply filter_In in Hx as [_ Hx]. by apply negb_true_iff in Hx. }
  rewrite Hd. destruct (String.eqb_spec x "..") as [-> |]; [| done].
  apply mem_In in Hx. congruence.
Qed.

Lemma check_ok b e : check_ b e = inr tt <-> b = true.
Proof. by destruct b. Qed.

Lemma traversal_ok rel : _check_traversal rel = inr tt -> all_ordinary (parts rel).
Proof.
  intros H%check_ok. bprop. by apply parts_ordinary.
Qed.

Record write_checked (pol : WorkspacePolicy) (f : fs) (project rel : string) (root : path) : Prop :=
  mkChecked {
    wc_root : dict_get project (_project_roots pol) = Some root;
    wc_scope : mem "project:write" (_expand_scopes (_granted_scopes pol)) = true;
    wc_ordinary : all_ordinary (parts rel);
    wc_visible : is_hidden_or_secret_path rel = false }.

Lemma validate_write_ok pol f project rel full : validate_write pol f project rel = inr full ->
  exists root, write_checked pol f project rel root /\ full = root ++ parts rel /\
    _resolve_project_root pol f project = inr root.
Proof.
  unfold validate_write. destruct (_require_scope pol "project:write") as [|[]] eqn:Es; [done |].
  destruct (_check_traversal rel) as [|[]] eqn:Et; [done |].
  destruct (_resolve_project_root pol f project) as [|root] eqn:Er; [done |].
  destruct (_check_no_symlink_components _ _ _) as [|[]]; [done |].
  destruct (check_existing _ _ _ _) as [|[]]; [done |].
  destruct (check_ (negb (is_hidden_or_secret_path rel)) _) as [|[]] eqn:Eh; [done |].
  intros H. exists root. split; [| split; [| done]].
  - split.
    + unfold _resolve_project_root in Er. destruct (dict_get _ _) as [r|]; [| done].
      destruct (check_ _ _) as [|[]]; [done |]. congruence.
    + by apply check_ok in Es.
    + by apply traversal_ok.
    + apply check_ok in Eh. by apply negb_true_iff in Eh.
  - destruct (if exists_ f _ then _ else _); [done |]. congruence.
Qed.
