(* ===== verification/ProjectPatch.v ===== *)
(** * Patches of several files (src/app/patch_apply.py, src/app/services/project_patch.py)

    [apply_project_patch] applies a unified diff to the files of a project: all of them, or, with
    backups and their renaming back, none.  The parser [unidiff] is a parameter; so are the
    steps of the disk that fail ([Faults]) and what a failed write leaves behind.  A path given
    to a write has been resolved, and the names of backups and temporary files are drawn. *)
From stdpp Require Import gmap.
From S2P Require Import Prelude PyStr Digests FileSystem UnifiedDiff WorkspacePolicy WorkspaceEdit WorkspaceFacts.
From stdpp Require Import options.

#[local] Open Scope nat_scope.

(** ** What the code reads of a parsed patch *)
Record ULine : Type := mkULine { is_added : bool; is_removed : bool; is_context : bool; ul_value : string; ul_text : string }.
Record UHunk : Type := mkUHunk {
  source_start : nat; source_length : nat; target_start : nat; target_length : nat; uh_lines : list ULine }.
Record UFile : Type := mkUFile {
  source_file : string; target_file : string; uf_hunks : list UHunk; uf_rename : bool; uf_copy : bool; uf_device : bool }.
(** [unidiff.PatchSet]: [None] where it raises *)
Class Unidiff : Type := { PatchSet : string -> option (list UFile) }.

(** ** patch_apply.py *)
Inductive pexn : Type :=
| UnidiffParseError | PatchValidationError (why : string) | HashMismatchError | ProjectNotFoundError | RollbackFailedError
| OSError (e : errno) | SymlinkLoop | NotBelow | IndexError.
Definition check_p (b : bool) (e : pexn) : pexn + unit := if b then inr tt else inl e.
Definition MAX_FILES : nat := 20.
Definition MAX_HUNKS : nat := 100.
Definition MAX_PATCH_SIZE : Z := 1048576.
Definition MAX_FILE_SIZE : Z := 10 * 1024 * 1024.

Record HunkInfo : Type := mkHunkInfo { hi_start : nat; hi_length : nat; hi_tstart : nat; hi_tlength : nat; hi_lines : list string }.
Record FileInfo : Type := mkFileInfo {
  fi_path : string; fi_hunks : list HunkInfo; hunk_count : nat;
  is_rename : bool; is_copy : bool; is_delete : bool; is_device_file : bool }.
Definition stripped (strip : Z) (source : string) : string :=
  let ps := split_on "/" source in
  if (0 <? strip)%Z && (strip <? Z.of_nat (length ps))%Z then join "/" (skipn (Z.to_nat strip) ps)
  else if startswith "a/" source then drop 2 source else source.
Definition _parse_patch (strip : Z) (patch_set : list UFile) : list FileInfo :=
  map (fun pf =>
    mkFileInfo (stripped strip (source_file pf))
      (map (fun h => mkHunkInfo (source_start h) (source_length h) (target_start h) (target_length h)
                       (map ul_text (uh_lines h))) (uf_hunks pf))
      (length (uf_hunks pf)) (uf_rename pf) (uf_copy pf) (String.eqb (target_file pf) "/dev/null") (uf_device pf))
    patch_set.

Definition _validate_no_forbidden_ops (files : list FileInfo) : pexn + unit :=
  check_p (forallb (fun f => negb (is_rename f) && negb (is_copy f) && negb (is_device_file f)
             && negb (endswith "/dev/null" (fi_path f))) files) (PatchValidationError "unsupported operation").

Definition _rebuild_patch_for_file (fi : FileInfo) : string :=
  let no_newline s := rstrip_by (Ascii.eqb newline) s in
  join (sc newline)
    (("--- a/" +s+ fi_path fi) :: ("+++ b/" +s+ fi_path fi) ::
     flat_map (fun h =>
       ("@@ -" +s+ nat_str (hi_start h) +s+ "," +s+ nat_str (hi_length h) +s+ " +"
        +s+ nat_str (hi_tstart h) +s+ "," +s+ nat_str (hi_tlength h) +s+ " @@") :: map no_newline (hi_lines h)) (fi_hunks fi))
  +s+ sc newline.

(** [text.splitlines(keepends=True)] *)
Fixpoint lines_keeping (cur : string) (s : string) : list string :=
  match s with
  | "" => if String.eqb cur "" then [] else [srev cur]
  | String c r =>
      if Ascii.eqb c "013" then
        match r with
        | String "010" r' => srev (String "010" (String c cur)) :: lines_keeping "" r'
        | _ => srev (String c cur) :: lines_keeping "" r
        end
      else if is_linebreak c then srev (String c cur) :: lines_keeping "" r
      else lines_keeping (String c cur) r
  end.
Definition same_line (a b : string) : bool :=
  String.eqb (rstrip_by (Ascii.eqb newline) a) (rstrip_by (Ascii.eqb newline) b).
Definition _check_line_matches (lines : list string) (source_idx : nat) (expected : string) : pexn + unit :=
  match lines !! source_idx with
  | None => inl (PatchValidationError "line out of range")
  | Some actual => check_p (same_line actual expected) (PatchValidationError "context mismatch")
  end.
(** One line of a hunk, on [source_idx] and the result so far *)
Definition apply_line (lines : list string) (st : nat * list string) (l : ULine) : pexn + nat * list string :=
  let (source_idx, result) := st in
  if is_added l then inr (source_idx, result ++ [ul_value l])
  else if is_removed l then _check_line_matches lines source_idx (ul_value l) ;;? inr (S source_idx, result)
  else if is_context l then _check_line_matches lines source_idx (ul_value l) ;;? inr (S source_idx, result ++ [ul_value l])
  else inr st.
Fixpoint apply_lines (lines : list string) (st : nat * list string) (ls : list ULine) : pexn + nat * list string :=
  match ls with [] => inr st | l :: ls => st <-? apply_line lines st l ;; apply_lines lines st ls end.
(** The loop that copies the lines before a hunk *)
Definition copy_before (lines : list string) (st : nat * list string) (start : nat) : nat * list string :=
  let n := Nat.min (start - 1) (length lines) - fst st in
  (fst st + n, snd st ++ firstn n (skipn (fst st) lines)).
Fixpoint apply_hunks (lines : list string) (st : nat * list string) (hs : list UHunk) : pexn + nat * list string :=
  match hs with
  | [] => inr st
  | h :: hs =>
      st <-? apply_lines lines (copy_before lines st (source_start h)) (uh_lines h) ;;
      apply_hunks lines st hs
  end.
Definition patched_lines (lines : list string) (hs : list UHunk) : pexn + list string :=
  st <-? apply_hunks lines (0, []) hs ;; inr (snd st ++ skipn (fst st) lines).
Definition _apply_in_memory {P : Unidiff} (original : string) (fi : FileInfo) : pexn + string :=
  match PatchSet (_rebuild_patch_for_file fi) with
  | None => inl UnidiffParseError
  | Some [] => inr original
  | Some (patched_file :: _) =>
      lines <-? patched_lines (lines_keeping "" original) (uf_hunks patched_file) ;;
      inr (join "" lines)
  end.

(** ** services/project_patch.py *)

(** The steps of the disk, by the place of the file in the patch; a failed write may leave some bytes. *)
Inductive disk_step : Type := SCopy | SWrite | SSync | SRename | SRemove | SUndo | SClean.
Class Faults : Type := { fault : nat -> disk_step -> bool; left_behind : nat -> disk_step -> option string }.
(** [read_text] with [errors="replace"], before newlines are translated *)
Class TextFiles : Type := { decode_replace : string -> string }.

(** Universal newlines: [read_text] reads every line end as a newline. *)
Fixpoint universal_newlines (s : string) : string :=
  match s with
  | "" => ""
  | String c r =>
      if Ascii.eqb c "013" then String newline (match r with String "010" r' => universal_newlines r' | _ => universal_newlines r end)
      else String c (universal_newlines r)
  end.

(** [root / rel]: an absolute [rel] stands for itself. *)
Definition slash (root : path) (rel : string) : path := (if startswith "/" rel then [] else root) ++ parts rel.
Definition _resolve_within_root (f : fs) (project_root : path) (rel_path : string) : pexn + path :=
  match resolve f (slash project_root rel_path), resolve f project_root with
  | Some full_path, Some resolved_root =>
      check_p (under full_path resolved_root) (PatchValidationError "path escapes project root") ;;?
      inr full_path
  | _, _ => inl SymlinkLoop
  end.

Record Prepared : Type := mkPrepared {
  pp_full : path; pp_new : string; pp_hunks : nat; pp_delete : bool }.
Inductive file_status : Type := FDryRun | FApplied | FFailed.
Record FileResult : Type := mkFileResult { fr_path : string; fr_status : file_status; fr_hunks : nat }.
Record Response : Type := mkResponse {
  rs_success : bool; rs_applied : nat; rs_failed : nat; rs_hunks : nat; rs_preview : option string; rs_files : list FileResult }.

Section Apply.
Context {P : Unidiff} {U : Utf8} {T : TextFiles} {X : Faults}.
Variable rid : string.

Definition read_text (f : fs) (p : path) : pexn + string :=
  match read_bytes f p with inl e => inl (OSError e) | inr c => inr (universal_newlines (decode_replace c)) end.
Definition original_of (f : fs) (p : path) : pexn + string := if exists_ f p then read_text f p else inr "".
Definition size_of (f : fs) (p : path) : Z :=
  match read_bytes f p with inr c => Z.of_nat (slen c) | inl _ => 0 end.

Definition dry_one (f : fs) (root : path) (fi : FileInfo) : pexn + list string :=
  full_path <-? _resolve_within_root f root (fi_path fi) ;;
  original <-? original_of f full_path ;;
  if is_delete fi
  then inr ["--- " +s+ fi_path fi +s+ sc newline +s+ "+++ /dev/null" +s+ sc newline +s+ original]
  else
    new_content <-? _apply_in_memory original fi ;;
    inr (if String.eqb original new_content then []
         else ["--- " +s+ fi_path fi +s+ sc newline +s+ "+++ " +s+ fi_path fi +s+ sc newline +s+ new_content]).
Fixpoint traverse {A B} (g : A -> pexn + B) (l : list A) : pexn + list B :=
  match l with [] => inr [] | a :: l => b <-? g a ;; bs <-? traverse g l ;; inr (b :: bs) end.

Definition prepare_one (f : fs) (root : path) (expected_hashes : dict string) (fi : FileInfo) : pexn + Prepared :=
  full_path <-? _resolve_within_root f root (fi_path fi) ;;
  let there := exists_ f full_path in
  check_p (negb (there && (MAX_FILE_SIZE <? size_of f full_path)%Z)) (PatchValidationError "file too large") ;;?
  original <-? original_of f full_path ;;
  match dict_get (fi_path fi) expected_hashes with
  | Some expected => check_p (negb there || String.eqb (sha256_of (encode original)) expected) HashMismatchError
  | None => inr tt
  end ;;?
  check_p (negb (is_delete fi && negb there)) (PatchValidationError "cannot delete") ;;?
  new_content <-? _apply_in_memory original fi ;;
  inr (mkPrepared full_path new_content (hunk_count fi) (is_delete fi)).

Definition beside (full_path : path) (ending : string) : path :=
  removelast full_path ++ ["." +s+ List.last full_path "" +s+ ".mcp-patch-" +s+ rid +s+ ending].
Definition backup_of (full_path : path) : path := beside full_path ".bak".
Definition tmp_of (full_path : path) : path := beside full_path ".tmp".

(** A step: it fails, leaving something or nothing behind, or runs. *)
Definition write_at (p : path) (bytes : string) (f : fs) : errno + fs :=
  match entry_of f p with
  | inl e => inl e
  | inr q => match node_at f q with Some NDir => inl EISDIR | _ => inr (<[q := NFile bytes]> f) end
  end.
Definition attempt (i : nat) (s : disk_step) (leaves : path) (op : fs -> errno + fs) (f : fs) : bool * fs :=
  if fault i s
  then (false, match left_behind i s with
               | Some bytes => match write_at leaves bytes f with inr f' => f' | inl _ => f end
               | None => f
               end)
  else match op f with inr f' => (true, f') | inl _ => (false, f) end.
(** One step, then the rest when it ran *)
Definition then_ (m : fs -> bool * fs) (k : fs -> bool * fs) (f : fs) : bool * fs :=
  let (ok, f) := m f in if ok then k f else (false, f).
(** A step without anything to leave behind *)
Definition plain (i : nat) (s : disk_step) (op : fs -> errno + fs) (f : fs) : bool * fs :=
  if fault i s then (false, f) else match op f with inr f' => (true, f') | inl _ => (false, f) end.
Definition copy2 (src dst : path) (f : fs) : errno + fs :=
  match read_bytes f src with inl e => inl e | inr c => write_at dst c f end.

(** The body of the [try] for one file *)
Definition write_one (i : nat) (pr : Prepared) (existed_before : bool) : fs -> bool * fs :=
  let full_path := pp_full pr in
  then_ (fun f => if existed_before then attempt i SCopy (backup_of full_path) (copy2 full_path (backup_of full_path)) f else (true, f))
    (if pp_delete pr then plain i SRemove (fun f => unlink f full_path)
     else then_ (attempt i SWrite (tmp_of full_path) (write_at (tmp_of full_path) (encode (pp_new pr))))
            (then_ (plain i SSync inr)
               (plain i SRename (fun f => replace_file f (tmp_of full_path) full_path)))).

Record Completed : Type := mkCompleted { cp_at : nat; cp_path : path; cp_existed : bool }.
(** The rollback: whether it worked everywhere *)
Definition undo_one (c : Completed) : fs -> bool * fs :=
  plain (cp_at c) SUndo (fun f => if cp_existed c then replace_file f (backup_of (cp_path c)) (cp_path c) else unlink f (cp_path c)).
Fixpoint undo_all (completed : list Completed) (f : fs) : bool * fs :=
  match completed with
  | [] => (true, f)
  | c :: completed => let (ok, f) := undo_one c f in let (oks, f) := undo_all completed f in (ok && oks, f)
  end.
(** [unlink(missing_ok=True)], its exceptions passed over *)
Definition clear (i : nat) (p : path) (f : fs) : fs := snd (plain i SClean (fun f => unlink f p) f).
Definition clear_tmps (completed : list Completed) (f : fs) : fs :=
  fold_left (fun f c => clear (cp_at c) (tmp_of (cp_path c)) f) completed f.
Definition clear_both (completed : list Completed) (f : fs) : fs :=
  fold_left (fun f c => clear (cp_at c) (tmp_of (cp_path c)) (clear (cp_at c) (backup_of (cp_path c)) f)) completed f.

Definition relative_str (full_path root : path) : pexn + string :=
  match relative_to full_path root with
  | None => inl NotBelow
  | Some [] => inr "."
  | Some rel => inr (join "/" rel)
  end.
Definition failed_response (root full_path : path) : pexn + Response :=
  rel <-? relative_str full_path root ;;
  inr (mkResponse false 0 1 0 None [mkFileResult rel FFailed 0]).
(** The loop of the writes: what is left to do, what has been done *)
Fixpoint write_all (root : path) (i : nat) (completed : list Completed) (prepared : list Prepared) (f : fs)
    : (pexn + option Response) * list Completed * fs :=
  match prepared with
  | [] => (inr None, completed, f)
  | pr :: prepared =>
      let existed_before := exists_ f (pp_full pr) in
      let (ok, f) := write_one i pr existed_before f in
      if ok then write_all root (S i) (completed ++ [mkCompleted i (pp_full pr) existed_before]) prepared f
      else
        let (undone, f) := undo_all completed f in
        let f := clear_tmps completed f in
        ((if undone then r <-? failed_response root (pp_full pr) ;; inr (Some r) else inl RollbackFailedError), completed, f)
  end.
Definition total_hunks (files : list FileInfo) : nat := list_sum (map hunk_count files).
Definition applied_response (root : path) (prepared : list Prepared) : pexn + Response :=
  results <-? traverse (fun pr => rel <-? relative_str (pp_full pr) root ;; inr (mkFileResult rel FApplied (pp_hunks pr))) prepared ;;
  inr (mkResponse true (length prepared) 0 (list_sum (map pp_hunks prepared)) None results).
Definition commit (root : path) (prepared : list Prepared) (f : fs) : (pexn + Response) * fs :=
  match write_all root 0 [] prepared f with
  | (inl e, _, f) => (inl e, f)
  | (inr (Some r), _, f) => (inr r, f)
  | (inr None, completed, f) => (applied_response root prepared, clear_both completed f)
  end.

(** The checks before any file is looked at *)
Definition accepted_files (patch : string) (strip : Z) : pexn + list FileInfo :=
  check_p (Z.of_nat (slen (encode patch)) <=? MAX_PATCH_SIZE)%Z (PatchValidationError "patch too large") ;;?
  match PatchSet patch with
  | None => inl UnidiffParseError
  | Some patch_set =>
      let files := _parse_patch strip patch_set in
      check_p (length files <=? MAX_FILES) (PatchValidationError "too many files") ;;?
      check_p (total_hunks files <=? MAX_HUNKS) (PatchValidationError "too many hunks") ;;?
      _validate_no_forbidden_ops files ;;?
      inr files
  end.
Definition project_of (pol : WorkspacePolicy) (f : fs) (project : string) : pexn + path :=
  match _resolve_project_root pol f project with inl _ => inl ProjectNotFoundError | inr root => inr root end.
Definition prepare (pol : WorkspacePolicy) (f : fs) (project patch : string) (strip : Z) (expected_hashes : dict string)
    : pexn + path * list Prepared :=
  files <-? accepted_files patch strip ;;
  root <-? project_of pol f project ;;
  prepared <-? traverse (prepare_one f root expected_hashes) files ;;
  inr (root, prepared).
Definition apply_project_patch (pol : WorkspacePolicy) (project patch : string) (strip : Z) (expected_hashes : dict string)
    (dry_run : bool) (f : fs) : (pexn + Response) * fs :=
  if dry_run
  then
    (files <-? accepted_files patch strip ;;
     root <-? project_of pol f project ;;
     previews <-? traverse (dry_one f root) files ;;
     inr (mkResponse true (length files) 0 (total_hunks files) (Some (join (sc newline) (concat previews)))
            (map (fun fi => mkFileResult (fi_path fi) FDryRun (hunk_count fi)) files)), f)
  else
    match prepare pol f project patch strip expected_hashes with
    | inl e => (inl e, f)
    | inr (root, prepared) => commit root prepared f
    end.
End Apply.

(** * What a patch does to the files *)

(** ** Resolved paths *)
(** No prefix of the path is a link, and its names are ordinary. *)
Definition linkless (f : fs) (p : path) : Prop := forall q x t, p = q ++ x -> q <> [] -> f !! q <> Some (NLink t).
Definition plainly (f : fs) (p : path) : Prop := linkless f p /\ all_ordinary p.

Lemma linkless_snoc f d x : linkless f d -> (forall t, f !! (d ++ [x]) <> Some (NLink t)) -> linkless f (d ++ [x]).
Proof.
  intros H Hx q y t E Hq. destruct y as [|y0 y] using rev_ind.
  - rewrite app_nil_r in E. subst q. apply Hx.
  - rewrite app_assoc in E. apply app_inj_tail in E as [E _]. by apply (H q y).
Qed.
Lemma linkless_init f d x : linkless f (d ++ [x]) -> linkless f d.
Proof. intros H q y t ->. apply (H q (y ++ [x])). by rewrite <- app_assoc. Qed.
Lemma plainly_init f d x : plainly f (d ++ [x]) -> plainly f d.
Proof. intros [H1 [H2 _]%Forall_app]. split; [by eapply linkless_init | done]. Qed.
Lemma plainly_removelast f p : plainly f p -> plainly f (removelast p).
Proof.
  destruct p as [|x p] using rev_ind; [done |]. rewrite removelast_last. apply plainly_init.
Qed.

Lemma ordinary_spec name : is_dot name = false -> String.eqb name ".." = false -> ordinary name = true.
Proof. unfold ordinary. by intros -> ->. Qed.
Lemma realpath_plain f l : forall rest cur p, plainly f cur -> realpath f l cur rest = Some p -> plainly f p.
Proof.
  assert (Hstart : forall cur t, plainly f cur -> plainly f (link_start cur t)).
  { intros cur t H. unfold link_start. destruct (startswith "/" t); [| done]. split; [| constructor].
    intros q x t' E. by destruct q. }
  assert (Hgo : forall cur name, plainly f cur -> is_dot name = false -> String.eqb name ".." = false ->
    (forall t, f !! (cur ++ [name]) <> Some (NLink t)) -> plainly f (cur ++ [name])).
  { intros cur name [H1 H2] Hd Hu Hl. split; [by apply linkless_snoc |]. apply Forall_app. split; [done |].
    constructor; [by apply ordinary_spec | done]. }
  induction l as [|l IHl]; (induction rest as [|name r IH]; intros cur p Hc H; cbn [realpath] in H; [by injection H as <- |]);
    (destruct (is_dot name) eqn:Ed; [by apply (IH cur) |]);
    (destruct (String.eqb name "..") eqn:Eu; [by apply (IH (removelast cur)); [apply plainly_removelast |] |]);
    destruct (f !! (cur ++ [name])) as [[c| |t]|] eqn:E; try done;
    try (apply (IH (cur ++ [name])); [by apply Hgo; [.. | intros ? E2; rewrite E in E2] | done]).
  by apply (IHl (split_on "/" t ++ r) (link_start cur t)); [apply Hstart |].
Qed.

Lemma walk_plainly f l rest : forall cur r, plainly f (cur ++ rest) -> node_at f cur = Some NDir -> walk f l cur rest = inr r ->
  r = cur ++ rest /\ real_from f cur (removelast rest).
Proof.
  induction rest as [|name rest IH]; intros cur r Hp Hd H; [rewrite walk_nil in H; injection H as <-; by rewrite app_nil_r |].
  pose proof Hp as [Hl [_ [Ho _]%List.Forall_cons_iff]%Forall_app]. rewrite walk_step in H by done.
  assert (Hn : forall t, f !! (cur ++ [name]) <> Some (NLink t)) by (intros t; apply (Hl _ rest t); [by rewrite <- app_assoc | by destruct cur]).
  assert (Hp' : plainly f ((cur ++ [name]) ++ rest)) by (by rewrite <- app_assoc).
  destruct rest as [|y rest].
  - destruct (f !! (cur ++ [name])) as [[c| |t]|] eqn:E; [| | by destruct (Hn t) | done];
      (rewrite walk_nil in H; injection H as <-; done).
  - destruct (f !! (cur ++ [name])) as [[c| |t]|] eqn:E; [| | by destruct (Hn t) | done].
    + replace (walk f l (cur ++ [name]) (y :: rest)) with (@inl errno path ENOTDIR) in H; [done |].
      destruct l; cbn [walk]; by rewrite node_at_snoc, E.
    + destruct (IH (cur ++ [name]) r Hp') as [-> Hr]; [by rewrite node_at_snoc | done |]. rewrite <- app_assoc. split; [done |].
      change (removelast (name :: y :: rest)) with (name :: removelast (y :: rest)). by repeat split.
Qed.
(** An entry that is found at a resolved path is that path, in a directory reached without links. *)
Lemma entry_plainly f d x q : plainly f (d ++ [x]) -> entry_of f (d ++ [x]) = inr q -> q = d ++ [x] /\ real_dir f d.
Proof.
  intros Hp. unfold entry_of, find_path. rewrite removelast_last, last_last. pose proof (plainly_init _ _ _ Hp) as Hd.
  destruct (walk f MAXSYMLINKS [] d) as [|r] eqn:E; [done |]. destruct (walk_plainly f _ d [] r Hd eq_refl E) as [-> Hr].
  cbn [app]. destruct (node_at f d) as [[| |]|] eqn:En; try done. intros [= <-]. split; [done |].
  destruct d as [|y d] using rev_ind; [done |]. rewrite removelast_last in Hr. apply real_snoc. split; [exact Hr |].
  rewrite node_at_snoc in En. split; [| done]. destruct Hd as [_ Hd]. apply Forall_app in Hd as [_ Hd]. by inversion Hd.
Qed.

(** ** Changes *)
(** No link appears, and the directories stay what they are. *)
Definition steady (f f' : fs) : Prop :=
  (forall q t, f' !! q = Some (NLink t) -> f !! q = Some (NLink t)) /\ (forall q, f !! q = Some NDir <-> f' !! q = Some NDir).
(** A steady change of some paths only *)
Definition alters (l : list path) (f f' : fs) : Prop := steady f f' /\ forall q, ~ In q l -> f' !! q = f !! q.

Lemma alters_refl l f : alters l f f.
Proof. by repeat split. Qed.
Lemma steady_trans f1 f2 f3 : steady f1 f2 -> steady f2 f3 -> steady f1 f3.
Proof. intros [A1 A2] [B1 B2]. split; [auto |]. intros q. by rewrite A2. Qed.
Lemma alters_trans l f1 f2 f3 : alters l f1 f2 -> alters l f2 f3 -> alters l f1 f3.
Proof. intros [A1 A2] [B1 B2]. split; [by eapply steady_trans |]. intros q Hq. by rewrite B2, A2. Qed.
Lemma alters_more l l' f f' : alters l f f' -> incl l l' -> alters l' f f'.
Proof. intros [Hs H] Hi. split; [done |]. intros q Hq. apply H. intros Hin. by apply Hq, Hi. Qed.
Lemma alters_write f p c : f !! p <> Some NDir -> alters [p] f (<[p := NFile c]> f).
Proof.
  intros Hn. split; [split |].
  - intros q t. destruct (decide (p = q)) as [<- | Hne]; [by rewrite lookup_insert_eq | by rewrite lookup_insert_ne].
  - intros q. destruct (decide (p = q)) as [<- | Hne]; [by rewrite lookup_insert_eq | by rewrite lookup_insert_ne].
  - intros q Hq. apply lookup_insert_ne. intros ->. apply Hq. by left.
Qed.
Lemma alters_delete f p : f !! p <> Some NDir -> alters [p] f (delete p f).
Proof.
  intros Hn. split; [split |].
  - intros q t. destruct (decide (p = q)) as [<- | Hne]; [by rewrite lookup_delete_eq | by rewrite lookup_delete_ne].
  - intros q. destruct (decide (p = q)) as [<- | Hne]; [by rewrite lookup_delete_eq | by rewrite lookup_delete_ne].
  - intros q Hq. apply lookup_delete_ne. intros ->. apply Hq. by left.
Qed.
Lemma alters_move f s p c : f !! s = Some (NFile c) -> f !! p <> Some NDir -> alters [s; p] f (<[p := NFile c]> (delete s f)).
Proof.
  intros Hs Hp. apply (alters_trans _ _ (delete s f)).
  - apply (alters_more [s]); [apply alters_delete; by rewrite Hs | intros q [<- | []]; by left].
  - apply (alters_more [p]); [| intros q [<- | []]; right; by left]. apply alters_write.
    destruct (decide (s = p)) as [<- | Hne]; [by rewrite lookup_delete_eq | by rewrite lookup_delete_ne].
Qed.
Lemma plainly_steady f f' p : plainly f p -> steady f f' -> plainly f' p.
Proof. intros [H1 H2] [Hl _]. split; [| done]. intros q x t E Hq Hf. by apply (H1 q x t E Hq), Hl. Qed.
Lemma real_steady f f' d : real_dir f d -> steady f f' -> real_dir f' d.
Proof.
  intros H [_ Hd]. revert H. unfold real_dir. generalize (@nil string). induction d as [|x d IH]; intros cur; [done |].
  intros (Ho & Hn & Hr). split; [done |]. split; [by apply Hd | by apply IH].
Qed.

(** ** The operations at resolved paths *)
Section Effects.
Context {P : Unidiff} {U : Utf8} {T : TextFiles} {X : Faults}.
Variable rid : string.

Lemma write_at_effect f d x c f' : plainly f (d ++ [x]) -> write_at (d ++ [x]) c f = inr f' ->
  real_dir f d /\ f !! (d ++ [x]) <> Some NDir /\ f' = <[d ++ [x] := NFile c]> f.
Proof.
  intros Hp. unfold write_at. destruct (entry_of f (d ++ [x])) as [|q] eqn:E; [done |].
  destruct (entry_plainly _ _ _ _ Hp E) as [-> Hd]. rewrite node_at_snoc.
  destruct (f !! (d ++ [x])) as [[| |]|] eqn:En; intros [= <-]; done.
Qed.
Lemma unlink_effect f d x f' : plainly f (d ++ [x]) -> unlink f (d ++ [x]) = inr f' ->
  real_dir f d /\ f !! (d ++ [x]) <> None /\ f !! (d ++ [x]) <> Some NDir /\ f' = delete (d ++ [x]) f.
Proof.
  intros Hp. unfold unlink. destruct (entry_of f (d ++ [x])) as [|q] eqn:E; [done |].
  destruct (entry_plainly _ _ _ _ Hp E) as [-> Hd]. rewrite node_at_snoc.
  destruct (f !! (d ++ [x])) as [[| |]|] eqn:En; intros [= <-]; done.
Qed.
Lemma replace_effect f d s x c f' : plainly f (d ++ [s]) -> plainly f (d ++ [x]) -> f !! (d ++ [s]) = Some (NFile c) ->
  replace_file f (d ++ [s]) (d ++ [x]) = inr f' ->
  real_dir f d /\ f !! (d ++ [x]) <> Some NDir /\ f' = <[d ++ [x] := NFile c]> (delete (d ++ [s]) f).
Proof.
  intros Hs Hp Hf. unfold replace_file. destruct (entry_of f (d ++ [s])) as [|q] eqn:Es; [done |].
  destruct (entry_of f (d ++ [x])) as [|r] eqn:Ex; [done |].
  destruct (entry_plainly _ _ _ _ Hs Es) as [-> Hd]. destruct (entry_plainly _ _ _ _ Hp Ex) as [-> _].
  rewrite !node_at_snoc, Hf. destruct (f !! (d ++ [x])) as [[| |]|] eqn:En; intros [= <-]; done.
Qed.
Lemma replace_runs f d s x c : real_dir f d -> f !! (d ++ [s]) = Some (NFile c) -> f !! (d ++ [x]) <> Some NDir ->
  replace_file f (d ++ [s]) (d ++ [x]) = inr (<[d ++ [x] := NFile c]> (delete (d ++ [s]) f)).
Proof.
  intros Hd Hs Hx. unfold replace_file. rewrite !real_entry by done. rewrite !node_at_snoc, Hs.
  by destruct (f !! (d ++ [x])) as [[| |]|].
Qed.
Lemma unlink_runs f d x : real_dir f d -> f !! (d ++ [x]) <> None -> f !! (d ++ [x]) <> Some NDir ->
  unlink f (d ++ [x]) = inr (delete (d ++ [x]) f).
Proof.
  intros Hd H1 H2. unfold unlink. rewrite real_entry, node_at_snoc by done. by destruct (f !! (d ++ [x])) as [[| |]|].
Qed.

(** *** The names drawn for one file *)
Definition bak_name (x : string) : string := "." +s+ x +s+ ".mcp-patch-" +s+ rid +s+ ".bak".
Definition tmp_name (x : string) : string := "." +s+ x +s+ ".mcp-patch-" +s+ rid +s+ ".tmp".
Lemma backup_snoc d x : backup_of rid (d ++ [x]) = d ++ [bak_name x].
Proof. unfold backup_of, beside. by rewrite removelast_last, last_last. Qed.
Lemma tmp_snoc d x : tmp_of rid (d ++ [x]) = d ++ [tmp_name x].
Proof. unfold tmp_of, beside. by rewrite removelast_last, last_last. Qed.
Lemma long_ordinary s : 3 <= slen s -> ordinary s = true.
Proof.
  intros H. unfold ordinary, is_dot.
  destruct (String.eqb_spec s "") as [-> |]; [cbn in H; lia |]. destruct (String.eqb_spec s ".") as [-> |]; [cbn in H; lia |].
  by destruct (String.eqb_spec s "..") as [-> |]; [cbn in H; lia |].
Qed.
Lemma names_ordinary x : ordinary (bak_name x) = true /\ ordinary (tmp_name x) = true.
Proof. split; apply long_ordinary; unfold bak_name, tmp_name; rewrite !slen_app; cbn; lia. Qed.
Lemma append_inj_r a b c : a +s+ c = b +s+ c -> a = b.
Proof.
  intros H. apply (f_equal srev) in H. rewrite !srev_append in H. apply append_inj_l in H.
  by rewrite <- (srev_involutive a), H, srev_involutive.
Qed.
Lemma bak_inj x y : bak_name x = bak_name y -> x = y.
Proof. unfold bak_name. intros H. apply append_inj_l in H. by apply append_inj_r in H. Qed.
Lemma bak_tmp x y : bak_name x <> tmp_name y.
Proof.
  unfold bak_name, tmp_name. intros H. apply (f_equal srev) in H.
  rewrite !srev_append in H. discriminate H.
Qed.
Lemma own_names x : x <> bak_name x /\ x <> tmp_name x.
Proof.
  split; intros H; apply (f_equal slen) in H; unfold bak_name, tmp_name in H; rewrite !slen_app in H; cbn in H; lia.
Qed.

(** *** The steps *)
Lemma plain_spec i st op f : let (ok, f') := plain i st op f in if ok then op f = inr f' else f' = f.
Proof. unfold plain. destruct (fault i st); [done |]. by destruct (op f). Qed.
Lemma attempt_spec i st d x op f : plainly f (d ++ [x]) ->
  (forall f', op f = inr f' -> exists c, write_at (d ++ [x]) c f = inr f') ->
  let (ok, f') := attempt i st (d ++ [x]) op f in alters [d ++ [x]] f f' /\ (ok = true -> op f = inr f').
Proof.
  intros Hp Hop. assert (Hw : forall c f', write_at (d ++ [x]) c f = inr f' -> alters [d ++ [x]] f f').
  { intros c f' H. destruct (write_at_effect f d x c f' Hp H) as (_ & Hn & ->). by apply alters_write. }
  unfold attempt. destruct (fault i st).
  - destruct (left_behind i st) as [c|]; [| by split; [apply alters_refl |]].
    destruct (write_at _ c f) as [|f'] eqn:E; [by split; [apply alters_refl |] |]. split; [by eapply Hw | done].
  - destruct (op f) as [|f'] eqn:E; [by split; [apply alters_refl |] |]. destruct (Hop f' eq_refl) as [c Hc].
    split; [by eapply Hw | done].
Qed.
Lemma real_back f f' l d : alters l f f' -> (forall q, In q l -> length d < length q) -> real_dir f' d -> real_dir f d.
Proof.
  intros [_ H] Hl Hr. apply (real_from_frame f'); [| exact Hr]. intros q x -> _. cbn [app]. symmetry. apply H.
  intros Hin%Hl. rewrite length_app in Hin. lia.
Qed.
Lemma plainly_file f d x : plainly f (d ++ [x]) -> real_dir f d ->
  stat f (d ++ [x]) = match f !! (d ++ [x]) with Some n => inr n | None => inl ENOENT end.
Proof.
  intros [Hl Ho] Hd. apply Forall_app in Ho as [_ Ho]. apply real_stat; [done | by inversion Ho |].
  rewrite real_symlink by done. destruct (f !! (d ++ [x])) as [[| |t]|] eqn:E; try done.
  exfalso. apply (Hl (d ++ [x]) [] t); [by rewrite app_nil_r | by destruct d | done].
Qed.

(** What a file of the patch is to become *)
Definition target_node (pr : Prepared) : option fnode := if pp_delete pr then None else Some (NFile (encode (pp_new pr))).
(** The outcome of the steps for one file *)
Definition one_outcome (pr : Prepared) (existed : bool) (d : path) (x : string) (f : fs) (ok : bool) (f' : fs) : Prop :=
  if ok then
    real_dir f d /\ f' !! (d ++ [x]) = target_node pr /\
    if existed then exists c, f !! (d ++ [x]) = Some (NFile c) /\ f' !! (d ++ [bak_name x]) = Some (NFile c)
    else f !! (d ++ [x]) = None /\ f' !! (d ++ [x]) <> None
  else f' !! (d ++ [x]) = f !! (d ++ [x]).
Lemma snoc_ne {A} (d : list A) x y : x <> y -> d ++ [x] <> d ++ [y].
Proof. intros Hne H. by apply app_inj_tail in H as [_ H]. Qed.

Lemma backup_step i d x ex f : plainly f (d ++ [x]) -> plainly f (d ++ [bak_name x]) -> ex = exists_ f (d ++ [x]) ->
  let (ok, f1) := (if ex then attempt i SCopy (d ++ [bak_name x]) (copy2 (d ++ [x]) (d ++ [bak_name x])) f else (true, f)) in
  alters [d ++ [bak_name x]] f f1 /\
  (ok = true -> if ex then exists c, f !! (d ++ [x]) = Some (NFile c) /\ f1 !! (d ++ [bak_name x]) = Some (NFile c) else f1 = f).
Proof.
  intros Hp Hb Ex. destruct ex; [| by split; [apply alters_refl |]].
  pose proof (attempt_spec i SCopy d (bak_name x) (copy2 (d ++ [x]) (d ++ [bak_name x])) f Hb) as H.
  destruct (attempt i SCopy _ _ f) as [ok f1]. destruct H as [Ha Hok].
  { intros f' Hf. unfold copy2 in Hf. destruct (read_bytes f (d ++ [x])); [done |]. by eexists. }
  split; [done |]. intros ->. specialize (Hok eq_refl). unfold copy2 in Hok.
  destruct (read_bytes f (d ++ [x])) as [|c] eqn:Er; [done |].
  destruct (write_at_effect f d (bak_name x) c f1 Hb Hok) as (Hd & _ & ->). exists c.
  unfold read_bytes in Er. rewrite plainly_file in Er by done.
  destruct (f !! (d ++ [x])) as [[c'| |]|]; try done. injection Er as ->. by rewrite lookup_insert_eq.
Qed.

Lemma write_one_spec i pr d x f : pp_full pr = d ++ [x] -> plainly f (d ++ [x]) ->
  plainly f (d ++ [bak_name x]) -> plainly f (d ++ [tmp_name x]) ->
  let ex := exists_ f (d ++ [x]) in
  let (ok, f') := write_one rid i pr ex f in
  alters [d ++ [bak_name x]; d ++ [tmp_name x]; d ++ [x]] f f' /\ one_outcome pr ex d x f ok f'.
Proof.
  intros Hfull Hp Hb Ht ex. destruct (own_names x) as [Nb Nt].
  set (p := d ++ [x]) in *. set (b := d ++ [bak_name x]) in *. set (t := d ++ [tmp_name x]) in *.
  assert (Npb : p <> b) by (by apply snoc_ne). assert (Npt : p <> t) by (by apply snoc_ne).
  assert (Nbt : b <> t) by (apply snoc_ne, bak_tmp).
  assert (Hlen : forall q, In q [b; t; p] -> length d < length q).
  { intros q Hq. unfold b, t, p in Hq. cbn in Hq. intuition (subst q; rewrite length_app; simpl; lia). }
  assert (Isub : forall q, In q [b; t; p] -> incl [q] [b; t; p]) by (intros q Hq r [<- | []]; done).
  unfold write_one. rewrite Hfull.
  replace (backup_of rid p) with b by (symmetry; apply backup_snoc). replace (tmp_of rid p) with t by (symmetry; apply tmp_snoc).
  unfold then_ at 1.
  pose proof (backup_step i d x ex f Hp Hb eq_refl) as Hcopy. fold b p in Hcopy.
  destruct (if ex then _ else _) as [ok1 f1]. destruct Hcopy as [A1 Hc].
  assert (A1' : alters [b; t; p] f f1) by (apply (alters_more [b]); [done | apply Isub; by left]).
  assert (E1 : f1 !! p = f !! p) by (apply A1; intros [|[]]; by apply Npb).
  destruct ok1; [| by split]. specialize (Hc eq_refl).
  assert (Hp1 : plainly f1 p) by (eapply plainly_steady; [done | apply A1]).
  assert (Ht1 : plainly f1 t) by (eapply plainly_steady; [done | apply A1]).
  (* once the last step has run in a directory that is real *)
  assert (Hend : forall f2, alters [b; t; p] f f2 -> f2 !! p = target_node pr -> f2 !! b = f1 !! b -> real_dir f1 d ->
    (f !! p = None -> f2 !! p <> None) ->
    alters [b; t; p] f f2 /\ one_outcome pr ex d x f true f2).
  { intros f2 A2 H2 Hb2 Hd1 Hnew. split; [done |]. assert (Hd : real_dir f d) by exact (real_back f f1 _ d A1' Hlen Hd1).
    split; [done |]. split; [done |]. destruct ex eqn:Ex.
    - destruct Hc as (c & H1 & H3). exists c. split; [done |]. fold b. by rewrite Hb2.
    - assert (Hn : f !! p = None).
      { unfold ex, exists_ in Ex. unfold p in Ex. rewrite plainly_file in Ex by done. fold p in Ex. by destruct (f !! p). }
      by split; [| apply Hnew]. }
  unfold target_node in Hend. destruct (pp_delete pr).
  - pose proof (plain_spec i SRemove (fun f => unlink f p) f1) as H. destruct (plain i SRemove _ f1) as [[] f2]; [| subst f2; by split].
    destruct (unlink_effect f1 d x f2 Hp1 H) as (Hd1 & Hsome & Hn & ->). fold p in Hn, Hsome |- *.
    apply Hend; [| by rewrite lookup_delete_eq | by rewrite lookup_delete_ne | done | congruence].
    eapply alters_trans; [done |]. apply (alters_more [p]); [by apply alters_delete | apply Isub; simpl; auto].
  - unfold then_ at 1. pose proof (attempt_spec i SWrite d (tmp_name x) (write_at t (encode (pp_new pr))) f1 Ht1) as H. fold t in H.
    destruct (attempt i SWrite t _ f1) as [ok2 f2]. destruct H as [A2 H2]; [by eauto |].
    assert (A2' : alters [b; t; p] f f2).
    { eapply alters_trans; [done |]. apply (alters_more [t]); [done | apply Isub; simpl; auto]. }
    assert (E2 : f2 !! p = f !! p) by (rewrite <- E1; apply A2; intros [|[]]; by apply Npt).
    destruct ok2; [| by split]. destruct (write_at_effect f1 d (tmp_name x) _ f2 Ht1 (H2 eq_refl)) as (Hd1 & _ & E).
    unfold then_ at 1. pose proof (plain_spec i SSync inr f2) as H3. destruct (plain i SSync inr f2) as [[] f3]; [| subst f3; by split].
    injection H3 as <-. pose proof (plain_spec i SRename (fun f => replace_file f t p) f2) as H4.
    destruct (plain i SRename _ f2) as [[] f4]; [| subst f4; by split].
    assert (Htt : f2 !! t = Some (NFile (encode (pp_new pr)))) by (rewrite E; apply lookup_insert_eq).
    destruct (replace_effect f2 d (tmp_name x) x (encode (pp_new pr)) f4) as (_ & Hn & ->);
      [apply (plainly_steady f1); [done | apply A2] | apply (plainly_steady f1); [done | apply A2] | done | done |].
    fold p t in Hn |- *. apply Hend; [| by rewrite lookup_insert_eq | | done | by rewrite lookup_insert_eq].
    + eapply alters_trans; [done |]. apply (alters_more [t; p]); [by apply alters_move | intros q [<- | [<- | []]]; simpl; auto].
    + rewrite lookup_insert_ne, lookup_delete_ne by congruence. apply A2. intros [|[]]; congruence.
Qed.

(** *** A batch *)
(** The names the batch may leave behind *)
Definition left_name (paths : list path) (q : path) : Prop :=
  exists p, In p paths /\ (q = backup_of rid p \/ q = tmp_of rid p).
(** The targets are resolved and told apart, and the drawn names are new. *)
Record drawn (f : fs) (paths : list path) : Prop := {
  dr_once : NoDup paths;
  dr_targets : forall p, In p paths -> plainly f p /\ p <> [];
  dr_new : forall q, left_name paths q -> ~ In q paths /\ f !! q = None
}.
Definition kept (f0 : fs) (paths done_ : list path) (f : fs) : Prop :=
  steady f0 f /\ forall q, ~ left_name paths q -> ~ In q done_ -> f !! q = f0 !! q.
(** What the rollback of a completed file finds *)
Definition recoverable (f0 f : fs) (c : Completed) : Prop :=
  exists d x, cp_path c = d ++ [x] /\ real_dir f d /\ f !! (d ++ [x]) <> Some NDir /\
  if cp_existed c then exists bytes, f0 !! (d ++ [x]) = Some (NFile bytes) /\ f !! (d ++ [bak_name x]) = Some (NFile bytes)
  else f0 !! (d ++ [x]) = None /\ f !! (d ++ [x]) <> None.

Lemma left_backup paths p : In p paths -> left_name paths (backup_of rid p).
Proof. intros H. exists p. auto. Qed.
Lemma left_tmp paths p : In p paths -> left_name paths (tmp_of rid p).
Proof. intros H. exists p. auto. Qed.
Lemma alters_kept f0 paths done_ f f' l : kept f0 paths done_ f -> alters l f f' ->
  (forall q, In q l -> left_name paths q \/ In q done_) -> kept f0 paths done_ f'.
Proof.
  intros [Hs H] [Hs' H'] Hl. split; [by eapply steady_trans | intros q H1 H2].
  rewrite H' by (intros Hin; by destruct (Hl q Hin)). by apply H.
Qed.
Lemma plainly_own f d x y : plainly f (d ++ [x]) -> ordinary y = true -> f !! (d ++ [y]) = None -> plainly f (d ++ [y]).
Proof.
  intros H Hy Hn. destruct (plainly_init _ _ _ H) as [H1 H2]. split; [apply linkless_snoc; [done | by rewrite Hn] |].
  apply Forall_app. by repeat constructor.
Qed.

Section Batch.
Variables (f0 : fs) (paths : list path).
Hypothesis Hdrawn : drawn f0 paths.

Lemma target_plain d x f : In (d ++ [x]) paths -> steady f0 f ->
  plainly f (d ++ [x]) /\ plainly f (d ++ [bak_name x]) /\ plainly f (d ++ [tmp_name x]).
Proof using Hdrawn.
  intros Hin Hs. destruct (dr_targets _ _ Hdrawn _ Hin) as [Hp _]. destruct (names_ordinary x) as [Ob Ot].
  assert (Hown : forall y, ordinary y = true -> left_name paths (d ++ [y]) -> plainly f (d ++ [y])).
  { intros y Hy Hl. apply (plainly_steady f0); [| done]. apply (plainly_own f0 d x y); [done | done |]. by apply (dr_new _ _ Hdrawn). }
  split; [by apply (plainly_steady f0) |]. split; apply Hown; [done | | done |].
  - rewrite <- backup_snoc. by apply left_backup.
  - rewrite <- tmp_snoc. by apply left_tmp.
Qed.
(** Names of one file are not those of another. *)
Lemma names_apart d x d' x' : In (d ++ [x]) paths -> In (d' ++ [x']) paths -> d ++ [x] <> d' ++ [x'] ->
  ~ In (d' ++ [bak_name x']) [d ++ [bak_name x]; d ++ [tmp_name x]; d ++ [x]] /\
  ~ In (d' ++ [x']) [d ++ [bak_name x]; d ++ [tmp_name x]; d ++ [x]].
Proof using Hdrawn.
  intros Hp Hp' Hne. pose proof (left_backup _ _ Hp) as Lb. pose proof (left_tmp _ _ Hp) as Lt. pose proof (left_backup _ _ Hp') as Lb'.
  rewrite backup_snoc in Lb, Lb'. rewrite tmp_snoc in Lt. pose proof (dr_new _ _ Hdrawn) as Hnew. split; cbn [In]; intros Hin.
  - destruct Hin as [E | [E | [E | []]]].
    + apply app_inj_tail in E as [-> E]. apply bak_inj in E. by subst x'.
    + apply app_inj_tail in E as [_ E]. by apply (bak_tmp x' x).
    + rewrite <- E in Lb'. by destruct (Hnew _ Lb') as [[] _].
  - destruct Hin as [E | [E | [E | []]]]; [rewrite E in Lb; by destruct (Hnew _ Lb) as [[] _] | rewrite E in Lt; by destruct (Hnew _ Lt) as [[] _] | done].
Qed.

(** The steps for one more file keep what the rollback of the others needs. *)
Lemma recoverable_alters c f f' d x : In (cp_path c) paths -> In (d ++ [x]) paths -> cp_path c <> d ++ [x] ->
  recoverable f0 f c -> alters [d ++ [bak_name x]; d ++ [tmp_name x]; d ++ [x]] f f' -> recoverable f0 f' c.
Proof using Hdrawn.
  intros Hc Hp Hne (d' & x' & E & Hd & Hn & H) [Hs Ha]. rewrite E in Hc, Hne.
  destruct (names_apart d x d' x' Hp Hc) as [Hb Hx]; [congruence |].
  exists d', x'. split; [done |]. split; [by eapply real_steady |]. rewrite (Ha _ Hb), (Ha _ Hx). done.
Qed.

Lemma undo_one_spec c f : In (cp_path c) paths -> steady f0 f -> recoverable f0 f c ->
  let (ok, f') := undo_one rid c f in
  if ok then exists d x, cp_path c = d ++ [x] /\ alters [d ++ [bak_name x]; d ++ [tmp_name x]; d ++ [x]] f f' /\ f' !! (d ++ [x]) = f0 !! (d ++ [x])
  else fault (cp_at c) SUndo = true.
Proof using Hdrawn.
  intros Hin Hs (d & x & E & Hd & Hn & H). unfold undo_one, plain. destruct (fault (cp_at c) SUndo); [done |]. rewrite E, backup_snoc.
  destruct (own_names x) as [Nb _]. destruct (cp_existed c).
  - destruct H as (bytes & H0 & Hb). rewrite (replace_runs f d _ x bytes) by done. exists d, x. split; [done |].
    split; [| by rewrite lookup_insert_eq]. apply (alters_more [d ++ [bak_name x]; d ++ [x]]); [by apply alters_move |].
    intros q [<- | [<- | []]]; simpl; auto.
  - destruct H as [H0 H1]. rewrite unlink_runs by done. exists d, x. split; [done |]. split; [| by rewrite lookup_delete_eq].
    apply (alters_more [d ++ [x]]); [by apply alters_delete |]. intros q [<- | []]; simpl; auto.
Qed.
Lemma own_left d x q : In (d ++ [x]) paths -> In q [d ++ [bak_name x]; d ++ [tmp_name x]; d ++ [x]] ->
  left_name paths q \/ q = d ++ [x].
Proof using Type.
  intros Hp [<- | [<- | [<- | []]]]; [left; rewrite <- backup_snoc; by apply left_backup | left; rewrite <- tmp_snoc; by apply left_tmp | by right].
Qed.
Lemma undo_all_spec completed f : NoDup (map cp_path completed) -> (forall c, In c completed -> In (cp_path c) paths) ->
  kept f0 paths (map cp_path completed) f -> (forall c, In c completed -> recoverable f0 f c) ->
  let (ok, f') := undo_all rid completed f in
  if ok then kept f0 paths [] f' else exists i, fault i SUndo = true.
Proof using Hdrawn.
  revert f. induction completed as [|c completed IH]; intros f Hnd Hin Hk Hr; cbn [undo_all]; [done |].
  pose proof (undo_one_spec c f (Hin c (or_introl eq_refl)) (proj1 Hk) (Hr c (or_introl eq_refl))) as H1.
  destruct (undo_one rid c f) as [[] f1].
  - destruct H1 as (d & x & E & Ha & Hx). apply NoDup_cons in Hnd as [Hc Hnd].
    assert (Hp : In (d ++ [x]) paths) by (rewrite <- E; apply Hin; by left).
    specialize (IH f1 Hnd (fun c' H => Hin c' (or_intror H))). destruct (undo_all rid completed f1) as [oks f2]. cbn [andb]. apply IH.
    + split; [eapply steady_trans; [apply Hk | apply Ha] |]. intros q Hq Hq'. destruct (decide (q = d ++ [x])) as [-> | Hne]; [done |].
      rewrite (proj2 Ha); [apply (proj2 Hk); [done |]; intros [E2 | Hin2]; [congruence | done] |].
      intros Hin2. by destruct (own_left d x q Hp Hin2).
    + intros c' Hc'. apply (recoverable_alters c' f f1 d x); [by apply Hin; right | done | | by apply Hr; right | done].
      intros E2. apply Hc. rewrite E, <- E2. apply list_elem_of_In. by apply in_map.
  - destruct (undo_all rid completed f1) as [oks f2]. cbn [andb]. by eexists.
Qed.

Lemma clear_kept c d x y f : In (d ++ [x]) paths -> left_name paths (d ++ [y]) -> plainly f (d ++ [y]) ->
  kept f0 paths c f -> forall i, kept f0 paths c (clear i (d ++ [y]) f) /\ alters [d ++ [y]] f (clear i (d ++ [y]) f).
Proof using Type.
  intros Hp Hl Hpl Hk i. assert (Ha : alters [d ++ [y]] f (clear i (d ++ [y]) f)).
  { unfold clear, plain. destruct (fault i SClean); [apply alters_refl |].
    destruct (unlink f (d ++ [y])) as [|f'] eqn:E; [apply alters_refl |].
    destruct (unlink_effect f d y f' Hpl E) as (_ & _ & Hn & ->). by apply alters_delete. }
  split; [| done]. eapply alters_kept; [done | done |]. intros q [<- | []]. by left.
Qed.
Lemma path_snoc p : In p paths -> exists d x, p = d ++ [x].
Proof using Hdrawn. intros Hin. destruct (dr_targets _ _ Hdrawn _ Hin) as [_ Hne]. destruct p as [|x d] using rev_ind; [done | by exists d, x]. Qed.
Lemma clear_tmps_kept c completed f : (forall c, In c completed -> In (cp_path c) paths) -> kept f0 paths c f ->
  kept f0 paths c (clear_tmps rid completed f).
Proof using Hdrawn.
  unfold clear_tmps. revert f. induction completed as [|k completed IH]; intros f Hin Hk; [done |]. cbn [fold_left].
  assert (Hp : In (cp_path k) paths) by (apply Hin; by left). destruct (path_snoc _ Hp) as (d & x & E). rewrite E in *.
  apply IH; [intros k' H; apply Hin; by right |]. pose proof (left_tmp _ _ Hp) as Hl. rewrite tmp_snoc in *.
  apply (clear_kept c d x); [done | done | apply (target_plain d x); [done | apply Hk] | done].
Qed.
Lemma clear_both_kept c completed f : (forall c, In c completed -> In (cp_path c) paths) -> kept f0 paths c f ->
  let f' := clear_both rid completed f in kept f0 paths c f' /\ forall q, In q paths -> f' !! q = f !! q.
Proof using Hdrawn.
  unfold clear_both. revert f. induction completed as [|k completed IH]; intros f Hin Hk; [done |]. cbn [fold_left].
  assert (Hp : In (cp_path k) paths) by (apply Hin; by left). destruct (path_snoc _ Hp) as (d & x & E). rewrite E in *.
  pose proof (left_tmp _ _ Hp) as Lt. pose proof (left_backup _ _ Hp) as Lb. rewrite tmp_snoc, backup_snoc in *.
  destruct (clear_kept c d x (bak_name x) f Hp Lb) with (i := cp_at k) as [K1 A1]; [apply (target_plain d x); [done | apply Hk] | done |].
  destruct (clear_kept c d x (tmp_name x) (clear (cp_at k) (d ++ [bak_name x]) f) Hp Lt) with (i := cp_at k) as [K2 A2]; [apply (target_plain d x); [done | apply K1] | exact K1 |].
  destruct (IH _ (fun k' H => Hin k' (or_intror H)) K2) as [K3 Hq]. split; [done |]. intros q Hq'. rewrite (Hq q Hq').
  pose proof (proj1 (dr_new _ _ Hdrawn _ Lb)) as Nb. pose proof (proj1 (dr_new _ _ Hdrawn _ Lt)) as Nt.
  rewrite (proj2 A2), (proj2 A1); [done | |]; by intros [<- | []].
Qed.

(** Nothing stands in the way of the files of the batch. *)
Definition ready (pr : Prepared) : Prop :=
  exists d x, pp_full pr = d ++ [x] /\ real_dir f0 d /\ f0 !! (d ++ [x]) <> Some NDir /\
  (pp_delete pr = true -> f0 !! (d ++ [x]) <> None).
Definition unhindered (prepared : list Prepared) : Prop :=
  (forall i st, fault i st = false) /\ forall pr, In pr prepared -> ready pr.
Lemma write_one_runs i pr d x f : (forall i st, fault i st = false) -> pp_full pr = d ++ [x] -> real_dir f d ->
  plainly f (d ++ [x]) -> f !! (d ++ [x]) <> Some NDir -> f !! (d ++ [bak_name x]) <> Some NDir ->
  f !! (d ++ [tmp_name x]) <> Some NDir -> (pp_delete pr = true -> f !! (d ++ [x]) <> None) ->
  fst (write_one rid i pr (exists_ f (d ++ [x])) f) = true.
Proof using Type.
  intros Hno Hfull Hd Hp Hn Hb Ht Hdel. destruct (own_names x) as [Nb Nt].
  assert (Hw : forall f1 y c, real_dir f1 d -> f1 !! (d ++ [y]) <> Some NDir ->
    write_at (d ++ [y]) c f1 = inr (<[d ++ [y] := NFile c]> f1)).
  { intros f1 y c H1 H2. unfold write_at. rewrite real_entry, node_at_snoc by done. by destruct (f1 !! (d ++ [y])) as [[| |]|]. }
  assert (Hs : stat f (d ++ [x]) = match f !! (d ++ [x]) with Some n => inr n | None => inl ENOENT end) by (by apply plainly_file).
  unfold write_one, then_, attempt, plain. rewrite !Hno, Hfull, backup_snoc, tmp_snoc.
  (* the backup, then the rest on the files as they are after it *)
  assert (H1 : exists f1, (if exists_ f (d ++ [x]) then match copy2 (d ++ [x]) (d ++ [bak_name x]) f with inr f' => (true, f') | inl _ => (false, f) end
      else (true, f)) = (true, f1) /\ alters [d ++ [bak_name x]] f f1).
  { unfold exists_, copy2, read_bytes. rewrite Hs. destruct (f !! (d ++ [x])) as [[c| |t]|] eqn:E.
    - rewrite Hw by done. eexists. split; [done | by apply alters_write].
    - done.
    - exfalso. apply (proj1 Hp (d ++ [x]) [] t); [by rewrite app_nil_r | by destruct d | done].
    - exists f. split; [done | apply alters_refl]. }
  destruct H1 as (f1 & -> & Ha). assert (Hd1 : real_dir f1 d) by (eapply real_steady; [done | apply Ha]).
  assert (Hx : f1 !! (d ++ [x]) = f !! (d ++ [x])) by (apply Ha; intros [E | []]; by apply (snoc_ne d x (bak_name x) Nb)).
  destruct (pp_delete pr).
  - rewrite unlink_runs by (rewrite ?Hx; auto). done.
  - rewrite Hw by (done || (intros E; by apply (proj2 (proj1 Ha)) in E)). cbv beta iota.
    rewrite (replace_runs _ d _ x (encode (pp_new pr))); [done | apply real_insert; [done | rewrite length_app; simpl; lia]
      | by rewrite lookup_insert_eq | rewrite lookup_insert_ne by (by apply snoc_ne, not_eq_sym); by rewrite Hx].
Qed.

(** The steps for one more file, whatever they did *)
Lemma one_more_kept done_ d x f f1 : In (d ++ [x]) paths -> kept f0 paths done_ f ->
  alters [d ++ [bak_name x]; d ++ [tmp_name x]; d ++ [x]] f f1 -> kept f0 paths (done_ ++ [d ++ [x]]) f1.
Proof using Type.
  intros Hin [Hs Hk] [Hs1 Ha]. split; [by eapply steady_trans |]. intros q Hq Hq'.
  rewrite Ha; [apply Hk; [done |]; intros H; apply Hq', in_or_app; by left |].
  intros Hin2. destruct (own_left d x q Hin Hin2) as [H | ->]; [done |]. apply Hq', in_or_app. right. by left.
Qed.
Lemma untouched_kept done_ d x f f1 : In (d ++ [x]) paths -> ~ In (d ++ [x]) done_ -> kept f0 paths done_ f ->
  alters [d ++ [bak_name x]; d ++ [tmp_name x]; d ++ [x]] f f1 -> f1 !! (d ++ [x]) = f !! (d ++ [x]) -> kept f0 paths done_ f1.
Proof using Hdrawn.
  intros Hin Hnew Hk Ha Hx. destruct (one_more_kept done_ d x f f1 Hin Hk Ha) as [Hs H]. split; [done |]. intros q Hq Hq'.
  destruct (decide (q = d ++ [x])) as [-> | Hne]; [rewrite Hx; by apply (proj2 Hk) |].
  apply H; [done |]. intros [H' | [<- | []]]%in_app_iff; done.
Qed.
Lemma target_unlike_names p : In p paths -> ~ left_name paths p.
Proof using Hdrawn. intros Hin Hl. by destruct (dr_new _ _ Hdrawn _ Hl). Qed.
(** A file that could not be written was hindered. *)
Lemma failure_hindered i done_ prepared pr d x f : In pr prepared -> pp_full pr = d ++ [x] -> In (d ++ [x]) paths ->
  ~ In (d ++ [x]) done_ -> kept f0 paths done_ f -> plainly f (d ++ [x]) ->
  fst (write_one rid i pr (exists_ f (d ++ [x])) f) = false -> ~ unhindered prepared.
Proof using Hdrawn.
  intros Hpr E Hin Hnew Hk Hp Hw [Hf Hall]. destruct (Hall pr Hpr) as (d2 & x2 & E2 & Hd & Hn & Hdel).
  rewrite E in E2. apply app_inj_tail in E2 as [<- <-].
  assert (Hsame : f !! (d ++ [x]) = f0 !! (d ++ [x])) by (apply (proj2 Hk); [by apply target_unlike_names | done]).
  assert (Hnot : forall q, left_name paths q -> f !! q <> Some NDir).
  { intros q Hl H. apply (proj2 (proj1 Hk)) in H. destruct (dr_new _ _ Hdrawn _ Hl) as [_ H0]. congruence. }
  pose proof (write_one_runs i pr d x f Hf E) as Hrun. rewrite Hw in Hrun.
  discriminate Hrun; [eapply real_steady; [done | apply Hk] | done | by rewrite Hsame | | | by rewrite Hsame].
  - apply Hnot. rewrite <- backup_snoc. by apply left_backup.
  - apply Hnot. rewrite <- tmp_snoc. by apply left_tmp.
Qed.

(** The loop over the files: [done_] of them are written, [rest] are to be. *)
Lemma write_all_spec root i completed done_ rest f :
  paths = map pp_full (done_ ++ rest) -> map cp_path completed = map pp_full done_ ->
  (forall p, In p paths -> relative_to p root <> None) ->
  kept f0 paths (map cp_path completed) f -> (forall c, In c completed -> recoverable f0 f c) ->
  (forall pr, In pr done_ -> f !! pp_full pr = target_node pr) ->
  let '(r, completed', f') := write_all rid root i completed rest f in
  match r with
  | inl e => e = RollbackFailedError /\ exists j, fault j SUndo = true
  | inr (Some resp) => rs_success resp = false /\ kept f0 paths [] f' /\ ~ unhindered (done_ ++ rest)
  | inr None => map cp_path completed' = paths /\ kept f0 paths paths f' /\
                forall pr, In pr (done_ ++ rest) -> f' !! pp_full pr = target_node pr
  end.
Proof using Hdrawn.
  revert i completed done_ f. induction rest as [|pr rest IH]; intros i completed done_ f Hpaths Hdone Hroot Hk Hr Ht; cbn [write_all].
  { rewrite app_nil_r in *. by rewrite Hdone, <- Hpaths in *. }
  assert (Hin : In (pp_full pr) paths) by (rewrite Hpaths; apply in_map, in_or_app; right; by left).
  assert (Hcin : forall c, In c completed -> In (cp_path c) paths).
  { intros c Hc. rewrite Hpaths, map_app, <- Hdone. apply in_or_app. left. by apply in_map. }
  assert (Hnd : NoDup (map cp_path completed ++ [pp_full pr])).
  { pose proof (dr_once _ _ Hdrawn) as H. rewrite Hpaths, map_app, <- Hdone in H. cbn [map] in H. rewrite cons_middle, app_assoc in H.
    by apply NoDup_app in H as (H & _ & _). }
  apply NoDup_app in Hnd as (Hndc & Hnew & _).
  assert (Hfresh : forall c, In c completed -> cp_path c <> pp_full pr).
  { intros c Hc E. apply (Hnew (cp_path c)); [apply list_elem_of_In; by apply in_map | rewrite E; by apply list_elem_of_In; left]. }
  destruct (path_snoc _ Hin) as (d & x & E). destruct (target_plain d x f) as (P1 & P2 & P3); [by rewrite <- E | apply Hk |].
  pose proof (write_one_spec i pr d x f E P1 P2 P3) as H1. cbv zeta in H1. rewrite E in *.
  destruct (write_one rid i pr (exists_ f (d ++ [x])) f) as [ok f1] eqn:Hw. destruct H1 as [Ha Ho].
  assert (Hr1 : forall c, In c completed -> recoverable f0 f1 c).
  { intros c Hc. apply (recoverable_alters c f f1 d x); [by apply Hcin | done | by apply Hfresh | by apply Hr | done]. }
  assert (Hpx : ~ In (d ++ [x]) (map cp_path completed)).
  { intros Hc. apply (Hnew (d ++ [x])); apply list_elem_of_In; [done | by left]. }
  destruct ok.
  - destruct Ho as (Hd & Hx & Hex).
    assert (El : done_ ++ pr :: rest = (done_ ++ [pr]) ++ rest) by (by rewrite <- app_assoc).
    rewrite El in Hpaths |- *. apply (IH (S i) _ (done_ ++ [pr])); [done | | done | | |].
    + by rewrite !map_app, Hdone; cbn [map cp_path]; rewrite E.
    + rewrite map_app. by eapply one_more_kept.
    + intros c [Hc | [<- | []]]%in_app_iff; [by apply Hr1 |]. exists d, x. cbn [cp_path cp_existed].
      split; [done |]. split; [eapply real_steady; [done | apply Ha] |].
      rewrite <- (proj2 Hk (d ++ [x]) (target_unlike_names _ Hin) Hpx). split; [| by destruct (exists_ f (d ++ [x]))].
      rewrite Hx. unfold target_node. by destruct (pp_delete pr).
    + intros pr' [Hp' | [<- | []]]%in_app_iff; [| by rewrite E]. rewrite <- (Ht pr' Hp').
      assert (Hc' : In (pp_full pr') (map cp_path completed)) by (rewrite Hdone; by apply in_map).
      apply in_map_iff in Hc' as (c & Ec & Hc). destruct (path_snoc _ (Hcin c Hc)) as (d' & x' & E').
      rewrite <- Ec, E'. apply (proj2 Ha). pose proof (Hfresh c Hc) as Hne. pose proof (Hcin c Hc) as Hc2. rewrite E' in Hne, Hc2.
      apply (names_apart d x d' x'); [done | done | congruence].
  - pose proof (undo_all_spec completed f1 Hndc Hcin (untouched_kept _ d x f f1 Hin Hpx Hk Ha Ho) Hr1) as Hu.
    destruct (undo_all rid completed f1) as [[] f2]; [| by split].
    unfold failed_response, relative_str. pose proof (Hroot _ Hin) as Hrel.
    assert (Hno : ~ unhindered (done_ ++ pr :: rest)).
    { eapply (failure_hindered i _ _ pr d x f); [apply in_or_app; right; by left | done..|]. by rewrite Hw. }
    destruct (relative_to (d ++ [x]) root) as [[|]|]; [| | done]; (split; [done |]; split; [by apply clear_tmps_kept | exact Hno]).
Qed.
End Batch.

(** *** What is prepared *)
Lemma traverse_in {A B} (g : A -> pexn + B) l bs b : traverse g l = inr bs -> In b bs -> exists a, In a l /\ g a = inr b.
Proof using Type.
  revert bs. induction l as [|a l IH]; intros bs H Hb; cbn [traverse] in H; [by injection H as <- |].
  destruct (g a) as [|b'] eqn:E; [done |]. destruct (traverse g l) as [|bs'] eqn:El; [done |]. injection H as <-.
  destruct Hb as [<- | Hb]; [exists a; by split; [left |] |]. destruct (IH bs' eq_refl Hb) as (a' & Ha & Hg). exists a'. by split; [right |].
Qed.
Lemma traverse_runs {A B} (g : A -> pexn + B) l : (forall a, In a l -> exists b, g a = inr b) -> exists bs, traverse g l = inr bs.
Proof.
  induction l as [|a l IH]; intros H; [by eexists |]. destruct (H a (or_introl eq_refl)) as [b Hb].
  destruct IH as [bs Hbs]; [intros x Hx; apply H; by right |]. cbn [traverse]. rewrite Hb, Hbs. by eexists.
Qed.
Lemma applied_runs root prepared : (forall pr, In pr prepared -> relative_to (pp_full pr) root <> None) ->
  exists resp, applied_response root prepared = inr resp /\ rs_success resp = true.
Proof.
  intros H. unfold applied_response.
  match goal with |- context[traverse ?g prepared] => destruct (traverse_runs g prepared) as [rs ->]; [| by eexists] end.
  intros pr Hpr. specialize (H pr Hpr). unfold relative_str.
  by destruct (relative_to (pp_full pr) root) as [[|]|]; [eexists | eexists |].
Qed.
Lemma prepared_targets pol f project patch strip hashes root prepared pr :
  prepare pol f project patch strip hashes = inr (root, prepared) -> resolve f root = Some root -> In pr prepared ->
  plainly f (pp_full pr) /\ pp_full pr <> [] /\ relative_to (pp_full pr) root <> None /\
  (forall d x, pp_full pr = d ++ [x] -> real_dir f d ->
     f !! (d ++ [x]) <> Some NDir /\ (pp_delete pr = true -> f !! (d ++ [x]) <> None)).
Proof using Type.
  unfold prepare. destruct (accepted_files patch strip) as [|files]; [done |].
  destruct (project_of pol f project) as [|root']; [done |]. destruct (traverse _ files) as [|prs] eqn:Et; [done |].
  intros [= <- <-] Hroot Hin. destruct (traverse_in _ _ _ _ Et Hin) as (fi & _ & H). unfold prepare_one in H.
  destruct (_resolve_within_root f root' (fi_path fi)) as [|p] eqn:Er; [done |].
  destruct (check_p _ _) as [|[]] in H; [done |]. destruct (original_of f p) as [|original] eqn:Eo; [done |].
  destruct (match dict_get _ _ with Some _ => _ | None => _ end) as [|[]] in H; [done |].
  destruct (check_p (negb (is_delete fi && _)) _) as [|[]] eqn:Ed in H; [done |].
  destruct (_apply_in_memory original fi); [done |]. injection H as <-. cbn [pp_full pp_delete].
  unfold _resolve_within_root in Er. destruct (resolve f (slash root' (fi_path fi))) as [q|] eqn:Eq; [| done]. rewrite Hroot in Er.
  destruct (check_p (under q root') _) as [|[]] eqn:Eu; [done |]. injection Er as ->.
  assert (Hp : plainly f p).
  { apply (realpath_plain f MAXSYMLINKS (slash root' (fi_path fi)) []); [split; [by intros [] | constructor] | exact Eq]. }
  unfold original_of, read_text, read_bytes in Eo. split; [done |]. split; [| split].
  - intros ->. unfold exists_ in Eo. cbn in Eo. discriminate Eo.
  - unfold under in Eu. by destruct (relative_to p root').
  - intros d x -> Hd. unfold exists_ in Eo, Ed. rewrite (plainly_file f d x Hp Hd) in Eo, Ed.
    destruct (f !! (d ++ [x])) as [[| |]|]; [done | done | done | split; [done |]].
    intros Hdel. rewrite Hdel in Ed. discriminate Ed.
Qed.

(** *** What the commit of a prepared patch does *)
Lemma commit_spec pol project patch strip hashes f root prepared :
  prepare pol f project patch strip hashes = inr (root, prepared) ->
  let paths := map pp_full prepared in
  let (r, f') := commit rid root prepared f in
  resolve f root = Some root -> NoDup paths -> (forall q, left_name paths q -> ~ In q paths /\ f !! q = None) ->
  match r with
  | inl e => e = RollbackFailedError /\ exists i, fault i SUndo = true
  | inr resp =>
      (forall q, ~ left_name paths q -> ~ In q paths -> f' !! q = f !! q) /\
      (forall pr, In pr prepared -> under (pp_full pr) root = true /\
         f' !! pp_full pr = if rs_success resp then target_node pr else f !! pp_full pr)
  end /\
  ((forall i st, fault i st = false) -> (forall pr, In pr prepared -> real_dir f (removelast (pp_full pr))) ->
   exists resp, r = inr resp /\ rs_success resp = true).
Proof using Type.
  intros Hprep paths. destruct (commit rid root prepared f) as [r f'] eqn:Hc0. intros Hroot Hnd Hnew. revert r f' Hc0.
  assert (Htarget : forall p, In p paths -> exists pr, In pr prepared /\ p = pp_full pr).
  { intros p Hp. apply in_map_iff in Hp as (pr & <- & Hpr). by exists pr. }
  assert (Hdrawn : drawn f paths).
  { split; [done | | done]. intros p (pr & Hpr & ->)%Htarget. by destruct (prepared_targets _ _ _ _ _ _ _ _ pr Hprep Hroot Hpr) as (H1 & H2 & _). }
  assert (Hrel : forall p, In p paths -> relative_to p root <> None).
  { intros p (pr & Hpr & ->)%Htarget. by destruct (prepared_targets _ _ _ _ _ _ _ _ pr Hprep Hroot Hpr) as (_ & _ & H & _). }
  assert (Hunder : forall pr, In pr prepared -> under (pp_full pr) root = true).
  { intros pr Hpr. unfold under. pose proof (Hrel (pp_full pr) (in_map _ _ _ Hpr)). by destruct (relative_to (pp_full pr) root). }
  assert (Hkept : forall f', kept f paths [] f' -> forall pr, In pr prepared -> f' !! pp_full pr = f !! pp_full pr).
  { intros f' [_ H] pr Hpr. apply H; [| by intros []]. intros Hl. destruct (Hnew _ Hl) as [H' _]. apply H'. by apply in_map. }
  unfold commit. intros r f' Hc0.
  assert (Hk0 : kept f paths [] f) by (split; [apply (alters_refl []) | done]).
  pose proof (write_all_spec f paths Hdrawn root 0 [] [] prepared f eq_refl eq_refl Hrel Hk0
    ltac:(by intros c []) ltac:(by intros pr [])) as H.
  destruct (write_all rid root 0 [] prepared f) as [[[e|[resp|]] completed] f1].
  - injection Hc0 as <- <-. destruct H as [-> Hu]. split; [by split |]. intros Hf _. destruct Hu as [j Hj]. by rewrite Hf in Hj.
  - injection Hc0 as <- <-. destruct H as (Hs & Hk & Hno). split.
    + split; [intros q H1 H2; apply (proj2 Hk); [done | by intros []] |]. intros pr Hpr. rewrite Hs. split; [by apply Hunder | by apply Hkept].
    + intros Hf Hd. exfalso. apply Hno. split; [done |]. intros pr Hpr.
      destruct (prepared_targets _ _ _ _ _ _ _ _ pr Hprep Hroot Hpr) as (_ & Hne & _ & Hx).
      destruct (path_snoc f paths Hdrawn (pp_full pr) (in_map _ _ _ Hpr)) as (d & x & E). specialize (Hd pr Hpr).
      rewrite E, removelast_last in Hd. destruct (Hx d x E Hd) as [H1 H2]. by exists d, x.
  - destruct H as (Hc & Hk & Ht).
    destruct (clear_both_kept f paths Hdrawn paths completed f1) as [Hk' Hq]; [intros c Hin; rewrite <- Hc; by apply in_map | done |].
    destruct (applied_runs root prepared) as (resp & Hr & Hs); [intros pr Hpr; apply Hrel; by apply in_map |].
    rewrite Hr in Hc0. injection Hc0 as <- <-.
    split; [| by exists resp]. split; [apply Hk' |]. intros pr Hpr. rewrite Hs. split; [by apply Hunder |].
    rewrite Hq by (by apply in_map). by apply Ht.
Qed.

(** C30: A patch of several files is applied to all of them or to none.  A patch refused while it is
    prepared (the text, the limits, the project, a path, a digest, a hunk) raises with every file
    as it was.  A prepared patch that names each file once, in a project whose root resolves to itself
    (holds no links) and with hidden backup and temporary names that nothing is called yet: whatever
    steps of the disk fail, when an answer is given, it says so truly.  A success means that every target
    holds its new content, or is gone if the patch deletes it; a failure means that every target is as it
    was.  Either way all targets are below the project's root, and nothing else has changed but the
    hidden backup and temporary files beside them.  The only exception after preparation is the one
    that says the rollback failed, and it is raised only if a step of the rollback did fail.  And when no
    step fails and the directories of the targets are there, the patch is applied. *)
Theorem patch_all_or_nothing pol project patch strip hashes f :
  let (r, f') := apply_project_patch rid pol project patch strip hashes false f in
  match prepare pol f project patch strip hashes with
  | inl refusal => r = inl refusal /\ f' = f
  | inr (root, prepared) =>
      let paths := map pp_full prepared in
      resolve f root = Some root -> NoDup paths -> (forall q, left_name paths q -> ~ In q paths /\ f !! q = None) ->
      match r with
      | inl e => e = RollbackFailedError /\ exists i, fault i SUndo = true
      | inr resp =>
          (forall q, ~ left_name paths q -> ~ In q paths -> f' !! q = f !! q) /\
          (forall pr, In pr prepared -> under (pp_full pr) root = true /\
             f' !! pp_full pr = if rs_success resp then target_node pr else f !! pp_full pr)
      end /\
      ((forall i st, fault i st = false) -> (forall pr, In pr prepared -> real_dir f (removelast (pp_full pr))) ->
       exists resp, r = inr resp /\ rs_success resp = true)
  end.
Proof using Type.
  unfold apply_project_patch. destruct (prepare pol f project patch strip hashes) as [e|[root prepared]] eqn:Hprep; [done |].
  pose proof (commit_spec pol project patch strip hashes f root prepared Hprep) as H.
  destruct (commit rid root prepared f) as [r f']. exact H.
Qed.
End Effects.

(** ** The hunks *)
Definition one_kind (l : ULine) : bool :=
  match is_added l, is_removed l, is_context l with
  | true, false, false | false, true, false | false, false, true => true
  | _, _, _ => false
  end.
Definition old_lines (h : UHunk) : list string := map ul_value (List.filter (fun l => negb (is_added l)) (uh_lines h)).
Definition new_lines (h : UHunk) : list string := map ul_value (List.filter (fun l => negb (is_removed l)) (uh_lines h)).
(** The file a list of hunks is made for, with the lines kept before each, and the file it makes *)
Definition old_file (script : list (list string * UHunk)) (tail : list string) : list string :=
  flat_map (fun e => fst e ++ old_lines (snd e)) script ++ tail.
Definition new_file (script : list (list string * UHunk)) (tail : list string) : list string :=
  flat_map (fun e => fst e ++ new_lines (snd e)) script ++ tail.
(** The hunks say where they start, counted from one. *)
Fixpoint placed (at_ : nat) (script : list (list string * UHunk)) : Prop :=
  match script with
  | [] => True
  | (gap, h) :: script =>
      source_start h = S (at_ + length gap) /\ forallb one_kind (uh_lines h) = true /\
      placed (at_ + length gap + length (old_lines h)) script
  end.

Lemma check_line_exact pre l post : _check_line_matches (pre ++ l :: post) (length pre) l = inr tt.
Proof.
  unfold _check_line_matches, same_line. rewrite list_lookup_middle by done. by rewrite String.eqb_refl.
Qed.
Lemma apply_lines_exact ls : forall pre post result, forallb one_kind ls = true ->
  let olds := map ul_value (List.filter (fun l => negb (is_added l)) ls) in
  apply_lines (pre ++ olds ++ post) (length pre, result) ls
  = inr (length pre + length olds, result ++ map ul_value (List.filter (fun l => negb (is_removed l)) ls)).
Proof.
  induction ls as [|l ls IH]; intros pre post result Hk; [by cbn; rewrite Nat.add_0_r, app_nil_r |]. cbn zeta in *.
  cbn [forallb] in Hk. apply andb_true_iff in Hk as [Hl Hk]. cbn [apply_lines List.filter]. unfold apply_line, one_kind in *.
  destruct (is_added l), (is_removed l), (is_context l); try done; cbn [negb map].
  - rewrite IH by done. by rewrite <- app_assoc.
  - cbn [app]. rewrite check_line_exact. rewrite cons_middle, app_assoc.
    replace (S (length pre)) with (length (pre ++ [ul_value l])) by (rewrite length_app; simpl; lia).
    rewrite IH by done. f_equal. f_equal. rewrite length_app. simpl. lia.
  - cbn [app]. rewrite check_line_exact. rewrite cons_middle, app_assoc.
    replace (S (length pre)) with (length (pre ++ [ul_value l])) by (rewrite length_app; simpl; lia).
    rewrite IH by done. rewrite <- app_assoc. f_equal. f_equal. rewrite length_app. simpl. lia.
Qed.
Lemma apply_hunks_exact script : forall pre tail result, placed (length pre) script ->
  exists n, apply_hunks (pre ++ old_file script tail) (length pre, result) (map snd script)
            = inr (n, result ++ flat_map (fun e => fst e ++ new_lines (snd e)) script) /\
            n + length tail = length (pre ++ old_file script tail).
Proof.
  induction script as [|[gap h] script IH]; intros pre tail result; cbn [placed map snd apply_hunks flat_map fst].
  - intros _. exists (length pre). rewrite app_nil_r. split; [done |]. rewrite length_app. unfold old_file. by cbn.
  - intros (Hs & Hk & Hp).
    assert (E : pre ++ old_file ((gap, h) :: script) tail = (pre ++ gap) ++ old_lines h ++ old_file script tail)
      by (unfold old_file; cbn [flat_map fst snd]; by rewrite <- !app_assoc).
    rewrite E. set (lines := (pre ++ gap) ++ old_lines h ++ old_file script tail).
    assert (Hcopy : copy_before lines (length pre, result) (source_start h) = (length (pre ++ gap), result ++ gap)).
    { unfold copy_before. cbn [fst snd]. rewrite Hs. unfold lines. rewrite !length_app.
      replace (Nat.min (S (length pre + length gap) - 1) _ - length pre) with (length gap) by lia.
      rewrite <- !app_assoc, skipn_app, skipn_all, Nat.sub_diag, skipn_O. cbn [app]. by rewrite firstn_app, Nat.sub_diag, firstn_all, app_nil_r. }
    rewrite Hcopy. unfold lines. pose proof (apply_lines_exact (uh_lines h) (pre ++ gap) (old_file script tail) (result ++ gap) Hk) as Ha.
    cbn zeta in Ha. fold (old_lines h) in Ha. fold (new_lines h) in Ha. rewrite Ha.
    rewrite app_assoc, <- (length_app (pre ++ gap)).
    destruct (IH ((pre ++ gap) ++ old_lines h) tail ((result ++ gap) ++ new_lines h)) as (n & Hn & Hlen).
    { rewrite !length_app. exact Hp. }
    exists n. split; [| exact Hlen]. rewrite Hn. by rewrite <- !app_assoc.
Qed.
(** C31: The hunks of a patch, applied in memory to the file they were made for, make the file they
    describe: when each says where its old lines start, behind the lines kept since the one
    before, the removed lines are gone, the added ones are in their place, and everything else is kept
    in order. *)
Theorem hunks_applied script tail : placed 0 script ->
  patched_lines (old_file script tail) (map snd script) = inr (new_file script tail).
Proof.
  intros Hp. destruct (apply_hunks_exact script [] tail [] Hp) as (n & Hn & Hlen). cbn [app length] in Hn, Hlen.
  unfold patched_lines. rewrite Hn. cbn [fst snd]. unfold new_file. do 2 f_equal.
  unfold old_file in Hlen |- *. rewrite length_app in Hlen. rewrite skipn_app, skipn_all2 by lia.
  by replace (n - length _) with 0 by lia.
Qed.

(** ** Runs *)
Module PatchRuns.
#[local] Instance ascii_text : Utf8 := {| encode := id; decode := Some; decode_encode _ := eq_refl |}.
#[local] Instance plain_files : TextFiles := {| decode_replace := id |}.
Definition nl : string := sc newline.
Definition removed (s : string) : ULine := mkULine false true false (s +s+ nl) ("-" +s+ s +s+ nl).
Definition added (s : string) : ULine := mkULine true false false (s +s+ nl) ("+" +s+ s +s+ nl).
Definition context (s : string) : ULine := mkULine false false true (s +s+ nl) (" " +s+ s +s+ nl).
Definition edit (name : string) (start : nat) (ls : list ULine) : UFile :=
  mkUFile ("a/" +s+ name) ("b/" +s+ name) [mkUHunk start 1 start 1 ls] false false false.
(** A parser that knows the given patches: each by a name, and each file's again when it is rebuilt *)
Definition knows (patches : dict (list UFile)) (text : string) : option (list UFile) :=
  match dict_get text patches with
  | Some files => Some files
  | None => dict_get text (flat_map (fun e => map (fun pf =>
              (_rebuild_patch_for_file (List.hd (mkFileInfo "" [] 0 false false false false) (_parse_patch 0 [pf])), [pf])) (snd e)) patches)
  end.
Definition swap_a : UFile := edit "a" 1 [removed "one"; added "ONE"].
Definition swap_b : UFile := edit "b" 1 [removed "two"; added "TWO"].
Definition grow_a : UFile := edit "a" 3 [context "three"; added "four"].
Definition secret : UFile := edit ".env" 1 [removed "TOKEN=1"; added "TOKEN=2"].
#[local] Instance table : Unidiff := {| PatchSet := knows [("both", [swap_a; swap_b]); ("a twice", [swap_a; grow_a]); ("secret", [secret])] |}.
Definition policy : WorkspacePolicy := mkPolicy [("p", ["w"])] [["w"]] ["project:read"].
Definition abc : string := "one" +s+ nl +s+ "2" +s+ nl +s+ "three" +s+ nl.
Definition files : fs :=
  <[["w"] := NDir]> (<[["w"; "a"] := NFile abc]> (<[["w"; "b"] := NFile ("two" +s+ nl)]> (<[["w"; ".env"] := NFile ("TOKEN=1" +s+ nl)]> ∅))).
Definition never_fails : Faults := {| fault _ _ := false; left_behind _ _ := None |}.
(** The renaming of the second file fails. *)
Definition second_rename_fails : Faults :=
  {| fault i st := match i, st with 1, SRename => true | _, _ => false end; left_behind _ _ := None |}.

Definition both : list Prepared :=
  [mkPrepared ["w"; "a"] ("ONE" +s+ nl +s+ "2" +s+ nl +s+ "three" +s+ nl) 1 false; mkPrepared ["w"; "b"] ("TWO" +s+ nl) 1 false].
Lemma both_prepared : prepare policy files "p" "both" 0 [] = inr (["w"], both).
Proof. vm_compute. reflexivity. Qed.
Lemma lost_refused : prepare policy files "p" "lost" 0 [] = inl UnidiffParseError.
Proof. reflexivity. Qed.
Lemma names_new q : left_name "r" (map pp_full both) q -> ~ In q (map pp_full both) /\ files !! q = None.
Proof.
  intros (p & [<- | [<- | []]] & [-> | ->]); (split; [intros H; cbn in H; intuition discriminate | vm_compute; reflexivity]).
Qed.
Lemma targets_once : NoDup (map pp_full both).
Proof.
  apply NoDup_cons. split; [| apply NoDup_singleton]. intros H%list_elem_of_In. cbn in H. intuition discriminate.
Qed.
Lemma root_resolved : resolve files ["w"] = Some ["w"].
Proof. vm_compute. reflexivity. Qed.
Definition says (b : bool) (r : pexn + Response) : bool :=
  match r with inr resp => Bool.eqb (rs_success resp) b | inl _ => false end.
Lemma second_fails : says false (fst (apply_project_patch (X := second_rename_fails) "r" policy "p" "both" 0 [] false files)) = true.
Proof. vm_compute. reflexivity. Qed.
Lemma both_apply : says true (fst (apply_project_patch (X := never_fails) "r" policy "p" "both" 0 [] false files)) = true.
Proof. vm_compute. reflexivity. Qed.
Lemma says_spec b r : says b r = true -> exists resp, r = inr resp /\ rs_success resp = b.
Proof. destruct r as [|resp]; [done |]. intros H%Bool.eqb_prop. by exists resp. Qed.
(** The renaming of the second file fails, and the first is as it was; no step fails, and both are
    patched; an unknown patch changes nothing. *)
Lemma patch_all_or_nothing_witness : exists f' f'',
  snd (apply_project_patch (X := second_rename_fails) "r" policy "p" "both" 0 [] false files) = f' /\
  f' !! ["w"; "a"] = files !! ["w"; "a"] /\
  snd (apply_project_patch (X := never_fails) "r" policy "p" "both" 0 [] false files) = f'' /\
  f'' !! ["w"; "b"] = Some (NFile ("TWO" +s+ nl)) /\
  snd (apply_project_patch (X := never_fails) "r" policy "p" "lost" 0 [] false files) = files.
Proof.
  pose proof (patch_all_or_nothing (X := second_rename_fails) "r" policy "p" "both" 0 [] files) as H.
  pose proof (patch_all_or_nothing (X := never_fails) "r" policy "p" "both" 0 [] files) as H2.
  pose proof (patch_all_or_nothing (X := never_fails) "r" policy "p" "lost" 0 [] files) as H5.
  pose proof (says_spec _ _ second_fails) as (resp & E & Hs). pose proof (says_spec _ _ both_apply) as (resp2 & E2 & Hs2).
  rewrite both_prepared in H, H2. rewrite lost_refused in H5.
  destruct (apply_project_patch (X := second_rename_fails) _ _ _ _ _ _ _ _) as [r f']. cbn [fst] in E. rewrite E in H.
  destruct (apply_project_patch (X := never_fails) "r" policy "p" "both" 0 [] false files) as [r2 f'']. cbn [fst] in E2. rewrite E2 in H2.
  destruct (apply_project_patch (X := never_fails) "r" policy "p" "lost" 0 [] false files) as [r5 f5].
  exists f', f''. split; [reflexivity |]. destruct (H root_resolved targets_once names_new) as [[_ Ha] _].
  destruct (H2 root_resolved targets_once names_new) as [[_ Hb] _]. destruct H5 as [_ H5].
  pose proof (Ha _ (or_introl eq_refl)) as [_ H3]. rewrite Hs in H3. pose proof (Hb _ (or_intror (or_introl eq_refl))) as [_ H4]. rewrite Hs2 in H4.
  split; [exact H3 |]. split; [reflexivity |]. split; [exact H4 | exact H5].
Defined.

(** What a failed patch leaves beside the file it failed on *)
Example failure_leaves_files :
  let f' := snd (apply_project_patch (X := second_rename_fails) "r" policy "p" "both" 0 [] false files) in
  f' !! ["w"; ".b.mcp-patch-r.bak"] = Some (NFile ("two" +s+ nl)) /\ f' !! ["w"; ".b.mcp-patch-r.tmp"] = Some (NFile ("TWO" +s+ nl)).
Proof. split; vm_compute; reflexivity. Qed.
(** A patch with two parts for one file answers that both are applied, and the first is lost. *)
Example second_part_undoes_first :
  let (r, f') := apply_project_patch (X := never_fails) "r" policy "p" "a twice" 0 [] false files in
  (exists resp, r = inr resp /\ rs_success resp = true /\ rs_applied resp = 2) /\
  f' !! ["w"; "a"] = Some (NFile (abc +s+ "four" +s+ nl)).
Proof. vm_compute. split; [eexists; split; [reflexivity | split; reflexivity] | reflexivity]. Qed.
(** A secret file is patched, under a policy that may not even write. *)
Example secret_is_patched :
  validate_write policy files "p" ".env" = inl ScopeDeniedError /\ is_hidden_or_secret_path ".env" = true /\
  snd (apply_project_patch (X := never_fails) "r" policy "p" "secret" 0 [] false files) !! ["w"; ".env"] = Some (NFile ("TOKEN=2" +s+ nl)).
Proof. split; [| split]; vm_compute; reflexivity. Qed.
(** The path a new file gets when one component is stripped *)
Example new_file_goes_to_dev_null :
  let new_file := mkUFile "/dev/null" "b/notes.txt" [] false false false in
  map fi_path (_parse_patch 1 [new_file]) = ["dev/null"] /\ _validate_no_forbidden_ops (_parse_patch 1 [new_file]) = inr tt /\
  _validate_no_forbidden_ops (_parse_patch 0 [new_file]) = inl (PatchValidationError "unsupported operation").
Proof. split_and!; reflexivity. Qed.
(** A hunk that only adds lines after line 2 adds them before it. *)
Example addition_one_line_early :
  patched_lines ["1"; "2"; "3"] [mkUHunk 2 0 3 1 [added "x"]] = inr ["1"; "x" +s+ nl; "2"; "3"].
Proof. reflexivity. Qed.
(** The line ends of the whole file change. *)
Example line_ends_change : universal_newlines ("1" +s+ String "013" nl +s+ "2" +s+ String "013" nl) = "1" +s+ nl +s+ "2" +s+ nl.
Proof. reflexivity. Qed.

Definition script : list (list string * UHunk) :=
  [(["1"], mkUHunk 2 1 2 1 [mkULine false true false "2" "-2"; mkULine true false false "II" "+II"]);
   ([], mkUHunk 3 1 3 2 [mkULine false false true "3" " 3"; mkULine true false false "III" "+III"])].
Lemma hunks_applied_witness : patched_lines ["1"; "2"; "3"; "4"] (map snd script) = inr ["1"; "II"; "3"; "III"; "4"].
Proof. exact (hunks_applied script ["4"] ltac:(by repeat split)). Defined.
End PatchRuns.
