(* ===== verification/Assets.v ===== *)
(** * Site assets of a candidate workspace (src/app/workspace/assets.py, asset_transfer.py)

    [publish_asset] writes the bytes of an asset under a lease on what it replaces;
    [inspect_asset] describes one.  The transfer store collects an upload in chunks.  The store
    holds its lock through each call, and [publish_asset] holds a lock on the directory, so a
    call is one step; it reads the clock once.  Bytes are characters. *)
From stdpp Require Import gmap.
From S2P Require Import Prelude PyStr Digests FileSystem UnifiedDiff WorkspacePolicy WorkspaceEdit.
From stdpp Require Import options.

#[local] Open Scope Z_scope.

Definition len (s : string) : Z := Z.of_nat (slen s).
Definition bytes (codes : list nat) : string := string_of_list_ascii (map ascii_of_nat codes).

(** ** assets.py *)
Definition MAX_ASSET_BYTES : Z := 8 * 1024 * 1024.
(** [SHA256_RE.fullmatch] *)
Definition is_lower_hex (c : ascii) : bool := is_digit c || in_range "a" "f" c.
Definition sha256_text (s : string) : bool := (slen s =? 64)%nat && all_of is_lower_hex s.
Definition ASSET_TYPES : dict string := [
  (".png", "image/png"); (".jpg", "image/jpeg"); (".jpeg", "image/jpeg"); (".webp", "image/webp");
  (".avif", "image/avif"); (".ico", "image/x-icon"); (".woff2", "font/woff2"); (".ttf", "font/ttf")].

(** [Path(text).parts] and [Path(text).suffix] *)
Definition path_parts (text : string) : list string := (if startswith "/" text then ["/"] else []) ++ parts text.
Fixpoint rfind (c : ascii) (s : string) : option nat :=
  match s with
  | "" => None
  | String d r => match rfind c r with
                  | Some i => Some (S i)
                  | None => if Ascii.eqb c d then Some O else None
                  end
  end.
Definition suffix (text : string) : string :=
  let name := List.last (parts text) "" in
  match rfind "." name with
  | Some (S _ as i) => if (S i <? slen name)%nat then drop i name else ""
  | _ => ""
  end.

Definition approved_path (relative_path : string) : bool :=
  match path_parts relative_path with
  | "public" :: second :: _ :: _ =>
      mem second ["visuals"; "fonts"; "images"; "icons"] && dict_in (lower (suffix relative_path)) ASSET_TYPES
  | "src" :: second :: _ :: _ => String.eqb second "assets" && dict_in (lower (suffix relative_path)) ASSET_TYPES
  | _ => false
  end.

Definition _candidate_path (pol : WorkspacePolicy) (project_id relative_path : string) (write : bool) (f : fs)
    : wexn + path :=
  check_ (startswith "candidate-" project_id)
    (AssetError "Registered candidate workspace is required for site assets") ;;?
  check_ (approved_path relative_path)
    (AssetError "Only approved binary paths in public/{visuals,fonts,images,icons} or src/assets are allowed") ;;?
  root <-? _resolve_project_root pol f project_id ;;
  path <-? (if write then validate_write pol f project_id relative_path
            else validate_read pol f project_id relative_path) ;;
  _symlink_safe_preflight path root f ;;?
  inr path.

Definition PNG_HEADER : string := bytes [137; 80; 78; 71; 13; 10; 26; 10]%nat.
Definition _asset_kind (data suffix : string) : bool :=
  let at_least n := (n <=? slen data)%nat in
  if String.eqb suffix ".png" then startswith PNG_HEADER data && at_least 24%nat
  else if mem suffix [".jpg"; ".jpeg"] then
    startswith (bytes [255; 216; 255]%nat) data && endswith (bytes [255; 217]%nat) data
  else if String.eqb suffix ".webp" then
    at_least 12%nat && String.eqb (slice data 0 4) "RIFF" && String.eqb (slice data 8 12) "WEBP"
  else if String.eqb suffix ".avif" then
    at_least 32%nat && String.eqb (slice data 4 8) "ftyp"
    && (contains "avif" (slice data 8 32) || contains "avis" (slice data 8 32))
  else if String.eqb suffix ".ico" then at_least 8%nat && String.eqb (slice data 0 4) (bytes [0; 0; 1; 0]%nat)
  else if String.eqb suffix ".woff2" then at_least 48%nat && startswith "wOF2" data
  else if String.eqb suffix ".ttf" then
    at_least 12%nat && mem (slice data 0 4) [bytes [0; 1; 0; 0]%nat; "true"]
  else false.

Definition is_file (f : fs) (p : path) : bool := match stat f p with inr (NFile _) => true | _ => false end.
Definition big_endian (s : string) : Z := fold_left (fun n b => n * 256 + b) (bytes_of s) 0.
Record asset_meta : Type := mkMeta {
  am_project : string; am_path : string; am_size : Z; am_sha256 : string; am_media_type : string;
  am_dimensions : option (Z * Z)
}.
Definition png_dimensions (data : string) : option (Z * Z) :=
  let header := take 24 data in
  if String.eqb (slice header 0 8) PNG_HEADER && String.eqb (slice header 12 16) "IHDR" then
    let width := big_endian (slice header 16 20) in
    let height := big_endian (slice header 20 24) in
    if (width =? 0) || (height =? 0) then None else Some (width, height)
  else None.
Definition describe (project_id relative_path data : string) : asset_meta :=
  mkMeta project_id relative_path (len data) (hexdigest data)
    (default "" (dict_get (lower (suffix relative_path)) ASSET_TYPES))
    (if String.eqb (lower (suffix relative_path)) ".png" then png_dimensions data else None).

Definition inspect_asset (pol : WorkspacePolicy) (project_id relative_path : string) (f : fs) : wexn + asset_meta :=
  path <-? _candidate_path pol project_id relative_path false f ;;
  check_ (is_file f path && negb (is_symlink f path)) WorkspacePolicyError ;;?
  match read_bytes f path with
  | inl e => inl (OSError e)
  | inr data =>
      check_ (len data <=? MAX_ASSET_BYTES) (AssetError "Asset exceeds maximum of 8388608 bytes") ;;?
      inr (describe project_id relative_path data)
  end.

Section Publish.
Context {U : Utf8} {D : Disk}.

Definition not_regular : wexn := AssetError "Asset target is not a regular file".
Definition _file_sha256 (f : fs) (p : path) : wexn + string :=
  match read_bytes f p with inl e => inl (OSError e) | inr data => inr (hexdigest data) end.
(** The lease: without a previous digest there must be no file, with one it must be the file's. *)
Definition lease_held (previous_sha256 old_sha : option string) : wexn + unit :=
  match previous_sha256 with
  | None => check_ (match old_sha with None => true | Some _ => false end)
              (AssetConflict "Target exists: provide its exact SHA-256 to replace")
  | Some _ => check_ (bool_decide (old_sha = previous_sha256))
                (AssetConflict "Existing asset SHA-256 has changed: reload metadata")
  end.
Definition check_asset (data expected_sha256 : string) (previous_sha256 : option string) : wexn + unit :=
  check_ (sha256_text expected_sha256) (AssetError "A lowercase 64-character SHA-256 is required") ;;?
  check_ (match previous_sha256 with Some h => sha256_text h | None => true end)
    (AssetError "Previous SHA-256 must contain 64 lowercase hex characters") ;;?
  check_ (negb (String.eqb data "")) (AssetError "Empty asset is not allowed") ;;?
  check_ (len data <=? MAX_ASSET_BYTES) (AssetError "Asset exceeds maximum of 8388608 bytes") ;;?
  check_ (String.eqb expected_sha256 (hexdigest data)) (AssetError "Asset SHA-256 mismatch: no file was changed").

(** Under the lock of the directory *)
Definition publish_locked (pol : WorkspacePolicy) (project_id relative_path data : string) (previous_sha256 : option string)
    (path root : path) : F (asset_meta * option string) :=
  ask (fun f => check_ (is_dir f (removelast path)) (OSError ENOTDIR)) ;;f
  ask (_symlink_safe_preflight path root) ;;f
  ask (fun f => check_ (negb (exists_ f path) || is_file f path) not_regular) ;;f
  old_sha <-f ask (fun f => if exists_ f path
                            then match _file_sha256 f path with inl e => inl e | inr h => inr (Some h) end
                            else inr None) ;;
  ask (fun _ => lease_held previous_sha256 old_sha) ;;f
  _atomic_write path data ;;f
  final <-f ask (inspect_asset pol project_id relative_path) ;;
  ask (fun _ => check_ (String.eqb (am_sha256 final) (hexdigest data)) (AssetError "Written asset verification failed")) ;;f
  fret (final, old_sha).
Definition publish_asset (pol : WorkspacePolicy) (project_id relative_path data expected_sha256 : string)
    (previous_sha256 : option string) (create_parents : bool) : F (asset_meta * option string) :=
  ask (fun _ => check_asset data expected_sha256 previous_sha256) ;;f
  path <-f ask (_candidate_path pol project_id relative_path true) ;;
  ask (fun _ => check_ (_asset_kind data (lower (suffix relative_path)))
                  (AssetError "Invalid asset format/signature: no file was changed")) ;;f
  ask (fun f => check_ (negb (exists_ f path) || is_file f path) not_regular) ;;f
  root <-f ask (fun f => _resolve_project_root pol f project_id) ;;
  parent_there <-f look_at (fun f => exists_ f (removelast path)) ;;
  (if parent_there then fret []
   else if create_parents then _create_parent_directories path root
   else fraise (AssetError "Parent directory does not exist")) ;;f
  ask (_symlink_safe_preflight path root) ;;f
  ask (fun f => check_ (negb (exists_ f path) || is_file f path) not_regular) ;;f
  publish_locked pol project_id relative_path data previous_sha256 path root.
End Publish.

(** ** asset_transfer.py *)
Definition CHUNK_BYTES : Z := 64 * 1024.
Definition MAX_SESSIONS : Z := 4.
(** Clock readings are in microseconds. *)
Definition UPLOAD_TTL : Z := 15 * 60 * 1000000.
Definition _MAX_BASE64_CHARS : Z := 4 * ((CHUNK_BYTES + 2) / 3).

(** [base64.b64decode(s, validate=True)]: whole groups of the alphabet, padded at the end only *)
Definition is_b64 (c : ascii) : bool := match b64_value c with Some _ => true | None => false end.
Definition b64_body (s : string) : string :=
  if endswith "==" s then take (slen s - 2) s else if endswith "=" s then take (slen s - 1) s else s.
Definition b64decode_strict (s : string) : option string :=
  if (slen s mod 4 =? 0)%nat && all_of is_b64 (b64_body s) then b64decode s else None.

Record Upload : Type := mkUpload {
  up_project_id : string; up_relative_path : string; up_sha256 : string; up_total_bytes : Z;
  up_previous_sha256 : option string; up_create_parents : bool; up_updated : Z; up_content : string
}.
Definition extended (chunk : string) (now : Z) (u : Upload) : Upload :=
  mkUpload (up_project_id u) (up_relative_path u) (up_sha256 u) (up_total_bytes u) (up_previous_sha256 u)
    (up_create_parents u) now (up_content u +s+ chunk).

Record progress : Type := mkProgress { pg_upload_id : string; pg_upload : Upload; pg_replayed : bool }.
Definition next_offset (p : progress) : Z := len (up_content (pg_upload p)).

(** A call of the store: it answers or raises, and what expired is gone either way. *)
Definition call (A : Type) : Type := dict Upload -> (wexn + A) * dict Upload.
Definition _expire (now : Z) (uploads : dict Upload) : dict Upload :=
  List.filter (fun e => negb (UPLOAD_TTL <=? now - up_updated (snd e))) uploads.
Definition _get (upload_id project_id relative_path : string) (uploads : dict Upload) : wexn + Upload :=
  match dict_get upload_id uploads with
  | None => inl (AssetError "Upload session not found or expired; begin a new upload")
  | Some u => check_ (String.eqb (up_project_id u) project_id && String.eqb (up_relative_path u) relative_path)
                (AssetError "Upload session does not match project and path") ;;?
              inr u
  end.
Definition writeable (readonly : bool) : wexn + unit :=
  check_ (negb readonly) (AssetError "Workspace is in read-only mode").

Definition begin_checks (pol : WorkspacePolicy) (f : fs) (project_id relative_path sha256 : string) (total_bytes : Z)
    (previous_sha256 : option string) : wexn + unit :=
  check_ (sha256_text sha256) (AssetError "SHA-256 must be 64 lowercase hexadecimal characters") ;;?
  check_ (match previous_sha256 with Some h => sha256_text h | None => true end)
    (AssetError "Previous SHA-256 must be 64 lowercase hexadecimal characters") ;;?
  check_ ((1 <=? total_bytes) && (total_bytes <=? MAX_ASSET_BYTES)) (AssetError "Asset must be 1..8388608 bytes") ;;?
  _candidate_path pol project_id relative_path true f ;;?
  inr tt.
(** [upload_id] is the one drawn. *)
Definition begin_upload (pol : WorkspacePolicy) (f : fs) (readonly : bool) (now : Z) (upload_id project_id relative_path sha256 : string)
    (total_bytes : Z) (previous_sha256 : option string) (create_parents : bool) : call progress := fun uploads =>
  match (writeable readonly ;;? begin_checks pol f project_id relative_path sha256 total_bytes previous_sha256) with
  | inl e => (inl e, uploads)
  | inr _ =>
      let uploads := _expire now uploads in
      if MAX_SESSIONS <=? Z.of_nat (length uploads)
      then (inl (AssetError "Too many in-progress uploads; finish or abort an upload"), uploads)
      else
        let u := mkUpload project_id relative_path sha256 total_bytes previous_sha256 create_parents now "" in
        (inr (mkProgress upload_id u false), dict_set upload_id u uploads)
  end.

Definition upload_status (now : Z) (upload_id project_id relative_path : string) : call progress := fun uploads =>
  let uploads := _expire now uploads in
  (u <-? _get upload_id project_id relative_path uploads ;; inr (mkProgress upload_id u false), uploads).

(** The bytes of a chunk that passes its own checks *)
Definition chunk_bytes (offset : Z) (chunk_b64 chunk_sha256 : string) : wexn + string :=
  check_ (0 <=? offset) (AssetError "offset must be a nonnegative integer") ;;?
  check_ ((1 <=? len chunk_b64) && (len chunk_b64 <=? _MAX_BASE64_CHARS))
    (AssetError "Base64 chunk exceeds the 64 KiB decoded maximum") ;;?
  check_ (sha256_text chunk_sha256) (AssetError "Chunk SHA-256 must contain 64 lowercase hex characters") ;;?
  match b64decode_strict chunk_b64 with
  | None => inl (AssetError "Invalid RFC4648 base64 chunk")
  | Some chunk =>
      check_ (negb (String.eqb chunk "") && (len chunk <=? CHUNK_BYTES))
        (AssetError "Chunk must contain 1..65536 decoded bytes") ;;?
      check_ (String.eqb (hexdigest chunk) chunk_sha256) (AssetError "Chunk SHA-256 mismatch; no bytes accepted") ;;?
      inr chunk
  end.
Definition upload_chunk (readonly : bool) (now : Z) (upload_id project_id relative_path : string) (offset : Z)
    (chunk_b64 chunk_sha256 : string) : call progress := fun uploads =>
  match (writeable readonly ;;? chunk_bytes offset chunk_b64 chunk_sha256) with
  | inl e => (inl e, uploads)
  | inr chunk =>
      let uploads := _expire now uploads in
      match _get upload_id project_id relative_path uploads with
      | inl e => (inl e, uploads)
      | inr u =>
          let current := len (up_content u) in
          let accept u replayed := (inr (mkProgress upload_id u replayed), dict_set upload_id u uploads) in
          if (offset <? current) && (offset + len chunk <=? current)
             && String.eqb (slice (up_content u) (Z.to_nat offset) (Z.to_nat (offset + len chunk))) chunk
          then accept (extended "" now u) true
          else if negb (offset =? current)
          then (inl (AssetConflict ("Unexpected offset; next_offset=" +s+ nat_str (slen (up_content u)))), uploads)
          else if up_total_bytes u <? current + len chunk
          then (inl (AssetError "Chunk exceeds the declared file size"), uploads)
          else accept (extended chunk now u) false
      end
  end.

Definition upload_abort (now : Z) (upload_id project_id relative_path : string) : call unit := fun uploads =>
  let uploads := _expire now uploads in
  match _get upload_id project_id relative_path uploads with
  | inl e => (inl e, uploads)
  | inr _ => (inr tt, dict_del upload_id uploads)
  end.

Section Finish.
Context {U : Utf8} {D : Disk}.
Definition complete_content (u : Upload) : wexn + string :=
  check_ (len (up_content u) =? up_total_bytes u)
    (AssetConflict ("Upload incomplete; next_offset=" +s+ nat_str (slen (up_content u)))) ;;?
  check_ (String.eqb (hexdigest (up_content u)) (up_sha256 u))
    (AssetError "Complete-file SHA-256 mismatch; no file was written") ;;?
  inr (up_content u).
Definition upload_finish (pol : WorkspacePolicy) (readonly : bool) (now : Z) (upload_id project_id relative_path : string)
    (uploads : dict Upload) (f : fs) : (wexn + asset_meta * option string) * dict Upload * fs :=
  match writeable readonly with
  | inl e => (inl e, uploads, f)
  | inr _ =>
      let uploads := _expire now uploads in
      match (u <-? _get upload_id project_id relative_path uploads ;; data <-? complete_content u ;; inr (u, data)) with
      | inl e => (inl e, uploads, f)
      | inr (u, data) =>
          match publish_asset pol project_id relative_path data (up_sha256 u) (up_previous_sha256 u)
                  (up_create_parents u) f with
          | (inl e, f) => (inl e, uploads, f)
          | (inr result, f) => (inr result, dict_del upload_id uploads, f)
          end
      end
  end.
End Finish.

(** A piece of a download *)
Record piece_read : Type := mkPiece {
  pr_offset : Z; pr_next_offset : Z; pr_eof : bool; pr_size : Z; pr_sha256 : string;
  pr_chunk_sha256 : string; pr_chunk_b64 : string
}.
Definition read_asset (pol : WorkspacePolicy) (project_id relative_path : string) (offset : Z) (expected_sha256 : string)
    (f : fs) : wexn + piece_read :=
  check_ (0 <=? offset) (AssetError "offset must be a nonnegative integer") ;;?
  check_ (sha256_text expected_sha256) (AssetError "Expected SHA-256 must be 64 lowercase hex characters") ;;?
  meta <-? inspect_asset pol project_id relative_path f ;;
  check_ (String.eqb (am_sha256 meta) expected_sha256) (AssetConflict "Asset SHA-256 changed: refresh metadata") ;;?
  check_ (offset <=? am_size meta) (AssetError "offset exceeds file size") ;;?
  path <-? _candidate_path pol project_id relative_path false f ;;
  match read_bytes f path with
  | inl e => inl (OSError e)
  | inr data =>
      let chunk := take (Z.to_nat CHUNK_BYTES) (drop (Z.to_nat offset) data) in
      meta2 <-? inspect_asset pol project_id relative_path f ;;
      check_ (String.eqb (am_sha256 meta2) expected_sha256) (AssetConflict "Asset changed during read") ;;?
      inr (mkPiece offset (offset + len chunk) (offset + len chunk =? am_size meta) (am_size meta) expected_sha256
             (hexdigest chunk) (b64encode chunk))
  end.

(** ** The store and the files, shared by every caller *)
Inductive request : Type :=
| Begin (readonly : bool) (now : Z) (upload_id project_id relative_path sha256 : string) (total_bytes : Z)
    (previous_sha256 : option string) (create_parents : bool)
| Status (now : Z) (upload_id project_id relative_path : string)
| Chunk (readonly : bool) (now : Z) (upload_id project_id relative_path : string) (offset : Z)
    (chunk_b64 chunk_sha256 : string)
| Abort (now : Z) (upload_id project_id relative_path : string)
| Finish (readonly : bool) (now : Z) (upload_id project_id relative_path : string)
| Elsewhere (f' : fs).  (* what else changes the files *)
Inductive answer : Type :=
| Refused (e : wexn) | Progress (p : progress) | Aborted | Published (meta : asset_meta) (replaced : option string)
| Changed.
Record staging : Type := mkStaging { sg_uploads : dict Upload; sg_files : fs }.

Section Serve.
Context {U : Utf8} {D : Disk}.
Definition serve (pol : WorkspacePolicy) (r : request) (s : staging) : answer * staging :=
  let on {A} (c : (wexn + A) * dict Upload) (k : A -> answer) :=
    (match fst c with inl e => Refused e | inr a => k a end, mkStaging (snd c) (sg_files s)) in
  match r with
  | Begin ro now i project rel sha total previous parents =>
      on (begin_upload pol (sg_files s) ro now i project rel sha total previous parents (sg_uploads s)) Progress
  | Status now i project rel => on (upload_status now i project rel (sg_uploads s)) Progress
  | Chunk ro now i project rel offset b64 sha => on (upload_chunk ro now i project rel offset b64 sha (sg_uploads s)) Progress
  | Abort now i project rel => on (upload_abort now i project rel (sg_uploads s)) (fun _ => Aborted)
  | Finish ro now i project rel =>
      match upload_finish pol ro now i project rel (sg_uploads s) (sg_files s) with
      | (inl e, uploads, f) => (Refused e, mkStaging uploads f)
      | (inr (meta, replaced), uploads, f) => (Published meta replaced, mkStaging uploads f)
      end
  | Elsewhere f' => (Changed, mkStaging (sg_uploads s) f')
  end.
Fixpoint serve_all (pol : WorkspacePolicy) (rs : list request) (s : staging) : list answer * staging :=
  match rs with
  | [] => ([], s)
  | r :: rs => let (a, s) := serve pol r s in let (l, s) := serve_all pol rs s in (a :: l, s)
  end.
End Serve.
