(* ===== verification/KnownHosts.v ===== *)
(** * Trusted SSH host keys (src/app/known_hosts.py, routers/known_hosts.py, _get_host_key_policy of ssh_manager.py)

    Keys and the known_hosts table are paramiko's: [Paramiko] says what the code relies on of
    them.  [HostKeyStore] is the abstract class; its instances are the file store, with what is
    loaded and what is on disk, and the PostgreSQL store, a table with the primary key of the
    schema.  A method holds the lock of its store or runs one transaction, so it is one step.
    Then: what a connection is let through by, after any sequence of stores and deletions. *)
From stdpp Require Import gmap strings.
From S2P Require Import Prelude PyStr Regex RegexParse Digests UnifiedDiff.
From stdpp Require Import options.

#[local] Open Scope Z_scope.

(** ** Host and port in one name *)
Definition _format_host_port (host : string) (port : Z) : string :=
  if port =? 22 then host else "[" +s+ host +s+ "]:" +s+ nat_str (Z.to_nat port).
(** [$] also matches before a last newline. *)
Definition before_newline (s : string) : string :=
  match srev s with String c r => if Ascii.eqb c newline then srev r else s | "" => s end.
(** The match of [_BRACKET_HOST_RE]: the digits at the end, what precedes them, and a host of one line *)
Definition bracket_match (entry : string) : option (string * Z) :=
  match before_newline entry with
  | String "[" body =>
      let r := srev body in
      let n := span_len is_digit r in
      match n, drop n r with
      | S _, String ":" (String "]" h) =>
          if negb (String.eqb h "") && negb (char_in newline h)
          then Some (srev h, int_of 10 0 (srev (take n r))) else None
      | _, _ => None
      end
  | _ => None
  end.
Definition _parse_host_port (entry : string) : string * Z := default (entry, 22) (bracket_match entry).

Definition is_some {A} (o : option A) : bool := match o with Some _ => true | None => false end.

(** ** What paramiko provides *)
Class Paramiko : Type := {
  pkey : Type;
  get_name : pkey -> string;
  asbytes : pkey -> string;
  pkey_eqb : pkey -> pkey -> bool;
  (* a row of the table: its names and its key *)
  host_matches : string -> list string -> bool;
  hk_add : list (list string * pkey) -> string -> pkey -> list (list string * pkey);
  hk_lookup : list (list string * pkey) -> string -> option (list pkey);
  hk_items : list (list string * pkey) -> list (string * list (string * pkey));
  (* keys are equal when their public bytes are *)
  pkey_eqb_spec a b : pkey_eqb a b = true <-> asbytes a = asbytes b;
  (* adding a key leaves rows as they are, puts the key in a row that has the name, or adds one *)
  hk_add_rows rows name key e : In e (hk_add rows name key) -> In e rows \/ (snd e = key /\ In name (fst e));
  (* a lookup finds keys of rows whose names match *)
  hk_lookup_rows rows name keys key : hk_lookup rows name = Some keys -> In key keys ->
    exists names, In (names, key) rows /\ host_matches name names = true
}.

(** ** The table [ssh_host_keys] by its primary key; the clock column is left out *)
Record key_row : Type := mkKeyRow { key_data : string; fingerprint : string }.
Abbreviation KeyTable := (gmap (string * Z * string) key_row).

Section Stores.
Context {P : Paramiko}.

Inductive hexn : Type := MultipleResultsFound | SaveFailed | TimeoutError | SSHException (msg : string) | HTTPException (status : Z) (detail : string)
| KeyError (msg : string).  (* another exception of a key's constructor *)
Record host_row : Type := mkHostRow { hr_host : string; hr_port : Z; hr_key_type : string; hr_fingerprint : string }.

(** *** The abstract class: [None] for an unknown host, [Some true] when the key matches, [Some false]
    when it changed.  [saves] is whether the file can be written. *)
Class HostKeyStore (S : Type) : Type := {
  check : string -> Z -> pkey -> S -> (hexn + option bool) * S;
  store : bool -> string -> Z -> pkey -> S -> (hexn + unit) * S;
  list_keys : S -> (hexn + list host_row) * S;
  get_host : string -> Z -> S -> (hexn + option host_row) * S;
  delete_host : bool -> string -> Z -> S -> (hexn + Z) * S;
  delete_all : bool -> S -> (hexn + Z) * S
}.

(** [HostKeyStore.get_host] *)
Definition get_listed (host : string) (port : Z) (rows : list host_row) : option host_row :=
  List.find (fun e => String.eqb (hr_host e) host && (hr_port e =? port)) rows.

(** *** No store *)
#[export] Instance NullHostKeyStore : HostKeyStore unit := {|
  check _ _ _ s := (inr None, s);
  store _ _ _ _ s := (inr tt, s);
  list_keys s := (inr [], s);
  get_host host port s := (inr (get_listed host port []), s);
  delete_host _ _ _ s := (inr 0, s);
  delete_all _ s := (inr 0, s)
|}.

(** *** The file *)
Definition row : Type := list string * pkey.
Record FileStore : Type := mkFile { _hk : list row; _loaded : bool; on_disk : option (list row) }.
Definition _load (s : FileStore) : FileStore :=
  if _loaded s then s else mkFile (default [] (on_disk s)) true (on_disk s).
Definition with_rows (rows : list row) (s : FileStore) : FileStore := mkFile rows (_loaded s) (on_disk s).
Definition _save (saves : bool) (s : FileStore) : (hexn + unit) * FileStore :=
  if saves then (inr tt, mkFile (_hk s) (_loaded s) (Some (_hk s))) else (inl SaveFailed, s).

Definition file_check (host : string) (port : Z) (key : pkey) (s : FileStore) : (hexn + option bool) * FileStore :=
  let s := _load s in
  (inr (option_map (existsb (fun known_key => pkey_eqb known_key key)) (hk_lookup (_hk s) (_format_host_port host port))), s).
Definition file_store (saves : bool) (host : string) (port : Z) (key : pkey) (s : FileStore) : (hexn + unit) * FileStore :=
  let s := _load s in
  let s := with_rows (hk_add (_hk s) (_format_host_port host port) key) s in
  (inr tt, snd (_save saves s)).
Definition file_list_keys (s : FileStore) : (hexn + list host_row) * FileStore :=
  let s := _load s in
  (inr (flat_map (fun e => let '(bare_host, port) := _parse_host_port (fst e) in
          map (fun k => mkHostRow bare_host port (fst k) (hexdigest (asbytes (snd k)))) (snd e)) (hk_items (_hk s))), s).
Definition file_get_host (host : string) (port : Z) (s : FileStore) : (hexn + option host_row) * FileStore :=
  match file_list_keys s with
  | (inl e, s) => (inl e, s)
  | (inr rows, s) => (inr (get_listed host port rows), s)
  end.
Definition named (host : string) (port : Z) (e : row) : bool :=
  mem ("[" +s+ host +s+ "]:" +s+ nat_str (Z.to_nat port)) (fst e) || mem host (fst e).
Definition keep_rows (saves : bool) (keep : row -> bool) (s : FileStore) : (hexn + Z) * FileStore :=
  let s := _load s in
  let kept := List.filter keep (_hk s) in
  let removed := Z.of_nat (length (_hk s)) - Z.of_nat (length kept) in
  let s := with_rows kept s in
  if 0 <? removed
  then match _save saves s with (inl e, s) => (inl e, s) | (inr _, s) => (inr removed, s) end
  else (inr removed, s).
Definition file_delete_host (saves : bool) (host : string) (port : Z) (s : FileStore) : (hexn + Z) * FileStore :=
  keep_rows saves (fun e => negb (named host port e)) s.
Definition file_delete_all (saves : bool) (s : FileStore) : (hexn + Z) * FileStore := keep_rows saves (fun _ => false) s.
#[export] Instance FileHostKeyStore : HostKeyStore FileStore := {|
  check := file_check; store := file_store; list_keys := file_list_keys; get_host := file_get_host;
  delete_host := file_delete_host; delete_all := file_delete_all
|}.

(** *** The table *)
Definition _key_data (key : pkey) : string := b64encode (asbytes key).
Definition _fingerprint (key : pkey) : string := hexdigest (asbytes key).
Definition listed (e : string * Z * string * key_row) : host_row :=
  let '(host, port, key_type, r) := e in mkHostRow host port key_type (fingerprint r).
Definition at_host (host : string) (port : Z) (e : string * Z * string * key_row) : Prop :=
  e.1.1.1 = host /\ e.1.1.2 = port.
#[export] Instance at_host_dec host port e : Decision (at_host host port e).
Proof. unfold at_host. apply _. Defined.

Definition pg_check (host : string) (port : Z) (key : pkey) (s : KeyTable) : (hexn + option bool) * KeyTable :=
  (inr (option_map (fun record => String.eqb (key_data record) (_key_data key)) (s !! (host, port, get_name key))), s).
Definition pg_store (_ : bool) (host : string) (port : Z) (key : pkey) (s : KeyTable) : (hexn + unit) * KeyTable :=
  (inr tt, <[(host, port, get_name key) := mkKeyRow (_key_data key) (_fingerprint key)]> s).
Definition pg_list_keys (s : KeyTable) : (hexn + list host_row) * KeyTable := (inr (map listed (map_to_list s)), s).
(** [scalar_one_or_none] raises on a second row. *)
Definition pg_get_host (host : string) (port : Z) (s : KeyTable) : (hexn + option host_row) * KeyTable :=
  (match filter (at_host host port) (map_to_list s) with
   | [] => inr None
   | [r] => inr (Some (listed r))
   | _ => inl MultipleResultsFound
   end, s).
Definition pg_delete_host (_ : bool) (host : string) (port : Z) (s : KeyTable) : (hexn + Z) * KeyTable :=
  (inr (Z.of_nat (length (filter (at_host host port) (map_to_list s)))), filter (fun e => ~ at_host host port e) s).
Definition pg_delete_all (_ : bool) (s : KeyTable) : (hexn + Z) * KeyTable := (inr (Z.of_nat (size s)), ∅).
#[export] Instance PostgresHostKeyStore : HostKeyStore KeyTable := {|
  check := pg_check; store := pg_store; list_keys := pg_list_keys; get_host := pg_get_host;
  delete_host := pg_delete_host; delete_all := pg_delete_all
|}.

(** ** The policy of a connection *)
Inductive MissingHostKeyPolicy : Type := KnownHostsPolicy (port : Z) | RejectPolicy | AutoAddPolicy.
Definition _get_host_key_policy (null_store strict_host_key : bool) (port : Z) : MissingHostKeyPolicy :=
  if negb null_store then KnownHostsPolicy port else if strict_host_key then RejectPolicy else AutoAddPolicy.

Definition unknown_text (host : string) (port : Z) : string :=
  "Unknown host " +s+ host +s+ ":" +s+ nat_str (Z.to_nat port) +s+ ". "
  +s+ "Add the host key manually via SSHConnectResponse or the known-hosts API.".
Definition changed_text (host : string) (port : Z) : string :=
  "Host key for " +s+ host +s+ ":" +s+ nat_str (Z.to_nat port) +s+ " changed — possible MITM attack. "
  +s+ "Remove the old key via the known-hosts API and re-add if the change was legitimate.".
Definition _check_or_store {S} `{HostKeyStore S} (policy_port : Z) (hostname : string) (key : pkey) (s : S)
    : (hexn + unit) * S :=
  match check hostname policy_port key s with
  | (inl e, s) => (inl e, s)
  | (inr None, s) => (inl (SSHException (unknown_text hostname policy_port)), s)
  | (inr (Some false), s) => (inl (SSHException (changed_text hostname policy_port)), s)
  | (inr (Some true), s) => (inr tt, s)
  end.
(** Where a loop runs in the calling thread, the call waits for a coroutine of that very loop. *)
Definition missing_host_key {S} `{HostKeyStore S} (loop_running : bool) (policy_port : Z) (hostname : string) (key : pkey)
    (s : S) : (hexn + unit) * S :=
  let '(bare_host, _) := _parse_host_port hostname in
  if loop_running then (inl TimeoutError, s) else _check_or_store policy_port bare_host key s.

Definition _TRUST_ERROR_PATTERNS : list (string * string) := [
  ("unknown", "unknown host"); ("changed", "(changed.*mitm|key.*changed|host key mismatch)")].
Definition ignorecase : flags := mkflags true false.
Definition classify_ssh_trust_error (message : string) : option string :=
  option_map fst (List.find (fun e => is_some (search (re_lit ignorecase (snd e)) message)) _TRUST_ERROR_PATTERNS).

(** ** The routes *)
(** What a key's constructor makes of the bytes *)
Inductive made : Type := Made (key : pkey) | NotThisType | Broken (msg : string).
Class KeyTypes : Type := { RSAKey : string -> made; Ed25519Key : string -> made; ECDSAKey : string -> made }.

Section Routes.
Context {S : Type} `{HostKeyStore S} {T : KeyTypes}.
Definition check_known_host (host : string) (port : Z) (s : S) : (hexn + bool) * S :=
  match get_host host port s with (inl e, s) => (inl e, s) | (inr entry, s) => (inr (is_some entry), s) end.
Definition lookup_known_host (host : string) (port : Z) (s : S) : (hexn + host_row) * S :=
  match get_host host port s with
  | (inl e, s) => (inl e, s)
  | (inr None, s) => (inl (HTTPException 404 "not found in known-hosts"), s)
  | (inr (Some entry), s) => (inr entry, s)
  end.
Definition delete_known_host (saves : bool) (host : string) (port : Z) (s : S) : (hexn + Z) * S :=
  match delete_host saves host port s with
  | (inl e, s) => (inl e, s)
  | (inr count, s) => (if count =? 0 then inl (HTTPException 404 "No known hosts found") else inr count, s)
  end.
(** The key of a scanned line, the types tried in turn: [None] where a line's exception is noted and the
    next line read.  An exception of the second constructor other than [SSHException] is not caught. *)
Definition scanned_key (data : string) : hexn + option pkey :=
  match b64decode data with
  | None => inr None
  | Some bytes =>
      match RSAKey bytes with
      | Made key => inr (Some key)
      | Broken _ => inr None
      | NotThisType =>
          match Ed25519Key bytes with
          | Made key => inr (Some key)
          | Broken msg => inl (KeyError msg)
          | NotThisType => match ECDSAKey bytes with Made key => inr (Some key) | _ => inr None end
          end
      end
  end.
Definition key_line (line : string) : option string :=
  match split_ws (strip line) with
  | first :: _ :: data :: _ => if startswith "#" first then None else Some data
  | _ => None
  end.
(** No store here raises when it stores a key. *)
Fixpoint add_lines (saves : bool) (host : string) (port : Z) (lines : list string) (added : Z) (s : S) : (hexn + Z) * S :=
  match lines with
  | [] => (inr added, s)
  | line :: lines =>
      match key_line line with
      | None => add_lines saves host port lines added s
      | Some data =>
          match scanned_key data with
          | inl e => (inl e, s)
          | inr None => add_lines saves host port lines added s
          | inr (Some key) =>
              match store saves host port key s with
              | (inl e, s) => (inl e, s)
              | (inr _, s) => add_lines saves host port lines (added + 1) s
              end
          end
      end
  end.
Definition add_known_host (saves : bool) (returncode : Z) (stdout host : string) (port : Z) (s : S) : (hexn + Z) * S :=
  if negb (returncode =? 0) then (inl (HTTPException 502 "ssh-keyscan failed"), s)
  else if String.eqb (strip stdout) "" then (inl (HTTPException 502 "ssh-keyscan returned no keys"), s)
  else match add_lines saves host port (splitlines (strip stdout)) 0 s with
       | (inl e, s) => (inl e, s)
       | (inr added, s) => (if added =? 0 then inl (HTTPException 502 "Could not parse any host key") else inr added, s)
       end.
End Routes.

(** ** Any sequence of operations *)
Inductive store_op : Type :=
| OpCheck (host : string) (port : Z) (key : pkey) | OpStore (saves : bool) (host : string) (port : Z) (key : pkey)
| OpList | OpGet (host : string) (port : Z)
| OpDelete (saves : bool) (host : string) (port : Z) | OpDeleteAll (saves : bool).
Definition apply_op {S} `{HostKeyStore S} (s : S) (o : store_op) : S :=
  match o with
  | OpCheck host port key => snd (check host port key s)
  | OpStore saves host port key => snd (store saves host port key s)
  | OpList => snd (list_keys s)
  | OpGet host port => snd (get_host host port s)
  | OpDelete saves host port => snd (delete_host saves host port s)
  | OpDeleteAll saves => snd (delete_all saves s)
  end.
Definition after_ops {S} `{HostKeyStore S} (ops : list store_op) (s : S) : S := fold_left apply_op ops s.
End Stores.

(** * What a connection is let through by *)

(** ** The name paramiko gives a server is read back *)
Lemma srev_nonempty s : s <> "" -> srev s <> "".
Proof. intros H E. apply H. by rewrite <- (srev_involutive s), E. Qed.
Lemma span_len_run p a c b : all_of p a = true -> p c = false -> span_len p (a +s+ String c b) = slen a.
Proof.
  intros Ha Hc. induction a as [|d a IH]; cbn; [by rewrite Hc |]. cbn in Ha. apply andb_true_iff in Ha as [-> Ha].
  by rewrite IH.
Qed.
Lemma bracket_body host ds : host <> "" -> char_in newline host = false -> ds <> "" -> all_of is_digit ds = true ->
  bracket_match ("[" +s+ host +s+ "]:" +s+ ds) = Some (host, int_of 10 0 ds).
Proof.
  intros Hh Hn Hd Hall. unfold bracket_match.
  assert (Hr : srev (host +s+ "]:" +s+ ds) = srev ds +s+ String ":" (String "]" (srev host)))
    by (rewrite !srev_append, append_assoc; done).
  rewrite <- all_of_srev in Hall. apply srev_nonempty in Hd.
  assert (Hb : before_newline ("[" +s+ host +s+ "]:" +s+ ds) = "[" +s+ host +s+ "]:" +s+ ds).
  { unfold before_newline. rewrite (srev_append "["), Hr. destruct (srev ds) as [|c r]; [done |]. cbn [append].
    destruct (Ascii.eqb_spec c newline) as [-> |]; [by cbn in Hall | done]. }
  rewrite Hb. change ("[" +s+ host +s+ "]:" +s+ ds) with (String "[" (host +s+ "]:" +s+ ds)). cbv iota. rewrite Hr.
  rewrite span_len_run by done. cbv zeta.
  destruct (slen (srev ds)) as [|n] eqn:E; [by destruct (srev ds) |]. rewrite <- E, drop_app_len, take_app_len, !srev_involutive.
  assert (Hc : char_in newline (srev host) = false).
  { clear -Hn. induction host as [|d host IH]; [done |]. cbn [char_in] in Hn. apply orb_false_iff in Hn as [H1 H2].
    rewrite srev_cons, char_in_app, IH by done. cbn [char_in sc]. by rewrite H1. }
  rewrite Hc. destruct (String.eqb_spec (srev host) "") as [E2|]; [| done]. by apply srev_nonempty in E2.
Qed.
Definition plain_host (host : string) : Prop :=
  host <> "" /\ char_in newline host = false /\ bracket_match host = None.
Lemma format_parse host port : plain_host host -> _parse_host_port (_format_host_port host port) = (host, if port =? 22 then 22 else Z.of_nat (Z.to_nat port)).
Proof.
  intros (H1 & H2 & H3). unfold _parse_host_port, _format_host_port. destruct (port =? 22); [by rewrite H3 |].
  destruct (nat_str_spec (Z.to_nat port)) as (Hn & Hd & Hi). by rewrite bracket_body, Hi.
Qed.

Section Trust.
Context {P : Paramiko}.

(** ** The PostgreSQL store: the last word of the history *)
(** The key a history leaves trusted for a host, a port and a type of key *)
Definition trust_step (host : string) (port : Z) (key_type : string) (t : option string) (o : store_op) : option string :=
  match o with
  | OpStore _ h p k => if String.eqb h host && (p =? port) && String.eqb (get_name k) key_type then Some (asbytes k) else t
  | OpDelete _ h p => if String.eqb h host && (p =? port) then None else t
  | OpDeleteAll _ => None
  | _ => t
  end.
Definition trusted (ops : list store_op) (host : string) (port : Z) (key_type : string) : option string :=
  fold_left (trust_step host port key_type) ops None.

Lemma trust_row ops host port key_type :
  (after_ops ops (∅ : KeyTable)) !! (host, port, key_type)
  = option_map (fun bytes => mkKeyRow (b64encode bytes) (hexdigest bytes)) (trusted ops host port key_type).
Proof.
  induction ops as [|o ops IH] using rev_ind; [done |]. unfold after_ops, trusted in *. rewrite !fold_left_app. cbn [fold_left].
  revert IH. generalize (fold_left apply_op ops (∅ : KeyTable)). generalize (fold_left (trust_step host port key_type) ops None).
  intros t s IH. destruct o as [h p k|sv h p k| |h p|sv h p|sv]; cbn [apply_op snd trust_step] in *; try exact IH.
  - cbn [store PostgresHostKeyStore pg_store snd].
    destruct (String.eqb_spec h host); [subst h | by rewrite lookup_insert_ne by congruence].
    destruct (Z.eqb_spec p port); [subst p | by rewrite lookup_insert_ne by congruence].
    destruct (String.eqb_spec (get_name k) key_type); [subst key_type | by rewrite lookup_insert_ne by congruence].
    by rewrite lookup_insert_eq.
  - cbn [delete_host PostgresHostKeyStore pg_delete_host snd].
    rewrite map_lookup_filter, IH. destruct t as [bytes|]; cbn [option_map]; [| by destruct (_ && _)].
    cbn [mbind option_bind]. unfold at_host. cbn [fst].
    destruct (String.eqb_spec h host); [subst h; destruct (Z.eqb_spec p port); [subst p |] |];
      case_guard as Hg; cbn in Hg |- *; intuition congruence.
  - cbn [delete_all PostgresHostKeyStore pg_delete_all snd]. by rewrite lookup_empty.
Qed.
Lemma b64encode_inj a b : b64encode a = b64encode b -> a = b.
Proof. intros H. apply (f_equal b64decode) in H. rewrite !b64_round_trip in H. by injection H. Qed.


(** ** The file store: every key that counts was put there *)
(** A deletion that takes the row away *)
Definition removes (e : row) (o : store_op) : bool :=
  match o with OpDelete _ h p => named h p e | OpDeleteAll _ => true | _ => false end.
(** The row was in the file, or its key was stored under one of its names, and no deletion took it since. *)
Definition put_there (disk : list row) (ops : list store_op) (e : row) : Prop :=
  (In e disk /\ Forall (fun o => removes e o = false) ops) \/
  exists before saves h p after, ops = before ++ OpStore saves h p (snd e) :: after /\
    In (_format_host_port h p) (fst e) /\ Forall (fun o => removes e o = false) after.

Lemma save_rows saves s : _hk (snd (_save saves s)) = _hk s /\ _loaded (snd (_save saves s)) = _loaded s.
Proof. by destruct saves. Qed.
Lemma load_loaded s : _loaded (_load s) = true.
Proof. by destruct s as [rows [] disk]. Qed.
Lemma load_again s : _loaded s = true -> _load s = s.
Proof. unfold _load. by intros ->. Qed.
Lemma kept_rows saves keep s : _hk (_load (snd (keep_rows saves keep s))) = List.filter keep (_hk (_load s)).
Proof.
  unfold keep_rows. set (rows := List.filter keep _). assert (Hl : _loaded (with_rows rows (_load s)) = true) by apply load_loaded.
  destruct (0 <? _); [| by rewrite load_again]. pose proof (save_rows saves (with_rows rows (_load s))) as [H1 H2].
  destruct (_save saves _) as [[e|[]] s']; cbn [snd] in *; rewrite load_again by congruence; exact H1.
Qed.
(** A row is there after an operation only if it was before and was not deleted, or was just stored. *)
Lemma rows_after s o e : In e (_hk (_load (apply_op s o))) ->
  (In e (_hk (_load s)) /\ removes e o = false) \/
  exists saves h p, o = OpStore saves h p (snd e) /\ In (_format_host_port h p) (fst e).
Proof.
  assert (Hsame : _load (_load s) = _load s) by apply load_again, load_loaded.
  destruct o as [h p k|sv h p k| |h p|sv h p|sv]; cbn [apply_op check store list_keys get_host delete_host delete_all
    FileHostKeyStore file_check file_list_keys file_delete_host file_delete_all snd removes].
  - rewrite Hsame. auto.
  - unfold file_store. cbn [snd]. set (rows := hk_add _ _ k). pose proof (save_rows sv (with_rows rows (_load s))) as [H1 H2].
    rewrite load_again by (rewrite H2; apply load_loaded). rewrite H1. cbn [with_rows _hk]. intros [Hin | [He Hin]]%hk_add_rows; [auto |].
    right. exists sv, h, p. by rewrite He.
  - rewrite Hsame. auto.
  - unfold file_get_host. cbn [file_list_keys]. cbn [snd]. rewrite Hsame. auto.
  - intros Hin. assert (Hin' : In e (List.filter (fun e => negb (named h p e)) (_hk (_load s)))) by (rewrite <- (kept_rows sv); exact Hin).
    apply filter_In in Hin' as [H Hk%negb_true_iff]. auto.
  - intros Hin. assert (Hin' : In e (List.filter (fun _ => false) (_hk (_load s)))) by (rewrite <- (kept_rows sv); exact Hin).
    by apply filter_In in Hin' as [_ [=]].
Qed.
Lemma rows_put_there disk ops e : In e (_hk (_load (after_ops ops (mkFile [] false disk)))) -> put_there (default [] disk) ops e.
Proof.
  induction ops as [|o ops IH] using rev_ind; [by left |]. unfold after_ops in *. rewrite fold_left_app. cbn [fold_left].
  intros [[Hin Hr] | (saves & h & p & -> & Hn)]%rows_after.
  - destruct (IH Hin) as [[Hd Hops] | (before & saves & h & p & after & -> & Hn & Hops)].
    + left. split; [done |]. by apply Forall_app; split; [| constructor].
    + right. exists before, saves, h, p, (after ++ [o]). rewrite <- app_assoc. split; [done |]. split; [done |].
      by apply Forall_app; split; [| constructor].
  - right. exists ops, saves, h, p, []. split; [done |]. by split.
Qed.

(** C29: A connection the file store lets through is vouched for: after any sequence of operations,
    from whatever the file held, some row whose names match the host and port holds a key equal
    to the one presented, and that row was in the file from the start, or its key was stored under one
    of its names, and no deletion naming it came after. *)
Theorem file_trust loop_running disk ops host port key s : plain_host host -> 0 <= port ->
  missing_host_key loop_running port (_format_host_port host port) key (after_ops ops (mkFile [] false disk)) = (inr tt, s) ->
  exists names known_key, put_there (default [] disk) ops (names, known_key) /\
    host_matches (_format_host_port host port) names = true /\ asbytes known_key = asbytes key.
Proof.
  intros Hh Hp. unfold missing_host_key. rewrite format_parse by done. destruct loop_running; [done |]. unfold _check_or_store.
  cbn [check FileHostKeyStore file_check]. set (s0 := after_ops ops _).
  destruct (hk_lookup _ _) as [keys|] eqn:El; [| done]. cbn [option_map].
  destruct (existsb _ keys) eqn:Ee; [| done]. intros _. apply existsb_exists in Ee as (k & Hin & Hk%pkey_eqb_spec).
  destruct (hk_lookup_rows _ _ _ _ El Hin) as (names & Hrow & Hm). exists names, k. by split; [apply rows_put_there |].
Qed.
End Trust.

(** ** Runs *)
Module HostRuns.
(** A table of plain names, and keys of a type and their bytes *)
Definition key : Type := string * string.
Fixpoint add (rows : list (list string * key)) (name : string) (k : key) : list (list string * key) :=
  match rows with
  | [] => [([name], k)]
  | (names, known) :: rows => if mem name names && String.eqb (fst known) (fst k) then (names, k) :: rows
                              else (names, known) :: add rows name k
  end.
Definition matching (rows : list (list string * key)) (name : string) : list key :=
  map snd (List.filter (fun e => mem name (fst e)) rows).
Definition lookup_keys (rows : list (list string * key)) (name : string) : option (list key) :=
  match matching rows name with [] => None | keys => Some keys end.
Lemma add_rows rows name k e : In e (add rows name k) -> In e rows \/ (snd e = k /\ In name (fst e)).
Proof.
  induction rows as [|[names known] rows IH]; cbn [add].
  - intros [<- | []]. right. by split; [| left].
  - destruct (mem name names && _) eqn:E.
    + intros [<- | H]; [right | left; by right]. apply andb_true_iff in E as [E%mem_In _]. done.
    + intros [<- | H]; [left; by left |]. destruct (IH H) as [H' | H']; [left; by right | by right].
Qed.
Lemma lookup_rows rows name keys k : lookup_keys rows name = Some keys -> In k keys ->
  exists names, In (names, k) rows /\ mem name names = true.
Proof.
  unfold lookup_keys. intros H Hin. assert (Hk : In k (matching rows name)) by (destruct (matching rows name); [done | by injection H as <-]).
  apply in_map_iff in Hk as ([names k'] & <- & [Hr Hm]%filter_In). by exists names.
Qed.
#[local] Instance plain_paramiko : Paramiko := {|
  pkey := key; get_name := fst; asbytes := snd; pkey_eqb a b := String.eqb (snd a) (snd b);
  host_matches := mem; hk_add := add; hk_lookup := lookup_keys;
  hk_items rows := flat_map (fun e => map (fun name => (name, [(fst (snd e), snd e)])) (fst e)) rows;
  pkey_eqb_spec a b := String.eqb_eq (snd a) (snd b); hk_add_rows := add_rows; hk_lookup_rows := lookup_rows
|}.
Definition rsa : key := ("ssh-rsa", "AAAA1").
Definition ed : key := ("ssh-ed25519", "AAAA2").
Definition moves : list store_op :=
  [OpStore true "srv" 2222 ed; OpStore true "srv" 22 rsa; OpDelete true "srv" 22; OpCheck "srv" 22 rsa].
Lemma srv_plain : plain_host "srv".
Proof. by repeat split. Qed.
Lemma srv_unknown key_type : trusted moves "srv" 22 key_type = None.
Proof. reflexivity. Qed.

Definition held : option (list row) := Some [(["old"; "[srv]:2222"], rsa)].
Definition stores : list store_op := [OpStore true "srv" 2222 ed; OpDelete true "other" 22].
Definition file_now : FileStore := after_ops (S:=FileStore) stores (mkFile [] false held).
Lemma file_lets_through : missing_host_key (S:=FileStore) false 2222 (_format_host_port "srv" 2222) rsa file_now = (inr tt, file_now).
Proof. reflexivity. Qed.
Lemma file_trust_witness : exists names known_key,
  put_there (default [] held) stores (names, known_key) /\ asbytes known_key = "AAAA1".
Proof.
  destruct (file_trust false held stores "srv" 2222 rsa _ srv_plain ltac:(done) file_lets_through) as (names & k & Hp & _ & Hk).
  exists names, k. exact (conj Hp Hk).
Defined.

(** Deleting a host at another port from the file takes the key of port 22 too. *)
Example delete_takes_port_22 :
  let s := after_ops (S:=FileStore) [OpStore true "srv" 22 rsa] (mkFile [] false None) in
  fst (delete_host (S:=FileStore) true "srv" 2222 s) = inr 1 /\
  fst (check (S:=FileStore) "srv" 22 rsa (snd (delete_host true "srv" 2222 s))) = inr None.
Proof. split; reflexivity. Qed.
(** With keys of two types, as a scan adds them, the lookups of the PostgreSQL store raise. *)
Example two_types_raise :
  let s := after_ops [OpStore true "srv" 22 rsa; OpStore true "srv" 22 ed] (∅ : KeyTable) in
  fst (check_known_host "srv" 22 s) = inl MultipleResultsFound /\
  fst (check_known_host (S:=FileStore) "srv" 22 (after_ops (S:=FileStore) [OpStore true "srv" 22 rsa; OpStore true "srv" 22 ed] (mkFile [] false None))) = inr true.
Proof. split; vm_compute; reflexivity. Qed.
(** A host known by a key of another type is changed to the file store and unknown to the other. *)
Example other_type_told_apart :
  fst (check (S:=FileStore) "srv" 22 ed (after_ops (S:=FileStore) [OpStore true "srv" 22 rsa] (mkFile [] false None))) = inr (Some false) /\
  fst (check "srv" 22 ed (after_ops [OpStore true "srv" 22 rsa] (∅ : KeyTable))) = inr None.
Proof. split; vm_compute; reflexivity. Qed.
Example refusals_classified :
  classify_ssh_trust_error (unknown_text "srv" 22) = Some "unknown" /\
  classify_ssh_trust_error (changed_text "srv" 22) = Some "changed" /\ classify_ssh_trust_error "Connection refused" = None.
Proof. split_and!; by_eval. Qed.
End HostRuns.
