(* ===== verification/Instances.v ===== *)
(** * Concrete environments, in which the examples run

    A clock that advances one second at each reading, numbered identifiers, a host without
    environment variables, no decodable JSON, a Python parser that accepts nothing. *)
From S2P Require Import Prelude PyStr World AstMatcher Agents CommandGate.
From stdpp Require Import options.

Definition ticking : Env :=
  {| time_at n := (1000000 * (1000 + Z.of_nat n))%Z;
     uuid_at n := "id" +s+ nat_str n;
     loop_running := true |}.
Definition frozen (t : Z) : Env :=
  {| time_at _ := t; uuid_at n := "id" +s+ nat_str n; loop_running := true |}.
Definition bare_host : Host := {| environ _ := None; parent_comm := None |}.
Definition no_json : JsonLoads := fun _ => None.
Definition no_python : PyParser := fun _ => None.

Definition default_settings : Settings :=
  mkSettings "enforce" "default" "{}" "{}" true false "127.0.0.1/32".
Definition agent_identity : AuthIdentity :=
  mkIdentity "agent" "token-1" (Some "agent") ["ssh:execute"] None None [] false.

(** An allowlist entry that never expires *)
Definition system_entry (selector_type selector_value : string) : AllowlistEntry :=
  mkEntry "e1" "system" selector_type selector_value 0 None None "" None.
Definition world_with_entries (l : list AllowlistEntry) : World :=
  set_entries [("agent", []); ("project", []); ("user", []); ("system", l)] init_world.
