(* ===== verification/EngineSpec.v ===== *)
(** * Correctness of the decision engine

    The pipeline gate by gate; then the soundness of enforcement, what ASK mode can and cannot
    let through, AUDIT as a faithful dry run. *)
From S2P Require Import Prelude PyStr Shlex PolicyTypes Packs Registry Gates Profiles.
From S2P Require Import Heredoc AstMatcher Scan World Ask Allowlist Agents Engine.
From S2P Require Import Instances.
From stdpp Require Import options.
#[local] Unset Default Proof Using.

(** ** The pipeline *)
Section Pipeline.
Context {Sc : Scanner}.

Definition pipeline_allowed (command profile_value : string) : bool :=
  fst (fst (_evaluate_enforce_decision command profile_value)).
Definition pipeline_reason (command profile_value : string) : string :=
  snd (fst (_evaluate_enforce_decision command profile_value)).
Definition pipeline_gate (command profile_value : string) : option string :=
  snd (_evaluate_enforce_decision command profile_value).

(** The argv gate 2 looks at: [sudo] is dropped *)
Definition effective_argv (command : string) : list string :=
  effective_of (get_command_parts command).

Lemma argument_shape_effective c :
  fst (check_argument_shape c) = dangerous_argv (effective_argv c).
Proof.
  rewrite check_argument_shape_spec. unfold effective_argv, effective_of.
  by destruct (get_command_parts c).
Qed.

(** The three syntactic gates let the command through. *)
Definition gates_clear (c : string) : Prop :=
  contains_metachar c = None /\ dangerous_argv (effective_argv c) = false /\
  check_nested_commands c = [].

Lemma pipeline_allowed_iff c p :
  pipeline_allowed c p = true <->
  gates_clear c /\ fst (evaluator_of p c (get_command_root c)) = true.
Proof.
  unfold pipeline_allowed, gates_clear, _evaluate_enforce_decision.
  rewrite <- argument_shape_effective.
  destruct (contains_metachar c); [split; [done | by intros [(? & _) _]] |].
  destruct (check_argument_shape c) as [[] why]; simpl; [split; [done | by intros [(_ & ? & _) _]] |].
  destruct (check_nested_commands c); [| split; [done | by intros [(_ & _ & ?) _]]].
  destruct (evaluator_of p c (get_command_root c)) as [[] r]; simpl; [| split; [done | by intros [_ ?]]].
  split; auto.
Qed.

Lemma pipeline_gate_allowed c p :
  pipeline_gate c p = None <-> pipeline_allowed c p = true.
Proof.
  unfold pipeline_gate, pipeline_allowed, _evaluate_enforce_decision.
  destruct (contains_metachar c); [done |].
  destruct (check_argument_shape c) as [[] why]; [done |].
  destruct (check_nested_commands c); [| done].
  by destruct (evaluator_of p c (get_command_root c)) as [[] r].
Qed.

(** Gates 1 and 2 *)
Definition hard_blocked (c p : string) : Prop :=
  pipeline_gate c p = Some "metachar" \/ pipeline_gate c p = Some "argument_shape".
Lemma hard_blocked_iff c p :
  hard_blocked c p <->
  contains_metachar c <> None \/
  (contains_metachar c = None /\ dangerous_argv (effective_argv c) = true).
Proof.
  unfold hard_blocked, pipeline_gate, _evaluate_enforce_decision.
  rewrite <- argument_shape_effective.
  destruct (contains_metachar c); simpl; [split; auto; by left |].
  destruct (check_argument_shape c) as [[] why]; simpl; [split; auto |].
  destruct (check_nested_commands c); simpl;
    [destruct (evaluator_of p c (get_command_root c)) as [[] r]; simpl |];
    (split; [intros [?|?]; congruence | intros [Hx | [_ Hx]]; congruence]).
Qed.
#[export] Instance hard_blocked_dec c p : Decision (hard_blocked c p).
Proof. unfold hard_blocked. apply _. Defined.
End Pipeline.

(** ** The engine *)
Section EngineFacts.
Context {Sc : Scanner} {E : Env} {Py : PyParser} {H : Host} {J : JsonLoads}.
Variable agent_modes_setting : string.

#[local] Abbreviation evaluate := (evaluate_command_policy agent_modes_setting).

Definition effective_mode (mode : string) (agent : option string) : string :=
  or_default (resolve_mode agent_modes_setting mode (resolve_agent agent)) "audit".
Definition effective_profile (profile : string) : string := or_default profile "default".

(** Everything but the clock and the allowlist stays as it was. *)
Definition same_stores (w w' : World) : Prop :=
  w_store w' = w_store w /\ w_ids w' = w_ids w /\ w_access w' = w_access w /\
  w_tasks w' = w_tasks w /\ w_audit w' = w_audit w /\ w_commands w' = w_commands w.
#[export] Instance same_stores_refl : Reflexive same_stores.
Proof. by repeat split. Qed.
#[export] Instance same_stores_trans : Transitive same_stores.
Proof. unfold same_stores. intros a b c (? & ? & ? & ? & ? & ?) (? & ? & ? & ? & ? & ?). repeat split; congruence. Qed.

(** [quiet m]: [m] leaves those stores alone. *)
Definition quiet {A} (m : M A) : Prop := forall w, same_stores w (snd (m w)).
Lemma quiet_ret {A} (a : A) : quiet (mret a).
Proof. intros w. reflexivity. Qed.
Lemma quiet_let {A B} (m : M A) (k : A -> M B) : quiet m -> (forall a, quiet (k a)) -> quiet (mlet m k).
Proof.
  intros Hm Hk w. unfold mlet. specialize (Hm w). destruct (m w) as [[a | e] w1]; [| done].
  simpl in Hm. transitivity w1; [done | apply Hk].
Qed.
Lemma quiet_now : quiet now.
Proof. intros w. by repeat split. Qed.
Lemma quiet_lift {A} (r : result A) : quiet (lift r).
Proof. intros w. reflexivity. Qed.
Lemma quiet_entries e : quiet get_entries /\ quiet (put_entries e).
Proof. split; intros w; by repeat split. Qed.
#[local] Hint Resolve quiet_ret quiet_now quiet_lift : core.

Lemma quiet_expired e g : quiet (is_expired e g).
Proof.
  unfold is_expired. destruct (ae_expires_at e); [| done]. apply quiet_let; [| auto].
  destruct g as [n|]; [destruct (Z.eqb n 0) |]; auto.
Qed.
Lemma quiet_filter {A} (p : A -> M bool) l : (forall a, quiet (p a)) -> quiet (mfilter p l).
Proof.
  intros Hp. induction l as [|a r IH]; simpl; [auto |].
  apply quiet_let; [done |]. intros b. apply quiet_let; auto.
Qed.
Lemma quiet_expire_layers t d : quiet (expire_layers t d).
Proof.
  induction d as [|[layer lst] r IH]; simpl; [auto |].
  apply quiet_let; [apply quiet_filter; intros a; apply quiet_let; auto using quiet_expired |].
  intros kept. apply quiet_let; auto.
Qed.
Lemma quiet_expire_stale : quiet expire_stale_entries.
Proof.
  unfold expire_stale_entries. apply quiet_let; [auto |]. intros t.
  apply quiet_let; [apply quiet_entries; exact [] |]. intros d.
  apply quiet_let; [apply quiet_expire_layers |]. intros r.
  apply quiet_let; [apply quiet_entries | auto].
Qed.
Lemma quiet_check_entries c l : quiet (check_entries c l).
Proof.
  induction l as [|e r IH]; simpl; [auto |].
  apply quiet_let; [apply quiet_expired |]. intros []; [done |].
  apply quiet_let; [auto |]. intros []; [| done]. apply quiet_let; auto.
Qed.
Lemma quiet_check_layers c l : quiet (check_layers c l).
Proof.
  induction l as [|layer r IH]; simpl; [auto |].
  apply quiet_let; [apply quiet_entries; exact [] |]. intros d.
  apply quiet_let; [apply quiet_check_entries |]. intros [m|]; auto.
Qed.
Lemma quiet_allowlist c a p u : quiet (allowlist_check c a p u).
Proof. apply quiet_let; [apply quiet_expire_stale | intros; apply quiet_check_layers]. Qed.

Lemma off_eq c mode profile a p u w : effective_mode mode a = "off" ->
  evaluate c mode profile a p u w =
  (Ok (decision true "Command policy is disabled" (effective_profile profile) "off"
         (get_command_root c)), w).
Proof.
  unfold effective_mode, evaluate_command_policy. intros ->. done.
Qed.

(** The engine is the allowlist, then the gates. *)
Lemma evaluate_eq c mode profile a p u w : effective_mode mode a <> "off" ->
  evaluate c mode profile a p u w =
  match allowlist_check c (Some (resolve_agent a)) p u w with
  | (Ok (Some m), w') =>
      (Ok (decision true (allow_reason (al_entry m)) (effective_profile profile)
             (effective_mode mode a) (get_command_root c)), w')
  | (Ok None, w') =>
      evaluate_gates c (effective_profile profile) (effective_mode mode a) (get_command_root c) w'
  | (Raise e, w') => (Raise e, w')
  end.
Proof.
  intros Hm. unfold evaluate_command_policy.
  fold (effective_mode mode a) (effective_profile profile).
  rewrite (proj2 (String.eqb_neq _ (mode_value OFF))) by done. unfold mlet.
  by destruct (allowlist_check _ _ _ _ w) as [[[m|] | e] w'].
Qed.

(** The decision of the gates in a mode that does not ask *)
Definition gate_decision (c p mode : string) (root : option string) : CommandPolicyDecision :=
  if String.eqb mode "enforce"
  then if pipeline_allowed c p then decision true (pipeline_reason c p) p mode root
       else blocked c (pipeline_reason c p) p mode root false None
  else decision true ("AUDIT_ONLY: would_allow=" +s+ bool_str (pipeline_allowed c p) +s+ "; "
                        +s+ pipeline_reason c p) p mode root.
Lemma gates_eq c p mode root w : mode <> "ask" ->
  evaluate_gates c p mode root w = (Ok (gate_decision c p mode root), w).
Proof.
  intros Hm. unfold evaluate_gates, gate_decision, pipeline_allowed, pipeline_reason.
  rewrite (proj2 (String.eqb_neq _ (mode_value ASK))) by done.
  destruct (_evaluate_enforce_decision c p) as [[al r] g]. simpl.
  destruct (String.eqb mode "enforce"); [| done]. by destruct al.
Qed.

Lemma hard_gate_mem c p : 
  mem (str_opt (pipeline_gate c p)) ["metachar"; "argument_shape"] = true <-> hard_blocked c p.
Proof.
  unfold hard_blocked. destruct (pipeline_gate c p) as [g|] eqn:Eg.
  - cbn [str_opt default]. rewrite mem_In. simpl. split.
    + intros [<- | [<- | []]]; auto.
    + intros [[= ->] | [= ->]]; auto.
  - split; [done | by intros []].
Qed.

(** ASK mode, by cases of the pipeline *)
Lemma ask_allowed c p mode root w : pipeline_allowed c p = true ->
  evaluate_ask c p mode root w = (Ok (decision true (pipeline_reason c p) p mode root), w).
Proof.
  unfold pipeline_allowed, pipeline_reason, evaluate_ask.
  destruct (_evaluate_enforce_decision c p) as [[al r] g]. simpl. by intros ->.
Qed.
Lemma ask_hard c p mode root w : hard_blocked c p ->
  evaluate_ask c p mode root w =
  (Ok (blocked c (pipeline_reason c p) p mode root false None), w).
Proof.
  intros Hh. pose proof (proj2 (hard_gate_mem c p) Hh) as Hg.
  assert (Ha : pipeline_allowed c p = false).
  { destruct (pipeline_allowed c p) eqn:Ea; [| done].
    apply pipeline_gate_allowed in Ea. by destruct Hh as [Hh | Hh]; rewrite Ea in Hh. }
  unfold pipeline_allowed, pipeline_reason, pipeline_gate, evaluate_ask in *.
  destruct (_evaluate_enforce_decision c p) as [[al r] g]. simpl in *. by rewrite Ha, Hg.
Qed.
Lemma ask_soft c p mode root w : pipeline_allowed c p = false -> ~ hard_blocked c p ->
  evaluate_ask c p mode root w =
  match find_and_consume_approval c p w with
  | (Ok (Some req), w') =>
      (Ok (decision true ("Approved by operator (" +s+ str_opt (ar_approved_by req)
             +s+ "), approval_id=" +s+ ar_approval_id req) p mode root), w')
  | (Ok None, w') =>
      match create_approval_request c p (pipeline_gate c p) (pipeline_reason c p) w' with
      | (Ok req, w2) => (Ok (blocked c (pipeline_reason c p) p mode root true
                               (Some (ar_approval_id req))), w2)
      | (Raise e, w2) => (Raise e, w2)
      end
  | (Raise e, w') => (Raise e, w')
  end.
Proof.
  intros Ha Hh.
  assert (Hg : mem (str_opt (pipeline_gate c p)) ["metachar"; "argument_shape"] = false).
  { destruct (mem _ _) eqn:Em; [| done]. by apply hard_gate_mem in Em. }
  unfold pipeline_allowed, pipeline_reason, pipeline_gate, evaluate_ask in *.
  destruct (_evaluate_enforce_decision c p) as [[al r] g]. simpl in *. rewrite Ha, Hg.
  unfold mlet. destruct (find_and_consume_approval c p w) as [[[req|] | e] w1]; [done | | done].
  reflexivity.
Qed.
Lemma gates_ask c p root w :
  evaluate_gates c p "ask" root w = evaluate_ask c p "ask" root w.
Proof. done. Qed.
End EngineFacts.

(** ** The properties *)
#[local] Unset Default Proof Using.

Section Statements.
Context {Sc : Scanner} {E : Env} {Py : PyParser} {H : Host} {J : JsonLoads}.
Variable agent_modes_setting : string.
#[local] Abbreviation evaluate := (evaluate_command_policy agent_modes_setting).

(** An allowlist entry of [w], alive at some reading of the clock, that matches *)
Definition allowlisted (w : World) (command : string) : Prop :=
  exists layer e, In layer LAYERS /\ In e (layer_entries layer (w_entries w)) /\
    _matches e command = Ok true /\ live_at (w_tick w) e.

Lemma evaluate_cases c mode profile a p u w d w' :
  effective_mode agent_modes_setting mode a <> "off" ->
  runs (evaluate c mode profile a p u) w d w' ->
  (d_allowed d = true /\ allowlisted w c /\ same_stores w w') \/
  exists w1, same_stores w w1 /\
    runs (evaluate_gates c (effective_profile profile)
            (effective_mode agent_modes_setting mode a) (get_command_root c)) w1 d w'.
Proof.
  intros Hm. unfold runs. rewrite evaluate_eq by done.
  pose proof (quiet_allowlist c (Some (resolve_agent a)) p u w) as Hq.
  destruct (allowlist_check _ _ _ _ w) as [[[m|] | e] w1] eqn:Ea; [| | done].
  - intros [= <- <-]. left. split; [done |]. split; [| done].
    apply allowlist_check_Some in Ea as ((l & Hl & Hin) & Hx & Hv). by exists l, (al_entry m).
  - intros Hg. right. by exists w1.
Qed.

(** C1: In ENFORCE mode an allowed command was let through by an allowlist entry that matches
    it and was alive, or it passed every gate: no metacharacter at an unquoted place, no
    dangerous argument shape, nothing destructive in nested scripts, and the evaluator of the
    profile accepts it. *)
Theorem enforce_sound c mode profile a p u w d w' :
  effective_mode agent_modes_setting mode a = "enforce" ->
  runs (evaluate c mode profile a p u) w d w' -> d_allowed d = true ->
  allowlisted w c \/
  (no_plain_op METACHAR_DENYLIST QPlain c /\ dangerous_argv (effective_argv c) = false /\
   check_nested_commands c = [] /\
   fst (evaluator_of (effective_profile profile) c (get_command_root c)) = true).
Proof.
  intros Hm Hrun Hd.
  apply evaluate_cases in Hrun as [(_ & ? & _) | (w1 & _ & Hg)]; [by left | | by rewrite Hm].
  right. unfold runs in Hg. rewrite gates_eq in Hg by by rewrite Hm. injection Hg as <- <-.
  unfold gate_decision in Hd. rewrite Hm in Hd. simpl in Hd.
  destruct (pipeline_allowed c _) eqn:Ep; [| done].
  apply pipeline_allowed_iff in Ep as [(H1 & H2 & H3) H4].
  rewrite contains_metachar_plain in H1. by apply first_plain_None in H1.
Qed.

(** C2: ASK mode never lets a command blocked by gate 1 or gate 2 through and never opens an
    approval request for it, whatever approvals the store holds; only the allowlist can. *)
Theorem ask_hard_gates c mode profile a p u w d w' :
  effective_mode agent_modes_setting mode a = "ask" ->
  contains_metachar c <> None \/ dangerous_argv (effective_argv c) = true ->
  runs (evaluate c mode profile a p u) w d w' ->
  w_store w' = w_store w /\ d_requires_approval d = false /\
  (d_allowed d = true -> allowlisted w c).
Proof.
  intros Hm Hhard Hrun.
  assert (Hh : hard_blocked c (effective_profile profile)).
  { apply hard_blocked_iff. destruct (contains_metachar c); [by left |].
    destruct Hhard; [done | by right]. }
  unfold runs in Hrun. rewrite evaluate_eq in Hrun by by rewrite Hm.
  pose proof (quiet_allowlist c (Some (resolve_agent a)) p u w) as (Hq & _).
  destruct (allowlist_check _ _ _ _ w) as [[[m|] | e] w1] eqn:Ea; [| | done].
  - injection Hrun as <- <-. split; [done |]. split; [done |]. intros _.
    apply allowlist_check_Some in Ea as ((l & Hl & Hin) & Hx & Hv). by exists l, (al_entry m).
  - rewrite Hm, gates_ask, ask_hard in Hrun by done. injection Hrun as <- <-. done.
Qed.

(** AUDIT (and any mode the engine does not know) is a dry run of ENFORCE: from the same
    world it always allows, reports in its reason exactly the verdict and reason ENFORCE
    gives, and leaves the same world behind. *)
Theorem audit_mirrors_enforce c m1 m2 profile a p u w d1 w1 :
  effective_mode agent_modes_setting m1 a = "enforce" ->
  ~ In (effective_mode agent_modes_setting m2 a) ["off"; "ask"; "enforce"] ->
  runs (evaluate c m1 profile a p u) w d1 w1 ->
  exists d2, runs (evaluate c m2 profile a p u) w d2 w1 /\ d_allowed d2 = true /\
    (d_reason d2 = d_reason d1 \/
     d_reason d2 = "AUDIT_ONLY: would_allow=" +s+ bool_str (d_allowed d1) +s+ "; "
                     +s+ d_reason d1).
Proof.
  intros H1 H2 Hrun. set (mm := effective_mode agent_modes_setting m2 a) in *.
  assert (Hoff : mm <> "off") by (intros Hx; apply H2; rewrite Hx; simpl; auto).
  assert (Hask : mm <> "ask") by (intros Hx; apply H2; rewrite Hx; simpl; auto).
  assert (Henf : mm <> "enforce") by (intros Hx; apply H2; rewrite Hx; simpl; auto).
  unfold runs in *. rewrite evaluate_eq in Hrun |- * by (by rewrite ?H1).
  destruct (allowlist_check _ _ _ _ w) as [[[m|] | e] w']; [| | done].
  - injection Hrun as <- <-. eexists. split; [reflexivity |]. simpl. auto.
  - rewrite H1 in Hrun. rewrite gates_eq in Hrun |- * by done. injection Hrun as <- <-.
    eexists. split; [reflexivity |]. unfold gate_decision. fold mm.
    rewrite (proj2 (String.eqb_neq mm "enforce")) by done. simpl.
    destruct (pipeline_allowed c _); simpl; auto.
Qed.
End Statements.
