(* ===== verification/AskSpec.v ===== *)
(** * The approval protocol

    An approved request lets the identical command through once, within its lifetime; over any
    sequence of operations on the store, consumptions never outnumber approvals. *)
From S2P Require Import Prelude PyStr PolicyTypes Registry Profiles AstMatcher Scan World Ask.
From S2P Require Import Allowlist Agents Engine EngineSpec Instances.
From stdpp Require Import options.
#[local] Unset Default Proof Using.

(** ** Lemmas on the store *)
Lemma In_dict_set_ne {V} k v k' v' (d : dict V) : In (k', v') (dict_set k v d) -> k' <> k ->
  In (k', v') d.
Proof.
  induction d as [|[k0 v0] r IH]; simpl; [by intros [[= -> ->] | []] |].
  destruct (String.eqb_spec k k0) as [<- | Hne]; simpl.
  - intros [[= -> ->] | Hin]; [done | auto].
  - intros [[= -> ->] | Hin]; auto.
Qed.
Lemma In_dict_set_inv {V} k v kv (d : dict V) : NoDup (keys d) -> In kv (dict_set k v d) ->
  kv = (k, v) \/ (In kv d /\ fst kv <> k).
Proof.
  intros Hn Hin. destruct kv as [k' v']. destruct (String.eqb_spec k' k) as [-> | Hne].
  - left. f_equal. apply (dict_In_get _ _ _ (dict_set_NoDup k v d Hn)) in Hin.
    rewrite dict_get_set_eq in Hin. congruence.
  - right. split; [by eapply In_dict_set_ne | done].
Qed.
Lemma find_unique {V} (f : string * V -> bool) k v (d : dict V) : NoDup (keys d) ->
  dict_get k d = Some v -> f (k, v) = true ->
  (forall kv, In kv d -> fst kv <> k -> f kv = false) -> List.find f d = Some (k, v).
Proof.
  intros Hn Hg Hf Ho. apply dict_get_In in Hg.
  destruct (List.find f d) as [[k' v']|] eqn:Ef.
  - apply List.find_some in Ef as [Hin Hf'].
    destruct (String.eqb_spec k' k) as [-> | Hne].
    + apply (dict_In_get _ _ _ Hn) in Hin, Hg. congruence.
    + specialize (Ho _ Hin Hne). congruence.
  - by rewrite (List.find_none _ _ Ef _ Hg) in Hf.
Qed.

Section Protocol.
Context {Sc : Scanner} {E : Env} {Py : PyParser}.

(** A soft-blocked command with no approval waiting opens a request. *)
Lemma ask_opens c p root w : store_ok (w_store w) -> pipeline_allowed c p = false ->
  ~ hard_blocked c p -> (forall kv, In kv (w_store w) -> approved_for c p kv = false) ->
  exists req w1, evaluate_ask c p "ask" root w =
      (Ok (blocked c (pipeline_reason c p) p "ask" root true (Some (ar_approval_id req))), w1) /\
    ar_command req = c /\ ar_profile req = p /\
    dict_get (ar_approval_id req) (w_store w1) = Some req /\ store_ok (w_store w1) /\
    (forall kv, In kv (w_store w1) -> approved_for c p kv = false).
Proof.
  intros Hok Ha Hh Hno. rewrite ask_soft by done. rewrite find_and_consume_eq. cbv zeta.
  assert (Hno1 : forall t kv, In kv (drop_stale t (w_store w)) -> approved_for c p kv = false).
  { intros t kv Hin. apply drop_stale_fresh in Hin as [Hin _]; auto. }
  destruct (List.find _ _) as [[aid r]|] eqn:Ef.
  { apply List.find_some in Ef as [Hin Hf]. simpl in Hin. by rewrite (Hno1 _ _ Hin) in Hf. }
  pose proof (create_ok c p (pipeline_gate c p) (pipeline_reason c p) (after_expiry w)) as Hcok.
  rewrite create_eq in *. cbv zeta in *. eexists _, _. split; [reflexivity |].
  split; [done |]. split; [done |]. simpl w_store.
  split; [apply dict_get_set_eq |].
  split; [exact (Hcok _ _ (drop_stale_ok _ _ Hok) eq_refl) |].
  - intros kv Hin. apply In_dict_set_inv in Hin as [-> | [Hin _]].
    + unfold approved_for. simpl. by rewrite andb_false_r.
    + apply drop_stale_fresh in Hin as [Hin _]; [by eapply Hno1 | by apply drop_stale_ok].
    + by apply drop_stale_ok, drop_stale_ok.
Qed.

(** A live approval is consumed by the next identical call. *)
Lemma ask_consumes c p root w id req : store_ok (w_store w) -> pipeline_allowed c p = false ->
  ~ hard_blocked c p -> dict_get id (w_store w) = Some req -> approved_for c p (id, req) = true ->
  (forall kv, In kv (w_store w) -> fst kv <> id -> approved_for c p kv = false) ->
  (time_at (w_tick w) <= ar_expires_at req)%Z ->
  exists w', evaluate_ask c p "ask" root w =
      (Ok (decision true ("Approved by operator (" +s+ str_opt (ar_approved_by req)
             +s+ "), approval_id=" +s+ ar_approval_id req) p "ask" root), w') /\
    dict_get id (w_store w') = None.
Proof.
  intros Hok Ha Hh Hg Hf Ho Ht. rewrite ask_soft by done. rewrite find_and_consume_eq. cbv zeta.
  pose proof (drop_stale_ok (time_at (w_tick w)) _ Hok) as [Hn _].
  assert (Hfind : List.find (approved_for c p) (w_store (after_expiry w)) = Some (id, req)).
  { apply find_unique; [done | | done |].
    - simpl. rewrite drop_stale_get, Hg by apply Hok. unfold stale.
      by replace (_ <? _)%Z with false by lia.
    - intros kv Hin Hne. apply drop_stale_fresh in Hin as [Hin _]; auto. }
  rewrite Hfind. eexists. split; [reflexivity |]. simpl. by apply dict_get_del_eq.
Qed.

(** C3: The ASK protocol: a command blocked by a soft gate opens a pending request; once an
    operator approves it, and while it lives, the identical call is allowed in that
    operator's name and the approval is gone from the store. *)
Theorem ask_approve_retry c p root w d w1 id operator w2 :
  store_ok (w_store w) -> pipeline_allowed c p = false -> ~ hard_blocked c p ->
  (forall kv, In kv (w_store w) -> approved_for c p kv = false) ->
  runs (evaluate_ask c p "ask" root) w d w1 -> d_approval_id d = Some id ->
  runs (approve_request id operator) w1 true w2 ->
  (forall req, dict_get id (w_store w2) = Some req ->
     (time_at (w_tick w2) <= ar_expires_at req)%Z) ->
  d_allowed d = false /\ d_requires_approval d = true /\
  exists w3, runs (evaluate_ask c p "ask" root) w2
      (decision true ("Approved by operator (" +s+ operator +s+ "), approval_id=" +s+ id) p "ask"
         root) w3 /\
    dict_get id (w_store w3) = None.
Proof.
  intros Hok Ha Hh Hno Hrun Hid Happ Ht. unfold runs in *.
  destruct (ask_opens c p root w Hok Ha Hh Hno) as (req & w1' & Hr & Hc & Hp & Hg & Hok1 & Hno1).
  rewrite Hr in Hrun. injection Hrun as <- <-. injection Hid as <-.
  split; [done |]. split; [done |].
  pose proof (settle_ok true _ operator w1' _ _ Hok1 Happ) as Hok2.
  unfold approve_request in Happ. rewrite settle_eq, Hg in Happ. cbv zeta in Happ.
  destruct (_ || _); [done |]. injection Happ as <-.
  set (req' := decide_request true operator req) in *.
  destruct (ask_consumes c p root _ (ar_approval_id req) req' Hok2 Ha Hh) as (w3 & Hw3 & Hnone).
  - simpl. apply dict_get_set_eq.
  - unfold approved_for. simpl. by rewrite Hc, Hp, !String.eqb_refl.
  - intros [k v] Hin Hne. simpl in Hin. apply In_dict_set_ne in Hin; auto.
  - apply Ht, dict_get_set_eq.
  - exists w3. done.
Qed.
End Protocol.

(** ** Sequences of operations *)
Inductive ask_op : Type :=
| OpCreate (command profile : string) (blocked_by : option string) (reason : string)
| OpApprove (id operator : string)
| OpDeny (id operator : string)
| OpGet (id : string)
| OpPending
| OpConsume (command profile : string).

(** What an observer sees of an operation: the command and profile it approved or consumed *)
Inductive ask_seen : Type :=
| Approved (command profile : string)
| Consumed (command profile : string)
| Nothing.

Section Traces.
Context {E : Env}.

Definition seen_of (id : string) (ok : bool) (w : World) : ask_seen :=
  match dict_get id (w_store w) with
  | Some req => if ok then Approved (ar_command req) (ar_profile req) else Nothing
  | None => Nothing
  end.
Definition do_op (op : ask_op) (w : World) : ask_seen * World :=
  match op with
  | OpCreate c p b r => (Nothing, snd (create_approval_request c p b r w))
  | OpApprove id o =>
      match approve_request id o w with
      | (Ok ok, w') => (seen_of id ok w', w')
      | (Raise _, w') => (Nothing, w')
      end
  | OpDeny id o => (Nothing, snd (deny_request id o w))
  | OpGet id => (Nothing, snd (get_request id w))
  | OpPending => (Nothing, snd (get_pending_requests w))
  | OpConsume c p =>
      match find_and_consume_approval c p w with
      | (Ok (Some req), w') => (Consumed (ar_command req) (ar_profile req), w')
      | (_, w') => (Nothing, w')
      end
  end.
Fixpoint do_ops (ops : list ask_op) (w : World) : list ask_seen * World :=
  match ops with
  | [] => ([], w)
  | op :: r =>
      let '(s, w1) := do_op op w in
      let '(ss, w2) := do_ops r w1 in (s :: ss, w2)
  end.

Definition approvals (c p : string) (s : list ask_seen) : nat :=
  length (List.filter (fun x => match x with
    | Approved c' p' => String.eqb c' c && String.eqb p' p | _ => false end) s).
Definition consumptions (c p : string) (s : list ask_seen) : nat :=
  length (List.filter (fun x => match x with
    | Consumed c' p' => String.eqb c' c && String.eqb p' p | _ => false end) s).

(** Approvals in the store that a call for [c] and [p] could still consume *)
Definition stock (c p : string) (s : dict ApprovalRequest) : nat :=
  length (List.filter (approved_for c p) s).

Lemma filter_le {A} (f : A -> bool) l1 a l2 :
  (length (List.filter f (l1 ++ l2)) <= length (List.filter f (l1 ++ a :: l2)))%nat.
Proof.
  rewrite !List.filter_app, !length_app. simpl. destruct (f a); simpl; lia.
Qed.
Lemma stock_del c p k s : (stock c p (dict_del k s) <= stock c p s)%nat.
Proof.
  unfold stock. induction s as [|[k' v] r IH]; simpl; [done |].
  destruct (String.eqb k k'); simpl; [case_match; simpl; lia |].
  destruct (approved_for c p (k', v)); simpl; lia.
Qed.
Lemma stock_del_hit c p k v s : NoDup (keys s) -> In (k, v) s -> approved_for c p (k, v) = true ->
  stock c p s = S (stock c p (dict_del k s)).
Proof.
  unfold stock. induction s as [|[k' v'] r IH]; [done |]. intros [Hk Hn]%NoDup_cons Hin Hf.
  cbn [dict_del List.filter]. destruct (String.eqb_spec k k') as [<- | Hne].
  - destruct Hin as [[= ->] | Hin]; [by rewrite Hf |].
    destruct Hk. apply list_elem_of_In, in_map_iff. by exists (k, v).
  - destruct Hin as [[= -> ->] | Hin]; [done |]. specialize (IH Hn Hin Hf).
    cbn [List.filter]. destruct (approved_for c p (k', v')); cbn [length]; lia.
Qed.
Lemma stock_dels c p ks s :
  (stock c p (fold_left (fun s k => dict_del k s) ks s) <= stock c p s)%nat.
Proof.
  revert s. induction ks as [|k r IH]; simpl; intros s; [done |].
  etransitivity; [apply IH | apply stock_del].
Qed.
(** An entry's key plays no part in [approved_for]. *)
Lemma approved_for_key c p k k' v : approved_for c p (k, v) = approved_for c p (k', v).
Proof. done. Qed.
Lemma stock_set c p k v s : NoDup (keys s) ->
  (stock c p (dict_set k v s) <= stock c p s + (if approved_for c p (k, v) then 1 else 0))%nat.
Proof.
  unfold stock. induction s as [|[k' v'] r IH]; intros Hn.
  - simpl. by destruct (approved_for c p (k, v)).
  - apply NoDup_cons in Hn as [_ Hn]. specialize (IH Hn). cbn [dict_set].
    destruct (String.eqb_spec k k') as [<- | Hne]; cbn [List.filter].
    + destruct (approved_for c p (k, v)), (approved_for c p (k, v')); simpl; lia.
    + destruct (approved_for c p (k', v')); simpl; lia.
Qed.
Lemma stock_stale c p t s : (stock c p (drop_stale t s) <= stock c p s)%nat.
Proof. apply stock_dels. Qed.

(** What an operation adds to the stock of approvals was approved in it, and what it consumes
    it takes out. *)
Definition accounted (c p : string) (w : World) (sw : ask_seen * World) : Prop :=
  store_ok (w_store (snd sw)) /\
  (stock c p (w_store (snd sw)) + consumptions c p [fst sw] <=
   stock c p (w_store w) + approvals c p [fst sw])%nat.

Lemma create_accounted c p c' p' b r w : store_ok (w_store w) ->
  accounted c p w (do_op (OpCreate c' p' b r) w).
Proof.
  intros Hok. split.
  - pose proof (create_ok c' p' b r w) as Hc. unfold do_op. cbn [snd].
    destruct (create_approval_request c' p' b r w) as [x w']. exact (Hc x w' Hok eq_refl).
  - unfold do_op. rewrite create_eq. cbn [fst snd w_store set_store after_expiry].
    etransitivity; [apply Nat.add_le_mono_r, stock_set; by apply drop_stale_ok |].
    assert (Hf : approved_for c p (take 16 (uuid_at (w_ids w)),
      pending_request (take 16 (uuid_at (w_ids w))) c' p' b r (time_at (S (w_tick w)))) = false).
    { unfold approved_for. simpl. by rewrite andb_false_r. }
    rewrite Hf. pose proof (stock_stale c p (time_at (w_tick w)) (w_store w)).
    cbn [approvals consumptions List.filter length]. unfold approvals, consumptions. simpl. lia.
Qed.
Lemma settle_accounted c p (b : bool) id o w : store_ok (w_store w) ->
  accounted c p w (do_op (if b then OpApprove id o else OpDeny id o) w).
Proof.
  intros Hok. pose proof (settle_ok b id o w) as Hs.
  assert (Hset : forall req, dict_get id (w_store w) = Some req ->
    (stock c p (dict_set id (decide_request b o req) (w_store w)) <= stock c p (w_store w) +
      (if approved_for c p (id, decide_request b o req) then 1 else 0))%nat).
  { intros req _. apply stock_set, Hok. }
  unfold accounted, approvals, consumptions.
  destruct b; unfold do_op, approve_request, deny_request; rewrite settle_eq in *;
    destruct (dict_get id (w_store w)) as [req|] eqn:Eg; cbv zeta in *.
  - destruct (stale _ req || is_decided req); cbn [fst snd w_store set_tick set_store] in *.
    + unfold seen_of. cbn [w_store set_tick]. rewrite Eg. simpl. split; [done | lia].
    + split; [exact (Hs _ _ Hok eq_refl) |]. unfold seen_of. cbn [w_store set_store]. rewrite dict_get_set_eq.
      specialize (Hset req eq_refl). unfold approved_for in Hset. simpl in *.
      rewrite andb_true_r in Hset. destruct (_ && _); simpl in *; lia.
  - unfold seen_of. rewrite Eg. simpl. split; [done | lia].
  - destruct (stale _ req || is_decided req); cbn [fst snd w_store set_tick set_store] in *.
    + simpl. split; [done | lia].
    + split; [exact (Hs _ _ Hok eq_refl) |]. specialize (Hset req eq_refl).
      assert (Hf : approved_for c p (id, decide_request false o req) = false).
      { unfold approved_for. simpl. by rewrite andb_false_r. }
      rewrite Hf in Hset. simpl in *. lia.
  - simpl. split; [done | lia].
Qed.
Lemma consume_accounted c p c' p' w : store_ok (w_store w) ->
  accounted c p w (do_op (OpConsume c' p') w).
Proof.
  intros Hok. pose proof (consume_ok c' p' w) as Hs. unfold accounted, approvals, consumptions.
  pose proof (drop_stale_ok (time_at (w_tick w)) _ Hok) as [Hn _].
  pose proof (stock_stale c p (time_at (w_tick w)) (w_store w)) as Hst.
  unfold do_op. rewrite find_and_consume_eq in *. cbv zeta in *.
  destruct (List.find _ _) as [[aid req]|] eqn:Ef; cbn [fst snd w_store set_store after_expiry] in *.
  - split; [exact (Hs _ _ Hok eq_refl) |]. apply List.find_some in Ef as [Hin Hf]. simpl.
    destruct (String.eqb (ar_command req) c && String.eqb (ar_profile req) p) eqn:Ecp; simpl.
    + assert (Hf' : approved_for c p (aid, req) = true).
      { unfold approved_for in *. simpl in *. rewrite Ecp. by apply andb_true_iff in Hf as [_ ->]. }
      rewrite (stock_del_hit c p aid req _ Hn Hin Hf') in Hst. lia.
    + pose proof (stock_del c p aid (drop_stale (time_at (w_tick w)) (w_store w))). lia.
  - split; [exact (Hs _ _ Hok eq_refl) | simpl; lia].
Qed.

Lemma do_op_accounted c p op w : store_ok (w_store w) -> accounted c p w (do_op op w).
Proof.
  intros Hok. destruct op as [c' p' b r | id o | id o | id | | c' p'].
  - by apply create_accounted.
  - by apply (settle_accounted c p true).
  - by apply (settle_accounted c p false).
  - unfold accounted, do_op, get_request, mlet. simpl.
    destruct (dict_get id (w_store w)); simpl; unfold approvals, consumptions; simpl;
      (split; [done | lia]).
  - split; [by apply drop_stale_ok |].
    pose proof (stock_stale c p (time_at (w_tick w)) (w_store w)).
    unfold approvals, consumptions. simpl in *. lia.
  - by apply consume_accounted.
Qed.

Lemma approvals_cons c p x s : approvals c p (x :: s) = (approvals c p [x] + approvals c p s)%nat.
Proof. unfold approvals. destruct x; simpl; try case_match; simpl; lia. Qed.
Lemma consumptions_cons c p x s :
  consumptions c p (x :: s) = (consumptions c p [x] + consumptions c p s)%nat.
Proof. unfold consumptions. destruct x; simpl; try case_match; simpl; lia. Qed.

Lemma do_ops_accounted c p ops w : store_ok (w_store w) ->
  (stock c p (w_store (snd (do_ops ops w))) + consumptions c p (fst (do_ops ops w)) <=
   stock c p (w_store w) + approvals c p (fst (do_ops ops w)))%nat.
Proof.
  revert w. induction ops as [|op r IH]; intros w Hok;
    [unfold approvals, consumptions; simpl; lia |]. cbn [do_ops].
  destruct (do_op_accounted c p op w Hok) as [Hok1 H1]. destruct (do_op op w) as [x w1].
  cbn [fst snd] in *. specialize (IH w1 Hok1). destruct (do_ops r w1) as [ss w2].
  cbn [fst snd] in *. rewrite approvals_cons, consumptions_cons. lia.
Qed.

(** C4: No approval is replayed: whatever sequence of requests, approvals, denials, look-ups
    and consumptions runs from an empty store, for each command and profile the calls let
    through by an approval are at most the approvals operators gave for them. *)
Theorem approvals_not_replayed c p ops w : w_store w = [] ->
  (consumptions c p (fst (do_ops ops w)) <= approvals c p (fst (do_ops ops w)))%nat.
Proof.
  intros Hw. assert (Hok : store_ok (w_store w)) by (rewrite Hw; by repeat constructor).
  pose proof (do_ops_accounted c p ops w Hok) as Hd. rewrite Hw in Hd.
  unfold stock at 2 in Hd. simpl in Hd. lia.
Qed.
End Traces.
