(* ===== verification/GatesSpec.v ===== *)
(** * Correctness of the syntactic gates and the profiles *)
From S2P Require Import Prelude PyStr Regex RegexParse Shlex PolicyTypes Packs Registry Gates.
From S2P Require Import Profiles Heredoc World Agents Engine EngineSpec.
From stdpp Require Import options.
#[local] Unset Default Proof Using.

(** ** Gate 1 and the redirection scanner *)

(** [contains_metachar] and [contains_shell_redirection] agree with the quoting automaton:
    what they return is the operator at the leftmost place outside quotes and escapes where one
    starts, and they return None exactly when no such place exists. *)
Theorem unquoted_scan_spec c :
  match contains_metachar c with
  | Some op => leftmost_op METACHAR_DENYLIST QPlain c op
  | None => no_plain_op METACHAR_DENYLIST QPlain c
  end /\
  match contains_shell_redirection c with
  | Some op => leftmost_op _REDIRECT_OPS QPlain c op
  | None => no_plain_op _REDIRECT_OPS QPlain c
  end.
Proof.
  rewrite contains_metachar_plain, contains_redirection_plain. split.
  - destruct (first_plain _ _ c) eqn:Es; [by apply first_plain_Some | by apply first_plain_None].
  - destruct (first_plain _ _ c) eqn:Es; [by apply first_plain_Some | by apply first_plain_None].
Qed.

(** Quoting round trip: whatever the words of an argv hold, the command [shlex.join] makes
    of them shows neither scanner an operator and splits back into the same argv. *)
Theorem join_is_inert argv :
  contains_metachar (shjoin argv) = None /\ contains_shell_redirection (shjoin argv) = None /\
  get_command_parts (shjoin argv) = argv.
Proof.
  split; [apply contains_metachar_join |].
  split; [apply contains_redirection_join | apply parts_join].
Qed.

(** Gate 2 blocks exactly the dangerous argument vectors: an interpreter with an exec flag
    in any argument (except the narrow [bash -n script]), [find] with an executing or deleting
    action, [sed] in place, [command] that does more than ask whether a tool exists; [sudo] in
    front changes nothing. *)
Theorem argument_shape_spec c :
  fst (check_argument_shape c) = true <-> dangerous_argv (effective_argv c) = true.
Proof. by rewrite argument_shape_effective. Qed.

(** ** A background operator is not a metacharacter *)
Lemma first_plain_app ops a b : qrun QPlain a = QPlain ->
  (forall a1 a2, a = a1 +s+ a2 -> a2 <> "" -> qrun QPlain a1 = QPlain ->
     op_at ops (a2 +s+ b) = None) ->
  first_plain ops QPlain (a +s+ b) = first_plain ops QPlain b.
Proof.
  assert (Hgen : forall m, qrun m a = QPlain ->
    (forall a1 a2, a = a1 +s+ a2 -> a2 <> "" -> qrun m a1 = QPlain -> op_at ops (a2 +s+ b) = None) ->
    first_plain ops m (a +s+ b) = first_plain ops QPlain b); [| apply Hgen].
  induction a as [|c a IH]; intros m Hq Hno; simpl in Hq; [by subst |].
  cbn [String.append first_plain].
  replace (if decide (m = QPlain) then op_at ops (String c (a +s+ b)) else None)
    with (@None string).
  - apply IH; [done |]. intros a1 a2 -> Hne Ha1. by apply (Hno (String c a1) a2).
  - destruct (decide (m = QPlain)) as [-> |]; [| done]. symmetry. by apply (Hno "" (String c a)).
Qed.

Definition starts_foreign (op : string) : bool :=
  match op with "" => false | String c _ => negb (special c) && negb (join_char c) end.
Lemma op_at_join_char ops c r : forallb starts_foreign ops = true -> join_char c = true ->
  op_at ops (String c r) = None.
Proof.
  unfold op_at. induction ops as [|[|d op] ops IH]; simpl; [done | done |]. intros H Hc.
  apply andb_true_iff in H as [[_ Hd%negb_true_iff]%andb_true_iff H]. rewrite IH by done.
  destruct (Ascii.eqb_spec d c) as [-> |]; [congruence | done].
Qed.
Lemma plain_all_at P a1 c a2 : plain_all P QPlain (a1 +s+ String c a2) = true ->
  qrun QPlain a1 = QPlain -> P c = true.
Proof.
  rewrite plain_all_app. intros [_ H]%andb_true_iff Hq. rewrite Hq in H. simpl in H.
  by apply andb_true_iff in H as [H _].
Qed.

Lemma background_passes argv1 argv2 :
  contains_metachar (shjoin argv1 +s+ " & " +s+ shjoin argv2) = None.
Proof.
  rewrite contains_metachar_plain. destruct (shjoin_run argv1) as [Hp Hq].
  rewrite first_plain_app; [| done |].
  - rewrite <- (contains_metachar_join argv2), contains_metachar_plain. reflexivity.
  - intros a1 [|c a2] Heq Hne Ha1; [done |]. rewrite Heq in Hp.
    apply (op_at_join_char METACHAR_DENYLIST); [by_eval |]. by apply (plain_all_at _ a1 c a2).
Qed.

(** ** Profiles *)
Section Profiles.
Context {Sc : Scanner}.

Lemma evaluator_allowlist p c :
  In p [("readonly", readonly); ("testlint", testlint);
        ("project-automation", project_automation); ("ops", ops);
        ("docker-admin", docker_admin)] ->
  evaluator_of (fst p) c (get_command_root c) = evaluate_profile (snd p) c (get_command_root c).
Proof. intros H. simpl in H. by repeat destruct H as [<- | H]. Qed.

Lemma evaluate_wider p q c : wider p q ->
  fst (evaluate_profile p c (get_command_root c)) = true ->
  fst (evaluate_profile q c (get_command_root c)) = true.
Proof.
  intros Hw. destruct (get_command_root c) as [root|] eqn:Er; [| by rewrite evaluate_profile_eq].
  rewrite !evaluate_accepts. apply accepts_wider; [done | by apply rooted_top].
Qed.

(** The profiles are ordered: what the pipeline allows under readonly it allows under
    testlint, then project-automation, ops and docker-admin. *)
Theorem profiles_ordered c p q :
  In (p, q) [("readonly", "testlint"); ("testlint", "project-automation");
             ("project-automation", "ops"); ("ops", "docker-admin")] ->
  pipeline_allowed c p = true -> pipeline_allowed c q = true.
Proof.
  intros Hin. rewrite !pipeline_allowed_iff. intros [Hg He]. split; [done |]. simpl in Hin.
  destruct Hin as [[= <- <-] | [[= <- <-] | [[= <- <-] | [[= <- <-] | []]]]].
  - by apply (evaluate_wider readonly testlint c readonly_testlint).
  - by apply (evaluate_wider testlint project_automation c testlint_project).
  - by apply (evaluate_wider project_automation ops c project_ops).
  - by apply (evaluate_wider ops docker_admin c ops_docker_admin).
Qed.

(** C36: What an allowlist profile accepts: a chain of [env] wrappings, each free of dangerous
    tokens, ending in a command whose root is in the profile's set and whose argv the
    profile's validator passes. *)
Theorem profile_accepts_spec p command root :
  fst (evaluate_profile p command (Some root)) = true <-> accepts p command root.
Proof. apply evaluate_accepts. Qed.

(** [env] adds no power: an argv behind [env] is accepted exactly when what [env] would run
    is accepted by the same profile on its own (and the [env] line itself holds no dangerous
    token). *)
Theorem env_adds_nothing p rest : mem "env" (pf_roots p) = true ->
  fst (evaluate_profile p (shjoin ("env" :: rest)) (Some "env")) = true <->
  contains_dangerous_token (shjoin ("env" :: rest)) = None /\
  exists w ws, unwrap_from rest = w :: ws /\
    fst (evaluate_profile p (shjoin (w :: ws)) (Some w)) = true.
Proof.
  intros He. rewrite evaluate_accepts. split.
  - intros Ha. split; [by eapply accepts_token |].
    remember (shjoin ("env" :: rest)) as c eqn:Hc. remember "env" as r eqn:Hr in Ha.
    destruct Ha as [c r _ _ Hne _ | c w ws _ _ Hu Ha]; [done |].
    rewrite Hc, parts_join in Hu. exists w, ws. by rewrite evaluate_accepts.
  - intros (Ht & w & ws & Hu & Hev). apply evaluate_accepts in Hev.
    apply (acc_env p _ w ws); auto. by rewrite parts_join.
Qed.

(** ** The default profile *)
Definition root_denied (root : string) : bool :=
  mem (_normalize_root root) DENIED_ROOTS
    || existsb (fun p => startswith p (_normalize_root root)) DENIED_ROOT_PREFIXES.

(** The default profile accepts a command exactly when its root, compared without case and
    without [.exe], is not on the denylist, it holds no dangerous token or redirection, and no
    pattern of any pack matches it. *)
Theorem default_profile_spec command root :
  fst (evaluate_default command (Some root)) = true <->
  root_denied root = false /\ contains_dangerous_token command = None /\ scan_all command = [].
Proof.
  unfold evaluate_default, root_denied, _check_all_destructive.
  destruct (_ || _); [split; [done | by intros (? & _)] |].
  destruct (contains_dangerous_token command); [split; [done | by intros (_ & ? & _)] |].
  destruct (scan_all command); split; try done. by intros (_ & _ & ?).
Qed.
End Profiles.

(** ** Git *)

(** The read-only forms of [git], by subcommand *)
Definition git_read_only (parts : list string) : Prop :=
  match parts with
  | _ :: sub :: rest =>
      In sub GIT_READONLY_SUBCOMMANDS /\
      (sub = "branch" \/ sub = "tag" -> forall a, In a rest -> In a _GIT_INFO_ONLY_FLAGS) /\
      (sub = "remote" -> forall a r, rest = a :: r ->
         In a _GIT_INFO_ONLY_FLAGS \/ In a _GIT_READONLY_REMOTE_SUBCOMMANDS) /\
      (sub = "reflog" -> forall a r, rest = a :: r -> a <> "expire" /\ a <> "delete")
  | _ => True
  end.

Lemma info_flags_dash a : mem a _GIT_INFO_ONLY_FLAGS = true -> starts_dash a = true.
Proof.
  intros H. assert (Hall : forallb starts_dash _GIT_INFO_ONLY_FLAGS = true) by by_eval.
  rewrite forallb_forall in Hall. by apply Hall, mem_In.
Qed.
Lemma filter_nil {A} (f : A -> bool) l : List.filter f l = [] <-> forall a, In a l -> f a = false.
Proof.
  induction l as [|a r IH]; simpl; [tauto |]. destruct (f a) eqn:E.
  - split; [done |]. intros H. rewrite (H a) in E; [done | by left].
  - rewrite IH. split; [intros H x [<- | Hx]; auto | auto].
Qed.
Lemma branch_args_ok rest :
  (List.filter (fun a => negb (starts_dash a)) rest = [] /\
   List.filter (fun a => starts_dash a && negb (mem a _GIT_INFO_ONLY_FLAGS)) rest = []) <->
  forall a, In a rest -> In a _GIT_INFO_ONLY_FLAGS.
Proof.
  rewrite !filter_nil. split.
  - intros [H1 H2] a Ha. specialize (H1 a Ha). specialize (H2 a Ha). apply mem_In.
    apply negb_false_iff in H1. rewrite H1 in H2. by apply negb_false_iff.
  - intros H. split; intros a Ha; apply H, mem_In in Ha.
    + by rewrite info_flags_dash.
    + by rewrite Ha, andb_false_r.
Qed.

Lemma remote_arg_ok a :
  (if mem a _GIT_MUTATING_REMOTE_SUBCOMMANDS then false
   else if starts_dash a then mem a _GIT_INFO_ONLY_FLAGS
   else mem a _GIT_READONLY_REMOTE_SUBCOMMANDS) = true <->
  In a _GIT_INFO_ONLY_FLAGS \/ In a _GIT_READONLY_REMOTE_SUBCOMMANDS.
Proof.
  rewrite <- !mem_In.
  assert (Hd : forall l1 l2 a, forallb (fun x => negb (mem x l2)) l1 = true ->
            mem a l1 = true -> mem a l2 = false).
  { intros l1 l2 x H Hx. rewrite forallb_forall in H. by apply negb_true_iff, H, mem_In. }
  destruct (mem a _GIT_MUTATING_REMOTE_SUBCOMMANDS) eqn:Em.
  - split; [done |]. intros [H | H]; exfalso.
    + by rewrite (Hd _ _ a (eq_refl : forallb (fun x => negb (mem x
        _GIT_MUTATING_REMOTE_SUBCOMMANDS)) _GIT_INFO_ONLY_FLAGS = true)) in Em.
    + by rewrite (Hd _ _ a (eq_refl : forallb (fun x => negb (mem x
        _GIT_MUTATING_REMOTE_SUBCOMMANDS)) _GIT_READONLY_REMOTE_SUBCOMMANDS = true)) in Em.
  - destruct (starts_dash a) eqn:Es.
    + split; [auto |]. intros [H | H]; [done |]. exfalso.
      assert (Hno : forallb (fun x => negb (starts_dash x)) _GIT_READONLY_REMOTE_SUBCOMMANDS = true)
        by by_eval.
      rewrite forallb_forall in Hno. apply mem_In, Hno in H. by rewrite Es in H.
    + split; [auto |]. intros [H | H]; [| done]. by rewrite (info_flags_dash _ H) in Es.
Qed.

(** The git validator passes exactly the read-only forms: a read-only subcommand, only
    informational flags after [branch] and [tag], an informational flag, [show] or [get-url]
    after [remote], and no [expire] or [delete] after [reflog]. *)
Theorem git_validator_spec parts :
  fst (_validate_git_subcommand parts) = true <-> git_read_only parts.
Proof.
  destruct parts as [|p0 [|sub rest]]; [done | done |]. unfold git_read_only.
  cbn [_validate_git_subcommand]. rewrite <- mem_In.
  destruct (mem sub GIT_READONLY_SUBCOMMANDS) eqn:Es; cbn [negb];
    [| split; [done | by intros (? & _)]].
  destruct (mem sub ["branch"; "tag"]) eqn:Eb.
  - apply mem_In in Eb. simpl in Eb.
    assert (Hne : sub <> "remote" /\ sub <> "reflog") by (destruct Eb as [<- | [<- | []]]; done).
    transitivity (forall a, In a rest -> In a _GIT_INFO_ONLY_FLAGS).
    + rewrite <- branch_args_ok.
      destruct (List.filter (fun a => negb (starts_dash a)) rest); [| split; [done | by intros [? _]]].
      destruct (List.filter _ rest); split; try done. by intros [_ ?].
    + split; [| intros (_ & H & _); apply H; by destruct Eb as [<- | [<- | []]]; auto].
      intros H. split; [done |]. split; [done |]. split; intros ->; by destruct Hne.
  - assert (Hnb : sub <> "branch" /\ sub <> "tag").
    { simpl in Eb. by destruct (String.eqb_spec sub "branch"), (String.eqb_spec sub "tag"). }
    destruct Hnb as [Hnb Hnt].
    destruct (String.eqb_spec sub "remote") as [-> | Hr].
    + destruct rest as [|a r]; [split; [intros _ | done]; repeat split; try done; by intros [|] |].
      transitivity (In a _GIT_INFO_ONLY_FLAGS \/ In a _GIT_READONLY_REMOTE_SUBCOMMANDS).
      * rewrite <- remote_arg_ok. destruct (mem a _GIT_MUTATING_REMOTE_SUBCOMMANDS); [done |].
        destruct (starts_dash a); [by destruct (mem a _GIT_INFO_ONLY_FLAGS) |].
        by destruct (mem a _GIT_READONLY_REMOTE_SUBCOMMANDS).
      * split; [| intros (_ & _ & H & _); by apply (H eq_refl a r)].
        intros H. split; [done |]. split; [by intros [|] |]. split; [| done].
        by intros _ a' r' [= <- <-].
    + destruct (String.eqb_spec sub "reflog") as [-> | Hl].
      * destruct rest as [|a r]; [split; [intros _ | done]; repeat split; try done; by intros [|] |].
        simpl mem. destruct (String.eqb_spec a "expire") as [-> | He];
          [split; [done | intros (_ & _ & _ & H); by destruct (H eq_refl _ _ eq_refl)] |].
        destruct (String.eqb_spec a "delete") as [-> | Hd];
          [split; [done | intros (_ & _ & _ & H); by destruct (H eq_refl _ _ eq_refl)] |].
        split; [intros _ | done]. split; [done |]. split; [by intros [|] |]. split; [done |].
        by intros _ a' r' [= <- <-].
      * split; [intros _ | done]. split; [done |]. split; [by intros [|] |]. by split.
Qed.

(** ** The dangerous tokens *)

Lemma normalized_tokens_lower command : exists t, normalized_tokens command = lower t.
Proof.
  unfold normalized_tokens. cbv zeta. destruct (match split command with Ok ts => ts | _ => [] end).
  - by eexists.
  - eexists (" " +s+ join " " _ +s+ " "). by rewrite !lower_append.
Qed.

Lemma chown_unreported command : contains_dangerous_token command <> Some "chown -R".
Proof.
  unfold contains_dangerous_token. cbv zeta.
  assert (Hlow : contains "chown -R" (normalized_tokens command) = false).
  { destruct (normalized_tokens_lower command) as [t ->]. by apply contains_upper_lower. }
  destruct (List.find _ DENYLIST_TOKENS) as [tok|] eqn:Ef.
  - apply List.find_some in Ef as [Hin Hc]. intros [= Htok]. simpl in Hin.
    repeat destruct Hin as [<- | Hin]; try (vm_compute in Htok; discriminate); [congruence | done].
  - intros Hr. unfold contains_shell_redirection in Hr.
    rewrite scan_unquoted_plain in Hr by done.
    apply first_plain_Some in Hr as (a & b & _ & _ & Hop & _); [| done].
    unfold op_at in Hop. apply List.find_some in Hop as [Hin _]. simpl in Hin.
    by repeat destruct Hin as [Hin | Hin].
Qed.

(** What the two textual gates cannot see: gate 1 does not know [&], so any two quoted
    commands joined by a background operator pass it and the command after the [&] is never
    authorised on its own; and the token [chown -R] is dead, since the text it is looked up in
    is lower-cased: no command whatever is reported for it. *)
Theorem textual_gate_gaps :
  (forall argv1 argv2, contains_metachar (shjoin argv1 +s+ " & " +s+ shjoin argv2) = None) /\
  (forall command, contains_dangerous_token command <> Some "chown -R").
Proof. split; [exact background_passes | exact chown_unreported]. Qed.
