(* ===== verification/PacksSpec.v ===== *)
(** * Correctness of the packs, their prefilters and the confidence of their matches *)
From Stdlib Require Import Floats.
From S2P Require Import Prelude PyStr Regex RegexParse RegexFacts PolicyTypes Context Confidence.
From S2P Require Import Packs Registry Prefilter PackSystem PackCloud PackNetwork PackDev.
From stdpp Require Import options.
#[local] Unset Default Proof Using.

#[local] Set Warnings "-inexact-float".

(** ** Every pattern is a pattern *)
Lemma packs_construct : forallb pack_constructs shipped_packs = true.
Proof. by_eval. Qed.

(** Building the registry cannot fail: each of the 401 regular expressions of the 16 shipped
    packs compiles, the packs have different ids, and the registry holds all of them under
    their ids with a keyword index that is the union of their keywords. *)
Theorem registry_well_formed :
  forallb pack_constructs shipped_packs = true /\
  pack_count get_registry = 16%nat /\ pattern_count get_registry = 401%nat /\
  ids_ok get_registry /\ index_ok get_registry /\
  (forall p, In p shipped_packs -> registry_get get_registry (pk_id p) = Some p).
Proof.
  split; [apply packs_construct |]. split; [by_eval |]. split; [by_eval |].
  assert (Hall : forall ps rg, ids_ok rg -> index_ok rg ->
    ids_ok (fold_left register ps rg) /\ index_ok (fold_left register ps rg)).
  { induction ps as [|p ps IH]; intros rg H1 H2; [done |]. simpl.
    destruct (register_ok rg p H1). by apply IH. }
  destruct (Hall shipped_packs empty_registry) as [H1 H2]; [by repeat constructor | done |].
  split; [exact H1 |]. split; [exact H2 |].
  intros p Hp. unfold shipped_packs in Hp. simpl in Hp.
  by repeat destruct Hp as [<- | Hp].
Qed.

(** ** What a match means *)
Lemma check_pattern_hit c pt dp : pattern_ok pt = true ->
  check_pattern c (pt, dp) <> [] <-> exists a b s1, c = a +s+ b /\ matches_at pt a b s1.
Proof.
  intros Hok. unfold check_pattern. destruct (search pt c) as [m|] eqn:Es.
  - split; [| done]. intros _. apply search_Some_leftmost in Es as (a & b & s1 & H1 & H2 & _); eauto.
  - split; [done |]. intros (a & b & s1 & H1 & H2). exfalso.
    by apply (proj1 (search_None_iff pt c Hok) Es a b s1).
Qed.

Lemma shipped_patterns_ok :
  forallb (fun p => forallb (fun cp => pattern_ok (fst cp)) (pk_compiled p)) shipped_packs = true.
Proof. by_eval. Qed.

(** A shipped pack reports a command exactly when one of its keywords occurs in it and one of
    its regular expressions matches somewhere in it, in the declarative meaning of regular
    expressions (captures, look-arounds and back-references included): the search loop and
    its backtracking lose nothing and invent nothing. *)
Theorem check_reports_iff p c : In p shipped_packs ->
  check p c <> [] <->
  matches_keywords p c = true /\
  exists pt dp, In (pt, dp) (pk_compiled p) /\
    exists a b s1, c = a +s+ b /\ matches_at pt a b s1.
Proof.
  intros Hp. pose proof shipped_patterns_ok as Hall. rewrite forallb_forall in Hall.
  specialize (Hall p Hp). rewrite forallb_forall in Hall. unfold check.
  destruct (matches_keywords p c); [| split; [done | by intros [? _]]]. split.
  - intros Hne. split; [done |].
    destruct (flat_map (check_pattern c) (pk_compiled p)) as [|m ms] eqn:Ef; [done |].
    assert (Hin : In m (flat_map (check_pattern c) (pk_compiled p))) by (rewrite Ef; by left).
    apply in_flat_map in Hin as ([pt dp] & Hin & Hm). exists pt, dp. split; [done |].
    apply (check_pattern_hit c pt dp); [exact (Hall _ Hin) |]. intros H0. by rewrite H0 in Hm.
  - intros (_ & pt & dp & Hin & Hm) H0. apply (check_pattern_hit c pt dp) in Hm;
      [| exact (Hall _ Hin)].
    apply Hm. destruct (check_pattern c (pt, dp)) as [|x xs] eqn:E; [done |].
    assert (Hx : In x (flat_map (check_pattern c) (pk_compiled p))).
    { apply in_flat_map. exists (pt, dp). rewrite E. split; [done | by left]. }
    by rewrite H0 in Hx.
Qed.

(** ** Prefilters *)

(** The packs all of whose patterns the static analysis finds guarded by a keyword *)
Definition lossless_packs : list Pack := [
  build_backup_pack; build_docker_pack; build_filesystem_pack; build_kubernetes_pack;
  build_cloud_pack; build_database_pack; build_git_pack; build_firewall_pack;
  build_monitoring_pack; build_package_managers_pack; build_system_pack].
Lemma lossless_packs_filtered : forallb pack_filtered lossless_packs = true.
Proof. by_eval. Qed.

Lemma shipped_keywords :
  forallb (fun p => match pk_keywords p with [] => false | _ => true end) shipped_packs = true.
Proof. by_eval. Qed.
Lemma registry_values : values (rg_packs get_registry) = shipped_packs.
Proof. by_eval. Qed.
Lemma registry_index : index_ok get_registry.
Proof. by_eval. Qed.

Lemma registry_lossless c :
  evaluate get_registry c = flat_map (fun p => check p c) shipped_packs.
Proof.
  unfold evaluate. rewrite registry_values.
  destruct (passes_quick_reject get_registry c) eqn:E; [done |].
  rewrite <- registry_values. symmetry. apply quick_reject_sound; [apply registry_index | | done].
  rewrite registry_values. apply List.Forall_forall. intros p Hp.
  pose proof shipped_keywords as H. rewrite forallb_forall in H. specialize (H p Hp).
  by destruct (pk_keywords p).
Qed.

(** [str.isascii]: the commands on which the lower-casing of the keyword test and the case folding of the
    patterns agree.  Outside, they do not: [re.IGNORECASE] lets the long s, U+017F, match an [s], and
    [str.lower] keeps it. *)
Fixpoint isascii (s : string) : bool :=
  match s with "" => true | String c r => (cn c <? 128)%nat && isascii r end.

(** C37: On commands of ASCII characters the keyword quick-reject is only an optimisation for the
    backup, docker, filesystem, kubernetes, cloud, database, git, firewall, monitoring, package-manager
    and system packs: whatever they report is what they would report without it.  For the storage
    pack it is not: an [aws s3 sync --delete] with a global option before [s3] matches a pattern
    of the pack but holds none of its keywords, so the registry never reports it.  The registry's
    own quick-reject over all keywords loses nothing: it reports exactly what its packs report
    one by one, in their order.  (A command with a long s, U+017F, is outside the claim: the patterns'
    IGNORECASE reads it as an [s], [str.lower] does not, and the keyword test can drop the command.) *)
Theorem prefilter_lossless :
  (forall p c, In p lossless_packs -> isascii c = true -> check p c = check_unfiltered p c) /\
  (exists c, isascii c = true /\ check_unfiltered build_storage_pack c <> [] /\ evaluate get_registry c = []) /\
  (forall c, isascii c = true -> evaluate get_registry c = flat_map (fun p => check p c) shipped_packs).
Proof.
  split; [intros p c Hp _; apply check_lossless; pose proof lossless_packs_filtered as H;
          rewrite forallb_forall in H; by apply H | split; [| intros c _; exact (registry_lossless c)]].
  exists "aws --profile prod s3 sync ./empty s3://backups --delete". by vm_compute.
Qed.

(** The quick-reject relies on every pack having keywords: a registered pack without any,
    which its own check scans on every command, is never consulted on a command that holds no
    keyword of the other packs. *)
Theorem quick_reject_drops_keywordless :
  exists p rg c, ids_ok rg /\ index_ok rg /\ In p (values (rg_packs rg)) /\
    check p c <> [] /\ evaluate rg c = [].
Proof.
  set (dp := mkPattern "any" "shutdown" "r" HIGH "d" []).
  set (p := mkPack "bare" "Bare" [dp] []).
  set (q := mkPack "other" "Other" [] ["docker"]).
  exists p, (register (register empty_registry p) q), "shutdown now".
  destruct (register_ok empty_registry p) as [H1 _]; [by repeat constructor |].
  destruct (register_ok (register empty_registry p) q H1) as [H3 H4].
  split; [exact H3 |]. split; [exact H4 |]. split; [vm_compute; by left |]. vm_compute. by split.
Qed.

(** ** Confidence *)

(** Confidence is well scaled: whatever the command and the pattern, each match a pack
    reports carries a confidence between 0 and 1, and the span signals never scale the base
    confidence by less than 0.05. *)
Theorem confidence_bounded p c m : In m (check p c) ->
  (0 <=? dm_confidence m)%float = true /\ (dm_confidence m <=? 1)%float = true /\
  forall ms me, (0.05 <=? fst (compute_span_confidence c ms me))%float = true.
Proof.
  intros Hin. assert (Hb : (0 <=? dm_confidence m)%float = true /\ (dm_confidence m <=? 1)%float = true).
  { unfold check in Hin. destruct (matches_keywords p c); [| done].
    apply in_flat_map in Hin as ([pt dp] & _ & Hm). unfold check_pattern in Hm.
    destruct (search pt c); [| done]. destruct Hm as [<- | []]. cbn [dm_confidence].
    unfold span_adjusted_confidence, compute_match_confidence.
    destruct (compute_span_confidence c _ _) as [mult sig]. apply clamp_bounds. }
  destruct Hb as [H1 H2]. split; [done |]. split; [done |]. intros ms me.
  unfold compute_span_confidence. cbn [fst]. by apply py_max_lower.
Qed.

(** ** Span classification *)

(** The classifier cuts a command into pieces of it: spans lie inside the command, in order
    and without overlap, each span's text is the slice of the command at its place, none is
    left unclassified, and the tokenizer's loop has ended whatever larger fuel it is given. *)
Theorem spans_are_slices s :
  ordered s 0 (span_places (classify_command s)) /\
  Forall (fun sp => sp_kind sp <> PENDING) (classify_command s) /\
  forall fuel, (slen s <= fuel)%nat -> tokenize_from fuel s 0 = tokenize s.
Proof.
  unfold classify_command, classify_tokens.
  pose proof (tokenize_from_ordered (slen s) s 0) as Ho. fold (tokenize s) in Ho.
  rewrite <- (classify_from_places cstate0) in Ho.
  pose proof (classify_from_kinds cstate0 (tokenize s)) as Hk. split; [| split].
  - destruct (classify_from cstate0 (tokenize s)) as [|sp r]; [done |]. by apply merge_from_ordered.
  - destruct (classify_from cstate0 (tokenize s)) as [|sp r]; [constructor |].
    apply Forall_cons in Hk as [H1 H2]. by apply merge_from_kinds.
  - intros fuel Hf. apply tokenize_from_fuel; lia.
Qed.
