(* ===== verification/PolicyFindings.v ===== *)
(** * Commands the shipped policy lets through although it means to stop them

    Closed facts about the shipped tables and packs, evaluated by the kernel. *)
From S2P Require Import Prelude PyStr Shlex PolicyTypes Packs Registry Gates Profiles Heredoc.
From S2P Require Import Engine EngineSpec.
From stdpp Require Import options.

(** The read-only profile executes more than it reads: the whole pipeline allows under
    readonly a second command after [&], a second command on a new line, a command line given
    to [env -S], and a [git log] that writes a file. *)
Theorem readonly_lets_writes_through :
  forallb (fun c => pipeline_allowed c "readonly")
    ["ls & rm -r /srv/data";
     "ls" +s+ sc newline +s+ "rm -r /srv/data";
     "env -S 'rm -r /srv/data' ls";
     "git log --output=/etc/cron.d/job"] = true.
Proof. by_eval. Qed.

(** The wider profiles drop checks the narrower ones make: ops allows a forced [git push]
    that project-automation refuses, and docker-admin allows a [systemctl] action that ops
    refuses. *)
Theorem wider_profiles_drop_validators :
  pipeline_allowed "git push --force origin main" "project-automation" = false /\
  pipeline_allowed "git push --force origin main" "ops" = true /\
  pipeline_allowed "systemctl mask sshd" "ops" = false /\
  pipeline_allowed "systemctl mask sshd" "docker-admin" = true.
Proof. vm_compute. by repeat split. Qed.

(** Gate 2 misses [sed] in place with a suffix: [sed --in-place=.bak] edits files as
    [sed --in-place] does, which it blocks, and testlint allows it. *)
Theorem sed_suffix_escapes_gate2 :
  fst (check_argument_shape "sed --in-place s/a/b/ app.py") = true /\
  fst (check_argument_shape "sed --in-place=.bak s/a/b/ app.py") = false /\
  pipeline_allowed "sed --in-place=.bak s/a/b/ app.py" "testlint" = true.
Proof. vm_compute. by repeat split. Qed.

(** A quote at the start of an [eval] argument hides the rest from the nested scan: the
    extractor starts looking for the closing quote one character too late, and takes the
    escaped quote for it. *)
Theorem eval_extraction_stops_early :
  let c := "eval " +s+ sc dq +s+ "\" +s+ sc dq +s+ "rm\" +s+ sc dq +s+ " -rf /srv" +s+ sc dq in
  map ec_script (extract_eval_exec c) = ["\"] /\ check_nested_commands c = [] /\
  check_nested_commands ("eval " +s+ sc dq +s+ "rm -rf /srv" +s+ sc dq) <> [].
Proof. vm_compute. by split. Qed.
