(* ===== verification/HeredocSpec.v ===== *)
(** * Correctness of the nested-command scanner, the AST matcher and the informational scan *)
From S2P Require Import Prelude PyStr Regex RegexParse PolicyTypes Packs Registry Profiles Heredoc.
From S2P Require Import AstMatcher Scan.
From stdpp Require Import options.
#[local] Unset Default Proof Using.

(** ** Command substitutions *)

(** Text in which no substitution starts or ends *)
Definition no_subst_char (c : ascii) : bool :=
  negb (Ascii.eqb c "$") && negb (Ascii.eqb c "`") && negb (Ascii.eqb c ")").
Fixpoint inert (s : string) : bool :=
  match s with "" => true | String c r => no_subst_char c && inert r end.

Lemma at_is_app a c r d : at_is (a +s+ String c r) (slen a) d = Ascii.eqb c d.
Proof. unfold at_is, char_at, slen. induction a as [|x a IH]; [done | exact IH]. Qed.
Lemma slice_app a b n : slice (a +s+ b) (slen a) (slen a + n) = take n b.
Proof. unfold slice. rewrite drop_app_len. f_equal. lia. Qed.

(** The outer loop walks over inert text. *)
Lemma substs_inert a : forall pre b fuel, inert a = true -> (slen a <= fuel)%nat ->
  substs_from fuel (pre +s+ a +s+ b) (slen pre) =
  substs_from (fuel - slen a) (pre +s+ a +s+ b) (slen pre + slen a).
Proof.
  induction a as [|c a IH]; intros pre b fuel Hi Hf.
  - change (slen "") with 0%nat. by rewrite Nat.sub_0_r, Nat.add_0_r.
  - simpl in Hi. apply andb_true_iff in Hi as [Hc Hi]. unfold no_subst_char in Hc.
    apply andb_true_iff in Hc as [[H1%negb_true_iff H2%negb_true_iff]%andb_true_iff _].
    destruct fuel as [|f]; [unfold slen in Hf; simpl in Hf; lia |].
    assert (E : pre +s+ String c a +s+ b = (pre +s+ sc c) +s+ a +s+ b) by by rewrite append_assoc.
    cbn [substs_from]. replace (slen pre <? slen (pre +s+ String c a +s+ b))%nat with true
      by (symmetry; apply Nat.ltb_lt; rewrite !slen_app; unfold slen; simpl; lia).
    cbn [negb]. change (String c a +s+ b) with (String c (a +s+ b)).
    rewrite slice_app, at_is_app.
    replace (String.eqb (take 2 (String c (a +s+ b))) "$(") with false.
    2: { symmetry. simpl. destruct (a +s+ b); simpl; rewrite H1; done. }
    rewrite H2. change (String c (a +s+ b)) with (String c a +s+ b). rewrite E.
    replace (slen pre + 1)%nat with (slen (pre +s+ sc c)) by (rewrite slen_app; done).
    rewrite IH; [| done | unfold slen in *; simpl in *; lia].
    change (slen (String c a)) with (S (slen a)). rewrite slen_app.
    change (slen (sc c)) with 1%nat. f_equal. lia.
Qed.

(** The inner loop stops at the first closing parenthesis of inert text. *)
Lemma paren_scan_inert inner b j : inert inner = true ->
  paren_scan 1 j (inner +s+ ")" +s+ b) = (0%nat, (j + slen inner + 1)%nat).
Proof.
  revert j. induction inner as [|c r IH]; intros j.
  - intros _. change (slen "") with 0%nat. rewrite Nat.add_0_r. by destruct b.
  - cbn [inert paren_scan String.append]. unfold no_subst_char. intros [[[H1%negb_true_iff _]%andb_true_iff H3%negb_true_iff]%andb_true_iff Hi]%andb_true_iff.
    rewrite H1, H3. rewrite IH by done. f_equal. unfold slen. simpl. lia.
Qed.

Lemma slice_mid a b c : slice (a +s+ b +s+ c) (slen a) (slen a + slen b) = b.
Proof. rewrite slice_app. apply take_app_len. Qed.

(** A command substitution is always extracted: in any command of the form
    [a$(inner)b] whose parts [a] and [inner] hold no dollar sign, backtick or closing
    parenthesis, the stripped [inner] is among the extracted substitutions. *)
Theorem substitution_extracted a inner b :
  inert a = true -> inert inner = true -> strip inner <> "" ->
  In (mkExtracted (strip inner) "dollar_paren" "shell")
    (extract_command_substitutions (a +s+ "$(" +s+ inner +s+ ")" +s+ b)).
Proof.
  intros Ha Hi Hne. unfold extract_command_substitutions.
  set (cmd := a +s+ "$(" +s+ inner +s+ ")" +s+ b).
  assert (Hlen : slen cmd = (slen a + 2 + slen inner + 1 + slen b)%nat).
  { unfold cmd. rewrite !slen_app. unfold slen. simpl. lia. }
  pose proof (substs_inert a "" ("$(" +s+ inner +s+ ")" +s+ b) (slen cmd) Ha) as Hs.
  change ("" +s+ a +s+ "$(" +s+ inner +s+ ")" +s+ b) with cmd in Hs.
  change (slen "") with 0%nat in Hs. rewrite Hs by lia. simpl Nat.add.
  replace (slen cmd - slen a)%nat with (S (2 + slen inner + slen b)) by lia.
  cbn [substs_from]. replace (slen a <? slen cmd)%nat with true by (symmetry; apply Nat.ltb_lt; lia).
  cbn [negb]. unfold cmd at 1. rewrite slice_app.
  change (take 2 ("$(" +s+ inner +s+ ")" +s+ b)) with "$(". cbn [String.eqb]. 
  change (String.eqb "$(" "$(") with true. cbn iota.
  assert (Hd : drop (slen a + 2) cmd = inner +s+ ")" +s+ b).
  { unfold cmd. rewrite <- drop_drop, drop_app_len. done. }
  rewrite Hd, paren_scan_inert by done. cbn [Nat.eqb]. apply in_or_app. left.
  replace (slen a + 2 + slen inner + 1 - 1)%nat with ((slen a + 2) + slen inner)%nat by lia.
  assert (Hsl : slice cmd (slen a + 2) (slen a + 2 + slen inner) = inner).
  { unfold slice. rewrite Hd. replace (_ - _)%nat with (slen inner) by lia. apply take_app_len. }
  rewrite Hsl. unfold extracted. apply String.eqb_neq in Hne. rewrite Hne. by left.
Qed.

(** ** What the nested scan reports *)
Section Nested.
Context {Sc : Scanner}.

Lemma extract_all_In c ec : In ec (extract_all c) ->
  In ec (extract_inline_scripts c ++ extract_eval_exec c ++ extract_heredocs c
         ++ extract_herestrings c ++ extract_command_substitutions c).
Proof. intros [H _]%dedup_by_In. done. Qed.

(** The nested scan neither invents nor drops: on a command with a trigger its findings are
    the packs' findings on the extracted scripts, renamed and annotated with their origin, each
    script once; without a trigger there are none. *)
Theorem nested_scan_spec c f :
  In f (check_nested_commands c) <->
  has_heredoc_triggers c = true /\
  exists ec m, In ec (extract_all c) /\ In m (scan_all (ec_script ec)) /\ f = nested_match ec m.
Proof.
  unfold check_nested_commands. destruct (has_heredoc_triggers c); simpl.
  - rewrite in_flat_map. split.
    + intros (ec & He & (m & <- & Hm)%in_map_iff). eauto 6.
    + intros (_ & ec & m & He & Hm & ->). exists ec. split; [done | by apply in_map].
  - split; [done | by intros [? _]].
Qed.
End Nested.

(** ** AST matching *)
Section Ast.
Context {Py : PyParser}.

(** The AST matcher sees every call, however deep: a Python script that parses is reported
    for a rule exactly when some call anywhere in its tree matches it, directly, through its
    imports, or through the command line rebuilt from its arguments. *)
Theorem ast_matcher_complete code tree m : ast_parse code = Some tree ->
  In m (check_ast code "python") <->
  exists lineno col func args kws, subnode (NCall lineno col func args kws) tree /\
    let imports := fold_left track_import (walk tree) [] in
    ((exists name, called_name func = Some name /\ In name ["run"; "call"; "Popen"] /\
        In m (_subprocess_nested_matches lineno col args)) \/
     (exists d, call_pattern imports func = Some d /\ m = _make_ast_match lineno col d code)).
Proof.
  intros Hp. unfold check_ast, _check_ast_python. simpl. rewrite Hp, in_flat_map. split.
  - intros (n & Hn%walk_In & Hm). destruct n as [| | lineno col func args kws | | | | |]; try done.
    exists lineno, col, func, args, kws. split; [done |].
    unfold check_call in Hm. apply in_app_or in Hm as [Hm | Hm].
    + left. destruct (called_name func) as [name|]; [| done].
      destruct (mem name ["run"; "call"; "Popen"]) eqn:Em; [| done]. exists name.
      apply mem_In in Em. auto.
    + right. destruct (call_pattern _ func) as [d|]; [| done]. exists d.
      by destruct Hm as [<- | []].
  - intros (lineno & col & func & args & kws & Hn%walk_In & Hm). eexists. split; [exact Hn |].
    unfold check_call. apply in_or_app. destruct Hm as [(name & -> & Hin & Hm) | (d & -> & ->)].
    + left. apply (mem_In name ["run"; "call"; "Popen"]) in Hin. by rewrite Hin.
    + right. by left.
Qed.

(** [ast.walk] ends and visits each node once: the walk has as many entries as the tree has
    nodes, and its entries are exactly the nodes of the tree. *)
Theorem walk_visits_all tree :
  length (walk tree) = node_size tree /\ forall n, In n (walk tree) <-> subnode n tree.
Proof.
  split; [| intros n; apply walk_In]. unfold walk. rewrite walk_from_length; simpl; lia.
Qed.
End Ast.

(** ** The informational scan *)
Section ScanSpec.
Context {Sc : Scanner} {Py : PyParser}.

(** The scan is a superset of the packs and reports each pattern once: whatever the packs
    find in the stripped command, or in a script extracted from it, is among the findings by
    name, no name occurs twice, and the total is their number. *)
Theorem scan_superset c :
  strip c <> "" ->
  (forall m, In m (scan_all (strip c)) ->
     In (dm_pattern_name m) (map sf_pattern_name (sr_findings (scan_command c)))) /\
  (forall ec m, In ec (extract_all (strip c)) -> strip (ec_script ec) <> "" ->
     In m (scan_all (strip (ec_script ec))) ->
     In (dm_pattern_name m) (map sf_pattern_name (sr_findings (scan_command c)))) /\
  NoDup (map sf_pattern_name (sr_findings (scan_command c))) /\
  sr_total (scan_command c) = length (sr_findings (scan_command c)).
Proof.
  intros Hne. split; [| split; [| split; [apply scan_names_once | done]]].
  - intros m Hm. by apply (scan_reports c m (strip c)); [apply candidates_has |].
  - intros ec m He Hs Hm. apply (scan_reports c m (strip (ec_script ec))); [| done].
    by apply stripped_extract.
Qed.

(** Every finding of the scan has a source: a pack matched one of the normalised candidates
    of the command, or the AST matcher reported a Python script extracted from it. *)
Theorem scan_sound c f : In f (sr_findings (scan_command c)) ->
  (exists cand m, In cand (normalize_scan_candidates c) /\ In m (scan_all cand) /\
     f = finding_of m) \/
  (exists script a, In script (extract_python_scripts c) /\ In a (check_ast script "python") /\
     f = finding_of (ast_destructive a)).
Proof.
  intros (m & -> & [(cand & H1 & H2) | (script & a & H1 & H2 & ->)])%scan_finding_origin;
    [left | right]; eauto 6.
Qed.
End ScanSpec.
