(* ===== verification/AccessSpec.v ===== *)
(** * Correctness of the allowlist, access control and the command gate; of client addresses,
    scopes, ownership and circuit breakers *)
From Stdlib Require Import Sorted Permutation.
From stdpp Require Import gmap.
From S2P Require Import Prelude PyStr Regex RegexParse PolicyTypes Registry Profiles AstMatcher.
From S2P Require Import Scan Digests World Ask Allowlist AccessControl ClientIp Agents Engine.
From S2P Require Import EngineSpec CommandGate Instances.
From S2P Require Import Rbac CircuitBreaker.
From stdpp Require Import options.
#[local] Unset Default Proof Using.

(** ** Allowlist *)
Section AllowlistSpec.
Context {E : Env} {Sc : Scanner} {Py : PyParser}.

(** At any instant the allowlist check is a pure function of its entries: it returns the
    first entry that matches among those alive at that instant, layer by layer in the order
    agent, project, user, system, drops the expired entries, touches nothing else, and does
    not depend on which agent, project or user the caller names. *)
Theorem allowlist_at_instant t command agent project user w :
  (forall n, time_at n = t) ->
  exists n, allowlist_check command agent project user w =
    (report t command (allowed_at t command (w_entries w)),
     set_entries (live_entries t (w_entries w)) (set_tick n w)).
Proof. intros Hc. by apply allowlist_check_frozen. Qed.

(** A prefix entry covers its own command family and nothing else: it matches the prefix
    itself and the prefix followed by a blank, never a longer word that merely starts the same
    way. *)
Theorem prefix_boundary entry command : ae_selector_type entry = "prefix" ->
  _matches entry command = Ok true <->
  command = ae_selector_value entry \/
  exists c t, command = ae_selector_value entry +s+ String c t /\ (c = " "%char \/ c = tab).
Proof.
  intros Hs. unfold _matches. rewrite Hs. simpl. rewrite <- matches_prefix_spec.
  split; [by intros [=] | by intros ->].
Qed.
End AllowlistSpec.

(** ** Access control *)
Section AccessSpec.
Context {E : Env}.

(** The access gate decides as documented: a master token is exempt unless enforcement is
    on; an actor with a live denial is refused; an actor that is unknown, expired or pending
    is capped to readonly or testlint; only a live allow decision keeps the requested
    profile. *)
Theorem access_resolution fp token_type ip requested enforce_master w :
  let seen := visible (time_at (w_tick w)) (w_access w) (make_access_key_hash fp ip) in
  match fst (resolve_access_policy fp token_type ip requested enforce_master w) with
  | Ok r =>
      ap_key_hash r = make_access_key_hash fp ip /\
      ((token_type = "master" /\ enforce_master = false /\ ap_state r = "exempt" /\
        ap_effective_profile r = requested) \/
       ((forall e, seen = Some e -> ac_decision e = "pending") /\ ap_state r = "pending" /\
        (ap_effective_profile r = requested \/ ap_effective_profile r = "readonly") /\
        In (ap_effective_profile r) ["readonly"; "testlint"]) \/
       (exists e, seen = Some e /\ ac_decision e <> "pending" /\ ac_decision e <> "denied" /\
        ap_state r = "allowed" /\ ap_effective_profile r = requested))
  | Raise x => exists e, seen = Some e /\ ac_decision e = "denied" /\
                 (token_type <> "master" \/ enforce_master = true) /\
                 exists msg, x = AccessDeniedError msg
  end.
Proof.
  intros seen. rewrite resolve_eq. cbv zeta. fold seen.
  assert (Hcap : (capped_profile requested = requested \/ capped_profile requested = "readonly") /\
                 In (capped_profile requested) ["readonly"; "testlint"]).
  { unfold capped_profile. destruct (mem requested _) eqn:Em; [| simpl; auto].
    apply mem_In in Em. auto. }
  destruct (String.eqb_spec token_type "master") as [-> | Hm]; simpl.
  - destruct enforce_master; simpl.
    + destruct seen as [e|]; [| split; [done |]; right; left; split; [done |]; tauto].
      destruct (String.eqb_spec (ac_decision e) "pending").
      { split; [done |]. right; left. split; [by intros ? [= <-] | tauto]. }
      destruct (String.eqb_spec (ac_decision e) "denied"); [exists e; eauto 6 |].
      split; [done |]. right; right. eauto 6.
    + split; [done |]. by left.
  - destruct seen as [e|]; [| split; [done |]; right; left; split; [done |]; tauto].
    destruct (String.eqb_spec (ac_decision e) "pending").
    { split; [done |]. right; left. split; [by intros ? [= <-] | tauto]. }
    destruct (String.eqb_spec (ac_decision e) "denied"); [exists e; eauto 6 |].
    split; [done |]. right; right. eauto 6.
Qed.

(** A decision holds until it expires: after an operator sets one for an actor and address,
    and while the clock is within its lifetime, the gate answers by that decision, for this
    actor and address and not for one whose key differs. *)
Theorem decision_round_trip ttls fp ip d why by_ ttl w e w1 token_type requested n :
  runs (ac_set ttls fp ip d why by_ ttl) w e w1 ->
  token_type <> "master" -> (time_at n <= ac_expires_at e)%Z ->
  ac_expires_at e = (ac_created_at e
    + seconds (match ttl with Some s => s | None => _ttl_for ttls d end))%Z /\
  fst (resolve_access_policy fp token_type ip requested false (set_tick n w1)) =
    (if String.eqb d "pending" then
       Ok (mkAccessResult "pending" (capped_profile requested)
             "unknown or pending actor — profile capped" (make_access_key_hash fp ip))
     else if String.eqb d "denied" then
       Raise (AccessDeniedError ("actor " +s+ take 12 fp +s+ "... denied: " +s+ why))
     else Ok (mkAccessResult "allowed" requested why (make_access_key_hash fp ip))) /\
  forall fp' ip', make_access_key_hash fp' ip' <> make_access_key_hash fp ip ->
    fst (ac_get fp' ip' (set_tick n w1)) = fst (ac_get fp' ip' (set_tick n w)).
Proof.
  intros Hrun Htt Hlive. destruct (ac_set_eq ttls fp ip d why by_ ttl w) as (w' & Hs & Ha & _ & _).
  unfold runs in Hrun. rewrite Hs in Hrun. injection Hrun as <- <-. split; [done |].
  split.
  - rewrite resolve_eq. rewrite (proj2 (String.eqb_neq token_type "master")) by done. cbn [andb].
    cbv zeta iota. unfold visible. cbn [w_access set_tick w_tick]. rewrite Ha, dict_get_set_eq.
    replace (_ <? _)%Z with false by (simpl in *; lia). done.
  - intros fp' ip' Hne. rewrite !ac_get_eq. unfold visible. cbn [w_access set_tick w_tick].
    by rewrite Ha, dict_get_set_ne.
Qed.
End AccessSpec.

(** ** The command gate *)
Section GateSpec.
Context {E : Env} {Sc : Scanner} {Py : PyParser} {H : Host} {J : JsonLoads}.
Variable settings : Settings.

Lemma ask_quiet c p mode root w d w' : evaluate_ask c p mode root w = (Ok d, w') ->
  w_audit w' = w_audit w /\ w_commands w' = w_commands w /\ d_profile d = p.
Proof.
  destruct (pipeline_allowed c p) eqn:Ea; [rewrite ask_allowed by done; by intros [= <- <-] |].
  destruct (hard_blocked_dec c p) as [Hh | Hh]; [rewrite ask_hard by done; by intros [= <- <-] |].
  rewrite ask_soft, find_and_consume_eq by done. cbv zeta.
  destruct (List.find _ _) as [[aid req]|]; [by intros [= <- <-] |].
  rewrite create_eq. cbv zeta. by intros [= <- <-].
Qed.

Definition actor_of (identity : option AuthIdentity) : string :=
  match identity with Some i => fingerprint i | None => "" end.
Definition type_of (identity : option AuthIdentity) : string :=
  match identity with Some i => id_token_type i | None => "unknown" end.

(** The profile step of the gate, with a store and the address it takes for the caller's *)
Lemma gate_profile_at rq identity source_ip ip w : access_control_enabled settings = true ->
  gate_source_ip settings rq source_ip = Ok ip ->
  resolve_effective_profile_with_access_gate settings true rq identity source_ip w =
  match resolve_access_policy (actor_of identity) (type_of identity) ip
          (resolve_effective_profile settings identity) (access_control_enforce_master settings) w
  with
  | (Ok r, w') => (Ok (ap_effective_profile r), w')
  | (Raise (AccessDeniedError _), w') => (Raise (HTTPException 403 "ACCESS_DENIED"), w')
  | (Raise x, w') => (Raise x, w')
  end.
Proof.
  intros He Hip. unfold resolve_effective_profile_with_access_gate. rewrite He, Hip. cbn [andb]. cbv iota.
  unfold mlet, lift, mtry, actor_of, type_of.
  cbv beta. by destruct (resolve_access_policy _ _ _ _ _ w) as [[r | []] w'].
Qed.

(** [resolve_access_policy] changes the clock and the access store only. *)
Lemma resolve_quiet fp tt ip req em w :
  let w' := snd (resolve_access_policy fp tt ip req em w) in
  w_store w' = w_store w /\ w_entries w' = w_entries w /\ w_audit w' = w_audit w /\
  w_commands w' = w_commands w.
Proof.
  cbv zeta. unfold resolve_access_policy. destruct (_ && _); [done |].
  unfold ac_get, mlet, get_access. destruct (dict_get _ (w_access w)) as [e|]; [| done]. cbn.
  destruct (ac_expires_at e <? _)%Z; cbn; [done |].
  destruct (String.eqb (ac_decision e) "pending"); [done |].
  by destruct (String.eqb (ac_decision e) "denied").
Qed.

(** C5: A denied actor reaches nothing.  Access control is enabled, and its store holds a denial
    that has not expired for the actor and for the address the gate takes for the caller's: the
    one it is given, or, as the HTTP routes do, the client address of the request behind the
    trusted proxies.  The actor is not the master, who is exempt, or the settings enforce access
    control on the master too.  Then the gate answers 403 to any command before the policy
    runs: no approval, allowlist entry, audit event or metric changes. *)
Theorem denied_actor_stopped rq identity command route source_ip ip raise_ w :
  access_control_enabled settings = true -> gate_source_ip settings rq source_ip = Ok ip ->
  (type_of identity <> "master" \/ access_control_enforce_master settings = true) ->
  (exists e, visible (time_at (w_tick w)) (w_access w)
               (make_access_key_hash (actor_of identity) ip) = Some e /\
             ac_decision e = "denied") ->
  exists w', evaluate_with_access_gate settings true rq identity command route source_ip raise_ w
      = (Raise (HTTPException 403 "ACCESS_DENIED"), w') /\
    w_store w' = w_store w /\ w_entries w' = w_entries w /\ w_audit w' = w_audit w /\
    w_commands w' = w_commands w.
Proof.
  intros He Hip Ht (e & Hv & Hd). unfold evaluate_with_access_gate. unfold mlet at 1.
  rewrite (gate_profile_at _ _ _ ip) by done.
  pose proof (resolve_eq (actor_of identity) (type_of identity) ip
    (resolve_effective_profile settings identity) (access_control_enforce_master settings) w) as Hr.
  pose proof (resolve_quiet (actor_of identity) (type_of identity) ip
    (resolve_effective_profile settings identity) (access_control_enforce_master settings) w) as Hq.
  assert (Ex : (String.eqb (type_of identity) "master" && negb (access_control_enforce_master settings))%bool = false).
  { destruct Ht as [Ht | ->]; [by apply String.eqb_neq in Ht as -> | by rewrite andb_false_r]. }
  rewrite Ex in Hr. cbv zeta in *. rewrite Hv, Hd in Hr. cbv iota in Hr.
  destruct (resolve_access_policy _ _ _ _ _ w) as [r w']. simpl in Hr, Hq. subst r.
  exists w'. split; [done | tauto].
Qed.

(** An actor access control does not know runs capped: the profile the gate reports, and the
    one the policy engine is given, is readonly or testlint, whatever the settings or the key's
    mapping ask for. *)
Theorem unknown_actor_capped rq identity command route ip raise_ w g w' :
  access_control_enabled settings = true -> type_of identity <> "master" ->
  visible (time_at (w_tick w)) (w_access w) (make_access_key_hash (actor_of identity) ip) = None ->
  runs (evaluate_with_access_gate settings true rq identity command route (Some ip) raise_) w g w' ->
  In (cg_effective_profile g) ["readonly"; "testlint"] /\
  exists d w1 w2,
    runs (evaluate_command_policy (command_policy_agent_modes settings) command
            (command_policy_mode settings) (cg_effective_profile g) None None None) w1 d w2 /\
    cg_allowed g = d_allowed d.
Proof.
  intros He Ht Hv Hrun. unfold evaluate_with_access_gate in Hrun.
  apply runs_let in Hrun as (prof & w1 & Hp & Hrun).
  apply runs_let in Hrun as (d & w2 & Hd & Hrun).
  apply runs_let in Hrun as (aip & w3 & _ & Hrun).
  apply runs_let in Hrun as (u & w4 & _ & Hrun).
  apply runs_let in Hrun as (u' & w5 & _ & Hrun). apply runs_ret in Hrun as [<- _]. simpl.
  unfold runs in Hp. rewrite (gate_profile_at _ _ _ ip) in Hp by done.
  pose proof (resolve_eq (actor_of identity) (type_of identity) ip
    (resolve_effective_profile settings identity) (access_control_enforce_master settings) w) as Hr.
  rewrite (proj2 (String.eqb_neq (type_of identity) "master")) in Hr by done.
  cbv zeta in *. rewrite Hv in Hr. cbn [andb] in Hr. cbv iota in Hr.
  destruct (resolve_access_policy _ _ _ _ _ w) as [r wr]. simpl in Hr. subst r.
  injection Hp as <- <-. split; [| eauto].
  simpl ap_effective_profile. unfold capped_profile.
  destruct (mem _ ["readonly"; "testlint"]) eqn:Em;
    [by apply (mem_In _ ["readonly"; "testlint"]) | simpl; auto].
Qed.

(** The profile step logs and counts nothing. *)
Lemma profile_quiet has_store rq identity sip w prof w' :
  runs (resolve_effective_profile_with_access_gate settings has_store rq identity sip) w prof w' ->
  w_audit w' = w_audit w /\ w_commands w' = w_commands w.
Proof.
  unfold resolve_effective_profile_with_access_gate.
  destruct (access_control_enabled settings && has_store); [| by intros [_ <-]%runs_ret].
  intros (ip & w1 & [_ <-]%runs_lift & (r & w2 & Hr & [_ <-]%runs_ret)%runs_let)%runs_let.
  pose proof (resolve_quiet (match identity with Some i => fingerprint i | None => "" end)
    (match identity with Some i => id_token_type i | None => "unknown" end) ip
    (resolve_effective_profile settings identity) (access_control_enforce_master settings) w) as Hq.
  unfold runs, mtry in Hr. destruct (resolve_access_policy _ _ _ _ _ w) as [[a | []] wr]; try done.
  injection Hr as -> ->. simpl in Hq. tauto.
Qed.

(** Neither does the policy engine, which reports the profile it was given. *)
Lemma policy_quiet modes command mode profile w d w' :
  runs (evaluate_command_policy modes command mode profile None None None) w d w' ->
  w_audit w' = w_audit w /\ w_commands w' = w_commands w /\
  d_profile d = effective_profile profile.
Proof.
  intros Hrun. unfold runs in Hrun.
  destruct (String.eqb_spec (effective_mode modes mode None) "off") as [Hoff | Hoff].
  { rewrite off_eq in Hrun by done. by injection Hrun as <- <-. }
  rewrite evaluate_eq in Hrun by done.
  pose proof (quiet_allowlist command (Some (resolve_agent None)) None None w) as Hq.
  destruct (allowlist_check _ _ _ _ w) as [[[m|] | x] w1]; [| | done];
    unfold same_stores in Hq; simpl in Hq.
  { injection Hrun as <- <-. simpl. tauto. }
  destruct (String.eqb_spec (effective_mode modes mode None) "ask") as [Hask | Hask].
  - rewrite Hask, gates_ask in Hrun. destruct (ask_quiet _ _ _ _ _ _ _ Hrun) as (-> & -> & ->). tauto.
  - rewrite gates_eq in Hrun by done. injection Hrun as <- <-. unfold gate_decision.
    destruct (String.eqb _ "enforce"); [destruct (pipeline_allowed _ _) |]; simpl; tauto.
Qed.

(** Every decision is audited once: when the gate returns or refuses after the policy ran,
    exactly one event is appended to the audit log, a refusal is counted as a denied command
    and nothing else is; with [raise_on_deny] the gate returns only allowed decisions. *)
Theorem gate_audits_once has_store rq identity command route sip raise_ w g w' :
  runs (evaluate_with_access_gate settings has_store rq identity command route sip raise_) w g w' ->
  (exists msg ip, w_audit w' = w_audit w ++ [("COMMAND_POLICY_DECISION", msg, ip)]) /\
  (w_commands w' = w_commands w ++
     (if cg_allowed g then []
      else [("denied", effective_profile (cg_effective_profile g),
             _normalize_command_root (cg_command_root g))])) /\
  (raise_ = true -> cg_allowed g = true).
Proof.
  unfold evaluate_with_access_gate.
  intros (prof & w1 & Hp & (d & w2 & Hd & (aip & w3 & [_ <-]%runs_lift & Hrun)%runs_let)%runs_let)%runs_let.
  apply runs_let in Hrun as ([] & w4 & Hlog & Hrun). injection Hlog as <-.
  apply runs_let in Hrun as ([] & w5 & Hdeny & [<- <-]%runs_ret).
  destruct (profile_quiet _ _ _ _ _ _ _ Hp) as [Hpa Hpc].
  destruct (policy_quiet _ _ _ _ _ _ _ Hd) as (Hda & Hdc & Hdp). cbn [cg_allowed cg_effective_profile cg_command_root].
  destruct (d_allowed d) eqn:Eal; cbn [negb] in Hdeny.
  - apply runs_ret in Hdeny as [_ <-]. cbn. rewrite Hda, Hpa, Hdc, Hpc, app_nil_r. eauto.
  - apply runs_let in Hdeny as ([] & w6 & Hc & Hr). injection Hc as <-.
    destruct raise_; [done |]. apply runs_ret in Hr as [_ <-]. cbn.
    rewrite Hda, Hpa, Hdc, Hpc, Hdp. eauto.
Qed.
End GateSpec.

(** ** Correctness of client addresses, scopes, ownership and circuit breakers *)
(** ** Client addresses *)

(** A client cannot spoof its address: unless the connection itself comes from a trusted
    proxy the forwarded header is ignored; behind a trusted proxy the answer is the last
    forwarded address that is not itself a trusted proxy, everything after it being trusted
    proxies, and only when all are trusted the last one. *)
Theorem client_ip_not_spoofed rq trusted :
  let host := default "127.0.0.1" (rq_client_host rq) in
  (_is_trusted host trusted = false -> get_client_ip rq trusted = host) /\
  (forall fwd, rq_forwarded_for rq = Some fwd -> fwd <> "" -> _is_trusted host trusted = true ->
     let ips := map strip (split_on "," fwd) in
     (exists before after, ips = before ++ get_client_ip rq trusted :: after /\
        _is_trusted (get_client_ip rq trusted) trusted = false /\
        forall ip, In ip after -> _is_trusted ip trusted = true) \/
     ((forall ip, In ip ips -> _is_trusted ip trusted = true) /\
      In (get_client_ip rq trusted) ips)).
Proof.
  intros host. split.
  - intros Ht. unfold get_client_ip. fold host. by rewrite Ht, andb_false_r.
  - intros fwd Hf Hne Ht ips. unfold get_client_ip. fold host. rewrite Hf. cbn [default from_option id].
    rewrite (proj2 (String.eqb_neq fwd "") Hne), Ht. cbn [negb andb]. fold ips.
    destruct (List.find _ (rev ips)) as [ip|] eqn:Ef.
    + left. apply find_rev_last in Ef as (l1 & l2 & -> & Hp & Hl). exists l1, l2.
      split; [done |]. split; [by apply negb_true_iff in Hp |].
      intros x Hx. apply Hl, negb_false_iff in Hx. done.
    + right. pose proof (List.find_none _ _ Ef) as Hn. split.
      * intros x Hx. apply in_rev in Hx. apply Hn, negb_false_iff in Hx. done.
      * assert (Hips : ips <> []).
        { unfold ips. pose proof (split_on_nonempty "," fwd). by destruct (split_on "," fwd). }
        rewrite (app_removelast_last "" Hips) at 2. apply in_or_app. right. by left.
Qed.

(** ** Scopes *)

Lemma owner_sees s i : ensure_session_owner s i = Ok tt -> session_visible_to s i = true.
Proof.
  unfold ensure_session_owner, session_visible_to. destruct (is_admin i); [done |].
  destruct (bool_decide (ss_owner_type s = Some "agent")); cbn [negb andb]; [| done].
  destruct (bool_decide (ss_owner_token_fingerprint s = Some (fingerprint i)));
    cbn [negb andb]; [done |].
  destruct (labels_overlap (Some (id_tenant_labels i)) _); [by rewrite orb_true_r | done].
Qed.

(** Scopes are reached by the documented ways only: a request passes a scope check exactly
    when its identity is the master key, holds the scope or the wildcard, or has a role whose
    permissions map to it; a scope without a permission, the interactive [ssh:pty] among them,
    is reached through no role but admin; the scopes written into the token of a non-admin role
    are exactly those the role allows; and a session whose ownership check passes is listed for
    the identity. *)
Theorem scope_check_spec required i :
  (require_scope required (Some i) = Ok i <->
     id_token_type i = "master" \/ In "*" (id_scopes i) \/ In required (id_scopes i) \/
     role_allows_scope (id_role i) (identity_permissions i) required = true) /\
  require_scope required None = Raise (HTTPException 401 "Authentication required") /\
  (dict_get required SCOPE_PERMISSIONS = None ->
     role_allows_scope (id_role i) (identity_permissions i) required = true ->
     id_role i = Some "admin") /\
  dict_get "ssh:pty" SCOPE_PERMISSIONS = None /\
  (forall role, role <> "admin" ->
     In required (scopes_for_role (Some role)) <->
     role_allows_scope (Some role) None required = true) /\
  (forall s, ensure_session_owner s i = Ok tt -> session_visible_to s i = true).
Proof.
  split; [| split; [done | split; [apply unmapped_scope | split; [done |]]]].
  2: { split; [intros role; apply scopes_for_role_spec | intros s; apply owner_sees]. }
  unfold require_scope. rewrite <- !mem_In.
  destruct (String.eqb_spec (id_token_type i) "master") as [Hm | Hm]; [tauto |].
  destruct (mem "*" (id_scopes i)); simpl; [tauto |].
  destruct (mem required (id_scopes i)); [tauto |].
  destruct (role_allows_scope _ _ required); [tauto |].
  split; [done |]. intros [? | [? | [? | ?]]]; congruence.
Qed.

(** ** Circuit breakers *)

(** A circuit breaker stays well formed over every sequence of calls, successes and
    failures: a closed breaker is below its failure threshold, an open or half-open one has
    seen a failure, a half-open one never admits more probes than allowed nor holds enough
    successes to have closed; its parameters never change. *)
Theorem breaker_invariant es threshold timeout max_calls :
  (0 < threshold)%Z -> (0 < max_calls)%Z ->
  let cb := fold_left cb_step es (new_breaker threshold timeout max_calls) in
  cb_ok cb /\ cb_params cb = (threshold, timeout, max_calls).
Proof.
  intros H1 H2 cb. split; [by apply cb_run_ok, new_breaker_ok |]. unfold cb. clear cb.
  assert (Hp : forall es cb, cb_params (fold_left cb_step es cb) = cb_params cb).
  { clear. induction es as [|e es IH]; intros cb; [done |]. simpl. by rewrite IH, cb_step_params. }
  by rewrite Hp.
Qed.

(** The calls a breaker is asked about and not told the outcome of *)
Definition asks (ts : list Z) : list cb_event := map Ask_ ts.

(** Two successes in a half-open period before its probe failed, then one success in the next *)
Definition flaky_recovery : list cb_event :=
  [Failure 0; Failure 0; Failure 0; Failure 0; Failure 0;
   Ask_ 60000000; Ask_ 60000000; Ask_ 60000000; Success; Success; Failure 61000000;
   Ask_ 121000000; Success].

(** [k] successes close a half-open breaker that already counts the others it needs. *)
Lemma successes_close k cb : cb_state cb = HALF_OPEN -> (0 < k)%nat ->
  (cb_success_count cb + Z.of_nat k = cb_half_open_max_calls cb)%Z ->
  cb_state (fold_left cb_step (repeat Success k) cb) = CLOSED.
Proof.
  revert cb. induction k as [|k IH]; intros cb Hs Hk Hc; [lia |].
  cbn [repeat fold_left cb_step]. unfold record_success. rewrite Hs. destruct k as [|k].
  - by replace (_ <=? _)%Z with true by lia.
  - replace (_ <=? _)%Z with false by lia. apply IH; [done | lia |]. simpl. lia.
Qed.
Lemma stale_successes_close cb t t' k :
  cb_state cb = HALF_OPEN -> (0 < k)%nat -> (0 < cb_half_open_max_calls cb)%Z ->
  (cb_success_count cb + Z.of_nat k = cb_half_open_max_calls cb)%Z ->
  (cb_recovery_timeout cb * 1000000 <= t' - t)%Z ->
  cb_state (fold_left cb_step (Failure t :: Ask_ t' :: repeat Success k) cb) = CLOSED.
Proof.
  intros Hs Hk Hm Hc Ht.
  cbn [fold_left cb_step]. unfold record_failure, can_execute, recovery_due. rewrite Hs. simpl.
  replace (_ <=? _)%Z with true by lia. unfold admit_call. simpl.
  replace (_ <=? _)%Z with false by lia. by apply successes_close.
Qed.
Lemma exhausted_blocks cb ts : cb_state cb = HALF_OPEN ->
  (cb_half_open_max_calls cb <= cb_half_open_calls cb)%Z -> fold_left cb_step (asks ts) cb = cb.
Proof.
  intros Hs Hc. induction ts as [|x r IH]; [done |]. simpl. by rewrite (probes_used_up x cb Hs Hc).
Qed.

(** An open breaker blocks until its recovery timeout and then admits one probe; but a
    half-open breaker whose admitted probes never report admits nothing any more, at any time:
    it does not time out of half-open.  Nor is a failed recovery forgotten on reopening:
    whatever successes a half-open period counted before its probe failed count again in the
    next one, so that only the missing ones close the breaker; the default breaker, which asks
    for three successes, closes on the first after two successes and a failure. *)
Theorem breaker_recovery cb t last :
  cb_state cb = OPEN -> cb_last_failure_time cb = Some last -> (0 < cb_half_open_max_calls cb)%Z ->
  ((t - last < cb_recovery_timeout cb * 1000000)%Z -> can_execute t cb = (false, cb)) /\
  ((cb_recovery_timeout cb * 1000000 <= t - last)%Z ->
     fst (can_execute t cb) = true /\ cb_state (snd (can_execute t cb)) = HALF_OPEN) /\
  (forall cb', cb_state cb' = HALF_OPEN ->
     (cb_half_open_max_calls cb' <= cb_half_open_calls cb')%Z ->
     forall ts, fold_left cb_step (asks ts) cb' = cb') /\
  (forall cb' t t' k, cb_state cb' = HALF_OPEN -> (0 < k)%nat ->
     (0 < cb_half_open_max_calls cb')%Z ->
     (cb_success_count cb' + Z.of_nat k = cb_half_open_max_calls cb')%Z ->
     (cb_recovery_timeout cb' * 1000000 <= t' - t)%Z ->
     cb_state (fold_left cb_step (Failure t :: Ask_ t' :: repeat Success k) cb') = CLOSED) /\
  cb_state (fold_left cb_step flaky_recovery default_breaker) = CLOSED.
Proof.
  intros Hs Hl Hm. unfold can_execute, recovery_due. rewrite Hs, Hl. split; [| split; [| split; [| split]]].
  - intros Ht. by replace (_ <=? _)%Z with false by lia.
  - intros Ht. replace (_ <=? _)%Z with true by lia. unfold admit_call. simpl.
    by replace (_ <=? _)%Z with false by lia.
  - intros cb' Hs' Hc ts. by apply exhausted_blocks.
  - intros. by apply stale_successes_close.
  - by_eval.
Qed.

(** Operations on a registry, one after the other *)
Inductive rg_op : Type :=
| OpGetBreaker (host : string) (fresh : CircuitBreaker)
| OpRemove (host : string)
| OpUpdate (a : nat) (f : CircuitBreaker -> CircuitBreaker).
Definition rg_run_op (rg : BreakerRegistry) (op : rg_op) : result BreakerRegistry :=
  match op with
  | OpGetBreaker h fresh => r <-! get_breaker h fresh rg ;; Ok (snd r)
  | OpRemove h => r <-! remove_breaker h rg ;; Ok (snd r)
  | OpUpdate a f => Ok (update_breaker a f rg)
  end.
Fixpoint rg_run (ops : list rg_op) (rg : BreakerRegistry) : result BreakerRegistry :=
  match ops with
  | [] => Ok rg
  | op :: r => rg' <-! rg_run_op rg op ;; rg_run r rg'
  end.

Lemma rg_run_op_ok rg op : rg_ok rg -> exists rg', rg_run_op rg op = Ok rg' /\ rg_ok rg'.
Proof.
  intros Hok. destruct op as [h fresh | h | a f]; simpl.
  - destruct (get_breaker_ok h fresh rg Hok) as (a & rg' & -> & Hok' & _). by exists rg'.
  - destruct (remove_breaker_ok h rg Hok) as (b & rg' & -> & Hok' & _). by exists rg'.
  - eexists. split; [done |]. unfold rg_ok, update_breaker in *. simpl.
    by rewrite length_alter.
Qed.

(** The breaker registry never fails and never outgrows its bound: over every sequence of
    look-ups, removals and updates from an empty registry of positive capacity no operation
    raises, at most that many hosts are kept, each with its own breaker object, and the
    recency list names exactly the kept hosts. *)
Theorem breaker_registry_safe ops max_size : (0 < max_size)%nat ->
  exists rg, rg_run ops (new_registry max_size) = Ok rg /\ rg_ok rg /\
    (length (rg_breakers rg) <= max_size)%nat.
Proof.
  intros Hm.
  assert (Hgen : forall ops rg, rg_ok rg -> exists rg', rg_run ops rg = Ok rg' /\ rg_ok rg' /\
            rg_max_size rg' = rg_max_size rg).
  { clear. induction ops as [|op ops IH]; intros rg Hok; [by exists rg |]. simpl.
    destruct (rg_run_op_ok rg op Hok) as (rg1 & E & Hok1). rewrite E. simpl.
    destruct (IH rg1 Hok1) as (rg' & H1 & H2 & H3). exists rg'. split; [done |].
    split; [done |]. rewrite H3. clear -E.
    destruct op as [h fresh | h | a f]; simpl in E.
    - apply rbind_ok_inv in E as ([a rg2] & Hg & [= <-]). unfold get_breaker in Hg. simpl.
      destruct (dict_get h (rg_breakers rg));
        apply rbind_ok_inv in Hg as (x & _ & [= <- <-]); done.
    - apply rbind_ok_inv in E as ([b rg2] & Hg & [= <-]). unfold remove_breaker in Hg. simpl.
      destruct (dict_in h (rg_breakers rg)); [| by injection Hg as <- <-].
      apply rbind_ok_inv in Hg as (x & _ & [= <- <-]). done.
    - by injection E as <-. }
  destruct (Hgen ops (new_registry max_size)) as (rg & H1 & H2 & H3).
  { unfold rg_ok. simpl. repeat split; try done; try lia; try constructor. }
  exists rg. split; [done |]. split; [done |]. destruct H2 as (_ & _ & _ & Hl & _).
  rewrite H3 in Hl. done.
Qed.
