(* ===== verification/DiffSpec.v ===== *)
(** * Correctness of patch application

    An edit script says which lines of a file stay, go and come; [render] writes it as a
    unified diff the way diff tools do.  Applying the rendered script to the old file gives
    the new one, except in the cases stated at the end. *)
From S2P Require Import Prelude PyStr UnifiedDiff.
From stdpp Require Import options.

(** ** Edit scripts *)
Inductive dline : Type := Ctx (s : string) | Del (s : string) | Add (s : string).
Definition old_of (b : list dline) : list string :=
  flat_map (fun d => match d with Ctx s | Del s => [s] | Add _ => [] end) b.
Definition new_of (b : list dline) : list string :=
  flat_map (fun d => match d with Ctx s | Add s => [s] | Del _ => [] end) b.
Definition show (d : dline) : string :=
  match d with Ctx s => String " " s | Del s => String "-" s | Add s => String "+" s end.
Definition dline_text (d : dline) : string := match d with Ctx s | Del s | Add s => s end.

(** A change: the lines skipped since the previous one, and its body *)
Record change : Type := mkChange { gap : list string; body : list dline }.

Fixpoint old_file (script : list change) (tail : list string) : list string :=
  match script with [] => tail | ch :: r => gap ch ++ old_of (body ch) ++ old_file r tail end.
Fixpoint new_file (script : list change) (tail : list string) : list string :=
  match script with [] => tail | ch :: r => gap ch ++ new_of (body ch) ++ new_file r tail end.

(** The start of a range of [len] lines after [before] lines: an empty range is named by the
    line before it. *)
Definition range_start (before len : nat) : nat := match len with O => before | _ => S before end.
Fixpoint render (o n : nat) (script : list change) : list string :=
  match script with
  | [] => []
  | ch :: r =>
      let o' := (o + length (gap ch))%nat in
      let n' := (n + length (gap ch))%nat in
      let lo := length (old_of (body ch)) in
      let ln := length (new_of (body ch)) in
      header (range_start o' lo) lo (range_start n' ln) ln
        :: map show (body ch) ++ render (o' + lo) (n' + ln) r
  end.
Definition patch_of (name : string) (script : list change) : string :=
  unlines (sc newline) (("--- a/" +s+ name) :: ("+++ b/" +s+ name) :: render 0 0 script).

(** ** The rendered patch is parsed back *)
Definition hunk_of (start : nat) (b : list dline) : hunk :=
  mkHunk start (old_of b) (new_of b)
    (flat_map (fun d => match d with Del s => [s] | _ => [] end) b)
    (flat_map (fun d => match d with Add s => [s] | _ => [] end) b)
    (flat_map (fun d => match d with Ctx s => [s] | _ => [] end) b).
Fixpoint hunks_of (o : nat) (script : list change) : list hunk :=
  match script with
  | [] => []
  | ch :: r =>
      let o' := (o + length (gap ch))%nat in
      let lo := length (old_of (body ch)) in
      hunk_of (range_start o' lo) (body ch) :: hunks_of (o' + lo) r
  end.

Lemma show_no_header d : hunk_header (show d) = None.
Proof. by destruct d; apply hunk_header_body. Qed.

Lemma parse_body start done_ b0 b :
  fold_left parse_line (map show b) (done_, Some (hunk_of start b0))
  = (done_, Some (hunk_of start (b0 ++ b))).
Proof.
  revert b0. induction b as [|d b IH]; intros b0; cbn [map fold_left]; [by rewrite app_nil_r |].
  unfold parse_line at 2. rewrite show_no_header. cbn [fst snd option_map].
  replace (add_line (hunk_of start b0) (show d)) with (hunk_of start (b0 ++ [d])).
  - by rewrite IH, <- app_assoc.
  - unfold hunk_of, old_of, new_of. rewrite !flat_map_app. by destruct d; simpl; rewrite ?app_nil_r.
Qed.

Definition finished (st : list hunk * option hunk) : list hunk :=
  fst st ++ match snd st with Some h => [h] | None => [] end.
Lemma parse_render o n script st :
  finished (fold_left parse_line (render o n script) st) = finished st ++ hunks_of o script.
Proof.
  revert o n st. induction script as [|ch r IH]; intros o n st; cbn [render fold_left hunks_of];
    [by rewrite app_nil_r |].
  rewrite fold_left_app. unfold parse_line at 3. rewrite hunk_header_render.
  change (empty_hunk ?s) with (hunk_of s []). rewrite parse_body, IH. unfold finished at 1.
  cbn [fst snd app]. by rewrite <- app_assoc.
Qed.

Lemma clean_app a b : clean (a +s+ b) <-> clean a /\ clean b.
Proof. unfold clean. by rewrite all_of_app, andb_true_iff. Qed.
Lemma clean_nat n : clean (nat_str n).
Proof.
  destruct (nat_str_spec n) as (_ & H & _). revert H. unfold clean.
  induction (nat_str n) as [|c s IH]; [done |]. simpl. intros [Hc Hs]%andb_true_iff.
  rewrite IH by done. rewrite andb_true_r.
  assert (Hd : implb (is_digit c) (negb (is_linebreak c)) = true)
    by (apply (ascii_forall (fun c => implb (is_digit c) (negb (is_linebreak c)))); by_eval).
  by rewrite Hc in Hd.
Qed.
Lemma clean_header a b c d : clean (header a b c d).
Proof. unfold header. rewrite !clean_app. repeat split; apply clean_nat. Qed.
Lemma clean_show d : clean (dline_text d) -> clean (show d).
Proof. intros H. by destruct d; exact H. Qed.

(** The lines of the two sides are those of the bodies, and more. *)
Lemma body_texts b : Forall clean (old_of b) -> Forall clean (new_of b) ->
  Forall (fun d => clean (dline_text d)) b.
Proof.
  rewrite !List.Forall_forall. intros Ho Hn d Hd.
  destruct d as [s | s | s]; [apply Ho | apply Ho | apply Hn];
    apply in_flat_map; eexists; (split; [exact Hd | by left]).
Qed.
Lemma render_clean o n script tail :
  Forall clean (old_file script tail) -> Forall clean (new_file script tail) ->
  Forall clean (render o n script).
Proof.
  revert o n. induction script as [|ch r IH]; intros o n Ho Hn; [constructor |].
  cbn [old_file new_file render] in *. rewrite !Forall_app in Ho, Hn.
  destruct Ho as (_ & Hob & Hor), Hn as (_ & Hnb & Hnr).
  constructor; [apply clean_header |]. apply Forall_app. split; [| by apply IH].
  apply List.Forall_map. eapply List.Forall_impl; [apply clean_show |]. by apply body_texts.
Qed.

Lemma parse_preamble hs l : startswith "@" l = false -> parse_line (hs, None) l = (hs, None).
Proof. intros Hl. unfold parse_line. by rewrite hunk_header_body. Qed.
Lemma parse_patch name script tail : clean name ->
  Forall clean (old_file script tail) -> Forall clean (new_file script tail) ->
  splitlines (patch_of name script)
    = ("--- a/" +s+ name) :: ("+++ b/" +s+ name) :: render 0 0 script /\
  _parse_unified_diff (patch_of name script) = hunks_of 0 script.
Proof.
  intros Hname Ho Hn. assert (Hs : splitlines (patch_of name script)
    = ("--- a/" +s+ name) :: ("+++ b/" +s+ name) :: render 0 0 script).
  { unfold patch_of. apply splitlines_unlines; [by left |].
    repeat constructor; try (apply clean_app; by split). exact (render_clean 0 0 script tail Ho Hn). }
  split; [exact Hs |]. unfold _parse_unified_diff. rewrite Hs. cbn [fold_left].
  rewrite !parse_preamble by done.
  change (finished (fold_left parse_line (render 0 0 script) ([], None)) = hunks_of 0 script).
  by rewrite parse_render.
Qed.

(** ** The hunks are applied where they belong *)
Lemma context_error_here i j expected rest : context_error i j (expected ++ rest) expected = None.
Proof.
  revert j. induction expected as [|e r IH]; intros j; [by destruct rest |]. simpl.
  rewrite String.eqb_refl. apply IH.
Qed.

(** One hunk, whose old lines stand after [q] *)
Lemma apply_here i offset q o n rest hs h :
  (Z.of_nat (hk_old_start h) - 1 + offset = Z.of_nat (length q))%Z ->
  hk_old_lines h = o -> hk_new_lines h = n ->
  apply_from i offset (q ++ o ++ rest) (h :: hs)
  = apply_from (S i) (offset + (Z.of_nat (length n) - Z.of_nat (length o))) (q ++ n ++ rest) hs.
Proof.
  intros Hs <- <-. cbn [apply_from]. rewrite Hs, Nat2Z.id.
  assert (Hin : ((Z.of_nat (length q) <? 0)
                 || (Z.of_nat (length (q ++ hk_old_lines h ++ rest)) <? Z.of_nat (length q)))%Z = false).
  { rewrite length_app. apply orb_false_intro; apply Z.ltb_ge; lia. }
  rewrite Hin. rewrite drop_app_length, context_error_here, take_app_length.
  do 3 f_equal. rewrite app_assoc, <- length_app. apply drop_app_length.
Qed.

Lemma apply_hunks_of script : forall i o pre tail,
  Forall (fun ch => old_of (body ch) <> []) script ->
  apply_from i (Z.of_nat (length pre) - Z.of_nat o) (pre ++ old_file script tail) (hunks_of o script)
  = inr (pre ++ new_file script tail).
Proof.
  induction script as [|[g b] r IH]; intros i o pre tail Hne; [done |].
  apply List.Forall_cons_iff in Hne as [Hb Hr].
  cbn [gap body old_file new_file hunks_of] in *. rewrite (app_assoc pre g).
  rewrite (apply_here i _ (pre ++ g) (old_of b) (new_of b)); [| | done | done].
  - rewrite !app_assoc. rewrite <- (app_assoc (pre ++ g)).
    rewrite <- (IH (S i) (o + length g + length (old_of b))%nat ((pre ++ g) ++ new_of b) tail Hr).
    f_equal; [rewrite !length_app; lia | by rewrite <- !app_assoc].
  - cbn [hunk_of hk_old_start]. destruct (old_of b); [done |]. cbn [range_start length].
    rewrite length_app. lia.
Qed.

(** ** What is not taken for a deletion *)
Lemma startswith_longer p s t : startswith p s = true -> startswith p (s +s+ t) = true.
Proof.
  revert s. induction p as [|c p IH]; [done |]. intros [|d s]; [done |]. simpl. intros [-> H]%andb_true_iff. by rewrite IH.
Qed.
Lemma not_dev_null line : startswith "+++" line = false -> is_dev_null_line line = false.
Proof.
  intros H. unfold is_dev_null_line. cbv zeta.
  destruct (startswith "+++" (rstrip_by (fun c => Ascii.eqb c "013") line)) eqn:E; [| reflexivity]. exfalso.
  destruct (rstrip_by_prefix (fun c => Ascii.eqb c "013") line) as [t Ht].
  apply (startswith_longer _ _ t) in E. rewrite <- Ht in E. congruence.
Qed.
Lemma b_not_dev_null name : is_dev_null_line ("+++ b/" +s+ name) = false.
Proof.
  unfold is_dev_null_line. destruct (rstrip_by_prefix (fun c => Ascii.eqb c "013") ("+++ b/" +s+ name)) as [t Ht].
  set (s := rstrip_by _ _) in *. clearbody s.
  cbv zeta. destruct s as [|c1 [|c2 [|c3 s]]];
    [reflexivity | injection Ht as <- _; reflexivity | injection Ht as <- <- _; reflexivity |]. injection Ht as <- <- <- Ht.
  change (startswith _ _) with true. change (drop 3 _) with s. cbn [andb].
  destruct s as [|c4 [|c5 s]]; [reflexivity | injection Ht as <- _; reflexivity |]. injection Ht as <- <- _.
  unfold strip, lstrip. change (lstrip_by is_space (String " " (String "b" s))) with (String "b" s).
  unfold rstrip. destruct (rstrip_by_prefix is_space (String "b" s)) as [b Hb].
  destruct (rstrip_by is_space (String "b" s)) as [|c r]; [done |]. by injection Hb as <- _.
Qed.

(** ** What a rendered patch does to a file *)
Lemma patched_eq nl name script tail new : line_end nl -> clean name ->
  Forall clean (old_file script tail) -> Forall clean (new_file script tail) ->
  _apply_hunks (old_file script tail) (hunks_of 0 script) = inr new -> script <> [] ->
  patched_content (unlines nl (old_file script tail)) (patch_of name script)
  = inr (rejoin (unlines nl (old_file script tail)) new).
Proof.
  intros Hnl Hname Ho Hn Ha Hne. unfold patched_content.
  destruct (parse_patch name script tail Hname Ho Hn) as [_ ->].
  rewrite splitlines_unlines by done. destruct script as [|ch r]; [done |].
  cbn [hunks_of] in *. by rewrite Ha.
Qed.

Lemma script_old_nonempty script tail : script <> [] ->
  Forall (fun ch => old_of (body ch) <> []) script -> old_file script tail <> [].
Proof.
  destruct script as [|[g b] r]; [done |]. intros _ [Hb _]%List.Forall_cons_iff.
  cbn [old_file gap body] in *. destruct g; [| done]. by destruct (old_of b).
Qed.

(** Only an added line of a rendered patch can be taken for the header of a deletion. *)
Lemma render_no_deletion o n script : (forall s, In (Add s) (flat_map body script) -> is_dev_null_line (String "+" s) = false) ->
  existsb is_dev_null_line (render o n script) = false.
Proof.
  revert o n. induction script as [|ch r IH]; intros o n Ha; [done |]. cbn [render existsb flat_map] in *.
  rewrite existsb_app, IH by (intros s Hs; apply Ha, in_or_app; by right).
  replace (is_dev_null_line (header _ _ _ _)) with false by (symmetry; apply not_dev_null; done).
  rewrite orb_false_r. cbn [orb]. apply not_true_is_false. intros (x & Hx & H)%existsb_exists.
  apply in_map_iff in Hx as (d & <- & Hd). destruct d as [s | s | s].
  - by rewrite not_dev_null in H.
  - by rewrite not_dev_null in H.
  - cbn [show] in H. rewrite Ha in H; [done |]. apply in_or_app. by left.
Qed.

(** C35: Patch round trip: a unified diff between two files, applied to the old one, is not taken
    for a deletion and gives exactly the new one, whatever the edits and the gaps between them
    are.  The lines of both files are all ended by the same line end, [\n] or [\r\n], and hold no
    other line break; each hunk has an old line; no added line reads like the header of a
    deletion ([++ /dev/null]); and the new file is not empty, nor its last line blank.  In the
    other cases the code does something else, as the theorem after this one shows. *)
Theorem patch_round_trip nl name script tail new l :
  line_end nl -> clean name ->
  Forall clean (old_file script tail) -> Forall clean (new_file script tail) ->
  script <> [] -> Forall (fun ch => old_of (body ch) <> []) script ->
  (forall s, In (Add s) (flat_map body script) -> is_dev_null_line (String "+" s) = false) ->
  new_file script tail = new ++ [l] -> l <> "" ->
  _is_deletion_patch (patch_of name script) = false /\
  patched_content (unlines nl (old_file script tail)) (patch_of name script)
  = inr (unlines nl (new_file script tail)).
Proof.
  intros Hnl Hname Ho Hn Hne Hold Hadd Hnew Hl. split.
  { unfold _is_deletion_patch. rewrite (proj1 (parse_patch name script tail Hname Ho Hn)). cbn [existsb].
    rewrite (render_no_deletion 0 0 script Hadd), not_dev_null by done. by rewrite b_not_dev_null. }
  rewrite (patched_eq nl name script tail (new_file script tail)); try done.
  - rewrite Hnew in *. rewrite rejoin_unlines; [| done | by apply script_old_nonempty | done |].
    + apply String.eqb_neq in Hl. by rewrite Hl.
    + apply Forall_app in Hn as [_ Hn]. by apply List.Forall_cons_iff in Hn as [Hn _].
  - exact (apply_hunks_of script 0 0 [] tail Hold).
Qed.

Lemma old_of_adds ins : old_of (map Add ins) = [].
Proof. by induction ins. Qed.
Lemma new_of_adds ins : new_of (map Add ins) = ins.
Proof. induction ins as [|s r IH]; [done |]. unfold new_of in *. simpl. by f_equal. Qed.

(** Where patches go wrong.  A hunk without context that only inserts lands one line early:
    lines meant for after [x] come before it.  A blank last line is dropped from any file that
    is patched.  A patch that adds a line reading [++ /dev/null] is taken for the deletion of
    the file. *)
Theorem patch_gaps nl name script tail : line_end nl -> clean name ->
  (forall a x b ins, Forall clean (a ++ [x] ++ b ++ ins) -> ins <> [] ->
     let insertion := [mkChange (a ++ [x]) (map Add ins)] in
     new_file insertion b = a ++ [x] ++ ins ++ b /\
     _apply_hunks (old_file insertion b) (_parse_unified_diff (patch_of name insertion))
     = inr (a ++ ins ++ [x] ++ b)) /\
  (Forall clean (old_file script tail) -> Forall clean (new_file script tail) ->
   (script <> [] -> Forall (fun ch => old_of (body ch) <> []) script ->
    forall new, new_file script tail = new ++ [""] -> new <> [] ->
    patched_content (unlines nl (old_file script tail)) (patch_of name script)
    = inr (unlines nl new)) /\
   (In (Add "++ /dev/null") (flat_map body script) ->
    _is_deletion_patch (patch_of name script) = true)).
Proof.
  intros Hnl Hname. split; [| intros Ho Hn; split].
  - intros a x b ins Hc Hne insertion. unfold insertion. cbn [new_file old_file gap body].
    rewrite old_of_adds, new_of_adds, <- !app_assoc. split; [done |].
    rewrite !Forall_app in Hc. destruct Hc as (Ha & Hx & Hb & Hi).
    destruct (parse_patch name [mkChange (a ++ [x]) (map Add ins)] b) as [_ ->];
      cbn [new_file old_file gap body];
      rewrite ?old_of_adds, ?new_of_adds, ?Forall_app; [done | by split_and! | by split_and! |].
    cbn [hunks_of gap body]. rewrite old_of_adds. unfold _apply_hunks.
    change ([] ++ b) with b.
    rewrite (apply_here 0 0 a [] ins ([x] ++ b)).
    + done.
    + cbn [hunk_of hk_old_start range_start length]. rewrite length_app. simpl. lia.
    + cbn [hunk_of hk_old_lines]. apply old_of_adds.
    + cbn [hunk_of hk_new_lines]. apply new_of_adds.
  - intros Hne Hold new Hnew Hnn.
    rewrite (patched_eq nl name script tail (new_file script tail)); try done.
    + rewrite Hnew in *. rewrite rejoin_unlines; [| done | by apply script_old_nonempty | done | done].
      cbn [String.eqb andb]. rewrite bool_decide_eq_false_2 by done. cbn [negb].
      f_equal. rewrite unlines_join by done. clear -Hnn.
      induction new as [|y ys IH]; [done |]. destruct ys as [|z zs]; [by simpl; rewrite append_nil_r |].
      change (join nl ((y :: z :: zs) ++ [""])) with (y +s+ nl +s+ join nl ((z :: zs) ++ [""])).
      change (join nl (y :: z :: zs)) with (y +s+ nl +s+ join nl (z :: zs)).
      by rewrite IH, !append_assoc.
    + exact (apply_hunks_of script 0 0 [] tail Hold).
  - intros Hin. unfold _is_deletion_patch.
    destruct (parse_patch name script tail Hname Ho Hn) as [-> _].
    apply existsb_exists. exists "+++ /dev/null". split; [| by_eval]. do 2 right.
    clear -Hin. assert (H : forall o n, In "+++ /dev/null" (render o n script)); [| apply H].
    induction script as [|ch r IH]; intros o n; [done |]. cbn [flat_map render] in *.
    right. apply in_or_app. apply in_app_or in Hin as [Hin | Hin]; [left | right; by apply IH].
    by apply (in_map show) in Hin.
Qed.
