(* ===== verification/WorkspaceSpec.v ===== *)
(** * What the workspace tools may touch, and what they do to it *)
From stdpp Require Import gmap.
From S2P Require Import Prelude PyStr FileSystem UnifiedDiff WorkspacePolicy WorkspaceEdit.
From S2P Require Import WorkspaceFacts.
From stdpp Require Import options.

(** ** Outcomes of a computation on the file system *)
Definition ends {A} (m : F A) (f : fs) (Q : wexn + A -> fs -> Prop) : Prop := Q (fst (m f)) (snd (m f)).
Lemma ends_let {A B} (m : F A) (k : A -> F B) (f : fs) Q :
  ends m f (fun r f1 => match r with inr a => ends (k a) f1 Q | inl e => Q (inl e) f1 end) ->
  ends (flet m k) f Q.
Proof. unfold ends, flet. by destruct (m f) as [[|] ?]. Qed.
Lemma ends_ask {A} (r : fs -> wexn + A) (f : fs) Q :
  (forall e, r f = inl e -> Q (inl e) f) -> (forall a, r f = inr a -> Q (inr a) f) -> ends (ask r) f Q.
Proof. unfold ends, ask. simpl. intros H1 H2. destruct (r f); eauto. Qed.
Lemma ends_when (b : bool) (r : fs -> wexn + unit) (f : fs) Q :
  (forall e, Q (inl e) f) -> Q (inr tt) f -> ends (if b then ask r else fret tt) f Q.
Proof. unfold ends. destruct b; simpl; [destruct (r f) as [|[]] |]; auto. Qed.
(** Runs the next check of a computation; the goal left is its success. *)
Ltac checked := apply ends_let, ends_ask; [by eauto |].

Section Spec.
Context {U : Utf8} {D : Disk}.

(** The three tools that change a file *)
Inductive ws_op : Type :=
| OpWrite (content : string) (create_parents : bool)
| OpEdit (old_string new_string : string)
| OpPatch (patch : string).
Definition forget {A} (m : F A) : F unit := m ;;f fret tt.
Definition run_op (pol : WorkspacePolicy) (project rel : string) (max_bytes : nat) (o : ws_op) : F unit :=
  match o with
  | OpWrite content create => forget (project_file_write pol project rel content max_bytes create)
  | OpEdit old new => forget (project_file_edit pol project rel old new max_bytes)
  | OpPatch patch => forget (project_apply_patch pol project rel patch max_bytes)
  end.

(** What a tool that succeeds makes of the file system, the parents of the target made *)
Definition text_at (f : fs) (full : path) (s : string) : Prop :=
  exists raw, f !! full = Some (NFile raw) /\ decode raw = Some s.
Definition effect (o : ws_op) (f : fs) (full : path) (f' : fs) : Prop :=
  match o with
  | OpWrite content _ => f' = <[full := NFile (encode content)]> f
  | OpEdit old new =>
      exists s, text_at f full s /\ contains old s = true /\ old <> "" /\
      f' = if String.eqb old new then f else <[full := NFile (encode (replace_first old new s))]> f
  | OpPatch patch =>
      exists s, text_at f full s /\
      if _is_deletion_patch patch then f' = delete full f
      else exists s', patched_content s patch = inr s' /\ f' = <[full := NFile (encode s')]> f
  end.

(** What the confirmation read is not what the file system has. *)
Definition disturbed (full : path) (f' : fs) : Prop := read_back (read_bytes f' full) <> read_bytes f' full.
(** An outcome of a tool on [f]: a refusal that changes nothing, or a checked target whose
    missing parents were made, and then an error or the effect, which may end in an error all
    the same when its confirmation was disturbed *)
Definition outcome (pol : WorkspacePolicy) (project rel : string) (root : path) (f : fs) (E : fs -> fs -> Prop)
    {A} (r : wexn + A) (f' : fs) : Prop :=
  (f' = f /\ exists e, r = inl e) \/
  (write_checked pol f project rel root /\
   exists dirs x f1, parts rel = dirs ++ [x] /\ made_dirs f f1 root dirs /\
   ((f' = f1 /\ exists e, r = inl e) \/
    (E f1 f' /\ (tree f1 -> tree f') /\
     ((exists a, r = inr a) \/ (r = inl WriteError /\ disturbed (root ++ parts rel) f'))))).
Lemma outcome_refused pol project rel root f E A (e : wexn) : outcome (A := A) pol project rel root f E (inl e) f.
Proof. left. eauto. Qed.
#[local] Hint Resolve outcome_refused : core.

Lemma preflight_ok f root rel : _symlink_safe_preflight (root ++ rel) root f = inr tt ->
  no_symlinks f root rel = inr tt.
Proof.
  unfold _symlink_safe_preflight. rewrite (proj2 (relative_to_spec (root ++ rel) root rel) eq_refl). done.
Qed.

(** Reading back the target just written *)
Lemma stat_plain f d rel x c : real_dir f (d ++ rel) -> ordinary x = true ->
  stat (<[(d ++ rel ++ [x]) := NFile c]> f) (d ++ rel ++ [x]) = inr (NFile c).
Proof.
  intros Hr Hx. rewrite app_assoc.
  assert (Hr' : real_dir (<[(d ++ rel) ++ [x] := NFile c]> f) (d ++ rel))
    by (apply real_insert; [done | rewrite (length_app _ [x]); simpl; lia]).
  rewrite real_stat; [by rewrite lookup_insert_eq | done | done |].
  by rewrite real_symlink, lookup_insert_eq.
Qed.
Lemma confirmed f d rel x content e : real_dir f (d ++ rel) -> ordinary x = true ->
  let f' := <[(d ++ rel ++ [x]) := NFile (encode content)]> f in
  _post_write_confirmation (d ++ rel ++ [x]) (Some content) false f' = inl e ->
  e = WriteError /\ disturbed (d ++ rel ++ [x]) f'.
Proof.
  intros Hr Hx f'. unfold _post_write_confirmation, disturbed, exists_, read_bytes, f'.
  rewrite (stat_plain f d rel x _ Hr Hx). cbn [andb].
  destruct (read_back (inr (encode content))) as [er | current]; [intros [= <-]; by split |].
  destruct (String.eqb_spec (sha256_of current) (sha256_of (encode content))) as [E | Hne]; [done |].
  intros [= <-]. split; [done |]. intros [= ->]. done.
Qed.
Lemma ends_atomic {A} f root dirs x bytes (k : F A) Q :
  real_dir f root -> all_ordinary (dirs ++ [x]) -> no_symlinks f root (dirs ++ [x]) = inr tt ->
  (forall e, Q (inl e) f) ->
  (real_dir f (root ++ dirs) ->
   (tree f -> tree (<[root ++ dirs ++ [x] := NFile bytes]> f)) -> ends k (<[root ++ dirs ++ [x] := NFile bytes]> f) Q) ->
  ends (_atomic_write (root ++ dirs ++ [x]) bytes ;;f k) f Q.
Proof.
  intros Hr Ho Hs He Hk. apply ends_let. unfold ends at 1.
  destruct (atomic_write_spec f root dirs x bytes Hr Ho Hs) as [(-> & Hd & Hn) | [e ->]]; simpl; [| auto].
  apply Hk; [done |]. intros Ht. rewrite app_assoc in *. apply tree_insert; [done | | done].
  by apply real_find.
Qed.

Lemma exact_read_ok f root rel max_bytes old : real_dir f root -> all_ordinary rel ->
  no_symlinks f root rel = inr tt -> _exact_read (root ++ rel) max_bytes f = inr old ->
  text_at f (root ++ rel) (fst old) /\ rel <> [].
Proof.
  intros Hr Ho Hs. unfold _exact_read, is_dir, exists_, read_bytes, stat, text_at.
  destruct (find_path f (root ++ rel)) as [|p] eqn:Ef; [done |].
  destruct (find_plain f root rel p Hr Ho Hs Ef) as [-> _].
  destruct (node_at f (root ++ rel)) as [[raw | |]|] eqn:En; simpl; try done;
    [| by destruct (check_ _ _) as [|[]]].
  destruct (check_ _ _) as [|[]]; [done |]. destruct (check_ _ _) as [|[]]; [done |].
  destruct (decode raw) eqn:Ed; [| done]. intros [= <-]. split.
  - exists raw. split; [| done]. by destruct (root ++ rel).
  - intros ->. rewrite app_nil_r in En. destruct (real_find f root Hr) as [_ Hn]. congruence.
Qed.

Lemma last_split {A} (l : list A) : l <> [] -> exists dirs x, l = dirs ++ [x].
Proof. intros H. destruct (exists_last H) as (d & x & ->). eauto. Qed.

(** An error after the checks, no parent made *)
Lemma outcome_failed pol project rel root f E {A} (e : wexn) :
  outcome (A := A) pol project rel root f E (inl e) f.
Proof. left. eauto. Qed.
Lemma outcome_done pol project rel root f f1 f' dirs x E {A} (a : A) :
  write_checked pol f project rel root -> parts rel = dirs ++ [x] -> made_dirs f f1 root dirs ->
  E f1 f' -> (tree f1 -> tree f') -> outcome pol project rel root f E (inr a) f'.
Proof. intros. right. split; [done |]. exists dirs, x, f1. eauto 10. Qed.
(** The confirmation of a write that was made *)
Lemma outcome_confirmed {A} pol project rel root f f1 dirs x content (k : post_write -> A) E :
  let full := root ++ dirs ++ [x] in let f' := <[full := NFile (encode content)]> f1 in
  write_checked pol f project rel root -> parts rel = dirs ++ [x] -> made_dirs f f1 root dirs ->
  real_dir f1 (root ++ dirs) -> ordinary x = true -> E f1 f' -> (tree f1 -> tree f') ->
  ends (post <-f ask (_post_write_confirmation full (Some content) false) ;; fret (k post)) f'
    (outcome pol project rel root f E).
Proof.
  intros full f' Hw Hdx Hm Hd Hx He Ht. apply ends_let, ends_ask.
  - intros e Hc. apply confirmed in Hc as [-> Hc]; [| done | done].
    right. split; [done |]. exists dirs, x, f1. rewrite Hdx. eauto 10.
  - intros post _. unfold ends. simpl. by eapply outcome_done.
Qed.

Lemma edit_outcome pol project rel old new max_bytes root f : real_dir f root ->
  dict_get project (_project_roots pol) = Some root ->
  ends (project_file_edit pol project rel old new max_bytes) f
    (outcome pol project rel root f (fun f1 => effect (OpEdit old new) f1 (root ++ parts rel))).
Proof.
  intros Hr Hroot. unfold project_file_edit.
  checked. intros [] Hne%check_ok. apply negb_true_iff, String.eqb_neq in Hne.
  checked. intros full (root' & Hw & -> & Hrr)%validate_write_ok.
  replace root' with root in * by (pose proof (wc_root _ _ _ _ _ Hw); congruence).
  checked. intros r2 Hr2. replace r2 with root in * by congruence.
  checked. intros [] Hs%preflight_ok. pose proof (wc_ordinary _ _ _ _ _ Hw) as Ho.
  checked. intros rd Hrd. destruct (exact_read_ok _ _ _ _ _ Hr Ho Hs Hrd) as [Ht Hp].
  destruct (last_split _ Hp) as (dirs & x & Hdx).
  checked. intros [] Hc%check_ok. destruct (String.eqb old new) eqn:Eq.
  - checked. intros post _. unfold ends. simpl.
    eapply outcome_done; [done | done | apply made_dirs_refl | | done].
    exists (fst rd). rewrite Eq. auto.
  - checked. intros [] _. rewrite Hdx in *. apply ends_atomic; [done..| auto |]. intros Hd Htree.
    assert (Hx : ordinary x = true)
      by (apply Forall_app in Ho as [_ Ho]; by apply List.Forall_inv in Ho).
    apply (outcome_confirmed _ _ _ _ _ f dirs x _ (mkEdit _ true)); [done | done | apply made_dirs_refl | done | done | | exact Htree].
    exists (fst rd). rewrite Eq. auto.
Qed.

Lemma patch_outcome pol project rel patch max_bytes root f : real_dir f root ->
  dict_get project (_project_roots pol) = Some root ->
  ends (project_apply_patch pol project rel patch max_bytes) f
    (outcome pol project rel root f (fun f1 => effect (OpPatch patch) f1 (root ++ parts rel))).
Proof.
  intros Hr Hroot. unfold project_apply_patch.
  checked. intros full (root' & Hw & -> & Hrr)%validate_write_ok.
  replace root' with root in * by (pose proof (wc_root _ _ _ _ _ Hw); congruence).
  checked. intros r2 Hr2. replace r2 with root in * by congruence.
  checked. intros [] Hs%preflight_ok. pose proof (wc_ordinary _ _ _ _ _ Hw) as Ho.
  checked. intros rd Hrd. destruct (exact_read_ok _ _ _ _ _ Hr Ho Hs Hrd) as [Ht Hp].
  destruct (last_split _ Hp) as (dirs & x & Hdx).
  destruct (_is_deletion_patch patch) eqn:Ed.
  - unfold ends, flet, look_at. simpl. destruct (unlink f (root ++ parts rel)) as [e | f'] eqn:Eu; simpl; [auto |].
    unfold put. simpl.
    unfold unlink in Eu. destruct (entry_of f (root ++ parts rel)) as [|q] eqn:Ee; [done |].
    assert (Hq : f' = delete (root ++ parts rel) f /\ f !! (root ++ parts rel) <> Some NDir).
    { rewrite Hdx in Ee, Ho, Hs |- *. destruct (parent_plain f root dirs x Hr Ho Hs q Ee) as [-> _].
      rewrite app_assoc in *. rewrite node_at_snoc in Eu.
      by destruct (f !! ((root ++ dirs) ++ [x])) as [[| |]|]; try done; injection Eu as <-. }
    destruct Hq as [-> Hn]. eapply outcome_done; [done | done | apply made_dirs_refl | |].
    + exists (fst rd). by rewrite Ed.
    + intros Htree. by apply tree_delete.
  - destruct (patched_content (fst rd) patch) as [why | s'] eqn:Ep; [unfold ends; simpl; auto |].
    checked. intros [] _. rewrite Hdx in *. apply ends_atomic; [done..| auto |]. intros Hd Htree.
    assert (Hx : ordinary x = true)
      by (apply Forall_app in Ho as [_ Ho]; by apply List.Forall_inv in Ho).
    apply (outcome_confirmed _ _ _ _ _ f dirs x _ (mkPatch _ false _)); [done | done | apply made_dirs_refl | done | done | | exact Htree].
    exists (fst rd). rewrite Ed. eauto.
Qed.

Lemma parents_made f root dirs x Q : real_dir f root -> all_ordinary dirs ->
  (forall e f1, made_dirs f f1 root dirs -> Q (inl e) f1) ->
  (forall c f1, made_dirs f f1 root dirs -> real_dir f1 root ->
     no_symlinks f1 root (dirs ++ [x]) = inr tt -> Q (inr c) f1) ->
  ends (_create_parent_directories (root ++ dirs ++ [x]) root) f Q.
Proof.
  intros Hr Ho He Hk. unfold _create_parent_directories.
  rewrite app_assoc, removelast_last, (proj2 (relative_to_spec (root ++ dirs) root dirs) eq_refl).
  apply ends_let, ends_ask; [intros e _; apply He, made_dirs_refl |]. intros [] _.
  apply ends_let. unfold ends at 1.
  destruct (make_parents root [] dirs [] f) as [r f1] eqn:Em.
  destruct (make_parents_spec root dirs [] [] f r f1) as [Hm Hd]; rewrite ?app_nil_r in *; try done.
  simpl. destruct r as [e | c]; [by apply He |]. specialize (Hd c eq_refl).
  apply ends_let, ends_ask; [intros e _; by apply He |].
  intros [] Hs. rewrite <- app_assoc in Hs. apply preflight_ok in Hs.
  apply Hk; [done | | done]. by apply real_from_app in Hd as [Hd _].
Qed.

(** The write itself, once the parents are there *)
Lemma write_tail root dirs x pol project rel content create_parents f created f1 :
  write_checked pol f project rel root -> parts rel = dirs ++ [x] -> all_ordinary (dirs ++ [x]) ->
  made_dirs f f1 root dirs -> real_dir f1 root -> no_symlinks f1 root (dirs ++ [x]) = inr tt ->
  ends (_atomic_write (root ++ dirs ++ [x]) (encode content) ;;f
        verified <-f look_at (fun f => forallb (fun rel =>
          is_dir f (root ++ parts rel) && negb (is_symlink f (root ++ parts rel))) created) ;;
        post <-f ask (_post_write_confirmation (root ++ dirs ++ [x]) (Some content) false) ;;
        fret (mkWrite (slen (encode content)) created verified post)) f1
    (outcome pol project rel root f
       (fun f1 => effect (OpWrite content create_parents) f1 (root ++ dirs ++ [x]))).
Proof.
  intros Hw Hdx Ho Hm Hr1 Hs1. apply ends_atomic; [done..| |].
  - intros e. right. split; [done |]. exists dirs, x, f1. eauto 8.
  - intros Hd Htree. apply ends_let. unfold ends at 1. simpl.
    apply Forall_app in Ho as [_ Ho]. apply List.Forall_inv in Ho.
    by apply (outcome_confirmed _ _ _ _ _ f1 dirs x _ (mkWrite _ created _)).
Qed.

Lemma write_outcome pol project rel content max_bytes create_parents root f : real_dir f root ->
  dict_get project (_project_roots pol) = Some root ->
  ends (project_file_write pol project rel content max_bytes create_parents) f
    (outcome pol project rel root f
       (fun f1 => effect (OpWrite content create_parents) f1 (root ++ parts rel))).
Proof.
  intros Hr Hroot. unfold project_file_write. apply ends_let.
  apply ends_when; [by eauto |].
  checked. intros full (root' & Hw & -> & Hrr)%validate_write_ok.
  replace root' with root in * by (pose proof (wc_root _ _ _ _ _ Hw); congruence).
  checked. intros r2 Hr2. replace r2 with root in * by congruence.
  checked. intros [] Hnd%check_ok.
  checked. intros [] Hs%preflight_ok. pose proof (wc_ordinary _ _ _ _ _ Hw) as Ho.
  assert (Hp : parts rel <> []).
  { intros Hp. rewrite Hp, app_nil_r in Hnd. by destruct (real_is_dir f root Hr) as [H1 H2]; rewrite H1, H2 in Hnd. }
  destruct (last_split _ Hp) as (dirs & x & Hdx). rewrite Hdx in *.
  checked. intros [] _. checked. intros [] _.
  assert (Hx : ordinary x = true /\ all_ordinary dirs)
    by (apply Forall_app in Ho as [Hd Ho']; apply List.Forall_inv in Ho'; auto).
  destruct Hx as [Hx Hod].
  apply ends_let. unfold ends at 1, look_at. simpl.
  destruct (exists_ f (removelast (root ++ dirs ++ [x]))).
  - apply ends_let. unfold ends at 1. simpl. apply (write_tail root dirs x); auto using made_dirs_refl.
  - destruct create_parents; [| unfold ends; simpl; auto].
    apply ends_let, (parents_made f root dirs x); [done | done | |].
    2: { intros c f1 Hm Hr1 Hs1. by apply (write_tail root dirs x). }
    intros e f1 Hm. right. split; [done |]. exists dirs, x, f1. eauto 8.
Qed.

Lemma outcome_map {A B} pol project rel root f E (r : wexn + A) (g : A -> B) f' :
  outcome pol project rel root f E r f' ->
  outcome pol project rel root f E (match r with inr a => inr (g a) | inl e => inl e end) f'.
Proof.
  intros [[-> [e ->]] | (Hw & dirs & x & f1 & Hdx & Hm & [[-> [e ->]] | (He & Ht & [[a ->] | [-> Hc]])])];
    [by apply outcome_failed | | by eapply outcome_done |];
    right; (split; [done |]); exists dirs, x, f1; eauto 10.
Qed.
Lemma ends_forget {A} (m : F A) pol project rel root f E :
  ends m f (outcome pol project rel root f E) -> ends (forget m) f (outcome pol project rel root f E).
Proof.
  unfold ends, forget, flet. intros H%(outcome_map _ _ _ _ _ _ _ (fun _ => tt)).
  by destruct (m f) as [[|] ?].
Qed.
Lemma run_outcome o pol project rel max_bytes root f : real_dir f root ->
  dict_get project (_project_roots pol) = Some root ->
  ends (run_op pol project rel max_bytes o) f
    (outcome pol project rel root f (fun f1 => effect o f1 (root ++ parts rel))).
Proof.
  intros Hr Hroot. destruct o; apply ends_forget;
    [by apply write_outcome | by apply edit_outcome | by apply patch_outcome].
Qed.
Lemma target_kept f f1 root dirs x : made_dirs f f1 root dirs ->
  f1 !! (root ++ dirs ++ [x]) = f !! (root ++ dirs ++ [x]).
Proof.
  intros H. destruct (decide (f1 !! (root ++ dirs ++ [x]) = f !! (root ++ dirs ++ [x]))) as [| Hn]; [done |].
  apply (proj1 H) in Hn as (q & y & Hd & _ & Hp & _). apply app_inv_head in Hp.
  apply (f_equal (@length _)) in Hp, Hd. rewrite !length_app in Hp, Hd. simpl in Hp. lia.
Qed.
Lemma effect_elsewhere o f full f' p : effect o f full f' -> p <> full -> f' !! p = f !! p.
Proof.
  intros H Hp. destruct o as [content create | old new | patch]; simpl in H.
  - subst. by apply lookup_insert_ne.
  - destruct H as (s & _ & _ & _ & ->). destruct (String.eqb old new); [done |].
    by apply lookup_insert_ne.
  - destruct H as (s & _ & H). destruct (_is_deletion_patch patch).
    + subst. by apply lookup_delete_ne.
    + destruct H as (s' & _ & ->). by apply lookup_insert_ne.
Qed.

(** What changed is the target, or a missing parent made. *)
Lemma run_changes o pol project rel max_bytes root f r f' :
  dict_get project (_project_roots pol) = Some root -> real_dir f root ->
  run_op pol project rel max_bytes o f = (r, f') ->
  (f' = f \/ write_checked pol f project rel root) /\
  (forall p, f' !! p <> f !! p ->
     exists q y, parts rel = q ++ y /\ q <> [] /\ p = root ++ q /\
       (y = [] \/ (f !! p = None /\ f' !! p = Some NDir))).
Proof.
  intros Hroot Hr Hrun. pose proof (run_outcome o pol project rel max_bytes root f Hr Hroot) as H.
  unfold ends in H. rewrite Hrun in H. simpl in H.
  destruct H as [[-> _] | (Hw & dirs & x & f1 & Hdx & Hm & H)]; [split; [by left | done] |].
  split; [by right |]. intros p Hp.
  destruct (decide (p = root ++ parts rel)) as [-> | Hne].
  { exists (parts rel), []. rewrite app_nil_r, Hdx. split; [done |]. split; [by destruct dirs |]. auto. }
  assert (Hf : f' !! p = f1 !! p) by (destruct H as [[-> _] | (He & _)]; [done | by eapply effect_elsewhere]).
  rewrite Hf in Hp |- *. destruct (proj1 Hm p Hp) as (q & y & Hd & Hq & Hpq & H1 & H2).
  exists q, (y ++ [x]). rewrite Hdx, Hd, <- app_assoc. auto 8.
Qed.

(** C22: A tool that writes changes nothing outside its target: whatever the outcome and
    whatever links the project holds, an entry that changed is the named file below the
    project root, or one of its parents that was missing and is now a directory; and nothing
    changes at all unless the policy grants [project:write], the requested name is not hidden
    or secret and has no [..] component. *)
Theorem write_confined o pol project rel max_bytes root f r f' :
  dict_get project (_project_roots pol) = Some root -> real_dir f root ->
  run_op pol project rel max_bytes o f = (r, f') ->
  (forall p, f' !! p <> f !! p ->
     exists q y, parts rel = q ++ y /\ q <> [] /\ p = root ++ q /\
       (y = [] \/ (f !! p = None /\ f' !! p = Some NDir))) /\
  (f' <> f ->
     mem "project:write" (_expand_scopes (_granted_scopes pol)) = true /\
     is_hidden_or_secret_path rel = false /\ all_ordinary (parts rel)).
Proof.
  intros Hroot Hr Hrun. destruct (run_changes _ _ _ _ _ _ _ _ _ Hroot Hr Hrun) as [H Hp].
  split; [exact Hp |]. intros Hne. destruct H as [-> | Hw]; [done | by destruct Hw].
Qed.

(** The lines of a patch before its first hunk *)
Fixpoint preamble (lines : list string) : list string :=
  match lines with [] => [] | l :: lines => if startswith "@@" l then [] else l :: preamble lines end.
Definition header_deletes (patch : string) : bool := existsb is_dev_null_line (preamble (splitlines patch)).
(** A text whose lines are all ended, or all but the last, by [nl] *)
Definition ended_by (nl s : string) : Prop := exists ls, Forall clean ls /\ (s = unlines nl ls \/ s = join nl ls).
Definition one_line_end (s : string) : Prop := exists nl, line_end nl /\ ended_by nl s.
(** The lines of a patched text, joined as those of the text were *)
Definition patched_text (s patch s' : string) : Prop :=
  exists nl new, line_end nl /\ ended_by nl s /\
    _apply_hunks (splitlines s) (_parse_unified_diff patch) = inr new /\
    (s' = join nl new \/ s' = join nl new +s+ nl).

Lemma line_end_told nl s : line_end nl -> ended_by nl s -> ended_by (if contains crlf s then crlf else sc newline) s.
Proof.
  intros Hnl (ls & Hc & Hs).
  assert (Hempty : s = "" -> ended_by (if contains crlf s then crlf else sc newline) s) by (intros ->; exists []; auto).
  assert (Hone : forall l, ls = [l] -> s = l -> ended_by (if contains crlf s then crlf else sc newline) s).
  { intros l -> ->. apply List.Forall_inv in Hc as Hl. rewrite no_cr_contains by by apply clean_no_cr. exists [l]. auto. }
  destruct ls as [|a [|b r]]; [destruct Hs; auto | |].
  - destruct Hs as [-> | ->]; [| by apply (Hone a)]. rewrite (contains_crlf nl [a]) by done.
    exists [a]. split; [done |]. left. by destruct Hnl as [-> | ->].
  - assert (Hnl' : contains crlf s = String.eqb nl crlf).
    { destruct Hs as [-> | ->]; [by apply contains_crlf |]. destruct Hnl as [-> | ->].
      - pose proof (contains_crlf (sc newline) (a :: b :: r) (or_introl eq_refl) ltac:(done) Hc) as H.
        rewrite unlines_join in H by done. apply not_true_is_false. intros E. apply not_false_iff_true in E. apply E.
        destruct (contains crlf (join (sc newline) (a :: b :: r))) eqn:E2; [| done].
        apply contains_spec in E2 as (x & y & Hxy). rewrite Hxy in H.
        rewrite (proj2 (contains_spec _ _)) in H; [done |]. exists x, (y +s+ sc newline). by rewrite !append_assoc.
      - apply contains_spec. exists a, (join crlf (b :: r)). done. }
    rewrite Hnl'. exists (a :: b :: r). split; [done |]. by destruct Hnl as [-> | ->].
Qed.
Lemma patched_joined s patch s' : one_line_end s -> patched_content s patch = inr s' -> patched_text s patch s'.
Proof.
  intros (nl & Hnl & Hs%line_end_told) H; [| done]. unfold patched_content in H.
  destruct (_parse_unified_diff patch) as [|h hs] eqn:Ep; [done |].
  destruct (_apply_hunks (splitlines s) (h :: hs)) as [|new] eqn:Ea; [done |]. injection H as <-.
  eexists _, new. split; [| split; [exact Hs |]].
  - unfold line_end. destruct (contains crlf s); auto.
  - rewrite Ep. split; [done |]. unfold rejoin. destruct (_ && _)%bool; auto.
Qed.

(** What a successful tool leaves at its target *)
Definition target_after (o : ws_op) (f : fs) (full : path) (f' : fs) : Prop :=
  match o with
  | OpWrite content _ => f' !! full = Some (NFile (encode content))
  | OpEdit old new =>
      exists s, text_at f full s /\ contains old s = true /\ old <> "" /\
      f' !! full = if String.eqb old new then f !! full
                   else Some (NFile (encode (replace_first old new s)))
  | OpPatch patch =>
      exists s, text_at f full s /\
      if header_deletes patch then f' !! full = None
      else exists s', patched_text s patch s' /\ f' !! full = Some (NFile (encode s'))
  end.
(** A patch is one whose header tells whether it deletes the file (no line of a hunk reads like
    such a header), for a text with one kind of line end. *)
Definition plain_op (o : ws_op) (f : fs) (full : path) : Prop :=
  match o with
  | OpPatch patch => _is_deletion_patch patch = header_deletes patch /\ forall s, text_at f full s -> one_line_end s
  | _ => True
  end.
Lemma effect_target o f f1 full f' : plain_op o f full -> f1 !! full = f !! full -> effect o f1 full f' ->
  target_after o f full f'.
Proof.
  intros Hplain Hk. destruct o as [content create | old new | patch]; simpl; unfold text_at; rewrite ?Hk.
  - intros ->. apply lookup_insert_eq.
  - intros (s & Ht & Hc & Hn & ->). exists s. split; [done |]. split; [done |]. split; [done |].
    destruct (String.eqb old new); [done | apply lookup_insert_eq].
  - intros (s & Ht & H). exists s. split; [done |]. destruct Hplain as [<- Hone]. destruct (_is_deletion_patch patch).
    + subst. apply lookup_delete_eq.
    + destruct H as (s' & Hs & ->). exists s'. split; [apply patched_joined; auto | apply lookup_insert_eq].
Qed.

(** C23: A tool that writes is all or nothing.  When it succeeds the target holds exactly the
    written text, the text with the first occurrence replaced, or the lines the hunks make of the
    text that was there, joined with its line end; or it is gone, when the header of the patch
    names /dev/null as the new side.  When the tool raises, the target is what it was before,
    the failed attempts of the atomic write included, with one exception: the confirmation that
    follows a write raises [WriteError], the new content being in place, when what it reads back
    is not what the file system has, because the disk failed or another process came between.
    For a patch this is about texts with one kind of line end, and patches no hunk line of
    which reads like that header; on others the code departs from its comments. *)
Theorem write_effect o pol project rel max_bytes root f r f' :
  dict_get project (_project_roots pol) = Some root -> real_dir f root ->
  plain_op o f (root ++ parts rel) ->
  run_op pol project rel max_bytes o f = (r, f') ->
  match r with
  | inr _ => target_after o f (root ++ parts rel) f'
  | inl e => f' !! (root ++ parts rel) = f !! (root ++ parts rel) \/
             e = WriteError /\ disturbed (root ++ parts rel) f' /\ target_after o f (root ++ parts rel) f'
  end.
Proof.
  intros Hroot Hr Hplain Hrun. pose proof (run_outcome o pol project rel max_bytes root f Hr Hroot) as H.
  unfold ends in H. rewrite Hrun in H. simpl in H.
  destruct H as [[-> [e ->]] | (Hw & dirs & x & f1 & Hdx & Hm & H)]; [by left |].
  pose proof (target_kept f f1 root dirs x Hm) as Hk. rewrite <- Hdx in Hk.
  destruct H as [[-> [e ->]] | (He & Ht & [[a ->] | [-> Hc]])]; [by left | by eapply effect_target |].
  right. split; [done |]. split; [done | by eapply effect_target].
Qed.

(** Whatever a tool that writes does and however it ends, the file system stays a tree:
    every entry lies in a directory.  In particular no directory is replaced by a file or
    removed while it has entries, and no entry is created below a file or a link. *)
Theorem tools_keep_tree o pol project rel max_bytes root f r f' :
  dict_get project (_project_roots pol) = Some root -> real_dir f root -> tree f ->
  run_op pol project rel max_bytes o f = (r, f') -> tree f'.
Proof.
  intros Hroot Hr Ht Hrun. pose proof (run_outcome o pol project rel max_bytes root f Hr Hroot) as H.
  unfold ends in H. rewrite Hrun in H. simpl in H.
  destruct H as [[-> _] | (_ & dirs & x & f1 & _ & Hm & [[-> _] | (_ & Hk & _)])]; [done | |];
    [| apply Hk]; by apply Hm.
Qed.

(** ** Reading *)

(** The lines a reader gets: those from [start_line], at most [max_lines] of them *)
Definition window (start_line max_lines : option Z) (lines : list string) : list string :=
  let s := (match start_line with Some n => Z.max 1 n - 1 | None => 0 end)%Z in
  let start := Z.to_nat (Z.min s (Z.of_nat (length lines))) in
  match max_lines with
  | Some m => firstn (Z.to_nat m) (skipn start lines)
  | None => skipn start lines
  end.
Lemma window_slice start_line max_lines lines : (match max_lines with Some m => 0 <= m | None => True end)%Z ->
  let start := match start_line with Some n => (Z.max 1 n - 1)%Z | None => 0%Z end in
  let effective_start := Z.max 0 (Z.min start (Z.of_nat (length lines))) in
  skipn (Z.to_nat effective_start)
    (match max_lines with Some m => slice_upto (effective_start + m) lines | None => lines end)
  = window start_line max_lines lines.
Proof.
  intros Hm start es. unfold window. fold start.
  assert (Hs : (0 <= start)%Z) by (unfold start; destruct start_line; lia).
  assert (He : es = Z.min start (Z.of_nat (length lines))) by lia. rewrite <- He.
  destruct max_lines as [m|]; [| done]. unfold slice_upto.
  destruct (Z.ltb_spec (es + m) 0); [lia |]. rewrite skipn_firstn_comm. f_equal. lia.
Qed.
(** Any slice from there on is a part of the lines from there on. *)
Lemma slice_part start_line (max_lines : option Z) lines :
  let start := match start_line with Some n => (Z.max 1 n - 1)%Z | None => 0%Z end in
  let effective_start := Z.max 0 (Z.min start (Z.of_nat (length lines))) in
  exists k, join (sc newline) (skipn (Z.to_nat effective_start)
    (match max_lines with Some m => slice_upto (effective_start + m) lines | None => lines end))
  = join (sc newline) (firstn k (window start_line None lines)).
Proof.
  intros start es. unfold window. fold start.
  assert (Hs : (0 <= start)%Z) by (unfold start; destruct start_line; lia).
  assert (He : es = Z.min start (Z.of_nat (length lines))) by lia. rewrite <- He.
  assert (Hk : exists k, match max_lines with Some m => slice_upto (es + m) lines | None => lines end = firstn k lines).
  { destruct max_lines as [m|]; [| exists (length lines); by rewrite firstn_all].
    unfold slice_upto. destruct (_ <? _)%Z; by eexists. }
  destruct Hk as [k ->]. exists (k - Z.to_nat es)%nat. by rewrite skipn_firstn_comm.
Qed.
Lemma validate_read_ok pol f project rel full : validate_read pol f project rel = inr full ->
  exists_ f full = true ->
  exists root, dict_get project (_project_roots pol) = Some root /\ full = root ++ parts rel /\
    mem "project:read" (_expand_scopes (_granted_scopes pol)) = true /\
    is_hidden_or_secret_path rel = false /\
    exists q, resolve f full = Some q /\ under q root = true /\
      existsb (under q) (_allowed_roots pol) = true /\ _check_system_forbidden q = inr tt.
Proof.
  unfold validate_read, _require_scope, _resolve_project_root, check_existing.
  destruct (check_ _ _) as [|[]] eqn:Es; [done |]. apply check_ok in Es.
  destruct (_check_traversal rel) as [|[]]; [done |].
  destruct (dict_get project (_project_roots pol)) as [root|]; [| done].
  destruct (check_ (exists_ f root) _) as [|[]]; [done |].
  destruct (exists_ f (root ++ parts rel)) eqn:Ee.
  2: { destruct (check_ _ _) as [|[]]; [done |]. intros [= <-]. congruence. }
  unfold _check_symlink_escape, _check_allowed_roots.
  destruct (resolve f (root ++ parts rel)) as [q|] eqn:Eq; [| done].
  destruct (check_ (under q root) _) as [|[]] eqn:Eu; [done |]. apply check_ok in Eu.
  destruct (check_ (existsb _ _) _) as [|[]] eqn:Ea; [done |]. apply check_ok in Ea.
  destruct (_check_system_forbidden q) as [|[]] eqn:Ef; [done |].
  destruct (check_ (negb _) _) as [|[]] eqn:Eh; [done |]. apply check_ok in Eh.
  intros [= <-] _. exists root. repeat (split; [done |]). split; [by apply negb_true_iff in Eh |]. eauto 8.
Qed.

(** What a read decodes of the bytes of a file: all of them when the limit allows; otherwise those
    up to the limit, or up to the last of the three places before it at which they decode *)
Definition read_up_to (max_bytes : nat) (raw text : string) (truncated : bool) : Prop :=
  if truncated
  then (max_bytes < slen raw)%nat /\ exists n, (max_bytes - 3 <= n <= max_bytes)%nat /\ decode (take n raw) = Some text /\
         forall m, (n < m <= max_bytes)%nat -> decode (take m raw) = None
  else (slen raw <= max_bytes)%nat /\ decode raw = Some text.
Lemma decode_back_spec tries : forall n raw text, (n <= slen raw)%nat -> decode_back tries (take n raw) = Some text ->
  exists k, (k <= n /\ n - k < tries)%nat /\ decode (take k raw) = Some text /\
    forall m, (k < m <= n)%nat -> decode (take m raw) = None.
Proof.
  induction tries as [|tries IH]; intros n raw text Hn; cbn [decode_back]; [done |].
  destruct (decode (take n raw)) as [c|] eqn:E.
  - intros [= ->]. exists n. split; [lia |]. split; [done |]. lia.
  - rewrite slen_take, take_of_take. replace (Nat.min (Nat.min n (slen raw) - 1) n) with (n - 1)%nat by lia.
    intros H. destruct (IH (n - 1)%nat raw text ltac:(lia) H) as (k & Hk & Hd & Hno).
    exists k. split; [lia |]. split; [done |]. intros m Hm. destruct (decide (m = n)) as [-> |]; [done | apply Hno; lia].
Qed.

(** C24: What a read returns comes from inside the workspace: the file's real path, every link
    resolved, is under the project root and under an allowed root and is none of the system's
    forbidden paths, the policy grants [project:read] and the requested name is not hidden or
    secret.  The text is that of the file: the whole of it, or, when the file is longer than
    [max_bytes] and the result says it is truncated, its beginning up to that limit, cut back by
    at most three bytes to the longest part that decodes.  What is returned are its lines from
    [start_line] on, [max_lines] of them at most when that is not negative. *)
Theorem read_confined pol project rel start_line max_lines max_bytes f rd :
  project_file_read pol project rel start_line max_lines max_bytes f = inr rd ->
  exists root q raw text,
    dict_get project (_project_roots pol) = Some root /\
    resolve f (root ++ parts rel) = Some q /\ node_at f q = Some (NFile raw) /\
    (exists below, q = root ++ below) /\
    existsb (under q) (_allowed_roots pol) = true /\ _check_system_forbidden q = inr tt /\
    mem "project:read" (_expand_scopes (_granted_scopes pol)) = true /\
    is_hidden_or_secret_path rel = false /\
    rd_size rd = slen raw /\ read_up_to max_bytes raw text (rd_truncated rd) /\
    (exists k, rd_content rd = join (sc newline) (firstn k (window start_line None (splitlines text)))) /\
    (match max_lines with Some m => 0 <= m | None => True end ->
     rd_content rd = join (sc newline) (window start_line max_lines (splitlines text)))%Z.
Proof.
  unfold project_file_read. destruct (validate_read pol f project rel) as [|full] eqn:Ev; [done |].
  destruct (check_ (exists_ f full) _) as [|[]] eqn:Ee; [done |]. apply check_ok in Ee.
  destruct (check_ _ _) as [|[]]; [done |]. destruct (check_ _ _) as [|[]]; [done |].
  destruct (validate_read_ok _ _ _ _ _ Ev Ee) as
    (root & Hroot & -> & Hsc & Hh & q & Hq & Hu & Ha & Hf).
  unfold read_bytes, stat. destruct (find_path f (root ++ parts rel)) as [|p] eqn:Ep; [done |].
  pose proof (walk_realpath _ _ _ _ _ Ep) as Hp. unfold resolve in Hq.
  replace p with q in * by congruence. clear Hp.
  destruct (node_at f q) as [[raw | |]|] eqn:En; try done.
  set (trunc := (max_bytes <? slen raw)%nat).
  destruct (if trunc then _ else _) as [text|] eqn:Et; [| done]. intros [= <-].
  unfold under in Hu. destruct (relative_to q root) as [below|] eqn:Er; [| done].
  apply relative_to_spec in Er. exists root, q, raw, text.
  split; [done |]. split; [done |]. split; [done |]. split; [by exists below |].
  repeat (split; [done |]). split; [| split].
  - simpl. unfold read_up_to. destruct trunc eqn:Ht; unfold trunc in Ht.
    + apply Nat.ltb_lt in Ht. split; [done |].
      destruct (decode_back_spec 4 max_bytes raw text ltac:(lia) Et) as (k & ? & ? & ?). exists k. split; [lia | done].
    + apply Nat.ltb_ge in Ht. split; [done |]. by rewrite take_all in Et.
  - simpl. apply slice_part.
  - simpl. intros Hm. f_equal. by apply window_slice.
Qed.
End Spec.

(** The hidden and secret names are looked for in the requested name only: a link inside the
    project lets a secret file be read under another name. *)
#[local] Instance ascii_text : Utf8 := {| encode := id; decode := Some; decode_encode _ := eq_refl |}.
Definition linked_fs : fs :=
  <[["srv"] := NDir]> (<[["srv"; ".env"] := NFile "TOKEN=1"]>
    (<[["srv"; "notes.txt"] := NLink ".env"]> ∅)).
Definition linked_policy : WorkspacePolicy := mkPolicy [("p", ["srv"])] [["srv"]] ["project:read"].
Example link_to_secret_is_read :
  project_file_read linked_policy "p" ".env" None None 100 linked_fs = inl HiddenPathError /\
  project_file_read linked_policy "p" "notes.txt" None None 100 linked_fs
  = inr (mkRead 7 "TOKEN=1" 1 1 false).
Proof. split; vm_compute; reflexivity. Qed.
