(* ===== verification/AssetSpec.v ===== *)
(** * What publishing an asset does, and what the transfer store promises *)
From stdpp Require Import gmap.
From S2P Require Import Prelude PyStr Digests FileSystem UnifiedDiff WorkspacePolicy WorkspaceEdit.
From S2P Require Import WorkspaceFacts WorkspaceSpec Assets.
From stdpp Require Import options.

#[local] Open Scope Z_scope.

(** ** What a client sends is taken as it is *)
Lemma all_of_join (p : ascii -> bool) l : Forall (fun s => all_of p s = true) l -> all_of p (join "" l) = true.
Proof.
  induction 1 as [|s l Hs _ IH]; [done |]. destruct l as [|t l]; [done |].
  change (join "" (s :: t :: l)) with (s +s+ "" +s+ join "" (t :: l)). by rewrite !all_of_app, Hs, IH.
Qed.
Lemma hex_digit_lower x : 0 <= x < 16 -> is_lower_hex (hex_digit x) = true.
Proof.
  intros Hx. exact (below_spec 16 (fun x => is_lower_hex (hex_digit x)) x eq_refl ltac:(lia)).
Qed.
Lemma hex_byte_lower x : 0 <= x < 256 -> all_of is_lower_hex (hex_byte x) = true.
Proof.
  intros Hx. unfold hex_byte. cbn [all_of sc]. rewrite !hex_digit_lower; [done | |].
  - change 15 with (Z.ones 4). rewrite Z.land_ones by lia. pose proof (Z.mod_pos_bound x (2 ^ 4)). lia.
  - rewrite Z.shiftr_div_pow2 by lia. change (2 ^ 4) with 16.
    split; [apply Z.div_pos; lia | apply Z.div_lt_upper_bound; lia].
Qed.
Lemma be_bytes_range n x : Forall (fun b => 0 <= b < 256) (be_bytes n x).
Proof.
  induction n as [|n IH]; cbn [be_bytes]; [constructor |]. constructor; [| done].
  change 255 with (Z.ones 8). rewrite Z.land_ones by lia. apply Z.mod_pos_bound. lia.
Qed.
Lemma hexdigest_text s : sha256_text (hexdigest s) = true.
Proof.
  unfold sha256_text. rewrite hexdigest_length. cbn [Nat.eqb andb]. unfold hexdigest. apply all_of_join, List.Forall_map, List.Forall_forall.
  intros w _. apply all_of_join, List.Forall_map. eapply List.Forall_impl; [| apply be_bytes_range]. apply hex_byte_lower.
Qed.

Lemma srev_snoc s c : srev (s +s+ String c "") = String c (srev s).
Proof. rewrite srev_append. reflexivity. Qed.
Lemma sextet_b64 v : 0 <= v < 64 -> is_b64 (b64_char v) = true.
Proof. intros Hv. unfold is_b64. by rewrite (proj1 (sextet_ok v Hv)). Qed.
Lemma splits_range k m a n : splits k m a n = true -> 0 <= Z.lor (Z.shiftl (Z.land a (Z.ones k)) m) n < 64.
Proof. unfold splits. rewrite !andb_true_iff. lia. Qed.
Lemma b64_first a : is_b64 (b64_char (Z.shiftr (byte_of a) 2)) = true.
Proof. apply sextet_b64, high_bits; [apply byte_range | lia | lia]. Qed.
Lemma b64_second a b : 0 <= b < 256 -> is_b64 (b64_char (quad2 (byte_of a) b)) = true.
Proof.
  intros Hb. apply sextet_b64, (splits_range 2 4), split2; [apply byte_range | apply high_bits; lia].
Qed.
Lemma b64_middle b c : 0 <= c < 256 -> is_b64 (b64_char (quad3 (byte_of b) c)) = true.
Proof.
  intros Hc. apply sextet_b64, (splits_range 4 2), split4; [apply byte_range | apply high_bits; lia].
Qed.
Lemma b64_last c : is_b64 (b64_char (Z.land (byte_of c) 63)) = true.
Proof. apply sextet_b64. change 63 with (Z.ones 6). rewrite Z.land_ones by lia. apply Z.mod_pos_bound. lia. Qed.

(** The text of base64: characters of the alphabet, then what pads the last group *)
Lemma b64_shape s : exists body pads, b64encode s = body +s+ pads /\ all_of is_b64 body = true /\ In pads [""; "="; "=="].
Proof.
  revert s. fix IH 1. intros [|a [|b [|c r]]]; cbn [b64encode].
  - exists "", "". split; [done |]. split; [done | by left].
  - exists (String (b64_char (Z.shiftr (byte_of a) 2)) (String (b64_char (quad2 (byte_of a) 0)) "")), "==".
    cbn [all_of append]. rewrite b64_first, b64_second by lia. split; [done |]. split; [done | simpl; tauto].
  - exists (String (b64_char (Z.shiftr (byte_of a) 2)) (String (b64_char (quad2 (byte_of a) (byte_of b)))
      (String (b64_char (quad3 (byte_of b) 0)) ""))), "=".
    cbn [all_of append]. rewrite b64_first, b64_second, b64_middle by (apply byte_range || lia). split; [done |]. split; [done | simpl; tauto].
  - destruct (IH r) as (body & pads & -> & Hb & Hp).
    exists (String (b64_char (Z.shiftr (byte_of a) 2)) (String (b64_char (quad2 (byte_of a) (byte_of b)))
      (String (b64_char (quad3 (byte_of b) (byte_of c))) (String (b64_char (Z.land (byte_of c) 63)) body)))), pads.
    split; [done |]. split; [| done]. cbn [all_of].
    by rewrite b64_first, b64_second, b64_middle, b64_last, Hb by apply byte_range.
Qed.
Lemma b64_length s : slen (b64encode s) = (4 * ((slen s + 2) / 3))%nat.
Proof.
  revert s. fix IH 1. intros [|a [|b [|c r]]]; cbn [b64encode]; [done..|].
  unfold slen in *. cbn [String.length]. rewrite IH. replace (S (S (S (String.length r))) + 2)%nat with (String.length r + 2 + 1 * 3)%nat by lia.
  rewrite Nat.div_add by lia. lia.
Qed.
Lemma b64_body_shape body pads : all_of is_b64 body = true -> In pads [""; "="; "=="] -> b64_body (body +s+ pads) = body.
Proof.
  intros Hb Hp. assert (Hr : forall t, startswith (String "=" t) (srev body) = false).
  { intros t. rewrite <- all_of_srev in Hb. destruct (srev body) as [|c r]; [done |]. cbn [all_of startswith] in *.
    destruct (Ascii.eqb_spec "=" c); [by subst c | done]. }
  unfold b64_body, endswith. rewrite !srev_append, !slen_app. change (srev "==") with "==". change (srev "=") with "=".
  destruct Hp as [<- | [<- | [<- | []]]].
  - rewrite append_nil_r. change (srev "" +s+ srev body) with (srev body). by rewrite !Hr.
  - change (srev "=" +s+ srev body) with (String "=" (srev body)).
    change (startswith "==" (String "=" (srev body))) with (startswith "=" (srev body)).
    change (startswith "=" (String "=" (srev body))) with true. rewrite Hr. replace (slen body + slen "=" - 1)%nat with (slen body) by (cbn; lia).
    by rewrite take_app_len.
  - change (srev "==" +s+ srev body) with (String "=" (String "=" (srev body))).
    change (startswith "==" (String "=" (String "=" (srev body)))) with true. replace (slen body + slen "==" - 2)%nat with (slen body) by (cbn; lia).
    by rewrite take_app_len.
Qed.
Lemma strict_round_trip s : b64decode_strict (b64encode s) = Some s.
Proof.
  unfold b64decode_strict. rewrite b64_length, Nat.mul_comm, Nat.Div0.mod_mul. cbn [Nat.eqb andb].
  destruct (b64_shape s) as (body & pads & E & Hb & Hp). rewrite E, b64_body_shape, Hb by done. rewrite <- E. apply b64_round_trip.
Qed.
Lemma chunk_taken offset chunk : 0 <= offset -> 1 <= len chunk <= CHUNK_BYTES ->
  chunk_bytes offset (b64encode chunk) (hexdigest chunk) = inr chunk.
Proof.
  intros Ho Hlen. unfold chunk_bytes. rewrite (proj2 (Z.leb_le 0 offset) Ho). cbn [check_].
  assert (Hb : 1 <= len (b64encode chunk) <= _MAX_BASE64_CHARS).
  { unfold len in *. rewrite b64_length, Nat2Z.inj_mul, Nat2Z.inj_div, Nat2Z.inj_add. unfold CHUNK_BYTES in Hlen.
    change _MAX_BASE64_CHARS with 87384. change (Z.of_nat 4) with 4. change (Z.of_nat 3) with 3. change (Z.of_nat 2) with 2.
    pose proof (Z.div_le_mono (Z.of_nat (slen chunk) + 2) (65536 + 2) 3).
    pose proof (Z.div_le_mono 3 (Z.of_nat (slen chunk) + 2) 3). change ((65536 + 2) / 3) with 21846 in *. change (3 / 3) with 1 in *. lia. }
  rewrite (proj2 (andb_true_iff _ _)) by (rewrite !Z.leb_le; lia). cbn [check_].
  rewrite hexdigest_text, strict_round_trip. cbn [check_]. rewrite (proj2 (Z.leb_le (len chunk) _)) by lia.
  destruct chunk as [|c chunk]; [unfold len in Hlen; cbn in Hlen; lia |]. cbn [String.eqb negb andb check_]. by rewrite String.eqb_refl.
Qed.

(** ** Publishing *)
Section Publishing.
Context {U : Utf8} {D : Disk}.

Lemma no_symlinks_real f d rel : real_dir f (d ++ rel) -> no_symlinks f d rel = inr tt.
Proof.
  revert d. induction rel as [|x rel IH]; intros d Hr; [done |]. cbn [no_symlinks].
  rewrite cons_middle, app_assoc in Hr. pose proof Hr as [[Hd Hx]%real_snoc _]%real_from_app.
  rewrite real_symlink by done. destruct Hx as [_ ->]. by apply IH.
Qed.
Lemma write_implies_read scopes : mem "project:write" (_expand_scopes scopes) = true ->
  mem "project:read" (_expand_scopes scopes) = true.
Proof.
  unfold _expand_scopes. intros H%mem_In. apply mem_In. apply in_app_iff in H as [H | H]; apply in_app_iff; right.
  - apply in_flat_map. exists "project:write". split; [done | by left].
  - apply in_flat_map in H as (s & Hs & Hw). apply in_flat_map. exists s. split; [done |].
    unfold SCOPE_IMPLIES in *. cbn [dict_get] in *.
    repeat (destruct (String.eqb s _); [simpl in *; tauto |]). done.
Qed.

(** What [inspect_asset] needs of the project, besides the file itself *)
Definition readable_project (pol : WorkspacePolicy) (root : path) (rel : string) : Prop :=
  existsb (under root) (_allowed_roots pol) = true /\ _check_system_forbidden (root ++ parts rel) = inr tt.
Definition full_path (root : path) (rel : string) : path := root ++ parts rel.

Lemma under_app root rel a : under root a = true -> under (root ++ rel) a = true.
Proof.
  unfold under. destruct (relative_to root a) as [r|] eqn:E; [| done]. intros _.
  apply relative_to_spec in E. subst root. by rewrite <- app_assoc, (proj2 (relative_to_spec _ _ _) eq_refl).
Qed.
Lemma stat_file f d x c : real_dir f d -> ordinary x = true -> f !! (d ++ [x]) = Some (NFile c) ->
  stat f (d ++ [x]) = inr (NFile c) /\ is_symlink f (d ++ [x]) = false.
Proof.
  intros Hd Hx Hf. assert (Hs : is_symlink f (d ++ [x]) = false) by (by rewrite real_symlink, Hf).
  split; [| done]. by rewrite real_stat, Hf.
Qed.
Lemma resolve_file f d x c : real_dir f d -> ordinary x = true -> f !! (d ++ [x]) = Some (NFile c) ->
  resolve f (d ++ [x]) = Some (d ++ [x]).
Proof.
  intros Hd Hx Hf. apply walk_realpath. destruct (real_walk f MAXSYMLINKS d [x] Hd) as [-> Hn].
  rewrite walk_step by done. rewrite Hf. apply walk_nil.
Qed.

(** What a target accepted for writing was checked for *)
Record asset_target (pol : WorkspacePolicy) (project rel : string) (root : path) : Prop := {
  at_candidate : startswith "candidate-" project = true;
  at_approved : approved_path rel = true;
  at_root : dict_get project (_project_roots pol) = Some root;
  at_scope : mem "project:write" (_expand_scopes (_granted_scopes pol)) = true;
  at_traversal : _check_traversal rel = inr tt;
  at_ordinary : all_ordinary (parts rel);
  at_visible : is_hidden_or_secret_path rel = false
}.
Lemma approved_split rel : approved_path rel = true -> exists dirs x, parts rel = dirs ++ [x].
Proof.
  intros H. apply last_split. intros Hp. unfold approved_path, path_parts in H. rewrite Hp in H.
  by destruct (startswith "/" rel).
Qed.
Lemma candidate_write pol project rel root f p : dict_get project (_project_roots pol) = Some root ->
  _candidate_path pol project rel true f = inr p ->
  asset_target pol project rel root /\ p = full_path root rel /\ no_symlinks f root (parts rel) = inr tt /\
  _resolve_project_root pol f project = inr root.
Proof.
  intros Hroot. unfold _candidate_path. destruct (check_ (startswith _ _) _) as [|[]] eqn:Ec; [done |].
  destruct (check_ (approved_path rel) _) as [|[]] eqn:Ea; [done |].
  destruct (_resolve_project_root pol f project) as [|root'] eqn:Er; [done |].
  destruct (validate_write pol f project rel) as [|q] eqn:Ew; [done |].
  destruct (_symlink_safe_preflight q root' f) as [|[]] eqn:Ep; [done |]. intros [= <-].
  assert (Ht : _check_traversal rel = inr tt).
  { unfold validate_write in Ew. destruct (_require_scope _ _) as [|[]]; [done |].
    by destruct (_check_traversal rel) as [|[]]. }
  apply validate_write_ok in Ew as (root2 & [H1 H2 H3 H4] & -> & H5).
  assert (root2 = root) as -> by congruence. assert (root' = root) as -> by congruence.
  apply check_ok in Ec, Ea. split; [by split |]. split; [done |]. split; [by apply preflight_ok in Ep | done].
Qed.

(** A file at the target is read back as it is. *)
Lemma inspect_there pol project rel root dirs x f data : asset_target pol project rel root ->
  readable_project pol root rel -> parts rel = dirs ++ [x] -> real_dir f root -> real_dir f (root ++ dirs) ->
  f !! full_path root rel = Some (NFile data) -> len data <= MAX_ASSET_BYTES ->
  _candidate_path pol project rel false f = inr (full_path root rel) /\
  read_bytes f (full_path root rel) = inr data /\
  inspect_asset pol project rel f = inr (describe project rel data).
Proof.
  intros [Hc Ha Hroot Hs Ht Ho Hv] [Hall Hsys] Hdx Hr Hd Hf Hlen. unfold full_path in *. rewrite Hdx in *.
  assert (Hx : ordinary x = true) by (apply Forall_app in Ho as [_ Ho]; by apply List.Forall_inv in Ho).
  rewrite app_assoc in *. destruct (stat_file f _ x data Hd Hx Hf) as [Hst Hl].
  assert (Hex : exists_ f ((root ++ dirs) ++ [x]) = true) by (unfold exists_; by rewrite Hst).
  assert (Hroot' : _resolve_project_root pol f project = inr root).
  { unfold _resolve_project_root. rewrite Hroot. by rewrite (proj2 (real_is_dir f root Hr)). }
  assert (Hread : validate_read pol f project rel = inr ((root ++ dirs) ++ [x])).
  { unfold validate_read, _require_scope. rewrite write_implies_read by done. cbn [check_]. rewrite Ht, Hroot', Hdx, app_assoc.
    unfold check_existing. rewrite Hex. unfold _check_symlink_escape. rewrite (resolve_file f _ x data Hd Hx Hf).
    unfold under. rewrite <- app_assoc, (proj2 (relative_to_spec _ _ _) eq_refl). cbn [check_].
    unfold _check_allowed_roots. replace (existsb (under (root ++ dirs ++ [x])) (_allowed_roots pol)) with true.
    - cbn [check_]. rewrite app_assoc, Hsys, Hv. by rewrite andb_false_r.
    - symmetry. apply existsb_exists in Hall as (a & Hin & Ha'). apply existsb_exists. exists a.
      split; [done | by apply under_app]. }
  assert (Hcand : _candidate_path pol project rel false f = inr ((root ++ dirs) ++ [x])).
  { unfold _candidate_path. rewrite Hc, Ha. cbn [check_]. rewrite Hroot', Hread. unfold _symlink_safe_preflight.
    rewrite <- app_assoc, (proj2 (relative_to_spec _ _ _) eq_refl).
    assert (no_symlinks f root (dirs ++ [x]) = inr tt) as ->; [| done].
    assert (Happ : forall l, no_symlinks f root (dirs ++ l) = no_symlinks f (root ++ dirs) l).
    { clear -Hd. revert root Hd. induction dirs as [|y dirs IH]; intros root Hd l; [by rewrite app_nil_r |].
      cbn [app no_symlinks]. pose proof Hd as Hd'. rewrite cons_middle, app_assoc in Hd'.
      pose proof Hd' as [[H1 H2]%real_snoc _]%real_from_app. rewrite real_symlink by done.
      destruct H2 as [_ ->]. rewrite IH by done. by rewrite <- app_assoc. }
    rewrite Happ. cbn [no_symlinks]. by rewrite Hl. }
  assert (Hb : read_bytes f ((root ++ dirs) ++ [x]) = inr data) by (unfold read_bytes; by rewrite Hst).
  split; [done |]. split; [done |]. unfold inspect_asset. rewrite Hcand. unfold is_file. rewrite Hst, Hl. cbn [negb andb check_].
  rewrite Hb. by rewrite (proj2 (Z.leb_le _ _) Hlen).
Qed.

(** *** The outcome of a publication *)
(** The lease was on what stood at the target. *)
Definition lease_on (f : fs) (full : path) (previous replaced : option string) : Prop :=
  replaced = previous /\
  match previous with
  | None => f !! full = None
  | Some h => exists old, f !! full = Some (NFile old) /\ hexdigest old = h
  end.
Definition publishable (project rel data sha : string) : Prop :=
  startswith "candidate-" project = true /\ approved_path rel = true /\
  _asset_kind data (lower (suffix rel)) = true /\ hexdigest data = sha /\ 1 <= len data <= MAX_ASSET_BYTES.
(** The file at the target, as the tools read it *)
Definition readable (pol : WorkspacePolicy) (project rel data : string) (root : path) (f : fs) : Prop :=
  _candidate_path pol project rel false f = inr (full_path root rel) /\
  read_bytes f (full_path root rel) = inr data /\
  inspect_asset pol project rel f = inr (describe project rel data).
Definition published (pol : WorkspacePolicy) (project rel data sha : string) (previous : option string) (root : path)
    (f : fs) (r : wexn + asset_meta * option string) (f' : fs) : Prop :=
  exists dirs x f1, parts rel = dirs ++ [x] /\ made_dirs f f1 root dirs /\
  match r with
  | inl _ => f' = f1
  | inr (meta, replaced) =>
      f' = <[full_path root rel := NFile data]> f1 /\ publishable project rel data sha /\
      meta = describe project rel data /\ lease_on f1 (full_path root rel) previous replaced /\
      readable pol project rel data root f'
  end.

Lemma check_asset_ok data sha previous : check_asset data sha previous = inr tt ->
  hexdigest data = sha /\ 1 <= len data <= MAX_ASSET_BYTES.
Proof.
  unfold check_asset. intros H. do 4 (destruct (check_ _ _) as [|[]] eqn:?E in H; [done |]). apply check_ok in E1, E2, H.
  apply negb_true_iff, String.eqb_neq in E1. apply String.eqb_eq in H. split; [done |].
  apply Z.leb_le in E2. split; [| done]. destruct data as [|c data]; [done |]. unfold len. change (slen (String c data)) with (S (slen data)). lia.
Qed.
(** Reading the target before the lease is compared *)
Lemma target_now f root dirs x old_sha previous : real_dir f root -> all_ordinary (dirs ++ [x]) ->
  no_symlinks f root (dirs ++ [x]) = inr tt -> is_dir f (root ++ dirs) = true ->
  let full := root ++ dirs ++ [x] in
  negb (exists_ f full) || is_file f full = true ->
  (if exists_ f full then match _file_sha256 f full with inl e => inl e | inr h => inr (Some h) end else inr None)
    = inr old_sha ->
  lease_held previous old_sha = inr tt -> lease_on f full previous old_sha.
Proof.
  intros Hr Ho Hs Hdir full. subst full. apply Forall_app in Ho as [Hod Hx]. apply List.Forall_inv in Hx.
  assert (Hd : real_dir f (root ++ dirs)).
  { unfold is_dir, stat in Hdir. pose proof (no_symlinks_app _ _ _ _ Hs) as Hs'.
    destruct (find_path f (root ++ dirs)) as [|q] eqn:Ef; [done |]. destruct (find_plain f root dirs q Hr Hod Hs' Ef) as [-> Hq].
    apply Hq. by destruct (node_at f (root ++ dirs)) as [[| |]|]. }
  rewrite app_assoc. assert (Hl : is_symlink f ((root ++ dirs) ++ [x]) = false).
  { clear -Hs. revert root Hs. induction dirs as [|y dirs IH]; intros root Hs; cbn [app no_symlinks] in Hs.
    - rewrite app_nil_r. by destruct (is_symlink f (root ++ [x])).
    - destruct (is_symlink f (root ++ [y])); [done |]. specialize (IH _ Hs). by rewrite (cons_middle y root dirs), app_assoc. }
  unfold exists_, is_file, _file_sha256, read_bytes. rewrite real_stat by done.
  destruct (f !! ((root ++ dirs) ++ [x])) as [[old| |]|] eqn:E; cbn [negb orb]; intros Hf Hh Hlease; try done.
  - injection Hh as <-. unfold lease_held in Hlease. destruct previous as [h|]; [| done].
    apply check_ok, bool_decide_eq_true in Hlease. split; [done |]. exists old. split; [done |]. by injection Hlease.
  - injection Hh as <-. unfold lease_held in Hlease. destruct previous as [h|]; [done | done].
Qed.

Lemma ends_weaken {A} (m : F A) f Q Q' : ends m f Q -> (forall r f', Q r f' -> Q' r f') -> ends m f Q'.
Proof. unfold ends. auto. Qed.
(** The part under the lock, in a tree where the parents have been made *)
Lemma locked_outcome pol project rel data sha previous root f f1 dirs x :
  asset_target pol project rel root -> readable_project pol root rel -> parts rel = dirs ++ [x] ->
  _asset_kind data (lower (suffix rel)) = true -> hexdigest data = sha -> 1 <= len data <= MAX_ASSET_BYTES ->
  made_dirs f f1 root dirs -> real_dir f1 root -> no_symlinks f1 root (dirs ++ [x]) = inr tt ->
  ends (publish_locked pol project rel data previous (root ++ dirs ++ [x]) root) f1
    (published pol project rel data sha previous root f).
Proof.
  intros Ht Hread Hdx Hkind Hsha Hlen Hm Hr Hs. unfold publish_locked.
  pose proof (at_ordinary _ _ _ _ Ht) as Ho. rewrite Hdx in Ho.
  assert (Hfail : forall e : wexn, published pol project rel data sha previous root f (inl e) f1) by (intros e; exists dirs, x, f1; auto).
  replace (removelast (root ++ dirs ++ [x])) with (root ++ dirs) by (by rewrite app_assoc, removelast_last).
  checked. intros [] Hdir%check_ok. checked. intros [] _. checked. intros [] Hreg%check_ok.
  checked. intros old_sha Hold. checked. intros [] Hlease.
  pose proof (target_now f1 root dirs x old_sha previous Hr Ho Hs Hdir Hreg Hold Hlease) as Hon.
  apply ends_atomic; [done..| auto |]. intros Hd _.
  assert (Hlt : forall l : path, (length l <= length (root ++ dirs) -> length l < length (root ++ dirs ++ [x]))%nat)
    by (intros l; rewrite !length_app; simpl; lia).
  assert (Hthere : readable pol project rel data root (<[root ++ dirs ++ [x] := NFile data]> f1)).
  { apply (inspect_there pol project rel root dirs x);
      [done | done | done | apply real_insert; [done | apply Hlt; rewrite length_app; lia] | apply real_insert; [done | by apply Hlt]
      | unfold full_path; rewrite Hdx; apply lookup_insert_eq | lia]. }
  pose proof Hthere as (_ & _ & Hi). apply ends_let, ends_ask; [congruence |]. intros meta Hmeta. assert (meta = describe project rel data) as -> by congruence.
  apply ends_let, ends_ask; [intros e He; cbn [am_sha256 describe] in He; by rewrite String.eqb_refl in He |].
  intros [] _. exists dirs, x, f1. unfold full_path. rewrite Hdx. split; [done |]. split; [done |]. split; [done |].
  split; [| split; [done |]; split; [done | exact Hthere]]. split; [apply Ht |]. split; [apply Ht |]. split; [done |]. by split.
Qed.
Lemma publish_outcome pol project rel data sha previous create root f :
  dict_get project (_project_roots pol) = Some root -> real_dir f root -> readable_project pol root rel ->
  ends (publish_asset pol project rel data sha previous create) f
    (fun r f' => (f' = f /\ exists e, r = inl e) \/ published pol project rel data sha previous root f r f').
Proof.
  intros Hroot Hr Hread. unfold publish_asset.
  checked. intros [] [Hsha Hlen]%check_asset_ok.
  checked. intros p (Ht & -> & Hs & Hrr)%(candidate_write _ _ _ root); [| done].
  checked. intros [] Hkind%check_ok.
  checked. intros [] _. checked. intros r2 Hr2. replace r2 with root in * by congruence. clear Hr2.
  destruct (approved_split rel (at_approved _ _ _ _ Ht)) as (dirs & x & Hdx). unfold full_path. rewrite Hdx in *.
  pose proof (at_ordinary _ _ _ _ Ht) as Ho. rewrite Hdx in Ho. pose proof Ho as [Hod _]%Forall_app.
  assert (Htail : forall f1, made_dirs f f1 root dirs -> real_dir f1 root -> no_symlinks f1 root (dirs ++ [x]) = inr tt ->
    ends (publish_locked pol project rel data previous (root ++ dirs ++ [x]) root) f1
      (published pol project rel data sha previous root f)) by (intros; by apply locked_outcome).
  assert (Hfail : forall (e : wexn) f1, made_dirs f f1 root dirs -> published pol project rel data sha previous root f (inl e) f1)
    by (intros e f1 Hm; exists dirs, x, f1; auto).
  apply ends_let. unfold ends at 1, look_at. cbn [fst snd].
  destruct (exists_ f (removelast _)); [| destruct create].
  - apply ends_let. unfold ends at 1, fret. cbn [fst snd]. checked. intros [] _. checked. intros [] _.
    eapply ends_weaken; [apply Htail; [apply made_dirs_refl | done | done] | by right].
  - apply ends_let, (parents_made f root dirs x); [done | done | by eauto |]. intros c f1 Hm Hr1 Hs1.
    checked. intros [] _. checked. intros [] _. eapply ends_weaken; [by apply Htail | by right].
  - unfold ends; simpl; eauto.
Qed.

(** C25: Publishing an asset, in a project the tools can read.  Whatever it answers, the only change
    besides the target is that missing parents of the target may have been made.  A refusal leaves
    the target as it was.  A success means that the project is a candidate workspace, the path
    an approved one, the data of a kind its suffix allows, of one byte to eight mebibytes and of
    the declared digest; that the lease held on what stood there (nothing without a previous
    digest, the file of that digest with one); and that the target then holds exactly the data,
    which is what an inspection now answers. *)
Theorem asset_published pol project rel data sha previous create root f :
  dict_get project (_project_roots pol) = Some root -> real_dir f root -> readable_project pol root rel ->
  let (r, f') := publish_asset pol project rel data sha previous create f in
  exists dirs f1, dirs `prefix_of` parts rel /\ made_dirs f f1 root dirs /\
  match r with
  | inl _ => f' = f1
  | inr (meta, replaced) =>
      f' = <[full_path root rel := NFile data]> f1 /\ publishable project rel data sha /\
      lease_on f1 (full_path root rel) previous replaced /\
      meta = describe project rel data /\ inspect_asset pol project rel f' = inr meta
  end.
Proof.
  intros Hroot Hr Hread. pose proof (publish_outcome pol project rel data sha previous create root f Hroot Hr Hread) as H.
  unfold ends in H. destruct (publish_asset _ _ _ _ _ _ _ f) as [r f']. cbn [fst snd] in H.
  destruct H as [[-> [e ->]] | (dirs & x & f1 & Hdx & Hm & H)].
  - exists [], f. split; [apply prefix_nil |]. split; [apply made_dirs_refl | done].
  - exists dirs, f1. split; [exists [x]; done |]. split; [done |]. destruct r as [e|[meta replaced]]; [done |].
    destruct H as (-> & Hp & -> & Hl & _ & _ & Hi). by repeat (split; [done |]).
Qed.

(** *** Reading it back *)
(** A client that reads pieces, each from where the last ended, until one is the end *)
Fixpoint download (fuel : nat) (pol : WorkspacePolicy) (project rel sha : string) (offset : Z) (f : fs) : option string :=
  match fuel with
  | O => None
  | S fuel =>
      match read_asset pol project rel offset sha f with
      | inl _ => None
      | inr p =>
          match b64decode (pr_chunk_b64 p) with
          | None => None
          | Some chunk => if pr_eof p then Some chunk
                          else option_map (append chunk) (download fuel pol project rel sha (pr_next_offset p) f)
          end
      end
  end.

Lemma read_piece pol project rel data root f offset : readable pol project rel data root f -> 0 <= offset <= len data ->
  let chunk := take (Z.to_nat CHUNK_BYTES) (drop (Z.to_nat offset) data) in
  exists p, read_asset pol project rel offset (hexdigest data) f = inr p /\ pr_chunk_b64 p = b64encode chunk /\
    pr_next_offset p = offset + len chunk /\ pr_eof p = (offset + len chunk =? len data).
Proof.
  intros (Hc & Hb & Hi) Ho chunk. unfold read_asset. rewrite (proj2 (Z.leb_le 0 offset)) by lia. rewrite hexdigest_text, Hi, Hc, Hb.
  cbn [check_ am_sha256 am_size describe]. rewrite String.eqb_refl. cbn [check_]. rewrite (proj2 (Z.leb_le offset _)) by lia. cbn [check_].
  by eexists.
Qed.
Lemma download_rest pol project rel data root f fuel offset : readable pol project rel data root f ->
  0 <= offset <= len data -> (0 < fuel)%nat -> len data - offset <= Z.of_nat fuel * CHUNK_BYTES ->
  download fuel pol project rel (hexdigest data) offset f = Some (drop (Z.to_nat offset) data).
Proof.
  intros Hr. revert offset. induction fuel as [|fuel IH]; intros offset Ho Hf Hlen; [lia |]. cbn [download].
  destruct (read_piece pol project rel data root f offset Hr Ho) as (p & -> & -> & -> & ->). rewrite b64_round_trip.
  set (rest := drop (Z.to_nat offset) data). assert (Hrest : len rest = len data - offset).
  { unfold rest, len. rewrite slen_drop. unfold len in Ho. lia. }
  destruct (Z.le_gt_cases (len rest) CHUNK_BYTES) as [Hs | Hs].
  - rewrite take_all by (unfold len in Hs; lia). by rewrite (proj2 (Z.eqb_eq _ _)) by lia.
  - assert (Htake : len (take (Z.to_nat CHUNK_BYTES) rest) = CHUNK_BYTES).
    { unfold len in *. rewrite slen_take. unfold CHUNK_BYTES in *. lia. }
    rewrite Htake, (proj2 (Z.eqb_neq _ _)) by lia. rewrite IH by (unfold CHUNK_BYTES in *; lia). cbn [option_map]. f_equal.
    rewrite <- (take_drop (Z.to_nat CHUNK_BYTES) rest) at 2. f_equal. unfold rest. rewrite drop_drop. f_equal. unfold CHUNK_BYTES. lia.
Qed.

(** What was published is read back: a client that asks for pieces of the published digest, each
    from where the last ended, gets the data, in as many pieces of 64 KiB as it takes. *)
Theorem asset_read_back pol project rel data sha previous create root f meta replaced f' fuel :
  dict_get project (_project_roots pol) = Some root -> real_dir f root -> readable_project pol root rel ->
  publish_asset pol project rel data sha previous create f = (inr (meta, replaced), f') ->
  len data <= Z.of_nat fuel * CHUNK_BYTES ->
  download fuel pol project rel (am_sha256 meta) 0 f' = Some data.
Proof.
  intros Hroot Hr Hread Hp Hf. pose proof (publish_outcome pol project rel data sha previous create root f Hroot Hr Hread) as H.
  unfold ends in H. rewrite Hp in H. cbn [fst snd] in H. destruct H as [[_ [e [=]]] | (dirs & x & f1 & _ & _ & H)].
  destruct H as (_ & (_ & _ & _ & _ & Hlen) & -> & _ & Hthere). cbn [am_sha256 describe].
  rewrite (download_rest _ _ _ _ _ _ _ _ Hthere); [done | lia | | lia]. unfold CHUNK_BYTES in Hf. lia.
Qed.
End Publishing.

(** ** The transfer store *)

(** What a request may do to the uploads in progress *)
Inductive store_step : request -> dict Upload -> dict Upload -> Prop :=
| ss_same r uploads : store_step r uploads uploads
| ss_expire r now uploads : store_step r uploads (_expire now uploads)
| ss_begin now i project rel sha total previous create uploads :
    1 <= total <= MAX_ASSET_BYTES -> Z.of_nat (length (_expire now uploads)) < MAX_SESSIONS ->
    store_step (Begin false now i project rel sha total previous create) uploads
      (dict_set i (mkUpload project rel sha total previous create now "") (_expire now uploads))
| ss_chunk now i project rel offset b64 sha chunk u uploads :
    dict_get i (_expire now uploads) = Some u -> up_project_id u = project -> up_relative_path u = rel ->
    chunk_bytes offset b64 sha = inr chunk -> offset = len (up_content u) -> offset + len chunk <= up_total_bytes u ->
    store_step (Chunk false now i project rel offset b64 sha) uploads
      (dict_set i (extended chunk now u) (_expire now uploads))
| ss_touch r now i u uploads : dict_get i (_expire now uploads) = Some u ->
    store_step r uploads (dict_set i (extended "" now u) (_expire now uploads))
| ss_del r now i uploads : store_step r uploads (dict_del i (_expire now uploads)).

Lemma get_inv i project rel uploads u : _get i project rel uploads = inr u ->
  dict_get i uploads = Some u /\ up_project_id u = project /\ up_relative_path u = rel.
Proof.
  unfold _get. destruct (dict_get i uploads) as [u'|]; [| done].
  destruct (check_ _ _) as [|[]] eqn:E; [done |]. intros [= <-]. apply check_ok, andb_true_iff in E as [E1 E2].
  by apply String.eqb_eq in E1, E2.
Qed.
Lemma complete_inv u data : complete_content u = inr data ->
  data = up_content u /\ len (up_content u) = up_total_bytes u /\ hexdigest (up_content u) = up_sha256 u.
Proof.
  unfold complete_content. intros H. destruct (check_ (_ =? _) _) as [|[]] eqn:E in H; [done |].
  destruct (check_ (String.eqb _ _) _) as [|[]] eqn:E2 in H; [done |]. injection H as <-.
  apply check_ok in E, E2. apply String.eqb_eq in E2. split; [done |]. split; [lia | done].
Qed.
Lemma begin_total pol f project rel sha total previous : begin_checks pol f project rel sha total previous = inr tt ->
  1 <= total <= MAX_ASSET_BYTES.
Proof.
  unfold begin_checks. do 2 (destruct (check_ _ _) as [|[]]; [done |]).
  destruct (check_ (_ && _) _) as [|[]] eqn:E; [done |]. apply check_ok, andb_true_iff in E. lia.
Qed.

Section Store.
Context {U : Utf8} {D : Disk}.

Lemma serve_store pol r s : store_step r (sg_uploads s) (sg_uploads (snd (serve pol r s))).
Proof.
  destruct r; cbn [serve snd sg_uploads].
  - unfold begin_upload. destruct readonly; [constructor |]; cbn [writeable check_ negb].
    destruct (begin_checks _ _ _ _ _ _ _) as [|[]] eqn:E; [constructor |]. apply begin_total in E.
    destruct (MAX_SESSIONS <=? _) eqn:El; constructor; [done | lia].
  - constructor.
  - unfold upload_chunk. destruct readonly; [constructor |]; cbn [writeable check_ negb].
    destruct (chunk_bytes _ _ _) as [|chunk] eqn:Ec; [constructor |].
    destruct (_get _ _ _ _) as [|u] eqn:Eg; [constructor |]. apply get_inv in Eg as (H1 & H2 & H3).
    destruct (_ && _); [by constructor |]. destruct (offset =? _) eqn:Eo; cbn [negb]; [| constructor].
    destruct (up_total_bytes u <? _) eqn:Et; [constructor |]. cbn [snd]. apply ss_chunk with (chunk := chunk); [done..| lia |lia].
  - unfold upload_abort. destruct (_get _ _ _ _); constructor.
  - unfold upload_finish. destruct (writeable readonly) as [|[]]; [constructor |].
    destruct (_get _ _ _ _) as [|u]; [constructor |]. destruct (complete_content u); [constructor |].
    destruct (publish_asset _ _ _ _ _ _ _ _) as [[|[]] ?]; constructor.
  - constructor.
Qed.

Definition start (f : fs) : staging := mkStaging [] f.
Definition after_all (pol : WorkspacePolicy) (rs : list request) (f : fs) : staging := snd (serve_all pol rs (start f)).

Lemma serve_all_snoc pol rs r s :
  serve_all pol (rs ++ [r]) s
  = let (l, s1) := serve_all pol rs s in let (a, s2) := serve pol r s1 in (l ++ [a], s2).
Proof.
  revert s. induction rs as [|r' rs IH]; intros s; cbn [app serve_all]; [by destruct (serve pol r s) |].
  destruct (serve pol r' s) as [a s1]. rewrite IH. destruct (serve_all pol rs s1) as [l s2]. by destruct (serve pol r s2).
Qed.
Lemma serve_all_app pol rs rs' s :
  serve_all pol (rs ++ rs') s
  = let (l, s1) := serve_all pol rs s in let (l', s2) := serve_all pol rs' s1 in (l ++ l', s2).
Proof.
  revert s. induction rs as [|r rs IH]; intros s; cbn [app serve_all]; [by destruct (serve_all pol rs' s) |].
  destruct (serve pol r s) as [a s1]. rewrite IH. destruct (serve_all pol rs s1) as [l s2]. by destruct (serve_all pol rs' s2).
Qed.
(** What every step keeps holds after any requests. *)
Lemma store_invariant (I : list request -> dict Upload -> Prop) pol rs f : I [] [] ->
  (forall past r uploads uploads', I past uploads -> store_step r uploads uploads' -> I (past ++ [r]) uploads') ->
  I rs (sg_uploads (after_all pol rs f)).
Proof.
  intros H0 Hstep. induction rs as [|r rs IH] using rev_ind; [done |]. unfold after_all in *. rewrite serve_all_snoc.
  destruct (serve_all pol rs (start f)) as [l s1]. cbn [snd] in IH. pose proof (serve_store pol r s1) as Hs.
  destruct (serve pol r s1) as [a s2]. cbn [snd] in *. by eapply Hstep.
Qed.

(** *** What the store holds *)
Record upload_ok (u : Upload) : Prop := {
  uo_content : len (up_content u) <= up_total_bytes u;
  uo_total : 1 <= up_total_bytes u <= MAX_ASSET_BYTES
}.
Record store_ok (uploads : dict Upload) : Prop := {
  so_names : NoDup (keys uploads);
  so_count : Z.of_nat (length uploads) <= MAX_SESSIONS;
  so_each : Forall (fun e => upload_ok (snd e)) uploads
}.
Lemma keys_length {V} (d : dict V) : length (keys d) = length d.
Proof. apply length_map. Qed.
Lemma expire_sub now uploads : sublist (_expire now uploads) uploads.
Proof.
  induction uploads as [|e r IH]; simpl; [done |]. destruct (negb _); [by apply sublist_skip | by apply sublist_cons].
Qed.
Lemma expire_ok now uploads : store_ok uploads -> store_ok (_expire now uploads).
Proof.
  intros [H1 H2 H3]. pose proof (expire_sub now uploads) as Hs. constructor.
  - refine (sublist_NoDup _ _ H1 _). unfold keys. apply (fmap_sublist fst _ _ Hs).
  - apply sublist_length in Hs. lia.
  - rewrite List.Forall_forall in H3 |- *. intros e He. apply H3. by apply filter_In in He as [He _].
Qed.
Lemma set_ok i u uploads : store_ok uploads -> upload_ok u ->
  In i (keys uploads) \/ Z.of_nat (length uploads) < MAX_SESSIONS -> store_ok (dict_set i u uploads).
Proof.
  intros [H1 H2 H3] Hu Hi. constructor; [by apply dict_set_NoDup | | by apply Forall_dict_set].
  rewrite <- keys_length. destruct (in_dec string_dec i (keys uploads)) as [Hin | Hn].
  - by rewrite keys_set_in, keys_length.
  - rewrite keys_set_notin, length_app, keys_length by done. simpl. destruct Hi; [done | lia].
Qed.
Lemma dict_del_none {V} i (d : dict V) : ~ In i (keys d) -> dict_del i d = d.
Proof.
  induction d as [|[k v] r IH]; simpl; [done |]. intros Hn.
  destruct (String.eqb_spec i k); [subst; tauto |]. by rewrite IH by tauto.
Qed.
Lemma del_ok i uploads : store_ok uploads -> store_ok (dict_del i uploads).
Proof.
  intros [H1 H2 H3]. constructor; [by apply dict_del_NoDup | | by apply Forall_dict_del].
  destruct (in_dec string_dec i (keys uploads)) as [Hin | Hn].
  - pose proof (length_dict_del i uploads Hin). lia.
  - by rewrite dict_del_none.
Qed.
Lemma len_app s t : len (s +s+ t) = len s + len t.
Proof. unfold len. rewrite slen_app. lia. Qed.
Lemma len_nonneg s : 0 <= len s.
Proof. unfold len. lia. Qed.
Lemma extended_ok chunk now u : upload_ok u -> len (up_content u) + len chunk <= up_total_bytes u ->
  upload_ok (extended chunk now u).
Proof. intros [H1 H2] H. constructor; [| done]. cbn [extended up_content up_total_bytes]. by rewrite len_app. Qed.
Lemma stored_ok i u uploads : store_ok uploads -> dict_get i uploads = Some u -> upload_ok u /\ In i (keys uploads).
Proof.
  intros [_ _ H] Hg%dict_get_In. rewrite List.Forall_forall in H. split; [by apply (H (i, u)) |].
  apply in_map_iff. by exists (i, u).
Qed.
Lemma store_step_ok r uploads uploads' : store_ok uploads -> store_step r uploads uploads' -> store_ok uploads'.
Proof.
  intros Hok Hs. destruct Hs as [| | | |r now i u uploads Hg |].
  - done.
  - by apply expire_ok.
  - apply set_ok; [by apply expire_ok | constructor; cbn; [change (len "") with 0; lia | done] | by right].
  - destruct (stored_ok _ _ _ (expire_ok now _ Hok) H) as [Hu Hin].
    apply set_ok; [by apply expire_ok | apply extended_ok; [done | lia] | by left].
  - destruct (stored_ok _ _ _ (expire_ok now _ Hok) Hg) as [Hu Hin].
    apply set_ok; [by apply expire_ok | apply extended_ok; [done |] | by left]. change (len "") with 0. pose proof (uo_content u Hu). lia.
  - by apply del_ok, expire_ok.
Qed.

Definition total_content (uploads : dict Upload) : Z := fold_right (fun e n => len (up_content (snd e)) + n) 0 uploads.
Lemma content_sum uploads : Forall (fun e => upload_ok (snd e)) uploads ->
  total_content uploads <= Z.of_nat (length uploads) * MAX_ASSET_BYTES.
Proof.
  induction 1 as [|e r [H1 H2] _ IH]; cbn [total_content fold_right length]; [done |]. fold (total_content r). lia.
Qed.
(** Whatever requests the transfer store is sent, from the empty store, and whatever happens to
    the files meanwhile, it never holds more than four uploads under distinct names, and each
    holds at most the bytes declared for it, which are between one and eight mebibytes: the memory
    of all uploads in progress stays within 32 MiB. *)
Theorem staging_bounded pol rs f :
  let uploads := sg_uploads (after_all pol rs f) in
  store_ok uploads /\ total_content uploads <= MAX_SESSIONS * MAX_ASSET_BYTES.
Proof.
  assert (Hok : store_ok (sg_uploads (after_all pol rs f))).
  { apply (store_invariant (fun _ => store_ok)); [constructor; [constructor | done | constructor] |].
    intros _ r uploads uploads'. apply store_step_ok. }
  split; [done |]. destruct Hok as [_ Hn Hall]. pose proof (content_sum _ Hall). unfold MAX_SESSIONS, MAX_ASSET_BYTES in *. lia.
Qed.

(** *** What an upload is made of *)
(** The offset and the bytes of a chunk sent for this upload that passes its own checks *)
Definition sent (i project rel : string) (r : request) : option (Z * string) :=
  match r with
  | Chunk _ _ i' project' rel' offset b64 sha =>
      if String.eqb i' i && String.eqb project' project && String.eqb rel' rel
      then match chunk_bytes offset b64 sha with inl _ => None | inr chunk => Some (offset, chunk) end
      else None
  | _ => None
  end.
(** Each chunk starts where those before it end. *)
Fixpoint laid (at_ : Z) (l : list (Z * string)) : Prop :=
  match l with [] => True | (offset, chunk) :: l => offset = at_ /\ laid (at_ + len chunk) l end.
Definition joined (l : list (Z * string)) : string := fold_right (fun e s => snd e +s+ s) "" l.

Lemma joined_snoc l offset chunk : joined (l ++ [(offset, chunk)]) = joined l +s+ chunk.
Proof.
  induction l as [|e l IH]; cbn [app joined fold_right snd]; [by rewrite append_nil_r |].
  fold (joined (l ++ [(offset, chunk)])). by rewrite IH, append_assoc.
Qed.
Lemma laid_snoc at_ l chunk : laid at_ l -> laid at_ (l ++ [(at_ + len (joined l), chunk)]).
Proof.
  revert at_. induction l as [|[offset c] l IH]; intros at_; cbn [app laid joined fold_right snd].
  - intros _. split; [change (len "") with 0; lia | done].
  - intros [-> H]. split; [done |]. fold (joined l). specialize (IH _ H). by rewrite len_app, Z.add_assoc.
Qed.

(** The requests that made an upload: its [Begin], then chunks laid end to end among those sent since *)
Definition made_by (past : list request) (i : string) (u : Upload) : Prop :=
  exists before now after l,
    past = before ++ Begin false now i (up_project_id u) (up_relative_path u) (up_sha256 u) (up_total_bytes u)
             (up_previous_sha256 u) (up_create_parents u) :: after /\
    sublist l (omap (sent i (up_project_id u) (up_relative_path u)) after) /\ laid 0 l /\ up_content u = joined l.

Lemma made_by_later past i u r : made_by past i u -> made_by (past ++ [r]) i u.
Proof.
  intros (before & now & after & l & -> & Hl & H). exists before, now, (after ++ [r]), l.
  split; [by rewrite <- app_assoc |]. split; [| done]. rewrite omap_app. by apply sublist_inserts_r.
Qed.
Lemma made_by_chunk past i u now offset b64 sha chunk : made_by past i u ->
  chunk_bytes offset b64 sha = inr chunk -> offset = len (up_content u) ->
  made_by (past ++ [Chunk false now i (up_project_id u) (up_relative_path u) offset b64 sha]) i (extended chunk now u).
Proof.
  intros (before & now0 & after & l & -> & Hl & Hlaid & Hj) Hc ->.
  exists before, now0, (after ++ [Chunk false now i (up_project_id u) (up_relative_path u) (len (up_content u)) b64 sha]),
    (l ++ [(len (up_content u), chunk)]). cbn [extended up_project_id up_relative_path up_sha256 up_total_bytes
    up_previous_sha256 up_create_parents up_content].
  split; [by rewrite <- app_assoc |]. split; [| split; [| by rewrite joined_snoc, Hj]].
  - rewrite omap_app. apply sublist_app; [done |]. cbn [omap list_omap sent]. by rewrite !String.eqb_refl, Hc.
  - rewrite Hj. by apply (laid_snoc 0).
Qed.
Lemma made_by_touch past i u now : made_by past i u -> made_by past i (extended "" now u).
Proof.
  intros (before & now0 & after & l & H1 & H2 & H3 & H4). exists before, now0, after, l.
  cbn [extended up_project_id up_relative_path up_sha256 up_total_bytes up_previous_sha256 up_create_parents up_content].
  by rewrite append_nil_r.
Qed.

Definition all_made (past : list request) (uploads : dict Upload) : Prop :=
  store_ok uploads /\ forall i u, dict_get i uploads = Some u -> made_by past i u.
Lemma expire_get now uploads i u : NoDup (keys uploads) -> dict_get i (_expire now uploads) = Some u ->
  dict_get i uploads = Some u.
Proof. intros Hn [Hi _]%dict_get_In%filter_In. by apply dict_In_get. Qed.
Lemma del_get {V} i j (u : V) d : dict_get j (dict_del i d) = Some u -> NoDup (keys d) -> dict_get j d = Some u.
Proof.
  intros H Hn. destruct (string_dec i j) as [-> | Hne]; [by rewrite dict_get_del_eq in H |]. by rewrite dict_get_del_ne in H.
Qed.
Lemma all_made_step past r uploads uploads' : all_made past uploads -> store_step r uploads uploads' ->
  all_made (past ++ [r]) uploads'.
Proof.
  intros [Hok Hm] Hs. split; [by eapply store_step_ok |]. pose proof (so_names _ Hok) as Hn.
  assert (He : forall now i u, dict_get i (_expire now uploads) = Some u -> made_by (past ++ [r]) i u).
  { intros now i u Hg. apply made_by_later, Hm. by eapply expire_get. }
  assert (Hset : forall now i u', made_by (past ++ [r]) i u' ->
    forall j u, dict_get j (dict_set i u' (_expire now uploads)) = Some u -> made_by (past ++ [r]) j u).
  { intros now i u' Hu j u Hg. destruct (string_dec i j) as [-> | Hne].
    - rewrite dict_get_set_eq in Hg. by injection Hg as <-.
    - rewrite dict_get_set_ne in Hg by done. by eapply He. }
  destruct Hs as [r uploads|r now uploads|now i project rel sha total previous create uploads Ht Hc
    |now i project rel offset b64 sha chunk u uploads Hg <- <- Hc Ho Ht|r now i u uploads Hg|r now i uploads].
  - intros i u Hg. by apply made_by_later, Hm.
  - apply He.
  - apply Hset. exists past, now, [], []. cbn. by split.
  - apply Hset, made_by_chunk; [| done..]. by eapply Hm, expire_get.
  - by apply Hset, made_by_touch, (He now).
  - intros j u Hg. apply del_get in Hg; [by apply (He now) |]. apply (so_names _ (expire_ok now _ Hok)).
Qed.

(** C26: In any run of the transfer store from the empty one, whatever requests it was sent and
    however the files changed: when a finish is answered with a published asset, the bytes published
    are those of chunks that were sent for this upload after it was begun, passed their own
    checks, and lie end to end from offset zero; together they have the declared size and
    digest, the publication is [publish_asset] of exactly them with the lease given at the
    beginning, and the upload is gone. *)
Theorem upload_assembles pol past f ro now i project rel meta replaced s' :
  serve pol (Finish ro now i project rel) (after_all pol past f) = (Published meta replaced, s') ->
  exists before now0 sha total previous create after l,
    past = before ++ Begin false now0 i project rel sha total previous create :: after /\
    sublist l (omap (sent i project rel) after) /\ laid 0 l /\
    len (joined l) = total /\ hexdigest (joined l) = sha /\
    publish_asset pol project rel (joined l) sha previous create (sg_files (after_all pol past f))
      = (inr (meta, replaced), sg_files s') /\
    dict_get i (sg_uploads s') = None.
Proof.
  assert (Hall : all_made past (sg_uploads (after_all pol past f))).
  { apply (store_invariant all_made); [split; [constructor; [constructor | done | constructor] | done] | apply all_made_step]. }
  destruct (after_all pol past f) as [uploads f1]. destruct Hall as [Hok Hm]. cbn [serve sg_uploads sg_files] in *.
  unfold upload_finish. destruct (writeable ro) as [|[]]; [done |].
  destruct (_get i project rel (_expire now uploads)) as [|u] eqn:Eg; [done |]. apply get_inv in Eg as (Hg & <- & <-).
  destruct (complete_content u) as [|data] eqn:Ec; [done |]. apply complete_inv in Ec as (-> & Hlen & Hsha).
  destruct (publish_asset _ _ _ _ _ _ _ _) as [[|[m r]] f2] eqn:Ep; [done |]. intros [= -> -> <-].
  apply expire_get in Hg as Hg0; [| apply Hok]. destruct (Hm i u Hg0) as (before & now0 & after & l & -> & Hl & Hlaid & Hj).
  exists before, now0, (up_sha256 u), (up_total_bytes u), (up_previous_sha256 u), (up_create_parents u), after, l.
  rewrite Hj in *. repeat (split; [done |]). apply dict_get_del_eq, (so_names _ (expire_ok now _ Hok)).
Qed.
End Store.

(** ** An upload that is sent whole gets through *)
(** Requests that leave the upload [i], last touched at [last], alone and alive *)
Definition aside (i : string) (last : Z) (r : request) : Prop :=
  match r with
  | Begin _ now j _ _ _ _ _ _ | Chunk _ now j _ _ _ _ _ | Abort now j _ _ | Finish _ now j _ _ =>
      j <> i /\ now - last < UPLOAD_TTL
  | Status now _ _ _ => now - last < UPLOAD_TTL
  | Elsewhere _ => True
  end.
(** From the content [s] touched at [last] to another: chunks in order, some of them sent again,
    between requests of others, and no pause that lets the upload expire *)
Inductive sending (i project rel : string) : Z -> string -> list request -> Z -> string -> Prop :=
| sd_done last s : sending i project rel last s [] last s
| sd_new last s chunk now rs last' s' : now - last < UPLOAD_TTL -> 1 <= len chunk <= CHUNK_BYTES ->
    sending i project rel now (s +s+ chunk) rs last' s' ->
    sending i project rel last s
      (Chunk false now i project rel (len s) (b64encode chunk) (hexdigest chunk) :: rs) last' s'
| sd_again last before chunk after now rs last' s' : now - last < UPLOAD_TTL -> 1 <= len chunk <= CHUNK_BYTES ->
    sending i project rel now (before +s+ chunk +s+ after) rs last' s' ->
    sending i project rel last (before +s+ chunk +s+ after)
      (Chunk false now i project rel (len before) (b64encode chunk) (hexdigest chunk) :: rs) last' s'
| sd_aside last s r rs last' s' : aside i last r -> sending i project rel last s rs last' s' ->
    sending i project rel last s (r :: rs) last' s'.
Lemma sending_len i project rel last s rs last' s' : sending i project rel last s rs last' s' -> len s <= len s'.
Proof. induction 1; rewrite ?len_app in *; lia. Qed.

(** A chunk of the upload is answered with its progress. *)
Definition taken (i : string) (r : request) (a : answer) : Prop :=
  match r with Chunk _ _ j _ _ _ _ _ => j = i -> exists p, a = Progress p | _ => True end.

Section Through.
Context {U : Utf8} {D : Disk}.
Context (i project rel sha : string) (total : Z) (previous : option string) (create : bool).

Definition upload_at (last : Z) (content : string) : Upload := mkUpload project rel sha total previous create last content.
Record held (last : Z) (content : string) (uploads : dict Upload) : Prop := {
  hd_names : NoDup (keys uploads);
  hd_upload : dict_get i uploads = Some (upload_at last content)
}.
Lemma expire_names now uploads : NoDup (keys uploads) -> NoDup (keys (_expire now uploads)).
Proof. intros H. refine (sublist_NoDup _ _ H _). unfold keys. apply (fmap_sublist fst _ _ (expire_sub now uploads)). Qed.
Lemma held_expire now last content uploads : now - last < UPLOAD_TTL -> held last content uploads ->
  held last content (_expire now uploads).
Proof.
  intros Ht [H1 H2]. split; [by apply expire_names |]. apply dict_In_get; [by apply expire_names |].
  apply filter_In. split; [by apply dict_get_In |]. cbn [snd up_updated upload_at].
  rewrite negb_true_iff. apply Z.leb_gt. lia.
Qed.
Lemma held_set j u last content uploads : j <> i -> held last content uploads -> held last content (dict_set j u uploads).
Proof. intros Hne [H1 H2]. split; [by apply dict_set_NoDup | by rewrite dict_get_set_ne]. Qed.
Lemma held_del j last content uploads : j <> i -> held last content uploads -> held last content (dict_del j uploads).
Proof. intros Hne [H1 H2]. split; [by apply dict_del_NoDup | by rewrite dict_get_del_ne]. Qed.
Lemma held_now last content uploads : NoDup (keys uploads) -> held last content (dict_set i (upload_at last content) uploads).
Proof. intros Hn. split; [by apply dict_set_NoDup | apply dict_get_set_eq]. Qed.
Lemma get_held last content uploads : held last content uploads ->
  _get i project rel uploads = inr (upload_at last content).
Proof. intros [_ H]. unfold _get. rewrite H. cbn [upload_at up_project_id up_relative_path]. by rewrite !String.eqb_refl. Qed.

Lemma serve_aside pol r s last content : aside i last r -> held last content (sg_uploads s) ->
  held last content (sg_uploads (snd (serve pol r s))).
Proof.
  intros Ha Hh. destruct r as [ro now j p r sh t pr cr|now j p r|ro now j p r o b c|now j p r|ro now j p r|f];
    cbn [serve snd sg_uploads aside] in *; [destruct Ha as [Hj Ht] | | destruct Ha as [Hj Ht].. | done];
    pose proof (held_expire now _ _ _ ltac:(eassumption) Hh) as He.
  - unfold begin_upload. destruct (_ ;;? _) as [|[]]; [done |]. destruct (MAX_SESSIONS <=? _); [done |]. by apply held_set.
  - done.
  - unfold upload_chunk. destruct (_ ;;? _) as [|chunk]; [done |]. destruct (_get j p r _) as [|u0]; [done |].
    destruct (_ && _); [by apply held_set |]. destruct (negb _); [done |]. destruct (_ <? _); [done | by apply held_set].
  - unfold upload_abort. destruct (_get j p r _); [done | by apply held_del].
  - unfold upload_finish. destruct (writeable ro); [done |]. destruct (_get j p r _) as [|w]; [done |].
    destruct (complete_content w); [done |].
    destruct (publish_asset _ _ _ _ _ _ _ _) as [[|[]] ?]; [done | by apply held_del].
Qed.

Lemma slice_middle before chunk after :
  slice (before +s+ chunk +s+ after) (Z.to_nat (len before)) (Z.to_nat (len before + len chunk)) = chunk.
Proof.
  unfold slice, len. rewrite Nat2Z.id, drop_app_len, <- Nat2Z.inj_add, Nat2Z.id.
  replace (slen before + slen chunk - slen before)%nat with (slen chunk) by lia. apply take_app_len.
Qed.
(** One chunk, new or sent again: the upload is then at [content']. *)
Lemma serve_chunk pol s last content offset chunk now content' :
  now - last < UPLOAD_TTL -> 1 <= len chunk <= CHUNK_BYTES -> held last content (sg_uploads s) ->
  (offset = len content /\ content' = content +s+ chunk /\ len content' <= total) \/
  (exists before after, content = before +s+ chunk +s+ after /\ offset = len before /\ content' = content) ->
  let r := Chunk false now i project rel offset (b64encode chunk) (hexdigest chunk) in
  taken i r (fst (serve pol r s)) /\ held now content' (sg_uploads (snd (serve pol r s))).
Proof.
  intros Ht Hlen Hh Hcase. cbn [serve fst snd taken sg_uploads]. unfold upload_chunk. cbn [writeable check_ negb].
  assert (Ho : 0 <= offset) by (destruct Hcase as [(-> & _) | (b & a & _ & -> & _)]; apply len_nonneg).
  rewrite chunk_taken by done. apply (held_expire now) in Hh; [| done]. rewrite (get_held _ _ _ Hh).
  cbn [up_content up_total_bytes upload_at]. destruct Hcase as [(-> & -> & Htot) | (before & after & -> & -> & ->)].
  - rewrite Z.ltb_irrefl, Z.eqb_refl. cbn [andb negb]. rewrite len_app in Htot.
    rewrite (proj2 (Z.ltb_ge total _)) by lia. split; [by eexists |]. apply held_now, (hd_names _ _ _ Hh).
  - rewrite slice_middle, String.eqb_refl, !len_app. pose proof (len_nonneg after).
    rewrite (proj2 (Z.ltb_lt _ _)), (proj2 (Z.leb_le _ _)) by lia. cbn [andb fst snd]. split; [by eexists |].
    unfold extended. cbn [upload_at up_project_id up_relative_path up_sha256 up_total_bytes up_previous_sha256 up_create_parents up_content].
    rewrite append_nil_r. apply held_now, (hd_names _ _ _ Hh).
Qed.
Lemma serve_sending pol last content rs last' content' s : sending i project rel last content rs last' content' ->
  len content' <= total -> held last content (sg_uploads s) ->
  Forall2 (taken i) rs (fst (serve_all pol rs s)) /\ held last' content' (sg_uploads (snd (serve_all pol rs s))).
Proof.
  intros Hs Htot. revert s. induction Hs as [last s0|last s0 chunk now rs last' s' Ht Hc Hs IH
    |last before chunk after now rs last' s' Ht Hc Hs IH|last s0 r rs last' s' Ha Hs IH]; intros s Hh.
  - by split.
  - pose proof (sending_len _ _ _ _ _ _ _ _ Hs). cbn [serve_all].
    destruct (serve_chunk pol s last s0 (len s0) chunk now (s0 +s+ chunk)) as [H1 H2]; [done | done | done | left; split; [done |]; split; [done | lia] |].
    destruct (serve pol _ s) as [a s1]. destruct (IH Htot s1 H2) as [H3 H4]. destruct (serve_all pol rs s1). by split; [constructor |].
  - cbn [serve_all]. destruct (serve_chunk pol s last (before +s+ chunk +s+ after) (len before) chunk now (before +s+ chunk +s+ after))
      as [H1 H2]; [done | done | done | right; by exists before, after |].
    destruct (serve pol _ s) as [a s1]. destruct (IH Htot s1 H2) as [H3 H4]. destruct (serve_all pol rs s1). by split; [constructor |].
  - cbn [serve_all]. pose proof (serve_aside pol r s last s0 Ha Hh) as H2. destruct (serve pol r s) as [a s1].
    destruct (IH Htot s1 H2) as [H3 H4]. destruct (serve_all pol rs s1). split; [constructor; [| done] | done].
    destruct r; cbn [taken aside] in *; try done. by intros ->; destruct Ha.
Qed.
End Through.

(** C27: An upload sent whole gets through.  Once its beginning passes its checks and there is room:
    when the chunks are sent in order, each as often as one likes, with requests of others and
    changes of the files in between, and no pause as long as the time to live, every chunk is
    answered with progress, and the finish is answered, and changes the files, as
    [publish_asset] of the whole data does on the files as they are then. *)
Theorem upload_goes_through {U : Utf8} {D : Disk} pol s i project rel data total previous create t0 rs t1 t2 :
  NoDup (keys (sg_uploads s)) -> len data = total ->
  begin_checks pol (sg_files s) project rel (hexdigest data) total previous = inr tt ->
  Z.of_nat (length (_expire t0 (sg_uploads s))) < MAX_SESSIONS ->
  sending i project rel t0 "" rs t1 data -> t2 - t1 < UPLOAD_TTL ->
  let (_, s0) := serve pol (Begin false t0 i project rel (hexdigest data) total previous create) s in
  let (answers, s1) := serve_all pol rs s0 in
  let (a, s2) := serve pol (Finish false t2 i project rel) s1 in
  let (r, f) := publish_asset pol project rel data (hexdigest data) previous create (sg_files s1) in
  Forall2 (taken i) rs answers /\ sg_files s2 = f /\
  a = match r with inl e => Refused e | inr (meta, replaced) => Published meta replaced end.
Proof.
  intros Hn Hlen Hb Hroom Hs Ht. cbn [serve fst snd]. unfold begin_upload. cbn [writeable check_ negb]. rewrite Hb.
  rewrite (proj2 (Z.leb_gt MAX_SESSIONS _)) by done. cbn [fst snd].
  destruct (serve_sending i project rel (hexdigest data) total previous create pol t0 "" rs t1 data
    (mkStaging (dict_set i (upload_at project rel (hexdigest data) total previous create t0 "") (_expire t0 (sg_uploads s))) (sg_files s)))
    as [H1 H2]; [done | lia | apply held_now; by apply expire_names |]. unfold upload_at in H1, H2 at 1.
  destruct (serve_all pol rs _) as [answers s1]. cbn [fst snd] in H1, H2. unfold upload_finish. cbn [writeable check_ negb].
  apply (held_expire _ _ _ _ _ _ _ t2) in H2; [| done]. rewrite (get_held _ _ _ _ _ _ _ _ _ _ H2).
  unfold complete_content. cbn [upload_at up_content up_total_bytes up_sha256 up_previous_sha256 up_create_parents].
  rewrite Hlen, Z.eqb_refl, String.eqb_refl. cbn [check_].
  by destruct (publish_asset _ _ _ _ _ _ _ _) as [[|[]] f].
Qed.

(** ** Runs on a candidate site *)
Module AssetRuns.
#[local] Instance ascii_text : Utf8 := {| encode := id; decode := Some; decode_encode _ := eq_refl |}.
#[local] Instance steady_disk : Disk := {| tmp_hex := "0a"; write_ok := true; read_back := id |}.
Definition site_policy : WorkspacePolicy := mkPolicy [("candidate-a", ["srv"])] [["srv"]] ["project:write"].
Definition site_files : fs := <[["srv"] := NDir]> ∅.
Definition font : string := "true00000000".
Definition font_path : string := "public/fonts/brand.ttf".
Definition font_sha : string := Eval vm_compute in hexdigest font.
Definition font_meta : asset_meta := Eval vm_compute in describe "candidate-a" font_path font.
Lemma font_published :
  fst (publish_asset site_policy "candidate-a" font_path font font_sha None true site_files) = inr (font_meta, None).
Proof. by_eval. Qed.
Lemma site_root : real_dir site_files ["srv"].
Proof. by split_and!. Qed.
Lemma site_readable : readable_project site_policy ["srv"] font_path.
Proof. split; vm_compute; reflexivity. Qed.
Lemma asset_published_witness : exists dirs f1 f',
  dirs `prefix_of` parts font_path /\ made_dirs site_files f1 ["srv"] dirs /\
  f' = <[full_path ["srv"] font_path := NFile font]> f1 /\ lease_on f1 (full_path ["srv"] font_path) None None /\
  inspect_asset site_policy "candidate-a" font_path f' = inr font_meta.
Proof.
  pose proof (asset_published site_policy "candidate-a" font_path font font_sha None true ["srv"] site_files
    eq_refl site_root site_readable) as H.
  pose proof font_published as Hr. destruct (publish_asset _ _ _ _ _ _ _ _) as [r f']. cbn [fst] in Hr. rewrite Hr in H.
  destruct H as (dirs & f1 & Hd & Hm & Hf & _ & Hl & _ & Hi).
  exists dirs, f1, f'. exact (conj Hd (conj Hm (conj Hf (conj Hl Hi)))).
Defined.
Lemma asset_read_back_witness :
  download 1 site_policy "candidate-a" font_path font_sha 0
    (snd (publish_asset site_policy "candidate-a" font_path font font_sha None true site_files)) = Some font.
Proof.
  pose proof font_published as Hr. destruct (publish_asset _ _ _ _ _ _ _ _) as [r f'] eqn:E. cbn [fst] in Hr. rewrite Hr in E.
  exact (asset_read_back site_policy "candidate-a" font_path font font_sha None true ["srv"] site_files font_meta None f' 1
    eq_refl site_root site_readable E ltac:(vm_compute; discriminate)).
Defined.

(** An upload of two chunks, one of them sent twice, while another site is at work *)
Definition first_half : string := "true0".
Definition second_half : string := "0000000".
Definition begun : request := Begin false 0 "u1" "candidate-a" font_path font_sha 12 None true.
Definition chunk_at (now offset : Z) (chunk : string) : request :=
  Chunk false now "u1" "candidate-a" font_path offset (b64encode chunk) (hexdigest chunk).
Definition chunks : list request :=
  [chunk_at 5 0 first_half; chunk_at 6 0 first_half;
   Begin false 7 "u2" "candidate-a" "src/assets/b.png" font_sha 99 None false; chunk_at 8 5 second_half].
Definition finished : request := Finish false 9 "u1" "candidate-a" font_path.
Lemma half_lengths : 1 <= len first_half <= CHUNK_BYTES /\ 1 <= len second_half <= CHUNK_BYTES.
Proof. vm_compute. repeat split; discriminate. Qed.
Lemma chunks_sent : sending "u1" "candidate-a" font_path 0 "" chunks 8 font.
Proof.
  destruct half_lengths as [H1 H2].
  apply (sd_new _ _ _ 0 "" first_half); [done | exact H1 |].
  apply (sd_again _ _ _ 5 "" first_half ""); [done | exact H1 |].
  apply sd_aside; [by split |].
  apply (sd_new _ _ _ 6 first_half second_half); [done | exact H2 |]. apply sd_done.
Qed.
Lemma upload_goes_through_witness :
  let s0 := snd (serve site_policy begun (start site_files)) in
  let s1 := snd (serve_all site_policy chunks s0) in
  Forall2 (taken "u1") chunks (fst (serve_all site_policy chunks s0)) /\
  sg_files (snd (serve site_policy finished s1))
    = snd (publish_asset site_policy "candidate-a" font_path font (hexdigest font) None true (sg_files s1)).
Proof.
  pose proof (upload_goes_through site_policy (start site_files) "u1" "candidate-a" font_path font 12 None true 0 chunks 8 9
    ltac:(constructor) eq_refl ltac:(by_eval) eq_refl chunks_sent eq_refl) as H.
  unfold begun, finished. change font_sha with (hexdigest font). cbv zeta.
  destruct (serve site_policy (Begin _ _ _ _ _ _ _ _ _) _) as [a0 s0]. cbn [snd].
  destruct (serve_all site_policy chunks s0) as [l s1]. cbn [fst snd].
  destruct (serve site_policy (Finish _ _ _ _ _) s1) as [a s2]. cbn [snd].
  destruct (publish_asset _ _ _ _ _ _ _ _) as [r f]. exact (conj (proj1 H) (proj1 (proj2 H))).
Defined.
Lemma font_assembled :
  fst (serve site_policy finished (after_all site_policy (begun :: chunks) site_files)) = Published font_meta None.
Proof. by_eval. Qed.
Lemma upload_assembles_witness : exists before now0 sha total previous create after l,
  begun :: chunks = before ++ Begin false now0 "u1" "candidate-a" font_path sha total previous create :: after /\
  sublist l (omap (sent "u1" "candidate-a" font_path) after) /\ laid 0 l /\ hexdigest (joined l) = sha.
Proof.
  pose proof font_assembled as Hr. destruct (serve _ _ _) as [a s'] eqn:E in Hr. cbn [fst] in Hr. rewrite Hr in E.
  destruct (upload_assembles site_policy (begun :: chunks) site_files false 9 "u1" "candidate-a" font_path font_meta None s' E)
    as (before & now0 & sha & total & previous & create & after & l & Hp & Hl & Hlaid & _ & Hsha & _).
  exists before, now0, sha, total, previous, create, after, l. exact (conj Hp (conj Hl (conj Hlaid Hsha))).
Defined.

(** In a project whose root is no allowed root, the write is only checked once it is done. *)
Definition closed_policy : WorkspacePolicy := mkPolicy [("candidate-a", ["srv"])] [["w"]] ["project:write"].
Example refused_after_the_write :
  let (r, f') := publish_asset closed_policy "candidate-a" font_path font font_sha None true site_files in
  r = inl WorkspacePolicyError /\ f' !! full_path ["srv"] font_path = Some (NFile font).
Proof. vm_compute. split; reflexivity. Qed.
End AssetRuns.
