(* ===== verification/Snapshots.v ===== *)
(** * The snapshot store of a workspace (app/workspace/snapshot.py)

    Snapshots are kept per project in an ordered dict from a relative path to the latest
    snapshot of that file, under a cap on their number per project and one on the bytes of
    all.  The clock and the generated identifier are arguments; [rollback] works on the file
    system of FileSystem.v through the write path of WorkspaceEdit.v.  The cap per project is
    a natural number: with a negative one [popitem] would raise on an empty dict. *)
From stdpp Require Import gmap.
From S2P Require Import Prelude PyStr FileSystem WorkspacePolicy WorkspaceEdit.
From stdpp Require Import options.

Definition _DEFAULT_MAX_PER_PROJECT : nat := 10.
Definition _DEFAULT_MAX_TOTAL_BYTES : Z := 10000000.

Record Snapshot : Type := mkSnapshot {
  sn_receipt_id : string; sn_project_id : string; sn_relative_path : string;
  sn_content : option string; sn_size : Z; sn_before_hash : option string;
  sn_expected_current_hash : option string; sn_file_exists_before : bool;
  sn_timestamp : Z; sn_operation : string }.

Record RollbackResult : Type := mkRollback {
  rb_project_id : string; rb_path : string; rb_size : Z; rb_before_hash : option string;
  rb_after_hash : option string; rb_rolled_back : bool; rb_receipt_id : string;
  rb_stale_detected : bool }.

Record SnapshotStore : Type := mkStore {
  _max_per_project : nat; _max_total_bytes : Z;
  _stores : dict (dict Snapshot); _total_bytes : Z }.
Definition new_store (max_snapshots_per_project : nat) (max_total_bytes : Z) : SnapshotStore :=
  mkStore max_snapshots_per_project max_total_bytes [] 0.
Definition with_stores (st : SnapshotStore) (stores : dict (dict Snapshot)) (total : Z) : SnapshotStore :=
  mkStore (_max_per_project st) (_max_total_bytes st) stores total.

(** The project's dict; the second is the store with an entry for the project. *)
Definition of_project (st : SnapshotStore) (project_id : string) : dict Snapshot :=
  default [] (dict_get project_id (_stores st)).
Definition _get_store (st : SnapshotStore) (project_id : string) : SnapshotStore :=
  if dict_in project_id (_stores st) then st
  else with_stores st (dict_set project_id [] (_stores st)) (_total_bytes st).

(** ** Eviction *)

(** The first loop of [_evict]: the oldest entries of one project go *)
Fixpoint evict_own (max_per_project : nat) (store : dict Snapshot) (total : Z)
    : dict Snapshot * Z :=
  match store with
  | [] => ([], total)
  | (_, evicted) :: rest =>
      if (max_per_project <? length store)%nat
      then evict_own max_per_project rest (total - sn_size evicted)
      else (store, total)
  end.

(** The first entry of each project, the earliest of these *)
Fixpoint oldest (stores : dict (dict Snapshot)) (best : option (string * string * Snapshot))
    : option (string * string * Snapshot) :=
  match stores with
  | [] => best
  | (pid, store) :: r =>
      oldest r
        match store with
        | [] => best
        | (key, snap) :: _ =>
            match best with
            | Some (_, _, b) =>
                if (sn_timestamp snap <? sn_timestamp b)%Z then Some (pid, key, snap) else best
            | None => Some (pid, key, snap)
            end
        end
  end.
(** The second loop; [fuel] bounds its rounds, each of which drops a snapshot. *)
Fixpoint evict_global (fuel : nat) (max_total_bytes : Z) (stores : dict (dict Snapshot)) (total : Z)
    : dict (dict Snapshot) * Z :=
  match fuel with
  | O => (stores, total)
  | S fuel =>
      if (max_total_bytes <? total)%Z then
        match oldest stores None with
        | None => (stores, total)
        | Some (pid, key, snap) =>
            evict_global fuel max_total_bytes
              (dict_set pid (dict_del key (default [] (dict_get pid stores))) stores)
              (total - sn_size snap)
        end
      else (stores, total)
  end.
Definition snapshots (stores : dict (dict Snapshot)) : list Snapshot := flat_map values (values stores).
Definition total_snapshots (st : SnapshotStore) : nat := length (snapshots (_stores st)).

Definition _evict (st : SnapshotStore) (project_id : string) : SnapshotStore :=
  let st := _get_store st project_id in
  let (store, total) := evict_own (_max_per_project st) (of_project st project_id) (_total_bytes st) in
  let stores := dict_set project_id store (_stores st) in
  let (stores, total) := evict_global (length (snapshots stores)) (_max_total_bytes st) stores total in
  with_stores st stores total.

(** ** Capture *)
Definition capture (st : SnapshotStore) (now : Z) (fresh_id project_id relative_path : string)
    (content : option string) (operation : string) (file_exists_before : bool)
    (receipt_id file_hash : option string) : Snapshot * SnapshotStore :=
  let st := _get_store st project_id in
  let store := of_project st project_id in
  let total := match dict_get relative_path store with
               | Some existing => (_total_bytes st - sn_size existing)%Z
               | None => _total_bytes st
               end in
  let before_hash := sha256_of <$> content in
  let expected_current_hash :=
    match file_hash, content with
    | Some h, _ => Some h
    | None, Some _ => if file_exists_before then before_hash else None
    | None, None => None
    end in
  let snapshot := mkSnapshot
    (match receipt_id with Some (String _ _ as r) => r | _ => "r_" +s+ fresh_id end)
    project_id relative_path content
    (match content with Some c => Z.of_nat (slen c) | None => 0 end)
    before_hash expected_current_hash file_exists_before now operation in
  (snapshot,
   _evict (with_stores st (dict_set project_id (dict_set relative_path snapshot store) (_stores st))
             (total + sn_size snapshot)) project_id).

(** ** Rollback *)
Section Rollback.
Context {U : Utf8} {D : Disk}.

Definition _file_hash (p : path) (f : fs) : wexn + option string :=
  if exists_ f p then
    read <-? _exact_read p _WRITE_MAX_BYTES f ;;
    inr (Some (sha256_of (encode (fst read))))
  else inr None.
(** A hash was recorded and the file's is another *)
Definition differs (expected current_hash : option string) : bool :=
  match expected with Some _ => negb (bool_decide (current_hash = expected)) | None => false end.

(** What [rollback] does to the file: the size, the hash before and the hash after *)
Definition restore (pol : WorkspacePolicy) (snapshot : Snapshot) (project_id relative_path : string)
    : F (Z * option string * option string) :=
  full <-f ask (fun f => validate_write pol f project_id relative_path) ;;
  project_root <-f ask (fun f => _resolve_project_root pol f project_id) ;;
  ask (_symlink_safe_preflight full project_root) ;;f
  current_hash <-f ask (_file_hash full) ;;
  if negb (sn_file_exists_before snapshot) then
    match current_hash with
    | None => fret (0%Z, None, None)
    | Some _ =>
        if differs (sn_expected_current_hash snapshot) current_hash then fraise StaleSnapshotError
        else
          gone <-f look_at (fun f => unlink f full) ;;
          match gone with
          | inl e => fraise (OSError e)
          | inr f' => put f' ;;f fret (sn_size snapshot, current_hash, None)
          end
    end
  else
    match current_hash with
    | None => fraise StaleSnapshotError
    | Some _ =>
        if differs (sn_expected_current_hash snapshot) current_hash then fraise StaleSnapshotError
        else
          match sn_content snapshot with
          | Some content => _atomic_write full content
          | None => fret tt
          end ;;f
          after_hash <-f ask (_file_hash full) ;;
          fret (sn_size snapshot, current_hash, after_hash)
    end.

Definition rollback (pol : WorkspacePolicy) (st : SnapshotStore) (project_id relative_path : string)
    (f : fs) : (wexn + RollbackResult) * SnapshotStore * fs :=
  let st := _get_store st project_id in
  match dict_get relative_path (of_project st project_id) with
  | None => (inl WorkspacePolicyError, st, f)
  | Some snapshot =>
      match restore pol snapshot project_id relative_path f with
      | (inl e, f') => (inl e, st, f')
      | (inr (size, before_hash, after_hash), f') =>
          (inr (mkRollback project_id relative_path size before_hash after_hash true
                  (sn_receipt_id snapshot) false),
           with_stores st
             (dict_set project_id (dict_del relative_path (of_project st project_id)) (_stores st))
             (_total_bytes st - sn_size snapshot),
           f')
      end
  end.
End Rollback.

(** ** Queries: each but the totals leaves an entry for the project *)
Definition latest (st : SnapshotStore) (project_id relative_path : string) : option Snapshot :=
  dict_get relative_path (of_project st project_id).
Definition get_snapshot (st : SnapshotStore) (project_id relative_path : string)
    : option Snapshot * SnapshotStore :=
  let st := _get_store st project_id in (latest st project_id relative_path, st).
Definition has_snapshot (st : SnapshotStore) (project_id relative_path : string)
    : bool * SnapshotStore :=
  let st := _get_store st project_id in (dict_in relative_path (of_project st project_id), st).
Definition list_snapshots (st : SnapshotStore) (project_id : string)
    : list Snapshot * SnapshotStore :=
  let st := _get_store st project_id in (values (of_project st project_id), st).

Definition clear (st : SnapshotStore) (project_id : option string) : SnapshotStore :=
  match project_id with
  | Some (String _ _ as pid) =>
      match dict_get pid (_stores st) with
      | Some store =>
          with_stores st (dict_del pid (_stores st))
            (fold_left (fun total snap => (total - sn_size snap)%Z) (values store) (_total_bytes st))
      | None => st
      end
  | _ => with_stores st [] 0
  end.

(** ** Facts on the snapshot store: sums over its dicts, and what eviction does *)
(** ** Sums over a dict *)
Fixpoint dsum {V} (w : V -> Z) (d : dict V) : Z :=
  match d with [] => 0 | (_, v) :: r => w v + dsum w r end.
Definition share {V} (w : V -> Z) (k : string) (d : dict V) : Z :=
  match dict_get k d with Some v => w v | None => 0 end.
Lemma dsum_set {V} w k v (d : dict V) : dsum w (dict_set k v d) = (dsum w d - share w k d + w v)%Z.
Proof.
  unfold share. induction d as [|[k' v'] r IH]; simpl; [lia |].
  destruct (String.eqb k k'); simpl; lia.
Qed.
Lemma dsum_del {V} w k (d : dict V) : dsum w (dict_del k d) = (dsum w d - share w k d)%Z.
Proof.
  unfold share. induction d as [|[k' v'] r IH]; simpl; [lia |].
  destruct (String.eqb k k'); simpl; lia.
Qed.
Lemma dsum_app {V} w (a b : dict V) : dsum w (a ++ b) = (dsum w a + dsum w b)%Z.
Proof. induction a as [|[k v] r IH]; simpl; lia. Qed.
Lemma dict_set_set {V} k (v w : V) (d : dict V) : dict_set k w (dict_set k v d) = dict_set k w d.
Proof.
  induction d as [|[k' v'] r IH]; simpl; [by rewrite String.eqb_refl |].
  destruct (String.eqb k k') eqn:E; simpl; rewrite E; [done | by rewrite IH].
Qed.
Lemma dsum_fold {V} (w : V -> Z) (d : dict V) z :
  fold_left (fun t v => t - w v)%Z (values d) z = (z - dsum w d)%Z.
Proof. revert z. induction d as [|[k v] r IH]; intros z; simpl; [lia |]. rewrite IH. lia. Qed.

Definition bytes (stores : dict (dict Snapshot)) : Z := dsum (dsum sn_size) stores.
Definition count (stores : dict (dict Snapshot)) : nat := length (snapshots stores).
Lemma count_sum stores : Z.of_nat (count stores) = dsum (fun d : dict Snapshot => Z.of_nat (length d)) stores.
Proof.
  unfold count, snapshots. induction stores as [|[p d] r IH]; simpl; [done |].
  rewrite length_app. unfold values at 1. rewrite length_map. lia.
Qed.
Lemma count_zero stores : count stores = 0%nat -> bytes stores = 0%Z.
Proof.
  unfold count, bytes, snapshots. induction stores as [|[p d] r IH]; simpl; [done |].
  rewrite length_app. unfold values at 1. rewrite length_map.
  destruct d; simpl; [| lia]. intros H. rewrite IH; [done | lia].
Qed.

(** ** Lookups: a store that lost snapshots and gained none *)
Definition look (stores : dict (dict Snapshot)) (pid key : string) : option Snapshot :=
  dict_get key (default [] (dict_get pid stores)).
Definition fewer (stores stores' : dict (dict Snapshot)) : Prop :=
  forall pid key, look stores' pid key = look stores pid key \/ look stores' pid key = None.
#[global] Instance fewer_preorder : PreOrder fewer.
Proof.
  split; [by left |]. intros a b c H1 H2 pid key.
  destruct (H2 pid key) as [-> |]; [apply H1 | by right].
Qed.
Lemma look_set_eq stores pid store key : look (dict_set pid store stores) pid key = dict_get key store.
Proof. unfold look. by rewrite dict_get_set_eq. Qed.
Lemma look_set_ne stores pid pid' store key : pid <> pid' ->
  look (dict_set pid store stores) pid' key = look stores pid' key.
Proof. intros H. unfold look. by rewrite dict_get_set_ne. Qed.
Lemma fewer_set stores pid store :
  (forall key, dict_get key store = look stores pid key \/ dict_get key store = None) ->
  fewer stores (dict_set pid store stores).
Proof.
  intros H pid' key. destruct (String.eqb_spec pid pid') as [<- | Hne].
  - rewrite look_set_eq. apply H.
  - left. by apply look_set_ne.
Qed.
Lemma dict_get_app {V} k (a b : dict V) :
  dict_get k (a ++ b) = match dict_get k a with Some v => Some v | None => dict_get k b end.
Proof. induction a as [|[k' v] r IH]; simpl; [done |]. by destruct (String.eqb k k'). Qed.
Lemma get_suffix {V} k (a b : dict V) : NoDup (keys (a ++ b)) ->
  dict_get k b = dict_get k (a ++ b) \/ dict_get k b = None.
Proof.
  intros H. rewrite dict_get_app. destruct (dict_get k a) as [v|] eqn:E; [| by left]. right.
  apply dict_get_None. intros Hb. unfold keys in H. rewrite map_app in H.
  apply NoDup_app in H as (_ & H & _). apply (H k).
  - apply dict_get_In in E. apply list_elem_of_In, in_map_iff. by exists (k, v).
  - by apply list_elem_of_In.
Qed.

(** ** The shape of a store *)
Definition well (pid key : string) (s : Snapshot) : Prop :=
  sn_project_id s = pid /\ sn_relative_path s = key /\
  sn_size s = match sn_content s with Some c => Z.of_nat (slen c) | None => 0%Z end /\
  sn_before_hash s = sha256_of <$> sn_content s.
Definition ok_store (pid : string) (store : dict Snapshot) : Prop :=
  NoDup (keys store) /\ Forall (fun '(key, s) => well pid key s) store.
Definition ok_stores (stores : dict (dict Snapshot)) : Prop :=
  NoDup (keys stores) /\ Forall (fun '(pid, store) => ok_store pid store) stores.
Definition within (m : nat) (stores : dict (dict Snapshot)) : Prop :=
  Forall (fun '(_, store) => (length store <= m)%nat) stores.

Lemma ok_empty pid : ok_store pid [].
Proof. split; constructor. Qed.
Lemma ok_get stores pid : ok_stores stores -> ok_store pid (default [] (dict_get pid stores)).
Proof.
  intros [_ H]. destruct (dict_get pid stores) as [d|] eqn:E; [| apply ok_empty].
  apply dict_get_In in E. rewrite List.Forall_forall in H. apply (H _ E).
Qed.
Lemma ok_set stores pid store : ok_stores stores -> ok_store pid store ->
  ok_stores (dict_set pid store stores).
Proof.
  intros [Hn Hf] Hs. split; [by apply dict_set_NoDup |].
  apply Forall_dict_set; [done | done | by intros k ->].
Qed.
Lemma ok_del pid key store : ok_store pid store -> ok_store pid (dict_del key store).
Proof. intros [Hn Hf]. split; [by apply dict_del_NoDup | by apply Forall_dict_del]. Qed.
Lemma ok_put pid key s store : ok_store pid store -> well pid key s ->
  ok_store pid (dict_set key s store).
Proof.
  intros [Hn Hf] Hs. split; [by apply dict_set_NoDup |].
  apply Forall_dict_set; [done | done | by intros k ->].
Qed.
Lemma ok_suffix pid a b : ok_store pid (a ++ b) -> ok_store pid b.
Proof.
  intros [Hn Hf]. split; [| by apply Forall_app in Hf as [_ ?]].
  unfold keys in *. rewrite map_app in Hn. by apply NoDup_app in Hn as (_ & _ & ?).
Qed.
Lemma within_set m pid store stores : within m stores -> (length store <= m)%nat ->
  within m (dict_set pid store stores).
Proof. intros H Hl. apply Forall_dict_set; [done | done | by intros k ->]. Qed.
Create HintDb snapshots.
#[export] Hint Resolve ok_empty ok_get ok_set ok_del ok_put within_set : snapshots.
Lemma within_get m pid stores : within m stores -> (length (default [] (dict_get pid stores)) <= m)%nat.
Proof.
  intros H. destruct (dict_get pid stores) as [d|] eqn:E; [| simpl; lia].
  apply dict_get_In in E. unfold within in H. rewrite List.Forall_forall in H. apply (H _ E).
Qed.
Lemma length_del {V} k (d : dict V) : (length (dict_del k d) <= length d)%nat.
Proof. induction d as [|[k' v] r IH]; simpl; [lia |]. destruct (String.eqb k k'); simpl; lia. Qed.
Lemma sizes_pos pid store : ok_store pid store -> (0 <= dsum sn_size store)%Z.
Proof.
  intros [_ Hf]. induction Hf as [|[k s] r (_ & _ & Hs & _) Hr IH]; simpl; [lia |].
  destruct (sn_content s); lia.
Qed.
Lemma share_pos pid key store : ok_store pid store -> (0 <= share sn_size key store)%Z.
Proof.
  intros [_ Hf]. unfold share. destruct (dict_get key store) as [s|] eqn:E; [| lia].
  apply dict_get_In in E. rewrite List.Forall_forall in Hf. destruct (Hf _ E) as (_ & _ & -> & _).
  destruct (sn_content s); lia.
Qed.
Lemma share_get stores pid :
  share (dsum sn_size) pid stores = dsum sn_size (default [] (dict_get pid stores)).
Proof. unfold share. by destruct (dict_get pid stores). Qed.
Lemma bytes_set stores pid store : bytes (dict_set pid store stores)
  = (bytes stores - dsum sn_size (default [] (dict_get pid stores)) + dsum sn_size store)%Z.
Proof. unfold bytes. by rewrite dsum_set, share_get. Qed.

(** ** Eviction *)
Lemma evict_own_spec m store total : exists gone,
  store = gone ++ fst (evict_own m store total) /\
  (length (fst (evict_own m store total)) <= m)%nat /\
  snd (evict_own m store total) = (total - dsum sn_size gone)%Z /\
  ((length store <= m)%nat -> gone = []).
Proof.
  revert total. induction store as [|[k s] r IH]; intros total; simpl.
  { exists []. simpl. split; [done |]. split; [lia |]. split; [lia | done]. }
  destruct (m <? S (length r))%nat eqn:E.
  - apply Nat.ltb_lt in E. destruct (IH (total - sn_size s)%Z) as (gone & H1 & H2 & H3 & _).
    exists ((k, s) :: gone). simpl. rewrite H3. split; [by f_equal |]. split; [done |].
    split; [lia |]. lia.
  - apply Nat.ltb_ge in E. exists []. simpl. split; [done |]. split; [lia |]. split; [lia | done].
Qed.

(** The head of some project's dict *)
Definition head_of (stores : dict (dict Snapshot)) (b : string * string * Snapshot) : Prop :=
  let '(pid, key, snap) := b in exists rest, In (pid, (key, snap) :: rest) stores.
Lemma oldest_spec stores best :
  match oldest stores best with
  | Some b => best = Some b \/ head_of stores b
  | None => best = None /\ count stores = 0%nat
  end.
Proof.
  revert best. induction stores as [|[pid store] r IH]; intros best; simpl.
  { destruct best; [by left | done]. }
  assert (Hcons : forall b, head_of r b -> head_of ((pid, store) :: r) b)
    by (intros [[p k] s] [rest H]; exists rest; by right).
  set (best' := match store with [] => best | _ => _ end).
  assert (Hb : match best' with
               | Some b => best = Some b \/ head_of ((pid, store) :: r) b
               | None => best = None /\ store = [] end).
  { unfold best'. destruct store as [|[k s] rest]; [by destruct best; auto |].
    assert (Hh : head_of ((pid, (k, s) :: rest) :: r) (pid, k, s)) by (exists rest; by left).
    destruct best as [[[p' k'] b]|]; [| by right].
    destruct (sn_timestamp s <? sn_timestamp b)%Z; auto. }
  specialize (IH best'). destruct (oldest r best') as [b|].
  - destruct IH as [Hb' | Hh]; [| by right; apply Hcons]. by rewrite Hb' in Hb.
  - destruct IH as [-> Hc]. destruct Hb as [-> ->]. done.
Qed.

Lemma evict_global_spec fuel cap : forall stores total,
  ok_stores stores -> (count stores <= fuel)%nat ->
  let (stores', total') := evict_global fuel cap stores total in
  fewer stores stores' /\ ok_stores stores' /\
  (forall m, within m stores -> within m stores') /\
  (total' - bytes stores' = total - bytes stores)%Z /\
  ((total' <= cap)%Z \/ count stores' = 0%nat) /\
  ((total <= cap)%Z -> stores' = stores /\ total' = total).
Proof.
  induction fuel as [|fuel IH]; intros stores total Hok Hc; cbn [evict_global].
  { split; [done |]. split; [done |]. split; [done |]. split; [done |]. split; [right; lia | done]. }
  destruct (cap <? total)%Z eqn:E.
  2: { apply Z.ltb_ge in E. do 4 (split; [done |]). split; [by left | done]. }
  apply Z.ltb_lt in E. pose proof (oldest_spec stores None) as Ho.
  destruct (oldest stores None) as [[[pid key] snap]|].
  2: { destruct Ho as [_ H0]. do 4 (split; [done |]). split; [by right | lia]. }
  destruct Ho as [? | [rest Hin]]; [done |].
  pose proof (dict_In_get _ _ _ (proj1 Hok) Hin) as Hg. rewrite Hg. cbn [from_option id].
  assert (Hd : dict_del key ((key, snap) :: rest) = rest) by (simpl; by rewrite String.eqb_refl).
  rewrite Hd. pose proof (ok_get stores pid Hok) as Hs. rewrite Hg in Hs. cbn [from_option id] in Hs.
  assert (Hr : ok_store pid rest) by (by apply (ok_suffix pid [(key, snap)] rest)).
  specialize (IH (dict_set pid rest stores) (total - sn_size snap)%Z).
  destruct (evict_global fuel cap _ _) as [stores' total'].
  destruct IH as (Hf & Hok' & Hw & Hb & Hcap & _); [by apply ok_set | |].
  { apply Nat2Z.inj_le. rewrite count_sum, dsum_set. unfold share. rewrite Hg, <- count_sum. simpl. lia. }
  split.
  { etransitivity; [| exact Hf]. apply fewer_set. intros k. unfold look. rewrite Hg.
    by apply (get_suffix k [(key, snap)]), Hs. }
  split; [done |]. split; [| split; [| split; [done | lia]]].
  - intros m Hm. apply Hw, within_set; [done |]. pose proof (within_get m pid stores Hm) as Hl.
    rewrite Hg in Hl. simpl in Hl. lia.
  - rewrite Hb, bytes_set, Hg. simpl. lia.
Qed.
