(* ===== verification/SnapshotSpec.v ===== *)
(** * What the snapshot store keeps, and what a rollback does *)
From stdpp Require Import gmap.
From S2P Require Import Prelude PyStr FileSystem UnifiedDiff WorkspacePolicy WorkspaceEdit.
From S2P Require Import WorkspaceFacts WorkspaceSpec Snapshots.
From stdpp Require Import options.

(** ** The books of the store *)
Record booked (st : SnapshotStore) : Prop := mkBooked {
  bk_shape : ok_stores (_stores st);
  bk_total : _total_bytes st = bytes (_stores st);
  bk_project : within (_max_per_project st) (_stores st);
  bk_cap : (_total_bytes st <= _max_total_bytes st)%Z }.

Lemma of_project_look st pid key : latest st pid key = look (_stores st) pid key.
Proof. done. Qed.
(** An entry added for a project is empty: nothing else shows. *)
Lemma get_store_spec st pid : booked st ->
  booked (_get_store st pid) /\ fewer (_stores st) (_stores (_get_store st pid)) /\
  of_project (_get_store st pid) pid = of_project st pid /\
  _total_bytes (_get_store st pid) = _total_bytes st /\
  _max_per_project (_get_store st pid) = _max_per_project st /\
  _max_total_bytes (_get_store st pid) = _max_total_bytes st.
Proof.
  intros [Hs Ht Hp Hc]. unfold _get_store, of_project, dict_in.
  destruct (dict_get pid (_stores st)) as [d|] eqn:E; [by rewrite E |]. simpl.
  split; [| split; [| by rewrite dict_get_set_eq]].
  - split; simpl; [by auto with snapshots | | apply within_set; [done | simpl; lia] | done].
    rewrite bytes_set, E. simpl. lia.
  - apply fewer_set. by right.
Qed.

Section Books.
Context {U : Utf8} {D : Disk}.

(** A store loses a snapshot of one project. *)
Lemma forget_booked st pid key : booked st ->
  booked (with_stores st (dict_set pid (dict_del key (of_project st pid)) (_stores st))
            (_total_bytes st - share sn_size key (of_project st pid))).
Proof.
  intros [Hs Ht Hp Hc]. pose proof (ok_get _ pid Hs) as Ho. fold (of_project st pid) in Ho.
  split; simpl.
  - by auto with snapshots.
  - rewrite bytes_set, dsum_del, Ht. fold (of_project st pid). lia.
  - apply within_set; [done |]. etransitivity; [apply length_del |]. by apply within_get.
  - pose proof (share_pos pid key _ Ho). lia.
Qed.

Lemma rollback_books pol st pid key f : booked st ->
  booked (snd (fst (rollback pol st pid key f))).
Proof.
  intros (Hb & _)%(get_store_spec st pid). unfold rollback.
  destruct (dict_get key (of_project (_get_store st pid) pid)) as [snap|] eqn:E; [| done].
  destruct (restore _ _ _ _ _) as [[|[[size before] after]] f']; simpl; [done |].
  pose proof (forget_booked _ pid key Hb) as H. unfold share in H. by rewrite E in H.
Qed.

Lemma clear_books st pid : booked st -> (0 <= _max_total_bytes st)%Z -> booked (clear st pid).
Proof.
  intros Hb Hm. assert (H0 : booked (with_stores st [] 0)) by (split; simpl; [repeat constructor | done | constructor | done]).
  unfold clear. destruct pid as [[|c p]|]; [done | | done].
  destruct (dict_get (String c p) (_stores st)) as [d|] eqn:E; [| done].
  destruct Hb as [Hs Ht Hp Hc]. pose proof (ok_get _ (String c p) Hs) as Ho. rewrite E in Ho.
  pose proof (sizes_pos _ _ Ho). rewrite dsum_fold.
  split; simpl; [| | | simpl in *; lia].
  - split; [by apply dict_del_NoDup, Hs | by apply Forall_dict_del, Hs].
  - unfold bytes. rewrite dsum_del, share_get, E, Ht. done.
  - by apply Forall_dict_del.
Qed.

(** Eviction from a store whose total is right and whose one project may be over its cap *)
Lemma evict_spec st pid d : dict_get pid (_stores st) = Some d -> ok_stores (_stores st) ->
  _total_bytes st = bytes (_stores st) -> (0 <= _max_total_bytes st)%Z ->
  (forall d', (length d' <= _max_per_project st)%nat ->
     within (_max_per_project st) (dict_set pid d' (_stores st))) ->
  booked (_evict st pid) /\ fewer (_stores st) (_stores (_evict st pid)) /\
  _max_per_project (_evict st pid) = _max_per_project st /\
  _max_total_bytes (_evict st pid) = _max_total_bytes st /\
  ((length d <= _max_per_project st)%nat -> (bytes (_stores st) <= _max_total_bytes st)%Z ->
   fewer (_stores (_evict st pid)) (_stores st)).
Proof.
  intros Hgp Hok Ht Hm Hw0.
  unfold _evict, _get_store, dict_in. rewrite Hgp. unfold of_project. rewrite Hgp. cbn [from_option id].
  destruct (evict_own_spec (_max_per_project st) d (_total_bytes st)) as (gone & H1 & H2 & H3 & H4).
  destruct (evict_own _ _ _) as [d2 total2]. simpl in H1, H2, H3. subst total2.
  pose proof (ok_get _ pid Hok) as Hd. rewrite Hgp in Hd. cbn [from_option id] in Hd. rewrite H1 in Hd.
  assert (Hd2 : ok_store pid d2) by (by eapply ok_suffix).
  set (stores2 := dict_set pid d2 (_stores st)).
  pose proof (evict_global_spec (length (snapshots stores2)) (_max_total_bytes st) stores2
    (_total_bytes st - dsum sn_size gone)) as Hg.
  destruct (evict_global _ _ _ _) as [stores3 total3].
  destruct Hg as (Hf & Hok3 & Hw & Hb3 & Hcap3 & Hsame); [by apply ok_set | done |].
  assert (Hf2 : fewer (_stores st) stores2).
  { apply fewer_set. intros k. unfold look. rewrite Hgp. cbn [from_option id]. rewrite H1.
    apply get_suffix, Hd. }
  assert (Hb2 : bytes stores2 = (_total_bytes st - dsum sn_size gone)%Z).
  { unfold stores2. rewrite bytes_set, Hgp. cbn [from_option id]. rewrite H1, dsum_app. lia. }
  split; [split; simpl; [done | lia | by apply Hw, Hw0 | destruct Hcap3 as [|H0%count_zero]; lia] |].
  split; [transitivity stores2; [exact Hf2 | exact Hf] |]. split; [done |]. split; [done |].
  simpl. intros Hl Hle. rewrite (H4 Hl) in *. simpl in H1, Hsame.
  destruct Hsame as [-> _]; [lia |]. intros pid' k. left. unfold stores2.
  destruct (String.eqb_spec pid pid') as [<- | Hne]; [| by rewrite look_set_ne].
  rewrite look_set_eq. unfold look. by rewrite Hgp, H1.
Qed.

(** A capture: the file's snapshot is the new one or was evicted, another file's is what it
    was or was evicted, and nothing is evicted while the caps hold. *)
Lemma capture_spec st now fresh pid key content op existed rid hash : booked st ->
  (0 <= _max_total_bytes st)%Z ->
  let (snap, st') := capture st now fresh pid key content op existed rid hash in
  let d := dict_set key snap (of_project st pid) in
  let stores := dict_set pid d (_stores (_get_store st pid)) in
  booked st' /\ fewer stores (_stores st') /\
  _max_per_project st' = _max_per_project st /\ _max_total_bytes st' = _max_total_bytes st /\
  ((length d <= _max_per_project st)%nat -> (bytes stores <= _max_total_bytes st)%Z ->
   fewer (_stores st') stores).
Proof.
  intros Hb Hm. destruct (get_store_spec st pid Hb) as (Hb1 & _ & Hof & Htot & Hpp & Hcap).
  unfold capture. rewrite Hof, Htot. set (snap := mkSnapshot _ _ _ _ _ _ _ _ _ _).
  set (st1 := _get_store st pid) in *. set (d := dict_set key snap (of_project st pid)).
  destruct Hb1 as [Hs Ht Hp Hc]. rewrite <- Hpp, <- Hcap in *. cbv zeta.
  apply (evict_spec (with_stores st1 _ _) pid d); cbn [_stores with_stores _max_per_project _total_bytes _max_total_bytes].
  - apply dict_get_set_eq.
  - apply ok_set; [done |]. apply ok_put; [| by repeat split]. rewrite <- Hof. by apply ok_get.
  - unfold d. rewrite bytes_set, dsum_set. fold (of_project st1 pid).
    rewrite Hof, <- Ht, Htot. unfold share. destruct (dict_get key (of_project st pid)); lia.
  - done.
  - intros d' Hd'. rewrite dict_set_set. by apply within_set.
Qed.

(** ** Runs of the store *)
Inductive store_op : Type :=
| OpCapture (now : Z) (fresh pid key : string) (content : option string) (operation : string)
    (existed : bool) (rid hash : option string)
| OpRollback (pol : WorkspacePolicy) (pid key : string) (f : fs)
| OpClear (pid : option string)
| OpQuery (pid : string).
Definition run_store (st : SnapshotStore) (o : store_op) : SnapshotStore :=
  match o with
  | OpCapture now fresh pid key content operation existed rid hash =>
      snd (capture st now fresh pid key content operation existed rid hash)
  | OpRollback pol pid key f => snd (fst (rollback pol st pid key f))
  | OpClear pid => clear st pid
  | OpQuery pid => _get_store st pid
  end.
Definition caps (st : SnapshotStore) : nat * Z := (_max_per_project st, _max_total_bytes st).

Lemma get_store_caps st pid : caps (_get_store st pid) = caps st.
Proof. unfold _get_store. by destruct (dict_in pid (_stores st)). Qed.
Lemma run_store_booked st o : booked st -> (0 <= _max_total_bytes st)%Z ->
  booked (run_store st o) /\ caps (run_store st o) = caps st.
Proof.
  intros Hb Hm. destruct o as [now fresh pid key content op existed rid hash | pol pid key f | pid | pid];
    cbn [run_store].
  - pose proof (capture_spec st now fresh pid key content op existed rid hash Hb Hm) as H.
    destruct (capture _ _ _ _ _ _ _ _ _ _) as [snap st']. destruct H as (H & _ & H1 & H2 & _).
    unfold caps. simpl. by rewrite H1, H2.
  - split; [by apply rollback_books |]. rewrite <- (get_store_caps st pid). unfold rollback.
    destruct (dict_get _ _); [| done]. by destruct (restore _ _ _ _ _) as [[|[[? ?] ?]] ?].
  - split; [by apply clear_books |]. unfold clear. destruct pid as [[|c p]|]; try done.
    by destruct (dict_get _ _).
  - split; [by apply (get_store_spec st pid) | apply get_store_caps].
Qed.
Lemma run_booked ops st : booked st -> (0 <= _max_total_bytes st)%Z ->
  booked (fold_left run_store ops st) /\ caps (fold_left run_store ops st) = caps st.
Proof.
  revert st. induction ops as [|o r IH]; intros st Hb Hm; [done |]. simpl.
  destruct (run_store_booked st o Hb Hm) as [Hb' Hc].
  assert (Hm' : _max_total_bytes (run_store st o) = _max_total_bytes st) by (unfold caps in Hc; congruence).
  rewrite <- Hc. apply IH; [done |]. by rewrite Hm'.
Qed.
Lemma new_store_booked m cap : (0 <= cap)%Z -> booked (new_store m cap).
Proof. intros H. split; simpl; [repeat constructor | done | constructor | done]. Qed.

(** C34: The books of the store: after any run of captures, rollbacks on any file system,
    clears and queries from a new store, no project has more snapshots than its cap, no file
    has two, each is filed under its project and path with the size and the hash of its
    content, and the running total is the sum of the sizes and within its cap.  A capture then
    makes its snapshot the file's latest one and changes no other, except that snapshots may
    have been evicted; none is while the project and the total stay within the caps. *)
Theorem snapshots_booked m cap ops now fresh pid key content operation existed rid hash :
  (0 <= cap)%Z ->
  let st := fold_left run_store ops (new_store m cap) in
  let (snap, st') := capture st now fresh pid key content operation existed rid hash in
  booked st /\ caps st = (m, cap) /\ booked st' /\
  (latest st' pid key = Some snap \/ latest st' pid key = None) /\
  (forall p k, (p, k) <> (pid, key) -> latest st' p k = latest st p k \/ latest st' p k = None) /\
  ((length (dict_set key snap (of_project st pid)) <= m)%nat ->
   (_total_bytes st - share sn_size key (of_project st pid) + sn_size snap <= cap)%Z ->
   latest st' pid key = Some snap /\
   forall p k, (p, k) <> (pid, key) -> latest st' p k = latest st p k).
Proof.
  intros Hcap st. destruct (run_booked ops (new_store m cap) (new_store_booked m cap Hcap) Hcap) as [Hb Hc].
  fold st in Hb, Hc. change (caps st = (m, cap)) in Hc.
  assert (Hm : _max_per_project st = m /\ _max_total_bytes st = cap) by (unfold caps in Hc; split; congruence).
  pose proof (capture_spec st now fresh pid key content operation existed rid hash Hb) as H.
  destruct (get_store_spec st pid Hb) as (Hb1 & Hfew & Hof & Htot & _).
  destruct Hm as [Hm1 Hm2]. rewrite Hm1, Hm2 in H.
  destruct (capture _ _ _ _ _ _ _ _ _ _) as [snap st'].
  destruct (H Hcap) as (Hb' & Hf & _ & _ & Hall). clear H.
  set (stores := dict_set pid (dict_set key snap (of_project st pid)) (_stores (_get_store st pid))) in *.
  assert (Hnew : look stores pid key = Some snap) by (unfold stores; by rewrite look_set_eq, dict_get_set_eq).
  assert (Hold : forall p k, (p, k) <> (pid, key) -> look stores p k = latest st p k).
  { intros p k Hne. unfold stores. destruct (String.eqb_spec pid p) as [<- | Hp].
    - rewrite look_set_eq, dict_get_set_ne; [done |]. intros ->. done.
    - rewrite look_set_ne by done. unfold _get_store. destruct (dict_in pid (_stores st)); [done |].
      simpl. by rewrite look_set_ne. }
  split; [done |]. split; [done |]. split; [done |].
  split; [by rewrite <- Hnew; apply Hf |].
  split; [intros p k Hne; rewrite <- Hold by done; apply Hf |].
  intros Hl Ht.
  assert (Hsame : forall p k s, look stores p k = Some s -> look (_stores st') p k = Some s).
  { assert (Hle : (bytes stores <= cap)%Z).
    { unfold stores. rewrite bytes_set, dsum_set. fold (of_project (_get_store st pid) pid).
      rewrite Hof, <- (bk_total _ Hb1), Htot. lia. }
    intros p k s Hs. destruct (Hall Hl Hle p k) as [<- | Hn]; [done | congruence]. }
  split; [by apply Hsame |]. intros p k Hne. change (look (_stores st') p k = latest st p k).
  destruct (latest st p k) as [s|] eqn:El.
  - apply Hsame. by rewrite Hold.
  - destruct (Hf p k) as [-> | ->]; [by rewrite Hold | done].
Qed.
End Books.

(** ** The file a snapshot is of *)
Section Files.
Context {U : Utf8} {D : Disk}.

(** A file that can be read has a real parent directory. *)
Lemma walk_parent f l rel x : forall d p, real_dir f d -> all_ordinary (rel ++ [x]) ->
  no_symlinks f d (rel ++ [x]) = inr tt -> walk f l d (rel ++ [x]) = inr p -> real_dir f (d ++ rel).
Proof.
  induction rel as [|y rel IH]; intros d p Hd Ho Hs Hw; [by rewrite app_nil_r |].
  simpl in *. apply List.Forall_cons_iff in Ho as [Hy Ho].
  rewrite real_symlink in Hs by done. destruct (real_find f d Hd) as [_ Hn].
  rewrite walk_step in Hw by done.
  destruct (f !! (d ++ [y])) as [[c | | t]|] eqn:E; try done.
  - destruct (rel ++ [x]) as [|z l'] eqn:El; [by destruct rel |].
    replace (walk f l (d ++ [y]) (z :: l')) with (@inl errno path ENOTDIR) in Hw; [done |].
    destruct l; cbn [walk]; by rewrite node_at_snoc, E.
  - replace (d ++ y :: rel) with ((d ++ [y]) ++ rel) by (by rewrite <- app_assoc).
    eapply (IH (d ++ [y])); [by apply real_snoc | done | done | done].
Qed.

Lemma find_parent f d rel x p : real_dir f d -> all_ordinary (rel ++ [x]) ->
  no_symlinks f d (rel ++ [x]) = inr tt -> find_path f (d ++ rel ++ [x]) = inr p ->
  real_dir f (d ++ rel).
Proof.
  intros Hd Ho Hs Hf. unfold find_path in Hf.
  destruct (real_walk f MAXSYMLINKS d (rel ++ [x]) Hd) as [Hw _]. rewrite Hw in Hf.
  by eapply walk_parent.
Qed.

(** What a hash was taken of *)
Lemma file_hash_ok f d rel h : real_dir f d -> all_ordinary rel -> no_symlinks f d rel = inr tt ->
  _file_hash (d ++ rel) f = inr (Some h) ->
  exists dirs x text, rel = dirs ++ [x] /\ real_dir f (d ++ dirs) /\
    text_at f (d ++ rel) text /\ h = sha256_of (encode text).
Proof.
  intros Hd Ho Hs. unfold _file_hash. destruct (exists_ f (d ++ rel)) eqn:Ee; [| done].
  destruct (_exact_read _ _ _) as [|old] eqn:Er; [done |]. intros [= <-].
  destruct (exact_read_ok _ _ _ _ _ Hd Ho Hs Er) as [Ht Hne].
  destruct (last_split rel Hne) as (dirs & x & ->). exists dirs, x, (fst old).
  split; [done |]. split; [| by split]. unfold exists_, stat in Ee.
  destruct (find_path f (d ++ dirs ++ [x])) as [|p] eqn:Ef; [done |]. by eapply find_parent.
Qed.
(** No hash: the path leads nowhere. *)
Lemma file_hash_none p f : _file_hash p f = inr None -> exists_ f p = false.
Proof.
  unfold _file_hash. destruct (exists_ f p); [| done]. by destruct (_exact_read _ _ _).
Qed.

Lemma file_hash_exists p f h : _file_hash p f = inr (Some h) -> exists_ f p = true.
Proof. unfold _file_hash. by destruct (exists_ f p). Qed.

Lemma unlink_plain f d rel : real_dir f d -> all_ordinary rel -> no_symlinks f d rel = inr tt ->
  rel <> [] -> forall f', unlink f (d ++ rel) = inr f' -> f' = delete (d ++ rel) f.
Proof.
  intros Hd Ho Hs Hne f'. destruct (last_split rel Hne) as (dirs & x & ->). unfold unlink.
  destruct (entry_of f _) as [|q] eqn:Ee; [done |].
  destruct (parent_plain f d dirs x Hd Ho Hs q Ee) as [-> _].
  destruct (node_at f _) as [[| |]|]; congruence.
Qed.

(** ** Restoring *)

(** What a rollback may write, when the file was [raw] with the hash [h] *)
Definition put_back (snap : Snapshot) (full : path) (f f' : fs) : Prop :=
  f' = if sn_file_exists_before snap
       then match sn_content snap with Some c => <[full := NFile c]> f | None => f end
       else delete full f.
Definition fresh_enough (snap : Snapshot) (h : string) : Prop :=
  sn_expected_current_hash snap = None \/ sn_expected_current_hash snap = Some h.
Lemma differs_fresh e h : differs e (Some h) = false -> e = None \/ e = Some h.
Proof.
  unfold differs. destruct e as [e'|]; [| by left]. intros H%negb_false_iff%bool_decide_eq_true. by right.
Qed.

(** The end of a restoration: nothing changed, or a file with the expected hash is put back. *)
Definition restored (pol : WorkspacePolicy) (snap : Snapshot) (project rel : string) (root : path) (f : fs)
    (r : wexn + (Z * option string * option string)) (f' : fs) : Prop :=
  let full := root ++ parts rel in
  match r with
  | inl _ => f' = f
  | inr (_, before, _) => before = None /\ f' = f /\ sn_file_exists_before snap = false /\
    exists_ f full = false /\ write_checked pol f project rel root
  end \/
  (exists text, write_checked pol f project rel root /\ text_at f full text /\
    fresh_enough snap (sha256_of (encode text)) /\ put_back snap full f f' /\
    match r with
     | inl _ => sn_file_exists_before snap = true
     | inr (_, before, _) => before = Some (sha256_of (encode text))
     end).

Lemma restore_spec pol snap project rel root f : real_dir f root ->
  dict_get project (_project_roots pol) = Some root ->
  ends (restore pol snap project rel) f (restored pol snap project rel root f).
Proof.
  intros Hr Hroot. unfold restore, restored.
  checked. intros full (root' & Hw & -> & Hrr)%validate_write_ok.
  assert (root' = root) as -> by (destruct Hw; congruence).
  checked. intros root2 Hr2. assert (root2 = root) as -> by congruence.
  checked. intros [] Hs%preflight_ok. pose proof (wc_ordinary _ _ _ _ _ Hw) as Ho.
  checked. intros current Hc. destruct (sn_file_exists_before snap) eqn:Eb; cbn [negb].
  - destruct current as [h|]; [| by left].
    destruct (differs _ _) eqn:Ed; [by left |]. apply differs_fresh in Ed.
    destruct (file_hash_ok _ _ _ _ Hr Ho Hs Hc) as (dirs & x & text & Hdx & Hp & Ht & ->).
    destruct (sn_content snap) as [c|] eqn:Ec.
    + rewrite Hdx in *.
      destruct (atomic_write_spec f root dirs x c Hr Ho Hs) as [(Hrun & _ & _) | [e Hrun]].
      * apply ends_let. unfold ends at 1. rewrite Hrun. simpl.
        apply ends_let, ends_ask; [intros e _ | intros after _]; right; exists text;
          unfold put_back; rewrite Eb, Ec; simpl; auto 8.
      * apply ends_let. unfold ends at 1. rewrite Hrun. by left.
    + apply ends_let. unfold ends at 1. simpl.
      apply ends_let, ends_ask; [by left |]. intros after _. right. exists text.
      unfold put_back. rewrite Eb, Ec. simpl. auto 8.
  - destruct current as [h|].
    2: { left. apply file_hash_none in Hc. simpl. auto 8. }
    destruct (differs _ _) eqn:Ed; [by left |]. apply differs_fresh in Ed.
    destruct (file_hash_ok _ _ _ _ Hr Ho Hs Hc) as (dirs & x & text & Hdx & Hp & Ht & ->).
    apply ends_let. unfold look_at, ends at 1. simpl.
    destruct (unlink f (root ++ parts rel)) as [|f'] eqn:Eu; [by left |].
    apply unlink_plain in Eu; [| done | done | done | by rewrite Hdx; destruct dirs].
    right. exists text. simpl. unfold put_back. rewrite Eb. auto 8.
Qed.

(** ** Rolling back *)

(** The end of a rollback: the store has no entry but an empty one for the project, or lost
    the file's snapshot. *)
Lemma rollback_store pol st project rel f r st' f' : booked st ->
  rollback pol st project rel f = (r, st', f') ->
  (forall p k, (p, k) <> (project, rel) -> latest st' p k = latest st p k) /\
  latest st' project rel = match r with inl _ => latest st project rel | inr _ => None end.
Proof.
  intros Hb. pose proof (ok_get _ project (bk_shape _ Hb)) as Hok. fold (of_project st project) in Hok.
  destruct (get_store_spec st project Hb) as (_ & _ & Hof & _).
  assert (Hget : forall p, of_project (_get_store st project) p = of_project st p).
  { intros p. destruct (String.eqb_spec project p) as [<- | Hne]; [done |].
    unfold of_project, _get_store. destruct (dict_in project (_stores st)); [done |]. simpl.
    by rewrite dict_get_set_ne. }
  unfold rollback. rewrite Hof. unfold latest.
  destruct (dict_get rel (of_project st project)) as [snap|] eqn:Eg.
  2: { intros [= <- <- <-]. split; intros; by rewrite ?Hget. }
  destruct (restore _ _ _ _ _) as [[e | [[size before] after]] f1]; intros [= <- <- <-];
    [split; intros; by rewrite ?Hget |].
  split.
  - intros p k Hne. unfold of_project at 1. simpl.
    destruct (String.eqb_spec project p) as [<- | Hp]; [| by rewrite dict_get_set_ne; [rewrite <- Hget |]].
    rewrite dict_get_set_eq. simpl. destruct (String.eqb_spec rel k) as [<- | Hk]; [done |].
    by apply dict_get_del_ne.
  - unfold of_project at 1. simpl. rewrite dict_get_set_eq. simpl. apply dict_get_del_eq, Hok.
Qed.

(** What the target is after [put_back], and everything else *)
Lemma put_back_target snap full f f' : put_back snap full f f' ->
  (forall p, p <> full -> f' !! p = f !! p) /\
  f' !! full = if sn_file_exists_before snap
               then match sn_content snap with Some c => Some (NFile c) | None => f !! full end
               else None.
Proof.
  intros ->. destruct (sn_file_exists_before snap); [destruct (sn_content snap) |].
  - split; [intros; by apply lookup_insert_ne | apply lookup_insert_eq].
  - done.
  - split; [intros; by apply lookup_delete_ne | apply lookup_delete_eq].
Qed.

(** C33: A rollback writes only what it may: it changes no path but its target, and only when
    there is a snapshot of it, the policy lets the project be written there, and the text the
    file holds has the hash the snapshot expects (when one was recorded); the target is then
    the captured bytes, or gone when the file was new.  A rollback that succeeds consumes that
    snapshot, one that raises keeps it, and no other snapshot is touched. *)
Theorem rollback_guarded pol st project rel root f r st' f' :
  booked st -> dict_get project (_project_roots pol) = Some root -> real_dir f root ->
  rollback pol st project rel f = (r, st', f') ->
  let full := root ++ parts rel in
  (forall p, p <> full -> f' !! p = f !! p) /\
  (f' <> f -> exists snap text, latest st project rel = Some snap /\
     write_checked pol f project rel root /\ text_at f full text /\
     fresh_enough snap (sha256_of (encode text)) /\ put_back snap full f f') /\
  (forall rr, r = inr rr -> exists snap, latest st project rel = Some snap /\
     (put_back snap full f f' \/ (f' = f /\ sn_file_exists_before snap = false /\ exists_ f full = false))) /\
  latest st' project rel = (match r with inl _ => latest st project rel | inr _ => None end) /\
  (forall p k, (p, k) <> (project, rel) -> latest st' p k = latest st p k).
Proof.
  intros Hb Hroot Hr Hrun full. destruct (rollback_store _ _ _ _ _ _ _ _ Hb Hrun) as [Ho Hl].
  destruct (get_store_spec st project Hb) as (_ & _ & Hof & _).
  unfold rollback in Hrun. rewrite Hof in Hrun.
  change (dict_get rel (of_project st project)) with (latest st project rel) in Hrun.
  destruct (latest st project rel) as [snap|] eqn:Eg.
  2: { injection Hrun as <- <- <-. split; [done |]. split; [done |]. by split. }
  pose proof (restore_spec pol snap project rel root f Hr Hroot) as H. unfold ends in H.
  destruct (restore _ _ _ _ _) as [r0 f0]. simpl in H.
  assert (f0 = f') as -> by (destruct r0 as [|[[? ?] ?]]; congruence).
  destruct H as [H | (text & Hw & Ht & Hfr & Hp & _)].
  - assert (f' = f) as -> by (destruct r0 as [|[[? ?] ?]]; tauto).
    split; [done |]. split; [done |]. split; [| done]. intros rr ->.
    destruct r0 as [|[[? ?] ?]]; [done |]. exists snap. split; [done |]. right. tauto.
  - split; [by apply (put_back_target snap full) |].
    split; [intros _; by exists snap, text |]. split; [| done]. intros rr _. exists snap. auto.
Qed.

(** ** A tool undone *)

(** Everything is what it was, but for directories made above the target. *)
Definition undone (root : path) (rel : string) (f f' : fs) : Prop :=
  forall p, f' !! p = f !! p \/
    (f !! p = None /\ f' !! p = Some NDir /\
     exists q y, parts rel = q ++ y /\ y <> [] /\ p = root ++ q).

(** The root of the project stands through a change below it. *)
Lemma real_kept f f' root :
  (forall p, f' !! p <> f !! p -> exists q, q <> [] /\ p = root ++ q) ->
  real_dir f root -> real_dir f' root.
Proof.
  intros Hf. apply (real_from_frame f f' []). intros q x Hq _. simpl.
  destruct (decide (f' !! q = f !! q)) as [| Hne]; [done |].
  destruct (Hf q Hne) as (y & Hy & ->). rewrite <- app_assoc in Hq.
  apply (f_equal (@length _)) in Hq. rewrite !length_app in Hq. destruct y; simpl in Hq; [done | lia].
Qed.

(** A text the tools can read back *)
Definition readable (raw : string) : bool :=
  negb (contains nul (take _BINARY_CHECK_BYTES raw)) && negb (_WRITE_MAX_BYTES <? slen raw)%nat
  && match decode raw with Some _ => true | None => false end.

(** The atomic write succeeds on a file that is there. *)
Lemma atomic_write_ok f d dirs x raw old : real_dir f (d ++ dirs) -> ordinary x = true ->
  f !! (d ++ dirs ++ [x]) = Some (NFile old) -> write_ok = true ->
  f !! tmp_of (d ++ dirs ++ [x]) = None ->
  _atomic_write (d ++ dirs ++ [x]) raw f = (inr tt, <[d ++ dirs ++ [x] := NFile raw]> f).
Proof.
  intros Hr Hx Hf Hok. rewrite app_assoc in *. set (d' := d ++ dirs) in *.
  unfold _atomic_write, flet, look_at, fraise, tmp_of. rewrite removelast_last, last_last. intros Htmp.
  destruct (real_is_dir f d' Hr) as [_ ->]. cbn [negb].
  rewrite real_stat; [| done | done | by rewrite real_symlink, Hf]. rewrite Hf.
  rewrite create_real by done. unfold put. rewrite Hok. cbn [negb].
  rewrite replace_tmp; [by rewrite Hf | done | done |]. intros H. by apply (tmp_name_ne x).
Qed.

(** The hash after putting back a readable text *)
Lemma file_hash_readable f d dirs x raw : real_dir f (d ++ dirs) -> ordinary x = true ->
  readable raw = true ->
  exists h, _file_hash (d ++ dirs ++ [x]) (<[d ++ dirs ++ [x] := NFile raw]> f) = inr (Some h).
Proof.
  intros Hr Hx Hraw. unfold readable in Hraw. apply andb_true_iff in Hraw as [[Hb Hl]%andb_true_iff Hd].
  unfold _file_hash, _exact_read, _is_binary_path, is_dir, exists_, read_bytes.
  apply negb_true_iff in Hb, Hl.
  rewrite (stat_plain f d dirs x raw Hr Hx). cbv iota beta. rewrite Hb, Hl. unfold check_. cbn [negb].
  destruct (decode raw); [| done]. cbn [fst]. eauto.
Qed.

(** With the disk willing and the checks of a write still passing, [restore] of a fresh
    snapshot succeeds. *)
Lemma restore_ok pol snap project rel root f h : real_dir f root ->
  validate_write pol f project rel = inr (root ++ parts rel) ->
  _resolve_project_root pol f project = inr root ->
  _symlink_safe_preflight (root ++ parts rel) root f = inr tt ->
  _file_hash (root ++ parts rel) f = inr (Some h) -> sn_expected_current_hash snap = Some h ->
  (sn_file_exists_before snap = true -> write_ok = true /\ f !! tmp_of (root ++ parts rel) = None /\
     exists raw, sn_content snap = Some raw /\ readable raw = true) ->
  exists res f', restore pol snap project rel f = (inr res, f').
Proof.
  intros Hr Hv Hrr Hpf Hh He Hw. pose proof (preflight_ok _ _ _ Hpf) as Hs.
  assert (Ho : all_ordinary (parts rel)) by (by destruct (validate_write_ok _ _ _ _ _ Hv) as (? & [] & _)).
  destruct (file_hash_ok _ _ _ _ Hr Ho Hs Hh) as (dirs & x & text & Hdx & Hp & (old & Hold & _) & _).
  assert (Hd : differs (Some h) (Some h) = false) by (unfold differs; by rewrite bool_decide_true).
  assert (Hx : ordinary x = true) by (rewrite Hdx in Ho; by apply Forall_app in Ho as [_ Ho]; inversion Ho).
  unfold restore, flet, ask. rewrite Hv, Hrr, Hpf, Hh, He, Hd.
  destruct (sn_file_exists_before snap); cbn [negb].
  - destruct (Hw eq_refl) as (Hok & Htmp & raw & -> & Hraw). rewrite Hdx in *.
    rewrite (atomic_write_ok f root dirs x raw old) by done.
    destruct (file_hash_readable f root dirs x raw Hp Hx Hraw) as [h' ->]. unfold fret. eauto.
  - unfold look_at, unlink, put, fret. rewrite Hdx in *. rewrite app_assoc in *. rewrite real_entry by done.
    rewrite node_at_snoc, Hold. eauto.
Qed.

(** What a capture records *)
Lemma captured st now fresh pid key content op existed rid hash :
  let snap := fst (capture st now fresh pid key content op existed rid hash) in
  sn_content snap = content /\ sn_file_exists_before snap = existed /\
  (forall h, hash = Some h -> sn_expected_current_hash snap = Some h).
Proof. split; [done |]. split; [done |]. by intros h ->. Qed.

(** C32: A tool undone: write, edit or patch a file, capture what it held before with the hash
    of what it holds now, and roll back from there: as long as the snapshot was not evicted,
    a rollback that succeeds leaves every path as it was before the tool ran, but for the
    parent directories the tool made; one that raises leaves the tool's result, or has put the
    file back already.  It does succeed when the checks of a write still pass, the disk is
    willing, no stray temporary file is in the way and the earlier text is readable. *)
Theorem rollback_undoes o pol project rel max_bytes root f f1 before hash
    st now fresh operation rid snap st1 r st2 f2 :
  booked st1 -> dict_get project (_project_roots pol) = Some root -> real_dir f root ->
  let full := root ++ parts rel in
  f !! full = NFile <$> before ->
  run_op pol project rel max_bytes o f = (inr tt, f1) -> _file_hash full f1 = inr (Some hash) ->
  capture st now fresh project rel before operation (match before with Some _ => true | None => false end)
    rid (Some hash) = (snap, st1) ->
  latest st1 project rel = Some snap ->
  rollback pol st1 project rel f1 = (r, st2, f2) ->
  match r with
  | inr rr => undone root rel f f2 /\ rb_receipt_id rr = sn_receipt_id snap /\ rb_before_hash rr = Some hash
  | inl _ => f2 = f1 \/ (undone root rel f f2 /\ before <> None)
  end /\
  (validate_write pol f1 project rel = inr full -> _symlink_safe_preflight full root f1 = inr tt ->
   (forall raw, before = Some raw ->
      readable raw = true /\ write_ok = true /\ f1 !! tmp_of full = None) ->
   exists rr, r = inr rr).
Proof.
  intros Hb Hroot Hr full Hbefore Hrun Hhash Hcap Hl Hroll.
  destruct (run_changes _ _ _ _ _ _ _ _ _ Hroot Hr Hrun) as [_ Hch].
  assert (Hr1 : real_dir f1 root).
  { apply (real_kept f); [| done]. intros p (q & y & _ & Hq & -> & _)%Hch. by exists q. }
  pose proof (captured st now fresh project rel before operation
    (match before with Some _ => true | None => false end) rid (Some hash)) as Hsn.
  rewrite Hcap in Hsn. simpl in Hsn. destruct Hsn as (Hc & He & Hx). specialize (Hx hash eq_refl).
  destruct (get_store_spec st1 project Hb) as (_ & _ & Hof & _).
  unfold rollback in Hroll. rewrite Hof in Hroll.
  change (dict_get rel (of_project st1 project)) with (latest st1 project rel) in Hroll.
  rewrite Hl in Hroll.
  assert (Hund : forall f', put_back snap full f1 f' -> undone root rel f f').
  { intros f' Hp p. destruct (put_back_target _ _ _ _ Hp) as [Hne Heq].
    destruct (decide (p = full)) as [-> | Hpf].
    - left. rewrite Heq, He, Hc, Hbefore. by destruct before.
    - rewrite (Hne p Hpf). destruct (decide (f1 !! p = f !! p)) as [| Hd]; [by left |].
      destruct (Hch p Hd) as (q & y & Hq & _ & -> & [-> | [H1 H2]]).
      + rewrite app_nil_r in Hq. by destruct Hpf; unfold full; rewrite Hq.
      + right. split; [done |]. split; [done |]. exists q, y. split; [done |]. split; [| done].
        intros ->. rewrite app_nil_r in Hq. destruct Hpf. unfold full. by rewrite Hq. }
  pose proof (restore_spec pol snap project rel root f1 Hr1 Hroot) as Hspec. unfold ends in Hspec.
  split.
  - destruct (restore _ _ _ _ _) as [[e | [[size bh] ah]] f'] eqn:Er; injection Hroll as <- <- <-;
      simpl in Hspec.
    + destruct Hspec as [-> | (text & _ & _ & _ & Hp & Hex)]; [by left |]. right.
      split; [by apply Hund |]. rewrite He in Hex. by destruct before.
    + destruct Hspec as [(_ & _ & _ & Hnone & _) | (text & Hw & Ht & Hfr & Hp & ->)].
      * apply file_hash_exists in Hhash. fold full in Hnone. congruence.
      * split; [by apply Hund |]. split; [done |]. destruct Hfr as [Hn | Hs]; [congruence |]. simpl. congruence.
  - intros Hv Hpf Hraw. destruct (restore_ok pol snap project rel root f1 hash) as (res & f' & Hok); try done.
    + by destruct (validate_write_ok _ _ _ _ _ Hv) as (root' & [] & _ & ?); congruence.
    + rewrite He, Hc. destruct before as [raw|]; [| done]. intros _.
      destruct (Hraw raw eq_refl) as (? & ? & ?). split; [done |]. split; [done |]. by exists raw.
    + rewrite Hok in Hroll. destruct res as [[? ?] ?]. injection Hroll as <- _ _. eauto.
Qed.
End Files.

(** ** Where the store differs from its description *)
#[local] Instance ascii_text : Utf8 := {| encode := id; decode := Some; decode_encode _ := eq_refl |}.
#[local] Instance good_disk : Disk := {| tmp_hex := "0a"; write_ok := true; read_back := id |}.
Definition snap_policy : WorkspacePolicy := mkPolicy [("p", ["srv"])] [["srv"]] ["project:write"].
Definition take_snap (st : SnapshotStore) (now : Z) (key : string) (content : option string)
    (hash : option string) : SnapshotStore :=
  snd (capture st now "0" "p" key content "write" true None hash).

(** "Oldest snapshots evicted first": a file captured again keeps its place in the ordered
    dict, so its new snapshot is evicted before older ones. *)
Example recaptured_evicted_first :
  let st := take_snap (take_snap (take_snap (take_snap (new_store 2 100)
              1 "a" (Some "1") None) 2 "b" (Some "2") None) 3 "a" (Some "3") None) 4 "c" (Some "4") None in
  map (fun s => (sn_relative_path s, sn_timestamp s)) (fst (list_snapshots st "p"))
  = [("b", 2%Z); ("c", 4%Z)].
Proof. vm_compute. reflexivity. Qed.

(** A file that was binary before a write is put back, and then the rollback raises, because
    the hash after it cannot be taken; the snapshot stays, and every further rollback raises. *)
Definition binary_fs : fs := <[["srv"] := NDir]> (<[["srv"; "a"] := NFile nul]> ∅).
Definition overwritten_fs : fs := <[["srv"; "a"] := NFile "text"]> binary_fs.
Example binary_rollback_raises :
  let st := take_snap (new_store 2 100) 1 "a" (Some nul) (Some (sha256_of "text")) in
  run_op snap_policy "p" "a" 100 (OpWrite "text" false) binary_fs = (inr tt, overwritten_fs) /\
  rollback snap_policy st "p" "a" overwritten_fs = (inl WorkspacePolicyError, st, binary_fs) /\
  rollback snap_policy st "p" "a" binary_fs = (inl WorkspacePolicyError, st, binary_fs).
Proof. split_and!; vm_compute; reflexivity. Qed.

(** A deletion patch cannot be rolled back: the missing file counts as stale. *)
Definition text_fs : fs := <[["srv"] := NDir]> (<[["srv"; "a"] := NFile "text"]> ∅).
Definition deletion_patch : string :=
  "--- a/a" +s+ sc newline +s+ "+++ /dev/null" +s+ sc newline +s+ "@@ -1 +0,0 @@" +s+ sc newline
  +s+ "-text" +s+ sc newline.
Definition deleted_fs : fs := <[["srv"] := NDir]> ∅.
Example deletion_not_rolled_back :
  let st := take_snap (new_store 2 100) 1 "a" (Some "text") None in
  run_op snap_policy "p" "a" 100 (OpPatch deletion_patch) text_fs = (inr tt, deleted_fs) /\
  rollback snap_policy st "p" "a" deleted_fs = (inl StaleSnapshotError, st, deleted_fs).
Proof. split_and!; vm_compute; reflexivity. Qed.
