(* ===== verification/DurableSpec.v ===== *)
(** * What durable jobs promise, over every interleaving of their clients

    Any number of gateway workers, recovery scans, cancellations and submissions run at the
    same time: a history is a list of method calls, each with the fate of its round trips,
    and of what the server does by itself. *)
From stdpp Require Import gmap.
From S2P Require Import Prelude PyStr Digests Redis DurableJobs DurableFacts.
From stdpp Require Import options.

Section Spec.
Context {R : Redis} {J : JsonCodec}.

Inductive call : Type :=
| Claim (net : fate) (job token : string) (lease_ttl now : Z)
| Heartbeat (net : fate) (job token : string) (lease_ttl now : Z)
| Cancel (net : fate) (job : string) (now : Z)
| CheckCancel (net : fate) (job token : string)
| Finish (net : nat -> fate) (job token : string) (r : report) (now : Z)
| Reconcile (net : fate) (now : Z)
| Submit (net : nat -> fate) (key job owner payload : string) (envelope : jobj) (now : Z)
| Snapshot (job session command owner : string) (r : report) (redact : option string) (now : Z)
| Elapse (t : Z)
| Evict (k : string).

(** The database afterwards, and whether the caller was told of a success *)
Definition run (c : call) (d : db) : bool * db :=
  match c with
  | Claim net job token ttl now =>
      let '(r, d') := claim_durable_execution true net job token ttl now d in
      (match r with inr b => b | inl _ => false end, d')
  | Heartbeat net job token ttl now => heartbeat_durable_execution true net job token ttl now d
  | Cancel net job now => (false, snd (request_durable_cancellation true net job now d))
  | CheckCancel net job token => is_durable_cancellation_requested true net job token d
  | Finish net job token r now =>
      let '(a, d') := finish_durable_execution true net job token r now d in
      (match a with inr b => b | inl _ => false end, d')
  | Reconcile net now => (false, snd (reconcile_expired_cancelled_processing true net now d))
  | Submit net key job owner payload envelope now =>
      (false, snd (reserve_submission_with_job true net key job owner payload envelope now d))
  | Snapshot job session command owner r redact now =>
      (false, save_terminal_job true job session command owner r redact now d)
  | Elapse t => (false, elapse (Z.max 0 t) d)
  | Evict k => (false, evict k d)
  end.
Definition run_all (cs : list call) (d : db) : db := fold_left (fun d c => snd (run c d)) cs d.

(** What a call may do to the envelope of [job] *)
Definition step_of (c : call) (job : string) : jobj -> option jobj :=
  let on j next := if String.eqb j job then next else fun _ => None in
  match c with
  | Claim _ j token ttl now => on j (claim_next token ttl now)
  | Heartbeat _ j token ttl now => on j (hb_next token ttl now)
  | Cancel _ j now => on j (cancel_next now)
  | Finish _ j token r now =>
      on j (if mem (rp_status r) TERMINAL then finish_next token r now else fun _ => None)
  | Reconcile _ now => reconcile_next now
  | _ => fun _ => None
  end.
(** Calls that write the envelope of [job] afresh *)
Definition fresh_for (job : string) (c : call) : bool :=
  match c with
  | Submit _ _ j _ _ _ _ | Snapshot j _ _ _ _ _ _ => negb (String.eqb j job)
  | _ => true
  end.

Lemma on_allowed P j job next : allowed P (if String.eqb j job then next else fun _ => None) ->
  job = j -> allowed P next.
Proof. intros H ->. by rewrite String.eqb_refl in H. Qed.
Lemma view_other_set P d k v ex job : k <> env_key job -> holds P job d -> holds P job (SET d k v ex).
Proof. intros Hk H env. rewrite view_set_ne by done. apply H. Qed.

Lemma setnx_holds P job k v ex d : k <> env_key job -> holds P job d ->
  holds P job (snd (lsetnx k v ex d)).
Proof.
  intros Hk H. unfold lsetnx, SETNX. destruct (0 <? ex)%Z; [| done].
  destruct (GET d k); [done |]. by apply view_other_set.
Qed.
Lemma reserve_holds P job k claim ek env owner payload ttl d : k <> env_key job -> ek <> env_key job ->
  holds P job d -> holds P job (snd (_RESERVE_ENVELOPE_LUA k ek claim env owner payload ttl d)).
Proof.
  intros Hk He H. unfold _RESERVE_ENVELOPE_LUA. rewrite lbind_run.
  pose proof (setnx_holds P job k claim ttl d Hk H) as H1.
  destruct (lsetnx k claim ttl d) as [[b1|] d1]; [| done]. simpl in H1. rewrite lbind_run.
  pose proof (setnx_holds P job ek env ttl d1 He H1) as H2.
  destruct (lsetnx ek env ttl d1) as [[b2|] d2]; [| done]. simpl in H2.
  destruct (b1 && b2); [done |]. destruct b1.
  - unfold lbind, ldel. simpl. intros e. rewrite view_del by done. apply H2.
  - rewrite lbind_run. unfold lget. destruct (GET d2 k) as [raw|]; [| done].
    rewrite lbind_run. unfold ldecode. destruct (loads raw) as [cl|]; [| done]. simpl.
    by destruct (_ || _).
Qed.
Lemma reserve_attempts_keeps script (I : db -> Prop) net i n job d : I d ->
  (forall d, I d -> I (snd (script d))) -> I (snd (reserve_attempts net i n job script d)).
Proof.
  intros Hd Hs. revert i d Hd. induction n as [|n IH]; intros i d Hd; [done |]. simpl.
  pose proof (eval_keeps script I (net i) d Hd (Hs d Hd)) as H.
  destruct (eval (net i) script d) as [[[| | |[v|]]|] d']; try done; try (by apply IH).
  destruct (String.eqb _ ""); [by apply IH | done].
Qed.

(** ** Invariants of the database

    A property of the database is kept by a call when the script the call sends keeps it. *)
Definition keeps {A} (I : db -> Prop) (script : L A) : Prop := forall d, I d -> I (snd (script d)).
Definition steps_keep (I : db -> Prop) (c : call) : Prop :=
  match c with
  | Claim _ job token ttl now => keeps I (_CLAIM_LUA job token ttl now)
  | Heartbeat _ job token ttl now => keeps I (_HB_LUA job token ttl now)
  | Cancel _ job now => keeps I (_CANCEL_LUA job now)
  | CheckCancel _ job token => keeps I (_CHECK_CANCEL_LUA job token)
  | Finish _ job token r now =>
      mem (rp_status r) TERMINAL = true -> keeps I (_FINISH_LUA job token r now)
  | Reconcile _ now => forall result job, keeps I (reconcile_one now result job)
  | Submit _ key job owner payload envelope now =>
      keeps I (_RESERVE_ENVELOPE_LUA (_submission_storage_key key) (env_key job)
                 (dumps (claim_object job owner payload now)) (dumps envelope) owner payload
                 _submission_ttl_seconds)
  | _ => forall d, I d -> I (snd (run c d))
  end.
Lemma run_inv I c d : steps_keep I c -> I d -> I (snd (run c d)).
Proof.
  intros Hk Hd. destruct c; cbn [steps_keep] in Hk; try (by apply Hk); cbn [run].
  - unfold claim_durable_execution. cbn [negb].
    pose proof (eval_keeps (_CLAIM_LUA job token lease_ttl now) I net d Hd (Hk d Hd)) as H.
    by destruct (eval net _ d) as [[|] d'].
  - unfold heartbeat_durable_execution. by apply best_effort_keeps, Hk.
  - unfold request_durable_cancellation. cbn [negb].
    pose proof (eval_keeps (_CANCEL_LUA job now) I net d Hd (Hk d Hd)) as H.
    by destruct (eval net _ d) as [[[[]|]|] d'].
  - unfold is_durable_cancellation_requested. by apply best_effort_keeps, Hk.
  - unfold finish_durable_execution. destruct (mem (rp_status r) TERMINAL); [| done]. cbn [negb].
    pose proof (finish_attempts_keeps (_FINISH_LUA job token r now) I net 0
                  FINISH_TERMINAL_MAX_ATTEMPTS d Hd (Hk eq_refl)) as H.
    by destruct (finish_attempts _ _ _ _ d) as [ok d'].
  - unfold reconcile_expired_cancelled_processing. cbn [negb].
    pose proof (eval_keeps (_RECONCILE_CANCEL_LUA now) I net d Hd) as H.
    destruct (eval net _ d) as [[|] d']; apply H; unfold _RECONCILE_CANCEL_LUA; apply lfold_keeps;
      auto; intros acc a d0 Hd0; by apply Hk.
  - unfold reserve_submission_with_job. cbn [negb snd]. by apply reserve_attempts_keeps.
Qed.

(** An invariant of one envelope is kept by every call whose step allows it. *)
Lemma run_keeps c job P d : fresh_for job c = true -> allowed P (step_of c job) ->
  holds P job d -> holds P job (snd (run c d)).
Proof.
  intros Hf Hp. apply run_inv. destruct c; cbn [steps_keep step_of fresh_for] in *; unfold keeps;
    try (intros; eapply acts_keeps;
         eauto using claim_acts, hb_acts, cancel_acts, check_acts, reconcile_acts, on_allowed; done).
  - intros Hm d0 Hd0. rewrite Hm in Hp. eapply acts_keeps; eauto using finish_acts, on_allowed.
  - apply negb_true_iff, String.eqb_neq in Hf. intros d0 Hd0. apply reserve_holds; [| | done].
    + apply env_submission.
    + by intros H%env_key_inj.
  - apply negb_true_iff, String.eqb_neq in Hf. intros d0 Hd0 env. unfold run, save_terminal_job, save_snapshot. simpl.
    rewrite view_zadd. apply view_other_set; [| done]. by intros H%env_key_inj.
  - intros d0 Hd0 env. unfold view. cbn [run snd].
    destruct (GET_elapse d0 (Z.max 0 t) (env_key job) ltac:(lia)) as [-> | ->]; [apply Hd0 | done].
  - intros d0 Hd0 env. unfold view. cbn [run snd]. rewrite GET_evict.
    destruct (String.eqb k (env_key job)); [done | apply Hd0].
Qed.
Lemma run_all_keeps cs job P d : forallb (fresh_for job) cs = true ->
  Forall (fun c => allowed P (step_of c job)) cs -> holds P job d -> holds P job (run_all cs d).
Proof.
  revert d. induction cs as [|c cs IH]; intros d Hf Hp Hd; [done |]. simpl in Hf.
  apply andb_true_iff in Hf as [Hc Hf]. apply List.Forall_cons_iff in Hp as [Hpc Hp].
  apply IH; [done | done |]. by apply run_keeps.
Qed.

(** ** Fencing *)
Ltac fields := unfold claimed, renewed; lookups.
Definition not_by (a : string) (env : jobj) : Prop := processing_by a env = false.
Definition done_ (env : jobj) : Prop := terminal (env !! "status") = true.
(** Cancelled while some worker ran it, or terminal *)
Definition doomed (env : jobj) : Prop :=
  terminal (env !! "status") = true \/
  (is_str (env !! "status") "processing" = true /\ truthy (env !! "cancel_requested") = true).

Lemma done_none c job env : done_ env -> step_of c job env = None.
Proof.
  intros Hd. pose proof (terminal_not_processing env Hd) as Hp. unfold done_ in Hd.
  destruct c; cbn [step_of]; try done; try (destruct (String.eqb _ job); [| done]).
  - unfold claim_next. by rewrite Hd.
  - unfold hb_next, processing_by. by rewrite Hp.
  - unfold cancel_next. by rewrite Hd.
  - destruct (mem (rp_status r) TERMINAL); [| done]. unfold finish_next, processing_by. by rewrite Hp.
  - unfold reconcile_next. by rewrite Hp.
Qed.

(** A call that cannot step the envelope it is about is not acknowledged and changes no
    envelope. *)
Definition refused (c : call) (d : db) : Prop :=
  fst (run c d) = false /\ forall j, view (snd (run c d)) j = view d j.
Lemma acts_refused {A} (yes : A -> bool) script job next d : acts yes script job next ->
  (forall env, view d job = Some env -> next env = None) ->
  (forall a, fst (script d) = Some a -> yes a = false) /\
  forall j, view (snd (script d)) j = view d j.
Proof.
  intros Ha Hn. specialize (Ha d). destruct (view d job) as [env|] eqn:Ev.
  - rewrite (Hn env eq_refl) in Ha. apply ended_view in Ha as (Ho & Hj & Hy); [| done].
    split; [intros a Ha; destruct (yes a) eqn:E; [by destruct (Hy a Ha E) | done] |].
    intros j. destruct (decide (j = job)) as [-> |]; [by rewrite Hj, Ev | by apply Ho].
  - destruct Ha as [-> Ha]. done.
Qed.
Lemma eval_refused {A} (yes : A -> bool) script job next net d : acts yes script job next ->
  (forall env, view d job = Some env -> next env = None) ->
  (forall a, fst (eval net script d) = Some a -> yes a = false) /\
  forall j, view (snd (eval net script d)) j = view d j.
Proof. intros Ha Hn. destruct (acts_refused yes script job next d Ha Hn). by destruct net. Qed.
Lemma attempts_refused script job next net n d : acts id script job next ->
  (forall env, view d job = Some env -> next env = None) ->
  forall i, fst (finish_attempts net i n script d) = false /\
    forall j, view (snd (finish_attempts net i n script d)) j = view d j.
Proof.
  intros Ha. revert d. induction n as [|n IH]; intros d Hn i; [done |]. simpl.
  destruct (eval_refused id script job next (net i) d Ha Hn) as [H1 H2].
  destruct (eval (net i) script d) as [[ok|] d']; simpl in *; [by rewrite (H1 ok eq_refl) |].
  destruct (IH d') with (i := S i) as [H3 H4]; [intros env; rewrite H2; apply Hn |].
  split; [done |]. intros j. by rewrite H4, H2.
Qed.
Lemma run_refused c job d :
  match c with
  | Claim _ j _ _ _ | Heartbeat _ j _ _ _ | Finish _ j _ _ _ => j = job
  | _ => False
  end -> (forall env, view d job = Some env -> step_of c job env = None) -> refused c d.
Proof.
  intros Hj Hn. unfold refused.
  destruct c; try done; subst; cbn [run step_of] in *; rewrite String.eqb_refl in Hn.
  - unfold claim_durable_execution. cbn [negb].
    destruct (eval_refused id _ job _ net d (claim_acts job token lease_ttl now) Hn) as [H1 H2].
    destruct (eval net _ d) as [[b|] d']; simpl in *; [by rewrite (H1 b eq_refl) | done].
  - unfold heartbeat_durable_execution, best_effort. cbn [negb].
    destruct (eval_refused id _ job _ net d (hb_acts job token lease_ttl now) Hn) as [H1 H2].
    destruct (eval net _ d) as [[b|] d']; simpl in *; [by rewrite (H1 b eq_refl) | done].
  - unfold finish_durable_execution. destruct (mem (rp_status r) TERMINAL) eqn:Hm; [| done]. cbn [negb].
    destruct (attempts_refused _ job _ net FINISH_TERMINAL_MAX_ATTEMPTS d
                (finish_acts job token r now Hm) Hn 0) as [H1 H2].
    destruct (finish_attempts _ _ _ _ d) as [ok d']. simpl in *. by subst.
Qed.

(** A call that does not give [job] to the worker [a] *)
Definition not_claim_by (job a : string) (c : call) : bool :=
  match c with Claim _ j t _ _ => negb (String.eqb j job && String.eqb t a) | _ => true end.
Lemma processing_by_status a (env env' : jobj) : env' !! "status" = env !! "status" ->
  env' !! "worker_token" = env !! "worker_token" -> processing_by a env' = processing_by a env.
Proof. intros H1 H2. unfold processing_by. by rewrite H1, H2. Qed.
Lemma not_processing_by a (env : jobj) s : env !! "status" = Some (VStr s) -> s <> "processing" ->
  processing_by a env = false.
Proof.
  intros H Hs. unfold processing_by, is_str. rewrite H. by destruct (String.eqb_spec s "processing").
Qed.
Lemma not_by_stable job a c : not_claim_by job a c = true -> allowed (not_by a) (step_of c job).
Proof.
  intros Hc env env' Hn Hs. unfold not_by in *.
  destruct c; cbn [step_of] in Hs; try done; try (destruct (String.eqb _ job) eqn:Ej; [| done]).
  - unfold claim_next in Hs. destruct (_ || _); [done |].
    destruct (processing_by token env) eqn:Eb.
    { injection Hs as <-. rewrite <- Hn. apply processing_by_status; fields. }
    destruct (_ && _); [done |]. injection Hs as <-. simpl in Hc. rewrite Ej in Hc. simpl in Hc.
    unfold processing_by. apply andb_false_iff. right. fields. simpl. by apply negb_true_iff.
  - unfold hb_next in Hs. destruct (_ && _); [| done]. injection Hs as <-.
    rewrite <- Hn. apply processing_by_status; fields.
  - unfold cancel_next in Hs. destruct (terminal _); [done |].
    destruct (is_str _ "pending").
    { injection Hs as <-. by apply (not_processing_by _ _ "cancelled"); [fields |]. }
    destruct (is_str _ "processing"); [| done]. injection Hs as <-.
    rewrite <- Hn. apply processing_by_status; fields.
  - destruct (mem (rp_status r) TERMINAL) eqn:Em; [| done]. unfold finish_next in Hs. destruct (processing_by token env); [| done].
    injection Hs as <-. apply (not_processing_by _ _ (rp_status r)); [apply finished_status |].
    intros He. by rewrite He in Em.
  - unfold reconcile_next in Hs. destruct (_ && _); [| done]. injection Hs as <-.
    by apply (not_processing_by _ _ "ambiguous"); [apply given_up_status |].
Qed.

Lemma claim_won net job b ttl now d d' : run (Claim net job b ttl now) d = (true, d') ->
  exists env env', view d job = Some env /\ claim_next b ttl now env = Some env' /\
    view d' job = Some env'.
Proof.
  cbn [run]. unfold claim_durable_execution. cbn [negb].
  destruct (eval net (_CLAIM_LUA job b ttl now) d) as [[ok|] d1] eqn:E; intros [= -> ->].
  by apply (eval_yes id _ job _ net d true d' (claim_acts job b ttl now)).
Qed.

(** C18: Execution is fenced: a worker takes a job from another one only after the lease it was
    given has run out, and from then on the other one is shut out for good: whatever workers,
    cancellations, recovery scans and submissions do afterwards, in any order and with any
    round trip failing, its heartbeats and its report on the job are refused and change
    nothing, unless it claims the job anew. *)
Theorem execution_fenced net job a b ttl now d d' cs : a <> b ->
  run (Claim net job b ttl now) d = (true, d') ->
  forallb (fresh_for job) cs = true -> forallb (not_claim_by job a) cs = true ->
  (forall env, view d job = Some env -> processing_by a env = true ->
     lease_live now env = Some false /\ truthy (env !! "cancel_requested") = false) /\
  (forall net' ttl' now', refused (Heartbeat net' job a ttl' now') (run_all cs d')) /\
  (forall net' r now', refused (Finish net' job a r now') (run_all cs d')).
Proof.
  intros Hab Hrun Hf Hc. destruct (claim_won _ _ _ _ _ _ _ Hrun) as (env & env' & Hv & Hn & Hv').
  assert (Hafter : holds (not_by a) job (run_all cs d')).
  { apply run_all_keeps; [done | |].
    - apply List.Forall_forall. intros c Hin. apply not_by_stable.
      rewrite forallb_forall in Hc. by apply Hc.
    - intros e He. rewrite Hv' in He. injection He as <-. unfold not_by.
      unfold claim_next in Hn. destruct (_ || _); [done |]. unfold processing_by.
      destruct (processing_by b env) eqn:Eb.
      + injection Hn as <-. unfold processing_by in Eb. apply andb_true_iff in Eb as [_ Eb].
        apply andb_false_iff. right. fields. revert Eb. unfold is_str.
        destruct (env !! "worker_token") as [[| | |t]|]; [done.. | | done].
        intros ->%String.eqb_eq. by apply String.eqb_neq.
      + destruct (_ && _); [done |]. injection Hn as <-. apply andb_false_iff. right. fields.
        simpl. by apply String.eqb_neq. }
  split; [| split].
  - intros e He Hb. rewrite Hv in He. injection He as <-. unfold claim_next in Hn.
    destruct (_ || _) eqn:Et; [done |]. apply orb_false_iff in Et as [_ Et].
    assert (Hp : is_str (env !! "status") "processing" = true) by (by apply andb_true_iff in Hb as [? _]).
    rewrite Hp in *. simpl in Et. split; [| done].
    destruct (processing_by b env) eqn:Eb.
    { exfalso. unfold processing_by, is_str in Hb, Eb.
      apply andb_true_iff in Hb as [_ Hb]. apply andb_true_iff in Eb as [_ Eb].
      destruct (env !! "worker_token") as [[| | |t]|]; [done.. | | done].
      apply String.eqb_eq in Hb, Eb. congruence. }
    destruct (bool_decide (lease_live now env = Some false)) eqn:El; [by apply bool_decide_eq_true in El | done].
  - intros net' ttl' now'. apply (run_refused _ job); [done |]. intros e He%Hafter. simpl.
    rewrite String.eqb_refl. unfold hb_next. unfold not_by in He. by rewrite He.
  - intros net' r now'. apply (run_refused _ job); [done |]. intros e He%Hafter.
    cbn [step_of]. rewrite String.eqb_refl. destruct (mem (rp_status r) TERMINAL); [| done].
    unfold finish_next. unfold not_by in He. by rewrite He.
Qed.

(** ** One outcome *)

(** The reports on [job] that their workers were told are stored *)
Fixpoint acknowledged (job : string) (cs : list call) (d : db) : list report :=
  match cs with
  | [] => []
  | c :: r =>
      match c with
      | Finish _ j _ rep _ => if String.eqb j job && fst (run c d) then [rep] else []
      | _ => []
      end ++ acknowledged job r (snd (run c d))
  end.
(** The envelope says what the report said. *)
Definition outcome_is (rep : report) (env : jobj) : Prop :=
  env !! "status" = Some (VStr (rp_status rep)) /\ env !! "stdout" = Some (VStr (rp_stdout rep)) /\
  env !! "stderr" = Some (VStr (rp_stderr rep)) /\
  (forall code, rp_exit_code rep = Some code -> env !! "exit_code" = Some (VNum code)) /\
  (forall e, rp_error rep = Some e -> e <> "" -> env !! "error" = Some (VStr e)) /\
  (rp_status rep = "ambiguous" -> env !! "remote_outcome" = Some (VStr "ambiguous")).
Lemma finished_outcome r now env : outcome_is r (finished r now env).
Proof.
  split; [apply finished_status |]. split; [apply finished_stdout |].
  unfold finished. destruct (String.eqb_spec (rp_status r) "ambiguous"), (rp_exit_code r) as [c|], (rp_error r) as [err|];
    try destruct (String.eqb_spec err ""); split_and!; try intros x; intros; simplify_eq; lookups.
Qed.

Lemma frozen_keeps cs job env0 d : done_ env0 -> forallb (fresh_for job) cs = true ->
  holds (eq env0) job d -> holds (eq env0) job (run_all cs d).
Proof.
  intros Hd Hf. apply run_all_keeps; [done |]. apply List.Forall_forall. intros c _ env env' <- Hs.
  by rewrite done_none in Hs.
Qed.
Lemma frozen_silent cs job env0 d : done_ env0 -> forallb (fresh_for job) cs = true ->
  holds (eq env0) job d -> acknowledged job cs d = [].
Proof.
  intros Hd. revert d. induction cs as [|c cs IH]; intros d Hf Hh; [done |]. cbn [acknowledged].
  simpl in Hf. apply andb_true_iff in Hf as [Hc Hf].
  rewrite IH; [| done | by apply (frozen_keeps [c] job env0 d); [done | by simpl; rewrite Hc |]].
  rewrite app_nil_r. destruct c; try done. destruct (String.eqb_spec job0 job) as [-> |]; [| done].
  destruct (run_refused (Finish net job token r now) job d) as [-> _]; [done | | done].
  intros env <-%Hh. by apply done_none.
Qed.
Lemma finish_won net job token r now d : fst (run (Finish net job token r now) d) = true ->
  exists env, done_ env /\ outcome_is r env /\ view (snd (run (Finish net job token r now) d)) job = Some env.
Proof.
  cbn [run]. unfold finish_durable_execution. destruct (mem (rp_status r) TERMINAL) eqn:Hm; [| done].
  cbn [negb]. destruct (finish_attempts _ _ _ _ d) as [ok d'] eqn:E. intros Hok. simpl in Hok. subst.
  destruct (finish_attempts_yes _ job _ net 0 FINISH_TERMINAL_MAX_ATTEMPTS d d' (fun _ => True)
              (finish_acts job token r now Hm)) as (env & env' & _ & Hn & Hv); [done.. |].
  exists env'. simpl. split; [| split; [| done]]; unfold finish_next in Hn;
    destruct (processing_by token env); try done; injection Hn as <-.
  - unfold done_. by rewrite finished_status.
  - apply finished_outcome.
Qed.

(** The job is not submitted again under its id, and snapshots are terminal. *)
Definition submitted_once (job : string) (c : call) : bool :=
  match c with
  | Submit _ _ j _ _ _ _ => negb (String.eqb j job)
  | Snapshot _ _ _ _ r _ _ => mem (rp_status r) TERMINAL
  | _ => true
  end.
Lemma stays_done c job d : submitted_once job c = true -> holds done_ job d -> holds done_ job (snd (run c d)).
Proof.
  intros Hc Hd. destruct (fresh_for job c) eqn:Hf.
  - apply run_keeps; [done | | done]. intros env env' He Hs. by rewrite done_none in Hs.
  - destruct c; try done; cbn [submitted_once fresh_for] in Hc, Hf; [by rewrite Hc in Hf |].
    apply negb_false_iff, String.eqb_eq in Hf as ->. intros env. unfold run, save_terminal_job, save_snapshot. cbn [negb snd].
    rewrite view_zadd, view_set by (by destruct (String.eqb _ "completed")). intros [= <-]. exact Hc.
Qed.
Lemma done_silent cs job d : forallb (submitted_once job) cs = true -> holds done_ job d -> acknowledged job cs d = [].
Proof.
  revert d. induction cs as [|c cs IH]; intros d Hf Hd; [done |]. cbn [acknowledged].
  simpl in Hf. apply andb_true_iff in Hf as [Hc Hf]. rewrite IH by (done || by apply stays_done).
  rewrite app_nil_r. destruct c; try done. destruct (String.eqb_spec job0 job) as [-> |]; [| done].
  destruct (run_refused (Finish net job token r now) job d) as [-> _]; [done | | done].
  intros env He%Hd. by apply done_none.
Qed.

(** C19: A durable job has one outcome: of all the reports its workers send, however claims,
    heartbeats, cancellations, recovery, reports and the snapshots of a forced cleanup interleave and
    round trips fail or are retried, at most one is ever acknowledged, as long as the job id is not
    submitted a second time.  And where no snapshot of the job is stored (a snapshot replaces the envelope without
    any fence), the envelope says from then on, as long as the server keeps it, what that report said:
    its status, output, error output, exit code and error. *)
Theorem one_outcome job cs d : forallb (submitted_once job) cs = true ->
  (acknowledged job cs d = [] \/ exists rep, acknowledged job cs d = [rep]) /\
  (forallb (fresh_for job) cs = true -> forall rep, In rep (acknowledged job cs d) ->
     holds (outcome_is rep) job (run_all cs d)).
Proof.
  revert d. induction cs as [|c cs IH]; intros d Ho; [split; [by left | by intros _ rep []] |]. cbn [acknowledged].
  change (run_all (c :: cs) d) with (run_all cs (snd (run c d))).
  simpl in Ho. apply andb_true_iff in Ho as [Hc Ho].
  assert (Hrest : (acknowledged job cs (snd (run c d)) = [] \/ exists rep, acknowledged job cs (snd (run c d)) = [rep]) /\
    (forallb (fresh_for job) (c :: cs) = true -> forall rep, In rep (acknowledged job cs (snd (run c d))) ->
      holds (outcome_is rep) job (run_all cs (snd (run c d))))).
  { destruct (IH (snd (run c d)) Ho) as [H1 H2]. split; [done |]. simpl. intros [_ Hf]%andb_true_iff. by apply H2. }
  destruct c; try exact Hrest. destruct (String.eqb_spec job0 job) as [-> |]; [| exact Hrest].
  destruct (fst (run (Finish net job token r now) d)) eqn:Er; [| exact Hrest].
  destruct (finish_won _ _ _ _ _ _ Er) as (env & Hd & Hout & Hv). cbn [andb].
  rewrite done_silent by (done || by (intros e He; rewrite Hv in He; by injection He as <-)). split; [right; by exists r |].
  simpl. intros Hf rep [<- | []] e He.
  assert (Hh : holds (eq env) job (snd (run (Finish net job token r now) d))) by (intros e' He'; rewrite Hv in He'; congruence).
  by rewrite <- (frozen_keeps cs job env _ Hd Hf Hh e He).
Qed.

(** ** Cancellation *)
Lemma doomed_stable job c : allowed doomed (step_of c job).
Proof.
  intros env env' [Ht | [Hp Hc]] Hs; [by rewrite done_none in Hs |]. unfold doomed.
  destruct c; cbn [step_of] in Hs; try done; try (destruct (String.eqb _ job); [| done]).
  - unfold claim_next in Hs. rewrite Hp, Hc, orb_true_r in Hs. done.
  - unfold hb_next in Hs. destruct (_ && _); [| done]. injection Hs as <-. right.
    split; [revert Hp | revert Hc]; fields.
  - unfold cancel_next in Hs. destruct (terminal _); [done |].
    destruct (is_str _ "pending"); [injection Hs as <-; left; lookups |].
    destruct (is_str (env !! "status") "processing") eqn:E2; [| done]. injection Hs as <-. right.
    split; lookups.
  - destruct (mem (rp_status r) TERMINAL) eqn:Em; [| done]. unfold finish_next in Hs.
    destruct (processing_by token env); [| done]. injection Hs as <-. left. by rewrite finished_status.
  - unfold reconcile_next in Hs. destruct (_ && _); [| done]. injection Hs as <-. left.
    by rewrite given_up_status.
Qed.
Lemma cancel_answer job now d s d' : _CANCEL_LUA job now d = (Some (Some (VStr s)), d') -> s <> "" ->
  holds doomed job d'.
Proof.
  intros Hrun Hs env Hv. pose proof (cancel_acts job now d) as Ha. rewrite Hrun in Ha.
  unfold _CANCEL_LUA in Hrun. rewrite lbind_run in Hrun. unfold lget in Hrun. unfold view in Ha at 1.
  destruct (GET d (env_key job)) as [raw|] eqn:Eg; [| unfold lret in Hrun; congruence].
  rewrite lbind_run in Hrun. unfold ldecode in Hrun.
  destruct (loads raw) as [e|] eqn:El; [| done]. cbn [lret] in Hrun. cbv zeta in Hrun.
  apply ended_view in Ha as (_ & Hv' & _); [| unfold view; by rewrite Eg]. simpl in Hv'.
  rewrite Hv in Hv'. injection Hv' as ->. unfold doomed, cancel_next.
  destruct (terminal (e !! "status")) eqn:Et; [by left |].
  destruct (is_str (e !! "status") "pending"); [left; lookups |].
  destruct (is_str (e !! "status") "processing") eqn:Ep; [right | unfold lret in Hrun; congruence].
  split; lookups.
Qed.

Lemma listed net1 net2 now d j : In j (fst (list_recoverable_durable_jobs true net1 net2 now d)) ->
  exists env, view d j = Some env /\
    (abandoned now env = Some true \/ is_str (env !! "status") "pending" = true).
Proof.
  assert (Hjob : forall l, scan_all (job_scan d now) (ZRANGEBYSCORE d _processing_key 0 now) = Some l ->
    In j l -> exists env, view d j = Some env /\ abandoned now env = Some true).
  { intros l Hl Hj. apply (scan_all_In _ _ _ j Hl) in Hj as (a & x & _ & Ha & Hj). unfold job_scan in Ha.
    destruct (GET d (env_key a)) as [raw|] eqn:Eg; [| by injection Ha as <-].
    destruct (loads raw) as [env|] eqn:El; [| done].
    destruct (abandoned now env) as [[]|] eqn:Ea; [| by injection Ha as <- | done].
    injection Ha as <-. destruct Hj as [<- | []]. exists env. unfold view. by rewrite Eg. }
  assert (Hclaim : forall l, scan_all (claim_scan d) (SCAN d _submission_prefix) = Some l ->
    In j l -> exists env, view d j = Some env /\ is_str (env !! "status") "pending" = true).
  { intros l Hl Hj. apply (scan_all_In _ _ _ j Hl) in Hj as (a & x & _ & Ha & Hj). unfold claim_scan in Ha.
    destruct (GET d a) as [raw|]; [| by injection Ha as <-]. destruct (loads raw) as [claim|]; [| done].
    cbv zeta in Ha. destruct (GET d (env_key _)) as [raw'|] eqn:Eg; [| by injection Ha as <-].
    destruct (loads raw') as [env|] eqn:El; [| done]. injection Ha as <-.
    destruct (is_str (env !! "status") "pending") eqn:Ep; [| done]. destruct Hj as [<- | []].
    exists env. unfold view. by rewrite Eg. }
  unfold list_recoverable_durable_jobs. cbn [negb].
  assert (H1 : forall net, eval net (_SCAN_PENDING_LUA now) d
    = (match net with Delivered => scan_all (job_scan d now) (ZRANGEBYSCORE d _processing_key 0 now)
                    | _ => None end, d)).
  { intros net. unfold _SCAN_PENDING_LUA, eval.
    rewrite (lfold_scan _ (job_scan d now) _ d (job_scan_run now d)).
    destruct net; simpl; [| done..]. by destruct (scan_all (job_scan d now) _). }
  assert (H2 : forall net, eval net _SCAN_PENDING_ENV_LUA d
    = (match net with Delivered => scan_all (claim_scan d) (SCAN d _submission_prefix)
                    | _ => None end, d)).
  { intros net. unfold _SCAN_PENDING_ENV_LUA, eval.
    rewrite (lfold_scan _ (claim_scan d) _ d (claim_scan_run d)).
    destruct net; simpl; [| done..]. by destruct (scan_all (claim_scan d) _). }
  rewrite H1. destruct net1; [| done..].
  destruct (scan_all (job_scan d now) _) as [l|] eqn:El; [| done]. rewrite H2.
  assert (Hl : In j l -> exists env, view d j = Some env /\
    (abandoned now env = Some true \/ is_str (env !! "status") "pending" = true))
    by (intros Hj; destruct (Hjob l eq_refl Hj) as (env & ? & ?); eauto).
  destruct net2; [| exact Hl..].
  destruct (scan_all (claim_scan d) _) as [p|] eqn:Ec; [| exact Hl]. simpl. rewrite add_missing_In.
  intros [Hj | Hj]; [by apply Hl |]. destruct (Hclaim p eq_refl Hj) as (env & ? & ?); eauto.
Qed.


(** ** The books: every job that is not finished can be found *)
Definition well (job : string) (env : jobj) : Prop :=
  (done_ env \/ is_str (env !! "status") "pending" = true
   \/ is_str (env !! "status") "processing" = true) /\
  (terminal (env !! "status") = false -> env !! "job_id" = Some (VStr job)).
(** A processing job is in the processing set, scored with its last sign of life, which is
    before the end of its lease. *)
Definition filed (d : db) (job : string) (env : jobj) : Prop :=
  is_str (env !! "status") "processing" = true ->
  exists s n, ZSCORE d _processing_key job = Some s /\ env !! "last_heartbeat" = Some (VNum s) /\
    env !! "lease_expiry" = Some (VNum n) /\ (0 <= s < n)%Z.
Definition books (d : db) : Prop := forall job raw, GET d (env_key job) = Some raw ->
  exists env, loads raw = Some env /\ well job env /\ filed d job env.

(** What a client sends: leases of positive length, envelopes as [create_job] makes them,
    terminal snapshots *)
Definition proper (c : call) : Prop :=
  match c with
  | Claim _ _ _ ttl now | Heartbeat _ _ _ ttl now => (0 < ttl)%Z /\ (0 <= now)%Z
  | Submit _ key job owner payload env _ =>
      exists session command stdin timeout now redact,
        env = new_envelope job key session command stdin owner payload timeout now redact
  | Snapshot _ _ _ _ r _ _ => mem (rp_status r) TERMINAL = true
  | _ => True
  end.

(** A database in which one envelope was replaced *)
Lemma books_replace d d' job env : books d -> view d' job = Some env -> well job env ->
  filed d' job env ->
  (forall j, j <> job -> GET d' (env_key j) = GET d (env_key j) \/ GET d' (env_key j) = None) ->
  (forall j, j <> job -> ZSCORE d' _processing_key j = ZSCORE d _processing_key j) -> books d'.
Proof.
  intros Hb Hv Hw Hf Hg Hz j raw Hr. destruct (decide (j = job)) as [-> | Hne].
  - unfold view in Hv. rewrite Hr in Hv. by exists env.
  - destruct (Hg j Hne) as [He | He]; [| congruence]. rewrite He in Hr.
    destruct (Hb j raw Hr) as (e & Hl & Hwe & Hfe). exists e. split; [done |]. split; [done |].
    unfold filed. by rewrite Hz.
Qed.
Lemma books_lapse d d' : books d -> (forall k, GET d' k = GET d k \/ GET d' k = None) ->
  (forall j, ZSCORE d' _processing_key j = ZSCORE d _processing_key j) -> books d'.
Proof.
  intros Hb Hg Hz j raw Hr. destruct (Hg (env_key j)) as [He | He]; [| congruence].
  rewrite He in Hr. destruct (Hb j raw Hr) as (e & Hl & Hw & Hf). exists e.
  split; [done |]. split; [done |]. unfold filed. by rewrite Hz.
Qed.

Lemma own_db job token ttl now env d : (0 < ttl)%Z -> env !! "job_id" = Some (VStr job) ->
  snd (own job token ttl now env d)
  = ZADD (SET (SET d (env_key job) (dumps env) 86400) (lease_key job) token ttl) _processing_key now job.
Proof.
  intros Ht Hj. unfold own, lbind, lset, lzadd, lret. rewrite Hj. simpl.
  by replace (0 <? ttl)%Z with true by lia.
Qed.
Lemma retire_db {A} job env z now (a : A) d :
  snd (retire job env (Some (VStr job)) z now a d)
  = ZADD (DEL (ZREM (SET d (env_key job) (dumps env) 604800) _processing_key job) (lease_key job)) z now job.
Proof. done. Qed.
Lemma eqb_env_key a b : String.eqb (env_key a) (env_key b) = String.eqb a b.
Proof.
  destruct (String.eqb_spec a b) as [-> | H]; [apply String.eqb_refl |].
  apply String.eqb_neq. by intros He%env_key_inj.
Qed.

Lemma ended_books {A} (yes : A -> bool) job next env d out : books d -> view d job = Some env ->
  ended yes job next env d out ->
  (forall env', next = Some env' -> well job env' /\
     (forall ttl now, leased ttl now env' -> (0 < ttl)%Z /\ (0 <= now)%Z)) ->
  books (snd out).
Proof.
  intros Hb Hv He Hn. pose proof (ended_view yes job next env d out Hv He) as (_ & Hj & _).
  assert (Hold : well job env /\ filed d job env).
  { unfold view in Hv. destruct (GET d (env_key job)) as [raw|] eqn:E; [| done].
    destruct (Hb job raw E) as (e & Hl & Hwf). by replace env with e by congruence. }
  destruct He as [a _ _ | env' token ttl now a Hs Hl | env' m z now a Hs Ht Hz Hnt Hm | env' a Hs Hp Hm];
    simpl in *; [done | | |]; rewrite Hs in Hj; destruct (Hn env' Hs) as [Hw Hg].
  - destruct (Hg ttl now Hl) as [Htt Hnn]. destruct Hl as (Hlease & Hbeat & Hproc).
    assert (Hid : env' !! "job_id" = Some (VStr job)) by (apply Hw, processing_not_terminal, Hproc).
    rewrite own_db in * by done. apply (books_replace d _ job env'); [done | exact Hj | done | | |].
    + intros _. exists now, (now + ttl)%Z. rewrite ZSCORE_ZADD, !String.eqb_refl. simpl.
      repeat (split; [done |]). lia.
    + intros j Hne. left. rewrite GET_ZADD, !GET_SET_ne; auto using env_lease. by intros H%env_key_inj.
    + intros j Hne. rewrite ZSCORE_ZADD, !ZSCORE_SET.
      apply not_eq_sym, String.eqb_neq in Hne. by rewrite Hne, andb_false_r.
  - assert (Hid : m = Some (VStr job)) by (destruct Hm as [-> | ->]; [done | by apply Hold]).
    subst m. rewrite retire_db in *. apply (books_replace d _ job env'); [done | exact Hj | done | | |].
    + intros Hp. by rewrite (terminal_not_processing env' Ht) in Hp.
    + intros j Hne. left. rewrite GET_ZADD, GET_DEL, GET_ZREM, GET_SET_ne by (by intros H%env_key_inj).
      by destruct (String.eqb_spec (lease_key job) (env_key j)) as [H%env_lease |].
    + intros j Hne. rewrite ZSCORE_ZADD, ZSCORE_DEL, ZSCORE_ZREM, ZSCORE_SET.
      apply not_eq_sym, String.eqb_neq in Hne. by rewrite Hne, !andb_false_r.
  - apply (books_replace d _ job env'); [done | exact Hj | done | | |].
    + intros _. subst env'. destruct Hold as [_ Hold]. destruct (Hold Hp) as (s & n & Hz & H1 & H2 & H3).
      exists s, n. rewrite ZSCORE_SET. split; [done |]. split; [lookups |]. split; [lookups | done].
    + intros j Hne. left. apply GET_SET_ne. by intros H%env_key_inj.
    + intros j Hne. apply ZSCORE_SET.
Qed.
Lemma acts_books {A} (yes : A -> bool) script job next d : acts yes script job next -> books d ->
  (forall env env', well job env -> filed d job env -> next env = Some env' -> well job env' /\
     (forall ttl now, leased ttl now env' -> (0 < ttl)%Z /\ (0 <= now)%Z)) ->
  books (snd (script d)).
Proof.
  intros Ha Hb Hn. specialize (Ha d). destruct (view d job) as [env|] eqn:Ev; [| by destruct Ha as [-> _]].
  apply (ended_books yes job (next env) env d _ Hb Ev Ha). intros env' He. apply (Hn env); [| | done];
    unfold view in Ev; destruct (GET d (env_key job)) as [raw|] eqn:E; try done;
    destruct (Hb job raw E) as (e & Hl & Hw & Hf); by replace env with e by congruence.
Qed.

(** Each decision keeps an envelope well formed. *)
Lemma done_not_leased env ttl now : done_ env -> ~ leased ttl now env.
Proof. intros Hd (_ & _ & Hp). by rewrite (terminal_not_processing env Hd) in Hp. Qed.
Lemma done_well job env : done_ env -> well job env.
Proof. intros Hd. split; [by left |]. unfold done_ in Hd. congruence. Qed.
Lemma step_well c job env env' d : proper c -> well job env -> filed d job env ->
  step_of c job env = Some env' -> well job env' /\
  (forall ttl now, leased ttl now env' -> (0 < ttl)%Z /\ (0 <= now)%Z).
Proof.
  intros Hp Hw Hf Hs.
  assert (Hdone : done_ env' -> well job env' /\
    (forall ttl now, leased ttl now env' -> (0 < ttl)%Z /\ (0 <= now)%Z))
    by (intros Hd; split; [by apply done_well |]; intros ttl now Hl; by apply done_not_leased in Hl).
  destruct c; cbn [step_of proper] in *; try done; try (destruct (String.eqb _ job); [| done]).
  - unfold claim_next in Hs. destruct (_ || _) eqn:Et; [done |]. apply orb_false_iff in Et as [Et _].
    assert (Hid : env !! "job_id" = Some (VStr job)) by (by apply Hw).
    destruct (processing_by token env) eqn:Eb; [| destruct (_ && _); [done |]]; injection Hs as <-.
    + apply andb_true_iff in Eb as [Ep _].
      split; [split; [right; right; fields | intros _; fields] |].
      intros ttl' now' (H1 & H2 & _). revert H1 H2. fields. intros [= H1] [= H2]. lia.
    + split; [split; [right; right; fields | intros _; fields] |].
      intros ttl' now' (H1 & H2 & _). revert H1 H2. fields. intros [= H1] [= H2]. lia.
  - unfold hb_next in Hs. destruct (_ && _) eqn:Eb; [| done]. injection Hs as <-.
    apply andb_true_iff in Eb as [[Ep _]%andb_true_iff _].
    assert (Hid : env !! "job_id" = Some (VStr job)) by (by apply Hw, processing_not_terminal).
    split; [split; [right; right; fields | intros _; fields] |].
    intros ttl' now' (H1 & H2 & _). revert H1 H2. fields. intros [= H1] [= H2]. lia.
  - unfold cancel_next in Hs. destruct (terminal (env !! "status")) eqn:Et; [done |].
    destruct (is_str (env !! "status") "pending");
      [injection Hs as <-; apply Hdone; unfold done_; lookups |].
    destruct (is_str (env !! "status") "processing") eqn:Ep; [| done]. injection Hs as <-.
    split; [split; [right; right; lookups | intros _; lookups; by apply Hw] |].
    destruct (Hf Ep) as (s & n & _ & H1 & H2 & H3).
    intros ttl' now' (H4 & H5 & _). revert H4 H5. lookups. rewrite H1, H2. intros [= H4] [= H5]. lia.
  - destruct (mem (rp_status r) TERMINAL) eqn:Em; [| done]. unfold finish_next in Hs.
    destruct (processing_by token env); [| done]. injection Hs as <-. apply Hdone. unfold done_.
    by rewrite finished_status.
  - unfold reconcile_next in Hs. destruct (_ && _); [| done]. injection Hs as <-. apply Hdone.
    unfold done_. by rewrite given_up_status.
Qed.

Lemma step_acts_books {A} (yes : A -> bool) script job next c d : proper c ->
  acts yes script job next -> (forall env, next env = step_of c job env) -> books d ->
  books (snd (script d)).
Proof.
  intros Hp Ha He Hb. apply (acts_books yes script job next d Ha Hb). intros env env' Hw Hf Hn.
  rewrite He in Hn. by apply (step_well c job env env' d).
Qed.
Lemma books_other d k v ex : books d -> (forall j, k <> env_key j) -> books (SET d k v ex).
Proof.
  intros Hb Hk j raw. rewrite GET_SET_ne by done. intros Hr. destruct (Hb j raw Hr) as (e & ? & ? & Hf).
  exists e. split; [done |]. split; [done |]. unfold filed. by rewrite ZSCORE_SET.
Qed.
Lemma books_done d job env ex z now : books d -> (0 < ex)%Z -> done_ env -> z <> _processing_key ->
  books (ZADD (SET d (env_key job) (dumps env) ex) z now job).
Proof.
  intros Hb Hx Hd Hz. apply (books_replace d _ job env); [done | | by apply done_well | | |].
  - by rewrite view_zadd, view_set.
  - intros Hp. by rewrite (terminal_not_processing env Hd) in Hp.
  - intros j Hne. left. rewrite GET_ZADD, GET_SET_ne; [done |]. by intros H%env_key_inj.
  - intros j Hne. rewrite ZSCORE_ZADD, ZSCORE_SET. apply String.eqb_neq in Hz. by rewrite Hz.
Qed.
Lemma pending_well job key session command stdin owner payload timeout now redact :
  well job (new_envelope job key session command stdin owner payload timeout now redact) /\
  is_str (new_envelope job key session command stdin owner payload timeout now redact !! "status")
    "processing" = false.
Proof. split; [split |]; [right; left | intros _ |]; done. Qed.

Lemma reserve_books key job owner payload session command stdin timeout redact claim now d : books d ->
  books (snd (_RESERVE_ENVELOPE_LUA (_submission_storage_key key) (env_key job) claim
    (dumps (new_envelope job key session command stdin owner payload timeout now redact))
    owner payload _submission_ttl_seconds d)).
Proof.
  intros Hb. unfold _RESERVE_ENVELOPE_LUA. set (env := new_envelope _ _ _ _ _ _ _ _ _ _).
  assert (Hset : forall k v ex d, books d -> (forall j, k <> env_key j) -> books (snd (lsetnx k v ex d))).
  { intros k v ex d0 H0 Hk. unfold lsetnx, SETNX. destruct (0 <? ex)%Z; [| done].
    destruct (GET d0 k); [done | by apply books_other]. }
  rewrite lbind_run.
  pose proof (Hset (_submission_storage_key key) claim _submission_ttl_seconds d Hb
                (fun j => env_submission key j)) as H1.
  destruct (lsetnx (_submission_storage_key key) _ _ d) as [[b1|] d1]; [| done]. simpl in H1.
  rewrite lbind_run.
  assert (H2 : books (snd (lsetnx (env_key job) (dumps env) _submission_ttl_seconds d1))).
  { unfold lsetnx, SETNX. cbn [Z.ltb Z.compare]. destruct (GET d1 (env_key job)) eqn:Eg; [done |].
    destruct (pending_well job key session command stdin owner payload timeout now redact) as [Hw Hp].
    apply (books_replace d1 _ job env); [done | by apply view_set | done | | |].
    - intros H. unfold env in H. congruence.
    - intros j Hne. left. apply GET_SET_ne. by intros H%env_key_inj.
    - intros j Hne. apply ZSCORE_SET. }
  destruct (lsetnx (env_key job) _ _ d1) as [[b2|] d2]; [| done]. simpl in H2.
  destruct (b1 && b2); [done |]. destruct b1.
  - unfold lbind, ldel. simpl. apply (books_lapse d2); [done | |].
    + intros k. rewrite GET_DEL. destruct (String.eqb _ k); auto.
    + intros j. apply ZSCORE_DEL.
  - rewrite lbind_run. unfold lget. destruct (GET d2 _) as [raw|]; [| done].
    rewrite lbind_run. unfold ldecode. destruct (loads raw) as [cl|]; [| done]. simpl.
    by destruct (_ || _).
Qed.

Lemma step_books c d : proper c -> books d -> books (snd (run c d)).
Proof.
  intros Hc. apply run_inv.
  assert (Hon : forall (x y : jobj -> option jobj) j env, x env = (if String.eqb j j then x else y) env)
    by (intros; by rewrite String.eqb_refl).
  destruct c; cbn [steps_keep]; unfold keeps.
  - intros d0 H0. eapply step_acts_books; [exact Hc | apply claim_acts | intros; apply Hon | done].
  - intros d0 H0. eapply step_acts_books; [exact Hc | apply hb_acts | intros; apply Hon | done].
  - intros d0 H0. eapply step_acts_books; [exact Hc | apply cancel_acts | intros; apply Hon | done].
  - intros d0 H0. eapply step_acts_books; [exact Hc | apply check_acts | done | done].
  - intros Hm d0 H0. eapply step_acts_books; [exact Hc | by apply finish_acts | | done].
    intros env. cbn [step_of]. by rewrite String.eqb_refl, Hm.
  - intros result job d0 H0. eapply step_acts_books; [exact Hc | apply reconcile_acts | done | done].
  - destruct Hc as (session & command & stdin & timeout & now0 & redact & ->).
    intros d0 H0. by apply reserve_books.
  - intros d0 H0. unfold run, save_terminal_job, save_snapshot. cbn [negb snd].
    apply books_done; [done | | exact Hc |]; by destruct (String.eqb _ "completed").
  - intros d0 H0. cbn [run snd].
    apply (books_lapse d0); [done | intros k; apply GET_elapse; lia | intros j; apply ZSCORE_elapse].
  - intros d0 H0. cbn [run snd]. apply (books_lapse d0); [done | | intros j; apply ZSCORE_evict].
    intros k'. rewrite GET_evict. destruct (String.eqb k k'); auto.
Qed.
Lemma all_books cs d : Forall proper cs -> books d -> books (run_all cs d).
Proof.
  revert d. induction cs as [|c cs IH]; intros d Hp Hb; [done |].
  apply List.Forall_cons_iff in Hp as [Hc Hp]. by apply IH, step_books.
Qed.

(** The books are kept: in every history of proper calls from a database in which they are
    right, with time passing, keys evicted and round trips lost at any point, every envelope
    that is stored decodes, names its own job unless it is terminal, and, while it is
    processing, is filed in the processing set under the time of its last heartbeat, which is
    before the end of its lease. *)
Theorem books_kept cs d : Forall proper cs -> books d -> books (run_all cs d).
Proof. apply all_books. Qed.
End Spec.
