(* ===== verification/RecoverySpec.v ===== *)
(** * What the durable queue promises a submitter

    No job is lost: as long as the server keeps its envelope, a recovery scan finds every job
    nobody is running.  And none runs under two names: a submission key answers for one job. *)
From stdpp Require Import gmap.
From S2P Require Import Prelude PyStr Digests Redis DurableJobs DurableFacts DurableSpec.
From stdpp Require Import options.

Section Recovery.
Context {R : Redis} {J : JsonCodec}.

(** ** Keys of submissions *)
Definition foreign (k : string) : Prop := forall j, env_key j <> k /\ lease_key j <> k.
Lemma prefix_foreign k : startswith _submission_prefix k = true -> foreign k.
Proof. intros H j. split; intros <-; vm_compute in H; discriminate. Qed.
Lemma submission_prefixed key : startswith _submission_prefix (_submission_storage_key key) = true.
Proof. done. Qed.
#[local] Hint Resolve submission_prefixed prefix_foreign : gw.

Lemma own_get job token ttl now env d k : foreign k ->
  GET (snd (own job token ttl now env d)) k = GET d k.
Proof.
  intros Hk. destruct (Hk job) as [He Hl]. unfold own, lbind, lset, lzadd, lret. simpl.
  destruct (0 <? ttl)%Z; simpl; [| by rewrite GET_SET_ne].
  destruct (env !! "job_id") as [[]|]; simpl; by rewrite ?GET_ZADD, !GET_SET_ne.
Qed.
Lemma retire_get {A} job env m z now (a : A) d k : foreign k ->
  GET (snd (retire job env m z now a d)) k = GET d k.
Proof.
  intros Hk. destruct (Hk job) as [He Hl]. unfold retire, lbind, lset, lzrem, ldel, lzadd, lret. simpl.
  destruct m as [[]|]; simpl; rewrite ?GET_ZADD, ?GET_DEL, ?GET_ZREM, ?GET_SET_ne by done; try done;
    by destruct (String.eqb_spec (lease_key job) k).
Qed.
Lemma acts_get {A} (yes : A -> bool) script job next k d : acts yes script job next -> foreign k ->
  GET (snd (script d)) k = GET d k.
Proof.
  intros Ha Hk. specialize (Ha d). destruct (view d job) as [env|]; [| by destruct Ha as [-> _]].
  destruct Ha; simpl; [done | by apply own_get | by apply retire_get |]. by apply GET_SET_ne, Hk.
Qed.

(** What is stored under a submission key satisfies [P], call after call, when a lapse and the
    scripts of a submission keep it. *)
Lemma run_key c k (P : option string -> Prop) d : foreign k ->
  match c with
  | Submit _ key job owner payload envelope now =>
      keeps (fun d => P (GET d k))
        (_RESERVE_ENVELOPE_LUA (_submission_storage_key key) (env_key job)
           (dumps (claim_object job owner payload now)) (dumps envelope) owner payload
           _submission_ttl_seconds)
  | Elapse _ | Evict _ => forall v, P v -> P None
  | _ => True
  end -> P (GET d k) -> P (GET (snd (run c d)) k).
Proof.
  intros Hk Hc. apply (run_inv (fun d => P (GET d k))).
  destruct c; cbn [steps_keep]; try done; unfold keeps; intros;
    try (erewrite acts_get by eauto using claim_acts, hb_acts, cancel_acts, check_acts, finish_acts,
           reconcile_acts; done).
  - unfold run, save_terminal_job, save_snapshot. cbn [negb snd]. rewrite GET_ZADD, GET_SET_ne; [done | apply Hk].
  - cbn [run snd]. destruct (GET_elapse d0 (Z.max 0 t) k ltac:(lia)) as [-> | ->]; [done | by eapply Hc].
  - cbn [run snd]. rewrite GET_evict. destruct (String.eqb _ k); [by eapply Hc | done].
Qed.

(** ** The script of a submission, case by case *)
Definition differs (owner payload : string) (claim : jobj) : bool :=
  negb (is_str (claim !! "owner_id") owner) || negb (is_str (claim !! "payload_hash") payload).
Lemma reserve_eq sub ek claim env owner payload ttl d : (0 < ttl)%Z -> sub <> ek ->
  _RESERVE_ENVELOPE_LUA sub ek claim env owner payload ttl d
  = match GET d sub with
    | None => match GET d ek with
              | None => (Some ReserveNew, SET (SET d sub claim ttl) ek env ttl)
              | Some _ => (Some ReserveFailed, DEL (SET d sub claim ttl) sub)
              end
    | Some raw =>
        (option_map (fun c => if differs owner payload c then ReserveConflict
                              else ReserveExisting (c !! "job_id")) (loads raw),
         snd (SETNX d ek env ttl))
    end.
Proof.
  intros Ht Hne. unfold _RESERVE_ENVELOPE_LUA. rewrite lbind_run. unfold lsetnx at 1.
  replace (0 <? ttl)%Z with true by lia. unfold SETNX at 1.
  destruct (GET d sub) as [raw|] eqn:Es; rewrite lbind_run; unfold lsetnx;
    replace (0 <? ttl)%Z with true by lia; unfold SETNX.
  - assert (Hraw : GET (snd (SETNX d ek env ttl)) sub = Some raw).
    { unfold SETNX. destruct (GET d ek); [done |]. simpl. by rewrite GET_SET_ne by congruence. }
    unfold SETNX in Hraw. destruct (GET d ek); cbn [andb snd] in *; rewrite lbind_run; unfold lget;
      rewrite Hraw, lbind_run; unfold ldecode; destruct (loads raw) as [c|]; try done; cbn [lret option_map];
      unfold differs; by destruct (_ || _).
  - rewrite GET_SET_ne by done. by destruct (GET d ek).
Qed.
Lemma ttl_pos : (0 < _submission_ttl_seconds)%Z.
Proof. done. Qed.
#[local] Hint Resolve ttl_pos env_submission : gw.

(** What a submission leaves under any key a submission may use *)
Lemma reserve_get key job claim env owner payload k d : foreign k ->
  GET (snd (_RESERVE_ENVELOPE_LUA (_submission_storage_key key) (env_key job) claim env owner payload
              _submission_ttl_seconds d)) k
  = (if String.eqb (_submission_storage_key key) k then
       match GET d k, GET d (env_key job) with None, None => Some claim | v, _ => v end
     else GET d k).
Proof.
  intros Hk. destruct (Hk job) as [He _]. rewrite reserve_eq by auto with gw.
  destruct (String.eqb_spec (_submission_storage_key key) k) as [<- | Hne].
  - destruct (GET d (_submission_storage_key key)) eqn:Es.
    + simpl. unfold SETNX. destruct (GET d (env_key job)); [done |]. simpl. by rewrite GET_SET_ne.
    + destruct (GET d (env_key job)); simpl.
      * by rewrite GET_DEL, String.eqb_refl.
      * rewrite GET_SET_ne by done. by apply GET_SET.
  - destruct (GET d (_submission_storage_key key)); simpl.
    + unfold SETNX. destruct (GET d (env_key job)); [done |]. simpl. by rewrite GET_SET_ne.
    + destruct (GET d (env_key job)); simpl.
      * rewrite GET_DEL, GET_SET_ne by done. apply String.eqb_neq in Hne. by rewrite Hne.
      * by rewrite !GET_SET_ne.
Qed.

(** ** A key answers for one job *)

(** The claim under [k] is there all along a history. *)
Fixpoint kept (k : string) (cs : list call) (d : db) : Prop :=
  GET d k <> None /\ match cs with [] => True | c :: r => kept k r (snd (run c d)) end.
Lemma step_key c key raw d : GET d (_submission_storage_key key) = Some raw ->
  GET (snd (run c d)) (_submission_storage_key key) = Some raw \/
  GET (snd (run c d)) (_submission_storage_key key) = None.
Proof.
  intros Hd. destruct c;
    try (left; apply (run_key _ _ (fun v => v = Some raw)); auto with gw; done); cbn [run snd].
  - left. apply (run_key (Submit net key0 job owner payload envelope now) _ (fun v => v = Some raw));
      auto with gw. intros d0 H0. rewrite reserve_get by auto with gw.
    destruct (String.eqb _ _); by rewrite ?H0.
  - destruct (GET_elapse d (Z.max 0 t) (_submission_storage_key key) ltac:(lia)) as [-> | ->]; auto.
  - rewrite GET_evict. destruct (String.eqb _ _); auto.
Qed.
Lemma kept_same key cs d raw : kept (_submission_storage_key key) cs d ->
  GET d (_submission_storage_key key) = Some raw ->
  GET (run_all cs d) (_submission_storage_key key) = Some raw.
Proof.
  revert d. induction cs as [|c cs IH]; intros d Hk Hd; [done |]. destruct Hk as [_ Hk].
  apply (IH _ Hk). destruct (step_key c key raw d Hd) as [H | H]; [done |].
  by destruct cs; destruct Hk as [Hs _].
Qed.

(** A submission's script, and the attempts that send it *)
Definition submit (key job owner payload : string) (envelope : jobj) (now : Z) : L reserve_reply :=
  _RESERVE_ENVELOPE_LUA (_submission_storage_key key) (env_key job)
    (dumps (claim_object job owner payload now)) (dumps envelope) owner payload _submission_ttl_seconds.
Lemma submit_won net i n key job owner payload envelope now d d1 :
  reserve_attempts net i n job (submit key job owner payload envelope now) d = (inr (job, true), d1) ->
  GET d1 (_submission_storage_key key) = Some (dumps (claim_object job owner payload now)) /\
  GET d1 (env_key job) = Some (dumps envelope).
Proof.
  revert i d. induction n as [|n IH]; intros i d H; [done |]. cbn [reserve_attempts] in H.
  destruct (eval (net i) _ d) as [[reply|] d'] eqn:E; [| done].
  destruct (net i); [| done | done]. cbn [eval] in E. unfold submit in E.
  destruct reply as [| | |v]; try (by apply (IH (S i) d')).
  - injection H as <-. rewrite reserve_eq in E by auto with gw.
    destruct (GET d (_submission_storage_key key)) as [raw|].
    + destruct (loads raw) as [c|]; [| done]. cbn [option_map] in E. by destruct (differs _ _ _).
    + destruct (GET d (env_key job)); [done |]. injection E as <-.
      split; [| by apply GET_SET]. rewrite GET_SET_ne by (apply not_eq_sym; auto with gw). by apply GET_SET.
  - destruct v as [v|]; [| by apply (IH (S i) d')].
    destruct (String.eqb _ ""); [by apply (IH (S i) d') | done].
Qed.

Lemma claim_differs job owner payload owner' payload' now :
  differs owner' payload' (claim_object job owner payload now)
  = negb (String.eqb owner owner' && String.eqb payload payload').
Proof.
  unfold differs. change (claim_object job owner payload now !! "owner_id") with (Some (VStr owner)).
  change (claim_object job owner payload now !! "payload_hash") with (Some (VStr payload)).
  by rewrite negb_andb.
Qed.
(** One run of the script where the key is bound: the claim stays, and the envelope is stored
    all the same when its job has none. *)
Lemma submit_bound key job owner payload envelope now j o p t d :
  GET d (_submission_storage_key key) = Some (dumps (claim_object j o p t)) ->
  submit key job owner payload envelope now d
  = (Some (if String.eqb o owner && String.eqb p payload then ReserveExisting (Some (VStr j))
           else ReserveConflict), snd (SETNX d (env_key job) (dumps envelope) _submission_ttl_seconds)).
Proof.
  intros Hd. unfold submit. rewrite reserve_eq, Hd, loads_dumps by auto with gw. cbn [option_map].
  rewrite claim_differs. by destruct (_ && _).
Qed.
Lemma setnx_stored d job v ex k : (0 < ex)%Z ->
  GET (snd (SETNX d (env_key job) v ex)) (env_key job)
  = match GET d (env_key job) with Some w => Some w | None => Some v end /\
  (foreign k -> GET (snd (SETNX d (env_key job) v ex)) k = GET d k).
Proof.
  intros Hx. unfold SETNX. destruct (GET d (env_key job)) as [w|] eqn:E; simpl; [done |].
  split; [by apply GET_SET |]. intros Hk. by apply GET_SET_ne, Hk.
Qed.
Lemma submit_answer net i n key job owner payload envelope now j o p t d : j <> "" ->
  GET d (_submission_storage_key key) = Some (dumps (claim_object j o p t)) ->
  fst (reserve_attempts net i (S n) job (submit key job owner payload envelope now) d)
  = if String.eqb o owner && String.eqb p payload
    then match net i with Delivered => inr (j, false) | _ => inl SubmissionUnavailableError end
    else inl SubmissionUnavailableError.
Proof.
  intros Hj. revert i d. induction n as [|n IH]; intros i d Hd;
    cbn [reserve_attempts]; destruct (net i); cbn [eval]; try (by destruct (_ && _));
    rewrite (submit_bound _ _ _ _ _ _ _ _ _ _ d Hd);
    destruct (String.eqb o owner && String.eqb p payload) eqn:E; try done;
    try (simpl; apply String.eqb_neq in Hj; by rewrite Hj).
  specialize (IH (S i) (snd (SETNX d (env_key job) (dumps envelope) _submission_ttl_seconds))).
  cbn [reserve_attempts] in IH. rewrite IH; [done |].
  destruct (setnx_stored d job (dumps envelope) _submission_ttl_seconds (_submission_storage_key key) ttl_pos)
    as [_ ->]; auto with gw.
Qed.
Lemma submit_stores net n key job owner payload envelope now j o p t d : net 0%nat = Delivered ->
  GET d (_submission_storage_key key) = Some (dumps (claim_object j o p t)) ->
  GET d (env_key job) = None ->
  GET (snd (reserve_attempts net 0 (S n) job (submit key job owner payload envelope now) d)) (env_key job)
  = Some (dumps envelope).
Proof.
  intros Hn Hd He. pose proof ttl_pos as Ht.
  assert (Hk : keeps (fun d => GET d (_submission_storage_key key) = Some (dumps (claim_object j o p t))
                     /\ GET d (env_key job) = Some (dumps envelope))
                (submit key job owner payload envelope now)).
  { intros d0 [H1 H2]. rewrite (submit_bound _ _ _ _ _ _ _ _ _ _ d0 H1). cbn [snd].
    destruct (setnx_stored d0 job (dumps envelope) _submission_ttl_seconds (_submission_storage_key key) Ht)
      as [-> ->]; [by rewrite H2 | auto with gw]. }
  cbn [reserve_attempts]. rewrite Hn. cbn [eval]. rewrite (submit_bound _ _ _ _ _ _ _ _ _ _ d Hd).
  set (d1 := snd (SETNX d (env_key job) (dumps envelope) _submission_ttl_seconds)).
  assert (H1 : GET d1 (_submission_storage_key key) = Some (dumps (claim_object j o p t)) /\
               GET d1 (env_key job) = Some (dumps envelope)).
  { unfold d1. destruct (setnx_stored d job (dumps envelope) _submission_ttl_seconds
      (_submission_storage_key key) Ht) as [-> ->]; [by rewrite He | auto with gw]. }
  pose proof (reserve_attempts_keeps (submit key job owner payload envelope now) _ net 1 n job d1 H1 Hk)
    as [_ H2].
  destruct (String.eqb o owner && String.eqb p payload); [| exact H2].
  destruct (String.eqb (py_text (VStr j)) ""); [exact H2 | by destruct H1].
Qed.

(** A submission key answers for one job: after a submission won the key, and for as long
    as the server keeps its claim, whatever clients and workers do, every further submission
    of the same work under the key is answered with that first job, or with an error when the
    server cannot be reached; one by another owner or of other work is refused, and only
    [find_submission] tells the conflict from an outage.  A submission that does not win
    stores the envelope of its own job all the same. *)
Theorem submission_once net key job owner payload envelope now d d1 cs
    net' job' owner' payload' envelope' now' :
  reserve_submission_with_job true net key job owner payload envelope now d = (inr (job, true), d1) ->
  job <> "" -> kept (_submission_storage_key key) cs d1 ->
  let d2 := run_all cs d1 in
  let again := reserve_submission_with_job true net' key job' owner' payload' envelope' now' d2 in
  let same := String.eqb owner owner' && String.eqb payload payload' in
  fst again = (if same then match net' 0%nat with
                            | Delivered => inr (job, false)
                            | _ => inl SubmissionUnavailableError
                            end
               else inl SubmissionUnavailableError) /\
  find_submission true Delivered key owner' payload' d2
  = (if same then inr (Some job) else inl SubmissionConflictError) /\
  (net' 0%nat = Delivered -> GET d2 (env_key job') = None ->
     GET (snd again) (env_key job') = Some (dumps envelope')).
Proof.
  intros Hwon Hj Hk d2 again same.
  assert (Hd2 : GET d2 (_submission_storage_key key) = Some (dumps (claim_object job owner payload now))).
  { apply kept_same; [done |]. by apply (submit_won net 0 3 key job owner payload envelope now d). }
  split; [| split].
  - by apply (submit_answer net' 0 2 key job' owner' payload' envelope' now' job owner payload now d2).
  - unfold find_submission. cbn [negb py_get]. rewrite Hd2, loads_dumps. by unfold same.
  - intros Hn He. by apply (submit_stores net' 2 key job' owner' payload' envelope' now'
                              job owner payload now d2).
Qed.

(** ** The identity of a submission *)

(** What was submitted, which no call changes *)
Definition identity_fields : list string :=
  ["job_id"; "id"; "owner_id"; "submission_key"; "payload_hash"; "session_id"; "command"; "stdin_b64";
   "timeout"; "redact_path_prefix"].
Lemma step_identity c job env env' k : In k identity_fields -> step_of c job env = Some env' ->
  env' !! k = env !! k.
Proof.
  intros Hk Hs.
  assert (Hne : forall x, ~ In x identity_fields -> x <> k) by (by intros x Hx ->).
  assert (Hset : forall x v (e : jobj), ~ In x identity_fields -> <[x := v]> e !! k = e !! k)
    by (intros; rewrite lookup_insert_ne; auto).
  assert (Hno : forall l, forallb (fun x => negb (mem x identity_fields)) l = true -> ~ In k l).
  { intros l Hl Hin. rewrite forallb_forall in Hl. specialize (Hl k Hin).
    apply negb_true_iff in Hl. apply mem_In in Hk. congruence. }
  assert (Hlit : forall x, mem x identity_fields = false -> ~ In x identity_fields)
    by (intros x Hx Hin; apply mem_In in Hin; congruence).
  destruct c; cbn [step_of] in Hs; try done; try (destruct (String.eqb _ job); [| done]).
  - unfold claim_next in Hs. destruct (_ || _); [done |].
    destruct (processing_by token env); [| destruct (_ && _); [done |]]; injection Hs as <-;
      unfold claimed, renewed; by rewrite !Hset by (by apply Hlit).
  - unfold hb_next in Hs. destruct (_ && _); [| done]. injection Hs as <-.
    unfold renewed. by rewrite !Hset by (by apply Hlit).
  - unfold cancel_next in Hs. destruct (terminal _); [done |].
    destruct (is_str _ "pending"); [| destruct (is_str _ "processing"); [| done]]; injection Hs as <-;
      by rewrite !Hset by (by apply Hlit).
  - destruct (mem (rp_status r) TERMINAL); [| done]. unfold finish_next in Hs.
    destruct (processing_by token env); [| done]. injection Hs as <-. by apply finished_field, Hno.
  - unfold reconcile_next in Hs. destruct (_ && _); [| done]. injection Hs as <-. by apply given_up_field, Hno.
Qed.
Lemma identity_kept cs job (env0 : jobj) d : forallb (fresh_for job) cs = true ->
  holds (fun env => forall k, In k identity_fields -> env !! k = env0 !! k) job d ->
  holds (fun env => forall k, In k identity_fields -> env !! k = env0 !! k) job (run_all cs d).
Proof.
  intros Hf Hd. apply run_all_keeps; [done | | done]. apply List.Forall_forall. intros c _ env env' He Hs k Hk.
  rewrite (step_identity c job env env' k Hk Hs). by apply He.
Qed.
Lemma bound_stable c key job owner payload :
  allowed (fun env => bound_to key job owner payload env = true) (step_of c job).
Proof.
  intros env env' Hb Hs. rewrite <- Hb. unfold bound_to.
  pose proof (fun k Hk => step_identity c job env env' k Hk Hs) as H.
  by rewrite (H "job_id"), (H "id"), (H "owner_id"), (H "submission_key"), (H "payload_hash")
    by (simpl; tauto).
Qed.

Lemma bound_fresh key job session command stdin owner payload timeout now redact :
  bound_to key job owner payload
    (new_envelope job key session command stdin owner payload timeout now redact) = true.
Proof.
  unfold bound_to. set (env := new_envelope _ _ _ _ _ _ _ _ _ _).
  assert (env !! "job_id" = Some (VStr job)) as -> by reflexivity.
  assert (env !! "owner_id" = Some (VStr owner)) as -> by reflexivity.
  assert (env !! "submission_key" = Some (VStr key)) as -> by reflexivity.
  assert (env !! "payload_hash" = Some (VStr payload)) as -> by reflexivity.
  unfold agrees, py_text. by rewrite !String.eqb_refl.
Qed.

(** A submission keeps its identity: after it won its key, and for as long as the server
    keeps its claim, resolving the key answers the job, owner and payload that were submitted,
    whatever was done to the job and whether or not its envelope is still there. *)
Theorem submission_resolves net key job session command stdin owner payload timeout now redact now1
    d d1 cs ix : books d -> Forall proper cs ->
  reserve_submission_with_job true net key job owner payload
    (new_envelope job key session command stdin owner payload timeout now redact) now1 d
  = (inr (job, true), d1) ->
  job <> "" -> strip job = job -> slen payload = 64%nat -> all_of lower_hex (lower payload) = true ->
  forallb (fresh_for job) cs = true -> kept (_submission_storage_key key) cs d1 ->
  resolve_submission_claim true Delivered Delivered ix key (run_all cs d1)
  = inr (Some (job, owner, payload)).
Proof.
  intros Hbooks Hp Hwon Hj Hs Hlen Hhex Hf Hk.
  assert (Hb1 : books (run_all cs d1)).
  { apply all_books; [done |].
    replace d1 with (snd (run (Submit net key job owner payload
      (new_envelope job key session command stdin owner payload timeout now redact) now1) d))
      by (cbn [run snd]; by rewrite Hwon).
    apply step_books; [| done]. by exists session, command, stdin, timeout, now, redact. }
  destruct (submit_won net 0 3 key job owner payload _ now1 d d1 Hwon) as [Hcl Henv].
  assert (Hb : holds (fun env => bound_to key job owner payload env = true) job (run_all cs d1)).
  { apply run_all_keeps; [done | apply List.Forall_forall; intros c _; apply bound_stable |].
    intros env. unfold view. rewrite Henv, loads_dumps. intros [= <-]. apply bound_fresh. }
  unfold resolve_submission_claim. cbn [negb py_get].
  rewrite (kept_same key cs d1 _ Hk Hcl), loads_dumps. cbn [mem_jv].
  assert (Hid : envelope_identity (claim_object job owner payload now1) = Some (job, owner, payload)).
  { unfold envelope_identity. set (claim := claim_object job owner payload now1).
    assert (claim !! "job_id" = Some (VStr job)) as -> by reflexivity.
    assert (claim !! "owner_id" = Some (VStr owner)) as -> by reflexivity.
    assert (claim !! "payload_hash" = Some (VStr payload)) as -> by reflexivity.
    apply String.eqb_neq in Hj. by rewrite Hs, Hj, Hlen, Hhex. }
  rewrite Hid. cbn [negb mem_jv].
  change (mem_jv (claim_object job owner payload now1 !! "version") [VNum 1; VBool true]) with true. cbn [negb].
  unfold holds, view in Hb. destruct (GET (run_all cs d1) (env_key job)) as [raw|] eqn:Hraw; [| done].
  destruct (Hb1 job raw Hraw) as (env & Hl & _). rewrite Hl in *. by rewrite (Hb env eq_refl).
Qed.

(** ** No job is lost *)

(** Every stored claim is one: it decodes and names a job. *)
Definition claim_of (raw : string) (job : string) : Prop :=
  exists claim, loads raw = Some claim /\ claim !! "job_id" = Some (VStr job).
Definition claims (d : db) : Prop := forall k raw, startswith _submission_prefix k = true ->
  GET d k = Some raw -> exists job, claim_of raw job.
Lemma claims_kept c d : claims d -> claims (snd (run c d)).
Proof.
  intros Hd k raw Hk. apply (run_key c k (fun v => v = Some raw -> exists job, claim_of raw job));
    [by apply prefix_foreign | | by apply Hd].
  destruct c; try done. intros d0 H0. rewrite reserve_get by auto with gw.
  destruct (String.eqb _ k); [| done]. destruct (GET d0 k); [done |].
  destruct (GET d0 (env_key job)); [done |]. intros [= <-]. exists job.
  exists (claim_object job owner payload now). split; [apply loads_dumps | done].
Qed.
Lemma claims_all_kept cs d : claims d -> claims (run_all cs d).
Proof. revert d. induction cs as [|c cs IH]; intros d Hd; [done |]. by apply IH, claims_kept. Qed.

Lemma books_view d job env : books d -> view d job = Some env ->
  GET d (env_key job) <> None /\ well job env /\ filed d job env.
Proof.
  intros Hb. unfold view. destruct (GET d (env_key job)) as [raw|] eqn:E; [| done].
  destruct (Hb job raw E) as (e & Hl & Hw & Hf). rewrite Hl. intros [= <-]. done.
Qed.
Lemma job_scan_total d now : books d -> exists l,
  scan_all (job_scan d now) (ZRANGEBYSCORE d _processing_key 0 now) = Some l.
Proof.
  intros Hb. apply scan_all_Some. intros jid _. unfold job_scan.
  destruct (GET d (env_key jid)) as [raw|] eqn:E; [| done].
  destruct (Hb jid raw E) as (env & -> & _ & Hf). unfold abandoned.
  destruct (is_str (env !! "status") "processing") eqn:Ep; [| done]. simpl.
  destruct (Hf Ep) as (s & n & _ & _ & Hn & _). unfold over, lease_live. rewrite Hn. simpl.
  by destruct (truthy _).
Qed.
Lemma claim_scan_total d : books d -> claims d -> exists l,
  scan_all (claim_scan d) (SCAN d _submission_prefix) = Some l.
Proof.
  intros Hb Hc. apply scan_all_Some. intros k Hk. apply SCAN_spec in Hk as [Hp _]. unfold claim_scan.
  destruct (GET d k) as [raw|] eqn:E; [| done]. destruct (Hc k raw Hp E) as (job & claim & -> & ->).
  cbn [tostring]. destruct (GET d (env_key job)) as [raw'|] eqn:E'; [| done].
  by destruct (Hb job raw' E') as (env & -> & _).
Qed.

(** Left by its worker: processing, not cancelled, the lease over *)
Definition orphaned (now : Z) (env : jobj) : Prop :=
  is_str (env !! "status") "processing" = true /\ truthy (env !! "cancel_requested") = false /\
  lease_live now env = Some false.
Lemma orphan_listed d job env now : books d -> view d job = Some env -> orphaned now env ->
  exists x, In job (ZRANGEBYSCORE d _processing_key 0 now) /\ job_scan d now job = Some x /\ In job x.
Proof.
  intros Hb Hv (Hp & Hc & Hl). destruct (books_view d job env Hb Hv) as (_ & _ & Hf).
  destruct (Hf Hp) as (s & n & Hz & _ & Hn & Hs). exists [job]. split; [| split; [| by left]].
  - apply ZRANGE_spec. exists s. split; [done |]. revert Hl. unfold lease_live. rewrite Hn.
    intros [= Hl]. apply Z.leb_gt in Hl. lia.
  - unfold view in Hv. unfold job_scan. destruct (GET d (env_key job)); [| done]. rewrite Hv.
    unfold abandoned. rewrite Hp, Hc. unfold over. rewrite Hl, Hn. done.
Qed.
Lemma pending_listed d job env key raw : view d job = Some env ->
  is_str (env !! "status") "pending" = true ->
  GET d (_submission_storage_key key) = Some raw -> claim_of raw job ->
  exists x, In (_submission_storage_key key) (SCAN d _submission_prefix) /\
    claim_scan d (_submission_storage_key key) = Some x /\ In job x.
Proof.
  intros Hv Hp Hg (claim & Hl & Hid). exists [job]. split; [| split; [| by left]].
  - apply SCAN_spec. by rewrite Hg.
  - unfold claim_scan. rewrite Hg, Hl, Hid. cbn [tostring]. unfold view in Hv.
    destruct (GET d (env_key job)); [| done]. by rewrite Hv, Hp.
Qed.

Lemma own_ok job token ttl now env d : (0 < ttl)%Z -> env !! "job_id" = Some (VStr job) ->
  fst (own job token ttl now env d) = Some true.
Proof.
  intros Ht Hj. unfold own, lbind, lset, lzadd, lret. rewrite Hj. simpl.
  by replace (0 <? ttl)%Z with true by lia.
Qed.
(** The script of a claim says yes whenever its decision is to take the job. *)
Lemma claim_ok job token ttl now env d : (0 < ttl)%Z -> view d job = Some env -> well job env ->
  claim_next token ttl now env <> None -> fst (_CLAIM_LUA job token ttl now d) = Some true.
Proof.
  intros Ht Hv [_ Hid] Hn. unfold view in Hv. unfold _CLAIM_LUA. rewrite lbind_run. unfold lget.
  destruct (GET d (env_key job)) as [raw|]; [| done]. rewrite lbind_run. unfold ldecode. rewrite Hv.
  cbn [lret]. cbv zeta. unfold claim_next, processing_by in Hn.
  destruct (terminal (env !! "status")); [done |]. specialize (Hid eq_refl).
  destruct (is_str (env !! "status") "processing"); cbn [andb orb] in *.
  - destruct (truthy (env !! "cancel_requested")); [done |].
    destruct (is_str (env !! "worker_token") token).
    { apply own_ok; [done |]. unfold renewed. lookups. }
    destruct (bool_decide (lease_live now env = Some false)) eqn:El; [| done].
    apply bool_decide_eq_true in El. rewrite lbind_run.
    destruct (truthy (env !! "lease_expiry")) eqn:Et.
    + rewrite lle_live, El by done. apply own_ok; [done |]. unfold renewed. lookups.
    + apply own_ok; [done |]. unfold renewed. lookups.
  - rewrite lbind_run. apply own_ok; [done |]. unfold renewed. lookups.
Qed.

Lemma recovery_scan cs d job env now token ttl : Forall proper cs -> books d -> claims d ->
  let d' := run_all cs d in
  view d' job = Some env -> (0 < ttl)%Z ->
  (orphaned now env \/
   (is_str (env !! "status") "pending" = true /\
    exists key raw, GET d' (_submission_storage_key key) = Some raw /\ claim_of raw job)) ->
  In job (fst (list_recoverable_durable_jobs true Delivered Delivered now d')) /\
  fst (run (Claim Delivered job token ttl now) d') = true /\
  exists env', view (snd (run (Claim Delivered job token ttl now) d')) job = Some env' /\
    processing_by token env' = true.
Proof.
  intros Hp Hb Hc d' Hv Ht Hcase.
  assert (Hb' : books d') by (by apply all_books). assert (Hc' : claims d') by (by apply claims_all_kept).
  split.
  - rewrite list_recoverable_eq. destruct (job_scan_total d' now Hb') as [l Hl].
    destruct (claim_scan_total d' Hb' Hc') as [p Hs]. rewrite Hl, Hs. cbn [fst]. rewrite add_missing_In.
    destruct Hcase as [Ho | (Hst & key & raw & Hg & Hcl)]; [left | right].
    + destruct (orphan_listed d' job env now Hb' Hv Ho) as (x & Hin & Hx & Hj).
      apply (scan_all_In _ _ _ job Hl). eauto.
    + destruct (pending_listed d' job env key raw Hv Hst Hg Hcl) as (x & Hin & Hx & Hj).
      apply (scan_all_In _ _ _ job Hs). eauto.
  - destruct (books_view d' job env Hb' Hv) as (_ & Hw & _).
    assert (Hn : exists env', claim_next token ttl now env = Some env' /\ processing_by token env' = true).
    { unfold claim_next. destruct Hcase as [(Hpr & Hcr & Hll) | (Hst & _)].
      - rewrite Hpr, Hcr, (processing_not_terminal env Hpr), Hll. cbn [orb andb negb].
        destruct (processing_by token env) eqn:Eb; eexists; (split; [done |]).
        + rewrite <- Eb. apply processing_by_status; unfold renewed; lookups.
        + unfold processing_by, claimed, renewed. apply andb_true_iff. split; lookups. simpl.
          apply String.eqb_refl.
      - destruct (pending_only env Hst) as [Hte Hpr]. rewrite Hte, Hpr. cbn [orb andb].
        unfold processing_by at 1. rewrite Hpr. cbn [andb]. eexists. split; [done |].
        unfold processing_by, claimed, renewed. apply andb_true_iff. split; lookups. simpl.
        apply String.eqb_refl. }
    destruct Hn as (env' & Hn & Hby).
    assert (Hok : fst (_CLAIM_LUA job token ttl now d') = Some true)
      by (apply (claim_ok job token ttl now env d'); [done | done | done | by rewrite Hn]).
    cbn [run]. unfold claim_durable_execution. cbn [negb eval].
    destruct (_CLAIM_LUA job token ttl now d') as [a d2] eqn:E. simpl in Hok. subst a.
    destruct (eval_yes id _ job _ Delivered d' true d2 (claim_acts job token ttl now) E eq_refl)
      as (e & e' & He & Hne & He').
    split; [done |]. exists env'. split; [| done]. cbn [snd]. congruence.
Qed.

(** C20: No job is lost: whatever history of proper calls, lapses and failing round trips led to
    the database, a job whose envelope the server still keeps, and that is processing with its
    lease over and no cancellation asked, or pending under a submission key whose claim is
    still there, is listed by a recovery scan that reaches the server; and a worker that then
    claims it is given it. *)
Theorem recovery_complete cs d job env now token ttl : Forall proper cs -> books d -> claims d ->
  let d' := run_all cs d in
  view d' job = Some env -> (0 < ttl)%Z ->
  (orphaned now env \/
   (is_str (env !! "status") "pending" = true /\
    exists key raw, GET d' (_submission_storage_key key) = Some raw /\ claim_of raw job)) ->
  In job (fst (list_recoverable_durable_jobs true Delivered Delivered now d')) /\
  fst (run (Claim Delivered job token ttl now) d') = true /\
  exists env', view (snd (run (Claim Delivered job token ttl now) d')) job = Some env' /\
    processing_by token env' = true.
Proof. apply recovery_scan. Qed.

(** ** The unfenced write *)
Lemma snapshot_view job session command owner r redact now d :
  view (snd (run (Snapshot job session command owner r redact now) d)) job
  = Some (terminal_snapshot job session command owner r now redact).
Proof.
  cbn [run snd]. unfold save_terminal_job, save_snapshot. cbn [negb]. rewrite view_zadd. apply view_set.
  by destruct (String.eqb _ _).
Qed.

(** The snapshot of a finished job ([save_terminal_job], which a forced shutdown sends for
    the jobs it still holds as pending) is not fenced: it replaces the envelope of a durable
    job whoever is running it, for good.  From then on the heartbeats and the report of the
    worker that holds the lease are refused, and its outcome is lost. *)
Theorem snapshot_unfenced job session command owner r redact now d cs worker :
  mem (rp_status r) TERMINAL = true -> forallb (fresh_for job) cs = true ->
  let d1 := snd (run (Snapshot job session command owner r redact now) d) in
  let d2 := run_all cs d1 in
  (forall env, view d2 job = Some env -> env !! "status" = Some (VStr (rp_status r)) /\
                                         env !! "job_id" = None) /\
  (forall net ttl now', refused (Heartbeat net job worker ttl now') d2) /\
  (forall net report now', refused (Finish net job worker report now') d2) /\
  acknowledged job cs d1 = [].
Proof.
  intros Hr Hf d1 d2. set (snap := terminal_snapshot job session command owner r now redact).
  assert (Hdone : done_ snap) by exact Hr.
  assert (H1 : holds (eq snap) job d1)
    by (intros env Hv; unfold d1 in Hv; rewrite snapshot_view in Hv; by injection Hv).
  assert (H2 : holds (eq snap) job d2) by (by apply frozen_keeps).
  assert (Hstuck : forall c env, view d2 job = Some env -> step_of c job env = None)
    by (intros c env <-%H2; by apply done_none).
  split; [intros env <-%H2; by split |]. split; [| split].
  - intros net ttl now'. apply (run_refused _ job); [done | apply Hstuck].
  - intros net report now'. apply (run_refused _ job); [done | apply Hstuck].
  - by apply (frozen_silent cs job snap).
Qed.
End Recovery.
