(* ===== verification/AuthSpec.v ===== *)
(** * What it takes to pass the authentication of a route or a WebSocket, and the accounts *)
From S2P Require Import Prelude PyStr CommandGate ClientIp Rbac AgentTokens Url Auth.
From S2P Require Import UserAuth.
From stdpp Require Import options.

Section Spec.
Context {S : Strings} {M : MetaCodec} {J : Jwt}.
Implicit Types (s : AuthSettings) (store : option TokenStore) (rq : HttpRequest).

(** ** Reaching a route *)

(** The requests the middleware lets through without an identity *)
Definition unguarded rq : bool :=
  let path := _normalise_path (hr_path rq) in
  String.eqb (hr_method rq) "OPTIONS"
  || String.eqb (hr_method rq) "GET" && mem path ALWAYS_PUBLIC
  || String.eqb (hr_method rq) "GET" && (String.eqb path "/static" || startswith "/static/" path)
  || mem path PUBLIC_AUTH_PATHS.
(** The server has a key and its networks, and the client comes from one of them. *)
Definition admissible s rq : bool :=
  negb (String.eqb (api_key s) "") && negb (no_network (allowed_client_cidrs s))
  && negb (no_network (au_trusted_proxy_cidrs s))
  && is_ip_allowed (client_of rq (parse_cidrs (au_trusted_proxy_cidrs s)))
       (parse_cidrs (allowed_client_cidrs s)).

Definition web_token s (token : string) (now : Z) (c : jwt_claims) : Prop :=
  jwt_secret s <> "" /\ jwt_decode token (jwt_secret s) now = Some c /\ jc_type c = Some "web-ui".
Lemma verify_jwt_spec s token now c : verify_jwt s token now = Ok (Some c) <-> web_token s token now c.
Proof.
  unfold verify_jwt, jwt_secret_required, web_token.
  destruct (String.eqb_spec (jwt_secret s) "") as [E | E]; simpl; [split; [done | tauto] |].
  destruct (jwt_decode token (jwt_secret s) now) as [p|]; [| split; [done | by intros (_ & ? & _)]].
  case_bool_decide as Ht; split; [by intros [= ->] | by intros (_ & [= ->] & _) | done |].
  by intros (_ & [= ->] & ?).
Qed.

(** The four ways to an identity, in the order the middleware tries them *)
Inductive credential s store rq (now : Z) : AuthIdentity -> Prop :=
| ByMasterKey : compare_digest (presented rq) (api_key s) = Ok true -> presented rq <> "" ->
    credential s store rq now (master_identity (presented rq) "master")
| ByAgentToken i : compare_digest (presented rq) (api_key s) = Ok false -> presented rq <> "" ->
    is_agent_token_valid s (presented rq) store now = Ok (Some i) -> credential s store rq now i
| ByBearer c i : verify_api_key s store rq now = Ok None ->
    startswith "Bearer " (header "authorization" rq) = true -> web_token s (bearer rq) now c ->
    web_identity (bearer rq) c false = Ok i -> credential s store rq now i
| ByCookie token c i : verify_api_key s store rq now = Ok None ->
    (startswith "Bearer " (header "authorization" rq) = true -> verify_jwt s (bearer rq) now = Ok None) ->
    dict_get AUTH_COOKIE_NAME (hr_cookies rq) = Some token -> token <> "" ->
    web_token s token now c -> _cookie_csrf_ok rq = Ok true ->
    web_identity token c true = Ok i -> credential s store rq now i.

Lemma verify_api_key_spec s store rq now i : verify_api_key s store rq now = Ok (Some i) <->
  presented rq <> "" /\
  ((compare_digest (presented rq) (api_key s) = Ok true /\ i = master_identity (presented rq) "master") \/
   (compare_digest (presented rq) (api_key s) = Ok false /\
    is_agent_token_valid s (presented rq) store now = Ok (Some i))).
Proof.
  unfold verify_api_key. destruct (String.eqb_spec (presented rq) "") as [E | E]; [split; [done | tauto] |].
  destruct (compare_digest _ _) as [[]|]; simpl; split; intros H; try done.
  - injection H as <-. auto.
  - by destruct H as (_ & [[_ ->] | [? _]]).
  - auto.
  - by destruct H as (_ & [[? _] | [_ ?]]).
  - by destruct H as (_ & [[? _] | [? _]]).
Qed.

Lemma cookie_check_spec s rq now i : cookie_check s rq now = Ok (None, Some i) <->
  exists token c, dict_get AUTH_COOKIE_NAME (hr_cookies rq) = Some token /\ token <> "" /\
    web_token s token now c /\ _cookie_csrf_ok rq = Ok true /\ web_identity token c true = Ok i.
Proof.
  unfold cookie_check, refuse, let_in.
  destruct (dict_get AUTH_COOKIE_NAME (hr_cookies rq)) as [token|]; cbn [default from_option id];
    [| split; [done | by intros (? & ? & ? & _)]].
  destruct (String.eqb_spec token "") as [E | E].
  { split; [done | intros (? & ? & [= <-] & ? & _); done]. }
  pose proof (verify_jwt_spec s token now) as Hv. destruct (verify_jwt s token now) as [[c|]|e]; simpl.
  - pose proof (proj1 (Hv c) eq_refl) as Hc. split.
    + intros H. exists token, c. destruct (_cookie_csrf_ok rq) as [[]|]; simpl in H; try done.
      destruct (web_identity token c true) eqn:Ew; simpl in H; [| done]. injection H as ->. auto.
    + intros (? & c' & [= <-] & _ & Hc'%Hv & -> & Hi). injection Hc' as ->. simpl. by rewrite Hi.
  - split; [done | intros (? & c & [= <-] & _ & Hc%Hv & _); done].
  - split; [done | intros (? & c & [= <-] & _ & Hc%Hv & _); done].
Qed.

Lemma credential_cases s store rq now i : credential s store rq now i <->
  verify_api_key s store rq now = Ok (Some i) \/
  (verify_api_key s store rq now = Ok None /\
   ((exists c, startswith "Bearer " (header "authorization" rq) = true /\
       web_token s (bearer rq) now c /\ web_identity (bearer rq) c false = Ok i) \/
    ((startswith "Bearer " (header "authorization" rq) = true -> verify_jwt s (bearer rq) now = Ok None) /\
     exists token c, dict_get AUTH_COOKIE_NAME (hr_cookies rq) = Some token /\ token <> "" /\
       web_token s token now c /\ _cookie_csrf_ok rq = Ok true /\ web_identity token c true = Ok i))).
Proof.
  rewrite verify_api_key_spec. split.
  - intros [? ? | ? ? ? ? | c ? ? ? ? ? | token c ? ? ? ? ? ? ? ?]; eauto 12.
  - intros [(? & [[? ->] | [? ?]]) | (? & [(c & ? & ? & ?) | (? & token & c & ? & ? & ? & ? & ?)])];
      [by apply ByMasterKey | by apply ByAgentToken | by eapply ByBearer | by eapply ByCookie].
Qed.

Lemma auth_check_guarded s store rq now i : api_auth_enabled s = true ->
  auth_check s store rq now = Ok (None, Some i) <->
  unguarded rq = false /\ admissible s rq = true /\ credential s store rq now i.
Proof.
  intros Hen. unfold auth_check, unguarded, admissible. rewrite Hen. cbn [negb].
  destruct (String.eqb (hr_method rq) "OPTIONS"); [by split; [| intros []] |].
  destruct (_ && mem _ ALWAYS_PUBLIC); [by split; [| intros []] |].
  destruct (_ && (_ || _)); [by split; [| intros []] |].
  destruct (mem _ PUBLIC_AUTH_PATHS); [by split; [| intros []] |]. cbn [orb].
  destruct (String.eqb (api_key s) ""); [by split; [| intros (_ & ? & _)] |].
  destruct (no_network (allowed_client_cidrs s)); [by split; [| intros (_ & ? & _)] |].
  destruct (no_network (au_trusted_proxy_cidrs s)); [by split; [| intros (_ & ? & _)] |].
  destruct (is_ip_allowed _ _); [| by split; [| intros (_ & ? & _)]]. cbn [negb andb].
  unfold let_in. rewrite credential_cases. set (bearer_check := if startswith _ _ then _ else _).
  destruct (verify_api_key s store rq now) as [[k|]|e]; cbn [rbind].
  - split; [intros [= ->]; auto |]. by intros (_ & _ & [[= ->] | [? _]]).
  - transitivity ((exists c, startswith "Bearer " (header "authorization" rq) = true /\
        web_token s (bearer rq) now c /\ web_identity (bearer rq) c false = Ok i) \/
      (bearer_check = Ok None /\ cookie_check s rq now = Ok (None, Some i))).
    2: { rewrite cookie_check_spec.
         assert (Hb : bearer_check = Ok None <-> (startswith "Bearer " (header "authorization" rq) = true ->
                        verify_jwt s (bearer rq) now = Ok None)).
         { unfold bearer_check. destruct (startswith _ _); split; intros H; [done | by apply H | done | done]. }
         rewrite Hb. split; [auto 6 |]. by intros (_ & _ & [? | [_ ?]]). }
    unfold bearer_check. destruct (startswith "Bearer " (header "authorization" rq)); cbn [rbind].
    + pose proof (verify_jwt_spec s (bearer rq) now) as Hv.
      destruct (verify_jwt s (bearer rq) now) as [[c|]|e]; cbn [rbind].
      * destruct (web_identity (bearer rq) c false) as [w|] eqn:Ew; cbn [rbind].
        -- split; [intros [= ->]; left; exists c; by rewrite <- Hv |].
           intros [(c' & _ & [= ->]%Hv & Hw) | [? _]]; congruence.
        -- split; [done |]. intros [(c' & _ & [= ->]%Hv & Hw) | [? _]]; congruence.
      * split; [by right |]. by intros [(c' & _ & ?%Hv & Hw) | [_ ?]].
      * split; [done |]. by intros [(c' & _ & ?%Hv & Hw) | [? _]].
    + split; [by right |]. by intros [(c' & ? & _) | [_ ?]].
  - split; [done |]. by intros (_ & _ & [? | [? _]]).
Qed.

Definition scope_held (required : string) (i : AuthIdentity) : Prop :=
  id_token_type i = "master" \/ In "*" (id_scopes i) \/ In required (id_scopes i) \/
  role_allows_scope (id_role i) (identity_permissions i) required = true.
Lemma require_scope_held required i j :
  require_scope required (Some i) = Ok j <-> j = i /\ scope_held required i.
Proof.
  unfold require_scope, scope_held. rewrite <- !mem_In.
  destruct (String.eqb_spec (id_token_type i) "master") as [Hm | Hm].
  { split; [intros [= ->]; auto | by intros [-> _]]. }
  destruct (mem "*" (id_scopes i)); cbn [orb]; [split; [intros [= ->]; auto | by intros [-> _]] |].
  destruct (mem required (id_scopes i)); [split; [intros [= ->]; auto | by intros [-> _]] |].
  destruct (role_allows_scope _ _ required); [split; [intros [= ->]; auto | by intros [-> _]] |].
  split; [done |]. intros [_ [? | [? | [? | ?]]]]; congruence.
Qed.

(** What is let through unguarded carries no identity. *)
Lemma auth_check_unguarded s store rq now : api_auth_enabled s = true -> unguarded rq = true ->
  auth_check s store rq now = Ok (None, None).
Proof.
  intros Hen. unfold auth_check, unguarded. rewrite Hen. cbn [negb].
  destruct (String.eqb (hr_method rq) "OPTIONS"); [done |].
  destruct (_ && mem _ ALWAYS_PUBLIC); [done |].
  destruct (_ && (_ || _)); [done |].
  by destruct (mem _ PUBLIC_AUTH_PATHS).
Qed.
(** No identity comes with a refusal, and none without one when the request is guarded. *)
Lemma auth_check_state s store rq now v : api_auth_enabled s = true -> unguarded rq = false ->
  auth_check s store rq now = Ok v -> (fst v = None <-> snd v <> None).
Proof.
  intros Hen. unfold auth_check, unguarded. rewrite Hen. cbn [negb].
  destruct (String.eqb (hr_method rq) "OPTIONS"); [done |].
  destruct (_ && mem _ ALWAYS_PUBLIC); [done |].
  destruct (_ && (_ || _)); [done |].
  destruct (mem _ PUBLIC_AUTH_PATHS); [done |]. intros _.
  assert (Hr : forall status code, refuse status code = Ok v -> fst v = None <-> snd v <> None)
    by (by intros ? ? [= <-]).
  assert (Ha : forall i, let_in i = Ok v -> fst v = None <-> snd v <> None) by (by intros ? [= <-]).
  destruct (String.eqb (api_key s) ""); [apply Hr |].
  destruct (no_network _); [apply Hr |]. destruct (no_network _); [apply Hr |].
  destruct (negb _); [apply Hr |].
  intros ([k|] & _ & H)%rbind_ok_inv; [by apply (Ha k) |].
  apply rbind_ok_inv in H as ([c|] & _ & H).
  { apply rbind_ok_inv in H as (i & _ & H). by apply (Ha i). }
  unfold cookie_check in H. destruct (String.eqb _ ""); [by eapply Hr |].
  apply rbind_ok_inv in H as ([c|] & _ & H); [| by eapply Hr].
  apply rbind_ok_inv in H as ([] & _ & H); cbn [negb] in H; [| by eapply Hr].
  apply rbind_ok_inv in H as (i & _ & H). by apply (Ha i).
Qed.

Lemma web_identity_ok token c cookie i : web_identity token c cookie = Ok i -> id_token_type i = "web-ui".
Proof. unfold web_identity. destruct (jc_sub c); [by intros [= <-] | done]. Qed.
Lemma agent_identity_ok s provided store now i :
  is_agent_token_valid s provided store now = Ok (Some i) ->
  id_token_type i = "agent" /\ id_token i = provided.
Proof.
  unfold is_agent_token_valid. destruct (String.eqb provided ""); [done |].
  destruct store as [[[] a d]|].
  1: { intros ([[valid scopes] meta] & _ & H)%rbind_ok_inv. destruct valid; [| done].
       by injection H as <-. }
  all: destruct (String.eqb (agent_token s) ""); [done |];
    destruct (match agent_token_expires_at s with Some t => _ | None => _ end); [done |];
    intros ([] & _ & H)%rbind_ok_inv; [by injection H as <- | done].
Qed.
Lemma digest_eq a b : compare_digest a b = Ok true -> a = b.
Proof. unfold compare_digest. destruct (_ && _); [| done]. intros [= H]. by apply String.eqb_eq. Qed.

(** What an identity may do as the roles are documented: the master anything; with a role, what
    the role allows, whatever the scope list says; without one, what the list holds *)
Definition scope_granted (required : string) (i : AuthIdentity) : Prop :=
  id_token_type i = "master" \/
  match id_role i with
  | Some _ => role_allows_scope (id_role i) (identity_permissions i) required = true
  | None => In "*" (id_scopes i) \/ In required (id_scopes i)
  end.
(** The scope list of an identity with a role does not grant what the role refuses. *)
Definition within_role (required : string) (i : AuthIdentity) : Prop :=
  id_role i <> None -> In "*" (id_scopes i) \/ In required (id_scopes i) ->
  role_allows_scope (id_role i) (identity_permissions i) required = true.
Lemma scope_held_granted required i : within_role required i -> scope_held required i <-> scope_granted required i.
Proof.
  unfold within_role, scope_held, scope_granted. destruct (id_role i) as [r|]; [| simpl; intuition congruence].
  intros Hw. assert (Some r <> None) by done. tauto.
Qed.

(** C6: With authentication on, a route behind [require_scope] answers exactly the requests
    that are not among the public ones, on a server with a key and valid networks, from an
    allowed client address, that present one of the four credentials (the master key, a valid
    agent token, a web token in the Authorization header or in the cookie with a matching
    origin), whose identity is granted the scope as the roles are documented: by the role when
    it has one, and otherwise by its scope list.  This is for identities whose scope list grants
    nothing their role refuses; a token with both is outside of it, as the code takes either
    where the documentation lets the role override.  A public path or an OPTIONS request
    reaches such a route without an identity and gets a 401; and the identity is the master's
    only for the master key itself. *)
Theorem route_needs_credential s store rq required now i : api_auth_enabled s = true -> within_role required i ->
  (guarded_route s store rq required now = Ok i <->
     unguarded rq = false /\ admissible s rq = true /\ credential s store rq now i /\
     scope_granted required i) /\
  (unguarded rq = true ->
     guarded_route s store rq required now = Raise (HTTPException 401 "Authentication required")) /\
  (credential s store rq now i -> id_token_type i = "master" -> presented rq = api_key s).
Proof.
  intros Hen Hw. rewrite <- (scope_held_granted required i Hw). split; [| split].
  - unfold guarded_route. split.
    + intros ([[[]|] state] & Hv & H)%rbind_ok_inv; [done |].
      destruct state as [j|]; [| done]. apply require_scope_held in H as [-> Hs].
      apply auth_check_guarded in Hv as (? & ? & ?); auto.
    + intros (Hu & Ha & Hc & Hs).
      rewrite (proj2 (auth_check_guarded s store rq now i Hen)) by auto. cbn [rbind].
      by apply require_scope_held.
  - intros Hu. unfold guarded_route. by rewrite (auth_check_unguarded _ _ _ _ Hen Hu).
  - clear Hw. intros [? ? | j ? ? Ha | c j ? ? ? Hw | token c j ? ? ? ? ? ? Hw] Ht.
    + by apply digest_eq.
    + apply agent_identity_ok in Ha as [Ha _]. congruence.
    + apply web_identity_ok in Hw. congruence.
    + apply web_identity_ok in Hw. congruence.
Qed.

(** ** WebSockets *)

(** The origin names no host, or the Host of the request. *)
Definition ws_origin_ok rq : Prop :=
  header "origin" rq = "" \/ url_netloc (header "origin" rq) = Ok "" \/
  url_netloc (header "origin" rq) = Ok (header "host" rq).
Inductive ws_credential s store (provided : string) (now : Z) : AuthIdentity -> Prop :=
| WsMasterKey : compare_digest provided (api_key s) = Ok true ->
    ws_credential s store provided now (master_identity provided "master")
| WsWebToken c i : compare_digest provided (api_key s) = Ok false -> web_token s provided now c ->
    web_identity provided c true = Ok i -> ws_credential s store provided now i
| WsAgentToken i : compare_digest provided (api_key s) = Ok false -> verify_jwt s provided now = Ok None ->
    is_agent_token_valid s provided store now = Ok (Some i) -> ws_credential s store provided now i.

Lemma ws_identity_spec s store provided now i :
  ws_identity s store provided now = Ok (Some i) <-> ws_credential s store provided now i.
Proof.
  unfold ws_identity. pose proof (verify_jwt_spec s provided now) as Hv. split.
  - intros ([] & Hd & H)%rbind_ok_inv; [injection H as <-; by apply WsMasterKey |].
    apply rbind_ok_inv in H as ([c|] & Hj & H); [| by apply WsAgentToken].
    apply rbind_ok_inv in H as (w & Hw & [= <-]). apply Hv in Hj. by eapply WsWebToken.
  - intros [Hd | c j Hd Hj Hw | j Hd Hj Ha]; rewrite Hd; cbn [rbind]; [done | |].
    + by rewrite (proj2 (Hv c) Hj); cbn [rbind]; rewrite Hw.
    + by rewrite Hj.
Qed.

#[local] Instance scope_held_dec required i : Decision (scope_held required i).
Proof.
  destruct (require_scope required (Some i)) as [j|] eqn:E.
  - left. by apply require_scope_held in E as [_ ?].
  - right. intros H. rewrite (proj2 (require_scope_held required i i)) in E; [done | auto].
Defined.
(** The last test of the handshake *)
Lemma ws_scope {A} required i (x y : A) :
  (if negb (String.eqb required "") && negb (String.eqb (id_token_type i) "master")
      && negb (mem "*" (id_scopes i)) && negb (mem required (id_scopes i))
      && negb (role_allows_scope (id_role i) (identity_permissions i) required)
   then x else y) = if decide (required = "" \/ scope_held required i) then y else x.
Proof.
  destruct (decide _) as [H | H]; unfold scope_held in H; rewrite <- !mem_In in H.
  - destruct H as [-> | [-> | [-> | [-> | ->]]]]; by rewrite ?andb_false_r, ?String.eqb_refl.
  - destruct (String.eqb_spec required ""); [tauto |].
    destruct (String.eqb_spec (id_token_type i) "master"); [tauto |].
    destruct (mem "*" (id_scopes i)); [tauto |]. destruct (mem required (id_scopes i)); [tauto |].
    destruct (role_allows_scope _ _ required); [tauto | done].
Qed.

(** ** Agent tokens *)
Lemma current_meta : String.eqb CURRENT META = false /\ String.eqb META CURRENT = false.
Proof. done. Qed.

(** The store of a current token *)
Definition holds (st : TokenStore) (token : string) (m : token_meta) : Prop :=
  connected st = true /\ answers st = true /\
  S_GET (tokens st) CURRENT = Some (_hash token) /\ S_GET (tokens st) META = Some (meta_dumps m).
Lemma set_token_ok st token ttl scopes role labels : connected st = true -> answers st = true ->
  exists st', set_token st token ttl scopes role labels = Ok st' /\
    holds st' token (mkMeta (default [] scopes) role (default [] labels)) /\
    forall k, In k [CURRENT; META] -> s_left (tokens st') k = if (0 <? ttl)%Z then Some ttl else None.
Proof.
  intros Hc Ha. unfold set_token, command. rewrite Hc, Ha. cbn [negb]. eexists. split; [done |].
  destruct current_meta as [H1 H2]. unfold holds. cbn [tokens with_tokens connected answers].
  assert (Hex : match (if (0 <? ttl)%Z then Some ttl else None) with Some t => (0 < t)%Z | None => True end)
    by (destruct (0 <? ttl)%Z eqn:E; lia).
  rewrite !GET_SSET by done. rewrite H1, H2, !String.eqb_refl.
  split; [auto |]. intros k Hk. rewrite !left_SSET. destruct Hk as [<- | [<- | []]];
    by rewrite ?H1, ?H2, ?String.eqb_refl.
Qed.
(** The one token it holds is valid, with its metadata; no other hash is. *)
Lemma validate_held st token m other : holds st token m -> token <> "" ->
  validate_token st token = Ok (true, Some (tm_scopes m), Some m) /\
  (_hash other <> _hash token -> validate_token st other = Ok (false, None, None)).
Proof.
  intros (Hc & Ha & Hcur & Hm) Hne. unfold validate_token, command. rewrite Hc, Ha, Hcur, Hm.
  rewrite (proj2 (String.eqb_neq token "") Hne). cbn [negb orb rbind]. rewrite String.eqb_refl. cbn [negb].
  split.
  - pose proof (meta_loads_dumps m) as Hl. pose proof (meta_dumps_text m) as Ht.
    destruct (meta_dumps m); [done |]. by rewrite Hl.
  - intros H. destruct (String.eqb other ""); [done |]. cbn [orb].
    rewrite (proj2 (String.eqb_neq (_hash token) (_hash other))); [done | congruence].
Qed.
Lemma validate_nothing st token : connected st = true -> answers st = true ->
  S_GET (tokens st) CURRENT = None -> validate_token st token = Ok (false, None, None).
Proof.
  intros Hc Ha Hn. unfold validate_token, command. rewrite Hc, Ha, Hn. by destruct (String.eqb token "").
Qed.

Definition later (t : Z) (st : TokenStore) : TokenStore := with_tokens st (s_elapse t (tokens st)).

(** The life of an agent token: after it was set with a lifetime, and until the lifetime
    is over, it is valid with exactly the scopes, role and labels it was set with, and no
    token of another hash is; afterwards none is.  A refresh in time makes the fresh token
    valid with the same scopes, role and labels, never more, and ends the old one; clearing
    the store ends every token; and when Redis dropped the metadata alone the token is left
    without a scope, a role or a label. *)
Theorem agent_token_life s st token ttl scopes role labels t now :
  connected st = true -> answers st = true -> token <> "" -> (0 < ttl)%Z -> (0 <= t)%Z ->
  exists st', set_token st token ttl (Some scopes) role (Some labels) = Ok st' /\
  let m := mkMeta scopes role labels in
  let role_now := match role with Some r => Some r | None => default_role_for_scopes (Some scopes) end in
  (forall other, _hash other <> _hash token \/ (ttl <= t)%Z -> other <> "" ->
     is_agent_token_valid s other (Some (later t st')) now = Ok None) /\
  ((t < ttl)%Z ->
     is_agent_token_valid s token (Some (later t st')) now
     = Ok (Some (agent_identity token scopes role_now labels)) /\
     (forall fresh ttl', fresh <> "" -> (0 < ttl')%Z -> exists st2,
        agent_token_refresh (Some (later t st')) fresh token ttl' = Ok (fresh, Some st2) /\
        is_agent_token_valid s fresh (Some st2) now = Ok (Some (agent_identity fresh scopes role_now labels)) /\
        (_hash fresh <> _hash token -> is_agent_token_valid s token (Some st2) now = Ok None)) /\
     is_agent_token_valid s token (Some (with_tokens (later t st') (s_evict META (tokens (later t st'))))) now
     = Ok (Some (agent_identity token [] None []))) /\
  exists st3, clear_token (later t st') = Ok st3 /\
    forall other, other <> "" -> is_agent_token_valid s other (Some st3) now = Ok None.
Proof.
  intros Hc Ha Hne Httl Ht.
  assert (Hnone : forall st0 other, connected st0 = true -> other <> "" ->
            validate_token st0 other = Ok (false, None, None) -> is_agent_token_valid s other (Some st0) now = Ok None).
  { intros [[] a0 d0] other Hc0 Ho Hv; [| done]. unfold is_agent_token_valid.
    by rewrite (proj2 (String.eqb_neq other "") Ho), Hv. }
  assert (Hsome : forall st0 other sc ro la, holds st0 other (mkMeta sc ro la) -> other <> "" ->
            is_agent_token_valid s other (Some st0) now = Ok (Some (agent_identity other sc
              (match ro with Some r => Some r | None => default_role_for_scopes (Some sc) end) la))).
  { intros st0 other sc ro la H Ho. destruct (validate_held _ _ _ "" H Ho) as [Hv _].
    destruct st0 as [[] a0 d0]; [| by destruct H]. unfold is_agent_token_valid.
    by rewrite (proj2 (String.eqb_neq other "") Ho), Hv. }
  destruct (set_token_ok st token ttl (Some scopes) role (Some labels) Hc Ha) as (st' & Hset & Hh & Hleft).
  cbn [default from_option id] in Hh. replace (0 <? ttl)%Z with true in Hleft by lia.
  exists st'. split; [done |]. intros m role_now.
  pose proof Hh as (Hc' & Ha' & Hcur & Hmeta).
  assert (Hget : forall k, In k [CURRENT; META] -> S_GET (tokens (later t st')) k
                 = if (t <? ttl)%Z then S_GET (tokens st') k else None).
  { intros k Hk. unfold later, with_tokens. cbn [tokens]. rewrite GET_selapse by done.
    by rewrite (Hleft k Hk). }
  assert (Hlater : (t < ttl)%Z -> holds (later t st') token m).
  { intros Hl. unfold holds. rewrite !Hget by (simpl; auto). replace (t <? ttl)%Z with true by lia. auto. }
  split; [| split].
  - intros other Ho Hoe. apply Hnone; [done | done |].
    destruct (decide (t < ttl)%Z) as [Hl | Hl].
    + destruct Ho as [Ho | ?]; [| lia]. by apply (proj2 (validate_held _ _ _ other (Hlater Hl) Hne)).
    + apply validate_nothing; [done | done |]. rewrite Hget by (simpl; auto).
      by replace (t <? ttl)%Z with false by lia.
  - intros Hl. specialize (Hlater Hl). split; [by apply Hsome |]. split.
    + intros fresh ttl' Hf Httl'. unfold agent_token_refresh.
      destruct (validate_held _ _ _ token Hlater Hne) as [-> _]. cbn [rbind negb].
      destruct (set_token_ok (later t st') fresh ttl' (Some scopes) role (Some labels) Hc' Ha')
        as (st2 & Hst2 & Hh2 & _).
      exists st2. cbn [tm_scopes tm_role tm_labels m option_map]. rewrite Hst2. split; [done |].
      split; [by apply Hsome |]. intros Hx. apply Hnone; [by destruct Hh2 | done |].
      apply (proj2 (validate_held _ _ _ token Hh2 Hf)). congruence.
    + destruct Hlater as (Hc2 & Ha2 & Hcur2 & _). unfold is_agent_token_valid.
      rewrite (proj2 (String.eqb_neq token "") Hne). unfold validate_token, command.
      destruct (later t st') as [c a d]. cbn [connected answers tokens with_tokens] in *. subst.
      rewrite (proj2 (String.eqb_neq token "") Hne), !GET_sevict. cbn [negb orb].
      destruct current_meta as [_ ->]. rewrite Hcur2. cbn [rbind]. by rewrite !String.eqb_refl.
  - unfold clear_token, command. destruct (later t st') as [c a d] eqn:El.
    assert (c = true /\ a = true) as [-> ->] by (unfold later, with_tokens in El; split; congruence).
    cbn [negb connected answers]. eexists. split; [done |]. intros other Ho. apply Hnone; [done | done |].
    apply validate_nothing; [done | done |]. cbn [tokens with_tokens]. rewrite !GET_SDEL.
    destruct current_meta as [_ ->]. by rewrite String.eqb_refl.
Qed.
End Spec.

(** ** The accounts of the web UI: one administrator, and what signing in gives *)
Section Spec.
Context {S : Strings} {M : MetaCodec} {J : Jwt} {B : Bcrypt}.
Implicit Types (s : WebSettings) (db : AuthDb).

(** ** Registration, outcome by outcome *)

(** A user was made: every check passed. *)
Record registered s (req : RegisterRequest) (salt : string) db db' : Prop := mkRegistered {
  rd_request : register_request_ok req = true;
  rd_confirmed : rg_password req = rg_password_confirm req;
  rd_strong : fst (validate_password (rg_password req)) = true;
  rd_first : users db = [];
  rd_configured : setup_token s <> "";
  rd_token : rg_setup_token req = setup_token s;
  rd_user : exists h, hashpw (rg_password req) salt = Ok h /\
    db' = mkAuthDb [mkUser (next_id db) (rg_username req) h] (next_id db + 1) }.
Lemma register_spec s req salt now db r db' : register s req salt now db = (r, db') ->
  (db' = db /\ exists e, r = Raise e) \/
  (registered s req salt db db' /\
   r = match users db' with [u] => with_cookie 201 s u now | _ => r end).
Proof.
  unfold register.
  destruct (register_request_ok req) eqn:E1; cbn [negb]; [| intros [= <- <-]; eauto].
  destruct (String.eqb_spec (rg_password req) (rg_password_confirm req)) as [E2 | E2]; cbn [negb];
    [| intros [= <- <-]; eauto].
  destruct (fst (validate_password (rg_password req))) eqn:E3; cbn [negb]; [| intros [= <- <-]; eauto].
  destruct (users db) as [|u r0] eqn:E4; [| intros [= <- <-]; eauto]. cbn [length Nat.ltb Nat.leb].
  destruct (String.eqb_spec (setup_token s) "") as [E5 | E5]; [intros [= <- <-]; eauto |].
  destruct (compare_digest _ _) as [[]|e] eqn:E6; [| intros [= <- <-]; eauto..].
  unfold find_user. rewrite E4. cbn [List.find].
  destruct (hashpw (rg_password req) salt) as [h|e] eqn:E7; [| intros [= <- <-]; eauto].
  intros [= <- <-]. right. split; [| done]. split; try done; [by apply digest_eq |]. by exists h.
Qed.

(** ** Runs *)
Inductive account_op : Type :=
| OpRegister (s : WebSettings) (req : RegisterRequest) (salt : string) (now : Z)
| OpLogin (s : WebSettings) (dummy : string) (req : LoginRequest) (now : Z).
Definition run_account (db : AuthDb) (o : account_op) : AuthDb :=
  match o with
  | OpRegister s req salt now => snd (register s req salt now db)
  | OpLogin _ _ _ _ => db
  end.
Lemma run_users ops db : (length (users db) <= 1)%nat ->
  (length (users (fold_left run_account ops db)) <= 1)%nat.
Proof.
  revert db. induction ops as [|o r IH]; intros db H; [done |]. simpl. apply IH.
  destruct o as [s req salt now | s dummy req now]; [| done]. simpl.
  destruct (register s req salt now db) as [res db'] eqn:E.
  destruct (register_spec _ _ _ _ _ _ _ E) as [[-> _] | [[_ _ _ _ _ _ (h & _ & ->)] _]]; [done | simpl; lia].
Qed.

Lemma login_spec s dummy req now db resp : login s dummy req now db = Ok resp ->
  exists u, find_user (lg_username req) db = Some u /\
    checkpw (lg_password req) (us_password_hash u) = Ok true /\ with_cookie 200 s u now = Ok resp.
Proof.
  unfold login. destruct (login_request_ok req); [| done]. cbn [negb].
  destruct (find_user (lg_username req) db) as [u|]; [| by intros (? & _ & ?)%rbind_ok_inv].
  intros ([] & Hc & H)%rbind_ok_inv; [| done]. by exists u.
Qed.

(** There is one administrator, and only who holds the setup token becomes it: after any
    run of registrations and logins on an empty table there is at most one user; a
    registration that changes the table found it empty, was given the configured, non-empty
    setup token and a confirmed password that passes the rules, and stores that password's
    hash; one that raises before that changes nothing; and a login succeeds only for the
    registered name with a password that checks against the stored hash. *)
Theorem one_admin ops :
  let db := fold_left run_account ops no_users in
  (length (users db) <= 1)%nat /\
  (forall s req salt now r db', register s req salt now db = (r, db') ->
     (db' = db /\ exists e, r = Raise e) \/ registered s req salt db db') /\
  (forall s dummy req now resp, login s dummy req now db = Ok resp ->
     exists u, users db = [u] /\ us_username u = lg_username req /\
       checkpw (lg_password req) (us_password_hash u) = Ok true).
Proof.
  intros db. assert (Hl : (length (users db) <= 1)%nat) by (apply run_users; simpl; lia).
  split; [done |]. split.
  - intros s req salt now r db' H. destruct (register_spec _ _ _ _ _ _ _ H) as [? | [? _]]; auto.
  - intros s dummy req now resp (u & Hf & Hc & _)%login_spec. exists u.
    apply List.find_some in Hf as [Hin Hu%String.eqb_eq].
    destruct (users db) as [|v [|w rest]]; [done | | simpl in Hl; lia]. by destruct Hin as [-> | []].
Qed.

(** ** Signing in *)
Definition admin_session (name token : string) : AuthIdentity :=
  mkIdentity "web-ui" token (Some name) ["*"] (Some "admin") None [] true.

Lemma with_cookie_ok status s u now resp : with_cookie status s u now = Ok resp ->
  jwt_secret (web_auth s) <> "" /\
  resp = (status, us_username u, Some (AUTH_COOKIE_NAME,
            jwt_encode (mkClaims (Some (us_username u)) (Some (us_id u)) (Some "admin") (Some "web-ui"))
              (now + jwt_expires_minutes s * 60) (jwt_secret (web_auth s)))).
Proof.
  unfold with_cookie, create_jwt, jwt_secret_required.
  destruct (String.eqb_spec (jwt_secret (web_auth s)) "") as [E | E]; cbn [rbind]; [done |].
  by intros [= <-].
Qed.

(** A browser with the cookie and no other credential *)
Lemma cookie_route (s : AuthSettings) store rq required now name uid exp :
  let token := jwt_encode (mkClaims (Some name) (Some uid) (Some "admin") (Some "web-ui")) exp (jwt_secret s) in
  api_auth_enabled s = true -> jwt_secret s <> "" -> (now < exp)%Z ->
  unguarded rq = false -> admissible s rq = true ->
  header "x-api-key" rq = "" -> header "authorization" rq = "" ->
  dict_get AUTH_COOKIE_NAME (hr_cookies rq) = Some token -> _cookie_csrf_ok rq = Ok true ->
  guarded_route s store rq required now = Ok (admin_session name token).
Proof.
  intros token Hen Hsec Hexp Hu Ha Hk Hau Hck Hcs. unfold guarded_route.
  rewrite (proj2 (auth_check_guarded s store rq now (admin_session name token) Hen)).
  - cbn [rbind]. apply require_scope_held. split; [done |]. right. left. by left.
  - split; [done |]. split; [done |].
    apply (ByCookie s store rq now token (mkClaims (Some name) (Some uid) (Some "admin") (Some "web-ui"))); try done.
    + unfold verify_api_key, presented, bearer. by rewrite Hk, Hau.
    + by rewrite Hau.
    + apply jwt_text.
    + split; [done |]. split; [by apply decode_encode_jwt | done].
Qed.

(** Signing in works: the password a registration took opens a login under that name from
    then on, and the cookie the login sets reaches every guarded route, from an allowed
    address and with a matching origin, as the administrator until it expires. *)
Theorem sign_in s req salt now db status name cookie db' dummy now' store rq required now'' :
  register s req salt now db = (Ok (status, name, cookie), db') ->
  api_auth_enabled (web_auth s) = true ->
  exists token,
    login s dummy (mkLogin (rg_username req) (rg_password req)) now' db'
    = Ok (200%Z, rg_username req, Some (AUTH_COOKIE_NAME, token)) /\
    ((now'' < now' + jwt_expires_minutes s * 60)%Z ->
     unguarded rq = false -> admissible (web_auth s) rq = true ->
     header "x-api-key" rq = "" -> header "authorization" rq = "" ->
     dict_get AUTH_COOKIE_NAME (hr_cookies rq) = Some token -> _cookie_csrf_ok rq = Ok true ->
     guarded_route (web_auth s) store rq required now'' = Ok (admin_session (rg_username req) token)).
Proof.
  intros Hreg Hen. destruct (register_spec _ _ _ _ _ _ _ Hreg) as [[_ [e He]] | [Hrd Hr]]; [done |].
  destruct Hrd as [Hok _ _ _ _ _ (h & Hh & ->)]. simpl in Hr. symmetry in Hr.
  apply with_cookie_ok in Hr as [Hsec _].
  eexists. split; [| by apply cookie_route].
  unfold login, login_request_ok, find_user. cbn [lg_username lg_password users List.find us_username].
  unfold register_request_ok, between in Hok. bprop.
  assert (Hu : rg_username req <> "" /\ rg_password req <> "")
    by (split; intros E; rewrite E in *; by simpl in *).
  rewrite (proj2 (String.eqb_neq _ _) (proj1 Hu)), (proj2 (String.eqb_neq _ _) (proj2 Hu)).
  cbn [negb andb]. rewrite String.eqb_refl. cbn [us_password_hash]. rewrite (checkpw_hashpw _ _ _ Hh).
  cbn [rbind negb]. unfold with_cookie, create_jwt, jwt_secret_required.
  rewrite (proj2 (String.eqb_neq _ _) Hsec). done.
Qed.
End Spec.
