(* ===== verification/SessionSpec.v ===== *)
(** * Correctness of the SSH sessions

    Admission per source address, isolation of pooled transports, pinned destinations, leases,
    the pool, and what the circuit breaker makes of failed passwords. *)
From stdpp Require Import gmap.
From S2P Require Import Prelude PyStr Digests ClientIp TargetHost SshPool.
From S2P Require Import CircuitBreaker Sessions SessionFacts.
From stdpp Require Import options.
#[local] Unset Default Proof Using.

(** The states a gateway reaches from its start *)
Section Reachable.
Context `{KeyFormats} (cfg : Settings) (targets : TargetPolicy).

Definition reached (timeout size ttl : Z) (breakers : option BreakerRegistry) (store : bool)
    (es : list event) : System :=
  run cfg targets es (init_system (new_manager timeout size ttl breakers store)).

Lemma reached_ok timeout size ttl breakers store es :
  system_ok (reached timeout size ttl breakers store es).
Proof. apply (run_invariant cfg targets system_ok); [intros e sy; apply step_ok | apply init_ok]. Qed.
Lemma reached_books timeout size ttl breakers store es : limits_positive cfg ->
  books_ok cfg (reached timeout size ttl breakers store es).
Proof.
  intros Hl. unfold reached.
  enough (Hb : system_ok (run cfg targets es (init_system (new_manager timeout size ttl breakers store))) /\
               books_ok cfg (run cfg targets es (init_system (new_manager timeout size ttl breakers store))))
    by apply Hb.
  apply (run_invariant cfg targets (fun sy => system_ok sy /\ books_ok cfg sy)).
  - intros e sy [H1 H2]. split; [by apply step_ok | by apply step_books_ok].
  - split; [apply init_ok | by apply init_books].
Qed.
End Reachable.

(** ** Admission *)
Lemma counters_empty d : counters d -> (forall ip, counter ip d = 0%Z) -> d = [].
Proof.
  intros [_ Hf] Hz. destruct d as [|[ip v] d]; [done |]. exfalso.
  specialize (Hz ip). unfold counter in Hz. simpl in Hz. rewrite String.eqb_refl in Hz. simpl in Hz.
  apply Forall_cons in Hf as [Hv _]. simpl in Hv. lia.
Qed.

(** C8: over every interleaving of connections, dials that succeed, fail or are interrupted,
    disconnections, reaping and shutdown: the sessions of a source address together with its
    connections in flight never exceed the widest configured limit; the counter of reservations
    is exactly the number of connections in flight, so that it returns to nothing when none is;
    and a connection is refused for the limit only when what is left after reaping the
    address's idle sessions reaches it. *)
Theorem session_admission `{KeyFormats} cfg targets timeout size ttl breakers store es :
  limits_positive cfg ->
  let sy := reached cfg targets timeout size ttl breakers store es in
  let m := sy_manager sy in
  (forall ip, ip <> "" ->
     (Z.of_nat (sessions_from ip m) + Z.of_nat (in_flight (sy_attempts sy) ip) <= top_limit cfg)%Z) /\
  (forall ip, pending_from ip m = Z.of_nat (in_flight (sy_attempts sy) ip)) /\
  (sy_attempts sy = ∅ -> _pending_sessions_by_ip m = []) /\
  (forall rd r ip limit m', begin_create cfg rd r m = (Refused (SessionLimitError ip limit), m') ->
     c_source_ip r = Some ip /\ limit = session_limit cfg r /\
     (limit <= Z.of_nat (sessions_from ip m') + Z.of_nat (in_flight (sy_attempts sy) ip))%Z).
Proof.
  intros Hl sy m. pose proof (reached_ok cfg targets timeout size ttl breakers store es) as Hok.
  pose proof (reached_books cfg targets timeout size ttl breakers store es Hl) as [_ [H1 H2 H3]].
  fold sy in Hok, H1, H2, H3. fold m in H1, H2, H3.
  split; [| split; [exact H2 | split]].
  - intros ip Hne. rewrite sessions_from_count. by apply H3.
  - intros He. apply counters_empty; [done |]. intros ip. rewrite H2, He. unfold in_flight.
    by rewrite map_to_list_empty.
  - intros rd r ip limit m'. unfold begin_create.
    pose proof (admission_spec cfg (now rd) r m Hl (so_good _ Hok)) as Ha.
    destruct (admission cfg (now rd) r m) as [[o|e] m1].
    + intros Hc. exfalso. revert Hc. unfold _create_session_unreserved.
      destruct (destination_of r); [| by intros [= _]].
      destruct (pool_lookup rd _ m1) as [[c|] m2]; [by intros [= _] |].
      destruct (consult_breaker _ _ m2) as [[[b [|]]|e] m3]; try by intros [= _].
      unfold prepare_dial. simpl. destruct (truthy (c_private_key r)); [| by intros [= _]].
      destruct (_load_private_key _ _) as [e|] eqn:El; [| by intros [= _]].
      intros [= -> _]. revert El. unfold _load_private_key, try_keys.
      repeat (destruct (from_private_key _ _ _); try by intros [=]).
    + destruct Ha as ([Hs Hp] & ip' & Ht & -> & Hle). intros [= <- <- <-].
      apply truthy_spec in Ht as [Ht _]. split; [done |]. split; [done |].
      rewrite sessions_from_count, <- H2. exact Hle.
Qed.

(** ** Isolation of transports *)
(** A pooled connection is registered; its client was held under the key of the request. *)
Lemma connected_from_pool `{KeyFormats} cfg rd r m sid m' : good m ->
  begin_create cfg rd r m = (Connected sid, m') ->
  exists dest addr s, destination_of r = Ok dest /\ dict_get sid (_sessions m') = Some addr /\
    record_at m' addr = Some s /\ In (s_client s, pool_key_of r dest) (holdings m) /\
    session_key s = pool_key_of r dest.
Proof.
  intros Hg. unfold begin_create. pose proof (admission_good cfg (now rd) r m Hg) as Hg1.
  pose proof (moves_holdings _ _ _ (admission_moves cfg (now rd) r m)) as Hs.
  destruct (admission cfg (now rd) r m) as [[o|e] m1]; [| by intros [= _]]. cbn [snd app] in *.
  unfold _create_session_unreserved. destruct (destination_of r) as [dest|e]; [| by intros [= _]].
  set (key := pool_key_of r dest). pose proof (pool_lookup_spec rd key m1 Hg1) as (Hg2 & Hl & _).
  destruct (pool_lookup rd key m1) as [[c|] m2]; cbn [fst snd] in *.
  - destruct Hl as (d & cl & Hp & _). intros [= <- <-].
    exists dest, (length (sm_heap m2)). eexists. split; [done |]. split; [| split].
    + destruct o; simpl; apply dict_get_set_eq.
    + unfold record_at. destruct o; simpl; rewrite lookup_app_r, Nat.sub_diag by done; done.
    + simpl. split; [| done]. apply list_elem_of_In. eapply elem_of_submseteq; [| exact Hs].
      rewrite Hp. by left.
  - destruct (consult_breaker _ _ m2) as [[[b [|]]|e] m3]; try by intros [= _].
    unfold prepare_dial. simpl. destruct (truthy (c_private_key r)); [| by intros [= _]].
    by destruct (_load_private_key _ _); intros [= _].
Qed.

(** Same host, port, user and address *)
Definition same_target (d : Dial) (r : ConnectRequest) : Prop :=
  d_hostname d = c_host r /\ d_port d = c_port r /\ d_username d = c_username r /\
  destination_of r = Ok (d_destination_ip d).

Lemma find_In {A} (p : A -> bool) l a : List.find p l = Some a -> In a l /\ p a = true.
Proof. apply find_some. Qed.
Lemma reusable_spec q ds s : reusable q ds s = true ->
  s_owner_type s = q_owner_type q /\ s_owner_token_fingerprint s = q_owner_token_fingerprint q /\
  s_source_ip s = q_source_ip q /\ s_host s = q_host q /\ s_port s = q_port q /\
  s_username s = q_username q /\
  s_credential_fingerprint s = _credential_fingerprint
    (match q_password q with Some _ => "password" | None => "key" end) (q_password q)
    (q_private_key q) (q_key_passphrase q) /\
  exists d, s_destination_ip s = Some d /\ In d ds.
Proof.
  unfold reusable. rewrite !andb_true_iff, !bool_decide_eq_true, !String.eqb_eq, Z.eqb_eq.
  intros [[[[[[[[? ?] ?] ?] ?] ?] ?] ?] Hd]. repeat (split; [assumption |]).
  destruct (s_destination_ip s) as [d|]; [| done]. exists d. split; [done | by apply mem_In].
Qed.

(** C9: over every interleaving, a client is in one place at a time (a session, the pool, a
    dial, or closed, and then for good); the session that a pooled transport is given to asked
    for the host, port, user and address it was dialled with, by the same kind of credential
    with the same SHA-256 fingerprint; and a session is reused only for the caller, the source
    address, the target and the fingerprint it was made for, on a validated address. *)
Theorem transport_isolation `{KeyFormats} cfg targets timeout size ttl breakers store es :
  let sy := reached cfg targets timeout size ttl breakers store es in
  let m := sy_manager sy in
  NoDup (places m (sy_attempts sy)) /\
  (forall rd r sid m', begin_create cfg rd r m = (Connected sid, m') ->
     exists addr s a, dict_get sid (_sessions m') = Some addr /\ record_at m' addr = Some s /\
       In a (sy_opened sy) /\ d_client (a_dial a) = s_client s /\ same_target (a_dial a) r /\
       auth_method_of (a_request a) = auth_method_of r /\ fingerprint_of (a_request a) = fingerprint_of r) /\
  (forall rd q addr m', find_reusable_session rd q m = (Ok (Some addr), m') ->
     exists s, record_at m addr = Some s /\ In s (table m) /\ alive rd (s_client s) = true /\
       q_owner_token_fingerprint q <> None /\
       s_owner_type s = q_owner_type q /\ s_owner_token_fingerprint s = q_owner_token_fingerprint q /\
       s_source_ip s = q_source_ip q /\ s_host s = q_host q /\ s_port s = q_port q /\
       s_username s = q_username q /\
       s_credential_fingerprint s = _credential_fingerprint
         (match q_password q with Some _ => "password" | None => "key" end) (q_password q)
         (q_private_key q) (q_key_passphrase q) /\
       exists ds d, canonical_ips (q_validated_ips q) = Ok ds /\ s_destination_ip s = Some d /\ In d ds).
Proof.
  intros sy m. pose proof (reached_ok cfg targets timeout size ttl breakers store es) as Hok.
  fold sy in Hok. split; [apply Hok | split].
  - intros rd r sid m' Hc.
    apply connected_from_pool in Hc as (dest & addr & s & Hd & Ha & Hr & Hin & Hk); [| apply Hok].
    pose proof (so_vouched _ Hok) as Hv. rewrite List.Forall_forall in Hv.
    destruct (Hv _ Hin) as (a & Hop & Hcl & Hak). simpl in Hcl, Hak.
    pose proof (so_opened _ Hok) as Hf. rewrite List.Forall_forall in Hf. specialize (Hf a Hop).
    pose proof (af_key _ Hf) as Hfk. rewrite Hak in Hfk. unfold pool_key_of in Hfk.
    injection Hfk as E1 E2 E3 E4 E5 E6. destruct (af_target _ Hf) as (T1 & T2 & T3).
    exists addr, s, a. repeat (split; [assumption |]). unfold same_target.
    rewrite T1, T2, T3, <- E6. repeat split; congruence.
  - intros rd q addr m'. unfold find_reusable_session.
    destruct (truthy (q_owner_token_fingerprint q)) as [fp|] eqn:Hfp; [| by intros [= _]].
    destruct (truthy (q_source_ip q)) as [src|]; [| by intros [= _]].
    destruct (q_validated_ips q) as [|v vs] eqn:Hv; [by intros [= _] |].
    destruct (canonical_ips (v :: vs)) as [ds|e] eqn:Hds; [| by intros [= _]].
    destruct (List.find _ _) as [a|] eqn:Hfind; [| by intros [= _]]. intros [= -> _].
    apply find_In in Hfind as [Hin Hhit]. destruct (record_at m addr) as [s|] eqn:Hr; [| done].
    apply andb_true_iff in Hhit as [Hre Hal].
    apply reusable_spec in Hre as (R1 & R2 & R3 & R4 & R5 & R6 & R7 & d & R8 & R9).
    exists s. split; [done |]. split.
    { unfold values in Hin. apply in_map_iff in Hin as ([k a] & E & Hin). simpl in E. subst a.
      apply list_elem_of_In, list_elem_of_omap. exists (k, addr).
      split; [by apply list_elem_of_In | done]. }
    apply truthy_spec in Hfp as [Hfp _].
    repeat (split; [first [assumption | congruence] |]). by exists ds, d.
Qed.

(** Within a kind of credential, equal materials are equal credentials, as long as no key text
    holds a NUL character. *)
Lemma append_split_nul a b a' b' : char_in nul a = false -> char_in nul a' = false ->
  a +s+ String nul b = a' +s+ String nul b' -> a = a' /\ b = b'.
Proof.
  revert a'. induction a as [|c a IH]; intros [|c' a'] Ha Ha'; cbn [char_in] in *; simpl.
  - by intros [= ->].
  - intros [= <- _]. by rewrite Ascii.eqb_refl in Ha'.
  - intros [= -> _]. by rewrite Ascii.eqb_refl in Ha.
  - intros [= <- E]. apply orb_false_iff in Ha as [_ Ha]. apply orb_false_iff in Ha' as [_ Ha'].
    destruct (IH a' Ha Ha' E) as [-> ->]. done.
Qed.
Lemma credential_material_inj p k w p' k' w' :
  (credential_material "password" p k w = credential_material "password" p' k' w' ->
     default "" p = default "" p') /\
  (char_in nul (default "" k) = false -> char_in nul (default "" k') = false ->
   credential_material "key" p k w = credential_material "key" p' k' w' ->
     default "" k = default "" k' /\ default "" w = default "" w').
Proof.
  unfold credential_material. simpl. split; [by intros [= ->] |].
  intros Hk Hk' [= E]. by apply append_split_nul.
Qed.

(** ** Pinned destinations *)
Definition permitted (targets : TargetPolicy) (a : address) : Prop :=
  exists allowed denied, parse_networks (allowed_target_cidrs targets) = Ok allowed /\
    parse_networks (denied_target_cidrs targets) = Ok denied /\
    in_any a denied = false /\ (allowed <> [] -> in_any a allowed = true).

Lemma check_ips_spec host allowed denied ips : check_ips host allowed denied ips = Ok tt <->
  Forall (fun a => in_any a denied = false /\ (allowed <> [] -> in_any a allowed = true)) ips.
Proof.
  induction ips as [|ip ips IH]; simpl; [split; [constructor | done] |].
  rewrite Forall_cons, <- IH. destruct (in_any ip denied); [split; [done | by intros [[? _] _]] |].
  destruct allowed as [|n nets]; cbn [negb andb]; [tauto |].
  destruct (in_any ip (n :: nets)); cbn [negb].
  - split; [intros Hc; by repeat split | tauto].
  - split; [done |]. intros [[_ Hc] _]. by specialize (Hc ltac:(done)).
Qed.
Lemma collect_ips_spec infos : forall seen ips, collect_ips seen infos = Ok ips ->
  Forall (fun a => exists raw, In raw infos /\ ip_object raw = Some a) ips.
Proof.
  induction infos as [|raw infos IH]; simpl; intros seen ips; [intros [= <-]; constructor |].
  destruct (mem raw seen).
  - intros Hc. eapply Forall_impl; [by apply (IH seen) |]. simpl. intros a (x & ? & ?). eauto.
  - destruct (ip_object raw) as [a|] eqn:E; [| done].
    destruct (collect_ips (seen ++ [raw]) infos) as [rest|] eqn:Ec; [| done]. intros [= <-].
    constructor; [eauto |]. eapply Forall_impl; [by apply (IH (seen ++ [raw])) |].
    simpl. intros b (x & ? & ?). eauto.
Qed.
Lemma resolve_ok getaddrinfo host ips : resolve_host_ips getaddrinfo host = Ok ips ->
  ips <> [] /\ Forall address_ok ips.
Proof.
  unfold resolve_host_ips. destruct (ip_object host) as [a|] eqn:E.
  - intros [= <-]. split; [done |]. repeat constructor. by apply (ip_object_ok host).
  - destruct (getaddrinfo host) as [infos|]; [| done].
    destruct (collect_ips [] infos) as [l|] eqn:Ec; [| done]. simpl.
    destruct l as [|a l]; [done |]. intros [= <-]. split; [done |].
    eapply Forall_impl; [by apply (collect_ips_spec infos []) |]. simpl.
    intros b (raw & _ & Hb). by apply (ip_object_ok raw).
Qed.

(** [validate_target_host] answers exactly when every address of the host is permitted, with
    the printed form of each, which reads back as that address. *)
Lemma validate_spec getaddrinfo host targets texts :
  validate_target_host getaddrinfo host (allowed_target_cidrs targets) (denied_target_cidrs targets)
    = Ok texts <->
  exists ips, resolve_host_ips getaddrinfo host = Ok ips /\ Forall (permitted targets) ips /\
    texts = map address_str ips /\ Forall (fun a => ip_object (address_str a) = Some a) ips.
Proof.
  unfold validate_target_host. split.
  - destruct (resolve_host_ips getaddrinfo host) as [ips|] eqn:Er; [| done]. simpl.
    destruct (parse_networks (allowed_target_cidrs targets)) as [allowed|] eqn:Ea; [| done]. simpl.
    destruct (parse_networks (denied_target_cidrs targets)) as [denied|] eqn:Ed; [| done]. simpl.
    destruct (check_ips host allowed denied ips) as [[]|] eqn:Ec; [| done]. intros [= <-].
    apply check_ips_spec in Ec. exists ips. split; [done |]. split; [| split; [done |]].
    + eapply Forall_impl; [exact Ec |]. intros a [H1 H2]. by exists allowed, denied.
    + eapply Forall_impl; [by apply (resolve_ok getaddrinfo host) |]. intros a. apply read_printed.
  - intros (ips & Er & Hp & -> & _). destruct (resolve_ok _ _ _ Er) as [Hne _]. rewrite Er. cbn [rbind].
    destruct ips as [|a ips]; [done |].
    destruct (proj1 (Forall_cons _ _ _) Hp) as [(allowed & denied & Ea & Ed & _) _].
    rewrite Ea, Ed. cbn [rbind].
    replace (check_ips host allowed denied (a :: ips)) with (Ok tt); [done |]. symmetry.
    apply check_ips_spec. eapply Forall_impl; [exact Hp |].
    intros b (al & de & Ea' & Ed' & H1 & H2). rewrite Ea in Ea'. rewrite Ed in Ed'. simplify_eq. by split.
Qed.

(** A connection asked for by the code: its pinned address is the first validated one. *)
Definition pinned_request (targets : TargetPolicy) (r : ConnectRequest) : Prop :=
  exists getaddrinfo ip ips, c_pinned_ip r = Some ip /\
    validate_target_host getaddrinfo (c_host r) (allowed_target_cidrs targets)
      (denied_target_cidrs targets) = Ok (ip :: ips).
(** Every caller of [create_session] other than the connect route pins that way too. *)
Definition routed (targets : TargetPolicy) (e : event) : Prop :=
  match e with OnCreate _ _ r => pinned_request targets r | _ => True end.

Lemma pinned_destination targets r : pinned_request targets r ->
  exists a, permitted targets a /\ destination_of r = Ok (Some (address_str a)) /\
    ip_object (address_str a) = Some a.
Proof.
  intros (gai & ip & ips & Hp & Hv). apply validate_spec in Hv as (as_ & _ & Hper & Ht & Hread).
  destruct as_ as [|a l]; [done |]. injection Ht as -> _.
  apply Forall_cons in Hper as [Ha _]. apply Forall_cons in Hread as [Hr _].
  exists a. split; [done |]. split; [| done]. unfold destination_of. by rewrite Hp, Hr.
Qed.

Section Pinned.
Context `{KeyFormats} (cfg : Settings) (targets : TargetPolicy).

Definition all_pinned (sy : System) : Prop :=
  map_Forall (fun _ a => pinned_request targets (a_request a)) (sy_attempts sy) /\
  Forall (fun a => pinned_request targets (a_request a)) (sy_opened sy).

Lemma pinned_started tid p m' sy : all_pinned sy ->
  match p with Dialling a => pinned_request targets (a_request a) | _ => True end ->
  all_pinned (started tid p m' sy).
Proof.
  intros [H1 H2] Hp. destruct p as [| |a]; [by split | by split |].
  split; [by apply map_Forall_insert_2 | done].
Qed.
Lemma connect_pinned getaddrinfo rd req who ip m p m' : good m ->
  ssh_connect cfg targets getaddrinfo rd req who ip m = (Creating p, m') ->
  match p with Dialling a => pinned_request targets (a_request a) | _ => True end.
Proof.
  intros Hg. unfold ssh_connect.
  destruct (validate_target_host _ _ _ _) as [[|pinned ips]|e] eqn:Hv; try by intros [= _].
  set (look := if rr_reuse_existing req then _ else _).
  assert (Hl : good (snd look)).
  { subst look. destruct (rr_reuse_existing req); [by apply reuse_quiet | done]. }
  destruct look as [found m1]. simpl in Hl. destruct found as [[addr|]|e]; try by intros [= _].
  pose proof (begin_create_spec cfg rd (create_request cfg req who ip pinned) m1 Hl) as (_ & _ & Hp).
  destruct (begin_create _ _ _ m1) as [p' m2]. intros [= <- _]. simpl in Hp.
  destruct p' as [| |a]; [done | done |]. destruct Hp as (_ & -> & _).
  exists getaddrinfo, pinned, ips. by split.
Qed.

Lemma step_pinned e sy : routed targets e -> system_ok sy /\ all_pinned sy ->
  system_ok (step cfg targets e sy) /\ all_pinned (step cfg targets e sy).
Proof.
  intros He [Hok Hp]. split; [by apply step_ok |]. pose proof (so_good _ Hok) as Hg.
  destruct e; cbn [step]; try exact Hp.
  - destruct (sy_attempts sy !! tid); [done |].
    destruct (ssh_connect _ _ _ _ _ _ _ _) as [o m'] eqn:E. destruct o; try exact Hp.
    apply pinned_started; [done |]. by eapply connect_pinned.
  - destruct (sy_attempts sy !! tid); [done |].
    pose proof (begin_create_spec cfg rd r (sy_manager sy) Hg) as (_ & _ & Hb).
    destruct (begin_create _ _ _ _) as [p m']. apply pinned_started; [done |].
    destruct p as [| |a]; [done | done |]. destruct Hb as (_ & -> & _). exact He.
  - destruct (sy_attempts sy !! tid) as [a|] eqn:E; [| done].
    destruct (end_create _ _ _ _) as [res m']. destruct Hp as [H1 H2].
    split; simpl; [by apply map_Forall_delete |]. destruct res; [| done].
    apply Forall_app. split; [done |]. constructor; [| done]. by apply (H1 tid).
Qed.
End Pinned.

(** What a dial is pinned to *)
Definition pinned_to (targets : TargetPolicy) (d : Dial) (a : address) : Prop :=
  permitted targets a /\ d_destination_ip d = Some (address_str a) /\
  forall n, _connect d n = DialOk -> exists peer, n_peer n = Some peer /\ ip_object peer = Some a.

Lemma address_str_inj a b : address_ok a -> address_ok b -> address_str a = address_str b -> a = b.
Proof. intros Ha%read_printed Hb%read_printed E. rewrite E in Ha. congruence. Qed.
Lemma attempt_pinned targets a : attempt_fits a -> pinned_request targets (a_request a) ->
  exists ip, pinned_to targets (a_dial a) ip.
Proof.
  intros Hf Hp. destruct (pinned_destination _ _ Hp) as (ip & Hper & Hd & Hread).
  rewrite (af_destination _ Hf) in Hd. injection Hd as Hd.
  exists ip. split; [done |]. split; [done |]. intros n. unfold _connect. rewrite Hd.
  destruct (n_peer n) as [peer|]; [| done]. destruct (ip_object peer) as [b|] eqn:Eb; [| done].
  destruct (String.eqb_spec (address_str b) (address_str ip)) as [E|]; [| done]. intros _.
  exists peer. split; [done |]. rewrite Eb. f_equal.
  apply address_str_inj; [by apply (ip_object_ok peer) | by apply (ip_object_ok (address_str ip)) | done].
Qed.

(** C10: over every interleaving, every dial the gateway makes goes to an address that the policy
    permits (in no denied network, and in an allowed one when any is configured), whatever the
    name resolves to later: the socket is opened to the validated address, a connection counts
    only when its peer is that very address, and the sessions and pooled transports the gateway
    keeps are all on such addresses. *)
Theorem target_pinned `{KeyFormats} cfg targets timeout size ttl breakers store es :
  Forall (routed targets) es ->
  let sy := reached cfg targets timeout size ttl breakers store es in
  (forall tid a, sy_attempts sy !! tid = Some a -> exists ip, pinned_to targets (a_dial a) ip) /\
  (forall a, In a (sy_opened sy) -> exists ip, pinned_to targets (a_dial a) ip) /\
  (forall c key, In (c, key) (holdings (sy_manager sy)) ->
     exists ip, permitted targets ip /\ k_destination key = Some (address_str ip)).
Proof.
  intros Hes sy.
  assert (Hinv : system_ok sy /\ all_pinned targets sy).
  { apply (run_invariant_if cfg targets (routed targets) (fun sy => system_ok sy /\ all_pinned targets sy));
      [intros e s; apply step_pinned | done |].
    split; [apply init_ok |]. by split. }
  destruct Hinv as [Hok [H1 H2]].
  assert (Hop : forall a, In a (sy_opened sy) -> exists ip, pinned_to targets (a_dial a) ip).
  { intros a Ha. apply attempt_pinned; [| by rewrite List.Forall_forall in H2; apply H2].
    pose proof (so_opened _ Hok) as Hf. rewrite List.Forall_forall in Hf. by apply Hf. }
  split; [| split; [exact Hop |]].
  - intros tid a Ha. apply attempt_pinned; [by apply (so_fits _ Hok tid) | by apply (H1 tid)].
  - intros c key Hin. pose proof (so_vouched _ Hok) as Hv. rewrite List.Forall_forall in Hv.
    destruct (Hv _ Hin) as (a & Ha & _ & Hk). simpl in Hk. destruct (Hop a Ha) as (ip & Hper & Hd & _).
    exists ip. split; [done |].
    pose proof (so_opened _ Hok) as Hf. rewrite List.Forall_forall in Hf.
    rewrite <- Hk, (af_key _ (Hf a Ha)). exact Hd.
Qed.

(** the printed form of an address, which is how a validated target travels to the dial,
    reads back as the same address, IPv4 or IPv6 with its compressed zeros and its scope; so
    two addresses that print alike are the same; and [validate_target_host] answers exactly
    when the host resolves and all its addresses are permitted. *)
Theorem printed_addresses :
  (forall s a, ip_object s = Some a -> ip_object (address_str a) = Some a) /\
  (forall s s' a b, ip_object s = Some a -> ip_object s' = Some b -> address_str a = address_str b -> a = b) /\
  (forall getaddrinfo host targets texts,
     validate_target_host getaddrinfo host (allowed_target_cidrs targets) (denied_target_cidrs targets)
       = Ok texts <->
     exists ips, resolve_host_ips getaddrinfo host = Ok ips /\ Forall (permitted targets) ips /\
       texts = map address_str ips /\ Forall (fun a => ip_object (address_str a) = Some a) ips).
Proof.
  split; [exact printed_stable | split].
  - intros s s' a b Ha%ip_object_ok Hb%ip_object_ok. by apply address_str_inj.
  - intros. apply validate_spec.
Qed.

(** ** Reaping and leases *)
Definition leased (m : SSHSessionManager) (addr : nat) : Prop :=
  exists s, record_at m addr = Some s /\ (0 < s_active_operations s)%Z.
Lemma leased_not_stale stale t m h d sid addr s : h !! addr = Some s ->
  (forall s, stale s = true -> is_stale t m s = true) -> (0 < s_active_operations s)%Z ->
  dict_get sid d = Some addr -> dict_get sid (snd (reap stale h d)) = Some addr.
Proof.
  intros Hs Hst Hop. induction d as [|[k a] d IH]; simpl; [done |].
  destruct (reap stale h d) as [rs ks]. simpl in IH. destruct (String.eqb sid k) eqn:E.
  - intros [= ->]. rewrite Hs. destruct (stale s) eqn:Es; simpl; [| by rewrite E].
    apply Hst in Es. unfold is_stale in Es. lia.
  - intros Hg. specialize (IH Hg). destruct (h !! a) as [s'|]; simpl; [| by rewrite E].
    destruct (stale s'); simpl; [done | by rewrite E].
Qed.
Lemma admission_pins cfg t r m sid addr : leased m addr -> dict_get sid (_sessions m) = Some addr ->
  dict_get sid (_sessions (snd (admission cfg t r m))) = Some addr.
Proof.
  intros (s & Hs & Hop) Hg. unfold admission. destruct (truthy (c_source_ip r)) as [ip|]; [| done].
  destruct (0 <? session_limit cfg r)%Z; [| done].
  pose proof (leased_not_stale (fun s => from_ip ip s && is_stale t m s) t m (sm_heap m) (_sessions m)
    sid addr s Hs ltac:(by intros x [_ ?]%andb_true_iff) Hop Hg) as Hk.
  destruct (reap _ _ _) as [rs ks]. simpl in Hk. by destruct (_ <=? _)%Z.
Qed.
(** A new record under the identifier *)
Definition renewed (m m' : SSHSessionManager) (sid : string) : Prop :=
  exists addr, dict_get sid (_sessions m') = Some addr /\ (length (sm_heap m) <= addr)%nat.
Lemma register_pins t uuid r idle key client m sid addr : dict_get sid (_sessions m) = Some addr ->
  let m' := snd (register t uuid r idle key client m) in
  dict_get sid (_sessions m') = Some addr \/ renewed m m' sid.
Proof.
  intros Hg. unfold register, renewed. simpl. set (id := default uuid _).
  destruct (decide (id = sid)) as [<- | Hne].
  - right. exists (length (sm_heap m)). split; [apply dict_get_set_eq | lia].
  - left. by rewrite dict_get_set_ne.
Qed.
Lemma lookup_sessions rd key m : _sessions (snd (pool_lookup rd key m)) = _sessions m /\
  sm_heap (snd (pool_lookup rd key m)) = sm_heap m.
Proof.
  unfold pool_lookup. destruct (_pool m); [| done]. destruct (k_destination key); [| done].
  by destruct (acquire _ _ _ _) as [[f cl] p'].
Qed.
Lemma consult_sessions t host m : _sessions (snd (consult_breaker t host m)) = _sessions m.
Proof.
  unfold consult_breaker. destruct (_circuit_breakers m); [| done].
  destruct (get_breaker _ _ _) as [[a rg]|]; [| done]. by destruct (rg_heap rg !! a).
Qed.
Lemma begin_create_pins `{KeyFormats} cfg rd r m sid addr : leased m addr ->
  dict_get sid (_sessions m) = Some addr ->
  dict_get sid (_sessions (snd (begin_create cfg rd r m))) = Some addr \/
  renewed m (snd (begin_create cfg rd r m)) sid.
Proof.
  intros Hl Hg. unfold begin_create. pose proof (admission_pins cfg (now rd) r m sid addr Hl Hg) as Ha.
  assert (Hh : sm_heap (snd (admission cfg (now rd) r m)) = sm_heap m).
  { unfold admission. destruct (truthy (c_source_ip r)); [| done].
    destruct (0 <? session_limit cfg r)%Z; [| done]. destruct (reap _ _ _).
    by destruct (_ <=? _)%Z. }
  destruct (admission cfg (now rd) r m) as [[o|e] m1]; [| by left]. cbn [snd] in Ha, Hh.
  unfold _create_session_unreserved.
  destruct (destination_of r) as [dest|e]; [| left; by destruct o].
  destruct (lookup_sessions rd (pool_key_of r dest) m1) as [Hs Hh2].
  destruct (pool_lookup rd _ m1) as [[c|] m2]; cbn [snd] in Hs, Hh2.
  - rewrite <- Hs in Ha.
    destruct (register_pins (now rd) (uuid4 rd) r (idle_timeout_of r m) (pool_key_of r dest) c m2 sid addr Ha)
      as [Hk | (a & Hk & Hle)].
    + left. by destruct o.
    + right. exists a. split; [by destruct o | congruence].
  - pose proof (consult_sessions (now rd) (c_host r) m2) as Hc.
    destruct (consult_breaker _ _ m2) as [[[b [|]]|e] m3]; cbn [snd] in Hc;
      try (left; destruct o; cbn [unreserve set_pending _sessions snd]; congruence).
    unfold prepare_dial. simpl. left. destruct (truthy (c_private_key r)); [| simpl; congruence].
    destruct (_load_private_key _ _); [destruct o |]; simpl; congruence.
Qed.

(** A session under this identifier stays, or a new one takes the identifier. *)
Definition stays (m m' : SSHSessionManager) (sid : string) (addr : nat) : Prop :=
  dict_get sid (_sessions m') = Some addr \/ renewed m m' sid.

Lemma look_leased rd q m addr : leased m addr -> let m1 := snd (find_reusable_session rd q m) in
  leased m1 addr /\ _sessions m1 = _sessions m /\ length (sm_heap m1) = length (sm_heap m).
Proof.
  intros Hl. unfold find_reusable_session. destruct (truthy _); [| done]. destruct (truthy _); [| done].
  destruct (q_validated_ips _); [done |]. destruct (canonical_ips _); [| done].
  destruct (List.find _ _) as [x|]; [| done]. simpl. rewrite length_alter. split; [| done].
  destruct Hl as (rec & Hs & Hop). unfold leased, record_at in *. simpl.
  destruct (decide (x = addr)) as [-> | Hne].
  - rewrite list_lookup_alter_eq, Hs. by exists (touch (now rd) rec).
  - rewrite list_lookup_alter_ne by done. by exists rec.
Qed.
Lemma connect_pins `{KeyFormats} cfg targets gai rd req who ip m sid addr : leased m addr ->
  dict_get sid (_sessions m) = Some addr ->
  stays m (snd (ssh_connect cfg targets gai rd req who ip m)) sid addr.
Proof.
  intros Hl Hg. unfold ssh_connect.
  destruct (validate_target_host _ _ _ _) as [[|pinned ips]|e]; try (left; exact Hg).
  set (look := if rr_reuse_existing req then _ else _).
  assert (Hlk : leased (snd look) addr /\ _sessions (snd look) = _sessions m /\
                length (sm_heap (snd look)) = length (sm_heap m)).
  { subst look. destruct (rr_reuse_existing req); [by apply look_leased | done]. }
  destruct look as [found m1]. cbn [snd] in Hlk. destruct Hlk as (Hl1 & Hs1 & Hh1). rewrite <- Hs1 in Hg.
  destruct found as [[x|]|e]; try (left; exact Hg).
  pose proof (begin_create_pins cfg rd (create_request cfg req who ip pinned) m1 sid addr Hl1 Hg) as Hb.
  destruct (begin_create _ _ _ m1) as [p m2]. unfold stays, renewed in *. by rewrite <- Hh1.
Qed.
Lemma report_sessions b f m : _sessions (report b f m) = _sessions m /\ sm_heap (report b f m) = sm_heap m.
Proof. unfold report. destruct b; [| done]. by destruct (_circuit_breakers m). Qed.
Lemma unreserve_sessions o m : _sessions (unreserve o m) = _sessions m.
Proof. by destruct o. Qed.
Lemma end_create_pins rd n att m sid addr : dict_get sid (_sessions m) = Some addr ->
  stays m (snd (end_create rd n att m)) sid addr.
Proof.
  intros Hg. unfold end_create, stays, renewed.
  destruct (_connect (a_dial att) n); cbn -[report unreserve]; rewrite unreserve_sessions; cbn [close_clients _sessions].
  - destruct (report_sessions (a_breaker att) record_success m) as [E1 E2].
    rewrite <- E1 in Hg. rewrite <- E2. by apply (register_pins (now rd) (uuid4 rd) (a_request att)
      (a_idle_timeout att) (a_key att) (d_client (a_dial att))).
  - by left.
  - left. by rewrite (proj1 (report_sessions _ _ _)).
  - by left.
Qed.
Lemma disconnect_pins rd sid sid' m addr : sid' <> sid -> dict_get sid (_sessions m) = Some addr ->
  dict_get sid (_sessions (snd (disconnect rd sid' m))) = Some addr.
Proof.
  intros Hne Hg. unfold disconnect. destruct (dict_get sid' _) as [x|]; [| done].
  assert (Hdel : dict_get sid (dict_del sid' (_sessions m)) = Some addr) by (by rewrite dict_get_del_ne).
  destruct (record_at _ x) as [s|]; [| exact Hdel]. unfold hand_back. cbn [_pool set_sessions].
  destruct (_pool _); [| exact Hdel]. destruct (s_destination_ip s); [| exact Hdel].
  destruct (alive rd _); [| exact Hdel]. by destruct (release _ _ _ _).
Qed.
Lemma operation_sessions rd t sid m : _sessions (snd (begin_execute rd sid m)) = _sessions m /\
  _sessions (snd (begin_stream rd sid m)) = _sessions m /\
  _sessions (snd (acquire_operation_lease t sid m)) = _sessions m.
Proof.
  unfold begin_execute, begin_stream, acquire_operation_lease. destruct (get_session sid m); [| done].
  split; [| done]. destruct (match record_at _ _ with Some s => _ | None => _ end); [done |].
  by destruct (reconnect _ _ _) as [[|]|].
Qed.

(** The events that take a session away on purpose *)
Definition disconnects (e : event) (sid : string) : Prop :=
  match e with
  | OnDisconnect _ sid' => sid' = sid
  | OnRevoke _ _ _ | OnShutdown _ => True
  | _ => False
  end.

(** the periodic cleanup removes exactly the sessions that hold no operation and have been
    idle for longer than their limit, and closes their clients in order; a session with an
    operation or a lease in progress leaves the table on no event but its disconnection, a
    revocation, a shutdown, or a new session that takes over its identifier, so neither
    reaper takes the transport from under an accepted operation. *)
Theorem leases_pin `{KeyFormats} cfg targets :
  (forall t m, let '(n, m') := cleanup_stale_sessions t m in
     table m' = List.filter (fun s => negb (is_stale t m s)) (table m) /\
     sm_closed m' = sm_closed m ++ map s_client (List.filter (is_stale t m) (table m)) /\
     n = length (List.filter (is_stale t m) (table m))) /\
  (forall e sy sid addr, leased (sy_manager sy) addr ->
     dict_get sid (_sessions (sy_manager sy)) = Some addr -> ~ disconnects e sid ->
     stays (sy_manager sy) (sy_manager (step cfg targets e sy)) sid addr).
Proof.
  split.
  { intros t m. unfold cleanup_stale_sessions. destruct (reap _ _ _) as [rs ks] eqn:E.
    apply reap_spec in E as (-> & Hk & _). simpl. rewrite length_map. by repeat split. }
  intros e sy sid addr Hl Hg Hd.
  destruct e; cbn [step]; try (left; exact Hg); try (exfalso; by apply Hd).
  - destruct (sy_attempts sy !! tid); [by left |].
    pose proof (connect_pins cfg targets getaddrinfo rd req who source_ip _ sid addr Hl Hg) as Hc.
    destruct (ssh_connect _ _ _ _ _ _ _ _) as [o m']. destruct o as [| |[]|]; exact Hc.
  - destruct (sy_attempts sy !! tid); [by left |].
    pose proof (begin_create_pins cfg rd r _ sid addr Hl Hg) as Hc.
    destruct (begin_create _ _ _ _) as [[] m2]; exact Hc.
  - destruct (sy_attempts sy !! tid) as [att|]; [| by left].
    pose proof (end_create_pins rd n att _ sid addr Hg) as Hc. by destruct (end_create _ _ _ _).
  - left. by apply disconnect_pins.
  - left. cbn [with_manager sy_manager]. unfold close_pool. by destruct (_pool _).
  - left. cbn [with_manager sy_manager]. unfold cleanup_stale_sessions.
    destruct Hl as (s & Hs & Hop).
    pose proof (leased_not_stale (is_stale t (sy_manager sy)) t (sy_manager sy) _ (_sessions (sy_manager sy))
      sid addr s Hs ltac:(done) Hop Hg) as Hk. by destruct (reap _ _ _).
  - left. cbn [with_manager sy_manager].
    by rewrite (proj2 (proj2 (operation_sessions (mkReadings 0 0 (fun _ => true) "") t session_id _))).
  - left. cbn [with_manager sy_manager]. by rewrite (proj1 (operation_sessions rd 0 session_id _)).
  - left. cbn [with_manager sy_manager]. by rewrite (proj1 (proj2 (operation_sessions rd 0 session_id _))).
  - left. cbn [with_manager sy_manager]. unfold update_session_timeout. by destruct (_ && _).
Qed.

(** ** The pool *)
Inductive pool_event : Type :=
| PAcquire (alive : nat -> bool) (key : PoolKey)
| PRelease (key : PoolKey) (client : nat)
| PEvictStale
| PCloseAll.
(** The pool with what went through it: the clients parked, closed and handed out *)
Record pool_history : Type := mkHistory {
  ph_pool : ConnectionPool; ph_parked : list nat; ph_closed : list nat; ph_handed : list nat }.
Definition pool_step (te : Z * pool_event) (h : pool_history) : pool_history :=
  let p := ph_pool h in
  match snd te with
  | PAcquire alive key =>
      let '(found, closed, p') := acquire alive (fst te) key p in
      mkHistory p' (ph_parked h) (ph_closed h ++ closed)
        (ph_handed h ++ match found with Some c => [c] | None => [] end)
  | PRelease key client =>
      let '(closed, p') := release (fst te) key client p in
      mkHistory p' (ph_parked h ++ [client]) (ph_closed h ++ closed) (ph_handed h)
  | PEvictStale =>
      let '(closed, p') := evict_stale (fst te) p in
      mkHistory p' (ph_parked h) (ph_closed h ++ closed) (ph_handed h)
  | PCloseAll =>
      let '(closed, p') := close_all p in
      mkHistory p' (ph_parked h) (ph_closed h ++ closed) (ph_handed h)
  end.
Definition pool_run (es : list (Z * pool_event)) (h : pool_history) : pool_history :=
  fold_left (fun h te => pool_step te h) es h.
(** The readings of the monotonic clock, from [t] on *)
Fixpoint clocked (t : Z) (es : list (Z * pool_event)) : Prop :=
  match es with [] => True | te :: r => (t <= fst te)%Z /\ clocked (fst te) r end.
Fixpoint last_reading (t : Z) (es : list (Z * pool_event)) : Z :=
  match es with [] => t | te :: r => last_reading (fst te) r end.

Record history_ok (size t : Z) (h : pool_history) : Prop := {
  ho_pool : pool_ok t (ph_pool h);
  ho_size : _max_size (ph_pool h) = size;
  ho_balance : ph_parked h ≡ₚ ph_handed h ++ ph_closed h ++ all_clients (_idle (ph_pool h)) }.

Lemma evict_stale_max now p : _max_size (snd (evict_stale now p)) = _max_size p.
Proof. unfold evict_stale. destruct (_ || _); [done |]. by destruct (stale_keys _ _ _). Qed.
Lemma close_all_ok now p : pool_ok now p -> pool_ok now (snd (close_all p)).
Proof.
  intros [_ _ _ H4]. split; simpl; [constructor | constructor | constructor |].
  unfold idle_count. simpl. lia.
Qed.
Lemma pool_step_ok size t te h : (t <= fst te)%Z -> history_ok size t h ->
  history_ok size (fst te) (pool_step te h).
Proof.
  intros Ht [H1 H2 H3]. apply (pool_ok_later t (fst te)) in H1; [| done].
  destruct te as [now [alive key|key client| |]]; unfold pool_step; cbn [fst snd] in *.
  - pose proof (acquire_ok alive now key _ H1) as Ho. pose proof (acquire_max alive now key (ph_pool h)) as Hm.
    destruct (acquire alive now key (ph_pool h)) as [[f cl] p'] eqn:E. cbn [snd] in *.
    apply acquire_spec in E as (d & Hp & Hd & _). split; cbn [ph_pool ph_parked ph_closed ph_handed]; [done | congruence |].
    rewrite H3, !all_clients_entries, Hp, map_app, map_map.
    change (map (fun x => entry_client (key, x)) d) with (map pc_client d). rewrite Hd. solve_Permutation.
  - pose proof (release_ok now key client _ H1) as Ho. pose proof (release_max now key client (ph_pool h)) as Hm.
    pose proof (release_entries now key client (ph_pool h) (po_keys _ _ H1)) as (_ & d & Hp & Hc).
    destruct (release now key client (ph_pool h)) as [cl p']. cbn [fst snd] in *.
    split; cbn [ph_pool ph_parked ph_closed ph_handed]; [done | congruence |].
    rewrite H3, !all_clients_entries, Hc. apply (Permutation_map entry_client) in Hp. rewrite map_app in Hp.
    transitivity (ph_handed h ++ ph_closed h ++ map entry_client ((key, mkPooled client now) :: entries (_idle (ph_pool h)))).
    + cbn [map]. change (entry_client (key, mkPooled client now)) with client. rewrite <- !app_assoc. do 2 f_equiv.
      symmetry. apply Permutation_cons_append.
    + rewrite Hp. solve_Permutation.
  - destruct (evict_stale_spec now _ H1) as (Ho & Hm & d & Hp & Hc & _).
    destruct (evict_stale now (ph_pool h)) as [cl p']. cbn [fst snd] in *.
    split; cbn [ph_pool ph_parked ph_closed ph_handed]; [done | congruence |].
    rewrite H3, !all_clients_entries, Hp, map_app, Hc. solve_Permutation.
  - pose proof (close_all_ok now _ H1) as Ho. unfold close_all in *. cbn [snd] in Ho.
    split; cbn [ph_pool ph_parked ph_closed ph_handed]; [exact Ho | done |].
    rewrite H3. cbn. by rewrite app_nil_r.
Qed.
Lemma pool_run_ok size es : forall t h, clocked t es -> history_ok size t h ->
  history_ok size (last_reading t es) (pool_run es h).
Proof.
  induction es as [|te es IH]; intros t h; [done |]. intros [Ht Hes] Hok. simpl.
  exact (IH (fst te) (pool_step te h) Hes (pool_step_ok _ _ _ _ Ht Hok)).
Qed.

(** along any use of the pool with a monotonic clock, every client ever parked is idle,
    handed out or closed, each exactly once; the idle ones never exceed the size; what a caller
    is handed was parked under its very key, is alive and younger than the TTL; and parking in
    a full pool closes one client, the least recently used of all. *)
Theorem pool_conserves size ttl t es : clocked t es ->
  let h := pool_run es (mkHistory (new_pool size ttl) [] [] []) in
  let p := ph_pool h in
  ph_parked h ≡ₚ ph_handed h ++ ph_closed h ++ all_clients (_idle p) /\
  (Z.of_nat (idle_count p) <= Z.max 0 size)%Z /\
  (forall alive now key c closed p', acquire alive now key p = (Some c, closed, p') ->
     alive c = true /\ exists parked_at, In (key, mkPooled c parked_at) (entries (_idle p)) /\
       (_ttl_seconds p <> 0%Z -> (now - parked_at <= _ttl_seconds p * 1000000)%Z)) /\
  (forall now key client, (last_reading t es <= now)%Z -> enabled p = true ->
     exists evicted, fst (release now key client p) = map entry_client evicted /\
       (evicted = [] \/ exists e, evicted = [e] /\ Z.of_nat (idle_count p) = _max_size p /\
          forall e', In e' (entries (_idle p)) -> (entry_time e <= entry_time e')%Z)).
Proof.
  intros Hc h p.
  assert (Hok : history_ok (Z.max 0 size) (last_reading t es) h).
  { apply pool_run_ok; [done |]. split; simpl; [apply new_pool_ok | done | done]. }
  destruct Hok as [H1 H2 H3]. fold p in H1, H2, H3. split; [done |].
  split; [pose proof (po_size _ _ H1); lia | split].
  - intros alive now key c closed p' Ha.
    apply acquire_spec in Ha as (d & Hp & _ & Hf). destruct (Hf c eq_refl) as (Hal & conn & Hin & <- & Hex).
    split; [done |]. exists (pc_last_used conn). split.
    + apply list_elem_of_In. rewrite Hp. apply elem_of_app. left. apply list_elem_of_In, in_map_iff.
      exists conn. by destruct conn.
    + intros Hne. unfold expired in Hex. lia.
  - intros now key client Hn He.
    destruct (release_closes now key client p (pool_ok_later _ _ _ Hn H1) He) as (ev & Hr & _ & Hev).
    exists ev. by rewrite Hr.
Qed.

(** ** Failed passwords and the circuit breaker *)
(** The breaker of the host is half open and has admitted all its calls. *)
Definition locked_out (m : SSHSessionManager) (host : string) : Prop :=
  _pool m = None /\ exists rg a cb, _circuit_breakers m = Some rg /\ dict_get host (rg_breakers rg) = Some a /\
    In host (rg_access_order rg) /\ rg_heap rg !! a = Some cb /\ cb_state cb = HALF_OPEN /\
    (cb_half_open_max_calls cb <= cb_half_open_calls cb)%Z.
Lemma list_remove_In x l : In x l -> exists l', list_remove x l = Ok l'.
Proof.
  induction l as [|y l IH]; simpl; [done |]. destruct (String.eqb_spec x y) as [-> | Hne]; [eauto |].
  intros [-> | Hin]; [done |]. destruct (IH Hin) as [l' ->]. simpl. eauto.
Qed.
Lemma locked_consult t host m : locked_out m host ->
  exists b m', consult_breaker t host m = (Ok (b, false), m') /\ locked_out m' host.
Proof.
  intros (Hp & rg & a & cb & Hb & Hg & Hin & Ha & Hs & Hc). unfold consult_breaker. rewrite Hb.
  unfold get_breaker. rewrite Hg. destruct (list_remove_In _ _ Hin) as [order ->]. cbn [rbind rg_heap].
  rewrite Ha. assert (Hcan : can_execute t cb = (false, cb)).
  { unfold can_execute, admit_call. rewrite Hs.
    replace (cb_half_open_max_calls cb <=? cb_half_open_calls cb)%Z with true by (symmetry; lia). done. }
  rewrite Hcan. do 2 eexists. split; [done |]. split; [done |].
  do 3 eexists. split; [done |]. cbn [rg_breakers rg_access_order rg_heap update_breaker].
  split; [exact Hg |]. split; [apply in_or_app; right; by left |].
  rewrite list_lookup_alter_eq, Ha. simpl. rewrite Hcan. done.
Qed.
Lemma locked_begin `{KeyFormats} cfg rd r m : locked_out m (c_host r) ->
  exists e m', begin_create cfg rd r m = (Refused e, m') /\ locked_out m' (c_host r).
Proof.
  intros Hl. unfold begin_create.
  assert (Ha : locked_out (snd (admission cfg (now rd) r m)) (c_host r)).
  { unfold admission. destruct (truthy _); [| done]. destruct (0 <? _)%Z; [| done].
    destruct (reap _ _ _). by destruct (_ <=? _)%Z. }
  destruct (admission cfg (now rd) r m) as [[o|e] m1]; cbn [snd] in Ha; [| by exists e, m1].
  assert (Hun : forall m, locked_out m (c_host r) -> locked_out (unreserve o m) (c_host r)) by (by destruct o).
  unfold _create_session_unreserved. destruct (destination_of r) as [dest|e]; [| do 2 eexists; split; [done | by apply Hun]].
  unfold pool_lookup. rewrite (proj1 Ha).
  destruct (locked_consult (now rd) (c_host r) m1 Ha) as (b & m2 & -> & H2).
  do 2 eexists. split; [done | by apply Hun].
Qed.

(** Connections asked for one after the other *)
Fixpoint try_each `{KeyFormats} (cfg : Settings) (l : list (Readings * ConnectRequest)) (m : SSHSessionManager)
    : list progress :=
  match l with
  | [] => []
  | (rd, r) :: l => let '(p, m') := begin_create cfg rd r m in p :: try_each cfg l m'
  end.

(** Once the breaker of a host is half open and its trial calls have ended in failed
    authentications, which report neither success nor failure, every later connection to the
    host is refused, at any time and with any credential. *)
Theorem failed_passwords_lock_host `{KeyFormats} cfg host l : forall m,
  locked_out m host -> Forall (fun rr => c_host (snd rr) = host) l ->
  Forall (fun p => exists e, p = Refused e) (try_each cfg l m).
Proof.
  induction l as [|[rd r] l IH]; simpl; intros m Hl Hf; [constructor |].
  apply Forall_cons in Hf as [<- Hf]. simpl in *.
  destruct (locked_begin cfg rd r m Hl) as (e & m' & -> & Hl'). constructor; [by exists e | by apply IH].
Qed.
Lemma failed_password_reports_nothing rd n a m : _connect (a_dial a) n = DialAuthenticationException ->
  _circuit_breakers (snd (end_create rd n a m)) = _circuit_breakers m.
Proof. unfold end_create. intros ->. simpl. by destruct (a_reserved a). Qed.
