(* ===== verification/CoordinationSpec.v ===== *)
(** * What coordination threads promise ([Coordination]) *)
From stdpp Require Import list.
From S2P Require Import Prelude PyStr Regex RegexParse RegexFacts Digests Coordination.
From stdpp Require Import options.

#[local] Set Default Proof Using "Type".

(** ** Markers: written and read *)
(** *** Runs of the matcher over a text it must consume *)
Definition seq_lits (t : string) (r : regex) : regex := foldr (fun c r => RSeq (lit c) r) r (list_ascii_of_string t).
Definition past (w u : string) (s : mst) : mst := mkmst (srev_app w (m_pre s)) u (m_caps s).

Lemma class_lit fl c : f_ignorecase fl = false -> class_test fl (KSet false [CLit c]) c = true.
Proof. intros Hfl. simpl. unfold item_test_f. rewrite Hfl. simpl. by rewrite Ascii.eqb_refl. Qed.

Lemma run_lits t r k s u : m_suf s = t +s+ u ->
  rmatch no_flags (seq_lits t r) k s = rmatch no_flags r k (past t u s).
Proof.
  revert s. induction t as [|c t IH]; intros s Hs; simpl in Hs.
  { destruct s as [p v cs]; simpl in *. subst v. done. }
  unfold seq_lits, lit in *. cbn [list_ascii_of_string foldr rmatch]. rewrite Hs. simpl (String c t +s+ u).
  rewrite class_lit by done. rewrite IH by (unfold advance; by rewrite Hs). unfold past, advance. by rewrite Hs.
Qed.

Section Class.
Variables (cls : cclass).
Let step := rmatch no_flags (RChar cls).
Lemma run_lo w u k s : m_suf s = w +s+ u -> all_of (class_test no_flags cls) w = true ->
  rep_lo step (slen w) k s = k (past w u s).
Proof.
  revert s. induction w as [|c w IH]; intros s Hs Hw; simpl in *; bprop.
  { destruct s as [p v cs]; simpl in *. by subst v. }
  unfold step in *. cbn [rmatch]. rewrite Hs. simpl (String c w +s+ u). cbv beta iota. rewrite B.
  change (String.length w) with (slen w). rewrite IH; [| unfold advance; by rewrite Hs | done].
  unfold past, advance. by rewrite Hs.
Qed.

Definition stops (u : string) : Prop :=
  match u with "" => True | String c _ => class_test no_flags cls c = false end.

Lemma class_run_tail w : forall u k s fuel left last,
  m_suf s = w +s+ u -> all_of (class_test no_flags cls) w = true ->
  (slen w < fuel)%nat ->
  (match left with None => stops u | Some l => l = slen w end) ->
  (match last with None => True | Some n => slen (m_suf s) < n end)%nat ->
  k (past w u s) <> None ->
  rep_tail step fuel true k left last s = k (past w u s).
Proof.
  induction w as [|c w IH]; intros u k s fuel left last Hs Hw Hf Hleft Hlast Hk; (destruct fuel as [|fuel]; [lia |]).
  - destruct s as [p v cs]; simpl in Hs; subst v. cbn [rep_tail].
    assert (Hn : (if may_iterate left last (mkmst p u cs)
                 then step (rep_tail step fuel true k (option_map pred left) (Some (slen (m_suf (mkmst p u cs))))) (mkmst p u cs)
                 else None) = None).
    { destruct left as [l|]; simpl in Hleft; [subst l; done |].
      destruct (may_iterate _ _ _); [| done]. unfold step. simpl. destruct u; [done |]. simpl in Hleft. by rewrite Hleft. }
    rewrite Hn. done.
  - simpl in Hw. bprop. cbn [rep_tail].
    assert (Hm : may_iterate left last s = true).
    { unfold may_iterate. apply andb_true_iff. split.
      - destruct left as [[|l]|]; [simpl in Hleft; discriminate | done | done].
      - destruct last as [n|]; [| done]. apply negb_true_iff, Nat.eqb_neq. lia. }
    rewrite Hm. unfold step at 1. cbn [rmatch]. rewrite Hs. simpl. rewrite B. simpl in Hf.
    assert (Hadv : past w u (advance s) = past (String c w) u s) by (unfold past, advance; by rewrite Hs).
    rewrite (IH u).
    + rewrite Hadv. destruct (k _); done.
    + unfold advance. by rewrite Hs.
    + done.
    + lia.
    + destruct left as [l|]; simpl in *; [lia | done].
    + unfold advance. rewrite Hs. simpl. lia.
    + by rewrite Hadv.
Qed.

Lemma run_rep w w' u k s extra :
  m_suf s = w +s+ w' +s+ u -> all_of (class_test no_flags cls) (w +s+ w') = true ->
  match extra with None => stops u | Some l => l = slen w' end ->
  k (past (w +s+ w') u s) <> None ->
  rmatch no_flags (RRep (slen w) extra true (RChar cls)) k s = k (past (w +s+ w') u s).
Proof.
  intros Hs Hw Hx Hk. change (rmatch no_flags (RRep (slen w) extra true (RChar cls)) k s)
    with (rep_lo step (slen w) (fun s1 => rep_tail step (slen (m_suf s1) + 2) true k extra None s1) s).
  assert (Hall : forall a b, all_of (class_test no_flags cls) (a +s+ b) =
                   all_of (class_test no_flags cls) a && all_of (class_test no_flags cls) b).
  { induction a as [|x a IHa]; intros b; simpl; [done |]. by rewrite IHa, andb_assoc. }
  rewrite Hall in Hw. bprop. rewrite (run_lo w (w' +s+ u)) by done.
  assert (Hp : past w' u (past w (w' +s+ u) s) = past (w +s+ w') u s).
  { unfold past. simpl. f_equal. clear. generalize (m_pre s). induction w as [|x w IHw]; intros p; simpl; [done | apply IHw]. }
  rewrite (class_run_tail w' u); rewrite ?Hp; try done. simpl. rewrite slen_app. lia.
Qed.
End Class.

Lemma run_consumed w u s cs : consumed s (mkmst (srev_app w (m_pre s)) u cs) = w.
Proof.
  unfold consumed. simpl. rewrite srev_app_spec. rewrite slen_app. 
  assert (Hl : slen (srev w) = slen w).
  { clear. induction w as [|c w IH]; [done |]. rewrite srev_cons, slen_app, IH. simpl. lia. }
  replace (slen (srev w) + slen (m_pre s) - slen (m_pre s))%nat with (slen (srev w)) by lia.
  rewrite take_app_len. by rewrite srev_involutive.
Qed.

(** *** The shape of the header pattern *)
Definition key_class : cclass := KSet false [CRange "a" "z"; CRange "0" "9"; CLit "."; CLit "_"; CLit "-"].
Definition source_class : cclass :=
  KSet false [CRange "A" "Z"; CRange "a" "z"; CRange "0" "9"; CLit "_"; CLit "."; CLit "-"].
Definition state_class : cclass := KSet false [CRange "a" "z"; CLit "_"].
Definition actor_class : cclass := KSet false [CRange "0" "9"; CRange "a" "f"].

Definition optional_tag (name : string) (i : nat) (lo : nat) (extra : option nat) (cls : cclass) : regex :=
  RRep 0 (Some 1%nat) true (seq_lits name (RGroup i (RRep lo extra true (RChar cls)))).
Definition header_tail : regex :=
  RSeq (optional_tag " source=" 2 1 None source_class)
    (RSeq (optional_tag " state=" 3 1 None state_class)
       (RSeq (optional_tag " actor=" 4 16 (Some 0%nat) actor_class) (seq_lits " -->" REol))).
Definition header_key : regex :=
  seq_lits " key=" (RSeq (RGroup 1 (RRep 1 None true (RChar key_class))) header_tail).
Definition word (c : ascii) (w : string) : regex :=   (* a word, its last character apart *)
  seq_lits w (lit c).

Lemma header_shape : p_flags _HEADER = no_flags /\ p_re _HEADER =
  RSeq RBol (seq_lits "<!-- py-coordination/v1 "
    (RSeq (RAlt (word "e" "issu") (word "t" "even")) header_key)).
Proof. split; by_eval. Qed.

Lemma run_lits_fail t r k s : startswith t (m_suf s) = false -> rmatch no_flags (seq_lits t r) k s = None.
Proof.
  revert s. induction t as [|c t IH]; intros s Hs; [done |].
  unfold seq_lits, lit in *. cbn [list_ascii_of_string foldr rmatch]. simpl in Hs.
  destruct (m_suf s) as [|a v] eqn:E; [done |]. simpl.
  destruct (item_test_f no_flags a (CLit c)) eqn:Ea; [| done]. simpl. apply IH.
  unfold item_test_f in Ea. simpl in Ea. apply Ascii.eqb_eq in Ea as ->.
  rewrite Ascii.eqb_refl in Hs. unfold advance. by rewrite E.
Qed.

Definition captured (i : nat) (name v u : string) (s : mst) : mst :=
  mkmst (srev_app (name +s+ v) (m_pre s)) u ((i, v) :: m_caps s).

Lemma run_group i w w' u k s extra cls x :
  m_suf s = w +s+ w' +s+ u -> all_of (class_test no_flags cls) (w +s+ w') = true ->
  match extra with None => stops cls u | Some l => l = slen w' end ->
  k (captured i "" (w +s+ w') u s) = Some x ->
  rmatch no_flags (RGroup i (RRep (slen w) extra true (RChar cls))) k s = Some x.
Proof.
  intros Hs Hw Hx Hk. cbn [rmatch]. 
  change (rmatch no_flags (RRep (slen w) extra true (RChar cls)) (fun s1 => k (set_cap i s s1)) s = Some x).
  assert (Hc : set_cap i s (past (w +s+ w') u s) = captured i "" (w +s+ w') u s).
  { unfold set_cap, past. rewrite run_consumed. done. }
  rewrite (run_rep cls w w' u); rewrite ?Hc, ?Hk; done.
Qed.

Lemma srev_app_app a b p : srev_app b (srev_app a p) = srev_app (a +s+ b) p.
Proof. revert p. induction a as [|c a IH]; intros p; simpl; [done | apply IH]. Qed.

Lemma run_tag_present name i w w' u k s extra cls x :
  m_suf s = name +s+ w +s+ w' +s+ u -> name <> "" -> all_of (class_test no_flags cls) (w +s+ w') = true ->
  match extra with None => stops cls u | Some l => l = slen w' end ->
  k (captured i name (w +s+ w') u s) = Some x ->
  rmatch no_flags (optional_tag name i (slen w) extra cls) k s = Some x.
Proof.
  intros Hs Hname Hw Hx Hk. unfold optional_tag.
  change (rmatch no_flags (RRep 0 (Some 1%nat) true (seq_lits name (RGroup i (RRep (slen w) extra true (RChar cls))))) k s)
    with (rep_tail (rmatch no_flags (seq_lits name (RGroup i (RRep (slen w) extra true (RChar cls)))))
            (slen (m_suf s) + 2) true k (Some 1%nat) None s).
  replace (slen (m_suf s) + 2)%nat with (S (S (slen (m_suf s)))) by lia.
  cbn [rep_tail may_iterate option_map pred]. cbn [andb].
  rewrite (run_lits name _ _ s (w +s+ w' +s+ u)) by done.
  erewrite (run_group i w w' u); [done | done | done | done |].
  cbn [rep_tail may_iterate andb orelse]. cbn [orelse].
  assert (Hc : captured i "" (w +s+ w') u (past name (w +s+ w' +s+ u) s) = captured i name (w +s+ w') u s).
  { unfold captured, past. simpl. by rewrite srev_app_app. }
  rewrite Hc. rewrite Hk. done.
Qed.

Lemma run_tag_absent name i lo extra cls k s :
  startswith name (m_suf s) = false ->
  rmatch no_flags (optional_tag name i lo extra cls) k s = k s.
Proof.
  intros Hs. unfold optional_tag.
  change (rmatch no_flags (RRep 0 (Some 1%nat) true (seq_lits name (RGroup i (RRep lo extra true (RChar cls))))) k s)
    with (rep_tail (rmatch no_flags (seq_lits name (RGroup i (RRep lo extra true (RChar cls)))))
            (slen (m_suf s) + 2) true k (Some 1%nat) None s).
  replace (slen (m_suf s) + 2)%nat with (S (S (slen (m_suf s)))) by lia.
  cbn [rep_tail may_iterate option_map pred andb]. rewrite run_lits_fail by done. done.
Qed.

(** *** What a match consumed *)
Lemma past_app a b u v s : past b u (past a v s) = past (a +s+ b) u s.
Proof. unfold past. simpl. by rewrite srev_app_app. Qed.
Lemma past_nil s : past "" (m_suf s) s = s.
Proof. by destruct s. Qed.

Definition ran (cls : cclass) (w : string) (s s' : mst) : Prop :=
  m_suf s = w +s+ m_suf s' /\ all_of (class_test no_flags cls) w = true /\ s' = past w (m_suf s') s.

Lemma ran_app cls a b s s1 s' : ran cls a s s1 -> ran cls b s1 s' -> ran cls (a +s+ b) s s'.
Proof.
  intros (H1 & Ha & E1) (H2 & Hb & E2). split; [by rewrite H1, H2, append_assoc |].
  split; [by rewrite all_of_app, Ha, Hb |]. rewrite E2 at 1. rewrite E1. by rewrite past_app.
Qed.
Lemma ran_nil cls s : ran cls "" s s.
Proof. repeat split. by rewrite past_nil. Qed.
Lemma ran_char cls s s' : Den no_flags (RChar cls) s s' -> exists c, ran cls (sc c) s s'.
Proof.
  intros (c & t & E & Hc & ->). exists c. unfold ran, past, advance. rewrite E. simpl. by rewrite Hc.
Qed.

Lemma ran_iter cls n : forall s s', iterR (Den no_flags (RChar cls)) n s s' ->
  exists w, ran cls w s s' /\ slen w = n.
Proof.
  induction n as [|n IH]; intros s s'; simpl.
  - intros <-. exists "". split; [apply ran_nil | done].
  - intros (s1 & H1 & H2). apply ran_char in H1 as [c H1]. apply IH in H2 as (w & Hw & <-).
    exists (sc c +s+ w). split; [by eapply ran_app | done].
Qed.
Lemma ran_tail cls left last s s' : tailR (Den no_flags (RChar cls)) left last s s' ->
  exists w, ran cls w s s' /\ match left with Some l => (slen w <= l)%nat | None => True end.
Proof.
  induction 1 as [left last s|left last s s1 s' Hm H1 _ (w & Hw & Hl)].
  - exists "". split; [apply ran_nil |]. destruct left; [simpl; lia | done].
  - apply ran_char in H1 as [c H1]. exists (sc c +s+ w). split; [by eapply ran_app |].
    destruct left as [[|l]|]; simpl in *; [discriminate | lia | done].
Qed.
Lemma ran_rep lo extra cls s s' : Den no_flags (RRep lo extra true (RChar cls)) s s' ->
  exists w, ran cls w s s' /\ (lo <= slen w)%nat /\
    match extra with Some e => (slen w <= lo + e)%nat | None => True end.
Proof.
  intros (s1 & H1 & H2). apply ran_iter in H1 as (a & Ha & <-). apply ran_tail in H2 as (b & Hb & Hl).
  exists (a +s+ b). split; [by eapply ran_app |]. rewrite slen_app. destruct extra; lia.
Qed.

Lemma Den_lits t r s s' : Den no_flags (seq_lits t r) s s' ->
  exists u, m_suf s = t +s+ u /\ Den no_flags r (past t u s) s'.
Proof.
  revert s. induction t as [|c t IH]; intros s Hs.
  - exists (m_suf s). split; [done |]. by rewrite past_nil.
  - destruct Hs as (s1 & H1 & Hs). apply ran_char in H1 as (a & E & Ha & E1).
    assert (a = c) as ->.
    { simpl in Ha. unfold item_test_f in Ha. simpl in Ha.
      rewrite !andb_true_r, orb_false_r in Ha. by apply Ascii.eqb_eq. }
    apply IH in Hs as (u & Hu & Hs). exists u. split; [by rewrite E, Hu |].
    assert (Hp : past t u s1 = past (String c t) u s) . { rewrite E1. apply past_app. }
    by rewrite <- Hp.
Qed.

(** A tag is absent, or present with a value of its class. *)
Lemma Den_tag name i lo extra cls s s' : Den no_flags (optional_tag name i lo extra cls) s s' ->
  s' = s \/
  exists w, m_suf s = name +s+ w +s+ m_suf s' /\ all_of (class_test no_flags cls) w = true /\
    (lo <= slen w)%nat /\ match extra with Some e => (slen w <= lo + e)%nat | None => True end /\
    s' = captured i name w (m_suf s') s.
Proof.
  intros (s1 & Hs1 & H1). cbn [iterR] in Hs1. subst s1. inversion H1 as [|? ? ? s1 ? _ Hd Ht]; subst; [by left |].
  inversion Ht; subst; [| discriminate]. right.
  apply Den_lits in Hd as (u & Hu & Hg). destruct Hg as (s2 & Hr & ->).
  apply ran_rep in Hr as (w & (Hs & Hw & E) & Hlo & Hx). exists w.
  change (m_suf (past name u s)) with u in Hs. cbn [m_suf set_cap]. rewrite Hu, Hs. split; [done |]. split; [done |]. split; [done |]. split; [done |].
  assert (Hc : consumed (past name u s) s2 = w) by (rewrite E; apply run_consumed).
  unfold set_cap, captured. rewrite <- Hs. rewrite Hc, E. simpl. by rewrite srev_app_app.
Qed.

Lemma fullmatch_sound p s caps : pattern_ok p = true -> p_flags p = no_flags -> fullmatch p s = Some caps ->
  exists s', Den no_flags (p_re p) (start_state s) s' /\ m_suf s' = "" /\ m_caps s' = caps.
Proof.
  intros Hok Hfl. unfold fullmatch, option_map. rewrite Hfl.
  destruct (rmatch_correct no_flags (p_re p) Hok) as [S _].
  destruct (rmatch _ _ _ _) as [x|] eqn:E; [| done]. intros [= <-].
  apply S in E as (s' & Hd & Hend). exists s'. unfold at_end in Hend.
  destruct (String.eqb _ _) eqn:Eq; [| done]. injection Hend as <-. apply String.eqb_eq in Eq. done.
Qed.

Lemma key_chars v : matches_whole _KEY v = true -> all_of (class_test no_flags key_class) v = true /\ v <> "".
Proof.
  unfold matches_whole. destruct (fullmatch _ _) eqn:E; [| done]. intros _.
  apply fullmatch_sound in E as (s' & Hd & Hend & _); [| by_eval | by_eval].
  assert (Hre : p_re _KEY = RSeq RBol (RSeq (RChar (KSet false [CRange "a" "z"; CRange "0" "9"]))
            (RSeq (RRep 7 (Some 92%nat) true (RChar key_class)) REol))) by by_eval.
  rewrite Hre in Hd. destruct Hd as (s1 & [_ ->] & s2 & H1 & s3 & H2 & [_ ->]).
  apply ran_char in H1 as (c & E1 & Hc & _). apply ran_rep in H2 as (w & (E2 & Hw & _) & _).
  simpl in E1. rewrite E1, E2, Hend, append_nil_r. split; [| done]. simpl. simpl in Hw. rewrite Hw.
  simpl in Hc. bprop. rewrite andb_true_r in *. 
  apply orb_true_iff in B as [B|B]; [by rewrite B |]. apply orb_true_iff in B as [B|B]; [| done].
  by rewrite B, orb_true_r.
Qed.

Lemma project_chars v : matches_whole _PROJECT v = true ->
  all_of (class_test no_flags source_class) v = true /\ v <> "".
Proof.
  unfold matches_whole. destruct (fullmatch _ _) eqn:E; [| done]. intros _.
  apply fullmatch_sound in E as (s' & Hd & Hend & _); [| by_eval | by_eval].
  assert (Hre : p_re _PROJECT = RSeq RBol (RSeq (RChar (KSet false [CRange "A" "Z"; CRange "a" "z"; CRange "0" "9"]))
            (RSeq (RRep 0 (Some 99%nat) true (RChar source_class)) REol))) by by_eval.
  rewrite Hre in Hd. destruct Hd as (s1 & [_ ->] & s2 & H1 & s3 & H2 & [_ ->]).
  apply ran_char in H1 as (c & E1 & Hc & _). apply ran_rep in H2 as (w & (E2 & Hw & _) & _).
  simpl in E1. rewrite E1, E2, Hend, append_nil_r. split; [| done]. simpl. simpl in Hw. rewrite Hw.
  simpl in Hc. rewrite !andb_true_r, orb_false_r in *. rewrite !orb_true_iff in *. tauto.
Qed.

(** A marker as the two writers make it *)
Definition proper (kind : marker_kind) (m : marker) : Prop :=
  matches_whole _KEY (mk_key m) = true /\
  match kind with
  | KIssue => all_of (class_test no_flags source_class) (mk_source m) = true /\ mk_source m <> "" /\ mk_state m = "open"
  | KEvent => mk_source m = "" /\ mem (mk_state m) _STATES = true
  end /\
  (mk_actor m = "" \/ slen (mk_actor m) = 16%nat /\ all_of (class_test no_flags actor_class) (mk_actor m) = true).

Definition class_caps (i : nat) (v : string) (caps : list (nat * string)) : list (nat * string) :=
  if String.eqb v "" then caps else (i, v) :: caps.

(** A tag with a value of its class, or no value: written, and consumed by its group *)
Lemma run_tag name i lo extra cls v u k s x :
  m_suf s = tag name v +s+ u -> all_of (class_test no_flags cls) v = true ->
  (v = "" /\ startswith (" " +s+ name +s+ "=") u = false \/
   v <> "" /\ (lo <= slen v)%nat /\ match extra with None => stops cls u | Some l => (lo + l)%nat = slen v end) ->
  k (mkmst (srev_app (tag name v) (m_pre s)) u (class_caps i v (m_caps s))) = Some x ->
  rmatch no_flags (optional_tag (" " +s+ name +s+ "=") i lo extra cls) k s = Some x.
Proof.
  unfold tag, class_caps. intros Hs Hv [[-> Hu] | (Hn & Hlo & Hx)] Hk.
  - change (m_suf s = u) in Hs. rewrite run_tag_absent by (by rewrite Hs).
    destruct s as [p w c]. cbn [m_suf] in Hs. subst w. exact Hk.
  - apply String.eqb_neq in Hn. rewrite Hn in *.
    assert (Htd := take_drop lo v).
    assert (Hlo' : slen (take lo v) = lo) by (rewrite slen_take; lia).
    rewrite <- Hlo'.
    eapply (run_tag_present _ i (take lo v) (drop lo v) u); rewrite ?Htd; try done.
    + rewrite Hs. rewrite !append_assoc. rewrite <- (append_assoc (take lo v)), Htd. done.
    + destruct extra; [| done]. rewrite slen_drop. lia.
    + unfold captured. rewrite !append_assoc. done.
Qed.

Definition header_caps (m : marker) : list (nat * string) :=
  class_caps 4 (mk_actor m) (class_caps 3 (mk_state m) (class_caps 2 (mk_source m) [(1%nat, mk_key m)])).

(** What a marker of the pattern may be, whoever wrote it *)
Definition markable (m : marker) : Prop :=
  (all_of (class_test no_flags key_class) (mk_key m) = true /\ mk_key m <> "") /\
  all_of (class_test no_flags source_class) (mk_source m) = true /\
  all_of (class_test no_flags state_class) (mk_state m) = true /\
  all_of (class_test no_flags actor_class) (mk_actor m) = true /\
  (mk_actor m = "" \/ slen (mk_actor m) = 16%nat).

Lemma proper_markable k m : proper k m -> markable m.
Proof.
  intros (Hk & Hs & Ha). split; [by apply key_chars |].
  assert (Hst : all_of (class_test no_flags source_class) (mk_source m) = true /\
                all_of (class_test no_flags state_class) (mk_state m) = true).
  { destruct k.
    - destruct Hs as (Hs & _ & ->). by split.
    - destruct Hs as [-> Hs]. split; [done |]. apply mem_In in Hs.
      repeat (destruct Hs as [<-|Hs]; [done |]). done. }
  destruct Hst. split; [done |]. split; [done |]. destruct Ha as [-> | [Hl Ha]]; [by split; [| left] | by split; [| right]].
Qed.

Lemma run_seq fl a b k s : rmatch fl (RSeq a b) k s = rmatch fl a (rmatch fl b k) s.
Proof. done. Qed.

Lemma stops_tag cls name v u : class_test no_flags cls " "%char = false -> stops cls u -> stops cls (tag name v +s+ u).
Proof. unfold tag. by destruct (String.eqb v ""). Qed.

Lemma tag_cases cls lo v u name extra :
  all_of (class_test no_flags cls) v = true -> startswith (" " +s+ name +s+ "=") u = false ->
  (v = "" \/ (lo <= slen v)%nat /\ match extra with None => stops cls u | Some l => (lo + l)%nat = slen v end) ->
  v = "" /\ startswith (" " +s+ name +s+ "=") u = false \/
  v <> "" /\ (lo <= slen v)%nat /\ match extra with None => stops cls u | Some l => (lo + l)%nat = slen v end.
Proof. intros _ Hu Hv. destruct (decide (v = "")); [by left | right]. destruct Hv as [? | [? ?]]; done. Qed.

Lemma nonempty_or v : v = "" \/ (1 <= slen v)%nat.
Proof. destruct v; [by left | right; simpl; lia]. Qed.

Lemma header_key_run m p : markable m ->
  exists q, rmatch no_flags header_key at_end
    (mkmst p (" key=" +s+ mk_key m +s+ tag "source" (mk_source m) +s+ tag "state" (mk_state m)
              +s+ tag "actor" (mk_actor m) +s+ " -->") []) = Some (mkmst q "" (header_caps m)).
Proof.
  intros ([Hk Hkn] & Hs & Ht & Ha & Hl).
  set (t3 := tag "actor" (mk_actor m) +s+ " -->"). set (t2 := tag "state" (mk_state m) +s+ t3).
  set (t1 := tag "source" (mk_source m) +s+ t2).
  assert (Hst : forall cls, class_test no_flags cls " "%char = false -> stops cls t1 /\ stops cls t2 /\ stops cls t3).
  { intros cls Hc. unfold t1, t2, t3. repeat split; repeat apply stops_tag; done. }
  assert (Hsw : startswith " source=" t2 = false /\ startswith " state=" t3 = false /\ startswith " actor=" " -->" = false).
  { unfold t2, t3, tag. repeat split; repeat (destruct (String.eqb _ _)); reflexivity. }
  destruct Hsw as (Hsw1 & Hsw2 & Hsw3).
  destruct (mk_key m) as [|c key] eqn:Ekey; [done |].
  eexists. unfold header_key. erewrite run_lits by reflexivity. rewrite run_seq.
  apply (run_group 1 (sc c) key t1 (rmatch no_flags header_tail at_end)); [done | done | by apply Hst |].
  unfold header_tail. rewrite run_seq.
  apply (run_tag "source" 2 1 None source_class (mk_source m) t2); [done | done | |].
  { apply (tag_cases source_class 1 _ _ "source" None); [done | done |]. destruct (nonempty_or (mk_source m)); [by left | right]. by split; [| apply Hst]. }
  rewrite run_seq. apply (run_tag "state" 3 1 None state_class (mk_state m) t3); [done | done | |].
  { apply (tag_cases state_class 1 _ _ "state" None); [done | done |]. destruct (nonempty_or (mk_state m)); [by left | right]. by split; [| apply Hst]. }
  rewrite run_seq. apply (run_tag "actor" 4 16 (Some 0%nat) actor_class (mk_actor m) " -->"); [done | done | |].
  { apply (tag_cases actor_class 16 _ _ "actor" (Some 0%nat)); [done | done |]. destruct Hl as [? | Hl]; [by left | right]. rewrite Hl. by split. }
  unfold header_caps. rewrite Ekey. erewrite run_lits by reflexivity. reflexivity.
Qed.

Lemma header_matches kind m : markable m -> fullmatch _HEADER (_header kind m) = Some (header_caps m).
Proof.
  intros Hm. destruct header_shape as [Hfl Hre]. unfold fullmatch. rewrite Hfl, Hre, run_seq.
  destruct (header_key_run m (srev_app ("<!-- py-coordination/v1 " +s+ kind_str kind) "") Hm) as [q Hq].
  assert (Hr : exists q, rmatch no_flags RBol (rmatch no_flags (seq_lits "<!-- py-coordination/v1 "
      (RSeq (RAlt (word "e" "issu") (word "t" "even")) header_key)) at_end) (start_state (_header kind m))
      = Some (mkmst q "" (header_caps m))); [| by destruct Hr as [q' ->]].
  exists q. destruct kind; [| exact Hq].
  match type of Hq with ?x = Some ?y => change (orelse x None = Some y) end. by rewrite Hq.
Qed.

Definition marker_of (groups : list (nat * string)) : marker :=
  let group i := default "" (cap_get i groups) in
  mkMarker (group 1%nat) (group 2%nat) (group 3%nat) (group 4%nat).

Lemma header_caps_marker m : marker_of (header_caps m) = m.
Proof.
  destruct m as [key source state actor]. unfold marker_of, header_caps, class_caps. simpl.
  destruct (String.eqb source "") eqn:E1, (String.eqb state "") eqn:E2, (String.eqb actor "") eqn:E3;
    bprop; subst; reflexivity.
Qed.

Lemma all_class_in cls c w : class_test no_flags cls c = false -> all_of (class_test no_flags cls) w = true -> char_in c w = false.
Proof.
  intros Hc. induction w as [|a w IH]; simpl; [done |]. intros Hw. bprop. rewrite IH by done.
  destruct (Ascii.eqb c a) eqn:E; [| done]. apply Ascii.eqb_eq in E as ->. congruence.
Qed.

Lemma char_in_tag c name v : char_in c (" " +s+ name +s+ "=") = false -> char_in c v = false -> char_in c (tag name v) = false.
Proof.
  intros H1 H2. unfold tag. destruct (String.eqb v ""); [done |].
  rewrite !char_in_app in *. rewrite H2. by rewrite orb_false_r.
Qed.

(** The characters of a header: neither a line end nor, past the first, a slash *)
Definition header_rest (m : marker) : string :=
  " key=" +s+ mk_key m +s+ tag "source" (mk_source m) +s+ tag "state" (mk_state m)
  +s+ tag "actor" (mk_actor m) +s+ " -->".
Lemma rest_without c m : markable m -> char_in c " key= source= state= actor= -->" = false ->
  class_test no_flags key_class c = false -> class_test no_flags source_class c = false ->
  class_test no_flags state_class c = false -> class_test no_flags actor_class c = false ->
  char_in c (header_rest m) = false.
Proof.
  intros ([Hk _] & Hs & Ht & Ha & _) Hc H1 H2 H3 H4. unfold header_rest.
  change " key= source= state= actor= -->" with (" key=" +s+ " source=" +s+ " state=" +s+ " actor=" +s+ " -->") in Hc.
  rewrite !char_in_app in *. bprop.
  rewrite (all_class_in key_class c (mk_key m)), !char_in_tag; try assumption; try by apply (all_class_in key_class).
  all: try by first [apply (all_class_in source_class); assumption | apply (all_class_in state_class); assumption
                    | apply (all_class_in actor_class); assumption].
  repeat match goal with Hin : char_in c _ = false |- _ => rewrite Hin; clear Hin end. done.
Qed.

Lemma partition_app c a b : char_in c a = false -> partition c (a +s+ String c b) = (a, Some b).
Proof.
  induction a as [|x a IH]; simpl; [by rewrite Ascii.eqb_refl |]. intros Ha. bprop.
  destruct (Ascii.eqb x c) eqn:E; [| by rewrite IH]. apply Ascii.eqb_eq in E as ->. by rewrite Ascii.eqb_refl in B.
Qed.

Lemma header_line kind m text : markable m ->
  first_line (_header kind m +s+ nl +s+ text) = _header kind m /\
  after_line (_header kind m +s+ nl +s+ text) = text /\
  snd (partition newline (_header kind m +s+ nl +s+ text)) = Some text.
Proof.
  intros Hm. assert (Hn : char_in newline (_header kind m) = false).
  { change (_header kind m) with ("<!-- py-coordination/v1 " +s+ kind_str kind +s+ header_rest m).
    rewrite !char_in_app, (rest_without newline) by done. by destruct kind. }
  unfold first_line, after_line, nl, sc. cbn [String.append].
  rewrite partition_app by done. done.
Qed.

(** A header names its own kind only. *)
Lemma header_kind kind kind' m : markable m ->
  contains (" " +s+ _MARKER +s+ " " +s+ kind_str kind +s+ " ") (_header kind' m) = bool_decide (kind = kind').
Proof.
  intros Hm. assert (Hrest : char_in "/" ("v1 " +s+ kind_str kind' +s+ header_rest m) = false).
  { rewrite !char_in_app, (rest_without "/") by done. by destruct kind'. }
  destruct (contains _ _) eqn:E.
  - apply contains_spec in E as (a & b & E).
    assert (Ha : char_in "/" (a +s+ " py-coordination") = false).
    { destruct (char_in "/" (a +s+ " py-coordination")) eqn:Ea; [| done]. exfalso.
      assert (Hsplit : exists u v, a +s+ " py-coordination" = u +s+ String "/" v /\ char_in "/" u = false).
      { clear -Ea. revert Ea. generalize (a +s+ " py-coordination"). intros s. induction s as [|c s IH]; [done |].
        cbn [char_in]. destruct (Ascii.eqb "/" c) eqn:Ec; simpl.
        - intros _. apply Ascii.eqb_eq in Ec as <-. by exists "", s.
        - intros Hs. destruct (IH Hs) as (u & v & -> & Hu). exists (String c u), v. split; [done |]. cbn [char_in]. by rewrite Ec. }
      destruct Hsplit as (u & v & Huv & Hu).
      assert (Hp : partition "/" (_header kind' m) = ("<!-- py-coordination", Some ("v1 " +s+ kind_str kind' +s+ header_rest m)))
        by exact (partition_app "/" "<!-- py-coordination" _ eq_refl).
      assert (E2 : _header kind' m = u +s+ String "/" (v +s+ "/v1 " +s+ kind_str kind +s+ " " +s+ b)).
      { rewrite E. change (" " +s+ _MARKER +s+ " " +s+ kind_str kind +s+ " ") with (" py-coordination" +s+ "/v1 " +s+ kind_str kind +s+ " ").
        rewrite !append_assoc. rewrite <- (append_assoc a), Huv, !append_assoc. reflexivity. }
      rewrite E2, partition_app in Hp by done. 
      assert (Hq : v +s+ "/v1 " +s+ kind_str kind +s+ " " +s+ b = "v1 " +s+ kind_str kind' +s+ header_rest m) by congruence.
      rewrite <- Hq, char_in_app in Hrest. bprop. done. }
    assert (E2 : _header kind' m = (a +s+ " py-coordination") +s+ String "/" ("v1 " +s+ kind_str kind +s+ " " +s+ b)).
    { rewrite E. change (" " +s+ _MARKER +s+ " " +s+ kind_str kind +s+ " ") with (" py-coordination" +s+ "/v1 " +s+ kind_str kind +s+ " ").
      rewrite !append_assoc. done. }
    assert (Hp : partition "/" (_header kind' m) = ("<!-- py-coordination", Some ("v1 " +s+ kind_str kind' +s+ header_rest m)))
        by exact (partition_app "/" "<!-- py-coordination" _ eq_refl).
    rewrite E2, partition_app in Hp by done. injection Hp as _ Hp. symmetry. apply bool_decide_eq_true.
    destruct kind, kind'; done.
  - symmetry. apply bool_decide_eq_false. intros ->. apply not_true_iff_false in E. apply E, contains_spec.
    exists "<!--", (drop 1 (header_rest m)). by destruct kind'.
Qed.

Lemma Den_seq fl a b s s' : Den fl (RSeq a b) s s' -> exists s1, Den fl a s s1 /\ Den fl b s1 s'.
Proof. done. Qed.

(** A tag, decoded: its text and what its group holds *)
Lemma tag_decoded name i lo extra cls s s' : (1 <= lo)%nat ->
  Den no_flags (optional_tag (" " +s+ name +s+ "=") i lo extra cls) s s' ->
  exists v, m_suf s = tag name v +s+ m_suf s' /\ all_of (class_test no_flags cls) v = true /\
    (v = "" \/ (lo <= slen v)%nat /\ match extra with Some e => (slen v <= lo + e)%nat | None => True end) /\
    m_caps s' = class_caps i v (m_caps s).
Proof.
  intros Hlo [-> | (w & Hs & Hw & Hl & Hx & E)]%Den_tag.
  - exists "". split; [done |]. split; [done |]. split; [by left | done].
  - assert (Hn : String.eqb w "" = false) by (apply String.eqb_neq; intros ->; simpl in Hl; lia).
    exists w. unfold tag, class_caps. rewrite Hn. split; [by rewrite Hs, !append_assoc |].
    split; [done |]. split; [by right |]. rewrite E. done.
Qed.

Lemma kind_decoded s s' : Den no_flags (RAlt (word "e" "issu") (word "t" "even")) s s' ->
  exists kind, m_suf s = kind_str kind +s+ m_suf s' /\ m_caps s' = m_caps s.
Proof.
  assert (Hword : forall c w, Den no_flags (word c w) s s' -> m_suf s = (w +s+ sc c) +s+ m_suf s' /\ m_caps s' = m_caps s).
  { intros c w Hd. apply Den_lits in Hd as (u & Hu & Hd). apply ran_char in Hd as (a & E & Ha & E2).
    assert (a = c) as ->.
    { simpl in Ha. unfold item_test_f in Ha. simpl in Ha. rewrite andb_true_r, orb_false_r in Ha. by apply Ascii.eqb_eq. }
    simpl in E. split; [by rewrite Hu, E, append_assoc | by rewrite E2]. }
  intros [H | H]; apply Hword in H as [H Hc]; [by exists KIssue | by exists KEvent].
Qed.

Lemma header_decoded line caps : fullmatch _HEADER line = Some caps ->
  exists kind m, line = _header kind m /\ markable m /\ caps = header_caps m.
Proof.
  intros H. destruct header_shape as [Hfl Hre].
  apply fullmatch_sound in H as (s' & Hd & Hend & Hcaps); [| by_eval | done]. rewrite Hre in Hd.
  apply Den_seq in Hd as (s0 & [_ ->] & Hd). apply Den_lits in Hd as (u & Hu & Hd). simpl in Hu.
  apply Den_seq in Hd as (s1 & Hk & Hd). apply kind_decoded in Hk as (kind & Hkind & Hc1).
  apply Den_lits in Hd as (u1 & Hu1 & Hd). apply Den_seq in Hd as (s2 & Hg & Hd).
  destruct Hg as (s2' & Hkey & ->). apply ran_rep in Hkey as (key & (Hs2 & Hkc & Es2) & Hkl & _).
  unfold header_tail in Hd. apply Den_seq in Hd as (s3 & H3 & Hd).
  apply (tag_decoded "source") in H3 as (source & Hsrc & Hsrcc & _ & Hcaps3); [| lia].
  apply Den_seq in Hd as (s4 & H4 & Hd).
  apply (tag_decoded "state") in H4 as (state & Hst & Hstc & _ & Hcaps4); [| lia].
  apply Den_seq in Hd as (s5 & H5 & Hd).
  apply (tag_decoded "actor") in H5 as (actor & Hac & Hacc & Hal & Hcaps5); [| lia].
  apply Den_lits in Hd as (u5 & Hu5 & [_ E5]).
  assert (Hu5' : u5 = "") by (by rewrite E5 in Hend). subst u5.
  exists kind, (mkMarker key source state actor).
  assert (Hkey1 : consumed (past " key=" u1 s1) s2' = key) by (rewrite Es2; apply run_consumed).
  cbn [m_suf set_cap] in Hsrc. split; [| split].
  - cbn [m_suf past] in Hkind, Hs2. rewrite Hu, Hkind, Hu1, Hs2, Hsrc, Hst, Hac, Hu5. done.
  - split; [split; [done | cbn [mk_key]; intros ->; simpl in Hkl; lia] |].
    split; [exact Hsrcc |]. split; [exact Hstc |]. split; [exact Hacc |].
    destruct Hal as [? | [? ?]]; [by left | right; cbn [mk_actor]; lia].
  - rewrite <- Hcaps, E5. cbn [m_caps past]. rewrite Hcaps5, Hcaps4, Hcaps3. cbn [set_cap m_caps].
    rewrite Hkey1, Es2. cbn [past m_caps]. rewrite Hc1. done.
Qed.

Lemma parse_header kind m b : proper kind m -> first_line b = _header kind m -> _parse (VStr b) kind = Some m.
Proof.
  intros Hp Hb. assert (Hm := proper_markable kind m Hp). destruct Hp as (Hkey & Hk & _).
  unfold _parse. rewrite Hb, header_matches, header_kind, bool_decide_eq_true_2 by done.
  change (mkMarker _ _ _ _) with (marker_of (header_caps m)). rewrite header_caps_marker. cbn [negb]. rewrite Hkey. cbn [negb].
  destruct kind.
  - destruct Hk as (_ & Hn & ->). apply String.eqb_neq in Hn. by rewrite Hn.
  - destruct Hk as (-> & ->). done.
Qed.

Lemma parse_sound kind v m : _parse v kind = Some m ->
  proper kind m /\ exists b, v = VStr b /\ first_line b = _header kind m.
Proof.
  destruct v as [| | | |b| |]; try (intros H; discriminate H). unfold _parse.
  destruct (fullmatch _HEADER (first_line b)) as [caps|] eqn:E; [| discriminate].
  apply header_decoded in E as (kind' & m' & Hb & Hm' & ->). rewrite Hb, header_kind by done.
  case_bool_decide as Hkind; [subst kind' | discriminate]. cbn [negb].
  change (mkMarker _ _ _ _) with (marker_of (header_caps m')). rewrite header_caps_marker.
  destruct (matches_whole _KEY (mk_key m')) eqn:Ekey; [cbn [negb] | discriminate]. intros H.
  assert (m' = m /\ match kind with KIssue => mk_source m <> "" /\ mk_state m = "open"
                    | KEvent => mk_source m = "" /\ mem (mk_state m) _STATES = true end) as [-> Hk].
  { destruct kind; destruct (_ || _) eqn:Eo in H; try discriminate; injection H as <-; bprop; by repeat split. }
  split; [| by exists b]. destruct Hm' as (_ & Hs & _ & Ha & Hl). split; [done |]. split.
  - destruct kind; [split; [done | exact Hk] | exact Hk].
  - destruct Hl as [Hl | Hl]; [by left | by right].
Qed.

#[local] Open Scope Z_scope.
#[local] Open Scope coord_scope.
#[local] Arguments _timeline_comment_pages : simpl never.
#[local] Arguments timeline_comments : simpl never.
#[local] Arguments get_trusted_login : simpl never.
#[local] Arguments open_thread : simpl never.
#[local] Arguments close_thread : simpl never.
#[local] Arguments receipts_of : simpl never.
#[local] Arguments receipt_name : simpl never.
#[local] Arguments _PAGE_SIZE : simpl never.

(** ** What the service documents *)
Definition user_comments (rows : list value) : list value :=
  List.filter (fun row => is_str "comment" (field "type" row)) rows.
Definition page_of (p : Z) (rows : list value) : list value :=
  firstn _PAGE_SIZE (skipn (_PAGE_SIZE * Z.to_nat (p - 1)) rows).

(** A Gitea server as its API describes it: reading changes nothing, a page is a window of the
    timeline (an empty one may be [null]), a comment goes to the end of its timeline under the
    name of the service, closing an issue adds no comment to it. *)
Record documented `{GiteaServer} : Prop := {
  login_set : service_login <> "";
  serve_user s : exists u, serve GetUser s = (VDict u, s) /\ field "login" (VDict u) = VStr service_login;
  serve_issue n s : exists v, serve (GetIssue n) s = (v, s) /\
    (no_comments v = true -> user_comments (timeline s n) = []);
  serve_timeline n p s : 1 <= p -> exists v, serve (ListTimeline n p) s = (v, s) /\
    (v = VList (page_of p (timeline s n)) \/ v = VNone /\ page_of p (timeline s n) = []);
  serve_comment n b s : exists v s' row, serve (CreateComment n b) s = (VDict v, s') /\
    (forall m, timeline s' m = if m =? n then timeline s n ++ [row] else timeline s m) /\
    field "type" row = VStr "comment" /\ field "body" row = VStr b /\ author_of row = VStr service_login /\
    field "body" (VDict v) = VStr b /\ field "id" (VDict v) = field "id" row;
  serve_close n s : exists v s' rows, serve (CloseIssue n) s = (v, s') /\ user_comments rows = [] /\
    forall m, timeline s' m = if m =? n then timeline s n ++ rows else timeline s m
}.

(** ** Reading a thread *)
Lemma user_comments_app a b : user_comments (a ++ b) = user_comments a ++ user_comments b.
Proof. unfold user_comments. apply List.filter_app. Qed.

Lemma row_invalid v c row : cu_invalid c = true -> cu_invalid (timeline_row v c row) = true.
Proof. unfold timeline_row. intros Hc. repeat case_match; done. Qed.
Lemma row_overlap v c row : cu_overlap c = true -> cu_overlap (timeline_row v c row) = true.
Proof. unfold timeline_row. intros Hc. repeat case_match; done. Qed.
Lemma rows_flags v rows : forall c,
  (cu_invalid c = true -> cu_invalid (fold_left (timeline_row v) rows c) = true) /\
  (cu_overlap c = true -> cu_overlap (fold_left (timeline_row v) rows c) = true).
Proof.
  induction rows as [|row rows IH]; intros c; simpl; [done |].
  destruct (IH (timeline_row v c row)) as [H1 H2]. split; intros Hc.
  - by apply H1, row_invalid.
  - by apply H2, row_overlap.
Qed.

Lemma row_comments v c row :
  let c' := timeline_row v c row in
  cu_invalid c' = false -> cu_overlap c' = false -> cu_comments c' = cu_comments c ++ user_comments [row].
Proof.
  unfold timeline_row, user_comments. simpl.
  repeat case_match; simpl; intros; try done; by rewrite ?app_nil_r.
Qed.

(** A page without a problem adds its comments, all of them and nothing else. *)
Lemma page_comments v rows : forall c,
  let c' := fold_left (timeline_row v) rows c in
  page_problem c' = None -> cu_comments c' = cu_comments c ++ user_comments rows.
Proof.
  induction rows as [|row rows IH]; intros c c' Hc; subst c'; simpl in *; [by rewrite app_nil_r |].
  assert (Hf : cu_invalid (timeline_row v c row) = false /\ cu_overlap (timeline_row v c row) = false).
  { destruct (rows_flags v rows (timeline_row v c row)) as [H1 H2]. unfold page_problem in Hc.
    destruct (cu_invalid (timeline_row v c row)); [by rewrite H1 in Hc |].
    destruct (cu_overlap (timeline_row v c row)); [| done].
    rewrite H2 in Hc by done. by repeat case_match. }
  destruct Hf as [Hi Ho]. rewrite IH by done. rewrite row_comments by done.
  rewrite <- app_assoc, <- user_comments_app. done.
Qed.

Lemma new_page_comments c : cu_comments (new_page c) = cu_comments c.
Proof. done. Qed.

(** The history the thread has at a moment: the comments of its whole timeline *)
Definition history_at `{GiteaServer} (s : server) (number : Z) : list entry :=
  map (history_entry service_login) (user_comments (timeline s number)).

Definition is_write (c : gitea_call) : bool :=
  match c with CreateIssue _ _ | CreateComment _ _ | CloseIssue _ => true | _ => false end.

Section Reading.
Context `{GiteaServer} (Hdoc : documented) (env : server -> server -> Prop).
Context `{Hpre : PreOrder _ env}.
Hypothesis env_grows : forall s s' n, env s s' -> timeline s n `prefix_of` timeline s' n.

(** Between two worlds only others acted, and the client read. *)
Definition quiet (w w' : world) : Prop :=
  env (w_server w) (w_server w') /\ w_journal w' = w_journal w /\
  List.filter is_write (w_attempts w') = List.filter is_write (w_attempts w).

#[export] Instance quiet_preorder : PreOrder quiet.
Proof using Hpre.
  split; [by repeat split |]. intros a b c (? & Hj & Ha) (? & Hj' & Ha').
  split; [by etrans |]. by rewrite Hj', Hj, Ha', Ha.
Qed.

Lemma quiet_turn w w1 : env_turn env w w1 -> quiet w w1.
Proof. intros (? & ? & Ha). split; [done |]. by rewrite Ha. Qed.

Definition is_read (c : gitea_call) : bool :=
  match c with GetIssue _ | GetUser => true | ListTimeline _ p => 1 <=? p | _ => false end.

Lemma serve_read c s : is_read c = true -> snd (serve c s) = s.
Proof using Hdoc.
  destruct c as [p|n|n p| |t b|n b|n]; simpl; intros Hc; try discriminate.
  - by destruct (serve_issue Hdoc n s) as (v & -> & _).
  - by destruct (serve_timeline Hdoc n p s ltac:(lia)) as (v & -> & _).
  - by destruct (serve_user Hdoc s) as (u & -> & _).
Qed.

Lemma quiet_attempt c w : is_write c = false -> quiet w (attempt (Gitea c) w).
Proof using Hpre. intros Hc. split; [reflexivity |]. split; [done |]. simpl. rewrite List.filter_app. simpl. rewrite Hc. by rewrite app_nil_r. Qed.

Lemma perform_gitea c w :
  perform (Gitea c) w = (fst (serve c (w_server w)), mkWorld (snd (serve c (w_server w))) (w_journal w) (w_attempts w)).
Proof. simpl. by destruct (serve c (w_server w)). Qed.

(** A read: the answer is the server's at that moment. *)
Lemma wp_read {A} c (k : value + failure -> prog A) post crash w : is_read c = true ->
  crash w ->
  (forall w1, quiet w w1 -> wp env (k (inl (fst (serve c (w_server w1))))) post crash w1) ->
  (forall w1 e, quiet w w1 -> wp env (k (inr e)) post crash w1) ->
  wp env (Ask (Gitea c) k) post crash w.
Proof using Hdoc Hpre.
  intros Hc Hcrash Hok Herr. split; [done |]. intros w1 Hw.
  assert (Hw1 : quiet w (attempt (Gitea c) w1)).
  { etrans; [by apply quiet_turn |]. apply quiet_attempt. by destruct c. }
  assert (Hp : snd (perform (Gitea c) (attempt (Gitea c) w1)) = attempt (Gitea c) w1).
  { rewrite perform_gitea. cbn [fst snd]. rewrite serve_read by done. done. }
  rewrite Hp. rewrite perform_gitea. cbn [fst snd]. split; [| split].
  - exact (Hok _ Hw1).
  - intros e _. exact (Herr _ e Hw1).
  - intros e. exact (Herr _ e Hw1).
Qed.

(** The answer's history is the whole history as it stood at one moment of the call. *)
Definition snapshot (number : Z) (t : thread) (s : server) : Prop :=
  th_history t = history_at s number /\ th_truncated t = false /\
  th_coord_state t = Some (coord_state_of (history_at s number)).

Lemma take_prefix {X} k (a b : list X) : a `prefix_of` b -> (k <= List.length a)%nat -> firstn k a = firstn k b.
Proof. intros [c ->] Hk. by rewrite take_app_le. Qed.

Lemma pages_wp number max_pages v post crash : forall fuel p c w,
  1 <= p -> (_PAGE_SIZE * Z.to_nat (p - 1) <= List.length (timeline (w_server w) number))%nat ->
  cu_comments c = user_comments (firstn (_PAGE_SIZE * Z.to_nat (p - 1)) (timeline (w_server w) number)) ->
  (forall w1, quiet w w1 -> crash w1) ->
  (forall w1 e, quiet w w1 -> post (inr e) w1) ->
  (forall w1 r, quiet w w1 -> sr_truncated r = false ->
    sr_comments r = user_comments (timeline (w_server w1) number) -> post (inl r) w1) ->
  wp env (_timeline_comment_pages fuel max_pages p (fun page => gitea (ListTimeline number page)) false v c)
    post crash w.
Proof using Hdoc Hpre env_grows.
  induction fuel as [|fuel IH]; intros p c w Hp Hlen Hc Hcrash Herr Hok.
  { apply Herr. reflexivity. }
  cbn [_timeline_comment_pages]. apply wp_bind. apply wp_read; [simpl; lia | by apply Hcrash | | by intros; apply Herr].
  intros w1 Hw1. simpl.
  destruct (serve_timeline Hdoc number p (w_server w1) Hp) as (x & Hx & Hpage). rewrite Hx. simpl.
  assert (Hgrow := env_grows _ _ number (proj1 Hw1)).
  set (rows := page_of p (timeline (w_server w1) number)) in *.
  assert (Hrows : (is_none x && negb v = true) \/
                  (is_none x && negb v = false /\ (if is_none x then VList [] else x) = VList rows)).
  { destruct Hpage as [-> | [-> Hr]]; [by right |]. destruct v; simpl; [right; by rewrite Hr | by left]. }
  destruct Hrows as [Hn | [Hn Hv]]; rewrite Hn; [by apply Herr |]. rewrite Hv. simpl.
  unfold valid_rows. case_goal; [by apply Herr |].
  destruct (page_problem _) eqn:Hproblem; [by apply Herr |].
  assert (Hlen1 := prefix_length _ _ Hgrow).
  assert (Hcomments : cu_comments (fold_left (timeline_row v) rows (new_page c)) =
            user_comments (firstn (_PAGE_SIZE * Z.to_nat (p - 1)) (timeline (w_server w1) number)) ++ user_comments rows).
  { rewrite page_comments by done. rewrite new_page_comments, Hc. by rewrite (take_prefix _ _ _ Hgrow) by done. }
  rewrite <- user_comments_app in Hcomments.
  destruct (Nat.ltb (List.length rows) _PAGE_SIZE) eqn:Hshort.
  - apply Hok; [done | done |]. simpl. rewrite Hcomments. f_equal. unfold rows, page_of.
    rewrite (take_ge (skipn _ _)); [apply firstn_skipn |].
    apply Nat.ltb_lt in Hshort. unfold rows, page_of in Hshort. rewrite length_take in Hshort. lia.
  - apply Nat.ltb_ge in Hshort. unfold rows, page_of in Hshort. rewrite length_take, length_drop in Hshort.
    assert (Hn' : (_PAGE_SIZE * Z.to_nat (p + 1 - 1) = _PAGE_SIZE * Z.to_nat (p - 1) + _PAGE_SIZE)%nat)
      by (unfold _PAGE_SIZE; lia).
    apply IH; [lia | lia | | | |].
    + rewrite Hcomments, Hn'. f_equal. unfold rows, page_of. by rewrite take_take_drop.
    + intros w2 Hw2. apply Hcrash. by etrans.
    + intros w2 e Hw2. apply Herr. by etrans.
    + intros w2 r Hw2. apply Hok. by etrans.
Qed.

Lemma get_issue_wp number post crash w :
  crash w -> (forall w1 e, quiet w w1 -> post (inr e) w1) ->
  (forall w1, quiet w w1 -> post (inl (fst (serve (GetIssue number) (w_server w1)))) w1) ->
  wp env (get_issue number) post crash w.
Proof using Hdoc Hpre.
  intros Hcrash Herr Hok. unfold get_issue. apply wp_bind. apply wp_read; [done | done | | by intros; apply Herr].
  intros w1 Hw1. cbn [wp]. case_goal; [by apply Hok | by apply Herr].
Qed.

Lemma get_login_wp post crash w :
  crash w -> (forall w1 e, quiet w w1 -> post (inr e) w1) ->
  (forall w1, quiet w w1 -> post (inl service_login) w1) ->
  wp env get_trusted_login post crash w.
Proof using Hdoc Hpre.
  intros Hcrash Herr Hok. unfold get_trusted_login. apply wp_bind. apply wp_read; [done | done | | by intros; apply Herr].
  intros w1 Hw1. destruct (serve_user Hdoc (w_server w1)) as (u & -> & Hlogin).
  cbn [wp fst is_dict negb]. rewrite Hlogin.
  destruct (String.eqb _ _) eqn:Hempty; [| by apply Hok].
  exfalso. apply String.eqb_eq in Hempty. exact (login_set Hdoc Hempty).
Qed.

Lemma open_thread_wp number post crash w :
  (forall w1, quiet w w1 -> crash w1) ->
  (forall w1 e, quiet w w1 -> post (inr e) w1) ->
  (forall w1 w2 t, quiet w w1 -> quiet w1 w2 -> snapshot number t (w_server w1) -> post (inl t) w2) ->
  wp env (open_thread number false) post crash w.
Proof using Hdoc Hpre env_grows.
  intros Hcrash Herr Hok. unfold open_thread. case_goal; [by apply Herr |].
  apply wp_bind. apply get_issue_wp; [by apply Hcrash | done |]. intros w1 Hw1.
  destruct (_issue _) eqn:Hitem; [| by apply Herr].
  apply wp_bind. apply (pages_wp number).
  - done.
  - change (Z.to_nat (1 - 1)) with 0%nat. lia.
  - done.
  - intros w2 Hw2. apply Hcrash. by etrans.
  - intros w2 e Hw2. apply Herr. by etrans.
  - intros w2 r Hw2 Htr Hr. assert (Hq2 : quiet w w2) by (by etrans). apply wp_bind.
    apply get_login_wp; [by apply Hcrash | intros w3 e Hw3; apply Herr; by etrans |].
    intros w3 Hw3. apply (Hok w2 w3); [done | done |]. unfold thread_of. rewrite Htr, Hr. by split.
Qed.
End Reading.

(** ** Writing an event *)
Section Writing.
Context `{GiteaServer} (Hdoc : documented) (env : server -> server -> Prop).
Context `{Hpre : PreOrder _ env}.
Hypothesis env_grows : forall s s' n, env s s' -> timeline s n `prefix_of` timeline s' n.

#[local] Abbreviation quiet := (quiet env).

Definition keyed (key : string) (l : list entry) : list entry :=
  List.filter (fun e => bool_decide (en_request_key e = Some key)) l.
Definition keyed_at (s : server) (number : Z) (key : string) : list entry := keyed key (history_at s number).
(** The thread holds the event, once. *)
Definition holds_event (s : server) (number : Z) (key state text : string) : Prop :=
  exists e, keyed_at s number key = [e] /\ _same_event_payload e state text = true.

Definition actor_ok (actor : string) : Prop :=
  actor = "" \/ slen actor = 16%nat /\ all_of (class_test no_flags actor_class) actor = true.

Definition outcome {A} (ok fail : world -> Prop) (r : A + failure) (w : world) : Prop :=
  match r with inl _ => ok w | inr _ => fail w end.

(** What a posted comment adds to the history of its thread *)
Lemma comment_posted number key state actor text w :
  let m := mkMarker key "" state actor in
  let q := Gitea (CreateComment number (_header KEvent m +s+ nl +s+ text)) in
  proper KEvent m ->
  exists e, en_request_key e = Some key /\ en_state e = Some state /\ en_body e = VStr text /\
    history_at (w_server (snd (perform q (attempt q w)))) number = history_at (w_server w) number ++ [e].
Proof using Hdoc.
  intros m q Hproper. set (payload := _header KEvent m +s+ nl +s+ text) in *.
  destruct (serve_comment Hdoc number payload (w_server w)) as (v & s' & row & Hs & Htl & Htype & Hbody & Hauthor & _).
  exists (history_entry service_login row).
  destruct (header_line KEvent m text (proper_markable _ _ Hproper)) as (Hline & _ & Hpart).
  assert (Hm : event_marker service_login row = Some m).
  { unfold event_marker. rewrite Hauthor. simpl. rewrite String.eqb_refl, Hbody. by apply parse_header. }
  unfold history_entry. rewrite Hm, Hbody. cbn [option_map en_request_key en_state en_body].
  unfold payload. rewrite Hpart. repeat split.
  unfold history_at. assert (Hserver : w_server (snd (perform q (attempt q w))) = s').
  { unfold q. rewrite perform_gitea. simpl. by rewrite Hs. }
  rewrite Hserver, Htl, Z.eqb_refl, user_comments_app. unfold user_comments at 2. simpl. rewrite Htype. simpl.
  rewrite map_app. simpl. unfold history_entry. rewrite Hm, Hbody. cbn [option_map]. unfold payload. by rewrite Hpart.
Qed.

Lemma event_proper key state actor : matches_whole _KEY key = true -> mem state _STATES = true ->
  actor_ok actor -> proper KEvent (mkMarker key "" state actor).
Proof. intros Hk Hs Ha. split; [done |]. split; [by split | done]. Qed.

Lemma reconcile_event_wp number key state text ok fail w :
  (forall w1, quiet w w1 -> fail w1) ->
  (forall w1 w2, quiet w w1 -> quiet w1 w2 -> holds_event (w_server w1) number key state text -> ok w2) ->
  wp env (reconcile_event number key state text)
    (fun r w' => match r with inl (Some _) => ok w' | _ => fail w' end) fail w.
Proof using Hdoc Hpre env_grows.
  intros Hfail Hok. unfold reconcile_event. apply wp_try, wp_bind, (open_thread_wp Hdoc env env_grows); [done | |].
  - intros w1 e Hw1. destruct (is_exception e); by apply Hfail.
  - intros w1 w2 t Hw1 Hw2 (Hhist & _ & _).
    assert (Hentries : entries_with_key key t = keyed_at (w_server w1) number key)
      by (unfold entries_with_key, keyed_at; by rewrite Hhist).
    assert (Hf : fail w2) by (apply Hfail; by etrans).
    rewrite Hentries. destruct (keyed_at _ _ _) as [|e [|]] eqn:Ekeyed; [done | | done].
    simpl. destruct (_same_event_payload e state text) eqn:Ep; [| done].
    apply (Hok w1 w2); [done | done |]. by exists e.
Qed.

(** [write_event] reads the thread; only a key that is not in it, and a move its state allows,
    get as far as the comment; what follows the comment is reading. *)
Lemma write_event_wp number text key state actor ok fail w : actor_ok actor ->
  (forall w1, quiet w w1 -> fail w1) ->
  (forall w1 w2, quiet w w1 -> quiet w1 w2 -> holds_event (w_server w1) number key state (strip text) -> ok w2) ->
  (forall w1 w2, quiet w w1 -> quiet w1 w2 ->
     proper KEvent (mkMarker key "" state actor) ->
     keyed_at (w_server w1) number key = [] ->
     may_move (Some (coord_state_of (history_at (w_server w1) number))) state = true ->
     let q := Gitea (CreateComment number (_header KEvent (mkMarker key "" state actor) +s+ nl +s+ strip text)) in
     ok (snd (perform q (attempt q w2))) /\
     forall w3, w3 = attempt q w2 \/ w3 = snd (perform q (attempt q w2)) ->
       (forall w4, quiet w3 w4 -> fail w4) /\
       (forall w4 w5, quiet w3 w4 -> quiet w4 w5 -> holds_event (w_server w4) number key state (strip text) -> ok w5)) ->
  wp env (write_event number text key state actor) (outcome ok fail) fail w.
Proof using Hdoc Hpre env_grows.
  intros Hactor Hfail Hheld Hwrite. assert (Hq0 : quiet w w) by reflexivity.
  unfold write_event. apply wp_bind, wp_lift. unfold _text. case_goal; [by apply Hfail |].
  apply wp_bind, wp_lift. unfold validate_key. destruct (matches_whole _KEY key) eqn:Ekey; [| by apply Hfail].
  destruct (mem state _STATES) eqn:Estate; cbn [negb]; [| by apply Hfail].
  apply wp_bind, (open_thread_wp Hdoc env env_grows); [done | intros; by apply Hfail |].
  intros w1 w2 t Hw1 Hw2 (Hhist & _ & Hcoord). assert (Hq2 : quiet w w2) by (by etrans).
  assert (Hentries : entries_with_key key t = keyed_at (w_server w1) number key)
    by (unfold entries_with_key, keyed_at; by rewrite Hhist).
  rewrite Hentries, Hcoord.
  destruct (keyed_at (w_server w1) number key) as [|e [|]] eqn:Ekeyed; [| | by apply Hfail].
  2: { destruct (_same_event_payload e state (strip text)) eqn:Ep; [| by apply Hfail].
       apply (Hheld w1 w2); [done | done |]. by exists e. }
  destruct (may_move _ state) eqn:Emove; cbn [negb]; [| by apply Hfail].
  set (payload := _header KEvent (mkMarker key "" state actor) +s+ nl +s+ strip text).
  assert (Hproper := event_proper key state actor Ekey Estate Hactor).
  apply wp_bind, wp_try, wp_bind. split; [by apply Hfail |]. intros w3 Hw3.
  assert (Hq3 : quiet w1 w3) by (etrans; [done | by apply quiet_turn]).
  destruct (Hwrite w1 w3 Hw1 Hq3 Hproper Ekeyed Emove) as [Hok Hrest].
  set (q := Gitea (CreateComment number payload)) in *.
  assert (Hcaught : forall w4 e, w4 = attempt q w3 \/ w4 = snd (perform q (attempt q w3)) ->
      (forall k : option entry -> prog (value + entry), (forall f, k (Some f) = pret (inr f)) ->
         (exists e', k None = praise e') ->
       wp env (if refused_before_send e || negb (is_exception e) then praise e
               else found <~ reconcile_event number key state (strip text) ;; k found)
         (fun r w' => match r with inl (inr _) => ok w' | inl (inl _) => False | inr _ => fail w' end) fail w4)).
  { intros w4 e Hw4 k Hk [e' He']. destruct (Hrest w4 Hw4) as [Hf Ho]. case_goal; [by apply Hf |].
    apply wp_bind. eapply wp_mono; [| | exact (reconcile_event_wp number key state (strip text) ok fail w4 Hf Ho)]; [| done].
    intros [[found|]|e''] w' Hr; [by rewrite Hk | by rewrite He' | done]. }
  split; [| split].
  - clear Hcaught.
    destruct (serve_comment Hdoc number payload (w_server w3)) as (v & s' & row & Hs & _ & _ & _ & _ & Hbody & _).
    assert (Hans : fst (perform q (attempt q w3)) = VDict v) by (unfold q; rewrite perform_gitea; simpl; by rewrite Hs).
    rewrite Hans. cbn [wp pret outcome is_dict negb]. rewrite Hbody.
    destruct (header_line KEvent _ (strip text) (proper_markable _ _ Hproper)) as (Hline & Hafter' & _).
    rewrite (parse_header KEvent (mkMarker key "" state actor) payload) by done.
    cbn [mk_key mk_state]. unfold payload. rewrite Hafter', !String.eqb_refl. exact Hok.
  - intros e _. cbn [wp praise]. eapply wp_mono; [| | apply (Hcaught _ e); [by right | done | by eexists]]; [| done].
    by intros [[|]|].
  - intros e. cbn [wp praise]. eapply wp_mono; [| | apply (Hcaught _ e); [by left | done | by eexists]]; [| done].
    by intros [[|]|].
Qed.
End Writing.

(** *** One event for a key *)
(** Others add what they like to any timeline, but no event of the service with this key. *)
Definition without_key `{GiteaServer} (number : Z) (key : string) (s s' : server) : Prop :=
  (forall n, timeline s n `prefix_of` timeline s' n) /\ keyed_at s' number key = keyed_at s number key.
#[export] Instance without_key_preorder `{GiteaServer} number key : PreOrder (without_key number key).
Proof.
  split; [by split | intros a b c [H1 H2] [H3 H4]].
  split; [intros n; etrans; [apply H1 | apply H3] | by rewrite H4].
Qed.

Record write_attempt `{GiteaServer} : Type := mkAttempt {
  wa_text : string; wa_state : string; wa_actor : string; wa_turns : list turn
}.
Arguments mkAttempt {_}.
(** A client that tries the same key again and again, with whatever content *)
Fixpoint write_attempts `{GiteaServer} (number : Z) (key : string) (l : list write_attempt) (w : world)
    : list (option (written_event + failure)) * world :=
  match l with
  | [] => ([], w)
  | a :: l =>
      let (r, w) := exec (write_event number (wa_text a) key (wa_state a) (wa_actor a)) (wa_turns a) w in
      let (rs, w) := write_attempts number key l w in (r :: rs, w)
  end.

Section Once.
Context `{GiteaServer} (Hdoc : documented) (number : Z) (key : string).
#[local] Abbreviation env := (without_key number key).

Definition added_once (state text : string) (w w' : world) : Prop :=
  keyed_at (w_server w') number key = keyed_at (w_server w) number key \/
  keyed_at (w_server w) number key = [] /\ holds_event (w_server w') number key state text.

Lemma keyed_app a b : keyed key (a ++ b) = keyed key a ++ keyed key b.
Proof. apply List.filter_app. Qed.

Lemma attempt_added text state actor w : actor_ok actor ->
  wp env (write_event number text key state actor)
    (outcome (fun w' => added_once state (strip text) w w' /\ holds_event (w_server w') number key state (strip text))
       (added_once state (strip text) w)) (added_once state (strip text) w) w.
Proof using Hdoc.
  intros Hactor. apply (write_event_wp Hdoc env (fun s s' n Hg => proj1 Hg n)); [done | | |].
  - intros w1 [[_ Hk] _]. by left.
  - intros w1 w2 [[_ H1] _] [[_ H2] _] Hh. split; [left; by rewrite H2 |].
    destruct Hh as (e & He & Hp). exists e. by rewrite H2.
  - intros w1 w2 [[_ H1] _] [[_ H2] _] Hproper Hnone _ q.
    assert (Hpre : keyed_at (w_server w) number key = []) by (by rewrite <- H1).
    assert (Hnow : keyed_at (w_server w2) number key = []) by (by rewrite H2).
    assert (Hposted : holds_event (w_server (snd (perform q (attempt q w2)))) number key state (strip text)).
    { destruct (comment_posted Hdoc number key state actor (strip text) w2 Hproper) as (e & Hkey & Hstate & Hbody & Hh).
      exists e. fold q in Hh. unfold keyed_at. rewrite Hh, keyed_app. unfold keyed_at in Hnow. rewrite Hnow.
      unfold keyed. simpl. rewrite bool_decide_eq_true_2 by done. split; [done |].
      unfold _same_event_payload. rewrite bool_decide_eq_true_2 by done. rewrite Hbody. simpl. apply String.eqb_refl. }
    split; [split; [by right | done] |]. intros w3 Hw3.
    assert (H3 : added_once state (strip text) w w3).
    { destruct Hw3 as [-> | ->]; [left | by right]. by rewrite Hpre. }
    assert (Hlater : forall w4, quiet env w3 w4 -> added_once state (strip text) w w4).
    { intros w4 [[_ H4] _]. destruct H3 as [H3 | [H3 (e & He & Hp)]]; [left; by rewrite H4 | right].
      split; [done |]. exists e. by rewrite H4. }
    split; [done |]. intros w4 w5 Hw4 Hw5 Hh. split; [apply Hlater; etrans; [exact Hw4 | exact Hw5] |].
    destruct Hw5 as [[_ H5] _]. destruct Hh as (e & He & Hp). exists e. by rewrite H5.
Qed.

Lemma attempt_exec a w : actor_ok (wa_actor a) -> fair env (wa_turns a) ->
  let (r, w') := exec (write_event number (wa_text a) key (wa_state a) (wa_actor a)) (wa_turns a) w in
  added_once (wa_state a) (strip (wa_text a)) w w' /\
  (forall e, r = Some (inl e) -> holds_event (w_server w') number key (wa_state a) (strip (wa_text a))).
Proof using Hdoc.
  intros Hactor Hfair.
  pose proof (wp_sound env _ _ _ _ _ (attempt_added (wa_text a) (wa_state a) (wa_actor a) w Hactor) Hfair) as Hwp.
  destruct (exec _ _ _) as [[[e|e]|] w']; simpl in Hwp.
  - destruct Hwp as [H1 H2]. split; [done |]. intros; done.
  - by split.
  - by split.
Qed.

Definition written_well (as_ : list write_attempt) (rs : list (option (written_event + failure))) (w : world) : Prop :=
  forall i a e, as_ !! i = Some a -> rs !! i = Some (Some (inl e)) ->
  holds_event (w_server w) number key (wa_state a) (strip (wa_text a)).

Lemma attempts_added l : forall w,
  Forall (fun a => actor_ok (wa_actor a) /\ fair env (wa_turns a)) l ->
  let (rs, w') := write_attempts number key l w in
  (keyed_at (w_server w) number key = [] ->
     (List.length (keyed_at (w_server w') number key) <= 1)%nat) /\
  (keyed_at (w_server w) number key <> [] -> keyed_at (w_server w') number key = keyed_at (w_server w) number key) /\
  written_well l rs w'.
Proof using Hdoc.
  induction l as [|a l IH]; intros w Hl; simpl.
  { split; [intros ->; simpl; lia |]. by split. }
  apply Forall_cons in Hl as [[Ha Hf] Hl].
  pose proof (attempt_exec a w Ha Hf) as Hrun.
  destruct (exec (write_event number _ key _ _) (wa_turns a) w) as [r w1]. destruct Hrun as [Hadd Hheld].
  specialize (IH w1 Hl). destruct (write_attempts number key l w1) as [rs w']. destruct IH as (Hone & Hkeep & Hwell).
  split; [| split].
  - intros Hnone. destruct Hadd as [Heq | [_ (e & He & _)]]; [apply Hone; by rewrite Heq |].
    rewrite Hkeep, He by (by rewrite He). done.
  - intros Hsome. destruct Hadd as [Heq | [Hn _]]; [| done]. rewrite Hkeep by (by rewrite Heq). done.
  - intros [|i] b e Hb Hr; [| by eapply Hwell].
    simpl in Hb, Hr. injection Hb as ->. injection Hr as ->. destruct (Hheld e eq_refl) as (x & Hx & Hp).
    exists x. rewrite Hkeep, Hx by (by rewrite Hx). done.
Qed.
End Once.

(** C11: a key writes one event: however often a client tries to write an event under a key, with
    whatever content, and whatever becomes of its calls (answered, performed without an answer,
    refused, or the process gone in the middle) and whatever else others add to the thread, the
    thread never gets a second event of the service with that key; and whenever an attempt
    answers, the thread holds exactly that event, with its state and its text. *)
Theorem event_once `{GiteaServer} number key attempts w :
  documented -> keyed_at (w_server w) number key = [] ->
  Forall (fun a => actor_ok (wa_actor a) /\ fair (without_key number key) (wa_turns a)) attempts ->
  (List.length (keyed_at (w_server (snd (write_attempts number key attempts w))) number key) <= 1)%nat /\
  forall i a e, attempts !! i = Some a ->
    fst (write_attempts number key attempts w) !! i = Some (Some (inl e)) ->
    holds_event (w_server (snd (write_attempts number key attempts w))) number key (wa_state a) (strip (wa_text a)).
Proof.
  intros Hdoc Hnone Hl. pose proof (attempts_added Hdoc number key attempts w Hl) as Hrun.
  destruct (write_attempts number key attempts w) as [rs w']. destruct Hrun as (Hone & _ & Hwell).
  split; [by apply Hone | exact Hwell].
Qed.

(** *** The states of a thread *)
(** The states its events set, in order, messages included *)
Definition states_at `{GiteaServer} (s : server) (number : Z) : list string := omap en_state (history_at s number).
Definition next_state (current state : string) : string := if String.eqb state "message" then current else state.
Fixpoint lawful_from (current : string) (l : list string) : Prop :=
  match l with
  | [] => True
  | s :: r => may_move (Some current) s = true /\ lawful_from (next_state current s) r
  end.

Lemma lawful_app l : forall current s,
  lawful_from current l -> may_move (Some (fold_left next_state l current)) s = true -> lawful_from current (l ++ [s]).
Proof. induction l as [|x l IH]; intros current s; simpl; [done |]. intros [Hx Hl] Hs. split; [done | by apply IH]. Qed.

Lemma lawful_resolved l : forall current, lawful_from current l -> In "resolved" l -> last l = Some "resolved".
Proof.
  induction l as [|x l IH]; intros current; [done |]. intros [Hx Hl] [-> | Hin].
  - destruct l as [|y l]; [done |]. by destruct Hl as [Hy _].
  - destruct l as [|y l]; [done |]. exact (IH _ Hl Hin).
Qed.

Lemma coord_state_snoc h e :
  coord_state_of (h ++ [e]) = match en_state e with Some s => next_state (coord_state_of h) s | None => coord_state_of h end.
Proof.
  unfold coord_state_of. rewrite rev_app_distr. simpl. unfold state_set at 1, next_state.
  destruct (en_state e) as [s|]; [| done]. by destruct (String.eqb s "message").
Qed.

Lemma coord_state_fold h : coord_state_of h = fold_left next_state (omap en_state h) "open".
Proof.
  induction h as [|e h IH] using rev_ind; [done |].
  rewrite coord_state_snoc, omap_app, fold_left_app, IH. simpl. by destruct (en_state e).
Qed.

(** Others add what they like, but no event of the service to this thread. *)
Definition without_events `{GiteaServer} (number : Z) (s s' : server) : Prop :=
  (forall n, timeline s n `prefix_of` timeline s' n) /\ states_at s' number = states_at s number.
#[export] Instance without_events_preorder `{GiteaServer} number : PreOrder (without_events number).
Proof.
  split; [by split | intros a b c [H1 H2] [H3 H4]].
  split; [intros n; etrans; [apply H1 | apply H3] | by rewrite H4].
Qed.

(** Writers of a thread, one after the other, each with its own key *)
Fixpoint write_events `{GiteaServer} (number : Z) (l : list (string * write_attempt)) (w : world) : world :=
  match l with
  | [] => w
  | (key, a) :: l =>
      write_events number l
        (snd (exec (write_event number (wa_text a) key (wa_state a) (wa_actor a)) (wa_turns a) w))
  end.

Section Lawful.
Context `{GiteaServer} (Hdoc : documented) (number : Z).
#[local] Abbreviation env := (without_events number).

Definition moved (w w' : world) : Prop :=
  states_at (w_server w') number = states_at (w_server w) number \/
  exists s, states_at (w_server w') number = states_at (w_server w) number ++ [s] /\
    may_move (Some (fold_left next_state (states_at (w_server w) number) "open")) s = true.

Lemma event_moves text key state actor w : actor_ok actor ->
  wp env (write_event number text key state actor) (outcome (moved w) (moved w)) (moved w) w.
Proof using Hdoc.
  intros Hactor. apply (write_event_wp Hdoc env (fun s s' n Hg => proj1 Hg n)); [done | | |].
  - intros w1 [[_ Hs] _]. by left.
  - intros w1 w2 [[_ H1] _] [[_ H2] _] _. left. by rewrite H2.
  - intros w1 w2 [[_ H1] _] [[_ H2] _] Hproper _ Hmove q.
    assert (Hw2 : states_at (w_server w2) number = states_at (w_server w) number) by (by rewrite H2).
    assert (Hposted : moved w (snd (perform q (attempt q w2)))).
    { destruct (comment_posted Hdoc number key state actor (strip text) w2 Hproper) as (e & _ & Hstate & _ & Hh).
      right. exists state. split.
      - fold q in Hh. rewrite <- Hw2. unfold states_at. rewrite Hh, omap_app. simpl. by rewrite Hstate.
      - rewrite <- H1. unfold states_at. by rewrite <- coord_state_fold. }
    split; [done |]. intros w3 Hw3.
    assert (H3 : moved w w3) by (destruct Hw3 as [-> | ->]; [by left | done]).
    assert (Hlater : forall w4, quiet env w3 w4 -> moved w w4).
    { intros w4 [[_ H4] _]. destruct H3 as [H3 | (s & H3 & Hs)]; [left; by rewrite H4 | right].
      exists s. by rewrite H4. }
    split; [done |]. intros w4 w5 Hw4 Hw5 _. apply Hlater. etrans; [exact Hw4 | exact Hw5].
Qed.

Lemma events_lawful l : forall w,
  Forall (fun ka => actor_ok (wa_actor (snd ka)) /\ fair env (wa_turns (snd ka))) l ->
  lawful_from "open" (states_at (w_server w) number) ->
  lawful_from "open" (states_at (w_server (write_events number l w)) number).
Proof using Hdoc.
  induction l as [|[key a] l IH]; intros w Hl Hw; simpl; [done |].
  apply Forall_cons in Hl as [[Ha Hf] Hl]. apply IH; [done |].
  pose proof (wp_sound env _ _ _ _ _ (event_moves (wa_text a) key (wa_state a) (wa_actor a) w Ha) Hf) as Hwp.
  destruct (exec _ _ _) as [r w1]. simpl.
  assert (Hm : moved w w1) by (destruct r as [[|]|]; exact Hwp).
  destruct Hm as [Heq | (s & Heq & Hs)]; rewrite Heq; [done |]. by apply lawful_app.
Qed.
End Lawful.

(** C12: a thread moves as it may: when its writers come one after the other, whatever they ask
    for, whatever becomes of their calls and whatever others add besides, the events of the
    thread follow the table of transitions from "open" on, a message keeps the state, and
    "resolved" is its last event. *)
Theorem thread_lawful `{GiteaServer} number writers w :
  documented ->
  Forall (fun ka => actor_ok (wa_actor (snd ka)) /\ fair (without_events number) (wa_turns (snd ka))) writers ->
  lawful_from "open" (states_at (w_server w) number) ->
  let states := states_at (w_server (write_events number writers w)) number in
  lawful_from "open" states /\ (In "resolved" states -> last states = Some "resolved").
Proof.
  intros Hdoc Hl Hw states. pose proof (events_lawful Hdoc number writers w Hl Hw) as Hlaw.
  split; [done | exact (lawful_resolved _ _ Hlaw)].
Qed.

(** ** Closing *)
Definition grows `{GiteaServer} (s s' : server) : Prop := forall n, timeline s n `prefix_of` timeline s' n.
#[export] Instance grows_preorder `{GiteaServer} : PreOrder grows.
Proof. split; [by intros s n | intros a b c H1 H2 n]. etrans; [apply H1 | apply H2]. Qed.

Definition is_close (c : gitea_call) : bool := match c with CloseIssue _ => true | _ => false end.

Section Closing.
Context `{GiteaServer} (Hdoc : documented).

(** PATCH requests the client has sent, answered or not *)
Definition patches (w : world) : nat := List.length (List.filter is_close (w_attempts w)).
Definition receipt_at (directory name : string) (w : world) : option receipt :=
  dict_get name (receipts_in directory w).
Definition receipts_kept (w w' : world) : Prop :=
  forall d n, receipt_at d n w <> None -> receipt_at d n w' <> None.

(** Nothing was sent, and no receipt was lost. *)
Definition calm (w w' : world) : Prop :=
  grows (w_server w) (w_server w') /\ patches w' = patches w /\ receipts_kept w w'.
#[local] Instance calm_preorder : PreOrder calm.
Proof.
  split; [intros a; split; [reflexivity | split; [done | by intros d n]] |]. intros a b c (H1 & H2 & H3) (H4 & H5 & H6).
  split; [etrans; [exact H1 | exact H4] |]. split; [by rewrite H5 |]. intros d n Hn. by apply H6, H3.
Qed.

Lemma filter_close l : List.filter is_close l = List.filter is_close (List.filter is_write l).
Proof. induction l as [|c l IH]; [done |]. destruct c; simpl; by rewrite ?IH. Qed.

Lemma quiet_calm w w' : quiet grows w w' -> calm w w'.
Proof.
  intros (Hg & Hj & Ha). split; [done |]. split.
  - unfold patches. by rewrite (filter_close (w_attempts w')), Ha, <- filter_close.
  - intros d n. unfold receipt_at, receipts_in. by rewrite Hj.
Qed.
Lemma turn_calm w w' : env_turn grows w w' -> calm w w'.
Proof. intros Hw. by apply quiet_calm, quiet_turn. Qed.

Lemma save_kept d n r w : receipts_kept w (snd (perform (SaveReceipt d n r) w)).
Proof.
  intros d' n'. unfold receipt_at, receipts_in. simpl. intros Hn.
  destruct (decide (d' = d)) as [-> |]; [| by rewrite dict_get_set_ne].
  rewrite dict_get_set_eq. simpl. destruct (decide (n' = n)) as [-> |]; [by rewrite dict_get_set_eq |].
  by rewrite dict_get_set_ne.
Qed.
Lemma save_there d n r w : receipt_at d n (snd (perform (SaveReceipt d n r) w)) = Some r.
Proof. unfold receipt_at, receipts_in. simpl. rewrite dict_get_set_eq. simpl. by rewrite dict_get_set_eq. Qed.
Lemma save_calm d n r w : calm w (snd (perform (SaveReceipt d n r) (attempt (SaveReceipt d n r) w))).
Proof. split; [done |]. split; [done | apply save_kept]. Qed.

(** A call that sends nothing *)
Lemma wp_local {A X} (q : query X) (k : X + failure -> prog A) post crash w :
  (forall w1, calm w1 (snd (perform q (attempt q w1))) /\ calm w1 (attempt q w1)) ->
  crash w ->
  (forall w1, env_turn grows w w1 -> wp grows (k (inl (fst (perform q (attempt q w1))))) post crash (snd (perform q (attempt q w1)))) ->
  (forall w1 e, calm w w1 -> wp grows (k (inr e)) post crash w1) ->
  wp grows (Ask q k) post crash w.
Proof.
  intros Hq Hcrash Hok Herr. split; [done |]. intros w1 Hw1. destruct (Hq w1) as [H1 H2].
  apply turn_calm in Hw1 as Hc. split; [by apply Hok |].
  split; intros e; [intros _|]; apply Herr; etrans; [exact Hc | exact H1 | exact Hc | exact H2].
Qed.

Lemma local_calm {X} (q : query X) w : match q with Gitea _ => False | _ => True end ->
  calm w (snd (perform q (attempt q w))) /\ calm w (attempt q w).
Proof. destruct q; intros Hq; try done. split; [apply save_calm | done]. Qed.

Lemma settle_others_wp t d names ok fail : forall w,
  (forall w1, calm w w1 -> ok w1) -> (forall w1, calm w w1 -> fail w1) ->
  wp grows (settle_others t d names) (outcome ok fail) fail w.
Proof using Type.
  induction names as [|name names IH]; intros w Hok Hfail; cbn [settle_others].
  { apply Hok. reflexivity. }
  assert (Hnow : fail w) by (apply Hfail; reflexivity).
  apply wp_bind, wp_local; [by intros; apply local_calm | done | | intros w1 e Hw1; by apply Hfail].
  intros w1 Hw1%turn_calm. cbn [wp perform attempt fst snd].
  assert (Hgo : forall w2, calm w1 w2 -> wp grows (settle_others t d names) (outcome ok fail) fail w2).
  { intros w2 Hw2. apply IH; intros w3 Hw3; [apply Hok | apply Hfail]; (etrans; [exact Hw1 | etrans; [exact Hw2 | exact Hw3]]). }
  destruct (dict_get name _) as [o|]; [| apply Hgo; reflexivity].
  case_bool_decide; [| apply Hgo; reflexivity]. apply wp_bind, wp_lift.
  destruct (_confirmed t o (rc_event o)) as [[|]|]; [| by apply Hfail | by apply Hfail].
  apply wp_bind, wp_local; [by intros; apply local_calm | by apply Hfail | |].
  - intros w2 Hw2%turn_calm. apply Hgo. etrans; [exact Hw2 | apply save_calm].
  - intros w2 e Hw2. apply Hfail. etrans; [exact Hw1 | exact Hw2].
Qed.

(** An exhaustive read showed the issue closed, and the resolution of the request the last state
    of its thread, with a text. *)
Definition closed_at (s : server) (number event_id : Z) : Prop :=
  exists t e, snapshot number t s /\ _report t event_id = inl e /\ is_str "closed" (is_state (th_issue t)) = true.

Lemma confirmed_closed number t s r event_id : snapshot number t s -> _confirmed t r event_id = inl true ->
  closed_at s number event_id.
Proof.
  unfold _confirmed. intros Hs. destruct (_report t event_id) as [e|] eqn:E; simpl; [| discriminate].
  intros [= Hc]. bprop. by exists t, e.
Qed.

Lemma close_attempt number w :
  let q := Gitea (CloseIssue number) in
  forall w1, w1 = attempt q w \/ w1 = snd (perform q (attempt q w)) ->
  grows (w_server w) (w_server w1) /\ patches w1 = S (patches w) /\ receipts_kept w w1.
Proof using Hdoc.
  intros q w1 Hw1.
  assert (Hp : patches (attempt q w) = S (patches w)).
  { unfold patches, q. simpl. rewrite List.filter_app, length_app. simpl. lia. }
  destruct Hw1 as [-> | ->]; [split; [reflexivity | split; [done | by intros d n]] |].
  unfold q. rewrite perform_gitea. cbn [snd w_server].
  destruct (serve_close Hdoc number (w_server w)) as (v & s' & rows & Hs & _ & Htl). simpl. rewrite Hs. simpl.
  split; [| split; [done | by intros d n]]. intros n. rewrite Htl. destruct (n =? number) eqn:E; [| done].
  apply Z.eqb_eq in E as ->. by eexists.
Qed.

Lemma dispatch_close_wp d name number event_id r ok fail w :
  (forall w1, calm w w1 -> fail w1) ->
  (forall w1 w2, calm w w1 ->
     grows (w_server w1) (w_server w2) -> patches w2 = S (patches w1) -> receipts_kept w1 w2 ->
     (forall w3, calm w2 w3 -> fail w3) /\
     (forall w3 w4, calm w2 w3 -> calm w3 w4 -> closed_at (w_server w3) number event_id -> ok w4)) ->
  wp grows (dispatch_close d name number event_id r) (outcome ok fail) fail w.
Proof using Hdoc.
  intros Hbefore Hafter. unfold dispatch_close.
  assert (Hgo : forall w2 b, (forall w3, calm w2 w3 -> fail w3) ->
      (forall w3 w4, calm w2 w3 -> calm w3 w4 -> closed_at (w_server w3) number event_id -> ok w4) ->
      wp grows (confirmed <~ ptry (observed <~ open_thread number false ;; plift (_confirmed observed r event_id))
                 (fun e => if is_exception e then pret false else praise e) ;;
               if negb confirmed
               then praise (FOutcomeUnknown "Close outcome is not confirmed; inspect the thread, do not resend PATCH")
               else _ <~ ask (SaveReceipt d name (with_phase Confirmed r)) ;;
                    _ <~ ptry (ask (Audit "success")) (fun e => if is_exception e then pret tt else praise e) ;;
                    pret (mkClosed false b)) (outcome ok fail) fail w2).
  { intros w2 b Hfail Hok. apply wp_bind, wp_try, wp_bind, (open_thread_wp Hdoc grows (fun s s' n Hg => Hg n)).
    - intros w3 Hw3. apply Hfail. by apply quiet_calm.
    - intros w3 e Hw3. apply quiet_calm in Hw3. destruct (is_exception e); by apply Hfail.
    - intros w3 w4 t Hw3%quiet_calm Hw4%quiet_calm Hsnap.
      assert (Hq4 : calm w2 w4) by (etrans; [exact Hw3 | exact Hw4]).
      apply wp_lift. destruct (_confirmed t r event_id) as [[|]|e] eqn:Ec; cbn [negb].
      2: by apply Hfail. 2: destruct (is_exception e); by apply Hfail.
      apply (confirmed_closed number t _ r event_id Hsnap) in Ec.
      assert (Hlater : forall w5, calm w4 w5 -> ok w5 /\ fail w5).
      { intros w5 Hw5. split; [apply (Hok w3 w5); [exact Hw3 | etrans; [exact Hw4 | exact Hw5] | exact Ec]
                             | apply Hfail; etrans; [exact Hq4 | exact Hw5]]. }
      apply wp_bind, wp_local; [by intros; apply local_calm | by apply Hfail | | by intros w5 e Hw5; apply Hlater].
      intros w5 Hw5%turn_calm. 
      assert (Hw6 := save_calm d name (with_phase Confirmed r) w5).
      cbn [wp]. set (w6 := snd (perform _ _)) in *. assert (Hq6 : calm w4 w6) by (etrans; [exact Hw5 | exact Hw6]).
      apply wp_bind, wp_try, wp_local; [by intros; apply local_calm | by apply Hlater | |].
      + intros w7 Hw7%turn_calm. apply Hlater. etrans; [exact Hq6 | exact Hw7].
      + intros w7 e Hw7. assert (calm w4 w7) by (etrans; [exact Hq6 | exact Hw7]).
        simpl. destruct (is_exception e); by apply Hlater. }
  apply wp_bind, wp_try, wp_bind. set (q := Gitea (CloseIssue number)).
  split; [by apply Hbefore |]. intros w1 Hw1%turn_calm.
  assert (Hsent : forall w2, w2 = attempt q w1 \/ w2 = snd (perform q (attempt q w1)) ->
      (forall w3, calm w2 w3 -> fail w3) /\
      (forall w3 w4, calm w2 w3 -> calm w3 w4 -> closed_at (w_server w3) number event_id -> ok w4)).
  { intros w2 Hw2. destruct (close_attempt number w1 w2 Hw2) as (Hg & Hp & Hk). by apply (Hafter w1 w2). }
  split; [| split].
  - destruct (Hsent _ (or_intror eq_refl)) as [Hf Ho]. exact (Hgo _ false Hf Ho).
  - intros e He. destruct (Hsent _ (or_intror eq_refl)) as [Hf Ho]. cbn [wp praise].
    destruct e; try discriminate; cbn [is_exception]; try exact (Hgo _ true Hf Ho). apply Hf. reflexivity.
  - intros e. destruct (Hsent _ (or_introl eq_refl)) as [Hf Ho]. cbn [wp praise].
    destruct e; cbn [is_exception]; try exact (Hgo _ true Hf Ho); [| apply Hf; reflexivity].
    apply wp_bind, wp_local; [by intros; apply local_calm | apply Hf; reflexivity | | intros w2 e Hw2; by apply Hf].
    intros w2 Hw2%turn_calm. apply Hf. etrans; [exact Hw2 | apply save_calm].
Qed.

Section Run.
Variables (owner repo : string) (number : Z) (r : close_request).
#[local] Abbreviation d := (receipts_of owner repo number).
#[local] Abbreviation name := (receipt_name (cr_request_key r)).
#[local] Abbreviation event_id := (cr_resolution_event_id r).

(** The thread as it was reviewed: its digest is the expected one, its last state the resolution. *)
Definition reviewed (w w' : world) : Prop :=
  exists t s e, grows (w_server w) s /\ grows s (w_server w') /\ snapshot number t s /\
    _report t event_id = inl e /\ th_state_sha256 t = cr_expected_state_sha256 r.

Definition sent_once (w w' : world) : Prop :=
  grows (w_server w) (w_server w') /\ receipts_kept w w' /\
  (patches w' = patches w \/
   patches w' = S (patches w) /\ receipt_at d name w = None /\ receipt_at d name w' <> None /\ reviewed w w').
Definition seen_closed (w w' : world) : Prop :=
  exists s, grows (w_server w) s /\ grows s (w_server w') /\ closed_at s number event_id.

Lemma calm_sent w w' : calm w w' -> sent_once w w'.
Proof. intros (Hg & Hp & Hk). split; [done |]. split; [done |]. by left. Qed.
Lemma sent_calm w w1 w2 : sent_once w w1 -> calm w1 w2 -> sent_once w w2.
Proof.
  intros (Hg & Hk & Hs) (Hg' & Hp' & Hk'). split; [etrans; [exact Hg | exact Hg'] |].
  split; [intros a b Hab; by apply Hk', Hk |]. rewrite Hp'.
  destruct Hs as [Hs | (Hs & Hn & Hy & t & s & e & H1 & H2 & H3)]; [by left | right].
  split; [done |]. split; [done |]. split; [by apply Hk' |]. exists t, s, e. split; [done |].
  split; [etrans; [exact H2 | exact Hg'] | done].
Qed.

Lemma open_reviewed_wp w :
  wp grows (open_reviewed number r)
    (fun res w' => match res with
       | inl (t, report) => exists w1, calm w w1 /\ calm w1 w' /\ snapshot number t (w_server w1) /\
           _report t event_id = inl report /\ th_state_sha256 t = cr_expected_state_sha256 r
       | inr _ => calm w w' end) (calm w) w.
Proof using Hdoc.
  apply wp_bind, (open_thread_wp Hdoc grows (fun s s' n Hg => Hg n)).
  - intros w1 Hw1%quiet_calm. done.
  - intros w1 e Hw1%quiet_calm. done.
  - intros w1 w2 t Hw1%quiet_calm Hw2%quiet_calm Hsnap.
    assert (Hs2 : calm w w2) by (etrans; [exact Hw1 | exact Hw2]).
    apply wp_bind, wp_lift. destruct (_report t event_id) as [e|] eqn:Er; [| done].
    destruct (String.eqb _ _) eqn:E; cbn [negb]; [| done]. apply String.eqb_eq in E. by exists w1.
Qed.

Section From.
Variables (w0 : world).
#[local] Abbreviation answered := (outcome (fun w' => sent_once w0 w' /\ seen_closed w0 w') (sent_once w0)).

Lemma calm_answer w1 w2 w3 : calm w0 w1 -> calm w1 w2 -> closed_at (w_server w1) number event_id -> calm w2 w3 ->
  sent_once w0 w3 /\ seen_closed w0 w3.
Proof.
  intros H1 H2 Hc H3. assert (H13 : calm w1 w3) by (etrans; [exact H2 | exact H3]).
  split; [apply calm_sent; etrans; [exact H1 | exact H13] |].
  exists (w_server w1). split; [apply H1 | split; [apply H13 | done]].
Qed.

Lemma replay_close_wp p w : calm w0 w ->
  wp grows (replay_close d name number event_id p) answered (sent_once w0) w.
Proof using Hdoc.
  intros Hw. assert (Hfail : forall w1, calm w w1 -> sent_once w0 w1).
  { intros w1 Hw1. apply calm_sent. etrans; [exact Hw | exact Hw1]. }
  unfold replay_close. apply wp_bind, (open_thread_wp Hdoc grows (fun s s' n Hg => Hg n)).
  - intros w1 Hw1%quiet_calm. by apply Hfail.
  - intros w1 e Hw1%quiet_calm. by apply Hfail.
  - intros w1 w2 t Hw1%quiet_calm Hw2%quiet_calm Hsnap.
    assert (Hq2 : calm w w2) by (etrans; [exact Hw1 | exact Hw2]).
    apply wp_bind, wp_lift. destruct (_report t event_id); [| by apply Hfail].
    apply wp_bind, wp_lift. destruct (_confirmed t p event_id) as [[|]|] eqn:Ec; cbn [negb]; [| by apply Hfail | by apply Hfail].
    apply (confirmed_closed number t _ p event_id Hsnap) in Ec.
    assert (Hw1' : calm w0 w1) by (etrans; [exact Hw | exact Hw1]).
    assert (Hok : forall w3, calm w2 w3 -> sent_once w0 w3 /\ seen_closed w0 w3)
      by (intros w3; exact (calm_answer w1 w2 w3 Hw1' Hw2 Ec)).
    apply wp_bind. case_bool_decide; [by apply Hok |].
    apply wp_local; [by intros; apply local_calm | by apply Hfail | |].
    + intros w3 Hw3%turn_calm. apply Hok. etrans; [exact Hw3 | apply save_calm].
    + intros w3 e3 Hw3. apply Hfail. etrans; [exact Hq2 | exact Hw3].
Qed.

Lemma fresh_close_wp payload w : calm w0 w -> receipt_at d name w = None ->
  wp grows (fresh_close d name payload number r) answered (sent_once w0) w.
Proof using Hdoc.
  intros Hw Hnone. assert (Hfail : forall w1, calm w w1 -> sent_once w0 w1).
  { intros w1 Hw1. apply calm_sent. etrans; [exact Hw | exact Hw1]. }
  unfold fresh_close. apply wp_bind.
  eapply wp_mono; [| exact Hfail | apply open_reviewed_wp].
  intros [[t report]|e] w2; [| by apply Hfail].
  intros (w1 & Hw1 & Hw2 & Hsnap & Hrep & Hsha).
  assert (Hq2 : calm w w2) by (etrans; [exact Hw1 | exact Hw2]).
  apply wp_bind, wp_local; [by intros; apply local_calm | by apply Hfail | | intros w3 e Hw3; apply Hfail; etrans; [exact Hq2 | exact Hw3]].
  intros w3 Hw3%turn_calm. cbn [wp perform attempt fst snd].
  assert (Hq3 : calm w w3) by (etrans; [exact Hq2 | exact Hw3]).
  destruct (Nat.ltb 100 _); [by apply Hfail |].
  apply wp_bind. eapply wp_mono; [| | exact (settle_others_wp t d _ (calm w3) (calm w3) w3 (fun _ H => H) (fun _ H => H))].
  2: { intros w4 Hw4. apply Hfail. etrans; [exact Hq3 | exact Hw4]. }
  intros [[]|e4] w4 Hw4; [| apply Hfail; etrans; [exact Hq3 | exact Hw4]]. simpl in Hw4.
  assert (Hq4 : calm w w4) by (etrans; [exact Hq3 | exact Hw4]).
  destruct (is_str "closed" (is_state (th_issue t))) eqn:Eclosed.
  { assert (Hclosed : closed_at (w_server w1) number event_id) by (by exists t, report).
    assert (H01 : calm w0 w1) by (etrans; [exact Hw | exact Hw1]).
    assert (H14 : calm w1 w4) by (etrans; [exact Hw2 | etrans; [exact Hw3 | exact Hw4]]).
    apply wp_bind, wp_local; [by intros; apply local_calm | by apply Hfail | |].
    - intros w5 Hw5%turn_calm. apply (calm_answer w1 w4 _ H01 H14 Hclosed). etrans; [exact Hw5 | apply save_calm].
    - intros w5 e5 Hw5. apply Hfail. etrans; [exact Hq4 | exact Hw5]. }
  destruct (is_str "open" _); cbn [negb]; [| by apply Hfail].
  apply wp_bind, wp_local; [by intros; apply local_calm | by apply Hfail | | intros w5 e5 Hw5; apply Hfail; etrans; [exact Hq4 | exact Hw5]].
  intros w5 Hw5%turn_calm. cbn [wp perform attempt fst snd].
  assert (Hq5 : calm w w5) by (etrans; [exact Hq4 | exact Hw5]).
  apply wp_bind. eapply wp_mono; [| | apply open_reviewed_wp].
  2: { intros w6 Hw6. apply Hfail. etrans; [exact Hq5 | exact Hw6]. }
  intros [[t' report']|e6] w6; [| intros Hw6; apply Hfail; etrans; [exact Hq5 | exact Hw6]].
  intros (w6' & Hw6' & Hw6 & Hsnap' & Hrep' & Hsha').
  assert (Hq6 : calm w w6) by (etrans; [exact Hq5 | etrans; [exact Hw6' | exact Hw6]]).
  apply wp_bind, wp_local; [by intros; apply local_calm | by apply Hfail | | intros w7 e7 Hw7; apply Hfail; etrans; [exact Hq6 | exact Hw7]].
  intros w7 Hw7%turn_calm. cbn [wp fst].
  match goal with |- context [SaveReceipt d name ?rc] => set (rc0 := rc) end.
  assert (Hw8 := save_calm d name rc0 w7). assert (Hhere := save_there d name rc0 (attempt (SaveReceipt d name rc0) w7)).
  set (w8 := snd (perform _ _)) in *.
  assert (Hq8 : calm w w8) by (etrans; [exact Hq6 | etrans; [exact Hw7 | exact Hw8]]).
  assert (Hsent : forall w9 w10, calm w8 w9 -> grows (w_server w9) (w_server w10) -> patches w10 = S (patches w9) ->
      receipts_kept w9 w10 -> sent_once w0 w10).
  { intros w9 w10 Hw9 Hg10 Hp10 Hk10. assert (H09 : calm w0 w9) by (etrans; [exact Hw | etrans; [exact Hq8 | exact Hw9]]).
    destruct H09 as (Hg & Hp & Hk). split; [etrans; [exact Hg | exact Hg10] |].
    split; [intros a b Hab; by apply Hk10, Hk |]. right. split; [by rewrite Hp10, Hp |].
    split. { destruct (receipt_at d name w0) eqn:E0; [| done]. exfalso.
             destruct Hw as (_ & _ & Hk0). apply (Hk0 d name); [by rewrite E0 | done]. }
    split. { apply Hk10. destruct Hw9 as (_ & _ & Hk9). apply Hk9. by rewrite Hhere. }
    exists t', (w_server w6'), report'. split; [| split; [| done]].
    - assert (H06 : calm w0 w6') by (etrans; [exact Hw | etrans; [exact Hq5 | exact Hw6']]). apply H06.
    - assert (H69 : calm w6' w9) by (etrans; [exact Hw6 | etrans; [exact Hw7 | etrans; [exact Hw8 | exact Hw9]]]).
      etrans; [apply H69 | exact Hg10]. }
  apply dispatch_close_wp.
  - intros w9 Hw9. apply Hfail. etrans; [exact Hq8 | exact Hw9].
  - intros w9 w10 Hw9 Hg10 Hp10 Hk10. assert (Hs10 := Hsent w9 w10 Hw9 Hg10 Hp10 Hk10). split.
    + intros w11 Hw11. exact (sent_calm _ _ _ Hs10 Hw11).
    + intros w11 w12 Hw11 Hw12 Hclosed. assert (Hs11 := sent_calm _ _ _ Hs10 Hw11).
      split; [exact (sent_calm _ _ _ Hs11 Hw12) |]. exists (w_server w11).
      split; [apply Hs11 | split; [apply Hw12 | done]].
Qed.
End From.

Lemma close_thread_wp w :
  wp grows (close_thread owner repo number r)
    (outcome (fun w' => sent_once w w' /\ seen_closed w w') (sent_once w)) (sent_once w) w.
Proof using Hdoc.
  assert (Hfail := fun w1 => calm_sent w w1). assert (Hnow : calm w w) by reflexivity.
  unfold close_thread. apply wp_bind, wp_lift. destruct (check_close owner repo number r) as [reason|]; [| by apply Hfail].
  apply wp_bind, wp_local; [by intros; apply local_calm | by apply Hfail | | intros w1 e1 Hw1; by apply Hfail].
  intros w1 Hw1%turn_calm. cbn [wp perform attempt fst snd].
  apply wp_bind, wp_local; [by intros; apply local_calm | by apply Hfail | |].
  2: { intros w2 e2 Hw2. apply Hfail. etrans; [exact Hw1 | exact Hw2]. }
  intros w2 Hw2%turn_calm. cbn [wp perform attempt fst snd].
  assert (Hq2 : calm w w2) by (etrans; [exact Hw1 | exact Hw2]).
  destruct (dict_get name (receipts_in d w2)) as [p|] eqn:Eprior.
  - destruct (negb _); [by apply Hfail | by apply replay_close_wp].
  - by apply fresh_close_wp.
Qed.
End Run.
End Closing.

(** Attempts to close one issue, one after the other as its lock makes them: each with the worlds
    before and after it and its answer, if the process lived to give one *)
Record close_run `{GiteaServer} : Type := mkRun {
  cn_request : close_request; cn_before : world; cn_answer : option (closed_thread + failure); cn_after : world
}.
Arguments mkRun {_}.
Fixpoint close_runs `{GiteaServer} (owner repo : string) (number : Z) (l : list (close_request * list turn)) (w : world)
    : list close_run :=
  match l with
  | [] => []
  | (r, ts) :: l =>
      let (a, w') := exec (close_thread owner repo number r) ts w in
      mkRun r w a w' :: close_runs owner repo number l w'
  end.
Definition patches_sent `{GiteaServer} (c : close_run) : nat := patches (cn_after c) - patches (cn_before c).
Definition runs_of `{GiteaServer} (key : string) (l : list close_run) : list close_run :=
  List.filter (fun c => String.eqb (cr_request_key (cn_request c)) key) l.

Section CloseRuns.
Context `{GiteaServer} (Hdoc : documented) (owner repo : string) (number : Z).

Lemma close_exec r ts w : fair grows ts ->
  let (a, w') := exec (close_thread owner repo number r) ts w in
  sent_once owner repo number r w w' /\ (forall c, a = Some (inl c) -> seen_closed number r w w').
Proof using Hdoc.
  intros Hts. pose proof (wp_sound grows _ _ _ _ _ (close_thread_wp Hdoc owner repo number r w) Hts) as Hwp.
  destruct (exec _ _ _) as [[[c|e]|] w']; simpl in Hwp.
  - destruct Hwp as [H1 H2]. split; [done |]. by intros.
  - by split.
  - by split.
Qed.

Lemma close_runs_sent key l : forall w, Forall (fun rt => fair grows (snd rt)) l ->
  let sent := list_sum (map patches_sent (runs_of key (close_runs owner repo number l w))) in
  (sent <= 1)%nat /\ (receipt_at (receipts_of owner repo number) (receipt_name key) w <> None -> sent = 0%nat).
Proof using Hdoc.
  induction l as [|[r ts] l IH]; intros w Hl; cbn [close_runs].
  { split; [simpl; lia | intros _; reflexivity]. }
  apply Forall_cons in Hl as [Hts Hl]. pose proof (close_exec r ts w Hts) as Hrun.
  destruct (exec _ _ _) as [a w']. destruct Hrun as [(_ & Hkept & Hsent) _].
  unfold runs_of. cbn [List.filter cn_request].
  destruct (IH w' Hl) as [Hone Hnone].
  fold (runs_of key (close_runs owner repo number l w')).
  destruct (String.eqb (cr_request_key r) key) eqn:Ekey; cbn [map].
  - apply String.eqb_eq in Ekey as <-.
    change (list_sum (?a :: ?b)) with (a + list_sum b)%nat. unfold patches_sent at 1 3. cbn [cn_before cn_after].
    destruct Hsent as [-> | (-> & Habsent & Hpresent & _)].
    + rewrite Nat.sub_diag. cbn [Nat.add]. split; [exact Hone |]. intros Hw. by apply Hnone, Hkept.
    + split; [rewrite (Hnone Hpresent); lia | done].
  - split; [done |]. intros Hw. by apply Hnone, Hkept.
Qed.

Lemma close_runs_each l : forall w, Forall (fun rt => fair grows (snd rt)) l ->
  Forall (fun c =>
    (patches_sent c <> 0%nat -> reviewed number (cn_request c) (cn_before c) (cn_after c)) /\
    (forall x, cn_answer c = Some (inl x) -> seen_closed number (cn_request c) (cn_before c) (cn_after c)))
    (close_runs owner repo number l w).
Proof using Hdoc.
  induction l as [|[r ts] l IH]; intros w Hl; cbn [close_runs]; [constructor |].
  apply Forall_cons in Hl as [Hts Hl]. pose proof (close_exec r ts w Hts) as Hrun.
  destruct (exec _ _ _) as [a w']. destruct Hrun as [(_ & _ & Hsent) Hok].
  constructor; [| by apply IH]. split; simpl; [| exact Hok].
  unfold patches_sent. simpl. destruct Hsent as [-> | (-> & _ & _ & Hr)]; [lia | done].
Qed.
End CloseRuns.

(** C13: an issue is closed once and on purpose: over any attempts to close it, whatever becomes of
    their calls and wherever the process dies, each key sends at most one PATCH; one is sent only
    after a read of the whole thread that showed the reviewed digest and, as the last state of
    the thread, the resolution named in the request with a text; and an attempt answers only
    after such a read showed the issue closed. *)
Theorem close_once `{GiteaServer} owner repo number attempts w :
  documented -> Forall (fun rt => fair grows (snd rt)) attempts ->
  let trace := close_runs owner repo number attempts w in
  (forall key, (list_sum (map patches_sent (runs_of key trace)) <= 1)%nat) /\
  forall c, In c trace ->
    (patches_sent c <> 0%nat -> reviewed number (cn_request c) (cn_before c) (cn_after c)) /\
    (forall x, cn_answer c = Some (inl x) -> seen_closed number (cn_request c) (cn_before c) (cn_after c)).
Proof.
  intros Hdoc Hl trace. split.
  - intros key. by apply close_runs_sent.
  - by apply List.Forall_forall, close_runs_each.
Qed.

(** a marker is read exactly as it was written: the first line that [_header] makes of a
    proper marker is read back as that marker, as its own kind only, whatever text follows, and
    the text comes back too; and nothing else is read as a marker, so a reply cannot pass for
    an event by what it says after its first line. *)
Theorem markers_read_back kind :
  (forall m text, proper kind m ->
     let body := _header kind m +s+ nl +s+ text in
     (forall kind', _parse (VStr body) kind' = if bool_decide (kind' = kind) then Some m else None) /\
     after_line body = text) /\
  (forall v m, _parse v kind = Some m -> proper kind m /\ exists b, v = VStr b /\ first_line b = _header kind m).
Proof.
  split; [| exact (parse_sound kind)]. intros m text Hp body.
  assert (Hm := proper_markable _ _ Hp). destruct (header_line kind m text Hm) as (Hline & Hafter & _).
  split; [| done]. intros kind'. case_bool_decide as Hk; [subst kind'; by apply parse_header |].
  destruct (_parse (VStr body) kind') as [m'|] eqn:E; [| done].
  apply parse_sound in E as (Hp' & b & [= <-] & Hb). exfalso. apply Hk.
  assert (Hm' := proper_markable _ _ Hp'). fold body in Hline. rewrite Hline in Hb.
  pose proof (header_kind kind' kind m Hm) as H1. pose proof (header_kind kind' kind' m' Hm') as H2.
  rewrite <- Hb, H1 in H2. rewrite (bool_decide_eq_true_2 (kind' = kind')) in H2 by done.
  by apply bool_decide_eq_true in H2.
Qed.

(** a thread is read whole: what an exhaustive read answers is the thread as it stood at one
    moment between its start and its end, with every comment of its timeline in order and the
    state they add up to, however the pages fell and whatever was added meanwhile. *)
Theorem thread_read_whole `{GiteaServer} number ts w t w' :
  documented -> fair grows ts -> exec (open_thread number false) ts w = (Some (inl t), w') ->
  exists s, grows (w_server w) s /\ grows s (w_server w') /\ snapshot number t s.
Proof.
  intros Hdoc Hts Hrun.
  assert (Hwp : wp grows (open_thread number false)
    (fun r w' => forall t, r = inl t -> exists s, grows (w_server w) s /\ grows s (w_server w') /\ snapshot number t s)
    (fun _ => True) w).
  { apply (open_thread_wp Hdoc grows (fun s s' n Hg => Hg n)); [done | by intros |].
    intros w1 w2 t1 [H1 _] [H2 _] Hs t2 [= <-]. by exists (w_server w1). }
  pose proof (wp_sound grows _ _ _ _ _ Hwp Hts) as H1. rewrite Hrun in H1. by apply H1.
Qed.

(** ** Undisturbed calls *)
Definition undisturbed `{GiteaServer} : turn := mkTurn (fun s => s) Delivered.

(** A timeline as Gitea writes it: rows with a type and increasing identifiers, comments with a
    body and an author *)
Inductive increasing (after : Z) : list value -> Prop :=
| inc_nil : increasing after []
| inc_cons row rows identifier :
    field "id" row = VInt identifier -> after < identifier ->
    is_dict row = true -> nonempty_str (field "type" row) = true ->
    (is_str "comment" (field "type" row) = true -> good_comment row = true) ->
    increasing identifier rows -> increasing after (row :: rows).

Section Liveness.
Context `{GiteaServer} (Hdoc : documented).

(** [p] ends, without an exception, when it is left alone. *)
Definition ends_well {A} (p : prog A) (w : world) (good : A -> world -> Prop) : Prop :=
  exists n a w', exec p (replicate n undisturbed) w = (Some (inl a), w') /\ good a w'.

Lemma exec_more {A} (p : prog A) ts : forall ts' w r w',
  exec p ts w = (Some r, w') -> exec p (ts ++ ts') w = (Some r, w').
Proof.
  revert ts. induction p as [r0|X q k IH]; intros ts ts' w r w'; [by destruct ts, ts' |].
  destruct ts as [|t ts]; [done |]. simpl. destruct (t_fate t); [destruct (perform q _) | |]; apply IH.
Qed.

Lemma exec_bind {A B} (p : prog A) (f : A -> prog B) ts1 : forall ts2 w a w1,
  exec p ts1 w = (Some (inl a), w1) -> exists ts1', exec (pbind p f) (ts1' ++ ts2) w = exec (f a) ts2 w1 /\ ts1' `prefix_of` ts1.
Proof.
  revert ts1. induction p as [[a0|e]|X q k IH]; intros ts1 ts2 w a w1.
  - destruct ts1; (intros [= <- <-]; exists []; split; [done | by apply prefix_nil]).
  - by destruct ts1.
  - destruct ts1 as [|t ts1]; [done |]. simpl.
    destruct (t_fate t) eqn:Et.
    + destruct (perform q _) as [x w'] eqn:Ep. intros Hx. destruct (IH _ _ ts2 _ _ _ Hx) as (ts1' & Heq & Hpre).
      exists (t :: ts1'). simpl. rewrite Et, Ep. split; [done | by apply prefix_cons].
    + intros Hx. destruct (IH _ _ ts2 _ _ _ Hx) as (ts1' & Heq & Hpre).
      exists (t :: ts1'). simpl. rewrite Et. split; [done | by apply prefix_cons].
    + intros Hx. destruct (IH _ _ ts2 _ _ _ Hx) as (ts1' & Heq & Hpre).
      exists (t :: ts1'). simpl. rewrite Et. split; [done | by apply prefix_cons].
Qed.

Lemma ends_bind {A B} (p : prog A) (f : A -> prog B) w good :
  ends_well p w (fun a w1 => ends_well (f a) w1 good) -> ends_well (pbind p f) w good.
Proof.
  intros (n & a & w1 & Hp & m & b & w2 & Hf & Hg).
  destruct (exec_bind p f _ (replicate m undisturbed) _ _ _ Hp) as (ts & Heq & [k Hk]).
  assert (Hts : ts = replicate (List.length ts) undisturbed).
  { assert (Hall : Forall (fun t => t = undisturbed) (ts ++ k)) by (rewrite <- Hk; by apply Forall_replicate).
    apply Forall_app in Hall as [Hall _]. symmetry. apply replicate_as_Forall. split; [done |]. eapply Forall_impl; [exact Hall | done]. }
  exists (List.length ts + m)%nat, b, w2. split; [| done]. rewrite replicate_add, <- Hts, Heq. exact Hf.
Qed.
Lemma ends_ret {A} (a : A) w (good : A -> world -> Prop) : good a w -> ends_well (Done (inl a)) w good.
Proof. intros Hg. by exists 0%nat, a, w. Qed.
Lemma ends_gitea c w (good : value -> world -> Prop) :
  (let q := Gitea c in good (fst (perform q (attempt q w))) (snd (perform q (attempt q w)))) ->
  ends_well (gitea c) w good.
Proof.
  intros Hg. exists 1%nat, (fst (perform (Gitea c) (attempt (Gitea c) w))), (snd (perform (Gitea c) (attempt (Gitea c) w))).
  split; [| done]. destruct w as [s j a]. unfold gitea, ask, others, undisturbed. simpl. by destruct (serve c s).
Qed.
Lemma ends_mono {A} (p : prog A) w (good good' : A -> world -> Prop) :
  (forall a w', good a w' -> good' a w') -> ends_well p w good -> ends_well p w good'.
Proof. intros Hi (n & a & w' & Hp & Hg). exists n, a, w'. split; [done | by apply Hi]. Qed.

Lemma rows_good v rows rest : forall c,
  increasing (cu_last c) (rows ++ rest) -> 0 <= cu_last c -> Forall (fun x => x <= cu_last c) (cu_seen c) ->
  (v = true -> user_comments rows = []) ->
  page_problem c = None ->
  let c' := fold_left (timeline_row v) rows c in
  increasing (cu_last c') rest /\ 0 <= cu_last c' /\ Forall (fun x => x <= cu_last c') (cu_seen c') /\ page_problem c' = None.
Proof.
  induction rows as [|row rows IH]; intros c Hinc H0 Hseen Hv Hc; simpl; [done |].
  simpl in Hinc. inversion Hinc as [|row' rows' i Hid Hlt Hd Hty Hcm Hrest]; subst.
  assert (Hnew : bool_decide (i ∈ cu_seen c) = false).
  { apply bool_decide_eq_false. intros Hin. rewrite Forall_forall in Hseen. apply Hseen in Hin. lia. }
  assert (Hc' : timeline_row v c row =
    mkCursor (if is_str "comment" (field "type" row) then cu_comments c ++ [row] else cu_comments c)
      (i :: cu_seen c) i (cu_overlap c) (cu_invalid c) (cu_out_of_order c) (S (cu_fresh c))).
  { unfold timeline_row. rewrite Hid, Hty, Hnew. replace (i <? 1) with false by lia. simpl.
    replace (i <=? cu_last c) with false by lia. rewrite orb_false_r.
    destruct (is_str "comment" (field "type" row)) eqn:Ec; [| done].
    assert (v = false) as ->.
    { destruct v; [| done]. specialize (Hv eq_refl). unfold user_comments in Hv. simpl in Hv. by rewrite Ec in Hv. }
    rewrite Hcm by done. done. }
  rewrite Hc'. apply IH; simpl; [done | lia | | |].
  - constructor; [lia |]. eapply Forall_impl; [exact Hseen |]. simpl. lia.
  - intros Hvt. specialize (Hv Hvt). unfold user_comments in *. simpl in Hv. destruct (is_str _ _); [done | exact Hv].
  - unfold page_problem in *. simpl. destruct (cu_invalid c); [done |]. destruct (cu_overlap c); [done |].
    by destruct (cu_out_of_order c).
Qed.

Lemma increasing_dicts a rows rest : increasing a (rows ++ rest) -> forallb is_dict rows = true.
Proof.
  revert a. induction rows as [|row rows IH]; intros a Hinc; [done |]. simpl in *.
  inversion Hinc as [|? ? i ? ? Hd ? ? Hrest]; subst. rewrite Hd. by eapply IH.
Qed.
Lemma ends_read c w (good : value -> world -> Prop) : is_read c = true ->
  (forall w', w_server w' = w_server w -> good (fst (serve c (w_server w))) w') -> ends_well (gitea c) w good.
Proof using Hdoc.
  intros Hc Hg. apply ends_gitea. cbn zeta. rewrite perform_gitea. cbn [fst snd attempt w_server].
  apply Hg. cbn [w_server]. by apply serve_read.
Qed.

(** The end of a timeline can be told: its last page is not full, or the issue has no comments, or
    the empty page after it comes as a list.  Gitea may send that page as [null], which the code
    takes for an end only when the issue itself says that it has no comments. *)
Definition end_told (no_comments : bool) (s : server) (number p : Z) (rows : list value) : Prop :=
  Z.of_nat (List.length rows) mod 50 <> 0 \/ no_comments = true \/
  fst (serve (ListTimeline number (p + Z.of_nat (List.length rows) / 50)) s) = VList [].
Definition end_readable (s : server) (number : Z) : Prop :=
  end_told (no_comments (fst (serve (GetIssue number) s))) s number 1 (timeline s number).

Lemma pages_end number max_pages v : forall fuel p c w,
  1 <= p ->
  let rows := skipn (_PAGE_SIZE * Z.to_nat (p - 1)) (timeline (w_server w) number) in
  end_told v (w_server w) number p rows ->
  increasing (cu_last c) rows -> 0 <= cu_last c -> Forall (fun x => x <= cu_last c) (cu_seen c) ->
  (v = true -> user_comments rows = []) -> (List.length rows < _PAGE_SIZE * fuel)%nat ->
  ends_well (_timeline_comment_pages fuel max_pages p (fun page => gitea (ListTimeline number page)) false v c) w
    (fun r w' => sr_truncated r = false /\ w_server w' = w_server w).
Proof using Hdoc.
  induction fuel as [|fuel IH]; intros p c w Hp rows Htold Hinc H0 Hseen Hv Hlen; [lia |].
  cbn [_timeline_comment_pages]. apply ends_bind, ends_read; [simpl; lia |]. intros w1 Hw1.
  set (page := page_of p (timeline (w_server w) number)).
  assert (Hsplit : rows = page ++ skipn _PAGE_SIZE rows) by (symmetry; apply firstn_skipn).
  assert (Hread : let got := fst (serve (ListTimeline number p) (w_server w)) in
    (is_none got && negb v)%bool = false /\ (if is_none got then VList [] else got) = VList page).
  { destruct (serve_timeline Hdoc number p (w_server w) Hp) as (got & E & [-> | [-> Hpage]]); rewrite E; [done |]. cbn [fst is_none].
    fold page in Hpage. rewrite Hpage. assert (Hrows : rows = []).
    { unfold page, page_of in Hpage. fold rows in Hpage. by destruct rows. }
    destruct Htold as [Hm | [-> | Hl]]; [by rewrite Hrows in Hm | done |].
    rewrite Hrows, Z.add_0_r, E in Hl. discriminate Hl. }
  destruct Hread as [-> ->].
  assert (Hvalid : valid_rows (VList page) = Some page).
  { unfold valid_rows. rewrite Hsplit in Hinc. rewrite (increasing_dicts _ _ _ Hinc).
    replace (Nat.ltb _PAGE_SIZE (List.length page)) with false; [done |].
    symmetry. apply Nat.ltb_ge. unfold page, page_of. rewrite length_take. lia. }
  rewrite Hvalid. rewrite Hsplit in Hinc.
  assert (Hvp : v = true -> user_comments page = []).
  { intros Hvt. specialize (Hv Hvt). rewrite Hsplit, user_comments_app in Hv. by apply app_eq_nil in Hv as [? _]. }
  destruct (rows_good v page (skipn _PAGE_SIZE rows) (new_page c)) as (Hinc' & H0' & Hseen' & Hprob); [done.. |].
  set (c' := fold_left _ page (new_page c)) in *. cbv zeta. rewrite Hprob.
  destruct (Nat.ltb (List.length page) _PAGE_SIZE) eqn:Eshort; [by apply ends_ret |].
  apply Nat.ltb_ge in Eshort.
  assert (Hnext : skipn (_PAGE_SIZE * Z.to_nat (p + 1 - 1)) (timeline (w_server w1) number) = skipn _PAGE_SIZE rows).
  { rewrite Hw1. unfold rows. rewrite skipn_skipn. f_equal. unfold _PAGE_SIZE. lia. }
  eapply ends_mono; [| apply IH; rewrite ?Hnext; [lia | | done | done | done | |]].
  - intros r w' [Hr Hw']. split; [done | by rewrite Hw'].
  - assert (Hfull : List.length rows = (50 + List.length (skipn _PAGE_SIZE rows))%nat).
    { unfold page, page_of in Eshort. fold rows in Eshort. rewrite length_take in Eshort.
      rewrite length_skipn. unfold _PAGE_SIZE in *. lia. }
    rewrite Hw1. unfold end_told in *. rewrite Hfull in Htold.
    replace (Z.of_nat (50 + List.length (skipn _PAGE_SIZE rows))) with (Z.of_nat (List.length (skipn _PAGE_SIZE rows)) + 1 * 50) in Htold by lia.
    rewrite Z.mod_add, Z.div_add in Htold by lia.
    by replace (p + 1 + _) with (p + (Z.of_nat (List.length (skipn _PAGE_SIZE rows)) / 50 + 1)) by lia.
  - intros Hvt. specialize (Hv Hvt). rewrite Hsplit, user_comments_app in Hv. by apply app_eq_nil in Hv as [_ ?].
  - unfold page, page_of in Eshort. fold rows in Eshort. rewrite length_take in Eshort.
    rewrite length_skipn. lia.
Qed.

Lemma open_thread_ends number w : end_readable (w_server w) number -> 1 <= number ->
  is_dict (fst (serve (GetIssue number) (w_server w))) = true ->
  _issue (fst (serve (GetIssue number) (w_server w))) <> None ->
  increasing 0 (timeline (w_server w) number) ->
  Z.of_nat (List.length (timeline (w_server w) number)) < 5000 ->
  ends_well (open_thread number false) w (fun _ w' => w_server w' = w_server w).
Proof using Hdoc.
  intros Hlists Hn Hdict Hissue Hinc Hlen. unfold open_thread.
  replace (number <? 1) with false by lia. apply ends_bind. unfold get_issue. apply ends_bind, ends_read; [done |].
  intros w1 Hw1. rewrite Hdict. apply ends_ret.
  destruct (_issue _) as [item|] eqn:Eitem; [| done].
  apply ends_bind. eapply ends_mono; [| apply pages_end; [done | | | | | |]].
  - intros r w2 [Hr Hw2]. apply ends_bind. unfold get_trusted_login. apply ends_bind, ends_read; [done |].
    intros w3 Hw3. destruct (serve_user Hdoc (w_server w2)) as (u & -> & Hlogin). cbn [fst is_dict negb].
    rewrite Hlogin. destruct (String.eqb _ _) eqn:E.
    { exfalso. apply String.eqb_eq in E. exact (login_set Hdoc E). }
    apply ends_ret, ends_ret. by rewrite Hw3, Hw2.
  - by rewrite Hw1.
  - by rewrite Hw1.
  - done.
  - constructor.
  - intros Hnc. rewrite Hw1. destruct (serve_issue Hdoc number (w_server w)) as (x & Hx & Hc). rewrite Hx in Hnc. by apply Hc.
  - rewrite Hw1. change (Z.to_nat (1 - 1)) with 0%nat. rewrite Nat.mul_0_r, drop_0.
    unfold _WRITE_MAX_PAGES, _PAGE_SIZE. lia.
Qed.

Lemma replicate_fair env n : PreOrder env -> fair env (replicate n undisturbed).
Proof. intros Hpre. apply Forall_replicate. split; [done |]. intros s. reflexivity. Qed.

(** Left alone, a write that the state of the thread allows is made. *)
Lemma write_event_ends number text key state actor w : end_readable (w_server w) number -> 1 <= number ->
  is_dict (fst (serve (GetIssue number) (w_server w))) = true ->
  _issue (fst (serve (GetIssue number) (w_server w))) <> None ->
  increasing 0 (timeline (w_server w) number) ->
  Z.of_nat (List.length (timeline (w_server w) number)) < 5000 ->
  actor_ok actor ->
  strip text <> "" -> Z.of_nat (slen (strip text)) <= 6000 -> char_in "000" (strip text) = false ->
  matches_whole _KEY key = true -> mem state _STATES = true ->
  keyed_at (w_server w) number key = [] ->
  may_move (Some (coord_state_of (history_at (w_server w) number))) state = true ->
  ends_well (write_event number text key state actor) w
    (fun e w' => we_created e = true /\ we_reconciled e = false).
Proof using Hdoc.
  intros Hlists Hn Hdict Hissue Hinc Hlen Hactor Ht1 Ht2 Ht3 Hkey Hstate Hnone Hmove.
  unfold write_event, _text. replace (String.eqb (strip text) "") with false by (symmetry; by apply String.eqb_neq).
  replace (6000 <? Z.of_nat (slen (strip text))) with false by lia. rewrite Ht3. cbn [orb].
  apply ends_bind, ends_ret, ends_bind. unfold validate_key. rewrite Hkey. apply ends_ret. rewrite Hstate. cbn [negb].
  apply ends_bind.
  destruct (open_thread_ends number w Hlists Hn Hdict Hissue Hinc Hlen) as (n & t & w1 & Hrun & Hw1).
  exists n, t, w1. split; [exact Hrun |].
  assert (Hsnap : snapshot number t (w_server w)).
  { assert (Hwp : wp eq (open_thread number false)
      (fun r w' => forall t, r = inl t -> snapshot number t (w_server w)) (fun _ => True) w).
    { apply (open_thread_wp Hdoc eq); [intros s s' m ->; done | done | by intros |].
      intros w2 w3 t2 [H2 _] [H3 _] Hs t3 [= <-]. by rewrite H2. }
    pose proof (wp_sound eq _ _ _ _ _ Hwp (replicate_fair eq n _)) as H1. rewrite Hrun in H1. by apply H1. }
  destruct Hsnap as (Hhist & _ & Hcoord).
  assert (Hentries : entries_with_key key t = []) by (unfold entries_with_key; rewrite Hhist; exact Hnone).
  rewrite Hentries, Hcoord, Hmove. cbn [negb].
  set (payload := _header KEvent _ +s+ nl +s+ strip text). set (q := Gitea (CreateComment number payload)).
  assert (Hproper := event_proper key state actor Hkey Hstate Hactor).
  destruct (serve_comment Hdoc number payload (w_server w1)) as (v & s' & row & Hs & _ & _ & _ & _ & Hbody & _).
  apply ends_bind. exists 1%nat, (inl (VDict v)), (snd (perform q (attempt q w1))). split.
  { destruct w1 as [s1 j1 a1]. unfold q. simpl in *. by rewrite Hs. }
  cbn [is_dict negb]. rewrite Hbody.
  destruct (header_line KEvent _ (strip text) (proper_markable _ _ Hproper)) as (Hline & Hafter & _).
  rewrite (parse_header KEvent (mkMarker key "" state actor) payload) by done.
  cbn [mk_key mk_state]. unfold payload. rewrite Hafter, !String.eqb_refl. by apply ends_ret.
Qed.
End Liveness.

(** C14: a permitted event is written: on a thread that is a coordination thread, with a
    well-formed timeline of fewer than 5000 rows whose end can be told, an event with a new key,
    a valid text and a proper actor, in a state the thread may move to, is written when its calls
    are left alone: from some number of calls on [write_event] answers that it created it, and
    the thread holds it.  The end can be told when the timeline does not fill its last page, or
    the server sends the empty page after it as a list, or the issue says that it has no
    comments; after a full last page a server that sends [null] is not believed, and such a
    thread cannot be written. *)
Theorem event_written `{GiteaServer} number text key state actor w :
  documented -> end_readable (w_server w) number -> 1 <= number -> actor_ok actor ->
  is_dict (fst (serve (GetIssue number) (w_server w))) = true ->
  _issue (fst (serve (GetIssue number) (w_server w))) <> None ->
  increasing 0 (timeline (w_server w) number) ->
  Z.of_nat (List.length (timeline (w_server w) number)) < 5000 ->
  strip text <> "" -> Z.of_nat (slen (strip text)) <= 6000 -> char_in "000" (strip text) = false ->
  matches_whole _KEY key = true -> mem state _STATES = true ->
  keyed_at (w_server w) number key = [] ->
  may_move (Some (coord_state_of (history_at (w_server w) number))) state = true ->
  exists calls e w', forall more, (calls <= more)%nat ->
    exec (write_event number text key state actor) (replicate more undisturbed) w = (Some (inl e), w') /\
    we_created e = true /\ holds_event (w_server w') number key state (strip text).
Proof.
  intros Hdoc Hlists Hn Hactor Hdict Hissue Hinc Hlen Ht1 Ht2 Ht3 Hkey Hstate Hnone Hmove.
  destruct (write_event_ends Hdoc number text key state actor w) as (n & e & w' & Hrun & Hcreated & _); [done.. |].
  exists n, e, w'. intros more Hmore. split; [| split; [done |]].
  - replace more with (n + (more - n))%nat by lia. rewrite replicate_add. by apply exec_more.
  - pose proof (wp_sound _ _ _ _ _ _ (attempt_added Hdoc number key text state actor w Hactor)
      (replicate_fair (without_key number key) n _)) as Hwp.
    rewrite Hrun in Hwp. by destruct Hwp as [_ ?].
Qed.
