(* ===== verification/EventHookSpec.v ===== *)
(** * What the event hooks promise

    Where a delivery may go, what is in it, and what the outbox keeps of it, with transactions that
    overlap and without; then the places where the code does less than it says. *)
From stdpp Require Import list.
From S2P Require Import Prelude PyStr Regex RegexParse Digests ClientIp TargetHost Url Coordination EventHooks.
From stdpp Require Import options.

#[local] Open Scope Z_scope.
#[local] Set Default Proof Using "Type".

(** ** Headers are read back as they were written *)
Lemma scan_char c s :
  scan_string (json_char c +s+ s) =
  match scan_string s with Some (t, rest) => Some (String c t, rest) | None => None end.
Proof. by destruct c as [[] [] [] [] [] [] [] []]. Qed.
Lemma scan_chars s r : scan_string (json_chars s +s+ String dq r) = Some (s, r).
Proof. induction s as [|c s IH]; [done |]. cbn [json_chars]. by rewrite append_assoc, scan_char, IH. Qed.
Lemma scan_json_string s r : scan_quoted (skip_spaces (json_string s +s+ r)) = Some (s, r).
Proof.
  unfold json_string. change (scan_string ((json_chars s +s+ sc dq) +s+ r) = Some (s, r)).
  rewrite append_assoc. apply scan_chars.
Qed.

Definition member_text (e : string * string) : string := json_string (fst e) +s+ ": " +s+ json_string (snd e).
Lemma scan_more f fuel x (g : dict string) :
  match skip_spaces (", " +s+ x) with
  | String "}" s => Some (g, s)
  | String "," s => '(rest, s) ← scan_members fuel s; Some (f rest, s)
  | _ => None
  end = ('(rest, s) ← scan_members fuel x; Some (f rest, s) : option (dict string * string)).
Proof. by destruct fuel. Qed.
Lemma scan_members_text e h fuel :
  (List.length h < fuel)%nat ->
  scan_members fuel (join ", " (map member_text (e :: h)) +s+ "}") = Some (e :: h, "").
Proof.
  revert e h. induction fuel as [|fuel IH]; intros e h Hf; [lia |].
  assert (E : join ", " (map member_text (e :: h)) +s+ "}"
              = json_string (fst e) +s+ ": " +s+ json_string (snd e) +s+
                match h with [] => "}" | _ => ", " +s+ join ", " (map member_text h) +s+ "}" end).
  { destruct h; cbn [map join]; unfold member_text at 1; by rewrite !append_assoc. }
  rewrite E. cbn [scan_members]. rewrite scan_json_string. cbn [mbind option_bind String.append].
  set (rest := match h with [] => _ | _ => _ end).
  change (skip_spaces (String ":" (String " " (json_string (snd e) +s+ rest))))
    with (String ":" (String " " (json_string (snd e) +s+ rest))).
  cbn [expect Ascii.eqb Bool.eqb mbind option_bind].
  change (skip_spaces (String " " (json_string (snd e) +s+ rest))) with (skip_spaces (json_string (snd e) +s+ rest)).
  rewrite scan_json_string. destruct e as [k v]. cbn [mbind option_bind fst snd]. subst rest.
  destruct h as [|e' h]; [done |].
  etrans; [apply (scan_more (fun rest => (k, v) :: rest)) |]. rewrite IH by (simpl in Hf; lia). done.
Qed.

Lemma fold_set_new {V} (h acc : dict V) : NoDup (keys acc ++ keys h) ->
  fold_left (fun d kv => dict_set (fst kv) (snd kv) d) h acc = acc ++ h.
Proof.
  revert acc. induction h as [|[k v] h IH]; intros acc Hn; [by rewrite app_nil_r |]. simpl in *.
  apply NoDup_app in Hn as (Ha & Hd & [Hk Hh]%NoDup_cons).
  rewrite values_set_new by (intros Hin%list_elem_of_In; apply (Hd k Hin); left).
  rewrite IH, <- app_assoc; [done |]. unfold keys in *. rewrite map_app. apply NoDup_app.
  split; [| split; [| done]].
  - apply NoDup_snoc; [done |]. intros Hin%list_elem_of_In. apply (Hd k Hin). left.
  - intros x [Hx | ->%list_elem_of_singleton]%elem_of_app; [| done]. intros Hin. apply (Hd x Hx). by right.
Qed.
Lemma join_length l : (List.length l <= S (slen (join ", " l)))%nat.
Proof.
  induction l as [|a [|b l] IH]; [cbn; lia | cbn; lia |].
  cbn [List.length join] in *. rewrite !slen_app. change (slen ", ") with 2%nat. lia.
Qed.
Lemma headers_read_back (h : dict string) : NoDup (keys h) -> header_loads (headers_text h) = Some h.
Proof.
  intros Hn. destruct h as [|e h]; [done |].
  assert (E : headers_text (e :: h) = String "{" (join ", " (map member_text (e :: h)) +s+ "}")).
  { unfold headers_text. cbn [json_text]. by rewrite map_map. }
  unfold header_loads. rewrite E. change (skip_spaces (String "{" ?x)) with (String "{" x).
  cbn [expect Ascii.eqb Bool.eqb mbind option_bind].
  set (text := join _ _ +s+ "}").
  assert (Ht : skip_spaces text = String dq (drop 1 text)).
  { subst text. by destruct h. }
  rewrite Ht. cbn [dq]. subst text. rewrite scan_members_text.
  - cbn [mbind option_bind]. change (skip_spaces "") with "". cbn [String.eqb].
    by rewrite fold_set_new.
  - rewrite slen_app. pose proof (join_length (map member_text (e :: h))) as Hj.
    rewrite length_map in Hj. simpl in *. lia.
Qed.

(** ** Where a delivery may go *)
(** Outside the networks of the block list: for IPv4 127/8, 10/8, 172.16/12, 192.168/16, 169.254/16 and
    224/4, for IPv6 ::1, fe80::/10 and ff00::/8.  The private addresses of IPv6, fc00::/7, IPv4 addresses
    written in IPv6 and 0.0.0.0 are not in the list. *)
Definition unblocked (a : ip_addr) : Prop :=
  match a with
  | V4 n => ~ In (n / 2 ^ 24) [127; 10] /\ n / 2 ^ 20 <> 172 * 16 + 1 /\
            ~ In (n / 2 ^ 16) [192 * 256 + 168; 169 * 256 + 254] /\ n / 2 ^ 28 <> 14
  | V6 n => n <> 1 /\ n / 2 ^ 118 <> 0xfe80 / 2 ^ 6 /\ n / 2 ^ 120 <> 0xff
  end.

Definition block_networks : list ip_network := omap parse_network BLOCKED_NETWORKS.
Lemma block_networks_eq : block_networks =
  [Net4 (127 * 2 ^ 24) 8; Net6 1 128; Net4 (10 * 2 ^ 24) 8; Net4 (2753 * 2 ^ 20) 12; Net4 (49320 * 2 ^ 16) 16;
   Net4 (43518 * 2 ^ 16) 16; Net6 (1018 * 2 ^ 118) 10; Net4 (14 * 2 ^ 28) 4; Net6 (255 * 2 ^ 120) 8;
   Net4 2852039166 32].
Proof. by_eval. Qed.
Lemma masked_eq width p n addr q k : 0 <= k -> width - p = k -> addr = q * 2 ^ k ->
  (masked width p n =? addr) = (n / 2 ^ k =? q).
Proof.
  intros Hk Hp ->. unfold masked. rewrite Hp, Z.shiftl_mul_pow2, Z.shiftr_div_pow2 by lia.
  assert (0 < 2 ^ k) by (apply Z.pow_pos_nonneg; lia). apply eq_true_iff_eq. rewrite !Z.eqb_eq. nia.
Qed.
Lemma blocked_by_None a : blocked_by a = None <-> existsb (in_network (a_ip a)) block_networks = false.
Proof.
  unfold blocked_by, block_networks. induction BLOCKED_NETWORKS as [|net l IH]; [done |]. cbn [List.find omap list_omap].
  unfold in_text_network at 1. destruct (parse_network net) as [n|] eqn:E; [| done]. cbn [existsb].
  by destruct (in_network (a_ip a) n).
Qed.
Lemma blocked_by_unblocked a : blocked_by a = None <-> unblocked (a_ip a).
Proof.
  rewrite blocked_by_None, block_networks_eq. destruct (a_ip a) as [n|n]; cbn [existsb in_network];
    rewrite ?orb_false_l, ?orb_false_r.
  - rewrite (masked_eq 32 8 n _ 127 24), (masked_eq 32 8 n _ 10 24), (masked_eq 32 12 n _ 2753 20),
      (masked_eq 32 16 n _ 49320 16), (masked_eq 32 16 n _ 43518 16), (masked_eq 32 4 n _ 14 28),
      (masked_eq 32 32 n _ 2852039166 0) by lia.
    rewrite !orb_false_iff, !Z.eqb_neq, Z.div_1_r. cbn [unblocked In].
    split; [lia |]. intros H1. repeat split; try lia. intros ->. destruct H1 as (_ & _ & H1 & _). by apply H1; right; left.
  - rewrite (masked_eq 128 128 n _ 1 0), (masked_eq 128 10 n _ 1018 118), (masked_eq 128 8 n _ 255 120) by lia.
    rewrite !orb_false_iff, !Z.eqb_neq, Z.div_1_r. cbn [unblocked]. change (0xfe80 / 2 ^ 6) with 1018. tauto.
Qed.

Lemma validated_unblocked host a : ip_object host = Some a -> validate_destination_ip host = None -> unblocked (a_ip a).
Proof.
  unfold validate_destination_ip. intros ->. destruct (blocked_by a) eqn:E; [done |]. intros _. by apply blocked_by_unblocked.
Qed.
Lemma resolve_unblocked dns oserror host hosts : resolve dns oserror host = inr hosts ->
  dns host = Some hosts /\ forall raw, In raw hosts -> exists a, ip_object raw = Some a /\ unblocked (a_ip a).
Proof.
  unfold resolve. destruct (dns host) as [l|]; [| done]. destruct (first_some validate_destination_ip l) eqn:E; [done |].
  intros [= <-]. split; [done |]. intros raw Hr. rewrite first_some_None in E. specialize (E raw Hr).
  destruct (ip_object raw) as [a|] eqn:Ea; [exists a; split; [done | by eapply validated_unblocked] |].
  unfold validate_destination_ip in E. by rewrite Ea in E.
Qed.
(** The addresses the client may connect to once the literal check has passed *)
Lemma connectable_unblocked dns oserror url addrs : _blocked_literal_destination_reason url = Ok None ->
  connectable dns oserror url = inr addrs ->
  exists host, url_hostname url = Ok (Some host) /\
    Forall (fun a => unblocked (a_ip a) /\
              (ip_object host = Some a \/ exists raw l, dns host = Some l /\ In raw l /\ ip_object raw = Some a)) addrs.
Proof.
  unfold _blocked_literal_destination_reason, connectable. destruct (url_hostname url) as [[host|]|]; cbn [rbind]; try done.
  intros [= Hl] Hc. exists host. split; [done |]. destruct (ip_object host) as [a|] eqn:Ea.
  - injection Hc as <-. apply Forall_singleton. split; [by eapply validated_unblocked | by left].
  - destruct (resolve dns oserror host) as [|hosts] eqn:Er; [done |]. injection Hc as <-.
    apply resolve_unblocked in Er as [Hd Hr]. apply Forall_forall. intros a Ha. apply list_elem_of_omap in Ha as (raw & Hin & Hraw).
    apply list_elem_of_In in Hin. destruct (Hr raw Hin) as (a' & Ha' & Hp). assert (a' = a) as -> by congruence.
    split; [done |]. right. eauto.
Qed.
Lemma collect_all infos : forall seen ips, collect_ips seen infos = Ok ips ->
  forall raw, In raw infos -> mem raw seen = false -> exists a, ip_object raw = Some a /\ In a ips.
Proof.
  induction infos as [|x infos IH]; simpl; [done |]. intros seen ips Hc raw Hin Hs.
  destruct (mem x seen) eqn:Ex.
  - destruct Hin as [-> | Hin]; [congruence | eauto].
  - destruct (ip_object x) as [a|] eqn:Ea; [| done].
    destruct (collect_ips (seen ++ [x]) infos) as [l|] eqn:Ec; [| done]. injection Hc as <-.
    destruct (String.eqb_spec raw x) as [-> | Hne]; [exists a; simpl; auto |].
    destruct Hin as [-> | Hin]; [done |]. destruct (IH _ _ Ec raw Hin) as (b & ? & ?).
    + rewrite mem_app, Hs. simpl. by apply String.eqb_neq in Hne as ->.
    + exists b. simpl. auto.
Qed.

(** ** What one happening does to the row of an id *)
Section Rows.
Context (p : RetryPolicy) (v : vault).

(** The delivery made for a hook and its draws *)
Definition made_by (hooks : dict EventHook) (draws : list Draws) (e : Event) (d : WebhookDelivery) : Prop :=
  exists hk dr, In (hk, dr) (combine (find_matching (ev_event e) (ev_session_id e) hooks) draws) /\
    d = hook_delivery v e hk dr.

(** What a claim wants of a row, and what is recorded in one *)
Definition lease_change (c : change) : Prop :=
  unsettled (ch_old c) = true /\ exists me now, ch_new c = set_lease (Some me) (Some now) now (ch_old c).
Definition recorded_as (w : verdict) (c : change) : Prop :=
  match w with
  | Completes code => 200 <= code < 300 /\ exists now, ch_new c = sent code now (ch_old c)
  | FailsWith text => exists now jitter, ch_new c = failed p text now jitter (ch_old c)
  end.
Definition stage_ok (t : Task) : Prop :=
  match tk_stage t with
  | Recording (Completes code) _ => 200 <= code < 300
  | Committing c _ => row_id c = dl_id (tk_delivery t) /\ exists w, recorded_as w c
  | _ => True
  end.

Inductive row_move (h : happening) (ob : Outbox) (i : string)
    : option WebhookDelivery -> option WebhookDelivery -> Prop :=
| mv_same x : row_move h ob i x x
| mv_new hooks draws e d : h = OnEmit hooks draws e -> made_by hooks draws e d -> dl_id d = i ->
    row_move h ob i None (Some d)
| mv_lease k notices claimed c cur : h = OnClaim k notices -> ob_claims ob !! k = Some claimed -> In c claimed ->
    row_id c = i -> lease_change c -> row_move h ob i (Some cur) (Some (write_row c cur))
| mv_recorded tid error d c caught w cur : h = OnCommit tid error ->
    ob_tasks ob !! tid = Some (mkTask d (Committing c caught)) -> row_id c = i -> dl_id d = i -> recorded_as w c ->
    ob_tasks (happen p v h ob) !! tid = Some (mkTask d Over) -> row_move h ob i (Some cur) (Some (write_row c cur))
| mv_swept k ids cur : h = OnSwept k -> ob_sweeps ob !! k = Some ids -> In i ids -> row_move h ob i (Some cur) None.

Definition good_rows (rows : dict WebhookDelivery) : Prop :=
  NoDup (keys rows) /\ forall i d, dict_get i rows = Some d -> dl_id d = i.

Lemma get_set {V} i j (x : V) rows : dict_get i (dict_set j x rows) = if String.eqb i j then Some x else dict_get i rows.
Proof.
  destruct (String.eqb_spec i j) as [-> | Hne]; [apply dict_get_set_eq | by apply dict_get_set_ne].
Qed.
Lemma get_filter {V} (f : string * V -> bool) i rows : NoDup (keys rows) ->
  dict_get i (List.filter f rows) = match dict_get i rows with Some d => if f (i, d) then Some d else None | None => None end.
Proof.
  induction rows as [|[k d] rows IH]; [done |]. cbn [keys map fst List.filter dict_get]. intros [Hk Hn]%NoDup_cons.
  specialize (IH Hn). destruct (String.eqb_spec i k) as [-> | Hne].
  - destruct (f (k, d)); cbn [dict_get]; [by rewrite String.eqb_refl |]. rewrite IH.
    destruct (dict_get k rows) eqn:E; [| done]. destruct Hk. apply list_elem_of_In, in_map_iff.
    exists (k, v0). split; [done | by apply dict_get_In].
  - destruct (f (k, d)); cbn [dict_get]; [| done]. by apply String.eqb_neq in Hne as ->.
Qed.
Lemma keys_filter_NoDup {V} (f : string * V -> bool) rows : NoDup (keys rows) -> NoDup (keys (List.filter f rows)).
Proof.
  induction rows as [|[k d] rows IH]; [done |]. cbn [keys map fst List.filter]. intros [Hk Hn]%NoDup_cons.
  destruct (f (k, d)); [| auto]. constructor; [| auto].
  intros (x & Hx & Hin)%list_elem_of_In%in_map_iff. apply filter_In in Hin as [Hin _]. apply Hk, list_elem_of_In, in_map_iff. eauto.
Qed.

(** *** Each operation *)
Lemma enqueue_get d rows i : dict_get i (enqueue d rows) = dict_get i rows \/
  dict_get i rows = None /\ i = dl_id d /\ dict_get i (enqueue d rows) = Some d.
Proof.
  unfold enqueue, dict_in. destruct (dict_get (dl_id d) rows) eqn:E; [by left |]. rewrite get_set.
  destruct (String.eqb_spec i (dl_id d)) as [-> |]; [right; done | by left].
Qed.
Lemma emit_get hooks draws e i l : (forall x, In x l -> In x (combine (find_matching (ev_event e) (ev_session_id e) hooks) draws)) ->
  forall rows, let rows' := fold_left (fun rows hd => enqueue (hook_delivery v e (fst hd) (snd hd)) rows) l rows in
  dict_get i rows' = dict_get i rows \/
  dict_get i rows = None /\ exists d, made_by hooks draws e d /\ dl_id d = i /\ dict_get i rows' = Some d.
Proof.
  induction l as [|[hk dr] l IH]; intros Hl rows; [by left |]. cbn [fold_left fst snd].
  destruct (IH ltac:(intros x Hx; apply Hl; by right) (enqueue (hook_delivery v e hk dr) rows)) as [H | (H & d & Hd & Hi & H')];
    destruct (enqueue_get (hook_delivery v e hk dr) rows i) as [Hq | (Hq & Hqi & Hq')]; simpl in *.
  - left. congruence.
  - right. split; [done |]. eexists. split; [exists hk, dr; split; [apply Hl; by left | done] |]. by rewrite H.
  - right. split; [congruence |]. eauto.
  - congruence.
Qed.
Lemma claim_spec me now ids rows : NoDup ids -> good_rows rows -> forall claimed,
  claim_deliveries p me now ids rows = Ok claimed ->
  NoDup (map row_id claimed) /\ Forall (fun c => In (row_id c) ids /\ dict_get (row_id c) rows = Some (ch_old c) /\
    claimable p me now (ch_old c) = Ok true /\ ch_new c = set_lease (Some me) (Some now) now (ch_old c)) claimed.
Proof.
  intros Hn [_ Hg]. induction ids as [|j ids IH]; cbn [claim_deliveries]; intros claimed Hc; [by injection Hc as <-; split; constructor |].
  apply NoDup_cons in Hn as [Hj Hn]. specialize (IH Hn). rewrite list_elem_of_In in Hj.
  assert (Hrest : forall cl, claim_deliveries p me now ids rows = Ok cl -> NoDup (map row_id cl) /\
    Forall (fun c => In (row_id c) (j :: ids) /\ dict_get (row_id c) rows = Some (ch_old c) /\
      claimable p me now (ch_old c) = Ok true /\ ch_new c = set_lease (Some me) (Some now) now (ch_old c)) cl /\
    ~ In j (map row_id cl)).
  { intros cl Hcl. destruct (IH cl Hcl) as [H1 H2]. split; [done |]. split.
    - eapply Forall_impl; [exact H2 |]. intros c (H & ?). split; [by right | done].
    - intros (c & Hjc & Hin)%in_map_iff. rewrite Forall_forall in H2. destruct (H2 c) as (H & _); [by apply list_elem_of_In |].
      congruence. }
  destruct (dict_get j rows) as [d|] eqn:Ej; [| destruct (Hrest _ Hc) as (? & ? & _); by split].
  destruct (claimable p me now d) as [mine|] eqn:Em; [| done]. cbn [rbind] in Hc.
  destruct (claim_deliveries p me now ids rows) as [cl|] eqn:E; [| done]. cbn [rbind] in Hc.
  destruct (Hrest cl eq_refl) as (H1 & H2 & H3). destruct mine; injection Hc as <-; [| by split].
  assert (Hd : dl_id d = j) by by apply Hg. split.
  - cbn [map]. constructor; [| done]. rewrite list_elem_of_In. unfold row_id at 1. cbn [ch_old]. by rewrite Hd.
  - constructor; [| done]. unfold row_id. cbn [ch_old ch_new]. rewrite Hd. split; [by left | done].
Qed.
Lemma write_get c rows i : dict_get i (write rows c) = dict_get i rows \/
  row_id c = i /\ exists cur, dict_get i rows = Some cur /\ dict_get i (write rows c) = Some (write_row c cur).
Proof.
  unfold write. destruct (dict_get (row_id c) rows) as [cur|] eqn:E; [| by left]. rewrite get_set.
  destruct (String.eqb_spec i (row_id c)) as [-> |]; [right; split; [done |]; by exists cur | by left].
Qed.
Lemma writes_get i claimed : NoDup (map row_id claimed) -> forall rows,
  dict_get i (fold_left write claimed rows) = dict_get i rows \/
  exists c cur, In c claimed /\ row_id c = i /\ dict_get i rows = Some cur /\
    dict_get i (fold_left write claimed rows) = Some (write_row c cur).
Proof.
  induction claimed as [|c claimed IH]; intros Hn rows; [by left |]. cbn [map fold_left] in *. apply NoDup_cons in Hn as [Hc Hn].
  destruct (IH Hn (write rows c)) as [H | (c' & cur & Hin & Hi & Hg & H)]; destruct (write_get c rows i) as [Hw | (Hi' & cur' & Hg' & Hw)].
  - left. congruence.
  - right. exists c, cur'. split; [by left |]. split; [done |]. split; [done |]. congruence.
  - right. exists c', cur. split; [by right |]. split; [done |]. split; [congruence | done].
  - destruct Hc. apply list_elem_of_In, in_map_iff. exists c'. split; [congruence | done].
Qed.
Lemma write_NoDup c rows : NoDup (keys rows) -> NoDup (keys (write rows c)).
Proof. unfold write. case_goal; [by apply dict_set_NoDup | done]. Qed.
Lemma writes_NoDup claimed : forall rows, NoDup (keys rows) -> NoDup (keys (fold_left write claimed rows)).
Proof. induction claimed as [|c claimed IH]; [done |]. intros rows Hn. by apply IH, write_NoDup. Qed.
Lemma expired_ids_spec status now days i rows : NoDup (keys rows) -> In i (expired_ids status now days rows) ->
  exists d, dict_get i rows = Some d /\ expired status now days d = true.
Proof.
  intros Hn (x & <- & [Hx He]%filter_In)%in_map_iff. destruct x as [k d]. exists d. split; [by apply dict_In_get | done].
Qed.
Lemma selected_spec ids rows : selected ids rows = true ->
  NoDup ids /\ forall i, In i ids -> exists d, dict_get i rows = Some d /\ unsettled d = true.
Proof.
  unfold selected. intros H. bprop. apply bool_decide_eq_true in B1. split; [done |]. intros i Hi.
  eapply forallb_forall in B2; [| done]. simpl in B2. destruct (dict_get i rows); [eauto | done].
Qed.

(** *** The state of the outbox is in order: its rows, the claims that are open, and its tasks *)
Record well (ob : Outbox) : Prop := {
  w_rows : good_rows (ob_rows ob);
  w_claims : forall k claimed, ob_claims ob !! k = Some claimed -> NoDup (map row_id claimed) /\ Forall lease_change claimed;
  w_tasks : forall tid t, ob_tasks ob !! tid = Some t -> stage_ok t }.

Lemma task_at {ob tid} (t : Task) : ob_tasks ob !! tid = Some t -> forall s ob0, ob_tasks ob0 = ob_tasks ob ->
  ob_tasks (set_stage tid t s ob0) !! tid = Some (mkTask (tk_delivery t) s).
Proof. intros Ht s ob0 E. simpl. rewrite E. apply list_lookup_insert_eq. by apply lookup_lt_Some in Ht. Qed.
Lemma happen_row h ob i : well ob ->
  row_move h ob i (dict_get i (ob_rows ob)) (dict_get i (ob_rows (happen p v h ob))).
Proof.
  intros [[Hn Hid] Hcl Htk]. destruct h as [hooks draws e | me now ids | k notices | tid dns os pick | tid a | tid now jitter | tid error
    | tid error | now sd | k now dd | k]; cbn [happen]; try (repeat case_goal; constructor).
  - unfold emit_event.
    destruct (emit_get hooks draws e i _ (fun _ H => H) (ob_rows ob)) as [E | (Hr & d & Hd & Hi & E)];
      cbn [ob_rows set_rows]; rewrite E; [constructor |]. rewrite Hr. by eapply mv_new.
  - destruct (ob_claims ob !! k) as [claimed|] eqn:Hk; [| constructor]. cbn [ob_rows set_claims]. unfold commit_claim.
    destruct (_ && _); [constructor |]. cbn [ob_rows]. destruct (Hcl k claimed Hk) as [Hnd Hf].
    destruct (writes_get i claimed Hnd (ob_rows ob)) as [-> | (c & cur & Hin & Hi & -> & ->)]; [constructor |].
    rewrite Forall_forall in Hf. eapply mv_lease; [done | exact Hk | done | done |]. by apply Hf, list_elem_of_In.
  - destruct (ob_tasks ob !! tid) as [[d s]|] eqn:Ht; [| constructor]. destruct s; try constructor. unfold send_start.
    repeat case_goal; constructor.
  - destruct (ob_tasks ob !! tid) as [[d s]|] eqn:Ht; [| constructor]. destruct s; try constructor. unfold record_read.
    repeat case_goal; constructor.
  - destruct (ob_tasks ob !! tid) as [[d s]|] eqn:Ht; [| constructor]. destruct s as [| | | c caught |]; try constructor.
    unfold record_commit, recording_raised, dict_in. destruct (dict_get (row_id c) (ob_rows ob)) as [cur|] eqn:Ec; [| constructor].
    cbn [set_stage set_rows ob_rows]. destruct (write_get c (ob_rows ob) i) as [-> | (Hi & cur' & -> & ->)]; [constructor |].
    destruct (Htk _ _ Ht) as [Hdi [w Hw]]. cbn [tk_delivery] in Hdi. eapply mv_recorded; [done | exact Ht | done | congruence | exact Hw |].
    cbn [happen]. rewrite Ht. unfold record_commit, dict_in. rewrite Ec.
    exact (task_at _ Ht Over (set_rows (write (ob_rows ob) c) ob) eq_refl).
  - destruct (ob_sweeps ob !! k) as [ids|] eqn:Hk; [| constructor]. cbn [set_sweeps set_rows ob_rows]. unfold cleanup_old.
    rewrite get_filter by done. destruct (dict_get i (ob_rows ob)) as [d|]; [| constructor]. cbn [fst].
    destruct (mem i ids) eqn:E; cbn [negb]; [| constructor]. apply mem_In in E. by eapply mv_swept.
Qed.

Lemma emit_NoDup e l : forall rows, NoDup (keys rows) ->
  NoDup (keys (fold_left (fun rows hd => enqueue (hook_delivery v e (fst hd) (snd hd)) rows) l rows)).
Proof.
  induction l as [|x l IH]; [done |]. cbn [fold_left]. intros rows Hn. apply IH. unfold enqueue.
  case_goal; [done | by apply dict_set_NoDup].
Qed.
Lemma happen_NoDup h ob : NoDup (keys (ob_rows ob)) -> NoDup (keys (ob_rows (happen p v h ob))).
Proof.
  intros Hn. destruct h; cbn [happen].
  - by apply emit_NoDup.
  - by repeat case_goal.
  - repeat case_goal; try done. cbn [ob_rows set_claims] in *. unfold commit_claim in *.
    match goal with E : (if ?b then _ else _) = Some ?rows |- _ => destruct b; [done | injection E as <-] end. by apply writes_NoDup.
  - unfold send_start. by repeat case_goal.
  - unfold send_end. by repeat case_goal.
  - unfold record_read. by repeat case_goal.
  - unfold record_commit, recording_raised. repeat case_goal; try done. by apply write_NoDup.
  - unfold recording_raised. by repeat case_goal.
  - done.
  - by repeat case_goal.
  - repeat case_goal; [| done]. by apply keys_filter_NoDup.
Qed.
Lemma move_id h ob i x y : row_move h ob i x y -> (forall d, x = Some d -> dl_id d = i) -> forall d, y = Some d -> dl_id d = i.
Proof. destruct 1; intros Hx d0 Hd; simplify_eq; simpl; auto. Qed.

(** *** What one happening does to the tasks *)
Definition posted (ob : Outbox) (i : string) : Prop := exists x, In x (ob_posts ob) /\ dl_id (po_delivery x) = i.
Inductive stage_move (ob ob' : Outbox) (d : WebhookDelivery) : stage -> stage -> Prop :=
| sm_over s : s <> Over -> stage_move ob ob' d s Over
| sm_post : posted ob' (dl_id d) -> stage_move ob ob' d Claimed Posting
| sm_fails s text caught : s <> Over -> stage_move ob ob' d s (Recording (FailsWith text) caught)
| sm_completes code caught : 200 <= code < 300 -> stage_move ob ob' d Posting (Recording (Completes code) caught)
| sm_read w caught c : recorded_as w c -> dict_get (dl_id d) (ob_rows ob) = Some (ch_old c) ->
    stage_move ob ob' d (Recording w caught) (Committing c caught).
Inductive task_move (ob ob' : Outbox) : option Task -> option Task -> Prop :=
| tm_same x : task_move ob ob' x x
| tm_new k claimed c : ob_claims ob !! k = Some claimed -> In c claimed ->
    task_move ob ob' None (Some (mkTask (ch_new c) Claimed))
| tm_move d s s' : stage_move ob ob' d s s' -> task_move ob ob' (Some (mkTask d s)) (Some (mkTask d s')).
Lemma set_stage_move ob ob' ob0 tid d s s' k : ob_tasks ob !! tid = Some (mkTask d s) -> ob_tasks ob0 = ob_tasks ob ->
  stage_move ob ob' d s s' ->
  task_move ob ob' (ob_tasks ob !! k) (ob_tasks (set_stage tid (mkTask d s) s' ob0) !! k).
Proof.
  intros Ht E Hm. simpl. rewrite E. destruct (decide (k = tid)) as [-> | Hne].
  - rewrite list_lookup_insert_eq by (by apply lookup_lt_Some in Ht). rewrite Ht. by constructor.
  - rewrite list_lookup_insert_ne by done. constructor.
Qed.
Lemma happen_tasks h ob tid : well ob ->
  task_move ob (happen p v h ob) (ob_tasks ob !! tid) (ob_tasks (happen p v h ob) !! tid).
Proof.
  intros Hw. pose proof Hw as [[Hn Hid] Hcl Htk].
  destruct h as [hooks draws e | me now ids | k notices | k dns os pick | k a | k now jitter | k error | k error | now sd | k now dd | k];
    cbn [happen]; try (repeat case_goal; constructor).
  - destruct (ob_claims ob !! k) as [claimed|] eqn:Hk; [| constructor]. cbv zeta.
    destruct (commit_claim _ _ _) as [rows|]; [| constructor]. cbn [ob_tasks set_claims].
    destruct (ob_tasks ob !! tid) eqn:Et; [rewrite lookup_app_l, Et by (by apply lookup_lt_Some in Et); constructor |].
    rewrite lookup_app_r by (by apply lookup_ge_None). rewrite list_lookup_fmap.
    destruct (claimed !! _) as [c|] eqn:Ed; [| constructor]. eapply tm_new; [exact Hk |].
    by apply list_elem_of_lookup_2, list_elem_of_In in Ed.
  - destruct (ob_tasks ob !! k) as [[d s]|] eqn:Ht; [| constructor]. destruct s; try constructor. unfold send_start.
    destruct (_blocked_literal_destination_reason _) as [[reason|]|]; [by apply set_stage_move; [..| constructor] | |
      by apply set_stage_move; [..| constructor]].
    destruct (connectable _ _ _) as [|addrs]; [by apply set_stage_move; [..| constructor] |].
    destruct (addrs !! pick) as [a|]; [| by apply set_stage_move; [..| constructor]].
    apply (set_stage_move ob _ ob); [done | done |]. constructor. eexists. split; [apply in_app_iff; right; by left | done].
  - destruct (ob_tasks ob !! k) as [[d s]|] eqn:Ht; [| constructor]. destruct s; try constructor. unfold send_end.
    apply set_stage_move; [done | done |]. destruct a as [code|]; [| by constructor].
    destruct ((200 <=? code) && (code <? 300)) eqn:Ec; [bprop; constructor; lia |].
    destruct ((code =? 429) || (500 <=? code)); by constructor.
  - destruct (ob_tasks ob !! k) as [[d s]|] eqn:Ht; [| constructor]. destruct s as [| | w caught | |]; try constructor.
    pose proof (Htk _ _ Ht) as Hst. unfold record_read. cbn [tk_delivery stage_ok tk_stage] in *.
    destruct w as [code|text]; [unfold complete | unfold fail]; destruct (dict_get (dl_id d) (ob_rows ob)) as [cur|] eqn:Ec; cbn [option_map];
      apply set_stage_move; try done; constructor; try done.
    + split; [exact Hst | by eexists].
    + by eexists _, _.
  - destruct (ob_tasks ob !! k) as [[d s]|] eqn:Ht; [| constructor]. destruct s as [| | | c caught |]; try constructor.
    unfold record_commit, recording_raised. destruct (dict_in _ _); [by apply set_stage_move; [..| constructor] |].
    apply set_stage_move; [done | done |]. destruct caught; by constructor.
  - destruct (ob_tasks ob !! k) as [[d s]|] eqn:Ht; [| constructor]. destruct s as [| | w caught | c caught |]; try constructor;
      unfold recording_raised; (apply set_stage_move; [done | done |]); destruct caught; by constructor.
Qed.
Lemma happen_claims h ob k claimed : well ob -> ob_claims (happen p v h ob) !! k = Some claimed ->
  ob_claims ob !! k = Some claimed \/ claimed = [] \/
  exists me now ids, h = OnSelect me now ids /\ NoDup (map row_id claimed) /\
    Forall (fun c => dict_get (row_id c) (ob_rows ob) = Some (ch_old c) /\ claimable p me now (ch_old c) = Ok true /\ lease_change c) claimed.
Proof.
  intros [Hg Hcl Htk]. destruct h as [hooks draws e | me now ids | k' notices | k' dns os pick | k' a | k' now jitter | k' error | k' error | now sd | k' now dd | k'];
    cbn [happen]; try (by left).
  - destruct (selected ids (ob_rows ob)) eqn:Hs; [| by left]. apply selected_spec in Hs as [Hnd Hin].
    destruct (claim_deliveries p me now ids (ob_rows ob)) as [cl|] eqn:Hc; [| by left]. cbn [set_claims ob_claims].
    intros [H | [_ H]]%lookup_app_Some; [by left |]. apply list_lookup_singleton_Some in H as [_ <-]. right. right.
    exists me, now, ids. split; [done |]. destruct (claim_spec me now ids _ Hnd Hg cl Hc) as [H1 H2]. split; [done |].
    eapply Forall_impl; [exact H2 |]. intros c (Hi & Hr & Hm & E). split; [done |]. split; [done |].
    destruct (Hin _ Hi) as (d & Hd & Hu). rewrite Hr in Hd. injection Hd as <-. split; [done |]. by exists me, now.
  - destruct (ob_claims ob !! k') as [cl|] eqn:Hk; [| by left].
    assert (E : ob_claims (happen p v (OnClaim k' notices) ob) = <[k' := []]> (ob_claims ob)).
    { cbn [happen]. rewrite Hk. cbv zeta. by destruct (commit_claim _ _ _). }
    cbn [happen] in E. rewrite Hk in E. rewrite E. intros H. destruct (decide (k = k')) as [-> | Hne].
    + rewrite list_lookup_insert_eq in H by (by apply lookup_lt_Some in Hk). injection H as <-. right. by left.
    + rewrite list_lookup_insert_ne in H by done. by left.
  - unfold send_start. repeat case_goal; by left.
  - unfold send_end. repeat case_goal; by left.
  - unfold record_read. repeat case_goal; by left.
  - unfold record_commit, recording_raised. repeat case_goal; by left.
  - unfold recording_raised. repeat case_goal; by left.
  - repeat case_goal; by left.
  - repeat case_goal; by left.
Qed.
Lemma happen_well h ob : well ob -> well (happen p v h ob).
Proof.
  intros Hw. pose proof Hw as [Hg Hcl Htk]. split.
  - split; [apply happen_NoDup, Hg |]. intros i d Hd.
    eapply move_id; [by apply (happen_row h ob i) | intros d' Hd'; by apply Hg | done].
  - intros k claimed Hk. destruct (happen_claims h ob k claimed Hw Hk) as [H | [-> | (me & now & ids & _ & H1 & H2)]]; [eauto | by split; constructor |].
    split; [done |]. eapply Forall_impl; [exact H2 |]. by intros c (_ & _ & Hc).
  - intros tid t Ht. pose proof (happen_tasks h ob tid Hw) as Hm. rewrite Ht in Hm.
    inversion Hm as [? H1 H2 | ? ? ? H0 H1 H2 | d s s' Hs H1 H2]; subst; [eauto | done |].
    inversion Hs as [| | | ? ? Hc | w caught c Hc Hr]; subst; try done. unfold stage_ok. cbn [tk_stage tk_delivery].
    split; [| by exists w]. unfold row_id. by apply Hg.
Qed.

(** Induction over a history *)
Lemma history_ind (P : list happening -> Outbox -> Prop) :
  P [] empty_outbox ->
  (forall hs h ob, ob = history p v hs -> well ob -> P hs ob -> P (hs ++ [h]) (happen p v h ob)) ->
  forall hs, P hs (history p v hs).
Proof.
  intros H0 Hs hs. assert (H : well (history p v hs) /\ P hs (history p v hs)); [| apply H].
  induction hs as [|h hs [Hg IH]] using rev_ind.
  - split; [split; [split; [constructor | done] | done | done] | done].
  - assert (E : history p v (hs ++ [h]) = happen p v h (history p v hs)) by (unfold history; by rewrite fold_left_app).
    rewrite E. split; [by apply happen_well | by apply Hs].
Qed.
Lemma history_well hs : well (history p v hs).
Proof.
  apply (history_ind (fun _ ob => well ob)); [split; [split; [constructor | done] | done | done] |]. intros; by apply happen_well.
Qed.
End Rows.

(** ** Tasks, posts and where they come from *)
Section Posts.
Context (p : RetryPolicy) (v : vault).

(** What of a delivery never changes *)
Definition letter (d : WebhookDelivery) : string * string * string * string * string * string * option string * Z :=
  (dl_id d, dl_event_id d, dl_hook_id d, dl_event_type d, dl_url d, dl_payload_json d, dl_headers_json d, dl_created_at d).
Lemma letter_fields d d' : letter d = letter d' ->
  dl_url d = dl_url d' /\ dl_payload_json d = dl_payload_json d' /\ dl_headers_json d = dl_headers_json d'.
Proof. unfold letter. intros H. by injection H. Qed.
Definition emitted (hs : list happening) (d : WebhookDelivery) : Prop :=
  exists hooks draws e d0, In (OnEmit hooks draws e) hs /\ made_by v hooks draws e d0 /\ letter d = letter d0.
(** Why an address: it is the URL's, or a resolution during the history answered it. *)
Definition named_by (hs : list happening) (url : string) (a : address) : Prop :=
  exists host, url_hostname url = Ok (Some host) /\
    (ip_object host = Some a \/
     exists tid dns oserror pick l raw, In (OnSend tid dns oserror pick) hs /\
       dns host = Some l /\ In raw l /\ ip_object raw = Some a).
Definition post_ok (hs : list happening) (x : Post) : Prop :=
  emitted hs (po_delivery x) /\ po_headers x = sent_headers (po_delivery x) /\
  po_data x = dl_payload_json (po_delivery x) /\ unblocked (a_ip (po_address x)) /\
  named_by hs (dl_url (po_delivery x)) (po_address x).
(** Tasks that were answered have a POST behind them. *)
Definition answered (t : Task) : Prop :=
  match tk_stage t with
  | Posting | Recording (Completes _) _ => True
  | Committing c _ => exists code now, ch_new c = sent code now (ch_old c)
  | _ => False
  end.
(** A cleanup read the row when it was sent or dead, and past its retention. *)
Definition seen_expired (hs : list happening) (i : string) : Prop :=
  exists before h after d, hs = before ++ h :: after /\ dict_get i (ob_rows (history p v before)) = Some d /\
    ((exists now days, h = OnSweep now days /\ expired Sent now days d = true) \/
     (exists k now days, h = OnSweepDead k now days /\ expired Dead now days d = true)).
Record sourced (hs : list happening) (ob : Outbox) : Prop := {
  sr_rows : forall i d, dict_get i (ob_rows ob) = Some d -> emitted hs d;
  sr_claims : forall k claimed c, ob_claims ob !! k = Some claimed -> In c claimed -> emitted hs (ch_old c);
  sr_tasks : forall tid t, ob_tasks ob !! tid = Some t -> emitted hs (tk_delivery t);
  sr_answered : forall tid t, ob_tasks ob !! tid = Some t -> answered t -> posted ob (dl_id (tk_delivery t));
  sr_posts : forall x, In x (ob_posts ob) -> post_ok hs x;
  sr_sweeps : forall k ids i, ob_sweeps ob !! k = Some ids -> In i ids -> seen_expired hs i
}.

Lemma emitted_more hs h d : emitted hs d -> emitted (hs ++ [h]) d.
Proof.
  intros (hooks & draws & e & d0 & Hin & H). exists hooks, draws, e, d0. split; [apply in_app_iff; by left | done].
Qed.
Lemma post_ok_more hs h x : post_ok hs x -> post_ok (hs ++ [h]) x.
Proof.
  intros (He & Hh & Hd & Hp & host & Hu & Hn). split; [by apply emitted_more |]. split; [done |]. split; [done |].
  split; [done |]. exists host. split; [done |]. destruct Hn as [| (tid & dns & os & pk & l & raw & Hin & Hr)]; [by left |].
  right. exists tid, dns, os, pk, l, raw. split; [apply in_app_iff; by left | done].
Qed.
Lemma seen_expired_more hs h i : seen_expired hs i -> seen_expired (hs ++ [h]) i.
Proof.
  intros (before & h' & after & d & -> & H). exists before, h', (after ++ [h]), d. by rewrite <- app_assoc.
Qed.
Lemma emitted_letter hs d d' : letter d' = letter d -> emitted hs d -> emitted hs d'.
Proof. intros E (hooks & draws & e & d0 & H1 & H2 & H3). exists hooks, draws, e, d0. split; [done |]. split; [done |]. congruence. Qed.
Lemma lease_letter c : lease_change c -> letter (ch_new c) = letter (ch_old c).
Proof. by intros (_ & me & now & ->). Qed.
Lemma move_emitted hs h ob i x y : row_move p v h ob i x y -> (forall d, x = Some d -> emitted hs d) ->
  forall d, y = Some d -> emitted (hs ++ [h]) d.
Proof.
  intros Hm Hx d Hy.
  assert (Hsame : forall d0, x = Some d0 -> letter d = letter d0 -> emitted (hs ++ [h]) d).
  { intros d0 Hd0 Hl. apply emitted_more. eapply emitted_letter; [exact Hl | by apply Hx]. }
  destruct Hm; simplify_eq; try (by eapply Hsame).
  exists hooks, draws, e, d. split; [apply in_app_iff; right; by left | done].
Qed.

Lemma happen_posts h ob : ob_posts (happen p v h ob) = ob_posts ob \/
  exists tid dns os pick d a, h = OnSend tid dns os pick /\
    ob_tasks ob !! tid = Some (mkTask d Claimed) /\
    ob_posts (happen p v h ob) = ob_posts ob ++ [mkPost d a (sent_headers d) (dl_payload_json d)] /\
    unblocked (a_ip a) /\ exists host, url_hostname (dl_url d) = Ok (Some host) /\
      (ip_object host = Some a \/ exists raw l, dns host = Some l /\ In raw l /\ ip_object raw = Some a).
Proof.
  destruct h as [hooks draws e | me now ids | k notices | k dns os pick | k a | k now jitter | k error | k error | now sd | k now dd | k];
    cbn [happen]; try (by left); try (left; by repeat case_goal).
  - destruct (ob_tasks ob !! k) as [[d s]|] eqn:Ht; [| by left]. destruct s; try (by left). unfold send_start.
    cbn [tk_delivery]. destruct (_blocked_literal_destination_reason (dl_url d)) as [[reason|]|] eqn:Eb; try (by left).
    destruct (connectable dns os (dl_url d)) as [|addrs] eqn:Ec; [by left |].
    destruct (addrs !! pick) as [a|] eqn:Ea; [| by left]. right. exists k, dns, os, pick, d, a.
    split; [done |]. split; [done |]. split; [done |]. destruct (connectable_unblocked _ _ _ _ Eb Ec) as (host & Hu & Hf).
    rewrite Forall_lookup in Hf. destruct (Hf _ _ Ea) as [Hp Hn]. split; [done |]. by exists host.
  - left. unfold record_read. by repeat case_goal.
  - left. unfold record_commit, recording_raised. by repeat case_goal.
Qed.
Lemma posted_more h ob i : posted ob i -> posted (happen p v h ob) i.
Proof.
  intros (x & Hx & Hi). exists x. split; [| done].
  destruct (happen_posts h ob) as [-> | (? & ? & ? & ? & ? & ? & _ & _ & -> & _)]; [done | apply in_app_iff; by left].
Qed.
Lemma happen_sweeps hs h ob k ids i : ob = history p v hs -> well p ob ->
  (forall k ids i, ob_sweeps ob !! k = Some ids -> In i ids -> seen_expired hs i) ->
  ob_sweeps (happen p v h ob) !! k = Some ids -> In i ids -> seen_expired (hs ++ [h]) i.
Proof.
  intros Ho Hw Hold Hk Hi. assert (Hn := proj1 (w_rows _ _ Hw)).
  assert (Hkeep : ob_sweeps ob !! k = Some ids -> seen_expired (hs ++ [h]) i) by (intros H; by eapply seen_expired_more, Hold).
  assert (Hnew : forall d, dict_get i (ob_rows ob) = Some d ->
    ((exists now days, h = OnSweep now days /\ expired Sent now days d = true) \/
     (exists k now days, h = OnSweepDead k now days /\ expired Dead now days d = true)) -> seen_expired (hs ++ [h]) i).
  { intros d Hd H. exists hs, h, [], d. split; [done |]. rewrite <- Ho. by split. }
  destruct h as [hooks draws e | me now ids' | k' notices | k' dns os pick | k' a | k' now jitter | k' error | k' error | now sd | k' now dd | k'];
    cbn [happen] in Hk; try (by apply Hkeep); unfold send_start, send_end, record_read, record_commit, recording_raised in Hk;
    try (apply Hkeep; revert Hk; by repeat case_goal).
  - cbn [set_sweeps ob_sweeps] in Hk. apply lookup_app_Some in Hk as [Hk | [_ Hk]]; [by apply Hkeep |].
    apply list_lookup_singleton_Some in Hk as [_ <-]. destruct (expired_ids_spec _ _ _ _ _ Hn Hi) as (d & Hd & He).
    apply (Hnew d Hd). left. by exists now, sd.
  - destruct (ob_sweeps ob !! k') as [ids'|] eqn:E; [| by apply Hkeep]. cbn [set_sweeps ob_sweeps] in Hk.
    destruct (decide (k = k')) as [-> | Hne]; [| apply Hkeep; by rewrite list_lookup_insert_ne in Hk].
    rewrite list_lookup_insert_eq in Hk by (by apply lookup_lt_Some in E). injection Hk as <-.
    apply in_app_iff in Hi as [Hi | Hi]; [by eapply seen_expired_more, Hold |].
    destruct (expired_ids_spec _ _ _ _ _ Hn Hi) as (d & Hd & He). apply (Hnew d Hd). right. by exists k', now, dd.
  - destruct (ob_sweeps ob !! k') as [ids'|] eqn:E; [| by apply Hkeep]. cbn [set_sweeps set_rows ob_sweeps] in Hk.
    destruct (decide (k = k')) as [-> | Hne]; [| apply Hkeep; by rewrite list_lookup_insert_ne in Hk].
    rewrite list_lookup_insert_eq in Hk by (by apply lookup_lt_Some in E). by injection Hk as <-.
Qed.

Lemma history_sourced hs : sourced hs (history p v hs).
Proof.
  apply (history_ind p v sourced); [by split |]. clear hs. intros hs h ob Ho Hw [Hrows Hclaims Htasks Hans Hposts Hsweeps]. split.
  - intros i d. eapply move_emitted; [by apply happen_row |]. eauto.
  - intros k claimed c Hk Hc. apply emitted_more.
    destruct (happen_claims p v h ob k claimed Hw Hk) as [H | [-> | (me & now & ids & _ & _ & H)]]; [eauto | done |].
    rewrite Forall_forall in H. destruct (H c) as (Hr & _); [by apply list_elem_of_In |]. eauto.
  - intros tid t Ht. apply emitted_more. pose proof (happen_tasks p v h ob tid Hw) as Hm. rewrite Ht in Hm.
    inversion Hm as [? H1 H2 | k claimed c Hk Hc H1 H2 | d s s' Hs H1 H2]; subst; [eauto | |].
    + eapply emitted_letter; [| by eapply Hclaims]. destruct (w_claims _ _ Hw _ _ Hk) as [_ Hf]. rewrite Forall_forall in Hf.
      by apply lease_letter, Hf, list_elem_of_In.
    + by eapply (Htasks tid (mkTask d s)).
  - intros tid t Ht Ha. pose proof (happen_tasks p v h ob tid Hw) as Hm. rewrite Ht in Hm.
    inversion Hm as [? H1 H2 | k claimed c Hk Hc H1 H2 | d s s' Hs H1 H2]; subst.
    + apply posted_more. eauto.
    + done.
    + inversion Hs as [| | | ? ? Hc | w caught c Hc Hr]; subst; try done.
      * apply posted_more. by apply (Hans tid (mkTask d Posting)).
      * apply posted_more. apply (Hans tid (mkTask d (Recording w caught))); [done |]. destruct Ha as (code & now & Ha).
        destruct w as [|text]; [done |]. destruct Hc as (now' & j & Hc). rewrite Ha in Hc. exfalso. revert Hc. clear.
        unfold sent, failed. intros [= _ H _ _ _]. lia.
  - intros x Hx. destruct (happen_posts h ob) as [E | (tid & dns & os & pk & d & a & -> & Ht & E & Hp & host & Hu & Hn)];
      rewrite E in Hx; [apply post_ok_more; auto |].
    apply In_snoc in Hx as [Hx | ->]; [apply post_ok_more; auto |]. split.
    + apply emitted_more. by eapply (Htasks tid (mkTask d Claimed)).
    + split; [done |]. split; [done |]. split; [done |]. exists host. split; [done |].
      destruct Hn as [| (raw & l & ? & ? & ?)]; [by left | right]. exists tid, dns, os, pk, l, raw.
      split; [apply in_app_iff; right; by left | done].
  - intros k ids i. by eapply happen_sweeps.
Qed.
End Posts.

(** ** What the outbox keeps of a delivery *)
Section Ledger.
Context (p : RetryPolicy) (v : vault).

(** The tasks of a delivery that are over *)
Definition is_over (i : string) (t : Task) : bool := String.eqb (dl_id (tk_delivery t)) i && match tk_stage t with Over => true | _ => false end.
Definition over (i : string) (ob : Outbox) : Z := Z.of_nat (List.length (List.filter (is_over i) (ob_tasks ob))).
Definition error_kept (d : WebhookDelivery) : Prop := exists e, dl_last_error d = Some e /\ (slen e <= 1024)%nat.

Lemma over_app i l l' : List.length (List.filter (is_over i) (l ++ l')) =
  (List.length (List.filter (is_over i) l) + List.length (List.filter (is_over i) l'))%nat.
Proof. by rewrite List.filter_app, length_app. Qed.
Lemma over_insert i tid t t' (l : list Task) : l !! tid = Some t ->
  (List.length (List.filter (is_over i) (<[tid := t']> l)) + (if is_over i t then 1 else 0))%nat =
  (List.length (List.filter (is_over i) l) + (if is_over i t' then 1 else 0))%nat.
Proof.
  intros Ht. rewrite insert_take_drop by (by apply lookup_lt_Some in Ht).
  rewrite <- (take_drop_middle l tid t Ht) at 3. rewrite !over_app. cbn [List.filter].
  destruct (is_over i t), (is_over i t'); cbn [List.length]; lia.
Qed.
Lemma over_mono i (l l' : list Task) :
  (forall tid t, l !! tid = Some t -> exists t', l' !! tid = Some t' /\ (is_over i t = true -> is_over i t' = true)) ->
  (List.length (List.filter (is_over i) l) <= List.length (List.filter (is_over i) l'))%nat.
Proof.
  revert l'. induction l as [|t l IH]; intros l' H; [simpl; lia |].
  destruct (H O t eq_refl) as (t' & Ht' & Ho). destruct l' as [|x l']; [done |]. injection Ht' as ->.
  specialize (IH l' (fun tid => H (S tid))). cbn [List.filter].
  destruct (is_over i t); [rewrite Ho by done; simpl; lia |]. destruct (is_over i t'); simpl; lia.
Qed.
(** No task that is over starts again. *)
Lemma tasks_grow h ob i tid t : well p ob -> ob_tasks ob !! tid = Some t ->
  exists t', ob_tasks (happen p v h ob) !! tid = Some t' /\ (is_over i t = true -> is_over i t' = true).
Proof.
  intros Hw Ht. pose proof (happen_tasks p v h ob tid Hw) as Hm. rewrite Ht in Hm.
  inversion Hm as [? H1 H2 | | d s s' Hs H1 H2]; subst; (eexists; split; [done |]); [done |].
  unfold is_over. simpl. inversion Hs; subst; try done; destruct s; try done; by rewrite ?andb_false_r.
Qed.
Lemma over_grows h ob i : well p ob -> over i ob <= over i (happen p v h ob).
Proof. intros Hw. apply Nat2Z.inj_le, over_mono. intros tid t. by apply tasks_grow. Qed.
Lemma over_ends h ob tid t : well p ob -> ob_tasks ob !! tid = Some t -> tk_stage t <> Over ->
  let i := dl_id (tk_delivery t) in ob_tasks (happen p v h ob) !! tid = Some (mkTask (tk_delivery t) Over) ->
  over i ob + 1 <= over i (happen p v h ob).
Proof.
  intros Hw Ht Hs i Ht'. unfold over.
  pose proof (over_insert i tid t (mkTask (tk_delivery t) Over) (ob_tasks ob) Ht) as Hi.
  assert (E1 : is_over i t = false) by (unfold is_over; destruct (tk_stage t); by rewrite ?andb_false_r).
  assert (E2 : is_over i (mkTask (tk_delivery t) Over) = true) by (unfold is_over; simpl; by rewrite String.eqb_refl).
  rewrite E1, E2 in Hi.
  enough (List.length (List.filter (is_over i) (<[tid := mkTask (tk_delivery t) Over]> (ob_tasks ob)))
          <= List.length (List.filter (is_over i) (ob_tasks (happen p v h ob))))%nat by lia.
  apply over_mono. intros k x Hx. destruct (decide (k = tid)) as [-> | Hne].
  - rewrite list_lookup_insert_eq in Hx by (by apply lookup_lt_Some in Ht). injection Hx as <-. eauto.
  - rewrite list_lookup_insert_ne in Hx by done. by apply tasks_grow.
Qed.

(** *** Whatever overlaps *)
Definition entry_ok (ob : Outbox) (d : WebhookDelivery) : Prop :=
  0 <= dl_attempts d <= over (dl_id d) ob /\
  (dl_status d = Sent -> posted ob (dl_id d)) /\
  (forall code, dl_http_status d = Some code -> 200 <= code < 300 /\ posted ob (dl_id d)) /\
  (forall e, dl_last_error d = Some e -> (slen e <= 1024)%nat).
Lemma entry_ok_more h ob d : well p ob -> entry_ok ob d -> entry_ok (happen p v h ob) d.
Proof.
  intros Hw (Ha & Hs & Hc & He). pose proof (over_grows h ob (dl_id d) Hw). split; [lia |].
  split; [intros E; by apply posted_more, Hs |]. split; [| done]. intros code E. destruct (Hc code E). split; [done | by apply posted_more].
Qed.
Lemma column_same {A} `{EqDecision A} (x cur : A) : column x x cur = cur.
Proof. unfold column. by rewrite bool_decide_eq_true_2. Qed.
Lemma column_either {A} `{EqDecision A} (old new cur : A) : column old new cur = cur \/ column old new cur = new.
Proof. unfold column. case_bool_decide; auto. Qed.
Lemma lease_entry_ok ob c cur : lease_change c -> entry_ok ob cur -> entry_ok ob (write_row c cur).
Proof.
  intros (_ & me & now & E) H. unfold entry_ok, write_row. rewrite E. cbn [dl_id dl_attempts dl_status dl_http_status dl_last_error set_lease].
  by rewrite !column_same.
Qed.
Lemma recorded_entry_ok ob w c cur : recorded_as p w c -> entry_ok ob cur ->
  (match w with Completes _ => posted ob (dl_id cur) | FailsWith _ => True end) ->
  0 <= dl_attempts (ch_old c) -> (match w with Completes _ => True | FailsWith _ => dl_attempts (ch_old c) + 1 <= over (dl_id cur) ob end) ->
  entry_ok ob (write_row c cur).
Proof.
  intros Hw (Ha & Hs & Hc & He) Hp H0 Ho. unfold entry_ok, write_row. cbn [dl_id dl_attempts dl_status dl_http_status dl_last_error].
  destruct w as [code|text].
  - destruct Hw as (Hcode & now & ->). cbn [dl_attempts dl_status dl_http_status dl_last_error sent]. rewrite !column_same.
    split; [done |]. split; [done |]. split; [| done]. intros code'.
    destruct (column_either (dl_http_status (ch_old c)) (Some code) (dl_http_status cur)) as [-> | ->]; [apply Hc | by intros [= <-]].
  - destruct Hw as (now & jitter & ->). cbn [dl_attempts dl_status dl_http_status dl_last_error failed]. rewrite !column_same.
    split; [| split; [| split; [done |]]].
    + destruct (column_either (dl_attempts (ch_old c)) (dl_attempts (ch_old c) + 1) (dl_attempts cur)) as [-> | ->]; [done | lia].
    + match goal with |- column ?a ?b ?c = _ -> _ => destruct (column_either a b c) as [-> | ->] end; [done |].
      by destruct (max_attempts p <=? _).
    + intros e. match goal with |- column ?a ?b ?c = _ -> _ => destruct (column_either a b c) as [-> | ->] end; [apply He |].
      intros E. assert (e = take 1024 text) as -> by congruence. rewrite slen_take. lia.
Qed.
Lemma made_entry_ok ob hooks draws e d : made_by v hooks draws e d -> entry_ok ob d.
Proof. intros (hk & dr & _ & ->). split; [unfold over; simpl; lia | done]. Qed.
(** What is about to be committed was read from a row in order. *)
Record ledger (ob : Outbox) : Prop := {
  lg_rows : forall i d, dict_get i (ob_rows ob) = Some d -> entry_ok ob d;
  lg_read : forall tid d c caught, ob_tasks ob !! tid = Some (mkTask d (Committing c caught)) ->
    0 <= dl_attempts (ch_old c) <= over (dl_id d) ob }.
Lemma history_ledger hs : ledger (history p v hs).
Proof.
  enough (sourced p v hs (history p v hs) /\ ledger (history p v hs)) by tauto.
  apply (history_ind p v (fun hs ob => sourced p v hs ob /\ ledger ob)); [split; [apply (history_sourced p v []) | by split] |].
  clear hs. intros hs h ob Ho Hw [Hsrc [Hrows Hread]].
  assert (Hsrc' : sourced p v (hs ++ [h]) (happen p v h ob)).
  { rewrite Ho. pose proof (history_sourced p v (hs ++ [h])) as H. unfold history in *. by rewrite fold_left_app in H. }
  split; [exact Hsrc' |]. split.
  - intros i d Hd. pose proof (happen_row p v h ob i Hw) as Hm. rewrite Hd in Hm.
    assert (Hid : forall cur, dict_get i (ob_rows ob) = Some cur -> dl_id cur = i) by (intros cur; apply (w_rows _ _ Hw)).
    inversion Hm as [? H1 H2 | ? ? ? ? Hh Hmk H0 H1 H2 | k notices cl c cur Hh Hk Hin Hi Hlc H1 H2
      | tid error dv c caught w cur Hh Ht Hi Hdv Hrec Hover H1 H2 |]; subst d || idtac.
    + apply entry_ok_more; [done |]. apply (Hrows i). congruence.
    + by eapply made_entry_ok.
    + apply lease_entry_ok; [done |]. apply entry_ok_more; [done |]. by apply (Hrows i).
    + assert (Hcur : dl_id cur = i) by by apply Hid. destruct (Hread _ _ _ _ Ht) as [H3 H4].
      apply (recorded_entry_ok _ w); [done | apply entry_ok_more; [done |]; by apply (Hrows i) | | done |].
      * destruct w as [code|]; [| done]. rewrite Hcur, <- Hdv. apply posted_more.
        apply (sr_answered _ _ _ _ Hsrc tid (mkTask dv (Committing c caught)) Ht). destruct Hrec as (_ & now & E). by exists code, now.
      * destruct w; [done |]. pose proof (over_ends h ob tid _ Hw Ht ltac:(done) Hover) as H5. cbn [tk_delivery] in H5.
        rewrite Hcur, <- Hdv. lia.
  - intros tid d c caught Ht. pose proof (happen_tasks p v h ob tid Hw) as Hm. rewrite Ht in Hm.
    pose proof (over_grows h ob (dl_id d) Hw) as Hg.
    inversion Hm as [? H1 H2 | | ? s ? Hs H1 H2]; subst.
    + destruct (Hread tid d c caught); [congruence |]. lia.
    + inversion Hs as [| | | | w ? ? Hc Hr]; subst. destruct (Hrows _ _ Hr) as [Ha _].
      rewrite (proj2 (w_rows _ _ Hw) _ _ Hr) in Ha. lia.
Qed.

(** *** Where nothing overlaps: no row was changed between the reading and the commit of a transaction *)
Definition to_commit (h : happening) (ob : Outbox) : list change :=
  match h with
  | OnClaim k _ => default [] (ob_claims ob !! k)
  | OnCommit tid _ => match ob_tasks ob !! tid with Some (mkTask _ (Committing c _)) => [c] | _ => [] end
  | _ => []
  end.
#[local] Instance delivery_eq_dec : EqDecision WebhookDelivery.
Proof. solve_decision. Defined.
Definition as_read (ob : Outbox) (c : change) : bool :=
  match dict_get (row_id c) (ob_rows ob) with Some cur => bool_decide (cur = ch_old c) | None => true end.
Fixpoint undisturbed (ob : Outbox) (hs : list happening) : bool :=
  match hs with
  | [] => true
  | h :: hs => forallb (as_read ob) (to_commit h ob) && undisturbed (happen p v h ob) hs
  end.
Lemma undisturbed_snoc hs h : forall ob, undisturbed ob (hs ++ [h]) =
  undisturbed ob hs && forallb (as_read (fold_left (fun ob h => happen p v h ob) hs ob)) (to_commit h (fold_left (fun ob h => happen p v h ob) hs ob)).
Proof.
  induction hs as [|h' hs IH]; intros ob; cbn [app undisturbed fold_left]; [by rewrite andb_true_r |]. by rewrite IH, andb_assoc.
Qed.
Lemma write_row_read c : letter (ch_new c) = letter (ch_old c) -> write_row c (ch_old c) = ch_new c.
Proof.
  assert (Hcol : forall A (H : EqDecision A) (a b : A), column a b a = b) by (intros A H a b; unfold column; by case_bool_decide).
  destruct c as [[] []]. unfold letter, write_row. cbn. intros [= -> -> -> -> -> -> -> ->]. by rewrite !Hcol.
Qed.
(** A row whose transactions were each undisturbed *)
Definition row_ok (ob : Outbox) (d : WebhookDelivery) : Prop :=
  (0 <= dl_attempts d <= over (dl_id d) ob) /\
  match dl_status d with
  | Pending => dl_attempts d = 0 /\ dl_next_retry_at d = None /\ dl_last_error d = None /\ dl_http_status d = None
  | Failed => 1 <= dl_attempts d < max_attempts p /\ error_kept d /\
      exists now jitter, dl_next_retry_at d = Some (_compute_retry_at p (dl_attempts d) now jitter)
  | Dead => 1 <= dl_attempts d /\ max_attempts p <= dl_attempts d /\ error_kept d /\ dl_next_retry_at d = None
  | Sent => (exists code, dl_http_status d = Some code /\ 200 <= code < 300) /\ posted ob (dl_id d)
  end /\
  (dl_leased_by d = None <-> dl_leased_at d = None) /\ (dl_leased_by d <> None -> unsettled d = true).
Lemma row_ok_more h ob d : well p ob -> row_ok ob d -> row_ok (happen p v h ob) d.
Proof.
  intros Hg (Ha & Hs & Hl). pose proof (over_grows h ob (dl_id d) Hg). split; [lia |]. split; [| done].
  destruct (dl_status d); try done. split; [apply Hs | apply posted_more, Hs].
Qed.
Lemma failed_ok ob d text now jitter : 0 <= dl_attempts d -> dl_attempts d + 1 <= over (dl_id d) ob ->
  row_ok ob (failed p text now jitter d).
Proof.
  intros H0 Ha. split; [simpl; lia |]. split; [| done].
  assert (He : error_kept (failed p text now jitter d)) by (eexists; split; [done | rewrite slen_take; lia]).
  unfold failed. cbn [dl_status dl_attempts dl_next_retry_at].
  destruct (Z.leb_spec (max_attempts p) (dl_attempts d + 1)).
  - repeat split; [lia | lia | done].
  - split; [lia |]. split; [done |]. eauto.
Qed.
Lemma made_ok ob hooks draws e d : made_by v hooks draws e d -> row_ok ob d.
Proof.
  intros (hk & dr & _ & ->). split; [| by split]. simpl. unfold over. lia.
Qed.
(** One happening that commits only what is as it was read *)
Lemma row_move_ok hs h ob i d d' : well p ob -> sourced p v hs ob -> row_ok ob d -> dict_get i (ob_rows ob) = Some d ->
  forallb (as_read ob) (to_commit h ob) = true -> row_move p v h ob i (Some d) (Some d') ->
  row_ok (happen p v h ob) d' /\ dl_attempts d <= dl_attempts d' <= dl_attempts d + 1.
Proof.
  intros Hw Hsrc Hd Hget Hcalm Hm. apply (row_ok_more h) in Hd as Hd'; [| done].
  assert (Hi : dl_id d = i) by by apply (w_rows _ _ Hw).
  assert (Hread : forall c, In c (to_commit h ob) -> row_id c = i -> d = ch_old c).
  { intros c Hin Hc. rewrite forallb_forall in Hcalm. specialize (Hcalm c Hin). unfold as_read in Hcalm.
    rewrite Hc, Hget in Hcalm. by apply bool_decide_eq_true in Hcalm. }
  inversion Hm as [? H1 H2 | | k notices cl c cur Hh Hk Hin Hc Hlc H1 H2
      | tid error dv c caught w cur Hh Ht Hc Hdv Hrec Hover H1 H2 |]; subst h || idtac.
  - subst. split; [done | lia].
  - assert (E : d = ch_old c) by (apply Hread; [cbn; by rewrite Hk | done]). rewrite E, write_row_read by by apply lease_letter.
    destruct Hlc as (Hu & me & now & ->). rewrite E in *. split; [| simpl; lia]. destruct Hd' as (Ha & Hst & _).
    split; [done |]. split; [done |]. by split.
  - assert (E : d = ch_old c) by (apply Hread; [cbn; rewrite Ht; by left | done]).
    pose proof (over_ends _ ob tid _ Hw Ht ltac:(done) Hover) as Ho. cbn [tk_delivery] in Ho.
    assert (Hans : answered (mkTask dv (Committing c caught)) -> posted (happen p v (OnCommit tid error) ob) (dl_id dv))
      by (intros Ha; by apply posted_more, (sr_answered _ _ _ _ Hsrc tid _ Ht)).
    rewrite E in *. destruct w as [code|text].
    + destruct Hrec as (Hcode & now & En). rewrite write_row_read by by rewrite En.
      rewrite En. split; [| simpl; lia]. destruct Hd' as (Ha & _). split; [done |]. split; [| done]. split; [by eexists |].
      cbn [dl_id sent]. rewrite Hi, <- Hdv. apply Hans. by exists code, now.
    + destruct Hrec as (now & jitter & En). rewrite write_row_read by by rewrite En. rewrite En. split; [| simpl; lia].
      apply failed_ok; [apply Hd |]. destruct Hd as [? _]. rewrite Hi in *. rewrite Hdv in Ho. lia.
Qed.
Lemma history_rows hs : undisturbed empty_outbox hs = true ->
  forall i d, dict_get i (ob_rows (history p v hs)) = Some d -> row_ok (history p v hs) d.
Proof.
  induction hs as [|h hs IH] using rev_ind; [done |]. rewrite undisturbed_snoc. fold (history p v hs). intros [Hu Hc]%andb_true_iff i d Hd.
  assert (E : history p v (hs ++ [h]) = happen p v h (history p v hs)) by (unfold history; by rewrite fold_left_app).
  rewrite E in *. pose proof (happen_row p v h _ i (history_well p v hs)) as Hm. rewrite Hd in Hm.
  destruct (dict_get i (ob_rows (history p v hs))) as [d0|] eqn:E0.
  - eapply row_move_ok; [apply history_well | apply history_sourced | by eapply IH | exact E0 | exact Hc | exact Hm].
  - inversion Hm; subst. by eapply made_ok.
Qed.
Lemma move_keeps h ob i d y : row_move p v h ob i (Some d) y ->
  match y with
  | Some d' => letter d' = letter d
  | None => exists k ids, h = OnSwept k /\ ob_sweeps ob !! k = Some ids /\ In i ids
  end.
Proof. inversion 1; subst; simpl; try done. eauto. Qed.
End Ledger.

(** ** The properties *)
(** C15: Where a webhook may go.  Over any history of the outbox, with any resolver answers and
    any URL stored in a hook, each POST goes to an address outside the networks of the block list: for IPv4
    loopback, 10/8, 172.16/12, 192.168/16, link-local (the metadata service with it) and multicast, for
    IPv6 ::1, fe80::/10 and multicast.  (The list has no more: the unique-local addresses of IPv6, an
    IPv4 address written in IPv6, and 0.0.0.0 pass.)  That address is the literal address of the
    delivery's URL or one that a resolution during the history gave for its host, so a name
    that is rebound after the hook was made is caught when the delivery is sent.  A hook that
    the route accepts has an https URL whose host is a literal address outside those networks, or resolved,
    when the hook was made, to such addresses only. *)
Theorem hook_destination (p : RetryPolicy) (v : vault) :
  (forall hs x, In x (ob_posts (history p v hs)) ->
     unblocked (a_ip (po_address x)) /\ named_by hs (dl_url (po_delivery x)) (po_address x)) /\
  (forall event_hooks_max getaddrinfo encrypt id body hooks h hooks',
     create_event_hook event_hooks_max getaddrinfo encrypt id body hooks = (Ok h, hooks') ->
     url_scheme (hk_url h) = "https" /\ exists host, url_hostname (hk_url h) = Ok (Some host) /\
     match ip_object host with
     | Some a => unblocked (a_ip a)
     | None => exists infos, getaddrinfo host = Some infos /\ infos <> [] /\
                 forall raw, In raw infos -> exists a, ip_object raw = Some a /\ unblocked (a_ip a)
     end).
Proof.
  split; [intros hs x Hx; destruct (sr_posts _ _ _ _ (history_sourced p v hs) x Hx) as (_ & _ & _ & ? & ?); done |].
  intros max dns encrypt id body hooks h hooks' Hc. unfold create_event_hook in Hc.
  destruct (checked_url dns (hc_url body)) as [[]|] eqn:Hu; [| done]. case_hyp Hc; [done |].
  injection Hc as <- <-. cbn [hk_url]. unfold checked_url in Hu.
  destruct (validate_webhook_url dns (hc_url body) false) as [[reason|]|] eqn:Ev; [done | | done]. clear Hu.
  unfold validate_webhook_url in Ev. case_hyp Ev; [done |].
  destruct (url_hostname (hc_url body)) as [hostname|]; [| done].
  destruct (String.eqb_spec (url_scheme (hc_url body)) "http") as [-> | Hne]; [done |]. cbn [negb andb] in Ev.
  destruct (negb (mem (url_scheme (hc_url body)) ["http"; "https"])) eqn:Em; [done |].
  destruct hostname as [host|]; [| done]. split.
  { apply negb_false_iff, mem_In in Em as [Em | [Em | []]]; congruence. }
  exists host. split; [done |]. destruct (ip_object host) as [a|].
  - cbn [first_some] in Ev. destruct (blocked_by a) eqn:Eb; [done |]. by apply blocked_by_unblocked.
  - destruct (dns host) as [infos|]; [| done]. destruct (collect_ips [] infos) as [addrs|] eqn:Ea; [| done].
    cbn [rbind] in Ev. destruct addrs as [|a0 addrs]; [done |]. exists infos. split; [done |]. split; [by intros -> |].
    intros raw Hr. destruct (collect_all infos [] _ Ea raw Hr eq_refl) as (a & Ha & Hin). exists a. split; [done |].
    apply blocked_by_unblocked. destruct (first_some blocked_by (a0 :: addrs)) eqn:Ef; [done |].
    rewrite first_some_None in Ef. auto.
Qed.

Lemma update_get (k : string) e d : dict_get k e = None -> dict_get k (dict_update d e) = dict_get k d.
Proof.
  unfold dict_update. revert d. induction e as [|[k' x] e IH]; [done |]. intros d. cbn [dict_get fold_left fst snd].
  destruct (String.eqb_spec k k') as [-> | Hne]; [done |]. intros He. rewrite IH by done. by rewrite dict_get_set_ne.
Qed.
Lemma update_NoDup d e : NoDup (keys d) -> NoDup (keys (dict_update d e)).
Proof.
  unfold dict_update. revert d. induction e as [|x e IH]; [done |]. intros d Hd. cbn [fold_left]. by apply IH, dict_set_NoDup.
Qed.
Lemma delivery_headers_NoDup v h d payload : NoDup (keys (delivery_headers v h d payload)).
Proof.
  unfold delivery_headers. cbv zeta. repeat case_goal; try apply update_NoDup; apply NoDup_ListNoDup; simpl;
    repeat (constructor; [simpl; intuition congruence |]); constructor.
Qed.
Lemma sent_as_made v e h d : sent_headers (hook_delivery v e h d) = delivery_headers v h d (event_payload h d e).
Proof.
  unfold sent_headers, hook_delivery. cbv zeta. cbn [dl_headers_json enqueued].
  change (nonempty (Some (headers_text ?h))) with (Some (headers_text h)). cbn [default option_map].
  rewrite headers_read_back by apply delivery_headers_NoDup. done.
Qed.

(** C16: What a webhook carries.  Every POST of any history is for an event that was emitted and
    for an active hook that asks for it, goes to that hook's URL, and carries the very text
    that was made of the event, redacted, when it was emitted, with the headers made then:
    what is written to the outbox as JSON reads back the same however often the delivery is
    claimed, failed or sent again.  When the hook has a secret that opens, and no header of its
    own by that name, the POST has the SHA-256 signature of its timestamp and its body under
    that secret. *)
Theorem posts_signed (p : RetryPolicy) (v : vault) (hs : list happening) (x : Post) :
  In x (ob_posts (history p v hs)) ->
  exists hooks draws e h d, In (OnEmit hooks draws e) hs /\ In h (values hooks) /\
    asks_for (ev_event e) (ev_session_id e) h = true /\ dl_url (po_delivery x) = hk_url h /\
    po_data x = event_payload h d e /\ po_headers x = delivery_headers v h d (po_data x) /\
    forall secret, unseal v (hk_secret_encrypted h) = Some secret -> secret <> "" ->
      match unseal v (hk_headers_encrypted h) with
      | Some text => match header_loads text with
                     | Some custom => dict_get "X-Webhook-Signature" custom = None | None => True end
      | None => True
      end ->
      dict_get "X-Webhook-Signature" (po_headers x) =
        Some ("sha256=" +s+ hex_text (hmac_sha256 (bytes_of secret) (bytes_of (dr_unix d +s+ "." +s+ po_data x)))).
Proof.
  intros Hx. destruct (sr_posts _ _ _ _ (history_sourced p v hs) x Hx)
    as ((hooks & draws & e & d0 & Hin & (h & d & Hh & ->) & Hl) & Hhd & Hdata & _).
  apply letter_fields in Hl as (Hurl & Hpay & Hjson).
  assert (Hs : po_headers x = delivery_headers v h d (event_payload h d e)).
  { rewrite Hhd, <- sent_as_made. unfold sent_headers. by rewrite Hjson. }
  assert (Hp : po_data x = event_payload h d e) by (etrans; [exact Hdata | exact Hpay]).
  apply in_combine_l in Hh. apply filter_In in Hh as [Hh Ha].
  exists hooks, draws, e, h, d. rewrite Hp. split; [exact Hin |]. split; [exact Hh |]. split; [exact Ha |]. split; [exact Hurl |].
  split; [reflexivity |]. split; [exact Hs |]. intros secret Hsec Hne Hc. rewrite Hs. unfold delivery_headers. rewrite Hsec.
  cbn [sign_payload]. destruct secret as [|c secret]; [done |]. cbv zeta.
  destruct (unseal v (hk_headers_encrypted h)) as [text|]; [| done].
  destruct (header_loads text) as [custom|]; [| done]. by rewrite update_get.
Qed.

(** C17: The ledger of the outbox.  In any history, whatever instances claim, send and clean up, their
    transactions overlapping in any way between a SELECT and its COMMIT, each row is of a delivery that was
    emitted, its contents unchanged; it counts no more attempts than tasks that ended for the delivery;
    it is sent only if a POST went out for it, and the status it keeps is a 2xx answer to one; its error is
    cut to 1024 characters; and nothing is lost: only the commit of a cleanup removes the row, one that read
    it when it was sent or dead and past its retention.  Where no row was changed between the SELECT and the
    COMMIT of another transaction on it, the row accounts for its delivery: one not yet tried has no
    attempts and no error; one that failed has fewer attempts than the limit, the error, and a time to
    retry computed from its attempts; one that is dead has used up its attempts and will not be
    retried; one that is sent has a 2xx answer and a POST behind it; a lease has an owner and a time, on an
    unsettled row only; and what happens next adds at most one attempt. *)
Theorem outbox_ledger (p : RetryPolicy) (v : vault) (hs : list happening) (i : string) (d : WebhookDelivery) :
  let ob := history p v hs in
  dict_get i (ob_rows ob) = Some d ->
  (dl_id d = i /\ emitted v hs d /\ entry_ok ob d /\
   forall h, match dict_get i (ob_rows (happen p v h ob)) with
             | Some d' => letter d' = letter d
             | None => exists k, h = OnSwept k /\ seen_expired p v hs i
             end) /\
  (undisturbed p v empty_outbox hs = true ->
   row_ok p ob d /\
   forall h d', undisturbed p v ob [h] = true -> dict_get i (ob_rows (happen p v h ob)) = Some d' ->
     dl_attempts d <= dl_attempts d' <= dl_attempts d + 1).
Proof.
  intros ob Hd. assert (Hw : well p ob) by apply history_well. pose proof (history_sourced p v hs) as Hsrc. fold ob in Hsrc.
  split; [split; [by apply (w_rows _ _ Hw) |]; split; [by eapply sr_rows |]; split; [by eapply (lg_rows _ (history_ledger p v hs)) |] |].
  - intros h. pose proof (happen_row p v h ob i Hw) as Hm. rewrite Hd in Hm. apply move_keeps in Hm.
    destruct (dict_get i (ob_rows (happen p v h ob))); [done |]. destruct Hm as (k & ids & -> & Hk & Hi). exists k. split; [done |].
    by eapply (sr_sweeps _ _ _ _ Hsrc).
  - intros Hu. pose proof (history_rows p v hs Hu i d Hd) as Hok. split; [exact Hok |]. intros h d' Hc Hd'. cbn [undisturbed] in Hc.
    rewrite andb_true_r in Hc. pose proof (happen_row p v h ob i Hw) as Hm. rewrite Hd, Hd' in Hm.
    by eapply (row_move_ok p v hs h ob i d d').
Qed.

(** ** A hook at work *)
Module Runs.
Definition sec : Z := 1000000.
Definition shipped : RetryPolicy := mkRetryPolicy 5 (2 * sec) (300 * sec) (30 * sec) false.
Definition keys_open : vault := Some (fun _ => Some "s3cret").
Definition on_failure : HookCreate :=
  mkHookCreate "https://hooks.example.com/in" ["command.failed"] None None (Some "s3cret") true.
Definition web : resolver := fun _ => Some ["93.184.216.34"].
Definition rebound : resolver := fun _ => Some ["93.184.216.34"; "169.254.169.254"].
Definition hook : EventHook :=
  mkHook "h1" "https://hooks.example.com/in" ["command.failed"] None None (Some "sealed") true true.
Definition hooks : dict EventHook := [("h1", hook)].
Example hook_created : create_event_hook 50 web (Some (fun _ => "sealed")) "h1" on_failure [] = (Ok hook, hooks).
Proof. by_eval. Qed.
Definition failure : Event :=
  mkEvent "command.failed" "s1" "db" 22 "root" "make" (Some 2) (Some "0.31") (Some "token=abc") None "" None.
Definition drawn (i : string) : Draws := mkDraws "e1" "2025-01-01T00:00:00Z" "1735689600" "x1" i 0.
Definition emission (i : string) : happening := OnEmit hooks [drawn i] failure.
Definition sending (tid : nat) : happening := OnSend tid web "no route" 0.
(** A claim, the [k]-th, whose commit follows at once; and the record of an answer *)
Definition select (t : Z) : happening := OnSelect "gw" (t * sec) ["d1"].
Definition claim (k : nat) (t : Z) : list happening := [select t; OnClaim k true].
Definition record (tid : nat) (t : Z) : list happening := [OnRecord tid (t * sec) sec; OnCommit tid "stale"].
Definition answer (tid : nat) (t code : Z) : list happening := OnAnswer tid (Status code) :: record tid t.
Abbreviation run := (history shipped keys_open).
Definition one_post : list happening := emission "d1" :: claim 0 3 ++ [sending 0].

Example payload_sent : map po_data (ob_posts (run one_post)) =
  [json_text (VDict [("event", VStr "command.failed"); ("event_id", VStr "e1"); ("event_version", VInt 1);
     ("timestamp", VStr "2025-01-01T00:00:00Z"); ("session_id", VStr "s1"); ("command", VStr "make");
     ("host", VStr "db"); ("port", VInt 22); ("username", VStr "root"); ("exit_code", VInt 2);
     ("duration", VFloat "0.31"); ("stdout", VStr "token=[REDACTED]"); ("output_truncated", VBool false)])].
Proof. by_eval. Qed.

Lemma hook_destination_witness :
  match ob_posts (run one_post) with
  | [x] => unblocked (a_ip (po_address x)) /\ named_by one_post (dl_url (po_delivery x)) (po_address x)
  | _ => False
  end /\ ob_posts (run (emission "d1" :: claim 0 3 ++ [OnSend 0 rebound "no route" 0])) = [] /\
  exists host, url_hostname (hc_url on_failure) = Ok (Some host) /\
    match ip_object host with
    | Some a => unblocked (a_ip a)
    | None => exists infos, web host = Some infos /\ infos <> [] /\
                forall raw, In raw infos -> exists a, ip_object raw = Some a /\ unblocked (a_ip a)
    end.
Proof.
  split; [| split; [by_eval |]].
  - assert (E : exists x, ob_posts (run one_post) = [x]) by (eexists; by_eval). destruct E as [x E]. rewrite E.
    apply (hook_destination shipped keys_open). rewrite E. by left.
  - destruct (proj2 (hook_destination shipped keys_open) 50 web (Some (fun _ => "sealed")) "h1" on_failure []
      hook hooks hook_created) as (_ & host & Hu & H). by exists host.
Defined.
Lemma the_emission hooks draws e hooks' draws' e' a b c k n tid dns os pk :
  In (OnEmit hooks draws e) [OnEmit hooks' draws' e'; OnSelect a b c; OnClaim k n; OnSend tid dns os pk] ->
  hooks = hooks' /\ draws = draws' /\ e = e'.
Proof. intros [H | [H | [H | [H | []]]]]; try discriminate H. by injection H as -> -> ->. Qed.
Lemma posts_signed_witness :
  match ob_posts (run one_post) with
  | [x] => exists d, po_data x = event_payload hook d failure /\
      dict_get "X-Webhook-Signature" (po_headers x) =
        Some ("sha256=" +s+ hex_text (hmac_sha256 (bytes_of "s3cret") (bytes_of (dr_unix d +s+ "." +s+ po_data x))))
  | _ => False
  end.
Proof.
  assert (E : exists x, ob_posts (run one_post) = [x]) by (eexists; by_eval). destruct E as [x E]. rewrite E.
  destruct (posts_signed shipped keys_open one_post x) as (hs & draws & e & h & d & Hin & Hh & _ & _ & Hp & _ & Hsig);
    [rewrite E; by left |].
  apply the_emission in Hin as (-> & -> & ->). destruct Hh as [<- | []]. exists d. split; [exact Hp | by apply Hsig].
Defined.
Definition after_500 : list happening := one_post ++ answer 0 4 500.
Lemma after_500_undisturbed : undisturbed shipped keys_open empty_outbox after_500 = true.
Proof. by_eval. Qed.
Lemma outbox_ledger_witness :
  exists d, dict_get "d1" (ob_rows (run after_500)) = Some d /\ dl_status d = Failed /\ dl_attempts d = 1 /\
    emitted keys_open after_500 d /\ row_ok shipped (run after_500) d.
Proof.
  assert (E : exists d, dict_get "d1" (ob_rows (run after_500)) = Some d /\ dl_status d = Failed /\ dl_attempts d = 1)
    by (eexists; split; [by_eval | by split]).
  destruct E as (d & E & Hs & Ha). exists d. split; [exact E |]. split; [exact Hs |]. split; [exact Ha |].
  destruct (outbox_ledger shipped keys_open after_500 "d1" d E) as [(_ & He & _) H].
  split; [exact He | exact (proj1 (H after_500_undisturbed))].
Defined.

(** ** Where the code does less than it says *)
(** A database that returns times with their zone, as PostgreSQL does for the columns of the
    table, makes every claim raise: nothing is ever delivered. *)
Lemma aware_database_delivers_nothing (p : RetryPolicy) (v : vault) (hs : list happening) :
  aware p = true -> ob_posts (history p v hs) = [].
Proof.
  intros Ha.
  pose (quiet := fun ob => ob_tasks ob = [] /\ ob_posts ob = [] /\ (forall k cl, ob_claims ob !! k = Some cl -> cl = []) /\
    forall i d, dict_get i (ob_rows ob) = Some d -> dl_status d = Pending /\ dl_leased_by d = None).
  enough (H : quiet (history p v hs)) by apply H.
  apply (history_ind p v (fun _ => quiet)); [done |]. clear hs. intros _ h ob _ Hw (Ht & Hp & Hc & Hr). split_and!.
  - destruct h; cbn [happen]; rewrite ?Ht; try done; try by repeat case_goal.
    destruct (ob_claims ob !! k) as [cl|] eqn:Hk; [| done]. rewrite (Hc _ _ Hk). unfold commit_claim. cbn.
    rewrite andb_false_r. cbn. by rewrite Ht.
  - destruct (happen_posts p v h ob) as [-> | (? & ? & ? & ? & ? & ? & _ & Hk & _)]; [done | by rewrite Ht in Hk].
  - intros k cl Hk. destruct (happen_claims p v h ob k cl Hw Hk) as [H | [H | (me & now & ids & -> & _ & H)]]; [eauto | done |].
    destruct cl as [|c cl]; [done |]. apply Forall_cons in H as [(Hrow & Hcl & _) _]. destruct (Hr _ _ Hrow) as [Hst Hl].
    unfold claimable, leased_elsewhere, with_time in Hcl. rewrite Hl, Hst, Ha in Hcl. done.
  - intros i d Hd. pose proof (happen_row p v h ob i Hw) as Hm. rewrite Hd in Hm.
    inversion Hm as [? H1 H2 | ? ? ? ? Hh Hmk H0 H1 H2 | ? ? cl ? ? Hh Hk Hin | ? ? ? ? ? ? ? Hh Hk |]; subst.
    + by apply (Hr i).
    + destruct Hmk as (? & ? & _ & ->). done.
    + by rewrite (Hc _ _ Hk) in Hin.
    + by rewrite Ht in Hk.
Qed.
(** The instance that holds a lease claims the delivery again at its next poll, while its own
    POST is still out: the receiver gets it twice. *)
Definition twice : list happening := one_post ++ claim 1 8 ++ [sending 1].
Example posted_twice : List.length (ob_posts (run twice)) = 2%nat.
Proof. by_eval. Qed.
(** A late failure of such a duplicate takes a delivery back from sent, and it is sent again. *)
Example sent_then_failed :
  option_map dl_status (dict_get "d1" (ob_rows (run (twice ++ answer 0 9 200 ++ answer 1 10 503)))) = Some Failed.
Proof. by_eval. Qed.
(** Two failures that overlap count as one attempt. *)
Example attempt_lost :
  option_map (fun d => (dl_status d, dl_attempts d)) (dict_get "d1" (ob_rows (run (twice ++
    [OnAnswer 0 (Status 500); OnAnswer 1 (Status 500); OnRecord 0 (9 * sec) sec; OnRecord 1 (9 * sec) sec;
     OnCommit 0 "stale"; OnCommit 1 "stale"])))) = Some (Failed, 1).
Proof. by_eval. Qed.
(** An instance whose claim read the row, its lease run out, before the row was sent leases it afterwards, and
    the delivery goes out again. *)
Definition stale_claim : list happening := one_post ++ [OnSelect "gw2" (40 * sec) ["d1"]] ++ answer 0 41 200 ++ [OnClaim 1 true; sending 1].
Example settled_row_leased :
  option_map (fun d => (dl_status d, dl_leased_by d)) (dict_get "d1" (ob_rows (run stale_claim))) = Some (Sent, Some "gw2") /\
  List.length (ob_posts (run stale_claim)) = 2%nat.
Proof. split; by_eval. Qed.
(** An answer called non-retryable is retried all the same. *)
Example not_found_retried :
  option_map (fun d => (dl_status d, dl_next_retry_at d, dl_last_error d))
    (dict_get "d1" (ob_rows (run (one_post ++ answer 0 4 404)))) =
  Some (Failed, Some (8 * sec), Some "HTTP 404 (non-retryable)").
Proof. by_eval. Qed.
(** Twenty rows that wait for their retry may fill the page of a claim, which comes back empty
    while a twenty-first is due. *)
Definition waiting_row (i : string) (retry : Z) : string * WebhookDelivery :=
  (i, mkDelivery i "e1" "h1" "command.failed" "https://hooks.example.com/in" "{}" None Failed 1 (Some retry) (Some "HTTP 503")
        None None None 0 0).
Definition twenty : list string := map (fun n => "w" +s+ nat_str n) (seq 0 20).
Definition crowded : dict WebhookDelivery := map (fun i => waiting_row i (900 * sec)) twenty ++ [waiting_row "due" 0].
Example due_row_blocked : selected twenty crowded = true /\
  claim_deliveries shipped "gw" (60 * sec) twenty crowded = Ok [].
Proof. split; by_eval. Qed.
(** Addresses that are let through: the metadata address in its IPv4-mapped form, the
    unspecified address, and the private networks of IPv6. *)
Example not_blocked : map validate_destination_ip ["::ffff:169.254.169.254"; "0.0.0.0"; "fd00::1"] = [None; None; None].
Proof. by_eval. Qed.
(** Without a secret manager the secret of a hook is dropped, and its deliveries are unsigned. *)
Example secret_dropped :
  match create_event_hook 50 web None "h1" on_failure [] with (Ok h, _) => hk_secret_encrypted h | _ => Some "" end = None.
Proof. by_eval. Qed.
End Runs.
