(* ===== verification/JobSpec.v ===== *)
(** * What the job manager promises

    A history interleaves the manager's methods, the steps of its tasks and what everybody
    else does to the Redis server ([DurableSpec.call]). *)
From stdpp Require Import gmap pretty.
From S2P Require Import Prelude PyStr Digests Redis DurableJobs DurableFacts DurableSpec.
From S2P Require Import RecoverySpec Jobs.
From stdpp Require Import options.

Section JobSpec.
Context {R : Redis} {J : JsonCodec}.
Variable cf : config.

Inductive jstep : Type :=
| SCreate (net1 net2 : fate) (net3 : nat -> fate) (session command owner : string) (redact : option string)
    (stdin : string) (timeout : option Z) (key : option string) (new_id : string) (now : Z)
| SRecover (net : nat -> fate) (now : Z)
| SCancel (net : fate) (job : string) (now : Z)
| SCleanup (now : Z)
| SStart (net : fate) (token : string) (now : Z) (ref : nat)
| SCheck (net : fate) (now : Z) (ref : nat)
| SAbort (net : nat -> fate) (now : Z) (ref : nat)
| SPolicy (policy : string -> bool * string) (now : Z) (ref : nat)
| SChunk (c : chunk) (ref : nat)
| SEnd (raised : option string) (ref : nat)
| SLeave (net : nat -> fate) (now : Z) (ref : nat)
| SBeat (net1 net2 : fate) (now : Z) (ref : nat)
| STaskCancel (ref : nat)
| SWorld (c : call).
Definition jrun (st : jstep) (s : JobManager * db) : JobManager * db :=
  match st with
  | SCreate n1 n2 n3 session command owner redact stdin timeout key new_id now =>
      snd (create_job cf n1 n2 n3 session command owner redact stdin timeout key new_id now s)
  | SRecover net now => snd (_recover_durable_jobs cf net now s)
  | SCancel net job now => snd (cancel_job cf net job now s)
  | SCleanup now => (cleanup_old_jobs now (fst s), snd s)
  | SStart net token now ref => run_start cf net token now ref s
  | SCheck net now ref => run_check net now ref s
  | SAbort net now ref => run_abort net now ref s
  | SPolicy policy now ref => (run_policy policy now ref (fst s), snd s)
  | SChunk c ref => (run_chunk c ref (fst s), snd s)
  | SEnd raised ref => (run_ended raised ref (fst s), snd s)
  | SLeave net now ref => run_leave cf net now ref s
  | SBeat n1 n2 now ref => run_beat n1 n2 now ref s
  | STaskCancel ref => (run_cancelled ref (fst s), snd s)
  | SWorld c => (fst s, snd (run c (snd s)))
  end.
Definition jrun_all (l : list jstep) (s : JobManager * db) : JobManager * db :=
  fold_left (fun s st => jrun st s) l s.
(** New jobs get new ids; a job is cleaned up (an hour after its completion) when its task has
    ended; a task is only cancelled once it has started. *)
Definition ordinary (st : jstep) (m : JobManager) : Prop :=
  match st with
  | SCreate _ _ _ _ _ _ _ _ _ _ new_id _ => _jobs m !! new_id = None
  | SCleanup now => forall ref c, cells m !! ref = Some c -> removable now m ref = true -> live c = false
  | STaskCancel ref => forall c, cells m !! ref = Some c -> c_phase c <> New
  | _ => True
  end.
Fixpoint ordinary_all (l : list jstep) (s : JobManager * db) : Prop :=
  match l with [] => True | st :: r => ordinary st (fst s) /\ ordinary_all r (jrun st s) end.

(** ** Leases *)
Lemma reserve_created connected net key job owner payload envelope now d id d' :
  reserve_submission_with_job connected net key job owner payload envelope now d = (inr (id, true), d') ->
  id = job.
Proof.
  unfold reserve_submission_with_job. destruct connected; [| done]. cbn [negb]. generalize 3%nat as n. intros n.
  generalize 0%nat as i. intros i. revert i d. induction n as [|n IH]; intros i d H; [done |]. cbn [reserve_attempts] in H.
  destruct (eval (net i) _ d) as [[[| | |[v|]]|] d1]; try done; try (by apply (IH (S i) d1)); [congruence |].
  destruct (String.eqb _ ""); [by apply (IH (S i) d1) | done].
Qed.
Lemma create_sound n1 n2 n3 session command owner redact stdin timeout key new_id now m d :
  sound m -> _jobs m !! new_id = None ->
  sound (fst (snd (create_job cf n1 n2 n3 session command owner redact stdin timeout key new_id now (m, d)))).
Proof.
  intros Hm Hf. unfold create_job. cbv zeta.
  destruct (match keyed key with Some _ => _ | None => _ end) as [e | [ex|]]; [done.. |].
  destruct (cf_max_jobs cf <=? active_jobs m)%Z.
  { by destruct (match keyed key with Some _ => _ | None => _ end) as [e | [ex|]]. }
  destruct (acquire_operation_lease session m) as [m1|] eqn:Ea; [| done].
  destruct (keyed key) as [k|].
  - destruct (reserve_submission_with_job _ _ _ _ _ _ _ _ _) as [[e | [id []]] d1] eqn:Er; simpl.
    + by rewrite (acquire_release m).
    + apply reserve_created in Er as ->. by apply (sound_register m).
    + by rewrite (acquire_release m).
  - by apply (sound_register m).
Qed.
Lemma recover_job_sound envelope now m : sound m -> sound (snd (recover_job envelope now m)).
Proof.
  intros Hm. unfold recover_job. destruct (envelope_job envelope) as [j|]; [| done].
  destruct (executable envelope now) as [[]|]; [| done..].
  destruct (_jobs m !! j_id j) eqn:Ej; [done |].
  destruct (acquire_operation_lease (j_session j) m) as [m1|] eqn:Ea; [| done].
  by apply (sound_register m).
Qed.
Lemma recover_all_sound net i now ids n m d : sound m ->
  sound (fst (snd (recover_all cf net i now ids n (m, d)))).
Proof.
  revert i n m. induction ids as [|id ids IH]; intros i n m Hm; [done |]. cbn [recover_all].
  destruct (recover_durable_job _ _ id d) as [env|]; [| by apply IH].
  pose proof (recover_job_sound env now m Hm) as H.
  destruct (recover_job env now m) as [[e | [id'|]] m']; [done | by apply IH..].
Qed.
Lemma startup_sound net now m d : sound m -> sound (fst (snd (_recover_durable_jobs cf net now (m, d)))).
Proof.
  intros Hm. unfold _recover_durable_jobs. destruct (negb _); [done |].
  destruct (reconcile_expired_cancelled_processing _ _ _ d) as [l d1].
  destruct (list_recoverable_durable_jobs _ _ _ _ d1) as [ids d2]. by apply recover_all_sound.
Qed.
Lemma cancel_sound net job now m d : sound m -> sound (fst (snd (cancel_job cf net job now (m, d)))).
Proof.
  intros Hm. unfold cancel_job. destruct (_jobs m !! job) as [ref|]; [| done].
  destruct (job_at m ref) as [j|]; [| done]. destruct (negb (ACTIVE_STATES _)); [done |]. cbv zeta.
  assert (Hl : forall d' : db, sound (fst (snd (if bool_decide (j_status j = pending)
      then (inr "cancelled" : jexn + string,
            (update_job ref (fun j => set_done (Some now) (set_status cancelled (set_cancel j))) m, d'))
      else (inr "cancelling", (update_job ref (fun j => set_status cancelling (set_cancel j)) m, d')))))).
  { intros d'. case_bool_decide; by apply sound_update. }
  destruct (j_durable j); [| apply Hl]. destruct (negb (cf_queue cf)); [done |].
  destruct (request_durable_cancellation _ _ _ _ d) as [[e | st] d']; [done |].
  destruct (bool_decide (st = Some "cancelled")); [by apply sound_update |].
  destruct (bool_decide (st = Some "cancelling")); [apply Hl | done].
Qed.
Lemma cleanup_sound now m : sound m ->
  (forall ref c, cells m !! ref = Some c -> removable now m ref = true -> live c = false) ->
  sound (cleanup_old_jobs now m).
Proof.
  intros Hm Ho. apply sound_forget; [done | apply map_filter_subseteq |].
  intros ref c Hc Hl. apply map_lookup_filter_Some. split; [by apply (sd_live m Hm) |]. simpl.
  destruct (removable now m ref) eqn:E; [| done]. rewrite (Ho ref c Hc E) in Hl. done.
Qed.

(** The steps of a task *)
Ltac at_task m ref Hc :=
  let j := fresh "j" in let p := fresh "p" in let b := fresh "b" in
  destruct (cells m !! ref) as [[j p b]|] eqn:Hc; [| done]; destruct p; try done.
Lemma start_sound net token now ref m d : sound m -> sound (fst (run_start cf net token now ref (m, d))).
Proof.
  intros Hm. unfold run_start. at_task m ref Hc.
  assert (Hend : forall j', j_id j' = j_id j -> j_session j' = j_session j -> sound (end_task ref j' m))
    by (intros; by apply (sound_end m ref _ _ Hm Hc)).
  destruct (negb (bool_decide _)) eqn:Et; [by apply Hend |]. destruct (j_cancel j); [by apply Hend |].
  destruct (worker_durable cf j); [| by apply (sound_move m ref _ _ _ _ Hm Hc)].
  destruct (claim_durable_execution _ _ _ _ _ _ d) as [[e | [|]] d']; simpl.
  - by apply Hend.
  - by apply (sound_move m ref _ _ _ _ Hm Hc).
  - set (j' := set_done (j_completed_at j) j). pose proof (Hend j' eq_refl eq_refl) as He.
    unfold end_task, _release_job_session_lease in *. cbn [set_cell _session_leases] in *.
    assert (Hlease : _session_leases m !! j_id j' = Some (j_session j)).
    { apply (sd_lease m Hm). by exists ref, (mkCell j New b). }
    rewrite Hlease in *. apply (sound_forget _ (delete (j_id j) (_jobs m)) He).
    + apply delete_subseteq.
    + intros r c Hr Hl. rewrite lookup_delete_ne; [by apply (sd_live _ He) |].
      intros Hid. cbn [cells release_operation_lease _jobs _session_leases operations set_cell] in Hr.
      destruct (decide (r = ref)) as [-> | Hne].
      * rewrite list_lookup_insert_eq in Hr by (by eapply lookup_lt_Some). by injection Hr as <-.
      * rewrite list_lookup_insert_ne in Hr by done. apply Hne.
        by apply (same_id_same_task m r ref c (mkCell j New b)).
Qed.
Lemma check_sound net now ref m d : sound m -> sound (fst (run_check net now ref (m, d))).
Proof.
  intros Hm. unfold run_check. at_task m ref Hc.
  destruct (is_durable_cancellation_requested _ _ _ _ d) as [[|] d']; by apply (sound_move m ref _ _ _ _ Hm Hc).
Qed.
Lemma abort_sound net now ref m d : sound m -> sound (fst (run_abort net now ref (m, d))).
Proof.
  intros Hm. unfold run_abort. at_task m ref Hc.
  destruct (finish_durable_execution _ _ _ _ _ _ d) as [r d']. by apply (sound_end m ref _ _ Hm Hc).
Qed.
Lemma policy_sound policy now ref m : sound m -> sound (run_policy policy now ref m).
Proof.
  intros Hm. unfold run_policy. at_task m ref Hc.
  destruct (policy (j_command j)) as [[|] reason]; by apply (sound_move m ref _ _ _ _ Hm Hc).
Qed.
Lemma take_chunk_same c j : j_id (take_chunk c j) = j_id j /\ j_session (take_chunk c j) = j_session j.
Proof. by destruct c. Qed.
Lemma chunk_sound c ref m : sound m -> sound (run_chunk c ref m).
Proof.
  intros Hm. unfold run_chunk. at_task m ref Hc. destruct (take_chunk_same c j).
  by apply (sound_move m ref _ _ _ _ Hm Hc).
Qed.
Lemma stream_ended_same raised j :
  j_id (stream_ended raised j) = j_id j /\ j_session (stream_ended raised j) = j_session j.
Proof.
  unfold stream_ended, _classify_cancelled_stream_outcome.
  destruct raised, (j_cancel j), (j_exit_code j) as [c|]; try done.
  - by destruct (0 <=? c)%Z, (c =? 0)%Z.
  - by case_bool_decide.
Qed.
Lemma ended_sound raised ref m : sound m -> sound (run_ended raised ref m).
Proof.
  intros Hm. unfold run_ended. at_task m ref Hc. destruct (stream_ended_same raised j).
  by apply (sound_move m ref _ _ _ _ Hm Hc).
Qed.
Lemma leave_sound net now ref m d : sound m -> sound (fst (run_leave cf net now ref (m, d))).
Proof.
  intros Hm. unfold run_leave. at_task m ref Hc.
  destruct (TERMINAL_STATES (j_status j)); [| by apply (sound_end m ref _ _ Hm Hc)].
  destruct token as [token|]; [| by apply (sound_end m ref _ _ Hm Hc)].
  destruct (finish_durable_execution _ _ _ _ _ _ d) as [r d']. by apply (sound_end m ref _ _ Hm Hc).
Qed.
Lemma beat_sound n1 n2 now ref m d : sound m -> sound (fst (run_beat n1 n2 now ref (m, d))).
Proof.
  intros Hm. unfold run_beat. at_task m ref Hc; (destruct token as [token|], b; try done);
    (destruct (heartbeat_durable_execution _ _ _ _ _ _ d) as [[|] d'];
     [destruct (is_durable_cancellation_requested _ _ _ _ d') as [[|] d''] |]);
    by apply (sound_move m ref _ _ _ _ Hm Hc).
Qed.
Lemma task_cancel_sound ref m : sound m -> (forall c, cells m !! ref = Some c -> c_phase c <> New) ->
  sound (run_cancelled ref m).
Proof.
  intros Hm Hn. unfold run_cancelled. at_task m ref Hc.
  - by destruct (Hn _ eq_refl).
  - by apply (sound_end m ref _ _ Hm Hc).
  - by apply (sound_end m ref _ _ Hm Hc).
  - by apply (sound_move m ref _ _ _ _ Hm Hc).
  - by apply (sound_move m ref _ _ _ _ Hm Hc).
  - by apply (sound_end m ref _ _ Hm Hc).
Qed.
Lemma jrun_sound st s : sound (fst s) -> ordinary st (fst s) -> sound (fst (jrun st s)).
Proof.
  destruct s as [m d]. intros Hm Ho. destruct st; cbn [jrun fst snd ordinary] in *.
  - by apply create_sound.
  - by apply startup_sound.
  - by apply cancel_sound.
  - by apply cleanup_sound.
  - by apply start_sound.
  - by apply check_sound.
  - by apply abort_sound.
  - by apply policy_sound.
  - by apply chunk_sound.
  - by apply ended_sound.
  - by apply leave_sound.
  - by apply beat_sound.
  - by apply task_cancel_sound.
  - done.
Qed.

(** Accepted jobs pin their SSH sessions exactly: over every interleaving of submissions,
    recoveries, cancellations, cleanups and the steps of the jobs' tasks, whatever the Redis
    server and the remote commands do, each session counts exactly the jobs on it whose tasks
    have not ended, each of these is in the table under its id and holds one lease, and no
    other lease is held. *)
Theorem leases_balanced l s : sound (fst s) -> ordinary_all l s ->
  let m := fst (jrun_all l s) in
  (forall session n, operations m !! session = Some n -> n = pins session (cells m)) /\
  (forall id session, _session_leases m !! id = Some session <->
     exists ref c, cells m !! ref = Some c /\ live c = true /\ j_id (c_job c) = id /\
       j_session (c_job c) = session) /\
  (forall ref c, cells m !! ref = Some c -> live c = true -> _jobs m !! j_id (c_job c) = Some ref).
Proof.
  intros Hs Ho m. assert (H : sound m).
  { unfold m. clear m. revert s Hs Ho. induction l as [|st l IH]; intros s Hs Ho; [done |].
    destruct Ho as [H1 H2]. apply (IH (jrun st s)); [by apply jrun_sound | done]. }
  split; [apply (sd_count m H) |]. split; [apply (sd_lease m H) | apply (sd_live m H)].
Qed.

(** ** Admission *)

(** [create_job] admits or leaves no trace: a submission that is refused, or answered with
    the job an earlier one made, leaves the manager exactly as it was (the session it pinned
    on the way is released); one that is admitted found fewer than the maximum of active
    jobs, adds one, pins the session once more, and registers the job as it was submitted. *)
Theorem create_job_admits n1 n2 n3 session command owner redact stdin timeout key new_id now m d :
  sound m -> _jobs m !! new_id = None ->
  let '(r, (m', d')) := create_job cf n1 n2 n3 session command owner redact stdin timeout key new_id now (m, d) in
  m' = m \/
  (r = inr new_id /\ (active_jobs m < cf_max_jobs cf)%Z /\ active_jobs m' = (active_jobs m + 1)%Z /\
   (exists n, operations m !! session = Some n /\ operations m' !! session = Some (n + 1)%Z) /\
   exists ref, _jobs m' !! new_id = Some ref /\
     cells m' !! ref = Some (mkCell (new_job new_id session command owner redact stdin
       (match timeout with Some t => t | None => cf_job_timeout cf end)
       (match keyed key with Some _ => true | None => false end) key) New false)).
Proof.
  intros Hm Hf. unfold create_job. cbv zeta.
  destruct (match keyed key with Some _ => _ | None => _ end) as [e | [ex|]]; [by left.. |].
  destruct (cf_max_jobs cf <=? active_jobs m)%Z eqn:Emax.
  { destruct (match keyed key with Some _ => _ | None => _ end) as [e | [ex|]]; by left. }
  apply Z.leb_gt in Emax.
  destruct (acquire_operation_lease session m) as [m1|] eqn:Ea; [| by left].
  assert (Hreg : forall j (d' : db), j_id j = new_id -> j_session j = session -> j_status j = pending ->
    let m' := register j m1 in
    (active_jobs m < cf_max_jobs cf)%Z /\ active_jobs m' = (active_jobs m + 1)%Z /\
    (exists n, operations m !! session = Some n /\ operations m' !! session = Some (n + 1)%Z) /\
    exists ref, _jobs m' !! new_id = Some ref /\ cells m' !! ref = Some (mkCell j New false)).
  { intros j d' Hid Hse Hst m'. split; [done |]. split.
    - apply active_register; [done | by rewrite Hse | by rewrite Hid | by rewrite Hst].
    - unfold acquire_operation_lease in Ea. destruct (operations m !! session) as [n|]; [| done].
      injection Ea as <-. unfold m', register. cbn [_jobs cells operations]. rewrite Hid. split.
      + exists n. split; [done |]. apply lookup_insert_eq.
      + exists (length (cells m)). split; [apply lookup_insert_eq | by apply list_lookup_middle]. }
  destruct (keyed key) as [k|].
  - destruct (reserve_submission_with_job _ _ _ _ _ _ _ _ _) as [[e | [id []]] d1] eqn:Er.
    + left. by apply acquire_release.
    + apply reserve_created in Er as ->. right. split; [done |]. by apply Hreg.
    + left. by apply acquire_release.
  - right. split; [done |]. by apply Hreg.
Qed.

(** ** Restart *)
Lemma envelope_job_same (env env0 : jobj) : (forall k, In k identity_fields -> env !! k = env0 !! k) ->
  envelope_job env = envelope_job env0.
Proof.
  intros H. unfold envelope_job.
  by rewrite (H "job_id"), (H "session_id"), (H "command"), (H "timeout"), (H "submission_key"),
    (H "stdin_b64"), (H "redact_path_prefix"), (H "owner_id") by (simpl; tauto).
Qed.
Lemma envelope_job_new id key session command stdin owner hash timeout now redact :
  strip key = key -> key <> "" ->
  envelope_job (new_envelope id key session command (b64encode stdin) owner hash timeout now redact)
  = Some (new_job id session command owner redact stdin timeout true (Some key)).
Proof.
  intros Hs Hk. unfold envelope_job. set (env := new_envelope _ _ _ _ _ _ _ _ _ _).
  assert (env !! "job_id" = Some (VStr id)) as -> by reflexivity.
  assert (env !! "session_id" = Some (VStr session)) as -> by reflexivity.
  assert (env !! "command" = Some (VStr command)) as -> by reflexivity.
  assert (env !! "timeout" = Some (VNum timeout)) as -> by reflexivity.
  assert (env !! "submission_key" = Some (VStr key)) as -> by reflexivity.
  assert (env !! "stdin_b64" = Some (VStr (b64encode stdin))) as -> by reflexivity.
  assert (env !! "owner_id" = Some (VStr owner)) as -> by reflexivity.
  assert (env !! "redact_path_prefix" = Some (match redact with Some p => VStr p | None => VNull end)) as ->
    by reflexivity.
  cbn [int_or text_or py_text]. rewrite Hs, b64_round_trip. apply String.eqb_neq in Hk. rewrite Hk.
  by destruct redact.
Qed.
Lemma is_str_text v s : is_str v s = true -> text_or v "" = s.
Proof. unfold is_str. destruct v as [[| | |t]|]; try done. by intros ->%String.eqb_eq. Qed.
Lemma text_not v : is_str v "pending" = false -> is_str v "processing" = false ->
  terminal v = true -> (text_or v "" =? "pending") = false /\ (text_or v "" =? "processing") = false.
Proof. unfold is_str, terminal. by destruct v as [[| | |t]|]. Qed.
(** A stored envelope never makes recovery fail. *)
Lemma executable_total d job env now : books d -> view d job = Some env ->
  executable env now <> None /\
  (executable env now = Some true -> env !! "job_id" = Some (VStr job)).
Proof.
  intros Hb Hv. destruct (books_view d job env Hb Hv) as (_ & [Hst Hid] & Hf). unfold executable.
  destruct (is_str (env !! "status") "pending") eqn:Ep.
  { rewrite (is_str_text _ _ Ep). split; [done |]. intros _. apply Hid, pending_only, Ep. }
  destruct (is_str (env !! "status") "processing") eqn:Er.
  { rewrite (is_str_text _ _ Er). cbn [String.eqb Ascii.eqb Bool.eqb].
    destruct (Hf Er) as (s & n & _ & _ & Hn & _). rewrite Hn.
    split; [by destruct (py_truth _) |]. intros _. by apply Hid, processing_not_terminal. }
  destruct Hst as [Hd | [Hp | Hp]]; [| congruence..].
  destruct (text_not _ Ep Er Hd) as [-> ->]. done.
Qed.

(** Once registered, a job stays as it is while others are recovered. *)
Definition registered (j : JobRecord) (m : JobManager) : Prop :=
  exists ref, _jobs m !! j_id j = Some ref /\ cells m !! ref = Some (mkCell j New false).
Lemma recover_job_registered env now m j : registered j m -> registered j (snd (recover_job env now m)).
Proof.
  intros (ref & H1 & H2). unfold recover_job. destruct (envelope_job env) as [j'|]; [| by exists ref].
  destruct (executable env now) as [[]|]; [| by exists ref..].
  destruct (_jobs m !! j_id j') eqn:E; [by exists ref |].
  unfold acquire_operation_lease. destruct (operations m !! _); [| by exists ref]. simpl.
  exists ref. simpl. split; [by rewrite lookup_insert_ne by congruence | by apply lookup_app_l_Some].
Qed.
Lemma recover_job_known env now m s : operations m !! s <> None ->
  operations (snd (recover_job env now m)) !! s <> None.
Proof.
  intros H. unfold recover_job. destruct (envelope_job env) as [j'|]; [| done].
  destruct (executable env now) as [[]|]; [| done..]. destruct (_jobs m !! j_id j'); [done |].
  unfold acquire_operation_lease. destruct (operations m !! j_session j') as [n|] eqn:E; [| done]. simpl.
  destruct (decide (s = j_session j')) as [-> | Hne]; [by rewrite lookup_insert_eq | by rewrite lookup_insert_ne].
Qed.
Lemma recover_job_fresh env now m j : _jobs m !! j_id j = None ->
  (forall j', envelope_job env = Some j' -> executable env now = Some true -> j_id j' <> j_id j) ->
  _jobs (snd (recover_job env now m)) !! j_id j = None.
Proof.
  intros H Hne. unfold recover_job. destruct (envelope_job env) as [j'|] eqn:Ej; [| done].
  destruct (executable env now) as [[]|] eqn:Ex; [| done..]. destruct (_jobs m !! j_id j'); [done |].
  unfold acquire_operation_lease. destruct (operations m !! j_session j'); [| done]. simpl.
  rewrite lookup_insert_ne; [done |]. by apply Hne.
Qed.
Lemma recover_job_total env now m : executable env now <> None ->
  exists r, recover_job env now m = (inr r, snd (recover_job env now m)).
Proof.
  intros H. unfold recover_job. destruct (envelope_job env) as [j|]; [| by eexists].
  destruct (executable env now) as [[]|]; [| by eexists | done].
  destruct (_jobs m !! j_id j); [by eexists |].
  destruct (acquire_operation_lease _ m); by eexists.
Qed.
Lemma recover_all_registers now ids d j env : cf_connected cf = true -> books d ->
  view d (j_id j) = Some env -> envelope_job env = Some j -> executable env now = Some true ->
  forall i n m, operations m !! j_session j <> None ->
  (registered j m \/ (_jobs m !! j_id j = None /\ In (j_id j) ids)) ->
  exists k m', recover_all cf (fun _ => Delivered) i now ids n (m, d) = (inr k, (m', d)) /\ registered j m'.
Proof.
  intros Hcon Hb Hv Hj Hx. induction ids as [|id ids IH]; intros i n m Hk Hr.
  { exists n, m. split; [done |]. by destruct Hr as [Hr | [_ []]]. }
  cbn [recover_all]. unfold recover_durable_job. rewrite Hcon. fold (view d id).
  destruct (view d id) as [e|] eqn:Ee.
  2: { apply IH; [done |]. destruct Hr as [Hr | [Hf [He | Hin]]]; [by left | rewrite <- He in Hv; congruence | by right]. }
  destruct (executable_total d id e now Hb Ee) as [Htot Hid].
  destruct (recover_job_total e now m Htot) as [r Hrec].
  assert (Hnext : registered j (snd (recover_job e now m)) \/
    (_jobs (snd (recover_job e now m)) !! j_id j = None /\ In (j_id j) ids)).
  { destruct Hr as [Hr | [Hf Hin]]; [left; by apply recover_job_registered |].
    destruct (decide (id = j_id j)) as [-> | Hne].
    - left. assert (e = env) as -> by congruence. unfold recover_job. rewrite Hj, Hx, Hf.
      unfold acquire_operation_lease. destruct (operations m !! j_session j); [| done]. simpl.
      exists (length (cells m)). simpl. split; [apply lookup_insert_eq | by apply list_lookup_middle].
    - right. split; [| by destruct Hin]. apply recover_job_fresh; [done |]. intros j' Hj' Hx'.
      specialize (Hid Hx'). unfold envelope_job in Hj'. rewrite Hid in Hj'.
      destruct (e !! "session_id"), (e !! "command"), (int_or (e !! "timeout") 3600); try done.
      by injection Hj' as <-. }
  rewrite Hrec. apply recover_job_known with (env := e) (now := now) in Hk.
  destruct r as [x|]; by apply IH.
Qed.

(** What an accepted keyed submission did *)
Lemma create_registered n1 n2 n3 session command owner redact stdin timeout k new_id now m d m1 d1 :
  keyed (Some k) = Some k -> _jobs m !! new_id = None ->
  create_job cf n1 n2 n3 session command owner redact stdin timeout (Some k) new_id now (m, d)
  = (inr new_id, (m1, d1)) -> _jobs m1 !! new_id <> None ->
  let t := match timeout with Some t => t | None => cf_job_timeout cf end in
  let hash := _submission_payload_hash session command stdin t in
  cf_queue cf = true /\ cf_connected cf = true /\
  reserve_submission_with_job true n3 k new_id owner hash
    (new_envelope new_id k session command (b64encode stdin) owner hash t now redact) now d
  = (inr (new_id, true), d1).
Proof.
  intros Hk Hf Hc Hin t hash. unfold create_job in Hc. cbv zeta in Hc. rewrite Hk in Hc.
  destruct (cf_queue cf); cbn [negb] in Hc; [| done].
  destruct (find_submission _ n1 _ _ _ _) as [e | [ex|]]; [done | congruence |].
  destruct (cf_max_jobs cf <=? active_jobs m)%Z.
  { destruct (find_submission _ n2 _ _ _ _) as [e | [ex|]]; [done | congruence | done]. }
  unfold acquire_operation_lease in Hc. destruct (operations m !! session); [| done].
  destruct (cf_connected cf) eqn:Econ; [| done].
  fold t in Hc. fold hash in Hc.
  destruct (reserve_submission_with_job _ _ _ _ _ _ _ _ _) as [[e | [id []]] d'] eqn:Er; [done | | ].
  - injection Hc as -> _ ->. done.
  - injection Hc as -> <- ->. by destruct Hin.
Qed.

(** A reconciliation leaves the envelopes it does not decide on. *)
Lemma reconcile_leaves now job env d : view d job = Some env -> reconcile_next now env = None ->
  view (snd (run (Reconcile Delivered now) d)) job = Some env.
Proof.
  intros Hv Hn. apply (run_inv (fun d => view d job = Some env)); [| done]. cbn [steps_keep].
  intros result j d0 H0. pose proof (reconcile_acts now result j d0) as Ha.
  destruct (view d0 j) as [e|] eqn:Ej; [| by destruct Ha as [-> _]].
  apply ended_view in Ha as (Ho & Hj & _); [| done]. destruct (decide (job = j)) as [<- | Hne].
  - rewrite H0 in Ej. injection Ej as <-. by rewrite Hj, Hn.
  - by rewrite Ho.
Qed.
Lemma executable_now now env : is_str (env !! "status") "pending" = true \/ (orphaned now env /\
  (exists n, env !! "lease_expiry" = Some (VNum n)) /\ py_truth (env !! "cancel_requested") = false) ->
  executable env now = Some true.
Proof.
  unfold executable. intros [H | ((Hp & _ & Hl) & (n & Hn) & Hc)].
  - by rewrite (is_str_text _ _ H).
  - rewrite (is_str_text _ _ Hp), Hc, Hn. cbn [String.eqb Ascii.eqb Bool.eqb].
    unfold lease_live in Hl. rewrite Hn in Hl. injection Hl as Hl. f_equal. lia.
Qed.
Lemma untrue_untrue v : truthy v = false -> py_truth v = false.
Proof. by destruct v as [[| [] | |]|]. Qed.

(** C21: A durable job survives a restart: once [create_job] accepted it under a key, and for as
    long as the server keeps its envelope and its claim, if nobody runs it (it is pending, or
    its worker's lease is over and no cancellation was asked), then a gateway that starts on
    the same server with the session restored puts it in its table with the session, command,
    input, owner, timeout and path prefix that were submitted, and its task, once it runs, is
    given the execution. *)
Theorem restart_resumes n1 n2 n3 session command owner redact stdin timeout k new_id now0 m d m1 d1
    cs env now mB token :
  books d -> claims d -> strip k = k -> k <> "" -> _jobs m !! new_id = None ->
  create_job cf n1 n2 n3 session command owner redact stdin timeout (Some k) new_id now0 (m, d)
  = (inr new_id, (m1, d1)) -> _jobs m1 !! new_id <> None ->
  Forall proper cs -> forallb (fresh_for new_id) cs = true -> kept (_submission_storage_key k) cs d1 ->
  view (run_all cs d1) new_id = Some env ->
  is_str (env !! "status") "pending" = true \/ orphaned now env ->
  _jobs mB !! new_id = None -> operations mB !! session <> None ->
  let j := new_job new_id session command owner redact stdin
             (match timeout with Some t => t | None => cf_job_timeout cf end) true (Some k) in
  exists n mC dC ref,
    _recover_durable_jobs cf (fun _ => Delivered) now (mB, run_all cs d1) = (inr n, (mC, dC)) /\
    _jobs mC !! new_id = Some ref /\ cells mC !! ref = Some (mkCell j New false) /\
    cells (fst (run_start cf Delivered token now ref (mC, dC))) !! ref
    = Some (mkCell j (Claimed token) false).
Proof.
  intros Hb Hcl Hstrip Hk Hf Hcreate Hreg Hp Hfresh Hkept Hv Hst HmB HsB j.
  assert (Hkeyed : keyed (Some k) = Some k) by (unfold keyed; apply String.eqb_neq in Hk; by rewrite Hk).
  destruct (create_registered _ _ _ _ _ _ _ _ _ _ _ _ _ _ _ _ Hkeyed Hf Hcreate Hreg) as (Hq & Hcon & Hres).
  set (t := match timeout with Some t => t | None => _ end) in *.
  set (hash := _submission_payload_hash session command stdin t) in *.
  set (e0 := new_envelope new_id k session command (b64encode stdin) owner hash t now0 redact) in *.
  set (first := Submit n3 k new_id owner hash e0 now0).
  assert (Hd1 : snd (run first d) = d1) by (unfold first; cbn [run snd]; by rewrite Hres).
  assert (Hproper : proper first) by (by exists session, command, (b64encode stdin), t, now0, redact).
  destruct (submit_won n3 0 3 k new_id owner hash e0 now0 d d1 Hres) as [Hclaim Henv].
  assert (Hb2 : books (run_all cs d1)).
  { apply all_books; [done |]. rewrite <- Hd1. by apply step_books. }
  (* the fields submitted are still there *)
  assert (Hsame : forall f, In f identity_fields -> env !! f = e0 !! f).
  { apply (identity_kept cs new_id e0 d1 Hfresh); [| done]. intros e He. unfold view in He.
    rewrite Henv, loads_dumps in He. by injection He as <-. }
  assert (Hjob : envelope_job env = Some j)
    by (rewrite (envelope_job_same env e0 Hsame); by apply envelope_job_new).
  (* reconciliation passes it by *)
  set (d3 := snd (run (Reconcile Delivered now) (run_all cs d1))).
  assert (Hv3 : view d3 new_id = Some env).
  { apply reconcile_leaves; [done |]. unfold reconcile_next. destruct Hst as [Hpe | (_ & Hca & _)].
    - by rewrite (proj2 (pending_only env Hpe)).
    - by rewrite Hca, andb_false_r. }
  assert (Hd3 : d3 = run_all (first :: cs ++ [Reconcile Delivered now]) d).
  { change (run_all (first :: cs ++ [Reconcile Delivered now]) d)
      with (run_all (cs ++ [Reconcile Delivered now]) (snd (run first d))).
    rewrite Hd1. unfold d3, run_all. by rewrite fold_left_app. }
  assert (Hp3 : Forall proper (first :: cs ++ [Reconcile Delivered now])).
  { constructor; [done |]. apply Forall_app. by split; [| repeat constructor]. }
  assert (Hb3 : books d3) by (rewrite Hd3; by apply all_books).
  assert (Hclaim3 : GET d3 (_submission_storage_key k) = Some (dumps (claim_object new_id owner hash now0))).
  { pose proof (kept_same k cs d1 _ Hkept Hclaim) as Hk2. unfold d3.
    apply (run_key (Reconcile Delivered now) _ (fun v => v = Some (dumps (claim_object new_id owner hash now0))));
      [by apply prefix_foreign | done | done]. }
  (* the scan finds it and its claim succeeds *)
  destruct (recovery_scan (first :: cs ++ [Reconcile Delivered now]) d new_id env now token
    DURABLE_LEASE_TTL_SECONDS Hp3 Hb Hcl) as (Hin & Hrun & _).
  { by rewrite <- Hd3. }
  { done. }
  { destruct Hst as [Hpe | Ho]; [right | by left]. split; [done |].
    exists k, (dumps (claim_object new_id owner hash now0)). rewrite <- Hd3. split; [done |].
    exists (claim_object new_id owner hash now0). split; [apply loads_dumps | done]. }
  rewrite <- Hd3 in Hin, Hrun.
  assert (Hexec : executable env now = Some true).
  { apply executable_now. destruct Hst as [Hpe | Ho]; [by left | right]. split; [done |].
    destruct (books_view d3 new_id env Hb3 Hv3) as (_ & _ & Hfi). destruct Ho as (Hpr & Hca & _).
    destruct (Hfi Hpr) as (x & n & _ & _ & Hn & _). split; [by exists n | by apply untrue_untrue]. }
  rewrite list_recoverable_eq in Hin. cbn [fst] in Hin.
  destruct (recover_all_registers now _ d3 j env Hcon Hb3 Hv3 Hjob Hexec 0 0 mB HsB
    (or_intror (conj HmB Hin))) as (n & mC & Hrec & ref & Hr1 & Hr2).
  exists n, mC, d3, ref. split; [| split; [done | split; [done |]]].
  - unfold _recover_durable_jobs. rewrite Hq, Hcon. cbn [andb negb].
    unfold d3 in *. cbn [run snd] in *.
    destruct (reconcile_expired_cancelled_processing true Delivered now (run_all cs d1)) as [l d3']. simpl in *.
    rewrite list_recoverable_eq. exact Hrec.
  - unfold run_start. rewrite Hr2. change (j_id j) with new_id in *. rewrite Hr1, bool_decide_eq_true_2 by done.
    unfold worker_durable. rewrite Hq, Hcon. cbn [negb andb j_cancel j_durable j new_job].
    cbn [run] in Hrun. destruct (claim_durable_execution _ _ _ _ _ _ d3) as [[e | b] dC]; [done |].
    simpl in Hrun. subst b. simpl. rewrite list_lookup_insert_eq; [done |]. by eapply lookup_lt_Some.
Qed.

(** ** The outcome of a stream *)
Definition note_size : Z := Z.of_nat (slen truncated_note).
(** Output within the limit, or cut at it with the note *)
Definition within (out : string) : Prop :=
  (Z.of_nat (slen out) <= MAX_STDOUT_SIZE)%Z \/ Z.of_nat (slen out) = (MAX_STDOUT_SIZE + note_size)%Z.
Lemma append_within out data : within out -> within (append_output out data).
Proof.
  intros H. unfold append_output. cbv zeta.
  destruct (0 <? MAX_STDOUT_SIZE - Z.of_nat (slen out))%Z eqn:E; [| done]. apply Z.ltb_lt in E.
  destruct (Z.of_nat (slen data) <=? _)%Z eqn:F; cbn [negb andb].
  - left. apply Z.leb_le in F. rewrite slen_app. lia.
  - apply Z.leb_gt in F.
    assert (Hl : (Z.of_nat (slen (out +s+ take (Z.to_nat (MAX_STDOUT_SIZE - Z.of_nat (slen out))) data))
                  = MAX_STDOUT_SIZE)%Z).
    { rewrite slen_app, slen_take. lia. }
    destruct (contains "[truncated]" _); cbn [negb].
    + left. lia.
    + right. rewrite slen_app. unfold note_size. lia.
Qed.
Definition exit_of (cs : list chunk) : option Z :=
  fold_left (fun code c => match c with CExit n => Some n | _ => code end) cs None.
Definition streamed (cs : list chunk) (j : JobRecord) : JobRecord := fold_left (fun j c => take_chunk c j) cs j.
Lemma streamed_facts cs j : within (j_stdout j) -> within (j_stderr j) ->
  within (j_stdout (streamed cs j)) /\ within (j_stderr (streamed cs j)) /\
  j_cancel (streamed cs j) = j_cancel j /\
  j_exit_code (streamed cs j) = fold_left (fun code c => match c with CExit n => Some n | _ => code end) cs (j_exit_code j).
Proof.
  revert j. induction cs as [|c cs IH]; intros j Ho He; [done |]. cbn [streamed fold_left].
  destruct (IH (take_chunk c j)) as (H1 & H2 & H3 & H4); [by destruct c; simpl; auto using append_within.. |].
  unfold streamed in *. split; [done |]. split; [done |]. rewrite H3, H4. by destruct c.
Qed.

(** The outcome of a job follows the remote exit code: when the stream of a job that has no
    output yet ends, with whatever output, the job is completed exactly when the last exit
    code is zero, ambiguous exactly when it was cancelled and the remote side proved nothing
    (no exit code, or a negative one), and failed otherwise, or when the stream raised; it is
    never called cancelled.  Its outputs stay within ten megabytes and the note on the cut. *)
Theorem stream_outcome cs raised j : j_stdout j = "" -> j_stderr j = "" -> j_exit_code j = None ->
  let j' := stream_ended raised (streamed cs j) in
  let proven := match exit_of cs with Some c => (0 <=? c)%Z | None => false end in
  j_status j' = (match raised with
                 | Some _ => failed
                 | None => if bool_decide (exit_of cs = Some 0%Z) then completed
                           else if j_cancel j && negb proven then ambiguous else failed
                 end) /\
  (Z.of_nat (slen (j_stdout j')) <= MAX_STDOUT_SIZE + note_size)%Z /\
  (Z.of_nat (slen (j_stderr j')) <= MAX_STDOUT_SIZE + note_size)%Z.
Proof.
  intros Ho He Hx j' proven.
  destruct (streamed_facts cs j) as (H1 & H2 & H3 & H4);
    [rewrite Ho; left; done | rewrite He; left; done |].
  rewrite Hx in H4. fold (exit_of cs) in H4.
  assert (Hout : j_stdout j' = j_stdout (streamed cs j) /\ j_stderr j' = j_stderr (streamed cs j)).
  { unfold j', stream_ended, _classify_cancelled_stream_outcome. destruct raised; [done |].
    destruct (j_cancel _), (j_exit_code (streamed cs j)) as [c|]; try done.
    - by destruct (0 <=? c)%Z, (c =? 0)%Z.
    - by case_bool_decide. }
  assert (Hw : forall o, within o -> (Z.of_nat (slen o) <= MAX_STDOUT_SIZE + note_size)%Z).
  { intros o [H | H]; [| lia]. assert (0 <= note_size)%Z by (unfold note_size; lia). lia. }
  destruct Hout as [-> ->]. split; [| split; by apply Hw].
  unfold j', stream_ended, _classify_cancelled_stream_outcome. destruct raised; [done |].
  rewrite H3, H4. unfold proven. destruct (j_cancel j), (exit_of cs) as [c|]; cbn [andb].
  - destruct (0 <=? c)%Z eqn:E0; cbn [negb].
    + destruct (Z.eqb_spec c 0) as [-> | Hc]; [done |]. rewrite bool_decide_eq_false_2 by congruence. done.
    + rewrite bool_decide_eq_false_2; [done |]. intros [= ->]. done.
  - done.
  - by case_bool_decide.
  - done.
Qed.

(** ** Where it goes wrong *)

(** The steps of one task *)
Definition of_task (ref : nat) (st : jstep) : bool :=
  match st with
  | SStart _ _ _ r | SCheck _ _ r | SAbort _ _ r | SPolicy _ _ r | SChunk _ r | SEnd _ r | SLeave _ _ r
  | SBeat _ _ _ r | STaskCancel r => (r =? ref)%nat
  | _ => false
  end.
Lemma ended_stays ref j b s st : cells (fst s) !! ref = Some (mkCell j Ended b) -> of_task ref st = true ->
  jrun st s = s.
Proof.
  destruct s as [m d]. intros Hc Hst. cbn [fst] in Hc.
  destruct st; try done; cbn [of_task] in Hst; apply Nat.eqb_eq in Hst as ->; cbn [jrun fst snd];
    unfold run_start, run_check, run_abort, run_policy, run_chunk, run_ended, run_leave, run_beat, run_cancelled;
    by rewrite Hc.
Qed.
Lemma cancel_running job token now d env : view d job = Some env -> processing_by token env = true ->
  fst (request_durable_cancellation true Delivered job now d) = inr (Some "cancelling").
Proof.
  intros Hv Hp. apply andb_true_iff in Hp as [Hp _].
  assert (Hpe : is_str (env !! "status") "pending" = false).
  { destruct (is_str (env !! "status") "pending") eqn:E; [| done].
    by rewrite (proj2 (pending_only env E)) in Hp. }
  unfold request_durable_cancellation. cbn [negb eval]. unfold _CANCEL_LUA. rewrite lbind_run. unfold lget.
  unfold view in Hv. destruct (GET d (env_key job)) as [raw|]; [| done]. rewrite lbind_run. unfold ldecode.
  rewrite Hv. cbn [lret]. cbv zeta. by rewrite (processing_not_terminal env Hp), Hpe, Hp.
Qed.

(** Three ways a job goes wrong.  A task whose claim cannot reach the server raises and
    ends, and its job stays pending, in the table and never done, for good.  A job whose
    cancellation was answered "cancelled" between the claim of its task and its start is
    started all the same when the task cannot ask the server whether it was cancelled.  A
    transport error the stream yields is not looked at: the job is recorded as failed with no
    exit code, and its message is lost. *)
Theorem job_gaps m d ref j :
  (forall token now b, cells m !! ref = Some (mkCell j New b) -> _jobs m !! j_id j = Some ref ->
     j_cancel j = false -> worker_durable cf j = true ->
     let s := run_start cf Unreachable token now ref (m, d) in
     cells (fst s) !! ref = Some (mkCell j Ended false) /\ _jobs (fst s) !! j_id j = Some ref /\
     forall st, of_task ref st = true -> jrun st s = s) /\
  (forall token now1 now2 b env, cells m !! ref = Some (mkCell j (Claimed token) b) ->
     _jobs m !! j_id j = Some ref -> j_status j = pending -> worker_durable cf j = true ->
     view d (j_id j) = Some env -> processing_by token env = true ->
     let '(answer, s) := cancel_job cf Delivered (j_id j) now1 (m, d) in
     answer = inr "cancelled" /\
     exists j', cells (fst (run_check Unreachable now2 ref s)) !! ref = Some (mkCell j' (Started (Some token)) true) /\
       j_status j' = running /\ j_done j' = true) /\
  (forall msg, j_exit_code j = None -> j_cancel j = false ->
     stream_ended None (streamed [CError msg] j) = set_result None (Some "Exit code: None") (set_status failed j)).
Proof.
  split; [| split].
  - intros token now b Hc Hr Hcan Hw s.
    assert (Hs : s = (end_task ref j m, d)).
    { unfold s, run_start. by rewrite Hc, Hr, bool_decide_eq_true_2, Hcan, Hw by done. }
    assert (Hcell : cells (fst s) !! ref = Some (mkCell j Ended false)).
    { rewrite Hs. unfold end_task, _release_job_session_lease. cbn [set_cell _session_leases fst].
      destruct (_session_leases m !! j_id j); simpl; apply list_lookup_insert_eq; by eapply lookup_lt_Some. }
    split; [done |]. split; [| intros st; by apply (ended_stays ref j false)].
    rewrite Hs. unfold end_task, _release_job_session_lease. cbn [set_cell _session_leases fst].
    by destruct (_session_leases m !! j_id j).
  - intros token now1 now2 b env Hc Hr Hst Hw Hv Hp. unfold worker_durable in Hw.
    apply andb_true_iff in Hw as [[Hdur Hq]%andb_true_iff Hcon].
    unfold cancel_job, job_at. rewrite Hr, Hc. cbn [option_map c_job]. rewrite Hst, Hdur, Hq, Hcon. cbn [ACTIVE_STATES negb].
    pose proof (cancel_running (j_id j) token now1 d env Hv Hp) as Ha.
    destruct (request_durable_cancellation _ _ _ _ d) as [r d'] eqn:Er. simpl in Ha. subst r.
    rewrite (bool_decide_eq_false_2 (Some "cancelling" = Some "cancelled")) by done.
    rewrite (bool_decide_eq_true_2 (Some "cancelling" = Some "cancelling")) by done.
    rewrite (bool_decide_eq_true_2 (pending = pending)) by done. split; [done |].
    unfold run_check. cbn [update_job cells]. rewrite list_lookup_alter_eq, Hc. cbn [option_map fmap option_fmap c_job c_phase c_beating].
    unfold is_durable_cancellation_requested, best_effort. cbn [negb eval].
    eexists. split; [| split].
    + unfold begin, move, set_cell. cbn [fst cells]. apply list_lookup_insert_eq.
      eapply (lookup_lt_Some (cells _)). cbn [update_job cells]. by rewrite list_lookup_alter_eq, Hc.
    + done.
    + done.
  - intros msg Hx Hcan. unfold streamed. simpl. unfold stream_ended. rewrite Hcan, Hx.
    by rewrite bool_decide_eq_false_2.
Qed.
End JobSpec.
