(* ===== verification/Witnesses.v ===== *)
(** * Concrete instances of the properties

    Each lemma applies a property at an input where its hypotheses hold, with the shipped
    registry or the empty scanner, in the environments of [Instances]. *)
From Stdlib Require Import Floats.
From stdpp Require Import gmap.
From S2P Require Import Prelude PyStr Regex RegexParse RegexFacts Shlex PolicyTypes Context.
From S2P Require Import Confidence Packs Registry Prefilter PackSystem PackCloud Gates.
From S2P Require Import Profiles Heredoc AstMatcher Scan World Ask Allowlist.
From S2P Require Import AccessControl ClientIp Agents Engine CommandGate CircuitBreaker Rbac.
From S2P Require Import EngineSpec Instances AskSpec GatesSpec PacksSpec HeredocSpec.
From S2P Require Import AccessSpec FileSystem UnifiedDiff WorkspacePolicy.
From S2P Require Import WorkspaceEdit WorkspaceFacts DiffSpec WorkspaceSpec Snapshots SnapshotSpec.
From stdpp Require Import options.

#[local] Existing Instance ticking.
#[local] Existing Instance bare_host.
#[local] Existing Instance no_json.
#[local] Existing Instance no_python.

(** ** The engine *)
Definition ls_decision (mode reason : string) : CommandPolicyDecision :=
  decision true reason "readonly" mode (Some "ls").

Lemma enforce_sound_witness :
  runs (evaluate_command_policy "{}" "ls -l" "enforce" "readonly" None None None) init_world
    (ls_decision "enforce" "Allowed by readonly profile") (set_tick 1 init_world) /\
  (allowlisted init_world "ls -l" \/
   (no_plain_op METACHAR_DENYLIST QPlain "ls -l" /\
    dangerous_argv (effective_argv "ls -l") = false /\ check_nested_commands "ls -l" = [] /\
    fst (evaluator_of (effective_profile "readonly") "ls -l" (get_command_root "ls -l")) = true)).
Proof.
  assert (Hr : runs (evaluate_command_policy "{}" "ls -l" "enforce" "readonly" None None None)
    init_world (ls_decision "enforce" "Allowed by readonly profile") (set_tick 1 init_world))
    by (vm_compute; reflexivity).
  assert (Hm : effective_mode "{}" "enforce" None = "enforce") by (vm_compute; reflexivity).
  split; [exact Hr |].
  apply (@enforce_sound registry_scanner ticking no_python bare_host no_json "{}" "ls -l" "enforce"
    "readonly" None None None init_world _ _ Hm
    Hr eq_refl).
Defined.

Lemma ask_hard_gates_witness : exists d w',
  runs (evaluate_command_policy "{}" "ls | cat" "ask" "readonly" None None None) init_world d w' /\
  w_store w' = [] /\ d_requires_approval d = false /\
  (d_allowed d = true -> allowlisted init_world "ls | cat").
Proof.
  assert (Hr : runs (evaluate_command_policy "{}" "ls | cat" "ask" "readonly" None None None)
    init_world (blocked "ls | cat" "Metacharacter '|' blocked by blanket denial" "readonly" "ask"
      (Some "ls") false None) (set_tick 1 init_world)) by (vm_compute; reflexivity).
  assert (Hm : effective_mode "{}" "ask" None = "ask") by (vm_compute; reflexivity).
  eexists _, _. split; [exact Hr |].
  apply (@ask_hard_gates registry_scanner ticking no_python bare_host no_json "{}" "ls | cat" "ask"
    "readonly" None None None init_world _ _ Hm
    ltac:(left; vm_compute; discriminate) Hr).
Defined.

Lemma audit_mirrors_enforce_witness : exists d2,
  runs (evaluate_command_policy "{}" "ls -l" "audit" "readonly" None None None) init_world d2
    (set_tick 1 init_world) /\
  d_allowed d2 = true /\
  (d_reason d2 = "Allowed by readonly profile" \/
   d_reason d2 = "AUDIT_ONLY: would_allow=True; Allowed by readonly profile").
Proof.
  apply (@audit_mirrors_enforce registry_scanner ticking no_python bare_host no_json "{}" "ls -l" "enforce" "audit" "readonly" None None None 
    init_world (ls_decision "enforce" "Allowed by readonly profile") (set_tick 1 init_world)).
  - vm_compute. reflexivity.
  - vm_compute. intros [? | [? | [? | []]]]; discriminate.
  - vm_compute. reflexivity.
Defined.

(** ** Approvals, with the empty scanner *)
Definition rm_reason : string := "Root command 'rm' not in readonly allowlist".
Definition asked : World :=
  snd (@evaluate_ask null_scanner ticking "rm -r x" "readonly" "ask" (Some "rm") init_world).
Definition approved_world : World := snd (approve_request "id0" "alice" asked).

Lemma ask_approve_retry_witness :
  exists w3, runs (@evaluate_ask null_scanner ticking "rm -r x" "readonly" "ask" (Some "rm"))
      approved_world
      (decision true "Approved by operator (alice), approval_id=id0" "readonly" "ask" (Some "rm"))
      w3 /\ dict_get "id0" (w_store w3) = None.
Proof.
  apply (@ask_approve_retry null_scanner ticking "rm -r x" "readonly" (Some "rm") init_world
    (@blocked null_scanner "rm -r x" rm_reason "readonly" "ask" (Some "rm") true (Some "id0")) asked
    "id0" "alice" approved_world).
  - split; constructor.
  - vm_compute. reflexivity.
  - vm_compute. intros [? | ?]; discriminate.
  - intros kv [].
  - vm_compute. reflexivity.
  - vm_compute. reflexivity.
  - vm_compute. reflexivity.
  - intros req. vm_compute. intros [= <-]. discriminate.
Defined.

Definition replay_attempt : list ask_op :=
  [OpCreate "rm -r x" "readonly" None ""; OpApprove "id0" "alice"; OpApprove "id0" "bob";
   OpConsume "rm -r x" "readonly"; OpConsume "rm -r x" "readonly"].
Lemma approvals_not_replayed_witness :
  consumptions "rm -r x" "readonly" (fst (do_ops replay_attempt init_world)) = 1%nat /\
  (consumptions "rm -r x" "readonly" (fst (do_ops replay_attempt init_world)) <=
   approvals "rm -r x" "readonly" (fst (do_ops replay_attempt init_world)))%nat.
Proof. split; [vm_compute; reflexivity | apply approvals_not_replayed; reflexivity]. Defined.

(** ** Gates and profiles *)
Lemma profiles_ordered_witness : pipeline_allowed "git log -n 3" "testlint" = true.
Proof.
  apply (profiles_ordered "git log -n 3" "readonly" "testlint"); [simpl; auto |].
  vm_compute. reflexivity.
Defined.

Lemma env_adds_nothing_witness :
  fst (evaluate_profile readonly (shjoin ["env"; "A=1"; "ls"]) (Some "env")) = true <->
  contains_dangerous_token (shjoin ["env"; "A=1"; "ls"]) = None /\
  exists w ws, unwrap_from ["A=1"; "ls"] = w :: ws /\
    fst (evaluate_profile readonly (shjoin (w :: ws)) (Some w)) = true.
Proof. apply (env_adds_nothing readonly ["A=1"; "ls"]). reflexivity. Defined.

(** ** Packs *)
Lemma check_reports_iff_witness :
  check build_docker_pack "docker system prune -af" <> [] <->
  matches_keywords build_docker_pack "docker system prune -af" = true /\
  exists pt dp, In (pt, dp) (pk_compiled build_docker_pack) /\
    exists a b s1, "docker system prune -af" = a +s+ b /\ matches_at pt a b s1.
Proof. apply check_reports_iff. unfold shipped_packs. simpl. auto. Defined.

Lemma prefilter_lossless_witness :
  check build_docker_pack "docker system prune -af"
  = check_unfiltered build_docker_pack "docker system prune -af".
Proof. apply (proj1 prefilter_lossless); [unfold lossless_packs; simpl; auto | reflexivity]. Defined.

(** ** Nested commands *)
(** The tree of [import os as o; (lambda: os.remove(p))()] *)
Definition remove_call : pynode := NCall 1 20 (NAttribute (NName "os") "remove") [NName "p"] [].
Definition nested_tree : pynode :=
  NOther [NImport [("os", Some "o")]; NOther [NCall 1 10 (NOther [remove_call]) [] []]].
Definition one_script : PyParser := fun _ => Some nested_tree.
Lemma ast_matcher_complete_witness : exists m,
  In m (@check_ast one_script "src" "python") /\ am_rule_id m = "ast.python.os_remove".
Proof.
  exists (_make_ast_match 1 20 def_remove "src"). split; [| reflexivity].
  apply (@ast_matcher_complete one_script "src" nested_tree _ eq_refl).
  exists 1%nat, 20%nat, (NAttribute (NName "os") "remove"), [NName "p"], []. split.
  - apply (sub_child _ (NOther [NCall 1 10 (NOther [remove_call]) [] []])); [simpl; auto |].
    apply (sub_child _ (NCall 1 10 (NOther [remove_call]) [] [])); [simpl; auto |].
    apply (sub_child _ (NOther [remove_call])); [simpl; auto |].
    apply (sub_child _ remove_call); [simpl; auto | constructor].
  - right. exists def_remove. split; reflexivity.
Defined.

(** ** Allowlist *)
Lemma allowlist_at_instant_witness : exists n,
  @allowlist_check (frozen 5) null_scanner no_python "make test" (Some "a") None None
    (world_with_entries [system_entry "prefix" "make"]) =
  (Ok (Some (mkAllow (system_entry "prefix" "make") "make test" 5)),
   set_tick n (world_with_entries [system_entry "prefix" "make"])).
Proof.
  destruct (@allowlist_at_instant (frozen 5) null_scanner no_python 5 "make test" (Some "a") None None
    (world_with_entries [system_entry "prefix" "make"]) ltac:(vm_compute; reflexivity)) as [n Hn].
  exists n. rewrite Hn. vm_compute. reflexivity.
Defined.

(** ** Access control and the gate *)
Definition denied_world : World :=
  snd (ac_set default_ttls (fingerprint agent_identity) "10.0.0.9" "denied" "abuse" "operator" None
         init_world).
Definition denied_entry : AccessDecision :=
  mkAccess (make_access_key_hash (fingerprint agent_identity) "10.0.0.9") "denied"
    (fingerprint agent_identity) "10.0.0.9" "abuse" "operator" 1000000000 87400000000.

Definition from_denied : Request := mkRequest (Some "10.0.0.9") None.
Lemma denied_actor_stopped_witness : exists w',
  evaluate_with_access_gate default_settings true (Some from_denied) (Some agent_identity) "ls" "" None
    true denied_world = (Raise (HTTPException 403 "ACCESS_DENIED"), w') /\
  w_store w' = [] /\ w_entries w' = EMPTY_ENTRIES /\ w_audit w' = [] /\ w_commands w' = [].
Proof.
  apply (denied_actor_stopped default_settings (Some from_denied) (Some agent_identity) "ls" "" None "10.0.0.9" true
    denied_world).
  - vm_compute. reflexivity.
  - vm_compute. reflexivity.
  - left. discriminate.
  - exists denied_entry. split; [vm_compute; reflexivity | reflexivity].
Defined.

Definition gate_result : CommandGateDecision :=
  mkGateDecision true "Allowed by readonly profile" "readonly" "enforce" (Some "ls") false None.
Definition gate_world : World :=
  snd (evaluate_with_access_gate default_settings true None (Some agent_identity) "ls" ""
         (Some "10.0.0.9") true init_world).
Lemma unknown_actor_capped_witness :
  In (cg_effective_profile gate_result) ["readonly"; "testlint"] /\
  exists d w1 w2,
    runs (evaluate_command_policy "{}" "ls" "enforce" "readonly" None None None) w1 d w2 /\
    true = d_allowed d.
Proof.
  apply (unknown_actor_capped default_settings None (Some agent_identity) "ls" "" "10.0.0.9" true
    init_world gate_result gate_world).
  - vm_compute. reflexivity.
  - discriminate.
  - vm_compute. reflexivity.
  - vm_compute. reflexivity.
Defined.

(** ** Identities and breakers *)
Lemma breaker_invariant_witness :
  cb_ok (fold_left cb_step flaky_recovery default_breaker) /\
  cb_params (fold_left cb_step flaky_recovery default_breaker) = (5, 60, 3)%Z.
Proof. apply (breaker_invariant flaky_recovery 5 60 3); reflexivity. Defined.

Definition open_breaker : CircuitBreaker :=
  fold_left cb_step (firstn 5 flaky_recovery) default_breaker.
Lemma breaker_recovery_witness :
  can_execute 59000000 open_breaker = (false, open_breaker) /\
  fst (can_execute 60000000 open_breaker) = true.
Proof.
  destruct (breaker_recovery open_breaker 59000000 0 eq_refl eq_refl eq_refl) as (H1 & _).
  destruct (breaker_recovery open_breaker 60000000 0 eq_refl eq_refl eq_refl) as (_ & H2 & _).
  split; [apply H1; reflexivity | apply H2; vm_compute; discriminate].
Defined.

Lemma breaker_registry_safe_witness : exists rg,
  rg_run [OpGetBreaker "a" default_breaker; OpGetBreaker "b" default_breaker;
          OpGetBreaker "c" default_breaker; OpRemove "b"] (new_registry 2) = Ok rg /\
  rg_ok rg /\ (length (rg_breakers rg) <= 2)%nat.
Proof. apply breaker_registry_safe. repeat constructor. Defined.

Lemma client_ip_not_spoofed_witness :
  get_client_ip (mkRequest (Some "10.0.0.9") (Some "1.2.3.4")) (parse_cidrs "127.0.0.1/32")
  = "10.0.0.9".
Proof. apply client_ip_not_spoofed. vm_compute. reflexivity. Defined.

Lemma scope_check_spec_witness :
  require_scope "ssh:execute" (Some agent_identity) = Ok agent_identity.
Proof. apply scope_check_spec. right. right. left. simpl. auto. Defined.

(** ** Patches *)
Definition one_change : list change := [mkChange ["a"] [Ctx "b"; Del "c"; Add "C"]].

Lemma patch_round_trip_witness :
  _is_deletion_patch (patch_of "f.txt" one_change) = false /\
  patched_content (unlines (sc newline) ["a"; "b"; "c"; "d"]) (patch_of "f.txt" one_change)
  = inr (unlines (sc newline) ["a"; "b"; "C"; "d"]).
Proof.
  assert (Hadd : forall s, In (Add s) (flat_map body one_change) -> is_dev_null_line (String "+" s) = false).
  { intros s [H | [H | [H | []]]]; try discriminate H. injection H as <-. vm_compute. reflexivity. }
  apply (patch_round_trip (sc newline) "f.txt" one_change ["d"] ["a"; "b"; "C"] "d"); try exact Hadd;
    (by left) || (by repeat constructor) || done.
Defined.

Lemma patch_gaps_witness :
  _apply_hunks ["a"; "x"; "b"]
    (_parse_unified_diff (patch_of "f.txt" [mkChange ["a"; "x"] [Add "n"]]))
  = inr ["a"; "n"; "x"; "b"].
Proof.
  destruct (patch_gaps (sc newline) "f.txt" [] [] ltac:(by left) ltac:(done)) as [H _].
  apply (H ["a"] "x" ["b"] ["n"]); [by repeat constructor | done].
Defined.

(** ** Workspaces *)
#[local] Instance ascii_files : Utf8 :=
  {| encode := id; decode := Some; decode_encode _ := eq_refl |}.
#[local] Instance steady_disk : Disk := {| tmp_hex := "0a"; write_ok := true; read_back := id |}.
Definition ws_files : fs :=
  <[["srv"; "out"] := NLink "/etc"]> (<[["srv"; "a.txt"] := NFile "one two"]>
    (<[["srv"] := NDir]> (<[["etc"] := NDir]> ∅))).
Definition ws_policy : WorkspacePolicy :=
  mkPolicy [("p", ["srv"])] [["srv"]] ["project:write"].
Lemma ws_root : real_dir ws_files ["srv"].
Proof. by split_and!. Qed.
Definition ws_write : ws_op := OpWrite "hello" true.
Definition ws_written : fs :=
  <[["srv"; "d"; "b.txt"] := NFile "hello"]> (<[["srv"; "d"] := NDir]> ws_files).

Lemma ws_runs : run_op ws_policy "p" "d/b.txt" 100 ws_write ws_files = (inr tt, ws_written).
Proof. vm_compute. reflexivity. Qed.
Lemma write_confined_witness :
  ws_written !! ["srv"; "d"] <> ws_files !! ["srv"; "d"] /\
  exists q y, parts "d/b.txt" = q ++ y /\ q <> [] /\ ["srv"; "d"] = ["srv"] ++ q /\
    (y = [] \/ (ws_files !! ["srv"; "d"] = None /\ ws_written !! ["srv"; "d"] = Some NDir)).
Proof.
  assert (Hd : ws_written !! ["srv"; "d"] <> ws_files !! ["srv"; "d"])
    by (vm_compute; discriminate).
  split; [exact Hd |].
  exact (proj1 (write_confined ws_write ws_policy "p" "d/b.txt" 100 ["srv"] ws_files (inr tt)
                  ws_written eq_refl ws_root ws_runs) _ Hd).
Defined.

Lemma write_effect_witness :
  target_after ws_write ws_files (["srv"] ++ parts "d/b.txt") ws_written /\
  ws_written !! ["srv"; "d"; "b.txt"] = Some (NFile "hello").
Proof.
  split; [| reflexivity].
  exact (write_effect ws_write ws_policy "p" "d/b.txt" 100 ["srv"] ws_files (inr tt) ws_written
           eq_refl ws_root I ws_runs).
Defined.

Lemma ws_tree : tree ws_files.
Proof.
  apply (tree_insert _ ["srv"] "out"); [| by vm_compute..].
  apply (tree_insert _ ["srv"] "a.txt"); [| by vm_compute..].
  apply (tree_insert _ [] "srv"); [| by vm_compute..].
  apply (tree_insert _ [] "etc"); [| by vm_compute..]. intros d x. by rewrite lookup_empty.
Qed.
Lemma tools_keep_tree_witness : tree ws_written.
Proof.
  exact (tools_keep_tree ws_write ws_policy "p" "d/b.txt" 100 ["srv"] ws_files (inr tt) ws_written
           eq_refl ws_root ws_tree ws_runs).
Defined.

Lemma ws_reads : project_file_read ws_policy "p" "a.txt" None None 100 ws_files
  = inr (mkRead 7 "one two" 1 1 false).
Proof. vm_compute. reflexivity. Qed.
Lemma read_confined_witness : exists root q raw,
  resolve ws_files (root ++ parts "a.txt") = Some q /\ node_at ws_files q = Some (NFile raw) /\
  exists below, q = root ++ below.
Proof.
  destruct (read_confined ws_policy "p" "a.txt" None None 100 ws_files _ ws_reads)
    as (root & q & raw & text & _ & Hq & Hn & Hb & _).
  exists root, q, raw. auto.
Defined.

(** ** Snapshots *)
Definition sn_ops : list store_op :=
  [OpCapture 1 "0" "p" "a" (Some "1") "write" true None None;
   OpCapture 2 "0" "p" "b" (Some "22") "edit" true None None; OpQuery "q"; OpClear (Some "q");
   OpCapture 3 "0" "q" "c" None "write" false None (Some "h")].
Lemma snapshots_booked_witness :
  let st := fold_left run_store sn_ops (new_store 2 100) in
  let (snap, st') := capture st 4 "0" "p" "a" (Some "333") "edit" true None None in
  booked st /\ booked st' /\ latest st' "p" "a" = Some snap /\ _total_bytes st' = 5%Z.
Proof.
  pose proof (snapshots_booked 2 100 sn_ops 4 "0" "p" "a" (Some "333") "edit" true None None ltac:(lia)) as H.
  cbv zeta in H |- *. destruct (capture _ _ _ _ _ _ _ _ _ _) as [snap st'] eqn:Ec.
  destruct H as (Hb & _ & Hb' & _ & _ & Hall). split; [exact Hb |]. split; [exact Hb' |].
  vm_compute in Ec. injection Ec as <- <-. split; [apply Hall; vm_compute; [lia | discriminate] | reflexivity].
Defined.

(** A written file and its snapshot *)
Definition sn_hash : string := sha256_of "hello".
Definition sn_before : fs := <[["srv"; "a.txt"] := NFile "one two"]> (<[["srv"] := NDir]> ∅).
Definition sn_after : fs := <[["srv"; "a.txt"] := NFile "hello"]> sn_before.
Definition sn_captured : Snapshot * SnapshotStore :=
  capture (new_store 2 100) 1 "0" "p" "a.txt" (Some "one two") "write" true (Some "rcpt_1") (Some sn_hash).
Lemma sn_booked : booked (snd sn_captured).
Proof. apply (run_store_booked (new_store 2 100) (OpCapture 1 "0" "p" "a.txt" (Some "one two") "write" true (Some "rcpt_1") (Some sn_hash))); [by apply new_store_booked | done]. Qed.
Lemma sn_real f : f !! ["srv"] = Some NDir -> real_dir f ["srv"].
Proof. intros H. by split_and!. Qed.
Lemma sn_rolls : rollback ws_policy (snd sn_captured) "p" "a.txt" sn_after
  = (inr (mkRollback "p" "a.txt" 7 (Some sn_hash) (Some (sha256_of "one two")) true "rcpt_1" false),
     mkStore 2 100 [("p", [])] 0, sn_before).
Proof. vm_compute. reflexivity. Qed.
Lemma rollback_guarded_witness : sn_before <> sn_after /\
  exists snap text, latest (snd sn_captured) "p" "a.txt" = Some snap /\
    text_at sn_after ["srv"; "a.txt"] text /\ put_back snap ["srv"; "a.txt"] sn_after sn_before.
Proof.
  assert (Hne : sn_before <> sn_after).
  { intros H. apply (f_equal (fun f => f !! ["srv"; "a.txt"])) in H. vm_compute in H. discriminate. }
  split; [exact Hne |].
  destruct (rollback_guarded ws_policy (snd sn_captured) "p" "a.txt" ["srv"] sn_after _ _ _
              sn_booked eq_refl (sn_real sn_after eq_refl) sn_rolls) as (_ & H & _).
  destruct (H Hne) as (snap & text & Hl & _ & Ht & _ & Hp). exists snap, text. auto.
Defined.

Lemma rollback_undoes_witness : undone ["srv"] "a.txt" sn_before sn_before /\
  exists rr : RollbackResult, rb_before_hash rr = Some sn_hash.
Proof.
  destruct (rollback_undoes (OpWrite "hello" false) ws_policy "p" "a.txt" 100 ["srv"] sn_before
              sn_after (Some "one two") sn_hash (new_store 2 100) 1 "0" "write" (Some "rcpt_1")
              (fst sn_captured) (snd sn_captured) _ _ _ sn_booked eq_refl (sn_real sn_before eq_refl)
              ltac:(vm_compute; reflexivity) ltac:(vm_compute; reflexivity)
              ltac:(vm_compute; reflexivity) ltac:(vm_compute; reflexivity)
              ltac:(vm_compute; reflexivity) sn_rolls) as [(H & _ & Hh) _].
  split; [exact H | eexists; exact Hh].
Defined.
