(* ===== verification/DurableWitnesses.v ===== *)
(** * Concrete instances of the properties of durable jobs and locks

    The in-memory server of [Redis], and a codec that writes an object as the binary digits of
    its number. *)
From stdpp Require Import gmap countable.
From S2P Require Import Prelude PyStr Redis DurableJobs DurableFacts Locks DurableSpec RecoverySpec.
From S2P Require Import Jobs JobSpec.
From stdpp Require Import options.

(** ** A codec *)
#[local] Instance jv_countable : Countable jv.
Proof.
  refine (inj_countable'
    (fun v => match v with VNull => inl (inl tt) | VBool b => inl (inr b) | VNum n => inr (inl n)
                         | VStr s => inr (inr s) end : (unit + bool) + (Z + string))
    (fun x => match x with inl (inl _) => VNull | inl (inr b) => VBool b | inr (inl n) => VNum n
                         | inr (inr s) => VStr s end) _).
  by intros [].
Defined.
Fixpoint digits (p : positive) : string :=
  match p with xH => "" | xO q => String "0"%char (digits q) | xI q => String "1"%char (digits q) end.
Fixpoint number (s : string) : positive :=
  match s with "" => xH | String c r => if Ascii.eqb c "1" then xI (number r) else xO (number r) end.
Lemma number_digits p : number (digits p) = p.
Proof. by induction p; simpl; f_equal. Qed.
#[local] Program Instance binary_codec : JsonCodec := {|
  dumps o := digits (encode o); loads s := decode (number s) |}.
Next Obligation. intros o. cbv beta. by rewrite number_digits, decode_encode. Qed.
#[local] Existing Instance mem_redis.

(** ** A job and its workers *)
Definition empty_db : db := mkMem ∅ ∅ 1000.
Definition h64 : string := Nat.iter 64 (String "a"%char) "".
Definition list_env : jobj := new_envelope "j1" "task:k" "s" "ls" "" "me" h64 60 1000 None.
Definition never : nat -> fate := fun _ => Delivered.
Definition submit_j1 : call := Submit never "task:k" "j1" "me" h64 list_env 1000.
Definition ok_report : report := mkReport "completed" "out" "" (Some 0%Z) None.
(** Submitted, claimed by [a], whose lease runs out *)
Definition history : list call := [submit_j1; Claim Delivered "j1" "a" 60 1000; Elapse 61].
Definition deserted : db := run_all history empty_db.
Definition env_of (d : db) (job : string) : jobj := match view d job with Some e => e | None => ∅ end.
Lemma viewed d job : (if view d job is Some _ then true else false) = true -> view d job = Some (env_of d job).
Proof. unfold env_of. by destruct (view d job). Qed.
Example deserted_claimed : option_map (fun e => e !! "worker_token") (view deserted "j1") = Some (Some (VStr "a")).
Proof. vm_compute. reflexivity. Qed.

Lemma told c d : fst (run c d) = true -> run c d = (true, snd (run c d)).
Proof. intros <-. apply surjective_pairing. Qed.
Definition claim_b : call := Claim Delivered "j1" "b" 60 1062.
Definition taken : db := snd (run claim_b deserted).
Definition later : list call :=
  [Heartbeat Delivered "j1" "b" 60 1070; Elapse 10; Finish never "j1" "a" ok_report 1080].

Lemma execution_fenced_witness :
  run claim_b deserted = (true, taken) /\
  refused (Finish never "j1" "a" ok_report 1090) (run_all later taken).
Proof.
  assert (H : run claim_b deserted = (true, taken)) by (apply told; vm_compute; reflexivity).
  split; [exact H |].
  exact (proj2 (proj2 (execution_fenced Delivered "j1" "a" "b" 60 1062 deserted taken later
    ltac:(discriminate) H eq_refl eq_refl)) never ok_report 1090%Z).
Defined.

Definition contest : list call :=
  [claim_b; Finish never "j1" "a" (mkReport "failed" "" "" None None) 1070;
   Finish (fun i => match i with O => ReplyLost | _ => Delivered end) "j1" "b" ok_report 1071].
(** [b] claims the job and reports it; [a] reports late, and a second report of [b] comes too late. *)
Definition reported : list call :=
  [claim_b; Finish never "j1" "a" (mkReport "failed" "" "" None None) 1070;
   Finish never "j1" "b" ok_report 1071; Finish never "j1" "b" (mkReport "failed" "" "" None None) 1072; claim_b].
Lemma one_outcome_witness :
  acknowledged "j1" reported deserted = [ok_report] /\
  holds (outcome_is ok_report) "j1" (run_all reported deserted).
Proof.
  destruct (one_outcome "j1" reported deserted eq_refl) as [_ H].
  assert (E : acknowledged "j1" reported deserted = [ok_report]) by (vm_compute; reflexivity).
  split; [exact E |]. apply H; [reflexivity |]. rewrite E. by left.
Defined.
(** The reply that was lost was a yes: the retry finds the job finished and answers no. *)
Example lost_reply_unacknowledged :
  acknowledged "j1" contest deserted = [] /\
  option_map (fun e => e !! "status") (view (run_all contest deserted) "j1")
  = Some (Some (VStr "completed")).
Proof. vm_compute. split; reflexivity. Qed.


Lemma history_proper : Forall proper history.
Proof.
  repeat constructor; try done. simpl. by exists "s", "ls", "", 60%Z, 1000%Z, None.
Qed.
Lemma empty_books : books empty_db.
Proof. intros job raw H. vm_compute in H. discriminate. Qed.
Lemma empty_claims : claims empty_db.
Proof. intros k raw _ H. vm_compute in H. discriminate. Qed.

Lemma books_kept_witness : books (run_all history empty_db).
Proof. exact (books_kept history empty_db history_proper empty_books). Defined.

Definition deserted_env : jobj := env_of deserted "j1".
Lemma recovery_complete_witness :
  orphaned 1062 deserted_env /\
  In "j1" (fst (list_recoverable_durable_jobs true Delivered Delivered 1062 (run_all history empty_db))).
Proof.
  assert (Ho : orphaned 1062 deserted_env) by (vm_compute; repeat split; reflexivity).
  assert (Hv : view (run_all history empty_db) "j1" = Some deserted_env)
    by (apply viewed; vm_compute; reflexivity).
  split; [exact Ho |].
  exact (proj1 (recovery_complete history empty_db "j1" deserted_env 1062 "b" 60 history_proper
    empty_books empty_claims Hv ltac:(lia) (or_introl Ho))).
Defined.

Definition won : db := snd (reserve_submission_with_job true never "task:k" "j1" "me" h64 list_env 1000 empty_db).
Definition second : jobj := new_envelope "j2" "task:k" "s" "ls" "" "me" h64 60 1001 None.
Lemma submission_once_witness :
  fst (reserve_submission_with_job true never "task:k" "j2" "me" h64 second 1001
         (run_all [Elapse 5] won)) = inr ("j1", false) /\
  GET (snd (reserve_submission_with_job true never "task:k" "j2" "me" h64 second 1001
         (run_all [Elapse 5] won))) (env_key "j2") = Some (dumps second).
Proof.
  assert (H : reserve_submission_with_job true never "task:k" "j1" "me" h64 list_env 1000 empty_db
              = (inr ("j1", true), won)).
  { unfold won. rewrite (surjective_pairing (reserve_submission_with_job _ _ _ _ _ _ _ _ _)) at 1.
    f_equal. }
  assert (Hk : kept (_submission_storage_key "task:k") [Elapse 5] won)
    by (vm_compute; repeat split; discriminate).
  destruct (submission_once never "task:k" "j1" "me" h64 list_env 1000 empty_db won [Elapse 5]
    never "j2" "me" h64 second 1001 H ltac:(discriminate) Hk) as (H1 & _ & H3).
  split; [exact H1 | apply H3; vm_compute; reflexivity].
Defined.
Lemma submission_resolves_witness :
  resolve_submission_claim true Delivered Delivered [] "task:k" (run_all [Claim Delivered "j1" "a" 60 1001] won)
  = inr (Some ("j1", "me", h64)).
Proof.
  assert (H : reserve_submission_with_job true never "task:k" "j1" "me" h64 list_env 1000 empty_db
              = (inr ("j1", true), won)).
  { unfold won. rewrite (surjective_pairing (reserve_submission_with_job _ _ _ _ _ _ _ _ _)) at 1.
    f_equal. }
  assert (Hk : kept (_submission_storage_key "task:k") [Claim Delivered "j1" "a" 60 1001] won)
    by (vm_compute; repeat split; discriminate).
  apply (submission_resolves never "task:k" "j1" "s" "ls" "" "me" h64 60 1000 None 1000 empty_db won _ []
    empty_books); [| exact H | discriminate | reflexivity | reflexivity | reflexivity | reflexivity | exact Hk].
  repeat constructor; done.
Defined.
(** The envelope the loser left makes the key ambiguous to the index of envelopes. *)
Example loser_makes_ambiguous :
  let d := snd (run (Submit never "task:k" "j2" "me" h64 second 1001) won) in
  dict_get "task:k" (_build_submission_envelope_index won) = Some (inr ("j1", "me", h64)) /\
  dict_get "task:k" (_build_submission_envelope_index d)
  = Some (inl "Durable submission envelope identity is ambiguous").
Proof. vm_compute. split; reflexivity. Qed.

Lemma snapshot_unfenced_witness :
  processing_by "b" (env_of taken "j1") = true /\
  refused (Finish never "j1" "b" ok_report 1080)
    (run_all later (snd (run (Snapshot "j1" "s" "ls" "me" (mkReport "cancelled" "" "" None None) None 1065)
                           taken))).
Proof.
  split; [vm_compute; reflexivity |].
  exact (proj1 (proj2 (proj2 (snapshot_unfenced "j1" "s" "ls" "me" (mkReport "cancelled" "" "" None None)
    None 1065 taken later "b" eq_refl eq_refl))) never ok_report 1080%Z).
Defined.

(** ** Locks *)
Definition idle : nat -> DistributedLock := fun _ => mkLock ∅ [] [].
Definition locked : option bool * (DistributedLock * db) :=
  try_acquire Delivered "r" "t" 30 (idle 0%nat) empty_db.
Definition rival : act := Attempt 1 Delivered "r" "t2" 30.
Lemma idle_keyed q : well_keyed (idle q).
Proof. split; [by intros r j | intros j H; by apply elem_of_nil in H]. Qed.
Lemma idle_fresh t q : unused t (idle q).
Proof. split; [constructor |]. intros r ttl H. by apply elem_of_nil in H. Qed.
Lemma locked_eq : try_acquire Delivered "r" "t" 30 (idle 0%nat) empty_db
              = (Some true, (fst (snd locked), snd (snd locked))).
Proof. vm_compute. reflexivity. Qed.
(** The holder's coroutine goes on and its watchdog renews; a rival is refused. *)
Definition held_for_a_while : list act := [GoOn 0 0; Pass 20; Tick 0 Delivered 0; Pass 9; Release 1 Delivered "r" "t2"].
Lemma lock_exclusive_witness :
  fst (step rival (steps held_for_a_while (upd 0 (fst (snd locked)) idle, snd (snd locked)))) <> Some true /\
  (watchdog_due "r" "t" 30 (fst (steps held_for_a_while (upd 0 (fst (snd locked)) idle, snd (snd locked))) 0%nat) \/
   watchdog_runs "r" "t" 30 (fst (steps held_for_a_while (upd 0 (fst (snd locked)) idle, snd (snd locked))) 0%nat)).
Proof.
  pose proof (lock_exclusive idle empty_db 0 Delivered "r" "t" 30 _ _ held_for_a_while rival
    ltac:(lia) (idle_fresh "t") locked_eq eq_refl ltac:(simpl; lia)) as (_ & _ & H1 & H2).
  split; [exact (H1 eq_refl) | exact (H2 (idle_keyed 0) (Forall_nil_2 _) eq_refl)].
Defined.
Definition started : (nat -> DistributedLock) * db :=
  steps [GoOn 0 0] (upd 0 (fst (snd locked)) idle, snd (snd locked)).
Lemma started_running : watched "r" "t" 30 (fst started 0%nat) /\ Took "r" "t" 30 ∉ in_flight (fst started 0%nat).
Proof.
  destruct (acquired_held idle empty_db 0 Delivered "r" "t" 30 _ _ ltac:(lia) (idle_fresh "t") locked_eq) as [Hh E].
  split.
  - refine (proj1 (steps_watched 0 "r" "t" 30 [GoOn 0 0] _ _ _ Hh ltac:(lia) eq_refl eq_refl ltac:(simpl; lia) _)).
    cbn [fst]. rewrite upd_same, E. apply acquired_watched; [apply idle_fresh | apply idle_keyed | constructor].
  - intros H. by apply elem_of_nil in H.
Qed.
Lemma watchdog_keeps_witness :
  held "r" "t" 30 1060 1030 (fold_left (turn 0 "r") [[Pass 10; rival]; [rival; Pass 20]] started).
Proof.
  apply (watchdog_keeps 0 "r" "t" 30 [[Pass 10; rival]; [rival; Pass 20]] _ 1000 ltac:(lia));
    [| exact (proj1 started_running) | exact (proj2 started_running) |].
  - destruct (acquired_held idle empty_db 0 Delivered "r" "t" 30 _ _ ltac:(lia) (idle_fresh "t") locked_eq) as [Hh E].
    exact (steps_held "r" "t" 30 [GoOn 0 0] _ _ _ Hh ltac:(lia) eq_refl ltac:(simpl; lia)).
  - repeat constructor; [exists 0%Z | exists 10%Z]; split; vm_compute; try reflexivity; done.
Defined.
(** A gateway gives the lock back and takes it again: where the coroutine of [release] goes on only after
    that of the second [acquire], it takes the new watchdog away and cancels it. *)
Example late_release_stops_watchdog :
  let s := steps [GoOn 0 0; Release 0 Delivered "r" "t"; Attempt 0 Delivered "r" "t2" 30; GoOn 0 1; GoOn 0 0]
             (upd 0 (fst (snd locked)) idle, snd (snd locked)) in
  GET (snd s) (lock_key "r") = Some "t2" /\ _renewal_tasks (fst s 0%nat) !! "r" = None /\
  map tk_done (tasks (fst s 0%nat)) = [false; true].
Proof. vm_compute. split; [| split]; reflexivity. Qed.
Definition seconds (i : nat) : Z := (1000 * Z.of_nat i)%Z.
Lemma seconds_sleep : sleeps seconds.
Proof.
  split; [done |]. intros i. unfold seconds. assert (delay_at i <= 1000)%Z; [| lia].
  destruct i; [done |]. rewrite delay_at_S. unfold max_delay. lia.
Qed.
(** Another gateway waits for the lock while the server counts seconds. *)
Definition other_second (i : nat) (s : DistributedLock * db) : DistributedLock * db := (fst s, elapse 1 (snd s)).
Lemma acquire_answers_witness :
  answer_means (fun _ => Delivered) seconds (fun _ s => s) other_second "r" "t2" 30 true 2 (idle 1%nat)
    (acquire (Z.to_nat (2 * 20) + 1) (fun _ => Delivered) seconds (fun _ s => s) other_second "r" "t2" 30 true 2
       (idle 1%nat, snd (snd locked))) /\
  fst (acquire (Z.to_nat (2 * 20) + 1) (fun _ => Delivered) seconds (fun _ s => s) other_second "r" "t2" 30 true 2
       (idle 1%nat, snd (snd locked))) = NotAcquired.
Proof. split; [apply (acquire_answers (fun _ => Delivered) seconds); [exact seconds_sleep | lia] | vm_compute; reflexivity]. Defined.

(** ** Gateways *)
Definition gateway : config := mkConfig 10 3600 true true.
Definition fresh_manager : JobManager := mkManager ∅ [] ∅ {["s" := 0%Z]}.
Lemma fresh_sound : sound fresh_manager.
Proof.
  split; simpl.
  - intros ref c H. by rewrite lookup_nil in H.
  - intros id s. rewrite lookup_empty. split; [done |]. intros (ref & c & H & _). by rewrite lookup_nil in H.
  - intros id ref H. by rewrite lookup_empty in H.
  - intros id s H. by rewrite lookup_empty in H.
  - intros s n H. by apply lookup_singleton_Some in H as [_ <-].
Qed.
Definition submitting (key : option string) (id : string) (now : Z) : jstep :=
  SCreate Delivered Delivered never "s" "ls" "me" None "in" (Some 60%Z) key id now.
Definition two_jobs : list jstep :=
  [submitting (Some "task:k") "j1" 1000; submitting None "j2" 1001; SStart Delivered "a" 1002 0;
   SStart Delivered "b" 1002 1; SPolicy (fun _ => (false, "no")) 1003 1; SLeave never 1004 1;
   SCancel Delivered "j1" 1005].
Lemma leases_balanced_witness :
  let m := fst (jrun_all gateway two_jobs (fresh_manager, empty_db)) in
  (forall session n, operations m !! session = Some n -> n = pins session (cells m)) /\
  operations m !! "s" = Some 1%Z.
Proof.
  assert (Ho : ordinary_all gateway two_jobs (fresh_manager, empty_db))
    by (vm_compute; repeat split; reflexivity).
  split; [| vm_compute; reflexivity].
  exact (proj1 (leases_balanced gateway two_jobs (fresh_manager, empty_db) fresh_sound Ho)).
Defined.

Definition accepted : JobManager * db := jrun gateway (submitting (Some "task:k") "j1" 1000) (fresh_manager, empty_db).
Definition accepted_env : jobj := env_of (run_all [Elapse 30] (snd accepted)) "j1".
Lemma restart_resumes_witness : exists n mC dC ref,
  _recover_durable_jobs gateway (fun _ => Delivered) 1030 (fresh_manager, run_all [Elapse 30] (snd accepted))
  = (inr n, (mC, dC)) /\
  _jobs mC !! "j1" = Some ref /\
  cells mC !! ref = Some (mkCell (new_job "j1" "s" "ls" "me" None "in" 60 true (Some "task:k")) New false) /\
  cells (fst (run_start gateway Delivered "w" 1030 ref (mC, dC))) !! ref
  = Some (mkCell (new_job "j1" "s" "ls" "me" None "in" 60 true (Some "task:k")) (Claimed "w") false).
Proof.
  assert (Hc : create_job gateway Delivered Delivered never "s" "ls" "me" None "in" (Some 60%Z)
    (Some "task:k") "j1" 1000 (fresh_manager, empty_db) = (inr "j1", (fst accepted, snd accepted))).
  { unfold accepted, jrun, submitting.
    rewrite (surjective_pairing (create_job _ _ _ _ _ _ _ _ _ _ _ _ _ _)) at 1.
    f_equal. }
  assert (Hv : view (run_all [Elapse 30] (snd accepted)) "j1" = Some accepted_env)
    by (apply viewed; vm_compute; reflexivity).
  apply (restart_resumes gateway Delivered Delivered never "s" "ls" "me" None "in" (Some 60%Z) "task:k" "j1"
    1000 fresh_manager empty_db (fst accepted) (snd accepted) [Elapse 30] accepted_env 1030 fresh_manager "w"
    empty_books empty_claims); [reflexivity | discriminate | reflexivity | exact Hc | | repeat constructor
    | reflexivity | | exact Hv | left; vm_compute; reflexivity | reflexivity | discriminate].
  - vm_compute. discriminate.
  - vm_compute. repeat split; discriminate.
Defined.

Lemma stream_outcome_witness :
  j_status (stream_ended None (streamed [CStdout "out"; CExit (-1)]
    (set_cancel (new_job "j1" "s" "ls" "me" None "" 60 true None)))) = ambiguous.
Proof.
  exact (proj1 (stream_outcome [CStdout "out"; CExit (-1)] None
    (set_cancel (new_job "j1" "s" "ls" "me" None "" 60 true None)) eq_refl eq_refl eq_refl)).
Defined.

Definition claiming : JobManager * db := run_start gateway Delivered "a" 1001 0 accepted.
Definition j1_record : JobRecord := new_job "j1" "s" "ls" "me" None "in" 60 true (Some "task:k").
Lemma job_gaps_witness :
  let '(answer, s) := cancel_job gateway Delivered "j1" 1002 claiming in
  answer = inr "cancelled" /\
  exists j', cells (fst (run_check Unreachable 1003 0 s)) !! 0%nat = Some (mkCell j' (Started (Some "a")) true) /\
    j_status j' = running /\ j_done j' = true.
Proof.
  assert (Hv : view (snd claiming) "j1" = Some (env_of (snd claiming) "j1"))
    by (apply viewed; vm_compute; reflexivity).
  rewrite (surjective_pairing claiming).
  apply (proj1 (proj2 (job_gaps gateway (fst claiming) (snd claiming) 0 j1_record)) "a" 1002%Z 1003%Z false
    (env_of (snd claiming) "j1")); [| | reflexivity | reflexivity | exact Hv |]; vm_compute; reflexivity.
Defined.

Lemma create_job_admits_witness :
  let '(r, (m', d')) := create_job gateway Delivered Delivered never "s" "ls" "me" None "in" (Some 60%Z)
    (Some "task:k") "j1" 1000 (fresh_manager, empty_db) in
  m' = fresh_manager \/
  (r = inr "j1" /\ (active_jobs fresh_manager < 10)%Z /\ active_jobs m' = (active_jobs fresh_manager + 1)%Z /\
   (exists n, operations fresh_manager !! "s" = Some n /\ operations m' !! "s" = Some (n + 1)%Z) /\
   exists ref, _jobs m' !! "j1" = Some ref /\ cells m' !! ref = Some (mkCell j1_record New false)).
Proof.
  exact (create_job_admits gateway Delivered Delivered never "s" "ls" "me" None "in" (Some 60%Z)
    (Some "task:k") "j1" 1000 fresh_manager empty_db fresh_sound eq_refl).
Defined.
