(* ===== verification/AuthWitnesses.v ===== *)
(** * Concrete instances of the properties of authentication and accounts

    Redis strings in memory, codecs that write a value as the binary digits of its number, a
    signature that repeats its secret, and a hash that is the password itself. *)
From stdpp Require Import gmap countable.
From S2P Require Import Prelude PyStr CommandGate ClientIp Rbac AgentTokens Url Auth AuthSpec UserAuth.
From S2P Require Import DurableWitnesses.
From stdpp Require Import options.

(** ** Instances *)
Definition smem : Type := gmap string (string * option Z) * Z.
Definition live (d : smem) (k : string) : option string :=
  match fst d !! k with
  | Some (v, Some dl) => if (snd d <? dl)%Z then Some v else None
  | Some (v, None) => Some v
  | None => None
  end.
Definition left_of (d : smem) (k : string) : option Z :=
  match fst d !! k with Some (_, Some dl) => Some (dl - snd d)%Z | _ => None end.
#[local] Obligation Tactic := idtac.
#[local] Program Instance mem_strings : Strings := {|
  sdb := smem;
  S_GET := live;
  S_SET (d : smem) k v ex := (<[k := (v, option_map (Z.add (snd d)) ex)]> (fst d), snd d);
  S_DEL (d : smem) k := (delete k (fst d), snd d);
  s_elapse t (d : smem) := (fst d, (snd d + t)%Z);
  s_evict k (d : smem) := (delete k (fst d), snd d);
  s_left := left_of |}.
Next Obligation. (* GET_SSET *)
  intros [d c] k v ex k' H. unfold live. cbn [fst snd].
  destruct (String.eqb_spec k k') as [<- | Hne]; [| by rewrite lookup_insert_ne].
  rewrite lookup_insert_eq. destruct ex as [t|]; simpl; [| done]. by replace (c <? c + t)%Z with true by lia.
Qed.
Next Obligation. (* left_SSET *)
  intros [d c] k v ex k'. unfold left_of. cbn [fst snd].
  destruct (String.eqb_spec k k') as [<- | Hne]; [| by rewrite lookup_insert_ne].
  rewrite lookup_insert_eq. destruct ex as [t|]; simpl; [f_equal; lia | done].
Qed.
Next Obligation. (* GET_SDEL *)
  intros [d c] k k'. unfold live. cbn [fst snd].
  destruct (String.eqb_spec k k') as [<- | Hne]; [by rewrite lookup_delete_eq | by rewrite lookup_delete_ne].
Qed.
Next Obligation. (* GET_sevict *)
  intros [d c] k k'. unfold live. cbn [fst snd].
  destruct (String.eqb_spec k k') as [<- | Hne]; [by rewrite lookup_delete_eq | by rewrite lookup_delete_ne].
Qed.
Next Obligation. (* GET_selapse *)
  intros [d c] t k Ht. unfold live, left_of. cbn [fst snd]. destruct (d !! k) as [[v [dl|]]|]; try done.
  destruct (t <? dl - c)%Z eqn:E.
  - by replace (c + t <? dl)%Z with true by lia; replace (c <? dl)%Z with true by lia.
  - by replace (c + t <? dl)%Z with false by lia.
Qed.

(** A value as a text that is not empty, and back *)
Definition written `{Countable A} (a : A) : string := String "#"%char (digits (encode a)).
Definition read_back `{Countable A} (s : string) : option A :=
  match s with String _ r => decode (number r) | "" => None end.
Lemma read_written `{Countable A} (a : A) : read_back (written a) = Some a.
Proof. unfold read_back, written. by rewrite number_digits, decode_encode. Qed.

#[local] Instance meta_eq_dec : EqDecision token_meta.
Proof. solve_decision. Defined.
#[local] Instance meta_countable : Countable token_meta.
Proof.
  refine (inj_countable' (fun m => (tm_scopes m, tm_role m, tm_labels m))
            (fun x => mkMeta (fst (fst x)) (snd (fst x)) (snd x)) _).
  by intros [].
Defined.
#[local] Program Instance binary_meta : MetaCodec := {| meta_dumps := written; meta_loads := read_back |}.
Next Obligation. apply read_written. Qed.
Next Obligation. done. Qed.

#[local] Instance claims_eq_dec : EqDecision jwt_claims.
Proof. solve_decision. Defined.
#[local] Instance claims_countable : Countable jwt_claims.
Proof.
  refine (inj_countable' (fun c => (jc_sub c, jc_uid c, jc_role c, jc_type c))
            (fun x => mkClaims (fst (fst (fst x))) (snd (fst (fst x))) (snd (fst x)) (snd x)) _).
  by intros [].
Defined.
Definition checked (token secret : string) (now : Z) : option jwt_claims :=
  match read_back token with
  | Some (c, exp, signed) => if String.eqb signed secret && (now <? exp)%Z then Some c else None
  | None => None
  end.
#[local] Program Instance plain_jwt : Jwt := {|
  jwt_encode c exp secret := written (c, exp, secret); jwt_decode := checked |}.
Next Obligation.
  intros c exp secret now H. unfold checked. rewrite read_written, String.eqb_refl.
  by replace (now <? exp)%Z with true by lia.
Qed.
Next Obligation. done. Qed.

#[local] Program Instance plain_bcrypt : Bcrypt := {|
  hashpw p _ := if (slen p <=? 72)%nat then Ok p else Raise (ValueError "password");
  checkpw p h := Ok (String.eqb p h) |}.
Next Obligation. intros p salt H. cbv beta. apply Nat.leb_le in H. rewrite H. eauto. Qed.
Next Obligation. intros p salt h. cbv beta. destruct (_ <=? _)%nat; [| done]. intros [= <-]. by rewrite String.eqb_refl. Qed.

(** ** A server, its token store, its requests *)
Definition au_settings : AuthSettings :=
  mkAuth true "master-key" "static" None ["jobs:read"] "127.0.0.1/32" "" "jwt-secret".
Definition au_request (method path : string) (headers cookies query : dict string) : HttpRequest :=
  mkHttp method path (Some "127.0.0.1") (("host", "gw") :: headers) cookies query.
Definition au_store : TokenStore := mkTokenStore true true (∅, 0%Z).
Definition au_set : TokenStore :=
  match set_token au_store "tok" 60 (Some ["jobs:run"]) (Some "viewer") None with Ok st => st | Raise _ => au_store end.
Definition au_agent : AuthIdentity := agent_identity "tok" ["jobs:run"] (Some "viewer") [].
Definition au_run : HttpRequest := au_request "POST" "/api/jobs/run/" [("x-api-key", "tok")] [] [].

(** A token that runs jobs by its role, and may read them by its role only *)
Definition au_operator : AuthIdentity := agent_identity "tok" ["jobs:run"] (Some "operator") [].
Definition au_operators : TokenStore :=
  match set_token au_store "tok" 60 (Some ["jobs:run"]) (Some "operator") None with Ok st => st | Raise _ => au_store end.
Lemma route_needs_credential_witness :
  (guarded_route au_settings (Some au_operators) au_run "jobs:read" 5 = Ok au_operator /\
   credential au_settings (Some au_operators) au_run 5 au_operator /\ scope_granted "jobs:read" au_operator) /\
  ~ scope_granted "tokens:write" au_operator /\
  guarded_route au_settings (Some au_operators) au_run "tokens:write" 5 <> Ok au_operator.
Proof.
  assert (H : guarded_route au_settings (Some au_operators) au_run "jobs:read" 5 = Ok au_operator)
    by (vm_compute; reflexivity).
  assert (Hw : within_role "jobs:read" au_operator) by (intros _ _; vm_compute; reflexivity).
  assert (Hno : ~ scope_granted "tokens:write" au_operator) by (intros [E | E]; vm_compute in E; discriminate E).
  assert (Hw' : within_role "tokens:write" au_operator)
    by (intros _ [[E | []] | [E | []]]; discriminate E).
  split; [split; [exact H |] | split; [exact Hno |]].
  - apply (route_needs_credential au_settings (Some au_operators) au_run "jobs:read" 5 au_operator eq_refl Hw) in H.
    tauto.
  - intros E. apply Hno. apply (route_needs_credential au_settings (Some au_operators) au_run "tokens:write" 5 au_operator eq_refl Hw') in E.
    tauto.
Defined.

Definition au_ws : HttpRequest := au_request "GET" "/ws" [("origin", "https://gw")] [] [("token", "tok")].

Lemma agent_token_life_witness : exists st',
  set_token au_store "tok" 60 (Some ["jobs:run"]) (Some "viewer") (Some []) = Ok st' /\
  is_agent_token_valid au_settings "tok" (Some (AuthSpec.later 59 st')) 7 = Ok (Some au_agent).
Proof.
  destruct (agent_token_life au_settings au_store "tok" 60 ["jobs:run"] (Some "viewer") [] 59 7)
    as (st' & Hs & _ & H & _); [done | done | discriminate | lia | lia |].
  exists st'. split; [exact Hs |]. apply H. lia.
Defined.

Definition au_web : WebSettings := mkWeb au_settings "setup" 10.
Definition au_register : RegisterRequest := mkRegister "admin" "Passw0rd!" "Passw0rd!" "setup".
Definition au_admin_db : AuthDb := mkAuthDb [mkUser 1 "admin" "Passw0rd!"] 2.
Definition au_cookie (exp : Z) : string :=
  jwt_encode (mkClaims (Some "admin") (Some 1%Z) (Some "admin") (Some "web-ui")) exp "jwt-secret".
Lemma au_registers : register au_web au_register "salt" 0 no_users
  = (Ok (201%Z, "admin", Some (AUTH_COOKIE_NAME, au_cookie 600)), au_admin_db).
Proof. vm_compute. reflexivity. Qed.
Lemma sign_in_witness : exists token,
  login au_web "dummy" (mkLogin "admin" "Passw0rd!") 1000 au_admin_db
  = Ok (200%Z, "admin", Some (AUTH_COOKIE_NAME, token)).
Proof.
  destruct (sign_in au_web au_register "salt" 0 no_users _ _ _ _ "dummy" 1000 None au_run "jobs:run" 1001
              au_registers eq_refl) as (token & H & _).
  exists token. exact H.
Defined.

Definition au_ops : list account_op :=
  [OpRegister au_web (mkRegister "eve" "Passw0rd!" "Passw0rd!" "guess") "salt" 0;
   OpRegister au_web au_register "salt" 1; OpRegister au_web au_register "salt" 2].
Lemma one_admin_witness :
  fold_left run_account au_ops no_users = au_admin_db /\
  registered au_web au_register "salt" no_users au_admin_db.
Proof.
  split; [vm_compute; reflexivity |].
  destruct (proj1 (proj2 (one_admin [])) au_web au_register "salt" 0%Z _ _ au_registers) as [[_ [e He]] | H];
    [discriminate He | exact H].
Defined.

(** ** Where the code and its documents part *)

(** A role is said to override the scopes of a token; it only adds to them: a viewer keeps the
    scopes it was given, those to execute among them. *)
Example role_does_not_override :
  require_scope "ssh:execute" (Some (agent_identity "t" ["ssh:connect"; "ssh:execute"] (Some "viewer") []))
  = Ok (agent_identity "t" ["ssh:connect"; "ssh:execute"] (Some "viewer") []).
Proof. reflexivity. Qed.

(** A restart installs the configured token again, and so ends the one it was rotated to. *)
Definition au_installed : TokenStore := install_configured au_store "static" 60 ["jobs:read"].
Definition au_rotated : TokenStore :=
  match agent_token_refresh (Some au_installed) "fresh" "static" 60 with
  | Ok (_, Some st) => st | _ => au_store end.
Definition au_restarted : TokenStore := install_configured au_rotated "static" 60 ["jobs:read"].
Example restart_undoes_rotation :
  map (fun st => map (fun t => match validate_token st t with Ok (v, _, _) => v | Raise _ => false end)
         ["static"; "fresh"]) [au_installed; au_rotated; au_restarted]
  = [[true; false]; [false; true]; [true; false]].
Proof. vm_compute. reflexivity. Qed.

(** Without a JWT secret a wrong Bearer token raises instead of being refused, and so does a
    valid agent token on a WebSocket; a key outside ASCII raises too. *)
Definition au_no_jwt : AuthSettings :=
  mkAuth true "master-key" "" None [] "127.0.0.1/32" "" "".
Example raises_instead_of_refusing :
  let missing {A : Type} : result A := Raise (RuntimeError "JWT_SECRET must be configured") in
  auth_check au_no_jwt (Some au_set) (au_request "GET" "/api/x" [("authorization", "Bearer wrong")] [] []) 5
  = missing /\
  auth_check au_no_jwt (Some au_set) (au_request "GET" "/api/x" [("x-api-key", "wrong")] [] []) 5
  = Ok (Some (401%Z, "INVALID_API_KEY"), None) /\
  ws_auth_check au_no_jwt (Some au_set) au_ws "ssh:connect" 5 = missing /\
  auth_check au_settings None (au_request "GET" "/api/x" [("x-api-key", String "233"%char "")] [] []) 5
  = Raise TypeError.
Proof. split_and!; vm_compute; reflexivity. Qed.

(** The origin [null] of a sandboxed page fails the check of a request with the cookie and
    passes the one of a WebSocket. *)
Example null_origin :
  let cookies := [(AUTH_COOKIE_NAME, au_cookie 600)] in
  auth_check au_settings None (au_request "POST" "/api/x" [("origin", "null")] cookies []) 5
  = Ok (Some (403%Z, "CSRF_BLOCKED"), None) /\
  ws_auth_check au_settings None (au_request "GET" "/ws" [("origin", "null")] cookies []) "ssh:pty" 5
  = Ok (inl (admin_session "admin" (au_cookie 600))).
Proof. split; vm_compute; reflexivity. Qed.

(** Without a JWT secret a registration makes its user and then raises; the next one finds the
    administrator there. *)
Example registration_half_done :
  let web := mkWeb au_no_jwt "setup" 10 in
  register web au_register "salt" 0 no_users
  = (Raise (RuntimeError "JWT_SECRET must be configured"), au_admin_db) /\
  fst (register web au_register "salt" 1 au_admin_db)
  = Raise (HTTPException 403 "Registration disabled. An admin already exists.").
Proof. split; vm_compute; reflexivity. Qed.
