(* ===== verification/SessionWitnesses.v ===== *)
(** * Concrete runs of the session manager

    A gateway with one place per address, a pool of two transports and breakers; each property
    of [SessionSpec] is applied to a run of it, and the examples show what the code does where
    its comments promise more. *)
From stdpp Require Import gmap.
From S2P Require Import Prelude PyStr Digests ClientIp TargetHost SshPool CircuitBreaker.
From S2P Require Import Sessions SessionFacts SessionSpec.
From stdpp Require Import options.

(** ** The instances *)
#[local] Instance any_key : KeyFormats :=
  { from_private_key c _ _ := match c with RSAKey => KeyParsed | _ => KeySSHException end }.
Definition one_each : Settings := mkSettings 1 0 true true.
Definition shipped_targets : TargetPolicy := mkTargets ALLOWED_TARGET_CIDRS DENIED_TARGET_CIDRS.
Definition lan : resolver := fun _ => Some ["10.0.0.5"].
Definition at_ (t : Z) : Readings :=
  mkReadings (t * 1000000) (t * 1000000) (fun _ => true)
    (if (t =? 0)%Z then "first" else if (t =? 20)%Z then "third" else "second").
Definition alice : Identity := mkIdentity "agent" (Some "alice") (Some "fp-alice") [].
Definition login (password key : option string) : RouteRequest :=
  mkRouteRequest "db.lan" 22 "root" password key None false false None.
Definition reused_login : RouteRequest :=
  mkRouteRequest "db.lan" 22 "root" (Some "pw") None None true false None.
Definition up : Network := mkNetwork (Some "10.0.0.5") DialOk.
Definition wrong_password : Network := mkNetwork (Some "10.0.0.5") DialAuthenticationException.
Definition down : Network := mkNetwork None DialOk.

Definition connect (tid : nat) (t : Z) (req : RouteRequest) (ip : string) : event :=
  OnConnect tid (at_ t) lan req alice ip.
Definition gateway (es : list event) : System :=
  reached one_each shipped_targets 3600 2 60 (Some (new_registry 1000)) true es.
(** A session from 1.1.1.1 *)
Definition opened : list event := [connect 0 0 (login (Some "pw") None) "1.1.1.1"; OnDialled 0 (at_ 0) up].
Definition parked_again : list event := opened ++ [OnDisconnect (at_ 1) "first"].
Definition from_route (req : RouteRequest) (ip : string) : ConnectRequest :=
  create_request one_each req alice ip "10.0.0.5".

Example run_opened :
  let sy := gateway opened in
  (map fst (_sessions (sy_manager sy)), _pending_sessions_by_ip (sy_manager sy), sm_closed (sy_manager sy),
   length (sy_opened sy)) = (["first"], [], [], 1%nat).
Proof. by_eval. Qed.

(** ** The properties at work *)
Lemma session_admission_witness :
  limits_positive one_each /\
  let m := sy_manager (gateway opened) in
  exists m', begin_create one_each (at_ 2) (from_route (login (Some "pw") None) "1.1.1.1") m
    = (Refused (SessionLimitError "1.1.1.1" 1), m') /\
  (Z.of_nat (sessions_from "1.1.1.1" m) + Z.of_nat (in_flight (sy_attempts (gateway opened)) "1.1.1.1") <= 1)%Z /\
  (1 <= Z.of_nat (sessions_from "1.1.1.1" m') + 0)%Z.
Proof.
  split; [done |].
  assert (Hl : limits_positive one_each) by done.
  destruct (session_admission one_each shipped_targets 3600 2 60 (Some (new_registry 1000)) true opened Hl)
    as (H1 & _ & _ & H4).
  eexists. split; [by_eval |]. split; [by apply (H1 "1.1.1.1") |].
  edestruct (H4 (at_ 2) (from_route (login (Some "pw") None) "1.1.1.1") "1.1.1.1" 1%Z) as (_ & _ & H);
    [by_eval | exact H].
Defined.

Lemma transport_isolation_witness :
  exists m', begin_create one_each (at_ 2) (from_route (login (Some "pw") None) "2.2.2.2")
      (sy_manager (gateway parked_again)) = (Connected "second", m') /\
  exists addr s a, dict_get "second" (_sessions m') = Some addr /\ record_at m' addr = Some s /\
    In a (sy_opened (gateway parked_again)) /\ d_client (a_dial a) = s_client s /\
    fingerprint_of (a_request a) = fingerprint_of (from_route (login (Some "pw") None) "2.2.2.2").
Proof.
  destruct (transport_isolation one_each shipped_targets 3600 2 60 (Some (new_registry 1000)) true parked_again)
    as (_ & H & _).
  eexists. split; [by_eval |].
  edestruct (H (at_ 2) (from_route (login (Some "pw") None) "2.2.2.2") "second")
    as (addr & s & a & H1 & H2 & H3 & H4 & _ & _ & H5); [by_eval |].
  exists addr, s, a. exact (conj H1 (conj H2 (conj H3 (conj H4 H5)))).
Defined.

Lemma target_pinned_witness :
  Forall (routed shipped_targets) parked_again /\
  forall a, In a (sy_opened (gateway parked_again)) -> exists ip, pinned_to shipped_targets (a_dial a) ip.
Proof.
  assert (Hr : Forall (routed shipped_targets) parked_again) by (by repeat constructor).
  split; [exact Hr |].
  apply (target_pinned one_each shipped_targets 3600 2 60 (Some (new_registry 1000)) true parked_again Hr).
Defined.

Lemma printed_addresses_witness :
  ip_object "FE80:0::00aB%eth0" = Some (mkAddress (V6 (2 ^ 127 + 2 ^ 126 + 2 ^ 125 + 2 ^ 124 + 2 ^ 123 + 2 ^ 122 + 2 ^ 121 + 2 ^ 119 + 171)%Z) (Some "eth0")) /\
  ip_object "fe80::ab%eth0" = ip_object "FE80:0::00aB%eth0".
Proof.
  split; [by_eval |]. destruct printed_addresses as (H & _).
  transitivity (ip_object (address_str (mkAddress (V6 (2 ^ 127 + 2 ^ 126 + 2 ^ 125 + 2 ^ 124 + 2 ^ 123 + 2 ^ 122 + 2 ^ 121 + 2 ^ 119 + 171)%Z) (Some "eth0")))).
  - by_eval.
  - rewrite (H "FE80:0::00aB%eth0"); by_eval.
Defined.

Definition leased_run : list event := opened ++ [OnLease 1000000 "first"].
Lemma leases_pin_witness :
  leased (sy_manager (gateway leased_run)) 0 /\
  dict_get "first" (_sessions (sy_manager (gateway leased_run))) = Some 0%nat /\
  ~ disconnects (OnCleanup 10000000000000) "first" /\
  stays (sy_manager (gateway leased_run))
    (sy_manager (step one_each shipped_targets (OnCleanup 10000000000000) (gateway leased_run))) "first" 0.
Proof.
  assert (Hl : leased (sy_manager (gateway leased_run)) 0).
  { eexists. split; [by_eval |]. by_eval. }
  assert (Hg : dict_get "first" (_sessions (sy_manager (gateway leased_run))) = Some 0%nat) by by_eval.
  assert (Hd : ~ disconnects (OnCleanup 10000000000000) "first") by (intros []).
  split; [exact Hl |]. split; [exact Hg |]. split; [exact Hd |].
  by apply (proj2 (leases_pin one_each shipped_targets)).
Defined.

Definition a_key_ (host : string) : PoolKey := mkKey host 22 "root" "password" "fp" (Some "10.0.0.5").
Definition pool_use : list (Z * pool_event) :=
  [(0%Z, PRelease (a_key_ "a") 1); (5%Z, PRelease (a_key_ "b") 2); (7%Z, PAcquire (fun _ => true) (a_key_ "b"));
   (8%Z, PRelease (a_key_ "b") 2); (9%Z, PRelease (a_key_ "b") 3)].
Lemma pool_conserves_witness :
  clocked 0 pool_use /\
  let h := pool_run pool_use (mkHistory (new_pool 2 60) [] [] []) in
  ph_closed h = [1%nat] /\ ph_parked h ≡ₚ ph_handed h ++ ph_closed h ++ all_clients (_idle (ph_pool h)).
Proof.
  assert (Hc : clocked 0 pool_use) by (simpl; lia). split; [exact Hc |]. split; [by_eval |].
  apply (pool_conserves 2 60 0 pool_use Hc).
Defined.

(** ** What the comments promise and the code does not do *)
(** The fingerprint covers the password only when both a password and a key are given, but the
    dial offers the key too.  A transport that the key opened is parked under the fingerprint of
    the password, and handed to a caller who knows that password text and not the key. *)
Definition key_holder : list event :=
  [connect 0 0 (login (Some "x") (Some "PRIVATE KEY")) "1.1.1.1"; OnDialled 0 (at_ 0) up;
   OnDisconnect (at_ 1) "first"].
Example password_text_opens_key_transport :
  let sy := gateway key_holder in
  exists m' a, begin_create one_each (at_ 2) (from_route (login (Some "x") None) "6.6.6.6") (sy_manager sy)
    = (Connected "second", m') /\
  sy_opened sy = [a] /\ d_pkey (a_dial a) = Some ("PRIVATE KEY", None) /\
  option_map s_client (record_at m' 1) = Some (d_client (a_dial a)).
Proof. do 2 eexists. split; [by_eval |]. split; [by_eval |]. split; by_eval. Qed.

(** Five failed dials open the breaker; a minute later three wrong passwords use up its trial
    calls, and [failed_passwords_lock_host] applies: the host is refused to everyone from then
    on, although it answers. *)
Definition attempt_at (tid : nat) (t : Z) (n : Network) : list event :=
  [connect tid t (login (Some "guess") None) "6.6.6.6"; OnDialled tid (at_ t) n].
Definition locking : list event :=
  flat_map (fun i => attempt_at i (Z.of_nat i) down) (seq 0 5) ++
  flat_map (fun i => attempt_at i (100 + Z.of_nat i) wrong_password) (seq 5 3).
Definition no_pool (es : list event) : System :=
  reached one_each shipped_targets 3600 0 60 (Some (new_registry 1000)) true es.
Example wrong_passwords_lock_host :
  locked_out (sy_manager (no_pool locking)) "db.lan" /\
  Forall (fun p => exists e, p = Refused e)
    (try_each one_each [(at_ 1000, from_route (login (Some "pw") None) "1.1.1.1");
                        (at_ 1000000, from_route (login (Some "pw") None) "2.2.2.2")]
       (sy_manager (no_pool locking))).
Proof.
  assert (Hl : locked_out (sy_manager (no_pool locking)) "db.lan").
  { split; [by_eval |]. do 3 eexists. split; [by_eval |]. split; [by_eval |]. split; [by left |].
    split; [by_eval |]. split; [by_eval | by vm_compute]. }
  split; [exact Hl |]. apply (failed_passwords_lock_host one_each "db.lan"); [exact Hl |].
  by repeat constructor.
Qed.

(** A refusal for the limit forgets the sessions it has just reaped.  An address holds two
    sessions of the master lane, one of them idle; an ordinary request from it is refused, the
    idle session has left the table, and its client is never closed. *)
Definition two_lanes : Settings := mkSettings 1 2 true true.
Definition root_key : Identity := mkIdentity "master" None (Some "fp-master") [].
Definition by_master (tid : nat) (t : Z) : list event :=
  [OnConnect tid (at_ t) lan (login (Some "pw") None) root_key "1.1.1.1"; OnDialled tid (at_ t) up].
Definition crowded : System :=
  reached two_lanes shipped_targets 3600 0 60 None true (by_master 0 0 ++ by_master 1 3600).
Example refusal_forgets_reaped :
  let m := sy_manager crowded in
  let '(p, m') := begin_create two_lanes (at_ 3700) (from_route (login (Some "pw") None) "1.1.1.1") m in
  (keys (_sessions m), keys (_sessions m'), p, sm_closed m')
  = (["first"; "second"], ["second"], Refused (SessionLimitError "1.1.1.1" 1), []).
Proof. by_eval. Qed.

(** Disconnecting a session with an operation in progress parks its transport, and the next
    session for the same credential gets it while the operation still runs on it. *)
Definition busy : list event :=
  opened ++ [OnExecute (at_ 1) "first"; OnDisconnect (at_ 1) "first"; connect 1 2 (login (Some "pw") None) "2.2.2.2"].
Example busy_transport_is_shared :
  map (fun s => (s_session_id s, s_client s, s_active_operations s)) (sm_heap (sy_manager (gateway busy)))
  = [("first", 0%nat, 1%Z); ("second", 0%nat, 0%Z)].
Proof. by_eval. Qed.

(** An IPv4-mapped IPv6 address is no member of an IPv4 network: without an allowlist, the
    mapped form of a denied address passes. *)
Example mapped_address_passes :
  map (fun h => is_ok (validate_target_host lan h "" DENIED_TARGET_CIDRS))
    ["169.254.169.254"; "::ffff:169.254.169.254"; "127.0.0.1"; "::ffff:127.0.0.1"]
  = [false; true; false; true].
Proof. by_eval. Qed.
