(* ===== verification/CoordinationWitnesses.v ===== *)
(** * The properties of [CoordinationSpec] at concrete inputs

    A server in memory that satisfies what the API documents, the properties on it, and three
    places where threads go wrong. *)
From stdpp Require Import list.
From S2P Require Import Prelude PyStr Regex RegexParse Digests Coordination CoordinationSpec.
From stdpp Require Import options.

#[local] Open Scope Z_scope.
#[local] Set Default Proof Using "Type".

(** ** A server in memory *)
Record gitea : Type := mkGitea { g_issue : Z -> list (string * value); g_rows : Z -> list value; g_next : Z }.

Definition update {A} (n : Z) (f : A -> A) (g : Z -> A) : Z -> A := fun m => if m =? n then f (g n) else g m.
Definition row_of (identifier : Z) (type login body : string) : value :=
  VDict [("id", VInt identifier); ("type", VStr type); ("body", VStr body); ("user", VDict [("login", VStr login)])].
Definition add_row (n : Z) (type login body : string) (s : gitea) : gitea :=
  mkGitea (g_issue s) (update n (fun rows => rows ++ [row_of (g_next s) type login body]) (g_rows s)) (g_next s + 1).
Definition set_issue (n : Z) (key : string) (v : value) (s : gitea) : gitea :=
  mkGitea (update n (dict_set key v) (g_issue s)) (g_rows s) (g_next s).

Definition memory_serve (c : gitea_call) (s : gitea) : value * gitea :=
  match c with
  | ListIssues _ => (VList [], s)
  | GetIssue n =>
      (VDict (dict_set "comments" (VInt (Z.of_nat (List.length (user_comments (g_rows s n))))) (g_issue s n)), s)
  | ListTimeline n p => (VList (page_of p (g_rows s n)), s)
  | GetUser => (VDict [("login", VStr "gateway")], s)
  | CreateIssue _ _ => (VNone, s)
  | CreateComment n b => (VDict [("id", VInt (g_next s)); ("body", VStr b)], add_row n "comment" "gateway" b s)
  | CloseIssue n =>
      (VDict [("number", VInt n)], add_row n "close" "gateway" "" (set_issue n "state" (VStr "closed") s))
  end.

#[local] Instance memory : GiteaServer := {
  server := gitea; serve := memory_serve; timeline := g_rows; service_login := "gateway"
}.

Lemma memory_documented : documented.
Proof.
  split.
  - done.
  - intros s. by exists [("login", VStr "gateway")].
  - intros n s. eexists. split; [reflexivity |]. unfold no_comments. cbn [field].
    rewrite dict_get_set_eq. simpl. destruct (user_comments (g_rows s n)) eqn:E; [done |].
    intros Hc. exfalso. simpl in Hc. lia.
  - intros n p s Hp. eexists. split; [reflexivity | by left].
  - intros n b s. eexists _, _, (row_of (g_next s) "comment" "gateway" b). split; [reflexivity |].
    split; [| done]. intros m. simpl. unfold update. by destruct (m =? n).
  - intros n s. eexists _, _, [row_of (g_next s) "close" "gateway" ""]. split; [reflexivity |]. split; [done |].
    intros m. simpl. unfold update. by destruct (m =? n).
Qed.

(** ** Thread 7, opened by project alpha *)
Definition opened : string :=
  _header KIssue (mkMarker "thread-0007" "alpha" "open" "") +s+ nl +s+ "Please update the shared schema.".
Definition start : gitea :=
  mkGitea (fun n => if n =? 7 then [("number", VInt 7); ("title", VStr "Schema"); ("body", VStr opened); ("state", VStr "open")] else [])
    (fun _ => []) 1.
Definition at_start : world := mkWorld start [] [].

(** Somebody else writes what looks like an event of the service. *)
Definition forged (s : gitea) : gitea :=
  add_row 7 "comment" "eve" (_header KEvent (mkMarker "accept-0001" "" "resolved" "") +s+ nl +s+ "done") s.
Definition forge : turn := mkTurn (forged : server -> server) Delivered.
Definition lose : turn := mkTurn (fun s => s) (Lost FTransport).
Definition refuse : turn := mkTurn (fun s => s) (Refused FTransport).

Lemma add_row_grows n type login body (s : gitea) m : timeline (s : server) m `prefix_of` timeline (add_row n type login body s : server) m.
Proof.
  simpl. unfold update. destruct (m =? n) eqn:E; [| done]. apply Z.eqb_eq in E as ->. by eexists.
Qed.
Lemma forged_history s : exists e, history_at (forged s : server) 7 = history_at (s : server) 7 ++ [e] /\
  en_request_key e = None /\ en_state e = None.
Proof.
  exists (history_entry "gateway" (row_of (g_next s) "comment" "eve"
            (_header KEvent (mkMarker "accept-0001" "" "resolved" "") +s+ nl +s+ "done"))).
  split; [| by split]. unfold history_at. simpl. unfold update. simpl. by rewrite user_comments_app, map_app.
Qed.

Lemma forged_keeps s key : without_key 7 key (s : server) (forged s) /\ without_events 7 (s : server) (forged s).
Proof.
  destruct (forged_history s) as (e & He & Hk & Hs). split; (split; [intros n; apply add_row_grows |]).
  - unfold keyed_at. rewrite He, keyed_app. simpl. rewrite Hk. simpl. by rewrite app_nil_r.
  - unfold states_at. rewrite He, omap_app. simpl. rewrite Hs. by rewrite app_nil_r.
Qed.

Ltac fair_turn :=
  split; [first [exact I | reflexivity] | intros s0; cbn [t_others undisturbed forge lose refuse];
    first [reflexivity | exact (proj1 (forged_keeps _ _)) | exact (proj2 (forged_keeps _ "")) | intros ?; apply add_row_grows]].
Ltac fair_turns := repeat (apply Forall_cons; split; [fair_turn |]); apply Forall_nil; exact I.

(** The first attempt posts its comment but hears nothing, and dies while it looks; the second
    finds the event; the third, with another text, is told that the key is taken. *)
Definition accepts : list write_attempt := [
  mkAttempt "  On it.  " "accepted" "" [forge; undisturbed; undisturbed; lose; undisturbed];
  mkAttempt "On it." "accepted" "" [forge; undisturbed; undisturbed];
  mkAttempt "Not now." "message" "" [undisturbed; undisturbed; undisturbed]].

Lemma event_once_witness :
  let (answers, w') := write_attempts 7 "accept-0001" accepts at_start in
  List.length answers = 3%nat /\ (exists e, answers !! 1%nat = Some (Some (inl e))) /\
  (List.length (keyed_at (w_server w') 7 "accept-0001") <= 1)%nat /\
  holds_event (w_server w') 7 "accept-0001" "accepted" "On it.".
Proof.
  assert (Hf : Forall (fun a => actor_ok (wa_actor a) /\ fair (without_key 7 "accept-0001") (wa_turns a)) accepts).
  { repeat (apply Forall_cons; split; [split; [by left | fair_turns] |]). by apply Forall_nil. }
  destruct (event_once 7 "accept-0001" accepts at_start memory_documented eq_refl Hf) as [Hone Hheld].
  destruct (write_attempts 7 "accept-0001" accepts at_start) as [answers w'] eqn:E.
  assert (Ha : answers = fst (write_attempts 7 "accept-0001" accepts at_start)) by (by rewrite E).
  assert (Hl : List.length answers = 3%nat) by (rewrite Ha; vm_compute; reflexivity).
  assert (Hsome : exists e, answers !! 1%nat = Some (Some (inl e))) by (rewrite Ha; vm_compute; eexists; reflexivity).
  split; [exact Hl |]. split; [exact Hsome |]. split; [exact Hone |].
  destruct Hsome as [e He]. exact (Hheld 1%nat _ e eq_refl He).
Defined.

Definition accepted : world := snd (write_attempts 7 "accept-0001" accepts at_start).

Lemma event_written_witness :
  exists calls e w', forall more, (calls <= more)%nat ->
    exec (write_event 7 "Ready: see !12" "review-0001" "waiting_review" "00112233445566aa") (replicate more undisturbed) accepted
      = (Some (inl e), w') /\ we_created e = true /\
    holds_event (w_server w') 7 "review-0001" "waiting_review" (strip "Ready: see !12").
Proof.
  apply (event_written 7 "Ready: see !12" "review-0001" "waiting_review" "00112233445566aa" accepted memory_documented).
  - left. vm_compute. discriminate.
  - lia.
  - right. by split.
  - by_eval.
  - vm_compute. discriminate.
  - set (rows := timeline _ 7). vm_compute in rows. subst rows.
    repeat (eapply inc_cons; [reflexivity | lia | reflexivity | reflexivity | by intros | ]). constructor.
  - by_eval.
  - vm_compute. discriminate.
  - vm_compute. discriminate.
  - by_eval.
  - by_eval.
  - by_eval.
  - by_eval.
  - by_eval.
Defined.

(** A thread to its end: accepted, discussed, reviewed and resolved, and what comes too late *)
Definition writers : list (string * write_attempt) :=
  let all := [forge; undisturbed; undisturbed; undisturbed] in [
    ("accept-0001", mkAttempt "On it." "accepted" "" all);
    ("resolve-0001", mkAttempt "Too early." "resolved" "" all);
    ("message-0001", mkAttempt "A question." "message" "" all);
    ("review-0001", mkAttempt "Ready." "waiting_review" "" all);
    ("resolve-0002", mkAttempt "Works, thanks." "resolved" "" (all ++ [lose]));
    ("message-0002", mkAttempt "Too late." "message" "" all)].
Definition at_end : world := write_events 7 writers at_start.

Definition story : list string := ["accepted"; "message"; "waiting_review"; "resolved"].
Lemma thread_lawful_witness :
  states_at (w_server (write_events 7 writers at_start)) 7 = story /\
  lawful_from "open" (states_at (w_server (write_events 7 writers at_start)) 7) /\
  last (states_at (w_server (write_events 7 writers at_start)) 7) = Some "resolved".
Proof.
  assert (Hs : states_at (w_server (write_events 7 writers at_start)) 7 = story) by by_eval.
  assert (Hf : Forall (fun ka => actor_ok (wa_actor (snd ka)) /\ fair (without_events 7) (wa_turns (snd ka))) writers).
  { repeat (apply Forall_cons; split; [split; [by left | fair_turns] |]). by apply Forall_nil. }
  assert (Hin : In "resolved" story) by (right; right; right; by left).
  split; [exact Hs |]. destruct (thread_lawful 7 writers at_start memory_documented Hf I) as [Hl Hr].
  split; [exact Hl |]. apply Hr. rewrite Hs. exact Hin.
Defined.

Definition readers : list turn := [forge; undisturbed; forge].
Lemma thread_read_whole_witness :
  exists t w' s, exec (open_thread 7 false) readers at_end = (Some (inl t), w') /\
    grows (w_server at_end) s /\ grows s (w_server w') /\ snapshot 7 t s.
Proof.
  assert (Hf : fair grows readers) by fair_turns.
  assert (Hrun : match fst (exec (open_thread 7 false) readers at_end) with Some (inl _) => true | _ => false end = true) by by_eval.
  destruct (exec (open_thread 7 false) readers at_end) as [[[t|]|] w'] eqn:E; [| discriminate Hrun | discriminate Hrun].
  destruct (thread_read_whole 7 readers at_end t w' memory_documented Hf E) as (s & Hs).
  exists t, w', s. split; [reflexivity | exact Hs].
Defined.

Lemma markers_read_back_witness :
  let m := mkMarker "accept-0001" "" "accepted" "00112233445566aa" in
  let body := _header KEvent m +s+ nl +s+ "On it." in
  _parse (VStr body) KEvent = Some m /\ _parse (VStr body) KIssue = None /\ after_line body = "On it.".
Proof.
  intros m body. assert (Hp : proper KEvent m) by (split; [by_eval | split; [by split | right; by split]]).
  destruct (markers_read_back KEvent) as [Hback _]. destruct (Hback m "On it." Hp) as [Hparse Hafter].
  split; [exact (Hparse KEvent) | split; [exact (Hparse KIssue) | exact Hafter]].
Defined.

(** ** Closing thread 7 *)
Definition quietly (n : nat) : list turn := replicate n undisturbed.
Definition read_back : option thread :=
  match fst (exec (open_thread 7 false) (quietly 3) at_end) with Some (inl t) => Some t | _ => None end.
Definition resolution_id : Z :=
  match read_back with
  | Some t => match last (List.filter (fun e => match en_state e with Some _ => true | None => false end) (th_history t)) with Some e => match en_id e with VInt n => n | _ => 0 end | None => 0 end
  | None => 0
  end.
Definition close_by (key : string) : close_request :=
  mkClose resolution_id (match read_back with Some t => th_state_sha256 t | None => "" end) key "Done." "00112233445566aa".
(** The answer of the PATCH is lost and the process dies; the same key again; another
    key, refused because the thread is not as it was reviewed. *)
Definition closers : list (close_request * list turn) :=
  [(close_by "close-0001", quietly 11 ++ [lose]); (close_by "close-0001", quietly 6); (close_by "close-0002", quietly 8)].
Definition close_trace : list close_run := close_runs "gpakoh" "shared" 7 closers at_end.

Definition answer_of (c : close_run) : option (bool * bool) :=
  match cn_answer c with Some (inl x) => Some (cl_already_closed x, cl_reconciled x) | _ => None end.
Lemma close_trace_answers :
  map (fun c => (patches_sent c, answer_of c)) close_trace = [(1%nat, None); (0%nat, Some (true, true)); (0%nat, None)].
Proof. by_eval. Qed.

Lemma close_once_witness :
  (list_sum (map patches_sent (runs_of "close-0001" (close_runs "gpakoh" "shared" 7 closers at_end))) <= 1)%nat /\
  (forall c, In c (close_runs "gpakoh" "shared" 7 closers at_end) -> patches_sent c <> 0%nat ->
     reviewed 7 (cn_request c) (cn_before c) (cn_after c)).
Proof.
  assert (Hf : Forall (fun rt => fair grows (snd rt)) closers).
  { assert (Hq : forall n, fair grows (quietly n)) by (intros n; apply replicate_fair, _).
    assert (Hl : fair grows (quietly 11 ++ [lose])).
    { apply Forall_app. split; [apply Hq | fair_turns]. }
    apply Forall_cons. split; [exact Hl |]. apply Forall_cons. split; [apply Hq |].
    apply Forall_cons. split; [apply Hq | by apply Forall_nil]. }
  destruct (close_once "gpakoh" "shared" 7 closers at_end memory_documented Hf) as [Hone Heach].
  split; [exact (Hone "close-0001") |]. intros c Hc. exact (proj1 (Heach c Hc)).
Defined.

(** ** Where threads go wrong *)
(** Two writers of a thread that waits for review: both read it, one sends it back to work, the
    other resolves it, and each move was allowed where its writer saw the thread. *)
Definition in_review : world := write_events 7 (firstn 4 writers) at_start.
Definition sent_back (s : server) : server :=
  (add_row 7 "comment" "gateway" (_header KEvent (mkMarker "accept-0002" "" "accepted" "") +s+ nl +s+ "Not yet.") s : server).
Example two_writers_race :
  let run := exec (write_event 7 "Works." "resolve-0003" "resolved" "")
               [undisturbed; undisturbed; undisturbed; mkTurn sent_back Delivered] in_review in
  states_at (w_server (snd run)) 7 = ["accepted"; "message"; "waiting_review"; "accepted"; "resolved"] /\
  ~ lawful_from "open" (states_at (w_server (snd run)) 7) /\
  match fst run with Some (inl e) => we_created e = true | _ => False end.
Proof.
  cbv zeta. assert (Hs : states_at (w_server (snd (exec (write_event 7 "Works." "resolve-0003" "resolved" "")
    [undisturbed; undisturbed; undisturbed; mkTurn sent_back Delivered] in_review))) 7 =
    ["accepted"; "message"; "waiting_review"; "accepted"; "resolved"]) by by_eval.
  split; [exact Hs |]. rewrite Hs. split; [| by_eval].
  intros (_ & _ & _ & _ & H & _). vm_compute in H. discriminate H.
Qed.

(** A server that sends an empty page as [null], as the code expects it may: once the timeline
    has exactly fifty rows, nothing can be written to the thread. *)
Definition null_pages (c : gitea_call) (s : gitea) : value * gitea :=
  match memory_serve c s with (VList [], s') => (VNone, s') | r => r end.
Definition full_page : gitea :=
  mkGitea (g_issue start)
    (fun _ => map (fun i => row_of (Z.of_nat i) (if Nat.eqb i 3 then "comment" else "label") "gateway" "") (seq 1 50)) 51.
Example fifty_rows_block :
  let api := Build_GiteaServer gitea null_pages g_rows "gateway" in
  fst (@exec api _ (write_event 7 "On it." "accept-0009" "accepted" "") (replicate 9 (@undisturbed api)) (@mkWorld api full_page [] []))
  = Some (inr (FOutcomeUnknown "Gitea timeline returned null with unverified comment history")).
Proof. by_eval. Qed.
